(* ===== verification/_CoqProject ===== *)
-Q . S2P
Prelude.v
Arith.v
FixedPoint.v
Memory.v
CString.v
CStdlib.v
Lists.v
ListSpec.v
ListSort.v
ListOps.v
Hash.v
HashSpec.v
Bitmap.v
Sched.v
Synch.v
Intq.v
Serial.v
Kbd.v
Vaddr.v
Palloc.v
Malloc.v
MallocSpec.v
Pagedir.v
Boot.v
AddrSpace.v
Block.v
FsState.v
FreeMap.v
Inode.v
FsAlloc.v
File.v
Directory.v
DirSpec.v
Filesys.v
Load.v
LoadSpec.v
LoadFs.v
ArgStack.v
Wait.v
Syscall.v
SyscallSpec.v
Stdio.v
StdioSpec.v
Random.v
Ustar.v
Partition.v
Timer.v
Rtc.v
Ide.v
Interrupt.v
Vga.v
Fsutil.v
