(* ===== verification/Prelude.v ===== *)
(** * A verification of the Pintos kernel

    The repository is an extended Pintos: a teaching kernel for a single x86
    processor with preemptive threads, user processes, system calls, a write-back
    buffer cache and a hierarchical file system with growing files.  The C code
    is under src/pintos/src; file names below are relative to it.  The library
    translates the routines of the kernel into executable definitions and proves
    the properties their callers rely on.

    ** The program and its model

    A kernel routine is a function of type [M S A], from the state [S] of the
    component it belongs to into an [outcome] (this file): it returns, stops in
    an ASSERT or PANIC, touches memory that is not there, or blocks.  A blocked
    outcome carries the state left to the other threads and the rest of the
    routine, so that interleavings are explicit.  [lift] embeds the state of a
    component into that of its clients; a pointer to a member of a shared
    structure is a pair of accessors ([ptr] in Synch).  Machine integers are
    integers with their wrap-around written out.

    Library code (lib/):
    - [Memory], [CString], [CStdlib]: byte-addressed memory; string.c and
      stdlib.c over it.
    - [Arith], [FixedPoint]: arithmetic.c and threads/fixed-point.h.
    - [Lists], [ListSpec], [ListSort], [ListOps]: lib/kernel/list.c on a heap of
      linked elements; the representation predicate, the merge sort, and
      programs of list operations.
    - [Hash], [HashSpec]: lib/kernel/hash.c on those lists and on a malloc() that
      may fail.
    - [Bitmap]: lib/kernel/bitmap.c.
    - [Stdio], [StdioSpec]: stdio.c, and the text the C standard gives a format.
    - [Random], [Ustar]: random.c and ustar.c.

    Kernel core (threads/):
    - [Sched]: thread.c and interrupt.c, the scheduler's state and its operations.
    - [Synch]: synch.c over the scheduler.  A component that has locks states it
      with an instance of the class [Kernel].
    - [Vaddr], [Palloc]: vaddr.h, pte.h and palloc.c, over bitmaps, locks and
      memory.
    - [Malloc], [MallocSpec]: malloc.c on the page allocator, the lists and the
      locks; its contract.
    - [Boot]: paging_init() of init.c.
    - [Interrupt]: the descriptor table and the dispatch of interrupt.c, gdt.c,
      and exception.c with the whole of process_exit() and thread_exit().

    Devices and file system (devices/, filesys/):
    - [Intq], [Serial], [Kbd], [Vga]: intq.c and input.c, serial.c, kbd.c,
      vga.c and speaker.c.  Port writes are recorded, port reads take their
      answers from a given list.
    - [Timer], [Rtc]: timer.c and pit.c, rtc.c.
    - [Partition], [Ide]: partition.c on the registry of block devices, ide.c
      against an automaton of the drive.
    - [Block]: block.c, the device registry and the buffer cache.
    - [FsState], [FreeMap], [Inode], [FsAlloc], [File]: free-map.c, inode.c and
      file.c.  They are written against the class [SectorStore], of which the
      buffer cache is an instance.  free-map.c and inode.c call each other: the
      call back is a parameter of FreeMap that Inode ties.
    - [Directory], [DirSpec], [Filesys]: directory.c and filesys.c.
    - [Fsutil]: fsutil.c, archives on the scratch device.

    User programs (userprog/):
    - [Pagedir], [AddrSpace]: pagedir.c, page tables in the memory of the page
      allocator; the pages a directory owns.
    - [Load], [LoadSpec], [LoadFs]: load() of process.c against an interface to
      files, the image it builds, and the file system as an instance.
    - [ArgStack]: load_stack() of process.c.
    - [Wait]: the records parents and children share (thread.c, process.c,
      exception.c).
    - [Syscall], [SyscallSpec]: the system call handler of syscall.c.

    ** What the theorems show

    - Refinement.  The buffer cache is a flat array of sectors and
      flush_buffer_cache() makes it durable (Block).  Linked lists are
      sequences, hash tables sets, page directories maps from pages to frames,
      directories maps from names to sectors (ListOps, HashSpec, Pagedir,
      DirSpec).  A partition is a window of its disk (Partition).
    - Invariants under every interleaving or sequence of operations: the
      scheduler's queue and thread states (Sched), mutual exclusion of locks,
      whose operations are preempted between their steps (Synch), page groups in
      use are disjoint (Palloc), blocks of malloc() keep their contents
      (MallocSpec), wait statuses are neither leaked nor used after free and
      hand over exit codes (Wait), queues are first-in first-out (Intq, Serial),
      the generator's state stays a permutation (Random).
    - Functional correctness of each routine, with its error branches: reads and
      writes of files through direct, indirect and doubly indirect blocks (File),
      first-fit scans (Bitmap), paths (DirSpec), the image of an executable and
      its pages on every exit of load() (LoadSpec), the argument stack
      (ArgStack), the kernel's page tables as the processor walks them (Boot),
      the interrupt descriptor table (Interrupt), formatted output (StdioSpec),
      archive headers and archives (Ustar, Fsutil), tokenising and memmove()
      (CString), sorting and searching (CStdlib, ListSort), 64-bit division
      (Arith), checks of user pointers and the choice of descriptors
      (SyscallSpec).
    - Devices against a description of the hardware of their own: the transfers
      of a disk (Ide), the characters a key sequence types (Kbd), the lines on
      the screen (Vga), the calendar (Rtc), sleeping and the calibration of
      delays (Timer).
    - Termination, as the existence of a result for the fuel a loop is given:
      clock replacement (Block), merge sort (ListSort), heap sort and binary
      search (CStdlib); progress of ready threads (Sched).
    - What the code does where it goes wrong, as theorems about the same
      definitions: a woken reader that panics and the cache that ignores the
      device (Block), the sector can_allocate() loses (File), a file name that
      runs into unmapped memory (SyscallSpec), a request too large for the sums of
      malloc() (MallocSpec), a search for an unbound ".." (DirSpec), formats
      printf() gets wrong (StdioSpec), the end marker of an archive (Fsutil), the
      range of fix_int() (FixedPoint) and of 64-bit remainders (Arith).

    ** Fuel

    Loops of the C code whose length is not a structural argument take fuel, and
    [NoFuel] marks its exhaustion; the theorems state [Ok] results, so that they
    include that the fuel is enough.  Scans over memory are bounded by the number
    of mapped bytes, loops over a list by the number of elements in the heap,
    clock replacement by two turns of its hand, heapify() by the number of
    elements, transfers of inode.c by the number of bytes, loops over a directory
    by its number of entries and one more, and the recursion between inode.c and
    free-map.c by the depth of nested writes, which is one when the free map's
    file has its full length.  Loops that wait for other threads or for a device
    have no bound of their own: in the theorems on locks, semaphores and
    timer_sleep() the fuel is a variable, any number above that of the
    resumptions considered; partition_scan(), rtc_get_time() and the loops of
    fsutil.c take theirs as an argument, any value above the nesting, the
    changes of the clock or the file length of the statement.  The clients that
    wait use [wakeups] of Synch: a thread they let be woken more than a thousand
    times in vain is beyond their models, a call that need not wait does not
    depend on it.

    ** Not modelled

    The assembly of the boot loader, of context switches, interrupt stubs and of
    the system call stubs of user programs; the task-state segment (tss.c); the
    rest of init.c, which calls the initialisers of the components in turn;
    shutdown.c; the locking and buffering of console.c; the backtraces of
    debug.c.  Switches are atomic steps of Sched.  The behaviour of hardware and
    the code of the linker are parameters or specifications of the theorems.
    The [ _no_buffer ] variants in inode.c, which nothing calls, are left out.
    The theorems on directories do not cover their growth by another sector nor
    the removal of a file nobody has open.

    ** This file

    The vocabulary shared by every component: machine integers at their
    width, byte buffers, little-endian words, and the monad in which kernel
    code runs.  A kernel routine is a function [M S A] from a state [S] to an
    [outcome]: it returns ([Ok]), stops the machine in an [ASSERT] or [PANIC]
    ([Panic]), touches memory outside an object or through a null pointer
    ([Fault]), or blocks the running thread ([Blocked]): then the outcome holds
    the state left to the other threads and the rest of the routine, a
    function of the state in which the thread runs again.  [NoFuel] is the
    artefact of a bounded loop and is never a result of the code.  [wp m Q s]
    is total correctness: [m] started in [s] returns without blocking. *)

From Stdlib Require Import ZArith Lia FunctionalExtensionality.
From stdpp Require Import base tactics option list numbers gmap.

#[export] Set Default Goal Selector "1".
Declare Scope pintos_scope.
Delimit Scope pintos_scope with pintos.
Open Scope Z_scope.

(** ** The kernel monad *)

Inductive outcome (S A : Type) : Type :=
| Ok (r : A * S)
| Panic
| Fault
| Blocked (s : S) (resume : S → outcome S A)
| NoFuel.
Arguments Ok {S A} r.
Arguments Panic {S A}.
Arguments Fault {S A}.
Arguments Blocked {S A} s resume.
Arguments NoFuel {S A}.

Definition M (S A : Type) : Type := S → outcome S A.

Definition ret {S A} (a : A) : M S A := λ s, Ok (a, s).

Fixpoint obind {S A B} (o : outcome S A) (k : A → M S B) : outcome S B :=
  match o with
  | Ok (a, s') => k a s'
  | Panic => Panic
  | Fault => Fault
  | Blocked s' r => Blocked s' (λ s'', obind (r s'') k)
  | NoFuel => NoFuel
  end.

Definition bind {S A B} (m : M S A) (k : A → M S B) : M S B :=
  λ s, obind (m s) k.

Definition get {S} : M S S := λ s, Ok (s, s).
Definition gets {S A} (f : S → A) : M S A := λ s, Ok (f s, s).
Definition modify {S} (f : S → S) : M S unit := λ s, Ok (tt, f s).
Definition panic {S A} : M S A := λ _, Panic.
Definition fault {S A} : M S A := λ _, Fault.
Definition no_fuel {S A} : M S A := λ _, NoFuel.

(** The running thread stops here; it goes on in the state in which it is
    next scheduled. *)
Definition suspend {S} : M S unit := λ s, Blocked s (λ s', Ok (tt, s')).

(** [ASSERT (b)] of lib/debug.h. *)
Definition assert {S} (b : bool) : M S unit := if b then ret tt else panic.

(** Dereferencing: [None] is an invalid pointer. *)
Definition deref {S A} (o : option A) : M S A :=
  match o with Some a => ret a | None => fault end.

(** Run a routine of a component on the part of the state it owns. *)
Fixpoint olift {S T A} (view : S → T) (put : T → S → S) (s : S)
    (o : outcome T A) : outcome S A :=
  match o with
  | Ok (a, t) => Ok (a, put t s)
  | Panic => Panic
  | Fault => Fault
  | Blocked t r => Blocked (put t s) (λ s', olift view put s' (r (view s')))
  | NoFuel => NoFuel
  end.

Definition lift {S T A} (view : S → T) (put : T → S → S) (m : M T A) : M S A :=
  λ s, olift view put s (m (view s)).

Notation "'let*' x ':=' m 'in' k" := (bind m (λ x, k))
  (at level 10, x pattern, m at level 200, k at level 200,
   format "'[v' 'let*'  x  ':='  m  'in' '/' k ']'") : pintos_scope.
Notation "m ;;; k" := (bind m (λ _, k))
  (at level 100, k at level 200, right associativity,
   format "'[v' m ;;; '/' k ']'") : pintos_scope.
Open Scope pintos_scope.

Definition wp {S A} (m : M S A) (Q : A → S → Prop) (s : S) : Prop :=
  match m s with Ok (a, s') => Q a s' | _ => False end.

(** ** Machine integers *)

Definition u8 (z : Z) : Z := z mod 256.
Definition u16 (z : Z) : Z := z mod 65536.
Definition u32 (z : Z) : Z := z mod 4294967296.
Definition u64 (z : Z) : Z := z mod 18446744073709551616.
Definition s32 (z : Z) : Z := (z + 2147483648) mod 4294967296 - 2147483648.
Definition s64 (z : Z) : Z :=
  (z + 9223372036854775808) mod 18446744073709551616 - 9223372036854775808.

Definition in_u8 (z : Z) : Prop := 0 <= z < 256.
Definition in_u32 (z : Z) : Prop := 0 <= z < 4294967296.
Definition in_s32 (z : Z) : Prop := -2147483648 <= z < 2147483648.
Definition in_u64 (z : Z) : Prop := 0 <= z < 18446744073709551616.
Definition in_s64 (z : Z) : Prop :=
  -9223372036854775808 <= z < 9223372036854775808.

(** DIV_ROUND_UP and ROUND_UP of lib/round.h, on values that do not
    overflow. *)
Definition div_round_up (x step : Z) : Z := (x + step - 1) / step.
Definition round_up (x step : Z) : Z := (x + step - 1) / step * step.

(** ** Byte buffers *)

Definition zlen {A} (l : list A) : Z := Z.of_nat (length l).

(** The [n] elements of [l] from offset [o]. *)
Definition slice {A} (o n : Z) (l : list A) : list A :=
  take (Z.to_nat n) (drop (Z.to_nat o) l).

(** [l] with the elements from offset [o] on overwritten by [d]. *)
Definition splice {A} (o : Z) (d : list A) (l : list A) : list A :=
  take (Z.to_nat o) l ++ d ++ drop (Z.to_nat o + length d) l.

(** memcpy out of and into an object of known extent; [None] when the access
    leaves the object. *)
Definition load_bytes {A} (l : list A) (o n : Z) : option (list A) :=
  if (0 <=? o) && (0 <=? n) && (o + n <=? zlen l)
  then Some (slice o n l) else None.

Definition store_bytes {A} (l : list A) (o : Z) (d : list A) : option (list A) :=
  if (0 <=? o) && (o + zlen d <=? zlen l) then Some (splice o d l) else None.

Fixpoint le_bytes (n : nat) (z : Z) : list Z :=
  match n with
  | O => []
  | S n => z mod 256 :: le_bytes n (z / 256)
  end.

Fixpoint le_val (l : list Z) : Z :=
  match l with
  | [] => 0
  | b :: l => b + 256 * le_val l
  end.

(** ** Tactics and hint databases *)

Create HintDb pintos.
Create Rewrite HintDb pintos.

(** Linear arithmetic with division and remainder by constants. *)
Ltac dlia := Z.to_euclidean_division_equations; lia.

Ltac destruct_ands :=
  repeat match goal with H : _ ∧ _ |- _ => destruct H end.

(** Case analysis on the tests the code makes. *)
Ltac bool_case :=
  match goal with
  | |- context [?a =? ?b] => destruct (Z.eqb_spec a b)
  | |- context [?a <? ?b] => destruct (Z.ltb_spec a b)
  | |- context [?a <=? ?b] => destruct (Z.leb_spec a b)
  | |- context [?a >? ?b] => rewrite (Z.gtb_ltb a b); destruct (Z.ltb_spec b a)
  | |- context [?a >=? ?b] => rewrite (Z.geb_leb a b); destruct (Z.leb_spec b a)
  end.

Ltac bool_hyps :=
  repeat match goal with
  | H : (_ && _)%bool = true |- _ => apply andb_true_iff in H; destruct H
  | H : (_ || _)%bool = false |- _ => apply orb_false_iff in H; destruct H
  | H : negb _ = true |- _ => apply negb_true_iff in H
  | H : negb _ = false |- _ => apply negb_false_iff in H
  | H : (_ =? _) = true |- _ => apply Z.eqb_eq in H
  | H : (_ =? _) = false |- _ => apply Z.eqb_neq in H
  | H : (_ <? _) = true |- _ => apply Z.ltb_lt in H
  | H : (_ <? _) = false |- _ => apply Z.ltb_ge in H
  | H : (_ <=? _) = true |- _ => apply Z.leb_le in H
  | H : (_ <=? _) = false |- _ => apply Z.leb_gt in H
  end.

(** ** The weakest-precondition calculus *)

Section wp_rules.
Context {S : Type}.

Lemma wp_ret {A} (a : A) (Q : A → S → Prop) s : Q a s → wp (ret a) Q s.
Proof. done. Qed.

Lemma wp_bind {A B} (m : M S A) (k : A → M S B) Q s :
  wp m (λ a, wp (k a) Q) s → wp (bind m k) Q s.
Proof. unfold wp, bind. by destruct (m s) as [[a s']| | | |]. Qed.

Lemma wp_bind_inv {A B} (m : M S A) (k : A → M S B) Q s :
  wp (bind m k) Q s → wp m (λ a, wp (k a) Q) s.
Proof. unfold wp, bind. by destruct (m s) as [[a s']| | | |]. Qed.

Lemma wp_mono {A} (m : M S A) (Q R : A → S → Prop) s :
  wp m Q s → (∀ a s', Q a s' → R a s') → wp m R s.
Proof. unfold wp. destruct (m s) as [[a s']| | | |]; auto. Qed.

Lemma wp_get (Q : S → S → Prop) s : Q s s → wp get Q s.
Proof. done. Qed.

Lemma wp_gets {A} (f : S → A) Q s : Q (f s) s → wp (gets f) Q s.
Proof. done. Qed.

Lemma wp_modify f (Q : unit → S → Prop) s : Q tt (f s) → wp (modify f) Q s.
Proof. done. Qed.

Lemma wp_assert b (Q : unit → S → Prop) s : b = true → Q tt s → wp (assert b) Q s.
Proof. by intros ->. Qed.

Lemma wp_deref {A} (o : option A) a (Q : A → S → Prop) s :
  o = Some a → Q a s → wp (deref o) Q s.
Proof. by intros ->. Qed.

Lemma wp_ok {A} (m : M S A) a s' (Q : A → S → Prop) s :
  m s = Ok (a, s') → Q a s' → wp m Q s.
Proof. unfold wp. by intros ->. Qed.

(** Run the first steps of a routine. *)
Lemma wp_eq {A} (m m' : M S A) Q s s' : m s = m' s' → wp m' Q s' → wp m Q s.
Proof. unfold wp. by intros ->. Qed.

Lemma wp_inv {A} (m : M S A) (Q : A → S → Prop) s :
  wp m Q s → ∃ a s', m s = Ok (a, s') ∧ Q a s'.
Proof. unfold wp. destruct (m s) as [[a s']| | | |]; naive_solver. Qed.

Lemma bind_ok {A B} (m : M S A) (k : A → M S B) s a s' :
  m s = Ok (a, s') → bind m k s = k a s'.
Proof. unfold bind. by intros ->. Qed.

Lemma bind_gets {A B} (f : S → A) (k : A → M S B) s : bind (gets f) k s = k (f s) s.
Proof. done. Qed.

Lemma bind_get {B} (k : S → M S B) s : bind get k s = k s s.
Proof. done. Qed.

Lemma bind_modify {B} f (k : unit → M S B) s : bind (modify f) k s = k tt (f s).
Proof. done. Qed.

Lemma bind_ret {A B} (a : A) (k : A → M S B) s : bind (ret a) k s = k a s.
Proof. done. Qed.

Lemma bind_assert {B} b (k : unit → M S B) s :
  b = true → bind (assert b) k s = k tt s.
Proof. by intros ->. Qed.

Lemma bind_deref {A B} o a (k : A → M S B) s :
  o = Some a → bind (deref o) k s = k a s.
Proof. by intros ->. Qed.

Lemma bind_assoc {A B C} (m : M S A) (k : A → M S B) (k' : B → M S C) s :
  bind (bind m k) k' s = bind m (λ a, bind (k a) k') s.
Proof.
  unfold bind. induction (m s) as [[a s']| | |s' r IH|]; simpl; try done.
  f_equal. apply functional_extensionality. intros s''. apply IH.
Qed.

Lemma bind_ret_r {A} (m : M S A) s a s' : bind m ret s = Ok (a, s') → m s = Ok (a, s').
Proof. unfold bind, ret. by destruct (m s) as [[? ?]| | | |]. Qed.

Lemma bind_inv {A B} (m : M S A) (k : A → M S B) s r :
  bind m k s = Ok r → ∃ a s', m s = Ok (a, s') ∧ k a s' = Ok r.
Proof. unfold bind. destruct (m s) as [[a s']| | | |]; simpl; try done. by eauto. Qed.

Lemma bind_ext {A B} (m : M S A) (k k' : A → M S B) s :
  (∀ a s', k a s' = k' a s') → bind m k s = bind m k' s.
Proof.
  intros Hk. unfold bind. induction (m s) as [[a s']| | |s' r IH|]; simpl; try done.
  f_equal. apply functional_extensionality. apply IH.
Qed.

Lemma wp_lift {T A} (view : S → T) put (m : M T A) Q s :
  wp m (λ a t, Q a (put t s)) (view s) → wp (lift view put m) Q s.
Proof. unfold wp, lift. by destruct (m (view s)) as [[a t]| | | |]. Qed.
End wp_rules.

(** Walk through straight-line monadic code. *)
Ltac wp_step :=
  match goal with
  | |- wp (bind _ _) _ _ => apply wp_bind
  | |- wp (ret _) _ _ => apply wp_ret
  | |- wp get _ _ => apply wp_get
  | |- wp (gets _) _ _ => apply wp_gets
  | |- wp (modify _) _ _ => apply wp_modify
  end.
Ltac wp_steps := repeat (wp_step; cbv beta).

(** Run straight-line code forwards, by rewriting with what each primitive
    does to the state. *)
Ltac run1 :=
  first [ rewrite bind_assoc | rewrite bind_gets | rewrite bind_get
        | rewrite bind_modify | rewrite bind_ret ]; cbv beta.
Ltac run := repeat run1.

(** ** Routines that do not block *)

Definition atomic {S A} (m : M S A) : Prop := ∀ s s' r, m s ≠ Blocked s' r.

Section atomic_rules.
Context {S : Type}.

Lemma atomic_ret {A} (a : A) : atomic (S := S) (ret a).
Proof. done. Qed.

Lemma atomic_bind {A B} (m : M S A) (k : A → M S B) :
  atomic m → (∀ a, atomic (k a)) → atomic (bind m k).
Proof.
  intros Hm Hk s s' r. unfold bind.
  destruct (m s) as [[a s1]| | |s1 r1|] eqn:E; simpl; try done.
  - apply Hk.
  - by apply Hm in E.
Qed.

Lemma atomic_get : atomic (S := S) get.
Proof. done. Qed.
Lemma atomic_gets {A} (f : S → A) : atomic (gets f).
Proof. done. Qed.
Lemma atomic_modify (f : S → S) : atomic (modify f).
Proof. done. Qed.
Lemma atomic_panic {A} : atomic (S := S) (A := A) panic.
Proof. done. Qed.
Lemma atomic_fault {A} : atomic (S := S) (A := A) fault.
Proof. done. Qed.
Lemma atomic_no_fuel {A} : atomic (S := S) (A := A) no_fuel.
Proof. done. Qed.
Lemma atomic_assert b : atomic (S := S) (assert b).
Proof. by destruct b. Qed.
Lemma atomic_deref {A} (o : option A) : atomic (S := S) (deref o).
Proof. by destruct o. Qed.

Lemma atomic_lift {T A} (view : S → T) put (m : M T A) :
  atomic m → atomic (lift view put m).
Proof.
  intros Hm s s' r. unfold lift. destruct (m (view s)) as [[]| | |? ?|] eqn:E; try done.
  by apply Hm in E.
Qed.
End atomic_rules.

#[export] Hint Resolve atomic_ret atomic_bind atomic_get atomic_gets atomic_modify
  atomic_panic atomic_fault atomic_no_fuel atomic_assert atomic_deref atomic_lift : pintos.

(** Straight-line code with tests is atomic when its parts are. *)
Ltac atomic :=
  repeat match goal with
  | |- atomic (bind _ _) => apply atomic_bind; [|intros ?]
  | |- _ => solve [auto with pintos]
  | |- _ => case_match
  end.

(** ** Machine integers: facts *)

Lemma u32_small z : in_u32 z → u32 z = z.
Proof. unfold in_u32, u32. intros. by apply Z.mod_small. Qed.

Lemma u32_range z : in_u32 (u32 z).
Proof. unfold in_u32, u32. dlia. Qed.

Lemma u64_small z : in_u64 z → u64 z = z.
Proof. unfold in_u64, u64. intros. by apply Z.mod_small. Qed.

Lemma u64_range z : in_u64 (u64 z).
Proof. unfold in_u64, u64. dlia. Qed.

Lemma u8_small z : in_u8 z → u8 z = z.
Proof. unfold in_u8, u8. intros. by apply Z.mod_small. Qed.

Lemma u8_range z : in_u8 (u8 z).
Proof. unfold in_u8, u8. dlia. Qed.

Lemma s32_small z : in_s32 z → s32 z = z.
Proof. unfold in_s32, s32. intros. rewrite Z.mod_small; lia. Qed.

Lemma s64_small z : in_s64 z → s64 z = z.
Proof. unfold in_s64, s64. intros. rewrite Z.mod_small; lia. Qed.

Lemma s32_range z : in_s32 (s32 z).
Proof. unfold in_s32, s32. dlia. Qed.

Lemma land_le a b : 0 <= a → Z.land a b <= a.
Proof.
  intros Ha. assert (a - Z.land a b = Z.ldiff a (Z.land a b)) as Hd.
  { apply Z.sub_nocarry_ldiff, Z.bits_inj'. intros k Hk.
    rewrite Z.ldiff_spec, Z.land_spec, Z.bits_0. by destruct (Z.testbit a k), (Z.testbit b k). }
  assert (0 <= Z.ldiff a (Z.land a b)) by (apply Z.ldiff_nonneg; lia). lia.
Qed.

#[export] Hint Resolve u32_range u64_range u8_range s32_range : pintos.
#[export] Hint Rewrite u32_small u64_small u8_small s32_small s64_small
  using (unfold in_u32, in_u64, in_u8, in_s32, in_s64 in *; lia) : pintos.

(** ** Slices and splices: facts *)

Lemma zlen_app {A} (l k : list A) : zlen (l ++ k) = zlen l + zlen k.
Proof. unfold zlen. rewrite length_app. lia. Qed.

Lemma zlen_nonneg {A} (l : list A) : 0 <= zlen l.
Proof. unfold zlen. lia. Qed.

Lemma zlen_slice {A} o n (l : list A) :
  0 <= o → 0 <= n → o + n <= zlen l → zlen (slice o n l) = n.
Proof.
  unfold zlen, slice. intros. rewrite length_take, length_drop. lia.
Qed.

Lemma zlen_splice {A} o (d l : list A) :
  0 <= o → o + zlen d <= zlen l → zlen (splice o d l) = zlen l.
Proof.
  unfold zlen, splice. intros.
  rewrite !length_app, length_take, length_drop. lia.
Qed.

Lemma lookup_slice {A} o n (l : list A) (i : nat) :
  0 <= o → (i < Z.to_nat n)%nat → slice o n l !! i = l !! (Z.to_nat o + i)%nat.
Proof.
  unfold slice. intros. rewrite lookup_take_lt by lia.
  by rewrite lookup_drop.
Qed.

Lemma lookup_slice_ge {A} o n (l : list A) (i : nat) :
  (Z.to_nat n <= i)%nat → slice o n l !! i = None.
Proof. unfold slice. intros. apply lookup_take_ge. lia. Qed.

Lemma lookup_splice {A} o (d l : list A) (i : nat) :
  0 <= o → o + zlen d <= zlen l →
  splice o d l !! i =
    if decide (Z.to_nat o <= i < Z.to_nat o + length d)%nat
    then d !! (i - Z.to_nat o)%nat else l !! i.
Proof.
  unfold splice, zlen. intros.
  destruct (decide (i < Z.to_nat o)%nat).
  { rewrite lookup_app_l by (rewrite length_take; lia).
    rewrite decide_False by lia. by rewrite lookup_take_lt. }
  rewrite lookup_app_r by (rewrite length_take; lia).
  rewrite length_take.
  replace (Z.to_nat o `min` length l)%nat with (Z.to_nat o) by lia.
  case_decide.
  - by rewrite lookup_app_l by lia.
  - rewrite lookup_app_r by lia. rewrite lookup_drop. f_equal. lia.
Qed.

Lemma slice_all {A} (l : list A) : slice 0 (zlen l) l = l.
Proof. unfold slice, zlen. rewrite drop_0, Nat2Z.id. by apply firstn_all. Qed.

(** Two lists agree when they have the same elements at every position. *)
Lemma slice_splice_same {A} o (d l : list A) :
  0 <= o → o + zlen d <= zlen l → slice o (zlen d) (splice o d l) = d.
Proof.
  intros Ho Hl. apply list_eq. intros i.
  destruct (decide (i < length d)%nat).
  - rewrite lookup_slice by (unfold zlen; lia).
    rewrite lookup_splice by done. rewrite decide_True by lia. f_equal. lia.
  - rewrite lookup_slice_ge by (unfold zlen; lia).
    symmetry. apply lookup_ge_None. lia.
Qed.

(** Reading a range disjoint from the one written. *)
Lemma slice_splice_disjoint {A} o n o' (d l : list A) :
  0 <= o → 0 <= o' → o' + zlen d <= zlen l →
  o + n <= o' ∨ o' + zlen d <= o →
  slice o n (splice o' d l) = slice o n l.
Proof.
  intros Ho Ho' Hl Hd. apply list_eq. intros i.
  destruct (decide (i < Z.to_nat n)%nat).
  - rewrite !lookup_slice by lia. rewrite lookup_splice by done.
    rewrite decide_False; [done|]. unfold zlen in *. lia.
  - by rewrite !lookup_slice_ge by lia.
Qed.

Lemma splice_nil {A} o (l : list A) : splice o [] l = l.
Proof.
  unfold splice. simpl. rewrite Nat.add_0_r. apply take_drop.
Qed.

(** Two adjacent writes are one write. *)
Lemma splice_splice_adjacent {A} o (d1 d2 l : list A) :
  0 <= o → o + zlen d1 + zlen d2 <= zlen l →
  splice (o + zlen d1) d2 (splice o d1 l) = splice o (d1 ++ d2) l.
Proof.
  intros Ho Hl. pose proof (zlen_nonneg d1). pose proof (zlen_nonneg d2).
  apply list_eq. intros i.
  rewrite lookup_splice by (rewrite ?zlen_splice; lia).
  rewrite !lookup_splice by (rewrite ?zlen_app; lia).
  rewrite length_app. unfold zlen in *.
  case_decide; [rewrite decide_True by lia|].
  - rewrite lookup_app_r by lia. f_equal. lia.
  - case_decide.
    + rewrite decide_True by lia. by rewrite lookup_app_l by lia.
    + by rewrite decide_False by lia.
Qed.

(** Two adjacent reads are one read. *)
Lemma slice_slice_adjacent {A} o n m (l : list A) :
  0 <= o → 0 <= n → 0 <= m → o + n <= zlen l →
  slice o n l ++ slice (o + n) m l = slice o (n + m) l.
Proof.
  unfold slice, zlen. intros.
  replace (Z.to_nat (n + m)) with (Z.to_nat n + Z.to_nat m)%nat by lia.
  rewrite <- take_take_drop. f_equal.
  rewrite drop_drop. do 2 f_equal. lia.
Qed.

Lemma load_bytes_ok {A} (l : list A) o n :
  0 <= o → 0 <= n → o + n <= zlen l → load_bytes l o n = Some (slice o n l).
Proof.
  unfold load_bytes. intros.
  rewrite !(proj2 (Z.leb_le _ _)) by lia. done.
Qed.

Lemma store_bytes_ok {A} (l : list A) o d :
  0 <= o → o + zlen d <= zlen l → store_bytes l o d = Some (splice o d l).
Proof.
  unfold store_bytes. intros. rewrite !(proj2 (Z.leb_le _ _)) by lia. done.
Qed.

(** ** Little-endian words: facts *)

Lemma length_le_bytes n z : length (le_bytes n z) = n.
Proof. revert z. induction n; simpl; auto. Qed.

Lemma le_val_bytes n z : le_val (le_bytes n z) = z mod 256 ^ Z.of_nat n.
Proof.
  revert z. induction n as [|n IH]; intros z.
  - by rewrite Z.mod_1_r.
  - cbn [le_bytes le_val]. rewrite IH, Nat2Z.inj_succ, Z.pow_succ_r by lia.
    rewrite Z.rem_mul_r by lia. lia.
Qed.

Lemma le_bytes_val l : Forall in_u8 l → le_bytes (length l) (le_val l) = l.
Proof.
  induction 1 as [|b l Hb Hl IH]; [done|].
  cbn [le_bytes le_val length]. unfold in_u8 in Hb.
  rewrite Z.mul_comm, Z_mod_plus_full, Z.mod_small by lia. f_equal.
  rewrite Z.div_add, (Z.div_small b) by lia. apply IH.
Qed.

Lemma le_bytes_u8 n z : Forall in_u8 (le_bytes n z).
Proof.
  revert z. induction n as [|n IH]; intros z; simpl; constructor; auto.
  unfold in_u8. dlia.
Qed.

Lemma le_val_u8 l : Forall in_u8 l → 0 <= le_val l < 256 ^ Z.of_nat (length l).
Proof.
  induction 1 as [|b l Hb Hl IH]; [done|]. cbn [le_val length].
  rewrite Nat2Z.inj_succ, Z.pow_succ_r by lia. unfold in_u8 in Hb. lia.
Qed.

Lemma le_val_u32 z : in_u32 z → le_val (le_bytes 4 z) = z.
Proof. intros Hz. rewrite le_val_bytes. by apply Z.mod_small. Qed.

Lemma zlen_le_bytes n z : zlen (le_bytes n z) = Z.of_nat n.
Proof. unfold zlen. by rewrite length_le_bytes. Qed.

#[export] Hint Resolve zlen_nonneg le_bytes_u8 : pintos.
#[export] Hint Rewrite @zlen_app @zlen_le_bytes @length_le_bytes : pintos.
