(* ===== verification/Arith.v ===== *)
(** * Arith: 64-bit division on a 32-bit machine (lib/arithmetic.c)

    The compiler calls these routines for [/] and [%] on 64-bit integers.  The
    divl instruction traps when its quotient does not fit in 32 bits or the
    divisor is zero; [None] is that trap. *)

From Stdlib Require Import ZArith Lia.
From stdpp Require Import base tactics option numbers.
From S2P Require Import Prelude.

Module Arith.

Definition divl (n d : Z) : option Z :=
  if (d =? 0) || (n / d >=? 4294967296) then None else Some (n / d).

(** One step of the search for the leading one bit. *)
Definition nlz_step (limit k : Z) (p : Z * Z) : Z * Z :=
  if p.2 <=? limit then (p.1 + k, u32 (Z.shiftl p.2 k)) else p.

Definition nlz (x : Z) : Z :=
  let p := nlz_step 0x0000FFFF 16 (0, x) in
  let p := nlz_step 0x00FFFFFF 8 p in
  let p := nlz_step 0x0FFFFFFF 4 p in
  let p := nlz_step 0x3FFFFFFF 2 p in
  if p.2 <=? 0x7FFFFFFF then p.1 + 1 else p.1.

Definition udiv64 (n d : Z) : option Z :=
  if Z.shiftr d 32 =? 0 then
    let b := 4294967296 in
    let n1 := u32 (Z.shiftr n 32) in
    let n0 := u32 n in
    let d0 := u32 d in
    if d0 =? 0 then None
    else
      match divl (u64 (b * (n1 mod d0) + n0)) d0 with
      | None => None
      | Some q => Some (u64 (q + b * (n1 / d0)))
      end
  else if n <? d then Some 0
  else
    let d1 := u32 (Z.shiftr d 32) in
    let s := nlz d1 in
    match divl (Z.shiftr n 1) (u32 (Z.shiftr (u64 (Z.shiftl d s)) 32)) with
    | None => None
    | Some q0 =>
        let q := Z.shiftr q0 (31 - s) in
        Some (if u64 (n - u64 (u64 (q - 1) * d)) <? d then u64 (q - 1) else q)
    end.

(** The result type is uint32_t. *)
Definition umod64 (n d : Z) : option Z :=
  match udiv64 n d with
  | None => None
  | Some q => Some (u32 (u64 (n - u64 (d * q))))
  end.

Definition sdiv64 (n d : Z) : option Z :=
  let n_abs := if n >=? 0 then n else u64 (- u64 n) in
  let d_abs := if d >=? 0 then d else u64 (- u64 d) in
  match udiv64 n_abs d_abs with
  | None => None
  | Some q_abs =>
      Some (if Bool.eqb (n <? 0) (d <? 0) then s64 q_abs else s64 (- s64 q_abs))
  end.

(** The result type is int32_t. *)
Definition smod64 (n d : Z) : option Z :=
  match sdiv64 n d with
  | None => None
  | Some q => Some (s32 (s64 (n - s64 (d * q))))
  end.

(** The routines the compiler calls. *)
Definition divdi3 (n d : Z) : option Z := sdiv64 n d.
Definition moddi3 (n d : Z) : option Z := smod64 n d.
Definition udivdi3 (n d : Z) : option Z := udiv64 n d.
Definition umoddi3 (n d : Z) : option Z := umod64 n d.

(** ** Leading zeros *)

(** A step moves the leading one, which is at least at place [m - k], to
    place [m] at least. *)
Lemma nlz_step_ok limit k m (p : Z * Z) x :
  0 < k → k <= m → limit = 2 ^ m - 1 → m + k = 32 →
  p.2 = x * 2 ^ p.1 → 0 <= p.1 → 2 ^ (m - k) <= p.2 < 2 ^ 32 →
  let p' := nlz_step limit k p in
  p'.2 = x * 2 ^ p'.1 ∧ 0 <= p'.1 ∧ 2 ^ m <= p'.2 < 2 ^ 32.
Proof.
  intros Hk Hm -> Hmk Hp Hp1 Hp2. cbv zeta. unfold nlz_step. destruct p as [n y]. simpl in *.
  destruct (Z.leb_spec y (2 ^ m - 1)) as [Hy|Hy]; simpl; [|lia].
  assert (2 ^ 32 = 2 ^ m * 2 ^ k) as E by (rewrite <- Z.pow_add_r by lia; f_equal; lia).
  assert (2 ^ m = 2 ^ (m - k) * 2 ^ k) as E2 by (rewrite <- Z.pow_add_r by lia; f_equal; lia).
  assert (0 < 2 ^ k) by (apply Z.pow_pos_nonneg; lia).
  assert (0 < 2 ^ (m - k)) by (apply Z.pow_pos_nonneg; lia).
  rewrite Z.shiftl_mul_pow2 by lia.
  assert (y * 2 ^ k < 2 ^ 32) by (rewrite E; apply Z.mul_lt_mono_pos_r; lia).
  unfold u32. change 4294967296 with (2 ^ 32). rewrite Z.mod_small by nia.
  rewrite Z.pow_add_r by lia. split_and!; nia.
Qed.

Lemma nlz_ok x : 0 < x < 2 ^ 32 →
  0 <= nlz x <= 31 ∧ 2 ^ 31 <= x * 2 ^ nlz x < 2 ^ 32.
Proof.
  intros Hx. unfold nlz. cbv zeta.
  destruct (nlz_step_ok 0x0000FFFF 16 16 (0, x) x) as (H1 & H2 & H3); [simpl; lia..|].
  destruct (nlz_step_ok 0x00FFFFFF 8 24 _ x ltac:(lia) ltac:(lia) eq_refl eq_refl H1 H2 H3)
    as (H4 & H5 & H6).
  destruct (nlz_step_ok 0x0FFFFFFF 4 28 _ x ltac:(lia) ltac:(lia) eq_refl eq_refl H4 H5 H6)
    as (H7 & H8 & H9).
  destruct (nlz_step_ok 0x3FFFFFFF 2 30 _ x ltac:(lia) ltac:(lia) eq_refl eq_refl H7 H8 H9)
    as (H10 & H11 & H12).
  set (p := nlz_step 0x3FFFFFFF 2 _) in *. destruct p as [n y]. simpl in *.
  assert (∀ k, 0 <= k → x * 2 ^ k < 2 ^ 32 → k <= 31) as Hmax.
  { intros k Hk Hlt. destruct (Z.le_gt_cases k 31); [done|].
    pose proof (Z.pow_le_mono_r 2 32 k). nia. }
  destruct (Z.leb_spec y 0x7FFFFFFF).
  - assert (x * 2 ^ (n + 1) = 2 * y) as E by (rewrite Z.pow_add_r by lia; nia).
    split; [split; [lia|apply Hmax; lia]|lia].
  - split; [split; [lia|apply Hmax; lia]|lia].
Qed.

(** ** Division *)

(** Dividing by an estimate [d - e] of the divisor is at most one too large
    when the quotient is below [k] and [k * e] is small. *)
Lemma estimate n d e k p :
  0 <= e → 0 < p → p <= d - e → 0 <= n < k * p → k * e <= p →
  n / d <= n / (d - e) <= n / d + 1.
Proof.
  intros He Hp Hd Hn Hk. assert (n / d < k) by (apply Z.div_lt_upper_bound; nia).
  pose proof (Z.div_mod n d ltac:(lia)). pose proof (Z.mod_pos_bound n d ltac:(lia)).
  pose proof (Z.div_pos n d ltac:(lia) ltac:(lia)). split.
  - apply Z.div_le_lower_bound; nia.
  - enough (n / (d - e) < n / d + 2) by lia. apply Z.div_lt_upper_bound; nia.
Qed.

(** The correction of an estimate that is right or one too large. *)
Lemma correct n d q :
  in_u64 n → 0 < d <= n → n / d <= q <= n / d + 1 →
  (if u64 (n - u64 (u64 (q - 1) * d)) <? d then u64 (q - 1) else q) = n / d.
Proof.
  intros Hn Hd Hq. unfold in_u64 in Hn.
  pose proof (Z.div_mod n d ltac:(lia)). pose proof (Z.mod_pos_bound n d ltac:(lia)).
  assert (1 <= n / d) by (apply Z.div_le_lower_bound; lia).
  assert (n / d <= n) by (apply Z.div_le_upper_bound; nia).
  rewrite (u64_small (q - 1)) by (unfold in_u64; lia).
  assert (0 <= (q - 1) * d <= n) by nia.
  rewrite (u64_small ((q - 1) * d)) by (unfold in_u64; lia).
  rewrite u64_small by (unfold in_u64; lia).
  destruct (Z.ltb_spec (n - (q - 1) * d) d); nia.
Qed.

Lemma divl_ok n d : 0 < d → n / d < 2 ^ 32 → divl n d = Some (n / d).
Proof.
  intros Hd Hq. unfold divl. rewrite (proj2 (Z.eqb_neq d 0)) by lia. simpl.
  rewrite Z.geb_leb, (proj2 (Z.leb_gt _ _)); [done|exact Hq].
Qed.

(** A 32-bit divisor: schoolbook division with base 2^32. *)
Lemma udiv64_short n d : in_u64 n → 0 < d < 2 ^ 32 → udiv64 n d = Some (n / d).
Proof.
  intros Hn Hd. unfold in_u64 in Hn. unfold udiv64.
  rewrite !Z.shiftr_div_pow2 by lia. change (2 ^ 32) with 4294967296 in *.
  rewrite (Z.div_small d) by lia. simpl.
  rewrite (u32_small d) by (unfold in_u32; lia).
  rewrite (u32_small (n / 4294967296)) by (unfold in_u32; dlia).
  set (n1 := n / 4294967296). rewrite (proj2 (Z.eqb_neq d 0)) by lia.
  assert (n = 4294967296 * n1 + u32 n) as En by (subst n1; unfold u32; dlia).
  pose proof (u32_range n) as Hr. unfold in_u32 in Hr. set (n0 := u32 n) in *.
  pose proof (Z.mod_pos_bound n1 d ltac:(lia)). pose proof (Z.div_mod n1 d ltac:(lia)).
  rewrite u64_small by (unfold in_u64; nia).
  assert (n / d = (4294967296 * (n1 mod d) + n0) / d + 4294967296 * (n1 / d)) as E.
  { rewrite <- Z.div_add by lia. f_equal. nia. }
  rewrite divl_ok by (lia || (apply Z.div_lt_upper_bound; nia)).
  rewrite <- E. f_equal. apply u64_small. split; [apply Z.div_pos; lia|].
  apply Z.div_lt_upper_bound; nia.
Qed.

Lemma lead_bits d v w p : 0 < p → v * (p * w) <= d * p < v * (p * w) + p * w →
  v * w <= d ∧ d - v * w <= w - 1.
Proof.
  intros Hp [H1 H2]. split.
  - apply (Z.mul_le_mono_pos_r _ _ p Hp). lia.
  - enough (d < v * w + w) by lia. apply (Z.mul_lt_mono_pos_r p _ _ Hp). lia.
Qed.

(** A 64-bit divisor: divide by its 32 leading bits, then correct. *)
Lemma udiv64_long n d : in_u64 n → 2 ^ 32 <= d <= n → udiv64 n d = Some (n / d).
Proof.
  intros Hn Hd. unfold in_u64 in Hn. unfold udiv64. rewrite !Z.shiftr_div_pow2 by lia.
  assert (0 < d / 2 ^ 32 < 2 ^ 32) as Hd1 by (change (2 ^ 32) with 4294967296 in *; dlia).
  rewrite (proj2 (Z.eqb_neq _ 0)) by lia. rewrite (proj2 (Z.ltb_ge n d)) by lia.
  rewrite (u32_small (d / 2 ^ 32)) by (unfold in_u32; lia).
  destruct (nlz_ok _ Hd1) as [Hs Hn2]. set (s := nlz _) in *.
  rewrite Z.shiftl_mul_pow2 by lia.
  assert (0 < 2 ^ s) as Hps by (apply Z.pow_pos_nonneg; lia).
  assert (2 ^ 32 * (d / 2 ^ 32) <= d < 2 ^ 32 * (d / 2 ^ 32) + 2 ^ 32) as Hdd
    by (change (2 ^ 32) with 4294967296 in *; dlia).
  assert (2 ^ s * 2 ^ (32 - s) = 2 ^ 32) as E32
    by (rewrite <- Z.pow_add_r by lia; f_equal; lia).
  clearbody s. set (d1 := d / 2 ^ 32) in *. clearbody d1. set (t := 2 ^ (32 - s)) in *.
  assert (d1 + 1 <= t) as Htop by nia.
  assert ((d1 + 1) * 2 ^ s <= 2 ^ 32) as Htop2 by nia.
  assert (2 ^ 63 <= d * 2 ^ s < 2 ^ 64) as Hds
    by (change (2 ^ 63) with (2 ^ 31 * 2 ^ 32); change (2 ^ 64) with (2 ^ 32 * 2 ^ 32); nia).
  rewrite (u64_small (d * 2 ^ s)) by (unfold in_u64; lia).
  set (v := d * 2 ^ s / 2 ^ 32).
  assert (2 ^ 31 <= v < 2 ^ 32 ∧ v * 2 ^ 32 <= d * 2 ^ s < v * 2 ^ 32 + 2 ^ 32) as [Hv Hvd]
    by (subst v; change (2 ^ 32) with 4294967296 in *; dlia).
  rewrite (u32_small v) by (unfold in_u32; lia). change (2 ^ 1) with 2.
  assert (n / 2 < 2 ^ 31 * 2 ^ 32) as Hn3 by (change (2 ^ 31 * 2 ^ 32) with 9223372036854775808; dlia).
  assert (n / 2 / v < 2 ^ 32) as Hq by (apply Z.div_lt_upper_bound; nia).
  rewrite divl_ok by (lia || exact Hq). f_equal. rewrite Z.shiftr_div_pow2 by lia.
  apply correct; [done|lia|]. rewrite !Z.div_div by lia.
  assert (2 ^ 32 = 2 ^ s * (2 * 2 ^ (31 - s))) as E
    by (rewrite <- Z.pow_succ_r, <- Z.pow_add_r by lia; f_equal; lia).
  set (w := 2 * 2 ^ (31 - s)) in *. assert (0 < w) by (subst w; nia).
  replace (2 * (v * 2 ^ (31 - s))) with (d - (d - v * w)) by (subst w; nia).
  rewrite E in Hvd. destruct (lead_bits d v w (2 ^ s) Hps Hvd) as [H1 H2].
  assert (2 * 2 ^ s * (d - v * w) <= 2 ^ 31 * w) as H3.
  { destruct (Z.eq_dec s 31) as [->|Hs31]; [subst w; lia|].
    assert (4 <= w) by (subst w; pose proof (Z.pow_le_mono_r 2 1 (31 - s)); lia). nia. }
  apply (estimate n d (d - v * w) (2 * 2 ^ s) (2 ^ 31 * w)); 
    [lia|lia| | |exact H3].
  { replace (d - (d - v * w)) with (v * w) by lia. apply Z.mul_le_mono_nonneg_r; lia. }
  replace (2 * 2 ^ s * (2 ^ 31 * w)) with (2 ^ 32 * (2 ^ s * w)) by lia. rewrite <- E. lia.
Qed.

Lemma udiv64_ok n d : in_u64 n → in_u64 d → d ≠ 0 → udiv64 n d = Some (n / d).
Proof.
  intros Hn Hd Hd0. unfold in_u64 in *.
  destruct (Z.lt_ge_cases d (2 ^ 32)); [apply udiv64_short; unfold in_u64; lia|].
  destruct (Z.lt_ge_cases n d); [|apply udiv64_long; unfold in_u64; lia].
  unfold udiv64. rewrite Z.shiftr_div_pow2 by lia.
  rewrite (proj2 (Z.eqb_neq _ 0)) by (change (2 ^ 32) with 4294967296 in *; dlia).
  rewrite (proj2 (Z.ltb_lt n d)) by done. by rewrite Z.div_small by lia.
Qed.

Lemma neg_u64 z : - 9223372036854775808 <= z < 0 → u64 (- u64 z) = - z.
Proof. unfold u64. intros. dlia. Qed.

Lemma sdiv64_ok n d :
  in_s64 n → in_s64 d → d ≠ 0 → in_s64 (Z.quot n d) → sdiv64 n d = Some (Z.quot n d).
Proof.
  intros Hn Hd Hd0 Hq. unfold sdiv64, in_s64 in *.
  assert ((if n >=? 0 then n else u64 (- u64 n)) = Z.abs n) as ->
    by (rewrite Z.geb_leb; destruct (Z.leb_spec 0 n); [lia|rewrite neg_u64; lia]).
  assert ((if d >=? 0 then d else u64 (- u64 d)) = Z.abs d) as ->
    by (rewrite Z.geb_leb; destruct (Z.leb_spec 0 d); [lia|rewrite neg_u64; lia]).
  rewrite udiv64_ok by (unfold in_u64; lia). f_equal.
  assert (Z.abs n / Z.abs d = Z.abs (Z.quot n d)) as E
    by (rewrite <- Z.quot_abs by done; by rewrite Z.quot_div_nonneg by lia).
  rewrite E. assert (n < 0 ∧ d < 0 ∨ 0 <= n ∧ 0 <= d → 0 <= Z.quot n d) as Hpos.
  { intros [[]|[]]; [rewrite <- (Z.quot_opp_opp n d) by done; apply Z.quot_pos; lia
      |apply Z.quot_pos; lia]. }
  assert (n < 0 ∧ 0 <= d ∨ 0 <= n ∧ d < 0 → Z.quot n d <= 0) as Hneg.
  { intros [[]|[]].
    - rewrite <- (Z.opp_involutive n), Z.quot_opp_l by done.
      pose proof (Z.quot_pos (- n) d). lia.
    - rewrite <- (Z.opp_involutive d), Z.quot_opp_r by lia.
      pose proof (Z.quot_pos n (- d)). lia. }
  destruct (Z.ltb_spec n 0), (Z.ltb_spec d 0); cbn [Bool.eqb];
    unfold s64; dlia.
Qed.

(** ** Properties *)

(** C22. Unsigned 64-bit division is exact and never traps: for every dividend
    and every non-zero divisor the routine built from 32-bit divisions and a
    corrected estimate returns the floor of the quotient. *)
Theorem udivdi3_exact n d : in_u64 n → in_u64 d → d ≠ 0 → udivdi3 n d = Some (n / d).
Proof. apply udiv64_ok. Qed.

(** Signed division truncates towards zero as C requires, but the
    remainder is cut to 32 bits: __moddi3() returns [n % d] only up to
    multiples of 2^32. *)
Theorem moddi3_truncates n d :
  in_s64 n → in_s64 d → d ≠ 0 → in_s64 (Z.quot n d) →
  divdi3 n d = Some (Z.quot n d) ∧ moddi3 n d = Some (s32 (Z.rem n d)).
Proof.
  intros Hn Hd Hd0 Hq. unfold divdi3, moddi3, smod64. rewrite sdiv64_ok by done.
  split; [done|]. f_equal. pose proof (Z.quot_rem n d Hd0). pose proof (Z.rem_bound_abs n d Hd0).
  unfold in_s64 in *. unfold s32, s64.
  assert (- 9223372036854775808 <= d * Z.quot n d < 9223372036854775808) as Hr.
  { pose proof (Z.rem_sign_nz n d). destruct (Z.eq_dec (Z.rem n d) 0) as [E|E]; [lia|].
    pose proof (Z.rem_sign_nz n d Hd0 E). destruct (Z.sgn_spec (Z.rem n d)), (Z.sgn_spec n); lia. }
  rewrite (Z.mod_small (d * Z.quot n d + _)) by lia.
  replace (n - (d * Z.quot n d + 9223372036854775808 - 9223372036854775808)) with (Z.rem n d) by lia.
  rewrite (Z.mod_small (Z.rem n d + 9223372036854775808)) by lia. do 2 f_equal. lia.
Qed.

Lemma udivdi3_exact_witness :
  udivdi3 18446744073709551615 4294967297 = Some 4294967295.
Proof.
  rewrite (udivdi3_exact 18446744073709551615 4294967297);
    [reflexivity|split; [discriminate|reflexivity]..|discriminate].
Defined.

(** -2^33 % 2^40 is -2^33; the routine returns 0. *)
Lemma moddi3_truncates_witness :
  Z.rem (-8589934592) 1099511627776 = -8589934592 ∧
  moddi3 (-8589934592) 1099511627776 = Some 0.
Proof.
  split; [reflexivity|].
  refine (proj2 (moddi3_truncates (-8589934592) 1099511627776 _ _ _ _));
    first [split; [discriminate|reflexivity] | discriminate].
Defined.

End Arith.
