(* ===== verification/FixedPoint.v ===== *)
(** * FixedPoint: 16.16 fixed-point numbers (threads/fixed-point.h)

    A fixed-point number is a 32-bit int [f] that stands for [f / 2^16].  A
    failed ASSERT is [Panic]; a signed overflow wraps, which is what the
    machine does; 64-bit intermediate products are exact. *)

From Stdlib Require Import ZArith Lia.
From stdpp Require Import base tactics option numbers.
From S2P Require Import Prelude.

Module FixedPoint.

Definition FIX_P : Z := 16.
Definition FIX_F : Z := 65536.
Definition FIX_MAX_INT : Z := 65535.
Definition FIX_MIN_INT : Z := -65535.

Record fixed_point_t := mk_fix { f : Z }.

Definition fix_int {S} (n : Z) : M S fixed_point_t :=
  assert ((n >=? FIX_MIN_INT) && (n <=? FIX_MAX_INT));;;
  ret (mk_fix (s32 (n * FIX_F))).

Definition fix_frac {S} (n d : Z) : M S fixed_point_t :=
  assert (negb (d =? 0));;;
  assert ((Z.quot n d >=? FIX_MIN_INT) && (Z.quot n d <=? FIX_MAX_INT));;;
  ret (mk_fix (s32 (Z.quot (n * FIX_F) d))).

Definition fix_round (x : fixed_point_t) : Z := Z.quot (s32 (f x + FIX_F / 2)) FIX_F.
Definition fix_trunc (x : fixed_point_t) : Z := Z.quot (f x) FIX_F.
Definition fix_add (x y : fixed_point_t) : fixed_point_t := mk_fix (s32 (f x + f y)).
Definition fix_sub (x y : fixed_point_t) : fixed_point_t := mk_fix (s32 (f x - f y)).
Definition fix_mul (x y : fixed_point_t) : fixed_point_t :=
  mk_fix (s32 (Z.quot (f x * f y) FIX_F)).

Definition fix_scale {S} (x : fixed_point_t) (n : Z) : M S fixed_point_t :=
  assert (n >=? 0);;;
  ret (mk_fix (s32 (f x * n))).

(** Division by zero traps. *)
Definition fix_div {S} (x y : fixed_point_t) : M S fixed_point_t :=
  if f y =? 0 then fault else ret (mk_fix (s32 (Z.quot (f x * FIX_F) (f y)))).

Definition fix_unscale {S} (x : fixed_point_t) (n : Z) : M S fixed_point_t :=
  assert (n >? 0);;;
  ret (mk_fix (Z.quot (f x) n)).

Definition fix_inv {S} (x : fixed_point_t) : M S fixed_point_t :=
  let* one := fix_int 1 in fix_div one x.

Definition fix_compare (x y : fixed_point_t) : Z :=
  if f x <? f y then -1 else if f x >? f y then 1 else 0.

(** ** Facts *)

(** Conversion there and back is the identity where the product fits. *)
Lemma trunc_int n : -32768 <= n < 32768 → fix_trunc (mk_fix (s32 (n * FIX_F))) = n.
Proof.
  intros Hn. unfold fix_trunc, FIX_F. cbn [f]. rewrite s32_small by (unfold in_s32; lia).
  apply Z.quot_mul. lia.
Qed.

Lemma fix_add_int a b :
  in_s32 ((a + b) * FIX_F) → in_s32 (a * FIX_F) → in_s32 (b * FIX_F) →
  fix_add (mk_fix (a * FIX_F)) (mk_fix (b * FIX_F)) = mk_fix ((a + b) * FIX_F).
Proof. intros. unfold fix_add. cbn [f]. f_equal. rewrite <- Z.mul_add_distr_r. by apply s32_small. Qed.

(** The documented range of fix_int() is twice too large: every integer
    the ASSERT admits is converted without complaint, but converting back
    gives the integer exactly when it lies between -2^15 and 2^15 - 1; above
    that the 32-bit product has overflowed. *)
Theorem fix_int_range {S} (s : S) n :
  FIX_MIN_INT <= n <= FIX_MAX_INT →
  wp (fix_int n) (λ x _, in_s32 (f x) ∧ (fix_trunc x = n ↔ -32768 <= n < 32768)) s.
Proof.
  unfold FIX_MIN_INT, FIX_MAX_INT. intros Hn. unfold fix_int. apply wp_bind, wp_assert.
  { apply andb_true_iff. rewrite Z.geb_leb, !Z.leb_le. unfold FIX_MIN_INT, FIX_MAX_INT. lia. }
  apply wp_ret. cbn [f]. split; [apply s32_range|]. split; [|apply trunc_int].
  unfold fix_trunc, FIX_F. cbn [f]. unfold s32. dlia.
Qed.

Lemma fix_int_range_witness :
  wp (fix_int 40000) (λ x _, fix_trunc x ≠ 40000) tt.
Proof.
  eapply wp_mono; [apply (fix_int_range tt 40000); unfold FIX_MIN_INT, FIX_MAX_INT; lia|].
  intros x s [_ H] E. apply H in E. lia.
Defined.

End FixedPoint.
