(* ===== verification/Memory.v ===== *)
(** * Memory: byte-addressed memory

    What the C library routines run on: a finite map from addresses to bytes.
    An access outside the map is a [Fault].  [holds m p l] says that the bytes
    [l] are at [p], [store m p l] is the memory after they have been written
    there. *)

From Stdlib Require Import ZArith Lia.
From stdpp Require Import base tactics option list numbers gmap fin_maps fin_sets.
From S2P Require Import Prelude.

Module Memory.

Abbreviation mem := (gmap Z Z) (only parsing).

(** [*p] and [*p = v] for an unsigned char pointer. *)
Definition rd (p : Z) : M mem Z := let* m := get in deref (m !! p).
Definition wr (p v : Z) : M mem unit :=
  let* m := get in
  let* _ := deref (m !! p) in
  modify <[p := u8 v]>.

(** The bytes [l] at address [p]. *)
Definition holds (m : mem) (p : Z) (l : list Z) : Prop :=
  ∀ (i : nat) b, l !! i = Some b → m !! (p + Z.of_nat i) = Some b.

(** [n] bytes of memory at [p]. *)
Definition mapped (m : mem) (p n : Z) : Prop := ∀ x, p <= x < p + n → is_Some (m !! x).

Fixpoint store (m : mem) (p : Z) (l : list Z) : mem :=
  match l with
  | [] => m
  | b :: l => <[p := b]> (store m (p + 1) l)
  end.

Lemma lookup_store m p l x :
  store m p l !! x =
    if decide (p <= x < p + zlen l) then l !! Z.to_nat (x - p) else m !! x.
Proof.
  revert p. induction l as [|b l IH]; intros p; cbn [store].
  { rewrite decide_False; [done|]. change (zlen []) with 0. lia. }
  assert (zlen (b :: l) = 1 + zlen l) as -> by (unfold zlen; simpl; lia).
  pose proof (zlen_nonneg l).
  destruct (decide (x = p)) as [->|Hx].
  { rewrite lookup_insert_eq, decide_True by lia. by rewrite Z.sub_diag. }
  rewrite lookup_insert_ne by done. rewrite IH. case_decide.
  - rewrite decide_True by lia.
    replace (Z.to_nat (x - p)) with (S (Z.to_nat (x - (p + 1)))) by lia. done.
  - rewrite decide_False by lia. done.
Qed.

Lemma store_in m p l (i : nat) : (i < length l)%nat →
  store m p l !! (p + Z.of_nat i) = l !! i.
Proof.
  intros Hi. rewrite lookup_store, decide_True by (unfold zlen; lia). f_equal. lia.
Qed.

Lemma store_out m p l x : x < p ∨ p + zlen l <= x → store m p l !! x = m !! x.
Proof. intros Hx. rewrite lookup_store. apply decide_False. lia. Qed.

Lemma holds_store m p l : holds (store m p l) p l.
Proof. intros i b Hb. rewrite store_in; [done|]. by eapply lookup_lt_Some. Qed.

Lemma holds_agree m p l k : holds m p l → holds m p k → length l = length k → l = k.
Proof.
  intros Hl Hk He. apply list_eq_same_length with (n := length k); [done|done|].
  intros i x y Hi Hx%Hl Hy%Hk. congruence.
Qed.

(** Memory that agrees on the range still holds the bytes. *)
Lemma holds_ext m m' p l :
  (∀ x, p <= x < p + zlen l → m' !! x = m !! x) → holds m p l → holds m' p l.
Proof.
  intros He Hh i b Hb. rewrite He; [by apply Hh|].
  apply lookup_lt_Some in Hb. unfold zlen. lia.
Qed.

Lemma holds_cons m p b l : holds m p (b :: l) ↔ m !! p = Some b ∧ holds m (p + 1) l.
Proof.
  split.
  - intros Hh. split; [rewrite <- (Z.add_0_r p); by apply (Hh 0%nat)|].
    intros i x Hx. replace (p + 1 + Z.of_nat i) with (p + Z.of_nat (S i)) by lia.
    by apply Hh.
  - intros [Hb Hl] [|i] x Hx; simpl in Hx.
    + injection Hx as <-. by rewrite Z.add_0_r.
    + replace (p + Z.of_nat (S i)) with (p + 1 + Z.of_nat i) by lia. by apply Hl.
Qed.

Lemma holds_app m p l k : holds m p (l ++ k) ↔ holds m p l ∧ holds m (p + zlen l) k.
Proof.
  revert p. induction l as [|b l IH]; intros p; simpl.
  - change (zlen []) with 0. rewrite Z.add_0_r. split; [intros Hk; split; [by intros []|done]|].
    by intros [_ ?].
  - rewrite !holds_cons, IH. replace (p + zlen (b :: l)) with (p + 1 + zlen l)
      by (unfold zlen; simpl; lia). tauto.
Qed.

Lemma holds_mapped m p l : holds m p l → mapped m p (zlen l).
Proof.
  intros Hh x Hx. unfold zlen in Hx.
  destruct (lookup_lt_is_Some_2 l (Z.to_nat (x - p)) ltac:(lia)) as [b Hb].
  exists b. apply Hh in Hb. by replace (p + Z.of_nat (Z.to_nat (x - p))) with x in Hb by lia.
Qed.

Lemma holds_store_disjoint m p l q k :
  holds m p l → p + zlen l <= q ∨ q + zlen k <= p → holds (store m q k) p l.
Proof. intros Hh Hd. eapply holds_ext; [|done]. intros x Hx. apply store_out. lia. Qed.

(** No more bytes than the memory has: the bound on every scan. *)
Lemma holds_size m p l : holds m p l → (length l <= size m)%nat.
Proof.
  intros Hh. rewrite <- size_dom.
  assert (length l = length (seqZ p (zlen l))) as ->
    by (rewrite length_seqZ; unfold zlen; lia).
  rewrite <- (size_list_to_set (C := gset Z) (seqZ p (zlen l))) by apply NoDup_seqZ.
  apply subseteq_size. intros x Hx%elem_of_list_to_set%elem_of_seqZ.
  apply elem_of_dom. apply (holds_mapped _ _ _ Hh). lia.
Qed.

Lemma mapped_store m p l q n : mapped m q n → mapped m p (zlen l) → mapped (store m p l) q n.
Proof.
  intros Hq Hp x Hx. rewrite lookup_store. case_decide; [|by apply Hq].
  apply lookup_lt_is_Some_2. unfold zlen in *. lia.
Qed.

Lemma mapped_insert m p v q n : mapped m q n → mapped (<[p := v]> m) q n.
Proof. intros Hq x Hx. destruct (decide (x = p)) as [->|];
  [rewrite lookup_insert_eq; by eexists|rewrite lookup_insert_ne by done; by apply Hq]. Qed.

Lemma mapped_sub m p n q k : mapped m p n → p <= q → q + k <= p + n → mapped m q k.
Proof. intros Hm Hp Hk x Hx. apply Hm. lia. Qed.

(** What was there. *)
Lemma mapped_holds m p n : 0 <= n → mapped m p n → ∃ l, holds m p l ∧ zlen l = n.
Proof.
  intros Hn. rewrite <- (Z2Nat.id n) by done. clear Hn. generalize (Z.to_nat n). clear n.
  intros n. revert p. induction n as [|n IH]; intros p Hm.
  - exists []. split; [by intros []|done].
  - destruct (Hm p ltac:(lia)) as [b Hb].
    destruct (IH (p + 1)) as (l & Hl & El). { intros x Hx. apply Hm. lia. }
    exists (b :: l). rewrite holds_cons. split; [done|]. unfold zlen in *. simpl. lia.
Qed.

Lemma rd_ok m p b {B} (k : Z → M mem B) : m !! p = Some b → bind (rd p) k m = k b m.
Proof. intros Hb. unfold rd, bind, get. simpl. by rewrite Hb. Qed.

Lemma wr_ok m p v {B} (k : unit → M mem B) :
  is_Some (m !! p) → bind (wr p v) k m = k tt (<[p := u8 v]> m).
Proof. intros [b Hb]. unfold wr, bind, get, modify. simpl. by rewrite Hb. Qed.

Lemma wr_ok' m p v : is_Some (m !! p) → wr p v m = Ok (tt, <[p := u8 v]> m).
Proof. intros [b Hb]. unfold wr, bind, get, modify. simpl. by rewrite Hb. Qed.

Lemma rd_ok' m p b : m !! p = Some b → rd p m = Ok (b, m).
Proof. intros Hb. unfold rd, bind, get. simpl. by rewrite Hb. Qed.

End Memory.
