(* ===== verification/CString.v ===== *)
(** * CString: memory blocks and strings (lib/string.c)

    Every routine of string.c over the byte memory of [Memory]; a null
    pointer is address 0.  A scan for a null byte reads consecutive bytes of
    the memory, so that [size m] steps are always enough: the memory has no
    more bytes.  Characters are compared as the bytes they are, 0 to 255. *)

From Stdlib Require Import ZArith Lia.
From stdpp Require Import base tactics option list numbers gmap.
From S2P Require Import Prelude Memory.
Import Memory.

Module CString.

(** ** Blocks of memory *)

Fixpoint copy_up (n : nat) (dst src : Z) : M mem unit :=
  match n with
  | O => ret tt
  | S n =>
      let* b := rd src in
      wr dst b;;;
      copy_up n (dst + 1) (src + 1)
  end.

Definition memcpy (dst src size : Z) : M mem Z :=
  assert (negb (dst =? 0) || (size =? 0));;;
  assert (negb (src =? 0) || (size =? 0));;;
  copy_up (Z.to_nat size) dst src;;;
  ret dst.

(** [*--dst = *--src]. *)
Fixpoint copy_down (n : nat) (dst src : Z) : M mem unit :=
  match n with
  | O => ret tt
  | S n =>
      let* b := rd (src - 1) in
      wr (dst - 1) b;;;
      copy_down n (dst - 1) (src - 1)
  end.

(** The result is [dst] as the loop left it. *)
Definition memmove (dst src size : Z) : M mem Z :=
  assert (negb (dst =? 0) || (size =? 0));;;
  assert (negb (src =? 0) || (size =? 0));;;
  if dst <? src then copy_up (Z.to_nat size) dst src;;; ret (dst + size)
  else copy_down (Z.to_nat size) (dst + size) (src + size);;; ret dst.

Fixpoint compare_bytes (n : nat) (a b : Z) : M mem Z :=
  match n with
  | O => ret 0
  | S n =>
      let* x := rd a in
      let* y := rd b in
      if negb (x =? y) then ret (if x >? y then 1 else -1)
      else compare_bytes n (a + 1) (b + 1)
  end.

Definition memcmp (a b size : Z) : M mem Z :=
  assert (negb (a =? 0) || (size =? 0));;;
  assert (negb (b =? 0) || (size =? 0));;;
  compare_bytes (Z.to_nat size) a b.

Fixpoint find_byte (n : nat) (block ch : Z) : M mem Z :=
  match n with
  | O => ret 0
  | S n => let* x := rd block in if x =? ch then ret block else find_byte n (block + 1) ch
  end.

Definition memchr (block ch size : Z) : M mem Z :=
  assert (negb (block =? 0) || (size =? 0));;;
  find_byte (Z.to_nat size) block (u8 ch).

Fixpoint set_bytes (n : nat) (dst value : Z) : M mem unit :=
  match n with
  | O => ret tt
  | S n => wr dst value;;; set_bytes n (dst + 1) value
  end.

Definition memset (dst value size : Z) : M mem Z :=
  assert (negb (dst =? 0) || (size =? 0));;;
  set_bytes (Z.to_nat size) dst value;;;
  ret dst.

(** ** Strings *)

(** A loop over a string, with one unit of fuel per byte of the memory. *)
Definition scanning {A} (f : nat → M mem A) : M mem A :=
  let* m := get in f (S (size m)).

Fixpoint strcmp_loop (n : nat) (a b : Z) : M mem Z :=
  match n with
  | O => no_fuel
  | S n =>
      let* x := rd a in
      if x =? 0 then let* y := rd b in ret (if x <? y then -1 else if x >? y then 1 else 0)
      else
        let* y := rd b in
        if x =? y then strcmp_loop n (a + 1) (b + 1)
        else ret (if x <? y then -1 else if x >? y then 1 else 0)
  end.

Definition strcmp (a b : Z) : M mem Z :=
  assert (negb (a =? 0));;;
  assert (negb (b =? 0));;;
  scanning (λ n, strcmp_loop n a b).

Fixpoint strchr_loop (n : nat) (string c : Z) : M mem Z :=
  match n with
  | O => no_fuel
  | S n =>
      let* x := rd string in
      if x =? c then ret string
      else if x =? 0 then ret 0
      else strchr_loop n (string + 1) c
  end.

Definition strchr (string c : Z) : M mem Z :=
  assert (negb (string =? 0));;;
  scanning (λ n, strchr_loop n string (u8 c)).

(** The loops of strcspn() ([stop_at] true) and strspn() ([stop_at] false). *)
Fixpoint span_loop (stop_at : bool) (n : nat) (string set length : Z) : M mem Z :=
  match n with
  | O => no_fuel
  | S n =>
      let* x := rd (string + length) in
      if x =? 0 then ret length
      else
        let* p := strchr set x in
        if Bool.eqb (negb (p =? 0)) stop_at then ret length
        else span_loop stop_at n string set (length + 1)
  end.

Definition strcspn (string stop : Z) : M mem Z :=
  scanning (λ n, span_loop true n string stop 0).
Definition strspn (string skip : Z) : M mem Z :=
  scanning (λ n, span_loop false n string skip 0).

Fixpoint strpbrk_loop (n : nat) (string stop : Z) : M mem Z :=
  match n with
  | O => no_fuel
  | S n =>
      let* x := rd string in
      if x =? 0 then ret 0
      else
        let* p := strchr stop x in
        if negb (p =? 0) then ret string else strpbrk_loop n (string + 1) stop
  end.

Definition strpbrk (string stop : Z) : M mem Z :=
  scanning (λ n, strpbrk_loop n string stop).

Fixpoint strrchr_loop (n : nat) (string c p : Z) : M mem Z :=
  match n with
  | O => no_fuel
  | S n =>
      let* x := rd string in
      if x =? 0 then ret p
      else strrchr_loop n (string + 1) c (if x =? c then string else p)
  end.

Definition strrchr (string c : Z) : M mem Z :=
  scanning (λ n, strrchr_loop n string (u8 c) 0).

Fixpoint strlen_loop (n : nat) (p : Z) : M mem Z :=
  match n with
  | O => no_fuel
  | S n => let* x := rd p in if x =? 0 then ret p else strlen_loop n (p + 1)
  end.

Definition strlen (string : Z) : M mem Z :=
  assert (negb (string =? 0));;;
  let* p := scanning (λ n, strlen_loop n string) in
  ret (p - string).

Fixpoint strnlen_loop (n : nat) (string length maxlen : Z) : M mem Z :=
  match n with
  | O => no_fuel
  | S n =>
      let* x := rd (string + length) in
      if negb (x =? 0) && (length <? maxlen) then strnlen_loop n string (length + 1) maxlen
      else ret length
  end.

Definition strnlen (string maxlen : Z) : M mem Z :=
  scanning (λ n, strnlen_loop n string 0 maxlen).

(** The positions [i], [i + 1], ... of the haystack in turn. *)
Fixpoint strstr_loop (n : nat) (haystack i needle needle_len : Z) : M mem Z :=
  match n with
  | O => ret 0
  | S n =>
      let* c := memcmp (haystack + i) needle needle_len in
      if c =? 0 then ret (haystack + i)
      else strstr_loop n haystack (i + 1) needle needle_len
  end.

Definition strstr (haystack needle : Z) : M mem Z :=
  let* haystack_len := strlen haystack in
  let* needle_len := strlen needle in
  if haystack_len >=? needle_len
  then strstr_loop (Z.to_nat (haystack_len - needle_len + 1)) haystack 0 needle needle_len
  else ret 0.

Definition strlcpy (dst src size : Z) : M mem Z :=
  assert (negb (dst =? 0));;;
  assert (negb (src =? 0));;;
  let* src_len := strlen src in
  (if size >? 0 then
     let dst_len := if src_len <? size - 1 then src_len else size - 1 in
     let* _ := memcpy dst src dst_len in
     wr (dst + dst_len) 0
   else ret tt);;;
  ret src_len.

Definition strlcat (dst src size : Z) : M mem Z :=
  assert (negb (dst =? 0));;;
  assert (negb (src =? 0));;;
  let* src_len := strlen src in
  let* dst_len := strlen dst in
  (if (size >? 0) && (dst_len <? size) then
     let copy_cnt := if src_len <? size - dst_len - 1 then src_len else size - dst_len - 1 in
     let* _ := memcpy (dst + dst_len) src copy_cnt in
     wr (dst + dst_len + copy_cnt) 0
   else ret tt);;;
  ret (u32 (src_len + dst_len)).

(** ** Tokens *)

(** Skip delimiters: [None] at the end of the string. *)
Fixpoint skip_delims (n : nat) (delimiters s : Z) : M mem (option Z * Z) :=
  match n with
  | O => no_fuel
  | S n =>
      let* x := rd s in
      let* p := strchr delimiters x in
      if negb (p =? 0) then
        if x =? 0 then ret (None, s) else skip_delims n delimiters (s + 1)
      else ret (Some s, s)
  end.

Fixpoint skip_token (n : nat) (delimiters s : Z) : M mem Z :=
  match n with
  | O => no_fuel
  | S n =>
      let* x := rd s in
      let* p := strchr delimiters x in
      if p =? 0 then skip_token n delimiters (s + 1) else ret s
  end.

(** The token (0 at the end) and the new value of [*save_ptr]. *)
Definition strtok_r (s delimiters save_ptr : Z) : M mem (Z * Z) :=
  assert (negb (delimiters =? 0));;;
  let s := if s =? 0 then save_ptr else s in
  assert (negb (s =? 0));;;
  let* r := scanning (λ n, skip_delims n delimiters s) in
  match r.1 with
  | None => ret (0, r.2)
  | Some token =>
      let* s := scanning (λ n, skip_token n delimiters token) in
      let* x := rd s in
      if negb (x =? 0) then wr s 0;;; ret (token, s + 1)
      else ret (token, s)
  end.

(** ** Copies *)

Lemma store_insert m p b l q : q < p ∨ p + zlen l <= q →
  store (<[q := b]> m) p l = <[q := b]> (store m p l).
Proof.
  intros Hq. apply map_eq. intros x. rewrite lookup_store.
  destruct (decide (x = q)) as [->|Hx].
  - rewrite decide_False by lia. by rewrite !lookup_insert_eq.
  - rewrite !lookup_insert_ne by done. by rewrite lookup_store.
Qed.

Lemma holds_insert m p l q b : holds m p l → q < p ∨ p + zlen l <= q → holds (<[q := b]> m) p l.
Proof.
  intros Hh Hq. eapply holds_ext; [|done]. intros x Hx. apply lookup_insert_ne. lia.
Qed.

(** Copying upwards is right unless [dst] lies inside the source. *)
Lemma copy_up_ok l m dst src :
  holds m src l → Forall in_u8 l → mapped m dst (zlen l) →
  dst <= src ∨ src + zlen l <= dst →
  copy_up (length l) dst src m = Ok (tt, store m dst l).
Proof.
  revert m dst src. induction l as [|b l IH]; intros m dst src Hh Hu Hm Hd; [done|].
  apply holds_cons in Hh as [Hb Hl]. inversion Hu as [|? ? Hu1 Hu2]; subst.
  assert (zlen (b :: l) = 1 + zlen l) as Hz by (unfold zlen; simpl; lia).
  pose proof (zlen_nonneg l). cbn [length copy_up store].
  rewrite (rd_ok _ _ _ _ Hb), wr_ok by (apply Hm; lia). rewrite u8_small by done.
  rewrite IH; [|apply holds_insert; [done|lia]|done| |lia].
  - by rewrite store_insert by lia.
  - apply mapped_insert. eapply mapped_sub; [done|lia|lia].
Qed.

Lemma store_snoc m p l b : store m p (l ++ [b]) = store (<[p + zlen l := b]> m) p l.
Proof.
  revert m p. induction l as [|c l IH]; intros m p; cbn [app store].
  - change (zlen []) with 0. by rewrite Z.add_0_r.
  - rewrite IH. do 2 f_equal. replace (p + zlen (c :: l)) with (p + 1 + zlen l)
      by (unfold zlen; simpl; lia). done.
Qed.

(** Copying downwards is right when [dst] does not lie below the source. *)
Lemma copy_down_ok l m dst src :
  holds m src l → Forall in_u8 l → mapped m dst (zlen l) → src <= dst →
  copy_down (length l) (dst + zlen l) (src + zlen l) m = Ok (tt, store m dst l).
Proof.
  revert m. induction l as [|b l IH] using rev_ind; intros m Hh Hu Hm Hd; [done|].
  apply holds_app in Hh as [Hl [Hb _]%holds_cons]. apply Forall_app in Hu as [Hu1 [Hu2 _]%Forall_cons].
  pose proof (zlen_nonneg l).
  assert (zlen (l ++ [b]) = zlen l + 1) as Hz by apply zlen_app. rewrite Hz in Hm |- *.
  rewrite length_app, Nat.add_1_r. cbn [copy_down].
  rewrite (rd_ok _ _ b) by (rewrite <- Hb; f_equal; lia).
  rewrite wr_ok by (apply Hm; lia). rewrite u8_small by done.
  replace (dst + (zlen l + 1) - 1) with (dst + zlen l) by lia.
  replace (src + (zlen l + 1) - 1) with (src + zlen l) by lia.
  rewrite IH; [by rewrite store_snoc|apply holds_insert; [done|lia]|done| |done].
  apply mapped_insert. eapply mapped_sub; [done|lia|lia].
Qed.

Lemma length_zlen {A} (l : list A) : Z.to_nat (zlen l) = length l.
Proof. unfold zlen. lia. Qed.

Lemma set_bytes_ok n m p v : mapped m p (Z.of_nat n) →
  set_bytes n p v m = Ok (tt, store m p (replicate n (u8 v))).
Proof.
  revert m p. induction n as [|n IH]; intros m p Hm; [done|]. cbn [set_bytes].
  rewrite wr_ok by (apply Hm; lia). rewrite IH.
  - simpl. do 2 f_equal. rewrite store_insert; [done|lia].
  - apply mapped_insert. eapply mapped_sub; [done|lia|lia].
Qed.

Lemma memset_ok m p v n : 0 < p → 0 <= n → mapped m p n →
  memset p v n m = Ok (p, store m p (replicate (Z.to_nat n) (u8 v))).
Proof.
  intros Hp Hn Hm. unfold memset.
  rewrite bind_assert by (rewrite (proj2 (Z.eqb_neq p 0)) by lia; done).
  erewrite bind_ok; [done|]. apply set_bytes_ok. by rewrite Z2Nat.id.
Qed.

Lemma memcpy_ok l m dst src {B} (k : Z → M mem B) :
  holds m src l → Forall in_u8 l → mapped m dst (zlen l) → 0 < dst → 0 < src →
  dst <= src ∨ src + zlen l <= dst →
  bind (memcpy dst src (zlen l)) k m = k dst (store m dst l).
Proof.
  intros Hh Hu Hm Hd Hs Ho. unfold memcpy. run.
  rewrite bind_assert by (by rewrite (proj2 (Z.eqb_neq dst 0)) by lia). run.
  rewrite bind_assert by (by rewrite (proj2 (Z.eqb_neq src 0)) by lia). run.
  rewrite length_zlen. erewrite bind_ok by (apply copy_up_ok; done). by run.
Qed.

(** ** Strings in memory *)

Definition cstring (m : mem) (p : Z) (s : list Z) : Prop :=
  0 < p ∧ holds m p (s ++ [0]) ∧ Forall (λ b, b ≠ 0) s ∧ Forall in_u8 s.

Lemma cstring_cons m p b s : cstring m p (b :: s) →
  m !! p = Some b ∧ b ≠ 0 ∧ in_u8 b ∧ cstring m (p + 1) s.
Proof.
  intros (Hp & [Hb Hh]%holds_cons & Hz & Hu). inversion Hz; inversion Hu; subst.
  split_and!; try done. split_and!; try done. lia.
Qed.

Lemma cstring_nil m p : cstring m p [] → m !! p = Some 0.
Proof. by intros (_ & [Hb _]%holds_cons & _). Qed.

Lemma cstring_size m p s : cstring m p s → (length s < size m)%nat.
Proof. intros (_ & Hh%holds_size & _). rewrite length_app in Hh. simpl in Hh. lia. Qed.

Lemma scanning_bind {A B} (f : nat → M mem A) (k : A → M mem B) m :
  bind (scanning f) k m = bind (f (S (size m))) k m.
Proof. unfold scanning. by run. Qed.

Lemma strlen_loop_ok n m p s : cstring m p s → (length s < n)%nat →
  strlen_loop n p m = Ok (p + zlen s, m).
Proof.
  revert n p. induction s as [|b s IH]; intros [|n] p Hc Hn; simpl in Hn; try lia;
    cbn [strlen_loop].
  - rewrite (rd_ok _ _ 0) by by apply cstring_nil. simpl. change (zlen []) with 0.
    by rewrite Z.add_0_r.
  - apply cstring_cons in Hc as (Hb & Hz & _ & Hc). rewrite (rd_ok _ _ b) by done.
    rewrite (proj2 (Z.eqb_neq b 0)) by done. rewrite IH by (done || lia).
    do 2 f_equal. unfold zlen. simpl. lia.
Qed.

Lemma strlen_ok m p s {B} (k : Z → M mem B) : cstring m p s →
  bind (strlen p) k m = k (zlen s) m.
Proof.
  intros Hc. pose proof (cstring_size _ _ _ Hc). unfold strlen. run.
  rewrite bind_assert by (rewrite (proj2 (Z.eqb_neq p 0)); [done|]; destruct Hc; lia). run.
  rewrite scanning_bind. erewrite bind_ok by (apply strlen_loop_ok; [done|lia]).
  run. f_equal. lia.
Qed.

(** The order of strings as sequences of unsigned characters. *)
Fixpoint str_order (s t : list Z) : Z :=
  match s, t with
  | [], [] => 0
  | [], _ :: _ => -1
  | _ :: _, [] => 1
  | x :: s, y :: t => if x =? y then str_order s t else if x <? y then -1 else 1
  end.

Lemma str_order_eq s t : str_order s t = 0 ↔ s = t.
Proof.
  revert t. induction s as [|x s IH]; intros [|y t]; simpl; try done.
  bool_case; [subst; rewrite IH; naive_solver|]. bool_case; naive_solver.
Qed.

Lemma strcmp_loop_ok n m a b s t : cstring m a s → cstring m b t → (length s < n)%nat →
  strcmp_loop n a b m = Ok (str_order s t, m).
Proof.
  revert n a b t. induction s as [|x s IH]; intros [|n] a b t Ha Hb Hn; simpl in Hn; try lia;
    cbn [strcmp_loop].
  - rewrite (rd_ok _ _ 0) by by apply cstring_nil. simpl. destruct t as [|y t].
    + by rewrite (rd_ok _ _ 0) by by apply cstring_nil.
    + apply cstring_cons in Hb as (Hb & ? & [? _] & _). rewrite (rd_ok _ _ y) by done.
      by rewrite (proj2 (Z.ltb_lt 0 y)) by lia.
  - apply cstring_cons in Ha as (Hx & Hx0 & [? _] & Ha). rewrite (rd_ok _ _ x) by done.
    rewrite (proj2 (Z.eqb_neq x 0)) by done. destruct t as [|y t].
    + rewrite (rd_ok _ _ 0) by by apply cstring_nil.
      rewrite (proj2 (Z.eqb_neq x 0)), (proj2 (Z.ltb_ge x 0)) by lia.
      rewrite Z.gtb_ltb, (proj2 (Z.ltb_lt 0 x)) by lia. done.
    + apply cstring_cons in Hb as (Hy & _ & _ & Hb). rewrite (rd_ok _ _ y) by done.
      cbn [str_order]. bool_case; [apply IH; done || lia|]. bool_case; [done|].
      by rewrite Z.gtb_ltb, (proj2 (Z.ltb_lt y x)) by lia.
Qed.

Lemma strcmp_ok m a b s t : cstring m a s → cstring m b t →
  strcmp a b m = Ok (str_order s t, m).
Proof.
  intros Ha Hb. pose proof (cstring_size _ _ _ Ha). unfold strcmp, scanning.
  rewrite bind_assert by (rewrite (proj2 (Z.eqb_neq a 0)); [done|]; destruct Ha; lia).
  rewrite bind_assert by (rewrite (proj2 (Z.eqb_neq b 0)); [done|]; destruct Hb; lia). run.
  apply strcmp_loop_ok; [done|done|lia].
Qed.

(** ** Searching and tokens *)

(** A null pointer exactly when the character does not occur. *)
Lemma strchr_loop_ok n m p s c : cstring m p s → (length s < n)%nat →
  ∃ r, strchr_loop n p c m = Ok (r, m) ∧ (r = 0 ↔ c ∉ s ++ [0]).
Proof.
  revert n p. induction s as [|b s IH]; intros [|n] p Hc Hn; simpl in Hn; try lia;
    cbn [strchr_loop app].
  - rewrite (rd_ok _ _ 0) by by apply cstring_nil. destruct Hc as [Hp _].
    bool_case; eexists; (split; [done|]); rewrite list_elem_of_singleton.
    + split; [lia|intros []; done].
    + naive_solver.
  - pose proof Hc as (Hp & _). apply cstring_cons in Hc as (Hb & Hz & _ & Hc).
    rewrite (rd_ok _ _ b) by done. bool_case.
    + exists p. split; [done|]. rewrite not_elem_of_cons. split; [lia|intros []; congruence].
    + rewrite (proj2 (Z.eqb_neq b 0)) by done.
      destruct (IH n (p + 1) Hc ltac:(lia)) as (r & -> & Hr). exists r. split; [done|].
      rewrite Hr, not_elem_of_cons. naive_solver.
Qed.

Lemma strchr_ok m p s c : cstring m p s → in_u8 c →
  ∃ r, strchr p c m = Ok (r, m) ∧ (r = 0 ↔ c ∉ s ++ [0]).
Proof.
  intros Hc Hu. pose proof (cstring_size _ _ _ Hc).
  destruct (strchr_loop_ok (S (size m)) m p s c Hc ltac:(lia)) as (r & Hr & Hr0).
  exists r. split; [|done]. unfold strchr, scanning.
  rewrite bind_assert by (rewrite (proj2 (Z.eqb_neq p 0)); [done|]; destruct Hc; lia). run.
  by rewrite u8_small.
Qed.

(** The maximal runs of characters that are not in [D]. *)
Fixpoint words (D s : list Z) : list (list Z) :=
  match s with
  | [] => []
  | c :: s' =>
      if bool_decide (c ∈ D) then words D s'
      else match s' with
           | [] => [[c]]
           | c' :: _ =>
               if bool_decide (c' ∈ D) then [c] :: words D s'
               else match words D s' with
                    | w :: ws => (c :: w) :: ws
                    | [] => [[c]]
                    end
           end
  end.

Lemma words_skip D pre s : Forall (λ c, c ∈ D) pre → words D (pre ++ s) = words D s.
Proof.
  induction 1 as [|c pre Hc _ IH]; [done|]. cbn [app words]. by rewrite bool_decide_eq_true_2.
Qed.

(** The text after a word. *)
Definition after_word (D rest : list Z) : Prop :=
  match rest with [] => True | d :: _ => d ∈ D end.

Lemma words_word D c w rest :
  c ∉ D → Forall (λ c, c ∉ D) w → after_word D rest →
  words D (c :: w ++ rest) = (c :: w) :: words D rest.
Proof.
  intros Hc Hw Hr. revert c Hc. induction Hw as [|c' w Hc' Hw IH]; intros c Hc.
  - cbn [app]. destruct rest as [|d rest]; cbn [words].
    + by rewrite bool_decide_eq_false_2.
    + by rewrite (bool_decide_eq_false_2 (c ∈ D)), (bool_decide_eq_true_2 (d ∈ D)) by done.
  - assert (words D (c :: (c' :: w) ++ rest) =
            match words D (c' :: w ++ rest) with
            | w :: ws => (c :: w) :: ws | [] => [[c]] end) as ->.
    { cbn [app]. cbn [words]. by rewrite (bool_decide_eq_false_2 (c ∈ D)),
        (bool_decide_eq_false_2 (c' ∈ D)) by done. }
    by rewrite (IH c' Hc').
Qed.

(** Every text is delimiters only, or delimiters, a word and what follows. *)
Lemma split_word D s :
  Forall (λ c, c ∈ D) s ∨
  ∃ pre c w rest, s = pre ++ (c :: w) ++ rest ∧ Forall (λ c, c ∈ D) pre ∧ (c ∉ D) ∧
    Forall (λ c, c ∉ D) w ∧ after_word D rest.
Proof.
  induction s as [|c s IH]; [by left|].
  destruct (decide (c ∈ D)) as [Hc|Hc].
  { destruct IH as [IH|(pre & c' & w & rest & -> & Hp & Hc' & Hw & Hr)]; [left; by constructor|].
    right. exists (c :: pre), c', w, rest. split_and!; try done. by constructor. }
  right. clear IH.
  assert (∃ w rest, s = w ++ rest ∧ Forall (λ c, c ∉ D) w ∧ after_word D rest)
    as (w & rest & -> & Hw & Hr).
  { clear c Hc. induction s as [|c s (w & rest & -> & Hw & Hr)]; [by exists [], []|].
    destruct (decide (c ∈ D)); [by exists [], (c :: w ++ rest)|].
    exists (c :: w), rest. split_and!; [done|by constructor|done]. }
  exists [], c, w, rest. by split_and!.
Qed.

Lemma skip_delims_ok n m dp D s pre c :
  cstring m dp D → holds m s (pre ++ [c]) → Forall (λ x, x ∈ D) pre → Forall in_u8 (pre ++ [c]) →
  Forall (λ x, x ≠ 0) pre → c = 0 ∨ c ∉ D → (length pre < n)%nat →
  skip_delims n dp s m =
    Ok (if c =? 0 then None else Some (s + zlen pre), s + zlen pre, m).
Proof.
  intros HD. revert n s. induction pre as [|x pre IH]; intros [|n] s Hh Hp Hu Hz Hc Hn;
    simpl in Hn; try lia; cbn [skip_delims app] in *.
  - apply holds_cons in Hh as [Hx _]. rewrite (rd_ok _ _ c) by done.
    apply Forall_cons in Hu as [Hu _].
    destruct (strchr_ok m dp D c HD Hu) as (r & Hr & Hr0). erewrite bind_ok by done.
    rewrite elem_of_app, list_elem_of_singleton in Hr0.
    change (zlen []) with 0. rewrite Z.add_0_r.
    bool_case; bool_case; try done; simpl; naive_solver.
  - apply holds_cons in Hh as [Hx Hh]. rewrite (rd_ok _ _ x) by done.
    apply Forall_cons in Hu as [Hu Hu']. apply Forall_cons in Hz as [Hz Hz'].
    apply Forall_cons in Hp as [Hp Hp'].
    destruct (strchr_ok m dp D x HD Hu) as (r & Hr & Hr0). erewrite bind_ok by done.
    rewrite elem_of_app in Hr0. rewrite (proj2 (Z.eqb_neq r 0)) by tauto. simpl.
    rewrite (proj2 (Z.eqb_neq x 0)) by done. rewrite IH by (done || lia).
    replace (s + zlen (x :: pre)) with (s + 1 + zlen pre) by (unfold zlen; simpl; lia). done.
Qed.

Lemma skip_token_ok n m dp D s w c :
  cstring m dp D → holds m s (w ++ [c]) → Forall (λ x, x ∉ D) w → Forall in_u8 (w ++ [c]) →
  Forall (λ x, x ≠ 0) w → c = 0 ∨ c ∈ D → (length w < n)%nat →
  skip_token n dp s m = Ok (s + zlen w, m).
Proof.
  intros HD. revert n s. induction w as [|x w IH]; intros [|n] s Hh Hp Hu Hz Hc Hn;
    simpl in Hn; try lia; cbn [skip_token app] in *.
  - apply holds_cons in Hh as [Hx _]. rewrite (rd_ok _ _ c) by done.
    apply Forall_cons in Hu as [Hu _].
    destruct (strchr_ok m dp D c HD Hu) as (r & Hr & Hr0). erewrite bind_ok by done.
    rewrite elem_of_app, list_elem_of_singleton in Hr0.
    change (zlen []) with 0. rewrite Z.add_0_r. bool_case; [naive_solver|done].
  - apply holds_cons in Hh as [Hx Hh]. rewrite (rd_ok _ _ x) by done.
    apply Forall_cons in Hu as [Hu Hu']. apply Forall_cons in Hz as [Hz Hz'].
    apply Forall_cons in Hp as [Hp Hp'].
    destruct (strchr_ok m dp D x HD Hu) as (r & Hr & Hr0). erewrite bind_ok by done.
    rewrite elem_of_app, list_elem_of_singleton in Hr0.
    rewrite (proj2 (Z.eqb_eq r 0)) by tauto. rewrite IH by (done || lia).
    replace (s + zlen (x :: w)) with (s + 1 + zlen w) by (unfold zlen; simpl; lia). done.
Qed.

(** One call at the end of the text, and one call that finds a word: the
    delimiter after the word becomes a null byte. *)
Lemma strtok_r_end m p dp D s s0 save : cstring m p s → cstring m dp D →
  Forall (λ c, c ∈ D) s → (if s0 =? 0 then save else s0) = p →
  strtok_r s0 dp save m = Ok (0, p + zlen s, m).
Proof.
  intros Hc HD Hs Hp. pose proof (cstring_size _ _ _ Hc). pose proof Hc as (Hp0 & Hh & Hz & Hu).
  unfold strtok_r. pose proof HD as (Hd0 & _). rewrite Hp.
  rewrite bind_assert by (by rewrite (proj2 (Z.eqb_neq dp 0)) by lia).
  rewrite bind_assert by (by rewrite (proj2 (Z.eqb_neq p 0)) by lia).
  rewrite scanning_bind.
  erewrite bind_ok by (apply (skip_delims_ok _ m dp D p s 0); try done; [|by left|lia];
    apply Forall_app; split; [done|by repeat constructor]).
  done.
Qed.

Definition next_save (q : Z) (rest : list Z) : Z := match rest with [] => q | _ => q + 1 end.
Definition cut (m : mem) (q : Z) (rest : list Z) : mem :=
  match rest with [] => m | _ => <[q := 0]> m end.

Lemma strtok_r_word m p dp D pre c w rest s0 save :
  cstring m p (pre ++ (c :: w) ++ rest) → cstring m dp D →
  Forall (λ x, x ∈ D) pre → c ∉ D → Forall (λ x, x ∉ D) w → after_word D rest →
  (if s0 =? 0 then save else s0) = p →
  let q := p + zlen pre + zlen (c :: w) in
  strtok_r s0 dp save m = Ok (p + zlen pre, next_save q rest, cut m q rest).
Proof.
  intros Hc HD Hpre Hcd Hw Hrest Hp q. pose proof (cstring_size _ _ _ Hc) as Hsz.
  destruct Hc as (Hp0 & Hh & Hz & Hu). pose proof HD as (Hd0 & _).
  rewrite !length_app in Hsz. simpl in Hsz. rewrite <- !app_assoc in Hh.
  apply holds_app in Hh as [H1 H2]. pose proof H2 as [H3 H4]%holds_app.
  pose proof H2 as [Hc' _]%holds_cons.
  apply Forall_app in Hz as [Hz1 [Hz2 Hz3]%Forall_app].
  apply Forall_app in Hu as [Hu1 [Hu2 Hu3]%Forall_app].
  unfold strtok_r. rewrite Hp.
  rewrite bind_assert by (by rewrite (proj2 (Z.eqb_neq dp 0)) by lia).
  rewrite bind_assert by (by rewrite (proj2 (Z.eqb_neq p 0)) by lia). rewrite scanning_bind.
  assert (c ≠ 0 ∧ in_u8 c) as [Hc0 Hcu] by (inversion Hz2; inversion Hu2; done).
  erewrite bind_ok by (apply (skip_delims_ok _ m dp D p pre c); try done; [| |by right|lia];
    [apply holds_app; split; [done|by apply holds_cons] | apply Forall_app; split; [done|by constructor]]).
  rewrite (proj2 (Z.eqb_neq c 0)) by done. cbn [fst]. rewrite scanning_bind.
  assert (∃ e, holds m q [e] ∧ in_u8 e ∧ (e = 0 ∨ e ∈ D) ∧
    (e = 0 ↔ rest = [])) as (e & He & Heu & Hed & He0).
  { destruct rest as [|d rest].
    - exists 0. split_and!; [exact H4|done|by left|done].
    - apply holds_cons in H4 as [H4 _]. exists d. apply Forall_cons in Hu3 as [? _].
      apply Forall_cons in Hz3 as [? _]. split_and!; try done; [|by right].
      apply holds_cons. split; [done|by intros []]. }
  erewrite bind_ok by (apply (skip_token_ok _ m dp D _ (c :: w) e); try done; [| | |simpl; lia];
    [apply holds_app; done|by constructor|apply Forall_app; split; [done|by constructor]]).
  apply holds_cons in He as [He _]. fold q. rewrite (rd_ok _ _ e) by done.
  destruct rest as [|d rest]; cbn [next_save cut].
  - by rewrite (proj2 He0).
  - rewrite (proj2 (Z.eqb_neq e 0)) by naive_solver. cbn [negb]. by rewrite wr_ok by done.
Qed.

(** The loop of the example in string.c: the tokens in turn. *)
Fixpoint tokenize (n : nat) (s delimiters save_ptr : Z) : M mem (list Z) :=
  match n with
  | O => no_fuel
  | S n =>
      let* r := strtok_r s delimiters save_ptr in
      if r.1 =? 0 then ret []
      else let* l := tokenize n 0 delimiters r.2 in ret (r.1 :: l)
  end.

Lemma cut_out m q rest x : x ≠ q → cut m q rest !! x = m !! x.
Proof. intros Hx. destruct rest; [done|]. by apply lookup_insert_ne. Qed.

(** What one call leaves: the word, terminated, and the text after it. *)
Lemma cut_word m p w rest : cstring m p (w ++ rest) →
  let q := p + zlen w in
  cstring (cut m q rest) p w ∧ cstring (cut m q rest) (next_save q rest) (tail rest).
Proof.
  intros (Hp & Hh & Hz & Hu) q. rewrite <- app_assoc in Hh. apply holds_app in Hh as [Hw Hr].
  apply Forall_app in Hz as [Hz1 Hz2]. apply Forall_app in Hu as [Hu1 Hu2].
  pose proof (zlen_nonneg w). destruct rest as [|d rest]; cbn [cut next_save tail].
  - split; split_and!; try done; [|lia]. apply holds_app. done.
  - apply Forall_cons in Hz2 as [_ Hz2]. apply Forall_cons in Hu2 as [_ Hu2].
    cbn [app] in Hr. apply holds_cons in Hr as [_ Hr]. split; split_and!; try done; [|lia|].
    + apply holds_app. split; [apply holds_insert; [done|lia]|].
      apply holds_cons. split; [by rewrite lookup_insert_eq|by intros []].
    + apply holds_insert; [done|lia].
Qed.

Lemma cstring_ext m m' p s : (∀ x, p <= x <= p + zlen s → m' !! x = m !! x) →
  cstring m p s → cstring m' p s.
Proof.
  intros He (Hp & Hh & ?). split_and!; try tauto. eapply holds_ext; [|done].
  intros x Hx. apply He. rewrite zlen_app in Hx. change (zlen [0]) with 1 in Hx. lia.
Qed.

Lemma words_tail D rest : after_word D rest → words D rest = words D (tail rest).
Proof. destruct rest as [|d rest]; [done|]. intros Hd. apply (words_skip D [d]). by constructor. Qed.

Lemma zlen_cons {A} (x : A) l : zlen (x :: l) = 1 + zlen l.
Proof. unfold zlen. simpl. lia. Qed.

Lemma next_save_range q D rest : after_word D rest →
  q <= next_save q rest ∧ next_save q rest + zlen (tail rest) = q + zlen rest ∧
  (rest ≠ [] → next_save q rest = q + 1).
Proof.
  destruct rest as [|d rest]; cbn [next_save tail]; intros _; rewrite ?zlen_cons; split_and!;
    try lia; done.
Qed.

Lemma tokenize_ok n dp D m p s s0 save :
  cstring m p s → cstring m dp D → dp + zlen D < p ∨ p + zlen s < dp →
  (if s0 =? 0 then save else s0) = p → (length s < n)%nat →
  wp (tokenize n s0 dp save)
    (λ l m', Forall2 (cstring m') l (words D s) ∧
             ∀ x, x < p ∨ p + zlen s <= x → m' !! x = m !! x) m.
Proof.
  revert m p s s0 save. induction n as [|n IH]; intros m p s s0 save Hc HD Hdis Hp Hn; [lia|].
  cbn [tokenize]. apply wp_bind.
  destruct (split_word D s) as [Hs|(pre & c & w & rest & -> & Hpre & Hcd & Hw & Hrest)].
  { eapply wp_ok; [by apply (strtok_r_end m p dp D s)|]. apply wp_ret. split; [|done].
    rewrite <- (app_nil_r s), words_skip by done. constructor. }
  eapply wp_ok; [by apply (strtok_r_word m p dp D pre c w rest)|]. cbn [fst snd].
  set (t := p + zlen pre). set (q := t + zlen (c :: w)).
  pose proof (zlen_nonneg pre). pose proof (zlen_nonneg w). pose proof (zlen_nonneg rest).
  rewrite (proj2 (Z.eqb_neq t 0)) by (subst t; destruct Hc; lia).
  rewrite !zlen_app in Hdis. rewrite !length_app in Hn. cbn [length] in Hn.
  assert (cstring m t ((c :: w) ++ rest)) as Ht.
  { destruct Hc as (Hp0 & Hh & Hz & Hu). rewrite <- app_assoc in Hh.
    apply holds_app in Hh as [_ Hh]. apply Forall_app in Hz as [_ Hz].
    apply Forall_app in Hu as [_ Hu]. split_and!; try done. subst t. lia. }
  destruct (cut_word _ _ _ _ Ht) as [Hword Hnext]. fold q in Hword, Hnext.
  destruct (next_save_range q D rest Hrest) as (Hq1 & Hq2 & Hq3).
  pose proof (zlen_cons c w). apply wp_bind. eapply wp_mono.
  { apply (IH (cut m q rest) (next_save q rest) (tail rest)); [done| | |done|].
    - eapply cstring_ext; [|done]. intros x Hx. destruct rest; [done|]. apply cut_out. subst t q.
      rewrite !zlen_cons in *. lia.
    - subst t q. lia.
    - destruct rest; simpl in *; lia. }
  intros l m' [Hl Hframe]. apply wp_ret. split.
  - rewrite words_skip by done. cbn [app]. rewrite words_word by done. constructor.
    + eapply cstring_ext; [|exact Hword]. intros x Hx. apply Hframe. fold q in Hx.
      destruct (decide (rest = [])) as [->|Hne]; [|specialize (Hq3 Hne); lia].
      cbn [tail] in *. change (zlen []) with 0 in *. lia.
    + by rewrite words_tail.
  - intros x Hx. rewrite !zlen_app in Hx. rewrite Hframe by (subst t q; lia).
    destruct rest as [|d rest]; [done|]. pose proof (zlen_cons d rest).
    pose proof (zlen_nonneg rest). apply cut_out. subst t q. lia.
Qed.

(** strlcpy() writes the first [size - 1] characters and a null byte. *)
Lemma strlcpy_ok m dst src s size :
  cstring m src s → 0 < dst → 0 < size → mapped m dst (Z.min (zlen s + 1) size) →
  dst + Z.min (zlen s + 1) size <= src ∨ src + zlen s < dst →
  strlcpy dst src size m = Ok (zlen s, store m dst (take (Z.to_nat (size - 1)) s ++ [0])).
Proof.
  intros Hc Hd Hsz Hm Hdis. pose proof Hc as (Hs0 & Hh & _ & Hu). pose proof (zlen_nonneg s).
  unfold strlcpy. rewrite bind_assert by (by rewrite (proj2 (Z.eqb_neq dst 0)) by lia).
  rewrite bind_assert by (by rewrite (proj2 (Z.eqb_neq src 0)) by lia).
  rewrite (strlen_ok m src s) by done. rewrite Z.gtb_ltb, (proj2 (Z.ltb_lt 0 size)) by done.
  set (t := take (Z.to_nat (size - 1)) s).
  assert ((if zlen s <? size - 1 then zlen s else size - 1) = zlen t) as ->.
  { subst t. unfold zlen. rewrite length_take. bool_case; unfold zlen in *; lia. }
  assert (zlen t = Z.min (zlen s) (size - 1)) as Ht
    by (subst t; unfold zlen; rewrite length_take; lia).
  run. rewrite (memcpy_ok t); [| | | |lia|lia|lia].
  - rewrite wr_ok by (apply (mapped_store m dst t dst (zlen t + 1));
      [eapply mapped_sub; [done|lia|lia]|eapply mapped_sub; [done|lia|lia]|lia]).
    rewrite store_snoc, store_insert by lia. done.
  - apply holds_app in Hh as [Hh _]. rewrite <- (take_drop (Z.to_nat (size - 1)) s) in Hh.
    by apply holds_app in Hh as [Hh _].
  - by apply Forall_take.
  - eapply mapped_sub; [done|lia|lia].
Qed.

(** ** Properties *)

(** memmove() is right for overlapping blocks, in both directions: the
    block at [dst] becomes the old contents of the block at [src], nothing
    else changes; but the pointer it returns is [dst] only when [dst] is not
    below [src], and [dst + size] otherwise. *)
Theorem memmove_overlap m dst src l :
  holds m src l → Forall in_u8 l → mapped m dst (zlen l) → 0 < dst → 0 < src →
  wp (memmove dst src (zlen l))
    (λ r m', m' = store m dst l ∧ r = if dst <? src then dst + zlen l else dst) m.
Proof.
  intros Hh Hu Hm Hd Hs. unfold memmove.
  apply wp_bind, wp_assert; [by rewrite (proj2 (Z.eqb_neq dst 0)) by lia|].
  apply wp_bind, wp_assert; [by rewrite (proj2 (Z.eqb_neq src 0)) by lia|].
  rewrite length_zlen. bool_case; apply wp_bind; eapply wp_ok.
  - apply copy_up_ok; [done|done|done|lia].
  - by apply wp_ret.
  - apply copy_down_ok; [done|done|done|lia].
  - by apply wp_ret.
Qed.

(** The strtok_r() loop finds the words: on a string and a set of
    delimiters in disjoint memory it returns, in order, one pointer for each
    maximal run of characters that are not delimiters, each then a
    null-terminated string of its own, and changes no byte outside the
    string. *)
Theorem strtok_r_words m p s dp D save :
  cstring m p s → cstring m dp D → dp + zlen D < p ∨ p + zlen s < dp →
  wp (tokenize (S (length s)) p dp save)
    (λ l m', Forall2 (cstring m') l (words D s) ∧
             ∀ x, x < p ∨ p + zlen s <= x → m' !! x = m !! x) m.
Proof.
  intros Hc HD Hdis. apply tokenize_ok; [done|done|done| |lia].
  rewrite (proj2 (Z.eqb_neq p 0)); [done|]. destruct Hc. lia.
Qed.

(** strcmp() is the lexicographic order of unsigned characters, and 0
    exactly for equal strings. *)
Theorem strcmp_order m a b s t :
  cstring m a s → cstring m b t →
  wp (strcmp a b) (λ r m', m' = m ∧ r = str_order s t ∧ (r = 0 ↔ s = t)) m.
Proof.
  intros Ha Hb. eapply wp_ok; [by apply strcmp_ok|]. split_and!; [done|done|].
  apply str_order_eq.
Qed.

(** strlcpy() always leaves a string in a buffer of [size] > 0 bytes: the
    longest prefix of the source that fits, and it returns the length of the
    whole source; no byte outside the buffer changes. *)
Theorem strlcpy_truncates m dst src s size :
  cstring m src s → 0 < dst → 0 < size → mapped m dst size →
  dst + size <= src ∨ src + zlen s < dst →
  wp (strlcpy dst src size)
    (λ r m', r = zlen s ∧ cstring m' dst (take (Z.to_nat (size - 1)) s) ∧
             ∀ x, x < dst ∨ dst + size <= x → m' !! x = m !! x) m.
Proof.
  intros Hc Hd Hsz Hm Hdis. pose proof (zlen_nonneg s). pose proof Hc as (_ & _ & Hz & Hu).
  eapply wp_ok; [apply (strlcpy_ok m dst src s size); try done; [|lia]|].
  { eapply mapped_sub; [done|lia|lia]. }
  split_and!; [done| |].
  - split_and!; [done|apply holds_store|by apply Forall_take|by apply Forall_take].
  - intros x Hx. apply store_out. rewrite zlen_app. change (zlen [0]) with 1.
    unfold zlen. rewrite length_take. unfold zlen in *. lia.
Qed.

(** ** Concrete strings *)

(** Bytes of a concrete memory, checked one by one. *)
Ltac concrete_holds :=
  let i := fresh "i" in let b := fresh "b" in let Hb := fresh "Hb" in
  intros i b Hb; repeat (destruct i as [|i]; [injection Hb as <-; reflexivity|]);
  discriminate Hb.

(** "ab  c" at 100, " " at 50 and ten zero bytes at 200. *)
Definition demo_mem : mem :=
  store (store (store ∅ 50 [32; 0]) 100 [97; 98; 32; 32; 99; 0]) 200 (replicate 10 0).

Lemma demo_text : cstring demo_mem 100 [97; 98; 32; 32; 99].
Proof.
  split_and!; [lia|concrete_holds|repeat constructor; lia|repeat constructor; lia].
Qed.

Lemma demo_delims : cstring demo_mem 50 [32].
Proof.
  split_and!; [lia|concrete_holds|repeat constructor; lia|repeat constructor; lia].
Qed.

Lemma demo_buffer : mapped demo_mem 200 10.
Proof.
  change 10 with (zlen (replicate 10 0)). apply holds_mapped. apply holds_store.
Qed.

Lemma memmove_overlap_witness :
  wp (memmove 101 100 4) (λ r m', r = 101 ∧ m' !! 104 = Some 32 ∧ m' !! 102 = Some 98) demo_mem.
Proof.
  eapply wp_mono.
  { apply (memmove_overlap demo_mem 101 100 [97; 98; 32; 32]); [concrete_holds| | |lia|lia].
    - repeat constructor; lia.
    - apply (holds_mapped _ _ [98; 32; 32; 99]). concrete_holds. }
  intros r m' [-> ->]. split_and!; vm_compute; reflexivity.
Defined.

Lemma strtok_r_words_witness :
  wp (tokenize 6 100 50 0)
    (λ l m', Forall2 (cstring m') l [[97; 98]; [99]]) demo_mem.
Proof.
  eapply wp_mono; [apply (strtok_r_words demo_mem 100 _ 50 _ 0 demo_text demo_delims)|].
  - left. vm_compute. reflexivity.
  - by intros l m' [Hl _].
Defined.

Lemma strcmp_order_witness : wp (strcmp 100 50) (λ r _, r = 1) demo_mem.
Proof.
  eapply wp_mono; [apply (strcmp_order demo_mem 100 50 _ _ demo_text demo_delims)|].
  by intros r m' (_ & -> & _).
Defined.

Lemma strlcpy_truncates_witness :
  wp (strlcpy 200 100 4) (λ r m', r = 5 ∧ cstring m' 200 [97; 98; 32]) demo_mem.
Proof.
  eapply wp_mono; [apply (strlcpy_truncates demo_mem 200 100 _ 4 demo_text)|]; [lia|lia| | |].
  - eapply mapped_sub; [apply demo_buffer|lia|lia].
  - right. vm_compute. reflexivity.
  - by intros r m' (-> & Hc & _).
Defined.

End CString.
