(* ===== verification/CStdlib.v ===== *)
(** * CStdlib: sorting, searching and parsing integers (lib/stdlib.c)

    Heap sort, binary search and atoi() over the byte memory of [Memory].  An
    array is [cnt] elements of [size] bytes; the comparison function the code
    is given reads two elements through their addresses.  Indices into the
    heap are [size_t] and count from 1, as in the C code.  heapify() goes down
    the heap, so that [cnt] steps are enough; binary_search() halves a range
    of [cnt] elements; atoi() reads consecutive bytes of the memory. *)

From Stdlib Require Import ZArith Lia Sorting.Sorted.
From stdpp Require Import base tactics option list numbers gmap.
From S2P Require Import Prelude Memory CString.
Import Memory CString.

Module CStdlib.

(** ** Heap sort and binary search *)

Section sort.
Context (size : Z) (compare : Z → Z → M mem Z).

Fixpoint swap_loop (n : nat) (a b i : Z) : M mem unit :=
  match n with
  | O => ret tt
  | S n =>
      let* t := rd (a + i) in
      let* x := rd (b + i) in
      wr (a + i) x;;;
      wr (b + i) t;;;
      swap_loop n a b (i + 1)
  end.

Definition do_swap (array a_idx b_idx : Z) : M mem unit :=
  let a := array + u32 ((a_idx - 1) * size) in
  let b := array + u32 ((b_idx - 1) * size) in
  swap_loop (Z.to_nat size) a b 0.

Definition do_compare (array a_idx b_idx : Z) : M mem Z :=
  compare (array + u32 ((a_idx - 1) * size)) (array + u32 ((b_idx - 1) * size)).

(** [idx <= cnt && do_compare (array, idx, max, ...) > 0]. *)
Definition child_above (array idx max cnt : Z) : M mem bool :=
  if idx <=? cnt then let* c := do_compare array idx max in ret (c >? 0)
  else ret false.

Fixpoint heapify (n : nat) (array i cnt : Z) : M mem unit :=
  match n with
  | O => no_fuel
  | S n =>
      let left := u32 (2 * i) in
      let right := u32 (2 * i + 1) in
      let* l := child_above array left i cnt in
      let max := if l : bool then left else i in
      let* r := child_above array right max cnt in
      let max := if r : bool then right else max in
      if max =? i then ret tt
      else
        do_swap array i max;;;
        heapify n array max cnt
  end.

(** [for (i = cnt / 2; i > 0; i--)]. *)
Fixpoint build_heap (n : nat) (array cnt : Z) : M mem unit :=
  match n with
  | O => ret tt
  | S n' =>
      heapify (Z.to_nat cnt + 1) array (Z.of_nat n) cnt;;;
      build_heap n' array cnt
  end.

(** [for (i = cnt; i > 1; i--)], with [n] the value of [i - 1]. *)
Fixpoint sort_heap (n : nat) (array : Z) : M mem unit :=
  match n with
  | O => ret tt
  | S n' =>
      let i := Z.of_nat n + 1 in
      do_swap array 1 i;;;
      heapify (Z.to_nat i) array 1 (i - 1);;;
      sort_heap n' array
  end.

Definition sort (array cnt : Z) : M mem unit :=
  assert (negb (array =? 0) || (cnt =? 0));;;
  assert (size >? 0);;;
  build_heap (Z.to_nat (cnt / 2)) array cnt;;;
  sort_heap (Z.to_nat (cnt - 1)) array.

Fixpoint search_loop (n : nat) (key first last : Z) : M mem Z :=
  match n with
  | O => no_fuel
  | S n =>
      if first <? last then
        let range := (last - first) / size in
        let middle := first + range / 2 * size in
        let* cmp := compare key middle in
        if cmp <? 0 then search_loop n key first middle
        else if cmp >? 0 then search_loop n key (middle + size) last
        else ret middle
      else ret 0
  end.

Definition binary_search (key array cnt : Z) : M mem Z :=
  search_loop (Z.to_nat cnt + 1) key array (array + u32 (size * cnt)).
End sort.

(** qsort() and bsearch() pass the comparison on through compare_thunk(). *)
Definition compare_thunk (compare : Z → Z → M mem Z) (a b : Z) : M mem Z := compare a b.

Definition qsort (array cnt size : Z) (compare : Z → Z → M mem Z) : M mem unit :=
  sort size (compare_thunk compare) array cnt.

Definition bsearch (key array cnt size : Z) (compare : Z → Z → M mem Z) : M mem Z :=
  binary_search size (compare_thunk compare) key array cnt.

(** ** atoi *)

Definition isspace (c : Z) : bool :=
  (c =? 32) || (c =? 12) || (c =? 10) || (c =? 13) || (c =? 9) || (c =? 11).
Definition isdigit (c : Z) : bool := (48 <=? c) && (c <=? 57).

Fixpoint skip_space (n : nat) (s : Z) : M mem Z :=
  match n with
  | O => no_fuel
  | S n => let* c := rd s in if isspace c then skip_space n (s + 1) else ret s
  end.

Definition parse_sign (s : Z) : M mem (bool * Z) :=
  let* c := rd s in
  if c =? 43 then ret (false, s + 1)
  else
    let* c := rd s in
    if c =? 45 then ret (true, s + 1) else ret (false, s).

(** The value is built up negatively. *)
Fixpoint parse_digits (n : nat) (s value : Z) : M mem Z :=
  match n with
  | O => no_fuel
  | S n =>
      let* c := rd s in
      if isdigit c then parse_digits n (s + 1) (s32 (value * 10 - (c - 48)))
      else ret value
  end.

Definition atoi (s : Z) : M mem Z :=
  assert (negb (s =? 0));;;
  let* s := scanning (λ n, skip_space n s) in
  let* (negative, s) := parse_sign s in
  let* value := scanning (λ n, parse_digits n s 0) in
  ret (if negative : bool then value else s32 (- value)).

(** ** Arrays of elements *)

(** Nothing outside the [n] bytes at [p] changes. *)
Definition frame (p n : Z) (m m' : mem) : Prop := ∀ x, ¬ p <= x < p + n → m' !! x = m !! x.

Lemma same_frame_trans p n m1 m2 m3 : frame p n m1 m2 → frame p n m2 m3 → frame p n m1 m3.
Proof. intros H1 H2 x Hx. rewrite H2 by done. by apply H1. Qed.

Lemma swap_loop_ok l k m a b i :
  length l = length k → Forall in_u8 l → Forall in_u8 k →
  holds m (a + i) l → holds m (b + i) k → a + i + zlen l <= b + i ∨ b + i + zlen l <= a + i →
  swap_loop (length l) a b i m = Ok (tt, store (store m (a + i) k) (b + i) l).
Proof.
  revert k m i. induction l as [|x l IH]; intros [|y k] m i Hlen Hl Hk Ha Hb Hd; try done.
  apply Forall_cons in Hl as [Hx Hl]. apply Forall_cons in Hk as [Hy Hk].
  apply holds_cons in Ha as [Ha Ha']. apply holds_cons in Hb as [Hb Hb'].
  injection Hlen as Hlen. rewrite zlen_cons in Hd. pose proof (zlen_nonneg l).
  assert (zlen k = zlen l) as Hz by (unfold zlen; lia).
  cbn [length swap_loop store]. rewrite (rd_ok _ _ _ _ Ha), (rd_ok _ _ _ _ Hb).
  rewrite wr_ok by (by eexists). rewrite u8_small by done.
  rewrite wr_ok by (rewrite lookup_insert_ne by lia; by eexists). rewrite u8_small by done.
  rewrite (IH k); [| done | done | done | | | lia].
  - rewrite <- !Z.add_assoc. do 2 f_equal.
    rewrite (store_insert _ _ x) by lia. rewrite (store_insert _ _ y) by lia.
    rewrite store_insert by lia. by rewrite <- store_insert by lia.
  - rewrite Z.add_assoc. do 2 (apply holds_insert; [|lia]). done.
  - rewrite Z.add_assoc. do 2 (apply holds_insert; [|lia]). done.
Qed.

Section arrays.
Context (size : Z) (Hsize : 0 < size).

(** The elements [xs] at [p]. *)
Definition arr (m : mem) (p : Z) (xs : list (list Z)) : Prop :=
  ∀ (i : nat) x, xs !! i = Some x → holds m (p + Z.of_nat i * size) x.

Definition elems (xs : list (list Z)) : Prop := Forall (λ x, zlen x = size ∧ Forall in_u8 x) xs.

(** Elements are counted from 1. *)
Definition at1 (xs : list (list Z)) (i : Z) : option (list Z) := xs !! Z.to_nat (i - 1).

Definition exchange (xs : list (list Z)) (i j : Z) : list (list Z) :=
  match at1 xs i, at1 xs j with
  | Some x, Some y => <[Z.to_nat (i - 1) := y]> (<[Z.to_nat (j - 1) := x]> xs)
  | _, _ => xs
  end.

Lemma at1_Some xs i : 1 <= i <= zlen xs → is_Some (at1 xs i).
Proof. intros Hi. unfold at1. apply lookup_lt_is_Some. unfold zlen in Hi. lia. Qed.

Lemma length_exchange xs i j : length (exchange xs i j) = length xs.
Proof. unfold exchange. repeat case_match; [|done..]. by rewrite !length_insert. Qed.

Lemma at1_exchange xs i j c : 1 <= i <= zlen xs → 1 <= j <= zlen xs → 1 <= c →
  at1 (exchange xs i j) c =
    if decide (c = i) then at1 xs j else if decide (c = j) then at1 xs i else at1 xs c.
Proof.
  intros Hi Hj Hc. destruct (at1_Some xs i Hi) as [x Ex]. destruct (at1_Some xs j Hj) as [y Ey].
  unfold exchange. rewrite Ex, Ey. unfold at1, zlen in *.
  destruct (decide (c = i)) as [->|Hci].
  { rewrite list_lookup_insert_eq; [done|]. rewrite length_insert. lia. }
  rewrite list_lookup_insert_ne by lia.
  destruct (decide (c = j)) as [->|Hcj]; [rewrite list_lookup_insert_eq; [done|lia]|].
  by rewrite list_lookup_insert_ne by lia.
Qed.

Lemma elems_exchange xs i j : elems xs → elems (exchange xs i j).
Proof.
  intros He. unfold exchange. destruct (at1 xs i) as [x|] eqn:Ex; [|done].
  destruct (at1 xs j) as [y|] eqn:Ey; [|done].
  apply Forall_insert; [apply Forall_insert; [done|]|].
  - exact (Forall_lookup_1 _ _ _ _ He Ex).
  - exact (Forall_lookup_1 _ _ _ _ He Ey).
Qed.

Lemma do_swap_ok m p xs i j :
  arr m p xs → elems xs → 1 <= i <= zlen xs → 1 <= j <= zlen xs → i ≠ j →
  zlen xs * size < 2 ^ 32 →
  ∃ m', do_swap size p i j m = Ok (tt, m') ∧ arr m' p (exchange xs i j) ∧
        frame p (zlen xs * size) m m'.
Proof.
  intros Ha He Hi Hj Hij Hlt.
  destruct (at1_Some xs i Hi) as [x Ex]. destruct (at1_Some xs j Hj) as [y Ey].
  pose proof (Forall_lookup_1 _ _ _ _ He Ex) as [Hx Hx']. pose proof (Forall_lookup_1 _ _ _ _ He Ey) as [Hy Hy'].
  pose proof (Ha _ _ Ex) as Hhx. pose proof (Ha _ _ Ey) as Hhy.
  rewrite Z2Nat.id in Hhx, Hhy by lia.
  unfold do_swap. rewrite !u32_small by (unfold in_u32; nia).
  replace (Z.to_nat size) with (length x) by (unfold zlen in Hx; lia).
  eexists. split; [apply (swap_loop_ok x y); rewrite ?Z.add_0_r; try done; [unfold zlen in *; lia|nia]|].
  rewrite !Z.add_0_r. split.
  - intros c z Hz. assert (at1 (exchange xs i j) (Z.of_nat c + 1) = Some z) as Hz'.
    { unfold at1. by replace (Z.to_nat (Z.of_nat c + 1 - 1)) with c by lia. }
    assert (Z.of_nat c < zlen xs) as Hc.
    { apply lookup_lt_Some in Hz. rewrite length_exchange in Hz. unfold zlen. lia. }
    rewrite at1_exchange in Hz' by lia. case_decide as Ei; [|case_decide as Ej].
    + rewrite Ey in Hz'. injection Hz' as <-. replace (Z.of_nat c) with (i - 1) by lia.
      apply holds_store_disjoint; [apply holds_store|]. nia.
    + rewrite Ex in Hz'. injection Hz' as <-. replace (Z.of_nat c) with (j - 1) by lia.
      apply holds_store.
    + unfold at1 in Hz'. replace (Z.to_nat (Z.of_nat c + 1 - 1)) with c in Hz' by lia.
      pose proof (Forall_lookup_1 _ _ _ _ He Hz') as [Hzz _].
      do 2 (apply holds_store_disjoint; [|nia]). by apply Ha.
  - intros a Hout. rewrite !store_out; [done| |]; nia.
Qed.
End arrays.

(** ** Heaps *)

(** A comparison function that reads two elements of [size] bytes and returns
    a strcmp()-type result: [cmp] is a total preorder on the elements. *)
Record comparison (size : Z) (compare : Z → Z → M mem Z) (cmp : list Z → list Z → Z) : Prop := {
  compare_elems : ∀ m p q a b, holds m p a → holds m q b → zlen a = size → zlen b = size →
    compare p q m = Ok (cmp a b, m);
  cmp_total : ∀ a b, 0 < cmp a b → cmp b a <= 0;
  cmp_trans : ∀ a b c, cmp a b <= 0 → cmp b c <= 0 → cmp a c <= 0 }.

Section heap.
Context (size : Z) (compare : Z → Z → M mem Z) (cmp : list Z → list Z → Z).
Context (Hsize : 0 < size) (Hcmp : comparison size compare cmp).

(** The element at [a] is at least the one at [b]. *)
Definition dom (xs : list (list Z)) (a b : Z) : Prop :=
  ∀ x y, at1 xs a = Some x → at1 xs b = Some y → cmp y x <= 0.

Definition child (c j : Z) : Prop := c = 2 * j ∨ c = 2 * j + 1.

(** The elements from [k] to [cnt] are not below their children. *)
Definition heap (xs : list (list Z)) (k cnt : Z) : Prop :=
  ∀ j c, k <= j → child c j → c <= cnt → dom xs j c.

(** The same but for the element at [i], whose children are still below its
    parent. *)
Definition heap_but (xs : list (list Z)) (k i cnt : Z) : Prop :=
  (∀ j c, k <= j → j ≠ i → child c j → c <= cnt → dom xs j c) ∧
  (∀ j c, k <= j → child i j → child c i → c <= cnt → dom xs j c).

Lemma cmp_refl a : cmp a a <= 0.
Proof. destruct (Z.le_gt_cases (cmp a a) 0); [done|]. by apply (cmp_total _ _ _ Hcmp). Qed.

Lemma dom_refl xs i : dom xs i i.
Proof. intros x y Ex Ey. rewrite Ex in Ey. injection Ey as ->. apply cmp_refl. Qed.

Lemma dom_trans xs a b c : 1 <= b <= zlen xs → dom xs a b → dom xs b c → dom xs a c.
Proof.
  intros Hb Hab Hbc x z Ex Ez. destruct (at1_Some xs b Hb) as [y Ey].
  eapply (cmp_trans _ _ _ Hcmp); [by apply (Hbc y z)|by apply (Hab x y)].
Qed.

Lemma child_above_ok m p xs idx max cnt :
  arr size m p xs → elems size xs → 1 <= idx → 1 <= max <= zlen xs → cnt <= zlen xs →
  zlen xs * size < 2 ^ 32 →
  ∃ b, child_above size compare p idx max cnt m = Ok (b, m) ∧
       (if b : bool then idx <= cnt ∧ dom xs idx max else idx <= cnt → dom xs max idx).
Proof.
  intros Ha He Hidx Hmax Hcnt Hlt. unfold child_above.
  destruct (Z.leb_spec idx cnt) as [Hle|Hgt]; [|exists false; split; [done|lia]].
  destruct (at1_Some xs idx ltac:(lia)) as [x Ex]. destruct (at1_Some xs max Hmax) as [y Ey].
  pose proof (Forall_lookup_1 _ _ _ _ He Ex) as [Hx _]. pose proof (Forall_lookup_1 _ _ _ _ He Ey) as [Hy _].
  pose proof (Ha _ _ Ex) as Hhx. pose proof (Ha _ _ Ey) as Hhy.
  rewrite Z2Nat.id in Hhx, Hhy by lia.
  unfold do_compare. rewrite !u32_small by (unfold in_u32; nia).
  rewrite (bind_ok _ _ _ _ _ (compare_elems _ _ _ Hcmp _ _ _ _ _ Hhx Hhy Hx Hy)).
  eexists. split; [done|]. rewrite Z.gtb_ltb. destruct (Z.ltb_spec 0 (cmp x y)).
  - split; [done|]. intros a b Ea Eb. rewrite Ea in Ex. rewrite Eb in Ey. simplify_eq.
    by apply (cmp_total _ _ _ Hcmp).
  - intros _ a b Ea Eb. rewrite Ea in Ey. rewrite Eb in Ex. by simplify_eq.
Qed.

(** The element at [max] takes the place of the one at [i]. *)
Lemma heap_but_swap xs k i max cnt :
  1 <= k <= i → child max i → max <= cnt → cnt <= zlen xs →
  heap_but xs k i cnt → dom xs max i → (∀ c, child c i → c <= cnt → dom xs max c) →
  heap_but (exchange xs i max) k max cnt.
Proof.
  unfold heap_but, child. intros Hk Hmax Hcnt Hlen [H1 H2] Hi Hc.
  assert (∀ a, 1 <= a → at1 (exchange xs i max) a =
    if decide (a = i) then at1 xs max else if decide (a = max) then at1 xs i else at1 xs a) as Hat
    by (intros; apply at1_exchange; lia).
  split.
  - intros j c Hj Hne Hch Hcc x y. rewrite !Hat by lia.
    destruct (decide (j = i)) as [->|Hji].
    + rewrite (decide_False (P := c = i)) by lia. destruct (decide (c = max)); [by apply Hi|by apply Hc].
    + rewrite decide_False by done. destruct (decide (c = i)) as [->|Hci].
      * apply (H2 j max); [lia|done..].
      * rewrite decide_False by lia. by apply (H1 j c).
  - intros j c Hj Hch Hcc Hle x y. assert (j = i) as -> by lia.
    rewrite !Hat by lia. rewrite decide_True by done. rewrite !decide_False by lia.
    apply (H1 max c); lia || done.
Qed.
(** The first [cnt] elements are rearranged, the others stay. *)
Definition reorder (cnt : Z) (xs ys : list (list Z)) : Prop :=
  take (Z.to_nat cnt) ys ≡ₚ take (Z.to_nat cnt) xs ∧
  drop (Z.to_nat cnt) ys = drop (Z.to_nat cnt) xs.

Lemma reorder_trans cnt xs ys zs : reorder cnt xs ys → reorder cnt ys zs → reorder cnt xs zs.
Proof. intros [P1 D1] [P2 D2]. split; [by rewrite P2|by rewrite D2]. Qed.

Lemma reorder_perm cnt xs ys : reorder cnt xs ys → ys ≡ₚ xs.
Proof.
  intros [P D]. rewrite <- (take_drop (Z.to_nat cnt) ys), <- (take_drop (Z.to_nat cnt) xs).
  by rewrite P, D.
Qed.

Lemma reorder_length cnt xs ys : reorder cnt xs ys → length ys = length xs.
Proof. intros Hr. by rewrite (reorder_perm _ _ _ Hr). Qed.

Lemma reorder_zlen cnt xs ys : reorder cnt xs ys → zlen ys = zlen xs.
Proof. intros Hr. unfold zlen. by rewrite (reorder_length _ _ _ Hr). Qed.

Lemma exchange_reorder cnt xs i j :
  1 <= i <= cnt → 1 <= j <= cnt → cnt <= zlen xs → reorder cnt xs (exchange xs i j).
Proof.
  intros Hi Hj Hc. destruct (at1_Some xs i ltac:(lia)) as [x Ex].
  destruct (at1_Some xs j ltac:(lia)) as [y Ey]. unfold exchange. rewrite Ex, Ey.
  unfold at1 in *. split.
  - rewrite !take_insert_lt by lia. apply Permutation_insert_swap;
      by rewrite lookup_take_lt by lia.
  - by rewrite !drop_insert_lt by lia.
Qed.

Lemma heapify_ok n : ∀ m p xs k i cnt,
  arr size m p xs → elems size xs → zlen xs * size < 2 ^ 32 → zlen xs < 2 ^ 31 →
  1 <= k <= i → i <= cnt → cnt <= zlen xs → cnt - i < Z.of_nat n → heap_but xs k i cnt →
  ∃ m' xs', heapify size compare n p i cnt m = Ok (tt, m') ∧ arr size m' p xs' ∧
    elems size xs' ∧ heap xs' k cnt ∧ reorder cnt xs xs' ∧ frame p (zlen xs * size) m m'.
Proof.
  induction n as [|n IH]; intros m p xs k i cnt Ha He Hlt Hlt' Hk Hi Hcnt Hn Hb; [lia|].
  cbn [heapify]. rewrite !u32_small by (unfold in_u32; lia).
  destruct (child_above_ok m p xs (2 * i) i cnt) as (l & El & Hl); [done|done|lia..|].
  rewrite (bind_ok _ _ _ _ _ El). set (max1 := if l then 2 * i else i).
  assert (1 <= max1 <= zlen xs) as Hm1 by (unfold max1; destruct l; lia).
  destruct (child_above_ok m p xs (2 * i + 1) max1 cnt) as (r & Er & Hr); [done|done|lia..|].
  rewrite (bind_ok _ _ _ _ _ Er). set (max := if r then 2 * i + 1 else max1).
  assert (max <= cnt) as Hm2 by (unfold max, max1; destruct r, l; lia).
  assert (max = i ∨ child max i) as Hm3 by (unfold max, max1, child; destruct r, l; lia).
  assert (dom xs max max1) as Hd1 by (unfold max; destruct r; [apply Hr|apply dom_refl]).
  assert (dom xs max1 i) as Hd0 by (unfold max1; destruct l; [apply Hl|apply dom_refl]).
  assert (∀ c, child c i → c <= cnt → dom xs max c) as Hd.
  { intros c [->| ->] Hc.
    - apply (dom_trans xs max max1); [done|done|]. unfold max1.
      destruct l; [apply dom_refl|by apply Hl].
    - unfold max. destruct r; [apply dom_refl|by apply Hr]. }
  destruct (Z.eqb_spec max i) as [E|Hne].
  - exists m, xs. split; [done|]. split; [done|]. split; [done|].
    split; [|by split; [split|intros x _]].
    intros j c Hj Hc Hle. destruct (decide (j = i)) as [->|]; [rewrite <- E; by apply Hd|].
    by apply (proj1 Hb).
  - destruct Hm3 as [|Hch]; [done|]. assert (i < max) by (unfold child in Hch; lia).
    destruct (do_swap_ok size Hsize m p xs i max) as (m1 & Em1 & Ha1 & Hf1); [done|done|lia..|].
    rewrite (bind_ok _ _ _ _ _ Em1). pose proof (exchange_reorder cnt xs i max) as Hre.
    specialize (Hre ltac:(lia) ltac:(lia) Hcnt). pose proof (reorder_zlen _ _ _ Hre) as Hz.
    destruct (IH m1 p (exchange xs i max) k max cnt)
      as (m2 & xs2 & Em2 & Ha2 & He2 & Hh & Hre2 & Hf2);
      [done|by apply elems_exchange|lia..| |].
    + apply heap_but_swap; [done|done|done|done|done| |done]. by apply (dom_trans xs max max1).
    + exists m2, xs2. rewrite Hz in Hf2. split; [done|]. split; [done|]. split; [done|].
      split; [done|]. split; [by eapply reorder_trans|by eapply same_frame_trans].
Qed.

Lemma heap_root xs cnt : heap xs 1 cnt → cnt <= zlen xs → ∀ c, 1 <= c <= cnt → dom xs 1 c.
Proof.
  intros Hh Hl c. induction (Z.lt_wf 0 c) as [c _ IH]. intros Hc.
  destruct (decide (c = 1)) as [->|]; [apply dom_refl|].
  apply (dom_trans xs 1 (c / 2)); [dlia|apply IH; dlia|].
  apply Hh; [dlia| |lia]. unfold child. dlia.
Qed.

Lemma heap_but_start xs i cnt : 1 <= i → heap xs (i + 1) cnt → heap_but xs i i cnt.
Proof.
  intros Hi Hh. split; [intros j c Hj Hne; apply Hh; lia|].
  intros j c Hj Hch. unfold child in Hch. lia.
Qed.

Lemma build_heap_ok n : ∀ m p xs cnt,
  arr size m p xs → elems size xs → zlen xs * size < 2 ^ 32 → cnt = zlen xs → cnt < 2 ^ 31 →
  2 * Z.of_nat n <= cnt → heap xs (Z.of_nat n + 1) cnt →
  ∃ m' xs', build_heap size compare n p cnt m = Ok (tt, m') ∧ arr size m' p xs' ∧
    elems size xs' ∧ heap xs' 1 cnt ∧ reorder cnt xs xs' ∧ frame p (zlen xs * size) m m'.
Proof.
  induction n as [|n IH]; intros m p xs cnt Ha He Hlt Hcnt Hlt' Hn Hh.
  { exists m, xs. by split; [|split; [|split; [|split; [|split; [split|intros x _]]]]]. }
  cbn [build_heap]. set (i := Z.of_nat (S n)) in *.
  destruct (heapify_ok (Z.to_nat cnt + 1) m p xs i i cnt)
    as (m1 & xs1 & E1 & Ha1 & He1 & Hh1 & Hr1 & Hf1); [done|done|lia..| |].
  { apply heap_but_start; [lia|done]. }
  rewrite (bind_ok _ _ _ _ _ E1). pose proof (reorder_zlen _ _ _ Hr1) as Hz.
  destruct (IH m1 p xs1 cnt) as (m2 & xs2 & E2 & Ha2 & He2 & Hh2 & Hr2 & Hf2);
    [done|done|lia..| |].
  { by replace (Z.of_nat n + 1) with i by lia. }
  exists m2, xs2. rewrite Hz in Hf2. split; [done|]. split; [done|]. split; [done|]. split; [done|].
  split; [by eapply reorder_trans|by eapply same_frame_trans].
Qed.

Definition le_elem (x y : list Z) : Prop := cmp x y <= 0.

(** The last elements are in order and above the first [i], which are a heap. *)
Definition half_sorted (xs : list (list Z)) (i : Z) : Prop :=
  heap xs 1 i ∧ StronglySorted le_elem (drop (Z.to_nat i) xs) ∧
  ∀ x y, x ∈ take (Z.to_nat i) xs → y ∈ drop (Z.to_nat i) xs → le_elem x y.

(** Swapping the root with the last element of the heap. *)
Lemma half_sorted_swap xs i :
  2 <= i <= zlen xs → half_sorted xs i →
  heap_but (exchange xs 1 i) 1 1 (i - 1) ∧
  StronglySorted le_elem (drop (Z.to_nat (i - 1)) (exchange xs 1 i)) ∧
  ∀ x y, x ∈ take (Z.to_nat (i - 1)) (exchange xs 1 i) →
         y ∈ drop (Z.to_nat (i - 1)) (exchange xs 1 i) → le_elem x y.
Proof.
  intros Hi (Hh & Hs & Hb). set (ys := exchange xs 1 i).
  pose proof (exchange_reorder i xs 1 i ltac:(lia) ltac:(lia) ltac:(lia)) as Hr. fold ys in Hr.
  pose proof (reorder_zlen _ _ _ Hr) as Hz.
  assert (∀ a, 1 <= a → at1 ys a = if decide (a = 1) then at1 xs i
    else if decide (a = i) then at1 xs 1 else at1 xs a) as Hat by (intros; apply at1_exchange; lia).
  destruct (at1_Some xs 1 ltac:(lia)) as [r Er].
  assert (drop (Z.to_nat (i - 1)) ys = r :: drop (Z.to_nat i) ys) as Hd.
  { replace (Z.to_nat i) with (S (Z.to_nat (i - 1))) by lia. apply drop_S.
    change (at1 ys i = Some r). rewrite Hat, decide_False, decide_True by lia. done. }
  assert (∀ x, x ∈ take (Z.to_nat i) xs → le_elem x r) as Hroot.
  { intros x [c [Ec Hc]%lookup_take_Some]%list_elem_of_lookup_1.
    refine (heap_root xs i Hh ltac:(lia) (Z.of_nat c + 1) ltac:(lia) r x Er _).
    unfold at1. by replace (Z.to_nat (Z.of_nat c + 1 - 1)) with c by lia. }
  assert (∀ x, x ∈ take (Z.to_nat (i - 1)) ys → x ∈ take (Z.to_nat i) xs) as Hsub.
  { intros x Hx. rewrite <- (proj1 Hr). apply list_elem_of_lookup_1 in Hx as [c [Ec Hc]%lookup_take_Some].
    apply list_elem_of_lookup_2 with c. apply lookup_take_Some. split; [done|lia]. }
  rewrite Hd, (proj2 Hr). split; [|split].
  - split; [|unfold child; intros; lia]. unfold child. intros j c Hj Hne Hch Hc x y.
    rewrite !Hat by lia. rewrite !decide_False by lia. by apply Hh; [lia|unfold child; lia|lia].
  - constructor; [done|]. apply Forall_forall. intros y Hy.
    apply Hb; [|done]. apply list_elem_of_lookup_2 with 0%nat. apply lookup_take_Some. split; [done|lia].
  - intros x y Hx%Hsub [->|Hy]%elem_of_cons; [by apply Hroot|by apply Hb].
Qed.

Lemma sort_heap_ok n : ∀ m p xs,
  arr size m p xs → elems size xs → zlen xs * size < 2 ^ 32 → zlen xs < 2 ^ 31 →
  Z.of_nat n + 1 <= zlen xs → half_sorted xs (Z.of_nat n + 1) →
  ∃ m' xs', sort_heap size compare n p m = Ok (tt, m') ∧ arr size m' p xs' ∧
    elems size xs' ∧ half_sorted xs' 1 ∧ xs' ≡ₚ xs ∧ frame p (zlen xs * size) m m'.
Proof.
  induction n as [|n IH]; intros m p xs Ha He Hlt Hlt' Hn Hs.
  { exists m, xs. by split; [|split; [|split; [|split; [|split; [|intros x _]]]]]. }
  cbn [sort_heap]. set (i := Z.of_nat (S n) + 1) in *.
  destruct (do_swap_ok size Hsize m p xs 1 i) as (m1 & E1 & Ha1 & Hf1); [done|done|lia..|].
  rewrite (bind_ok _ _ _ _ _ E1).
  destruct (half_sorted_swap xs i ltac:(lia) Hs) as (Hb & Hso & Hab).
  pose proof (exchange_reorder (zlen xs) xs 1 i ltac:(lia) ltac:(lia) ltac:(lia)) as Hr.
  pose proof (reorder_zlen _ _ _ Hr) as Hz. set (ys := exchange xs 1 i) in *.
  destruct (heapify_ok (Z.to_nat i) m1 p ys 1 1 (i - 1))
    as (m2 & xs2 & E2 & Ha2 & He2 & Hh2 & Hr2 & Hf2);
    [done|by apply elems_exchange|lia..|done|].
  rewrite (bind_ok _ _ _ _ _ E2). pose proof (reorder_zlen _ _ _ Hr2) as Hz2.
  destruct (IH m2 p xs2) as (m3 & xs3 & E3 & Ha3 & He3 & Hs3 & Hp3 & Hf3); [done|done|lia..| |].
  { replace (Z.of_nat n + 1) with (i - 1) by lia. split; [done|]. destruct Hr2 as [Hp ->].
    split; [done|]. intros x y Hx Hy. apply Hab; [by rewrite <- Hp|done]. }
  exists m3, xs3. rewrite Hz2, Hz in Hf3. rewrite Hz in Hf2.
  split; [done|]. split; [done|]. split; [done|]. split; [done|]. split.
  - rewrite Hp3, (reorder_perm _ _ _ Hr2). by eapply reorder_perm.
  - by eapply same_frame_trans; [|eapply same_frame_trans].
Qed.

Lemma half_sorted_sorted xs : half_sorted xs 1 → StronglySorted le_elem xs.
Proof.
  intros (_ & Hs & Hb). destruct xs as [|x xs]; [constructor|].
  constructor; [exact Hs|]. apply Forall_forall. intros y Hy. apply Hb; [|exact Hy].
  apply list_elem_of_here.
Qed.

Lemma sort_ok m p xs :
  arr size m p xs → elems size xs → 0 < p → zlen xs * size < 2 ^ 32 → zlen xs < 2 ^ 31 →
  ∃ m' xs', sort size compare p (zlen xs) m = Ok (tt, m') ∧ arr size m' p xs' ∧ xs' ≡ₚ xs ∧
    StronglySorted le_elem xs' ∧ frame p (zlen xs * size) m m'.
Proof.
  intros Ha He Hp Hlt Hlt'. pose proof (zlen_nonneg xs). unfold sort.
  rewrite bind_assert by (rewrite (proj2 (Z.eqb_neq p 0)) by lia; done).
  rewrite bind_assert by (apply Z.gtb_lt; lia).
  destruct (build_heap_ok (Z.to_nat (zlen xs / 2)) m p xs (zlen xs))
    as (m1 & xs1 & E1 & Ha1 & He1 & Hh1 & Hr1 & Hf1); [done|done|lia|done|lia|dlia| |].
  { intros j c Hj Hch. unfold child in Hch. dlia. }
  rewrite (bind_ok _ _ _ _ _ E1). pose proof (reorder_zlen _ _ _ Hr1) as Hz.
  pose proof (reorder_perm _ _ _ Hr1) as Hp1.
  destruct (decide (xs1 = [])) as [->|Hne].
  { apply Permutation_nil in Hp1 as ->. exists m1, []. by split; [|split; [|split; [|split; [constructor|]]]]. }
  assert (1 <= zlen xs) as Hpos by (rewrite <- Hz; destruct xs1; [done|rewrite zlen_cons; pose proof (zlen_nonneg xs1); lia]).
  destruct (sort_heap_ok (Z.to_nat (zlen xs - 1)) m1 p xs1)
    as (m2 & xs2 & E2 & Ha2 & He2 & Hs2 & Hp2 & Hf2); [done|done|lia..| |].
  { rewrite Z2Nat.id by lia. replace (zlen xs - 1 + 1) with (zlen xs) by lia. split; [done|].
    rewrite (drop_ge xs1) by (unfold zlen in *; lia). split; [constructor|]. intros x y _ []%not_elem_of_nil. }
  exists m2, xs2. rewrite Hz in Hf2. split; [done|]. split; [done|]. split; [by rewrite Hp2|].
  split; [by apply half_sorted_sorted|by eapply same_frame_trans].
Qed.

End heap.

(** ** Binary search *)

Section search.
Context (size : Z) (compare : Z → Z → M mem Z) (kc : list Z → Z).
Context (m : mem) (p key : Z) (xs : list (list Z)).
Context (Hsize : 0 < size) (Ha : arr size m p xs) (He : elems size xs).
(** How the key compares with each element. *)
Context (Hkc : ∀ q x, holds m q x → zlen x = size → compare key q m = Ok (kc x, m)).
(** The array is in order: elements above the key come after elements that
    are not. *)
Context (Hord : ∀ (i j : nat) x y, (i < j)%nat → xs !! i = Some x → xs !! j = Some y →
  (kc x < 0 → kc y < 0) ∧ (0 < kc y → 0 < kc x)).

Definition found (r : Z) : Prop :=
  (∃ (i : nat) x, xs !! i = Some x ∧ kc x = 0 ∧ r = p + Z.of_nat i * size) ∨
  (r = 0 ∧ ∀ x, x ∈ xs → kc x ≠ 0).

Lemma search_loop_ok n : ∀ (lo hi : nat),
  (lo <= hi <= length xs)%nat → (hi - lo < n)%nat →
  (∀ (i : nat) x, (i < lo)%nat → xs !! i = Some x → 0 < kc x) →
  (∀ (i : nat) x, (hi <= i)%nat → xs !! i = Some x → kc x < 0) →
  ∃ r, search_loop size compare n key (p + Z.of_nat lo * size) (p + Z.of_nat hi * size) m = Ok (r, m)
       ∧ found r.
Proof.
  induction n as [|n IH]; intros lo hi Hlo Hn Hbelow Habove; [lia|]. cbn [search_loop].
  destruct (Z.ltb_spec (p + Z.of_nat lo * size) (p + Z.of_nat hi * size)) as [Hlt|Hge].
  2: { exists 0. split; [done|]. right. split; [done|]. intros x [i Hi]%list_elem_of_lookup_1 H0.
       destruct (decide (i < lo)%nat); [specialize (Hbelow i x ltac:(lia) Hi); lia|].
       specialize (Habove i x ltac:(nia) Hi). lia. }
  replace (p + Z.of_nat hi * size - (p + Z.of_nat lo * size))
    with ((Z.of_nat hi - Z.of_nat lo) * size) by lia. rewrite Z.div_mul by lia.
  set (mid := (lo + (hi - lo) / 2)%nat).
  assert (lo <= mid < hi)%nat as Hmid.
  { unfold mid. pose proof (Nat.div_lt (hi - lo) 2). nia. }
  replace (p + Z.of_nat lo * size + (Z.of_nat hi - Z.of_nat lo) / 2 * size)
    with (p + Z.of_nat mid * size).
  2: { unfold mid. rewrite Nat2Z.inj_add, Nat2Z.inj_div, Nat2Z.inj_sub by lia. simpl Z.of_nat at 3. lia. }
  destruct (lookup_lt_is_Some_2 xs mid ltac:(lia)) as [x Hx].
  rewrite (bind_ok _ _ _ _ _ (Hkc _ _ (Ha _ _ Hx) (proj1 (Forall_lookup_1 _ _ _ _ He Hx)))).
  destruct (Z.ltb_spec (kc x) 0); [|rewrite Z.gtb_ltb; destruct (Z.ltb_spec 0 (kc x))].
  - apply IH; [lia|lia|done|]. intros i y Hi Hy. destruct (decide (i = mid)) as [->|]; [congruence|].
    by apply (Hord mid i x y); [lia|..].
  - replace (p + Z.of_nat mid * size + size) with (p + Z.of_nat (S mid) * size) by lia.
    apply IH; [lia|lia| |done]. intros i y Hi Hy. destruct (decide (i = mid)) as [->|]; [congruence|].
    by apply (Hord i mid y x); [lia|..].
  - eexists. split; [done|]. left. exists mid, x. split; [done|]. split; [lia|done].
Qed.

Lemma binary_search_ok : zlen xs * size < 2 ^ 32 →
  wp (binary_search size compare key p (zlen xs)) (λ r m', m' = m ∧ found r) m.
Proof.
  intros Hlt. unfold binary_search. pose proof (zlen_nonneg xs).
  rewrite u32_small by (unfold in_u32; nia).
  destruct (search_loop_ok (Z.to_nat (zlen xs) + 1) 0 (length xs)) as (r & Er & Hr);
    [lia|unfold zlen; lia|lia| |].
  { intros i x Hi Hx%lookup_lt_Some. lia. }
  apply wp_ok with r m; [|done]. rewrite <- Er.
  rewrite Z.mul_0_l, Z.add_0_r, (Z.mul_comm size). done.
Qed.
End search.

(** ** Parsing *)

Definition digits_val (ds : list Z) : Z := fold_left (λ v d, v * 10 + (d - 48)) ds 0.

Lemma s32_add_mul a b c : s32 (s32 a * b - c) = s32 (a * b - c).
Proof.
  unfold s32. f_equal. 
  replace ((a + 2147483648) mod 4294967296) with (a + 2147483648 - 4294967296 * ((a + 2147483648) / 4294967296))
    by (rewrite Z.mod_eq by lia; lia).
  replace ((a + 2147483648 - 4294967296 * ((a + 2147483648) / 4294967296) - 2147483648) * b - c + 2147483648)
    with (a * b - c + 2147483648 + (- ((a + 2147483648) / 4294967296) * b) * 4294967296) by lia.
  apply Z.mod_add. lia.
Qed.

Lemma skip_space_ok n m p ws s : cstring m p (ws ++ s) → Forall (λ c, isspace c = true) ws →
  match s with [] => True | c :: _ => isspace c = false end → (length ws < n)%nat →
  skip_space n p m = Ok (p + zlen ws, m).
Proof.
  revert n p. induction ws as [|c ws IH]; intros [|n] p Hs Hw Hc Hn; simpl in Hn; try lia; cbn [skip_space].
  - rewrite Z.add_0_r. destruct s as [|c s].
    + by rewrite (rd_ok _ _ 0) by (by apply cstring_nil).
    + destruct (cstring_cons _ _ _ _ Hs) as (Hc0 & _). rewrite (rd_ok _ _ _ _ Hc0). by rewrite Hc.
  - apply Forall_cons in Hw as [Hw1 Hw]. destruct (cstring_cons _ _ _ _ Hs) as (Hc0 & _ & _ & Hs').
    rewrite (rd_ok _ _ _ _ Hc0), Hw1. rewrite IH by (done || lia). rewrite zlen_cons. do 2 f_equal. lia.
Qed.

Lemma parse_digits_ok n m p ds s v : cstring m p (ds ++ s) → Forall (λ c, isdigit c = true) ds →
  match s with [] => True | c :: _ => isdigit c = false end → (length ds < n)%nat →
  parse_digits n p (s32 v) m = Ok (s32 (fold_left (λ v d, v * 10 - (d - 48)) ds v), m).
Proof.
  revert n p v. induction ds as [|c ds IH]; intros [|n] p v Hs Hw Hc Hn; simpl in Hn; try lia; cbn [parse_digits].
  - destruct s as [|c s].
    + by rewrite (rd_ok _ _ 0) by (by apply cstring_nil).
    + destruct (cstring_cons _ _ _ _ Hs) as (Hc0 & _). rewrite (rd_ok _ _ _ _ Hc0). by rewrite Hc.
  - apply Forall_cons in Hw as [Hw1 Hw]. destruct (cstring_cons _ _ _ _ Hs) as (Hc0 & _ & _ & Hs').
    rewrite (rd_ok _ _ _ _ Hc0), Hw1. rewrite s32_add_mul. by rewrite IH by (done || lia).
Qed.

Lemma digits_neg ds : fold_left (λ v d, v * 10 - (d - 48)) ds 0 = - digits_val ds.
Proof.
  unfold digits_val. change 0 with (- 0) at 1. generalize 0.
  induction ds as [|d ds IH]; intros v; [done|]. cbn [fold_left]. rewrite <- IH. f_equal. lia.
Qed.

Lemma cstring_app m p l s : cstring m p (l ++ s) → cstring m (p + zlen l) s.
Proof.
  revert p. induction l as [|c l IH]; intros p Hs.
  - by rewrite Z.add_0_r.
  - destruct (cstring_cons _ _ _ _ Hs) as (_ & _ & _ & Hs'). rewrite zlen_cons, Z.add_assoc. by apply IH.
Qed.

(** A sign character, if any. *)
Definition sign_chars (sg : list Z) : Prop := sg = [] ∨ sg = [43] ∨ sg = [45].

Lemma parse_sign_ok m p sg d s : cstring m p (sg ++ d :: s) → sign_chars sg → isdigit d = true →
  parse_sign p m = Ok ((bool_decide (sg = [45]), p + zlen sg), m).
Proof.
  unfold isdigit, parse_sign. intros Hs [->|[-> | ->]] Hd; simpl app in Hs;
    destruct (cstring_cons _ _ _ _ Hs) as (Hc & _); rewrite !(rd_ok _ _ _ _ Hc); [|done|].
  - bool_hyps. rewrite !(proj2 (Z.eqb_neq _ _)) by lia.
    rewrite (rd_ok _ _ _ _ Hc), (proj2 (Z.eqb_neq _ _)) by lia. by rewrite Z.add_0_r.
  - simpl. by rewrite (rd_ok _ _ _ _ Hc).
Qed.

Lemma s32_opp a : s32 (- s32 (- a)) = s32 a.
Proof. unfold s32. dlia. Qed.

Lemma digit_not_space d : isdigit d = true → isspace d = false.
Proof. unfold isdigit, isspace. intros. bool_hyps. rewrite !(proj2 (Z.eqb_neq _ _)) by lia. done. Qed.

Lemma atoi_ok m p ws sg d ds rest :
  cstring m p (ws ++ sg ++ (d :: ds) ++ rest) → Forall (λ c, isspace c = true) ws → sign_chars sg →
  Forall (λ c, isdigit c = true) (d :: ds) →
  match rest with [] => True | c :: _ => isdigit c = false end →
  atoi p m = Ok (s32 (if decide (sg = [45]) then - digits_val (d :: ds) else digits_val (d :: ds)), m).
Proof.
  intros Hs Hws Hsg Hds Hrest. pose proof (Forall_inv Hds) as Hd. cbv beta in Hd.
  pose proof (cstring_size _ _ _ Hs) as Hn1. pose proof (cstring_app _ _ _ _ Hs) as Hs2.
  pose proof (cstring_app _ _ _ _ Hs2) as Hs3. pose proof (cstring_size _ _ _ Hs3) as Hn3.
  rewrite !length_app in Hn1, Hn3. unfold atoi.
  rewrite bind_assert by (destruct Hs as [Hp _]; rewrite (proj2 (Z.eqb_neq p 0)) by lia; done).
  rewrite scanning_bind. rewrite (bind_ok _ _ m (p + zlen ws) m).
  2: { apply skip_space_ok with (sg ++ (d :: ds) ++ rest); [done|done| |lia].
       destruct Hsg as [->|[-> | ->]]; [|done|done]. by apply digit_not_space. }
  rewrite (bind_ok _ _ _ _ _ (parse_sign_ok _ _ sg d (ds ++ rest) Hs2 Hsg Hd)). cbv beta iota.
  rewrite scanning_bind.
  rewrite (bind_ok _ _ _ _ _ (parse_digits_ok (S (size m)) _ _ (d :: ds) rest 0 Hs3 Hds Hrest ltac:(simpl in *; lia))).
  rewrite digits_neg. unfold ret.
  case_decide as Hsg2; [by rewrite bool_decide_true|]. by rewrite bool_decide_false, s32_opp.
Qed.

(** ** The theorems *)

(** C20. qsort() terminates on every array whose elements the comparison
    orders totally, with a sorted permutation of the elements, and writes
    nothing outside the array. *)
Theorem qsort_sorts size compare cmp m p xs :
  0 < size → comparison size compare cmp → arr size m p xs → elems size xs → 0 < p →
  zlen xs * size < 2 ^ 32 → zlen xs < 2 ^ 31 →
  wp (qsort p (zlen xs) size compare)
     (λ _ m', ∃ ys, arr size m' p ys ∧ ys ≡ₚ xs ∧ StronglySorted (λ x y, cmp x y <= 0) ys ∧
                    frame p (zlen xs * size) m m') m.
Proof.
  intros Hsize Hcmp Ha He Hp Hlt Hlt'.
  destruct (sort_ok size compare cmp Hsize Hcmp m p xs Ha He Hp Hlt Hlt')
    as (m' & ys & E & Hr). apply wp_ok with tt m'; [exact E|]. by exists ys.
Qed.

(** bsearch() on an array in order terminates, changes nothing, and
    returns the address of an element equal to the key, or a null pointer
    when there is none. *)
Theorem bsearch_finds size compare kc m p key xs :
  0 < size → arr size m p xs → elems size xs → zlen xs * size < 2 ^ 32 →
  (∀ q x, holds m q x → zlen x = size → compare key q m = Ok (kc x, m)) →
  (∀ (i j : nat) x y, (i < j)%nat → xs !! i = Some x → xs !! j = Some y →
     (kc x < 0 → kc y < 0) ∧ (0 < kc y → 0 < kc x)) →
  wp (bsearch key p (zlen xs) size compare)
     (λ r m', m' = m ∧
        ((∃ (i : nat) x, xs !! i = Some x ∧ kc x = 0 ∧ r = p + Z.of_nat i * size) ∨
         (r = 0 ∧ ∀ x, x ∈ xs → kc x ≠ 0))) m.
Proof.
  intros Hsize Ha He Hlt Hkc Hord.
  exact (binary_search_ok size compare kc m p key xs Hsize Ha He Hkc Hord Hlt).
Qed.

(** atoi() skips white space and a sign and returns the value of the
    digits up to the first other character, wrapped to 32 bits. *)
Theorem atoi_value m p ws sg d ds rest :
  cstring m p (ws ++ sg ++ (d :: ds) ++ rest) → Forall (λ c, isspace c = true) ws → sign_chars sg →
  Forall (λ c, isdigit c = true) (d :: ds) →
  match rest with [] => True | c :: _ => isdigit c = false end →
  wp (atoi p) (λ v m', m' = m ∧
     v = s32 (if decide (sg = [45]) then - digits_val (d :: ds) else digits_val (d :: ds))) m.
Proof.
  intros Hs Hw Hsg Hds Hr. eapply wp_ok; [by apply (atoi_ok m p ws sg d ds rest)|done].
Qed.

(** ** Examples *)

(** Comparison of 2-byte elements by their first byte. *)
Definition compare_first (a b : Z) : M mem Z :=
  let* x := rd a in let* y := rd b in ret (x - y).

Definition first_cmp (a b : list Z) : Z := hd 0 a - hd 0 b.

Lemma compare_first_ok : comparison 2 compare_first first_cmp.
Proof.
  split; [|unfold first_cmp; lia..]. intros m p q [|x a] [|y b] Ha Hb La Lb; try (unfold zlen in *; simpl in *; lia).
  apply holds_cons in Ha as [Hx _]. apply holds_cons in Hb as [Hy _].
  unfold compare_first. by rewrite (rd_ok _ _ _ _ Hx), (rd_ok _ _ _ _ Hy).
Qed.

Definition demo_elems : list (list Z) := [[7; 1]; [3; 2]; [9; 3]; [3; 4]; [1; 5]].
Definition demo_array : mem := store ∅ 1000 (concat demo_elems).

Lemma demo_arr : arr 2 demo_array 1000 demo_elems.
Proof.
  assert (∀ i : nat, (i < 5)%nat → ∀ x, demo_elems !! i = Some x →
    (demo_array !! (1000 + Z.of_nat i * 2), demo_array !! (1000 + Z.of_nat i * 2 + 1)) =
    (x !! 0%nat, x !! 1%nat) ∧ length x = 2%nat) as Hall.
  { intros i Hi x Hx. do 5 (destruct i as [|i]; [injection Hx as <-; split; [vm_compute|]; reflexivity|]). lia. }
  intros i x Hx. destruct (Hall i (lookup_lt_Some _ _ _ Hx) x Hx) as [[= E1 E2] Hl].
  intros [|[|j]] b Hb; [by rewrite Z.add_0_r, E1|change (Z.of_nat 1) with 1; by rewrite E2|]. apply lookup_lt_Some in Hb. lia.
Qed.

Lemma demo_elems_ok : elems 2 demo_elems.
Proof. unfold elems, in_u8. repeat constructor; simpl; lia. Qed.

Lemma qsort_sorts_witness :
  wp (qsort 1000 (zlen demo_elems) 2 compare_first)
     (λ _ m', ∃ ys, arr 2 m' 1000 ys ∧ ys ≡ₚ demo_elems ∧
        StronglySorted (λ x y, first_cmp x y <= 0) ys ∧ frame 1000 (zlen demo_elems * 2) demo_array m')
     demo_array.
Proof.
  apply qsort_sorts; [lia|exact compare_first_ok|exact demo_arr|exact demo_elems_ok|lia|reflexivity|reflexivity].
Defined.

Definition demo_sorted : list (list Z) := [[1]; [3]; [4]; [9]].
Definition demo_search : mem := store (store ∅ 1000 (concat demo_sorted)) 500 [4].

Lemma bsearch_finds_witness :
  wp (bsearch 500 1000 4 1 compare_first)
     (λ r m', m' = demo_search ∧
        ((∃ (i : nat) x, demo_sorted !! i = Some x ∧ 4 - hd 0 x = 0 ∧ r = 1000 + Z.of_nat i * 1) ∨
         (r = 0 ∧ ∀ x, x ∈ demo_sorted → 4 - hd 0 x ≠ 0))) demo_search.
Proof.
  apply (bsearch_finds 1 compare_first (λ x, 4 - hd 0 x) demo_search 1000 500 demo_sorted);
    [lia| |unfold elems, in_u8; repeat constructor; simpl; lia|reflexivity| |].
  - intros i x Hx. do 4 (destruct i as [|i];
      [injection Hx as <-; intros [|j] b Hb; [injection Hb as <-; vm_compute; reflexivity|done]|]). done.
  - intros q [|x l] Hq Hl; [done|]. apply holds_cons in Hq as [Hx _].
    unfold compare_first. rewrite (rd_ok _ _ 4) by (vm_compute; reflexivity).
    by rewrite (rd_ok _ _ _ _ Hx).
  - intros i j x y Hij Hx Hy.
    do 4 (destruct i as [|i]; [injection Hx as <-; do 4 (destruct j as [|j];
      [first [lia | injection Hy as <-; simpl; lia]|]); done|]). done.
Defined.

(** White space, a sign, the digits of the smallest integer, more text. *)
Lemma atoi_value_witness :
  wp (atoi 100) (λ v m', m' = store ∅ 100 [32; 45; 50; 49; 52; 55; 52; 56; 51; 54; 52; 56; 32; 49; 0]
        ∧ v = -2147483648)
     (store ∅ 100 [32; 45; 50; 49; 52; 55; 52; 56; 51; 54; 52; 56; 32; 49; 0]).
Proof.
  apply (atoi_value _ 100 [32] [45] 50 [49; 52; 55; 52; 56; 51; 54; 52; 56] [32; 49]).
  - split; [lia|]. split; [apply holds_store|]. unfold in_u8. split; repeat constructor; lia.
  - repeat constructor.
  - right. right. reflexivity.
  - repeat constructor.
  - reflexivity.
Defined.

End CStdlib.
