(* ===== verification/Lists.v ===== *)
(** * Lists: doubly linked lists (lib/kernel/list.c)

    A heap of list elements, each with the addresses of its neighbours; the
    null pointer is address 0 and is never in the heap.  A [struct list] at
    address [l] is a head element at [l] and a tail element at [l + 8].  The
    comparison functions the code receives are pure functions of two element
    addresses.  Loops are bounded by the size of the heap: a loop over a list
    visits each element once. *)

From Stdlib Require Import ZArith Lia.
From stdpp Require Import base tactics option list numbers gmap.
From S2P Require Import Prelude.

Module Lists.

Record list_elem := mk_elem {
  prev : Z;
  next : Z
}.

Abbreviation heap := (gmap Z list_elem) (only parsing).

Definition NULL : Z := 0.

Definition elem_at (p : Z) : M heap list_elem := let* h := get in deref (h !! p).
Definition set_prev (p v : Z) : M heap unit :=
  let* e := elem_at p in modify <[p := mk_elem v (next e)]>.
Definition set_next (p v : Z) : M heap unit :=
  let* e := elem_at p in modify <[p := mk_elem (prev e) v]>.
Definition prev_of (p : Z) : M heap Z := let* e := elem_at p in ret (prev e).
Definition next_of (p : Z) : M heap Z := let* e := elem_at p in ret (next e).

(** [&list->head] and [&list->tail]. *)
Definition head_of (l : Z) : Z := l.
Definition tail_of (l : Z) : Z := l + 8.

Definition is_head (p : Z) : M heap bool :=
  if p =? NULL then ret false
  else let* e := elem_at p in ret ((prev e =? NULL) && negb (next e =? NULL)).
Definition is_interior (p : Z) : M heap bool :=
  if p =? NULL then ret false
  else let* e := elem_at p in ret (negb (prev e =? NULL) && negb (next e =? NULL)).
Definition is_tail (p : Z) : M heap bool :=
  if p =? NULL then ret false
  else let* e := elem_at p in ret (negb (prev e =? NULL) && (next e =? NULL)).

(** [a || b] with the evaluation order of C. *)
Definition or_else (a b : M heap bool) : M heap bool :=
  let* x := a in if x : bool then ret true else b.

Definition list_init (l : Z) : M heap unit :=
  assert (negb (l =? NULL));;;
  set_prev (head_of l) NULL;;;
  set_next (head_of l) (tail_of l);;;
  set_prev (tail_of l) (head_of l);;;
  set_next (tail_of l) NULL.

Definition list_begin (l : Z) : M heap Z := assert (negb (l =? NULL));;; next_of (head_of l).
Definition list_next (p : Z) : M heap Z :=
  let* ok := or_else (is_head p) (is_interior p) in
  assert ok;;;
  next_of p.
Definition list_end (l : Z) : M heap Z := assert (negb (l =? NULL));;; ret (tail_of l).
Definition list_rbegin (l : Z) : M heap Z := assert (negb (l =? NULL));;; prev_of (tail_of l).
Definition list_prev (p : Z) : M heap Z :=
  let* ok := or_else (is_interior p) (is_tail p) in
  assert ok;;;
  prev_of p.
Definition list_rend (l : Z) : M heap Z := assert (negb (l =? NULL));;; ret (head_of l).
Definition list_head (l : Z) : M heap Z := assert (negb (l =? NULL));;; ret (head_of l).
Definition list_tail (l : Z) : M heap Z := assert (negb (l =? NULL));;; ret (tail_of l).

Definition list_insert (before elem : Z) : M heap unit :=
  let* ok := or_else (is_interior before) (is_tail before) in
  assert ok;;;
  assert (negb (elem =? NULL));;;
  let* p := prev_of before in
  set_prev elem p;;;
  set_next elem before;;;
  let* p := prev_of before in
  set_next p elem;;;
  set_prev before elem.

Definition list_splice (before first last : Z) : M heap unit :=
  let* ok := or_else (is_interior before) (is_tail before) in
  assert ok;;;
  if first =? last then ret tt
  else
    let* last := list_prev last in
    let* ok := is_interior first in
    assert ok;;;
    let* ok := is_interior last in
    assert ok;;;
    let* fp := prev_of first in
    let* ln := next_of last in
    set_next fp ln;;;
    let* ln := next_of last in
    let* fp := prev_of first in
    set_prev ln fp;;;
    let* bp := prev_of before in
    set_prev first bp;;;
    set_next last before;;;
    let* bp := prev_of before in
    set_next bp first;;;
    set_prev before last.

Definition list_push_front (l elem : Z) : M heap unit :=
  let* b := list_begin l in list_insert b elem.
Definition list_push_back (l elem : Z) : M heap unit :=
  let* e := list_end l in list_insert e elem.

Definition list_remove (elem : Z) : M heap Z :=
  let* ok := is_interior elem in
  assert ok;;;
  let* p := prev_of elem in
  let* n := next_of elem in
  set_next p n;;;
  let* n := next_of elem in
  let* p := prev_of elem in
  set_prev n p;;;
  next_of elem.

Definition list_empty (l : Z) : M heap bool :=
  let* b := list_begin l in
  let* e := list_end l in
  ret (b =? e).

Definition list_front (l : Z) : M heap Z :=
  let* e := list_empty l in
  assert (negb e);;;
  next_of (head_of l).
Definition list_back (l : Z) : M heap Z :=
  let* e := list_empty l in
  assert (negb e);;;
  prev_of (tail_of l).

Definition list_pop_front (l : Z) : M heap Z :=
  let* front := list_front l in
  let* _ := list_remove front in
  ret front.
Definition list_pop_back (l : Z) : M heap Z :=
  let* back := list_back l in
  let* _ := list_remove back in
  ret back.

(** A loop with one unit of fuel per element of the heap. *)
Definition bounded {A} (f : nat → M heap A) : M heap A :=
  let* h := get in f (S (size h)).

Fixpoint size_loop (n : nat) (e end_ cnt : Z) : M heap Z :=
  if e =? end_ then ret cnt
  else
    match n with
    | O => no_fuel
    | S n => let* e := list_next e in size_loop n e end_ (cnt + 1)
    end.

Definition list_size (l : Z) : M heap Z :=
  let* b := list_begin l in
  let* e := list_end l in
  bounded (λ n, size_loop n b e 0).

(** [swap (&p->prev, &p->next)]. *)
Definition swap_links (p : Z) : M heap unit :=
  let* e := elem_at p in modify <[p := mk_elem (next e) (prev e)]>.

Fixpoint reverse_loop (n : nat) (e end_ : Z) : M heap unit :=
  if e =? end_ then ret tt
  else
    match n with
    | O => no_fuel
    | S n =>
        swap_links e;;;
        let* e := prev_of e in
        reverse_loop n e end_
    end.

Definition list_reverse (l : Z) : M heap unit :=
  let* e := list_empty l in
  if e : bool then ret tt
  else
    let* b := list_begin l in
    let* en := list_end l in
    bounded (λ n, reverse_loop n b en);;;
    let* hn := next_of (head_of l) in
    let* tp := prev_of (tail_of l) in
    set_next (head_of l) tp;;;
    set_prev (tail_of l) hn;;;
    let* a := next_of (head_of l) in
    let* b := prev_of (tail_of l) in
    let* ap := prev_of a in
    let* bn := next_of b in
    set_prev a bn;;;
    set_next b ap.

(** ** Ordered lists *)

Section ordered.
Variable less : Z → Z → bool.

Fixpoint sorted_loop (n : nat) (a b : Z) : M heap bool :=
  let* a := list_next a in
  if a =? b then ret true
  else
    let* p := list_prev a in
    if less a p then ret false
    else match n with O => no_fuel | S n => sorted_loop n a b end.

Definition is_sorted (a b : Z) : M heap bool :=
  if negb (a =? b) then bounded (λ n, sorted_loop n a b) else ret true.

Fixpoint run_loop (n : nat) (a b : Z) : M heap Z :=
  let* a := list_next a in
  if a =? b then ret a
  else
    let* p := list_prev a in
    if less a p then ret a
    else match n with O => no_fuel | S n => run_loop n a b end.

Definition find_end_of_run (a b : Z) : M heap Z :=
  assert (negb (a =? NULL));;;
  assert (negb (b =? NULL));;;
  assert (negb (a =? b));;;
  bounded (λ n, run_loop n a b).

Fixpoint merge_loop (n : nat) (a0 a1b0 b1 : Z) : M heap unit :=
  if (a0 =? a1b0) || (a1b0 =? b1) then ret tt
  else
    match n with
    | O => no_fuel
    | S n =>
        if negb (less a1b0 a0) then
          let* a0 := list_next a0 in
          merge_loop n a0 a1b0 b1
        else
          let* a1b0 := list_next a1b0 in
          let* p := list_prev a1b0 in
          list_splice a0 p a1b0;;;
          merge_loop n a0 a1b0 b1
    end.

Definition inplace_merge (a0 a1b0 b1 : Z) : M heap unit :=
  assert (negb (a0 =? NULL));;;
  assert (negb (a1b0 =? NULL));;;
  assert (negb (b1 =? NULL));;;
  let* ok := is_sorted a0 a1b0 in
  assert ok;;;
  let* ok := is_sorted a1b0 b1 in
  assert ok;;;
  bounded (λ n, merge_loop (2 * n) a0 a1b0 b1).

(** One pass over the list: the number of runs it leaves. *)
Fixpoint pass_loop (n : nat) (l a0 cnt : Z) : M heap Z :=
  let* e := list_end l in
  if a0 =? e then ret cnt
  else
    match n with
    | O => no_fuel
    | S n =>
        let cnt := cnt + 1 in
        let* e := list_end l in
        let* a1b0 := find_end_of_run a0 e in
        let* e := list_end l in
        if a1b0 =? e then ret cnt
        else
          let* e := list_end l in
          let* b1 := find_end_of_run a1b0 e in
          inplace_merge a0 a1b0 b1;;;
          pass_loop n l b1 cnt
    end.

Fixpoint sort_loop (n : nat) (l : Z) : M heap unit :=
  match n with
  | O => no_fuel
  | S n =>
      let* a0 := list_begin l in
      let* cnt := bounded (λ m, pass_loop m l a0 0) in
      if cnt >? 1 then sort_loop n l else ret tt
  end.

Definition list_sort (l : Z) : M heap unit :=
  assert (negb (l =? NULL));;;
  bounded (λ n, sort_loop n l);;;
  let* b := list_begin l in
  let* e := list_end l in
  let* ok := is_sorted b e in
  assert ok.

Fixpoint position_loop (n : nat) (elem e end_ : Z) : M heap Z :=
  if e =? end_ then ret e
  else if less elem e then ret e
  else
    match n with
    | O => no_fuel
    | S n => let* e := list_next e in position_loop n elem e end_
    end.

Definition list_insert_ordered (l elem : Z) : M heap unit :=
  assert (negb (l =? NULL));;;
  assert (negb (elem =? NULL));;;
  let* b := list_begin l in
  let* en := list_end l in
  let* e := bounded (λ n, position_loop n elem b en) in
  list_insert e elem.

Fixpoint unique_loop (n : nat) (l : Z) (duplicates : option Z) (elem : Z) : M heap unit :=
  let* nx := list_next elem in
  let* e := list_end l in
  if nx =? e then ret tt
  else
    match n with
    | O => no_fuel
    | S n =>
        if negb (less elem nx) && negb (less nx elem) then
          let* _ := list_remove nx in
          (match duplicates with Some d => list_push_back d nx | None => ret tt end);;;
          unique_loop n l duplicates elem
        else unique_loop n l duplicates nx
    end.

Definition list_unique (l : Z) (duplicates : option Z) : M heap unit :=
  assert (negb (l =? NULL));;;
  let* e := list_empty l in
  if e : bool then ret tt
  else
    let* b := list_begin l in
    bounded (λ n, unique_loop n l duplicates b).

(** The loop of list_max() ([better max e]) and of list_min(). *)
Fixpoint best_loop (n : nat) (better : Z → Z → bool) (best e end_ : Z) : M heap Z :=
  if e =? end_ then ret best
  else
    match n with
    | O => no_fuel
    | S n =>
        let best := if better best e then e else best in
        let* e := list_next e in
        best_loop n better best e end_
    end.

Definition list_best (better : Z → Z → bool) (l : Z) : M heap Z :=
  let* b := list_begin l in
  let* en := list_end l in
  if b =? en then ret b
  else
    let* e := list_next b in
    bounded (λ n, best_loop n better b e en).

Definition list_max (l : Z) : M heap Z := list_best less l.
Definition list_min (l : Z) : M heap Z := list_best (λ min e, less e min) l.

End ordered.

End Lists.
