(* ===== verification/ListSpec.v ===== *)
(** * ListSpec: linked lists as sequences

    [is_list h l xs] says that the list at [l] consists of the elements [xs]
    in order.  The primitive operations of lib/kernel/list.c (linking,
    removing, splicing, walking) are shown to act on the sequence; [ListSort]
    and [ListOps] build on these lemmas. *)

From Stdlib Require Import ZArith Lia Sorted.
From stdpp Require Import base tactics option list numbers gmap fin_sets sorting.
From S2P Require Import Prelude Lists.
Import Lists.

Module ListSpec.

(** ** Links *)

Definition nx (h : heap) (p : Z) : option Z := next <$> h !! p.
Definition pv (h : heap) (p : Z) : option Z := prev <$> h !! p.
Definition link (h : heap) (a b : Z) : Prop := nx h a = Some b ∧ pv h b = Some a.

Fixpoint chain (h : heap) (ns : list Z) : Prop :=
  match ns with
  | a :: (b :: _) as t => link h a b ∧ chain h t
  | _ => True
  end.

Record is_list (h : heap) (l : Z) (xs : list Z) : Prop := {
  il_chain : chain h (l :: xs ++ [tail_of l]);
  il_nodup : NoDup (l :: xs ++ [tail_of l]);
  il_null : h !! NULL = None;
  il_head : pv h l = Some NULL;
  il_tail : nx h (tail_of l) = Some NULL
}.

(** The heap after a link has been set. *)
Definition hnext (p v : Z) (h : heap) : heap := alter (λ e, mk_elem (prev e) v) p h.
Definition hprev (p v : Z) (h : heap) : heap := alter (λ e, mk_elem v (next e)) p h.

Lemma nx_hnext p v h q : is_Some (h !! p) → nx (hnext p v h) q = if decide (q = p) then Some v else nx h q.
Proof.
  intros [e He]. unfold nx, hnext. case_decide as E.
  - subst. rewrite lookup_alter_eq, He. done.
  - by rewrite lookup_alter_ne by done.
Qed.
Lemma pv_hnext p v h q : pv (hnext p v h) q = pv h q.
Proof.
  unfold pv, hnext. destruct (decide (q = p)) as [->|E].
  - rewrite lookup_alter_eq. by destruct (h !! p).
  - by rewrite lookup_alter_ne by done.
Qed.
Lemma pv_hprev p v h q : is_Some (h !! p) → pv (hprev p v h) q = if decide (q = p) then Some v else pv h q.
Proof.
  intros [e He]. unfold pv, hprev. case_decide as E.
  - subst. rewrite lookup_alter_eq, He. done.
  - by rewrite lookup_alter_ne by done.
Qed.
Lemma nx_hprev p v h q : nx (hprev p v h) q = nx h q.
Proof.
  unfold nx, hprev. destruct (decide (q = p)) as [->|E].
  - rewrite lookup_alter_eq. by destruct (h !! p).
  - by rewrite lookup_alter_ne by done.
Qed.
Lemma is_Some_hnext p v h q : is_Some (hnext p v h !! q) ↔ is_Some (h !! q).
Proof. unfold hnext. by rewrite lookup_alter_is_Some. Qed.
Lemma is_Some_hprev p v h q : is_Some (hprev p v h !! q) ↔ is_Some (h !! q).
Proof. unfold hprev. by rewrite lookup_alter_is_Some. Qed.
Lemma hnext_other p v h q : q ≠ p → hnext p v h !! q = h !! q.
Proof. intros. unfold hnext. by rewrite lookup_alter_ne. Qed.
Lemma hprev_other p v h q : q ≠ p → hprev p v h !! q = h !! q.
Proof. intros. unfold hprev. by rewrite lookup_alter_ne. Qed.

Lemma nx_Some h p v : nx h p = Some v → is_Some (h !! p).
Proof. unfold nx. destruct (h !! p); [by eexists|done]. Qed.
Lemma pv_Some h p v : pv h p = Some v → is_Some (h !! p).
Proof. unfold pv. destruct (h !! p); [by eexists|done]. Qed.

#[local] Hint Resolve nx_Some pv_Some : pintos.

(** ** Running the primitives *)

Section run.
Context {B : Type}.

Lemma run_next h p v (k : Z → M heap B) : nx h p = Some v → bind (next_of p) k h = k v h.
Proof.
  unfold nx, next_of, elem_at. intros H. run.
  destruct (h !! p) as [e|]; [|done]. simpl in H. injection H as <-. done.
Qed.
Lemma next_of_eq h p v : nx h p = Some v → next_of p h = Ok (v, h).
Proof.
  unfold nx, next_of, elem_at. intros H. run. destruct (h !! p) as [e|]; [|done].
  simpl in H. by injection H as <-.
Qed.
Lemma run_prev h p v (k : Z → M heap B) : pv h p = Some v → bind (prev_of p) k h = k v h.
Proof.
  unfold pv, prev_of, elem_at. intros H. run.
  destruct (h !! p) as [e|]; [|done]. simpl in H. injection H as <-. done.
Qed.
Lemma set_next_eq h p v : is_Some (h !! p) → set_next p v h = Ok (tt, hnext p v h).
Proof.
  intros [e He]. unfold set_next, elem_at, hnext. run. rewrite He. unfold deref. run.
  unfold modify. do 2 f_equal. apply map_eq. intros q. destruct (decide (q = p)) as [->|E].
  - by rewrite lookup_insert_eq, lookup_alter_eq, He.
  - by rewrite lookup_insert_ne, lookup_alter_ne.
Qed.
Lemma set_prev_eq h p v : is_Some (h !! p) → set_prev p v h = Ok (tt, hprev p v h).
Proof.
  intros [e He]. unfold set_prev, elem_at, hprev. run. rewrite He. unfold deref. run.
  unfold modify. do 2 f_equal. apply map_eq. intros q. destruct (decide (q = p)) as [->|E].
  - by rewrite lookup_insert_eq, lookup_alter_eq, He.
  - by rewrite lookup_insert_ne, lookup_alter_ne.
Qed.
Lemma run_set_next h p v (k : unit → M heap B) :
  is_Some (h !! p) → bind (set_next p v) k h = k tt (hnext p v h).
Proof. intros H. by apply bind_ok, set_next_eq. Qed.
Lemma run_set_prev h p v (k : unit → M heap B) :
  is_Some (h !! p) → bind (set_prev p v) k h = k tt (hprev p v h).
Proof. intros H. by apply bind_ok, set_prev_eq. Qed.

(** The kind of an element, from its links. *)
Lemma is_interior_eq h p a b : p ≠ NULL → pv h p = Some a → nx h p = Some b →
  is_interior p h = Ok (negb (a =? NULL) && negb (b =? NULL), h).
Proof.
  unfold pv, nx, is_interior, elem_at. intros Hp Ha Hb. rewrite (proj2 (Z.eqb_neq p NULL)) by done.
  run. destruct (h !! p) as [e|]; [|done]. simpl in *. injection Ha as <-. by injection Hb as <-.
Qed.
Lemma is_tail_eq h p a b : p ≠ NULL → pv h p = Some a → nx h p = Some b →
  is_tail p h = Ok (negb (a =? NULL) && (b =? NULL), h).
Proof.
  unfold pv, nx, is_tail, elem_at. intros Hp Ha Hb. rewrite (proj2 (Z.eqb_neq p NULL)) by done.
  run. destruct (h !! p) as [e|]; [|done]. simpl in *. injection Ha as <-. by injection Hb as <-.
Qed.
Lemma is_head_eq h p a b : p ≠ NULL → pv h p = Some a → nx h p = Some b →
  is_head p h = Ok ((a =? NULL) && negb (b =? NULL), h).
Proof.
  unfold pv, nx, is_head, elem_at. intros Hp Ha Hb. rewrite (proj2 (Z.eqb_neq p NULL)) by done.
  run. destruct (h !! p) as [e|]; [|done]. simpl in *. injection Ha as <-. by injection Hb as <-.
Qed.

(** An element with a predecessor passes the test of list_insert(),
    list_splice() and list_prev(); one with a successor that of
    list_next(). *)
Lemma run_has_prev h p a b (k : bool → M heap B) :
  p ≠ NULL → a ≠ NULL → pv h p = Some a → nx h p = Some b →
  bind (or_else (is_interior p) (is_tail p)) k h = k true h.
Proof.
  intros Hp Ha Hpv Hnx. unfold or_else. run.
  erewrite bind_ok by by apply is_interior_eq. rewrite (proj2 (Z.eqb_neq a NULL)) by done.
  destruct (Z.eqb_spec b NULL); simpl; [|by run].
  erewrite bind_ok by by apply is_tail_eq. rewrite (proj2 (Z.eqb_neq a NULL)) by done.
  by subst.
Qed.
Lemma run_has_next h p a b (k : bool → M heap B) :
  p ≠ NULL → b ≠ NULL → pv h p = Some a → nx h p = Some b →
  bind (or_else (is_head p) (is_interior p)) k h = k true h.
Proof.
  intros Hp Hb Hpv Hnx. unfold or_else. run.
  erewrite bind_ok by by apply is_head_eq. rewrite (proj2 (Z.eqb_neq b NULL)) by done.
  destruct (Z.eqb_spec a NULL); simpl; [by run|].
  erewrite bind_ok by by apply is_interior_eq.
  by rewrite (proj2 (Z.eqb_neq a NULL)), (proj2 (Z.eqb_neq b NULL)).
Qed.
End run.

(** ** Chains *)

Lemma chain_app h A a b B :
  chain h (A ++ a :: b :: B) ↔ chain h (A ++ [a]) ∧ link h a b ∧ chain h (b :: B).
Proof.
  induction A as [|x A IH]; [cbn [app chain]; tauto|].
  destruct A as [|y A]; cbn [app] in *; cbn [chain] in *; tauto.
Qed.

Lemma chain_ext h h' ns :
  chain h ns → (∀ x, x ∈ ns → nx h' x = nx h x) → (∀ x, x ∈ ns → pv h' x = pv h x) →
  chain h' ns.
Proof.
  induction ns as [|a [|b ns] IH]; [done|done|]. intros [[H1 H2] Hc] Hn Hp.
  split; [split; [rewrite Hn; [done|left]|rewrite Hp; [done|right; left]]|].
  apply IH; [done|..]; intros x Hx; [apply Hn|apply Hp]; by right.
Qed.

(** Only the successor of the last element changes. *)
Lemma chain_ext_last h h' A a :
  chain h (A ++ [a]) → (∀ x, x ∈ A → nx h' x = nx h x) →
  (∀ x, x ∈ A ++ [a] → pv h' x = pv h x) → chain h' (A ++ [a]).
Proof.
  induction A as [|x A IH]; [done|]. intros Hc Hn Hp.
  assert (chain h' (A ++ [a])) as Hc'.
  { apply IH; [destruct A; [done|apply Hc]|intros y Hy; apply Hn; by right
      |intros y Hy; apply Hp; by right]. }
  destruct A as [|y A]; cbn [app] in *.
  - destruct Hc as [[H1 H2] _]. split; [|done]. split; [rewrite Hn; [done|left]|].
    rewrite Hp; [done|right; left].
  - destruct Hc as [[H1 H2] _]. split; [|done]. split; [rewrite Hn; [done|left]|].
    rewrite Hp; [done|right; left].
Qed.

(** Only the predecessor of the first element changes. *)
Lemma chain_ext_first h h' b B :
  chain h (b :: B) → (∀ x, x ∈ b :: B → nx h' x = nx h x) →
  (∀ x, x ∈ B → pv h' x = pv h x) → chain h' (b :: B).
Proof.
  destruct B as [|c B]; [done|]. intros [[H1 H2] Hc] Hn Hp.
  split; [split; [rewrite Hn; [done|left]|rewrite Hp; [done|left]]|].
  apply (chain_ext h); [done|intros x Hx; apply Hn; by right|done].
Qed.

(** The first of the elements [ys] or the tail. *)
Definition fst_of (ys : list Z) (t : Z) : Z := match ys with [] => t | y :: _ => y end.
Definition nodes (l : Z) (xs : list Z) : list Z := l :: xs ++ [tail_of l].

Lemma fst_of_cons ys t : ∃ B, ys ++ [t] = fst_of ys t :: B.
Proof. destruct ys as [|y ys]; [by exists []|by exists (ys ++ [t])]. Qed.

Lemma snoc_of (l : Z) xs : ∃ A a, l :: xs = A ++ [a].
Proof. destruct (exists_last (l := l :: xs)) as (A & a & E); [done|]. by exists A, a. Qed.

(** The two neighbours at a position of the list. *)
Lemma nodes_cursor l xs ys : ∃ A a B,
  l :: xs = A ++ [a] ∧ ys ++ [tail_of l] = fst_of ys (tail_of l) :: B ∧
  nodes l (xs ++ ys) = A ++ a :: fst_of ys (tail_of l) :: B.
Proof.
  destruct (snoc_of l xs) as (A & a & EA), (fst_of_cons ys (tail_of l)) as [B EB].
  exists A, a, B. split_and!; [done|done|]. unfold nodes. rewrite <- app_assoc, EB.
  rewrite app_comm_cons, EA, <- app_assoc. done.
Qed.

Lemma chain_alloc h ns x : chain h ns → x ∈ ns → (2 <= length ns)%nat → is_Some (h !! x).
Proof.
  induction ns as [|a [|b ns] IH]; intros Hc Hx Hl; [simpl in Hl; lia..|].
  destruct Hc as [[H1 H2] Hc]. apply elem_of_cons in Hx as [->|Hx]; [eauto with pintos|].
  destruct ns as [|c ns].
  - apply list_elem_of_singleton in Hx as ->. eauto with pintos.
  - apply IH; [done|done|simpl; lia].
Qed.

Section facts.
Context (h : heap) (l : Z).

Lemma node_alloc xs x : is_list h l xs → x ∈ nodes l xs → is_Some (h !! x).
Proof.
  intros Hl Hx. eapply chain_alloc; [apply Hl|exact Hx|]. rewrite length_cons, length_app. simpl. lia.
Qed.

Lemma node_nonnull xs x : is_list h l xs → x ∈ nodes l xs → x ≠ NULL.
Proof. intros Hl Hx ->. destruct (node_alloc _ _ Hl Hx) as [e He]. by rewrite (il_null _ _ _ Hl) in He. Qed.

(** The bound on every loop. *)
Lemma list_fuel xs : is_list h l xs → (length xs + 2 <= size h)%nat.
Proof.
  intros Hl. rewrite <- size_dom.
  assert (length xs + 2 = length (nodes l xs))%nat as ->
    by (unfold nodes; rewrite length_cons, length_app; simpl; lia).
  rewrite <- (size_list_to_set (C := gset Z) (nodes l xs)) by apply Hl.
  apply subseteq_size. intros x Hx%elem_of_list_to_set. apply elem_of_dom. by eapply node_alloc.
Qed.

Lemma cursor_link xs ys : is_list h l (xs ++ ys) → ∃ A a B,
  l :: xs = A ++ [a] ∧ ys ++ [tail_of l] = fst_of ys (tail_of l) :: B ∧
  nodes l (xs ++ ys) = A ++ a :: fst_of ys (tail_of l) :: B ∧
  link h a (fst_of ys (tail_of l)).
Proof.
  intros Hl. destruct (nodes_cursor l xs ys) as (A & a & B & E1 & E2 & E3).
  exists A, a, B. split; [done|]. split; [done|]. split; [done|].
  pose proof (il_chain _ _ _ Hl) as Hc. fold (nodes l (xs ++ ys)) in Hc. rewrite E3 in Hc.
  apply chain_app in Hc as (_ & Hlk & _). exact Hlk.
Qed.

Lemma succ_of xs x ys : is_list h l (xs ++ x :: ys) → nx h x = Some (fst_of ys (tail_of l)).
Proof.
  intros Hl. replace (xs ++ x :: ys) with ((xs ++ [x]) ++ ys) in Hl by (by rewrite <- app_assoc).
  destruct (cursor_link _ _ Hl) as (A & a & B & E1 & _ & _ & [Hn _]).
  rewrite app_comm_cons in E1. by apply app_inj_tail in E1 as [_ ->].
Qed.

Lemma pred_of xs x ys : is_list h l (xs ++ x :: ys) → pv h (fst_of ys (tail_of l)) = Some x.
Proof.
  intros Hl. replace (xs ++ x :: ys) with ((xs ++ [x]) ++ ys) in Hl by (by rewrite <- app_assoc).
  destruct (cursor_link _ _ Hl) as (A & a & B & E1 & _ & _ & [_ Hp]).
  rewrite app_comm_cons in E1. by apply app_inj_tail in E1 as [_ ->].
Qed.

(** Every position after the head has a predecessor and some successor. *)
Lemma cursor_prev xs ys : is_list h l (xs ++ ys) →
  ∃ a b, pv h (fst_of ys (tail_of l)) = Some a ∧ nx h (fst_of ys (tail_of l)) = Some b ∧
    a ∈ nodes l (xs ++ ys) ∧ fst_of ys (tail_of l) ∈ nodes l (xs ++ ys) ∧
    (b ∈ nodes l (xs ++ ys) ∨ ys = []).
Proof.
  intros Hl. destruct (cursor_link _ _ Hl) as (A & a & B & _ & _ & E & [_ Hp]).
  assert (a ∈ nodes l (xs ++ ys) ∧ fst_of ys (tail_of l) ∈ nodes l (xs ++ ys)) as [Ha Hf].
  { rewrite E. split; [apply elem_of_app; right; left|apply elem_of_app; right; right; left]. }
  destruct ys as [|y ys].
  - exists a, NULL. split_and!; [done|apply Hl|done|done|by right].
  - exists a, (fst_of ys (tail_of l)). pose proof (succ_of _ _ _ Hl). split_and!; [done|done|done|done|].
    left. unfold nodes. destruct ys; simpl; rewrite !elem_of_cons, !elem_of_app, ?elem_of_cons; naive_solver.
Qed.

Lemma cursor_node xs ys : fst_of ys (tail_of l) ∈ nodes l (xs ++ ys).
Proof.
  unfold nodes. rewrite elem_of_cons, !elem_of_app, list_elem_of_singleton.
  destruct ys; simpl; [auto|]. rewrite elem_of_cons. auto.
Qed.

Lemma elem_node xs x ys : x ∈ nodes l (xs ++ x :: ys).
Proof. apply (cursor_node xs (x :: ys)). Qed.

Lemma run_list_begin xs {B} (k : Z → M heap B) : is_list h l xs →
  bind (list_begin l) k h = k (fst_of xs (tail_of l)) h.
Proof.
  intros Hl. unfold list_begin.
  assert (l ≠ NULL) by (eapply (node_nonnull xs); [done|left]). run.
  rewrite bind_assert by (by rewrite (proj2 (Z.eqb_neq l NULL))).
  apply run_next. pose proof (il_chain _ _ _ Hl) as Hc.
  destruct xs as [|x xs]; cbn [app chain] in Hc; apply Hc.
Qed.

Lemma run_list_end xs {B} (k : Z → M heap B) : is_list h l xs →
  bind (list_end l) k h = k (tail_of l) h.
Proof.
  intros Hl. unfold list_end.
  assert (l ≠ NULL) by (eapply (node_nonnull xs); [done|left]). run.
  rewrite bind_assert by (by rewrite (proj2 (Z.eqb_neq l NULL))). by run.
Qed.

Lemma run_list_next xs x ys {B} (k : Z → M heap B) : is_list h l (xs ++ x :: ys) →
  bind (list_next x) k h = k (fst_of ys (tail_of l)) h.
Proof.
  intros Hl. pose proof (succ_of _ _ _ Hl) as Hn.
  destruct (cursor_prev xs (x :: ys) Hl) as (a & b & Ha & _).
  unfold list_next. run. rewrite (run_has_next h x a (fst_of ys (tail_of l))); [|..|done|done].
  - cbv beta. run. rewrite bind_assert by done. by apply run_next.
  - eapply node_nonnull; [done|apply elem_node].
  - eapply node_nonnull; [done|].
    replace (xs ++ x :: ys) with ((xs ++ [x]) ++ ys) by (by rewrite <- app_assoc). apply cursor_node.
Qed.

Lemma run_list_prev xs x ys {B} (k : Z → M heap B) : is_list h l (xs ++ x :: ys) →
  bind (list_prev (fst_of ys (tail_of l))) k h = k x h.
Proof.
  intros Hl. pose proof (pred_of _ _ _ Hl) as Hp. pose proof Hl as Hl'.
  replace (xs ++ x :: ys) with ((xs ++ [x]) ++ ys) in Hl' by (by rewrite <- app_assoc).
  destruct (cursor_prev (xs ++ [x]) ys Hl') as (a & b & _ & Hb & _).
  unfold list_prev. run. rewrite (run_has_prev h _ x b); [|..|done|done].
  - cbv beta. run. rewrite bind_assert by done. by apply run_prev.
  - eapply node_nonnull; [exact Hl'|apply cursor_node].
  - eapply node_nonnull; [exact Hl|apply elem_node].
Qed.
End facts.

(** ** Insertion and removal *)

(** Nothing outside [ns] changes. *)
Definition frame (h h' : heap) (ns : list Z) : Prop :=
  (∀ q, q ∉ ns → h' !! q = h !! q) ∧ (∀ q, is_Some (h' !! q) ↔ is_Some (h !! q)).

Lemma nodup_parts (A : list Z) a b B : NoDup (A ++ a :: b :: B) →
  (a ∉ A) ∧ (b ∉ A) ∧ (a ∉ B) ∧ (b ∉ B) ∧ a ≠ b.
Proof.
  intros (_ & Hd & [Ha [Hb _]%NoDup_cons]%NoDup_cons)%NoDup_app.
  rewrite elem_of_cons in Ha. split_and!; [| |tauto|done|tauto].
  - intros H. apply (Hd _ H). left.
  - intros H. apply (Hd _ H). right. left.
Qed.

Lemma nodup_insert (A : list Z) a e b B :
  NoDup (A ++ a :: b :: B) → e ∉ A ++ a :: b :: B → NoDup (A ++ a :: e :: b :: B).
Proof.
  intros Hnd He. replace (A ++ a :: e :: b :: B) with ((A ++ [a]) ++ e :: b :: B)
    by (by rewrite <- app_assoc).
  apply (NoDup_Permutation_proper _ (e :: (A ++ [a]) ++ b :: B)).
  - symmetry. apply Permutation_middle.
  - rewrite <- app_assoc. by constructor.
Qed.

Lemma nodup_remove (A : list Z) a e b B :
  NoDup (A ++ a :: e :: b :: B) → NoDup (A ++ a :: b :: B).
Proof.
  intros Hnd. assert (NoDup (e :: A ++ a :: b :: B)) as [_ H]%NoDup_cons; [|done].
  eapply NoDup_Permutation_proper; [|exact Hnd].
  replace (A ++ a :: e :: b :: B) with ((A ++ [a]) ++ e :: b :: B) by (by rewrite <- app_assoc).
  replace (A ++ a :: b :: B) with ((A ++ [a]) ++ b :: B) by (by rewrite <- app_assoc).
  apply Permutation_middle.
Qed.

(** The ends of a list are not the element in the middle, nor each other's
    side. *)
Lemma nodup_ends (A : list Z) a e b B x y :
  NoDup (A ++ a :: e :: b :: B) → x ∈ A ++ [a] → y ∈ b :: B →
  x ≠ b ∧ x ≠ e ∧ y ≠ a ∧ y ≠ e.
Proof.
  replace (A ++ a :: e :: b :: B) with ((A ++ [a]) ++ e :: b :: B) by (by rewrite <- app_assoc).
  intros (_ & Hd & [He _]%NoDup_cons)%NoDup_app Hx Hy. pose proof (Hd x Hx) as Hx'.
  assert (a ∈ A ++ [a]) as Ha by (apply elem_of_app; right; left). pose proof (Hd a Ha) as Ha'.
  clear Hd. split_and!; set_solver.
Qed.

(** The heap after list_insert() of [e] between [a] and [b], and after
    list_remove() of what is between them. *)
Definition insert_heap (a b e : Z) (h : heap) : heap :=
  hprev b e (hnext a e (hnext e b (hprev e a h))).
Definition remove_heap (a b : Z) (h : heap) : heap := hprev b a (hnext a b h).

Section insert_heap.
Context (h : heap) (a b e : Z).
Hypothesis Ha : is_Some (h !! a).
Hypothesis Hb : is_Some (h !! b).
Hypothesis He : is_Some (h !! e).

Lemma nx_insert q : nx (insert_heap a b e h) q =
  if decide (q = a) then Some e else if decide (q = e) then Some b else nx h q.
Proof.
  unfold insert_heap. rewrite nx_hprev, nx_hnext by (by rewrite is_Some_hnext, is_Some_hprev).
  case_decide; [done|]. rewrite nx_hnext by (by rewrite is_Some_hprev).
  case_decide; [done|]. apply nx_hprev.
Qed.
Lemma pv_insert q : pv (insert_heap a b e h) q =
  if decide (q = b) then Some e else if decide (q = e) then Some a else pv h q.
Proof.
  unfold insert_heap. rewrite pv_hprev by (by rewrite !is_Some_hnext, is_Some_hprev).
  case_decide; [done|]. rewrite !pv_hnext. by apply pv_hprev.
Qed.
Lemma insert_frame ns : a ∈ ns → b ∈ ns → e ∈ ns → frame h (insert_heap a b e h) ns.
Proof.
  intros H1 H2 H3. split; intros q; unfold insert_heap.
  - intros Hq. rewrite hprev_other, !hnext_other, hprev_other; [done|congruence..].
  - by rewrite is_Some_hprev, !is_Some_hnext, is_Some_hprev.
Qed.
Lemma nx_remove q : nx (remove_heap a b h) q = if decide (q = a) then Some b else nx h q.
Proof. unfold remove_heap. rewrite nx_hprev. by apply nx_hnext. Qed.
Lemma pv_remove q : pv (remove_heap a b h) q = if decide (q = b) then Some a else pv h q.
Proof.
  unfold remove_heap. rewrite pv_hprev by (by rewrite is_Some_hnext). by rewrite pv_hnext.
Qed.
Lemma remove_frame ns : a ∈ ns → b ∈ ns → frame h (remove_heap a b h) ns.
Proof.
  intros H1 H2. split; intros q; unfold remove_heap.
  - intros Hq. rewrite hprev_other, hnext_other; [done|congruence..].
  - by rewrite is_Some_hprev, is_Some_hnext.
Qed.

(** A new element between two neighbours. *)
Lemma chain_insert A B : NoDup (A ++ a :: b :: B) → e ∉ A ++ a :: b :: B →
  chain h (A ++ a :: b :: B) → chain (insert_heap a b e h) (A ++ a :: e :: b :: B).
Proof.
  intros Hnd Hfr Hc. destruct (nodup_parts _ _ _ _ Hnd) as (H1 & H2 & H3 & H4 & H5).
  rewrite elem_of_app, !elem_of_cons in Hfr. apply chain_app in Hc as (HA & _ & HB).
  apply chain_app. split; [|split; [|split]].
  - apply (chain_ext_last h); [done|..]; intros x Hx; rewrite ?nx_insert, ?pv_insert.
    + rewrite !decide_False; [done|naive_solver..].
    + rewrite elem_of_app, list_elem_of_singleton in Hx. rewrite !decide_False; [done|naive_solver..].
  - split; rewrite ?nx_insert, ?pv_insert; [by rewrite decide_True|].
    rewrite decide_False, decide_True; [done..|naive_solver].
  - split; rewrite ?nx_insert, ?pv_insert; [|by rewrite decide_True].
    rewrite decide_False, decide_True; [done..|naive_solver].
  - apply (chain_ext_first h); [done|..]; intros x Hx; rewrite ?nx_insert, ?pv_insert.
    + rewrite elem_of_cons in Hx. rewrite !decide_False; [done|naive_solver..].
    + rewrite !decide_False; [done|naive_solver..].
Qed.
End insert_heap.

(** An element taken out between its neighbours. *)
Lemma chain_remove h A a e b B : NoDup (A ++ a :: e :: b :: B) →
  chain h (A ++ a :: e :: b :: B) → chain (remove_heap a b h) (A ++ a :: b :: B).
Proof.
  intros Hnd Hc. pose proof Hc as (HA & [Hae _] & [Heb1 Heb2] & HB)%chain_app.
  pose proof (nodup_remove _ _ _ _ _ Hnd) as Hnd'.
  destruct (nodup_parts _ _ _ _ Hnd') as (H1 & H2 & H3 & H4 & H5).
  assert (is_Some (h !! a)) as Ha by eauto with pintos.
  assert (is_Some (h !! b)) as Hb by eauto with pintos.
  apply chain_app. split; [|split].
  - apply (chain_ext_last h); [done|..]; intros x Hx; rewrite ?nx_remove, ?pv_remove by done.
    + rewrite decide_False; [done|congruence].
    + rewrite elem_of_app, list_elem_of_singleton in Hx. rewrite decide_False; [done|naive_solver].
  - split; rewrite ?nx_remove, ?pv_remove by done; by rewrite decide_True.
  - apply (chain_ext_first h); [done|..]; intros x Hx; rewrite ?nx_remove, ?pv_remove by done.
    + rewrite elem_of_cons in Hx. rewrite decide_False; [done|naive_solver].
    + rewrite decide_False; [done|congruence].
Qed.

(** list_insert() at any position after the head. *)
Lemma insert_ok h l xs ys e :
  is_list h l (xs ++ ys) → e ∉ nodes l (xs ++ ys) → is_Some (h !! e) →
  ∃ h', list_insert (fst_of ys (tail_of l)) e h = Ok (tt, h') ∧
    is_list h' l (xs ++ e :: ys) ∧ frame h h' (e :: nodes l (xs ++ ys)).
Proof.
  intros Hl He Hes. destruct (cursor_link _ _ _ _ Hl) as (A & a & B & E1 & E2 & E3 & [Hn Hp]).
  destruct (cursor_prev _ _ _ _ Hl) as (a' & c & Ha' & Hc & Hain & Hbin & _).
  assert (a' = a) as -> by congruence. set (b := fst_of ys (tail_of l)) in *.
  pose proof (node_alloc _ _ _ _ Hl Hain) as Has. pose proof (node_alloc _ _ _ _ Hl Hbin) as Hbs.
  assert (e ≠ NULL) as Hen by (intros ->; destruct Hes as [? Hx]; by rewrite (il_null _ _ _ Hl) in Hx).
  exists (insert_heap a b e h). split; [|split].
  - unfold list_insert. rewrite (run_has_prev h b a c); [|..|done|done];
      [|by eapply node_nonnull..]. cbv beta. rewrite bind_assert by done.
    rewrite bind_assert by (by rewrite (proj2 (Z.eqb_neq e NULL))).
    rewrite (run_prev h b a) by done. rewrite run_set_prev by done.
    rewrite run_set_next by (by rewrite is_Some_hprev).
    assert (b ≠ e) as Hbe by congruence.
    rewrite (run_prev _ b a) by (rewrite pv_hnext, pv_hprev by done; by rewrite decide_False).
    rewrite run_set_next by (by rewrite is_Some_hnext, is_Some_hprev).
    apply set_prev_eq. by rewrite !is_Some_hnext, is_Some_hprev.
  - assert (nodes l (xs ++ e :: ys) = A ++ a :: e :: b :: B) as En.
    { unfold nodes. rewrite <- app_assoc. cbn [app]. rewrite E2, app_comm_cons, E1, <- app_assoc. done. }
    rewrite E3 in He. pose proof (il_nodup _ _ _ Hl) as Hnd. fold (nodes l (xs ++ ys)) in Hnd.
    rewrite E3 in Hnd. pose proof (il_chain _ _ _ Hl) as Hch. fold (nodes l (xs ++ ys)) in Hch.
    rewrite E3 in Hch. assert (l ∈ A ++ [a]) as Hlin by (rewrite <- E1; left).
    assert (tail_of l ∈ b :: B) as Htin by (rewrite <- E2; apply elem_of_app; right; left).
    pose proof (nodup_insert _ _ _ _ _ Hnd He) as Hnd'.
    destruct (nodup_ends _ _ _ _ _ _ _ Hnd' Hlin Htin) as (Hl1 & Hl2 & Ht1 & Ht2).
    split; [fold (nodes l (xs ++ e :: ys)); rewrite En; by apply chain_insert
      |fold (nodes l (xs ++ e :: ys)); by rewrite En| | |].
    + apply eq_None_not_Some. rewrite (proj2 (insert_frame h a b e [a; b; e] ltac:(left)
        ltac:(right; left) ltac:(right; right; left)) NULL). rewrite (il_null _ _ _ Hl). by intros [? ?].
    + rewrite pv_insert by done. rewrite !decide_False by done. apply Hl.
    + rewrite nx_insert by done. rewrite !decide_False by done. apply Hl.
  - apply insert_frame; [by right|by right|left].
Qed.

Lemma nodes_around l xs x ys : ∃ A a B,
  l :: xs = A ++ [a] ∧ ys ++ [tail_of l] = fst_of ys (tail_of l) :: B ∧
  nodes l (xs ++ x :: ys) = A ++ a :: x :: fst_of ys (tail_of l) :: B ∧
  nodes l (xs ++ ys) = A ++ a :: fst_of ys (tail_of l) :: B.
Proof.
  destruct (nodes_cursor l xs ys) as (A & a & B & E1 & E2 & E3).
  exists A, a, B. split_and!; [done|done| |done].
  unfold nodes. rewrite <- app_assoc. cbn [app]. by rewrite E2, app_comm_cons, E1, <- app_assoc.
Qed.

(** list_remove() of any element: the list without it; the result is the
    element after it. *)
Lemma remove_ok h l xs x ys : is_list h l (xs ++ x :: ys) →
  ∃ a, pv h x = Some a ∧ a ∈ nodes l xs ∧ let h' := remove_heap a (fst_of ys (tail_of l)) h in
    list_remove x h = Ok (fst_of ys (tail_of l), h') ∧ is_list h' l (xs ++ ys) ∧
    frame h h' (nodes l (xs ++ x :: ys)) ∧ nx h' x = nx h x ∧ pv h' x = pv h x.
Proof.
  intros Hl. destruct (nodes_around l xs x ys) as (A & a & B & E1 & E2 & E3 & E4).
  set (b := fst_of ys (tail_of l)) in *.
  pose proof (il_chain _ _ _ Hl) as Hch. pose proof (il_nodup _ _ _ Hl) as Hnd.
  fold (nodes l (xs ++ x :: ys)) in Hch, Hnd. rewrite E3 in Hch, Hnd.
  pose proof Hch as (_ & [Hax Hxa] & [Hxb Hbx] & _)%chain_app.
  assert (l ∈ A ++ [a]) as Hlin by (rewrite <- E1; left).
  assert (tail_of l ∈ b :: B) as Htin by (rewrite <- E2; apply elem_of_app; right; left).
  destruct (nodup_ends _ _ _ _ _ _ _ Hnd Hlin Htin) as (Hl1 & Hl2 & Ht1 & Ht2).
  destruct (nodup_ends _ _ _ _ _ a b Hnd ltac:(apply elem_of_app; right; left) ltac:(left))
    as (Hab & Hax' & _ & Hbx').
  assert (∀ q, q ∈ [a; x; b] → q ∈ nodes l (xs ++ x :: ys)) as Hin.
  { intros q Hq. rewrite E3. rewrite !elem_of_cons, elem_of_nil in Hq.
    rewrite elem_of_app, !elem_of_cons. tauto. }
  assert (is_Some (h !! a)) as Has by eauto with pintos.
  assert (is_Some (h !! b)) as Hbs by eauto with pintos.
  assert (a ≠ NULL ∧ x ≠ NULL ∧ b ≠ NULL) as (Ha0 & Hx0 & Hb0).
  { split_and!; (eapply node_nonnull; [exact Hl|apply Hin; set_solver]). }
  exists a. split; [done|]. split.
  { unfold nodes. rewrite app_comm_cons, E1, elem_of_app. left. apply elem_of_app. right. left. }
  cbv zeta. fold b. split; [|split; [|split; [|split]]].
  - unfold list_remove. erewrite bind_ok by (by apply (is_interior_eq h x a b)).
    rewrite (proj2 (Z.eqb_neq a NULL)), (proj2 (Z.eqb_neq b NULL)) by done.
    rewrite bind_assert by done. rewrite (run_prev h x a), (run_next h x b) by done.
    rewrite run_set_next by done.
    rewrite (run_next _ x b) by (rewrite nx_hnext by done; by rewrite decide_False).
    rewrite (run_prev _ x a) by (by rewrite pv_hnext).
    rewrite run_set_prev by (by rewrite is_Some_hnext).
    assert (nx (remove_heap a b h) x = Some b) as Hnx
      by (rewrite nx_remove by done; by rewrite decide_False).
    by apply next_of_eq.
  - split; [fold (nodes l (xs ++ ys)); rewrite E4; by eapply chain_remove
      |fold (nodes l (xs ++ ys)); rewrite E4; by eapply nodup_remove| | |].
    + apply eq_None_not_Some. rewrite (proj2 (remove_frame h a b [a; b] ltac:(left)
        ltac:(right; left)) NULL). rewrite (il_null _ _ _ Hl). by intros [? ?].
    + rewrite pv_remove by done. rewrite decide_False by done. apply Hl.
    + rewrite nx_remove by done. rewrite decide_False by done. apply Hl.
  - apply remove_frame; apply Hin; set_solver.
  - rewrite nx_remove by done. by rewrite decide_False.
  - rewrite pv_remove by done. by rewrite decide_False.
Qed.

Lemma nodes_app l xs ys y : y ∈ nodes l xs → y ∈ nodes l (xs ++ ys).
Proof. unfold nodes. rewrite !elem_of_cons, !elem_of_app. tauto. Qed.

Lemma perm_out (x l : Z) S R T : x :: l :: (S ++ R) ++ T ≡ₚ l :: (S ++ x :: R) ++ T.
Proof. rewrite perm_swap. constructor. rewrite <- !app_assoc. cbn [app]. apply Permutation_middle. Qed.

(** list_splice() of the single element [x] to a place before it. *)
Lemma splice_elem h l P Q x R : Q ≠ [] → is_list h l (P ++ Q ++ x :: R) →
  ∃ h', list_splice (fst_of (Q ++ x :: R) (tail_of l)) x (fst_of R (tail_of l)) h = Ok (tt, h') ∧
    is_list h' l (P ++ x :: Q ++ R) ∧ frame h h' (nodes l (P ++ Q ++ x :: R)).
Proof.
  intros HQ Hl. destruct Q as [|q Q]; [done|]. set (t := tail_of l). cbn [app fst_of].
  assert (is_list h l ((P ++ q :: Q) ++ x :: R)) as Hl' by (by rewrite <- app_assoc).
  destruct (remove_ok _ _ _ _ _ Hl') as (a & Ha & Hain & _ & Hl1 & Hf1 & _ & _).
  pose proof (succ_of _ _ _ _ _ Hl') as Hxn. fold t in Hxn, Hl1, Hf1. set (r := fst_of R t) in *.
  set (h1 := remove_heap a r h) in *.
  assert (is_list h1 l (P ++ (q :: Q) ++ R)) as Hl1' by (by rewrite app_assoc).
  assert (x ∉ nodes l (P ++ (q :: Q) ++ R)) as Hx.
  { pose proof (il_nodup _ _ _ Hl') as Hnd.
    assert (NoDup (x :: l :: ((P ++ q :: Q) ++ R) ++ [tail_of l])) as [Hx _]%NoDup_cons.
    { eapply NoDup_Permutation_proper; [apply perm_out|exact Hnd]. }
    unfold nodes. by rewrite app_assoc. }
  assert (is_Some (h1 !! x)) as Hxs.
  { apply (proj2 Hf1). eapply node_alloc; [exact Hl'|apply elem_node]. }
  destruct (insert_ok _ _ _ _ _ Hl1' Hx Hxs) as (h2 & Hins & Hl2 & Hf2).
  exists h2. cbn [app fst_of] in Hins.
  destruct (cursor_prev h l P ((q :: Q) ++ x :: R) Hl) as (bp & bn & Hbp & Hbn & Hbpin & Hqin & _).
  cbn [fst_of app] in Hbp, Hbn, Hqin.
  assert (∀ y, y ∈ nodes l ((P ++ q :: Q) ++ x :: R) → y ≠ NULL) as Hnn
    by (intros y Hy; eapply node_nonnull; [exact Hl'|exact Hy]).
  assert (a ≠ NULL ∧ x ≠ NULL ∧ r ≠ NULL ∧ q ≠ NULL ∧ bp ≠ NULL) as (Ha0 & Hx0 & Hr0 & Hq0 & Hbp0).
  { split_and!; apply Hnn; [| | |rewrite <- app_assoc; exact Hqin|rewrite <- app_assoc; exact Hbpin].
    - by apply nodes_app.
    - apply elem_node.
    - replace ((P ++ q :: Q) ++ x :: R) with (((P ++ q :: Q) ++ [x]) ++ R) by (by rewrite <- app_assoc).
      apply cursor_node. }
  assert (x ≠ r) as Hxr.
  { intros E. apply Hx. rewrite E. rewrite app_assoc. apply cursor_node. }
  split; [|split; [exact Hl2|]].
  - unfold list_splice. rewrite (run_has_prev h q bp bn) by done. cbv beta.
    rewrite bind_assert by done. rewrite (proj2 (Z.eqb_neq x r)) by done.
    rewrite (run_list_prev h l (P ++ q :: Q) x R) by done. cbv beta.
    assert (is_interior x h = Ok (true, h)) as Hint.
    { rewrite (is_interior_eq h x a r) by done.
      by rewrite (proj2 (Z.eqb_neq a NULL)), (proj2 (Z.eqb_neq r NULL)) by done. }
    rewrite !(bind_ok _ _ _ _ _ Hint). rewrite bind_assert by done.
    rewrite (bind_ok _ _ _ _ _ Hint). rewrite bind_assert by done.
    assert (is_Some (h !! a)) as Has
      by (eapply (chain_alloc h (nodes l ((P ++ q :: Q) ++ x :: R))); [apply Hl'| |];
          [by apply nodes_app|unfold nodes; rewrite length_cons, length_app; simpl; lia]).
    assert (is_Some (h !! r)) as Hrs by (pose proof (pred_of _ _ _ _ _ Hl'); eauto with pintos).
    assert (a ≠ x) as Hax.
    { intros ->. apply Hx. rewrite app_assoc. by apply nodes_app. }
    rewrite (run_prev h x a), (run_next h x r) by done. rewrite run_set_next by done.
    rewrite (run_next _ x r) by (rewrite nx_hnext by done; by rewrite decide_False).
    rewrite (run_prev _ x a) by (by rewrite pv_hnext).
    rewrite run_set_prev by (by rewrite is_Some_hnext). fold (remove_heap a r h). fold h1.
    rewrite <- Hins. unfold list_insert.
    destruct (cursor_prev h1 l P ((q :: Q) ++ R) Hl1') as (bp1 & bn1 & Hbp1 & Hbn1 & Hbpin1 & _).
    cbn [app fst_of] in Hbp1, Hbn1.
    rewrite (run_has_prev h1 q bp1 bn1);
      [|exact Hq0|exact (node_nonnull _ _ _ _ Hl1' Hbpin1)|exact Hbp1|exact Hbn1]. cbv beta.
    rewrite bind_assert by done. by rewrite bind_assert by (by rewrite (proj2 (Z.eqb_neq x NULL))).
  - assert (∀ y, y ∈ x :: nodes l (P ++ (q :: Q) ++ R) → y ∈ nodes l (P ++ (q :: Q) ++ x :: R)) as Hsub.
    { intros y. unfold nodes. rewrite !elem_of_cons, !elem_of_app, !elem_of_cons. tauto. }
    destruct Hf1 as [F1 F2], Hf2 as [F3 F4]. split.
    + intros y Hy. rewrite F3, F1; [done|by rewrite <- app_assoc|].
      intros Hy'. apply Hy. by apply Hsub.
    + intros y. by rewrite F4, F2.
Qed.

(** ** Sorting *)

Lemma frame_refl h ns : frame h h ns.
Proof. by split. Qed.

Lemma frame_trans h h1 h2 ns ns' :
  frame h h1 ns → frame h1 h2 ns' → (∀ y, y ∈ ns' → y ∈ ns) → frame h h2 ns.
Proof.
  intros [F1 F2] [F3 F4] Hs. split.
  - intros q Hq. rewrite F3, F1; [done|done|]. intros H. by apply Hq, Hs.
  - intros q. by rewrite F4, F2.
Qed.

Lemma nodes_perm l xs ys : xs ≡ₚ ys → ∀ y, y ∈ nodes l xs ↔ y ∈ nodes l ys.
Proof. intros Hp y. unfold nodes. by rewrite Hp. Qed.

(** An element is not a later position. *)
Lemma cursor_neq h l P x R1 R2 : is_list h l (P ++ x :: R1 ++ R2) → x ≠ fst_of R2 (tail_of l).
Proof.
  intros Hl E. pose proof (il_nodup _ _ _ Hl) as [_ Hnd]%NoDup_cons.
  rewrite <- app_assoc in Hnd. cbn [app] in Hnd. apply NoDup_app in Hnd as (_ & _ & [Hx _]%NoDup_cons).
  apply Hx. rewrite E, <- app_assoc, elem_of_app. right.
  destruct (fst_of_cons R2 (tail_of l)) as [B ->]. left.
Qed.

Section sort.
Variable less : Z → Z → bool.

(** [x] may stand before [y]. *)
Definition le (x y : Z) : Prop := less y x = false.

Fixpoint sortedb (x : Z) (A : list Z) : bool :=
  match A with [] => true | y :: A => negb (less y x) && sortedb y A end.

Lemma sortedb_Sorted x A : sortedb x A = true ↔ Sorted le (x :: A).
Proof.
  revert x. induction A as [|y A IH]; intros x; cbn [sortedb].
  - split; [repeat constructor|done].
  - rewrite andb_true_iff, negb_true_iff, IH. split.
    + intros [H1 H2]. constructor; [exact H2|]. by constructor.
    + intros [H1 H2]%Sorted_inv. apply HdRel_inv in H2. done.
Qed.

(** The longest ordered continuation of [x], and the rest. *)
Fixpoint run_of (x : Z) (R : list Z) : list Z * list Z :=
  match R with
  | [] => ([], [])
  | y :: R' => if less y x then ([], R) else let r := run_of y R' in (y :: r.1, r.2)
  end.

Lemma run_of_app x R : R = (run_of x R).1 ++ (run_of x R).2.
Proof.
  revert x. induction R as [|y R IH]; intros x; [done|]. cbn [run_of].
  destruct (less y x); [done|]. cbn [fst snd app]. by rewrite <- IH.
Qed.

Lemma run_of_sorted x R : Sorted le (x :: (run_of x R).1).
Proof.
  revert x. induction R as [|y R IH]; intros x; cbn [run_of]; [repeat constructor|].
  destruct (less y x) eqn:E; cbn [fst]; [repeat constructor|]. constructor; [apply IH|by constructor].
Qed.

(** Stable merging: elements of [B] go first only when they are smaller. *)
Fixpoint merge (A : list Z) : list Z → list Z :=
  fix go (B : list Z) : list Z :=
    match A, B with
    | [], _ => B
    | _, [] => A
    | a :: A', b :: B' => if less b a then b :: go B' else a :: merge A' B
    end.

Lemma merge_cons a A b B :
  merge (a :: A) (b :: B) = if less b a then b :: merge (a :: A) B else a :: merge A (b :: B).
Proof. reflexivity. Qed.
Lemma merge_nil_l B : merge [] B = B.
Proof. by destruct B. Qed.
Lemma merge_nil_r A : merge A [] = A.
Proof. by destruct A. Qed.

Lemma merge_perm A B : merge A B ≡ₚ A ++ B.
Proof.
  revert B. induction A as [|a A IHA]; intros B; [by rewrite merge_nil_l|].
  induction B as [|b B IHB]; [by rewrite merge_nil_r, app_nil_r|]. rewrite merge_cons.
  destruct (less b a).
  - rewrite IHB. apply (Permutation_middle (a :: A)).
  - rewrite IHA. done.
Qed.

Section order.
Hypothesis less_asym : ∀ x y, less x y = true → less y x = false.

Lemma merge_hd x A B : HdRel le x A → HdRel le x B → HdRel le x (merge A B).
Proof.
  intros HA HB. destruct A as [|a A]; [by rewrite merge_nil_l|].
  destruct B as [|b B]; [by rewrite merge_nil_r|]. rewrite merge_cons.
  apply HdRel_inv in HA, HB. by destruct (less b a); constructor.
Qed.

Lemma merge_sorted A B : Sorted le A → Sorted le B → Sorted le (merge A B).
Proof.
  intros HA. revert B. induction HA as [|a A HA IHA Ha]; intros B HB; [by rewrite merge_nil_l|].
  induction HB as [|b B HB IHB Hb]; [rewrite merge_nil_r; by constructor|]. rewrite merge_cons.
  destruct (less b a) eqn:E.
  - constructor; [exact IHB|]. apply merge_hd; [|done]. constructor. by apply less_asym.
  - constructor; [apply IHA; by constructor|]. apply merge_hd; [done|by constructor].
Qed.
End order.

(** [R] is [k] ordered pieces one after the other, some of them perhaps
    empty. *)
Definition pieces (k : nat) (R : list Z) : Prop :=
  ∃ ls, length ls = k ∧ R = concat ls ∧ Forall (Sorted le) ls.

Lemma Sorted_suffix U V : Sorted le (U ++ V) → Sorted le V.
Proof. induction U as [|u U IH]; [done|]. intros [H _]%Sorted_inv. by apply IH. Qed.

Lemma pieces_cons k A R : Sorted le A → pieces k R → pieces (S k) (A ++ R).
Proof. intros HA (ls & <- & -> & Hs). exists (A :: ls). split_and!; [done|done|by constructor]. Qed.

Lemma pieces_suffix k U V : pieces k (U ++ V) → pieces k V.
Proof.
  intros (ls & Hl & E & Hs). revert k U Hl E. induction Hs as [|l1 ls Hl1 Hs IH]; intros k U Hl E.
  - simpl in *. apply app_eq_nil in E as [_ ->]. by exists [].
  - cbn [concat] in E. destruct k as [|k]; [done|]. injection Hl as Hl.
    apply app_eq_app in E as (W & [(-> & E)|(-> & E)]).
    + symmetry in E. apply (IH k W Hl) in E. rewrite <- (app_nil_l V). apply pieces_cons; [constructor|done].
    + rewrite E. apply pieces_cons; [by eapply Sorted_suffix|]. by exists ls.
Qed.

Lemma pieces_zero R : pieces 0 R → R = [].
Proof. intros (ls & Hl & -> & _). by destruct ls. Qed.

Lemma pieces_one R : pieces 1 R → Sorted le R.
Proof.
  intros (ls & Hl & -> & Hs). destruct ls as [|l1 [|]]; try done. cbn [concat]. rewrite app_nil_r.
  by apply Forall_cons in Hs as [? _].
Qed.

Lemma pieces_singletons R : pieces (length R) R.
Proof.
  induction R as [|x R IH]; [by exists []|]. apply (pieces_cons _ [x]); [repeat constructor|done].
Qed.

(** The longest run covers the first piece. *)
Lemma run_of_covers x l1 C : Sorted le (x :: l1) → ∃ U, C = U ++ (run_of x (l1 ++ C)).2.
Proof.
  revert x. induction l1 as [|y l1 IH]; intros x Hs.
  - exists (run_of x C).1. apply run_of_app.
  - apply Sorted_inv in Hs as [Hs Hx]. apply HdRel_inv in Hx. cbn [app run_of].
    unfold le in Hx. rewrite Hx. cbn [snd]. by apply IH.
Qed.

Lemma pieces_run k x R : pieces (S k) (x :: R) → pieces k (run_of x R).2.
Proof.
  intros (ls & Hl & E & Hs). destruct ls as [|l1 ls]; [done|]. injection Hl as Hl.
  apply Forall_cons in Hs as [Hl1 Hs]. cbn [concat] in E.
  assert (pieces k (concat ls)) as Hp by (by exists ls).
  destruct l1 as [|y l1]; cbn [app] in E.
  - rewrite <- E, (run_of_app x R) in Hp. rewrite app_comm_cons in Hp. by eapply pieces_suffix.
  - injection E as -> ->. destruct (run_of_covers y l1 (concat ls) Hl1) as [U EU].
    rewrite EU in Hp. by eapply pieces_suffix.
Qed.

End sort.

End ListSpec.
