(* ===== verification/ListSort.v ===== *)
(** * ListSort: the merge sort of lib/kernel/list.c

    The loops of list_sort() on the sequence of elements: runs are found,
    neighbouring runs merged in place, and each pass at least halves the
    number of runs.  The routine terminates, leaves a sorted permutation,
    never moves anything outside the list, and its final ASSERT holds. *)

From Stdlib Require Import ZArith Lia Sorted.
From stdpp Require Import base tactics option list numbers gmap fin_sets sorting.
From S2P Require Import Prelude Lists ListSpec.
Import Lists ListSpec.

Module ListSort.

Lemma snoc_app {A} (P : list A) x R : P ++ x :: R = (P ++ [x]) ++ R.
Proof. by rewrite <- app_assoc. Qed.

Lemma tail_node l xs : tail_of l ∈ nodes l xs.
Proof. right. apply elem_of_app. right. left. Qed.

Section loops.
Variable less : Z → Z → bool.

(** ** Ordered runs *)

Lemma sorted_loop_ok n h l P x A Q : is_list h l (P ++ x :: A ++ Q) → (length A <= n)%nat →
  sorted_loop less n x (fst_of Q (tail_of l)) h = Ok (sortedb less x A, h).
Proof.
  revert n P x. induction A as [|y A IH]; intros n P x Hl Hn.
  - destruct n; cbn [sorted_loop]; rewrite (run_list_next h l P x Q) by done;
      by rewrite Z.eqb_refl.
  - destruct n as [|n]; [simpl in Hn; lia|]. cbn [sorted_loop].
    rewrite (run_list_next h l P x ((y :: A) ++ Q)) by done. cbn [app fst_of].
    cbn [app] in Hl. pose proof Hl as Hl'. rewrite snoc_app in Hl'.
    rewrite (proj2 (Z.eqb_neq y _)) by (by eapply cursor_neq).
    rewrite (run_list_prev h l P x (y :: A ++ Q) _ Hl : bind (list_prev y) _ h = _).
    cbn [sortedb]. destruct (less y x); [done|]. apply (IH n (P ++ [x])); [done|simpl in Hn; lia].
Qed.

Lemma is_sorted_ok h l P A Q x : is_list h l (P ++ x :: A ++ Q) →
  is_sorted less x (fst_of Q (tail_of l)) h = Ok (sortedb less x A, h).
Proof.
  intros Hl. unfold is_sorted, bounded. rewrite (proj2 (Z.eqb_neq x _)) by (by eapply cursor_neq).
  cbn [negb]. run. eapply sorted_loop_ok; [done|]. apply list_fuel in Hl.
  rewrite length_app, length_cons, length_app in Hl. lia.
Qed.

Lemma run_loop_ok n h l P x R : is_list h l (P ++ x :: R) → (length R <= n)%nat →
  run_loop less n x (tail_of l) h = Ok (fst_of (run_of less x R).2 (tail_of l), h).
Proof.
  revert n P x. induction R as [|y R IH]; intros n P x Hl Hn.
  - destruct n; cbn [run_loop]; rewrite (run_list_next h l P x []) by done; cbn [fst_of];
      by rewrite Z.eqb_refl.
  - destruct n as [|n]; [simpl in Hn; lia|]. cbn [run_loop].
    rewrite (run_list_next h l P x (y :: R)) by done. cbn [fst_of].
    pose proof Hl as Hl'. rewrite snoc_app in Hl'.
    rewrite (proj2 (Z.eqb_neq y _))
      by (apply (cursor_neq h l (P ++ [x]) y R []); by rewrite app_nil_r).
    rewrite (run_list_prev h l P x (y :: R) _ Hl : bind (list_prev y) _ h = _).
    cbn [run_of]. destruct (less y x); [done|]. cbn [snd].
    apply (IH n (P ++ [x])); [done|simpl in Hn; lia].
Qed.

Lemma find_end_of_run_ok h l P x R : is_list h l (P ++ x :: R) →
  find_end_of_run less x (tail_of l) h = Ok (fst_of (run_of less x R).2 (tail_of l), h).
Proof.
  intros Hl. unfold find_end_of_run, bounded.
  assert (x ≠ NULL) by (eapply node_nonnull; [done|apply elem_node]).
  assert (tail_of l ≠ NULL)
    by (eapply node_nonnull; [done|apply tail_node]).
  assert (x ≠ tail_of l) by (apply (cursor_neq h l P x R []); by rewrite app_nil_r).
  rewrite !bind_assert by (by rewrite negb_true_iff; apply Z.eqb_neq). run.
  eapply run_loop_ok; [done|]. apply list_fuel in Hl. rewrite length_app, length_cons in Hl. lia.
Qed.

(** ** Merging in place *)

Lemma merge_loop_ok n h l P A B S :
  is_list h l (P ++ A ++ B ++ S) → (length A + length B <= n)%nat →
  ∃ h', merge_loop less n (fst_of (A ++ B ++ S) (tail_of l)) (fst_of (B ++ S) (tail_of l))
          (fst_of S (tail_of l)) h = Ok (tt, h') ∧
    is_list h' l (P ++ merge less A B ++ S) ∧ frame h h' (nodes l (P ++ A ++ B ++ S)).
Proof.
  revert h P A B. induction n as [|n IH]; intros h P A B Hl Hn;
    (destruct A as [|a A]; [exists h; cbn [merge_loop app]; rewrite Z.eqb_refl, merge_nil_l;
       split; [done|split; [done|apply frame_refl]]|]);
    (destruct B as [|b B]; [exists h; cbn [merge_loop app]; rewrite Z.eqb_refl, orb_true_r, merge_nil_r;
       split; [done|split; [done|apply frame_refl]]|]); [simpl in Hn; lia|].
  cbn [merge_loop app fst_of]. cbn [app] in Hl.
  assert (is_list h l ((P ++ a :: A) ++ b :: B ++ S)) as Hlb by (by rewrite <- app_assoc).
  rewrite (proj2 (Z.eqb_neq a b)) by (by apply (cursor_neq h l P a A (b :: B ++ S))).
  rewrite (proj2 (Z.eqb_neq b _)) by (by eapply cursor_neq).
  cbn [orb]. rewrite merge_cons. destruct (less b a); cbn [negb].
  - rewrite (run_list_next h l (P ++ a :: A) b (B ++ S)) by done.
    rewrite (run_list_prev h l (P ++ a :: A) b (B ++ S)) by done.
    destruct (splice_elem h l P (a :: A) b (B ++ S)) as (h1 & E1 & Hl1 & F1); [done|exact Hl|].
    cbn [app fst_of] in E1. rewrite (bind_ok _ _ _ _ _ E1). rewrite snoc_app in Hl1.
    destruct (IH h1 (P ++ [b]) (a :: A) B Hl1) as (h2 & E2 & Hl2 & F2); [simpl in *; lia|].
    exists h2. split; [exact E2|]. split; [by rewrite <- app_assoc in Hl2|].
    eapply frame_trans; [exact F1|exact F2|]. intros y. apply nodes_perm.
    rewrite <- app_assoc. cbn [app]. apply Permutation_app_head. symmetry. apply (Permutation_middle (a :: A)).
  - rewrite (run_list_next h l P a (A ++ b :: B ++ S)) by done. rewrite snoc_app in Hl.
    destruct (IH h (P ++ [a]) A (b :: B) Hl) as (h2 & E2 & Hl2 & F2); [simpl in *; lia|].
    exists h2. split; [exact E2|]. rewrite <- !app_assoc in *. by split.
Qed.

(** inplace_merge() of two sorted runs. *)
Lemma inplace_merge_ok h l P a A b B S :
  is_list h l (P ++ (a :: A) ++ (b :: B) ++ S) →
  Sorted (le less) (a :: A) → Sorted (le less) (b :: B) →
  ∃ h', inplace_merge less a b (fst_of S (tail_of l)) h = Ok (tt, h') ∧
    is_list h' l (P ++ merge less (a :: A) (b :: B) ++ S) ∧
    frame h h' (nodes l (P ++ (a :: A) ++ (b :: B) ++ S)).
Proof.
  intros Hl HA HB. assert (is_list h l ((P ++ a :: A) ++ b :: B ++ S)) as Hlb by (by rewrite <- app_assoc).
  assert (a ≠ NULL) by (eapply node_nonnull; [exact Hl|apply elem_node]).
  assert (b ≠ NULL) by (eapply node_nonnull; [exact Hlb|apply elem_node]).
  assert (fst_of S (tail_of l) ≠ NULL).
  { eapply node_nonnull; [exact Hl|]. rewrite !app_assoc. apply cursor_node. }
  unfold inplace_merge, bounded.
  rewrite !bind_assert by (by rewrite negb_true_iff; apply Z.eqb_neq).
  rewrite (bind_ok _ _ _ _ _ (is_sorted_ok h l P A (b :: B ++ S) a Hl)).
  rewrite bind_assert by (by apply sortedb_Sorted).
  rewrite (bind_ok _ _ _ _ _ (is_sorted_ok h l _ B S b Hlb)).
  rewrite bind_assert by (by apply sortedb_Sorted). run.
  apply (merge_loop_ok _ h l P (a :: A) (b :: B) S Hl).
  apply list_fuel in Hl. rewrite !length_app in Hl. lia.
Qed.

(** ** Passes *)

Hypothesis less_asym : ∀ x y, less x y = true → less y x = false.

(** One pass from [R] on: the [k] runs become at most half as many. *)
Lemma pass_loop_ok n h l P R k cnt :
  is_list h l (P ++ R) → pieces less k R → (length R <= n)%nat →
  ∃ ys c h', pass_loop less n l (fst_of R (tail_of l)) cnt h = Ok (cnt + Z.of_nat c, h') ∧
    is_list h' l (P ++ ys) ∧ ys ≡ₚ R ∧ pieces less c ys ∧ (2 * c <= k + 1)%nat ∧
    frame h h' (nodes l (P ++ R)).
Proof.
  revert h P R k cnt. induction n as [|n IH]; intros h P R k cnt Hl Hk Hn;
    (destruct R as [|x R]; [exists [], 0%nat, h; cbn [pass_loop fst_of];
      rewrite (run_list_end _ _ _ _ Hl), Z.eqb_refl; unfold ret;
      replace (cnt + Z.of_nat 0) with cnt by lia;
      split_and!; [done|done|done|by exists []|lia|apply frame_refl]|]); [simpl in Hn; lia|].
  cbn [pass_loop fst_of]. rewrite (run_list_end _ _ _ _ Hl).
  rewrite (proj2 (Z.eqb_neq x _)) by (apply (cursor_neq h l P x R []); by rewrite app_nil_r).
  rewrite (run_list_end _ _ _ _ Hl). rewrite (bind_ok _ _ _ _ _ (find_end_of_run_ok h l P x R Hl)).
  rewrite (run_list_end _ _ _ _ Hl).
  destruct k as [|k]; [by apply pieces_zero in Hk|]. pose proof (pieces_run less k x R Hk) as Hk1.
  pose proof (run_of_sorted less x R) as HsA. pose proof (run_of_app less x R) as ER.
  destruct (run_of less x R) as [A C]. cbn [fst snd] in *. subst R.
  destruct C as [|y C]; cbn [fst_of].
  { exists (x :: A), 1%nat, h. rewrite Z.eqb_refl. unfold ret. rewrite app_nil_r in *.
    split_and!; [done|done|done| |lia|apply frame_refl].
    rewrite <- (app_nil_r (x :: A)). by apply pieces_cons; [|exists []]. }
  rewrite app_comm_cons, app_assoc in Hl.
  rewrite (proj2 (Z.eqb_neq y _)) by (eapply (cursor_neq h l _ y C []); by rewrite app_nil_r).
  rewrite (run_list_end _ _ _ _ Hl). rewrite (bind_ok _ _ _ _ _ (find_end_of_run_ok h l _ y C Hl)).
  destruct k as [|k]; [by apply pieces_zero in Hk1|]. pose proof (pieces_run less k y C Hk1) as Hk2.
  pose proof (run_of_sorted less y C) as HsB. pose proof (run_of_app less y C) as EC.
  destruct (run_of less y C) as [B D]. cbn [fst snd] in *. subst C.
  rewrite <- app_assoc in Hl.
  destruct (inplace_merge_ok h l P x A y B D Hl HsA HsB) as (h1 & E1 & Hl1 & F1).
  rewrite (bind_ok _ _ _ _ _ E1). rewrite app_assoc in Hl1.
  destruct (IH h1 _ D k (cnt + 1) Hl1 Hk2) as (ys & c & h2 & E2 & Hl2 & Hp & Hc & Hk' & F2).
  { rewrite !length_cons, !length_app, length_cons, length_app in Hn. lia. }
  exists (merge less (x :: A) (y :: B) ++ ys), (S c), h2. split_and!.
  - rewrite E2. do 2 f_equal. lia.
  - by rewrite app_assoc.
  - rewrite Hp, merge_perm. by rewrite <- app_assoc.
  - apply pieces_cons; [|done]. by apply merge_sorted.
  - lia.
  - eapply frame_trans; [exact F1|exact F2|]. intros z. apply nodes_perm.
    rewrite <- app_assoc, merge_perm, <- app_assoc. done.
Qed.

(** Passes until one run is left. *)
Lemma sort_loop_ok n h l xs k : is_list h l xs → pieces less k xs → (k < n)%nat →
  ∃ ys h', sort_loop less n l h = Ok (tt, h') ∧ is_list h' l ys ∧ ys ≡ₚ xs ∧
    Sorted (le less) ys ∧ frame h h' (nodes l xs).
Proof.
  revert h xs k. induction n as [|n IH]; intros h xs k Hl Hk Hn; [lia|].
  cbn [sort_loop]. rewrite (run_list_begin _ _ _ _ Hl). unfold bounded. run.
  destruct (pass_loop_ok (S (size h)) h l [] xs k 0 Hl Hk) as (ys & c & h1 & E & Hl1 & Hp & Hc & Hkc & F).
  { apply list_fuel in Hl. lia. }
  rewrite (bind_ok _ _ _ _ _ E). cbn [app] in *. rewrite Z.gtb_ltb. destruct (Z.ltb_spec 1 (0 + Z.of_nat c)).
  - destruct (IH h1 ys c Hl1 Hc) as (zs & h2 & E2 & Hl2 & Hp2 & Hs2 & F2); [lia|].
    exists zs, h2. split_and!; [done|done|by rewrite Hp2|done|].
    eapply frame_trans; [exact F|exact F2|]. intros y. by apply nodes_perm.
  - exists ys, h1. split_and!; [done|done|done| |done].
    destruct c as [|[|c]]; [apply pieces_zero in Hc as ->; constructor|by apply pieces_one|lia].
Qed.

End loops.

(** ** The property *)

(** C18. list_sort() on any list, with any asymmetric comparison function,
    returns: its passes end, none of its ASSERTs fails and the bound on each
    loop is never reached.  The list then holds the same elements, sorted,
    properly linked in both directions; nothing outside the list's own
    elements has changed. *)
Theorem list_sort_sorts less h l xs :
  (∀ x y, less x y = true → less y x = false) → is_list h l xs →
  ∃ ys h', list_sort less l h = Ok (tt, h') ∧ is_list h' l ys ∧ ys ≡ₚ xs ∧
    Sorted (λ x y, less y x = false) ys ∧ (∀ q, q ∉ nodes l xs → h' !! q = h !! q).
Proof.
  intros Hasym Hl. unfold list_sort, bounded.
  assert (l ≠ NULL) by (eapply (node_nonnull h l xs); [done|left]).
  rewrite bind_assert by (by rewrite negb_true_iff; apply Z.eqb_neq). run.
  destruct (sort_loop_ok less Hasym (S (size h)) h l xs (length xs)) as (ys & h' & E & Hl' & Hp & Hs & F);
    [done|apply pieces_singletons|apply list_fuel in Hl; lia|].
  rewrite (bind_ok _ _ _ _ _ E). rewrite (run_list_begin _ _ _ _ Hl'), (run_list_end _ _ _ _ Hl').
  exists ys, h'. split; [|split_and!; [done|done|done|apply F]].
  destruct ys as [|y ys]; cbn [fst_of].
  - unfold is_sorted. by rewrite Z.eqb_refl.
  - assert (is_list h' l ([] ++ y :: ys ++ [])) as Hl'' by (by rewrite app_nil_r).
    rewrite (bind_ok _ _ _ _ _ (is_sorted_ok less h' l [] ys [] y Hl'')).
    by rewrite (proj2 (sortedb_Sorted less y ys) Hs).
Qed.

(** A list at 100 with three elements, compared by their addresses modulo
    7. *)
Definition demo_heap : heap :=
  list_to_map [(100, mk_elem 0 200); (200, mk_elem 100 300); (300, mk_elem 200 400);
               (400, mk_elem 300 108); (108, mk_elem 400 0); (500, mk_elem 0 0)].

Lemma demo_is_list : is_list demo_heap 100 [200; 300; 400].
Proof. split; [vm_compute; tauto|apply (bool_decide_unpack _); vm_compute; exact I|reflexivity..]. Qed.

Lemma list_sort_sorts_witness :
  ∃ ys h', list_sort (λ x y, x mod 7 <? y mod 7) 100 demo_heap = Ok (tt, h') ∧ is_list h' 100 ys ∧
    ys ≡ₚ [200; 300; 400] ∧ Sorted (λ x y, (y mod 7 <? x mod 7) = false) ys ∧
    (∀ q, q ∉ nodes 100 [200; 300; 400] → h' !! q = demo_heap !! q).
Proof.
  apply (list_sort_sorts (λ x y, x mod 7 <? y mod 7)).
  - intros x y H%Z.ltb_lt. apply Z.ltb_ge. lia.
  - apply demo_is_list.
Defined.

End ListSort.
