(* ===== verification/ListOps.v ===== *)
(** * ListOps: the operations of lib/kernel/list.c refine a sequence

    Pushing, popping, removing, ordered insertion and counting, first one by
    one and then as a refinement: any program over one list behaves as the
    same program over a sequence of elements, down to the failing ASSERT when
    an empty list is popped. *)

From Stdlib Require Import ZArith Lia Sorted.
From stdpp Require Import base tactics option list numbers gmap sorting.
From S2P Require Import Prelude Lists ListSpec ListSort.
Import Lists ListSpec ListSort.

Module ListOps.

(** Memory that agrees on the nodes still holds the list. *)
Lemma is_list_ext h h' l xs :
  is_list h l xs → (∀ q, q ∈ nodes l xs → h' !! q = h !! q) → h' !! NULL = None → is_list h' l xs.
Proof.
  intros Hl Heq Hnull.
  assert (∀ q, q ∈ nodes l xs → nx h' q = nx h q) as Hn by (intros q Hq; unfold nx; by rewrite Heq).
  assert (∀ q, q ∈ nodes l xs → pv h' q = pv h q) as Hp by (intros q Hq; unfold pv; by rewrite Heq).
  split; [by eapply chain_ext; [apply Hl|..]|apply Hl|done| |].
  - rewrite Hp; [apply Hl|left].
  - rewrite Hn; [apply Hl|]. unfold nodes. right. apply elem_of_app. right. left.
Qed.

(** ** One operation at a time *)

Lemma list_init_ok h l : l ≠ NULL → h !! NULL = None → is_Some (h !! l) → is_Some (h !! tail_of l) →
  ∃ h', list_init l h = Ok (tt, h') ∧ is_list h' l [] ∧ frame h h' [l; tail_of l].
Proof.
  intros Hl Hnull H1 H2. unfold list_init, head_of.
  rewrite bind_assert by (by rewrite (proj2 (Z.eqb_neq l NULL))).
  assert (l ≠ tail_of l) as Hne by (unfold tail_of; lia).
  rewrite run_set_prev by done. rewrite run_set_next by (by rewrite is_Some_hprev).
  rewrite run_set_prev by (by rewrite is_Some_hnext, is_Some_hprev).
  rewrite set_next_eq by (by rewrite is_Some_hprev, is_Some_hnext, is_Some_hprev).
  eexists. split; [done|].
  set (h1 := hprev l NULL h). set (h2 := hnext l (tail_of l) h1). set (h3 := hprev (tail_of l) l h2).
  assert (is_Some (h1 !! l)) by (by apply is_Some_hprev).
  assert (is_Some (h2 !! tail_of l)) by (by apply is_Some_hnext, is_Some_hprev).
  assert (is_Some (h3 !! tail_of l)) by (by apply is_Some_hprev).
  assert (h !! l ≠ None) by (by apply not_eq_None_Some).
  split; [split|split].
  - cbn [app chain]. split; [split|done].
    + rewrite nx_hnext, decide_False by done. unfold h3. rewrite nx_hprev. unfold h2.
      by rewrite nx_hnext, decide_True by done.
    + rewrite pv_hnext. unfold h3. by rewrite pv_hprev, decide_True by done.
  - cbn [app]. constructor; [|apply NoDup_singleton]. by rewrite list_elem_of_singleton.
  - assert (NULL ≠ l ∧ NULL ≠ tail_of l) as [? Ht] by (split; [done|intros E; rewrite <- E, Hnull in H2; by destruct H2]).
    rewrite hnext_other by done. unfold h3. rewrite hprev_other by done. unfold h2.
    rewrite hnext_other by done. unfold h1. by rewrite hprev_other by done.
  - rewrite pv_hnext. unfold h3. rewrite pv_hprev, decide_False by done. unfold h2. rewrite pv_hnext.
    unfold h1. by rewrite pv_hprev, decide_True by done.
  - by rewrite nx_hnext, decide_True by done.
  - intros q Hq. rewrite !elem_of_cons in Hq. rewrite hnext_other by tauto. unfold h3.
    rewrite hprev_other by tauto. unfold h2. rewrite hnext_other by tauto. unfold h1. by rewrite hprev_other by tauto.
  - intros q. rewrite is_Some_hnext. unfold h3. rewrite is_Some_hprev. unfold h2.
    rewrite is_Some_hnext. unfold h1. by rewrite is_Some_hprev.
Qed.


Section ops.
Context (h : heap) (l : Z).

Lemma push_front_ok xs e : is_list h l xs → e ∉ nodes l xs → is_Some (h !! e) →
  ∃ h', list_push_front l e h = Ok (tt, h') ∧ is_list h' l (e :: xs) ∧ frame h h' (e :: nodes l xs).
Proof.
  intros Hl He Hs. unfold list_push_front. rewrite (run_list_begin _ _ _ _ Hl).
  by apply (insert_ok h l [] xs e).
Qed.

Lemma push_back_ok xs e : is_list h l xs → e ∉ nodes l xs → is_Some (h !! e) →
  ∃ h', list_push_back l e h = Ok (tt, h') ∧ is_list h' l (xs ++ [e]) ∧ frame h h' (e :: nodes l xs).
Proof.
  intros Hl He Hs. unfold list_push_back. rewrite (run_list_end _ _ _ _ Hl).
  destruct (insert_ok h l xs [] e) as (h' & E & Hl' & F); [by rewrite ?app_nil_r..|].
  rewrite app_nil_r in F. by exists h'.
Qed.

Lemma list_empty_ok xs : is_list h l xs →
  list_empty l h = Ok (bool_decide (xs = []), h).
Proof.
  intros Hl. unfold list_empty. rewrite (run_list_begin _ _ _ _ Hl), (run_list_end _ _ _ _ Hl).
  destruct xs as [|x xs]; cbn [fst_of]; [by rewrite Z.eqb_refl|].
  by rewrite (proj2 (Z.eqb_neq x _)) by (apply (cursor_neq h l [] x xs []); by rewrite app_nil_r).
Qed.

Lemma pop_front_ok x xs : is_list h l (x :: xs) →
  ∃ h', list_pop_front l h = Ok (x, h') ∧ is_list h' l xs ∧ frame h h' (nodes l (x :: xs)).
Proof.
  intros Hl. unfold list_pop_front, list_front. run. rewrite (bind_ok _ _ _ _ _ (list_empty_ok _ Hl)).
  run. rewrite bind_assert by done.
  rewrite (run_next h l x) by (pose proof (il_chain _ _ _ Hl) as Hc; apply Hc).
  destruct (remove_ok h l [] x xs Hl) as (a & _ & _ & E & Hl' & F & _).
  rewrite (bind_ok _ _ _ _ _ E). eexists. split; [done|]. by split.
Qed.

Lemma pop_back_ok xs x : is_list h l (xs ++ [x]) →
  ∃ h', list_pop_back l h = Ok (x, h') ∧ is_list h' l xs ∧ frame h h' (nodes l (xs ++ [x])).
Proof.
  intros Hl. unfold list_pop_back, list_back. run. rewrite (bind_ok _ _ _ _ _ (list_empty_ok _ Hl)).
  run. rewrite bind_assert by (by destruct xs).
  rewrite (run_prev h (tail_of l) x) by (by apply (pred_of h l xs x [])).
  destruct (remove_ok h l xs x [] Hl) as (a & _ & _ & E & Hl' & F & _).
  rewrite (bind_ok _ _ _ _ _ E). rewrite app_nil_r in Hl'. eexists. split; [done|]. by split.
Qed.

Lemma pop_empty : is_list h l [] → list_pop_front l h = Panic ∧ list_pop_back l h = Panic.
Proof.
  intros Hl. unfold list_pop_front, list_pop_back, list_front, list_back.
  split; run; by rewrite (bind_ok _ _ _ _ _ (list_empty_ok _ Hl)).
Qed.

Lemma size_loop_ok n xs ys cnt : is_list h l (xs ++ ys) → (length ys <= n)%nat →
  size_loop n (fst_of ys (tail_of l)) (tail_of l) cnt h = Ok (cnt + zlen ys, h).
Proof.
  revert xs cnt n. induction ys as [|y ys IH]; intros xs cnt n Hl Hn.
  - destruct n; cbn [size_loop fst_of]; rewrite Z.eqb_refl; unfold ret, zlen; simpl;
      by rewrite Z.add_0_r.
  - destruct n as [|n]; [simpl in Hn; lia|]. cbn [size_loop fst_of].
    rewrite (proj2 (Z.eqb_neq y _)) by (apply (cursor_neq h l xs y ys []); by rewrite app_nil_r).
    rewrite (run_list_next h l xs y ys) by done. rewrite snoc_app in Hl.
    rewrite (IH (xs ++ [y])) by (done || (simpl in Hn; lia)).
    unfold zlen. rewrite length_cons. do 2 f_equal. lia.
Qed.

Lemma list_size_ok xs : is_list h l xs → list_size l h = Ok (zlen xs, h).
Proof.
  intros Hl. unfold list_size, bounded.
  rewrite (run_list_begin _ _ _ _ Hl), (run_list_end _ _ _ _ Hl). run.
  apply (size_loop_ok _ []); [done|]. apply list_fuel in Hl. lia.
Qed.

(** *** Ordered insertion *)

Section ordered.
Variable less : Z → Z → bool.

(** The elements [e] goes after, and those it goes before. *)
Fixpoint place (e : Z) (xs : list Z) : list Z * list Z :=
  match xs with
  | [] => ([], [])
  | x :: xs' => if less e x then ([], xs) else let r := place e xs' in (x :: r.1, r.2)
  end.

Lemma place_app e xs : xs = (place e xs).1 ++ (place e xs).2.
Proof.
  induction xs as [|x xs IH]; [done|]. cbn [place]. destruct (less e x); [done|].
  cbn [fst snd app]. by rewrite <- IH.
Qed.

Lemma place_before e xs x : x ∈ (place e xs).1 → less e x = false.
Proof.
  induction xs as [|y xs IH]; cbn [place]; [by intros ?%elem_of_nil|].
  destruct (less e y) eqn:E; cbn [fst]; [by intros ?%elem_of_nil|].
  rewrite elem_of_cons. intros [->|H]; auto.
Qed.

Lemma place_after e xs x R : (place e xs).2 = x :: R → less e x = true.
Proof.
  induction xs as [|y xs IH]; cbn [place]; [done|]. destruct (less e y) eqn:E; cbn [snd]; [|done].
  by intros [= -> ->].
Qed.

Lemma place_sorted e xs : (∀ x y, less x y = true → less y x = false) →
  Sorted (le less) xs → Sorted (le less) ((place e xs).1 ++ e :: (place e xs).2).
Proof.
  intros Hasym Hs. induction Hs as [|x xs Hs IH Hx]; cbn [place]; [repeat constructor|].
  destruct (less e x) eqn:E; cbn [fst snd app].
  - constructor; [by constructor|]. constructor. by apply Hasym.
  - constructor; [exact IH|]. destruct xs as [|y xs]; cbn [place]; [by constructor|].
    destruct (less e y); [by constructor|]. apply HdRel_inv in Hx. by constructor.
Qed.

Lemma position_loop_ok n e P xs : is_list h l (P ++ xs) → (length xs <= n)%nat →
  position_loop less n e (fst_of xs (tail_of l)) (tail_of l) h =
    Ok (fst_of (place e xs).2 (tail_of l), h).
Proof.
  revert P n. induction xs as [|x xs IH]; intros P n Hl Hn.
  - destruct n; cbn [position_loop fst_of]; by rewrite Z.eqb_refl.
  - destruct n as [|n]; [simpl in Hn; lia|]. cbn [position_loop fst_of].
    rewrite (proj2 (Z.eqb_neq x _)) by (apply (cursor_neq h l P x xs []); by rewrite app_nil_r).
    cbn [place]. destruct (less e x); [done|]. cbn [snd].
    rewrite (run_list_next h l P x xs) by done. rewrite snoc_app in Hl.
    apply (IH (P ++ [x])); [done|]. simpl in Hn; lia.
Qed.

Lemma insert_ordered_ok xs e : is_list h l xs → e ∉ nodes l xs → is_Some (h !! e) →
  ∃ h', list_insert_ordered less l e h = Ok (tt, h') ∧
    is_list h' l ((place e xs).1 ++ e :: (place e xs).2) ∧ frame h h' (e :: nodes l xs).
Proof.
  intros Hl He Hs. unfold list_insert_ordered, bounded.
  assert (l ≠ NULL) by (eapply (node_nonnull h l xs); [done|left]).
  assert (e ≠ NULL) by (intros ->; destruct Hs as [? Hx]; by rewrite (il_null _ _ _ Hl) in Hx).
  rewrite !bind_assert by (by rewrite negb_true_iff; apply Z.eqb_neq).
  rewrite (run_list_begin _ _ _ _ Hl), (run_list_end _ _ _ _ Hl). run.
  assert (length xs <= S (size h))%nat as Hfuel by (apply list_fuel in Hl; lia).
  rewrite (bind_ok _ _ _ _ _ (position_loop_ok _ e [] xs Hl Hfuel)).
  pose proof (place_app e xs) as E. rewrite E in Hl, He.
  destruct (insert_ok _ _ _ _ _ Hl He Hs) as (h' & E' & Hl' & F). rewrite <- E in F. by exists h'.
Qed.
End ordered.
End ops.

(** ** Programs over one list *)

Inductive op :=
| PushFront (e : Z)
| PushBack (e : Z)
| PopFront
| PopBack
| Remove (e : Z)
| InsertOrdered (e : Z)
| Size.

Section programs.
Variable less : Z → Z → bool.

(** The operation of the code; those without a result give 0. *)
Definition exec (l : Z) (o : op) : M heap Z :=
  match o with
  | PushFront e => list_push_front l e;;; ret 0
  | PushBack e => list_push_back l e;;; ret 0
  | PopFront => list_pop_front l
  | PopBack => list_pop_back l
  | Remove e => list_remove e;;; ret 0
  | InsertOrdered e => list_insert_ordered less l e;;; ret 0
  | Size => list_size l
  end.

(** The same on a sequence.  Popping an empty sequence stops the machine;
    linking an element that is in the list already, or unlinking one that is
    not, is outside the contract ([Fault]). *)
Definition spec (o : op) : M (list Z) Z :=
  let* xs := get in
  match o with
  | PushFront e =>
      if decide (e ∈ xs) then fault else modify (cons e);;; ret 0
  | PushBack e =>
      if decide (e ∈ xs) then fault else modify (λ xs, xs ++ [e]);;; ret 0
  | PopFront =>
      match xs with [] => panic | x :: t => modify (λ _, t);;; ret x end
  | PopBack =>
      match reverse xs with [] => panic | x :: t => modify (λ _, reverse t);;; ret x end
  | Remove e =>
      if decide (e ∈ xs) then modify (filter (λ x, x ≠ e));;; ret 0 else fault
  | InsertOrdered e =>
      if decide (e ∈ xs) then fault
      else modify (λ xs, (place less e xs).1 ++ e :: (place less e xs).2);;; ret 0
  | Size => ret (zlen xs)
  end.

Fixpoint program {S} (f : op → M S Z) (os : list op) : M S (list Z) :=
  match os with
  | [] => ret []
  | o :: os => let* r := f o in let* rs := program f os in ret (r :: rs)
  end.

(** The elements a program links are list elements in memory, other than
    the list's own ends. *)
Definition linkable (h : heap) (l : Z) (o : op) : Prop :=
  match o with
  | PushFront e | PushBack e | InsertOrdered e => is_Some (h !! e) ∧ e ≠ l ∧ e ≠ tail_of l
  | _ => True
  end.

(** What the sequence does, the list does. *)
Definition simulates (h : heap) (l : Z) {A} (c : outcome heap A) (s : outcome (list Z) A) : Prop :=
  match s with
  | Ok (r, ys) => ∃ h', c = Ok (r, h') ∧ is_list h' l ys ∧ ∀ q, is_Some (h' !! q) ↔ is_Some (h !! q)
  | Panic => c = Panic
  | _ => True
  end.

Lemma not_node l xs e : e ∉ xs → e ≠ l → e ≠ tail_of l → e ∉ nodes l xs.
Proof. unfold nodes. rewrite elem_of_cons, elem_of_app, list_elem_of_singleton. tauto. Qed.

Lemma linked_ok h l ns (m : M heap unit) ys :
  (∃ h', m h = Ok (tt, h') ∧ is_list h' l ys ∧ frame h h' ns) →
  simulates h l ((m;;; ret 0) h) (Ok (0, ys)).
Proof. intros (h' & E & Hl & F). exists h'. rewrite (bind_ok _ _ _ _ _ E). split_and!; [done|done|apply F]. Qed.

Lemma filter_absent (xs : list Z) x : x ∉ xs → filter (λ y, y ≠ x) xs = xs.
Proof.
  induction xs as [|y xs IH]; [done|]. intros [Hy Hxs]%not_elem_of_cons.
  rewrite filter_cons_True by done. by rewrite IH.
Qed.

Lemma filter_out (xs ys : list Z) x : NoDup (xs ++ x :: ys) → filter (λ y, y ≠ x) (xs ++ x :: ys) = xs ++ ys.
Proof.
  intros (_ & Hd & [Hx _]%NoDup_cons)%NoDup_app. rewrite filter_app, filter_cons_False by tauto.
  rewrite !filter_absent; [done|done|]. intros Hy. apply (Hd _ Hy). left.
Qed.

Lemma elems_nodup h l xs : is_list h l xs → NoDup xs.
Proof. intros Hl. pose proof (il_nodup _ _ _ Hl) as [_ Hnd]%NoDup_cons. by apply NoDup_app in Hnd as [? _]. Qed.

Lemma exec_ok h l xs o : is_list h l xs → linkable h l o →
  simulates h l (exec l o h) (spec o xs).
Proof.
  intros Hl Hlk. unfold spec, exec. run. destruct o; cbn [linkable] in Hlk.
  - case_decide; [done|]. destruct Hlk as (? & ? & ?).
    eapply linked_ok, push_front_ok; [done| |done]. by apply not_node.
  - case_decide; [done|]. destruct Hlk as (? & ? & ?).
    eapply linked_ok, push_back_ok; [done| |done]. by apply not_node.
  - destruct xs as [|x xs]; [by apply pop_empty|].
    destruct (pop_front_ok _ _ _ _ Hl) as (h' & E & Hl' & F). exists h'. split_and!; [done|done|apply F].
  - destruct (reverse xs) as [|x t] eqn:Er.
    + apply (f_equal reverse) in Er. rewrite reverse_involutive in Er. subst. by apply pop_empty.
    + apply (f_equal reverse) in Er. rewrite reverse_involutive, reverse_cons in Er. subst.
      destruct (pop_back_ok _ _ _ _ Hl) as (h' & E & Hl' & F). exists h'. split_and!; [done|done|apply F].
  - case_decide as Hin; [|done]. pose proof (elems_nodup _ _ _ Hl) as Hnd.
    apply list_elem_of_split in Hin as (xs1 & xs2 & ->).
    destruct (remove_ok h l xs1 e xs2 Hl) as (a & _ & _ & E & Hl' & F & _).
    run. rewrite (bind_ok _ _ _ _ _ E). eexists. split; [done|]. split; [|apply F].
    by rewrite filter_out.
  - case_decide; [done|]. destruct Hlk as (? & ? & ?).
    eapply linked_ok, insert_ordered_ok; [done| |done]. by apply not_node.
  - exists h. by rewrite (list_size_ok _ _ _ Hl).
Qed.

End programs.

(** ** Properties *)

(** C19. The list of lib/kernel/list.c is a sequence: any program of pushes,
    pops, removals, ordered insertions and size queries over one list gives
    the results of the same program over a mathematical sequence, and leaves
    a properly linked list of that sequence's elements.  Popping an empty
    list fails the ASSERT and does nothing else. *)
Theorem list_refines_sequence less l os h xs :
  is_list h l xs → Forall (linkable h l) os →
  match program (spec less) os xs with
  | Ok (rs, ys) => ∃ h', program (exec less l) os h = Ok (rs, h') ∧ is_list h' l ys
  | Panic => program (exec less l) os h = Panic
  | _ => True
  end.
Proof.
  revert h xs. induction os as [|o os IH]; intros h xs Hl Hok; [by exists h|].
  apply Forall_cons in Hok as [Ho Hos]. cbn [program]. unfold bind at 1.
  pose proof (exec_ok less h l xs o Hl Ho) as Hs. destruct (spec less o xs) as [[r ys]| | | |]; cbn [obind]; try done.
  - destruct Hs as (h1 & E & Hl1 & Hd). specialize (IH h1 ys Hl1).
    rewrite !(bind_ok _ _ _ _ _ E). unfold bind.
    assert (Forall (linkable h1 l) os) as Hos'.
    { eapply Forall_impl; [exact Hos|]. intros []; cbn [linkable]; by rewrite ?Hd. }
    specialize (IH Hos'). destruct (program (spec less) os ys) as [[rs zs]| | | |]; cbn [obind]; try done.
    + destruct IH as (h2 & E2 & Hl2). exists h2. by rewrite E2.
    + by rewrite IH.
  - cbn [simulates] in Hs. unfold bind. by rewrite Hs.
Qed.

Lemma list_refines_sequence_witness :
  ∃ h', program (exec Z.ltb 100) [PushFront 500; PopBack; Size] demo_heap = Ok ([0; 400; 3], h') ∧
    is_list h' 100 [500; 200; 300].
Proof.
  refine (list_refines_sequence Z.ltb 100 [PushFront 500; PopBack; Size] demo_heap [200; 300; 400] _ _).
  - apply demo_is_list.
  - constructor; [|constructor; [exact I|constructor; [exact I|constructor]]].
    split; [|split; discriminate]. exists (mk_elem 0 0). reflexivity.
Defined.

(** list_insert_ordered() into a sorted list keeps it sorted, and puts the
    element behind every element it is not less than: the elements before it
    are not greater, the one after it is greater, so equal elements stay in
    the order of their insertion. *)
Theorem list_insert_ordered_sorted less h l xs e :
  (∀ x y, less x y = true → less y x = false) → is_list h l xs →
  Sorted (λ x y, less y x = false) xs → e ∉ nodes l xs → is_Some (h !! e) →
  ∃ xs1 xs2 h', xs = xs1 ++ xs2 ∧ list_insert_ordered less l e h = Ok (tt, h') ∧
    is_list h' l (xs1 ++ e :: xs2) ∧ Sorted (λ x y, less y x = false) (xs1 ++ e :: xs2) ∧
    (∀ x, x ∈ xs1 → less e x = false) ∧ (∀ x R, xs2 = x :: R → less e x = true).
Proof.
  intros Hasym Hl Hs He Hes. destruct (insert_ordered_ok h l less xs e Hl He Hes) as (h' & E & Hl' & F).
  exists (place less e xs).1, (place less e xs).2, h'. split_and!; [apply place_app|done|done|..].
  - by apply place_sorted.
  - intros x. apply place_before.
  - intros x R. apply place_after.
Qed.

Lemma list_insert_ordered_sorted_witness :
  ∃ xs1 xs2 h', [200; 300; 400] = xs1 ++ xs2 ∧
    list_insert_ordered Z.ltb 100 500 demo_heap = Ok (tt, h') ∧
    is_list h' 100 (xs1 ++ 500 :: xs2) ∧ Sorted (λ x y, (y <? x) = false) (xs1 ++ 500 :: xs2) ∧
    (∀ x, x ∈ xs1 → (500 <? x) = false) ∧ (∀ x R, xs2 = x :: R → (500 <? x) = true).
Proof.
  apply (list_insert_ordered_sorted Z.ltb).
  - intros x y H%Z.ltb_lt. apply Z.ltb_ge. lia.
  - apply demo_is_list.
  - repeat constructor.
  - apply (bool_decide_unpack _). vm_compute. exact I.
  - exists (mk_elem 0 0). reflexivity.
Defined.

End ListOps.
