(* ===== verification/Hash.v ===== *)
(** * Hash: hash tables (lib/kernel/hash.c)

    A table is an array of doubly linked lists, indexed by the low bits of
    the hash value; the array is replaced when the number of elements per
    bucket leaves its bounds.  [hstate] holds the list elements in memory, the
    [struct hash], and what malloc() will do: [oom] says of each call whether
    memory is short, and [brk] is the address of the next block.  An element
    is named by the address of its [struct hash_elem], whose only member is
    the list element.  The hash and comparison functions the table is given
    are pure functions of elements.  Freed buckets leave the memory, so that
    using them is a [Fault]. *)

From Stdlib Require Import ZArith Lia.
From stdpp Require Import base tactics option list numbers gmap.
From S2P Require Import Prelude Memory CString Lists.
Import Memory CString Lists.

Module Hash.

(** ** Data *)

Record hash := mk_hash {
  elem_cnt : Z;
  bucket_cnt : Z;
  buckets : Z
}.

Record hstate := mk_hstate {
  hheap : gmap Z list_elem;
  brk : Z;
  oom : list bool;
  tab : hash
}.

Record hash_iterator := mk_iter {
  it_bucket : Z;
  it_elem : Z
}.

Definition on_heap {A} (m : M heap A) : M hstate A :=
  lift hheap (λ h s, mk_hstate h (brk s) (oom s) (tab s)) m.
Definition set_tab (t : hash) : M hstate unit :=
  modify (λ s, mk_hstate (hheap s) (brk s) (oom s) t).

(** The list elements of an array of [n] lists at [a]: two per list. *)
Fixpoint storage (a : Z) (n : nat) : list Z :=
  match n with
  | O => []
  | S n => head_of a :: tail_of a :: storage (a + 16) n
  end.

(** malloc (16 * n): a null pointer, or an array of [n] uninitialised lists
    that nothing else uses. *)
Definition malloc_lists (n : Z) : M hstate Z :=
  let* s := get in
  let fails := match oom s with [] => false | b :: _ => b end in
  if fails || (4294967296 <=? brk s + 16 * n) then
    modify (λ s, mk_hstate (hheap s) (brk s) (tail (oom s)) (tab s));;; ret NULL
  else
    modify (λ s, mk_hstate (foldr (λ q, <[q := mk_elem NULL NULL]>) (hheap s) (storage (brk s) (Z.to_nat n)))
                   (brk s + 16 * n) (tail (oom s)) (tab s));;;
    ret (brk s).

(** free (a), for an array of [n] lists. *)
Definition free_lists (a n : Z) : M hstate unit :=
  if a =? NULL then ret tt
  else modify (λ s, mk_hstate (foldr delete (hheap s) (storage a (Z.to_nat n))) (brk s) (oom s) (tab s)).

(** ** Buckets *)

Section table.
(** [h->hash (e, h->aux)] and [h->less (a, b, h->aux)]. *)
Variable hashf : Z → Z.
Variable less : Z → Z → bool.

Definition find_bucket (e : Z) : M hstate Z :=
  let* t := gets tab in
  let bucket_idx := Z.land (hashf e) (u32 (bucket_cnt t - 1)) in
  ret (buckets t + 16 * bucket_idx).

Fixpoint find_loop (n : nat) (i bucket e : Z) : M heap Z :=
  let* en := list_end bucket in
  if i =? en then ret NULL
  else
    match n with
    | O => no_fuel
    | S n =>
        if negb (less i e) && negb (less e i) then ret i
        else let* i := list_next i in find_loop n i bucket e
    end.

Definition find_elem (bucket e : Z) : M hstate Z :=
  on_heap (let* i := list_begin bucket in bounded (λ n, find_loop n i bucket e)).

Definition insert_elem (bucket e : Z) : M hstate unit :=
  let* t := gets tab in
  set_tab (mk_hash (u32 (elem_cnt t + 1)) (bucket_cnt t) (buckets t));;;
  on_heap (list_push_front bucket e).

Definition remove_elem (e : Z) : M hstate unit :=
  let* t := gets tab in
  set_tab (mk_hash (u32 (elem_cnt t - 1)) (bucket_cnt t) (buckets t));;;
  on_heap (list_remove e);;; ret tt.

(** ** Rehashing *)

Definition turn_off_least_1bit (x : Z) : Z := Z.land x (u32 (x - 1)).
Definition is_power_of_2 (x : Z) : bool := negb (x =? 0) && (turn_off_least_1bit x =? 0).

Definition MIN_BUCKETS : Z := 4.
Definition BEST_ELEMS_PER_BUCKET : Z := 2.

(** Each iteration clears a bit of a 32-bit number. *)
Fixpoint power_loop (n : nat) (x : Z) : option Z :=
  if is_power_of_2 x then Some x
  else match n with O => None | S n => power_loop n (turn_off_least_1bit x) end.

Fixpoint init_loop (n : nat) (a : Z) : M heap unit :=
  match n with
  | O => ret tt
  | S n => list_init a;;; init_loop n (a + 16)
  end.

Fixpoint move_loop (n : nat) (elem old_bucket : Z) : M hstate unit :=
  let* en := on_heap (list_end old_bucket) in
  if elem =? en then ret tt
  else
    match n with
    | O => no_fuel
    | S n =>
        let* new_bucket := find_bucket elem in
        let* next := on_heap (list_next elem) in
        on_heap (list_remove elem);;;
        on_heap (list_push_front new_bucket elem);;;
        move_loop n next old_bucket
    end.

Fixpoint rehash_loop (n : nat) (old_bucket : Z) : M hstate unit :=
  match n with
  | O => ret tt
  | S n =>
      let* s := get in
      let* elem := on_heap (list_begin old_bucket) in
      move_loop (S (size (hheap s))) elem old_bucket;;;
      rehash_loop n (old_bucket + 16)
  end.

Definition rehash : M hstate unit :=
  let* t := gets tab in
  let old_buckets := buckets t in
  let old_bucket_cnt := bucket_cnt t in
  let new_bucket_cnt := elem_cnt t / BEST_ELEMS_PER_BUCKET in
  let new_bucket_cnt := if new_bucket_cnt <? MIN_BUCKETS then MIN_BUCKETS else new_bucket_cnt in
  match power_loop 32 new_bucket_cnt with
  | None => no_fuel
  | Some new_bucket_cnt =>
      if new_bucket_cnt =? old_bucket_cnt then ret tt
      else
        let* new_buckets := malloc_lists new_bucket_cnt in
        if new_buckets =? NULL then ret tt
        else
          on_heap (init_loop (Z.to_nat new_bucket_cnt) new_buckets);;;
          set_tab (mk_hash (elem_cnt t) new_bucket_cnt new_buckets);;;
          rehash_loop (Z.to_nat old_bucket_cnt) old_buckets;;;
          free_lists old_buckets old_bucket_cnt
  end.

(** ** Life cycle *)

(** The loop of hash_clear() over one bucket. *)
Fixpoint drain (n : nat) (destructor : Z → M hstate unit) (bucket : Z) : M hstate unit :=
  let* e := on_heap (list_empty bucket) in
  if e : bool then ret tt
  else
    match n with
    | O => no_fuel
    | S n =>
        let* elem := on_heap (list_pop_front bucket) in
        destructor elem;;;
        drain n destructor bucket
    end.

Fixpoint clear_loop (n : nat) (destructor : option (Z → M hstate unit)) (bucket : Z) : M hstate unit :=
  match n with
  | O => ret tt
  | S n =>
      (match destructor with
       | Some d => let* s := get in drain (S (size (hheap s))) d bucket
       | None => ret tt
       end);;;
      on_heap (list_init bucket);;;
      clear_loop n destructor (bucket + 16)
  end.

Definition hash_clear (destructor : option (Z → M hstate unit)) : M hstate unit :=
  let* t := gets tab in
  clear_loop (Z.to_nat (bucket_cnt t)) destructor (buckets t);;;
  let* t := gets tab in
  set_tab (mk_hash 0 (bucket_cnt t) (buckets t)).

Definition hash_init : M hstate bool :=
  let* t := gets tab in
  set_tab (mk_hash 0 MIN_BUCKETS (buckets t));;;
  let* b := malloc_lists MIN_BUCKETS in
  set_tab (mk_hash 0 MIN_BUCKETS b);;;
  if negb (b =? NULL) then hash_clear None;;; ret true else ret false.

Definition hash_destroy (destructor : option (Z → M hstate unit)) : M hstate unit :=
  (match destructor with Some _ => hash_clear destructor | None => ret tt end);;;
  let* t := gets tab in
  free_lists (buckets t) (bucket_cnt t).

(** ** Search, insertion, deletion *)

Definition hash_insert (new : Z) : M hstate Z :=
  let* bucket := find_bucket new in
  let* old := find_elem bucket new in
  (if old =? NULL then insert_elem bucket new else ret tt);;;
  rehash;;;
  ret old.

Definition hash_replace (new : Z) : M hstate Z :=
  let* bucket := find_bucket new in
  let* old := find_elem bucket new in
  (if negb (old =? NULL) then remove_elem old else ret tt);;;
  insert_elem bucket new;;;
  rehash;;;
  ret old.

Definition hash_find (e : Z) : M hstate Z :=
  let* bucket := find_bucket e in
  find_elem bucket e.

Definition hash_delete (e : Z) : M hstate Z :=
  let* bucket := find_bucket e in
  let* found := find_elem bucket e in
  (if negb (found =? NULL) then remove_elem found;;; rehash else ret tt);;;
  ret found.

(** ** Iteration *)

Fixpoint apply_bucket (n : nat) (action : Z → M hstate unit) (elem bucket : Z) : M hstate unit :=
  let* en := on_heap (list_end bucket) in
  if elem =? en then ret tt
  else
    match n with
    | O => no_fuel
    | S n =>
        let* next := on_heap (list_next elem) in
        action elem;;;
        apply_bucket n action next bucket
    end.

Fixpoint apply_loop (n : nat) (action : Z → M hstate unit) (bucket : Z) : M hstate unit :=
  match n with
  | O => ret tt
  | S n =>
      let* s := get in
      let* elem := on_heap (list_begin bucket) in
      apply_bucket (S (size (hheap s))) action elem bucket;;;
      apply_loop n action (bucket + 16)
  end.

Definition hash_apply (action : Z → M hstate unit) : M hstate unit :=
  let* t := gets tab in
  apply_loop (Z.to_nat (bucket_cnt t)) action (buckets t).

Definition hash_first : M hstate hash_iterator :=
  let* t := gets tab in
  let* e := on_heap (list_head (buckets t)) in
  ret (mk_iter (buckets t) e).

(** [while (i->elem == list_end (i->bucket))]; the number of buckets bounds
    the iterations. *)
Fixpoint next_loop (n : nat) (i : hash_iterator) : M hstate hash_iterator :=
  let* en := on_heap (list_end (it_bucket i)) in
  if it_elem i =? en then
    match n with
    | O => no_fuel
    | S n =>
        let* t := gets tab in
        let b := it_bucket i + 16 in
        if b >=? buckets t + 16 * bucket_cnt t then ret (mk_iter b NULL)
        else let* e := on_heap (list_begin b) in next_loop n (mk_iter b e)
    end
  else ret i.

Definition hash_next (i : hash_iterator) : M hstate (Z * hash_iterator) :=
  let* t := gets tab in
  let* e := on_heap (list_next (it_elem i)) in
  let* i := next_loop (Z.to_nat (bucket_cnt t)) (mk_iter (it_bucket i) e) in
  ret (it_elem i, i).

Definition hash_cur (i : hash_iterator) : Z := it_elem i.

Definition hash_size : M hstate Z := let* t := gets tab in ret (elem_cnt t).
Definition hash_empty : M hstate bool := let* t := gets tab in ret (elem_cnt t =? 0).

End table.

(** ** Hash functions *)

Definition FNV_32_PRIME : Z := 16777619.
Definition FNV_32_BASIS : Z := 2166136261.

Definition fnv (hash byte : Z) : Z := Z.lxor (u32 (hash * FNV_32_PRIME)) byte.

Fixpoint fnv_loop (n : nat) (buf hash : Z) : M mem Z :=
  match n with
  | O => ret hash
  | S n => let* b := rd buf in fnv_loop n (buf + 1) (fnv hash b)
  end.

Definition hash_bytes (buf size : Z) : M mem Z :=
  assert (negb (buf =? 0));;;
  fnv_loop (Z.to_nat size) buf FNV_32_BASIS.

Fixpoint fnv_string (n : nat) (s hash : Z) : M mem Z :=
  match n with
  | O => no_fuel
  | S n =>
      let* b := rd s in
      if b =? 0 then ret hash else fnv_string n (s + 1) (fnv hash b)
  end.

Definition hash_string (s : Z) : M mem Z :=
  assert (negb (s =? 0));;;
  scanning (λ n, fnv_string n s FNV_32_BASIS).

(** hash_bytes (&i, 4): the four bytes of [i] in memory. *)
Definition hash_int (i : Z) : Z := fold_left fnv (le_bytes 4 (u32 i)) FNV_32_BASIS.

End Hash.
