(* ===== verification/HashSpec.v ===== *)
(** * HashSpec: hash tables are sets

    A table represents the set of its elements, at most one of each class of
    equal elements.  Whatever malloc() answers, insertion, replacement, search
    and deletion act on that set, rehashing keeps it, and iteration visits each
    element once. *)

From Stdlib Require Import ZArith Lia.
From stdpp Require Import base tactics option list numbers gmap.
From S2P Require Import Prelude Lists ListSpec ListOps Hash.
Import Lists ListSpec ListOps Hash.

Module HashSpec.

(** ** Disjoint lists in one heap *)

Definition all_nodes (ls : list (Z * list Z)) : list Z := ls ≫= (λ p, nodes p.1 p.2).

(** The lists [ls], each an address and the elements. *)
Record forest (h : heap) (ls : list (Z * list Z)) : Prop := {
  fo_lists : ∀ l xs, (l, xs) ∈ ls → is_list h l xs;
  fo_nodup : NoDup (all_nodes ls)
}.

#[global] Instance forest_perm h : Proper ((≡ₚ) ==> iff) (forest h).
Proof.
  assert (∀ ls ls', ls ≡ₚ ls' → forest h ls → forest h ls') as Himp.
  { intros ls ls' Hp [Hl Hn]. split.
    - intros l xs. rewrite <- Hp. apply Hl.
    - unfold all_nodes in *. by rewrite <- Hp. }
  intros ls ls' Hp. split; by apply Himp.
Qed.

Lemma all_nodes_cons l xs ls : all_nodes ((l, xs) :: ls) = nodes l xs ++ all_nodes ls.
Proof. done. Qed.

Lemma elem_of_all_nodes ls q : q ∈ all_nodes ls ↔ ∃ l xs, (l, xs) ∈ ls ∧ q ∈ nodes l xs.
Proof.
  unfold all_nodes. rewrite list_elem_of_bind. split.
  - intros ([l xs] & Hq & Hin). by exists l, xs.
  - intros (l & xs & Hin & Hq). by exists (l, xs).
Qed.

(** One list changes, within its own nodes and fresh ones. *)
Lemma forest_update h h' l xs ys ls ns :
  forest h ((l, xs) :: ls) → is_list h' l ys → frame h h' ns →
  (∀ q, q ∈ ns → q ∉ all_nodes ls) → (∀ q, q ∈ nodes l ys → q ∈ ns) →
  forest h' ((l, ys) :: ls).
Proof.
  intros [Hl Hn] Hl' [Hf _] Hns Hys. rewrite all_nodes_cons, NoDup_app in Hn. destruct Hn as (_ & _ & Hn).
  split.
  - intros l0 xs0 [[= -> ->]|Hin]%elem_of_cons; [done|].
    eapply is_list_ext; [apply Hl; by right| |apply Hl'].
    intros q Hq. apply Hf. intros Hq'. apply (Hns q Hq'), elem_of_all_nodes. by exists l0, xs0.
  - rewrite all_nodes_cons. apply NoDup_app. split; [apply Hl'|]. split; [|done].
    intros q Hq. by apply Hns, Hys.
Qed.

Lemma forest_disjoint h l xs ls q : forest h ((l, xs) :: ls) → q ∈ nodes l xs → q ∉ all_nodes ls.
Proof. intros [_ Hn] Hq. rewrite all_nodes_cons, NoDup_app in Hn. by apply Hn. Qed.

Lemma forest_push h l xs ls e :
  forest h ((l, xs) :: ls) → e ∉ all_nodes ((l, xs) :: ls) → is_Some (h !! e) →
  ∃ h', list_push_front l e h = Ok (tt, h') ∧ forest h' ((l, e :: xs) :: ls) ∧
        ∀ q, is_Some (h' !! q) ↔ is_Some (h !! q).
Proof.
  intros Hf He Hs. rewrite all_nodes_cons, elem_of_app in He.
  destruct (push_front_ok h l xs e) as (h' & E & Hl' & Hfr);
    [apply Hf; left|tauto|done|].
  exists h'. split; [done|]. split; [|apply Hfr].
  eapply (forest_update h h' l xs); [done|done|exact Hfr| |].
  - intros q [->|Hq]%elem_of_cons; [tauto|by eapply forest_disjoint].
  - unfold nodes. set_solver.
Qed.

Lemma forest_remove h l xs x ys ls :
  forest h ((l, xs ++ x :: ys) :: ls) →
  ∃ h', list_remove x h = Ok (fst_of ys (tail_of l), h') ∧ forest h' ((l, xs ++ ys) :: ls) ∧
        (∀ q, is_Some (h' !! q) ↔ is_Some (h !! q)) ∧ x ∉ all_nodes ((l, xs ++ ys) :: ls).
Proof.
  intros Hf. assert (is_list h l (xs ++ x :: ys)) as Hl by (apply Hf; left).
  destruct (remove_ok h l xs x ys Hl) as (a & _ & _ & E & Hl' & Hfr & _).
  eexists. split; [done|]. split; [|split; [apply Hfr|]].
  - eapply (forest_update h _ l (xs ++ x :: ys)); [done|done|exact Hfr| |].
    + intros q Hq. by eapply forest_disjoint.
    + unfold nodes. set_solver.
  - rewrite all_nodes_cons, elem_of_app. intros [Hx|Hx].
    + pose proof (il_nodup _ _ _ Hl) as Hn. unfold nodes in Hx.
      rewrite <- app_assoc in Hn, Hx. cbn [app] in Hn. rewrite <- Permutation_middle in Hn.
      apply NoDup_cons in Hn as [Hn1 [Hn2 _]%NoDup_cons].
      apply elem_of_cons in Hx as [->|Hx]; [apply Hn1; left|by apply Hn2].
    + eapply forest_disjoint; [exact Hf| |exact Hx]. unfold nodes.
      right. apply elem_of_app. left. apply elem_of_app. right. left.
Qed.

(** ** The number of buckets *)

Lemma land_double_odd a b : Z.land (2 * a) (2 * b + 1) = 2 * Z.land a b.
Proof.
  apply Z.bits_inj'. intros n Hn. rewrite Z.land_spec. destruct (decide (n = 0)) as [->|].
  - by rewrite !Z.testbit_even_0.
  - replace n with (Z.succ (n - 1)) by lia.
    rewrite !Z.testbit_even_succ, Z.testbit_odd_succ by lia. by rewrite Z.land_spec.
Qed.

Lemma land_odd_double a b : Z.land (2 * a + 1) (2 * b) = 2 * Z.land a b.
Proof. by rewrite Z.land_comm, land_double_odd, Z.land_comm. Qed.

Lemma turn_off_double y : 1 <= y → in_u32 (2 * y) → turn_off_least_1bit (2 * y) = 2 * turn_off_least_1bit y.
Proof.
  unfold turn_off_least_1bit, in_u32. intros Hy Hu. rewrite !u32_small by (unfold in_u32; lia).
  replace (2 * y - 1) with (2 * (y - 1) + 1) by lia. apply land_double_odd.
Qed.

Lemma turn_off_odd y : 1 <= y → in_u32 (2 * y + 1) → turn_off_least_1bit (2 * y + 1) = 2 * y.
Proof.
  unfold turn_off_least_1bit, in_u32. intros Hy Hu. rewrite !u32_small by (unfold in_u32; lia).
  replace (2 * y + 1 - 1) with (2 * y) by lia. rewrite land_odd_double. by rewrite Z.land_diag.
Qed.

Lemma is_power_double y : 1 <= y → in_u32 (2 * y) → is_power_of_2 (2 * y) = is_power_of_2 y.
Proof.
  intros Hy Hu. unfold is_power_of_2. rewrite turn_off_double by done.
  rewrite (proj2 (Z.eqb_neq (2 * y) 0)), (proj2 (Z.eqb_neq y 0)) by lia. cbn [negb andb].
  destruct (Z.eqb_spec (turn_off_least_1bit y) 0) as [->|]; [done|]. apply Z.eqb_neq. lia.
Qed.

(** Clearing a bit of a number with several bits leaves a smaller positive
    number. *)
Lemma turn_off_range y : 1 <= y → in_u32 y → is_power_of_2 y = false → 1 <= turn_off_least_1bit y <= y.
Proof.
  unfold is_power_of_2. intros Hy Hu. rewrite (proj2 (Z.eqb_neq y 0)) by lia. cbn [negb andb].
  intros Hne%Z.eqb_neq. unfold turn_off_least_1bit in *. rewrite u32_small in * by (unfold in_u32 in *; lia).
  assert (0 <= Z.land y (y - 1)) by (apply Z.land_nonneg; lia).
  pose proof (land_le y (y - 1)). lia.
Qed.

Lemma power_loop_double n : ∀ y, 1 <= y → in_u32 (2 * y) →
  power_loop n (2 * y) = (λ v, 2 * v) <$> power_loop n y.
Proof.
  induction n as [|n IH]; intros y Hy Hu; cbn [power_loop]; rewrite is_power_double by done;
    destruct (is_power_of_2 y) eqn:Ep; try done.
  rewrite turn_off_double by done.
  destruct (turn_off_range y) as [H1 H2]; [done|unfold in_u32 in *; lia|done|].
  apply IH; [done|unfold in_u32 in *; lia].
Qed.

Lemma power_loop_more n : ∀ x v, power_loop n x = Some v → power_loop (S n) x = Some v.
Proof.
  induction n as [|n IH]; intros x v; cbn [power_loop]; destruct (is_power_of_2 x); try done.
  intros Hv. by apply IH.
Qed.

Lemma power_loop_ok n : ∀ x, 1 <= x < 2 ^ Z.of_nat (S n) → in_u32 x →
  ∃ k, 0 <= k <= Z.of_nat n ∧ power_loop n x = Some (2 ^ k) ∧ 2 ^ k <= x < 2 ^ (k + 1).
Proof.
  induction n as [|n IH]; intros x Hx Hu.
  { replace x with 1 by lia. by exists 0. }
  rewrite (Nat2Z.inj_succ (S n)), Z.pow_succ_r in Hx by lia.
  destruct (decide (x = 1)) as [->|Hx1]; [exists 0; split; [lia|]; by split|].
  assert (∃ y, 1 <= y < 2 ^ Z.of_nat (S n) ∧ (x = 2 * y ∨ x = 2 * y + 1)) as (y & Hy & Hxy).
  { exists (x / 2). split; [|dlia]. split; [dlia|]. apply Z.div_lt_upper_bound; lia. }
  destruct (IH y Hy) as (k & Hk & Ek & Hle); [unfold in_u32 in *; lia|].
  assert (2 ^ (k + 1) = 2 * 2 ^ k) as Epow by (rewrite Z.add_1_r, Z.pow_succ_r; lia).
  exists (k + 1). split; [lia|]. rewrite (Z.add_1_r (k + 1)), Z.pow_succ_r, Epow in * by lia. destruct Hxy as [->| ->]; [split; [|lia]|split; [|lia]].
  - apply power_loop_more. rewrite power_loop_double, Ek by (done || lia). done.
  - cbn [power_loop]. assert (is_power_of_2 (2 * y + 1) = false) as ->.
    { unfold is_power_of_2. rewrite turn_off_odd by (done || lia). rewrite andb_comm.
      by rewrite (proj2 (Z.eqb_neq (2 * y) 0)) by lia. }
    rewrite turn_off_odd by (done || lia).
    rewrite power_loop_double, Ek by (done || unfold in_u32 in *; lia). done.
Qed.

(** ** Arrays of buckets *)

Fixpoint table (a : Z) (xss : list (list Z)) : list (Z * list Z) :=
  match xss with
  | [] => []
  | xs :: xss => (a, xs) :: table (a + 16) xss
  end.

Lemma table_pick xss : ∀ a i xs, xss !! i = Some xs → ∃ rest,
  table a xss ≡ₚ (a + 16 * Z.of_nat i, xs) :: rest ∧
  ∀ ys, table a (<[i := ys]> xss) ≡ₚ (a + 16 * Z.of_nat i, ys) :: rest.
Proof.
  induction xss as [|zs xss IH]; intros a i xs Hi; [done|]. destruct i as [|i]; simpl in Hi.
  - injection Hi as ->. exists (table (a + 16) xss). rewrite Z.mul_0_r, Z.add_0_r. done.
  - destruct (IH (a + 16) i xs Hi) as (rest & E1 & E2).
    replace (a + 16 + 16 * Z.of_nat i) with (a + 16 * Z.of_nat (S i)) in * by lia.
    exists ((a, zs) :: rest). cbn [table]. split; [|intros ys; simpl]; rewrite ?E1, ?E2; by apply Permutation_swap.
Qed.

Lemma concat_pick (xss : list (list Z)) : ∀ i xs, xss !! i = Some xs → ∃ rest,
  concat xss ≡ₚ xs ++ rest ∧ ∀ ys, concat (<[i := ys]> xss) ≡ₚ ys ++ rest.
Proof.
  induction xss as [|zs xss IH]; intros i xs Hi; [done|]. destruct i as [|i]; simpl in Hi.
  - injection Hi as ->. by exists (concat xss).
  - destruct (IH i xs Hi) as (rest & E1 & E2). exists (zs ++ rest). simpl.
    split; [|intros ys]; rewrite ?E1, ?E2, !app_assoc; by rewrite (Permutation_app_comm zs).
Qed.

Lemma nodes_table xss : ∀ a, all_nodes (table a xss) ≡ₚ storage a (length xss) ++ concat xss.
Proof.
  induction xss as [|xs xss IH]; intros a; [done|]. cbn [table length storage concat].
  rewrite all_nodes_cons, IH. unfold nodes, head_of.
  rewrite (Permutation_app_comm xs [tail_of a]). cbn [app]. do 2 constructor.
  rewrite !app_assoc. by rewrite (Permutation_app_comm xs).
Qed.

Lemma storage_range a n q : q ∈ storage a n → a <= q < a + 16 * Z.of_nat n.
Proof.
  revert a. induction n as [|n IH]; intros a; [by intros []%not_elem_of_nil|]. cbn [storage].
  unfold head_of, tail_of. rewrite !elem_of_cons. intros [->|[->|Hq%IH]]; lia.
Qed.

Lemma storage_nodup a n : NoDup (storage a n).
Proof.
  revert a. induction n as [|n IH]; intros a; [constructor|]. cbn [storage]. unfold head_of, tail_of.
  constructor; [|constructor; [|apply IH]].
  - rewrite elem_of_cons. intros [?|?%storage_range]; lia.
  - intros ?%storage_range. lia.
Qed.

Definition with_heap (h : heap) (s : hstate) : hstate := mk_hstate h (brk s) (oom s) (tab s).

Lemma on_heap_ok {A} (m : M heap A) s a h' :
  m (hheap s) = Ok (a, h') → on_heap m s = Ok (a, with_heap h' s).
Proof. intros E. unfold on_heap, lift. by rewrite E. Qed.

Lemma with_heap_same s : with_heap (hheap s) s = s.
Proof. by destruct s. Qed.

Section run_heap.
Context {B : Type} (s : hstate) (l : Z).

Lemma run_heap_end xs (k : Z → M hstate B) : is_list (hheap s) l xs →
  bind (on_heap (list_end l)) k s = k (tail_of l) s.
Proof.
  intros Hl. rewrite (bind_ok _ _ s (tail_of l) s); [done|]. rewrite <- (with_heap_same s) at 2.
  apply on_heap_ok, bind_ret_r. exact (run_list_end _ _ xs ret Hl).
Qed.

Lemma run_heap_begin xs (k : Z → M hstate B) : is_list (hheap s) l xs →
  bind (on_heap (list_begin l)) k s = k (fst_of xs (tail_of l)) s.
Proof.
  intros Hl. rewrite (bind_ok _ _ s (fst_of xs (tail_of l)) s); [done|]. rewrite <- (with_heap_same s) at 2.
  apply on_heap_ok, bind_ret_r. exact (run_list_begin _ _ xs ret Hl).
Qed.

Lemma run_heap_next xs x ys (k : Z → M hstate B) : is_list (hheap s) l (xs ++ x :: ys) →
  bind (on_heap (list_next x)) k s = k (fst_of ys (tail_of l)) s.
Proof.
  intros Hl. rewrite (bind_ok _ _ s (fst_of ys (tail_of l)) s); [done|]. rewrite <- (with_heap_same s) at 2.
  apply on_heap_ok, bind_ret_r. exact (run_list_next _ _ xs x ys ret Hl).
Qed.
End run_heap.

(** ** What the table is given *)

Definition eqv (less : Z → Z → bool) (x y : Z) : Prop := less x y = false ∧ less y x = false.

(** Equality of elements is an equivalence, and equal elements have equal
    hash values. *)
Record hashable (hashf : Z → Z) (less : Z → Z → bool) : Prop := {
  hs_refl : ∀ x, eqv less x x;
  hs_trans : ∀ x y z, eqv less x y → eqv less y z → eqv less x z;
  hs_hash : ∀ x y, eqv less x y → hashf x = hashf y;
  hs_range : ∀ x, in_u32 (hashf x)
}.

Section spec.
Context (hashf : Z → Z) (less : Z → Z → bool) (Hh : hashable hashf less).

Lemma eqv_sym x y : eqv less x y → eqv less y x.
Proof. unfold eqv. tauto. Qed.

#[global] Instance eqv_dec x y : Decision (eqv less x y).
Proof. unfold eqv. apply _. Defined.

(** The index of the bucket of [e] among [n]. *)
Definition idx (n e : Z) : nat := Z.to_nat (Z.land (hashf e) (n - 1)).

Definition placed (xss : list (list Z)) : Prop :=
  ∀ i xs x, xss !! i = Some xs → x ∈ xs → idx (zlen xss) x = i.

Lemma idx_range k e : 0 <= k → (idx (2 ^ k) e < Z.to_nat (2 ^ k))%nat.
Proof.
  intros Hk. unfold idx. replace (2 ^ k - 1) with (Z.ones k) by (rewrite Z.ones_equiv; lia).
  rewrite Z.land_ones by done. pose proof (Z.mod_pos_bound (hashf e) (2 ^ k)). lia.
Qed.

(** The table is an array of 2^k buckets. *)
Definition sized (s : hstate) (xss : list (list Z)) : Prop :=
  bucket_cnt (tab s) = zlen xss ∧ ∃ k, 2 <= k <= 31 ∧ zlen xss = 2 ^ k.

Lemma find_bucket_ok s xss e : sized s xss →
  find_bucket hashf e s = Ok (buckets (tab s) + 16 * Z.of_nat (idx (zlen xss) e), s) ∧
  is_Some (xss !! idx (zlen xss) e).
Proof.
  intros (Hb & k & Hk & Ek). split.
  - unfold find_bucket. run. rewrite Hb. unfold ret, idx.
    assert (2 ^ k <= 2 ^ 31) by (apply Z.pow_le_mono_r; lia). change (2 ^ 31) with 2147483648 in *.
    rewrite u32_small by (unfold in_u32; lia).
    rewrite Z2Nat.id; [done|]. apply Z.land_nonneg. left. apply (hs_range _ _ Hh).
  - apply lookup_lt_is_Some. pose proof (idx_range k e ltac:(lia)) as Hi. rewrite <- Ek in Hi.
    unfold zlen in Hi at 2. lia.
Qed.

(** The first element equal to [e], or a null pointer. *)
Definition find_in (e : Z) (xs : list Z) : Z := default NULL (head (filter (λ x, eqv less x e) xs)).

Lemma find_loop_ok h l e ys : ∀ n xs, is_list h l (xs ++ ys) → (length ys <= n)%nat →
  find_loop less n (fst_of ys (tail_of l)) l e h = Ok (find_in e ys, h).
Proof.
  induction ys as [|y ys IH]; intros n xs Hl Hn; unfold find_in; destruct n as [|n]; simpl in Hn; try lia;
    cbn [find_loop fst_of]; rewrite (run_list_end _ _ _ _ Hl); try (by rewrite Z.eqb_refl).
  rewrite (proj2 (Z.eqb_neq y (tail_of l))) by (apply (cursor_neq h l xs y ys []); by rewrite app_nil_r).
  destruct (decide (eqv less y e)) as [[E1 E2]|Hne].
  - rewrite filter_cons_True by done. by rewrite E1, E2.
  - rewrite filter_cons_False by done.
    assert (negb (less y e) && negb (less e y) = false) as ->
      by (unfold eqv in Hne; destruct (less y e), (less e y); naive_solver).
    rewrite (run_list_next _ _ _ _ _ _ Hl). apply (IH n (xs ++ [y])); [by rewrite <- app_assoc|lia].
Qed.

Lemma find_elem_ok s l e xs : is_list (hheap s) l xs → find_elem less l e s = Ok (find_in e xs, s).
Proof.
  intros Hl. unfold find_elem. rewrite <- (with_heap_same s) at 2. apply on_heap_ok.
  rewrite (run_list_begin _ _ _ _ Hl). unfold bounded. run.
  apply (find_loop_ok _ l e xs _ []); [done|]. pose proof (list_fuel _ _ _ Hl). lia.
Qed.

(** ** Moving elements into a new array *)

Lemma placed_push yss e ys : placed yss → yss !! idx (zlen yss) e = Some ys →
  placed (<[idx (zlen yss) e := e :: ys]> yss).
Proof.
  intros Hp Hy i xs x. assert (zlen (<[idx (zlen yss) e:=e :: ys]> yss) = zlen yss) as Hz
    by (unfold zlen; by rewrite length_insert). rewrite Hz.
  destruct (decide (i = idx (zlen yss) e)) as [->|Hne].
  - rewrite list_lookup_insert_eq by (by eapply lookup_lt_Some). intros [= <-] [->|Hx]%elem_of_cons; [done|by eapply Hp].
  - rewrite list_lookup_insert_ne by done. by apply Hp.
Qed.

(** An element that is in no list goes to the front of its bucket. *)
Lemma push_bucket s h R yss e :
  forest h (R ++ table (buckets (tab s)) yss) → sized s yss → placed yss →
  e ∉ all_nodes (R ++ table (buckets (tab s)) yss) → is_Some (h !! e) →
  ∃ h' yss', list_push_front (buckets (tab s) + 16 * Z.of_nat (idx (zlen yss) e)) e h = Ok (tt, h') ∧
    forest h' (R ++ table (buckets (tab s)) yss') ∧ placed yss' ∧ length yss' = length yss ∧
    concat yss' ≡ₚ e :: concat yss ∧ (∀ q, is_Some (h' !! q) ↔ is_Some (h !! q)).
Proof.
  intros Hf Hsz Hp He Hs. destruct (find_bucket_ok s yss e Hsz) as [_ [ys Hys]].
  destruct (table_pick _ (buckets (tab s)) _ _ Hys) as (rest & E1 & E2).
  destruct (concat_pick _ _ _ Hys) as (crest & C1 & C2).
  assert (R ++ table (buckets (tab s)) yss ≡ₚ
    (buckets (tab s) + 16 * Z.of_nat (idx (zlen yss) e), ys) :: R ++ rest) as Ep
    by (rewrite E1; by rewrite Permutation_middle).
  destruct (forest_push h (buckets (tab s) + 16 * Z.of_nat (idx (zlen yss) e)) ys (R ++ rest) e)
    as (h' & Eh & Hf' & Hd); [by rewrite <- Ep| |done|].
  { intros Hin. apply He. unfold all_nodes in *. by rewrite Ep. }
  exists h', (<[idx (zlen yss) e := e :: ys]> yss). split; [done|]. split.
  { rewrite E2, <- Permutation_middle. done. }
  split; [by apply placed_push|]. split; [by rewrite length_insert|].
  split; [by rewrite C2, C1|done].
Qed.

Lemma sized_heap s xss h : sized s xss → sized (with_heap h s) xss.
Proof. done. Qed.

Lemma sized_length s xss yss : sized s xss → length yss = length xss → sized s yss.
Proof. unfold sized, zlen. by intros Hs ->. Qed.

Lemma move_loop_ok xs : ∀ n s ob R yss,
  forest (hheap s) ((ob, xs) :: R ++ table (buckets (tab s)) yss) → sized s yss → placed yss →
  (length xs <= n)%nat →
  ∃ h' yss', move_loop hashf n (fst_of xs (tail_of ob)) ob s = Ok (tt, with_heap h' s) ∧
    forest h' ((ob, []) :: R ++ table (buckets (tab s)) yss') ∧ placed yss' ∧
    length yss' = length yss ∧ concat yss' ≡ₚ xs ++ concat yss ∧
    (∀ q, is_Some (h' !! q) ↔ is_Some (hheap s !! q)).
Proof.
  induction xs as [|x xs IH]; intros n s ob R yss Hf Hsz Hp Hn;
    assert (is_list (hheap s) ob _) as Hl by (apply Hf; left);
    destruct n as [|n]; simpl in Hn; try lia; cbn [move_loop fst_of]; rewrite (run_heap_end _ _ _ _ Hl).
  1, 2: rewrite Z.eqb_refl; exists (hheap s), yss; by rewrite with_heap_same.
  rewrite (proj2 (Z.eqb_neq x (tail_of ob)))
    by (apply (cursor_neq (hheap s) ob [] x xs []); by rewrite app_nil_r).
  destruct (find_bucket_ok s yss x Hsz) as [Eb _]. rewrite (bind_ok _ _ _ _ _ Eb).
  rewrite (run_heap_next s ob [] x xs _ Hl).
  destruct (forest_remove (hheap s) ob [] x xs (R ++ table (buckets (tab s)) yss) Hf)
    as (h1 & E1 & Hf1 & Hd1 & Hx1).
  rewrite (bind_ok _ _ _ _ _ (on_heap_ok _ _ _ _ E1)).
  destruct (push_bucket (with_heap h1 s) h1 ((ob, xs) :: R) yss x) as (h2 & yss2 & E2 & Hf2 & Hp2 & Hl2 & Hc2 & Hd2);
    [done|done|done|done| |].
  { apply Hd1. eapply node_alloc; [exact Hl|]. unfold nodes. set_solver. }
  rewrite (bind_ok _ _ _ _ _ (on_heap_ok _ (with_heap h1 s) _ _ E2)).
  destruct (IH n (with_heap h2 s) ob R yss2) as (h3 & yss3 & E3 & Hf3 & Hp3 & Hl3 & Hc3 & Hd3);
    [done|by eapply sized_length|done|lia|].
  exists h3, yss3. split; [exact E3|]. split; [done|]. split; [done|]. split; [congruence|].
  split; [by rewrite Hc3, Hc2, <- Permutation_middle|].
  intros q. by rewrite Hd3, <- Hd1, <- Hd2.
Qed.

Lemma rehash_loop_ok xss : ∀ s ob P yss,
  forest (hheap s) (P ++ table ob xss ++ table (buckets (tab s)) yss) → sized s yss → placed yss →
  ∃ h' yss', rehash_loop hashf (length xss) ob s = Ok (tt, with_heap h' s) ∧
    forest h' (P ++ table ob (replicate (length xss) []) ++ table (buckets (tab s)) yss') ∧ placed yss' ∧
    length yss' = length yss ∧ concat yss' ≡ₚ concat xss ++ concat yss ∧
    (∀ q, is_Some (h' !! q) ↔ is_Some (hheap s !! q)).
Proof.
  induction xss as [|xs xss IH]; intros s ob P yss Hf Hsz Hp; cbn [rehash_loop length replicate table app concat].
  { exists (hheap s), yss. by rewrite with_heap_same. }
  cbn [table app] in Hf. rewrite <- Permutation_middle, app_assoc in Hf.
  assert (is_list (hheap s) ob xs) as Hl by (apply Hf; left).
  run. rewrite (run_heap_begin _ _ _ _ Hl).
  destruct (move_loop_ok xs (S (size (hheap s))) s ob (P ++ table (ob + 16) xss) yss)
    as (h1 & yss1 & E1 & Hf1 & Hp1 & Hl1 & Hc1 & Hd1); [done|done|done|pose proof (list_fuel _ _ _ Hl); lia|].
  rewrite (bind_ok _ _ _ _ _ E1).
  destruct (IH (with_heap h1 s) (ob + 16) ((ob, []) :: P) yss1)
    as (h2 & yss2 & E2 & Hf2 & Hp2 & Hl2 & Hc2 & Hd2);
    [cbn [app]; by rewrite app_assoc|by eapply sized_length|done|].
  exists h2, yss2. split; [exact E2|]. split; [by rewrite <- Permutation_middle|].
  split; [done|]. split; [congruence|]. split; [|intros q; by rewrite Hd2, <- Hd1].
  by rewrite Hc2, Hc1, !app_assoc, (Permutation_app_comm xs).
Qed.

(** ** The table *)

(** [C] are the elements that can be in the table: list elements of their own
    in memory. *)
Variable C : Z → Prop.

Record hinv (s : hstate) (xss : list (list Z)) : Prop := {
  hi_forest : forest (hheap s) (table (buckets (tab s)) xss);
  hi_sized : sized s xss;
  hi_placed : placed xss;
  hi_count : elem_cnt (tab s) = zlen (concat xss);
  hi_keys : ∀ x y, x ∈ concat xss → y ∈ concat xss → eqv less x y → x = y;
  hi_null : hheap s !! NULL = None;
  hi_brk : 0 < brk s <= 4294967296 ∧ 0 < buckets (tab s) ∧ ∀ q, is_Some (hheap s !! q) → q < brk s;
  hi_member : ∀ x, x ∈ concat xss → C x;
  hi_client : ∀ e, C e → 0 < e ∧ is_Some (hheap s !! e) ∧ e ∉ storage (buckets (tab s)) (length xss)
}.

Lemma hinv_nodup s xss : hinv s xss → NoDup (concat xss).
Proof. intros Hi. pose proof (fo_nodup _ _ (hi_forest _ _ Hi)) as Hn. rewrite nodes_table in Hn. by apply NoDup_app in Hn as (_ & _ & ?). Qed.

(** There are fewer elements than addresses. *)
Lemma client_range s xss ns : hinv s xss → NoDup ns → (∀ x, x ∈ ns → C x) → zlen ns < 4294967296.
Proof.
  intros Hi Hn Hc. destruct (hi_brk _ _ Hi) as (Hb & _ & Hd).
  assert (ns ⊆+ seqZ 1 4294967295) as Hsub%submseteq_length.
  { apply NoDup_submseteq; [done|]. intros x Hx. apply elem_of_seqZ.
    destruct (hi_client _ _ Hi x (Hc x Hx)) as (H0 & Hs & _). specialize (Hd x Hs). lia. }
  rewrite length_seqZ in Hsub. unfold zlen. lia.
Qed.

Lemma count_range s xss : hinv s xss → zlen (concat xss) < 4294967296.
Proof. intros Hi. eapply client_range; [done|by eapply hinv_nodup|apply Hi]. Qed.

Lemma elem_of_pick (xss : list (list Z)) x : x ∈ concat xss → ∃ i xs, xss !! i = Some xs ∧ x ∈ xs.
Proof.
  induction xss as [|ys xss IH]; [by intros []%not_elem_of_nil|]. cbn [concat].
  intros [Hx|Hx]%elem_of_app; [by exists 0%nat, ys|]. destruct (IH Hx) as (i & xs & Hi & Hxs).
  by exists (S i), xs.
Qed.

(** Searching the bucket of [e] is searching the table. *)
Lemma find_in_bucket s xss e xs : hinv s xss → xss !! idx (zlen xss) e = Some xs →
  (∃ x, find_in e xs = x ∧ x ∈ xs ∧ x ∈ concat xss ∧ eqv less x e ∧ x ≠ NULL) ∨
  (find_in e xs = NULL ∧ ∀ x, x ∈ concat xss → ¬ eqv less x e).
Proof.
  intros Hi Hxs. destruct (concat_pick _ _ _ Hxs) as (rest & E & _). unfold find_in.
  destruct (filter (λ x, eqv less x e) xs) as [|x fs] eqn:Ef.
  - right. split; [done|]. intros x Hx Heq. destruct (elem_of_pick _ _ Hx) as (i & ys & Hys & Hxy).
    pose proof (hi_placed _ _ Hi i ys x Hys Hxy) as Hidx.
    assert (idx (zlen xss) x = idx (zlen xss) e) as He by (unfold idx; by rewrite (hs_hash _ _ Hh x e Heq)).
    assert (x ∈ filter (λ x, eqv less x e) xs) as Hf; [|rewrite Ef in Hf; by apply not_elem_of_nil in Hf].
    apply list_elem_of_filter. split; [done|]. congruence.
  - left. exists x. cbn. assert (x ∈ filter (λ x, eqv less x e) xs) as [Heq Hx]%list_elem_of_filter
      by (rewrite Ef; left). split; [done|]. split; [done|]. split; [rewrite E; apply elem_of_app; by left|].
    split; [done|]. intros ->. assert (0 ∈ concat xss) as H0 by (rewrite E; apply elem_of_app; by left).
    destruct (hi_client _ _ Hi 0 (hi_member _ _ Hi 0 H0)) as [? _]. lia.
Qed.

(** ** Allocation of buckets *)

Lemma forest_add h h' l ys ls ns :
  forest h ls → is_list h' l ys → frame h h' ns →
  (∀ q, q ∈ ns → q ∉ all_nodes ls) → (∀ q, q ∈ nodes l ys → q ∈ ns) → forest h' ((l, ys) :: ls).
Proof.
  intros [Hl Hn] Hl' [Hf _] Hns Hys. split.
  - intros l0 xs0 [[= -> ->]|Hin]%elem_of_cons; [done|].
    eapply is_list_ext; [by apply Hl| |apply Hl'].
    intros q Hq. apply Hf. intros Hq'. apply (Hns q Hq'), elem_of_all_nodes. by exists l0, xs0.
  - rewrite all_nodes_cons. apply NoDup_app. split; [apply Hl'|]. split; [|done].
    intros q Hq. by apply Hns, Hys.
Qed.

Lemma init_loop_ok n : ∀ a h F, 0 < a → forest h F → h !! NULL = None →
  (∀ q, q ∈ storage a n → is_Some (h !! q) ∧ q ∉ all_nodes F) →
  ∃ h', init_loop n a h = Ok (tt, h') ∧ forest h' (table a (replicate n []) ++ F) ∧
        (∀ q, is_Some (h' !! q) ↔ is_Some (h !! q)).
Proof.
  induction n as [|n IH]; intros a h F Ha Hf Hnull Hs; cbn [init_loop replicate table app]; [by exists h|].
  cbn [storage] in Hs. unfold head_of in Hs.
  destruct (Hs a ltac:(left)) as [Hs1 Hs2]. destruct (Hs (tail_of a) ltac:(right; left)) as [Hs3 Hs4].
  destruct (list_init_ok h a) as (h1 & E1 & Hl1 & Hf1); [unfold NULL; lia|done|done|done|].
  rewrite (bind_ok _ _ _ _ _ E1).
  assert (forest h1 ((a, []) :: F)) as Hf1'.
  { eapply forest_add; [done|done|exact Hf1| |done]. set_solver. }
  destruct (IH (a + 16) h1 ((a, []) :: F)) as (h2 & E2 & Hf2 & Hd2); [lia|done|apply Hl1| |].
  { intros q Hq. destruct (Hs q) as [Hq1 Hq2]; [by do 2 right|]. split; [by apply Hf1|].
    rewrite all_nodes_cons, elem_of_app. intros [Hq3|?]; [|done]. apply storage_range in Hq.
    unfold nodes, tail_of in Hq3. cbn [app] in Hq3. rewrite !elem_of_cons in Hq3.
    destruct Hq3 as [->|[->|[]%not_elem_of_nil]]; lia. }
  exists h2. split; [exact E2|]. split; [by rewrite <- Permutation_middle in Hf2|].
  intros q. rewrite Hd2. apply Hf1.
Qed.

Lemma lookup_alloc (h : heap) ns v q :
  foldr (λ q, <[q := v]>) h ns !! q = if decide (q ∈ ns) then Some v else h !! q.
Proof.
  induction ns as [|p ns IH]; [done|]. cbn [foldr]. destruct (decide (q = p)) as [->|Hne].
  - rewrite lookup_insert_eq, decide_True; [done|left].
  - rewrite lookup_insert_ne by done. rewrite IH. apply decide_ext. rewrite elem_of_cons. tauto.
Qed.

Lemma lookup_dealloc (h : heap) ns q :
  foldr delete h ns !! q = if decide (q ∈ ns) then None else h !! q.
Proof.
  induction ns as [|p ns IH]; [done|]. cbn [foldr]. destruct (decide (q = p)) as [->|Hne].
  - rewrite lookup_delete_eq, decide_True; [done|left].
  - rewrite lookup_delete_ne by done. rewrite IH. apply decide_ext. rewrite elem_of_cons. tauto.
Qed.

Lemma malloc_lists_ok n s : 0 <= n →
  ∃ o, malloc_lists n s = Ok (NULL, mk_hstate (hheap s) (brk s) o (tab s)) ∨
    (brk s + 16 * n < 4294967296 ∧
     malloc_lists n s = Ok (brk s, mk_hstate
       (foldr (λ q, <[q := mk_elem NULL NULL]>) (hheap s) (storage (brk s) (Z.to_nat n)))
       (brk s + 16 * n) o (tab s))).
Proof.
  intros Hn. exists (tail (oom s)). unfold malloc_lists. run.
  set (b := match oom s with [] => false | b :: _ => b end).
  destruct b; [by left|]. cbn [orb]. destruct (Z.leb_spec 4294967296 (brk s + 16 * n)); [by left|].
  right. split; [lia|]. by run.
Qed.

(** Part of a forest in a heap that agrees on its nodes. *)
Lemma forest_ext h h' A B : forest h (A ++ B) → h' !! NULL = None →
  (∀ q, q ∈ all_nodes B → h' !! q = h !! q) → forest h' B.
Proof.
  intros [Hl Hn] Hnull Hq. split.
  - intros l xs Hin. eapply is_list_ext; [apply Hl, elem_of_app; by right| |done].
    intros q Hq'. apply Hq, elem_of_all_nodes. by exists l, xs.
  - unfold all_nodes in *. rewrite bind_app in Hn. by apply NoDup_app in Hn as (_ & _ & ?).
Qed.

Lemma forest_alloc h ls q : forest h ls → q ∈ all_nodes ls → is_Some (h !! q).
Proof. intros [Hl _] (l & xs & Hin & Hq)%elem_of_all_nodes. by eapply node_alloc; [apply Hl|]. Qed.

Lemma concat_empty n : concat (replicate n ([] : list Z)) = [].
Proof. by induction n. Qed.

Lemma placed_empty n : placed (replicate n []).
Proof. intros i xs x [-> _]%lookup_replicate Hx. by apply not_elem_of_nil in Hx. Qed.

(** The number of buckets rehash() wants. *)
Lemma best_buckets n : 0 <= n < 4294967296 → ∃ k, 2 <= k <= 31 ∧
  power_loop 32 (if n / BEST_ELEMS_PER_BUCKET <? MIN_BUCKETS then MIN_BUCKETS
                 else n / BEST_ELEMS_PER_BUCKET) = Some (2 ^ k).
Proof.
  intros Hn.
  set (x := if n / BEST_ELEMS_PER_BUCKET <? MIN_BUCKETS then MIN_BUCKETS else n / BEST_ELEMS_PER_BUCKET).
  assert (4 <= x < 2147483648) as Hx.
  { unfold x, MIN_BUCKETS, BEST_ELEMS_PER_BUCKET in *. destruct (Z.ltb_spec (n / 2) 4); [lia|]. dlia. }
  destruct (power_loop_ok 31 x) as (k & Hk & E & Hle); [change (2 ^ Z.of_nat 32) with 4294967296; lia|unfold in_u32; lia|].
  exists k. split; [|by apply power_loop_more]. split; [|lia].
  destruct (Z.le_gt_cases 2 k); [done|]. assert (2 ^ (k + 1) <= 2 ^ 2) by (apply Z.pow_le_mono_r; lia). lia.
Qed.

Section rehashing.
Context (s : hstate) (xss : list (list Z)) (Hi : hinv s xss).
Context (n : Z) (Hn : 0 < n) (Hlt : brk s + 16 * n < 4294967296).

(** The heap with the new array. *)
Definition grown : heap :=
  foldr (λ q, <[q := mk_elem NULL NULL]>) (hheap s) (storage (brk s) (Z.to_nat n)).

Lemma storage_new q : q ∈ storage (brk s) (Z.to_nat n) → brk s <= q < brk s + 16 * n.
Proof. intros Hq%storage_range. lia. Qed.

Lemma new_buckets_ok : ∃ h2, init_loop (Z.to_nat n) (brk s) grown = Ok (tt, h2) ∧
  forest h2 (table (brk s) (replicate (Z.to_nat n) []) ++ table (buckets (tab s)) xss) ∧
  ∀ q, is_Some (h2 !! q) ↔ is_Some (hheap s !! q) ∨ q ∈ storage (brk s) (Z.to_nat n).
Proof.
  destruct (hi_brk _ _ Hi) as (Hb1 & _ & Hb3).
  assert (∀ q, q ∈ all_nodes (table (buckets (tab s)) xss) → q < brk s) as Hold
    by (intros q Hq; apply Hb3; by eapply forest_alloc; [apply Hi|]).
  assert (grown !! NULL = None) as Hnull.
  { unfold grown. rewrite lookup_alloc, decide_False; [apply Hi|]. intros Hq%storage_new. unfold NULL in Hq. lia. }
  destruct (init_loop_ok (Z.to_nat n) (brk s) grown (table (buckets (tab s)) xss))
    as (h2 & E2 & Hf2 & Hd2); [lia| |done| |].
  - apply (forest_ext (hheap s) grown []); [apply Hi|done|]. intros q Hq%Hold. unfold grown.
    rewrite lookup_alloc, decide_False; [done|]. intros Hq'%storage_new. lia.
  - intros q Hq. unfold grown. rewrite lookup_alloc, decide_True by done. split; [by eexists|].
    intros Hq'%Hold. apply storage_new in Hq. lia.
  - exists h2. split; [done|]. split; [done|]. intros q. rewrite Hd2. unfold grown.
    rewrite lookup_alloc. case_decide; [split; [by right|by eexists]|tauto].
Qed.

Lemma rehashed_ok h yss o :
  forest h (table (buckets (tab s)) (replicate (length xss) []) ++ table (brk s) yss) →
  (∃ k, 2 <= k <= 31 ∧ zlen yss = 2 ^ k) → zlen yss = n → placed yss → concat yss ≡ₚ concat xss →
  (∀ q, is_Some (h !! q) ↔ is_Some (hheap s !! q) ∨ q ∈ storage (brk s) (Z.to_nat n)) →
  hinv (mk_hstate (foldr delete h (storage (buckets (tab s)) (length xss))) (brk s + 16 * n) o
          (mk_hash (elem_cnt (tab s)) n (brk s))) yss.
Proof.
  intros Hf Hk Hz Hp Hc Hd. destruct (hi_brk _ _ Hi) as (Hb1 & Hb2 & Hb3).
  pose proof (fo_nodup _ _ Hf) as Hnd. unfold all_nodes in Hnd. rewrite bind_app in Hnd.
  fold (all_nodes (table (buckets (tab s)) (replicate (length xss) []))) in Hnd.
  fold (all_nodes (table (brk s) yss)) in Hnd. rewrite nodes_table, length_replicate, concat_empty, app_nil_r in Hnd.
  apply NoDup_app in Hnd as (_ & Hdis & _).
  assert (∀ q, h !! q = None → foldr delete h (storage (buckets (tab s)) (length xss)) !! q = None) as Hnone
    by (intros q Hq; rewrite lookup_dealloc; by case_decide).
  assert (h !! NULL = None) as Hnull.
  { apply eq_None_not_Some. rewrite Hd. intros [Hq|Hq%storage_new].
    - rewrite (hi_null _ _ Hi) in Hq. by destruct Hq.
    - unfold NULL in Hq. lia. }
  split; cbn [hheap brk tab buckets elem_cnt bucket_cnt].
  - eapply forest_ext; [exact Hf|by apply Hnone|]. intros q Hq. rewrite lookup_dealloc, decide_False; [done|].
    intros Hq'. by apply (Hdis q).
  - split; [by cbn|done].
  - done.
  - rewrite (hi_count _ _ Hi). unfold zlen. by rewrite Hc.
  - intros x y. rewrite Hc. apply Hi.
  - by apply Hnone.
  - split; [lia|]. split; [lia|]. intros q. rewrite lookup_dealloc. case_decide; [by intros []|].
    rewrite Hd. intros [Hq%Hb3|Hq%storage_new]; lia.
  - intros x. rewrite Hc. apply Hi.
  - intros e He. destruct (hi_client _ _ Hi e He) as (H0 & Hs & Hst). split; [done|]. split.
    + rewrite lookup_dealloc, decide_False by done. apply Hd. by left.
    + intros Hq%storage_range. specialize (Hb3 e Hs). lia.
Qed.
End rehashing.

(** rehash() keeps the set of elements, whether or not there is memory. *)
Lemma rehash_ok s xss : hinv s xss →
  ∃ s' xss', rehash hashf s = Ok (tt, s') ∧ hinv s' xss' ∧ concat xss' ≡ₚ concat xss.
Proof.
  intros Hi. destruct (hi_brk _ _ Hi) as (Hb1 & Hb2 & Hb3). pose proof (count_range _ _ Hi) as Hc.
  unfold rehash. run. rewrite (hi_count _ _ Hi).
  destruct (best_buckets (zlen (concat xss))) as (k & Hk & Ek); [pose proof (zlen_nonneg (concat xss)); lia|].
  rewrite Ek. destruct (hi_sized _ _ Hi) as (Hbc & _).
  destruct (Z.eqb_spec (2 ^ k) (bucket_cnt (tab s))) as [_|Hne]; [by exists s, xss|].
  assert (0 < 2 ^ k) as Hpos by (apply Z.pow_pos_nonneg; lia).
  destruct (malloc_lists_ok (2 ^ k) s ltac:(lia)) as (o & [E|[Hlt E]]).
  { rewrite (bind_ok _ _ _ _ _ E). cbn. exists (mk_hstate (hheap s) (brk s) o (tab s)), xss.
    split; [done|]. split; [|done]. by destruct Hi. }
  rewrite (bind_ok _ _ _ _ _ E). rewrite (proj2 (Z.eqb_neq (brk s) NULL)) by (unfold NULL; lia).
  destruct (new_buckets_ok s xss Hi (2 ^ k) ltac:(lia)) as (h2 & E2 & Hf2 & Hd2).
  erewrite bind_ok; [|apply on_heap_ok; exact E2]. unfold set_tab, with_heap. run.
  cbn [hheap brk oom tab]. set (s2 := mk_hstate h2 (brk s + 16 * 2 ^ k) o (mk_hash (zlen (concat xss)) (2 ^ k) (brk s))).
  assert (zlen (replicate (Z.to_nat (2 ^ k)) ([] : list Z)) = 2 ^ k) as Hz
    by (unfold zlen; rewrite length_replicate; lia).
  assert (sized s2 (replicate (Z.to_nat (2 ^ k)) [])) as Hsz by (split; [by rewrite Hz|by exists k]).
  destruct (rehash_loop_ok xss s2 (buckets (tab s)) [] (replicate (Z.to_nat (2 ^ k)) []))
    as (h3 & yss & E3 & Hf3 & Hp3 & Hl3 & Hc3 & Hd3);
    [cbn [app]; by rewrite Permutation_app_comm|done|apply placed_empty|].
  rewrite concat_empty, app_nil_r in Hc3.
  assert (Z.to_nat (bucket_cnt (tab s)) = length xss) as Hlen by (rewrite Hbc; unfold zlen; lia).
  rewrite Hlen, (bind_ok _ _ _ _ _ E3). unfold free_lists, modify. rewrite Hlen.
  rewrite (proj2 (Z.eqb_neq (buckets (tab s)) NULL)) by (unfold NULL; lia).
  assert (zlen yss = 2 ^ k) as Hz3 by (rewrite <- Hz; unfold zlen; by rewrite Hl3).
  exists (mk_hstate (foldr delete h3 (storage (buckets (tab s)) (length xss))) (brk s + 16 * 2 ^ k) o
            (mk_hash (elem_cnt (tab s)) (2 ^ k) (brk s))), yss.
  split; [by rewrite (hi_count _ _ Hi)|]. split; [|done].
  apply (rehashed_ok s xss Hi (2 ^ k)); [done|done|exact Hf3|by exists k|done|done|done|].
  intros q. rewrite Hd3. apply Hd2.
Qed.

(** ** Insertion and removal *)

Lemma not_in_table s xss e : hinv s xss → C e → e ∉ concat xss → e ∉ all_nodes (table (buckets (tab s)) xss).
Proof.
  intros Hi He Hn. rewrite nodes_table, elem_of_app. destruct (hi_client _ _ Hi e He) as (_ & _ & Hs). tauto.
Qed.

Lemma insert_elem_ok s xss e : hinv s xss → C e → (∀ x, x ∈ concat xss → ¬ eqv less x e) →
  ∃ s' xss', insert_elem (buckets (tab s) + 16 * Z.of_nat (idx (zlen xss) e)) e s = Ok (tt, s') ∧
    hinv s' xss' ∧ concat xss' ≡ₚ e :: concat xss.
Proof.
  intros Hi He Hnew. assert (e ∉ concat xss) as Hout by (intros Hin; apply (Hnew e Hin), (hs_refl _ _ Hh)).
  destruct (hi_client _ _ Hi e He) as (He0 & Hes & Hest).
  unfold insert_elem, set_tab. run.
  set (s1 := mk_hstate (hheap s) _ _ _).
  destruct (push_bucket s (hheap s) [] xss e) as (h' & yss & E & Hf & Hp & Hl & Hc & Hd);
    [apply Hi|apply Hi|apply Hi|by apply not_in_table|done|].
  assert (NoDup (e :: concat xss)) as Hnd by (constructor; [done|by eapply hinv_nodup]).
  assert (zlen (e :: concat xss) < 4294967296) as Hlt.
  { eapply client_range; [done|done|]. intros x [->|Hx]%elem_of_cons; [done|by apply Hi]. }
  assert (zlen (concat yss) = zlen (concat xss) + 1) as Hz by (unfold zlen; rewrite Hc; simpl; lia).
  exists (with_heap h' s1), yss. split; [by apply on_heap_ok|]. split; [|done].
  split; unfold s1; cbn [with_heap hheap tab buckets elem_cnt brk].
  - done.
  - eapply sized_length; [|done]. apply Hi.
  - done.
  - rewrite (hi_count _ _ Hi), Hz. apply u32_small. rewrite CString.CString.zlen_cons in Hlt.
    pose proof (zlen_nonneg (concat xss)). unfold in_u32. lia.
  - intros x y. rewrite Hc, !elem_of_cons. intros [->|Hx] [->|Hy] Hxy; [done| | |by apply Hi].
    + by destruct (Hnew y Hy (eqv_sym _ _ Hxy)).
    + by destruct (Hnew x Hx).
  - apply eq_None_not_Some. rewrite Hd, (hi_null _ _ Hi). by intros [].
  - destruct (hi_brk _ _ Hi) as (H1 & H2 & H3). split; [done|]. split; [done|]. intros q. rewrite Hd. apply H3.
  - intros x. rewrite Hc, elem_of_cons. intros [->|Hx]; [done|by apply Hi].
  - intros x Hx. destruct (hi_client _ _ Hi x Hx) as (H1 & H2 & H3). split; [done|].
    split; [by apply Hd|by rewrite Hl].
Qed.

Lemma placed_remove xss i xs x ys : placed xss → xss !! i = Some (xs ++ x :: ys) → placed (<[i := xs ++ ys]> xss).
Proof.
  intros Hp Hi j zs z. assert (zlen (<[i := xs ++ ys]> xss) = zlen xss) as ->
    by (unfold zlen; by rewrite length_insert).
  destruct (decide (j = i)) as [->|Hne].
  - rewrite list_lookup_insert_eq by (by eapply lookup_lt_Some). intros [= <-] Hz.
    eapply Hp; [exact Hi|]. rewrite elem_of_app, elem_of_cons. apply elem_of_app in Hz. tauto.
  - rewrite list_lookup_insert_ne by done. by apply Hp.
Qed.

Lemma remove_elem_ok s xss x : hinv s xss → x ∈ concat xss →
  ∃ s' xss', remove_elem x s = Ok (tt, s') ∧ hinv s' xss' ∧ concat xss ≡ₚ x :: concat xss' ∧
    buckets (tab s') = buckets (tab s) ∧ length xss' = length xss.
Proof.
  intros Hi Hx. destruct (elem_of_pick _ _ Hx) as (i & zs & Hzs & Hxz).
  apply list_elem_of_split in Hxz as (xs & ys & ->).
  destruct (table_pick _ (buckets (tab s)) _ _ Hzs) as (rest & E1 & E2).
  destruct (concat_pick _ _ _ Hzs) as (crest & C1 & C2).
  pose proof (hi_forest _ _ Hi) as Hf. rewrite E1 in Hf.
  destruct (forest_remove _ _ _ _ _ _ Hf) as (h' & E & Hf' & Hd & _).
  assert (concat xss ≡ₚ x :: concat (<[i := xs ++ ys]> xss)) as Hc.
  { rewrite C1, C2. by rewrite <- Permutation_middle. }
  assert (zlen (concat xss) = zlen (concat (<[i := xs ++ ys]> xss)) + 1) as Hz
    by (unfold zlen; rewrite Hc; simpl; lia).
  unfold remove_elem, set_tab. run. set (s1 := mk_hstate (hheap s) _ _ _).
  rewrite (bind_ok _ _ _ _ _ (on_heap_ok _ s1 _ _ E)).
  exists (with_heap h' s1), (<[i := xs ++ ys]> xss). split; [done|].
  split; [|split; [done|split; [done|by rewrite length_insert]]].
  split; unfold s1; cbn [with_heap hheap tab buckets elem_cnt brk].
  - by rewrite E2.
  - eapply sized_length; [|by rewrite length_insert]. apply Hi.
  - eapply placed_remove; [apply Hi|done].
  - rewrite (hi_count _ _ Hi), Hz. pose proof (count_range _ _ Hi) as Hlt.
    pose proof (zlen_nonneg (concat (<[i:=xs ++ ys]> xss))). rewrite u32_small by (unfold in_u32; lia). lia.
  - intros y z Hy Hz'. apply Hi; rewrite Hc; by right.
  - apply eq_None_not_Some. rewrite Hd, (hi_null _ _ Hi). by intros [].
  - destruct (hi_brk _ _ Hi) as (H1 & H2 & H3). split; [done|]. split; [done|]. intros q. rewrite Hd. apply H3.
  - intros y Hy. apply Hi. rewrite Hc. by right.
  - intros y Hy. destruct (hi_client _ _ Hi y Hy) as (H1 & H2 & H3). split; [done|].
    split; [by apply Hd|by rewrite length_insert].
Qed.

(** ** The set a table stands for *)

Definition represents (s : hstate) (E : gset Z) : Prop :=
  ∃ xss, hinv s xss ∧ E = list_to_set (concat xss).

(** The element of [E] equal to [e], or a null pointer. *)
Definition find_eq (E : gset Z) (e : Z) : Z := default NULL (head (filter (λ x, eqv less x e) (elements E))).

Lemma find_eq_some (E : gset Z) x e : (∀ y, y ∈ E → eqv less y e → y = x) → x ∈ E → eqv less x e →
  find_eq E e = x.
Proof.
  intros Hu Hx He. unfold find_eq. destruct (filter (λ x, eqv less x e) (elements E)) as [|y fs] eqn:Ef.
  - assert (x ∈ filter (λ x, eqv less x e) (elements E)) as Hin
      by (apply list_elem_of_filter; split; [done|by apply elem_of_elements]).
    rewrite Ef in Hin. by apply not_elem_of_nil in Hin.
  - assert (y ∈ filter (λ x, eqv less x e) (elements E)) as [Hy Hye]%list_elem_of_filter by (rewrite Ef; left).
    cbn. apply Hu; [by apply elem_of_elements|done].
Qed.

Lemma find_eq_none (E : gset Z) e : (∀ x, x ∈ E → ¬ eqv less x e) → find_eq E e = NULL.
Proof.
  intros Hn. unfold find_eq. destruct (filter (λ x, eqv less x e) (elements E)) as [|y fs] eqn:Ef; [done|].
  assert (y ∈ filter (λ x, eqv less x e) (elements E)) as [Hy Hye]%list_elem_of_filter by (rewrite Ef; left).
  apply elem_of_elements in Hye. by destruct (Hn y).
Qed.

(** Looking for [e]: the bucket, what is found there, and its meaning. *)
Lemma lookup_ok s xss e : hinv s xss → ∃ b r,
  find_bucket hashf e s = Ok (b, s) ∧ b = buckets (tab s) + 16 * Z.of_nat (idx (zlen xss) e) ∧
  find_elem less b e s = Ok (r, s) ∧ r = find_eq (list_to_set (concat xss)) e ∧
  ((r ∈ concat xss ∧ eqv less r e ∧ r ≠ NULL) ∨ (r = NULL ∧ ∀ x, x ∈ concat xss → ¬ eqv less x e)).
Proof.
  intros Hi. destruct (find_bucket_ok s xss e (hi_sized _ _ Hi)) as [Eb [xs Hxs]].
  eexists _, (find_in e xs). split; [exact Eb|]. split; [done|]. split.
  { apply find_elem_ok. destruct (table_pick _ (buckets (tab s)) _ _ Hxs) as (rest & E1 & _).
    apply Hi. rewrite E1. left. }
  destruct (find_in_bucket s xss e xs Hi Hxs) as [(x & -> & _ & Hx & He & Hn)|[-> Hnone]].
  - split; [|by left]. symmetry. apply find_eq_some; [|by apply elem_of_list_to_set|done].
    intros y Hy%elem_of_list_to_set Hye. apply (hi_keys _ _ Hi); [done|done|].
    eapply (hs_trans _ _ Hh); [done|]. by apply eqv_sym.
  - split; [|by right]. symmetry. apply find_eq_none. intros x Hx%elem_of_list_to_set. by apply Hnone.
Qed.

Lemma hash_find_ok s E e : represents s E → hash_find hashf less e s = Ok (find_eq E e, s).
Proof.
  intros (xss & Hi & ->). destruct (lookup_ok s xss e Hi) as (b & r & Eb & _ & Er & -> & _).
  unfold hash_find. by rewrite (bind_ok _ _ _ _ _ Eb).
Qed.

Lemma rehash_represents s E : represents s E → ∃ s', rehash hashf s = Ok (tt, s') ∧ represents s' E.
Proof.
  intros (xss & Hi & ->). destruct (rehash_ok s xss Hi) as (s' & yss & Er & Hi' & Hc).
  exists s'. split; [done|]. exists yss. split; [done|]. apply set_eq. intros x.
  by rewrite !elem_of_list_to_set, Hc.
Qed.

Lemma hash_insert_ok s E e : represents s E → C e →
  ∃ s', hash_insert hashf less e s = Ok (find_eq E e, s') ∧
    represents s' (if decide (find_eq E e = NULL) then {[ e ]} ∪ E else E).
Proof.
  intros Hrep He. pose proof Hrep as (xss & Hi & ->).
  destruct (lookup_ok s xss e Hi) as (b & r & Eb & Hb & Er & Hr & Hcase).
  unfold hash_insert. rewrite (bind_ok _ _ _ _ _ Eb), (bind_ok _ _ _ _ _ Er). rewrite <- Hr.
  destruct Hcase as [(Hx & Hxe & Hn)|[-> Hnone]].
  - rewrite (proj2 (Z.eqb_neq r NULL)), decide_False by done. run.
    destruct (rehash_represents _ _ Hrep) as (s' & E' & Hrep'). rewrite (bind_ok _ _ _ _ _ E'). by exists s'.
  - rewrite Z.eqb_refl, decide_True by done. subst b.
    destruct (insert_elem_ok s xss e Hi He Hnone) as (s1 & yss & E1 & Hi1 & Hc1).
    rewrite (bind_ok _ _ _ _ _ E1).
    destruct (rehash_represents s1 ({[ e ]} ∪ list_to_set (concat xss))) as (s' & E' & Hrep').
    { exists yss. split; [done|]. apply set_eq. intros x.
      rewrite elem_of_union, elem_of_singleton, !elem_of_list_to_set, Hc1, elem_of_cons. done. }
    rewrite (bind_ok _ _ _ _ _ E'). by exists s'.
Qed.

(** Removing the element found for [e]. *)
Lemma remove_found s xss e x : hinv s xss → x ∈ concat xss → eqv less x e →
  ∃ s' yss, remove_elem x s = Ok (tt, s') ∧ hinv s' yss ∧
    list_to_set (concat yss) = (list_to_set (concat xss) : gset Z) ∖ {[ x ]} ∧
    (∀ y, y ∈ concat yss → ¬ eqv less y e) ∧
    buckets (tab s') = buckets (tab s) ∧ length yss = length xss.
Proof.
  intros Hi Hx He. destruct (remove_elem_ok s xss x Hi Hx) as (s' & yss & E & Hi' & Hc & Hb & Hl).
  pose proof (hinv_nodup _ _ Hi) as Hnd. rewrite Hc in Hnd. apply NoDup_cons in Hnd as [Hnx _].
  exists s', yss. split; [done|]. split; [done|]. split.
  { apply set_eq. intros y. rewrite elem_of_difference, elem_of_singleton, !elem_of_list_to_set, Hc, elem_of_cons.
    split; [|tauto]. intros Hy. split; [by right|]. by intros ->. }
  split; [|done]. intros y Hy Hye. assert (y = x) as ->; [|done].
  apply (hi_keys _ _ Hi); [rewrite Hc; by right|done|]. eapply (hs_trans _ _ Hh); [done|]. by apply eqv_sym.
Qed.

Lemma hash_replace_ok s E e : represents s E → C e →
  ∃ s', hash_replace hashf less e s = Ok (find_eq E e, s') ∧ represents s' ({[ e ]} ∪ E ∖ {[ find_eq E e ]}).
Proof.
  intros Hrep He. pose proof Hrep as (xss & Hi & ->).
  destruct (lookup_ok s xss e Hi) as (b & r & Eb & Hb & Er & Hr & Hcase).
  unfold hash_replace. rewrite (bind_ok _ _ _ _ _ Eb), (bind_ok _ _ _ _ _ Er). rewrite <- Hr. subst b.
  assert (∃ s1 yss, (if negb (r =? NULL) then remove_elem r else ret tt) s = Ok (tt, s1) ∧ hinv s1 yss ∧
    list_to_set (concat yss) = (list_to_set (concat xss) : gset Z) ∖ {[ r ]} ∧
    (∀ y, y ∈ concat yss → ¬ eqv less y e) ∧
    buckets (tab s1) = buckets (tab s) ∧ length yss = length xss) as (s1 & yss & E1 & Hi1 & Hs1 & Hno & Hb1 & Hl1).
  { destruct Hcase as [(Hx & Hxe & Hn)|[-> Hnone]].
    - rewrite (proj2 (Z.eqb_neq r NULL)) by done. by apply remove_found.
    - exists s, xss. split; [done|]. split; [done|]. split; [|done]. symmetry. apply difference_disjoint_L.
      intros x Hx%elem_of_list_to_set ->%elem_of_singleton.
      destruct (hi_client _ _ Hi NULL (hi_member _ _ Hi _ Hx)) as [? _]. unfold NULL in *. lia. }
  rewrite (bind_ok _ _ _ _ _ E1).
  destruct (insert_elem_ok s1 yss e Hi1 He Hno) as (s2 & zss & E2 & Hi2 & Hc2).
  unfold zlen in E2. rewrite Hb1, Hl1 in E2. rewrite (bind_ok _ _ _ _ _ E2).
  destruct (rehash_represents s2 ({[ e ]} ∪ list_to_set (concat xss) ∖ {[ r ]})) as (s' & E' & Hrep').
  { exists zss. split; [done|]. rewrite <- Hs1. apply set_eq. intros x.
    rewrite elem_of_union, elem_of_singleton, !elem_of_list_to_set, Hc2, elem_of_cons. done. }
  rewrite (bind_ok _ _ _ _ _ E'). by exists s'.
Qed.

Lemma hash_delete_ok s E e : represents s E →
  ∃ s', hash_delete hashf less e s = Ok (find_eq E e, s') ∧ represents s' (E ∖ {[ find_eq E e ]}).
Proof.
  intros Hrep. pose proof Hrep as (xss & Hi & ->).
  destruct (lookup_ok s xss e Hi) as (b & r & Eb & Hb & Er & Hr & Hcase).
  unfold hash_delete. rewrite (bind_ok _ _ _ _ _ Eb), (bind_ok _ _ _ _ _ Er). rewrite <- Hr.
  destruct Hcase as [(Hx & Hxe & Hn)|[-> Hnone]].
  - rewrite (proj2 (Z.eqb_neq r NULL)) by done. cbn [negb].
    destruct (remove_found s xss e r Hi Hx Hxe) as (s1 & yss & E1 & Hi1 & Hs1 & _).
    rewrite bind_assoc, (bind_ok _ _ _ _ _ E1).
    destruct (rehash_represents s1 (list_to_set (concat xss) ∖ {[ r ]})) as (s' & E' & Hrep').
    { exists yss. by rewrite Hs1. }
    rewrite (bind_ok _ _ _ _ _ E'). by exists s'.
  - cbn. exists s. split; [done|]. exists xss. split; [done|]. apply difference_disjoint_L.
    intros x Hx%elem_of_list_to_set ->%elem_of_singleton.
    destruct (hi_client _ _ Hi NULL (hi_member _ _ Hi _ Hx)) as [? _]. unfold NULL in *. lia.
Qed.

Lemma hash_size_ok s E : represents s E → hash_size s = Ok (Z.of_nat (size E), s).
Proof.
  intros (xss & Hi & ->). unfold hash_size. run. rewrite (hi_count _ _ Hi). unfold ret, zlen.
  by rewrite size_list_to_set by (by eapply hinv_nodup).
Qed.

(** ** Iteration *)

Lemma bucket_list s xss j xs : hinv s xss → xss !! j = Some xs →
  is_list (hheap s) (buckets (tab s) + 16 * Z.of_nat j) xs.
Proof.
  intros Hi Hj. destruct (table_pick _ (buckets (tab s)) _ _ Hj) as (rest & E & _).
  apply Hi. rewrite E. left.
Qed.

(** The loop of hash_next() finds the first element that is left: those of
    the rest [ys] of bucket [j], then those of the buckets after it. *)
Lemma next_loop_ok s xss n : hinv s xss → ∀ j ws ys, xss !! j = Some (ws ++ ys) → (length xss - j <= n)%nat →
  let b := buckets (tab s) + 16 * Z.of_nat j in
  match ys ++ concat (drop (S j) xss) with
  | [] => ∃ b', next_loop n (mk_iter b (fst_of ys (tail_of b))) s = Ok (mk_iter b' NULL, s)
  | x :: rem => ∃ j' ws' ys', xss !! j' = Some (ws' ++ x :: ys') ∧ rem = ys' ++ concat (drop (S j') xss) ∧
      next_loop n (mk_iter b (fst_of ys (tail_of b))) s =
        Ok (mk_iter (buckets (tab s) + 16 * Z.of_nat j') x, s)
  end.
Proof.
  intros Hi. destruct (hi_sized _ _ Hi) as (Hbc & _).
  induction n as [|n IH]; intros j ws ys Hj Hn b;
    pose proof (lookup_lt_Some _ _ _ Hj) as Hlt; [lia|].
  pose proof (bucket_list s xss j _ Hi Hj) as Hl. fold b in Hl.
  cbn [next_loop it_bucket it_elem]. rewrite (run_heap_end _ _ _ _ Hl).
  destruct ys as [|y ys]; cbn [fst_of app].
  2: { rewrite (proj2 (Z.eqb_neq y (tail_of b))) by (apply (cursor_neq (hheap s) b ws y ys []); by rewrite app_nil_r).
       by exists j, ws, ys. }
  rewrite Z.eqb_refl. run. rewrite Hbc. unfold zlen.
  destruct (Z.geb_spec (b + 16) (buckets (tab s) + 16 * Z.of_nat (length xss))) as [Hge|Hlt'].
  - rewrite drop_ge by lia. cbn [concat]. by eexists.
  - destruct (lookup_lt_is_Some_2 xss (S j) ltac:(lia)) as [zs Hzs].
    pose proof (bucket_list s xss _ _ Hi Hzs) as Hl'.
    replace (buckets (tab s) + 16 * Z.of_nat (S j)) with (b + 16) in Hl' by lia.
    rewrite (run_heap_begin _ _ _ _ Hl').
    specialize (IH (S j) [] zs Hzs ltac:(lia)). cbv zeta in IH.
    replace (buckets (tab s) + 16 * Z.of_nat (S j)) with (b + 16) in IH by lia.
    rewrite (drop_S _ _ _ Hzs). cbn [concat]. exact IH.
Qed.

Lemma list_next_head h l xs : is_list h l xs → list_next l h = Ok (fst_of xs (tail_of l), h).
Proof.
  intros Hl. pose proof (il_chain _ _ _ Hl) as Hc. destruct (fst_of_cons xs (tail_of l)) as [B EB].
  rewrite EB in Hc. destruct Hc as [[Hn Hp] _].
  assert (l ≠ NULL) by (eapply node_nonnull; [exact Hl|left]).
  assert (fst_of xs (tail_of l) ≠ NULL).
  { eapply node_nonnull; [exact Hl|]. unfold nodes. rewrite EB. right. left. }
  unfold list_next. rewrite (run_has_next h l NULL (fst_of xs (tail_of l))); [|done|done|apply Hl|done].
  cbv beta. rewrite bind_assert by done. by apply next_of_eq.
Qed.

(** hash_next() from the element before [ys] in bucket [j], or from its
    head. *)
Lemma hash_next_ok s xss j ws ys cur : hinv s xss → xss !! j = Some (ws ++ ys) →
  let b := buckets (tab s) + 16 * Z.of_nat j in
  (ws = [] ∧ cur = b) ∨ (∃ ws', ws = ws' ++ [cur]) →
  match ys ++ concat (drop (S j) xss) with
  | [] => ∃ i', hash_next (mk_iter b cur) s = Ok ((NULL, i'), s)
  | x :: rem => ∃ j' ws' ys', xss !! j' = Some (ws' ++ x :: ys') ∧ rem = ys' ++ concat (drop (S j') xss) ∧
      hash_next (mk_iter b cur) s = Ok ((x, mk_iter (buckets (tab s) + 16 * Z.of_nat j') x), s)
  end.
Proof.
  intros Hi Hj b Hcur. pose proof (bucket_list s xss j _ Hi Hj) as Hl. fold b in Hl.
  destruct (hi_sized _ _ Hi) as (Hbc & _).
  pose proof (next_loop_ok s xss (Z.to_nat (bucket_cnt (tab s))) Hi j ws ys Hj
    ltac:(rewrite Hbc; unfold zlen; lia)) as Hloop. cbv zeta in Hloop. fold b in Hloop.
  assert (list_next cur (hheap s) = Ok (fst_of ys (tail_of b), hheap s)) as En.
  { destruct Hcur as [[-> ->]|[ws' ->]]; [by apply list_next_head|].
    rewrite <- app_assoc in Hl. apply bind_ret_r. exact (run_list_next _ _ _ _ _ ret Hl). }
  unfold hash_next. run. cbn [it_elem it_bucket].
  rewrite (bind_ok _ _ _ _ _ (on_heap_ok _ _ _ _ En)), with_heap_same.
  destruct (ys ++ concat (drop (S j) xss)) as [|x rem].
  - destruct Hloop as (b' & E). rewrite (bind_ok _ _ _ _ _ E). by eexists.
  - destruct Hloop as (j' & ws' & ys' & H1 & H2 & E). exists j', ws', ys'. split; [done|]. split; [done|].
    by rewrite (bind_ok _ _ _ _ _ E).
Qed.

(** [while (hash_next (&i)) ...], the elements in the order they are
    visited. *)
Fixpoint iterate (n : nat) (i : hash_iterator) : M hstate (list Z) :=
  match n with
  | O => no_fuel
  | S n =>
      let* (e, i) := hash_next i in
      if e =? NULL then ret []
      else let* es := iterate n i in ret (hash_cur i :: es)
  end.

Definition visit_all (n : nat) : M hstate (list Z) := let* i := hash_first in iterate n i.

Lemma iterate_ok s xss n : hinv s xss → ∀ j ws ys cur, xss !! j = Some (ws ++ ys) →
  (ws = [] ∧ cur = buckets (tab s) + 16 * Z.of_nat j) ∨ (∃ ws', ws = ws' ++ [cur]) →
  (length (ys ++ concat (drop (S j) xss)) < n)%nat →
  iterate n (mk_iter (buckets (tab s) + 16 * Z.of_nat j) cur) s = Ok (ys ++ concat (drop (S j) xss), s).
Proof.
  intros Hi. induction n as [|n IH]; intros j ws ys cur Hj Hcur Hn; [lia|]. cbn [iterate].
  pose proof (hash_next_ok s xss j ws ys cur Hi Hj Hcur) as Hnext. cbv zeta in Hnext.
  destruct (ys ++ concat (drop (S j) xss)) as [|x rem].
  - destruct Hnext as (i' & E). by rewrite (bind_ok _ _ _ _ _ E).
  - destruct Hnext as (j' & ws' & ys' & H1 & -> & E). rewrite (bind_ok _ _ _ _ _ E).
    assert (x ∈ concat xss) as Hx.
    { destruct (concat_pick _ _ _ H1) as (rest & -> & _). apply elem_of_app. left. apply elem_of_app. right. left. }
    destruct (hi_client _ _ Hi x (hi_member _ _ Hi x Hx)) as [H0 _].
    rewrite (proj2 (Z.eqb_neq x NULL)) by (unfold NULL; lia).
    rewrite (bind_ok _ _ s (ys' ++ concat (drop (S j') xss)) s); [done|].
    apply (IH j' (ws' ++ [x])); [by rewrite <- app_assoc|right; by eexists|simpl in Hn; lia].
Qed.

Lemma visit_all_ok s xss n : hinv s xss → (length (concat xss) < n)%nat →
  visit_all n s = Ok (concat xss, s).
Proof.
  intros Hi Hn. unfold visit_all, hash_first. run.
  destruct (hi_sized _ _ Hi) as (_ & k & Hk & Ek). assert (0 < 2 ^ k) by (apply Z.pow_pos_nonneg; lia).
  destruct xss as [|xs xss]; [change (zlen []) with 0 in Ek; lia|].
  assert (buckets (tab s) ≠ NULL) by (destruct (hi_brk _ _ Hi) as (_ & ? & _); unfold NULL; lia).
  assert (list_head (buckets (tab s)) (hheap s) = Ok (buckets (tab s), hheap s)) as Eh
    by (unfold list_head; by rewrite bind_assert by (by rewrite (proj2 (Z.eqb_neq _ NULL)))).
  rewrite (bind_ok _ _ _ _ _ (on_heap_ok _ _ _ _ Eh)), with_heap_same. run.
  pose proof (iterate_ok s (xs :: xss) n Hi 0 [] xs (buckets (tab s)) eq_refl) as Hit.
  change (Z.of_nat 0) with 0 in Hit. rewrite Z.mul_0_r, Z.add_0_r in Hit. apply Hit; [by left|done].
Qed.

(** ** Initialisation and programs *)

(** The state before hash_init(): the elements [C] exist. *)
Definition fresh_state (s : hstate) : Prop :=
  hheap s !! NULL = None ∧ 0 < brk s <= 4294967296 ∧ (∀ q, is_Some (hheap s !! q) → q < brk s) ∧
  (∀ e, C e → 0 < e ∧ is_Some (hheap s !! e)).

Lemma clear_loop_init n : ∀ a s, clear_loop n None a s = on_heap (init_loop n a) s.
Proof.
  induction n as [|n IH]; intros a s; cbn [clear_loop init_loop]; [by destruct s|]. run.
  unfold bind, on_heap, lift. destruct (list_init a (hheap s)) as [[[] h]| | |h r|] eqn:E; try done.
  - cbn [obind olift]. rewrite IH. unfold on_heap, lift. cbn.
    by destruct (init_loop n (a + 16) h) as [[[] h']| | | |].
  - exfalso. assert (atomic (list_init a)) as Ha; [|by apply (Ha _ _ _ E)].
    unfold list_init, set_prev, set_next, elem_at. atomic.
Qed.

Lemma hash_init_ok s : fresh_state s →
  ∃ b s', hash_init s = Ok (b, s') ∧ (b = true → represents s' ∅).
Proof.
  intros (Hnull & Hb1 & Hb2 & Hc). unfold hash_init, set_tab. run.
  set (s0 := mk_hstate (hheap s) (brk s) (oom s) _).
  destruct (malloc_lists_ok 4 s0 ltac:(lia)) as (o & [E|[Hlt E]]); cbn [hheap brk oom tab s0] in E.
  { change MIN_BUCKETS with 4. rewrite (bind_ok _ _ _ _ _ E). run. by eexists _, _. }
  change MIN_BUCKETS with 4. rewrite (bind_ok _ _ _ _ _ E). run. cbn [hheap brk oom tab] in *.
  rewrite (proj2 (Z.eqb_neq (brk s) NULL)) by (unfold NULL; lia). cbn [negb].
  set (h1 := foldr _ _ _).
  assert (h1 !! NULL = None) as Hnull1.
  { unfold h1. rewrite lookup_alloc, decide_False; [done|]. intros Hq%storage_range. unfold NULL in *. lia. }
  destruct (init_loop_ok 4 (brk s) h1 []) as (h2 & E2 & Hf2 & Hd2); [lia|split; [by intros ? ? []%not_elem_of_nil|constructor]|done| |].
  { intros q Hq. unfold h1. rewrite lookup_alloc, decide_True by done. split; [by eexists|]. apply not_elem_of_nil. }
  unfold hash_clear, set_tab. run. cbn [tab bucket_cnt buckets].
  rewrite (bind_ok _ _ _ _ _ (eq_trans (clear_loop_init _ _ _) (on_heap_ok _ (mk_hstate h1 _ o _) _ _ E2))). run.
  eexists true, _. split; [done|]. intros _. rewrite app_nil_r in Hf2.
  exists (replicate 4 []). split; [|done].
  assert (∀ q, is_Some (h2 !! q) ↔ is_Some (hheap s !! q) ∨ q ∈ storage (brk s) 4) as Hd.
  { intros q. rewrite Hd2. unfold h1. rewrite lookup_alloc. case_decide; [split; [by right|by eexists]|tauto]. }
  split; cbn [with_heap hheap tab buckets elem_cnt brk bucket_cnt].
  - done.
  - split; [done|]. by exists 2.
  - apply placed_empty.
  - done.
  - intros x y []%not_elem_of_nil.
  - apply eq_None_not_Some. rewrite Hd, Hnull. intros [[? ?]|Hq%storage_range]; [done|]. unfold NULL in *. lia.
  - unfold s0 in Hlt. cbn [brk] in Hlt. split; [lia|]. split; [lia|]. intros q. rewrite Hd. intros [Hq%Hb2|Hq%storage_range]; lia.
  - intros x []%not_elem_of_nil.
  - intros e He. destruct (Hc e He) as [H0 Hs]. split; [done|]. split; [apply Hd; by left|].
    intros Hq%storage_range. specialize (Hb2 e Hs). lia.
Qed.

Inductive hop := Insert (e : Z) | Replace (e : Z) | Find (e : Z) | Delete (e : Z) | Size.

Definition hexec (o : hop) : M hstate Z :=
  match o with
  | Insert e => hash_insert hashf less e
  | Replace e => hash_replace hashf less e
  | Find e => hash_find hashf less e
  | Delete e => hash_delete hashf less e
  | Size => hash_size
  end.

(** The same on a set. *)
Definition hspec (o : hop) : M (gset Z) Z :=
  let* E := get in
  match o with
  | Insert e => modify (λ E, if decide (find_eq E e = NULL) then {[ e ]} ∪ E else E);;; ret (find_eq E e)
  | Replace e => modify (λ E, {[ e ]} ∪ E ∖ {[ find_eq E e ]});;; ret (find_eq E e)
  | Find e => ret (find_eq E e)
  | Delete e => modify (λ E, E ∖ {[ find_eq E e ]});;; ret (find_eq E e)
  | Size => ret (Z.of_nat (size E))
  end.

Fixpoint hprogram {S} (f : hop → M S Z) (os : list hop) : M S (list Z) :=
  match os with
  | [] => ret []
  | o :: os => let* r := f o in let* rs := hprogram f os in ret (r :: rs)
  end.

(** The elements a program puts into the table. *)
Definition admissible (o : hop) : Prop := match o with Insert e | Replace e => C e | _ => True end.

Lemma hexec_ok s E o : represents s E → admissible o →
  ∃ r s' E', hexec o s = Ok (r, s') ∧ hspec o E = Ok (r, E') ∧ represents s' E'.
Proof.
  intros Hr Ho. unfold hspec, bind, get. destruct o as [e|e|e|e|]; cbn [hexec admissible] in *.
  - destruct (hash_insert_ok s E e Hr Ho) as (s' & E1 & Hr'). by eexists _, s', _.
  - destruct (hash_replace_ok s E e Hr Ho) as (s' & E1 & Hr'). by eexists _, s', _.
  - exists (find_eq E e), s, E. split; [by apply hash_find_ok|done].
  - destruct (hash_delete_ok s E e Hr) as (s' & E1 & Hr'). by eexists _, s', _.
  - exists (Z.of_nat (size E)), s, E. split; [by apply hash_size_ok|done].
Qed.

Lemma hprogram_ok os : ∀ s E, represents s E → Forall admissible os →
  ∃ rs s' E', hprogram hexec os s = Ok (rs, s') ∧ hprogram hspec os E = Ok (rs, E') ∧ represents s' E'.
Proof.
  induction os as [|o os IH]; intros s E Hr Hos; [by exists [], s, E|].
  apply Forall_cons in Hos as [Ho Hos]. cbn [hprogram].
  destruct (hexec_ok s E o Hr Ho) as (r & s1 & E1 & H1 & H2 & Hr1).
  destruct (IH s1 E1 Hr1 Hos) as (rs & s2 & E2 & H3 & H4 & Hr2).
  exists (r :: rs), s2, E2. rewrite (bind_ok _ _ _ _ _ H1), (bind_ok _ _ _ _ _ H2).
  rewrite (bind_ok _ _ _ _ _ H3), (bind_ok _ _ _ _ _ H4). done.
Qed.

End spec.

(** ** The theorems *)

(** C8. A hash table is a set with one element of each class of equal
    elements.  After hash_init(), any program of insertions, replacements,
    searches, deletions and size queries returns, and returns what it returns
    on a mathematical set, whatever malloc() answers to the rehashing. *)
Theorem hash_refines_set hashf less C s os :
  hashable hashf less → fresh_state C s → Forall (admissible C) os →
  ∃ b s1, hash_init s = Ok (b, s1) ∧
    (b = true → ∃ rs s2 E, hprogram (hexec hashf less) os s1 = Ok (rs, s2) ∧
       hprogram (hspec less) os ∅ = Ok (rs, E) ∧ represents hashf less C s2 E).
Proof.
  intros Hh Hf Hos. destruct (hash_init_ok hashf less Hh C s Hf) as (b & s1 & E & Hr).
  exists b, s1. split; [done|]. intros Hb. by apply hprogram_ok; [|apply Hr|].
Qed.

(** Iterating over a hash table visits every element of the set it
    stands for exactly once and changes nothing. *)
Theorem hash_iteration_complete hashf less C s E n :
  represents hashf less C s E → (size E < n)%nat →
  ∃ es, visit_all n s = Ok (es, s) ∧ NoDup es ∧ list_to_set es = E.
Proof.
  intros (xss & Hi & ->) Hn. pose proof (hinv_nodup _ _ _ _ _ Hi) as Hnd.
  rewrite size_list_to_set in Hn by done. exists (concat xss).
  split; [by eapply visit_all_ok|done].
Qed.

(** ** Example: elements with a key *)

(** Elements 100 and 108 have the key 1, element 200 the key 2, and so on. *)
Definition key_hash (e : Z) : Z := u32 (e / 100).
Definition key_less (a b : Z) : bool := a / 100 <? b / 100.
Definition demo_client (e : Z) : Prop := e ∈ [100; 108; 200; 300; 400; 500; 600; 700; 800; 900; 1000].
Definition demo_hstate : hstate :=
  mk_hstate (list_to_map ((λ e, (e, mk_elem 0 0)) <$> [100; 108; 200; 300; 400; 500; 600; 700; 800; 900; 1000]))
    4096 [false; true; false] (mk_hash 0 0 0).
Definition demo_ops : list hop :=
  [Insert 100; Insert 108; Insert 200; Replace 108; Find 100; Delete 200; Find 200; Insert 300; Insert 400;
   Insert 500; Insert 600; Insert 700; Insert 800; Insert 900; Insert 1000; Insert 200; Size].

Lemma key_hashable : hashable key_hash key_less.
Proof.
  split; unfold key_hash, key_less, eqv.
  - intros x. rewrite Z.ltb_irrefl. done.
  - intros x y z [H1 H2] [H3 H4]. bool_hyps. split; apply Z.ltb_ge; lia.
  - intros x y [H1 H2]. bool_hyps. f_equal. lia.
  - intros x. apply u32_range.
Qed.

Lemma demo_fresh : fresh_state demo_client demo_hstate.
Proof.
  split; [vm_compute; reflexivity|]. split; [cbn; lia|]. split.
  - assert (∀ e, e ∈ map_to_list (hheap demo_hstate) → e.1 < 4096) as Hall.
    { apply Forall_forall. apply (bool_decide_unpack _). vm_compute. exact I. }
    intros q [e He]. apply elem_of_map_to_list in He. exact (Hall _ He).
  - assert (Forall (λ e, 0 < e ∧ is_Some (hheap demo_hstate !! e))
      [100; 108; 200; 300; 400; 500; 600; 700; 800; 900; 1000]) as Hall
      by (repeat constructor; try lia; vm_compute; by eexists).
    rewrite Forall_forall in Hall. exact Hall.
Qed.

Lemma demo_admissible : Forall (admissible demo_client) demo_ops.
Proof. unfold demo_ops. repeat constructor; unfold admissible, demo_client; set_solver. Qed.

Lemma hash_refines_set_witness :
  ∃ b s1, hash_init demo_hstate = Ok (b, s1) ∧
    (b = true → ∃ rs s2 E, hprogram (hexec key_hash key_less) demo_ops s1 = Ok (rs, s2) ∧
       hprogram (hspec key_less) demo_ops ∅ = Ok (rs, E) ∧ represents key_hash key_less demo_client s2 E).
Proof.
  apply hash_refines_set; [exact key_hashable|exact demo_fresh|exact demo_admissible].
Defined.

Definition demo_empty : hstate :=
  match hash_init demo_hstate with Ok (_, s) => s | _ => demo_hstate end.
Definition demo_table : hstate :=
  match hprogram (hexec key_hash key_less) [Insert 100; Insert 300; Insert 700] demo_empty with
  | Ok (_, s) => s
  | _ => demo_hstate
  end.

Lemma hash_iteration_complete_witness :
  ∃ es, visit_all 4 demo_table = Ok (es, demo_table) ∧ NoDup es ∧ list_to_set es = ({[ 100; 300; 700 ]} : gset Z).
Proof.
  apply (hash_iteration_complete key_hash key_less demo_client); [|vm_compute; lia].
  destruct (hash_init_ok key_hash key_less key_hashable demo_client demo_hstate demo_fresh) as (b & s1 & E1 & Hr).
  assert (b = true ∧ s1 = demo_empty) as [-> ->].
  { unfold demo_empty. split; [|by rewrite E1].
    assert (match hash_init demo_hstate with Ok (b, _) => b | _ => false end = true) as Hb by (vm_compute; reflexivity).
    by rewrite E1 in Hb. }
  destruct (hprogram_ok key_hash key_less key_hashable demo_client
    [Insert 100; Insert 300; Insert 700] demo_empty ∅ (Hr eq_refl)) as (rs & s2 & E & H1 & H2 & Hr2).
  { repeat constructor; unfold admissible, demo_client; set_solver. }
  unfold demo_table. rewrite H1.
  assert (match hprogram (hspec key_less) [Insert 100; Insert 300; Insert 700] ∅ with
          | Ok (_, E) => E | _ => ∅ end = ({[ 100; 300; 700 ]} : gset Z)) as He
    by (apply (bool_decide_unpack _); vm_compute; exact I).
  rewrite H2 in He. by rewrite <- He.
Defined.

End HashSpec.
