(* ===== verification/Bitmap.v ===== *)
(** * Bitmap: lib/kernel/bitmap.c

    A bitmap is an array of 32-bit elements that simulates an array of bits;
    the page allocator and the free map keep their allocation state in one.
    [bitmap] is [struct bitmap]; each routine is a computation over it, with
    its assertions and with a [Fault] where the C code would index past
    [bits].  [bm_abs] is the array of bits a bitmap stands for, and the lemmas
    show each routine implements the obvious operation on that array. *)

From Stdlib Require Import ZArith Lia.
From stdpp Require Import base tactics option list numbers.
From S2P Require Import Prelude.

Module Bitmap.

(** ** Data *)

Definition ELEM_BITS : Z := 32.
Definition BITMAP_ERROR : Z := 4294967295.

Record bitmap := mk_bitmap { bit_cnt : Z; bits : list Z }.

Definition elem_idx (bit_idx : Z) : Z := bit_idx / ELEM_BITS.

Definition bit_mask (bit_idx : Z) : Z := u32 (Z.shiftl 1 (bit_idx mod ELEM_BITS)).

Definition elem_cnt (bit_cnt : Z) : Z := div_round_up bit_cnt ELEM_BITS.

Definition byte_cnt (bit_cnt : Z) : Z := 4 * elem_cnt bit_cnt.

Definition last_mask (b : bitmap) : Z :=
  let last_bits := bit_cnt b mod ELEM_BITS in
  if last_bits =? 0 then u32 (-1) else u32 (Z.shiftl 1 last_bits) - 1.

Definition bitmap_size : M bitmap Z := gets bit_cnt.

(** sizeof (struct bitmap) is 8: a size_t and a pointer. *)
Definition bitmap_buf_size (bit_cnt : Z) : Z := 8 + byte_cnt bit_cnt.

(** ** Single bits *)

(** [b->bits[idx] = f (b->bits[idx])], the shape of the three atomic
    read-modify-write instructions. *)
Definition update_elem (idx : Z) (f : Z → Z) : M bitmap unit :=
  let* b := get in
  let* w := deref (bits b !! Z.to_nat idx) in
  modify (λ b, mk_bitmap (bit_cnt b) (<[Z.to_nat idx := f w]> (bits b))).

Definition bitmap_mark (bit_idx : Z) : M bitmap unit :=
  update_elem (elem_idx bit_idx) (λ w, Z.lor w (bit_mask bit_idx)).

Definition bitmap_reset (bit_idx : Z) : M bitmap unit :=
  update_elem (elem_idx bit_idx)
    (λ w, Z.land w (u32 (Z.lnot (bit_mask bit_idx)))).

Definition bitmap_flip (bit_idx : Z) : M bitmap unit :=
  update_elem (elem_idx bit_idx) (λ w, Z.lxor w (bit_mask bit_idx)).

Definition bitmap_set (idx : Z) (value : bool) : M bitmap unit :=
  let* b := get in
  assert (idx <? bit_cnt b);;;
  if value then bitmap_mark idx else bitmap_reset idx.

Definition bitmap_test (idx : Z) : M bitmap bool :=
  let* b := get in
  assert (idx <? bit_cnt b);;;
  let* w := deref (bits b !! Z.to_nat (elem_idx idx)) in
  ret (negb (Z.land w (bit_mask idx) =? 0)).

(** ** Ranges of bits *)

(** The loop [for (i = 0; i < cnt; i++)], with [n] iterations left. *)
Fixpoint set_loop (n : nat) (start i : Z) (value : bool) : M bitmap unit :=
  match n with
  | O => ret tt
  | S n => bitmap_set (u32 (start + i)) value;;; set_loop n start (i + 1) value
  end.

Definition assert_range (start cnt : Z) : M bitmap unit :=
  let* b := get in
  assert (start <=? bit_cnt b);;;
  assert (u32 (start + cnt) <=? bit_cnt b).

Definition bitmap_set_multiple (start cnt : Z) (value : bool) : M bitmap unit :=
  assert_range start cnt;;;
  set_loop (Z.to_nat cnt) start 0 value.

Definition bitmap_set_all (value : bool) : M bitmap unit :=
  let* n := bitmap_size in
  bitmap_set_multiple 0 n value.

Fixpoint count_loop (n : nat) (start i : Z) (value : bool) (value_cnt : Z) :
    M bitmap Z :=
  match n with
  | O => ret value_cnt
  | S n =>
      let* v := bitmap_test (u32 (start + i)) in
      count_loop n start (i + 1) value
        (if eqb v value then value_cnt + 1 else value_cnt)
  end.

Definition bitmap_count (start cnt : Z) (value : bool) : M bitmap Z :=
  assert_range start cnt;;;
  count_loop (Z.to_nat cnt) start 0 value 0.

Fixpoint contains_loop (n : nat) (start i : Z) (value : bool) : M bitmap bool :=
  match n with
  | O => ret false
  | S n =>
      let* v := bitmap_test (u32 (start + i)) in
      if eqb v value then ret true else contains_loop n start (i + 1) value
  end.

Definition bitmap_contains (start cnt : Z) (value : bool) : M bitmap bool :=
  assert_range start cnt;;;
  contains_loop (Z.to_nat cnt) start 0 value.

Definition bitmap_any (start cnt : Z) : M bitmap bool :=
  bitmap_contains start cnt true.

Definition bitmap_none (start cnt : Z) : M bitmap bool :=
  let* c := bitmap_contains start cnt true in ret (negb c).

Definition bitmap_all (start cnt : Z) : M bitmap bool :=
  let* c := bitmap_contains start cnt false in ret (negb c).

(** ** Searching *)

(** The loop [for (i = start; i <= last; i++)], with [n] iterations left. *)
Fixpoint scan_loop (n : nat) (i cnt : Z) (value : bool) : M bitmap Z :=
  match n with
  | O => ret BITMAP_ERROR
  | S n =>
      let* c := bitmap_contains i cnt (negb value) in
      if c then scan_loop n (i + 1) cnt value else ret i
  end.

Definition bitmap_scan (start cnt : Z) (value : bool) : M bitmap Z :=
  let* b := get in
  assert (start <=? bit_cnt b);;;
  if cnt <=? bit_cnt b
  then scan_loop (Z.to_nat (bit_cnt b - cnt - start + 1)) start cnt value
  else ret BITMAP_ERROR.

Definition bitmap_scan_and_flip (start cnt : Z) (value : bool) : M bitmap Z :=
  let* idx := bitmap_scan start cnt value in
  (if idx =? BITMAP_ERROR then ret tt
   else bitmap_set_multiple idx cnt (negb value));;;
  ret idx.

(** ** Creation *)

(** [b->bits] as malloc returned it, [elem_cnt (bit_cnt)] uninitialised
    elements [garbage], then cleared. *)
Definition bitmap_create (bit_cnt : Z) (garbage : list Z) : outcome bitmap unit :=
  bitmap_set_all false (mk_bitmap bit_cnt garbage).

Definition bitmap_create_in_buf (bit_cnt block_size : Z) (garbage : list Z) :
    outcome bitmap unit :=
  if bitmap_buf_size bit_cnt <=? block_size
  then bitmap_set_all false (mk_bitmap bit_cnt garbage)
  else Panic.

(** ** The file image *)

Definition bitmap_file_size (b : bitmap) : Z := byte_cnt (bit_cnt b).

(** The bytes of [b->bits] in memory, which bitmap_write hands to
    file_write_at. *)
Definition bits_to_bytes (ws : list Z) : list Z := flat_map (le_bytes 4) ws.

Fixpoint bytes_to_bits (n : nat) (bs : list Z) : list Z :=
  match n with
  | O => []
  | S n => le_val (take 4 bs) :: bytes_to_bits n (drop 4 bs)
  end.

(** What bitmap_read does with the [size] bytes file_read_at produced. *)
Definition bitmap_load (bytes : list Z) : M bitmap unit :=
  let* b := get in
  let n := Z.to_nat (elem_cnt (bit_cnt b)) in
  let last := Z.to_nat (elem_cnt (bit_cnt b) - 1) in
  modify (λ b, mk_bitmap (bit_cnt b) (bytes_to_bits n bytes));;;
  update_elem (elem_cnt (bit_cnt b) - 1) (λ w, Z.land w (last_mask b)).

(** ** Abstraction: the array of bits *)

Definition bit_at (b : bitmap) (i : nat) : bool :=
  Z.testbit (nth (Z.to_nat (elem_idx (Z.of_nat i))) (bits b) 0)
    (Z.of_nat i mod ELEM_BITS).

Definition bm_abs (b : bitmap) : list bool :=
  bit_at b <$> seq 0 (Z.to_nat (bit_cnt b)).

Definition wf (b : bitmap) : Prop :=
  0 <= bit_cnt b < 4294967295 ∧
  zlen (bits b) = elem_cnt (bit_cnt b) ∧
  Forall in_u32 (bits b).

(** The group of [cnt] bits from [i] on is all [value]. *)
Definition all_bits (bs : list bool) (i cnt : nat) (value : bool) : Prop :=
  ∀ k, (k < cnt)%nat → bs !! (i + k)%nat = Some value.

(** ** The abstraction of a bitmap *)

Lemma length_bm_abs b : length (bm_abs b) = Z.to_nat (bit_cnt b).
Proof. unfold bm_abs. by rewrite length_fmap, length_seq. Qed.

Lemma lookup_bm_abs b (i : nat) :
  bm_abs b !! i = if decide (Z.of_nat i < bit_cnt b) then Some (bit_at b i) else None.
Proof.
  unfold bm_abs. rewrite list_lookup_fmap. case_decide.
  - rewrite lookup_seq_lt by lia. done.
  - rewrite lookup_seq_ge by lia. done.
Qed.

Lemma elem_lookup b i :
  wf b → 0 <= i < bit_cnt b →
  ∃ w, bits b !! Z.to_nat (elem_idx i) = Some w ∧ in_u32 w ∧
       nth (Z.to_nat (elem_idx i)) (bits b) 0 = w.
Proof.
  intros (Hc & Hl & Hf) Hi.
  destruct (lookup_lt_is_Some_2 (bits b) (Z.to_nat (elem_idx i))) as [w Hw].
  { unfold zlen, elem_cnt, div_round_up, elem_idx, ELEM_BITS in *. dlia. }
  exists w. split; [done|]. split.
  - by eapply Forall_lookup_1.
  - by apply nth_lookup_Some.
Qed.

Lemma bit_mask_testbit i k :
  0 <= k → Z.testbit (bit_mask i) k = (k =? i mod ELEM_BITS).
Proof.
  intros Hk. unfold bit_mask, u32, ELEM_BITS.
  rewrite Z.shiftl_1_l, Z.mod_small.
  - rewrite Z.pow2_bits_eqb by dlia. apply Z.eqb_sym.
  - split; [apply Z.pow_nonneg; lia|].
    change 4294967296 with (2 ^ 32). apply Z.pow_lt_mono_r; dlia.
Qed.

Lemma testbit_u32_high w k : in_u32 w → 32 <= k → Z.testbit w k = false.
Proof.
  intros [H1 H2] Hk. destruct (Z.eq_dec w 0) as [->|].
  { apply Z.bits_0. }
  apply Z.bits_above_log2; [lia|].
  assert (Z.log2 w < 32); [|lia].
  apply Z.log2_lt_pow2; [lia|]. by change (2 ^ 32) with 4294967296.
Qed.

Lemma lnot_mask_testbit i k :
  0 <= k → Z.testbit (u32 (Z.lnot (bit_mask i))) k
           = (negb (k =? i mod ELEM_BITS) && (k <? 32))%bool.
Proof.
  intros Hk. unfold u32. change 4294967296 with (2 ^ 32).
  rewrite <- Z.land_ones by lia. rewrite Z.land_spec, Z.lnot_spec by lia.
  rewrite bit_mask_testbit by lia. f_equal.
  destruct (Z.ltb_spec k 32).
  - apply Z.ones_spec_low. lia.
  - apply Z.ones_spec_high. lia.
Qed.

Lemma in_u32_by_bits w :
  0 <= w → (∀ k, 32 <= k → Z.testbit w k = false) → in_u32 w.
Proof.
  intros H0 Hk. split; [done|].
  destruct (Z.eq_dec w 0) as [->|]; [lia|].
  change 4294967296 with (2 ^ 32). apply Z.log2_lt_pow2; [lia|].
  destruct (Z.lt_ge_cases (Z.log2 w) 32) as [|Hge]; [done|].
  specialize (Hk _ Hge). rewrite Z.bit_log2 in Hk by lia. done.
Qed.

(** ** Single bits *)

(** An element update that changes only one bit is an update of the array. *)
Lemma update_elem_spec b i f v :
  wf b → 0 <= i < bit_cnt b →
  (∀ w, in_u32 w → in_u32 (f w) ∧
     ∀ k, 0 <= k < 32 →
       Z.testbit (f w) k = if k =? i mod ELEM_BITS then v w else Z.testbit w k) →
  ∃ b' w, update_elem (elem_idx i) f b = Ok (tt, b') ∧ wf b' ∧
       bit_cnt b' = bit_cnt b ∧
       bits b !! Z.to_nat (elem_idx i) = Some w ∧
       bm_abs b' = <[Z.to_nat i := v w]> (bm_abs b).
Proof.
  intros Hwf Hi Hf. destruct (elem_lookup b i Hwf Hi) as (w & Hw & Hu & Hn).
  destruct (Hf w Hu) as [Hfu Hfk]. destruct Hwf as (Hc & Hl & Hall).
  unfold update_elem, bind, obind, get, deref, modify. rewrite Hw. simpl.
  eexists _, w. split_and!; try done.
  - unfold wf, zlen in *. simpl. rewrite length_insert.
    split_and!; try lia. by apply Forall_insert.
  - apply list_eq. intros j.
    rewrite lookup_bm_abs. simpl.
    destruct (decide (Z.to_nat i = j)) as [<-|Hne].
    + rewrite decide_True by lia.
      rewrite list_lookup_insert_eq by (rewrite length_bm_abs; lia).
      f_equal. unfold bit_at. simpl. rewrite Z2Nat.id by lia.
      erewrite nth_lookup_Some
        by (apply list_lookup_insert_eq; by eapply lookup_lt_Some).
      rewrite Hfk by (unfold ELEM_BITS; dlia).
      by rewrite Z.eqb_refl.
    + rewrite list_lookup_insert_ne by done. rewrite lookup_bm_abs.
      case_decide; [|done]. f_equal. unfold bit_at. simpl.
      destruct (decide (elem_idx i = elem_idx (Z.of_nat j))) as [He|He].
      * rewrite <- He. erewrite nth_lookup_Some
          by (apply list_lookup_insert_eq; by eapply lookup_lt_Some).
        rewrite Hn, Hfk by (unfold ELEM_BITS; dlia).
        rewrite (proj2 (Z.eqb_neq _ _)); [done|].
        unfold elem_idx, ELEM_BITS in *. dlia.
      * rewrite !nth_lookup. rewrite list_lookup_insert_ne; [done|].
        unfold elem_idx, ELEM_BITS in *. dlia.
Qed.

Lemma bitmap_mark_spec b i :
  wf b → 0 <= i < bit_cnt b →
  ∃ b', bitmap_mark i b = Ok (tt, b') ∧ wf b' ∧ bit_cnt b' = bit_cnt b ∧
        bm_abs b' = <[Z.to_nat i := true]> (bm_abs b).
Proof.
  intros Hwf Hi.
  destruct (update_elem_spec b i (λ w, Z.lor w (bit_mask i)) (λ _, true))
    as (b' & w & ? & ? & ? & ? & ?); try done; [|by exists b'].
  intros w Hu. split.
  - apply in_u32_by_bits.
    + apply Z.lor_nonneg. split; [apply Hu|]. apply u32_range.
    + intros k Hk. rewrite Z.lor_spec, testbit_u32_high, bit_mask_testbit by (done || lia).
      simpl. apply Z.eqb_neq. unfold ELEM_BITS. dlia.
  - intros k Hk. rewrite Z.lor_spec, bit_mask_testbit by lia.
    destruct (k =? i mod ELEM_BITS); [apply orb_true_r|apply orb_false_r].
Qed.

Lemma bitmap_reset_spec b i :
  wf b → 0 <= i < bit_cnt b →
  ∃ b', bitmap_reset i b = Ok (tt, b') ∧ wf b' ∧ bit_cnt b' = bit_cnt b ∧
        bm_abs b' = <[Z.to_nat i := false]> (bm_abs b).
Proof.
  intros Hwf Hi.
  destruct (update_elem_spec b i
              (λ w, Z.land w (u32 (Z.lnot (bit_mask i)))) (λ _, false))
    as (b' & w & ? & ? & ? & ? & ?); try done; [|by exists b'].
  intros w Hu. split.
  - apply in_u32_by_bits.
    + apply Z.land_nonneg. left. apply Hu.
    + intros k Hk. by rewrite Z.land_spec, testbit_u32_high.
  - intros k Hk. rewrite Z.land_spec, lnot_mask_testbit by lia.
    rewrite (proj2 (Z.ltb_lt k 32)) by lia.
    destruct (k =? i mod ELEM_BITS); simpl; [apply andb_false_r|apply andb_true_r].
Qed.

Lemma bitmap_flip_spec b i :
  wf b → 0 <= i < bit_cnt b →
  ∃ b', bitmap_flip i b = Ok (tt, b') ∧ wf b' ∧ bit_cnt b' = bit_cnt b ∧
        bm_abs b' = <[Z.to_nat i := negb (bit_at b (Z.to_nat i))]> (bm_abs b).
Proof.
  intros Hwf Hi. destruct (elem_lookup b i Hwf Hi) as (w0 & Hw0 & _ & Hn).
  destruct (update_elem_spec b i (λ w, Z.lxor w (bit_mask i))
              (λ w, negb (Z.testbit w (i mod ELEM_BITS))))
    as (b' & w & ? & ? & ? & Hw & Ha); try done.
  - intros w Hu. split.
    + apply in_u32_by_bits.
      * apply Z.lxor_nonneg. split; intros; [apply u32_range|apply Hu].
      * intros k Hk.
        rewrite Z.lxor_spec, testbit_u32_high, bit_mask_testbit by (done || lia).
        simpl. apply Z.eqb_neq. unfold ELEM_BITS. dlia.
    + intros k Hk. rewrite Z.lxor_spec, bit_mask_testbit by lia.
      destruct (Z.eqb_spec k (i mod ELEM_BITS)) as [->|].
      * apply xorb_true_r.
      * apply xorb_false_r.
  - exists b'. split_and!; try done. rewrite Ha. do 2 f_equal.
    unfold bit_at. rewrite Z2Nat.id by lia. rewrite Hn. congruence.
Qed.

Lemma bitmap_set_spec b i v :
  wf b → 0 <= i < bit_cnt b →
  ∃ b', bitmap_set i v b = Ok (tt, b') ∧ wf b' ∧ bit_cnt b' = bit_cnt b ∧
        bm_abs b' = <[Z.to_nat i := v]> (bm_abs b).
Proof.
  intros Hwf Hi. unfold bitmap_set, bind, obind, get, assert.
  rewrite (proj2 (Z.ltb_lt _ _)) by lia. simpl.
  destruct v; [by apply bitmap_mark_spec|by apply bitmap_reset_spec].
Qed.

Lemma bitmap_test_spec b i :
  wf b → 0 <= i < bit_cnt b →
  bitmap_test i b = Ok (bit_at b (Z.to_nat i), b).
Proof.
  intros Hwf Hi. destruct (elem_lookup b i Hwf Hi) as (w & Hw & Hu & Hn).
  unfold bitmap_test, bind, obind, get, assert.
  rewrite (proj2 (Z.ltb_lt _ _)) by lia. simpl. rewrite Hw. simpl.
  unfold ret. do 2 f_equal. unfold bit_at. rewrite Z2Nat.id, Hn by lia.
  destruct (Z.testbit w (i mod ELEM_BITS)) eqn:Hb.
  - apply negb_true_iff, Z.eqb_neq. intros H0.
    assert (Z.testbit (Z.land w (bit_mask i)) (i mod ELEM_BITS) = true) as Ht.
    { rewrite Z.land_spec, Hb, bit_mask_testbit by (unfold ELEM_BITS; dlia).
      by rewrite Z.eqb_refl. }
    rewrite H0, Z.bits_0 in Ht. done.
  - apply negb_false_iff, Z.eqb_eq. apply Z.bits_inj_0. intros k.
    destruct (Z.lt_ge_cases k 0) as [|Hk]; [by apply Z.testbit_neg_r|].
    rewrite Z.land_spec, bit_mask_testbit by lia.
    destruct (Z.eqb_spec k (i mod ELEM_BITS)) as [->|]; [by rewrite Hb|].
    apply andb_false_r.
Qed.

Lemma bit_at_lookup b (i : nat) v :
  bm_abs b !! i = Some v ↔ Z.of_nat i < bit_cnt b ∧ bit_at b i = v.
Proof. rewrite lookup_bm_abs. case_decide; naive_solver. Qed.

(** ** Ranges of bits *)

Lemma lookup_true_dec b (i : nat) v :
  wf b → Z.of_nat i < bit_cnt b → bm_abs b !! i = Some v ↔ bit_at b i = v.
Proof. intros. rewrite bit_at_lookup. naive_solver. Qed.

Lemma assert_range_ok b start cnt :
  wf b → 0 <= start → 0 <= cnt → start + cnt <= bit_cnt b →
  assert_range start cnt b = Ok (tt, b).
Proof.
  intros (Hc & _) Hs Hn Hr. unfold assert_range, bind, obind, get, assert.
  rewrite u32_small by (unfold in_u32; lia).
  rewrite !(proj2 (Z.leb_le _ _)) by lia. done.
Qed.

Lemma set_loop_spec n : ∀ b start i v,
  wf b → 0 <= start + i → start + i + Z.of_nat n <= bit_cnt b →
  ∃ b', set_loop n start i v b = Ok (tt, b') ∧ wf b' ∧ bit_cnt b' = bit_cnt b ∧
        bm_abs b' = splice (start + i) (replicate n v) (bm_abs b).
Proof.
  induction n as [|n IH]; intros b start i v Hwf H0 Hr.
  { exists b. split_and!; try done. simpl. by rewrite splice_nil. }
  cbn [set_loop replicate]. unfold bind, obind.
  assert (0 <= bit_cnt b < 4294967295) as Hc by apply Hwf.
  rewrite u32_small by (unfold in_u32; lia).
  destruct (bitmap_set_spec b (start + i) v) as (b1 & -> & Hwf1 & Hc1 & Ha1);
    [done|lia|].
  destruct (IH b1 start (i + 1) v) as (b2 & -> & Hwf2 & Hc2 & Ha2);
    [done|lia|lia|].
  exists b2. split_and!; try done; [lia|]. rewrite Ha2, Ha1.
  replace (v :: replicate n v) with ([v] ++ replicate n v) by done.
  rewrite <- splice_splice_adjacent.
  - rewrite Z.add_assoc. f_equal. apply list_eq. intros j.
    rewrite lookup_splice by (unfold zlen; simpl; rewrite ?length_bm_abs; lia).
    simpl. case_decide as Hj.
    + replace (Z.to_nat (start + i)) with j by lia.
      rewrite list_lookup_insert_eq by (rewrite length_bm_abs; lia).
      by replace (j - j)%nat with 0%nat by lia.
    + rewrite list_lookup_insert_ne by lia. done.
  - lia.
  - unfold zlen. simpl. rewrite length_replicate, length_bm_abs. lia.
Qed.

Lemma bitmap_set_multiple_spec b start cnt v :
  wf b → 0 <= start → 0 <= cnt → start + cnt <= bit_cnt b →
  ∃ b', bitmap_set_multiple start cnt v b = Ok (tt, b') ∧ wf b' ∧
        bit_cnt b' = bit_cnt b ∧
        bm_abs b' = splice start (replicate (Z.to_nat cnt) v) (bm_abs b).
Proof.
  intros Hwf Hs Hn Hr. unfold bitmap_set_multiple, bind, obind.
  rewrite assert_range_ok by done.
  destruct (set_loop_spec (Z.to_nat cnt) b start 0 v) as (b' & -> & Hb);
    [done|lia|lia|].
  exists b'. by rewrite Z.add_0_r in Hb.
Qed.

Lemma contains_loop_spec n : ∀ b start i v,
  wf b → 0 <= start + i → start + i + Z.of_nat n <= bit_cnt b →
  ∃ r, contains_loop n start i v b = Ok (r, b) ∧
       (r = true ↔ ∃ k, (k < n)%nat ∧ bm_abs b !! (Z.to_nat (start + i) + k)%nat = Some v).
Proof.
  induction n as [|n IH]; intros b start i v Hwf H0 Hr.
  { exists false. split; [done|]. split; [done|]. intros (k & ? & _). lia. }
  cbn [contains_loop]. unfold bind, obind.
  assert (0 <= bit_cnt b < 4294967295) as Hc by apply Hwf.
  rewrite u32_small by (unfold in_u32; lia).
  rewrite bitmap_test_spec by (done || lia).
  destruct (eqb (bit_at b (Z.to_nat (start + i))) v) eqn:He.
  - apply eqb_prop in He. exists true. split; [done|]. split; [|done].
    intros _. exists 0%nat. split; [lia|].
    rewrite Nat.add_0_r. apply bit_at_lookup. split; [lia|done].
  - apply eqb_false_iff in He.
    destruct (IH b start (i + 1) v) as (r & -> & Hiff); [done|lia|lia|].
    exists r. split; [done|]. rewrite Hiff. split.
    + intros (k & Hk & Hl). exists (S k). split; [lia|].
      rewrite <- Hl. f_equal. lia.
    + intros ([|k] & Hk & Hl).
      * rewrite Nat.add_0_r in Hl. apply bit_at_lookup in Hl as [_ Hl]. congruence.
      * exists k. split; [lia|]. rewrite <- Hl. f_equal. lia.
Qed.

Lemma bitmap_contains_spec b start cnt v :
  wf b → 0 <= start → 0 <= cnt → start + cnt <= bit_cnt b →
  ∃ r, bitmap_contains start cnt v b = Ok (r, b) ∧
       (r = true ↔ ∃ k, (k < Z.to_nat cnt)%nat ∧
                        bm_abs b !! (Z.to_nat start + k)%nat = Some v).
Proof.
  intros Hwf Hs Hn Hr. unfold bitmap_contains, bind, obind.
  rewrite assert_range_ok by done.
  destruct (contains_loop_spec (Z.to_nat cnt) b start 0 v) as (r & -> & Hiff);
    [done|lia|lia|].
  exists r. split; [done|]. by rewrite Z.add_0_r in Hiff.
Qed.

(** A group holds no bit of the opposite value iff it is uniform. *)
Lemma not_contains_all b start cnt v :
  wf b → 0 <= start → 0 <= cnt → start + cnt <= bit_cnt b →
  (¬ ∃ k, (k < Z.to_nat cnt)%nat ∧
          bm_abs b !! (Z.to_nat start + k)%nat = Some (negb v)) ↔
  all_bits (bm_abs b) (Z.to_nat start) (Z.to_nat cnt) v.
Proof.
  intros Hwf Hs Hn Hr. unfold all_bits. split.
  - intros Hno k Hk. rewrite lookup_bm_abs, decide_True by lia. f_equal.
    destruct (eqb (bit_at b (Z.to_nat start + k)) v) eqn:He;
      [by apply eqb_prop in He|].
    exfalso. apply Hno. exists k. split; [done|].
    apply bit_at_lookup. split; [lia|].
    apply eqb_false_iff in He. destruct v, (bit_at b _); done.
  - intros Hall (k & Hk & Hl). specialize (Hall k Hk).
    rewrite Hl in Hall. by destruct v.
Qed.

Lemma bitmap_all_spec b start cnt :
  wf b → 0 <= start → 0 <= cnt → start + cnt <= bit_cnt b →
  ∃ r, bitmap_all start cnt b = Ok (r, b) ∧
       (r = true ↔ all_bits (bm_abs b) (Z.to_nat start) (Z.to_nat cnt) true).
Proof.
  intros Hwf Hs Hn Hr. unfold bitmap_all, bind, obind.
  destruct (bitmap_contains_spec b start cnt false) as (r & -> & Hiff); [done..|].
  exists (negb r). split; [done|]. rewrite negb_true_iff.
  rewrite <- (not_contains_all b start cnt true), <- Hiff by done.
  by destruct r.
Qed.

Lemma count_loop_spec n : ∀ b start i v acc,
  wf b → 0 <= start + i → start + i + Z.of_nat n <= bit_cnt b →
  count_loop n start i v acc b =
    Ok (acc + zlen (filter (λ x, x = v) (slice (start + i) (Z.of_nat n) (bm_abs b))), b).
Proof.
  induction n as [|n IH]; intros b start i v acc Hwf H0 Hr.
  { unfold slice. simpl. unfold zlen. simpl. by rewrite Z.add_0_r. }
  cbn [count_loop]. unfold bind, obind.
  assert (0 <= bit_cnt b < 4294967295) as Hc by apply Hwf.
  rewrite u32_small by (unfold in_u32; lia).
  rewrite bitmap_test_spec by (done || lia).
  rewrite IH by (done || lia). do 2 f_equal.
  assert (slice (start + i) (Z.of_nat (S n)) (bm_abs b) =
          [bit_at b (Z.to_nat (start + i))] ++
          slice (start + (i + 1)) (Z.of_nat n) (bm_abs b)) as ->.
  { replace (Z.of_nat (S n)) with (1 + Z.of_nat n) by lia.
    rewrite <- slice_slice_adjacent
      by (unfold zlen; rewrite ?length_bm_abs; lia).
    rewrite <- Z.add_assoc. f_equal. apply list_eq. intros [|j].
    - rewrite lookup_slice by lia. rewrite Nat.add_0_r, lookup_bm_abs.
      by rewrite decide_True by lia.
    - rewrite lookup_slice_ge by lia. done. }
  rewrite list.filter_app, zlen_app, list.filter_cons, list.filter_nil.
  destruct (eqb (bit_at b (Z.to_nat (start + i))) v) eqn:He.
  - apply eqb_prop in He. rewrite decide_True by done. unfold zlen. simpl. lia.
  - apply eqb_false_iff in He. rewrite decide_False by done. unfold zlen. simpl. lia.
Qed.

Lemma bitmap_count_spec b start cnt v :
  wf b → 0 <= start → 0 <= cnt → start + cnt <= bit_cnt b →
  bitmap_count start cnt v b =
    Ok (zlen (filter (λ x, x = v) (slice start cnt (bm_abs b))), b).
Proof.
  intros Hwf Hs Hn Hr. unfold bitmap_count, bind, obind.
  rewrite assert_range_ok by done.
  rewrite count_loop_spec by (done || lia).
  by rewrite Z.add_0_r, Z.add_0_l, Z2Nat.id.
Qed.

(** ** Searching *)

Lemma scan_loop_spec n : ∀ b i cnt v,
  wf b → 0 <= i → 0 <= cnt → i + Z.of_nat n + cnt <= bit_cnt b + 1 →
  ∃ r, scan_loop n i cnt v b = Ok (r, b) ∧
    ((r = BITMAP_ERROR ∧
      ∀ j, i <= j < i + Z.of_nat n →
        ¬ all_bits (bm_abs b) (Z.to_nat j) (Z.to_nat cnt) v) ∨
     (i <= r < i + Z.of_nat n ∧
      all_bits (bm_abs b) (Z.to_nat r) (Z.to_nat cnt) v ∧
      ∀ j, i <= j < r → ¬ all_bits (bm_abs b) (Z.to_nat j) (Z.to_nat cnt) v)).
Proof.
  induction n as [|n IH]; intros b i cnt v Hwf Hi Hn Hr.
  { exists BITMAP_ERROR. split; [done|]. left. split; [done|]. lia. }
  cbn [scan_loop]. unfold bind, obind.
  destruct (bitmap_contains_spec b i cnt (negb v)) as (c & -> & Hiff);
    [done|lia|lia|lia|].
  pose proof (not_contains_all b i cnt v Hwf Hi Hn ltac:(lia)) as Hall.
  rewrite <- Hiff in Hall. destruct c.
  - destruct (IH b (i + 1) cnt v) as (r & -> & Hcases); [done|lia|lia|lia|].
    assert (¬ all_bits (bm_abs b) (Z.to_nat i) (Z.to_nat cnt) v) by naive_solver.
    exists r. split; [done|].
    destruct Hcases as [[-> Hno]|(Hr1 & Hr2 & Hr3)].
    + left. split; [done|]. intros j Hj.
      destruct (decide (j = i)) as [->|]; [done|]. apply Hno. lia.
    + right. split_and!; [lia|lia|done|]. intros j Hj.
      destruct (decide (j = i)) as [->|]; [done|]. apply Hr3. lia.
  - exists i. split; [done|]. right. split_and!; [lia|lia| |lia].
    apply Hall. done.
Qed.

(** The index of the first group, or [BITMAP_ERROR] when no group lies within
    the bitmap. *)
Definition first_group (bs : list bool) (start cnt : Z) (v : bool) (r : Z) : Prop :=
  (r = BITMAP_ERROR ∧
   ∀ j, start <= j → j + cnt <= zlen bs →
     ¬ all_bits bs (Z.to_nat j) (Z.to_nat cnt) v) ∨
  (start <= r ∧ r + cnt <= zlen bs ∧
   all_bits bs (Z.to_nat r) (Z.to_nat cnt) v ∧
   ∀ j, start <= j < r → ¬ all_bits bs (Z.to_nat j) (Z.to_nat cnt) v).

Lemma bitmap_scan_first b start cnt v :
  wf b → 0 <= start <= bit_cnt b → 0 <= cnt →
  ∃ r, bitmap_scan start cnt v b = Ok (r, b) ∧ first_group (bm_abs b) start cnt v r.
Proof.
  intros Hwf Hs Hn. unfold bitmap_scan, bind, obind, get, assert.
  rewrite (proj2 (Z.leb_le _ _)) by lia.
  assert (0 <= bit_cnt b) as Hc by apply Hwf.
  assert (zlen (bm_abs b) = bit_cnt b) as Hl
    by (unfold zlen; rewrite length_bm_abs; lia).
  unfold first_group. rewrite Hl. simpl.
  destruct (Z.leb_spec cnt (bit_cnt b)).
  - destruct (decide (start + cnt <= bit_cnt b)) as [Hle|Hgt].
    + destruct (scan_loop_spec (Z.to_nat (bit_cnt b - cnt - start + 1)) b start cnt v)
        as (r & -> & Hcases); [done|lia|lia|lia|].
      exists r. split; [done|].
      destruct Hcases as [[-> Hno]|(Hr1 & Hr2 & Hr3)].
      * left. split; [done|]. intros j ??. apply Hno. lia.
      * right. split_and!; [lia|lia|done|done].
    + replace (Z.to_nat (bit_cnt b - cnt - start + 1)) with 0%nat by lia.
      exists BITMAP_ERROR. split; [done|]. left. split; [done|]. lia.
  - exists BITMAP_ERROR. split; [done|]. left. split; [done|]. lia.
Qed.

Lemma scan_and_flip_first b start cnt v :
  wf b → 0 <= start <= bit_cnt b → 0 <= cnt →
  ∃ r b', bitmap_scan_and_flip start cnt v b = Ok (r, b') ∧
    wf b' ∧ bit_cnt b' = bit_cnt b ∧ first_group (bm_abs b) start cnt v r ∧
    bm_abs b' =
      if decide (r = BITMAP_ERROR) then bm_abs b
      else splice r (replicate (Z.to_nat cnt) (negb v)) (bm_abs b).
Proof.
  intros Hwf Hs Hn. unfold bitmap_scan_and_flip.
  destruct (bitmap_scan_first b start cnt v Hwf Hs Hn) as (r & Hscan & Hfirst).
  rewrite (bind_ok _ _ _ _ _ Hscan).
  destruct (Z.eqb_spec r BITMAP_ERROR) as [->|Hne].
  - exists BITMAP_ERROR, b. rewrite decide_True by done. done.
  - destruct Hfirst as [[? _]|Hfirst]; [done|].
    destruct (bitmap_set_multiple_spec b r cnt (negb v)) as (b' & Hset & Hwf' & Hc' & Ha);
      [done|lia|lia| |].
    { destruct Hfirst as (_ & Hle & _). unfold zlen in Hle.
      rewrite length_bm_abs in Hle. pose proof (proj1 Hwf). lia. }
    rewrite (bind_ok _ _ _ _ _ Hset). exists r, b'.
    rewrite decide_False by done. split_and!; try done. by right.
Qed.

(** ** Creation and the file image *)

Lemma bitmap_set_all_spec b v :
  wf b →
  ∃ b', bitmap_set_all v b = Ok (tt, b') ∧ wf b' ∧ bit_cnt b' = bit_cnt b ∧
        bm_abs b' = replicate (Z.to_nat (bit_cnt b)) v.
Proof.
  intros Hwf. unfold bitmap_set_all, bitmap_size, bind, obind, gets.
  assert (0 <= bit_cnt b) as Hc by apply Hwf.
  destruct (bitmap_set_multiple_spec b 0 (bit_cnt b) v) as (b' & -> & Hwf' & Hc' & Ha);
    [done|lia|lia|lia|].
  exists b'. split_and!; try done. rewrite Ha. apply list_eq. intros j.
  rewrite lookup_splice
    by (unfold zlen; rewrite ?length_replicate, ?length_bm_abs; lia).
  rewrite length_replicate. case_decide.
  - f_equal. lia.
  - transitivity (@None bool).
    + apply lookup_ge_None. rewrite length_bm_abs. lia.
    + symmetry. apply lookup_ge_None. rewrite length_replicate. lia.
Qed.

Lemma length_bits_to_bytes ws : length (bits_to_bytes ws) = (4 * length ws)%nat.
Proof.
  induction ws as [|w ws IH]; [done|].
  cbn [bits_to_bytes flat_map]. rewrite length_app, length_le_bytes.
  unfold bits_to_bytes in IH. rewrite IH. simpl. lia.
Qed.

Lemma bytes_to_bits_to_bytes ws :
  Forall in_u32 ws → bytes_to_bits (length ws) (bits_to_bytes ws) = ws.
Proof.
  induction 1 as [|w ws Hw Hws IH]; [done|].
  cbn [bytes_to_bits length bits_to_bytes flat_map].
  rewrite take_app_length', drop_app_length' by (by rewrite length_le_bytes).
  rewrite le_val_u32 by done. f_equal. apply IH.
Qed.

Lemma last_mask_testbit b k :
  0 <= bit_cnt b → 0 <= k < 32 →
  Z.testbit (last_mask b) k =
    if bit_cnt b mod ELEM_BITS =? 0 then true else k <? bit_cnt b mod ELEM_BITS.
Proof.
  intros Hc Hk. unfold last_mask, ELEM_BITS, u32.
  destruct (Z.eqb_spec (bit_cnt b mod 32) 0).
  - change (-1 mod 4294967296) with (Z.ones 32). by apply Z.ones_spec_low.
  - rewrite Z.mod_small.
    + rewrite Z.sub_1_r. fold (Z.ones (bit_cnt b mod 32)).
      destruct (Z.ltb_spec k (bit_cnt b mod 32)).
      * apply Z.ones_spec_low. lia.
      * apply Z.ones_spec_high. dlia.
    + rewrite Z.shiftl_1_l. split; [apply Z.pow_nonneg; lia|].
      change 4294967296 with (2 ^ 32). apply Z.pow_lt_mono_r; dlia.
Qed.

Lemma last_mask_range b : 0 <= bit_cnt b → in_u32 (last_mask b).
Proof.
  intros Hc. unfold last_mask, ELEM_BITS, u32, in_u32.
  destruct (Z.eqb_spec (bit_cnt b mod 32) 0); [by vm_compute|].
  rewrite Z.shiftl_1_l, Z.mod_small.
  - assert (0 < 2 ^ (bit_cnt b mod 32)) by (apply Z.pow_pos_nonneg; dlia).
    assert (2 ^ (bit_cnt b mod 32) < 2 ^ 32) by (apply Z.pow_lt_mono_r; dlia).
    change (2 ^ 32) with 4294967296 in *. lia.
  - split; [apply Z.pow_nonneg; lia|].
    change 4294967296 with (2 ^ 32). apply Z.pow_lt_mono_r; dlia.
Qed.

(** Masking the last element leaves every bit of the array alone. *)
Lemma mask_last_spec b :
  wf b → 0 < bit_cnt b →
  ∃ b', update_elem (elem_cnt (bit_cnt b) - 1) (λ w, Z.land w (last_mask b)) b
          = Ok (tt, b') ∧ wf b' ∧ bit_cnt b' = bit_cnt b ∧ bm_abs b' = bm_abs b.
Proof.
  intros Hwf H0. destruct (elem_lookup b (bit_cnt b - 1) Hwf) as (w & Hw & Hu & Hn);
    [lia|].
  assert (elem_idx (bit_cnt b - 1) = elem_cnt (bit_cnt b) - 1) as He
    by (unfold elem_idx, elem_cnt, div_round_up, ELEM_BITS; dlia).
  rewrite He in Hw, Hn. destruct Hwf as (Hc & Hl & Hall).
  unfold update_elem, bind, obind, get, deref, modify. rewrite Hw. simpl.
  eexists. split; [reflexivity|]. unfold wf. simpl. split_and!; try done; try lia.
  - unfold zlen. rewrite length_insert. apply Hl.
  - apply Forall_insert; [done|]. apply in_u32_by_bits.
    + apply Z.land_nonneg. left. apply Hu.
    + intros k Hk. by rewrite Z.land_spec, testbit_u32_high.
  - apply list_eq. intros j. rewrite !lookup_bm_abs. simpl.
    case_decide; [|done]. f_equal. unfold bit_at. simpl.
    destruct (decide (elem_idx (Z.of_nat j) = elem_cnt (bit_cnt b) - 1)) as [Hj|Hj].
    + rewrite Hj, Hn. erewrite nth_lookup_Some
        by (apply list_lookup_insert_eq; by eapply lookup_lt_Some).
      rewrite Z.land_spec, last_mask_testbit by (unfold ELEM_BITS; dlia).
      destruct (Z.eqb_spec (bit_cnt b mod ELEM_BITS) 0); [apply andb_true_r|].
      rewrite (proj2 (Z.ltb_lt _ _)); [apply andb_true_r|].
      unfold elem_idx, elem_cnt, div_round_up, ELEM_BITS in *. dlia.
    + rewrite !nth_lookup, list_lookup_insert_ne; [done|].
      unfold elem_idx, elem_cnt, div_round_up, ELEM_BITS in *. dlia.
Qed.

(** ** Properties *)

(** C21. bitmap_scan_and_flip is a first-fit allocator.  It never fails on a
    well-formed bitmap: the index it returns is that of the first group of
    CNT bits at or after START that all equal VALUE, or BITMAP_ERROR when no
    such group exists; in the first case exactly the bits of that group are
    flipped, in the second the bitmap is unchanged.  For CNT = 0 the group is
    empty and START is returned (the comment in bitmap.c says 0). *)
Theorem bitmap_scan_and_flip_first_fit b start cnt v :
  wf b → 0 <= start <= bit_cnt b → 0 <= cnt →
  ∃ r b', bitmap_scan_and_flip start cnt v b = Ok (r, b') ∧
    wf b' ∧ bit_cnt b' = bit_cnt b ∧ first_group (bm_abs b) start cnt v r ∧
    bm_abs b' =
      if decide (r = BITMAP_ERROR) then bm_abs b
      else splice r (replicate (Z.to_nat cnt) (negb v)) (bm_abs b).
Proof. apply scan_and_flip_first. Qed.

Lemma bitmap_scan_and_flip_first_fit_witness :
  ∃ r b', bitmap_scan_and_flip 0 2 false (mk_bitmap 40 [11; 0]) = Ok (r, b') ∧
    wf b' ∧ bit_cnt b' = 40 ∧
    first_group (bm_abs (mk_bitmap 40 [11; 0])) 0 2 false r ∧
    bm_abs b' =
      if decide (r = BITMAP_ERROR) then bm_abs (mk_bitmap 40 [11; 0])
      else splice r (replicate 2 true) (bm_abs (mk_bitmap 40 [11; 0])).
Proof.
  apply (bitmap_scan_and_flip_first_fit (mk_bitmap 40 [11; 0]) 0 2 false).
  - split_and!; simpl; try lia; [done|]. repeat constructor; unfold in_u32; lia.
  - simpl. lia.
  - lia.
Defined.

Example scan_and_flip_40 :
  bitmap_scan_and_flip 0 2 false (mk_bitmap 40 [11; 0])
  = Ok (4, mk_bitmap 40 [59; 0]).
Proof. vm_compute. reflexivity. Qed.

(** The file image round trips: reading back the bytes bitmap_write
    produces restores every bit, whatever the bitmap that receives them held,
    and leaves it well formed. *)
Theorem bitmap_image_roundtrip b b0 :
  wf b → 0 < bit_cnt b → bit_cnt b0 = bit_cnt b →
  zlen (bits_to_bytes (bits b)) = bitmap_file_size b ∧
  ∃ b', bitmap_load (bits_to_bytes (bits b)) b0 = Ok (tt, b') ∧
        wf b' ∧ bm_abs b' = bm_abs b.
Proof.
  intros Hwf H0 Hcnt. split.
  { unfold zlen, bitmap_file_size, byte_cnt. rewrite length_bits_to_bytes.
    destruct Hwf as (_ & Hl & _). unfold zlen in Hl. lia. }
  unfold bitmap_load.
  destruct (mask_last_spec b Hwf H0) as (b' & Hu & Hwf' & Hc' & Ha).
  exists b'. split_and!; try done. rewrite <- Hu.
  unfold bind, obind, get, modify. simpl. rewrite Hcnt.
  replace (Z.to_nat (elem_cnt (bit_cnt b))) with (length (bits b))
    by (destruct Hwf as (_ & Hl & _); unfold zlen in Hl; lia).
  rewrite bytes_to_bits_to_bytes by apply Hwf.
  unfold last_mask. rewrite Hcnt. by destruct b.
Qed.

Lemma bitmap_image_roundtrip_witness :
  zlen (bits_to_bytes [4294967295; 511]) = bitmap_file_size (mk_bitmap 40 [4294967295; 511]) ∧
  ∃ b', bitmap_load (bits_to_bytes [4294967295; 511]) (mk_bitmap 40 [7; 7]) = Ok (tt, b') ∧
        wf b' ∧ bm_abs b' = bm_abs (mk_bitmap 40 [4294967295; 511]).
Proof.
  apply (bitmap_image_roundtrip (mk_bitmap 40 [4294967295; 511]) (mk_bitmap 40 [7; 7])).
  - split_and!; simpl; try lia; [done|]. repeat constructor; unfold in_u32; lia.
  - simpl. lia.
  - done.
Defined.

End Bitmap.
