(* ===== verification/Sched.v ===== *)
(** * Sched: the thread scheduler (threads/thread.c, threads/interrupt.c)

    [sched] is the state thread.c and interrupt.c own: the thread structures,
    the running thread, the ready list, the idle thread, the tick counters and
    the processor's interrupt flag.  A thread is named by its tid.  [schedule]
    is one context switch: it saves the running thread, installs the next one
    and completes the switch with thread_schedule_tail(), which in the C code
    runs in the context of the thread switched to.  [sched_inv] is the
    scheduler's invariant; every operation preserves it, and repeated yields
    run the ready threads in FIFO order. *)

From Stdlib Require Import ZArith Lia.
From stdpp Require Import base tactics option list numbers gmap.
From S2P Require Import Prelude.

Module Sched.

(** ** Data *)

Inductive thread_status :=
| THREAD_RUNNING
| THREAD_READY
| THREAD_BLOCKED
| THREAD_DYING.

#[global] Instance thread_status_eq_dec : EqDecision thread_status.
Proof. solve_decision. Defined.

Definition THREAD_MAGIC : Z := 3446325067.   (* 0xcd6abf4b *)
Definition PRI_MIN : Z := 0.
Definition PRI_DEFAULT : Z := 31.
Definition PRI_MAX : Z := 63.
Definition TIME_SLICE : Z := 4.
Definition TID_ERROR : Z := -1.

(** The members of struct thread the scheduler owns; [pagedir] records
    whether the thread has a page directory, that is, runs a user program. *)
Record thread := mk_thread {
  status : thread_status;
  name : list Z;
  priority : Z;
  pagedir : bool;
  magic : Z
}.

Record sched := mk_sched {
  threads : gmap Z thread;
  cur : Z;
  ready_list : list Z;
  all_list : list Z;
  idle_thread : option Z;
  initial_thread : Z;
  idle_ticks : Z;
  kernel_ticks : Z;
  user_ticks : Z;
  thread_ticks : Z;
  timer_ticks : Z;
  intr_on : bool;
  in_external_intr : bool;
  yield_on_return : bool
}.

Definition set_threads (f : gmap Z thread → gmap Z thread) (s : sched) : sched :=
  mk_sched (f (threads s)) (cur s) (ready_list s) (all_list s) (idle_thread s)
    (initial_thread s) (idle_ticks s) (kernel_ticks s) (user_ticks s)
    (thread_ticks s) (timer_ticks s) (intr_on s) (in_external_intr s)
    (yield_on_return s).
Definition set_cur (c : Z) (s : sched) : sched :=
  mk_sched (threads s) c (ready_list s) (all_list s) (idle_thread s)
    (initial_thread s) (idle_ticks s) (kernel_ticks s) (user_ticks s)
    (thread_ticks s) (timer_ticks s) (intr_on s) (in_external_intr s)
    (yield_on_return s).
Definition set_ready (f : list Z → list Z) (s : sched) : sched :=
  mk_sched (threads s) (cur s) (f (ready_list s)) (all_list s) (idle_thread s)
    (initial_thread s) (idle_ticks s) (kernel_ticks s) (user_ticks s)
    (thread_ticks s) (timer_ticks s) (intr_on s) (in_external_intr s)
    (yield_on_return s).
Definition set_all (f : list Z → list Z) (s : sched) : sched :=
  mk_sched (threads s) (cur s) (ready_list s) (f (all_list s)) (idle_thread s)
    (initial_thread s) (idle_ticks s) (kernel_ticks s) (user_ticks s)
    (thread_ticks s) (timer_ticks s) (intr_on s) (in_external_intr s)
    (yield_on_return s).
Definition set_idle (i : option Z) (s : sched) : sched :=
  mk_sched (threads s) (cur s) (ready_list s) (all_list s) i
    (initial_thread s) (idle_ticks s) (kernel_ticks s) (user_ticks s)
    (thread_ticks s) (timer_ticks s) (intr_on s) (in_external_intr s)
    (yield_on_return s).
Definition set_stats (idle kernel user : Z) (s : sched) : sched :=
  mk_sched (threads s) (cur s) (ready_list s) (all_list s) (idle_thread s)
    (initial_thread s) idle kernel user
    (thread_ticks s) (timer_ticks s) (intr_on s) (in_external_intr s)
    (yield_on_return s).
Definition set_ticks (slice total : Z) (s : sched) : sched :=
  mk_sched (threads s) (cur s) (ready_list s) (all_list s) (idle_thread s)
    (initial_thread s) (idle_ticks s) (kernel_ticks s) (user_ticks s)
    slice total (intr_on s) (in_external_intr s) (yield_on_return s).
Definition set_intr (b : bool) (s : sched) : sched :=
  mk_sched (threads s) (cur s) (ready_list s) (all_list s) (idle_thread s)
    (initial_thread s) (idle_ticks s) (kernel_ticks s) (user_ticks s)
    (thread_ticks s) (timer_ticks s) b (in_external_intr s) (yield_on_return s).
Definition set_external (ext yield : bool) (s : sched) : sched :=
  mk_sched (threads s) (cur s) (ready_list s) (all_list s) (idle_thread s)
    (initial_thread s) (idle_ticks s) (kernel_ticks s) (user_ticks s)
    (thread_ticks s) (timer_ticks s) (intr_on s) ext yield.

Definition set_initial (t : Z) (s : sched) : sched :=
  mk_sched (threads s) (cur s) (ready_list s) (all_list s) (idle_thread s)
    t (idle_ticks s) (kernel_ticks s) (user_ticks s)
    (thread_ticks s) (timer_ticks s) (intr_on s) (in_external_intr s)
    (yield_on_return s).

Definition with_status (st : thread_status) (t : thread) : thread :=
  mk_thread st (name t) (priority t) (pagedir t) (magic t).

Definition with_priority (p : Z) (t : thread) : thread :=
  mk_thread (status t) (name t) p (pagedir t) (magic t).

(** ** Interrupts (threads/interrupt.c) *)

Definition intr_get_level : M sched bool := gets intr_on.

Definition intr_context : M sched bool := gets in_external_intr.

Definition intr_enable : M sched bool :=
  let* old_level := intr_get_level in
  let* ctx := intr_context in
  assert (negb ctx);;;
  modify (set_intr true);;;
  ret old_level.

Definition intr_disable : M sched bool :=
  let* old_level := intr_get_level in
  modify (set_intr false);;;
  ret old_level.

Definition intr_set_level (level : bool) : M sched bool :=
  if level then intr_enable else intr_disable.

Definition intr_yield_on_return : M sched unit :=
  let* ctx := intr_context in
  assert ctx;;;
  modify (λ s, set_external (in_external_intr s) true s).

(** ** Threads *)

Definition running_thread : M sched Z := gets cur.

Definition is_thread (t : Z) (s : sched) : bool :=
  match threads s !! t with
  | Some th => magic th =? THREAD_MAGIC
  | None => false
  end.

Definition thread_current : M sched Z :=
  let* t := running_thread in
  let* s := get in
  assert (is_thread t s);;;
  let* th := deref (threads s !! t) in
  assert (bool_decide (status th = THREAD_RUNNING));;;
  ret t.

(** [t->status = st]. *)
Definition set_status (t : Z) (st : thread_status) : M sched unit :=
  let* s := get in
  let* th := deref (threads s !! t) in
  modify (set_threads <[t := with_status st th]>).

Definition next_thread_to_run : M sched (option Z) :=
  let* s := get in
  match ready_list s with
  | [] => ret (idle_thread s)
  | t :: rest => modify (set_ready (λ _, rest));;; ret (Some t)
  end.

(** Runs as the thread switched to; process_activate() changes only the
    processor's page-table and task registers. *)
Definition thread_schedule_tail (prev : option Z) : M sched unit :=
  let* c := running_thread in
  let* lvl := intr_get_level in
  assert (negb lvl);;;
  set_status c THREAD_RUNNING;;;
  modify (λ s, set_ticks 0 (timer_ticks s) s);;;
  match prev with
  | None => ret tt
  | Some p =>
      let* s := get in
      let* th := deref (threads s !! p) in
      if bool_decide (status th = THREAD_DYING) && negb (p =? initial_thread s)
      then assert (negb (p =? c));;; modify (set_threads (delete p))
      else ret tt
  end.

Definition schedule : M sched unit :=
  let* c := running_thread in
  let* next := next_thread_to_run in
  let* lvl := intr_get_level in
  assert (negb lvl);;;
  let* s := get in
  let* th := deref (threads s !! c) in
  assert (negb (bool_decide (status th = THREAD_RUNNING)));;;
  match next with
  | None => panic
  | Some n =>
      assert (is_thread n s);;;
      if c =? n then thread_schedule_tail None
      else modify (set_cur n);;; thread_schedule_tail (Some c)
  end.

Definition thread_block : M sched unit :=
  let* ctx := intr_context in
  assert (negb ctx);;;
  let* lvl := intr_get_level in
  assert (negb lvl);;;
  let* t := thread_current in
  set_status t THREAD_BLOCKED;;;
  schedule.

Definition thread_unblock (t : Z) : M sched unit :=
  let* s := get in
  assert (is_thread t s);;;
  let* old_level := intr_disable in
  let* th := deref (threads s !! t) in
  assert (bool_decide (status th = THREAD_BLOCKED));;;
  modify (set_ready (λ l, l ++ [t]));;;
  set_status t THREAD_READY;;;
  let* _ := intr_set_level old_level in
  ret tt.

(** The interrupt level is per processor: the thread that resumes restores
    the level it saved when it was switched out.  [thread_yield_switch] is the
    code up to and including the context switch. *)
Definition thread_yield_switch : M sched unit :=
  let* t := thread_current in
  let* ctx := intr_context in
  assert (negb ctx);;;
  let* _ := intr_disable in
  let* s := get in
  (if bool_decide (idle_thread s = Some t) then ret tt
   else modify (set_ready (λ l, l ++ [t])));;;
  set_status t THREAD_READY;;;
  schedule.

Definition thread_tick : M sched unit :=
  let* t := thread_current in
  let* s := get in
  let* th := deref (threads s !! t) in
  (if bool_decide (idle_thread s = Some t)
   then modify (set_stats (s64 (idle_ticks s + 1)) (kernel_ticks s) (user_ticks s))
   else if pagedir th
   then modify (set_stats (idle_ticks s) (kernel_ticks s) (s64 (user_ticks s + 1)))
   else modify (set_stats (idle_ticks s) (s64 (kernel_ticks s + 1)) (user_ticks s)));;;
  modify (λ s, set_ticks (u32 (thread_ticks s + 1)) (timer_ticks s) s);;;
  let* s := get in
  if thread_ticks s >=? TIME_SLICE then intr_yield_on_return else ret tt.

(** devices/timer.c *)
Definition timer_interrupt : M sched unit :=
  modify (λ s, set_ticks (thread_ticks s) (s64 (timer_ticks s + 1)) s);;;
  thread_tick.

(** intr_handler() for an external interrupt with handler [handler]; the
    acknowledgement on the PIC is a port write.  The processor clears the
    interrupt flag when it delivers the interrupt. *)
Definition intr_handler_external (handler : M sched unit) : M sched unit :=
  let* lvl := intr_get_level in
  assert (negb lvl);;;
  let* ctx := intr_context in
  assert (negb ctx);;;
  modify (set_external true false);;;
  handler;;;
  let* lvl := intr_get_level in
  assert (negb lvl);;;
  let* ctx := intr_context in
  assert ctx;;;
  modify (λ s, set_external false (yield_on_return s) s);;;
  let* s := get in
  if yield_on_return s then thread_yield_switch else ret tt.

Definition thread_set_priority (new_priority : Z) : M sched unit :=
  let* t := thread_current in
  let* s := get in
  let* th := deref (threads s !! t) in
  modify (set_threads <[t := with_priority new_priority th]>).

Definition thread_get_priority : M sched Z :=
  let* t := thread_current in
  let* s := get in
  let* th := deref (threads s !! t) in
  ret (priority th).

(** The length of the first word of a command line: the characters before
    the first space or the end. *)
Fixpoint first_word_len (cmd : list Z) : Z :=
  match cmd with
  | [] => 0
  | c :: rest => if (c =? 0) || (c =? 32) then 0 else 1 + first_word_len rest
  end.

(** [t->name] has 16 bytes and strlcpy() is given the length of the first
    word plus one, not the size of the array: a longer word is written past
    the member. *)
Definition init_thread (t : Z) (nm : list Z) (prio : Z) : M sched unit :=
  assert ((PRI_MIN <=? prio) && (prio <=? PRI_MAX));;;
  let file_name_len := first_word_len nm in
  if 16 <? file_name_len + 1 then fault
  else
    modify (set_threads
      <[t := mk_thread THREAD_BLOCKED (take (Z.to_nat file_name_len) nm) prio
               false THREAD_MAGIC]>);;;
    let* old_level := intr_disable in
    modify (set_all (λ l, l ++ [t]));;;
    let* _ := intr_set_level old_level in
    ret tt.

(** The scheduler's part of thread_exit(): the thread leaves the list of all
    threads, is marked dying and gives up the processor for good. *)
Definition thread_exit_switch : M sched unit :=
  let* ctx := intr_context in
  assert (negb ctx);;;
  let* _ := intr_disable in
  let* t := thread_current in
  modify (set_all (filter (λ u, u ≠ t)));;;
  set_status t THREAD_DYING;;;
  schedule.

(** idle() names itself before it blocks for the first time. *)
Definition idle_start : M sched unit :=
  let* t := thread_current in
  modify (set_idle (Some t)).

Definition main_name : list Z := [109; 97; 105; 110].

(** The code that is running becomes the thread "main". *)
Definition thread_init : M sched unit :=
  let* lvl := intr_get_level in
  assert (negb lvl);;;
  modify (set_ready (λ _, []));;;
  modify (set_all (λ _, []));;;
  let* t := running_thread in
  modify (set_initial t);;;
  init_thread t main_name PRI_DEFAULT;;;
  set_status t THREAD_RUNNING.

(** The machine when pintos_init() calls thread_init(): no thread structures,
    interrupts off; the first tid is 1. *)
Definition power_on : sched :=
  mk_sched ∅ 1 [] [] None 0 0 0 0 0 0 false false false.

(** The transitions of the scheduler.  A timer interrupt is delivered only
    while interrupts are on, and delivery turns them off; a thread structure
    is created on a page no thread uses; the idle thread is named once, waits
    on no semaphore, so nobody unblocks it, and never exits. *)
Inductive kstep (s : sched) : sched → Prop :=
| kstep_block s' : thread_block s = Ok (tt, s') → kstep s s'
| kstep_unblock t s' :
    idle_thread s ≠ Some t → thread_unblock t s = Ok (tt, s') → kstep s s'
| kstep_yield s' : thread_yield_switch s = Ok (tt, s') → kstep s s'
| kstep_timer s' :
    intr_on s = true →
    intr_handler_external timer_interrupt (set_intr false s) = Ok (tt, s') →
    kstep s s'
| kstep_level b old s' : intr_set_level b s = Ok (old, s') → kstep s s'
| kstep_priority p s' : thread_set_priority p s = Ok (tt, s') → kstep s s'
| kstep_create t nm prio s' :
    threads s !! t = None → idle_thread s ≠ Some t →
    init_thread t nm prio s = Ok (tt, s') → kstep s s'
| kstep_idle s' :
    idle_thread s = None → idle_start s = Ok (tt, s') → kstep s s'
| kstep_exit s' :
    idle_thread s ≠ Some (cur s) → thread_exit_switch s = Ok (tt, s') →
    kstep s s'.

(** [n] context switches by thread_yield(). *)
Fixpoint yields (n : nat) : M sched unit :=
  match n with
  | O => ret tt
  | S n => thread_yield_switch;;; yields n
  end.

(** ** The invariant *)

Definition status_of (s : sched) (t : Z) : option thread_status :=
  status <$> threads s !! t.

(** The running thread is the only one marked running; the ready list holds
    exactly the ready threads other than the idle thread, each once; every
    structure carries the magic number. *)
Record sched_inv (s : sched) : Prop := {
  inv_cur : status_of s (cur s) = Some THREAD_RUNNING;
  inv_unique : ∀ t, status_of s t = Some THREAD_RUNNING → t = cur s;
  inv_nodup : NoDup (ready_list s);
  inv_ready : ∀ t, t ∈ ready_list s ↔
    status_of s t = Some THREAD_READY ∧ idle_thread s ≠ Some t;
  inv_idle : ∀ i, idle_thread s = Some i →
    status_of s i = Some THREAD_RUNNING ∨ status_of s i = Some THREAD_BLOCKED ∨
    status_of s i = Some THREAD_READY;
  inv_magic : ∀ t th, threads s !! t = Some th → magic th = THREAD_MAGIC
}.

(** What schedule() relies on: the caller has given up the processor, and
    some thread can take it. *)
Record switching (s : sched) : Prop := {
  sw_old : ∃ st, status_of s (cur s) = Some st ∧ st ≠ THREAD_RUNNING;
  sw_none : ∀ t, status_of s t ≠ Some THREAD_RUNNING;
  sw_nodup : NoDup (ready_list s);
  sw_ready : ∀ t, t ∈ ready_list s ↔
    status_of s t = Some THREAD_READY ∧ idle_thread s ≠ Some t;
  sw_idle : ∀ i, idle_thread s = Some i →
    status_of s i = Some THREAD_BLOCKED ∨ status_of s i = Some THREAD_READY;
  sw_some : ready_list s ≠ [] ∨ is_Some (idle_thread s);
  sw_magic : ∀ t th, threads s !! t = Some th → magic th = THREAD_MAGIC;
  sw_off : intr_on s = false
}.

(** The thread schedule() picks: the head of the ready list, or idle. *)
Definition chosen (s : sched) : option Z :=
  match ready_list s with [] => idle_thread s | t :: _ => Some t end.

(** ** Context switches *)

Lemma status_of_insert s t th u :
  status_of (set_threads <[t := th]> s) u =
    if decide (t = u) then Some (status th) else status_of s u.
Proof.
  unfold status_of. simpl. rewrite lookup_insert. by case_decide.
Qed.

Lemma status_of_delete s t u :
  status_of (set_threads (delete t) s) u =
    if decide (t = u) then None else status_of s u.
Proof.
  unfold status_of. simpl. rewrite lookup_delete. by case_decide.
Qed.

Lemma status_of_Some s t st :
  status_of s t = Some st ↔ ∃ th, threads s !! t = Some th ∧ status th = st.
Proof. unfold status_of. rewrite fmap_Some. naive_solver. Qed.

Lemma is_thread_true s t st :
  (∀ t th, threads s !! t = Some th → magic th = THREAD_MAGIC) →
  status_of s t = Some st → is_thread t s = true.
Proof.
  intros Hm (th & Hth & _)%status_of_Some. unfold is_thread. rewrite Hth.
  apply Z.eqb_eq. eauto.
Qed.

Lemma set_status_ok s t th st :
  threads s !! t = Some th →
  set_status t st s = Ok (tt, set_threads <[t := with_status st th]> s).
Proof. intros H. unfold set_status, bind, obind, get, deref. by rewrite H. Qed.

(** The state after thread_schedule_tail(): the running thread is marked, the
    slice restarts, and a dying predecessor's page is gone. *)
Lemma schedule_tail_spec s th prev :
  threads s !! cur s = Some th → intr_on s = false →
  (∀ p, prev = Some p → p ≠ cur s ∧ is_Some (threads s !! p)) →
  ∃ m, thread_schedule_tail prev s =
    Ok (tt, set_ticks 0 (timer_ticks s) (set_threads (λ _, m) s)) ∧
    m !! cur s = Some (with_status THREAD_RUNNING th) ∧
    ∀ t, t ≠ cur s →
      m !! t = threads s !! t ∨
      (prev = Some t ∧ status_of s t = Some THREAD_DYING ∧ m !! t = None).
Proof.
  intros Hth Hoff Hprev.
  unfold thread_schedule_tail, running_thread, intr_get_level. run.
  rewrite bind_assert by (by rewrite Hoff).
  erewrite bind_ok by (by apply set_status_ok). run.
  destruct prev as [p|].
  - destruct (Hprev p eq_refl) as [Hne [thp Hp]].
    run. erewrite bind_deref by (simpl; by rewrite lookup_insert_ne). simpl.
    destruct (bool_decide (status thp = THREAD_DYING) && negb (p =? initial_thread s)) eqn:Hd.
    + apply andb_true_iff in Hd as [Hdy%bool_decide_eq_true _].
      rewrite bind_assert by (apply negb_true_iff; by apply Z.eqb_neq).
      exists (delete p (<[cur s := with_status THREAD_RUNNING th]> (threads s))).
      split; [done|]. split.
      * rewrite lookup_delete_ne by done. by rewrite lookup_insert_eq.
      * intros t Ht. destruct (decide (t = p)) as [->|].
        -- right. split_and!; [done| |by rewrite lookup_delete_eq].
           unfold status_of. rewrite Hp. simpl. by rewrite Hdy.
        -- left. by rewrite lookup_delete_ne, lookup_insert_ne.
    + exists (<[cur s := with_status THREAD_RUNNING th]> (threads s)).
      split; [done|]. split; [by rewrite lookup_insert_eq|].
      intros t Ht. left. by rewrite lookup_insert_ne.
  - exists (<[cur s := with_status THREAD_RUNNING th]> (threads s)).
    split; [done|]. split; [by rewrite lookup_insert_eq|].
    intros t Ht. left. by rewrite lookup_insert_ne.
Qed.

(** [switched s s']: one context switch, as the rest of the kernel sees it. *)
Record switched (s s' : sched) : Prop := {
  swd_cur : chosen s = Some (cur s');
  swd_ready : ready_list s' = tail (ready_list s);
  swd_idle : idle_thread s' = idle_thread s;
  swd_intr : intr_on s' = false;
  swd_ext : in_external_intr s' = in_external_intr s;
  swd_ticks : thread_ticks s' = 0;
  swd_status : ∀ t, t ≠ cur s' →
    status_of s' t = status_of s t ∨
    (t = cur s ∧ status_of s t = Some THREAD_DYING ∧ status_of s' t = None)
}.

Lemma chosen_status s n :
  switching s → chosen s = Some n →
  status_of s n = Some THREAD_READY ∨
  (status_of s n = Some THREAD_BLOCKED ∧ idle_thread s = Some n).
Proof.
  intros Hs. unfold chosen. destruct (ready_list s) as [|t l] eqn:Hr.
  - intros Hi. destruct (sw_idle _ Hs n Hi); eauto.
  - intros [= <-]. left. apply (sw_ready _ Hs t). rewrite Hr. left.
Qed.

Lemma switching_chosen s : switching s → ∃ n, chosen s = Some n.
Proof.
  intros Hs. unfold chosen. pose proof (sw_some _ Hs) as H.
  destruct (ready_list s); [|by eauto]. destruct H as [|[i ->]]; [done|by eauto].
Qed.

Lemma next_thread_ok s n :
  chosen s = Some n →
  next_thread_to_run s = Ok (Some n, set_ready (λ _, tail (ready_list s)) s).
Proof.
  unfold next_thread_to_run, chosen, bind, obind, get, modify, ret. intros Hn.
  destruct (ready_list s) as [|t l] eqn:Hr; [|by simplify_eq/=].
  rewrite Hn. destruct s; simpl in *. by subst.
Qed.

(** [s] with thread [n] running and thread table [m]. *)
Definition running_as (n : Z) (m : gmap Z thread) (s : sched) : sched :=
  set_ticks 0 (timer_ticks s)
    (set_threads (λ _, m) (set_cur n (set_ready (λ _, tail (ready_list s)) s))).

(** The thread table [m] after [n] took over from the running thread of [s]. *)
Definition switch_table (s : sched) (n : Z) (m : gmap Z thread) : Prop :=
  (∃ thn, threads s !! n = Some thn ∧
          m !! n = Some (with_status THREAD_RUNNING thn)) ∧
  ∀ t, t ≠ n → m !! t = threads s !! t ∨
    (cur s = t ∧ status_of s t = Some THREAD_DYING ∧ m !! t = None).

Lemma schedule_runs s n :
  switching s → chosen s = Some n →
  ∃ m, schedule s = Ok (tt, running_as n m s) ∧ switch_table s n m.
Proof.
  intros Hs Hn. destruct (sw_old _ Hs) as (sto & Hsto & Hnr).
  apply status_of_Some in Hsto as (tho & Htho & Hstat).
  assert (∃ stn, status_of s n = Some stn) as [stn Hstn]
    by (destruct (chosen_status s n Hs Hn) as [H|[H _]]; eauto).
  assert (is_thread n (set_ready (λ _, tail (ready_list s)) s) = true) as Hisn
    by (eapply is_thread_true; [apply (sw_magic _ Hs)|apply Hstn]).
  apply status_of_Some in Hstn as (thn & Hthn & Hstn).
  unfold schedule, running_thread, intr_get_level. run.
  rewrite (bind_ok _ _ _ _ _ (next_thread_ok s n Hn)). run.
  rewrite bind_assert by (simpl; by rewrite (sw_off _ Hs)). run.
  erewrite bind_deref by done.
  rewrite bind_assert by (apply negb_true_iff, bool_decide_eq_false_2; congruence).
  rewrite bind_assert by done.
  destruct (Z.eqb_spec (cur s) n) as [Heq|Hne].
  - destruct (schedule_tail_spec (set_ready (λ _, tail (ready_list s)) s) thn None)
      as (m & -> & Hm1 & Hm2); [by rewrite <- Heq in Hthn|apply (sw_off _ Hs)|done|].
    exists m. split; [unfold running_as, set_cur; by rewrite <- Heq|]. split.
    + exists thn. split; [done|]. by rewrite <- Heq.
    + intros t Ht. destruct (Hm2 t) as [|(? & _)]; [simpl; congruence|by left|done].
  - run.
    destruct (schedule_tail_spec (set_cur n (set_ready (λ _, tail (ready_list s)) s))
                thn (Some (cur s))) as (m & -> & Hm1 & Hm2);
      [done|apply (sw_off _ Hs)| |].
    { intros p [= <-]. split; [done|]. by exists tho. }
    exists m. split; [done|]. split; [by eauto|].
    intros t Ht. destruct (Hm2 t Ht) as [|(Ht1 & ? & ?)]; [by left|right].
    by injection Ht1 as ->.
Qed.

Lemma running_as_status s n m t :
  switch_table s n m → t ≠ n →
  status_of (running_as n m s) t = status_of s t ∨
  (t = cur s ∧ status_of s t = Some THREAD_DYING ∧
   status_of (running_as n m s) t = None).
Proof.
  intros [_ Hother] Ht. unfold status_of. simpl.
  destruct (Hother t Ht) as [->|(<- & Hd & ->)]; [by left|by right].
Qed.

(** The ready list loses exactly the thread chosen. *)
Lemma running_as_ready s n m t :
  switching s → chosen s = Some n → switch_table s n m →
  t ∈ tail (ready_list s) ↔
  status_of (running_as n m s) t = Some THREAD_READY ∧ idle_thread s ≠ Some t.
Proof.
  intros Hs Hn Htab. pose proof (sw_ready _ Hs t) as Hrdy.
  pose proof (sw_nodup _ Hs) as Hnd. unfold chosen in Hn.
  destruct (decide (t = n)) as [->|Hne].
  - destruct Htab as [(thn & _ & Hm) _]. unfold status_of. simpl. rewrite Hm. simpl.
    split; [|naive_solver]. intros Hin. exfalso.
    destruct (ready_list s); simpl in *; [by apply elem_of_nil in Hin|].
    simplify_eq. by inv Hnd.
  - assert (t ∈ tail (ready_list s) ↔ t ∈ ready_list s) as ->.
    { destruct (ready_list s) as [|u l]; [done|].
      simplify_eq/=. rewrite elem_of_cons. naive_solver. }
    rewrite Hrdy.
    destruct (running_as_status s n m t Htab Hne) as [->|(_ & -> & ->)]; naive_solver.
Qed.

Lemma running_as_inv s n m :
  switching s → chosen s = Some n → switch_table s n m →
  sched_inv (running_as n m s).
Proof.
  intros Hs Hn Htab. pose proof Htab as [(thn & Hthn & Hm) Hother].
  constructor; simpl.
  - unfold status_of. simpl. by rewrite Hm.
  - intros t Ht. destruct (decide (t = n)) as [|Hne]; [done|].
    destruct (running_as_status s n m t Htab Hne) as [E|(_ & _ & E)];
      rewrite E in Ht; [|done]. by apply (sw_none _ Hs) in Ht.
  - pose proof (sw_nodup _ Hs) as Hnd. destruct (ready_list s); [constructor|].
    by inv Hnd.
  - intros t. by apply running_as_ready.
  - intros i Hi. destruct (decide (i = n)) as [->|Hne].
    + left. unfold status_of. simpl. by rewrite Hm.
    + right. destruct (running_as_status s n m i Htab Hne) as [->|(_ & E & _)];
        [by apply (sw_idle _ Hs)|].
      destruct (sw_idle _ Hs i Hi) as [E'|E']; congruence.
  - intros t th Hl. pose proof (sw_magic _ Hs) as Hmg.
    destruct (decide (t = n)) as [->|Hne].
    + rewrite Hm in Hl. simplify_eq/=. eauto.
    + destruct (Hother t Hne) as [E|(_ & _ & E)]; rewrite E in Hl; eauto. done.
Qed.

Lemma schedule_switched s :
  switching s → ∃ s', schedule s = Ok (tt, s') ∧ sched_inv s' ∧ switched s s'.
Proof.
  intros Hs. destruct (switching_chosen s Hs) as [n Hn].
  destruct (schedule_runs s n Hs Hn) as (m & Hrun & Htab).
  exists (running_as n m s). split; [done|]. split; [by apply running_as_inv|].
  constructor; simpl; try done; [apply (sw_off _ Hs)|].
  intros t Ht. by apply running_as_status.
Qed.

(** ** Operations of the running thread *)

Lemma thread_current_ok s : sched_inv s → thread_current s = Ok (cur s, s).
Proof.
  intros Hi. pose proof (inv_cur _ Hi) as Hc.
  assert (is_thread (cur s) s = true) as Hth
    by (eapply is_thread_true; [apply (inv_magic _ Hi)|done]).
  apply status_of_Some in Hc as (th & Hl & Hst).
  unfold thread_current, running_thread, bind, obind, gets, get, assert, deref.
  rewrite Hth. simpl. rewrite Hl. simpl. by rewrite bool_decide_eq_true_2.
Qed.

(** The running thread gives up the processor with new status [st], queued on
    the ready list or not: what is left is ready to switch. *)
Lemma give_up_switching s th st queued :
  sched_inv s → threads s !! cur s = Some th →
  queued = bool_decide (st = THREAD_READY ∧ idle_thread s ≠ Some (cur s)) →
  st ≠ THREAD_RUNNING → (st = THREAD_DYING → idle_thread s ≠ Some (cur s)) →
  let s1 := set_intr false
    (set_threads <[cur s := with_status st th]>
      (if queued then set_ready (λ l, l ++ [cur s]) s else s)) in
  ready_list s1 ≠ [] ∨ is_Some (idle_thread s) →
  switching s1.
Proof.
  intros Hi Hth Hq Hst Hdy s1 Hsome.
  assert (∀ t, status_of s1 t = if decide (cur s = t) then Some st else status_of s t)
    as Hstat.
  { intros t. subst s1. unfold status_of. simpl. rewrite lookup_insert.
    destruct queued, (decide (cur s = t)); done. }
  assert (cur s ∉ ready_list s) as Hnotin.
  { intros Hin. apply (inv_ready _ Hi) in Hin as [Hin _].
    rewrite (inv_cur _ Hi) in Hin. done. }
  assert (∀ t, t ∈ ready_list s1 ↔ t ∈ ready_list s ∨ (queued = true ∧ t = cur s)) as Hin.
  { intros t. subst s1. destruct queued; simpl; [|naive_solver].
    rewrite elem_of_app, list_elem_of_singleton. naive_solver. }
  constructor; subst s1; simpl in *.
  - destruct queued; simpl; exists st; rewrite Hstat, decide_True; done.
  - intros t Ht. rewrite Hstat in Ht. case_decide; [congruence|].
    apply (inv_unique _ Hi) in Ht. congruence.
  - destruct queued; simpl; [|apply (inv_nodup _ Hi)].
    apply NoDup_app. split_and!; [apply (inv_nodup _ Hi)| |apply NoDup_singleton].
    intros t Ht ->%list_elem_of_singleton. done.
  - intros t. rewrite Hin, Hstat, (inv_ready _ Hi).
    assert (idle_thread (if queued then set_ready (λ l, l ++ [cur s]) s else s)
              = idle_thread s) as -> by by destruct queued.
    destruct (decide (cur s = t)) as [<-|].
    + rewrite (inv_cur _ Hi), Hq, bool_decide_eq_true. naive_solver.
    + naive_solver.
  - intros i. assert (idle_thread (if queued then set_ready (λ l, l ++ [cur s]) s else s)
              = idle_thread s) as -> by by destruct queued.
    intros Hid. rewrite Hstat. destruct (decide (cur s = i)) as [Hc|Hc].
    + destruct st; try done; [by right|by left|].
      exfalso. rewrite <- Hc in Hid. by apply Hdy.
    + destruct (inv_idle _ Hi i Hid) as [E|[E|E]]; [|by left|by right].
      apply (inv_unique _ Hi) in E. congruence.
  - by destruct queued.
  - intros t th' Hl. assert (threads (if queued then set_ready (λ l, l ++ [cur s]) s else s)
              = threads s) as Ht by by destruct queued.
    rewrite Ht, lookup_insert in Hl. case_decide.
    + simplify_eq/=. by apply (inv_magic _ Hi) in Hth.
    + by apply (inv_magic _ Hi) in Hl.
  - done.
Qed.

Lemma thread_block_spec s :
  sched_inv s → in_external_intr s = false → intr_on s = false →
  ready_list s ≠ [] ∨ is_Some (idle_thread s) →
  ∃ s', thread_block s = Ok (tt, s') ∧ sched_inv s' ∧
        chosen s = Some (cur s') ∧ ready_list s' = tail (ready_list s) ∧
        (cur s' ≠ cur s → status_of s' (cur s) = Some THREAD_BLOCKED).
Proof.
  intros Hi Hext Hoff Hsome. pose proof (inv_cur _ Hi) as Hc.
  apply status_of_Some in Hc as (th & Hl & Hst).
  unfold thread_block, intr_context, intr_get_level. run.
  rewrite bind_assert by (by rewrite Hext). run.
  rewrite bind_assert by (by rewrite Hoff).
  rewrite (bind_ok _ _ _ _ _ (thread_current_ok s Hi)).
  rewrite (bind_ok _ _ _ _ _ (set_status_ok s (cur s) th THREAD_BLOCKED Hl)).
  pose proof (give_up_switching s th THREAD_BLOCKED false Hi Hl) as Hsw.
  rewrite bool_decide_eq_false_2 in Hsw by naive_solver.
  specialize (Hsw eq_refl ltac:(done) ltac:(done) Hsome). simpl in Hsw.
  assert (∀ s, intr_on s = false → set_intr false s = s) as Hid
    by (intros []; simpl; by intros ->).
  rewrite Hid in Hsw by done.
  destruct (schedule_switched _ Hsw) as (s' & -> & Hi' & Hsd).
  exists s'. split_and!; try done.
  - by apply (swd_cur _ _ Hsd).
  - by apply (swd_ready _ _ Hsd).
  - intros Hne. destruct (swd_status _ _ Hsd (cur s)) as [->|(_ & E & _)]; [done|..].
    + by rewrite status_of_insert, decide_True.
    + by rewrite status_of_insert, decide_True in E.
Qed.

Lemma thread_yield_spec s :
  sched_inv s → in_external_intr s = false →
  ∃ s', thread_yield_switch s = Ok (tt, s') ∧ sched_inv s' ∧
        idle_thread s' = idle_thread s ∧ in_external_intr s' = false ∧
        if bool_decide (idle_thread s = Some (cur s))
        then cur s' = default (cur s) (head (ready_list s)) ∧
             ready_list s' = tail (ready_list s)
        else ready_list s ++ [cur s] = cur s' :: ready_list s'.
Proof.
  intros Hi Hext. pose proof (inv_cur _ Hi) as Hc.
  apply status_of_Some in Hc as (th & Hl & Hst).
  unfold thread_yield_switch.
  rewrite (bind_ok _ _ _ _ _ (thread_current_ok s Hi)).
  unfold intr_context, intr_disable, intr_get_level. run.
  rewrite bind_assert by (by rewrite Hext). run.
  set (q := negb (bool_decide (idle_thread s = Some (cur s)))).
  pose proof (give_up_switching s th THREAD_READY q Hi Hl) as Hsw.
  assert (q = bool_decide (THREAD_READY = THREAD_READY ∧ idle_thread s ≠ Some (cur s))) as Hq.
  { subst q. case_bool_decide as H1; case_bool_decide as H2; naive_solver. }
  specialize (Hsw Hq ltac:(done) ltac:(done)). simpl in Hsw.
  subst q. simpl.
  destruct (bool_decide (idle_thread s = Some (cur s))) eqn:Hidle; simpl in *; run.
  - apply bool_decide_eq_true in Hidle.
    erewrite bind_ok by (by apply set_status_ok).
    specialize (Hsw ltac:(right; rewrite Hidle; eauto)).
    destruct (schedule_switched _ Hsw) as (s' & Hrun & Hi' & Hsd).
    exists s'. split; [exact Hrun|].
    pose proof (swd_cur _ _ Hsd) as Hcur. unfold chosen in Hcur. simpl in Hcur.
    split_and!; try done.
    + apply (swd_idle _ _ Hsd).
    + rewrite (swd_ext _ _ Hsd). done.
    + destruct (ready_list s); simplify_eq/=; congruence.
    + apply (swd_ready _ _ Hsd).
  - apply bool_decide_eq_false in Hidle.
    erewrite bind_ok by (by apply set_status_ok).
    specialize (Hsw ltac:(left; by destruct (ready_list s))).
    destruct (schedule_switched _ Hsw) as (s' & Hrun & Hi' & Hsd).
    exists s'. split; [exact Hrun|].
    pose proof (swd_cur _ _ Hsd) as Hcur. unfold chosen in Hcur. simpl in Hcur.
    pose proof (swd_ready _ _ Hsd) as Hrdy. simpl in Hrdy.
    split_and!; try done.
    + apply (swd_idle _ _ Hsd).
    + rewrite (swd_ext _ _ Hsd). done.
    + rewrite Hrdy. destruct (ready_list s); simplify_eq/=; congruence.
Qed.

Lemma schedule_none s :
  chosen s = None → intr_on s = false → ∀ r, schedule s ≠ Ok r.
Proof.
  intros Hn Hoff r. unfold chosen in Hn. unfold schedule, next_thread_to_run.
  unfold running_thread, intr_get_level. run.
  destruct (ready_list s); [|done]. run. rewrite bind_assert by (by rewrite Hoff). run.
  unfold bind, obind. destruct (deref _ s) as [[th s1]| | | |]; try done.
  destruct (assert _ s1) as [[? s2]| | | |]; try done. by rewrite Hn.
Qed.

Lemma thread_block_inv s s' :
  sched_inv s → thread_block s = Ok (tt, s') → sched_inv s'.
Proof.
  intros Hi Hrun. pose proof Hrun as Hrun'.
  destruct (in_external_intr s) eqn:Hext.
  { unfold thread_block, intr_context, bind, obind, gets, assert in Hrun.
    by rewrite Hext in Hrun. }
  destruct (intr_on s) eqn:Hon.
  { unfold thread_block, intr_context, intr_get_level, bind, obind, gets, assert in Hrun.
    rewrite Hext in Hrun. simpl in Hrun. by rewrite Hon in Hrun. }
  destruct (decide (ready_list s = [] ∧ idle_thread s = None)) as [[Hr Hid]|Hsome].
  - exfalso. pose proof (inv_cur _ Hi) as Hc. apply status_of_Some in Hc as (th & Hl & _).
    revert Hrun. unfold thread_block, intr_context, intr_get_level. run.
    rewrite bind_assert by (by rewrite Hext). run. rewrite bind_assert by (by rewrite Hon).
    rewrite (bind_ok _ _ _ _ _ (thread_current_ok s Hi)).
    rewrite (bind_ok _ _ _ _ _ (set_status_ok s (cur s) th THREAD_BLOCKED Hl)).
    apply schedule_none; [|done]. unfold chosen. simpl. by rewrite Hr.
  - destruct (thread_block_spec s Hi Hext Hon) as (s1 & Hs1 & Hi1 & _); [|congruence].
    destruct (ready_list s); [|by left]. right.
    destruct (idle_thread s) eqn:E; [by eauto|]. exfalso. by apply Hsome.
Qed.

(** Making a blocked thread ready. *)
Lemma unblocked_inv s t th :
  sched_inv s → threads s !! t = Some th → status th = THREAD_BLOCKED →
  idle_thread s ≠ Some t →
  sched_inv (set_threads <[t := with_status THREAD_READY th]>
               (set_ready (λ l, l ++ [t]) s)).
Proof.
  intros Hi Hl Hst Hid.
  set (s1 := set_threads _ _).
  assert (∀ u, status_of s1 u =
            if decide (t = u) then Some THREAD_READY else status_of s u) as Hstat.
  { intros u. subst s1. unfold status_of. simpl. rewrite lookup_insert. by case_decide. }
  assert (t ≠ cur s) as Hne.
  { intros ->. pose proof (inv_cur _ Hi) as Hc. unfold status_of in Hc.
    rewrite Hl in Hc. simplify_eq/=. congruence. }
  assert (t ∉ ready_list s) as Hnotin.
  { intros [Hr _]%(inv_ready _ Hi). unfold status_of in Hr. rewrite Hl in Hr.
    simplify_eq/=. congruence. }
  constructor; subst s1; simpl in *.
  - rewrite Hstat, decide_False by done. apply (inv_cur _ Hi).
  - intros u. rewrite Hstat. case_decide; [done|]. apply (inv_unique _ Hi).
  - apply NoDup_app. split_and!; [apply (inv_nodup _ Hi)| |apply NoDup_singleton].
    intros u Hu ->%list_elem_of_singleton. done.
  - intros u. rewrite elem_of_app, list_elem_of_singleton, Hstat, (inv_ready _ Hi).
    destruct (decide (t = u)) as [<-|]; naive_solver.
  - intros i Hi'. rewrite Hstat. case_decide; [naive_solver|]. by apply (inv_idle _ Hi).
  - intros u th' Hu. rewrite lookup_insert in Hu. case_decide; simplify_eq/=;
      [by apply (inv_magic _ Hi) in Hl|by apply (inv_magic _ Hi) in Hu].
Qed.

(** The invariant does not depend on the interrupt flag, the tick counters or
    the interrupt context. *)
Definition same_threads (s s' : sched) : Prop :=
  threads s' = threads s ∧ cur s' = cur s ∧ ready_list s' = ready_list s ∧
  idle_thread s' = idle_thread s.

Lemma same_threads_inv s s' : same_threads s s' → sched_inv s → sched_inv s'.
Proof.
  intros (Ht & Hc & Hr & Hid) [H1 H2 H3 H4 H5 H6].
  unfold status_of in *.
  constructor; unfold status_of; rewrite ?Ht, ?Hc, ?Hr, ?Hid; auto.
Qed.

Lemma intr_set_level_threads b s old s' :
  intr_set_level b s = Ok (old, s') → same_threads s s'.
Proof.
  unfold intr_set_level, intr_enable, intr_disable, intr_get_level, intr_context.
  destruct b; run.
  - unfold bind, obind, assert. destruct (in_external_intr s); [done|].
    simpl. intros [= <- <-]. done.
  - intros [= <- <-]. done.
Qed.

(** thread_unblock() appends the thread to the ready list and neither
    preempts the running thread nor changes the interrupt level. *)
Lemma thread_unblock_spec s t th :
  sched_inv s → threads s !! t = Some th → status th = THREAD_BLOCKED →
  idle_thread s ≠ Some t → (intr_on s = true → in_external_intr s = false) →
  thread_unblock t s =
    Ok (tt, set_threads <[t := with_status THREAD_READY th]>
              (set_ready (λ l, l ++ [t]) s)).
Proof.
  intros Hi Hl Hst Hid Hext. unfold thread_unblock. run.
  rewrite bind_assert.
  2: { unfold is_thread. rewrite Hl. apply Z.eqb_eq. by apply (inv_magic _ Hi) in Hl. }
  unfold intr_disable, intr_get_level. run.
  erewrite bind_deref by done. rewrite bind_assert by (by apply bool_decide_eq_true_2).
  run. erewrite bind_ok by (by apply set_status_ok).
  unfold intr_set_level, intr_enable, intr_disable, intr_get_level, intr_context.
  destruct s as [? ? ? ? ? ? ? ? ? ? ? on ext ?]. simpl in *.
  destruct on; run; [|done].
  rewrite bind_assert; [done|]. simpl. by rewrite (Hext eq_refl).
Qed.

Lemma thread_unblock_inv s t s' :
  sched_inv s → idle_thread s ≠ Some t → thread_unblock t s = Ok (tt, s') →
  sched_inv s'.
Proof.
  intros Hi Hid Hrun.
  destruct (threads s !! t) as [th|] eqn:Hl.
  2: { unfold thread_unblock, bind, obind, get, assert, is_thread in Hrun.
       by rewrite Hl in Hrun. }
  destruct (decide (status th = THREAD_BLOCKED)) as [Hst|Hst].
  2: { revert Hrun. unfold thread_unblock. run.
       destruct (is_thread t s); [|done]. rewrite bind_assert by done. run.
       unfold intr_disable, intr_get_level. run. rewrite Hl. simpl. run.
       by rewrite bool_decide_eq_false_2. }
  destruct (decide (intr_on s = true ∧ in_external_intr s = true)) as [[Hon Hext]|Hok].
  - exfalso. revert Hrun. unfold thread_unblock. run.
    destruct (is_thread t s); [|done]. rewrite bind_assert by done. run.
    unfold intr_disable, intr_get_level. run. rewrite Hl. simpl. run.
    rewrite bool_decide_eq_true_2 by done. rewrite bind_assert by done. run.
    erewrite bind_ok by (by apply set_status_ok).
    rewrite Hon. unfold intr_set_level, intr_enable, intr_get_level, intr_context. run.
    simpl. rewrite Hext. done.
  - rewrite (thread_unblock_spec s t th) in Hrun; try done.
    + injection Hrun as <-. by apply unblocked_inv.
    + intros Hon. destruct (in_external_intr s); [|done]. exfalso. by apply Hok.
Qed.

Lemma thread_yield_inv s s' :
  sched_inv s → thread_yield_switch s = Ok (tt, s') → sched_inv s'.
Proof.
  intros Hi Hrun. destruct (in_external_intr s) eqn:Hext.
  - exfalso. revert Hrun. unfold thread_yield_switch.
    rewrite (bind_ok _ _ _ _ _ (thread_current_ok s Hi)).
    unfold intr_context. run. by rewrite Hext.
  - destruct (thread_yield_spec s Hi Hext) as (s1 & Hs1 & Hi1 & _). congruence.
Qed.

Lemma thread_tick_threads s s' :
  sched_inv s → thread_tick s = Ok (tt, s') →
  same_threads s s' ∧ intr_on s' = intr_on s ∧ in_external_intr s' = in_external_intr s.
Proof.
  intros Hi. pose proof (inv_cur _ Hi) as Hc. apply status_of_Some in Hc as (th & Hl & _).
  unfold thread_tick. rewrite (bind_ok _ _ _ _ _ (thread_current_ok s Hi)). run.
  erewrite bind_deref by done.
  destruct (bool_decide _); [|destruct (pagedir th)]; run;
    (match goal with |- context [if ?b then _ else _] => destruct b end;
     [unfold intr_yield_on_return, intr_context; run; simpl;
      destruct (in_external_intr s) eqn:He; [|done];
      unfold assert; run; intros [= <-]; simpl; by rewrite ?He
     |by intros [= <-]]).
Qed.

Lemma timer_interrupt_inv s s' :
  sched_inv s → intr_handler_external timer_interrupt s = Ok (tt, s') →
  sched_inv s'.
Proof.
  intros Hi. unfold intr_handler_external, intr_get_level, intr_context. run.
  destruct (intr_on s) eqn:Hon; [done|]. rewrite bind_assert by done. run.
  destruct (in_external_intr s) eqn:Hext; [done|]. rewrite bind_assert by done. run.
  unfold timer_interrupt. run.
  set (s1 := set_ticks _ _ _).
  assert (sched_inv s1) as Hi1 by (eapply same_threads_inv; [|exact Hi]; done).
  destruct (thread_tick s1) as [[[] s2]| | | |] eqn:Ht;
    [rewrite (bind_ok _ _ _ _ _ Ht)|unfold bind at 1; rewrite Ht; done..].
  destruct (thread_tick_threads s1 s2 Hi1 Ht) as (Hsame & Hon2 & Hext2).
  assert (sched_inv s2) as Hi2 by (by eapply same_threads_inv).
  run. rewrite bind_assert by (rewrite Hon2; simpl; by rewrite Hon). run.
  rewrite bind_assert by (by rewrite Hext2). run.
  set (s3 := set_external _ _ _).
  assert (sched_inv s3) as Hi3 by (eapply same_threads_inv; [|exact Hi2]; done).
  destruct (yield_on_return s3).
  - by apply thread_yield_inv.
  - by intros [= <-].
Qed.

Lemma thread_exit_inv s s' :
  sched_inv s → idle_thread s ≠ Some (cur s) →
  thread_exit_switch s = Ok (tt, s') → sched_inv s'.
Proof.
  intros Hi Hid. pose proof (inv_cur _ Hi) as Hc. apply status_of_Some in Hc as (th & Hl & _).
  unfold thread_exit_switch, intr_context. run.
  destruct (in_external_intr s) eqn:Hext; [done|]. rewrite bind_assert by done. run.
  unfold intr_disable, intr_get_level. run.
  assert (sched_inv (set_intr false s)) as Hi1 by (eapply same_threads_inv; [|exact Hi]; done).
  rewrite (bind_ok _ _ _ _ _ (thread_current_ok _ Hi1)). run. simpl.
  set (s1 := set_all _ _).
  assert (sched_inv s1) as Hi2 by (eapply same_threads_inv; [|exact Hi]; done).
  rewrite (bind_ok _ _ _ _ _ (set_status_ok s1 (cur s) th THREAD_DYING Hl)).
  destruct (decide (ready_list s = [] ∧ idle_thread s = None)) as [[Hr Hn]|Hsome].
  - intros Hrun. exfalso. revert Hrun. apply schedule_none; [|done].
    unfold chosen. simpl. by rewrite Hr.
  - intros Hrun.
    pose proof (give_up_switching s1 th THREAD_DYING false Hi2 Hl) as Hsw.
    rewrite bool_decide_eq_false_2 in Hsw by naive_solver.
    specialize (Hsw eq_refl ltac:(done) ltac:(done)). simpl in Hsw.
    destruct (schedule_switched _ (Hsw ltac:(
      destruct (ready_list s); [right; destruct (idle_thread s); [by eauto|by exfalso; apply Hsome]|by left])))
      as (s2 & Hs2 & Hi' & _).
    assert (set_intr false (set_threads <[cur s:=with_status THREAD_DYING th]> s1)
            = set_threads <[cur s:=with_status THREAD_DYING th]> s1) as E by done.
    change (cur s1) with (cur s) in Hs2. rewrite E, Hrun in Hs2. by injection Hs2 as ->.
Qed.

Lemma init_thread_inv s t nm prio s' :
  sched_inv s → threads s !! t = None → idle_thread s ≠ Some t →
  init_thread t nm prio s = Ok (tt, s') → sched_inv s'.
Proof.
  intros Hi Hfresh Hid. unfold init_thread.
  destruct (_ && _); [|done]. unfold assert. run.
  destruct (16 <? _); [done|]. run. unfold intr_disable, intr_get_level. run.
  set (s1 := set_all _ _).
  assert (∀ u, status_of s1 u =
            if decide (t = u) then Some THREAD_BLOCKED else status_of s u) as Hstat.
  { intros u. subst s1. unfold status_of. simpl. rewrite lookup_insert. by case_decide. }
  assert (status_of s t = None) as Hnone by (unfold status_of; by rewrite Hfresh).
  assert (sched_inv s1) as Hi1.
  { pose proof (inv_cur _ Hi) as Hc.
    constructor; subst s1; simpl in *; [..| |].
    - rewrite Hstat. case_decide; [congruence|done].
    - intros u. rewrite Hstat. case_decide; [done|]. apply (inv_unique _ Hi).
    - apply (inv_nodup _ Hi).
    - intros u. rewrite Hstat, (inv_ready _ Hi).
      destruct (decide (t = u)) as [<-|]; [rewrite Hnone|]; naive_solver.
    - intros i Hi'. rewrite Hstat. case_decide; [naive_solver|]. by apply (inv_idle _ Hi).
    - intros u th' Hu. rewrite lookup_insert in Hu. case_decide; simplify_eq/=;
        [done|by apply (inv_magic _ Hi) in Hu]. }
  unfold bind, obind. destruct (intr_set_level _ s1) as [[old s2]| | | |] eqn:E; try done.
  intros [= <-]. eapply same_threads_inv; [|exact Hi1]. by eapply intr_set_level_threads.
Qed.

Lemma kstep_inv s s' : sched_inv s → kstep s s' → sched_inv s'.
Proof.
  intros Hi [s1 Hs|t s1 Hid Hs|s1 Hs|s1 _ Hs|b old s1 Hs|p s1 Hs|t nm prio s1 Hf Hid Hs
            |s1 Hid Hs|s1 Hid Hs].
  - by eapply thread_block_inv.
  - by eapply thread_unblock_inv.
  - by eapply thread_yield_inv.
  - eapply timer_interrupt_inv; [|done]. eapply same_threads_inv; [|exact Hi]. done.
  - eapply same_threads_inv; [|exact Hi]. by eapply intr_set_level_threads.
  - pose proof (inv_cur _ Hi) as Hc. apply status_of_Some in Hc as (th & Hl & Hst).
    revert Hs. unfold thread_set_priority.
    rewrite (bind_ok _ _ _ _ _ (thread_current_ok s Hi)). run.
    erewrite bind_deref by done. intros [= <-].
    assert (∀ u, status_of (set_threads <[cur s := with_priority p th]> s) u
                 = status_of s u) as Hstat.
    { intros u. rewrite status_of_insert. case_decide as E; [|done].
      unfold status_of. rewrite <- E, Hl. done. }
    destruct Hi as [H1 H2 H3 H4 H5 H6].
    constructor; simpl; intros; rewrite ?Hstat in *; eauto.
    match goal with H : <[_:=_]> _ !! _ = Some _ |- _ => rewrite lookup_insert in H end.
    case_decide; simplify_eq/=; eauto.
  - by eapply init_thread_inv.
  - revert Hs. unfold idle_start.
    rewrite (bind_ok _ _ _ _ _ (thread_current_ok s Hi)). intros [= <-].
    destruct Hi as [H1 H2 H3 H4 H5 H6]. constructor; simpl; try done.
    + intros t. rewrite H4. unfold status_of in *. simpl. naive_solver.
    + intros i [= <-]. by left.
  - by eapply thread_exit_inv.
Qed.

(** ** Round-robin order *)

Lemma yields_fifo l1 : ∀ s t l2,
  sched_inv s → in_external_intr s = false → idle_thread s ≠ Some (cur s) →
  ready_list s = l1 ++ t :: l2 →
  ∃ s', yields (S (length l1)) s = Ok (tt, s') ∧ sched_inv s' ∧ cur s' = t.
Proof.
  induction l1 as [|u l1 IH]; intros s t l2 Hi Hext Hid Hr.
  - destruct (thread_yield_spec s Hi Hext) as (s' & Hs' & Hi' & _ & _ & Hord).
    rewrite bool_decide_eq_false_2 in Hord by done. rewrite Hr in Hord. simplify_eq/=.
    exists s'. by rewrite (bind_ok _ _ _ _ _ Hs').
  - destruct (thread_yield_spec s Hi Hext) as (s' & Hs' & Hi' & Hid' & Hext' & Hord).
    rewrite bool_decide_eq_false_2 in Hord by done. rewrite Hr in Hord.
    injection Hord as Hu Hr'.
    destruct (IH s' t (l2 ++ [cur s]) Hi' Hext') as (s2 & Hs2 & Hi2 & Hc2).
    + rewrite Hid'. intros E.
      assert (u ∈ ready_list s) as Hin by (rewrite Hr; left).
      apply (inv_ready _ Hi) in Hin as [_ Hin]. congruence.
    + rewrite <- Hr', <- app_assoc. done.
    + exists s2. split_and!; try done.
      change (yields (S (length (u :: l1)))) with
        (bind thread_yield_switch (λ _, yields (S (length l1)))).
      by rewrite (bind_ok _ _ _ _ _ Hs').
Qed.

(** ** No operation of the scheduler blocks *)

Lemma thread_current_atomic : atomic thread_current.
Proof. unfold thread_current, running_thread. atomic. Qed.
Lemma set_status_atomic t st : atomic (set_status t st).
Proof. unfold set_status. atomic. Qed.
#[local] Hint Resolve thread_current_atomic set_status_atomic : pintos.

Lemma schedule_tail_atomic prev : atomic (thread_schedule_tail prev).
Proof. unfold thread_schedule_tail, running_thread, intr_get_level. atomic. Qed.
#[local] Hint Resolve schedule_tail_atomic : pintos.

Lemma schedule_atomic : atomic schedule.
Proof. unfold schedule, running_thread, next_thread_to_run, intr_get_level. atomic. Qed.
#[local] Hint Resolve schedule_atomic : pintos.

Lemma thread_block_atomic : atomic thread_block.
Proof. unfold thread_block, intr_context, intr_get_level. atomic. Qed.

Lemma intr_set_level_atomic b : atomic (intr_set_level b).
Proof.
  unfold intr_set_level, intr_enable, intr_disable, intr_context, intr_get_level. atomic.
Qed.
#[local] Hint Resolve intr_set_level_atomic : pintos.

Lemma thread_unblock_atomic t : atomic (thread_unblock t).
Proof. unfold thread_unblock, intr_disable, intr_get_level. atomic. Qed.

(** ** Properties *)

(** The state thread_init() leaves: one running thread. *)
Definition booted : sched :=
  mk_sched {[1 := mk_thread THREAD_RUNNING main_name PRI_DEFAULT false THREAD_MAGIC]}
    1 [] [1] None 1 0 0 0 0 0 false false false.

Lemma thread_init_booted : thread_init power_on = Ok (tt, booted).
Proof. reflexivity. Qed.

Lemma boot_inv s0 : thread_init power_on = Ok (tt, s0) → sched_inv s0.
Proof.
  rewrite thread_init_booted. intros [= <-].
  assert (∀ t st, status_of booted t = Some st → t = 1 ∧ st = THREAD_RUNNING) as Hst.
  { intros t st. unfold status_of. simpl. rewrite lookup_singleton.
    case_decide; simpl; naive_solver. }
  constructor.
  - reflexivity.
  - intros t Ht. by apply Hst in Ht as [-> _].
  - constructor.
  - intros t. simpl. rewrite elem_of_nil. split; [done|]. intros [Ht _].
    by apply Hst in Ht as [_ ?].
  - done.
  - intros t th. simpl. rewrite lookup_singleton_Some. by intros [_ <-].
Qed.

(** C3. The scheduler invariant holds in every reachable state: from
    thread_init() on, whatever sequence of blocking, unblocking, yielding,
    exiting, thread creation, timer interrupts and interrupt-level changes
    the kernel performs, exactly one thread is running, the ready list holds
    each ready thread other than the idle thread exactly once and no other
    thread, and every thread structure is intact. *)
Theorem scheduler_invariant s0 s :
  thread_init power_on = Ok (tt, s0) → rtc kstep s0 s → sched_inv s.
Proof.
  intros H0%boot_inv Hrtc. induction Hrtc as [|s1 s2 s3 Hstep _ IH]; [done|].
  apply IH. by eapply kstep_inv.
Qed.

(** After boot: a second thread is created, unblocked, and main yields to it. *)
Definition demo_trace : M sched unit :=
  thread_init;;;
  init_thread 2 [105; 100; 108; 101] PRI_MIN;;;
  thread_unblock 2;;;
  thread_yield_switch.

Definition demo_state : sched :=
  match demo_trace power_on with Ok (_, s) => s | _ => power_on end.

Lemma demo_state_inv : sched_inv demo_state.
Proof.
  eapply (kstep_inv
    (match (thread_init;;; init_thread 2 [105; 100; 108; 101] PRI_MIN;;; thread_unblock 2)
             power_on with Ok (_, s) => s | _ => power_on end)).
  - eapply (kstep_inv
      (match (thread_init;;; init_thread 2 [105; 100; 108; 101] PRI_MIN)
             power_on with Ok (_, s) => s | _ => power_on end)).
    + eapply (kstep_inv
        (match thread_init power_on with Ok (_, s) => s | _ => power_on end)).
      * apply boot_inv. vm_compute. reflexivity.
      * eapply (kstep_create _ 2 [105; 100; 108; 101] PRI_MIN);
          [vm_compute; reflexivity|done|vm_compute; reflexivity].
    + eapply (kstep_unblock _ 2); [done|vm_compute; reflexivity].
  - apply kstep_yield. vm_compute. reflexivity.
Qed.

Lemma scheduler_invariant_witness : cur demo_state = 2 ∧ sched_inv demo_state.
Proof.
  split; [vm_compute; reflexivity|].
  eapply (scheduler_invariant
    (match thread_init power_on with Ok (_, s) => s | _ => power_on end) demo_state).
  - vm_compute. reflexivity.
  - eapply rtc_l; [eapply (kstep_create _ 2 [105; 100; 108; 101] PRI_MIN);
                   [vm_compute; reflexivity|done|vm_compute; reflexivity]|].
    eapply rtc_l; [eapply (kstep_unblock _ 2); [done|vm_compute; reflexivity]|].
    eapply rtc_once. eapply kstep_yield. vm_compute. reflexivity.
Defined.

(** C39. Scheduling is round robin, whatever the priorities of the threads: a
    thread with [n] threads ahead of it in the ready list runs after exactly
    [n + 1] calls of thread_yield(), whichever threads make them, so no ready
    thread starves. *)
Theorem round_robin s l1 t l2 :
  sched_inv s → in_external_intr s = false → idle_thread s ≠ Some (cur s) →
  ready_list s = l1 ++ t :: l2 →
  ∃ s', yields (S (length l1)) s = Ok (tt, s') ∧ sched_inv s' ∧ cur s' = t.
Proof. apply yields_fifo. Qed.

(** A third thread, of the highest priority, is ready behind the first. *)
Definition demo_created : sched :=
  match init_thread 3 [120] PRI_MAX demo_state with Ok (_, s) => s | _ => power_on end.
Definition demo_three : sched :=
  match thread_unblock 3 demo_created with Ok (_, s) => s | _ => power_on end.

Lemma demo_three_inv : sched_inv demo_three.
Proof.
  apply (kstep_inv demo_created); [apply (kstep_inv demo_state); [apply demo_state_inv|]|].
  - eapply (kstep_create _ 3 [120] PRI_MAX); [vm_compute; reflexivity|done|vm_compute; reflexivity].
  - eapply (kstep_unblock _ 3); [done|vm_compute; reflexivity].
Qed.

Lemma round_robin_witness :
  cur demo_three = 2 ∧ ready_list demo_three = [1; 3] ∧
  (∃ s', yields 1 demo_three = Ok (tt, s') ∧ sched_inv s' ∧ cur s' = 1) ∧
  (∃ s', yields 2 demo_three = Ok (tt, s') ∧ sched_inv s' ∧ cur s' = 3).
Proof.
  split_and!; [vm_compute; reflexivity|vm_compute; reflexivity| |].
  - apply (round_robin demo_three [] 1 [3]); [apply demo_three_inv|vm_compute; reflexivity
      |vm_compute; discriminate|vm_compute; reflexivity].
  - apply (round_robin demo_three [1] 3 []); [apply demo_three_inv|vm_compute; reflexivity
      |vm_compute; discriminate|vm_compute; reflexivity].
Defined.

(** init_thread() copies the first word of the thread's name with
    strlcpy (t->name, name, file_name_len + 1), although the member has 16
    bytes: a first word of 16 or more characters is written past the end of
    [name], whatever the rest of the state. *)
Theorem init_thread_name_overflow t nm prio s :
  PRI_MIN <= prio <= PRI_MAX → 16 <= first_word_len nm →
  init_thread t nm prio s = Fault.
Proof.
  intros Hp Hl. unfold init_thread, bind, obind, assert.
  rewrite !(proj2 (Z.leb_le _ _)) by lia. simpl.
  by rewrite (proj2 (Z.ltb_lt _ _)) by lia.
Qed.

Lemma init_thread_name_overflow_witness :
  init_thread 3 (replicate 16 97) 31 power_on = Fault.
Proof.
  apply (init_thread_name_overflow 3 (replicate 16 97) 31 power_on);
    vm_compute; (split; discriminate) || discriminate.
Defined.

End Sched.
