(* ===== verification/Synch.v ===== *)
(** * Synch: semaphores, locks and condition variables (threads/synch.c)

    The objects live in the state of the components that declare them, so the
    operations work on a pointer [ptr S A] into a state [S] that contains the
    scheduler (class [Kernel]).  A thread that has to wait is blocked with
    [thread_block] and suspended: the rest of its operation is a function of
    the state in which it runs again.  [mutual_exclusion] is the theorem the
    clients rely on; the [_free] lemmas give the behaviour of the uncontended
    operations. *)

From Stdlib Require Import ZArith Lia.
From stdpp Require Import base tactics option list numbers gmap.
From S2P Require Import Prelude Sched.
Import Sched.

Module Synch.

(** ** Data *)

Record semaphore := mk_sema {
  value : Z;
  waiters : list Z
}.

Record lock := mk_lock {
  holder : option Z;
  sema_of : semaphore
}.

(** The waiting threads; the semaphore_elem of each is on its own stack. *)
Record condition := mk_cond { cond_waiters : list Z }.

(** ** Kernel states and pointers *)

(** What every component of the kernel shares: the scheduler, the
    semaphore each thread keeps on its stack while it waits on a condition
    variable, and the answers malloc() will give ([false] is a null
    pointer; an exhausted list means memory is plentiful). *)
Record kernel := mk_kernel {
  k_sched : sched;
  k_waiter : gmap Z semaphore;
  k_mallocs : list bool
}.

Class Kernel (S : Type) := {
  kget : S → kernel;
  kset : kernel → S → S;
  kget_kset : ∀ k s, kget (kset k s) = k;
  kset_kget : ∀ s, kset (kget s) s = s;
  kset_kset : ∀ k k' s, kset k (kset k' s) = kset k s
}.

(** A pointer to an object of type [A]: [None] when it is not valid. *)
Record ptr (S A : Type) := mk_ptr {
  pload : S → option A;
  pstore : A → S → S
}.
Arguments mk_ptr {S A}.
Arguments pload {S A}.
Arguments pstore {S A}.

Section objects.
Context {S : Type} `{Kernel S}.

Definition ksched (s : S) : sched := k_sched (kget s).
Definition set_ksched (x : sched) (s : S) : S :=
  kset (mk_kernel x (k_waiter (kget s)) (k_mallocs (kget s))) s.

(** Run a routine of thread.c or interrupt.c. *)
Definition on_sched {A} (m : M sched A) : M S A := lift ksched set_ksched m.

(** malloc(), as its callers see it: [false] when there is no memory. *)
Definition malloc_ok : M S bool :=
  let* k := gets kget in
  match k_mallocs k with
  | [] => ret true
  | b :: rest => modify (kset (mk_kernel (k_sched k) (k_waiter k) rest));;; ret b
  end.

Definition load {A} (p : ptr S A) : M S A :=
  let* s := get in deref (pload p s).

Definition store {A} (p : ptr S A) (a : A) : M S unit :=
  let* _ := load p in modify (pstore p a).

(** ** Semaphores *)

Definition sema_init (p : ptr S semaphore) (v : Z) : M S unit :=
  modify (pstore p (mk_sema v [])).

(** A thread woken this many times without finding the semaphore positive is
    beyond the model. *)
Definition wakeups : nat := 1000.

Fixpoint sema_wait (fuel : nat) (p : ptr S semaphore) : M S unit :=
  match fuel with
  | O => no_fuel
  | Datatypes.S fuel =>
      let* sema := load p in
      if value sema =? 0 then
        let* t := on_sched thread_current in
        store p (mk_sema (value sema) (waiters sema ++ [t]));;;
        on_sched thread_block;;;
        suspend;;;
        sema_wait fuel p
      else ret tt
  end.

(** sema_down() of a thread that is woken at most [fuel] times. *)
Definition sema_down_for (fuel : nat) (p : ptr S semaphore) : M S unit :=
  let* ctx := on_sched intr_context in
  assert (negb ctx);;;
  let* old_level := on_sched intr_disable in
  sema_wait fuel p;;;
  let* sema := load p in
  store p (mk_sema (u32 (value sema - 1)) (waiters sema));;;
  let* _ := on_sched (intr_set_level old_level) in
  ret tt.

Definition sema_down (p : ptr S semaphore) : M S unit := sema_down_for wakeups p.

Definition sema_try_down (p : ptr S semaphore) : M S bool :=
  let* old_level := on_sched intr_disable in
  let* sema := load p in
  let* success :=
    (if value sema >? 0
     then store p (mk_sema (u32 (value sema - 1)) (waiters sema));;; ret true
     else ret false) in
  let* _ := on_sched (intr_set_level old_level) in
  ret success.

Definition sema_up (p : ptr S semaphore) : M S unit :=
  let* old_level := on_sched intr_disable in
  let* sema := load p in
  match waiters sema with
  | [] => ret tt
  | t :: rest =>
      store p (mk_sema (value sema) rest);;;
      on_sched (thread_unblock t)
  end;;;
  let* sema := load p in
  store p (mk_sema (u32 (value sema + 1)) (waiters sema));;;
  let* _ := on_sched (intr_set_level old_level) in
  ret tt.

(** ** Locks *)

(** [&lock->semaphore]. *)
Definition lock_sema (p : ptr S lock) : ptr S semaphore :=
  mk_ptr (λ s, sema_of <$> pload p s)
    (λ sm s, match pload p s with
             | Some l => pstore p (mk_lock (holder l) sm) s
             | None => s
             end).

Definition new_lock : lock := mk_lock None (mk_sema 1 []).

Definition lock_init (p : ptr S lock) : M S unit := modify (pstore p new_lock).

Definition lock_held_by_current_thread (p : ptr S lock) : M S bool :=
  let* l := load p in
  let* t := on_sched thread_current in
  ret (bool_decide (holder l = Some t)).

(** [lock->holder = h]. *)
Definition set_holder (p : ptr S lock) (h : option Z) : M S unit :=
  let* l := load p in store p (mk_lock h (sema_of l)).

(** The lock operations run with interrupts on except inside the semaphore's
    operations, so the timer may take the processor away between any two of
    their statements.  [point] stands at these places: [suspend] gives the
    other threads a turn there, [ret tt] does not.  [fuel] bounds the wakeups
    in sema_down().  The message lock_release() prints before its second test
    stops the kernel is left out. *)
Definition lock_acquire_at (point : M S unit) (fuel : nat) (p : ptr S lock) : M S unit :=
  let* ctx := on_sched intr_context in
  assert (negb ctx);;;
  point;;;
  let* held := lock_held_by_current_thread p in
  assert (negb held);;;
  point;;;
  sema_down_for fuel (lock_sema p);;;
  point;;;
  let* t := on_sched thread_current in
  set_holder p (Some t).

Definition lock_try_acquire_at (point : M S unit) (p : ptr S lock) : M S bool :=
  let* held := lock_held_by_current_thread p in
  assert (negb held);;;
  point;;;
  let* success := sema_try_down (lock_sema p) in
  point;;;
  (if success
   then let* t := on_sched thread_current in set_holder p (Some t)
   else ret tt);;;
  ret success.

Definition lock_release_at (point : M S unit) (p : ptr S lock) : M S unit :=
  let* held := lock_held_by_current_thread p in
  assert held;;;
  point;;;
  set_holder p None;;;
  point;;;
  sema_up (lock_sema p).

(** The operations as the clients of this file call them: only sema_down()
    gives up the processor. *)
Definition lock_acquire (p : ptr S lock) : M S unit := lock_acquire_at (ret tt) wakeups p.
Definition lock_try_acquire (p : ptr S lock) : M S bool := lock_try_acquire_at (ret tt) p.
Definition lock_release (p : ptr S lock) : M S unit := lock_release_at (ret tt) p.

(** ** Condition variables *)

(** [&waiter.semaphore] of the struct semaphore_elem on the stack of [t]. *)
Definition waiter_sema (t : Z) : ptr S semaphore :=
  mk_ptr (λ s, k_waiter (kget s) !! t)
    (λ sm s, let k := kget s in
             kset (mk_kernel (k_sched k) (<[t := sm]> (k_waiter k)) (k_mallocs k)) s).

Definition cond_init (c : ptr S condition) : M S unit :=
  modify (pstore c (mk_cond [])).

Definition cond_wait (c : ptr S condition) (p : ptr S lock) : M S unit :=
  let* ctx := on_sched intr_context in
  assert (negb ctx);;;
  let* held := lock_held_by_current_thread p in
  assert held;;;
  let* t := on_sched thread_current in
  sema_init (waiter_sema t) 0;;;
  let* cond := load c in
  store c (mk_cond (cond_waiters cond ++ [t]));;;
  lock_release p;;;
  sema_down (waiter_sema t);;;
  lock_acquire p.

Definition cond_signal (c : ptr S condition) (p : ptr S lock) : M S unit :=
  let* ctx := on_sched intr_context in
  assert (negb ctx);;;
  let* held := lock_held_by_current_thread p in
  assert held;;;
  let* cond := load c in
  match cond_waiters cond with
  | [] => ret tt
  | t :: rest => store c (mk_cond rest);;; sema_up (waiter_sema t)
  end.

(** Each round removes one waiter. *)
Fixpoint broadcast_loop (n : nat) (c : ptr S condition) (p : ptr S lock) : M S unit :=
  let* cond := load c in
  match cond_waiters cond, n with
  | [], _ => ret tt
  | _, O => no_fuel
  | _, Datatypes.S n => cond_signal c p;;; broadcast_loop n c p
  end.

Definition cond_broadcast (c : ptr S condition) (p : ptr S lock) : M S unit :=
  let* cond := load c in
  broadcast_loop (length (cond_waiters cond)) c p.

(** ** The uncontended operations *)

(** Pointers to distinct memory that is not the scheduler's. *)
Class GoodPtr {A} (p : ptr S A) := {
  gp_load_store : ∀ s a, is_Some (pload p s) → pload p (pstore p a s) = Some a;
  gp_store_store : ∀ s a b, pstore p a (pstore p b s) = pstore p a s;
  gp_store_load : ∀ s a, pload p s = Some a → pstore p a s = s;
  gp_sched_store : ∀ s a, ksched (pstore p a s) = ksched s;
  gp_load_sched : ∀ s x, pload p (set_ksched x s) = pload p s;
  gp_store_sched : ∀ s a x,
    pstore p a (set_ksched x s) = set_ksched x (pstore p a s)
}.

Lemma ksched_set x s : ksched (set_ksched x s) = x.
Proof. unfold ksched, set_ksched. by rewrite kget_kset. Qed.

Lemma set_ksched_set x y s : set_ksched x (set_ksched y s) = set_ksched x s.
Proof. unfold set_ksched. by rewrite kget_kset, kset_kset. Qed.

Lemma set_ksched_same s : set_ksched (ksched s) s = s.
Proof.
  unfold set_ksched, ksched. destruct (kget s) as [x w ms] eqn:E. simpl.
  rewrite <- E. apply kset_kget.
Qed.

Lemma on_sched_ok {A} (m : M sched A) s a x :
  m (ksched s) = Ok (a, x) → on_sched m s = Ok (a, set_ksched x s).
Proof. intros Hm. unfold on_sched, lift. by rewrite Hm. Qed.

#[global] Instance lock_sema_good (p : ptr S lock) : GoodPtr p → GoodPtr (lock_sema p).
Proof.
  intros Hp. unfold lock_sema. split; simpl; intros s *.
  - destruct (pload p s) as [l|] eqn:E; [|by intros [? ?]]. intros _.
    by rewrite gp_load_store.
  - destruct (pload p s) as [l|] eqn:E; [|by rewrite E].
    rewrite gp_load_store by eauto. by rewrite gp_store_store.
  - destruct (pload p s) as [[h sm]|] eqn:E; [|done]. simpl. intros [= <-].
    by apply gp_store_load.
  - destruct (pload p s); [apply gp_sched_store|done].
  - by rewrite gp_load_sched.
  - rewrite gp_load_sched. destruct (pload p s); [apply gp_store_sched|done].
Qed.

(** The running thread is in order and no interrupt is being handled. *)
Definition kernel_ok (s : S) : Prop :=
  thread_current (ksched s) = Ok (cur (ksched s), ksched s) ∧
  in_external_intr (ksched s) = false.

(** The running thread. *)
Definition me (s : S) : Z := cur (ksched s).

Lemma kernel_ok_store {A} (p : ptr S A) `{!GoodPtr p} a s :
  kernel_ok s → kernel_ok (pstore p a s).
Proof. unfold kernel_ok. by rewrite gp_sched_store. Qed.

Lemma me_store {A} (p : ptr S A) `{!GoodPtr p} a s : me (pstore p a s) = me s.
Proof. unfold me. by rewrite gp_sched_store. Qed.

Lemma on_sched_current s : kernel_ok s → on_sched thread_current s = Ok (me s, s).
Proof.
  intros [Ht _]. erewrite on_sched_ok by done. by rewrite set_ksched_same.
Qed.

Lemma on_sched_context s : kernel_ok s → on_sched intr_context s = Ok (false, s).
Proof.
  intros [_ He]. erewrite on_sched_ok by done. rewrite He. by rewrite set_ksched_same.
Qed.

(** [s] with interrupts off. *)
Definition cli (s : S) : S := set_ksched (set_intr false (ksched s)) s.

Lemma on_sched_disable s :
  on_sched intr_disable s = Ok (intr_on (ksched s), cli s).
Proof. by erewrite on_sched_ok. Qed.

Lemma thread_current_intr b x y :
  thread_current x = Ok (cur x, y) →
  thread_current (set_intr b x) = Ok (cur x, set_intr b x).
Proof.
  unfold thread_current, running_thread. run. unfold is_thread. simpl.
  destruct (threads x !! cur x) as [th|]; [|done]. simpl. run.
  destruct (magic th =? THREAD_MAGIC); [|done]. unfold assert. run.
  by destruct (bool_decide _).
Qed.

Lemma kernel_ok_cli s : kernel_ok s → kernel_ok (cli s).
Proof.
  intros [Ht He]. unfold cli. split; rewrite ksched_set; [|done].
  by apply thread_current_intr with (1 := Ht).
Qed.

Lemma me_cli s : me (cli s) = me s.
Proof. unfold me, cli. by rewrite ksched_set. Qed.

Lemma load_ok {A} (p : ptr S A) a s : pload p s = Some a → load p s = Ok (a, s).
Proof. unfold load. intros Hp. run. unfold deref. by rewrite Hp. Qed.

Lemma store_ok {A} (p : ptr S A) a b s :
  pload p s = Some b → store p a s = Ok (tt, pstore p a s).
Proof. intros Hp. unfold store. by rewrite (bind_ok _ _ _ _ _ (load_ok _ _ _ Hp)). Qed.

Lemma pload_cli {A} (p : ptr S A) `{!GoodPtr p} s : pload p (cli s) = pload p s.
Proof. apply gp_load_sched. Qed.

Lemma intr_restore x :
  in_external_intr x = false →
  intr_set_level (intr_on x) (set_intr false x) = Ok (false, x).
Proof. destruct x as [? ? ? ? ? ? ? ? ? ? ? on ext ?]. simpl. intros ->. by destruct on. Qed.

(** Leaving a critical section: the interrupt level is restored. *)
Lemma sti_ok {A B} (p : ptr S A) `{!GoodPtr p} a s (k : bool → M S B) :
  kernel_ok s →
  bind (on_sched (intr_set_level (intr_on (ksched s)))) k (pstore p a (cli s))
    = k false (pstore p a s).
Proof.
  intros [Ht He].
  unfold cli. rewrite gp_store_sched.
  erewrite bind_ok; [|eapply on_sched_ok; rewrite ksched_set; by apply intr_restore].
  rewrite set_ksched_set, <- gp_store_sched. by rewrite set_ksched_same.
Qed.

Lemma cli_restore {B} s (k : bool → M S B) :
  kernel_ok s →
  bind (on_sched (intr_set_level (intr_on (ksched s)))) k (cli s) = k false s.
Proof.
  intros [Ht He].
  unfold cli. erewrite bind_ok; [|eapply on_sched_ok; rewrite ksched_set; by apply intr_restore].
  by rewrite set_ksched_set, set_ksched_same.
Qed.

Section uncontended.
Context (s : S) (Hk : kernel_ok s).

Lemma sema_wait_pos n (p : ptr S semaphore) sm s' :
  pload p s' = Some sm → value sm ≠ 0 → sema_wait (Datatypes.S n) p s' = Ok (tt, s').
Proof.
  intros Hp Hv. simpl. rewrite (bind_ok _ _ _ _ _ (load_ok _ _ _ Hp)).
  by rewrite (proj2 (Z.eqb_neq _ _)).
Qed.

Lemma sema_down_free (p : ptr S semaphore) `{!GoodPtr p} v ws :
  pload p s = Some (mk_sema v ws) → 0 < v < 4294967296 →
  sema_down p s = Ok (tt, pstore p (mk_sema (v - 1) ws) s).
Proof.
  intros Hp Hv. unfold sema_down, sema_down_for.
  rewrite (bind_ok _ _ _ _ _ (on_sched_context s Hk)), bind_assert by done.
  rewrite (bind_ok _ _ _ _ _ (on_sched_disable s)).
  assert (pload p (cli s) = Some (mk_sema v ws)) as Hc by (by rewrite pload_cli).
  erewrite (bind_ok (sema_wait wakeups p)) by (eapply (sema_wait_pos 999 p _ _ Hc); simpl; lia).
  rewrite (bind_ok _ _ _ _ _ (load_ok _ _ _ Hc)).
  rewrite (bind_ok _ _ _ _ _ (store_ok _ _ _ _ Hc)). simpl.
  rewrite u32_small by (unfold in_u32; lia).
  by apply (sti_ok p).
Qed.

Lemma sema_try_down_free (p : ptr S semaphore) `{!GoodPtr p} v ws :
  pload p s = Some (mk_sema v ws) → 0 < v < 4294967296 →
  sema_try_down p s = Ok (true, pstore p (mk_sema (v - 1) ws) s).
Proof.
  intros Hp Hv. unfold sema_try_down.
  rewrite (bind_ok _ _ _ _ _ (on_sched_disable s)).
  assert (pload p (cli s) = Some (mk_sema v ws)) as Hc by (by rewrite pload_cli).
  rewrite (bind_ok _ _ _ _ _ (load_ok _ _ _ Hc)). simpl.
  rewrite Z.gtb_ltb, (proj2 (Z.ltb_lt 0 v)) by lia. run.
  rewrite (bind_ok _ _ _ _ _ (store_ok _ _ _ _ Hc)). run.
  rewrite u32_small by (unfold in_u32; lia).
  by apply (sti_ok p).
Qed.

Lemma sema_try_down_zero (p : ptr S semaphore) `{!GoodPtr p} ws :
  pload p s = Some (mk_sema 0 ws) → sema_try_down p s = Ok (false, s).
Proof.
  intros Hp. unfold sema_try_down.
  rewrite (bind_ok _ _ _ _ _ (on_sched_disable s)).
  assert (pload p (cli s) = Some (mk_sema 0 ws)) as Hc by (by rewrite pload_cli).
  rewrite (bind_ok _ _ _ _ _ (load_ok _ _ _ Hc)). simpl. run.
  by apply cli_restore.
Qed.

Lemma sema_up_idle (p : ptr S semaphore) `{!GoodPtr p} v :
  pload p s = Some (mk_sema v []) → 0 <= v < 4294967295 →
  sema_up p s = Ok (tt, pstore p (mk_sema (v + 1) []) s).
Proof.
  intros Hp Hv. unfold sema_up.
  rewrite (bind_ok _ _ _ _ _ (on_sched_disable s)).
  assert (pload p (cli s) = Some (mk_sema v [])) as Hc by (by rewrite pload_cli).
  rewrite (bind_ok _ _ _ _ _ (load_ok _ _ _ Hc)). simpl. run.
  rewrite (bind_ok _ _ _ _ _ (load_ok _ _ _ Hc)).
  rewrite (bind_ok _ _ _ _ _ (store_ok _ _ _ _ Hc)). simpl.
  rewrite u32_small by (unfold in_u32; lia).
  by apply (sti_ok p).
Qed.
End uncontended.

(** A lock held by [t] with nobody waiting. *)
Definition held (t : Z) : lock := mk_lock (Some t) (mk_sema 0 []).

Section uncontended_locks.
Context (p : ptr S lock) `{!GoodPtr p} (s : S) (Hk : kernel_ok s).

Lemma held_by_me l :
  pload p s = Some l →
  lock_held_by_current_thread p s = Ok (bool_decide (holder l = Some (me s)), s).
Proof.
  intros Hp. unfold lock_held_by_current_thread.
  rewrite (bind_ok _ _ _ _ _ (load_ok _ _ _ Hp)).
  by rewrite (bind_ok _ _ _ _ _ (on_sched_current s Hk)).
Qed.

Lemma set_holder_ok l h s' :
  pload p s' = Some l → set_holder p h s' = Ok (tt, pstore p (mk_lock h (sema_of l)) s').
Proof.
  intros Hp. unfold set_holder. rewrite (bind_ok _ _ _ _ _ (load_ok _ _ _ Hp)).
  by eapply store_ok.
Qed.

Lemma lock_acquire_free v ws h :
  pload p s = Some (mk_lock h (mk_sema v ws)) → h ≠ Some (me s) → 0 < v < 4294967296 →
  lock_acquire p s = Ok (tt, pstore p (mk_lock (Some (me s)) (mk_sema (v - 1) ws)) s).
Proof.
  intros Hp Hh Hv. unfold lock_acquire, lock_acquire_at.
  rewrite (bind_ok _ _ _ _ _ (on_sched_context s Hk)), bind_assert, bind_ret by done.
  rewrite (bind_ok _ _ _ _ _ (held_by_me _ Hp)).
  rewrite bind_assert, bind_ret by (by rewrite bool_decide_eq_false_2).
  erewrite bind_ok; [|apply (sema_down_free s Hk (lock_sema p) v ws); [|done]; simpl; by rewrite Hp].
  rewrite bind_ret. simpl. rewrite Hp.
  erewrite bind_ok by (by apply on_sched_current, kernel_ok_store).
  rewrite me_store by done.
  erewrite set_holder_ok by (by apply gp_load_store; eauto). by rewrite gp_store_store.
Qed.

Lemma lock_acquire_new :
  pload p s = Some new_lock → lock_acquire p s = Ok (tt, pstore p (held (me s)) s).
Proof. intros Hp. by rewrite (lock_acquire_free 1 [] None Hp). Qed.

Lemma lock_try_acquire_free ws :
  pload p s = Some (mk_lock None (mk_sema 1 ws)) →
  lock_try_acquire p s = Ok (true, pstore p (mk_lock (Some (me s)) (mk_sema 0 ws)) s).
Proof.
  intros Hp. unfold lock_try_acquire, lock_try_acquire_at.
  rewrite (bind_ok _ _ _ _ _ (held_by_me _ Hp)), bind_assert, bind_ret by done.
  erewrite bind_ok; [|apply (sema_try_down_free s Hk (lock_sema p) 1 ws); [|lia]; simpl; by rewrite Hp].
  simpl. rewrite Hp. run.
  erewrite bind_ok by (by apply on_sched_current, kernel_ok_store).
  rewrite me_store by done.
  erewrite bind_ok by (eapply set_holder_ok; by apply gp_load_store; eauto).
  by rewrite gp_store_store.
Qed.

Lemma lock_try_acquire_new :
  pload p s = Some new_lock →
  lock_try_acquire p s = Ok (true, pstore p (held (me s)) s).
Proof. apply lock_try_acquire_free. Qed.

Lemma lock_try_acquire_held t ws :
  pload p s = Some (mk_lock (Some t) (mk_sema 0 ws)) → t ≠ me s →
  lock_try_acquire p s = Ok (false, s).
Proof.
  intros Hp Ht. unfold lock_try_acquire, lock_try_acquire_at.
  rewrite (bind_ok _ _ _ _ _ (held_by_me _ Hp)).
  rewrite bind_assert, bind_ret by (rewrite bool_decide_eq_false_2; simpl; congruence).
  erewrite bind_ok; [|eapply (sema_try_down_zero s Hk (lock_sema p)); simpl; by rewrite Hp].
  done.
Qed.

Lemma lock_release_held :
  pload p s = Some (held (me s)) → lock_release p s = Ok (tt, pstore p new_lock s).
Proof.
  intros Hp. unfold lock_release, lock_release_at.
  rewrite (bind_ok _ _ _ _ _ (held_by_me _ Hp)).
  rewrite bind_assert, bind_ret by (by rewrite bool_decide_eq_true_2).
  rewrite (bind_ok _ _ _ _ _ (set_holder_ok _ _ _ Hp)), bind_ret.
  set (s1 := pstore p _ s).
  assert (pload p s1 = Some (mk_lock None (mk_sema 0 []))) as H1
    by (by apply gp_load_store; eauto).
  erewrite sema_up_idle; [|by apply kernel_ok_store|apply _|simpl; by rewrite H1|lia].
  simpl. rewrite H1. simpl. subst s1. by rewrite gp_store_store.
Qed.

Lemma lock_acquire_mine l : pload p s = Some l → holder l = Some (me s) → lock_acquire p s = Panic.
Proof.
  intros Hp Hh. unfold lock_acquire, lock_acquire_at.
  rewrite (bind_ok _ _ _ _ _ (on_sched_context s Hk)), bind_assert, bind_ret by done.
  rewrite (bind_ok _ _ _ _ _ (held_by_me _ Hp)). unfold assert.
  by rewrite bool_decide_eq_true_2.
Qed.

Lemma cond_broadcast_idle (c : ptr S condition) s' :
  pload c s' = Some (mk_cond []) → cond_broadcast c p s' = Ok (tt, s').
Proof.
  intros Hc. unfold cond_broadcast. rewrite (bind_ok _ _ _ _ _ (load_ok _ _ _ Hc)).
  simpl. by rewrite (bind_ok _ _ _ _ _ (load_ok _ _ _ Hc)).
Qed.
End uncontended_locks.

(** ** Mutual exclusion *)

(** The calls threads make on a lock; they return whether the caller has
    acquired it.  Other threads get a turn at every preemption point. *)
Inductive call := Acquire | TryAcquire | Release.

#[global] Instance call_eq_dec : EqDecision call.
Proof. solve_decision. Defined.

Definition run_call (p : ptr S lock) (fuel : nat) (c : call) : M S bool :=
  match c with
  | Acquire => lock_acquire_at suspend fuel p;;; ret true
  | TryAcquire => lock_try_acquire_at suspend p
  | Release => lock_release_at suspend p;;; ret false
  end.

(** Threads that use the lock at [p]: [inside] are those whose acquisition has
    returned and that have not called lock_release() since, [pending] those in
    the middle of a call, preempted or blocked, each with the rest of its
    call. *)
Record config := mk_config {
  st : S;
  inside : list Z;
  pending : list (Z * (S → outcome S bool))
}.

(** The thread [t] runs until its call returns or it loses the processor. *)
Definition settle (t : Z) (ins : list Z) (pend : list (Z * (S → outcome S bool)))
    (o : outcome S bool) : option config :=
  match o with
  | Ok (acquired, s) => Some (mk_config s (if acquired then t :: ins else ins) pend)
  | Blocked s r => Some (mk_config s ins ((t, r) :: pend))
  | _ => None
  end.

(** The threads inside once [t] has made the call [c]. *)
Definition leaving (c : call) (t : Z) (ins : list Z) : list Z :=
  match c with Release => filter (λ u, u ≠ t) ins | _ => ins end.

(** A thread that is not in the middle of a call makes one, one that is goes
    on with it, or anything happens that does not touch the lock, such as a
    context switch or other work of a thread. *)
Inductive mstep (p : ptr S lock) : config → config → Prop :=
| m_start s ins pend fuel c cf :
    kernel_ok s → me s ∉ pend.*1 →
    settle (me s) (leaving c (me s) ins) pend (run_call p fuel c s) = Some cf →
    mstep p (mk_config s ins pend) cf
| m_resume s ins pend1 pend2 r cf :
    kernel_ok s → settle (me s) ins (pend1 ++ pend2) (r s) = Some cf →
    mstep p (mk_config s ins (pend1 ++ (me s, r) :: pend2)) cf
| m_other s ins pend s' :
    pload p s' = pload p s →
    mstep p (mk_config s ins pend) (mk_config s' ins pend).

Lemma intr_set_level_ok b x :
  in_external_intr x = false → intr_set_level b x = Ok (intr_on x, set_intr b x).
Proof. destruct x; simpl. intros ->. by destruct b. Qed.

(** The end of sema_down(), after the wait. *)
Definition sema_taken (q : ptr S semaphore) (old : bool) : M S unit :=
  let* sema := load q in
  store q (mk_sema (u32 (value sema - 1)) (waiters sema));;;
  let* _ := on_sched (intr_set_level old) in
  ret tt.

Lemma sema_taken_ok (q : ptr S semaphore) `{!GoodPtr q} old s v ws :
  kernel_ok s → 0 < v < 4294967296 → pload q s = Some (mk_sema v ws) →
  ∃ x, sema_taken q old s = Ok (tt, set_ksched x (pstore q (mk_sema (v - 1) ws) s)).
Proof.
  intros [_ He] Hv Hq. unfold sema_taken. rewrite (bind_ok _ _ _ _ _ (load_ok _ _ _ Hq)).
  rewrite (bind_ok _ _ _ _ _ (store_ok _ _ _ _ Hq)). simpl. rewrite u32_small by (unfold in_u32; lia).
  erewrite bind_ok by (apply on_sched_ok, intr_set_level_ok; rewrite gp_sched_store; exact He).
  by eexists.
Qed.

Section mutex.
Context (p : ptr S lock) `{!GoodPtr p}.

(** The lock in [s] has value [v] and holder [h]. *)
Definition lock_is (v : Z) (h : option Z) (s : S) : Prop :=
  ∃ ws, pload p s = Some (mk_lock h (mk_sema v ws)).

(** The rest of an acquisition by [t] that has taken the value from 1 to 0 and
    has not yet recorded the holder. *)
Definition owning (t : Z) (r : S → outcome S bool) : Prop :=
  ∀ s, kernel_ok s → me s = t → lock_is 0 None s →
    match r s with
    | Ok (b, s') => b = true ∧ lock_is 0 (Some t) s'
    | Blocked _ _ => False
    | _ => True
    end.

(** The rest of a release after the holder has been cleared. *)
Definition upping (r : S → outcome S bool) : Prop :=
  ∀ s, lock_is 0 None s →
    match r s with
    | Ok (b, s') => b = false ∧ lock_is 1 None s'
    | Blocked _ _ => False
    | _ => True
    end.

(** The rest of a release by [t] that has found itself the holder. *)
Definition clearing (t : Z) (r : S → outcome S bool) : Prop :=
  ∀ s, kernel_ok s → lock_is 0 (Some t) s →
    match r s with
    | Ok _ => False
    | Blocked s' r' => lock_is 0 None s' ∧ upping r'
    | _ => True
    end.

(** The rest of an acquisition that has not got the lock: it leaves the lock
    alone, or takes the value from 1 to 0. *)
Fixpoint seeking (n : nat) (r : S → outcome S bool) : Prop :=
  ∀ s v h, kernel_ok s → v = 0 ∨ v = 1 → lock_is v h s →
    match r s with
    | Ok (b, s') => b = false ∧ lock_is v h s'
    | Blocked s' r' =>
        (v = 1 ∧ lock_is 0 h s' ∧ owning (me s) r') ∨
        (lock_is v h s' ∧ match n with O => False | Datatypes.S n => seeking n r' end)
    | _ => True
    end.

Lemma seeking_ext n r r' : (∀ s, r s = r' s) → seeking n r → seeking n r'.
Proof. intros E Hr. destruct n; intros s v h Hk Hv Hl; specialize (Hr s v h Hk Hv Hl); by rewrite <- E. Qed.

Lemma lock_is_sched v h x s : lock_is v h s → lock_is v h (set_ksched x s).
Proof. intros [ws Hp]. exists ws. by rewrite gp_load_sched. Qed.

Lemma lock_is_store v h v' h' ws s : lock_is v h s → lock_is v' h' (pstore p (mk_lock h' (mk_sema v' ws)) s).
Proof. intros [? Hp]. exists ws. apply gp_load_store. by eauto. Qed.

Lemma on_sched_inv {A} (m : M sched A) s a s' :
  on_sched m s = Ok (a, s') → ∃ x, s' = set_ksched x s.
Proof.
  unfold on_sched, lift. destruct (m (ksched s)) as [[b x]| | | |]; simpl; try done.
  intros [= -> <-]. by eauto.
Qed.

(** A preemption point before the rest [k]. *)
Lemma seeking_point n (k : unit → M S bool) :
  seeking n (k tt) → seeking (Datatypes.S n) (bind suspend k).
Proof. intros Hk s v h _ _ Hl. simpl. right. split; [done|]. exact Hk. Qed.

(** The test that the caller does not hold the lock. *)
Lemma seeking_held n (k : M S bool) :
  seeking n k →
  seeking n (let* held := lock_held_by_current_thread p in assert (negb held);;; k).
Proof.
  intros Hk. destruct n; intros s v h Hs Hv Hl; destruct (Hl) as [ws Hp];
    rewrite (bind_ok _ _ _ _ _ (held_by_me p s Hs _ Hp));
    destruct (bool_decide _); try done; by apply Hk.
Qed.

Lemma down_tail_ok old s h :
  kernel_ok s → lock_is 1 h s → ∃ s', sema_taken (lock_sema p) old s = Ok (tt, s') ∧ lock_is 0 h s'.
Proof.
  intros Hs Hl. destruct (Hl) as [ws Hp].
  destruct (sema_taken_ok (lock_sema p) old s 1 ws Hs ltac:(lia)) as [x ->]; [simpl; by rewrite Hp|].
  eexists. split; [done|]. simpl. rewrite Hp. by eapply lock_is_sched, lock_is_store.
Qed.

Lemma seeking_wait old n (k : unit → M S bool) :
  (∀ t, owning t (k tt)) →
  seeking n (bind (sema_wait n (lock_sema p)) (λ _, bind (sema_taken (lock_sema p) old) (λ _, bind suspend k))).
Proof.
  intros Hk. induction n as [|n IH]; intros s v h Hs Hv Hl; [done|]. simpl. destruct (Hl) as [ws Hp].
  assert (pload (lock_sema p) s = Some (mk_sema v ws)) as Hq by (simpl; by rewrite Hp).
  rewrite bind_assoc, (bind_ok _ _ _ _ _ (load_ok _ _ _ Hq)). simpl.
  destruct Hv as [->| ->]; simpl.
  - rewrite bind_assoc, (bind_ok _ _ _ _ _ (on_sched_current s Hs)).
    rewrite bind_assoc, (bind_ok _ _ _ _ _ (store_ok _ _ _ _ Hq)).
    rewrite bind_assoc. simpl. rewrite Hp. unfold bind at 1, on_sched, lift.
    destruct (thread_block _) as [[[] x]| | |x r|] eqn:Hb; simpl; try done.
    + right. split; [by eapply lock_is_sched, lock_is_store|exact IH].
    + exfalso. by eapply thread_block_atomic.
  - rewrite bind_ret. destruct (down_tail_ok old s h Hs Hl) as (s' & E & Hs').
    rewrite (bind_ok _ _ _ _ _ E). simpl. left. split_and!; [done..|exact (Hk _)].
Qed.

Lemma lock_is_cli v h s : lock_is v h s → lock_is v h (cli s).
Proof. apply lock_is_sched. Qed.

Lemma seeking_down n (k : unit → M S bool) :
  (∀ t, owning t (k tt)) →
  seeking n (bind (sema_down_for n (lock_sema p)) (λ _, bind suspend k)).
Proof.
  intros Hk. assert (∀ s, kernel_ok s →
    bind (sema_down_for n (lock_sema p)) (λ _, bind suspend k) s =
    bind (sema_wait n (lock_sema p)) (λ _, bind (sema_taken (lock_sema p) (intr_on (ksched s))) (λ _, bind suspend k)) (cli s))
    as E.
  { intros s Hs. unfold sema_down_for.
    rewrite bind_assoc, (bind_ok _ _ _ _ _ (on_sched_context s Hs)), bind_assoc, bind_assert by done.
    by rewrite bind_assoc, (bind_ok _ _ _ _ _ (on_sched_disable s)), bind_assoc. }
  destruct n; intros s v h Hs Hv Hl; rewrite (E s Hs); [done|].
  pose proof (seeking_wait (intr_on (ksched s)) (Datatypes.S n) k Hk (cli s) v h (kernel_ok_cli s Hs) Hv
    (lock_is_cli _ _ _ Hl)) as Ha. by rewrite me_cli in Ha.
Qed.

Lemma record_owner s t :
  kernel_ok s → me s = t → lock_is 0 None s →
  ∃ s', (let* t := on_sched thread_current in set_holder p (Some t)) s = Ok (tt, s') ∧
        lock_is 0 (Some t) s'.
Proof.
  intros Hs <- Hl. destruct (Hl) as [ws Hp]. rewrite (bind_ok _ _ _ _ _ (on_sched_current s Hs)).
  rewrite (set_holder_ok p _ _ _ Hp). eexists. split; [done|]. by eapply lock_is_store.
Qed.

(** A call of lock_acquire() that has not got the lock yet. *)
Lemma acquire_seeks n : seeking (Datatypes.S (Datatypes.S n)) (run_call p n Acquire).
Proof.
  intros s v h Hs Hv Hl. unfold run_call, lock_acquire_at. rewrite bind_assoc.
  rewrite (bind_ok _ _ _ _ _ (on_sched_context s Hs)), bind_assoc, bind_assert, bind_assoc by done.
  eapply (seeking_point (Datatypes.S n)); [|done..].
  eapply seeking_ext; [intros s'; symmetry; apply bind_assoc|]. cbv beta.
  eapply seeking_ext; [intros s'; apply bind_ext; intros b s2; symmetry; apply bind_assoc|]. cbv beta.
  apply seeking_held. eapply seeking_ext; [intros s'; symmetry; apply bind_assoc|].
  apply seeking_point. eapply seeking_ext; [intros s'; symmetry; apply bind_assoc|].
  eapply seeking_ext; [intros s'; apply bind_ext; intros b s2; symmetry; apply bind_assoc|]. cbv beta.
  apply seeking_down. intros t s' Hs' Ht Hl'.
  destruct (record_owner s' t Hs' Ht Hl') as (s2 & E & H2). by rewrite (bind_ok _ _ _ _ _ E).
Qed.

Lemma try_down_cases s v h :
  kernel_ok s → v = 0 ∨ v = 1 → lock_is v h s →
  ∃ s', sema_try_down (lock_sema p) s = Ok (bool_decide (v = 1), s') ∧ lock_is 0 h s'.
Proof.
  intros Hs Hv Hl. destruct (Hl) as [ws Hp].
  assert (pload (lock_sema p) s = Some (mk_sema v ws)) as Hq by (simpl; by rewrite Hp).
  destruct Hv as [->| ->].
  - rewrite (sema_try_down_zero s Hs _ _ Hq). by eauto.
  - rewrite (sema_try_down_free s Hs _ _ _ Hq) by lia. eexists. split; [done|].
    simpl. rewrite Hp. by eapply lock_is_store.
Qed.

Lemma try_seeks : seeking 2 (run_call p 0 TryAcquire).
Proof.
  apply seeking_held. apply seeking_point.
  intros s v h Hs Hv Hl. destruct (try_down_cases s v h Hs Hv Hl) as (s' & E & Hl').
  rewrite (bind_ok _ _ _ _ _ E). destruct Hv as [->| ->]; simpl; [right|left].
  - split; [done|]. intros s2 v2 h2 _ _ H2. by split.
  - split_and!; [done..|]. intros s2 Hs2 Ht Hl2.
    destruct (record_owner s2 (me s) Hs2 Ht Hl2) as (s3 & E3 & H3). by rewrite (bind_ok _ _ _ _ _ E3).
Qed.

Lemma call_seeks n c : c ≠ Release → ∃ k, seeking k (run_call p n c).
Proof. destruct c; intros; [|exists 2%nat; exact try_seeks|done]. eexists. apply acquire_seeks. Qed.

Lemma sema_up_value (q : ptr S semaphore) `{!GoodPtr q} s sm s' :
  pload q s = Some sm → sema_up q s = Ok (tt, s') →
  ∃ ws, pload q s' = Some (mk_sema (u32 (value sm + 1)) ws).
Proof.
  intros Hq Hrun. unfold sema_up in Hrun. rewrite (bind_ok _ _ _ _ _ (on_sched_disable s)) in Hrun.
  assert (pload q (cli s) = Some sm) as Hc by (by rewrite pload_cli).
  rewrite (bind_ok _ _ _ _ _ (load_ok _ _ _ Hc)) in Hrun.
  apply bind_inv in Hrun as ([] & s1 & Hwake & Hrun).
  assert (∃ ws, pload q s1 = Some (mk_sema (value sm) ws)) as [ws H1].
  { destruct sm as [v [|t rest]]; simpl in *; [injection Hwake as <-; by eauto|].
    rewrite (bind_ok _ _ _ _ _ (store_ok _ _ _ _ Hc)) in Hwake.
    apply on_sched_inv in Hwake as [x ->]. rewrite gp_load_sched, gp_load_store; by eauto. }
  rewrite (bind_ok _ _ _ _ _ (load_ok _ _ _ H1)), (bind_ok _ _ _ _ _ (store_ok _ _ _ _ H1)) in Hrun.
  apply bind_inv in Hrun as (b & s2 & Hset & Hrun). injection Hrun as <-.
  apply on_sched_inv in Hset as [x ->]. exists ws.
  rewrite gp_load_sched, gp_load_store; by eauto.
Qed.

(** Waking a thread does not touch the lock's holder. *)
Lemma sema_up_holder s l s' :
  pload p s = Some l → sema_up (lock_sema p) s = Ok (tt, s') →
  holder <$> pload p s' = Some (holder l).
Proof.
  intros Hp Hrun. unfold sema_up in Hrun. rewrite (bind_ok _ _ _ _ _ (on_sched_disable s)) in Hrun.
  assert (pload p (cli s) = Some l) as Hl by (by rewrite pload_cli).
  assert (pload (lock_sema p) (cli s) = Some (sema_of l)) as Hc by (simpl; by rewrite Hl).
  rewrite (bind_ok _ _ _ _ _ (load_ok _ _ _ Hc)) in Hrun.
  apply bind_inv in Hrun as ([] & s1 & Hwake & Hrun).
  assert (∃ sm, pload p s1 = Some (mk_lock (holder l) sm)) as [sm H1].
  { destruct (waiters (sema_of l)); [injection Hwake as <-; destruct l; by eauto|].
    rewrite (bind_ok _ _ _ _ _ (store_ok _ _ _ _ Hc)) in Hwake.
    apply on_sched_inv in Hwake as [x ->]. simpl. rewrite Hl, gp_load_sched, gp_load_store; by eauto. }
  assert (pload (lock_sema p) s1 = Some sm) as Hs1 by (simpl; by rewrite H1).
  rewrite (bind_ok _ _ _ _ _ (load_ok _ _ _ Hs1)), (bind_ok _ _ _ _ _ (store_ok _ _ _ _ Hs1)) in Hrun.
  apply bind_inv in Hrun as (b & s2 & Hset & Hrun). injection Hrun as <-.
  apply on_sched_inv in Hset as [x ->]. simpl. rewrite H1.
  rewrite gp_load_sched, gp_load_store; by eauto.
Qed.

Lemma on_sched_atomic {A} (m : M sched A) : atomic m → atomic (on_sched m).
Proof. apply atomic_lift. Qed.

Lemma load_atomic {A} (q : ptr S A) : atomic (load q).
Proof. unfold load. atomic. Qed.

Lemma store_atomic {A} (q : ptr S A) a : atomic (store q a).
Proof. unfold store. apply atomic_bind; [apply load_atomic|intros]. atomic. Qed.

Lemma sema_up_atomic (q : ptr S semaphore) : atomic (sema_up q).
Proof.
  unfold sema_up. repeat first
    [ apply atomic_bind; [|intros ?] | apply load_atomic | apply store_atomic
    | apply on_sched_atomic, intr_set_level_atomic | apply on_sched_atomic, thread_unblock_atomic
    | case_match | apply on_sched_atomic; unfold intr_disable, intr_get_level; atomic
    | solve [auto with pintos] ].
Qed.

Lemma release_ups : upping (sema_up (lock_sema p);;; ret false).
Proof.
  intros s [ws Hp]. destruct (sema_up (lock_sema p) s) as [[[] s']| | |s' r|] eqn:E.
  2,3,5: unfold bind; by rewrite E.
  - rewrite (bind_ok _ _ _ _ _ E). split; [done|].
    pose proof (sema_up_holder s _ s' Hp E) as Hh.
    destruct (sema_up_value (lock_sema p) s (mk_sema 0 ws) s') as [ws' Hv]; [simpl; by rewrite Hp|done|].
    simpl in Hv. destruct (pload p s') as [[h sm]|] eqn:Hl; [|done]. simpl in *. simplify_eq.
    exists ws'. done.
  - by eapply sema_up_atomic in E.
Qed.

Lemma release_clears t :
  clearing t (set_holder p None;;; suspend;;; sema_up (lock_sema p);;; ret false).
Proof.
  intros s Hs Hl. destruct (Hl) as [ws Hp].
  rewrite (bind_ok _ _ _ _ _ (set_holder_ok p _ _ _ Hp)). simpl.
  split; [by eapply lock_is_store|]. exact release_ups.
Qed.

(** lock_release() goes on only for the holder. *)
Lemma release_starts n s v h ws :
  kernel_ok s → pload p s = Some (mk_lock h (mk_sema v ws)) →
  match run_call p n Release s with
  | Ok _ => False
  | Blocked s' r => s' = s ∧ h = Some (me s) ∧ clearing (me s) r
  | _ => True
  end.
Proof.
  intros Hs Hp. unfold run_call, lock_release_at.
  rewrite bind_assoc, (bind_ok _ _ _ _ _ (held_by_me p s Hs _ Hp)). simpl.
  destruct (bool_decide_reflect (h = Some (me s))) as [Hh|]; [|done].
  rewrite bind_assoc, bind_assert, bind_assoc by done. simpl. split_and!; [done..|].
  intros s' Hs' Hl'. pose proof (release_clears (me s) s' Hs' Hl') as Hc. cbv beta.
  rewrite bind_assoc.
  erewrite bind_ext; [exact Hc|]. intros [] s2. cbv beta. by rewrite bind_assoc.
Qed.

(** Who may be where: the lock is free; or one thread is inside and the lock
    names it; or the lock is on its way from one state to the other, in the
    hands of exactly one thread. *)
Inductive mutex_case (s : S) : list Z → list (Z * (S → outcome S bool)) → Prop :=
| mutex_free : lock_is 1 None s → mutex_case s [] []
| mutex_held t : lock_is 0 (Some t) s → mutex_case s [t] []
| mutex_taking t r : lock_is 0 None s → owning t r → mutex_case s [] [(t, r)]
| mutex_clearing t r : lock_is 0 (Some t) s → clearing t r → mutex_case s [] [(t, r)]
| mutex_upping t r : lock_is 0 None s → upping r → mutex_case s [] [(t, r)].

(** All other calls under way are still seeking the lock. *)
Definition mutex_inv (c : config) : Prop :=
  ∃ hand rest, pending c ≡ₚ hand ++ rest ∧ Forall (λ x, ∃ n, seeking n x.2) rest ∧
               mutex_case (st c) (inside c) hand.

Lemma mutex_case_is s ins hand :
  mutex_case s ins hand →
  lock_is 1 None s ∧ ins = [] ∧ hand = [] ∨ ∃ h, lock_is 0 h s.
Proof. destruct 1; eauto. Qed.

(** The cases depend on the lock only. *)
Lemma mutex_case_same s s' ins hand :
  (∀ v h, v = 0 ∨ v = 1 → lock_is v h s → lock_is v h s') →
  mutex_case s ins hand → mutex_case s' ins hand.
Proof.
  intros Hs. destruct 1; [apply mutex_free|apply mutex_held|apply mutex_taking|apply mutex_clearing|apply mutex_upping];
    by auto.
Qed.

Lemma lock_is_inj v h v' h' s : lock_is v h s → lock_is v' h' s → v = v' ∧ h = h'.
Proof. intros [? H1] [? H2]. rewrite H1 in H2. by simplify_eq. Qed.

(** A thread that seeks the lock runs. *)
Lemma seeker_runs n r s ins hand rest pend cf :
  seeking n r → kernel_ok s → mutex_case s ins hand →
  pend ≡ₚ hand ++ rest → Forall (λ x, ∃ n, seeking n x.2) rest →
  settle (me s) ins pend (r s) = Some cf → mutex_inv cf.
Proof.
  intros Hr Hs Hc Hp Hrest Hset.
  assert (∀ v h, v = 0 ∨ v = 1 → lock_is v h s →
    match r s with
    | Ok (b, s') => b = false ∧ lock_is v h s'
    | Blocked s' r' => (v = 1 ∧ lock_is 0 h s' ∧ owning (me s) r') ∨
                       (lock_is v h s' ∧ ∃ n, seeking n r')
    | _ => True
    end) as Hrun.
  { intros v h Hv Hl. destruct n; specialize (Hr s v h Hs Hv Hl); destruct (r s) as [[]| | | |];
      naive_solver. }
  destruct (r s) as [[b s']| | |s' r'|]; simplify_eq/=; [|].
  - exists hand, rest. assert (b = false) as ->.
    { destruct (mutex_case_is _ _ _ Hc) as [(Hl & _)|[h Hl]]; [by destruct (Hrun 1 _ (or_intror eq_refl) Hl)|].
      by destruct (Hrun 0 _ (or_introl eq_refl) Hl). }
    split_and!; [done..|]. eapply mutex_case_same; [|done]. intros v h Hv Hl. by apply (Hrun v h Hv Hl).
  - destruct (mutex_case_is _ _ _ Hc) as [(Hl & -> & ->)|[h Hl]].
    + destruct (Hrun 1 None (or_intror eq_refl) Hl) as [(_ & H0 & Ho)|(H1 & Hn)].
      * exists [(me s, r')], rest. split_and!; [by apply Permutation_skip|done|by constructor].
      * exists [], ((me s, r') :: rest). split_and!; [by apply Permutation_skip|by constructor|by constructor].
    + exists hand, ((me s, r') :: rest).
      destruct (Hrun 0 h (or_introl eq_refl) Hl) as [[? _]|(H0 & Hn)]; [done|].
      split_and!; [simpl; rewrite Hp; apply Permutation_middle|by constructor|].
      eapply mutex_case_same; [|done]. intros v2 h2 _ H2. by destruct (lock_is_inj _ _ _ _ _ Hl H2) as [<- <-].
Qed.

(** The thread that has the lock in its hands runs. *)
Lemma hand_runs r s ins rest pend cf :
  kernel_ok s → mutex_case s ins [(me s, r)] →
  pend ≡ₚ rest → Forall (λ x, ∃ n, seeking n x.2) rest →
  settle (me s) ins pend (r s) = Some cf → mutex_inv cf.
Proof.
  intros Hs Hc Hp Hrest Hset. inversion Hc as [| |t r' Hl Ho|t r' Hl Ho|t r' Hl Ho]; subst; clear Hc.
  - specialize (Ho s Hs eq_refl Hl). destruct (r s) as [[b s']| | |s' r'|]; simplify_eq/=; [|done].
    destruct Ho as [-> Ho]. exists [], rest. split_and!; [done..|by constructor].
  - specialize (Ho s Hs Hl). destruct (r s) as [[b s']| | |s' r'|]; simplify_eq/=; [done|].
    exists [(me s, r')], rest. destruct Ho. split_and!; [by apply Permutation_skip|done|by apply mutex_upping].
  - specialize (Ho s Hl). destruct (r s) as [[b s']| | |s' r'|]; simplify_eq/=; [|done].
    destruct Ho as [-> Ho]. exists [], rest. split_and!; [done..|by constructor].
Qed.

(** Only the thread inside can start to release the lock. *)
Lemma release_runs n s ins hand rest pend cf :
  kernel_ok s → me s ∉ pend.*1 → mutex_case s ins hand →
  pend ≡ₚ hand ++ rest → Forall (λ x, ∃ n, seeking n x.2) rest →
  settle (me s) (leaving Release (me s) ins) pend (run_call p n Release s) = Some cf → mutex_inv cf.
Proof.
  intros Hs Hme Hc Hp Hrest Hset.
  assert (∀ v h, lock_is v h s → match run_call p n Release s with
    | Ok _ => False | Blocked s' r => s' = s ∧ h = Some (me s) ∧ clearing (me s) r | _ => True end) as Hrun.
  { intros v h [ws Hl]. by eapply release_starts. }
  assert (∀ t r, hand = [(t, r)] → t ≠ me s) as Hne.
  { intros t r -> ->. apply Hme. rewrite Hp. simpl. by left. }
  destruct (run_call p n Release s) as [[b s']| | |s' r'|]; simplify_eq/=.
  { destruct (mutex_case_is _ _ _ Hc) as [(Hl & _)|[h Hl]]; by destruct (Hrun _ _ Hl). }
  destruct Hc as [Hl|t Hl|t r Hl Ho|t r Hl Ho|t r Hl Ho]; destruct (Hrun _ _ Hl) as (-> & ? & Hcl); simplify_eq.
  - exists [(me s, r')], rest. split_and!; [by apply Permutation_skip|done|].
    simpl. rewrite filter_cons_False by naive_solver. by apply mutex_clearing.
  - by destruct (Hne _ _ eq_refl).
Qed.

(** A call under way is the one that has the lock in its hands or one of the others. *)
Lemma pending_split {A} (x : A) a b hand rest :
  a ++ x :: b ≡ₚ hand ++ rest → (length hand <= 1)%nat →
  (hand = [x] ∧ a ++ b ≡ₚ rest) ∨ ∃ rest', rest ≡ₚ x :: rest' ∧ a ++ b ≡ₚ hand ++ rest'.
Proof.
  intros Hp Hlen. rewrite <- Permutation_middle in Hp.
  assert (x ∈ hand ++ rest) as Hx by (rewrite <- Hp; by left).
  apply elem_of_app in Hx as [Hx|Hx].
  - destruct hand as [|y [|]]; simpl in Hlen; [by apply elem_of_nil in Hx| |lia].
    apply list_elem_of_singleton in Hx as ->. left. split; [done|]. by apply Permutation_cons_inv in Hp.
  - right. apply elem_of_Permutation in Hx as [rest' Hr]. exists rest'. split; [done|].
    rewrite Hr, <- Permutation_middle in Hp. by apply Permutation_cons_inv in Hp.
Qed.

Lemma mstep_inv c c' : mutex_inv c → mstep p c c' → mutex_inv c'.
Proof.
  intros (hand & rest & Hp & Hrest & Hc) Hstep.
  destruct Hstep as [s ins pend n c cf Hk Hme Hset|s ins p1 p2 r cf Hk Hset|s ins pend s' Hs']; simpl in *.
  - destruct (decide (c = Release)) as [->|Hne]; [by eapply release_runs|].
    destruct (call_seeks n c Hne) as [k Hseek]. destruct c; by eapply seeker_runs.
  - destruct (pending_split _ _ _ _ _ Hp) as [[-> Hq]|(rest' & Hr & Hq)]; [by destruct Hc; simpl; lia|by eapply hand_runs|].
    rewrite Hr, Forall_cons in Hrest. destruct Hrest as [[n Hn] Hrest]. by eapply seeker_runs.
  - exists hand, rest. split_and!; [done..|]. eapply mutex_case_same; [|done].
    intros v h _ [ws Hl]. exists ws. simpl. by rewrite Hs'.
Qed.
End mutex.

(** ** Semaphores count *)

Section counting.
Context (q : ptr S semaphore) `{!GoodPtr q}.

(** [r] is the rest of a sema_down() that is woken at most [n] more times: it
    returns exactly with a positive value taken down by one, and otherwise
    blocks and leaves the value at 0. *)
Fixpoint counts_down (n : nat) (r : S → outcome S unit) : Prop :=
  ∀ s v ws, kernel_ok s → 0 <= v < 4294967296 → pload q s = Some (mk_sema v ws) →
    match r s with
    | Ok (_, s') => 0 < v ∧ ∃ ws', pload q s' = Some (mk_sema (v - 1) ws')
    | Blocked s' r' =>
        v = 0 ∧ (∃ ws', pload q s' = Some (mk_sema 0 ws')) ∧
        match n with O => True | Datatypes.S n => counts_down n r' end
    | _ => v = 0
    end.

Lemma counts_down_wait old n :
  counts_down n (bind (sema_wait (Datatypes.S n) q) (λ _, sema_taken q old)).
Proof.
  induction n as [|n IH]; intros s v ws Hs Hv Hq; cbn [sema_wait];
    rewrite bind_assoc, (bind_ok _ _ _ _ _ (load_ok _ _ _ Hq)); cbn [value];
    (destruct (Z.eqb_spec v 0) as [->|Hne];
      [|rewrite bind_ret; destruct (sema_taken_ok q old s v ws Hs ltac:(lia) Hq) as [x ->];
        split; [lia|]; eexists; rewrite gp_load_sched; apply gp_load_store; by eauto]).
  all: rewrite bind_assoc, (bind_ok _ _ _ _ _ (on_sched_current s Hs)).
  all: rewrite bind_assoc, (bind_ok _ _ _ _ _ (store_ok _ _ _ _ Hq)).
  all: rewrite bind_assoc; unfold bind at 1, on_sched, lift.
  all: destruct (thread_block _) as [[[] x]| | |x r|] eqn:Hb; simpl; try done;
    [|exfalso; by eapply thread_block_atomic].
  all: split_and!; [done| |done]; eexists; rewrite gp_load_sched; apply gp_load_store; by eauto.
Qed.

Lemma counts_down_for n : counts_down n (sema_down_for (Datatypes.S n) q).
Proof.
  assert (∀ s, kernel_ok s → sema_down_for (Datatypes.S n) q s =
    bind (sema_wait (Datatypes.S n) q) (λ _, sema_taken q (intr_on (ksched s))) (cli s)) as E.
  { intros s Hs. unfold sema_down_for.
    rewrite (bind_ok _ _ _ _ _ (on_sched_context s Hs)), bind_assert by done.
    by rewrite (bind_ok _ _ _ _ _ (on_sched_disable s)). }
  destruct n as [|n]; intros s v ws Hs Hv Hq; rewrite (E s Hs);
    [apply (counts_down_wait _ 0 (cli s) v ws (kernel_ok_cli s Hs) Hv)
    |apply (counts_down_wait _ (Datatypes.S n) (cli s) v ws (kernel_ok_cli s Hs) Hv)]; by rewrite pload_cli.
Qed.
End counting.

End objects.

(** Semaphores count: a sema_down() returns exactly when it has taken a
    positive value down by one and otherwise blocks with the value at 0, as
    often as it is resumed in a state of the kernel, and sema_up() takes the
    value up by one, whoever waits. *)
Theorem sema_counts {S} `{Kernel S} (q : ptr S semaphore) `{!GoodPtr q} :
  (∀ n, counts_down q n (sema_down_for (Datatypes.S n) q)) ∧
  (∀ s v ws s', pload q s = Some (mk_sema v ws) → sema_up q s = Ok (tt, s') →
     ∃ ws', pload q s' = Some (mk_sema (u32 (v + 1)) ws')).
Proof.
  split; [by apply counts_down_for|]. intros s v ws s' Hq. by apply (sema_up_value q s (mk_sema v ws)).
Qed.

(** ** Properties *)

(** C2. Locks exclude: from lock_init() on, however the calls of
    lock_acquire(), lock_try_acquire() and lock_release() of any number of
    threads interleave, with the processor taken away between any two
    statements of the three functions as well as in sema_down() (interrupts
    are off only inside the semaphore's own operations), at most one thread
    has acquired the lock without calling lock_release() since, and it is the
    thread the lock names as its holder. *)
Theorem mutual_exclusion {S} `{Kernel S} (p : ptr S lock) `{!GoodPtr p} s c :
  pload p s = Some new_lock → rtc (mstep p) (mk_config s [] []) c →
  (length (inside c) <= 1)%nat ∧
  ∀ t, t ∈ inside c → ∃ l, pload p (st c) = Some l ∧ holder l = Some t.
Proof.
  intros Hp Hrtc.
  assert (mutex_inv p c) as (hand & rest & _ & _ & Hc).
  { assert (mutex_inv p (mk_config s [] [])) as H0.
    { exists [], []. split_and!; [done..|]. constructor. by exists []. }
    revert H0. induction Hrtc as [|c1 c2 c3 Hstep _ IH]; [done|].
    intros H1. apply IH. by eapply mstep_inv. }
  destruct Hc as [|t [ws Hl]| | |]; simpl; split; try lia; intros u Hu; try by apply elem_of_nil in Hu.
  apply list_elem_of_singleton in Hu as ->. by eauto.
Qed.

(** A kernel with one lock. *)
#[global, program] Instance kernel_lock : Kernel (kernel * lock) := {|
  kget := fst;
  kset := λ k s, (k, snd s)
|}.
Next Obligation. done. Qed.
Next Obligation. by intros []. Qed.
Next Obligation. done. Qed.

Definition the_lock : ptr (kernel * lock) lock :=
  mk_ptr (λ s, Some (snd s)) (λ l s, (fst s, l)).

#[global] Instance the_lock_good : GoodPtr the_lock.
Proof. split; try done. by intros [? ?] ? [= <-]. Qed.

(** Threads 1, running, and 2, ready, and a free lock. *)
Definition demo_lock : kernel * lock :=
  match (thread_init;;; init_thread 2 [50] PRI_DEFAULT;;; thread_unblock 2) power_on with
  | Ok (_, x) => (mk_kernel x ∅ [], new_lock)
  | _ => (mk_kernel power_on ∅ [], new_lock)
  end.

Definition result_of {S A} (o : outcome S A) (d : S) : S :=
  match o with Ok (_, s) => s | Blocked s _ => s | _ => d end.
Definition rest_of {S A} (o : outcome S A) : S → outcome S A :=
  match o with Blocked _ r => r | _ => λ _, Panic end.
Definition is_ok {S A} (o : outcome S A) : bool :=
  match o with Ok _ => true | _ => false end.
Definition is_blocked {S A} (o : outcome S A) : bool :=
  match o with Blocked _ _ => true | _ => false end.

Lemma is_ok_eq {S} (o : outcome S unit) d : is_ok o = true → o = Ok (tt, result_of o d).
Proof. by destruct o as [[[] ?]| | | |]. Qed.

Lemma is_blocked_eq {S A} (o : outcome S A) d :
  is_blocked o = true → o = Blocked (result_of o d) (rest_of o).
Proof. by destruct o. Qed.

(** A schedule of the two threads: the running thread makes a call, goes on
    with the call it is in, or yields. *)
Inductive action := Call (c : call) | Go | Yield.

(** The call [t] is in the middle of, and the others. *)
Fixpoint in_call {A} (t : Z) (l : list (Z * A)) : option (list (Z * A) * A * list (Z * A)) :=
  match l with
  | [] => None
  | (u, r) :: l' =>
      if u =? t then Some ([], r, l')
      else '(a, x, b) ← in_call t l'; Some ((u, r) :: a, x, b)
  end.

Definition kernel_okb {S} `{Kernel S} (s : S) : bool :=
  match thread_current (ksched s) with Ok (t, _) => t =? cur (ksched s) | _ => false end
  && negb (in_external_intr (ksched s)).

Definition act {S} `{Kernel S} (p : ptr S lock) (c : config) (a : action) : option config :=
  let '(mk_config s ins pend) := c in
  if kernel_okb s then
    match a with
    | Call c =>
        if bool_decide (me s ∈ pend.*1) then None
        else settle (me s) (leaving c (me s) ins) pend (run_call p wakeups c s)
    | Go => '(p1, r, p2) ← in_call (me s) pend; settle (me s) ins (p1 ++ p2) (r s)
    | Yield => Some (mk_config (result_of (on_sched thread_yield_switch s) s) ins pend)
    end
  else None.

Definition schedule_of {S} `{Kernel S} (p : ptr S lock) (c : config) (l : list action) : option config :=
  fold_left (λ o a, c ← o; act p c a) l (Some c).

Lemma kernel_okb_ok {S} `{Kernel S} (s : S) : kernel_okb s = true → kernel_ok s.
Proof.
  unfold kernel_okb, kernel_ok. rewrite andb_true_iff, negb_true_iff. intros [Ht He]. split; [|done].
  destruct (thread_current (ksched s)) as [[t x]| | | |] eqn:E; try done. apply Z.eqb_eq in Ht as ->.
  pose proof (thread_current_intr (intr_on (ksched s)) _ _ E) as E'.
  replace (set_intr (intr_on (ksched s)) (ksched s)) with (ksched s) in E' by (by destruct (ksched s)).
  congruence.
Qed.

Lemma in_call_ok {A} t (l : list (Z * A)) a r b : in_call t l = Some (a, r, b) → l = a ++ (t, r) :: b.
Proof.
  revert a b. induction l as [|[u x] l IH]; intros a b; simpl; [done|].
  destruct (Z.eqb_spec u t) as [->|]; [by intros [= <- <- <-]|].
  destruct (in_call t l) as [[[a' r'] b']|]; simpl; [|done]. intros [= <- <- <-]. by erewrite IH.
Qed.

Lemma thread_yield_lock (s : kernel * lock) :
  pload the_lock (result_of (on_sched thread_yield_switch s) s) = pload the_lock s.
Proof.
  unfold on_sched, lift. destruct (thread_yield_switch _) as [[[] x]| | |x r|]; done.
Qed.

Lemma act_step c a c' : act the_lock c a = Some c' → mstep the_lock c c'.
Proof.
  destruct c as [s ins pend]. unfold act. destruct (kernel_okb s) eqn:Hk; [|done].
  apply kernel_okb_ok in Hk. destruct a as [c| |].
  - case_bool_decide; [done|]. by apply m_start.
  - destruct (in_call (me s) pend) as [[[p1 r] p2]|] eqn:E; simpl; [|done].
    rewrite (in_call_ok _ _ _ _ _ E). by apply m_resume.
  - intros [= <-]. apply m_other, thread_yield_lock.
Qed.

Lemma schedule_steps l c c' : schedule_of the_lock c l = Some c' → rtc (mstep the_lock) c c'.
Proof.
  unfold schedule_of. revert c. induction l as [|a l IH]; intros c; simpl; [by intros [= ->]|].
  destruct (act the_lock c a) as [c1|] eqn:E; simpl.
  - intros Hl. eapply rtc_l; [by eapply act_step|by apply IH].
  - intros Hl. exfalso. clear -Hl. induction l; simpl in *; by auto.
Qed.

(** Thread 1 has taken the semaphore and is preempted before it records itself
    as the holder; thread 2 blocks on the lock; thread 1 goes on, releases the
    lock and yields; thread 2 gets it. *)
Definition demo_schedule : list action :=
  [Call Acquire; Go; Go; Yield; Call Acquire; Go; Go; Go; Call Release; Go; Go; Yield; Go; Go].

Definition demo_start : config := mk_config demo_lock [] [].
Definition demo_config : config := default demo_start (schedule_of the_lock demo_start demo_schedule).

Lemma demo_schedule_runs :
  bool_decide (is_Some (schedule_of the_lock demo_start demo_schedule)) = true.
Proof. vm_compute. reflexivity. Qed.

Lemma mutual_exclusion_witness :
  inside demo_config = [2] ∧ (length (inside demo_config) <= 1)%nat ∧
  ∀ t, t ∈ inside demo_config → ∃ l, pload the_lock (st demo_config) = Some l ∧ holder l = Some t.
Proof.
  split; [vm_compute; reflexivity|].
  apply (mutual_exclusion the_lock demo_lock demo_config); [vm_compute; reflexivity|].
  apply (schedule_steps demo_schedule). unfold demo_config.
  destruct (bool_decide_eq_true_1 _ demo_schedule_runs) as [c E]. fold demo_start. by rewrite E.
Defined.

End Synch.
