(* ===== verification/Intq.v ===== *)
(** * Intq: interrupt queues and keyboard input (devices/intq.c, input.c)

    A circular buffer of bytes shared by threads and interrupt handlers.  Like
    the objects of [Synch], a queue is reached through a pointer into a state
    that contains the scheduler.  A thread that finds the queue empty (or full)
    blocks inside its call, so the theorem on order speaks of interleavings:
    calls that return at once, calls that block, and the resumption of blocked
    calls in any later state. *)

From Stdlib Require Import ZArith Lia.
From stdpp Require Import base tactics option list numbers gmap.
From S2P Require Import Prelude Sched Synch.
Import Sched Synch.

Module Intq.

(** ** Code *)

Definition INTQ_BUFSIZE : Z := 64.

Record intq := mk_intq {
  q_lock : lock;
  not_full : option Z;
  not_empty : option Z;
  buf : list Z;
  head : Z;
  tail : Z
}.

Definition next (pos : Z) : Z := Z.rem (pos + 1) INTQ_BUFSIZE.

(** Which waiter: &q->not_full or &q->not_empty. *)
Inductive which := NotFull | NotEmpty.

Definition waiter (w : which) (x : intq) : option Z :=
  match w with NotFull => not_full x | NotEmpty => not_empty x end.
Definition set_waiter (w : which) (t : option Z) (x : intq) : intq :=
  match w with
  | NotFull => mk_intq (q_lock x) t (not_empty x) (buf x) (head x) (tail x)
  | NotEmpty => mk_intq (q_lock x) (not_full x) t (buf x) (head x) (tail x)
  end.
Definition set_lock (l : lock) (x : intq) : intq :=
  mk_intq l (not_full x) (not_empty x) (buf x) (head x) (tail x).

Section code.
Context {S : Type} `{Kernel S}.
Context (q : ptr S intq).

(** [&q->lock]. *)
Definition lock_ptr : ptr S lock :=
  mk_ptr (λ s, q_lock <$> pload q s)
    (λ l s, match pload q s with Some x => pstore q (set_lock l x) s | None => s end).

(** A change of some members of [*q]. *)
Definition update (f : intq → intq) : M S unit := let* x := load q in store q (f x).

Definition assert_intr_off : M S unit :=
  let* level := on_sched intr_get_level in assert (negb level).
Definition assert_no_context : M S unit :=
  let* ctx := on_sched intr_context in assert (negb ctx).

Definition intq_init : M S unit :=
  lock_init lock_ptr;;;
  update (λ x, mk_intq (q_lock x) None None (buf x) 0 0).

Definition intq_empty : M S bool :=
  assert_intr_off;;;
  let* x := load q in ret (head x =? tail x).

Definition intq_full : M S bool :=
  assert_intr_off;;;
  let* x := load q in ret (next (head x) =? tail x).

(** [intq_empty (q)] or [intq_full (q)], by the waiter. *)
Definition must_wait (w : which) : M S bool :=
  match w with NotFull => intq_full | NotEmpty => intq_empty end.

Definition wait (w : which) : M S unit :=
  assert_no_context;;;
  assert_intr_off;;;
  let* b := must_wait w in
  assert b;;;
  let* t := on_sched thread_current in
  update (set_waiter w (Some t));;;
  on_sched thread_block;;;
  suspend.

Definition signal (w : which) : M S unit :=
  assert_intr_off;;;
  let* b := must_wait w in
  assert (negb b);;;
  let* x := load q in
  match waiter w x with
  | Some t => on_sched (thread_unblock t);;; update (set_waiter w None)
  | None => ret tt
  end.

(** [while (intq_empty (q))] and [while (intq_full (q))]; a thread woken
    [wakeups] times in vain is beyond the model. *)
Fixpoint wait_loop (fuel : nat) (w : which) : M S unit :=
  let* b := must_wait w in
  if b : bool then
    match fuel with
    | O => no_fuel
    | Datatypes.S fuel =>
        assert_no_context;;;
        lock_acquire lock_ptr;;;
        wait w;;;
        lock_release lock_ptr;;;
        wait_loop fuel w
    end
  else ret tt.

Definition intq_getc : M S Z :=
  assert_intr_off;;;
  wait_loop wakeups NotEmpty;;;
  let* x := load q in
  let* byte := deref (buf x !! Z.to_nat (tail x)) in
  update (λ x, mk_intq (q_lock x) (not_full x) (not_empty x) (buf x) (head x) (next (tail x)));;;
  signal NotFull;;;
  ret byte.

Definition intq_putc (byte : Z) : M S unit :=
  assert_intr_off;;;
  wait_loop wakeups NotFull;;;
  let* x := load q in
  let* _ := deref (buf x !! Z.to_nat (head x)) in
  update (λ x, mk_intq (q_lock x) (not_full x) (not_empty x) (<[Z.to_nat (head x) := u8 byte]> (buf x)) (head x) (tail x));;;
  update (λ x, mk_intq (q_lock x) (not_full x) (not_empty x) (buf x) (next (head x)) (tail x));;;
  signal NotEmpty.

(** ** input.c: the queue of keys *)

Section input.
(** serial_notify() of devices/serial.c. *)
Context (serial_notify : M S unit).

Definition input_init : M S unit := intq_init.

Definition input_putc (key : Z) : M S unit :=
  assert_intr_off;;;
  let* full := intq_full in
  assert (negb full);;;
  intq_putc key;;;
  serial_notify.

Definition input_getc : M S Z :=
  let* old_level := on_sched intr_disable in
  let* key := intq_getc in
  serial_notify;;;
  let* _ := on_sched (intr_set_level old_level) in
  ret key.

Definition input_full : M S bool :=
  assert_intr_off;;;
  intq_full.
End input.

(** ** The queue as a sequence *)

(** How many bytes it holds, and the bytes. *)
Definition count (x : intq) : Z := (head x - tail x) mod INTQ_BUFSIZE.
Definition contents (x : intq) : list Z :=
  (λ i, default 0 (buf x !! Z.to_nat ((tail x + i) mod INTQ_BUFSIZE))) <$> seqZ 0 (count x).

Definition wf (x : intq) : Prop :=
  zlen (buf x) = INTQ_BUFSIZE ∧ 0 <= head x < INTQ_BUFSIZE ∧ 0 <= tail x < INTQ_BUFSIZE.

Lemma next_mod p : 0 <= p < INTQ_BUFSIZE → next p = (p + 1) mod INTQ_BUFSIZE ∧ 0 <= next p < INTQ_BUFSIZE.
Proof. intros Hp. unfold next, INTQ_BUFSIZE in *. rewrite Z.rem_mod_nonneg by lia. dlia. Qed.

Lemma zlen_contents x : zlen (contents x) = count x.
Proof. unfold contents, zlen. rewrite length_fmap, length_seqZ. unfold count, INTQ_BUFSIZE. dlia. Qed.

Lemma empty_contents x : wf x → (head x =? tail x) = true ↔ contents x = [].
Proof.
  intros (_ & Hh & Ht). rewrite Z.eqb_eq. pose proof (zlen_contents x) as Hz. unfold zlen in Hz. split.
  - intros E. destruct (contents x); [done|]. unfold count, INTQ_BUFSIZE in *. cbn [length] in Hz. dlia.
  - intros E. rewrite E in Hz. unfold count, INTQ_BUFSIZE in *. cbn [length] in Hz. dlia.
Qed.

Lemma full_contents x : wf x → (next (head x) =? tail x) = true ↔ zlen (contents x) = INTQ_BUFSIZE - 1.
Proof.
  intros (_ & Hh & Ht). rewrite Z.eqb_eq, zlen_contents. destruct (next_mod (head x) Hh) as [-> _].
  unfold count, INTQ_BUFSIZE in *. dlia.
Qed.

Lemma contents_room x : wf x → zlen (contents x) <= INTQ_BUFSIZE - 1.
Proof. intros _. rewrite zlen_contents. unfold count, INTQ_BUFSIZE. dlia. Qed.

(** Taking the first byte. *)
Definition popped (x : intq) : intq := mk_intq (q_lock x) (not_full x) (not_empty x) (buf x) (head x) (next (tail x)).

Lemma pop_contents x : wf x → head x ≠ tail x → wf (popped x) ∧
  ∃ b, buf x !! Z.to_nat (tail x) = Some b ∧ contents x = b :: contents (popped x).
Proof.
  intros (Hb & Hh & Ht) Hne. destruct (next_mod (tail x) Ht) as [En Hn]. split; [done|].
  destruct (lookup_lt_is_Some_2 (buf x) (Z.to_nat (tail x))) as [b Eb]; [unfold zlen, INTQ_BUFSIZE in *; lia|].
  exists b. split; [done|]. unfold contents. cbn [popped buf tail].
  assert (count x = Z.succ (count (popped x)) ∧ 0 <= count (popped x)) as [-> Hc]
    by (unfold count; cbn [popped head tail]; rewrite En; unfold INTQ_BUFSIZE in *; dlia).
  rewrite seqZ_cons by lia. cbn [fmap list_fmap]. rewrite Z.add_0_r, (Z.mod_small (tail x)), Eb by done. cbn [default].
  f_equal. replace (Z.pred (Z.succ (count (popped x)))) with (count (popped x)) by lia.
  rewrite <- (fmap_add_seqZ 1 0), <- list_fmap_compose. apply list_fmap_ext. intros i z Hz.
  apply lookup_seqZ in Hz as [-> Hz]. cbn. rewrite En.
  replace ((tail x + (1 + (0 + Z.of_nat i))) mod INTQ_BUFSIZE) with (((tail x + 1) mod INTQ_BUFSIZE + (0 + Z.of_nat i)) mod INTQ_BUFSIZE)
    by (unfold INTQ_BUFSIZE in *; dlia). done.
Qed.

(** Adding a byte at the end. *)
Definition pushed (b : Z) (x : intq) : intq :=
  mk_intq (q_lock x) (not_full x) (not_empty x) (<[Z.to_nat (head x) := b]> (buf x)) (next (head x)) (tail x).

Lemma push_contents b x : wf x → next (head x) ≠ tail x → wf (pushed b x) ∧ contents (pushed b x) = contents x ++ [b].
Proof.
  intros (Hb & Hh & Ht) Hne. destruct (next_mod (head x) Hh) as [En Hn].
  split; [split; [cbn; unfold zlen; by rewrite length_insert|done]|].
  unfold contents. cbn [pushed buf tail].
  assert (count (pushed b x) = count x + 1 ∧ 0 <= count x < INTQ_BUFSIZE - 1) as [-> Hc]
    by (unfold count; cbn [pushed head tail]; rewrite En in *; unfold INTQ_BUFSIZE in *; dlia).
  rewrite seqZ_app by lia. rewrite fmap_app. f_equal.
  - apply list_fmap_ext. intros i z Hz. apply lookup_seqZ in Hz as [-> Hz]. rewrite list_lookup_insert_ne; [done|].
    unfold count, INTQ_BUFSIZE in *. dlia.
  - change (seqZ (0 + count x) 1) with [0 + count x]. cbn [fmap list_fmap]. f_equal.
    replace ((tail x + (0 + count x)) mod INTQ_BUFSIZE) with (head x) by (unfold count, INTQ_BUFSIZE in *; dlia).
    rewrite list_lookup_insert_eq; [done|]. unfold zlen, INTQ_BUFSIZE in *. lia.
Qed.

End code.

(** ** Calls that block *)

(** A call runs in segments: from its start, or from where it is resumed, to
    the next point where it blocks, or to its end.  Every segment that ends by
    blocking is a step [stut], and the last one is a [Q]. *)
Section segments.
Context {S : Type} (stut : S → S → Prop) `{!PreOrder stut}.

Fixpoint segments {A} (Q : S → A → S → Prop) (s0 : S) (o : outcome S A) : Prop :=
  match o with
  | Ok (a, s) => Q s0 a s
  | Blocked s r => stut s0 s ∧ ∀ s1, segments Q s1 (r s1)
  | _ => True
  end.

Definition runs {A} (Q : S → A → S → Prop) (m : M S A) : Prop := ∀ s, segments Q s (m s).
Definition quiet {A} (m : M S A) : Prop := runs (λ s _ s', stut s s') m.

Lemma segments_shift {A} (Q : S → A → S → Prop) s0 s1 o :
  stut s0 s1 → (∀ a s', Q s1 a s' → Q s0 a s') → segments Q s1 o → segments Q s0 o.
Proof.
  intros Hs HQ. destruct o as [[a s]| | |s r|]; cbn [segments]; try done; [apply HQ|].
  intros [H1 H2]. split; [by transitivity s1|done].
Qed.

Lemma segments_bind {A B} (R : S → A → S → Prop) (Q : S → B → S → Prop) (k : A → M S B) s0 o :
  segments R s0 o → (∀ s a s1, R s a s1 → segments Q s (k a s1)) → segments Q s0 (obind o k).
Proof.
  intros Ho Hk. revert s0 Ho. induction o as [[a s]| | |s r IH|]; intros s0; cbn [segments obind]; try done; [apply Hk|].
  intros [H1 H2]. split; [done|]. intros s1. apply IH, H2.
Qed.

(** A last segment that may be preceded by [stut]. *)
Definition absorbs {A} (Q : S → A → S → Prop) : Prop := ∀ s s1 a s2, stut s s1 → Q s1 a s2 → Q s a s2.

Lemma quiet_absorbs {A} : absorbs (λ s (_ : A) s', stut s s').
Proof. intros s s1 a s2 H1 H2. by transitivity s1. Qed.

Lemma runs_bind {A B} (Q : S → B → S → Prop) (m : M S A) (k : A → M S B) :
  absorbs Q → quiet m → (∀ a, runs Q (k a)) → runs Q (bind m k).
Proof.
  intros Ha Hm Hk s. eapply segments_bind; [apply Hm|]. intros s1 a s2 Hs. cbv beta in Hs.
  eapply segments_shift; [done| |apply Hk]. intros b s'. by apply Ha.
Qed.

Lemma quiet_bind {A B} (m : M S A) (k : A → M S B) : quiet m → (∀ a, quiet (k a)) → quiet (bind m k).
Proof. apply runs_bind, quiet_absorbs. Qed.

Lemma quiet_ret {A} (a : A) : quiet (ret a).
Proof. intros s. cbn. reflexivity. Qed.
Lemma quiet_get : quiet get.
Proof. intros s. cbn. reflexivity. Qed.
Lemma quiet_gets {A} (f : S → A) : quiet (gets f).
Proof. intros s. cbn. reflexivity. Qed.
Lemma quiet_modify (f : S → S) : (∀ s, stut s (f s)) → quiet (modify f).
Proof. intros Hf s. apply Hf. Qed.
Lemma quiet_assert b : quiet (assert b).
Proof. intros s. destruct b; cbn; [reflexivity|done]. Qed.
Lemma quiet_deref {A} (o : option A) : quiet (deref o).
Proof. intros s. destruct o; cbn; [reflexivity|done]. Qed.
Lemma quiet_no_fuel {A} : quiet (A := A) no_fuel.
Proof. done. Qed.
Lemma quiet_suspend : quiet suspend.
Proof. intros s. cbn. split; [reflexivity|]. intros s1. reflexivity. Qed.
Lemma quiet_lift {T A} (view : S → T) put (m : M T A) : (∀ t s, stut s (put t s)) → quiet (lift view put m).
Proof.
  intros Hp s. unfold lift. generalize (m (view s)). intros o. revert s.
  induction o as [[a t]| | |t r IH|]; intros s; cbn; auto.
Qed.
End segments.

Lemma segments_weaken {S A} (stut stut' : S → S → Prop) (Q Q' : S → A → S → Prop) s o :
  (∀ s s', stut s s' → stut' s s') → (∀ s a s', Q s a s' → Q' s a s') →
  segments stut Q s o → segments stut' Q' s o.
Proof.
  intros Hs HQ. revert s. induction o as [[a s1]| | |s1 r IH|]; intros s; cbn [segments]; try done; [apply HQ|].
  intros [H1 H2]. split; [by apply Hs|]. intros s2. by apply IH.
Qed.

(** Code that returns without blocking. *)
Lemma segments_Ok {S A} (stut : S → S → Prop) (Q : S → A → S → Prop) s a s' :
  segments stut Q s (Ok (a, s')) → Q s a s'.
Proof. done. Qed.

Create HintDb quiet.
#[export] Hint Resolve quiet_bind quiet_ret quiet_get quiet_gets quiet_assert quiet_deref quiet_no_fuel quiet_suspend : quiet.

(** ** No operation but the two disturbs the bytes *)

(** A part of the state that the operations on [q] leave alone. *)
Class Apart {S : Type} `{Kernel S} (q : ptr S intq) {T : Type} (rest : S → T) := {
  apart_sched : ∀ x s, rest (set_ksched x s) = rest s;
  apart_store : ∀ y s, rest (pstore q y s) = rest s
}.

#[global] Instance apart_nothing {S} `{Kernel S} (q : ptr S intq) : Apart q (λ _, tt).
Proof. by split. Qed.

Section calls.
Context {S : Type} `{Kernel S} (q : ptr S intq) `{!GoodPtr q}.
Context {T : Type} (rest : S → T) `{!Apart q rest}.

Definition data (x : intq) : list Z * Z * Z := (buf x, head x, tail x).

(** The bytes of the queue and their place are the same. *)
Definition same_data (s s' : S) : Prop := data <$> pload q s' = data <$> pload q s ∧ rest s' = rest s.

#[export] Instance same_data_preorder : PreOrder same_data.
Proof. split; [done|]. intros s1 s2 s3 [H1 H2] [H3 H4]. unfold same_data in *. by rewrite H3, H4. Qed.

Lemma same_data_sched x s : same_data s (set_ksched x s).
Proof. split; [by rewrite gp_load_sched|apply apart_sched]. Qed.

Lemma same_data_store s x y : pload q s = Some x → data y = data x → same_data s (pstore q y s).
Proof.
  intros Hx Hd. split; [|apply apart_store]. rewrite gp_load_store, Hx by (by rewrite Hx). cbn. by rewrite Hd.
Qed.

Lemma same_data_lock l s : same_data s (pstore (lock_ptr q) l s).
Proof. cbn. destruct (pload q s) as [x|] eqn:E; [|done]. by apply (same_data_store s x). Qed.

Lemma same_data_sema l s : same_data s (pstore (lock_sema (lock_ptr q)) l s).
Proof. cbn. destruct (pload q s) as [x|] eqn:E; cbn; [by apply (same_data_store s x)|done]. Qed.

#[local] Abbreviation quiet := (quiet same_data).

Lemma quiet_on_sched {A} (m : M sched A) : quiet (on_sched m).
Proof. unfold on_sched. apply quiet_lift. intros x s. apply same_data_sched. Qed.
#[local] Hint Resolve quiet_on_sched : quiet.

Lemma quiet_load {A} (p : ptr S A) : quiet (load p).
Proof. unfold load. auto with quiet typeclass_instances. Qed.
#[local] Hint Resolve quiet_load : quiet.

Lemma quiet_store {A} (p : ptr S A) a : (∀ s, same_data s (pstore p a s)) → quiet (store p a).
Proof. intros Hp. unfold store. apply quiet_bind; [apply _|auto with quiet|]. intros _. by apply quiet_modify. Qed.

Ltac quiet_step :=
  match goal with
  | |- ∀ _, _ => intro
  | |- Intq.quiet _ (bind _ _) => apply quiet_bind; [apply _| |]
  | |- Intq.quiet _ (store _ _) =>
      apply quiet_store; intro; first [apply same_data_sema | apply same_data_lock]
  | |- Intq.quiet _ (match ?x with _ => _ end) => destruct x
  | |- _ => solve [auto with quiet typeclass_instances]
  end.
Ltac quiet := repeat quiet_step.

Lemma quiet_sema_wait n : quiet (sema_wait n (lock_sema (lock_ptr q))).
Proof. induction n as [|n IH]; cbn [sema_wait]; quiet. Qed.
#[local] Hint Resolve quiet_sema_wait : quiet.

Lemma quiet_acquire : quiet (lock_acquire (lock_ptr q)).
Proof. unfold lock_acquire, lock_acquire_at, lock_held_by_current_thread, sema_down, sema_down_for, set_holder. quiet. Qed.

Lemma quiet_release : quiet (lock_release (lock_ptr q)).
Proof. unfold lock_release, lock_release_at, lock_held_by_current_thread, sema_up, set_holder. quiet. Qed.
#[local] Hint Resolve quiet_acquire quiet_release : quiet.

(** [update] does to the queue what it says. *)
Lemma queue_update_ok f s x : pload q s = Some x → update q f s = Ok (tt, pstore q (f x) s).
Proof.
  intros Hx. unfold update, store, load. rewrite bind_assoc, bind_get, (bind_deref _ _ _ _ Hx).
  by rewrite bind_assoc, bind_get, (bind_deref _ _ _ _ Hx).
Qed.

Lemma update_bad f s : pload q s = None → update q f s = Fault.
Proof. intros Hx. unfold update, load, bind, get, deref. cbn. by rewrite Hx. Qed.

Lemma quiet_update f : (∀ x, data (f x) = data x) → quiet (update q f).
Proof.
  intros Hf s. destruct (pload q s) as [x|] eqn:E; [|by rewrite update_bad].
  rewrite (queue_update_ok _ _ _ E). by apply (same_data_store s x).
Qed.

Lemma quiet_waiter w t : quiet (update q (set_waiter w t)).
Proof. apply quiet_update. by destruct w. Qed.
#[local] Hint Resolve quiet_waiter : quiet.

Lemma quiet_must_wait w : quiet (must_wait q w).
Proof. destruct w; cbn [must_wait]; unfold intq_full, intq_empty, assert_intr_off; quiet. Qed.
#[local] Hint Resolve quiet_must_wait : quiet.

Lemma quiet_wait w : quiet (wait q w).
Proof. unfold wait, assert_no_context, assert_intr_off. quiet. Qed.

Lemma quiet_signal w : quiet (signal q w).
Proof. unfold signal, assert_intr_off. quiet. Qed.
#[local] Hint Resolve quiet_wait quiet_signal : quiet.

(** What the operations wait for. *)
Definition closed (w : which) (x : intq) : bool :=
  match w with NotFull => next (head x) =? tail x | NotEmpty => head x =? tail x end.

Lemma must_wait_runs w :
  runs same_data (λ s b s', same_data s s' ∧ ∀ x, pload q s' = Some x → b = closed w x) (must_wait q w).
Proof.
  assert (∀ f : intq → bool, runs same_data (λ s b s', same_data s s' ∧ ∀ x, pload q s' = Some x → b = f x)
    (assert_intr_off;;; let* x := load q in ret (f x))) as Hf; [|by destruct w; apply Hf].
  intros f. apply runs_bind; [apply _| |unfold assert_intr_off; quiet|].
  { intros s s1 b s2 H1 [H2 H3]. split; [by transitivity s1|done]. }
  intros _ s. unfold load. rewrite bind_assoc, bind_get. destruct (pload q s) as [x|] eqn:E; [|done].
  cbn. split; [done|]. intros y Hy. congruence.
Qed.

Lemma wait_loop_runs w n :
  runs same_data (λ s _ s', same_data s s' ∧ ∀ x, pload q s' = Some x → closed w x = false) (wait_loop q n w).
Proof.
  assert (absorbs same_data (λ s (_ : unit) s', same_data s s' ∧ ∀ x, pload q s' = Some x → closed w x = false)) as Ha
    by (intros s s1 b s2 H1 [H2 H3]; split; [by transitivity s1|done]).
  induction n as [|n IH]; cbn [wait_loop]; intros s; (eapply segments_bind; [apply must_wait_runs|]);
    intros s1 b s2 [Hs Hb]; destruct b; try done.
  - cbn. split; [done|]. intros x Hx. by rewrite <- (Hb x Hx).
  - eapply segments_shift; [apply _|exact Hs|intros a s'; by apply Ha|].
    unfold assert_no_context. repeat (apply runs_bind; [apply _|done|quiet|intros ?]). apply IH.
  - cbn. split; [done|]. intros x Hx. by rewrite <- (Hb x Hx).
Qed.

Lemma data_contents x y : data x = data y → (wf x ↔ wf y) ∧ contents x = contents y ∧ ∀ w, closed w x = closed w y.
Proof.
  destruct x, y. unfold data. cbn. intros [= -> -> ->]. split; [done|]. split; [done|]. by intros [].
Qed.

(** ** What the two operations do to the bytes *)

Definition got (s : S) (b : Z) (s' : S) : Prop :=
  rest s' = rest s ∧
  ∀ x, pload q s = Some x → wf x → ∃ x', pload q s' = Some x' ∧ wf x' ∧ contents x = b :: contents x'.
Definition put (b : Z) (s : S) (_ : unit) (s' : S) : Prop :=
  rest s' = rest s ∧
  ∀ x, pload q s = Some x → wf x → ∃ x', pload q s' = Some x' ∧ wf x' ∧ contents x' = contents x ++ [u8 b].

Lemma same_data_load s s' x : same_data s s' → pload q s = Some x → ∃ x', pload q s' = Some x' ∧ data x' = data x.
Proof.
  intros [Hs _] Hx. rewrite Hx in Hs. apply fmap_Some in Hs as (x' & Hx' & Hd). by exists x'.
Qed.

Lemma got_absorbs : absorbs same_data got.
Proof.
  intros s s1 b s2 Hs [Hr Hg]. split; [destruct Hs; congruence|].
  intros x Hx Hwf. destruct (same_data_load _ _ _ Hs Hx) as (x1 & Hx1 & Hd).
  destruct (data_contents _ _ Hd) as (Hw & <- & _). apply Hg; [done|by apply Hw].
Qed.

Lemma put_absorbs b : absorbs same_data (put b).
Proof.
  intros s s1 u s2 Hs [Hr Hg]. split; [destruct Hs; congruence|].
  intros x Hx Hwf. destruct (same_data_load _ _ _ Hs Hx) as (x1 & Hx1 & Hd).
  destruct (data_contents _ _ Hd) as (Hw & <- & _). apply Hg; [done|by apply Hw].
Qed.

(** signal() does not block. *)
Lemma signal_atomic w : atomic (signal q w).
Proof.
  pose proof thread_unblock_atomic. unfold signal, must_wait, intq_full, intq_empty, assert_intr_off, update, store, load, on_sched,
    intr_get_level. atomic.
Qed.

(** The end of both operations: the queue becomes [y], then signal(). *)
Lemma finish_runs {A} (Q : S → A → S → Prop) w x y s a :
  pload q s = Some x → (∀ s' x', pload q s' = Some x' → data x' = data y → rest s' = rest s → Q s a s') →
  segments same_data Q s ((signal q w;;; ret a) (pstore q y s)).
Proof.
  intros Hx HQ. set (s2 := pstore q y s). assert (pload q s2 = Some y) as Hy by (apply gp_load_store; by rewrite Hx).
  unfold bind. pose proof (quiet_signal w s2) as Hq. destruct (signal q w s2) as [[[] s3]| | |s3 r|] eqn:E; try done.
  - cbn in Hq |- *. destruct (same_data_load s2 s3 y Hq Hy) as (x3 & Hx3 & Hd). apply (HQ s3 x3); [done|done|].
    destruct Hq as [_ ->]. apply apart_store.
  - by apply signal_atomic in E.
Qed.

Lemma getc_runs : runs same_data got (intq_getc q).
Proof.
  unfold intq_getc. apply runs_bind; [apply _|apply got_absorbs|unfold assert_intr_off; quiet|]. intros _ s.
  eapply segments_bind; [apply wait_loop_runs|]. intros s0 u s1 [Hs Hopen].
  eapply segments_shift; [apply _|exact Hs|intros b s'; by apply got_absorbs|]. clear s0 s u Hs.
  unfold load. rewrite bind_assoc, bind_get. destruct (pload q s1) as [x|] eqn:Ex; [|done]. specialize (Hopen x eq_refl).
  rewrite (bind_deref _ x) by done. destruct (buf x !! Z.to_nat (tail x)) as [b|] eqn:Eb; [|done].
  rewrite (bind_deref _ b), (bind_ok _ _ _ _ _ (queue_update_ok _ _ _ Ex)) by done. fold (popped x).
  apply (finish_runs _ _ x); [done|]. intros s3 x3 Hx3 Hd Hr. split; [done|]. intros y Hy Hwf. rewrite Ex in Hy. injection Hy as <-.
  destruct (pop_contents x Hwf ltac:(by apply Z.eqb_neq)) as (Hwf' & b' & Eb' & Hc). rewrite Eb in Eb'. injection Eb' as <-.
  destruct (data_contents _ _ Hd) as (Hw3 & Hc3 & _). exists x3. split; [done|]. split; [by apply Hw3|]. by rewrite Hc3.
Qed.

Lemma putc_runs b : runs same_data (put b) (intq_putc q b).
Proof.
  unfold intq_putc. apply runs_bind; [apply _|apply put_absorbs|unfold assert_intr_off; quiet|]. intros _ s.
  eapply segments_bind; [apply wait_loop_runs|]. intros s0 u s1 [Hs Hopen].
  eapply segments_shift; [apply _|exact Hs|intros a s'; by apply put_absorbs|]. clear s0 s u Hs.
  unfold load. rewrite bind_assoc, bind_get. destruct (pload q s1) as [x|] eqn:Ex; [|done]. specialize (Hopen x eq_refl).
  rewrite (bind_deref _ x) by done. destruct (buf x !! Z.to_nat (head x)) as [b0|] eqn:Eb; [|done].
  rewrite (bind_deref _ b0), (bind_ok _ _ _ _ _ (queue_update_ok _ _ _ Ex)) by done.
  set (x1 := mk_intq _ _ _ _ _ _). set (s2 := pstore q x1 s1).
  assert (pload q s2 = Some x1) as Ex2 by (apply gp_load_store; by rewrite Ex).
  rewrite (bind_ok _ _ _ _ _ (queue_update_ok _ _ _ Ex2)). unfold s2. rewrite gp_store_store. unfold x1. cbn [q_lock not_full not_empty buf head tail].
  fold (pushed (u8 b) x).
  assert (segments same_data (put b) s1 ((signal q NotEmpty;;; ret tt) (pstore q (pushed (u8 b) x) s1))) as Hend.
  { apply (finish_runs _ _ x); [done|]. intros s3 x3 Hx3 Hd Hr. split; [done|]. intros y Hy Hwf. rewrite Ex in Hy. injection Hy as <-.
    destruct (push_contents (u8 b) x Hwf ltac:(by apply Z.eqb_neq)) as (Hwf' & Hc).
    destruct (data_contents _ _ Hd) as (Hw3 & Hc3 & _). exists x3. split; [done|]. split; [by apply Hw3|]. by rewrite Hc3. }
  revert Hend. unfold bind. pose proof (signal_atomic NotEmpty (pstore q (pushed (u8 b) x) s1)) as Ha.
  destruct (signal _ _ _) as [[[] s3]| | |s3 r|]; try done. by destruct (Ha s3 r).
Qed.

End calls.

Section fifo.
Context {S : Type} `{Kernel S} (q : ptr S intq) `{!GoodPtr q}.

#[local] Abbreviation same_data := (same_data q (λ _, tt)).
#[local] Abbreviation got := (got q (λ _, tt)).
#[local] Abbreviation put := (put q (λ _, tt)).

(** ** Interleavings *)

(** The state, the bytes put and got so far, in order, and the calls that are
    blocked, each with the rest of its code. *)
Record config := mk_config {
  st : S;
  ins : list Z;
  outs : list Z;
  getters : list (S → outcome S Z);
  putters : list (Z * (S → outcome S unit))
}.

(** A call of intq_getc() or intq_putc() by a thread or an interrupt handler,
    the resumption of a blocked one, or anything that does not touch the bytes
    of the queue. *)
Inductive qstep : config → config → Prop :=
| q_get s i o g p b s' : intq_getc q s = Ok (b, s') → qstep (mk_config s i o g p) (mk_config s' i (o ++ [b]) g p)
| q_get_block s i o g p s' r : intq_getc q s = Blocked s' r → qstep (mk_config s i o g p) (mk_config s' i o (r :: g) p)
| q_get_resume s i o g1 r g2 p b s' : r s = Ok (b, s') →
    qstep (mk_config s i o (g1 ++ r :: g2) p) (mk_config s' i (o ++ [b]) (g1 ++ g2) p)
| q_get_again s i o g1 r g2 p s' r' : r s = Blocked s' r' →
    qstep (mk_config s i o (g1 ++ r :: g2) p) (mk_config s' i o (g1 ++ r' :: g2) p)
| q_put s i o g p b s' : intq_putc q b s = Ok (tt, s') → qstep (mk_config s i o g p) (mk_config s' (i ++ [u8 b]) o g p)
| q_put_block s i o g p b s' r : intq_putc q b s = Blocked s' r → qstep (mk_config s i o g p) (mk_config s' i o g ((b, r) :: p))
| q_put_resume s i o g p1 b r p2 s' : r s = Ok (tt, s') →
    qstep (mk_config s i o g (p1 ++ (b, r) :: p2)) (mk_config s' (i ++ [u8 b]) o g (p1 ++ p2))
| q_put_again s i o g p1 b r p2 s' r' : r s = Blocked s' r' →
    qstep (mk_config s i o g (p1 ++ (b, r) :: p2)) (mk_config s' i o g (p1 ++ (b, r') :: p2))
| q_other s i o g p s' : data <$> pload q s' = data <$> pload q s → qstep (mk_config s i o g p) (mk_config s' i o g p).

(** What went in is what came out and what is left. *)
Definition fifo_inv (c : config) : Prop :=
  (∃ x, pload q (st c) = Some x ∧ wf x ∧ ins c = outs c ++ contents x) ∧
  Forall (λ r, ∀ s, segments same_data got s (r s)) (getters c) ∧
  Forall (λ br, ∀ s, segments same_data (put br.1) s (br.2 s)) (putters c).

Definition in_order (s : S) (i o : list Z) : Prop := ∃ x, pload q s = Some x ∧ wf x ∧ i = o ++ contents x.

Lemma in_order_same s s' i o : same_data s s' → in_order s i o → in_order s' i o.
Proof.
  intros Hs (x & Hx & Hwf & Hi). destruct (same_data_load _ _ _ _ _ Hs Hx) as (x' & Hx' & Hd).
  destruct (data_contents _ _ Hd) as (Hw & Hc & _). exists x'. split; [done|]. split; [by apply Hw|]. by rewrite Hc.
Qed.

Lemma in_order_got s b s' i o : got s b s' → in_order s i o → in_order s' i (o ++ [b]).
Proof.
  intros [_ Hg] (x & Hx & Hwf & Hi). destruct (Hg x Hx Hwf) as (x' & Hx' & Hwf' & Hc). exists x'.
  split; [done|]. split; [done|]. by rewrite Hi, Hc, <- app_assoc.
Qed.

Lemma in_order_put b s s' i o : put b s tt s' → in_order s i o → in_order s' (i ++ [u8 b]) o.
Proof.
  intros [_ Hg] (x & Hx & Hwf & Hi). destruct (Hg x Hx Hwf) as (x' & Hx' & Hwf' & Hc). exists x'.
  split; [done|]. split; [done|]. by rewrite Hi, Hc, <- app_assoc.
Qed.

Lemma qstep_inv c c' : fifo_inv c → qstep c c' → fifo_inv c'.
Proof.
  intros (Hin & Hg & Hp) Hstep. change (in_order (st c) (ins c) (outs c)) in Hin. unfold fifo_inv.
  assert (∀ s i o, in_order s i o → ∃ x, pload q s = Some x ∧ wf x ∧ i = o ++ contents x) as Hio by done.
  destruct Hstep as [s i o g p b s' E|s i o g p s' r E|s i o g1 r g2 p b s' E|s i o g1 r g2 p s' r' E
    |s i o g p b s' E|s i o g p b s' r E|s i o g p1 b r p2 s' E|s i o g p1 b r p2 s' r' E|s i o g p s' E]; cbn [st ins outs getters putters] in *.
  - pose proof (getc_runs q (λ _, tt) s) as Hr. rewrite E in Hr. split; [by eapply Hio, in_order_got|done].
  - pose proof (getc_runs q (λ _, tt) s) as Hr. rewrite E in Hr. destruct Hr as [Hs Hr].
    split; [by eapply Hio, in_order_same|]. split; [by constructor|done].
  - apply Forall_app in Hg as [Hg1 [Hr Hg2]%Forall_cons]. specialize (Hr s). rewrite E in Hr.
    split; [by eapply Hio, in_order_got|]. split; [by apply Forall_app|done].
  - apply Forall_app in Hg as [Hg1 [Hr Hg2]%Forall_cons]. specialize (Hr s). rewrite E in Hr. destruct Hr as [Hs Hr].
    split; [by eapply Hio, in_order_same|]. split; [|done]. apply Forall_app. split; [done|by constructor].
  - pose proof (putc_runs q (λ _, tt) b s) as Hr. rewrite E in Hr. split; [by eapply Hio, in_order_put|done].
  - pose proof (putc_runs q (λ _, tt) b s) as Hr. rewrite E in Hr. destruct Hr as [Hs Hr].
    split; [by eapply Hio, in_order_same|]. split; [done|by constructor].
  - apply Forall_app in Hp as [Hp1 [Hr Hp2]%Forall_cons]. specialize (Hr s). cbn in Hr. rewrite E in Hr.
    split; [by eapply Hio, in_order_put|]. split; [done|by apply Forall_app].
  - apply Forall_app in Hp as [Hp1 [Hr Hp2]%Forall_cons]. specialize (Hr s). cbn in Hr. rewrite E in Hr. destruct Hr as [Hs Hr].
    split; [by eapply Hio, in_order_same|]. split; [done|]. apply Forall_app. split; [done|by constructor].
  - split; [eapply Hio, in_order_same; [split; [exact E|done]|done]|done].
Qed.

(** ** Calls that need not wait *)

Section ready.
Context (s : S) (x : intq) (Hx : pload q s = Some x) (Hoff : intr_on (ksched s) = false).

Lemma off_ok {A} (k : unit → M S A) : bind assert_intr_off k s = k tt s.
Proof.
  unfold assert_intr_off. rewrite bind_assoc.
  assert (on_sched intr_get_level s = Ok (false, s)) as E
    by (rewrite (on_sched_ok _ _ false (ksched s)); [by rewrite set_ksched_same|unfold intr_get_level, gets; by rewrite Hoff]).
  rewrite (bind_ok _ _ _ _ _ E). done.
Qed.

Lemma must_wait_ok w : must_wait q w s = Ok (closed w x, s).
Proof.
  destruct w; cbn [must_wait]; unfold intq_full, intq_empty; rewrite off_ok; unfold load; rewrite bind_assoc, bind_get;
    by rewrite (bind_deref _ x).
Qed.

Lemma no_wait w n : closed w x = false → wait_loop q n w s = Ok (tt, s).
Proof. intros Hc. destruct n; cbn [wait_loop]; rewrite (bind_ok _ _ _ _ _ (must_wait_ok w)), Hc; done. Qed.

(** No one waits: signal() has nothing to do. *)
Lemma no_signal w : closed w x = false → waiter w x = None → signal q w s = Ok (tt, s).
Proof.
  intros Hc Hw. unfold signal. rewrite off_ok, (bind_ok _ _ _ _ _ (must_wait_ok w)), Hc, bind_assert by done.
  unfold load. rewrite bind_assoc, bind_get, (bind_deref _ x) by done. by rewrite Hw.
Qed.
End ready.

Lemma getc_ready s x b l : pload q s = Some x → wf x → intr_on (ksched s) = false → contents x = b :: l →
  not_full x = None → intq_getc q s = Ok (b, pstore q (popped x) s).
Proof.
  intros Hx Hwf Hoff Hc Hn. unfold intq_getc. rewrite (off_ok s Hoff).
  assert (closed NotEmpty x = false) as Hop
    by (cbn [closed]; apply not_true_is_false; rewrite (empty_contents x Hwf), Hc; done).
  rewrite (bind_ok _ _ _ _ _ (no_wait s x Hx Hoff NotEmpty wakeups Hop)).
  destruct (pop_contents x Hwf ltac:(by apply Z.eqb_neq)) as (Hwf' & b' & Eb & Hc'). rewrite Hc in Hc'. injection Hc' as <- Hl.
  unfold load. rewrite bind_assoc, bind_get, (bind_deref _ x), (bind_deref _ b) by done.
  rewrite (bind_ok _ _ _ _ _ (queue_update_ok q _ _ _ Hx)). fold (popped x).
  assert (pload q (pstore q (popped x) s) = Some (popped x)) as Hx2 by (apply gp_load_store; by rewrite Hx).
  assert (closed NotFull (popped x) = false) as Hop2.
  { apply not_true_is_false. cbn [closed]. rewrite (full_contents _ Hwf'). pose proof (contents_room x Hwf) as Hr.
    rewrite Hc, Hl in Hr. unfold zlen, INTQ_BUFSIZE in *. cbn [length] in Hr. lia. }
  by rewrite (bind_ok _ _ _ _ _ (no_signal _ _ Hx2 ltac:(by rewrite gp_sched_store) NotFull Hop2 Hn)).
Qed.

Lemma putc_ready s x b : pload q s = Some x → wf x → intr_on (ksched s) = false → zlen (contents x) < INTQ_BUFSIZE - 1 →
  not_empty x = None → intq_putc q b s = Ok (tt, pstore q (pushed (u8 b) x) s).
Proof.
  intros Hx Hwf Hoff Hc Hn. unfold intq_putc. rewrite (off_ok s Hoff).
  assert (closed NotFull x = false) as Hop
    by (cbn [closed]; apply not_true_is_false; rewrite (full_contents x Hwf); lia).
  rewrite (bind_ok _ _ _ _ _ (no_wait s x Hx Hoff NotFull wakeups Hop)).
  destruct (push_contents (u8 b) x Hwf ltac:(by apply Z.eqb_neq)) as (Hwf' & Hc').
  destruct (lookup_lt_is_Some_2 (buf x) (Z.to_nat (head x))) as [b0 Eb];
    [destruct Hwf as (Hb & Hh & _); unfold zlen, INTQ_BUFSIZE in *; lia|].
  unfold load. rewrite bind_assoc, bind_get, (bind_deref _ x), (bind_deref _ b0) by done.
  rewrite (bind_ok _ _ _ _ _ (queue_update_ok q _ _ _ Hx)). set (x1 := mk_intq _ _ _ _ _ _).
  assert (pload q (pstore q x1 s) = Some x1) as Hx1 by (apply gp_load_store; by rewrite Hx).
  rewrite (bind_ok _ _ _ _ _ (queue_update_ok q _ _ _ Hx1)), gp_store_store. unfold x1. cbn [q_lock not_full not_empty buf head tail].
  fold (pushed (u8 b) x).
  assert (pload q (pstore q (pushed (u8 b) x) s) = Some (pushed (u8 b) x)) as Hx2 by (apply gp_load_store; by rewrite Hx).
  apply (no_signal _ _ Hx2); [by rewrite gp_sched_store| |done].
  apply not_true_is_false. cbn [closed]. rewrite (empty_contents _ Hwf'), Hc'. by destruct (contents x).
Qed.

(** C28. Interrupt queues are first-in first-out.  From intq_init() on, however
    the calls of intq_getc() and intq_putc() of threads and interrupt handlers
    interleave, including calls that block and are resumed in any later state,
    the bytes put are the bytes got, in the same order, followed by the bytes
    still in the queue, which are at most 63.  A call that finds a byte, or
    room, and no thread to wake returns at once. *)
Theorem intq_fifo s s0 c x :
  pload q s = Some x → zlen (buf x) = INTQ_BUFSIZE → intq_init q s = Ok (tt, s0) →
  rtc qstep (mk_config s0 [] [] [] []) c →
  ∃ x', pload q (st c) = Some x' ∧ ins c = outs c ++ contents x' ∧ zlen (contents x') <= INTQ_BUFSIZE - 1 ∧
    (intr_on (ksched (st c)) = false →
     (∀ b l, contents x' = b :: l → not_full x' = None → ∃ s', intq_getc q (st c) = Ok (b, s')) ∧
     (∀ b, zlen (contents x') < INTQ_BUFSIZE - 1 → not_empty x' = None → ∃ s', intq_putc q b (st c) = Ok (tt, s'))).
Proof.
  intros Hx Hb Hinit Hrtc. assert (fifo_inv c) as ((x' & Hx' & Hwf & Hio) & _).
  { assert (fifo_inv (mk_config s0 [] [] [] [])) as H0.
    { unfold intq_init, lock_init in Hinit. rewrite bind_modify in Hinit.
      assert (pload q (pstore (lock_ptr q) new_lock s) = Some (set_lock new_lock x)) as H1
        by (cbn; rewrite Hx; apply gp_load_store; by rewrite Hx).
      rewrite (queue_update_ok q _ _ _ H1) in Hinit. injection Hinit as <-. split; [|done].
      eexists. cbn [st]. split; [apply gp_load_store; eexists; exact H1|]. split; [by repeat split|done]. }
    revert H0. induction Hrtc as [|c1 c2 c3 Hstep _ IH]; [done|]. intros H1. apply IH. by eapply qstep_inv. }
  exists x'. split; [done|]. split; [done|]. split; [by apply contents_room|]. intros Hoff. split.
  - intros b l Hc Hn. eexists. by eapply getc_ready.
  - intros b Hc Hn. eexists. by eapply putc_ready.
Qed.
End fifo.

(** ** A machine with one queue *)

#[global, program] Instance kernel_intq : Kernel (kernel * intq) := {|
  kget := fst;
  kset := λ k s, (k, snd s)
|}.
Next Obligation. done. Qed.
Next Obligation. by intros []. Qed.
Next Obligation. done. Qed.

Definition the_queue : ptr (kernel * intq) intq := mk_ptr (λ s, Some (snd s)) (λ x s, (fst s, x)).

#[global] Instance the_queue_good : GoodPtr the_queue.
Proof. split; try done. by intros [? ?] ? [= <-]. Qed.

Definition raw_queue : intq := mk_intq new_lock (Some 7) None (replicate 64 170) 9 30.

(** Threads 1, running, 2 and 3, ready, with interrupts off. *)
Definition demo_threads : M sched unit :=
  thread_init;;; init_thread 2 [50] PRI_DEFAULT;;; thread_unblock 2;;; init_thread 3 [51] PRI_DEFAULT;;; thread_unblock 3.
Definition demo_machine : kernel * intq :=
  match demo_threads power_on with Ok (_, x) => (mk_kernel x ∅ [], raw_queue) | _ => (mk_kernel power_on ∅ [], raw_queue) end.

Definition demo_q0 := result_of (intq_init the_queue demo_machine) demo_machine.
(** Thread 1 waits for a byte; an interrupt handler adds two. *)
Definition demo_q1 := result_of (intq_getc the_queue demo_q0) demo_q0.
Definition demo_q1_rest := rest_of (intq_getc the_queue demo_q0).
Definition demo_q2 := result_of (intq_putc the_queue 65 demo_q1) demo_q1.
Definition demo_q3 := result_of (intq_putc the_queue 66 demo_q2) demo_q2.

Lemma demo_inits : intq_init the_queue demo_machine = Ok (tt, demo_q0).
Proof. refine (is_ok_eq (intq_init the_queue demo_machine) demo_machine _). vm_compute. reflexivity. Qed.
Lemma demo_waits : intq_getc the_queue demo_q0 = Blocked demo_q1 demo_q1_rest.
Proof. refine (is_blocked_eq (intq_getc the_queue demo_q0) demo_q0 _). vm_compute. reflexivity. Qed.
Lemma demo_put1 : intq_putc the_queue 65 demo_q1 = Ok (tt, demo_q2).
Proof. refine (is_ok_eq (intq_putc the_queue 65 demo_q1) demo_q1 _). vm_compute. reflexivity. Qed.
Lemma demo_put2 : intq_putc the_queue 66 demo_q2 = Ok (tt, demo_q3).
Proof. refine (is_ok_eq (intq_putc the_queue 66 demo_q2) demo_q2 _). vm_compute. reflexivity. Qed.
Lemma demo_off : intr_on (ksched demo_q3) = false.
Proof. vm_compute. reflexivity. Qed.

Lemma demo_steps : rtc (qstep the_queue) (mk_config demo_q0 [] [] [] []) (mk_config demo_q3 [65; 66] [] [demo_q1_rest] []).
Proof.
  eapply rtc_l; [exact (q_get_block the_queue demo_q0 [] [] [] [] demo_q1 demo_q1_rest demo_waits)|].
  eapply rtc_l; [exact (q_put the_queue demo_q1 [] [] [demo_q1_rest] [] 65 demo_q2 demo_put1)|].
  apply rtc_once, (q_put the_queue demo_q2 [65] [] [demo_q1_rest] [] 66 demo_q3 demo_put2).
Qed.

#[local] Opaque demo_q0 demo_q1 demo_q2 demo_q3.

Lemma intq_fifo_witness :
  ∃ x', pload the_queue demo_q3 = Some x' ∧ [65; 66] = contents x' ∧
    ∀ b, zlen (contents x') < INTQ_BUFSIZE - 1 → not_empty x' = None → ∃ s', intq_putc the_queue b demo_q3 = Ok (tt, s').
Proof.
  destruct (intq_fifo the_queue demo_machine demo_q0 (mk_config demo_q3 [65; 66] [] [demo_q1_rest] []) raw_queue
    eq_refl eq_refl demo_inits demo_steps) as (x' & Hx' & Hio & _ & Hready).
  exists x'. split; [exact Hx'|]. split; [exact Hio|]. exact (proj2 (Hready demo_off)).
Defined.

(** Thread 1 waits for a byte; thread 2 waits for the lock thread 1 holds; an
    interrupt handler adds two bytes; thread 1 takes the first one; thread 2
    runs again. *)
Definition two_readers (s : kernel * intq) : outcome (kernel * intq) Z :=
  match intq_getc the_queue s with
  | Blocked s1 r1 =>
      match intq_getc the_queue s1 with
      | Blocked s2 r2 =>
          match (intq_putc the_queue 65;;; intq_putc the_queue 66;;; on_sched thread_yield_switch) s2 with
          | Ok (_, s3) =>
              match r1 s3 with
              | Ok (_, s4) =>
                  match (on_sched thread_yield_switch;;; on_sched thread_yield_switch) s4 with
                  | Ok (_, s5) => if me s5 =? 2 then r2 s5 else NoFuel
                  | _ => NoFuel
                  end
              | _ => NoFuel
              end
          | _ => NoFuel
          end
      | _ => NoFuel
      end
  | _ => NoFuel
  end.

(** Two threads that wait for input panic the kernel.  intq_getc() tests
    the queue before it takes the lock and not again: when two bytes arrive
    while one thread waits for a byte and another for the lock, the second
    thread gets the lock with a byte still in the queue, and wait() fails its
    ASSERT that the queue is empty. *)
Theorem intq_two_readers_panic : two_readers demo_q0 = Panic.
Proof. vm_compute. reflexivity. Qed.

End Intq.
