(* ===== verification/Serial.v ===== *)
(** * Serial: the serial port and the keyboard's buffer (devices/serial.c)

    The state holds the scheduler, the transmit queue [txq] of serial.c, the
    input buffer of input.c and the registers of the machine as the driver
    sees them: [ports] is the sequence of its port writes, [answers] what its
    port reads will return.  A driver that reads a port more often than there
    are answers is beyond the model.

    The theorem on order interprets the port writes as a 16550A UART does: a
    write to the transmitter holding register sends a byte unless the divisor
    latch is selected. *)

From Stdlib Require Import ZArith Lia.
From stdpp Require Import base tactics option list numbers gmap.
From S2P Require Import Prelude Sched Synch Intq.
Import Sched Synch Intq.

Module Serial.

Definition IO_BASE : Z := 1016.          (* 0x3f8 *)
Definition RBR_REG : Z := IO_BASE + 0.
Definition THR_REG : Z := IO_BASE + 0.
Definition IER_REG : Z := IO_BASE + 1.
Definition LS_REG : Z := IO_BASE + 0.
Definition MS_REG : Z := IO_BASE + 1.
Definition IIR_REG : Z := IO_BASE + 2.
Definition FCR_REG : Z := IO_BASE + 2.
Definition LCR_REG : Z := IO_BASE + 3.
Definition MCR_REG : Z := IO_BASE + 4.
Definition LSR_REG : Z := IO_BASE + 5.
Definition IER_RECV : Z := 1.
Definition IER_XMIT : Z := 2.
Definition LCR_N81 : Z := 3.
Definition LCR_DLAB : Z := 128.
Definition MCR_OUT2 : Z := 8.
Definition LSR_DR : Z := 1.
Definition LSR_THRE : Z := 32.

Inductive transmission := UNINIT | POLL | QUEUE.
#[global] Instance transmission_eq_dec : EqDecision transmission.
Proof. solve_decision. Defined.

Record uart := mk_uart {
  u_kernel : kernel;
  mode : transmission;
  txq : intq;
  buffer : intq;
  ports : list (Z * Z);
  answers : list Z
}.

#[global, program] Instance kernel_uart : Kernel uart := {|
  kget := u_kernel;
  kset := λ k s, mk_uart k (mode s) (txq s) (buffer s) (ports s) (answers s)
|}.
Next Obligation. done. Qed.
Next Obligation. by intros []. Qed.
Next Obligation. done. Qed.

(** [&txq] and [&buffer]. *)
Definition p_txq : ptr uart intq :=
  mk_ptr (λ s, Some (txq s)) (λ x s, mk_uart (u_kernel s) (mode s) x (buffer s) (ports s) (answers s)).
Definition p_buffer : ptr uart intq :=
  mk_ptr (λ s, Some (buffer s)) (λ x s, mk_uart (u_kernel s) (mode s) (txq s) x (ports s) (answers s)).

Definition set_mode (m : transmission) : M uart unit :=
  modify (λ s, mk_uart (u_kernel s) m (txq s) (buffer s) (ports s) (answers s)).

(** threads/io.h *)
Definition outb (port data : Z) : M uart unit :=
  modify (λ s, mk_uart (u_kernel s) (mode s) (txq s) (buffer s) (ports s ++ [(port, u8 data)]) (answers s)).
Definition inb (port : Z) : M uart Z :=
  let* s := get in
  match answers s with
  | [] => no_fuel
  | a :: l => modify (λ s, mk_uart (u_kernel s) (mode s) (txq s) (buffer s) (ports s) l);;; ret (u8 a)
  end.

Definition set_serial (bps : Z) : M uart unit :=
  let base_rate := Z.quot 1843200 16 in
  let divisor := u16 (Z.quot base_rate bps) in
  assert ((bps >=? 300) && (bps <=? 115200));;;
  outb LCR_REG (Z.lor LCR_N81 LCR_DLAB);;;
  outb LS_REG (Z.land divisor 255);;;
  outb MS_REG (Z.shiftr divisor 8);;;
  outb LCR_REG LCR_N81.

Definition init_poll : M uart unit :=
  let* s := get in
  assert (bool_decide (mode s = UNINIT));;;
  outb IER_REG 0;;;
  outb FCR_REG 0;;;
  set_serial 9600;;;
  outb MCR_REG MCR_OUT2;;;
  intq_init p_txq;;;
  set_mode POLL.

Definition write_ier : M uart unit :=
  assert_intr_off;;;
  let* empty := intq_empty p_txq in
  let ier := if negb empty then Z.lor 0 IER_XMIT else 0 in
  let* full := input_full p_buffer in
  let ier := if negb full then Z.lor ier IER_RECV else ier in
  outb IER_REG ier.

(** [while ((inb (LSR_REG) & LSR_THRE) == 0)], with one round per answer. *)
Fixpoint poll_loop (n : nat) : M uart unit :=
  let* lsr := inb LSR_REG in
  if Z.land lsr LSR_THRE =? 0 then match n with O => no_fuel | Datatypes.S n => poll_loop n end
  else ret tt.

Definition putc_poll (byte : Z) : M uart unit :=
  assert_intr_off;;;
  let* s := get in
  poll_loop (length (answers s));;;
  outb THR_REG byte.

(** The registration of the handler is left out. *)
Definition serial_init_queue : M uart unit :=
  let* s := get in
  (if bool_decide (mode s = UNINIT) then init_poll else ret tt);;;
  let* s := get in
  assert (bool_decide (mode s = POLL));;;
  set_mode QUEUE;;;
  let* old_level := on_sched intr_disable in
  write_ier;;;
  let* _ := on_sched (intr_set_level old_level) in
  ret tt.

Definition serial_putc (byte : Z) : M uart unit :=
  let* old_level := on_sched intr_disable in
  let* s := get in
  (if negb (bool_decide (mode s = QUEUE)) then
     (if bool_decide (mode s = UNINIT) then init_poll else ret tt);;;
     putc_poll byte
   else
     let* stuck := (if negb old_level then intq_full p_txq else ret false) in
     (if stuck : bool then let* b := intq_getc p_txq in putc_poll b else ret tt);;;
     intq_putc p_txq byte;;;
     write_ier);;;
  let* _ := on_sched (intr_set_level old_level) in
  ret tt.

(** The queue holds at most 63 bytes and no one adds any meanwhile. *)
Fixpoint flush_loop (n : nat) : M uart unit :=
  let* empty := intq_empty p_txq in
  if negb empty then
    match n with
    | O => no_fuel
    | Datatypes.S n => let* b := intq_getc p_txq in putc_poll b;;; flush_loop n
    end
  else ret tt.

Definition serial_flush : M uart unit :=
  let* old_level := on_sched intr_disable in
  flush_loop 63;;;
  let* _ := on_sched (intr_set_level old_level) in
  ret tt.

Definition serial_notify : M uart unit :=
  assert_intr_off;;;
  let* s := get in
  if bool_decide (mode s = QUEUE) then write_ier else ret tt.

(** [while (!input_full () && (inb (LSR_REG) & LSR_DR) != 0)]: the buffer takes
    at most 63 bytes. *)
Fixpoint receive_loop (n : nat) : M uart unit :=
  let* full := input_full p_buffer in
  let* more := (if negb full then let* lsr := inb LSR_REG in ret (negb (Z.land lsr LSR_DR =? 0)) else ret false) in
  if more : bool then
    match n with
    | O => no_fuel
    | Datatypes.S n => let* b := inb RBR_REG in input_putc p_buffer serial_notify b;;; receive_loop n
    end
  else ret tt.

Fixpoint transmit_loop (n : nat) : M uart unit :=
  let* empty := intq_empty p_txq in
  let* more := (if negb empty then let* lsr := inb LSR_REG in ret (negb (Z.land lsr LSR_THRE =? 0)) else ret false) in
  if more : bool then
    match n with
    | O => no_fuel
    | Datatypes.S n => let* b := intq_getc p_txq in outb THR_REG b;;; transmit_loop n
    end
  else ret tt.

Definition serial_interrupt : M uart unit :=
  let* _ := inb IIR_REG in
  receive_loop 63;;;
  transmit_loop 63;;;
  write_ier.

(** ** The UART *)

(** A port write, on whether the divisor latch is selected and the bytes sent. *)
Definition port_write (d : bool * list Z) (pv : Z * Z) : bool * list Z :=
  if pv.1 =? LCR_REG then (Z.testbit pv.2 7, d.2)
  else if (pv.1 =? THR_REG) && negb d.1 then (d.1, d.2 ++ [pv.2])
  else d.
Definition line (l : list (Z * Z)) : bool * list Z := fold_left port_write l (false, []).

(** The bytes given to the port so far: those sent, then those queued. *)
Definition given (s : uart) : list Z := (line (ports s)).2 ++ contents (txq s).

Record uart_inv (s : uart) : Prop := {
  ui_latch : (line (ports s)).1 = false;
  ui_queue : wf (txq s);
  ui_bytes : Forall in_u8 (contents (txq s));
  ui_idle : mode s ≠ QUEUE → contents (txq s) = []
}.

#[global] Instance p_txq_good : GoodPtr p_txq.
Proof. split; try done. by intros [] ? [= <-]. Qed.
#[global] Instance p_buffer_good : GoodPtr p_buffer.
Proof. split; try done. by intros [] ? [= <-]. Qed.

(** What the operations on each queue leave alone. *)
Definition beside_txq (s : uart) := (mode s, ports s).
Definition beside_buffer (s : uart) := (mode s, ports s, txq s).
#[global] Instance txq_apart : Apart p_txq beside_txq.
Proof. by split. Qed.
#[global] Instance buffer_apart : Apart p_buffer beside_buffer.
Proof. by split. Qed.

(** A step that neither adds nor loses a byte, and one that adds [b]. *)
Definition keeps (s s' : uart) : Prop :=
  uart_inv s → uart_inv s' ∧ given s' = given s ∧ mode s' = mode s.
Definition gives (b : Z) (s : uart) (_ : unit) (s' : uart) : Prop :=
  uart_inv s → mode s = QUEUE → uart_inv s' ∧ given s' = given s ++ [u8 b] ∧ mode s' = QUEUE.

#[export] Instance keeps_preorder : PreOrder keeps.
Proof.
  split; [done|]. intros s1 s2 s3 H1 H2 Hi. destruct (H1 Hi) as (Hi2 & E1 & M1). destruct (H2 Hi2) as (Hi3 & E2 & M2).
  split; [done|]. split; congruence.
Qed.

Lemma gives_absorbs b : absorbs keeps (gives b).
Proof.
  intros s s1 u s2 H1 H2 Hi Hm. destruct (H1 Hi) as (Hi1 & E1 & M1). rewrite <- E1. apply H2; [done|congruence].
Qed.

(** Neither the queue nor the line changes. *)
Lemma keeps_same s s' : mode s' = mode s → data (txq s') = data (txq s) → line (ports s') = line (ports s) → keeps s s'.
Proof.
  intros Hm Hd Hl [H1 H2 H2b H3]. destruct (data_contents _ _ Hd) as (Hw & Hc & _). unfold given. rewrite Hc, Hl.
  split; [|done]. split; [by rewrite Hl|by apply Hw|by rewrite Hc|rewrite Hm, Hc; done].
Qed.

Lemma keeps_txq s s' : same_data p_txq beside_txq s s' → keeps s s'.
Proof. intros [[= Hb Hh Ht] [= Hm Hp]]. apply keeps_same; [done|unfold data; congruence|by rewrite Hp]. Qed.

Lemma keeps_buffer s s' : beside_buffer s' = beside_buffer s → keeps s s'.
Proof. intros [= Hm Hp Hx]. apply keeps_same; [done|by rewrite Hx|by rewrite Hp]. Qed.

#[local] Abbreviation quiet := (quiet keeps).

Lemma quiet_txq {A} (m : M uart A) : Intq.quiet (same_data p_txq beside_txq) m → quiet m.
Proof. intros Hm s. eapply segments_weaken; [apply keeps_txq| |apply Hm]. intros s1 a s2. apply keeps_txq. Qed.

Lemma quiet_sched {A} (m : M sched A) : quiet (on_sched m).
Proof. apply quiet_txq, quiet_on_sched; apply _. Qed.
#[local] Hint Resolve quiet_sched : quiet.

Lemma quiet_off : quiet assert_intr_off.
Proof. unfold assert_intr_off. auto with quiet typeclass_instances. Qed.

Lemma quiet_empty : quiet (intq_empty p_txq).
Proof. apply quiet_txq, (quiet_must_wait p_txq beside_txq NotEmpty). Qed.
Lemma quiet_full : quiet (intq_full p_txq).
Proof. apply quiet_txq, (quiet_must_wait p_txq beside_txq NotFull). Qed.

Lemma quiet_buffer {A} (m : M uart A) : Intq.quiet (same_data p_buffer beside_buffer) m → quiet m.
Proof.
  intros Hm s. eapply segments_weaken; [| |apply Hm]; [intros s1 s2 [_ Hr]|intros s1 a s2 [_ Hr]]; by apply keeps_buffer.
Qed.

Lemma quiet_buffer_full : quiet (intq_full p_buffer).
Proof. apply quiet_buffer, (quiet_must_wait p_buffer beside_buffer NotFull). Qed.

Lemma quiet_input_full : quiet (input_full p_buffer).
Proof. unfold input_full. apply quiet_bind; [apply _|apply quiet_off|]. intros _. apply quiet_buffer_full. Qed.

Lemma quiet_input_put b : quiet (intq_putc p_buffer b).
Proof.
  intros s. eapply segments_weaken; [| |apply (putc_runs p_buffer beside_buffer)].
  - intros s1 s2 [_ Hr]. by apply keeps_buffer.
  - intros s1 [] s2 [Hr _]. by apply keeps_buffer.
Qed.

Lemma line_app l pv : line (l ++ [pv]) = port_write (line l) pv.
Proof. unfold line. by rewrite fold_left_app. Qed.

Lemma quiet_outb p v : p ≠ LCR_REG → p ≠ THR_REG → quiet (outb p v).
Proof.
  intros H1 H2 s. apply keeps_same; [done|done|]. cbn [ports]. rewrite line_app. unfold port_write. cbn [fst].
  by rewrite (proj2 (Z.eqb_neq _ _) H1), (proj2 (Z.eqb_neq _ _) H2).
Qed.

Lemma quiet_inb p : quiet (inb p).
Proof.
  intros s. unfold inb. rewrite bind_get. destruct (answers s) as [|a l]; [done|]. cbn. by apply keeps_same.
Qed.
#[local] Hint Resolve quiet_off quiet_empty quiet_full quiet_buffer_full quiet_input_full quiet_input_put quiet_inb : quiet.

Ltac quiet_step :=
  lazymatch goal with
  | |- ∀ _, _ => intro
  | |- Intq.quiet _ (bind (intq_getc _) _) => fail
  | |- Intq.quiet _ (bind _ _) => apply quiet_bind; [apply _| |]
  | |- Intq.quiet _ (outb _ _) => apply quiet_outb; discriminate
  | |- Intq.quiet _ (match ?x with _ => _ end) => destruct x
  | |- _ => solve [auto with quiet typeclass_instances]
  end.
Ltac quiet := repeat quiet_step.

Lemma quiet_ier : quiet write_ier.
Proof. unfold write_ier. quiet. Qed.
#[local] Hint Resolve quiet_ier : quiet.

Lemma quiet_notify : quiet serial_notify.
Proof. unfold serial_notify. quiet. Qed.
#[local] Hint Resolve quiet_notify : quiet.

Lemma quiet_receive n : quiet (receive_loop n).
Proof. induction n as [|n IH]; cbn [receive_loop]; unfold input_putc; quiet. Qed.
#[local] Hint Resolve quiet_receive : quiet.

(** ** Moving a byte from the queue to the line *)

(** The first byte of the queue is taken. *)
Definition taken (s : uart) (b : Z) (s' : uart) : Prop :=
  mode s' = mode s ∧ ports s' = ports s ∧ (wf (txq s) → wf (txq s') ∧ contents (txq s) = b :: contents (txq s')).

Lemma getc_taken : runs keeps taken (intq_getc p_txq).
Proof.
  intros s. eapply segments_weaken; [apply keeps_txq| |apply (getc_runs p_txq beside_txq)].
  intros s1 b s2 [[= Hm Hp] Hg]. split; [done|]. split; [done|]. intros Hwf.
  destruct (Hg (txq s1) eq_refl Hwf) as (x' & [= <-] & Hwf' & Hc). done.
Qed.

(** [s'] is [s] after a write of [b] to the line. *)
Definition sent (b : Z) (s s' : uart) : Prop :=
  mode s' = mode s ∧ txq s' = txq s ∧ ports s' = ports s ++ [(THR_REG, u8 b)].

Lemma sent_line b s s' : (line (ports s)).1 = false → sent b s s' →
  line (ports s') = (false, (line (ports s)).2 ++ [u8 b]).
Proof.
  intros Hd (_ & _ & ->). rewrite line_app. unfold port_write. cbn [fst snd]. by rewrite Hd.
Qed.

Lemma take_send s b s1 s2 : taken s b s1 → sent b s1 s2 → keeps s s2.
Proof.
  intros (M1 & P1 & H1) Hs [I1 I2 I2b I3]. destruct (H1 I2) as [W1 C1]. pose proof Hs as (M2 & X2 & P2).
  rewrite C1 in I2b. apply Forall_cons in I2b as [Hb I2b].
  assert (line (ports s2) = (false, (line (ports s)).2 ++ [b])) as El
    by (rewrite (sent_line b s1), P1, u8_small; [done|done|by rewrite P1|done]).
  unfold given. rewrite El, X2, C1. cbn [fst snd]. split; [|split; [by rewrite <- app_assoc|congruence]].
  split; [by rewrite El|by rewrite X2|by rewrite X2|]. rewrite X2, M2, M1. intros Hq. specialize (I3 Hq). rewrite C1 in I3. done.
Qed.

(** Neither the mode, nor the queue, nor the ports change. *)
Definition same_line (s s' : uart) : Prop := mode s' = mode s ∧ txq s' = txq s ∧ ports s' = ports s.

#[export] Instance same_line_preorder : PreOrder same_line.
Proof. split; [done|]. intros s1 s2 s3 (? & ? & ?) (? & ? & ?). unfold same_line. intuition congruence. Qed.

Lemma keeps_line s s' : same_line s s' → keeps s s'.
Proof. intros (Hm & Hx & Hp). apply keeps_same; [done|by rewrite Hx|by rewrite Hp]. Qed.

Lemma still_sched {A} (m : M sched A) : Intq.quiet same_line (on_sched m).
Proof. unfold on_sched. by apply quiet_lift. Qed.

Lemma still_poll n : Intq.quiet same_line (poll_loop n).
Proof.
  assert (∀ p, Intq.quiet same_line (inb p)) as Hinb
    by (intros p s; unfold inb; rewrite bind_get; destruct (answers s) as [|a l]; by cbn).
  induction n as [|n IH]; cbn [poll_loop]; (apply quiet_bind; [apply _|apply Hinb|]); intros a; case_match;
    auto with quiet typeclass_instances.
Qed.

Lemma putc_poll_sends b : runs same_line (λ s _ s', sent b s s') (putc_poll b).
Proof.
  assert (absorbs same_line (λ s (_ : unit) s', sent b s s')) as Ha.
  { intros s s1 u s2 (M1 & X1 & P1) (M2 & X2 & P2). unfold sent. rewrite P2, P1. intuition congruence. }
  unfold putc_poll. apply runs_bind; [apply _|done| |].
  { unfold assert_intr_off. apply quiet_bind; [apply _|apply still_sched|]. auto with quiet typeclass_instances. }
  intros _. apply runs_bind; [apply _|done|auto with quiet typeclass_instances|]. intros s0.
  apply runs_bind; [apply _|done|apply still_poll|]. intros _ s. by cbn.
Qed.

Lemma outb_sends b : runs same_line (λ s _ s', sent b s s') (outb THR_REG b).
Proof. intros s. by cbn. Qed.

Lemma off_atomic : atomic (S := uart) assert_intr_off.
Proof. unfold assert_intr_off, on_sched, intr_get_level. atomic. Qed.
Lemma inb_atomic p : atomic (inb p).
Proof. unfold inb. atomic. Qed.
#[local] Hint Resolve off_atomic inb_atomic : pintos.

Lemma putc_poll_atomic b : atomic (putc_poll b).
Proof.
  assert (∀ n, atomic (poll_loop n)) by (intros n; induction n; cbn [poll_loop]; atomic).
  unfold putc_poll, outb. atomic.
Qed.

(** [putc_poll (intq_getc (&txq))] and [outb (THR_REG, intq_getc (&txq))]. *)
Lemma quiet_move (f : Z → M uart unit) :
  (∀ b, runs same_line (λ s _ s', sent b s s') (f b)) → (∀ b, atomic (f b)) → quiet (let* b := intq_getc p_txq in f b).
Proof.
  intros Hf Ha s. eapply segments_bind; [apply getc_taken|]. intros s0 b s1 Ht. specialize (Hf b s1).
  destruct (f b s1) as [[[] s2]| | |s2 r|] eqn:E; try done; [by eapply take_send|]. by apply Ha in E.
Qed.

Lemma quiet_move_poll : quiet (let* b := intq_getc p_txq in putc_poll b).
Proof. apply quiet_move; [apply putc_poll_sends|apply putc_poll_atomic]. Qed.
Lemma quiet_move_line : quiet (let* b := intq_getc p_txq in outb THR_REG b).
Proof. by apply quiet_move; [apply outb_sends|]. Qed.

(** A sequence that starts with a quiet one. *)
Lemma quiet_move_then (f : Z → M uart unit) (k : M uart unit) :
  quiet (let* b := intq_getc p_txq in f b) → quiet k → quiet (let* b := intq_getc p_txq in f b;;; k).
Proof.
  intros Hm Hk s. pose proof (quiet_bind keeps _ (λ _, k) Hm (λ _, Hk) s) as H. by rewrite bind_assoc in H.
Qed.

Lemma quiet_transmit n : quiet (transmit_loop n).
Proof.
  induction n as [|n IH]; cbn [transmit_loop]; quiet. by apply quiet_move_then; [apply quiet_move_line|].
Qed.

Lemma quiet_flush_loop n : quiet (flush_loop n).
Proof.
  induction n as [|n IH]; cbn [flush_loop]; quiet. by apply quiet_move_then; [apply quiet_move_poll|].
Qed.
#[local] Hint Resolve quiet_transmit quiet_flush_loop : quiet.

Lemma quiet_interrupt : quiet serial_interrupt.
Proof. unfold serial_interrupt. quiet. Qed.
Lemma quiet_flush : quiet serial_flush.
Proof. unfold serial_flush. quiet. Qed.

(** ** Adding a byte *)

Lemma putc_gives b : runs keeps (gives b) (intq_putc p_txq b).
Proof.
  intros s. eapply segments_weaken; [apply keeps_txq| |apply (putc_runs p_txq beside_txq)].
  intros s1 [] s2 [[= Hm Hp] Hg] [I1 I2 I2b I3] Hq. destruct (Hg (txq s1) eq_refl I2) as (x' & [= <-] & Hwf' & Hc).
  unfold given. rewrite Hp, Hc, app_assoc. split; [|split; [done|congruence]].
  split; [by rewrite Hp|done| |congruence]. rewrite Hc. apply Forall_app. split; [done|]. constructor; [apply u8_range|done].
Qed.

(** A quiet end that does not block. *)
Lemma gives_then b (m : M uart unit) (k : M uart unit) : runs keeps (gives b) m → quiet k → atomic k →
  runs keeps (gives b) (m;;; k).
Proof.
  intros Hm Hk Ha s. eapply segments_bind; [apply Hm|]. intros s0 [] s1 Hg. specialize (Hk s1).
  destruct (k s1) as [[[] s2]| | |s2 r|] eqn:E; try done; [|by apply Ha in E].
  intros Hi Hq. destruct (Hg Hi Hq) as (Hi1 & E1 & M1). destruct (Hk Hi1) as (Hi2 & E2 & M2).
  split; [done|]. split; congruence.
Qed.

Lemma sched_atomic {A} (m : M sched A) : atomic m → atomic (on_sched (S := uart) m).
Proof. intros Hm. unfold on_sched. by apply atomic_lift. Qed.

Lemma restore_atomic old : atomic (let* _ := on_sched (S := uart) (intr_set_level old) in ret tt).
Proof. apply atomic_bind; [apply sched_atomic, intr_set_level_atomic|done]. Qed.

Lemma ier_atomic : atomic write_ier.
Proof. unfold write_ier, intq_empty, input_full, intq_full, load, outb. atomic. Qed.

Lemma putc_queue b s : mode s = QUEUE → segments keeps (gives b) s (serial_putc b s).
Proof.
  intros Hm. unfold serial_putc. rewrite (bind_ok _ _ _ _ _ (on_sched_disable s)), bind_get.
  rewrite bool_decide_true by done. cbn [negb]. set (old := intr_on (ksched s)).
  eapply segments_shift; [apply _|apply keeps_line; by instantiate (1 := cli s)|intros a s'; apply gives_absorbs, keeps_line; done|].
  apply gives_then; [|quiet|apply restore_atomic].
  apply runs_bind; [apply _|apply gives_absorbs|quiet|]. intros stuck.
  apply runs_bind; [apply _|apply gives_absorbs|destruct stuck; [apply quiet_move_poll|quiet]|]. intros _.
  apply gives_then; [apply putc_gives|quiet|apply ier_atomic].
Qed.

(** *** Before the queue is used *)

Definition init_writes : list (Z * Z) :=
  [(IER_REG, 0); (FCR_REG, 0); (LCR_REG, 131); (LS_REG, 12); (MS_REG, 0); (LCR_REG, 3); (MCR_REG, 8)].

Lemma init_poll_ok s : mode s = UNINIT → ∃ x, init_poll s = Ok (tt, mk_uart (u_kernel s) POLL x (buffer s) (ports s ++ init_writes) (answers s)) ∧
  contents x = [] ∧ buf x = buf (txq s) ∧ (wf (txq s) → wf x).
Proof.
  intros Hm. exists (mk_intq new_lock None None (buf (txq s)) 0 0).
  split; [|split; [done|split; [done|by intros (? & _)]]].
  unfold init_poll. rewrite bind_get, bool_decide_true, bind_assert by done.
  unfold set_serial, outb, set_mode, lock_init, intq_init. run. cbn. rewrite <- !app_assoc. done.
Qed.

Lemma line_init l : (line l).1 = false → line (l ++ init_writes) = line l.
Proof. intros Hd. unfold line in *. rewrite fold_left_app. destruct (fold_left _ l _) as [d b]. cbn in Hd. by subst. Qed.

(** The port is set up; the bytes are as before. *)
Lemma set_up s : uart_inv s → mode s ≠ QUEUE →
  ∃ s1, (if bool_decide (mode s = UNINIT) then init_poll else ret tt) s = Ok (tt, s1) ∧ uart_inv s1 ∧
    given s1 = given s ∧ mode s1 = POLL ∧ contents (txq s1) = [].
Proof.
  intros Hi Hq. pose proof Hi as [I1 I2 I2b I3]. case_bool_decide as Hu.
  - destruct (init_poll_ok s Hu) as (x & E & Hc & Hb & Hw). eexists. split; [exact E|].
    unfold given. cbn [ports txq mode]. rewrite line_init, Hc, (I3 Hq) by done.
    split; [|done]. split; cbn [ports txq mode]; [by rewrite line_init|by apply Hw|by rewrite Hc|done].
  - exists s. split; [done|]. split; [done|]. split; [done|]. split; [by destruct (mode s)|by apply I3].
Qed.

Lemma putc_direct b s : uart_inv s → mode s ≠ QUEUE →
  match serial_putc b s with
  | Ok (_, s') => uart_inv s' ∧ given s' = given s ++ [u8 b] ∧ mode s' ≠ QUEUE
  | Blocked _ _ => False
  | _ => True
  end.
Proof.
  intros Hi Hq. unfold serial_putc. rewrite (bind_ok _ _ _ _ _ (on_sched_disable s)), bind_get.
  assert (same_line s (cli s)) as Hcli by done. rewrite bool_decide_false by done. cbn [negb].
  destruct (keeps_line _ _ Hcli Hi) as (Hi0 & E0 & M0).
  destruct (set_up (cli s) Hi0) as (s1 & E1 & Hi1 & G1 & M1 & C1); [by rewrite M0|].
  rewrite bind_assoc, (bind_ok _ _ _ _ _ E1). pose proof (putc_poll_sends b s1) as Hs.
  unfold bind. destruct (putc_poll b s1) as [[[] s2]| | |s2 r|] eqn:E2; try done; [|by apply putc_poll_atomic in E2].
  cbn [obind]. pose proof (still_sched (intr_set_level (intr_on (ksched s))) s2) as Hl.
  destruct (on_sched _ s2) as [[v s3]| | |s3 r|] eqn:E3; try done;
    [|by apply (sched_atomic _ (intr_set_level_atomic _)) in E3].
  cbn [obind ret]. apply segments_Ok in Hs. pose proof Hi1 as [J1 J2 J2b J3].
  assert (line (ports s2) = (false, (line (ports s1)).2 ++ [u8 b])) as El by (by apply sent_line).
  destruct Hs as (M2 & X2 & P2).
  assert (uart_inv s2 ∧ given s2 = given s ++ [u8 b]) as [Hi2 G2].
  { unfold given in *. rewrite El, X2, C1. rewrite <- E0, <- G1, C1, !app_nil_r. split; [|done].
    split; [by rewrite El|by rewrite X2|by rewrite X2|by rewrite X2]. }
  destruct (keeps_line _ _ Hl Hi2) as (Hi3 & G3 & M3). split; [done|]. split; [congruence|]. congruence.
Qed.

Lemma init_queue_ok s s' : uart_inv s → serial_init_queue s = Ok (tt, s') →
  mode s ≠ QUEUE ∧ uart_inv s' ∧ given s' = given s.
Proof.
  intros Hi. unfold serial_init_queue. rewrite bind_get. destruct (decide (mode s = QUEUE)) as [Hq|Hq].
  { rewrite bool_decide_false by (by rewrite Hq). rewrite bind_ret, bind_get, bool_decide_false by (by rewrite Hq). done. }
  destruct (set_up s Hi Hq) as (s1 & E1 & Hi1 & G1 & M1 & C1). rewrite (bind_ok _ _ _ _ _ E1), bind_get.
  rewrite bool_decide_true, bind_assert by done. unfold set_mode. rewrite bind_modify. set (s2 := mk_uart _ _ _ _ _ _).
  assert (uart_inv s2) as Hi2 by (destruct Hi1; by split).
  assert (quiet (let* old_level := on_sched intr_disable in write_ier;;; let* _ := on_sched (intr_set_level old_level) in ret tt)) as Hk by quiet.
  intros E. specialize (Hk s2). rewrite E in Hk. destruct (Hk Hi2) as (Hi3 & G3 & _). split; [done|]. split; [done|].
  rewrite G3. unfold given in *. by rewrite <- G1.
Qed.

(** ** Interleavings *)

(** The state, the bytes given to serial_putc() in the order in which the calls
    returned, and the calls that are blocked. *)
Record config := mk_config {
  st : uart;
  puts : list Z;
  pending : list (Z * (uart → outcome uart unit))
}.

Inductive sstep : config → config → Prop :=
| s_putc s l p b s' : serial_putc b s = Ok (tt, s') → sstep (mk_config s l p) (mk_config s' (l ++ [u8 b]) p)
| s_putc_block s l p b s' r : serial_putc b s = Blocked s' r → sstep (mk_config s l p) (mk_config s' l ((b, r) :: p))
| s_resume s l p1 b r p2 s' : r s = Ok (tt, s') →
    sstep (mk_config s l (p1 ++ (b, r) :: p2)) (mk_config s' (l ++ [u8 b]) (p1 ++ p2))
| s_resume_block s l p1 b r p2 s' r' : r s = Blocked s' r' →
    sstep (mk_config s l (p1 ++ (b, r) :: p2)) (mk_config s' l (p1 ++ (b, r') :: p2))
| s_init_queue s l p s' : serial_init_queue s = Ok (tt, s') → sstep (mk_config s l p) (mk_config s' l p)
| s_interrupt s l p s' : serial_interrupt s = Ok (tt, s') → sstep (mk_config s l p) (mk_config s' l p)
| s_flush s l p s' : serial_flush s = Ok (tt, s') → sstep (mk_config s l p) (mk_config s' l p)
| s_notify s l p s' : serial_notify s = Ok (tt, s') → sstep (mk_config s l p) (mk_config s' l p)
| s_other s l p s' : same_line s s' → sstep (mk_config s l p) (mk_config s' l p).

Definition serial_inv (c : config) : Prop :=
  uart_inv (st c) ∧ given (st c) = puts c ∧ (pending c ≠ [] → mode (st c) = QUEUE) ∧
  Forall (λ br, ∀ s, segments keeps (gives br.1) s (br.2 s)) (pending c).

Lemma serial_keeps s s' l p : keeps s s' → serial_inv (mk_config s l p) → serial_inv (mk_config s' l p).
Proof.
  intros Hk (Hi & Hg & Hq & Hp). cbn in *. destruct (Hk Hi) as (Hi' & Hg' & Hm). split; [done|].
  split; [cbn; congruence|]. split; [cbn; intros Hne; rewrite Hm; auto|done].
Qed.

Lemma serial_gives s s' l p p' b : gives b s tt s' → mode s = QUEUE → serial_inv (mk_config s l p) →
  Forall (λ br, ∀ s, segments keeps (gives br.1) s (br.2 s)) p' → serial_inv (mk_config s' (l ++ [u8 b]) p').
Proof.
  intros Hk Hm (Hi & Hg & Hq & Hp) Hp'. cbn in *. destruct (Hk Hi Hm) as (Hi' & Hg' & Hm').
  split; [done|]. split; [cbn; congruence|]. by split.
Qed.

Lemma sstep_inv c c' : serial_inv c → sstep c c' → serial_inv c'.
Proof.
  intros Hinv Hstep. destruct Hstep as [s l p b s' E|s l p b s' r E|s l p1 b r p2 s' E|s l p1 b r p2 s' r' E
    |s l p s' E|s l p s' E|s l p s' E|s l p s' E|s l p s' E]; pose proof Hinv as (Hi & Hg & Hq & Hp);
    cbn [st puts pending] in *.
  - destruct (decide (mode s = QUEUE)) as [Hm|Hm].
    + pose proof (putc_queue b s Hm) as Hs. rewrite E in Hs. by eapply serial_gives.
    + pose proof (putc_direct b s Hi Hm) as Hs. rewrite E in Hs. destruct Hs as (Hi' & Hg' & Hm').
      split; [done|]. split; [cbn; congruence|]. split; [|done]. cbn. intros Hne. by destruct Hm, Hq.
  - destruct (decide (mode s = QUEUE)) as [Hm|Hm].
    + pose proof (putc_queue b s Hm) as Hs. rewrite E in Hs. destruct Hs as [Hk Hr].
      destruct (Hk Hi) as (Hi' & Hg' & Hm'). split; [done|]. split; [cbn; congruence|].
      split; [cbn; intros _; congruence|]. by constructor.
    + pose proof (putc_direct b s Hi Hm) as Hs. by rewrite E in Hs.
  - apply Forall_app in Hp as [Hp1 [Hr Hp2]%Forall_cons]. specialize (Hr s). cbn in Hr. rewrite E in Hr.
    eapply serial_gives; [exact Hr|apply Hq; by destruct p1|exact Hinv|by apply Forall_app].
  - apply Forall_app in Hp as [Hp1 [Hr Hp2]%Forall_cons]. specialize (Hr s). cbn in Hr. rewrite E in Hr. destruct Hr as [Hk Hr].
    destruct (Hk Hi) as (Hi' & Hg' & Hm'). split; [done|]. split; [cbn; congruence|].
    split; [cbn; intros _; rewrite Hm'; apply Hq; by destruct p1|]. apply Forall_app. split; [done|by constructor].
  - destruct (init_queue_ok s s' Hi E) as (Hm & Hi' & Hg'). split; [done|]. split; [cbn; congruence|]. split; [|done].
    cbn. intros Hne. by destruct Hm, Hq.
  - pose proof (quiet_interrupt s) as Hk. rewrite E in Hk. by eapply serial_keeps.
  - pose proof (quiet_flush s) as Hk. rewrite E in Hk. by eapply serial_keeps.
  - pose proof (quiet_notify s) as Hk. rewrite E in Hk. by eapply serial_keeps.
  - by eapply serial_keeps; [apply keeps_line|].
Qed.

(** A flush ends with an empty queue. *)
Lemma flush_empties n :
  runs keeps (λ s _ s', keeps s s' ∧ (head (txq s') =? tail (txq s')) = true) (flush_loop n).
Proof.
  assert (absorbs keeps (λ s (_ : unit) s', keeps s s' ∧ (head (txq s') =? tail (txq s')) = true)) as Ha
    by (intros s s1 u s2 H1 [H2 H3]; split; [by transitivity s1|done]).
  induction n as [|n IH]; cbn [flush_loop]; intros s;
    (eapply segments_bind;
      [eapply segments_weaken; [apply keeps_txq| |apply (must_wait_runs p_txq beside_txq NotEmpty)];
       intros s1 b s2 [Hd Hb]; exact (conj (keeps_txq _ _ Hd) (Hb _ eq_refl))|]);
    intros s1 b s2 [Hk Hb]; cbn [closed] in Hb; subst b; destruct (head (txq s2) =? tail (txq s2)) eqn:E; cbn [negb]; try done.
  eapply segments_shift; [apply _|exact Hk|intros u s'; by apply Ha|].
  pose proof (runs_bind keeps _ _ (λ _, flush_loop n) Ha quiet_move_poll (λ _, IH) s2) as H. by rewrite bind_assoc in H.
Qed.

Lemma flush_sends s s' : uart_inv s → serial_flush s = Ok (tt, s') → (line (ports s')).2 = given s.
Proof.
  intros Hi E. pose proof (quiet_flush s) as Hk. rewrite E in Hk. apply segments_Ok in Hk.
  destruct (Hk Hi) as (Hi' & <- & _). unfold given.
  assert ((head (txq s') =? tail (txq s')) = true) as He; [|by rewrite (proj1 (empty_contents _ (ui_queue _ Hi')) He), app_nil_r].
  revert E. unfold serial_flush. rewrite (bind_ok _ _ _ _ _ (on_sched_disable s)). intros E.
  apply bind_inv in E as ([] & s1 & E1 & E). pose proof (flush_empties 63 (cli s)) as Hf. rewrite E1 in Hf.
  destruct Hf as [_ Hf]. apply bind_inv in E as (v & s2 & E2 & [= <-]).
  pose proof (still_sched (intr_set_level (intr_on (ksched s))) s1) as Hl. rewrite E2 in Hl. by destruct Hl as (_ & -> & _).
Qed.

(** C29. The serial port sends the bytes in order.  From power-on, however the
    calls of serial_putc(), those that block on a full queue included, the
    interrupt handler, flushes and the switch from polling to the queue
    interleave, the bytes given to serial_putc() are the bytes written to the
    transmitter, in the same order, followed by the bytes still queued; after
    serial_flush() every byte has been sent. *)
Theorem serial_in_order s c :
  mode s = UNINIT → ports s = [] → head (txq s) = 0 → tail (txq s) = 0 → zlen (buf (txq s)) = INTQ_BUFSIZE →
  rtc sstep (mk_config s [] []) c →
  puts c = (line (ports (st c))).2 ++ contents (txq (st c)) ∧ zlen (contents (txq (st c))) <= INTQ_BUFSIZE - 1 ∧
  ∀ s', serial_flush (st c) = Ok (tt, s') → (line (ports s')).2 = puts c.
Proof.
  intros Hm Hp Hh Ht Hb Hrtc. assert (serial_inv c) as (Hi & Hg & _).
  { assert (serial_inv (mk_config s [] [])) as H0.
    { assert (contents (txq s) = []) as Hc by (unfold contents, count; by rewrite Hh, Ht).
      assert (wf (txq s)) as Hw by (unfold wf; rewrite Hh, Ht; unfold INTQ_BUFSIZE in *; lia).
      split; [split; cbn; rewrite ?Hp, ?Hc; done|]. split; [unfold given; cbn; by rewrite Hp, Hc|]. by split. }
    revert H0. induction Hrtc as [|c1 c2 c3 Hstep _ IH]; [done|]. intros H1. apply IH. by eapply sstep_inv. }
  split; [by rewrite <- Hg|]. split; [by apply contents_room, Hi|]. intros s' E. by rewrite <- Hg, (flush_sends _ _ Hi E).
Qed.

(** A machine that has just been switched on, whose transmitter is always
    ready. *)
Definition demo_uart : uart :=
  mk_uart (fst demo_machine) UNINIT (mk_intq (mk_lock None (mk_sema 0 [])) None None (replicate 64 0) 0 0)
    (mk_intq new_lock None None (replicate 64 0) 0 0) [] (replicate 20 32).

(** Two bytes by polling, then two through the queue, of which the handler
    sends the first. *)
Definition demo_u1 := result_of ((serial_putc 72;;; ret tt) demo_uart) demo_uart.
Definition demo_u2 := result_of (serial_init_queue demo_u1) demo_u1.
Definition demo_u3 := result_of (serial_putc 105 demo_u2) demo_u2.
Definition demo_u4 := result_of (serial_interrupt demo_u3) demo_u3.
Definition demo_u5 := result_of (serial_putc 33 demo_u4) demo_u4.

Lemma demo_serial_1 : serial_putc 72 demo_uart = Ok (tt, demo_u1).
Proof. vm_compute. reflexivity. Qed.
Lemma demo_serial_2 : serial_init_queue demo_u1 = Ok (tt, demo_u2).
Proof. vm_compute. reflexivity. Qed.
Lemma demo_serial_3 : serial_putc 105 demo_u2 = Ok (tt, demo_u3).
Proof. vm_compute. reflexivity. Qed.
Lemma demo_serial_4 : serial_interrupt demo_u3 = Ok (tt, demo_u4).
Proof. vm_compute. reflexivity. Qed.
Lemma demo_serial_5 : serial_putc 33 demo_u4 = Ok (tt, demo_u5).
Proof. vm_compute. reflexivity. Qed.

Lemma demo_serial : rtc sstep (mk_config demo_uart [] []) (mk_config demo_u5 [72; 105; 33] []).
Proof.
  eapply rtc_l; [exact (s_putc demo_uart [] [] 72 demo_u1 demo_serial_1)|].
  eapply rtc_l; [exact (s_init_queue demo_u1 _ [] demo_u2 demo_serial_2)|].
  eapply rtc_l; [exact (s_putc demo_u2 _ [] 105 demo_u3 demo_serial_3)|].
  eapply rtc_l; [exact (s_interrupt demo_u3 _ [] demo_u4 demo_serial_4)|].
  apply rtc_once, (s_putc demo_u4 [72; 105] [] 33 demo_u5 demo_serial_5).
Qed.

#[local] Opaque demo_uart demo_u5.

Lemma demo_off_line : mode demo_uart = UNINIT ∧ ports demo_uart = [] ∧ head (txq demo_uart) = 0 ∧ tail (txq demo_uart) = 0 ∧
  zlen (buf (txq demo_uart)) = INTQ_BUFSIZE.
Proof. vm_compute. done. Qed.

Lemma serial_in_order_witness :
  [72; 105; 33] = (line (ports demo_u5)).2 ++ contents (txq demo_u5) ∧ (line (ports demo_u5)).2 = [72; 105].
Proof.
  split; [|vm_compute; reflexivity]. destruct demo_off_line as (H1 & H2 & H3 & H4 & H5).
  destruct (serial_in_order demo_uart (mk_config demo_u5 [72; 105; 33] []) H1 H2 H3 H4 H5 demo_serial) as [H _].
  exact H.
Defined.

End Serial.
