(* ===== verification/Kbd.v ===== *)
(** * Kbd: the keyboard (devices/kbd.c)

    The state adds to that of [Serial] the shift keys, the Caps Lock and the
    count of keys.  The interrupt handler reads a scancode, and either updates
    that state or appends a character to the input buffer.  The theorem states
    which character: it compares the key maps of the driver with the two rows
    of characters printed on the keys of a US keyboard. *)

From Stdlib Require Import ZArith Lia.
From stdpp Require Import base tactics option list numbers gmap.
From S2P Require Import Prelude Sched Synch Intq Serial.
Import Sched Synch Intq Serial.

Module Kbd.

Definition DATA_REG : Z := 96.

Record kbd := mk_kbd {
  k_uart : uart;
  left_shift : bool;
  right_shift : bool;
  left_alt : bool;
  right_alt : bool;
  left_ctrl : bool;
  right_ctrl : bool;
  caps_lock : bool;
  key_cnt : Z
}.

Definition on_uart {A} (m : M uart A) : M kbd A :=
  lift k_uart (λ u s, mk_kbd u (left_shift s) (right_shift s) (left_alt s) (right_alt s) (left_ctrl s) (right_ctrl s)
                        (caps_lock s) (key_cnt s)) m.

(** ** Key maps *)

Record keymap := mk_keymap { first_scancode : Z; chars : list Z }.

Definition invariant_keymap : list keymap :=
  [ mk_keymap 1 [27];
    mk_keymap 14 [8];
    mk_keymap 15 [9; 81; 87; 69; 82; 84; 89; 85; 73; 79; 80];    (* \tQWERTYUIOP *)
    mk_keymap 28 [13];
    mk_keymap 30 [65; 83; 68; 70; 71; 72; 74; 75; 76];           (* ASDFGHJKL *)
    mk_keymap 44 [90; 88; 67; 86; 66; 78; 77];                   (* ZXCVBNM *)
    mk_keymap 55 [42];
    mk_keymap 57 [32];
    mk_keymap 83 [127] ].

Definition unshifted_keymap : list keymap :=
  [ mk_keymap 2 [49; 50; 51; 52; 53; 54; 55; 56; 57; 48; 45; 61];  (* 1234567890-= *)
    mk_keymap 26 [91; 93];
    mk_keymap 39 [59; 39; 96];
    mk_keymap 43 [92];
    mk_keymap 51 [44; 46; 47] ].

Definition shifted_keymap : list keymap :=
  [ mk_keymap 2 [33; 64; 35; 36; 37; 94; 38; 42; 40; 41; 95; 43];  (* the shifted digits *)
    mk_keymap 26 [123; 125];
    mk_keymap 39 [58; 34; 126];
    mk_keymap 43 [124];
    mk_keymap 51 [60; 62; 63] ].

(** The loop ends at the entry with first_scancode 0, the end of the list. *)
Fixpoint map_key (k : list keymap) (scancode : Z) : option Z :=
  match k with
  | [] => None
  | e :: k =>
      if (scancode >=? first_scancode e) && (scancode <? first_scancode e + zlen (chars e))
      then chars e !! Z.to_nat (scancode - first_scancode e)
      else map_key k scancode
  end.

(** lib/ctype.h *)
Definition isupper (c : Z) : bool := (c >=? 65) && (c <=? 90).
Definition tolower (c : Z) : Z := if isupper c then c - 65 + 97 else c.

(** ** The interrupt handler *)

(** [*key->state_var = v]. *)
Inductive shift_var := LeftShift | RightShift | LeftAlt | RightAlt | LeftCtrl | RightCtrl.

Definition set_shift (v : shift_var) (b : bool) (s : kbd) : kbd :=
  match v with
  | LeftShift => mk_kbd (k_uart s) b (right_shift s) (left_alt s) (right_alt s) (left_ctrl s) (right_ctrl s) (caps_lock s) (key_cnt s)
  | RightShift => mk_kbd (k_uart s) (left_shift s) b (left_alt s) (right_alt s) (left_ctrl s) (right_ctrl s) (caps_lock s) (key_cnt s)
  | LeftAlt => mk_kbd (k_uart s) (left_shift s) (right_shift s) b (right_alt s) (left_ctrl s) (right_ctrl s) (caps_lock s) (key_cnt s)
  | RightAlt => mk_kbd (k_uart s) (left_shift s) (right_shift s) (left_alt s) b (left_ctrl s) (right_ctrl s) (caps_lock s) (key_cnt s)
  | LeftCtrl => mk_kbd (k_uart s) (left_shift s) (right_shift s) (left_alt s) (right_alt s) b (right_ctrl s) (caps_lock s) (key_cnt s)
  | RightCtrl => mk_kbd (k_uart s) (left_shift s) (right_shift s) (left_alt s) (right_alt s) (left_ctrl s) b (caps_lock s) (key_cnt s)
  end.

Definition set_caps (b : bool) (s : kbd) : kbd :=
  mk_kbd (k_uart s) (left_shift s) (right_shift s) (left_alt s) (right_alt s) (left_ctrl s) (right_ctrl s) b (key_cnt s).

Definition shift_keys : list (Z * shift_var) :=
  [(42, LeftShift); (54, RightShift); (56, LeftAlt); (57400, RightAlt); (29, LeftCtrl); (57373, RightCtrl)].

Fixpoint scan_shift_keys (l : list (Z * shift_var)) (code : Z) (release : bool) : M kbd unit :=
  match l with
  | [] => ret tt
  | (scancode, v) :: l =>
      if scancode =? code then modify (set_shift v (negb release)) else scan_shift_keys l code release
  end.

Section handler.
(** shutdown_reboot() of devices/shutdown.c: it restarts the machine and does
    not return. *)
Context (shutdown_reboot : M kbd unit).

Definition shifted (s : kbd) : bool := left_shift s || right_shift s.
Definition alted (s : kbd) : bool := left_alt s || right_alt s.
Definition ctrled (s : kbd) : bool := left_ctrl s || right_ctrl s.

(** The character of a key, before Ctrl, Caps Lock and Alt. *)
Definition key_char (shift : bool) (code : Z) : option Z :=
  match map_key invariant_keymap code with
  | Some c => Some c
  | None => if shift then map_key shifted_keymap code else map_key unshifted_keymap code
  end.

(** Ctrl, Shift and Alt. *)
Definition adjust (shift alt ctrl caps : bool) (c : Z) : Z :=
  let c := if ctrl && (c >=? 64) && (c <? 96) then u8 (c - 64)
           else if Bool.eqb shift caps then tolower c else c in
  if alt then u8 (c + 128) else c.

Definition keyboard_interrupt : M kbd unit :=
  let* s := get in
  let shift := shifted s in
  let alt := alted s in
  let ctrl := ctrled s in
  let* code := on_uart (inb DATA_REG) in
  let* code := (if code =? 224 then let* b := on_uart (inb DATA_REG) in ret (Z.lor (u32 (Z.shiftl code 8)) b) else ret code) in
  let release := negb (Z.land code 128 =? 0) in
  let code := Z.land code (u32 (Z.lnot 128)) in
  if code =? 58 then
    if negb release then modify (λ s, set_caps (negb (caps_lock s)) s) else ret tt
  else
    match key_char shift code with
    | Some c =>
        if negb release then
          (if (c =? 127) && ctrl && alt then shutdown_reboot else ret tt);;;
          let* s := get in
          let c := adjust shift alt ctrl (caps_lock s) c in
          let* full := on_uart (input_full p_buffer) in
          if negb full then
            modify (λ s, mk_kbd (k_uart s) (left_shift s) (right_shift s) (left_alt s) (right_alt s) (left_ctrl s) (right_ctrl s)
                           (caps_lock s) (s64 (key_cnt s + 1)));;;
            on_uart (input_putc p_buffer serial_notify c)
          else ret tt
        else ret tt
    | None => scan_shift_keys shift_keys code release
    end.
End handler.

(** ** The keys of a US keyboard *)

(** What is printed on the keys with scancodes 1 to 57, without and with Shift;
    0 where there is no character. *)
Definition plain_row : list Z :=
  [27] ++ [49; 50; 51; 52; 53; 54; 55; 56; 57; 48; 45; 61] ++ [8] ++
  [9] ++ [113; 119; 101; 114; 116; 121; 117; 105; 111; 112] ++ [91; 93] ++ [13] ++
  [0] ++ [97; 115; 100; 102; 103; 104; 106; 107; 108] ++ [59; 39] ++ [96] ++
  [0] ++ [92] ++ [122; 120; 99; 118; 98; 110; 109] ++ [44; 46; 47] ++ [0] ++ [42; 0; 32].
Definition shift_row : list Z :=
  [27] ++ [33; 64; 35; 36; 37; 94; 38; 42; 40; 41; 95; 43] ++ [8] ++
  [9] ++ [81; 87; 69; 82; 84; 89; 85; 73; 79; 80] ++ [123; 125] ++ [13] ++
  [0] ++ [65; 83; 68; 70; 71; 72; 74; 75; 76] ++ [58; 34] ++ [126] ++
  [0] ++ [124] ++ [90; 88; 67; 86; 66; 78; 77] ++ [60; 62; 63] ++ [0] ++ [42; 0; 32].

Definition printed (shift : bool) (code : Z) : option Z :=
  if code =? 83 then Some 127
  else if code >? 57 then None
  else match (if shift then shift_row else plain_row) !! Z.to_nat (code - 1) with
       | Some 0 | None => None
       | Some c => Some c
       end.

Definition is_letter (code : Z) : bool :=
  match printed false code with Some c => (97 <=? c) && (c <=? 122) | None => false end.

(** What the key types: Ctrl gives the control characters, Caps Lock inverts
    Shift for letters, Alt sets the high bit. *)
Definition typed (shift alt ctrl caps : bool) (code : Z) : option Z :=
  let high c := if alt then c + 128 else c in
  let normal := if is_letter code then printed (xorb shift caps) code else printed shift code in
  let on_ctrl := if is_letter code then printed true code else printed shift code in
  match on_ctrl with
  | Some c => if ctrl && (64 <=? c) && (c <? 96) then Some (high (c - 64)) else high <$> normal
  | None => None
  end.

(** ** Key events *)

(** A key is pressed ([true]) or released.  Keys are named by their scancodes;
    those above 128 are the keys with the prefix code 0xe0. *)
Abbreviation event := (Z * bool)%type.

Definition scan_bytes (e : event) : list Z :=
  let up := if e.2 then 0 else 128 in
  if e.1 <? 128 then [e.1 + up] else [224; e.1 - 57344 + up].

(** The release of a key 0x60 would be the prefix code. *)
Definition key_codes : list Z := seqZ 1 127 ++ seqZ 57344 128.
Definition is_event (e : event) : Prop := e.1 ∈ key_codes ∧ e ≠ (96, false).

(** A history of events, the latest first.  A key is down when its latest event
    is a press; Caps Lock is on after an odd number of presses. *)
Fixpoint down (h : list event) (k : Z) : bool :=
  match h with [] => false | e :: h => if e.1 =? k then e.2 else down h k end.
Fixpoint caps_on (h : list event) : bool :=
  match h with [] => false | e :: h => xorb (bool_decide (e = (58, true))) (caps_on h) end.

Definition shift_down (h : list event) : bool := down h 42 || down h 54.
Definition alt_down (h : list event) : bool := down h 56 || down h 57400.
Definition ctrl_down (h : list event) : bool := down h 29 || down h 57373.

(** What a press types, and what a history has typed. *)
Definition types (h : list event) (e : event) : list Z :=
  if e.2 then option_list (typed (shift_down h) (alt_down h) (ctrl_down h) (caps_on h) e.1) else [].
Fixpoint text (h : list event) : list Z :=
  match h with [] => [] | e :: h => text h ++ types h e end.

(** The keys that restart the machine. *)
Fixpoint ctrl_alt_del (h : list event) : bool :=
  match h with
  | [] => false
  | e :: h => (bool_decide (e = (83, true)) && ctrl_down h && alt_down h) || ctrl_alt_del h
  end.

(** ** The driver's tables and the keyboard agree *)

Definition modifiers : list (bool * bool * bool * bool) :=
  shift ← [false; true]; alt ← [false; true]; ctrl ← [false; true]; caps ← [false; true]; [(shift, alt, ctrl, caps)].

Lemma all_modifiers m : m ∈ modifiers.
Proof. apply list_elem_of_In. destruct m as [[[[] []] []] []]; cbn; tauto. Qed.

Definition agree (code : Z) : bool :=
  forallb (λ m : bool * bool * bool * bool, let '(shift, alt, ctrl, caps) := m in
    bool_decide (adjust shift alt ctrl caps <$> key_char shift code = typed shift alt ctrl caps code) &&
    match key_char shift code with Some c => negb (c =? 127) || (code =? 83) | None => true end &&
    match typed shift alt ctrl caps code with Some t => u8 t =? t | None => true end)
    modifiers.

Lemma all_agree : forallb agree key_codes = true.
Proof. vm_compute. reflexivity. Qed.

Lemma key_char_typed code shift alt ctrl caps : code ∈ key_codes →
  adjust shift alt ctrl caps <$> key_char shift code = typed shift alt ctrl caps code ∧
  (key_char shift code = Some 127 → code = 83) ∧ (∀ t, typed shift alt ctrl caps code = Some t → u8 t = t).
Proof.
  intros Hc. pose proof all_agree as H. rewrite forallb_forall in H. specialize (H code (proj1 (list_elem_of_In _ _) Hc)).
  unfold agree in H. rewrite forallb_forall in H.
  specialize (H _ (proj1 (list_elem_of_In _ _) (all_modifiers (shift, alt, ctrl, caps)))).
  apply andb_true_iff in H as [[H1 H2]%andb_true_iff H3]. split; [exact (bool_decide_eq_true_1 _ H1)|]. split.
  - intros E. rewrite E in H2. by apply Z.eqb_eq.
  - intros t E. rewrite E in H3. by apply Z.eqb_eq.
Qed.

(** The handler's arithmetic on the bytes finds the key and the direction. *)
Definition decoded (e : event) : bool :=
  match scan_bytes e with
  | a :: l =>
      let code := match l with [] => u8 a | b :: _ => Z.lor (u32 (Z.shiftl (u8 a) 8)) (u8 b) end in
      bool_decide (u8 a = 224 ↔ l ≠ []) && Bool.eqb (negb (Z.land code 128 =? 0)) (negb e.2) &&
      (Z.land code (u32 (Z.lnot 128)) =? e.1)
  | [] => false
  end.

Lemma all_decoded : forallb (λ c, decoded (c, true) && (decoded (c, false) || (c =? 96))) key_codes = true.
Proof. vm_compute. reflexivity. Qed.

Lemma event_decoded e : is_event e → decoded e = true.
Proof.
  destruct e as [c p]. intros [Hc Hne]. pose proof all_decoded as H. rewrite forallb_forall in H.
  specialize (H c (proj1 (list_elem_of_In _ _) Hc)). apply andb_true_iff in H as [H1 H2]. destruct p; [done|].
  apply orb_true_iff in H2 as [H2|H2%Z.eqb_eq]; [done|]. by subst c.
Qed.

(** ** An interrupt *)

Definition with_uart (u : uart) (s : kbd) : kbd :=
  mk_kbd u (left_shift s) (right_shift s) (left_alt s) (right_alt s) (left_ctrl s) (right_ctrl s) (caps_lock s) (key_cnt s).
Definition unread (l : list Z) (u : uart) : uart := mk_uart (u_kernel u) (mode u) (txq u) (buffer u) (ports u) l.

Lemma on_uart_ok {A} (m : M uart A) s a u : m (k_uart s) = Ok (a, u) → on_uart m s = Ok (a, with_uart u s).
Proof. intros E. unfold on_uart, lift. by rewrite E. Qed.

Lemma inb_ok u p a l : answers u = a :: l → inb p u = Ok (u8 a, unread l u).
Proof. intros E. unfold inb. rewrite bind_get, E. done. Qed.

Lemma read_event {A} (k : Z → M kbd A) e l s : is_event e → answers (k_uart s) = scan_bytes e ++ l →
  ∃ code, bind (on_uart (inb DATA_REG)) (λ code,
      bind (if code =? 224 then let* b := on_uart (inb DATA_REG) in ret (Z.lor (u32 (Z.shiftl code 8)) b) else ret code) k) s =
    k code (with_uart (unread l (k_uart s)) s) ∧
    negb (Z.land code 128 =? 0) = negb e.2 ∧ Z.land code (u32 (Z.lnot 128)) = e.1.
Proof.
  intros He%event_decoded Ha. unfold decoded in He. destruct (scan_bytes e) as [|a l1] eqn:Es; [done|].
  cbn [app] in Ha. rewrite (bind_ok _ _ _ _ _ (on_uart_ok _ _ _ _ (inb_ok _ DATA_REG _ _ Ha))).
  apply andb_true_iff in He as [[Hp%bool_decide_eq_true Hr%eqb_prop]%andb_true_iff Hc%Z.eqb_eq].
  destruct l1 as [|b l1].
  - exists (u8 a). rewrite (proj2 (Z.eqb_neq (u8 a) 224)) by (by intros E%Hp). done.
  - rewrite (proj2 (Z.eqb_eq (u8 a) 224)) by (by apply Hp).
    assert (l1 = []) as -> by (unfold scan_bytes in Es; case_match; by simplify_eq).
    exists (Z.lor (u32 (Z.shiftl (u8 a) 8)) (u8 b)). split; [|done].
    rewrite bind_assoc. etransitivity; [by eapply bind_ok, on_uart_ok, inb_ok|]. done.
Qed.

(** Telling the serial port touches nothing of the keyboard's. *)
Lemma notify_ready u : intr_on (ksched u) = false → ∃ p, serial_notify u =
  Ok (tt, mk_uart (u_kernel u) (mode u) (txq u) (buffer u) p (answers u)).
Proof.
  intros Hoff. unfold serial_notify. rewrite (off_ok u Hoff), bind_get. case_bool_decide as Em; [|exists (ports u); by destruct u].
  unfold write_ier. rewrite (off_ok u Hoff), (bind_ok _ _ _ _ _ (must_wait_ok p_txq u (txq u) eq_refl Hoff NotEmpty)).
  unfold input_full. rewrite bind_assoc, (off_ok u Hoff).
  rewrite (bind_ok _ _ _ _ _ (must_wait_ok p_buffer u (buffer u) eq_refl Hoff NotFull)). by eexists.
Qed.

(** The driver's state after a history. *)
Record agrees (h : list event) (s : kbd) : Prop := {
  ag_left_shift : left_shift s = down h 42;
  ag_right_shift : right_shift s = down h 54;
  ag_left_alt : left_alt s = down h 56;
  ag_right_alt : right_alt s = down h 57400;
  ag_left_ctrl : left_ctrl s = down h 29;
  ag_right_ctrl : right_ctrl s = down h 57373;
  ag_caps : caps_lock s = caps_on h;
  ag_off : intr_on (ksched (k_uart s)) = false;
  ag_buffer : wf (buffer (k_uart s));
  ag_alone : not_empty (buffer (k_uart s)) = None;
  ag_text : contents (buffer (k_uart s)) = take 63 (text h);
  ag_count : key_cnt s = zlen (contents (buffer (k_uart s)))
}.

Lemma agrees_read h s l : agrees h s → agrees h (with_uart (unread l (k_uart s)) s).
Proof. by intros []. Qed.

Lemma agrees_modifiers h s : agrees h s → shifted s = shift_down h ∧ alted s = alt_down h ∧ ctrled s = ctrl_down h.
Proof. intros []. unfold shifted, alted, ctrled, shift_down, alt_down, ctrl_down. repeat split; congruence. Qed.

(** Events that type nothing. *)
Lemma scan_agrees h e s : e.1 ≠ 58 → types h e = [] → agrees h s →
  ∃ s', scan_shift_keys shift_keys e.1 (negb e.2) s = Ok (tt, s') ∧ agrees (e :: h) s' ∧ k_uart s' = k_uart s.
Proof.
  intros Hcaps Ht Hs. destruct e as [c p]. cbn [fst snd] in *.
  assert (caps_on ((c, p) :: h) = caps_on h) as Ec
    by (cbn [caps_on]; rewrite bool_decide_eq_false_2; [by destruct (caps_on h)|by intros [= ->]]).
  destruct Hs. unfold shift_keys. cbn [scan_shift_keys]. rewrite !negb_involutive.
  repeat (case_match; [eexists; split; [reflexivity|]; split; [|reflexivity]|]);
    [..|eexists; split; [reflexivity|]; split; [|reflexivity]];
    (split; rewrite ?Ec; cbn [text]; rewrite ?Ht, ?app_nil_r; try done; cbn [set_shift left_shift right_shift left_alt right_alt left_ctrl right_ctrl down fst snd]);
    repeat match goal with H : (_ =? c) = true |- _ => apply Z.eqb_eq in H; subst c end; try done;
    by rewrite Z.eqb_sym; case_match.
Qed.

Lemma caps_agrees h p s : agrees h s →
  agrees ((58, p) :: h) (if p then set_caps (negb (caps_lock s)) s else s).
Proof.
  intros [].
  assert (types h (58, p) = []) as Ht by 
    (destruct p; [|done]; unfold types; cbn [fst snd]; by destruct (shift_down h), (alt_down h), (ctrl_down h), (caps_on h)).
  destruct p; (split; cbn [text]; rewrite ?Ht, ?app_nil_r; try done; cbn; by rewrite ag_caps0; destruct (caps_on h)).
Qed.

(** The rest of the handler once a character is known. *)
Definition append (t : Z) : M kbd unit :=
  let* full := on_uart (input_full p_buffer) in
  if negb full then
    modify (λ s, mk_kbd (k_uart s) (left_shift s) (right_shift s) (left_alt s) (right_alt s) (left_ctrl s) (right_ctrl s)
                   (caps_lock s) (s64 (key_cnt s + 1)));;;
    on_uart (input_putc p_buffer serial_notify t)
  else ret tt.

Lemma take_full {A} n (l l' : list A) : length (take n l) = n → take n (l ++ l') = take n l.
Proof. rewrite length_take. intros Hn. rewrite take_app_le by lia. done. Qed.

(** The variables an event of an ordinary key leaves alone. *)
Lemma press_agrees h c p s s' : agrees h s → c ∉ [42; 54; 56; 57400; 29; 57373; 58] →
  s' = mk_kbd (k_uart s') (left_shift s) (right_shift s) (left_alt s) (right_alt s) (left_ctrl s) (right_ctrl s) (caps_lock s) (key_cnt s') →
  ksched (k_uart s') = ksched (k_uart s) → wf (buffer (k_uart s')) → not_empty (buffer (k_uart s')) = None →
  contents (buffer (k_uart s')) = take 63 (text ((c, p) :: h)) → key_cnt s' = zlen (contents (buffer (k_uart s'))) →
  agrees ((c, p) :: h) s'.
Proof.
  intros [] Hc -> Hsched Hwf Hn Ht Hk. rewrite !not_elem_of_cons in Hc. destruct Hc as (? & ? & ? & ? & ? & ? & ? & _).
  cbn in Hsched, Hwf, Hn, Ht, Hk.
  split; cbn [k_uart left_shift right_shift left_alt right_alt left_ctrl right_ctrl caps_lock key_cnt down fst snd];
    rewrite ?(proj2 (Z.eqb_neq _ _)) by done; try done; [|by rewrite Hsched].
  cbn [caps_on]. rewrite bool_decide_eq_false_2 by (by intros [= ->]). by destruct (caps_on h).
Qed.

Lemma append_agrees h c t s : agrees h s → c ∉ [42; 54; 56; 57400; 29; 57373; 58] →
  types h (c, true) = [t] → u8 t = t →
  ∃ s', append t s = Ok (tt, s') ∧ agrees ((c, true) :: h) s' ∧ answers (k_uart s') = answers (k_uart s).
Proof.
  intros Hs Hc Ht H8. pose proof Hs as []. unfold append.
  assert (input_full p_buffer (k_uart s) = Ok (next (head (buffer (k_uart s))) =? tail (buffer (k_uart s)), k_uart s)) as Ef
    by (unfold input_full; rewrite off_ok by done; by apply (must_wait_ok p_buffer _ (buffer (k_uart s)) eq_refl ag_off0 NotFull)).
  rewrite (bind_ok _ _ _ _ _ (on_uart_ok _ _ _ _ Ef)). replace (with_uart (k_uart s) s) with s by (by destruct s).
  pose proof (contents_room _ ag_buffer0) as Hr. pose proof (full_contents _ ag_buffer0) as Hf.
  destruct (next _ =? tail _) eqn:E; cbn [negb].
  - exists s. split; [done|]. split; [|done]. apply (press_agrees h c true s); try done; [by destruct s|]. cbn [text]. rewrite Ht.
    rewrite take_full; [done|]. rewrite <- ag_text0. apply proj1 in Hf. specialize (Hf eq_refl). unfold zlen, INTQ_BUFSIZE in Hf. lia.
  - assert (zlen (contents (buffer (k_uart s))) < INTQ_BUFSIZE - 1) as Hroom
      by (destruct (decide (zlen (contents (buffer (k_uart s))) = INTQ_BUFSIZE - 1)) as [Hz%Hf|Hz]; [done|lia]).
    rewrite bind_modify. cbn [k_uart left_shift right_shift left_alt right_alt left_ctrl right_ctrl caps_lock key_cnt].
    pose proof (putc_ready p_buffer (k_uart s) (buffer (k_uart s)) t eq_refl ag_buffer0 ag_off0 Hroom ag_alone0) as Hput.
    destruct (notify_ready (pstore p_buffer (pushed (u8 t) (buffer (k_uart s))) (k_uart s)) ag_off0) as [p Hp].
    destruct (push_contents (u8 t) (buffer (k_uart s)) ag_buffer0 ltac:(by apply Z.eqb_neq)) as [Hwf Hc'].
    eexists. split.
    { apply on_uart_ok. unfold input_putc. cbn [k_uart]. rewrite off_ok by done.
      rewrite (bind_ok _ _ _ _ _ (must_wait_ok p_buffer _ (buffer (k_uart s)) eq_refl ag_off0 NotFull)). cbn [closed].
      rewrite E, bind_assert, (bind_ok _ _ _ _ _ Hput) by done. exact Hp. }
    split; [|done]. cbn [text]. apply (press_agrees h c true s); try done; cbn [with_uart k_uart buffer pstore p_buffer key_cnt].
    + rewrite Hc', H8, ag_text0. cbn [text]. rewrite Ht. rewrite ag_text0 in Hroom. unfold zlen, INTQ_BUFSIZE in Hroom.
      rewrite length_take in Hroom. rewrite !take_ge; [done|rewrite length_app; cbn; lia|lia].
    + rewrite Hc', ag_count0, zlen_app. unfold zlen at 3. cbn [length]. rewrite s64_small; [done|].
      unfold zlen, INTQ_BUFSIZE in *. unfold in_s64. lia.
Qed.

(** An ordinary key is no shift key. *)
Definition ordinary (code : Z) : bool :=
  forallb (λ shift, match key_char shift code with
                    | Some _ => negb (bool_decide (code ∈ [42; 54; 56; 57400; 29; 57373; 58]))
                    | None => true
                    end) [false; true].
Lemma all_ordinary : forallb ordinary key_codes = true.
Proof. vm_compute. reflexivity. Qed.

Lemma key_char_ordinary code shift c : code ∈ key_codes → key_char shift code = Some c →
  code ∉ [42; 54; 56; 57400; 29; 57373; 58].
Proof.
  intros Hc E. pose proof all_ordinary as H. rewrite forallb_forall in H. specialize (H code (proj1 (list_elem_of_In _ _) Hc)).
  unfold ordinary in H. rewrite forallb_forall in H. specialize (H shift ltac:(destruct shift; cbn; tauto)).
  cbv beta in H. rewrite E in H. intros Hin. by rewrite bool_decide_eq_true_2 in H.
Qed.

Section keyboard.
Context (shutdown_reboot : M kbd unit).

(** One interrupt. *)
Lemma interrupt_agrees h e l s : agrees h s → is_event e → ctrl_alt_del (e :: h) = false →
  answers (k_uart s) = scan_bytes e ++ l →
  ∃ s', keyboard_interrupt shutdown_reboot s = Ok (tt, s') ∧ agrees (e :: h) s' ∧ answers (k_uart s') = l.
Proof.
  intros Hs He Hdel Ha. destruct (agrees_modifiers h s Hs) as (E1 & E2 & E3). unfold keyboard_interrupt.
  rewrite bind_get. cbv zeta. rewrite E1, E2, E3.
  match goal with |- context [bind (on_uart (inb DATA_REG)) (λ code, bind _ ?k) s] => destruct (read_event k e l s He Ha) as (code & E & Er & Ec) end.
  rewrite E, Er, Ec, negb_involutive. clear E Er Ec. apply (agrees_read h s l) in Hs. set (s1 := with_uart _ s) in *.
  destruct e as [c p]. cbn [fst snd] in *. destruct (c =? 58) eqn:E58.
  { apply Z.eqb_eq in E58. subst c. exists (if p then set_caps (negb (caps_lock s1)) s1 else s1).
    split; [by destruct p|]. split; [by apply caps_agrees|by destruct p]. }
  destruct (key_char_typed c (shift_down h) (alt_down h) (ctrl_down h) (caps_on h) (proj1 He)) as (Ht & Hd & H8).
  destruct (key_char (shift_down h) c) as [ch|] eqn:Ek.
  2:{ destruct (scan_agrees h (c, p) s1) as (s' & E & Hs' & Eu); [by apply Z.eqb_neq| |done|].
      - unfold types. cbn [fst snd]. rewrite <- Ht. by destruct p.
      - exists s'. split; [done|]. split; [done|]. by rewrite Eu. }
  destruct p; cbn [negb].
  - assert ((ch =? 127) && ctrl_down h && alt_down h = false) as ->.
    { apply not_true_is_false. intros [[->%Z.eqb_eq Hctl]%andb_true_iff Halt]%andb_true_iff. cbn [ctrl_alt_del] in Hdel.
      rewrite Hctl, Halt, (Hd eq_refl) in Hdel. by rewrite bool_decide_eq_true_2 in Hdel. }
    rewrite bind_ret, bind_get, (ag_caps _ _ Hs).
    destruct (append_agrees h c (adjust (shift_down h) (alt_down h) (ctrl_down h) (caps_on h) ch) s1) as (s' & E & Hs' & Eu);
      [done|by eapply key_char_ordinary; [apply He|]|unfold types; cbn [fst snd]; by rewrite <- Ht|by apply H8; rewrite <- Ht|].
    exists s'. by split; [exact E|].
  - exists s1. split; [done|]. split; [|done].
    apply (press_agrees h c false s1); try done; [by eapply key_char_ordinary; [apply He|]|by apply Hs|by apply Hs| |by apply Hs].
    cbn [text]. unfold types. rewrite app_nil_r. apply Hs.
Qed.

(** The handler runs once per event. *)
Fixpoint interrupts (evs : list event) : M kbd unit :=
  match evs with [] => ret tt | _ :: evs => keyboard_interrupt shutdown_reboot;;; interrupts evs end.

(** C31. The keyboard driver types what a US keyboard types.  From a driver
    with no key down, Caps Lock off and an empty buffer, and for every sequence
    of presses and releases without Ctrl+Alt+Del, one interrupt per event reads
    exactly the bytes of the events, and returns; the input buffer then holds
    the characters printed on the keys that were pressed, as Shift, Caps Lock,
    Ctrl and Alt change them, in order, up to the 63 that fit; the later ones
    are dropped, and the others counted; and the driver's shift variables say
    which keys are down. *)
Theorem keyboard_types evs l s :
  agrees [] s → Forall is_event evs → ctrl_alt_del (reverse evs) = false →
  answers (k_uart s) = concat (map scan_bytes evs) ++ l →
  ∃ s', interrupts evs s = Ok (tt, s') ∧ answers (k_uart s') = l ∧
    contents (buffer (k_uart s')) = take 63 (text (reverse evs)) ∧
    key_cnt s' = Z.min 63 (zlen (text (reverse evs))) ∧
    shifted s' = shift_down (reverse evs) ∧ ctrled s' = ctrl_down (reverse evs) ∧ alted s' = alt_down (reverse evs) ∧
    caps_lock s' = caps_on (reverse evs).
Proof.
  intros Hs He Hdel Ha.
  assert (∃ s', interrupts evs s = Ok (tt, s') ∧ agrees (reverse evs ++ []) s' ∧ answers (k_uart s') = l) as (s' & E & Hs' & El).
  { revert s Hs Ha. rewrite <- (app_nil_r (reverse evs)) in Hdel. revert Hdel. generalize (@nil event) as h.
    induction evs as [|e evs IH]; intros h Hdel s Hs Ha; [exists s; done|]. apply Forall_cons in He as [He Hes].
    rewrite reverse_cons, <- app_assoc in *. cbn [app] in *.
    assert (ctrl_alt_del (e :: h) = false) as Hd.
    { clear -Hdel. induction (reverse evs) as [|e1 h1 IH1]; [done|]. cbn [app ctrl_alt_del] in Hdel.
      by apply orb_false_iff in Hdel as [_ Hdel%IH1]. }
    cbn [map concat] in Ha. rewrite <- app_assoc in Ha.
    destruct (interrupt_agrees h e _ s Hs He Hd Ha) as (s1 & E1 & Hs1 & El1).
    destruct (IH Hes (e :: h) Hdel s1 Hs1 El1) as (s' & E' & Hs' & El'). exists s'.
    cbn [interrupts]. by rewrite (bind_ok _ _ _ _ _ E1). }
  rewrite app_nil_r in Hs'. exists s'. split; [done|]. split; [done|]. split; [apply Hs'|].
  destruct (agrees_modifiers _ _ Hs') as (H1 & H2 & H3). split; [|by destruct Hs'].
  rewrite (ag_count _ _ Hs'), (ag_text _ _ Hs'). unfold zlen. rewrite length_take. lia.
Qed.
End keyboard.

(** Shift+h, i, Caps Lock, x, Ctrl+c, an arrow key, Alt+1. *)
Definition demo_keys : list event :=
  [(42, true); (35, true); (35, false); (42, false); (23, true); (23, false); (58, true); (58, false); (45, true); (45, false);
   (29, true); (46, true); (46, false); (29, false); (57416, true); (57416, false); (57400, true); (2, true); (2, false)].
Definition demo_kbd : kbd :=
  mk_kbd (mk_uart (fst demo_machine) UNINIT raw_queue (mk_intq new_lock None None (replicate 64 0) 0 0) [] (concat (map scan_bytes demo_keys)))
    false false false false false false false 0.

Lemma demo_kbd_idle : agrees [] demo_kbd.
Proof. by split. Qed.
Lemma demo_keys_events : Forall is_event demo_keys.
Proof. apply Forall_forall. intros e He. apply (bool_decide_eq_true_1 (e.1 ∈ key_codes ∧ e ≠ (96, false))).
  revert e He. apply Forall_forall. repeat constructor. Qed.

Lemma keyboard_types_witness : ∃ s', interrupts no_fuel demo_keys demo_kbd = Ok (tt, s') ∧
  contents (buffer (k_uart s')) = [72; 105; 88; 3; 177] ∧ key_cnt s' = 5.
Proof.
  destruct (keyboard_types no_fuel demo_keys [] demo_kbd demo_kbd_idle demo_keys_events eq_refl eq_refl)
    as (s' & E & _ & H1 & H2 & _).
  exists s'. split; [exact E|]. split; [exact H1|exact H2].
Defined.

End Kbd.
