(* ===== verification/Vaddr.v ===== *)
(** * Vaddr: virtual addresses and page table entries (threads/vaddr.h, threads/pte.h)

    Addresses are 32-bit numbers.  The functions that ASSERT are routines of
    the kernel monad; the others are pure. *)

From Stdlib Require Import ZArith Lia.
From stdpp Require Import base tactics numbers.
From S2P Require Import Prelude.

Module Vaddr.

(** ** vaddr.h *)

Definition BITMASK (shift cnt : Z) : Z := Z.shiftl (Z.shiftl 1 cnt - 1) shift.
Definition PGBITS : Z := 12.
Definition PGSIZE : Z := 4096.
Definition PGMASK : Z := BITMASK 0 PGBITS.
Definition PHYS_BASE : Z := 3221225472.   (* 0xc0000000 *)

Definition pg_ofs (va : Z) : Z := Z.land va PGMASK.
Definition pg_no (va : Z) : Z := Z.shiftr va PGBITS.
Definition pg_round_up (va : Z) : Z := Z.land (u32 (va + PGSIZE - 1)) (u32 (Z.lnot PGMASK)).
Definition pg_round_down (va : Z) : Z := Z.land va (u32 (Z.lnot PGMASK)).
Definition is_user_vaddr (vaddr : Z) : bool := vaddr <? PHYS_BASE.
Definition is_kernel_vaddr (vaddr : Z) : bool := vaddr >=? PHYS_BASE.

Definition ptov {S} (paddr : Z) : M S Z :=
  assert (paddr <? PHYS_BASE);;; ret (u32 (paddr + PHYS_BASE)).
Definition vtop {S} (vaddr : Z) : M S Z :=
  assert (is_kernel_vaddr vaddr);;; ret (vaddr - PHYS_BASE).

(** ** pte.h *)

Definition PTSHIFT : Z := PGBITS.
Definition PTBITS : Z := 10.
Definition PTMASK : Z := BITMASK PTSHIFT PTBITS.
Definition PDSHIFT : Z := PTSHIFT + PTBITS.

Definition pt_no (va : Z) : Z := Z.shiftr (Z.land va PTMASK) PTSHIFT.
Definition pd_no (va : Z) : Z := Z.shiftr va PDSHIFT.

Definition PTE_FLAGS : Z := 4095.         (* 0x00000fff *)
Definition PTE_ADDR : Z := 4294963200.    (* 0xfffff000 *)
Definition PTE_P : Z := 1.
Definition PTE_W : Z := 2.
Definition PTE_U : Z := 4.
Definition PTE_A : Z := 32.
Definition PTE_D : Z := 64.

Definition pde_create {S} (pt : Z) : M S Z :=
  assert (pg_ofs pt =? 0);;;
  let* p := vtop pt in
  ret (Z.lor (Z.lor (Z.lor p PTE_U) PTE_P) PTE_W).

Definition pde_get_pt {S} (pde : Z) : M S Z :=
  assert (negb (Z.land pde PTE_P =? 0));;;
  ptov (Z.land pde PTE_ADDR).

Definition pte_create_kernel {S} (page : Z) (writable : bool) : M S Z :=
  assert (pg_ofs page =? 0);;;
  let* p := vtop page in
  ret (Z.lor (Z.lor p PTE_P) (if writable then PTE_W else 0)).

Definition pte_create_user {S} (page : Z) (writable : bool) : M S Z :=
  let* pte := pte_create_kernel page writable in
  ret (Z.lor pte PTE_U).

Definition pte_get_page {S} (pte : Z) : M S Z := ptov (Z.land pte PTE_ADDR).

(** ** Masks and shifts as arithmetic *)

Lemma pg_ofs_mod va : pg_ofs va = va mod PGSIZE.
Proof. unfold pg_ofs. change PGMASK with (Z.ones 12). apply Z.land_ones. lia. Qed.

Lemma pg_no_div va : pg_no va = va / PGSIZE.
Proof. unfold pg_no. by rewrite Z.shiftr_div_pow2 by done. Qed.

Lemma pd_no_div va : pd_no va = va / 4194304.
Proof. unfold pd_no. by rewrite Z.shiftr_div_pow2 by done. Qed.

(** The bits of a word above and below bit 12. *)
Lemma land_page_bits w : in_u32 w → Z.land w PTE_ADDR = w - w mod PGSIZE.
Proof.
  intros Hw. apply Z.bits_inj'. intros k Hk. rewrite Z.land_spec.
  replace (w - w mod PGSIZE) with (Z.shiftl (Z.shiftr w 12) 12).
  2: { rewrite Z.shiftl_mul_pow2, Z.shiftr_div_pow2 by lia. change (2 ^ 12) with PGSIZE.
       unfold PGSIZE. dlia. }
  change PTE_ADDR with (Z.shiftl (Z.ones 20) 12). rewrite !Z.shiftl_spec by done.
  destruct (Z.ltb_spec k 12).
  - rewrite !(Z.testbit_neg_r _ (k - 12)) by lia. by rewrite andb_false_r.
  - rewrite Z.shiftr_spec by lia. replace (k - 12 + 12) with k by lia.
    destruct (Z.ltb_spec k 32).
    + rewrite Z.ones_spec_low by lia. by rewrite andb_true_r.
    + rewrite Z.ones_spec_high by lia. rewrite andb_false_r. symmetry.
      destruct (Z.eq_dec w 0) as [->|]; [apply Z.testbit_0_l|].
      apply Z.bits_above_log2; [apply Hw|].
      apply Z.log2_lt_pow2; [unfold in_u32 in Hw; lia|].
      apply Z.lt_le_trans with (2 ^ 32); [apply Hw|apply Z.pow_le_mono_r; lia].
Qed.

Lemma pg_round_down_mod va : in_u32 va → pg_round_down va = va - va mod PGSIZE.
Proof. apply land_page_bits. Qed.

Lemma pt_no_div va : pt_no va = va / PGSIZE mod 1024.
Proof.
  unfold pt_no. change PTMASK with (Z.shiftl (Z.ones 10) 12). change PTSHIFT with 12.
  rewrite Z.shiftr_land, Z.shiftr_shiftl_l by lia. change (Z.shiftl (Z.ones 10) (12 - 12)) with (Z.ones 10).
  rewrite Z.land_ones by lia. by rewrite Z.shiftr_div_pow2 by lia.
Qed.

End Vaddr.
