(* ===== verification/Palloc.v ===== *)
(** * Palloc: the page allocator (threads/palloc.c)

    Memory is handed out in groups of pages from two pools, one for the kernel
    and one for user pages; each pool keeps a bitmap of its pages.  [pmem] is
    the memory of the pages; the bitmap that lies at the start of each pool is
    the record [used_map].  Flags are the bits of enum palloc_flags, a null
    pointer is 0.

    The theorem is the contract clients rely on: whatever the order of the
    requests, the groups in use are disjoint and inside a pool, a request
    fails only when no group of free pages is large enough, and the contents
    of pages in use never change. *)

From Stdlib Require Import ZArith Lia.
From stdpp Require Import base tactics option list numbers gmap relations.
From S2P Require Import Prelude Memory CString Bitmap Sched Synch Vaddr.
Import Memory CString Bitmap Sched Synch Vaddr.

Module Palloc.

(** ** Data *)

Record pool := mk_pool {
  p_lock : lock;
  used_map : bitmap;
  base : Z
}.

Record pstate := mk_pstate {
  pk : kernel;
  pmem : gmap Z Z;
  kernel_pool : pool;
  user_pool : pool
}.

#[global] Instance pstate_kernel : Kernel pstate := {|
  kget := pk;
  kset k s := mk_pstate k (pmem s) (kernel_pool s) (user_pool s);
  kget_kset _ _ := eq_refl;
  kset_kget := ltac:(by intros []);
  kset_kset _ _ _ := eq_refl
|}.

Definition PAL_ASSERT : Z := 1.
Definition PAL_ZERO : Z := 2.
Definition PAL_USER : Z := 4.

(** [flags & flag]. *)
Definition has (flags flag : Z) : bool := negb (Z.land flags flag =? 0).

Definition the_pool (user : bool) (s : pstate) : pool :=
  if user then user_pool s else kernel_pool s.
Definition set_pool (user : bool) (p : pool) (s : pstate) : pstate :=
  if user then mk_pstate (pk s) (pmem s) (kernel_pool s) p
  else mk_pstate (pk s) (pmem s) p (user_pool s).

(** [&pool->lock]. *)
Definition pool_lock (user : bool) : ptr pstate lock :=
  mk_ptr (λ s, Some (p_lock (the_pool user s)))
    (λ l s, let p := the_pool user s in set_pool user (mk_pool l (used_map p) (base p)) s).

Definition on_used_map {A} (user : bool) (m : M bitmap A) : M pstate A :=
  lift (λ s, used_map (the_pool user s))
    (λ b s, let p := the_pool user s in set_pool user (mk_pool (p_lock p) b (base p)) s) m.

Definition on_mem {A} (m : M mem A) : M pstate A :=
  lift pmem (λ x s, mk_pstate (pk s) x (kernel_pool s) (user_pool s)) m.

(** ** Operations *)

(** The [n] words at [p], whatever they are. *)
Definition words_at (m : gmap Z Z) (p : Z) (n : nat) : list Z :=
  (λ i : nat, le_val ((λ j, u8 (default 0 (m !! (p + 4 * Z.of_nat i + j)))) <$> [0; 1; 2; 3])) <$> seq 0 n.

(** The bitmap is created in the first pages of the pool: its elements follow
    the 8 bytes of the struct bitmap, and hold what the memory holds until
    they are cleared. *)
Definition init_pool (user : bool) (pbase page_cnt : Z) : M pstate unit :=
  let bm_pages := div_round_up (bitmap_buf_size page_cnt) PGSIZE in
  if bm_pages >? page_cnt then panic
  else
    let page_cnt := page_cnt - bm_pages in
    lock_init (pool_lock user);;;
    let* m := gets pmem in
    on_used_map user (λ _, bitmap_create_in_buf page_cnt (bm_pages * PGSIZE)
                             (words_at m (pbase + 8) (Z.to_nat (elem_cnt page_cnt))));;;
    modify (λ s, let p := the_pool user s in
      set_pool user (mk_pool (p_lock p) (used_map p) (u32 (pbase + bm_pages * PGSIZE))) s).

Definition palloc_init (user_page_limit init_ram_pages : Z) : M pstate unit :=
  let* free_start := ptov (1024 * 1024) in
  let* free_end := ptov (u32 (init_ram_pages * PGSIZE)) in
  let free_pages := (free_end - free_start) / PGSIZE in
  let user_pages := free_pages / 2 in
  let user_pages := if user_pages >? user_page_limit then user_page_limit else user_pages in
  let kernel_pages := free_pages - user_pages in
  init_pool false free_start kernel_pages;;;
  init_pool true (u32 (free_start + kernel_pages * PGSIZE)) user_pages.

Definition palloc_get_multiple (flags page_cnt : Z) : M pstate Z :=
  let user := has flags PAL_USER in
  if page_cnt =? 0 then ret 0
  else
    lock_acquire (pool_lock user);;;
    let* page_idx := on_used_map user (bitmap_scan_and_flip 0 page_cnt false) in
    lock_release (pool_lock user);;;
    let* pool := gets (the_pool user) in
    let pages := if negb (page_idx =? BITMAP_ERROR)
                 then u32 (base pool + u32 (PGSIZE * page_idx)) else 0 in
    (if negb (pages =? 0) then
       if has flags PAL_ZERO then on_mem (memset pages 0 (u32 (PGSIZE * page_cnt)));;; ret tt
       else ret tt
     else if has flags PAL_ASSERT then panic else ret tt);;;
    ret pages.

Definition palloc_get_page (flags : Z) : M pstate Z := palloc_get_multiple flags 1.

Definition page_from_pool (user : bool) (page : Z) : M pstate bool :=
  let* pool := gets (the_pool user) in
  let page_no := pg_no page in
  let start_page := pg_no (base pool) in
  let end_page := start_page + bit_cnt (used_map pool) in
  ret ((page_no >=? start_page) && (page_no <? end_page)).

Definition palloc_free_multiple (pages page_cnt : Z) : M pstate unit :=
  assert (pg_ofs pages =? 0);;;
  if (pages =? 0) || (page_cnt =? 0) then ret tt
  else
    let* k := page_from_pool false pages in
    let* user :=
      (if k : bool then ret false
       else let* u := page_from_pool true pages in if u : bool then ret true else panic) in
    let* pool := gets (the_pool user) in
    let page_idx := pg_no pages - pg_no (base pool) in
    on_mem (memset pages 204 (u32 (PGSIZE * page_cnt)));;;
    let* all := on_used_map user (bitmap_all page_idx page_cnt) in
    assert all;;;
    on_used_map user (bitmap_set_multiple page_idx page_cnt false).

Definition palloc_free_page (page : Z) : M pstate unit := palloc_free_multiple page 1.

(** ** Pools *)

Lemma the_pool_set u p s : the_pool u (set_pool u p s) = p.
Proof. by destruct u. Qed.

Lemma the_pool_set_other u v p s : u ≠ v → the_pool u (set_pool v p s) = the_pool u s.
Proof. by destruct u, v. Qed.

Lemma set_pool_set u p q s : set_pool u p (set_pool u q s) = set_pool u p s.
Proof. by destruct u. Qed.

Lemma pmem_set_pool u p s : pmem (set_pool u p s) = pmem s.
Proof. by destruct u. Qed.

Lemma ksched_set_pool u p s : ksched (set_pool u p s) = ksched s.
Proof. by destruct u. Qed.

#[global] Instance pool_lock_good u : GoodPtr (pool_lock u).
Proof.
  split; [..|by intros [] a [= <-]; destruct u as [], kernel_pool0, user_pool0| | |]; by destruct u.
Qed.

(** The pages of the groups [bl], by number. *)
Definition pages_of (bl : list (Z * Z)) : list Z :=
  bl ≫= (λ b, seqZ (pg_no b.1) b.2).

(** The pages of [pool] are page-aligned memory below the end of the address
    space. *)
Record pool_ok (u : bool) (s : pstate) : Prop := {
  po_wf : wf (used_map (the_pool u s));
  po_lock : p_lock (the_pool u s) = new_lock;
  po_base : 0 < base (the_pool u s) ∧ base (the_pool u s) mod PGSIZE = 0;
  po_end : base (the_pool u s) + PGSIZE * bit_cnt (used_map (the_pool u s)) < 2 ^ 32;
  po_mapped : mapped (pmem s) (base (the_pool u s)) (PGSIZE * bit_cnt (used_map (the_pool u s)))
}.

(** The [n] pages at [a] are pages of the pool. *)
Definition in_pool (u : bool) (s : pstate) (a n : Z) : Prop :=
  0 < n ∧ a mod PGSIZE = 0 ∧ base (the_pool u s) <= a ∧
  a + PGSIZE * n <= base (the_pool u s) + PGSIZE * bit_cnt (used_map (the_pool u s)).

(** The groups [bl] are in use and nothing else. *)
Record pinv (s : pstate) (bl : list (Z * Z)) : Prop := {
  pi_kernel : kernel_ok s;
  pi_pool : ∀ u, pool_ok u s;
  pi_kernel_base : PHYS_BASE + 1048576 <= base (kernel_pool s);
  pi_disjoint : base (kernel_pool s) + PGSIZE * bit_cnt (used_map (kernel_pool s)) <= base (user_pool s);
  pi_blocks : ∀ a n, (a, n) ∈ bl → ∃ u, in_pool u s a n;
  pi_nodup : NoDup (pages_of bl);
  pi_bits : ∀ u i, 0 <= i < bit_cnt (used_map (the_pool u s)) →
    bm_abs (used_map (the_pool u s)) !! Z.to_nat i =
      Some (bool_decide (pg_no (base (the_pool u s)) + i ∈ pages_of bl))
}.

Lemma elem_of_pages bl x : x ∈ pages_of bl ↔ ∃ a n, (a, n) ∈ bl ∧ pg_no a <= x < pg_no a + n.
Proof.
  unfold pages_of. rewrite list_elem_of_bind. split.
  - intros ([a n] & Hx%elem_of_seqZ & Hin). by exists a, n.
  - intros (a & n & Hin & Hx). exists (a, n). by rewrite elem_of_seqZ.
Qed.

Lemma pages_of_perm bl bl' : bl ≡ₚ bl' → pages_of bl ≡ₚ pages_of bl'.
Proof. intros Hp. unfold pages_of. by rewrite Hp. Qed.

(** The order of the groups does not matter. *)
#[global] Instance pinv_proper s : Proper ((≡ₚ) ==> iff) (pinv s).
Proof.
  assert (∀ bl bl', bl ≡ₚ bl' → pinv s bl → pinv s bl') as Himp.
  { intros bl bl' Hp []. pose proof (pages_of_perm _ _ Hp) as Hpg. split; try done.
    - intros a n. rewrite <- Hp. apply pi_blocks0.
    - by rewrite <- Hpg.
    - intros u i Hi. rewrite pi_bits0 by done. f_equal. apply bool_decide_ext. by rewrite Hpg. }
  intros bl bl' Hp. split; [by apply Himp|by apply Himp].
Qed.

Lemma pg_no_add a i : a mod PGSIZE = 0 → pg_no (a + PGSIZE * i) = pg_no a + i.
Proof. rewrite !pg_no_div. unfold PGSIZE. dlia. Qed.

Lemma pg_no_mono a b : pg_no a < pg_no b → a mod PGSIZE = 0 → b mod PGSIZE = 0 → a < b.
Proof. rewrite !pg_no_div. unfold PGSIZE. dlia. Qed.

(** [s] with the bitmap of one pool and the memory replaced. *)
Definition with_map (u : bool) (b : bitmap) (m : gmap Z Z) (s : pstate) : pstate :=
  let s := set_pool u (mk_pool new_lock b (base (the_pool u s))) s in
  mk_pstate (pk s) m (kernel_pool s) (user_pool s).

Lemma the_pool_with u b m s : the_pool u (with_map u b m s) = mk_pool new_lock b (base (the_pool u s)).
Proof. by destruct u. Qed.

Lemma the_pool_with_other u v b m s : u ≠ v → the_pool u (with_map v b m s) = the_pool u s.
Proof. by destruct u, v. Qed.

(** Where the pages of a pool are does not change. *)
Lemma with_map_pool v u b m s :
  bit_cnt b = bit_cnt (used_map (the_pool u s)) →
  base (the_pool v (with_map u b m s)) = base (the_pool v s) ∧
  bit_cnt (used_map (the_pool v (with_map u b m s))) = bit_cnt (used_map (the_pool v s)).
Proof.
  intros Hb. destruct (decide (v = u)) as [->|Hne].
  - rewrite the_pool_with. done.
  - by rewrite the_pool_with_other.
Qed.

Lemma in_pool_with v u b m s a n :
  bit_cnt b = bit_cnt (used_map (the_pool u s)) → in_pool v (with_map u b m s) a n ↔ in_pool v s a n.
Proof. intros Hb. unfold in_pool. by destruct (with_map_pool v u b m s Hb) as [-> ->]. Qed.

Lemma pinv_with u b m s bl bl' :
  pinv s bl → wf b → bit_cnt b = bit_cnt (used_map (the_pool u s)) →
  (∀ x, is_Some (pmem s !! x) → is_Some (m !! x)) →
  (∀ a n, (a, n) ∈ bl' → ∃ u, in_pool u s a n) → NoDup (pages_of bl') →
  (∀ i, 0 <= i < bit_cnt b →
     bm_abs b !! Z.to_nat i = Some (bool_decide (pg_no (base (the_pool u s)) + i ∈ pages_of bl'))) →
  (∀ v i, v ≠ u → 0 <= i < bit_cnt (used_map (the_pool v s)) →
     pg_no (base (the_pool v s)) + i ∈ pages_of bl' ↔ pg_no (base (the_pool v s)) + i ∈ pages_of bl) →
  pinv (with_map u b m s) bl'.
Proof.
  intros [Hk Hp Hkb Hd Hb Hn Hbits] Hwf Hc Hm Hb' Hn' Hu Hv.
  pose proof (λ v, with_map_pool v u b m s Hc) as Hloc. split.
  - by destruct u.
  - intros v. destruct (Hp v) as [H1 H2 H3 H4 H5]. destruct (Hloc v) as [Eb Ec].
    split; [| |by rewrite Eb|by rewrite Eb, Ec|rewrite Eb, Ec; intros x Hx; apply Hm, H5, Hx];
      (destruct (decide (v = u)) as [->|Hne]; [by rewrite the_pool_with|by rewrite the_pool_with_other]).
  - destruct (Hloc false) as [Eb _]. change (the_pool false) with kernel_pool in Eb. by rewrite Eb.
  - destruct (Hloc false) as [Eb Ec], (Hloc true) as [Eb' _]. simpl in *.
    change (the_pool false) with kernel_pool in *. change (the_pool true) with user_pool in *.
    by rewrite Eb, Ec, Eb'.
  - intros a n Hin. destruct (Hb' a n Hin) as [v Hv']. exists v. by apply in_pool_with.
  - done.
  - intros v i. destruct (decide (v = u)) as [->|Hne].
    + rewrite the_pool_with. simpl. apply Hu.
    + rewrite the_pool_with_other by done. intros Hi. rewrite Hbits by done. f_equal.
      apply bool_decide_ext. symmetry. by apply Hv.
Qed.

(** The page of another pool is not a page of this one. *)
Lemma pools_disjoint s bl u v i a n : pinv s bl → v ≠ u → in_pool u s a n →
  0 <= i < bit_cnt (used_map (the_pool v s)) →
  ¬ (pg_no a <= pg_no (base (the_pool v s)) + i < pg_no a + n).
Proof.
  intros [_ Hp _ Hd _ _ _] Hne (Hn & Hal & Hlo & Hhi) Hi Hc.
  destruct (po_base _ _ (Hp u)) as [_ Hbu], (po_base _ _ (Hp v)) as [_ Hbv].
  rewrite !pg_no_div in Hc.
  destruct u, v; try done; cbn [the_pool] in *; unfold PGSIZE in *; dlia.
Qed.

(** ** Requests *)

(** Every group of [n] pages of the pool has a page in use. *)
Definition exhausted (u : bool) (s : pstate) (bl : list (Z * Z)) (n : Z) : Prop :=
  ∀ a, in_pool u s a n → ∃ x, pg_no a <= x < pg_no a + n ∧ x ∈ pages_of bl.

Definition zeroed (m : gmap Z Z) (a n : Z) : Prop := ∀ x, a <= x < a + n → m !! x = Some 0.

(** Nothing outside the [n] bytes at [a] changes. *)
Definition outside_same (a n : Z) (m m' : gmap Z Z) : Prop := ∀ x, ¬ a <= x < a + n → m' !! x = m !! x.

Lemma scan_locked u s bl n :
  pinv s bl → 0 <= n →
  ∃ r b, lock_acquire (pool_lock u) s = Ok (tt, pstore (pool_lock u) (held (me s)) s) ∧
    on_used_map u (bitmap_scan_and_flip 0 n false) (pstore (pool_lock u) (held (me s)) s) =
      Ok (r, set_pool u (mk_pool (held (me s)) b (base (the_pool u s))) s) ∧
    lock_release (pool_lock u) (set_pool u (mk_pool (held (me s)) b (base (the_pool u s))) s) =
      Ok (tt, with_map u b (pmem s) s) ∧
    wf b ∧ bit_cnt b = bit_cnt (used_map (the_pool u s)) ∧
    first_group (bm_abs (used_map (the_pool u s))) 0 n false r ∧
    bm_abs b = if decide (r = BITMAP_ERROR) then bm_abs (used_map (the_pool u s))
               else splice r (replicate (Z.to_nat n) true) (bm_abs (used_map (the_pool u s))).
Proof.
  intros [Hk Hp _ _ _ _ _] Hn. destruct (Hp u) as [Hwf Hl _ _ _].
  destruct (scan_and_flip_first (used_map (the_pool u s)) 0 n false) as (r & b & E & Hr);
    [done|split; [lia|apply Hwf]|done|].
  exists r, b. split; [apply (lock_acquire_new (pool_lock u) s Hk); cbn; by rewrite Hl|]. split; [|split; [|done]].
  - unfold on_used_map, lift. simpl. rewrite the_pool_set. simpl. rewrite E. simpl.
    by rewrite the_pool_set, set_pool_set.
  - set (s' := set_pool u _ s).
    assert (me s' = me s) as Hme by (unfold me, s'; by rewrite ksched_set_pool).
    assert (kernel_ok s') as Hk' by (unfold kernel_ok, s'; by rewrite !ksched_set_pool).
    rewrite (lock_release_held (pool_lock u) s' Hk').
    + cbn. unfold s'. rewrite the_pool_set, set_pool_set. by destruct u.
    + cbn. rewrite Hme. unfold s'. by rewrite the_pool_set.
Qed.

Lemma lookup_pages s bl u i :
  pinv s bl → 0 <= i < bit_cnt (used_map (the_pool u s)) →
  (bm_abs (used_map (the_pool u s)) !! Z.to_nat i = Some false ↔
   pg_no (base (the_pool u s)) + i ∉ pages_of bl).
Proof.
  intros Hinv Hi. rewrite (pi_bits _ _ Hinv) by done.
  destruct (bool_decide_reflect (pg_no (base (the_pool u s)) + i ∈ pages_of bl)); naive_solver.
Qed.

(** The group a scan returns becomes a group in use. *)
Lemma pinv_get u s bl n r b m :
  pinv s bl → 0 < n → wf b → bit_cnt b = bit_cnt (used_map (the_pool u s)) →
  0 <= r → r + n <= bit_cnt b →
  all_bits (bm_abs (used_map (the_pool u s))) (Z.to_nat r) (Z.to_nat n) false →
  bm_abs b = splice r (replicate (Z.to_nat n) true) (bm_abs (used_map (the_pool u s))) →
  (∀ x, is_Some (pmem s !! x) → is_Some (m !! x)) →
  in_pool u s (base (the_pool u s) + PGSIZE * r) n ∧
  pinv (with_map u b m s) ((base (the_pool u s) + PGSIZE * r, n) :: bl).
Proof.
  intros Hinv Hn Hwf Hc Hr Hrn Hfree Hb Hm. set (a := base (the_pool u s) + PGSIZE * r).
  destruct (po_base _ _ (pi_pool _ _ Hinv u)) as [Hb0 Hbm].
  assert (pg_no a = pg_no (base (the_pool u s)) + r) as Ha by (by apply pg_no_add).
  assert (in_pool u s a n) as Hin.
  { unfold in_pool, a, PGSIZE in *. split; [done|]. split; [dlia|]. lia. }
  assert (∀ x, x ∈ seqZ (pg_no a) n → x ∉ pages_of bl) as Hfr.
  { intros x Hx%elem_of_seqZ. replace x with (pg_no (base (the_pool u s)) + (x - pg_no (base (the_pool u s)))) by lia.
    apply lookup_pages; [done|lia|]. rewrite <- (Hfree (Z.to_nat (x - pg_no a))) by lia. f_equal. lia. }
  split; [done|]. apply (pinv_with u b m s bl); [done|done|done|done| | | |].
  - intros a' n' [[= -> ->]|Hin']%elem_of_cons; [by exists u|by eapply pi_blocks].
  - unfold pages_of. rewrite bind_cons. apply NoDup_app.
    split; [apply NoDup_seqZ|]. split; [|by eapply pi_nodup]. intros x Hx. by apply Hfr.
  - intros i Hi. rewrite Hb, lookup_splice.
    2, 3: (unfold zlen; rewrite ?length_replicate, ?length_bm_abs; lia).
    rewrite length_replicate. unfold pages_of. rewrite bind_cons. fold (pages_of bl).
    case_decide as Hd.
    + rewrite lookup_replicate_2 by lia. f_equal. symmetry. apply bool_decide_eq_true.
      apply elem_of_app. left. apply elem_of_seqZ. simpl. lia.
    + rewrite (pi_bits _ _ Hinv) by lia. f_equal. apply bool_decide_ext.
      rewrite elem_of_app, elem_of_seqZ. simpl. split; [by right|]. intros [?|?]; [lia|done].
  - intros v i Hv Hi. unfold pages_of. rewrite bind_cons, elem_of_app, elem_of_seqZ. simpl.
    split; [|by right]. intros [Hx|Hx]; [|done]. by destruct (pools_disjoint s bl u v i a n).
Qed.

Lemma no_group_exhausted u s bl n :
  pinv s bl → 0 < n →
  (∀ j, 0 <= j → j + n <= zlen (bm_abs (used_map (the_pool u s))) →
     ¬ all_bits (bm_abs (used_map (the_pool u s))) (Z.to_nat j) (Z.to_nat n) false) →
  exhausted u s bl n.
Proof.
  intros Hinv Hn Hno a (_ & Ha & Hlo & Hhi).
  destruct (po_base _ _ (pi_pool _ _ Hinv u)) as [_ Hbm].
  destruct (po_wf _ _ (pi_pool _ _ Hinv u)) as ([Hc _] & _).
  destruct (decide (Exists (λ x, x ∈ pages_of bl) (seqZ (pg_no a) n))) as [Hex|Hex].
  { apply Exists_exists in Hex as (x & Hx%elem_of_seqZ & Hp). by exists x. }
  set (j := pg_no a - pg_no (base (the_pool u s))).
  assert (a = base (the_pool u s) + PGSIZE * j) as Ej by (unfold j; rewrite !pg_no_div; unfold PGSIZE in *; dlia).
  destruct (Hno j); [unfold PGSIZE in *; lia|unfold zlen; rewrite length_bm_abs; unfold PGSIZE in *; lia|].
  intros k Hk. replace (Z.to_nat j + k)%nat with (Z.to_nat (j + Z.of_nat k)) by (unfold PGSIZE in *; lia).
  apply (lookup_pages s bl); [done|unfold PGSIZE in *; lia|]. intros Hp. apply Hex, Exists_exists.
  exists (pg_no (base (the_pool u s)) + (j + Z.of_nat k)). split; [|done]. apply elem_of_seqZ. lia.
Qed.

(** The [n] pages at [a] filled with a byte. *)
Definition fill (m : gmap Z Z) (a n v : Z) : gmap Z Z :=
  Memory.store m a (replicate (Z.to_nat (PGSIZE * n)) v).

Lemma zlen_pages n (v : Z) : 0 <= n → zlen (replicate (Z.to_nat (PGSIZE * n)) v) = PGSIZE * n.
Proof. intros Hn. unfold zlen, PGSIZE. rewrite length_replicate. lia. Qed.

Lemma fill_out m a n v : 0 < n → outside_same a (PGSIZE * n) m (fill m a n v).
Proof. intros Hn x Hx. apply store_out. rewrite zlen_pages by lia. lia. Qed.

Lemma fill_in m a n v x : a <= x < a + PGSIZE * n → fill m a n v !! x = Some v.
Proof.
  intros Hx. unfold fill. assert (0 <= n) by (unfold PGSIZE in *; lia).
  rewrite lookup_store, decide_True by (by rewrite zlen_pages).
  apply lookup_replicate_2. unfold PGSIZE in *. lia.
Qed.

Lemma fill_mapped m a n v x : 0 < n → is_Some (m !! x) → is_Some (fill m a n v !! x).
Proof.
  intros Hn Hx. destruct (decide (a <= x < a + PGSIZE * n)); [by rewrite fill_in|].
  by rewrite fill_out.
Qed.

(** memset() over whole pages. *)
Lemma memset_pages s a n v : 0 < a → in_u32 (PGSIZE * n) → mapped (pmem s) a (PGSIZE * n) →
  on_mem (memset a v (u32 (PGSIZE * n))) s =
    Ok (a, mk_pstate (pk s) (fill (pmem s) a n (u8 v)) (kernel_pool s) (user_pool s)).
Proof.
  intros Ha Hn Hm. rewrite u32_small by done. unfold on_mem, lift.
  rewrite memset_ok; [done|done|apply Hn|done].
Qed.

(** Neither the running thread nor the place of the pools changes. *)
Definition unmoved (s s' : pstate) : Prop :=
  pk s' = pk s ∧ ∀ u, base (the_pool u s') = base (the_pool u s) ∧
                      bit_cnt (used_map (the_pool u s')) = bit_cnt (used_map (the_pool u s)).

Lemma unmoved_with u b m s : bit_cnt b = bit_cnt (used_map (the_pool u s)) → unmoved s (with_map u b m s).
Proof. intros Hb. split; [by destruct u|]. intros v. by apply with_map_pool. Qed.

Lemma unmoved_trans s1 s2 s3 : unmoved s1 s2 → unmoved s2 s3 → unmoved s1 s3.
Proof.
  intros [H1 H2] [H3 H4]. split; [congruence|]. intros u. destruct (H2 u), (H4 u). split; congruence.
Qed.

Lemma in_pool_unmoved u s s' a n : unmoved s s' → in_pool u s' a n ↔ in_pool u s a n.
Proof. intros [_ Hu]. unfold in_pool. by destruct (Hu u) as [-> ->]. Qed.

Lemma exhausted_unmoved u s s' bl n : unmoved s s' → exhausted u s bl n → exhausted u s' bl n.
Proof. intros Hu He a Ha. apply He. by rewrite <- (in_pool_unmoved u s s'). Qed.

(** What a successful request gives. *)
Record got (u : bool) (flags n a : Z) (s s' : pstate) (bl : list (Z * Z)) : Prop := {
  got_nonnull : a ≠ 0;
  got_pool : in_pool u s a n;
  got_inv : pinv s' ((a, n) :: bl);
  got_outside : outside_same a (PGSIZE * n) (pmem s) (pmem s');
  got_zero : has flags PAL_ZERO = true → zeroed (pmem s') a (PGSIZE * n);
  got_kernel : unmoved s s'
}.

Lemma palloc_get_ok flags n s bl :
  pinv s bl → 0 < n < 2 ^ 32 →
  (∃ a s', palloc_get_multiple flags n s = Ok (a, s') ∧ got (has flags PAL_USER) flags n a s s' bl) ∨
  (exhausted (has flags PAL_USER) s bl n ∧
   if has flags PAL_ASSERT then palloc_get_multiple flags n s = Panic
   else ∃ s', palloc_get_multiple flags n s = Ok (0, s') ∧ pinv s' bl ∧ pmem s' = pmem s ∧ unmoved s s').
Proof.
  intros Hinv Hn. set (u := has flags PAL_USER). set (z := has flags PAL_ZERO).
  destruct (scan_locked u s bl n Hinv ltac:(lia)) as (r & b & E1 & E2 & E3 & Hwf & Hc & Hfirst & Hb).
  unfold palloc_get_multiple. fold u z. rewrite (proj2 (Z.eqb_neq n 0)) by lia.
  rewrite (bind_ok _ _ _ _ _ E1), (bind_ok _ _ _ _ _ E2), (bind_ok _ _ _ _ _ E3), bind_gets.
  rewrite the_pool_with. cbn [base].
  assert (zlen (bm_abs (used_map (the_pool u s))) = bit_cnt (used_map (the_pool u s))) as Hz.
  { destruct (po_wf _ _ (pi_pool _ _ Hinv u)) as [[? _] _]. unfold zlen. rewrite length_bm_abs. lia. }
  destruct (po_base _ _ (pi_pool _ _ Hinv u)) as [Hb0 Hbm].
  pose proof (po_end _ _ (pi_pool _ _ Hinv u)) as Hend. change (2 ^ 32) with 4294967296 in *.
  destruct Hfirst as [[-> Hno]|(Hr0 & Hrn & Hfree & _)].
  - right. split; [by apply no_group_exhausted; [|lia|]|]. rewrite Z.eqb_refl. cbn [negb].
    rewrite Z.eqb_refl. cbn [negb]. destruct (has flags PAL_ASSERT); [done|].
    eexists. split; [done|]. split; [|split; [done|by apply unmoved_with]]. rewrite decide_True in Hb by done.
    pose proof Hinv as [Hk Hp Hkb Hd Hbl Hnd Hbits].
    apply (pinv_with u b (pmem s) s bl); try done. intros i Hi. rewrite Hb. apply Hbits. by rewrite <- Hc.
  - left. destruct (po_wf _ _ (pi_pool _ _ Hinv u)) as [[_ Hcm] _].
    assert (r ≠ BITMAP_ERROR) as Hne by (unfold BITMAP_ERROR; lia). rewrite decide_False in Hb by done.
    rewrite (proj2 (Z.eqb_neq r _)) by done. cbn [negb].
    rewrite (u32_small (PGSIZE * r)), (u32_small (base (the_pool u s) + PGSIZE * r))
      by (unfold in_u32, PGSIZE in *; lia).
    set (a := base (the_pool u s) + PGSIZE * r).
    rewrite (proj2 (Z.eqb_neq a 0)) by (unfold a, PGSIZE; lia). cbn [negb].
    assert (in_u32 (PGSIZE * n)) by (unfold in_u32, PGSIZE in *; lia).
    assert (mapped (pmem s) a (PGSIZE * n)) as Hma.
    { eapply mapped_sub; [apply (po_mapped _ _ (pi_pool _ _ Hinv u))|unfold a, PGSIZE; lia|].
      unfold a, PGSIZE. lia. }
    set (m := if z then fill (pmem s) a n 0 else pmem s).
    assert (outside_same a (PGSIZE * n) (pmem s) m) as Hout
      by (unfold m; destruct z; [apply fill_out; lia|done]).
    destruct (pinv_get u s bl n r b m) as [Hin Hinv'];
      [done|lia|done|done|lia|lia|done|done|unfold m; destruct z; [intros x; apply fill_mapped; lia|done]|].
    exists a, (with_map u b m s). split.
    + unfold m. destruct z; [|done]. rewrite bind_assoc.
      rewrite (bind_ok _ _ _ _ _ (memset_pages (with_map u b (pmem s) s) a n 0
        ltac:(unfold a, PGSIZE; lia) ltac:(done) Hma)). done.
    + split; [unfold a, PGSIZE; lia|done|done|exact Hout| |by apply unmoved_with].
      fold z. intros Ez x Hx. unfold m. cbn [pmem with_map]. rewrite Ez. by apply fill_in.
Qed.

(** ** Releases *)

Lemma page_from_pool_ok s bl u a n v :
  pinv s bl → in_pool u s a n → page_from_pool v a s = Ok (Bool.eqb v u, s).
Proof.
  intros Hinv Hin. pose proof Hin as (Hn & Ha & Hlo & Hhi). unfold page_from_pool. run. unfold ret.
  do 2 f_equal. destruct (po_base _ _ (pi_pool _ _ Hinv v)) as [_ Hb].
  set (i := pg_no a - pg_no (base (the_pool v s))).
  assert (a = base (the_pool v s) + PGSIZE * i) as Ea
    by (unfold i; rewrite !pg_no_div; unfold PGSIZE in *; dlia).
  destruct (decide (v = u)) as [->|Hne].
  - rewrite Bool.eqb_reflx. rewrite Z.geb_leb. apply andb_true_iff. rewrite Z.leb_le, Z.ltb_lt.
    unfold PGSIZE in *. lia.
  - rewrite (proj2 (Bool.eqb_false_iff v u)) by done.
    apply not_true_is_false. rewrite andb_true_iff, Z.geb_le, Z.ltb_lt. intros [H1 H2].
    apply (pools_disjoint s bl u v i a n Hinv Hne Hin); unfold i; lia.
Qed.

Lemma pages_of_cons a n bl : pages_of ((a, n) :: bl) = seqZ (pg_no a) n ++ pages_of bl.
Proof. done. Qed.

(** Two groups in use are different pages. *)
Lemma blocks_apart p l1 l2 a b : pinv p (l1 ++ l2) → (a, 1) ∈ l1 → (b, 1) ∈ l2 → a ≠ b.
Proof.
  intros Hp Ha Hb ->. pose proof (pi_nodup _ _ Hp) as Hn. unfold pages_of in Hn. rewrite bind_app, NoDup_app in Hn.
  destruct Hn as (_ & Hn & _).
  apply (Hn (pg_no b)); (apply elem_of_pages; exists b, 1; split; [done|lia]).
Qed.

Lemma block_fresh p bl a b : pinv p ((a, 1) :: bl) → (b, 1) ∈ bl → a ≠ b.
Proof. intros Hp. apply (blocks_apart p [(a, 1)] bl); [done|left]. Qed.

(** The pages of a group that is given back are free. *)
Lemma pinv_free u s bl a n b m :
  pinv s ((a, n) :: bl) → in_pool u s a n → wf b → bit_cnt b = bit_cnt (used_map (the_pool u s)) →
  bm_abs b = splice (pg_no a - pg_no (base (the_pool u s))) (replicate (Z.to_nat n) false)
               (bm_abs (used_map (the_pool u s))) →
  (∀ x, is_Some (pmem s !! x) → is_Some (m !! x)) → pinv (with_map u b m s) bl.
Proof.
  intros Hinv Hin Hwf Hc Hb Hm. pose proof Hin as (Hn & Ha & Hlo & Hhi).
  destruct (po_base _ _ (pi_pool _ _ Hinv u)) as [_ Hbm].
  set (r := pg_no a - pg_no (base (the_pool u s))) in *.
  assert (a = base (the_pool u s) + PGSIZE * r) as Ea
    by (unfold r; rewrite !pg_no_div; unfold PGSIZE in *; dlia).
  assert (0 <= r) as Hr by (unfold PGSIZE in *; lia).
  pose proof (pi_nodup _ _ Hinv) as Hnd. rewrite pages_of_cons, NoDup_app in Hnd.
  destruct Hnd as (_ & Hdis & Hnd).
  apply (pinv_with u b m s ((a, n) :: bl)); [done|done|done|done| |done| |].
  - intros a' n' Hin'. eapply pi_blocks; [done|]. by right.
  - intros i Hi. rewrite Hb, lookup_splice.
    2, 3: (unfold zlen; rewrite ?length_replicate, ?length_bm_abs; unfold PGSIZE in *; lia).
    rewrite length_replicate. case_decide as Hd.
    + rewrite lookup_replicate_2 by lia. f_equal. symmetry. apply bool_decide_eq_false.
      apply Hdis, elem_of_seqZ. lia.
    + rewrite (pi_bits _ _ Hinv) by lia. f_equal. apply bool_decide_ext.
      rewrite pages_of_cons, elem_of_app, elem_of_seqZ. split; [|by right].
      intros [?|?]; [unfold PGSIZE in *; lia|done].
  - intros v i Hv Hi. rewrite pages_of_cons, elem_of_app, elem_of_seqZ. split; [by right|].
    intros [Hx|Hx]; [|done]. by destruct (pools_disjoint s ((a, n) :: bl) u v i a n).
Qed.

Lemma palloc_free_ok a n s bl :
  pinv s ((a, n) :: bl) →
  wp (palloc_free_multiple a n)
     (λ _ s', pinv s' bl ∧ outside_same a (PGSIZE * n) (pmem s) (pmem s') ∧ unmoved s s') s.
Proof.
  intros Hinv. destruct (pi_blocks _ _ Hinv a n (list_elem_of_here _ _)) as [u Hin].
  pose proof Hin as (Hn & Ha & Hlo & Hhi). destruct (pi_pool _ _ Hinv u) as [Hwf Hl [Hb0 Hbm] He Hma].
  change (2 ^ 32) with 4294967296 in *.
  set (r := pg_no a - pg_no (base (the_pool u s))).
  assert (a = base (the_pool u s) + PGSIZE * r) as Ea
    by (unfold r; rewrite !pg_no_div; unfold PGSIZE in *; dlia).
  assert (mapped (pmem s) a (PGSIZE * n)) as Hma'
    by (eapply mapped_sub; [exact Hma|unfold PGSIZE in *; lia|unfold PGSIZE in *; lia]).
  unfold palloc_free_multiple. apply wp_eq with (m' := _) (s' := s) (1 := eq_refl).
  apply wp_bind, wp_assert; [by rewrite pg_ofs_mod, Ha|].
  rewrite (proj2 (Z.eqb_neq a 0)), (proj2 (Z.eqb_neq n 0)) by (unfold PGSIZE in *; lia). cbn [orb].
  apply wp_bind, (wp_ok _ _ _ _ _ (page_from_pool_ok s _ u a n false Hinv Hin)).
  apply wp_bind. apply wp_ok with u s.
  { destruct u; [|done]. cbn [Bool.eqb]. by rewrite (bind_ok _ _ _ _ _ (page_from_pool_ok s _ true a n true Hinv Hin)). }
  wp_steps. fold r.
  apply (wp_ok _ _ _ _ _ (memset_pages s a n 204 ltac:(unfold PGSIZE in *; lia)
    ltac:(unfold in_u32, PGSIZE in *; lia) Hma')).
  set (s1 := mk_pstate _ _ _ _). assert (the_pool u s1 = the_pool u s) as Eu by (by destruct u).
  destruct (bitmap_all_spec (used_map (the_pool u s)) r n) as (all & Eall & Hall);
    [done|unfold PGSIZE in *; lia..|].
  apply wp_bind, wp_ok with all s1.
  { unfold on_used_map, lift. rewrite Eu, Eall. simpl. rewrite Eu. by destruct u, s, kernel_pool0, user_pool0. }
  apply wp_bind, wp_assert.
  { apply Hall. intros k Hk. replace (Z.to_nat r + k)%nat with (Z.to_nat (r + Z.of_nat k)) by (unfold PGSIZE in *; lia).
    rewrite (pi_bits _ _ Hinv) by (unfold PGSIZE in *; lia). f_equal. apply bool_decide_eq_true.
    rewrite pages_of_cons, elem_of_app, elem_of_seqZ. lia. }
  destruct (bitmap_set_multiple_spec (used_map (the_pool u s)) r n false)
    as (b & Eb & Hwfb & Hcb & Habs); [done|unfold PGSIZE in *; lia..|].
  apply wp_ok with tt (with_map u b (fill (pmem s) a n 204) s).
  { unfold on_used_map, lift. rewrite Eu, Eb. simpl. rewrite Eu, Hl. by destruct u. }
  split; [|split; [by apply fill_out|by apply unmoved_with]].
  apply (pinv_free u s bl a n); [done|done|done|done|done|intros x; by apply fill_mapped].
Qed.

(** ** Initialisation *)

Lemma words_at_ok m p n : zlen (words_at m p n) = Z.of_nat n ∧ Forall in_u32 (words_at m p n).
Proof.
  unfold words_at. split; [unfold zlen; by rewrite length_fmap, length_seq|].
  apply Forall_fmap, Forall_forall. intros i _. unfold in_u32. simpl.
  pose proof (λ x, u8_range x) as Hr. unfold in_u8 in Hr.
  repeat match goal with |- context [u8 ?x] => pose proof (Hr x); generalize dependent (u8 x) end. lia.
Qed.

(** A pool none of whose pages is in use. *)
Definition fresh_pool (u : bool) (lo hi : Z) (s : pstate) : Prop :=
  wf (used_map (the_pool u s)) ∧ p_lock (the_pool u s) = new_lock ∧
  lo <= base (the_pool u s) ∧ base (the_pool u s) mod PGSIZE = 0 ∧
  base (the_pool u s) + PGSIZE * bit_cnt (used_map (the_pool u s)) = hi ∧
  bm_abs (used_map (the_pool u s)) = replicate (Z.to_nat (bit_cnt (used_map (the_pool u s)))) false.

Lemma init_pool_ok u pbase cnt s s' :
  0 < pbase → pbase mod PGSIZE = 0 → 0 <= cnt → pbase + PGSIZE * cnt < 2 ^ 32 →
  init_pool u pbase cnt s = Ok (tt, s') →
  fresh_pool u pbase (pbase + PGSIZE * cnt) s' ∧ the_pool (negb u) s' = the_pool (negb u) s ∧
  pk s' = pk s ∧ pmem s' = pmem s.
Proof.
  intros Hb0 Hbm Hc0 Hend. unfold init_pool. set (bm := div_round_up _ _).
  destruct (Z.gtb_spec bm cnt); [done|]. unfold lock_init. run.
  assert (0 <= bm) as Hbm0.
  { unfold bm, div_round_up, bitmap_buf_size, byte_cnt, elem_cnt, div_round_up, PGSIZE, ELEM_BITS. dlia. }
  change (2 ^ 32) with 4294967296 in Hend.
  set (ws := words_at _ _ _). set (s1 := pstore _ _ s). intros Hrun.
  assert (wf (mk_bitmap (cnt - bm) ws)) as Hwf.
  { assert (zlen ws = Z.of_nat (Z.to_nat (elem_cnt (cnt - bm))) ∧ Forall in_u32 ws) as [Hz Hf]
      by apply words_at_ok.
    split; [cbn; unfold PGSIZE in *; lia|]. split; [|exact Hf].
    cbn [bits bit_cnt]. rewrite Hz. unfold elem_cnt, div_round_up, ELEM_BITS. dlia. }
  destruct (bitmap_set_all_spec _ false Hwf) as (b & Eb & Hwfb & Hcb & Hab). cbn [bit_cnt] in Hcb, Hab.
  revert Hrun. unfold bitmap_create_in_buf. destruct (_ <=? _); [|done].
  erewrite bind_ok; [|unfold on_used_map, lift; by rewrite Eb]. intros [= <-].
  rewrite u32_small by (unfold in_u32, PGSIZE in *; lia).
  split; [|by destruct u]. unfold fresh_pool. rewrite !the_pool_set. cbn [used_map p_lock base].
  split; [done|]. split; [unfold s1; by destruct u|]. rewrite Hcb. unfold PGSIZE in *.
  split; [lia|]. split; [dlia|]. split; [lia|done].
Qed.

(** The memory and the thread that palloc_init() finds. *)
Definition boots (limit ram : Z) (s : pstate) : Prop :=
  kernel_ok s ∧ 256 <= ram < 262144 ∧ 0 <= limit ∧
  mapped (pmem s) (PHYS_BASE + 1048576) (ram * PGSIZE - 1048576).

Lemma fresh_pool_ok u lo hi s :
  fresh_pool u lo hi s → 0 < lo → hi < 2 ^ 32 → mapped (pmem s) lo (hi - lo) → pool_ok u s.
Proof.
  intros (Hwf & Hl & Hlo & Hm & Hhi & Hb) Hlo0 Hhi32 Hmap.
  split; [done|done|split; [lia|done]|lia|]. eapply mapped_sub; [done|lia|lia].
Qed.

Lemma palloc_init_ok limit ram s s' :
  boots limit ram s → palloc_init limit ram s = Ok (tt, s') → pinv s' [].
Proof.
  intros (Hk & Hram & Hlim & Hmap). change (2 ^ 32) with 4294967296 in *.
  unfold palloc_init, ptov. rewrite bind_assoc, bind_assert by done. run.
  rewrite (u32_small (ram * PGSIZE)) by (unfold in_u32, PGSIZE; lia).
  rewrite bind_assert by (apply Z.ltb_lt; unfold PGSIZE, PHYS_BASE; lia). run.
  rewrite !u32_small by (unfold in_u32, PGSIZE, PHYS_BASE; lia).
  replace ((ram * PGSIZE + PHYS_BASE - (1024 * 1024 + PHYS_BASE)) / PGSIZE) with (ram - 256)
    by (unfold PGSIZE; dlia).
  set (up := if _ >? _ then _ else _).
  assert (0 <= up <= ram - 256) as Hup by (unfold up; destruct (Z.gtb_spec ((ram - 256) / 2) limit); dlia).
  set (lo := 1024 * 1024 + PHYS_BASE). assert (0 < lo ∧ lo mod PGSIZE = 0) as [Hlo0 Hlom] by done.
  assert (lo + PGSIZE * (ram - 256) < 4294967296) as Hend by (unfold lo, PGSIZE, PHYS_BASE; lia).
  rewrite u32_small by (unfold in_u32, PGSIZE in *; lia).
  intros ([] & s1 & E1 & E2)%bind_inv.
  apply init_pool_ok in E1 as (F1 & P1 & K1 & M1); [|done|done|lia|change (2 ^ 32) with 4294967296; unfold PGSIZE in *; lia].
  apply init_pool_ok in E2 as (F2 & P2 & K2 & M2);
    [|unfold PGSIZE in *; lia|unfold PGSIZE in *; dlia|lia|change (2 ^ 32) with 4294967296; unfold PGSIZE in *; lia].
  cbn [negb] in P1, P2.
  assert (fresh_pool false lo (lo + PGSIZE * (ram - 256 - up)) s') as F1' by (unfold fresh_pool; by rewrite P2).
  assert (mapped (pmem s') lo (PGSIZE * (ram - 256))) as Hmap'.
  { rewrite M2, M1. unfold lo. rewrite Z.add_comm. eapply mapped_sub; [done|lia|unfold PGSIZE; lia]. }
  split.
  - unfold kernel_ok, ksched in *. cbn [kget pstate_kernel] in *. by rewrite K2, K1.
  - intros [].
    + eapply fresh_pool_ok; [exact F2|unfold PGSIZE in *; lia|change (2 ^ 32) with 4294967296; unfold PGSIZE in *; lia|].
      eapply mapped_sub; [done|unfold PGSIZE in *; lia|unfold PGSIZE in *; lia].
    + eapply fresh_pool_ok; [exact F1'|lia|change (2 ^ 32) with 4294967296; unfold PGSIZE in *; lia|].
      eapply mapped_sub; [done|lia|unfold PGSIZE in *; lia].
  - destruct F1' as (_ & _ & Hlo1 & _). cbn [the_pool] in *. unfold lo in *. lia.
  - destruct F1' as (_ & _ & _ & _ & Hhi & _), F2 as (_ & _ & Hlo2 & _).
    cbn [the_pool] in *. unfold PGSIZE in *. lia.
  - intros a n []%not_elem_of_nil.
  - constructor.
  - intros u i Hi. rewrite bool_decide_eq_false_2 by apply not_elem_of_nil.
    assert (bm_abs (used_map (the_pool u s')) =
      replicate (Z.to_nat (bit_cnt (used_map (the_pool u s')))) false) as ->
      by (destruct u; [apply F2|apply F1']).
    apply lookup_replicate_2. lia.
Qed.

(** ** The allocator in use *)

(** Requests, releases of groups in use, and writes of clients to the pages
    they were given, in any order; [bl] are the groups in use. *)
Inductive pstep : pstate * list (Z * Z) → pstate * list (Z * Z) → Prop :=
| ps_get flags n a s s' bl : 0 <= n < 2 ^ 32 → palloc_get_multiple flags n s = Ok (a, s') →
    pstep (s, bl) (s', if decide (a = 0) then bl else (a, n) :: bl)
| ps_free a n s s' bl bl' : bl ≡ₚ (a, n) :: bl' → palloc_free_multiple a n s = Ok (tt, s') →
    pstep (s, bl) (s', bl')
| ps_write a n m s bl : (a, n) ∈ bl → outside_same a (PGSIZE * n) (pmem s) m →
    (∀ x, is_Some (pmem s !! x) → is_Some (m !! x)) →
    pstep (s, bl) (mk_pstate (pk s) m (kernel_pool s) (user_pool s), bl).

Lemma pinv_write s bl m : pinv s bl → (∀ x, is_Some (pmem s !! x) → is_Some (m !! x)) →
  pinv (mk_pstate (pk s) m (kernel_pool s) (user_pool s)) bl.
Proof.
  intros [Hk Hp Hkb Hd Hb Hn Hbits] Hm. split; try done.
  intros u. destruct (Hp u) as [H1 H2 H3 H4 H5]. split; try done. intros x Hx. apply Hm, H5, Hx.
Qed.

Lemma pstep_inv x y : pstep x y → pinv x.1 x.2 → pinv y.1 y.2.
Proof.
  intros [flags n a s s' bl Hn E|a n s s' bl bl' Hp E|a n m s bl Hin Hout Hm] Hinv; cbn [fst snd] in *.
  - destruct (decide (n = 0)) as [->|]; [injection E as <- <-; done|].
    destruct (palloc_get_ok flags n s bl Hinv ltac:(lia)) as [(a' & s1 & E' & Hgot)|[_ Hno]].
    + rewrite E in E'. injection E' as <- <-. rewrite decide_False by apply Hgot. apply Hgot.
    + destruct (has flags PAL_ASSERT); [by rewrite E in Hno|]. destruct Hno as (s1 & E' & Hinv' & _).
      rewrite E in E'. by injection E' as -> ->.
  - rewrite Hp in Hinv. pose proof (palloc_free_ok a n s bl' Hinv) as Hw. unfold wp in Hw.
    rewrite E in Hw. apply Hw.
  - by apply pinv_write.
Qed.

(** C4. The contract of the page allocator.  After any sequence of requests,
    releases and writes, the groups of pages in use are disjoint and lie in a
    pool; a request returns a group of free pages of the pool asked for,
    cleared if asked, and changes no other byte, and it fails (a null pointer,
    or PANIC under PAL_ASSERT) only when the pool has no large enough group of
    free pages; the release of a group in use returns and changes no byte
    outside it. *)
Theorem palloc_contract limit ram s0 s1 s bl :
  boots limit ram s0 → palloc_init limit ram s0 = Ok (tt, s1) → rtc pstep (s1, []) (s, bl) →
  NoDup (pages_of bl) ∧ (∀ a n, (a, n) ∈ bl → ∃ u, in_pool u s a n) ∧
  (∀ flags n, 0 < n < 2 ^ 32 →
     (∃ a s', palloc_get_multiple flags n s = Ok (a, s') ∧ a ≠ 0 ∧
        in_pool (has flags PAL_USER) s a n ∧ NoDup (pages_of ((a, n) :: bl)) ∧
        outside_same a (PGSIZE * n) (pmem s) (pmem s') ∧
        (has flags PAL_ZERO = true → zeroed (pmem s') a (PGSIZE * n))) ∨
     (exhausted (has flags PAL_USER) s bl n ∧
      if has flags PAL_ASSERT then palloc_get_multiple flags n s = Panic
      else ∃ s', palloc_get_multiple flags n s = Ok (0, s') ∧ pmem s' = pmem s)) ∧
  (∀ a n, (a, n) ∈ bl →
     wp (palloc_free_multiple a n) (λ _ s', outside_same a (PGSIZE * n) (pmem s) (pmem s')) s).
Proof.
  intros Hboot Hinit Hsteps.
  assert (pinv s bl) as Hinv.
  { pose proof (palloc_init_ok _ _ _ _ Hboot Hinit) as H1.
    assert (∀ x y, rtc pstep x y → pinv x.1 x.2 → pinv y.1 y.2) as Hrtc.
    { intros x y Hxy. induction Hxy as [|x y z H _ IH]; [done|]. intros Hx. by eapply IH, pstep_inv. }
    exact (Hrtc _ _ Hsteps H1). }
  split; [by eapply pi_nodup|]. split; [by eapply pi_blocks|]. split.
  - intros flags n Hn.
    destruct (palloc_get_ok flags n s bl Hinv Hn) as [(a & s' & E & [H1 H2 H3 H4 H5 _])|[Hex Hno]].
    + left. exists a, s'. split; [done|]. split; [done|]. split; [done|].
      split; [by eapply pi_nodup|]. done.
    + right. split; [done|]. destruct (has flags PAL_ASSERT); [done|].
      destruct Hno as (s' & E & _ & Hm & _). by exists s'.
  - intros a n (l1 & l2 & ->)%list_elem_of_split.
    assert (pinv s ((a, n) :: l1 ++ l2)) as Hinv' by (by rewrite Permutation_middle).
    eapply wp_mono; [by apply palloc_free_ok|]. by intros _ s' (_ & ? & _).
Qed.

(** ** Example: two pools of one page *)

Definition demo_ram : gmap Z Z := Memory.store ∅ (PHYS_BASE + 1048576) (replicate (Z.to_nat 16384) 7).
Definition demo_boot : pstate :=
  mk_pstate demo_lock.1 demo_ram (mk_pool new_lock (mk_bitmap 0 []) 0) (mk_pool new_lock (mk_bitmap 0 []) 0).
Definition demo_init : pstate := result_of (palloc_init 1000 260 demo_boot) demo_boot.
Definition demo_page : Z := PHYS_BASE + 1048576 + 4096.
Definition demo_got : pstate := result_of (palloc_get_multiple PAL_ZERO 1 demo_init) demo_init.

Lemma demo_boots : boots 1000 260 demo_boot.
Proof.
  split; [split; vm_compute; reflexivity|]. split; [lia|]. split; [lia|].
  intros x Hx. unfold demo_boot, demo_ram. cbn [pmem].
  rewrite lookup_store, decide_True.
  - apply lookup_lt_is_Some. rewrite length_replicate. unfold PGSIZE in *. lia.
  - unfold zlen. rewrite length_replicate. unfold PGSIZE in *. lia.
Qed.

Definition returns `{EqDecision A} (a : A) {S} (o : outcome S A) : bool :=
  match o with Ok (x, _) => bool_decide (x = a) | _ => false end.

Lemma returns_eq `{EqDecision A} (a : A) {S} (o : outcome S A) d : returns a o = true → o = Ok (a, result_of o d).
Proof. destruct o as [[x s]| | | |]; try done. intros ->%bool_decide_eq_true. done. Qed.

Lemma palloc_contract_witness :
  NoDup (pages_of [(demo_page, 1)]) ∧
  wp (palloc_free_multiple demo_page 1)
    (λ _ s', outside_same demo_page (PGSIZE * 1) (pmem demo_got) (pmem s')) demo_got.
Proof.
  destruct (palloc_contract 1000 260 demo_boot demo_init demo_got [(demo_page, 1)])
    as (H1 & _ & _ & H4).
  - exact demo_boots.
  - refine (is_ok_eq (palloc_init 1000 260 demo_boot) demo_boot _). vm_compute. reflexivity.
  - apply rtc_once.
    assert (palloc_get_multiple PAL_ZERO 1 demo_init = Ok (demo_page, demo_got)) as E
      by (refine (returns_eq demo_page (palloc_get_multiple PAL_ZERO 1 demo_init) demo_init _); vm_compute; reflexivity).
    exact (ps_get PAL_ZERO 1 demo_page demo_init demo_got [] ltac:(lia) E).
  - split; [exact H1|]. apply H4. apply list_elem_of_here.
Defined.

End Palloc.
