(* ===== verification/Malloc.v ===== *)
(** * Malloc: the block memory allocator (threads/malloc.c)

    Requests are rounded up to a power of two and served from pages of the
    page allocator cut into equal blocks ("arenas"); bigger requests get pages
    of their own.  [mstate] holds the page allocator with its memory, the
    descriptors, and the two kinds of structures malloc.c keeps inside the
    pages it owns: the header of an arena (12 bytes at the start of its page)
    is in [arenas] under the address of the page, and the links of a free
    block (its first 8 bytes) are in [links], the heap of [Lists].  A block
    becomes a list element when it is put on a free list ([to_elem] takes the
    bytes that are there for the links) and turns into plain bytes again when
    it is handed out ([to_bytes]).  A page without a header is not an arena:
    using it as one is a [Fault]. *)

From Stdlib Require Import ZArith Lia.
From stdpp Require Import base tactics option list numbers gmap relations.
From S2P Require Import Prelude Memory CString Lists ListSpec ListSort ListOps Bitmap Sched Synch Vaddr Palloc.
Import Memory CString Lists ListSpec ListOps Sched Synch Vaddr Palloc.

Module Malloc.

(** ** Data *)

Record desc := mk_desc {
  block_size : Z;
  blocks_per_arena : Z;
  d_lock : lock
}.

Definition ARENA_MAGIC : Z := 2589232877.   (* 0x9a548eed *)

(** [a_desc] is the index of the descriptor in [descs], [None] for a null
    pointer. *)
Record arena := mk_arena {
  magic : Z;
  a_desc : option nat;
  free_cnt : Z
}.
Definition sizeof_arena : Z := 12.

Record mstate := mk_mstate {
  mp : pstate;
  descs : list desc;
  desc_cnt : Z;
  links : gmap Z list_elem;
  arenas : gmap Z arena
}.

#[global] Instance mstate_kernel : Kernel mstate := {|
  kget s := pk (mp s);
  kset k s := mk_mstate (kset k (mp s)) (descs s) (desc_cnt s) (links s) (arenas s);
  kget_kset _ _ := eq_refl;
  kset_kget := ltac:(by intros [[]]);
  kset_kset _ _ _ := eq_refl
|}.

Definition on_pages {A} (m : M pstate A) : M mstate A :=
  lift mp (λ p s, mk_mstate p (descs s) (desc_cnt s) (links s) (arenas s)) m.
Definition on_bytes {A} (m : M mem A) : M mstate A := on_pages (on_mem m).
Definition on_links {A} (m : M (gmap Z list_elem) A) : M mstate A :=
  lift links (λ h s, mk_mstate (mp s) (descs s) (desc_cnt s) h (arenas s)) m.
Definition set_arenas (ar : gmap Z arena) (s : mstate) : mstate :=
  mk_mstate (mp s) (descs s) (desc_cnt s) (links s) ar.
Definition set_descs (ds : list desc) (s : mstate) : mstate :=
  mk_mstate (mp s) ds (desc_cnt s) (links s) (arenas s).

(** [&descs[i].lock]. *)
Definition desc_lock (i : nat) : ptr mstate lock :=
  mk_ptr (λ s, d_lock <$> descs s !! i)
    (λ l s, set_descs (alter (λ d, mk_desc (block_size d) (blocks_per_arena d) l) i (descs s)) s).

Definition desc_of (i : nat) : M mstate desc := let* s := get in deref (descs s !! i).
Definition arena_of (a : Z) : M mstate arena := let* s := get in deref (arenas s !! a).
Definition set_arena (a : Z) (r : arena) : M mstate unit := modify (λ s, set_arenas (<[a := r]> (arenas s)) s).

(** The bytes of a block become a list element, and the converse. *)
Definition to_elem (b : Z) : M mstate unit :=
  let* m := gets (λ s, pmem (mp s)) in
  on_links (modify <[b := match words_at m b 2 with [p; n] => mk_elem p n | _ => mk_elem 0 0 end]>).
Definition to_bytes (b : Z) : M mstate unit :=
  let* e := on_links (elem_at b) in
  on_links (modify (delete b));;;
  on_bytes (modify (λ m, Memory.store m b (le_bytes 4 (prev e) ++ le_bytes 4 (next e)))).

Section malloc.
(** The address of [descs], a static array of 48-byte structures. *)
Variable descs_at : Z.

(** [&descs[i].free_list]. *)
Definition free_list (i : nat) : Z := descs_at + 48 * Z.of_nat i + 8.

(** ** Initialisation *)

(** [for (block_size = 16; block_size < PGSIZE / 2; block_size *= 2)]. *)
Fixpoint init_loop (n : nat) (bs : Z) : M mstate unit :=
  if bs <? PGSIZE / 2 then
    match n with
    | O => no_fuel
    | S n =>
        let* s := get in
        let i := Z.to_nat (desc_cnt s) in
        modify (λ s, mk_mstate (mp s) (descs s) (desc_cnt s + 1) (links s) (arenas s));;;
        assert (desc_cnt s + 1 <=? zlen (descs s));;;
        let* d := desc_of i in
        modify (λ s, set_descs (<[i := mk_desc bs ((PGSIZE - sizeof_arena) / bs) (d_lock d)]> (descs s)) s);;;
        on_links (list_init (free_list i));;;
        lock_init (desc_lock i);;;
        init_loop n (u32 (bs * 2))
    end
  else ret tt.

(** The size doubles, so that it leaves its 32 bits after 32 steps. *)
Definition malloc_init : M mstate unit := init_loop 32 16.

(** ** Blocks and arenas *)

Definition block_to_arena (b : Z) : M mstate Z :=
  let a := pg_round_down b in
  assert (negb (a =? 0));;;
  let* r := arena_of a in
  assert (magic r =? ARENA_MAGIC);;;
  match a_desc r with
  | Some i => let* d := desc_of i in assert (u32 (pg_ofs b - sizeof_arena) mod block_size d =? 0)
  | None => assert (pg_ofs b =? sizeof_arena)
  end;;;
  ret a.

Definition arena_to_block (a idx : Z) : M mstate Z :=
  assert (negb (a =? 0));;;
  let* r := arena_of a in
  assert (magic r =? ARENA_MAGIC);;;
  let* i := deref (a_desc r) in
  let* d := desc_of i in
  assert (idx <? blocks_per_arena d);;;
  ret (a + sizeof_arena + idx * block_size d).

(** ** Allocation *)

(** [for (d = descs; d < descs + desc_cnt; d++) if (d->block_size >= size) break;],
    from [descs + i] with [n] descriptors left. *)
Fixpoint find_desc (size : Z) (n i : nat) : M mstate nat :=
  match n with
  | O => ret i
  | S n =>
      let* d := desc_of i in
      if block_size d >=? size then ret i else find_desc size n (S i)
  end.

(** The blocks of a new arena, from number [i], on the free list. *)
Fixpoint push_blocks (d : nat) (a : Z) (n : nat) (i : Z) : M mstate unit :=
  match n with
  | O => ret tt
  | S n =>
      let* b := arena_to_block a i in
      to_elem b;;;
      on_links (list_push_back (free_list d) b);;;
      push_blocks d a n (i + 1)
  end.

Definition malloc (size : Z) : M mstate Z :=
  if size =? 0 then ret 0
  else
    let* cnt := gets desc_cnt in
    let* i := find_desc size (Z.to_nat cnt) 0 in
    if Z.of_nat i =? cnt then
      let page_cnt := u32 (u32 (size + sizeof_arena) + PGSIZE - 1) / PGSIZE in
      let* a := on_pages (palloc_get_multiple 0 page_cnt) in
      if a =? 0 then ret 0
      else
        set_arena a (mk_arena ARENA_MAGIC None page_cnt);;;
        ret (a + sizeof_arena)
    else
      lock_acquire (desc_lock i);;;
      let* empty := on_links (list_empty (free_list i)) in
      let* ok :=
        (if empty : bool then
           let* a := on_pages (palloc_get_page 0) in
           if a =? 0 then lock_release (desc_lock i);;; ret false
           else
             let* d := desc_of i in
             set_arena a (mk_arena ARENA_MAGIC (Some i) (blocks_per_arena d));;;
             push_blocks i a (Z.to_nat (blocks_per_arena d)) 0;;;
             ret true
         else ret true) in
      if ok : bool then
        let* b := on_links (list_pop_front (free_list i)) in
        to_bytes b;;;
        let* a := block_to_arena b in
        let* r := arena_of a in
        set_arena a (mk_arena (magic r) (a_desc r) (u32 (free_cnt r - 1)));;;
        lock_release (desc_lock i);;;
        ret b
      else ret 0.

Definition calloc (a b : Z) : M mstate Z :=
  let size := u32 (a * b) in
  if (size <? a) || (size <? b) then ret 0
  else
    let* p := malloc size in
    (if negb (p =? 0) then on_bytes (memset p 0 size);;; ret tt else ret tt);;;
    ret p.

(** The static function block_size(). *)
Definition block_size_of (block : Z) : M mstate Z :=
  let* a := block_to_arena block in
  let* r := arena_of a in
  match a_desc r with
  | Some i => let* d := desc_of i in ret (block_size d)
  | None => ret (u32 (PGSIZE * free_cnt r - pg_ofs block))
  end.

(** ** Release *)

(** [for (i = 0; i < d->blocks_per_arena; i++) list_remove (arena_to_block (a, i))]. *)
Fixpoint remove_blocks (a : Z) (n : nat) (i : Z) : M mstate unit :=
  match n with
  | O => ret tt
  | S n =>
      let* b := arena_to_block a i in
      on_links (list_remove b);;;
      on_links (modify (delete b));;;
      remove_blocks a n (i + 1)
  end.

Definition free (p : Z) : M mstate unit :=
  if p =? 0 then ret tt
  else
    let* a := block_to_arena p in
    let* r := arena_of a in
    match a_desc r with
    | Some i =>
        let* d := desc_of i in
        on_bytes (memset p 204 (block_size d));;;
        lock_acquire (desc_lock i);;;
        to_elem p;;;
        on_links (list_push_front (free_list i) p);;;
        let* r := arena_of a in
        let cnt := u32 (free_cnt r + 1) in
        set_arena a (mk_arena (magic r) (a_desc r) cnt);;;
        (if cnt >=? blocks_per_arena d then
           assert (cnt =? blocks_per_arena d);;;
           remove_blocks a (Z.to_nat (blocks_per_arena d)) 0;;;
           modify (λ s, set_arenas (delete a (arenas s)) s);;;
           on_pages (palloc_free_page a)
         else ret tt);;;
        lock_release (desc_lock i)
    | None =>
        modify (λ s, set_arenas (delete a (arenas s)) s);;;
        on_pages (palloc_free_multiple a (free_cnt r))
    end.

Definition realloc (old_block new_size : Z) : M mstate Z :=
  if new_size =? 0 then free old_block;;; ret 0
  else
    let* new_block := malloc new_size in
    (if negb (old_block =? 0) && negb (new_block =? 0) then
       let* old_size := block_size_of old_block in
       let min_size := if new_size <? old_size then new_size else old_size in
       on_bytes (memcpy new_block old_block min_size);;;
       free old_block
     else ret tt);;;
    ret new_block.

End malloc.

End Malloc.
