(* ===== verification/MallocSpec.v ===== *)
(** * MallocSpec: the contract of malloc(), calloc(), realloc() and free()

    The state of the allocator is read as a finite map [live] from the
    addresses of the blocks in use to their capacities.  malloc() adds a block
    that is large enough and disjoint from all others, free() takes one away,
    realloc() moves the contents, and no call changes a byte of a block in use.
    Every call returns: the ASSERTs on magic numbers, alignment and counts of
    free blocks hold. *)

From Stdlib Require Import ZArith Lia.
From stdpp Require Import base tactics option list numbers gmap relations.
From S2P Require Import Prelude Memory CString Lists ListSpec ListSort ListOps Bitmap Sched Synch Vaddr Palloc Malloc.
Import Memory CString Lists ListSpec ListOps Sched Synch Vaddr Palloc Malloc.

Module MallocSpec.

(** ** Sizes *)

(** Block size and blocks per arena of the descriptors malloc_init() makes. *)
Definition bs (i : nat) : Z := 16 * 2 ^ Z.of_nat i.
Definition bpa (i : nat) : Z := (PGSIZE - sizeof_arena) / bs i.

Lemma sizes i : (i < 7)%nat → 16 <= bs i <= 1024 ∧ 0 < bpa i <= 255 ∧ bpa i * bs i <= PGSIZE - sizeof_arena.
Proof. intros Hi. do 7 (destruct i as [|i]; [vm_compute; repeat split; discriminate|]). lia. Qed.

(** Block [k] of the arena at [a]. *)
Definition blk (i : nat) (a k : Z) : Z := a + sizeof_arena + k * bs i.

Lemma blk_range i a k : (i < 7)%nat → 0 <= k < bpa i →
  a + sizeof_arena <= blk i a k ∧ blk i a k + bs i <= a + PGSIZE.
Proof. intros Hi Hk. destruct (sizes i Hi) as (H1 & H2 & H3). unfold blk. nia. Qed.

Lemma blk_inj i a k k' : (i < 7)%nat → blk i a k = blk i a k' → k = k'.
Proof. intros Hi. destruct (sizes i Hi) as (H1 & _). unfold blk. nia. Qed.

Lemma blk_page i a k : (i < 7)%nat → 0 <= k < bpa i → a mod PGSIZE = 0 → pg_no (blk i a k) = pg_no a.
Proof.
  intros Hi Hk Ha. pose proof (blk_range i a k Hi Hk). pose proof (sizes i Hi). rewrite !pg_no_div. unfold sizeof_arena, PGSIZE in *. dlia.
Qed.

Lemma round_down_in a b : in_u32 b → a mod PGSIZE = 0 → a <= b < a + PGSIZE → pg_round_down b = a ∧ pg_ofs b = b - a.
Proof. intros Hb Ha Hab. rewrite pg_round_down_mod, pg_ofs_mod by done. unfold PGSIZE in *. split; dlia. Qed.

(** ** Invariant *)

Definition npages (r : arena) : Z := if a_desc r is Some _ then 1 else free_cnt r.
Definition arena_pages (ar : gmap Z arena) : list (Z * Z) := (λ x : Z * arena, (x.1, npages x.2)) <$> map_to_list ar.

(** The descriptor of the arena at [a]. *)
Definition kind (s : mstate) (a : Z) : option (option nat) := a_desc <$> arenas s !! a.

Definition is_block (s : mstate) (i : nat) (b : Z) : Prop :=
  ∃ a k, kind s a = Some (Some i) ∧ 0 <= k < bpa i ∧ b = blk i a k.

(** The free blocks of the list [G] in the page of [a]. *)
Definition count (a : Z) (G : list Z) : Z := zlen (filter (λ b, pg_no b = pg_no a) G).

Definition upd {A} (i : nat) (x : A) (F : nat → A) : nat → A := λ j, if decide (j = i) then x else F j.

Lemma upd_same {A} i (x : A) F : upd i x F i = x.
Proof. unfold upd. by rewrite decide_True. Qed.
Lemma upd_other {A} i j (x : A) F : j ≠ i → upd i x F j = F j.
Proof. intros. unfold upd. by rewrite decide_False. Qed.

Section spec.
Context (D : Z) (HD : 0 < D) (HD' : D + 480 <= PHYS_BASE + 1048576).

(** [F i] is the free list of descriptor [i]; [oth] are the page groups in use
    by others. *)
Record core (s : mstate) (F : nat → list Z) (oth : list (Z * Z)) : Prop := {
  co_pages : pinv (mp s) (arena_pages (arenas s) ++ oth);
  co_cnt : desc_cnt s = 7;
  co_descs : ∀ i, (i < 7)%nat → ∃ l, descs s !! i = Some (mk_desc (bs i) (bpa i) l);
  co_lists : ∀ i, (i < 7)%nat → is_list (links s) (free_list D i) (F i);
  co_free : ∀ i b, (i < 7)%nat → b ∈ F i → is_block s i b;
  co_arena : ∀ a r, arenas s !! a = Some r → magic r = ARENA_MAGIC ∧
    match a_desc r with Some i => (i < 7)%nat | None => 0 < free_cnt r end
}.

Definition counted (s : mstate) (F : nat → list Z) : Prop :=
  ∀ a r i, arenas s !! a = Some r → a_desc r = Some i → free_cnt r = count a (F i).

(** Between calls no arena is entirely free. *)
Definition packed (s : mstate) : Prop :=
  ∀ a r i, arenas s !! a = Some r → a_desc r = Some i → free_cnt r < bpa i.

Definition unlocked (s : mstate) : Prop := ∀ i, (i < 7)%nat → (d_lock <$> descs s !! i) = Some new_lock.

(** Blocks in use, with their capacity. *)
Definition in_use (s : mstate) (F : nat → list Z) (p c : Z) : Prop :=
  (∃ a r, arenas s !! a = Some r ∧ a_desc r = None ∧ p = a + sizeof_arena ∧ c = PGSIZE * free_cnt r - sizeof_arena) ∨
  (∃ i, is_block s i p ∧ (p ∉ F i) ∧ c = bs i).

Definition alive (s : mstate) (F : nat → list Z) (live : gmap Z Z) : Prop :=
  ∀ p c, live !! p = Some c ↔ in_use s F p c.

(** ** Arenas *)

Lemma arena_pages_in ar a r : ar !! a = Some r → (a, npages r) ∈ arena_pages ar.
Proof. intros H. apply list_elem_of_fmap. exists (a, r). split; [done|]. by apply elem_of_map_to_list. Qed.

Lemma arena_pages_insert ar a r : ar !! a = None → arena_pages (<[a := r]> ar) ≡ₚ (a, npages r) :: arena_pages ar.
Proof. intros H. unfold arena_pages. by rewrite map_to_list_insert. Qed.

Lemma arena_pages_delete ar a r : ar !! a = Some r → arena_pages ar ≡ₚ (a, npages r) :: arena_pages (delete a ar).
Proof.
  intros H. rewrite <- arena_pages_insert by apply lookup_delete_eq. by rewrite insert_delete_id.
Qed.

Lemma arena_pages_same ar a r r' : ar !! a = Some r → npages r' = npages r →
  arena_pages (<[a := r']> ar) ≡ₚ arena_pages ar.
Proof.
  intros H E. rewrite <- insert_delete_eq, arena_pages_insert by apply lookup_delete_eq.
  by rewrite (arena_pages_delete ar a r H), E.
Qed.

Lemma pinv_block s bl a n : pinv s bl → (a, n) ∈ bl →
  a mod PGSIZE = 0 ∧ PHYS_BASE + 1048576 <= a ∧ 0 < n ∧ a + PGSIZE * n < 2 ^ 32 ∧ mapped (pmem s) a (PGSIZE * n).
Proof.
  intros Hp Hin. destruct (pi_blocks _ _ Hp a n Hin) as (u & Hn & Ha & Hlo & Hhi).
  destruct (pi_pool _ _ Hp u) as [_ _ _ He Hm]. pose proof (pi_kernel_base _ _ Hp) as Hk.
  pose proof (pi_disjoint _ _ Hp) as Hd. destruct (po_wf _ _ (pi_pool _ _ Hp false)) as [[Hc _] _].
  cbn [the_pool] in Hc. split; [done|]. split; [destruct u; cbn [the_pool] in *; unfold PGSIZE in *; lia|].
  split; [done|]. split; [unfold PGSIZE in *; lia|]. eapply mapped_sub; [exact Hm|done|unfold PGSIZE in *; lia].
Qed.

Lemma groups_disjoint bl a n a' n' x : NoDup (pages_of bl) → (a, n) ∈ bl → (a', n') ∈ bl →
  pg_no a <= x < pg_no a + n → pg_no a' <= x < pg_no a' + n' → (a, n) = (a', n').
Proof.
  intros Hn (l1 & l2 & ->)%list_elem_of_split Hin Hx Hx'.
  assert ((a', n') ∈ (a, n) :: l1 ++ l2) as [E|Hin']%elem_of_cons by (by rewrite Permutation_middle); [done|].
  rewrite (pages_of_perm _ ((a, n) :: l1 ++ l2)) in Hn by (by rewrite Permutation_middle).
  rewrite pages_of_cons, NoDup_app in Hn. destruct Hn as (_ & Hn & _). destruct (Hn x).
  - by apply elem_of_seqZ.
  - apply elem_of_pages. by exists a', n'.
Qed.

Section facts.
Context (s : mstate) (F : nat → list Z) (oth : list (Z * Z)) (Hc : core s F oth).

Lemma arena_facts a r : arenas s !! a = Some r →
  a mod PGSIZE = 0 ∧ PHYS_BASE + 1048576 <= a ∧ 0 < npages r ∧ a + PGSIZE * npages r < 2 ^ 32 ∧
  mapped (pmem (mp s)) a (PGSIZE * npages r).
Proof.
  intros Hr. eapply pinv_block; [apply Hc|]. apply elem_of_app. left. by apply arena_pages_in.
Qed.

(** Arenas that share a page are one arena. *)
Lemma arena_unique a r a' r' x : arenas s !! a = Some r → arenas s !! a' = Some r' →
  pg_no a <= x < pg_no a + npages r → pg_no a' <= x < pg_no a' + npages r' → a = a'.
Proof.
  intros Hr Hr' Hx Hx'. assert ((a, npages r) = (a', npages r')) as [= -> _]; [|done].
  eapply groups_disjoint; [apply (pi_nodup _ _ (co_pages _ _ _ Hc))| | |exact Hx|exact Hx'];
    apply elem_of_app; left; by apply arena_pages_in.
Qed.

Lemma kind_arena a o : kind s a = Some o → ∃ r, arenas s !! a = Some r ∧ a_desc r = o.
Proof. unfold kind. intros (r & Hr & ->)%fmap_Some. by exists r. Qed.

(** Where a block is. *)
Lemma block_facts i b : is_block s i b → ∃ a k r, arenas s !! a = Some r ∧ a_desc r = Some i ∧ 0 <= k < bpa i ∧
  b = blk i a k ∧ (i < 7)%nat ∧ a mod PGSIZE = 0 ∧ PHYS_BASE + 1048576 <= a ∧ a + PGSIZE < 2 ^ 32 ∧
  pg_no b = pg_no a ∧ a + sizeof_arena <= b ∧ b + bs i <= a + PGSIZE ∧ mapped (pmem (mp s)) a PGSIZE.
Proof.
  intros (a & k & (r & Hr & Hd)%kind_arena & Hk & ->). destruct (arena_facts a r Hr) as (Ha & Hlo & _ & Hhi & Hm).
  destruct (co_arena _ _ _ Hc a r Hr) as [_ Hi]. unfold npages in *. rewrite Hd in Hi, Hhi, Hm.
  rewrite Z.mul_1_r in Hhi, Hm. destruct (blk_range i a k Hi Hk). exists a, k, r. repeat (split; [done|]).
  split; [by apply blk_page|]. done.
Qed.

Lemma block_desc i j b : is_block s i b → is_block s j b → i = j.
Proof.
  intros (a & k & r & Hr & Hd & _ & _ & _ & _ & _ & _ & Hp & _)%block_facts
         (a' & k' & r' & Hr' & Hd' & _ & _ & _ & _ & _ & _ & Hp' & _)%block_facts.
  assert (a = a') as <-; [|congruence].
  apply (arena_unique a r a' r' (pg_no b)); [done|done|unfold npages; rewrite Hd; lia|unfold npages; rewrite Hd'; lia].
Qed.
End facts.

(** ** Free lists *)

Definition with_links (h : gmap Z list_elem) (s : mstate) : mstate :=
  mk_mstate (mp s) (descs s) (desc_cnt s) h (arenas s).
Definition with_pages (p : pstate) (s : mstate) : mstate :=
  mk_mstate p (descs s) (desc_cnt s) (links s) (arenas s).
Definition bytes (s : mstate) : gmap Z Z := pmem (mp s).
Definition with_bytes (m : gmap Z Z) (s : mstate) : mstate :=
  with_pages (mk_pstate (pk (mp s)) m (kernel_pool (mp s)) (user_pool (mp s))) s.

Lemma on_links_ok {A} (m : M (gmap Z list_elem) A) s a h' :
  m (links s) = Ok (a, h') → on_links m s = Ok (a, with_links h' s).
Proof. intros E. unfold on_links, lift. by rewrite E. Qed.

Lemma on_pages_ok {A} (m : M pstate A) s a p : m (mp s) = Ok (a, p) → on_pages m s = Ok (a, with_pages p s).
Proof. intros E. unfold on_pages, lift. by rewrite E. Qed.

Lemma on_bytes_ok {A} (m : M mem A) s a m' : m (bytes s) = Ok (a, m') → on_bytes m s = Ok (a, with_bytes m' s).
Proof. intros E. apply on_pages_ok. unfold on_mem, lift. fold (bytes s). by rewrite E. Qed.

(** The cells that belong to descriptor [i]. *)
Definition owner (s : mstate) (i : nat) (q : Z) : Prop :=
  q = free_list D i ∨ q = tail_of (free_list D i) ∨ is_block s i q.

Section lists.
Context (s : mstate) (F : nat → list Z) (oth : list (Z * Z)) (Hc : core s F oth).

Lemma nodes_owner i q : (i < 7)%nat → q ∈ nodes (free_list D i) (F i) → owner s i q.
Proof.
  intros Hi. unfold nodes. rewrite elem_of_cons, elem_of_app, list_elem_of_singleton.
  intros [->|[Hq| ->]]; [by left|right; right; by eapply co_free|by right; left].
Qed.

Lemma block_above i b : is_block s i b → D + 480 < b.
Proof.
  intros (a & k & r & _ & _ & _ & _ & _ & _ & Hlo & _ & _ & Hb & _)%(block_facts s F oth Hc).
  unfold sizeof_arena in *. lia.
Qed.

Lemma owner_unique i j q : (i < 7)%nat → (j < 7)%nat → owner s i q → owner s j q → i = j.
Proof.
  unfold owner, tail_of, free_list. intros Hi Hj Ho Ho'.
  assert (∀ n, is_block s n q → D + 480 < q) as Hab by (intros n; apply block_above).
  destruct Ho as [E|[E|Hb]], Ho' as [E'|[E'|Hb']]; try lia; try (by apply Hab in Hb; lia);
    try (by apply Hab in Hb'; lia). by eapply block_desc.
Qed.

(** One free list changes, within the cells of its descriptor. *)
Lemma links_update h' i ys : (i < 7)%nat → is_list h' (free_list D i) ys →
  (∀ q, ¬ owner s i q → h' !! q = links s !! q) → (∀ b, b ∈ ys → is_block s i b) →
  core (with_links h' s) (upd i ys F) oth.
Proof.
  intros Hi Hl Hout Hys. destruct Hc as [H1 H2 H3 H4 H5 H6]. split; [done|done|done| | |done].
  - intros j Hj. destruct (decide (j = i)) as [->|Hne]; [by rewrite upd_same|rewrite upd_other by done].
    eapply is_list_ext; [by apply H4| |apply Hl]. intros q Hq. apply Hout. intros Ho. apply Hne.
    apply (owner_unique j i q); [done|done|by apply nodes_owner|done].
  - intros j b Hj. destruct (decide (j = i)) as [->|Hne]; [rewrite upd_same; apply Hys|rewrite upd_other by done].
    by apply H5.
Qed.

(** ** Blocks and arenas *)

Lemma desc_of_ok i : (i < 7)%nat → ∃ l, desc_of i s = Ok (mk_desc (bs i) (bpa i) l, s).
Proof. intros Hi. destruct (co_descs _ _ _ Hc i Hi) as [l Hl]. exists l. unfold desc_of. run. by rewrite Hl. Qed.

Lemma arena_of_ok a r : arenas s !! a = Some r → arena_of a s = Ok (r, s).
Proof. intros Hr. unfold arena_of. run. by rewrite Hr. Qed.

Lemma arena_to_block_ok a r i k : arenas s !! a = Some r → a_desc r = Some i → 0 <= k < bpa i →
  arena_to_block a k s = Ok (blk i a k, s).
Proof.
  intros Hr Hd Hk. destruct (arena_facts s F oth Hc a r Hr) as (_ & Hlo & _).
  destruct (co_arena _ _ _ Hc a r Hr) as [Hm Hi]. rewrite Hd in Hi. unfold arena_to_block.
  rewrite bind_assert by (rewrite (proj2 (Z.eqb_neq a 0)) by (unfold PHYS_BASE in *; lia); done).
  rewrite (bind_ok _ _ _ _ _ (arena_of_ok a r Hr)), bind_assert by (by apply Z.eqb_eq).
  rewrite Hd. cbn [deref]. run. destruct (desc_of_ok i Hi) as [l El]. rewrite (bind_ok _ _ _ _ _ El).
  by rewrite bind_assert by (apply Z.ltb_lt; cbn; lia).
Qed.

Lemma block_to_arena_small a r i k : arenas s !! a = Some r → a_desc r = Some i → 0 <= k < bpa i →
  block_to_arena (blk i a k) s = Ok (a, s).
Proof.
  intros Hr Hd Hk. destruct (arena_facts s F oth Hc a r Hr) as (Ha & Hlo & _ & Hhi & _).
  destruct (co_arena _ _ _ Hc a r Hr) as [Hm Hi]. unfold npages in Hhi. rewrite Hd in Hi, Hhi.
  destruct (blk_range i a k Hi Hk) as [Hb1 Hb2]. destruct (sizes i Hi) as (Hs & Hp & _). change (2 ^ 32) with 4294967296 in *.
  destruct (round_down_in a (blk i a k)) as [Er Eo];
    [unfold in_u32, sizeof_arena, PGSIZE, PHYS_BASE in *; lia|done|unfold sizeof_arena in *; lia|].
  unfold block_to_arena. rewrite Er.
  rewrite bind_assert by (rewrite (proj2 (Z.eqb_neq a 0)) by (unfold PHYS_BASE in *; lia); done).
  rewrite (bind_ok _ _ _ _ _ (arena_of_ok a r Hr)), bind_assert by (by apply Z.eqb_eq).
  rewrite Hd, bind_assoc. destruct (desc_of_ok i Hi) as [l El]. rewrite (bind_ok _ _ _ _ _ El).
  rewrite bind_assert; [done|]. rewrite Eo. cbn [block_size]. apply Z.eqb_eq.
  replace (blk i a k - a - sizeof_arena) with (k * bs i) by (unfold blk; lia).
  rewrite u32_small by (unfold in_u32; nia). apply Z_mod_mult.
Qed.

Lemma block_to_arena_big a r : arenas s !! a = Some r → a_desc r = None →
  block_to_arena (a + sizeof_arena) s = Ok (a, s).
Proof.
  intros Hr Hd. destruct (arena_facts s F oth Hc a r Hr) as (Ha & Hlo & Hn & Hhi & _).
  destruct (co_arena _ _ _ Hc a r Hr) as [Hm _]. change (2 ^ 32) with 4294967296 in *.
  destruct (round_down_in a (a + sizeof_arena)) as [Er Eo];
    [unfold in_u32, sizeof_arena, PGSIZE, PHYS_BASE in *; lia|done|unfold sizeof_arena, PGSIZE; lia|].
  unfold block_to_arena. rewrite Er.
  rewrite bind_assert by (rewrite (proj2 (Z.eqb_neq a 0)) by (unfold PHYS_BASE in *; lia); done).
  rewrite (bind_ok _ _ _ _ _ (arena_of_ok a r Hr)), bind_assert by (by apply Z.eqb_eq).
  rewrite Hd, bind_assert; [done|]. rewrite Eo. apply Z.eqb_eq. lia.
Qed.
(** ** One block on or off its free list *)

Lemma block_cell i b : (i < 7)%nat → is_block s i b → b ∉ F i → b ∉ nodes (free_list D i) (F i).
Proof.
  intros Hi Hb Hn. pose proof (block_above i b Hb). unfold nodes, tail_of, free_list.
  rewrite elem_of_cons, elem_of_app, list_elem_of_singleton. intros [?|[?|?]]; [lia|done|lia].
Qed.

Lemma to_elem_ok b : ∃ e, to_elem b s = Ok (tt, with_links (<[b := e]> (links s)) s).
Proof. unfold to_elem. run. eexists. by apply on_links_ok. Qed.

Lemma cell_ready i b e : (i < 7)%nat → is_block s i b → b ∉ F i → is_list (<[b := e]> (links s)) (free_list D i) (F i).
Proof.
  intros Hi Hb Hn. pose proof (block_above i b Hb) as Hab. pose proof (co_lists _ _ _ Hc i Hi) as Hl.
  eapply is_list_ext; [exact Hl| |].
  - intros q Hq. apply lookup_insert_ne. intros <-. by apply (block_cell i b).
  - rewrite lookup_insert_ne by (unfold NULL; lia). apply Hl.
Qed.

Lemma cells_out i b e h' q : (i < 7)%nat → is_block s i b →
  frame (<[b := e]> (links s)) h' (b :: nodes (free_list D i) (F i)) → ¬ owner s i q → h' !! q = links s !! q.
Proof.
  intros Hi Hb [Hf _] Hq. rewrite Hf.
  - apply lookup_insert_ne. intros <-. apply Hq. by right; right.
  - intros [->|Hq']%elem_of_cons; [apply Hq; by right; right|by apply Hq, nodes_owner].
Qed.

Lemma push_back_block i b : (i < 7)%nat → is_block s i b → b ∉ F i →
  ∃ h1 h', to_elem b s = Ok (tt, with_links h1 s) ∧
    on_links (list_push_back (free_list D i) b) (with_links h1 s) = Ok (tt, with_links h' s) ∧
    core (with_links h' s) (upd i (F i ++ [b]) F) oth.
Proof.
  intros Hi Hb Hn. destruct (to_elem_ok b) as [e E]. set (h1 := <[b := e]> (links s)) in *.
  destruct (push_back_ok h1 (free_list D i) (F i) b) as (h' & E2 & Hl' & Hf);
    [by apply cell_ready|by apply block_cell|unfold h1; rewrite lookup_insert_eq; by eexists|].
  exists h1, h'. split; [done|]. split; [by rewrite (on_links_ok _ (with_links h1 s) _ _ E2)|].
  apply links_update; [done|done|intros q Hq; by eapply cells_out|].
  intros x [Hx| ->%list_elem_of_singleton]%elem_of_app; [by eapply co_free|done].
Qed.

Lemma push_front_block i b : (i < 7)%nat → is_block s i b → b ∉ F i →
  ∃ h1 h', to_elem b s = Ok (tt, with_links h1 s) ∧
    on_links (list_push_front (free_list D i) b) (with_links h1 s) = Ok (tt, with_links h' s) ∧
    core (with_links h' s) (upd i (b :: F i) F) oth.
Proof.
  intros Hi Hb Hn. destruct (to_elem_ok b) as [e E]. set (h1 := <[b := e]> (links s)) in *.
  destruct (push_front_ok h1 (free_list D i) (F i) b) as (h' & E2 & Hl' & Hf);
    [by apply cell_ready|by apply block_cell|unfold h1; rewrite lookup_insert_eq; by eexists|].
  exists h1, h'. split; [done|]. split; [by rewrite (on_links_ok _ (with_links h1 s) _ _ E2)|].
  apply links_update; [done|done|intros q Hq; by eapply cells_out|].
  intros x [->|Hx]%elem_of_cons; [done|by eapply co_free].
Qed.

(** A block taken off its list stops being a cell. *)
Lemma drop_cell i b xs ys h' : (i < 7)%nat → F i = xs ++ b :: ys → is_list h' (free_list D i) (xs ++ ys) →
  frame (links s) h' (nodes (free_list D i) (F i)) → core (with_links (delete b h') s) (upd i (xs ++ ys) F) oth.
Proof.
  intros Hi HF Hl [Hf _]. pose proof (co_lists _ _ _ Hc i Hi) as Hl0.
  assert (is_block s i b) as Hb by (eapply co_free; [done|done|]; rewrite HF; apply elem_of_app; right; left).
  pose proof (il_nodup _ _ _ Hl0) as Hnd. rewrite HF in Hnd.
  assert (b ∉ nodes (free_list D i) (xs ++ ys)) as Hn.
  { unfold nodes. rewrite <- app_assoc in Hnd |- *. cbn [app] in Hnd. rewrite <- Permutation_middle in Hnd.
    apply NoDup_cons in Hnd as [H1 H2]. apply NoDup_cons in H2 as [H2 _]. rewrite elem_of_cons.
    intros [->|Hx]; [apply H1; left|by apply H2]. }
  apply links_update; [done| | |].
  - eapply is_list_ext; [exact Hl| |].
    + intros q Hq. apply lookup_delete_ne. by intros <-.
    + rewrite lookup_delete_ne; [apply Hl|]. pose proof (block_above i b Hb). unfold NULL. lia.
  - intros q Hq. rewrite lookup_delete_ne by (intros <-; apply Hq; by right; right).
    apply Hf. intros Hq'. by apply Hq, nodes_owner.
  - intros x Hx. eapply co_free; [done|done|]. rewrite HF. set_solver.
Qed.
End lists.

(** ** Arenas come and go *)

Lemma core_ext s F F' oth : core s F oth → (∀ j, F' j = F j) → core s F' oth.
Proof.
  intros [H1 H2 H3 H4 H5 H6] He. split; try done.
  - intros i Hi. rewrite He. by apply H4.
  - intros i b Hi. rewrite He. by apply H5.
Qed.

Lemma core_bytes s F oth m : core s F oth → (∀ x, is_Some (bytes s !! x) → is_Some (m !! x)) →
  core (with_bytes m s) F oth.
Proof. intros [H1 H2 H3 H4 H5 H6] Hm. split; try done. by apply pinv_write. Qed.

Lemma kind_insert s a r r' b : arenas s !! a = Some r → a_desc r' = a_desc r →
  kind (set_arenas (<[a := r']> (arenas s)) s) b = kind s b.
Proof.
  intros Hr Hd. unfold kind. cbn [arenas set_arenas]. destruct (decide (b = a)) as [->|].
  - rewrite lookup_insert_eq, Hr. cbn. by rewrite Hd.
  - by rewrite lookup_insert_ne.
Qed.

Lemma is_block_ext s s' i b : (∀ a, kind s' a = kind s a) → is_block s' i b ↔ is_block s i b.
Proof. intros Hk. unfold is_block. by setoid_rewrite Hk. Qed.

(** The number of free blocks of an arena changes. *)
Lemma core_recount s F oth a r i c : core s F oth → arenas s !! a = Some r → a_desc r = Some i →
  core (set_arenas (<[a := mk_arena (magic r) (a_desc r) c]> (arenas s)) s) F oth.
Proof.
  intros [H1 H2 H3 H4 H5 H6] Hr Hd. split; [|done|done|done| |].
  - cbn [arenas set_arenas mp]. rewrite (arena_pages_same _ _ r); [done|done|]. unfold npages. cbn. by rewrite Hd.
  - intros j b Hj Hb. eapply is_block_ext; [intros a'; by apply (kind_insert _ _ r)|by apply H5].
  - intros a' r'. cbn [arenas set_arenas]. destruct (decide (a' = a)) as [->|].
    + rewrite lookup_insert_eq. intros [= <-]. cbn. specialize (H6 a r Hr). by rewrite Hd in H6 |- *.
    + rewrite lookup_insert_ne by done. apply H6.
Qed.

(** A page group that was free becomes an arena. *)
Lemma core_new_arena s F oth a r p : core s F oth → pinv p ((a, npages r) :: arena_pages (arenas s) ++ oth) →
  magic r = ARENA_MAGIC → match a_desc r with Some i => (i < 7)%nat | None => 0 < free_cnt r end →
  arenas s !! a = None ∧ core (set_arenas (<[a := r]> (arenas s)) (with_pages p s)) F oth.
Proof.
  intros [H1 H2 H3 H4 H5 H6] Hp Hm Hd.
  assert (arenas s !! a = None) as Hnew.
  { destruct (arenas s !! a) as [r'|] eqn:Hr; [exfalso|done]. pose proof (pi_nodup _ _ Hp) as Hn.
    destruct (pi_blocks _ _ Hp a (npages r) ltac:(left)) as (_ & Hn0 & _).
    destruct (pi_blocks _ _ H1 a (npages r')) as (_ & Hn1 & _); [apply elem_of_app; left; by apply arena_pages_in|].
    rewrite pages_of_cons, NoDup_app in Hn. destruct Hn as (_ & Hn & _). apply (Hn (pg_no a)); [apply elem_of_seqZ; lia|].
    apply elem_of_pages. exists a, (npages r'). split; [|lia]. apply elem_of_app. left. by apply arena_pages_in. }
  split; [done|]. split; [|done|done|done| |].
  - cbn [arenas set_arenas with_pages mp]. by rewrite arena_pages_insert.
  - intros j b Hj Hb. destruct (H5 j b Hj Hb) as (a' & k & Hk & Hr). exists a', k. split; [|done].
    unfold kind in *. cbn [arenas set_arenas with_pages]. rewrite lookup_insert_ne; [done|]. intros <-. by rewrite Hnew in Hk.
  - intros a' r'. cbn [arenas set_arenas with_pages]. destruct (decide (a' = a)) as [->|].
    + rewrite lookup_insert_eq. by intros [= <-].
    + rewrite lookup_insert_ne by done. apply H6.
Qed.

(** An arena without free blocks is given back. *)
Lemma core_del_arena s F oth a r p : core s F oth → arenas s !! a = Some r →
  (∀ i b, (i < 7)%nat → b ∈ F i → pg_no b ≠ pg_no a) → pinv p (arena_pages (delete a (arenas s)) ++ oth) →
  core (set_arenas (delete a (arenas s)) (with_pages p s)) F oth.
Proof.
  intros Hc Hr Hfree Hp. pose proof Hc as [H1 H2 H3 H4 H5 H6]. split; [done|done|done|done| |].
  - intros i b Hi Hb. destruct (H5 i b Hi Hb) as (a' & k & Hk & Hkr & ->). exists a', k. split; [|done].
    unfold kind in *. cbn [arenas set_arenas with_pages]. rewrite lookup_delete_ne; [done|]. intros <-.
    apply (Hfree i _ Hi Hb). apply blk_page; [done|done|]. by destruct (arena_facts s F oth Hc a r Hr).
  - intros a' r'. cbn [arenas set_arenas with_pages]. rewrite lookup_delete_Some. intros [_ Hr']. exact (H6 a' r' Hr').
Qed.

(** ** The blocks of an arena *)

Definition blocks (i : nat) (a k n : Z) : list Z := blk i a <$> seqZ k n.

Lemma elem_of_blocks i a k n b : b ∈ blocks i a k n ↔ ∃ m, k <= m < k + n ∧ b = blk i a m.
Proof.
  unfold blocks. rewrite list_elem_of_fmap. setoid_rewrite elem_of_seqZ. split; intros (m & ? & ?); by exists m.
Qed.

Lemma blocks_cons i a k n : 0 < n → blocks i a k n = blk i a k :: blocks i a (k + 1) (n - 1).
Proof. intros Hn. unfold blocks. rewrite (seqZ_cons k n) by done. cbn. by rewrite <- Z.add_1_r, <- Z.sub_1_r. Qed.

Lemma blocks_nodup i a k n : (i < 7)%nat → NoDup (blocks i a k n).
Proof.
  intros Hi. unfold blocks. apply NoDup_fmap_2_strong; [|apply NoDup_seqZ]. intros x y _ _. by apply blk_inj.
Qed.

(** malloc() puts the blocks of a new arena on the free list. *)
Lemma push_blocks_ok i a r oth : (i < 7)%nat → a_desc r = Some i → ∀ n k s F,
  core s F oth → arenas s !! a = Some r → 0 <= k → k + Z.of_nat n = bpa i →
  (∀ m, k <= m < bpa i → blk i a m ∉ F i) →
  ∃ h', push_blocks D i a n k s = Ok (tt, with_links h' s) ∧
    core (with_links h' s) (upd i (F i ++ blocks i a k (Z.of_nat n)) F) oth.
Proof.
  intros Hi Hd n. induction n as [|n IH]; intros k s F Hc Hr Hk Hn Hfree; cbn [push_blocks].
  { exists (links s). assert (with_links (links s) s = s) as -> by (by destruct s). split; [done|].
    cbn. rewrite app_nil_r. apply (core_ext s F); [done|]. intros j. unfold upd. by case_decide; subst. }
  assert (0 <= k < bpa i) as Hk' by lia.
  rewrite (bind_ok _ _ _ _ _ (arena_to_block_ok s F oth Hc a r i k Hr Hd Hk')).
  assert (is_block s i (blk i a k)) as Hb by (exists a, k; split; [unfold kind; by rewrite Hr; cbn; rewrite Hd|done]).
  destruct (push_back_block s F oth Hc i _ Hi Hb (Hfree k ltac:(lia))) as (h1 & h2 & E1 & E2 & Hc2).
  rewrite (bind_ok _ _ _ _ _ E1), (bind_ok _ _ _ _ _ E2).
  destruct (IH (k + 1) _ _ Hc2) as (h3 & E3 & Hc3); [done|lia|lia| |].
  { intros m Hm. rewrite upd_same, elem_of_app, list_elem_of_singleton. intros [H|H]; [by apply (Hfree m ltac:(lia))|].
    apply blk_inj in H; [lia|done]. }
  exists h3. split; [done|]. rewrite upd_same in Hc3. rewrite (blocks_cons i a k) by lia.
  replace (Z.of_nat (S n) - 1) with (Z.of_nat n) by lia. rewrite <- app_assoc in Hc3.
  apply (core_ext _ _ _ _ Hc3). intros j. unfold upd. by case_decide.
Qed.

(** ** Counting free blocks *)

Lemma count_cons a b G : count a (b :: G) = (if decide (pg_no b = pg_no a) then 1 else 0) + count a G.
Proof. unfold count, zlen. rewrite filter_cons. case_decide; cbn [length]; lia. Qed.

Lemma count_nonneg a G : 0 <= count a G.
Proof. apply zlen_nonneg. Qed.

Lemma count_middle a xs b ys : count a (xs ++ b :: ys) = (if decide (pg_no b = pg_no a) then 1 else 0) + count a (xs ++ ys).
Proof.
  rewrite <- count_cons. unfold count, zlen. by rewrite <- Permutation_middle.
Qed.

Lemma count_same a G : (∀ b, b ∈ G → pg_no b = pg_no a) → count a G = zlen G.
Proof.
  induction G as [|b G IH]; intros H; [done|]. rewrite count_cons, decide_True by (apply H; left).
  rewrite IH by (intros x Hx; apply H; by right). unfold zlen. cbn [length]. lia.
Qed.

Lemma count_none a G : (∀ b, b ∈ G → pg_no b ≠ pg_no a) → count a G = 0.
Proof.
  induction G as [|b G IH]; intros H; [done|]. rewrite count_cons, decide_False by (apply H; left).
  apply IH. intros x Hx. apply H. by right.
Qed.

Section counts.
Context (s : mstate) (F : nat → list Z) (oth : list (Z * Z)) (Hc : core s F oth).

Lemma arenas_apart a r a' r' : arenas s !! a = Some r → arenas s !! a' = Some r' → a ≠ a' →
  a + PGSIZE * npages r <= a' ∨ a' + PGSIZE * npages r' <= a.
Proof.
  intros Hr Hr' Hne. destruct (arena_facts s F oth Hc a r Hr) as (Ha & _ & Hn & _).
  destruct (arena_facts s F oth Hc a' r' Hr') as (Ha' & _ & Hn' & _).
  destruct (Z_le_gt_dec (a + PGSIZE * npages r) a') as [|H1]; [by left|right].
  destruct (Z_le_gt_dec (a' + PGSIZE * npages r') a) as [|H2]; [done|exfalso; apply Hne].
  apply (arena_unique s F oth Hc a r a' r' (Z.max (pg_no a) (pg_no a'))); [done|done|..];
    rewrite !pg_no_div; unfold PGSIZE in *; dlia.
Qed.

Lemma kind_page a i b : kind s a = Some (Some i) → is_block s i b → pg_no b = pg_no a → b ∈ blocks i a 0 (bpa i).
Proof.
  intros (r & Hr & Hd)%kind_arena (a' & k & r' & Hr' & Hd' & Hk & -> & _ & _ & _ & _ & Hp & _)%(block_facts s F oth Hc) Hpg.
  assert (a' = a) as ->; [|apply elem_of_blocks; by exists k].
  apply (arena_unique s F oth Hc a' r' a r (pg_no a)); [done|done|..];
    unfold npages; rewrite ?Hd, ?Hd'; lia.
Qed.

(** At most all blocks of an arena are free, and then they all are in the list. *)
Lemma count_full a i G : kind s a = Some (Some i) → NoDup G → (∀ b, b ∈ G → is_block s i b) →
  count a G <= bpa i ∧ (count a G = bpa i → ∀ m, 0 <= m < bpa i → blk i a m ∈ G).
Proof.
  intros Hk Hn HG. destruct (kind_arena s a (Some i) Hk) as (r & Hr & Hd).
  destruct (co_arena _ _ _ Hc a r Hr) as [_ Hi]. rewrite Hd in Hi. destruct (sizes i Hi) as (_ & Hb & _).
  set (L := filter (λ b, pg_no b = pg_no a) G).
  assert (L ⊆+ blocks i a 0 (bpa i)) as Hsub.
  { apply NoDup_submseteq; [by apply NoDup_filter|]. intros b [Hp Hb']%list_elem_of_filter.
    apply kind_page; [done|by apply HG|done]. }
  assert (length (blocks i a 0 (bpa i)) = Z.to_nat (bpa i)) as Hlen by (unfold blocks; by rewrite length_fmap, length_seqZ).
  pose proof (submseteq_length _ _ Hsub) as Hle. unfold count, zlen. fold L. split; [lia|].
  intros E m Hm. assert (blk i a m ∈ L) as Hin; [|by apply list_elem_of_filter in Hin as [_ Hin]].
  rewrite (submseteq_length_Permutation _ _ Hsub ltac:(lia)). apply elem_of_blocks. exists m. split; [lia|done].
Qed.

(** No block lies in the first page of a big block. *)
Lemma big_small a r j b : arenas s !! a = Some r → a_desc r = None → is_block s j b →
  pg_no b ≠ pg_no a ∧ b ≠ a + sizeof_arena.
Proof.
  intros Hr Hd Hb. destruct (arena_facts s F oth Hc a r Hr) as (Ha & _ & Hn & _). unfold npages in Hn. rewrite Hd in Hn.
  destruct (block_facts s F oth Hc j b Hb) as (a' & k & r' & Hr' & Hd' & _ & _ & _ & _ & _ & _ & Hpg & _).
  assert (pg_no b ≠ pg_no a) as Hne.
  { intros E. assert (a' = a) as ->; [|congruence].
    apply (arena_unique s F oth Hc a' r' a r (pg_no a)); [done|done|..]; unfold npages; rewrite ?Hd, ?Hd'; lia. }
  split; [done|]. intros ->. apply Hne. rewrite !pg_no_div. unfold sizeof_arena, PGSIZE in *. dlia.
Qed.

Lemma free_nodup i : (i < 7)%nat → NoDup (F i).
Proof. intros Hi. eapply elems_nodup. by apply (co_lists _ _ _ Hc). Qed.

(** ** Blocks in use *)

Lemma use_region p c : in_use s F p c → ∃ a r, arenas s !! a = Some r ∧ a + sizeof_arena <= p ∧
  p + c <= a + PGSIZE * npages r ∧ 16 <= c.
Proof.
  intros [(a & r & Hr & Hd & -> & ->)|(i & Hb & _ & ->)].
  - destruct (arena_facts s F oth Hc a r Hr) as (_ & _ & Hn & _). exists a, r.
    unfold npages in *. rewrite Hd in *. split; [done|]. unfold sizeof_arena, PGSIZE in *. lia.
  - destruct (block_facts s F oth Hc i p Hb) as (a & k & r & Hr & Hd & _ & _ & Hi & _ & _ & _ & _ & H1 & H2 & _).
    destruct (sizes i Hi) as (Hs & _). exists a, r. unfold npages. rewrite Hd. split; [done|]. lia.
Qed.

Lemma use_disjoint p c q c' : in_use s F p c → in_use s F q c' → p ≠ q → p + c <= q ∨ q + c' <= p.
Proof.
  intros Hp Hq Hne. destruct (use_region p c Hp) as (a & r & Hr & H1 & H2 & _).
  destruct (use_region q c' Hq) as (a' & r' & Hr' & H1' & H2' & _).
  destruct (decide (a = a')) as [<-|Hna].
  2: { pose proof (arenas_apart a r a' r' Hr Hr' Hna). unfold sizeof_arena in *. lia. }
  assert (r' = r) as -> by congruence.
  assert (∀ a1 r1 x, arenas s !! a1 = Some r1 → a1 + sizeof_arena <= x < a1 + PGSIZE * npages r1 →
            a + sizeof_arena <= x < a + PGSIZE * npages r → a1 = a) as Hsame.
  { intros a1 r1 x Hr1 Hx1 Hx. destruct (decide (a1 = a)) as [|Hn1]; [done|].
    pose proof (arenas_apart a1 r1 a r Hr1 Hr Hn1). unfold sizeof_arena in *. lia. }
  destruct (use_region p c Hp) as (_ & _ & _ & _ & _ & Hcp). destruct (use_region q c' Hq) as (_ & _ & _ & _ & _ & Hcq).
  assert (∀ x d, in_use s F x d → a + sizeof_arena <= x < a + PGSIZE * npages r →
    (a_desc r = None ∧ x = a + sizeof_arena) ∨ (∃ i k, a_desc r = Some i ∧ x = blk i a k ∧ d = bs i ∧ (i < 7)%nat)) as Hin.
  { intros x d [(a1 & r1 & Hr1 & Hd & -> & ->)|(i & Hb & _ & ->)] Hx.
    - destruct (arena_facts s F oth Hc a1 r1 Hr1) as (_ & _ & Hn & _).
      assert (a1 = a) as -> by (apply (Hsame a1 r1 (a1 + sizeof_arena)); unfold sizeof_arena, PGSIZE in *; lia || done).
      left. split; [congruence|done].
    - destruct (block_facts s F oth Hc i x Hb) as (a1 & k & r1 & Hr1 & Hd & _ & Ex & Hi & _ & _ & _ & _ & G1 & G2 & _).
      destruct (sizes i Hi) as (Hs & _).
      assert (a1 = a) as -> by (apply (Hsame a1 r1 x); [done|unfold npages; rewrite Hd; lia|done]).
      right. exists i, k. split; [congruence|done]. }
  destruct (Hin p c Hp ltac:(lia)) as [[Hd ->]|(i & k & Hd & Ep & Ec & Hi)],
           (Hin q c' Hq ltac:(lia)) as [[Hd' ->]|(j & k' & Hd' & Eq & Ec' & _)]; try congruence.
  assert (j = i) as -> by congruence. destruct (sizes i Hi) as (Hs & _). subst. unfold blk in *.
  assert (k ≠ k') by congruence. nia.
Qed.
End counts.

(** ** A block is handed out *)

Definition same_env (s s' : mstate) : Prop :=
  descs s' = descs s ∧ desc_cnt s' = desc_cnt s ∧ pk (mp s') = pk (mp s).

Definition keeps (live : gmap Z Z) (m m' : gmap Z Z) : Prop :=
  ∀ p c x, live !! p = Some c → p <= x < p + c → m' !! x = m !! x.

Lemma store_mapped m p l x : is_Some (m !! x) → is_Some (Memory.store m p l !! x).
Proof.
  intros Hx. rewrite lookup_store. case_decide; [|done]. apply lookup_lt_is_Some. unfold zlen in *. lia.
Qed.

(** The links of a cell go back to the memory they occupy. *)
Lemma to_bytes_ok s b e : links s !! b = Some e →
  ∃ l, zlen l = 8 ∧ to_bytes b s = Ok (tt, with_bytes (Memory.store (bytes s) b l) (with_links (delete b (links s)) s)).
Proof.
  intros He. exists (le_bytes 4 (prev e) ++ le_bytes 4 (next e)). split; [done|]. unfold to_bytes.
  assert (on_links (elem_at b) s = Ok (e, s)) as E1.
  { erewrite on_links_ok; [|unfold elem_at; run; rewrite He; reflexivity]. by destruct s. }
  rewrite (bind_ok _ _ _ _ _ E1). erewrite bind_ok; [|by apply on_links_ok]. by apply on_bytes_ok.
Qed.

Lemma pop_block s F oth i b xs : core s F oth → (i < 7)%nat → F i = b :: xs →
  ∃ h1 s1, on_links (list_pop_front (free_list D i)) s = Ok (b, with_links h1 s) ∧
    to_bytes b (with_links h1 s) = Ok (tt, s1) ∧ core s1 (upd i xs F) oth ∧ arenas s1 = arenas s ∧ same_env s s1 ∧
    ∀ x, ¬ b <= x < b + 8 → bytes s1 !! x = bytes s !! x.
Proof.
  intros Hc Hi HF. pose proof (co_lists _ _ _ Hc i Hi) as Hl. rewrite HF in Hl.
  destruct (pop_front_ok _ _ _ _ Hl) as (h1 & E1 & Hl1 & Hf). pose proof Hf as [_ Hdom].
  destruct (proj2 (Hdom b)) as [e He].
  { eapply node_alloc; [exact Hl|]. unfold nodes. right. left. }
  destruct (to_bytes_ok (with_links h1 s) b e He) as (l & Hz & E2).
  eexists h1, _. split; [by apply on_links_ok|]. split; [exact E2|]. split; [|split; [done|split; [done|]]].
  - apply core_bytes; [|intros x; apply store_mapped].
    apply (drop_cell s F oth Hc i b [] xs); [done|done|done|by rewrite HF].
  - intros x Hx. apply store_out. lia.
Qed.

(** A free block is not in use. *)
Lemma free_not_live s F oth (Hc : core s F oth) i b live : alive s F live → (i < 7)%nat → b ∈ F i → live !! b = None.
Proof.
  intros Hal Hi HF. destruct (live !! b) as [c|] eqn:El; [exfalso|done].
  assert (is_block s i b) as Hb by (by eapply co_free).
  apply Hal in El as [(a' & r' & Hr' & Hd' & Eb' & _)|(j & Hbj & Hnj & _)].
  - by destruct (big_small s F oth Hc a' r' i b Hr' Hd' Hb).
  - assert (j = i) as -> by (by apply (block_desc s F oth Hc j i b)). done.
Qed.

(** What is in use when a block leaves its free list. *)
Lemma alive_pop s s' F oth i b xs live : core s F oth → alive s F live → (i < 7)%nat → F i = b :: xs →
  (∀ a, kind s' a = kind s a) → (∀ a r, a_desc r = None → arenas s' !! a = Some r ↔ arenas s !! a = Some r) →
  alive s' (upd i xs F) (<[b := bs i]> live).
Proof.
  intros Hc Hal Hi HF Hkind Hbig p c. assert (is_block s i b) as Hb by (eapply co_free; [exact Hc|done|]; rewrite HF; left).
  assert (live !! b = None) as Hlb by (apply (free_not_live s F oth Hc i); [done|done|rewrite HF; left]).
  pose proof (free_nodup s F oth Hc i Hi) as Hnd. rewrite HF in Hnd. apply NoDup_cons in Hnd as [Hnb Hnd].
  rewrite lookup_insert_Some. unfold in_use. setoid_rewrite (is_block_ext s s' _ _ Hkind). split.
  - intros [[<- <-]|[Hne Hl]]; [right; exists i; by rewrite upd_same|].
    apply Hal in Hl as [(a' & r' & Hr' & Hd' & E)|(j & Hbj & Hnj & Ec)].
    + left. exists a', r'. split; [by apply Hbig|done].
    + right. exists j. split; [done|]. split; [|done]. unfold upd. case_decide; [subst|done].
      intros Hx. apply Hnj. rewrite HF. by right.
  - intros [(a' & r' & Hr' & Hd' & Ep & Ec)|(j & Hbj & Hnj & Ec)].
    + right. assert (live !! p = Some c) as Hl by (apply Hal; left; exists a', r'; split; [by apply Hbig|done]).
      split; [|done]. intros <-. congruence.
    + destruct (decide (p = b)) as [->|Hne].
      * left. split; [done|]. assert (j = i) as -> by (by apply (block_desc s F oth Hc j i b)). done.
      * right. split; [done|]. apply Hal. right. exists j. split; [done|]. split; [|done].
        unfold upd in Hnj. case_decide; [subst|done]. rewrite HF. by intros [?|?]%elem_of_cons.
Qed.

(** The end of malloc(), with what follows. *)
Definition take {B} (i : nat) (k : Z → M mstate B) : M mstate B :=
  let* b := on_links (list_pop_front (free_list D i)) in
  to_bytes b;;;
  let* a := block_to_arena b in
  let* r := arena_of a in
  set_arena a (mk_arena (magic r) (a_desc r) (u32 (free_cnt r - 1)));;;
  k b.

Lemma take_ok s F oth i b xs live : core s F oth → counted s F → alive s F live → (i < 7)%nat → F i = b :: xs →
  (∀ a r j, arenas s !! a = Some r → a_desc r = Some j → pg_no a ≠ pg_no b → free_cnt r < bpa j) →
  ∃ s', (∀ B (k : Z → M mstate B), take i k s = k b s') ∧ core s' (upd i xs F) oth ∧ counted s' (upd i xs F) ∧ packed s' ∧ same_env s s' ∧
    live !! b = None ∧ alive s' (upd i xs F) (<[b := bs i]> live) ∧
    ∀ x, ¬ b <= x < b + 8 → bytes s' !! x = bytes s !! x.
Proof.
  intros Hc Hct Hal Hi HF Hpk.
  destruct (pop_block s F oth i b xs Hc Hi HF) as (h1 & s1 & E1 & E2 & Hc1 & Har & Henv & Hby).
  assert (is_block s i b) as Hb by (eapply co_free; [exact Hc|done|]; rewrite HF; left).
  destruct (block_facts s F oth Hc i b Hb) as (a & k & r & Hr & Hd & Hk & Eb & _ & _ & _ & _ & Hpg & _).
  assert (arenas s1 !! a = Some r) as Hr1 by (by rewrite Har).
  pose proof (free_nodup s F oth Hc i Hi) as Hnd. rewrite HF in Hnd. apply NoDup_cons in Hnd as [Hnb Hnd].
  pose proof (Hct a r i Hr Hd) as Hcnt. rewrite HF, count_cons, decide_True in Hcnt by done.
  assert (kind s a = Some (Some i)) as Hka by (unfold kind; rewrite Hr; cbn; by rewrite Hd).
  destruct (count_full s F oth Hc a i xs Hka Hnd) as [Hle _].
  { intros x Hx. eapply co_free; [exact Hc|done|]. rewrite HF. by right. }
  pose proof (count_nonneg a xs). destruct (sizes i Hi) as (_ & Hbp & _).
  assert (bpa i ≠ free_cnt r - 1) as Hlt.
  { rewrite Hcnt. intros E. destruct (count_full s F oth Hc a i (b :: xs) Hka) as [Hle' _].
    - by constructor.
    - intros x Hx. eapply co_free; [exact Hc|done|]. by rewrite HF.
    - rewrite count_cons, decide_True in Hle' by done. lia. }
  set (s' := set_arenas (<[a := mk_arena (magic r) (a_desc r) (u32 (free_cnt r - 1))]> (arenas s1)) s1).
  exists s'. split; [|split; [by apply (core_recount s1 _ oth a r i)|]].
  { intros B kont. unfold take. rewrite (bind_ok _ _ _ _ _ E1), (bind_ok _ _ _ _ _ E2). rewrite Eb at 1.
    rewrite (bind_ok _ _ _ _ _ (block_to_arena_small s1 _ oth Hc1 a r i k Hr1 Hd Hk)).
    rewrite (bind_ok _ _ _ _ _ (arena_of_ok s1 a r Hr1)). done. }
  assert (u32 (free_cnt r - 1) = count a xs) as Hu by (rewrite u32_small by (unfold in_u32; lia); lia).
  assert (∀ a', kind s' a' = kind s a') as Hkind.
  { intros a'. etrans; [by apply (kind_insert s1 a r)|]. unfold kind. by rewrite Har. }
  assert (∀ a' r' j, arenas s' !! a' = Some r' → a_desc r' = Some j →
            (a' = a ∧ r' = mk_arena (magic r) (a_desc r) (u32 (free_cnt r - 1))) ∨
            (arenas s !! a' = Some r' ∧ pg_no a' ≠ pg_no b)) as Hcases.
  { intros a' r' j. cbn [arenas s' set_arenas]. rewrite Har. destruct (decide (a' = a)) as [->|Hne].
    - rewrite lookup_insert_eq. intros [= <-] _. by left.
    - rewrite lookup_insert_ne by done. intros Hr' Hd'. right. split; [done|]. rewrite Hpg. intros E. apply Hne.
      apply (arena_unique s F oth Hc a' r' a r (pg_no a)); [done|done|..]; unfold npages; rewrite ?Hd, ?Hd'; lia. }
  split; [|split; [|split; [done|]]].
  - intros a' r' j Hr' Hd'. destruct (Hcases a' r' j Hr' Hd') as [[-> ->]|[Hr0 Hne]].
    + cbn in Hd' |- *. assert (j = i) as -> by congruence. by rewrite upd_same.
    + rewrite (Hct a' r' j Hr0 Hd'). unfold upd. case_decide; [subst|done]. rewrite HF, count_cons, decide_False; [done|].
      by intros E.
  - intros a' r' j Hr' Hd'. destruct (Hcases a' r' j Hr' Hd') as [[-> ->]|[Hr0 Hne]].
    + cbn in Hd' |- *. assert (j = i) as -> by congruence. lia.
    + by apply (Hpk a' r' j).
  - split; [by apply (free_not_live s F oth Hc i b live); [..|rewrite HF; left]|]. split; [|exact Hby].
    apply (alive_pop s s' F oth i b xs live Hc); [done|done|done|done|]. intros a' r' Hd'.
    cbn [arenas s' set_arenas]. rewrite Har. destruct (decide (a' = a)) as [->|Hne].
    + rewrite lookup_insert_eq, Hr. split; intros [= <-]; cbn in Hd'; congruence.
    + by rewrite lookup_insert_ne.
Qed.

(** ** A new arena *)

Lemma new_arena_ok s F oth i live p a : core s F oth → counted s F → alive s F live → packed s → (i < 7)%nat →
  F i = [] → pinv p ((a, 1) :: arena_pages (arenas s) ++ oth) → pk p = pk (mp s) →
  ∃ s', (let* d := desc_of i in
         set_arena a (mk_arena ARENA_MAGIC (Some i) (blocks_per_arena d));;;
         push_blocks D i a (Z.to_nat (blocks_per_arena d)) 0;;;
         ret true) (with_pages p s) = Ok (true, s') ∧
    let F' := upd i (blocks i a 0 (bpa i)) F in
    core s' F' oth ∧ counted s' F' ∧ alive s' F' live ∧ same_env s s' ∧ bytes s' = pmem p ∧
    ∀ a' r' j, arenas s' !! a' = Some r' → a_desc r' = Some j → pg_no a' ≠ pg_no a → free_cnt r' < bpa j.
Proof.
  intros Hc Hct Hal Hpk Hi HF Hp Hk. destruct (sizes i Hi) as (_ & Hbp & _).
  set (r := mk_arena ARENA_MAGIC (Some i) (bpa i)).
  destruct (core_new_arena s F oth a r p Hc Hp eq_refl Hi) as [Hnew Hc1].
  set (s1 := set_arenas (<[a := r]> (arenas s)) (with_pages p s)) in *.
  assert (arenas s1 !! a = Some r) as Hr by apply lookup_insert_eq.
  destruct (push_blocks_ok i a r oth Hi eq_refl (Z.to_nat (bpa i)) 0 s1 F Hc1 Hr) as (h & E & Hc2);
    [done|lia|intros m _; rewrite HF; apply not_elem_of_nil|].
  rewrite HF in Hc2. cbn [app] in Hc2. rewrite Z2Nat.id in Hc2 by lia.
  assert (∀ m, 0 <= m < bpa i → pg_no (blk i a m) = pg_no a) as Hpage.
  { intros m Hm. apply blk_page; [done|done|]. by destruct (arena_facts s1 F oth Hc1 a r Hr). }
  assert (∀ b, b ∈ blocks i a 0 (bpa i) → pg_no b = pg_no a) as Hpages
    by (intros b (m & Hm & ->)%elem_of_blocks; by apply Hpage).
  assert (∀ a' r' j, arenas s1 !! a' = Some r' → a_desc r' = Some j →
            (a' = a ∧ r' = r) ∨ (arenas s !! a' = Some r' ∧ pg_no a' ≠ pg_no a)) as Hcases.
  { intros a' r' j Hr' Hd'. destruct (decide (a' = a)) as [->|Hne]; [left; split; congruence|]. right.
    split; [by rewrite <- (lookup_insert_ne (arenas s) a a' r)|]. intros E'. apply Hne.
    apply (arena_unique s1 F oth Hc1 a' r' a r (pg_no a)); [done|done|..]; unfold npages; rewrite ?Hd'; cbn; lia. }
  exists (with_links h s1). split; [|split; [done|split; [|split; [|split; [done|split; [done|]]]]]].
  - destruct (co_descs _ _ _ Hc i Hi) as [l Hl]. unfold desc_of. run. cbn [descs with_pages]. rewrite Hl. cbn [deref]. run.
    unfold set_arena. run. cbn [blocks_per_arena]. change (set_arenas _ _) with s1. by rewrite (bind_ok _ _ _ _ _ E).
  - intros a' r' j Hr' Hd'. destruct (Hcases a' r' j Hr' Hd') as [[-> ->]|[Hr0 Hne]].
    + injection Hd' as <-. rewrite upd_same, count_same by done. unfold zlen, blocks.
      rewrite length_fmap, length_seqZ. cbn. lia.
    + rewrite (Hct a' r' j Hr0 Hd'). unfold upd. case_decide; [subst|done]. rewrite HF.
      rewrite (count_none a' (blocks _ _ _ _)); [done|]. intros b Hb. rewrite (Hpages b Hb). by intros E'.
  - intros q c. rewrite (Hal q c). unfold in_use. split.
    + intros [(a' & r' & Hr' & Hd' & Eq)|(j & Hb & Hn & Ec)].
      * left. exists a', r'. split; [|done]. change (arenas _) with (<[a := r]> (arenas s)). rewrite lookup_insert_ne by congruence. done.
      * right. exists j. destruct (block_facts s F oth Hc j q Hb) as (a' & k & r' & Hr' & Hd' & Hk' & Eq & _ & _ & _ & _ & Hpg & _).
        assert (arenas s1 !! a' = Some r') as Hr1 by (change (arenas s1) with (<[a := r]> (arenas s)); rewrite lookup_insert_ne by congruence; done).
        split; [exists a', k; split; [unfold kind; change (arenas (with_links h s1)) with (arenas s1); by rewrite Hr1; cbn; rewrite Hd'|done]|].
        split; [|done]. unfold upd. case_decide; [subst j|done]. intros Hq%Hpages.
        destruct (Hcases a' r' i Hr1 Hd') as [[-> _]|[_ Hne]]; congruence.
    + intros [(a' & r' & Hr' & Hd' & Eq)|(j & (a' & k & (r' & Hr' & Hd')%kind_arena & Hk' & Eq) & Hn & Ec)].
      * left. exists a', r'. split; [|done]. change (arenas _) with (<[a := r]> (arenas s)) in Hr'.
        rewrite lookup_insert_ne in Hr'; [done|]. intros <-. rewrite lookup_insert_eq in Hr'. injection Hr' as <-. done.
      * right. exists j. destruct (Hcases a' r' j Hr' Hd') as [[-> ->]|[Hr0 Hne]].
        -- exfalso. injection Hd' as <-. apply Hn. rewrite upd_same. apply elem_of_blocks. by exists k.
        -- split; [exists a', k; split; [unfold kind; rewrite Hr0; cbn; by rewrite Hd'|done]|]. split; [|done].
           unfold upd in Hn. case_decide; [subst j|done]. rewrite HF. apply not_elem_of_nil.
  - intros a' r' j Hr' Hd' Hne. destruct (Hcases a' r' j Hr' Hd') as [[-> _]|[Hr0 _]]; [done|]. by apply (Hpk a' r' j).
Qed.

(** ** Locks *)

#[local] Instance desc_lock_good i : GoodPtr (desc_lock i).
Proof.
  split.
  - intros s a [l Hl]. cbn in *. rewrite list_lookup_alter_eq. by destruct (descs s !! i).
  - intros s a b. cbn. unfold set_descs. cbn. f_equal. by rewrite list_alter_alter_eq.
  - intros [p ds n h ar] a Ha. cbn in *. unfold set_descs. cbn. f_equal. apply list_eq. intros j.
    rewrite list_lookup_alter. case_decide; [subst j|done]. destruct (ds !! i) as [d|]; [|done].
    cbn in *. injection Ha as <-. by destruct d.
  - done.
  - done.
  - done.
Qed.

Lemma lock_core s F oth i l : core s F oth → core (pstore (desc_lock i) l s) F oth.
Proof.
  intros [H1 H2 H3 H4 H5 H6]. split; try done. intros j Hj. destruct (H3 j Hj) as [l' Hl]. cbn.
  rewrite list_lookup_alter. case_decide; subst; rewrite Hl; by eexists.
Qed.

(** The invariant between calls. *)
Record minv (s : mstate) (F : nat → list Z) (oth : list (Z * Z)) (live : gmap Z Z) : Prop := {
  mi_core : core s F oth;
  mi_counted : counted s F;
  mi_packed : packed s;
  mi_unlocked : unlocked s;
  mi_alive : alive s F live
}.

(** What is proved under the lock of a descriptor holds when it is released. *)
Lemma critical {A} i s s1 s2 F oth live (a : A) : unlocked s → (i < 7)%nat → kernel_ok s →
  s1 = pstore (desc_lock i) (held (me s)) s → same_env s1 s2 →
  core s2 F oth → counted s2 F → packed s2 → alive s2 F live →
  lock_acquire (desc_lock i) s = Ok (tt, s1) ∧
  ∃ s3, (lock_release (desc_lock i);;; ret a) s2 = Ok (a, s3) ∧ lock_release (desc_lock i) s2 = Ok (tt, s3) ∧
    minv s3 F oth live ∧ bytes s3 = bytes s2 ∧ pk (mp s3) = pk (mp s) ∧ arenas s3 = arenas s2.
Proof.
  intros Hun Hi Hk -> (Hds & Hdc & Hpk) Hc Hct Hp Hal.
  split; [apply lock_acquire_new; [apply _|done|by apply (Hun i Hi)]|].
  assert (me s2 = me s) as Hme by (unfold me, ksched; cbn [kget mstate_kernel]; by rewrite Hpk).
  assert (pload (desc_lock i) s2 = Some (held (me s2))) as Hl.
  { cbn. rewrite Hds, Hme. cbn. rewrite list_lookup_alter_eq. specialize (Hun i Hi). by destruct (descs s !! i). }
  assert (kernel_ok s2) as Hk2 by (unfold kernel_ok, ksched in *; cbn [kget mstate_kernel] in *; by rewrite Hpk).
  pose proof (lock_release_held (desc_lock i) s2 Hk2 Hl) as E.
  exists (pstore (desc_lock i) new_lock s2). split; [by rewrite (bind_ok _ _ _ _ _ E)|]. split; [done|].
  split; [|done]. split; [by apply lock_core|done|done| |done].
  intros j Hj. cbn. rewrite Hds. cbn. rewrite list_alter_alter_eq, list_lookup_alter.
  specialize (Hun j Hj). case_decide; [subst|done]. by destruct (descs s !! j).
Qed.

(** ** malloc() *)

Lemma find_desc_ok s F oth size : core s F oth → ∀ n i, (n + i = 7)%nat →
  (∀ j, (j < i)%nat → bs j < size) →
  ∃ j, find_desc size n i s = Ok (j, s) ∧ ((j < 7)%nat ∧ size <= bs j ∨ j = 7%nat ∧ 1024 < size).
Proof.
  intros Hc n. induction n as [|n IH]; intros i Hn Hlt; cbn [find_desc].
  { exists i. split; [done|right]. split; [lia|]. apply (Hlt 6%nat). lia. }
  destruct (desc_of_ok s F oth Hc i ltac:(lia)) as [l El]. rewrite (bind_ok _ _ _ _ _ El). cbn [block_size].
  rewrite Z.geb_leb. destruct (Z.leb_spec size (bs i)); [exists i; split; [done|left; lia]|]. apply IH; [lia|].
  intros j Hj. destruct (decide (j = i)) as [->|]; [done|]. apply Hlt. lia.
Qed.

(** The pages a request for [size] bytes may need. *)
Definition need (size : Z) : Z := if size <=? 1024 then 1 else (size + 4107) / PGSIZE.

(** What a call of malloc() for [size] bytes does. *)
Definition malloc_post (s : mstate) (oth : list (Z * Z)) (live : gmap Z Z) (size p : Z) (s' : mstate) : Prop :=
  pk (mp s') = pk (mp s) ∧ keeps live (bytes s) (bytes s') ∧
  ((p = 0 ∧ (0 < size → exhausted false (mp s) (arena_pages (arenas s) ++ oth) (need size)) ∧ ∃ F', minv s' F' oth live) ∨
   (0 < p ∧ live !! p = None ∧ ∃ F' c, size <= c ∧ mapped (bytes s') p c ∧ minv s' F' oth (<[p := c]> live))).

Lemma live_mapped s F oth live p c : core s F oth → alive s F live → live !! p = Some c → mapped (bytes s) p c ∧ 0 < p.
Proof.
  intros Hc Hal Hl. apply Hal in Hl. destruct (use_region s F oth Hc p c Hl) as (a & r & Hr & H1 & H2 & _).
  destruct (arena_facts s F oth Hc a r Hr) as (_ & Hlo & _ & _ & Hm). unfold sizeof_arena, PHYS_BASE in *.
  split; [eapply mapped_sub; [exact Hm|lia|lia]|lia].
Qed.

(** A page that was free is in no block in use. *)
Lemma fresh_keeps s F oth live a n p m : core s F oth → alive s F live →
  pinv p ((a, n) :: arena_pages (arenas s) ++ oth) → outside_same a (PGSIZE * n) (bytes s) m → keeps live (bytes s) m.
Proof.
  intros Hc Hal Hp Hout q c x Hq Hx. apply Hout. intros Hxa. apply Hal in Hq.
  destruct (use_region s F oth Hc q c Hq) as (a' & r & Hr & H1 & H2 & _).
  destruct (arena_facts s F oth Hc a' r Hr) as (Ha' & _ & Hn' & _).
  destruct (pinv_block p _ a n Hp ltac:(left)) as (Ha & _ & Hn & _).
  pose proof (pi_nodup _ _ Hp) as Hnd. rewrite pages_of_cons, NoDup_app in Hnd. destruct Hnd as (_ & Hnd & _).
  apply (Hnd (pg_no x)).
  - apply elem_of_seqZ. rewrite !pg_no_div. unfold PGSIZE in *. dlia.
  - apply elem_of_pages. exists a', (npages r). split; [apply elem_of_app; left; by apply arena_pages_in|].
    rewrite !pg_no_div. unfold sizeof_arena, PGSIZE in *. dlia.
Qed.

(** The end of a small allocation: the free list is not empty. *)
Lemma malloc_take s s1 F F' oth live i size p m : minv s F oth live → (i < 7)%nat → size <= bs i →
  core s1 F' oth → counted s1 F' → alive s1 F' live →
  same_env (pstore (desc_lock i) (held (me s)) s) s1 → keeps live (bytes s) (bytes s1) →
  F' i = p :: m → (∀ a r j, arenas s1 !! a = Some r → a_desc r = Some j → pg_no a ≠ pg_no p → free_cnt r < bpa j) →
  wp (take i (λ b, lock_release (desc_lock i);;; ret b)) (malloc_post s oth live size) s1.
Proof.
  intros [Hc Hct Hpk Hun Hal] Hi Hsz Hc1 Hct1 Hal1 Henv Hkeep HF Hpk1.
  destruct (take_ok s1 F' oth i p m live Hc1 Hct1 Hal1 Hi HF Hpk1) as (s2 & E & Hc2 & Hct2 & Hp2 & Henv2 & Hl & Hal2 & Hby).
  unfold wp. rewrite E.
  destruct (critical i s _ s2 (upd i m F') oth (<[p := bs i]> live) p Hun Hi (pi_kernel _ _ (co_pages _ _ _ Hc)) eq_refl) as (_ & s3 & E3 & _ & Hm3 & Hb3 & Hk3 & _).
  { destruct Henv as (? & ? & ?), Henv2 as (? & ? & ?). split; [congruence|]. split; congruence. }
  1-4: done.
  rewrite E3. destruct (sizes i Hi) as (Hs & _). split; [done|].
  assert (alive s3 (upd i m F') (<[p := bs i]> live)) as Hal3 by apply Hm3.
  destruct (live_mapped s3 (upd i m F') oth _ p (bs i) (mi_core _ _ _ _ Hm3) Hal3 (lookup_insert_eq _ _ _)) as [Hmp Hp0]. split.
  - intros q c x Hq Hx. rewrite Hb3, <- (Hkeep q c x Hq Hx). apply Hby. intros Hxp.
    assert (q ≠ p) as Hne by congruence.
    destruct (use_disjoint s3 (upd i m F') oth (mi_core _ _ _ _ Hm3) p (bs i) q c) as [H|H];
      [by apply Hal3, lookup_insert_eq|apply Hal3; by rewrite lookup_insert_ne|congruence|lia|lia].
  - right. split; [done|]. split; [done|]. exists (upd i m F'), (bs i). done.
Qed.

Lemma malloc_small s F oth live i size : minv s F oth live → (i < 7)%nat → size <= bs i →
  wp (lock_acquire (desc_lock i);;;
      let* empty := on_links (list_empty (free_list D i)) in
      let* ok :=
        (if empty : bool then
           let* a := on_pages (palloc_get_page 0) in
           if a =? 0 then lock_release (desc_lock i);;; ret false
           else
             let* d := desc_of i in
             set_arena a (mk_arena ARENA_MAGIC (Some i) (blocks_per_arena d));;;
             push_blocks D i a (Z.to_nat (blocks_per_arena d)) 0;;;
             ret true
         else ret true) in
      if ok : bool then take i (λ b, lock_release (desc_lock i);;; ret b) else ret 0)
    (malloc_post s oth live size) s.
Proof.
  intros Hm Hi Hsz. pose proof Hm as [Hc Hct Hpk Hun Hal]. set (s1 := pstore (desc_lock i) (held (me s)) s).
  pose proof (pi_kernel _ _ (co_pages _ _ _ Hc)) as Hk.
  assert (core s1 F oth) as Hc1 by (by apply lock_core).
  assert (lock_acquire (desc_lock i) s = Ok (tt, s1)) as E1
    by (apply lock_acquire_new; [apply _|done|by apply (Hun i Hi)]).
  apply wp_bind. apply (wp_ok _ _ _ _ _ E1).
  assert (on_links (list_empty (free_list D i)) s1 = Ok (bool_decide (F i = []), s1)) as E2.
  { rewrite (on_links_ok _ s1 _ _ (list_empty_ok _ _ _ (co_lists _ _ _ Hc i Hi))). by destruct s. }
  apply wp_bind. apply (wp_ok _ _ _ _ _ E2). apply wp_bind. destruct (F i) as [|b xs] eqn:HF.
  2: { rewrite bool_decide_false by done. apply wp_ret. apply (malloc_take s s1 F F oth live i size b xs); try done.
       intros a r j Hr Hd _. by apply (Hpk a r j). }
  rewrite bool_decide_true by done.
  destruct (palloc_get_ok 0 1 (mp s1) _ (co_pages _ _ _ Hc1) ltac:(lia)) as [(a & p & E & [Hne (_ & Hal' & _) Hp1 Hout _ [Hpk1 _]])|[Hex Hno]].
  - apply wp_bind. apply (wp_ok _ _ _ _ _ (on_pages_ok _ _ _ _ E)). rewrite (proj2 (Z.eqb_neq a 0)) by done.
    change (has 0 PAL_USER) with false in *.
    destruct (new_arena_ok s1 F oth i live p a Hc1 Hct Hal Hpk Hi HF Hp1 Hpk1) as (s2 & E3 & Hc2 & Hct2 & Hal2 & Henv & Hby & Hpk2).
    apply (wp_ok _ _ _ _ _ E3). destruct (sizes i Hi) as (_ & Hbp & _).
    apply (malloc_take s s2 F (upd i (blocks i a 0 (bpa i)) F) oth live i size (blk i a 0) (blocks i a 1 (bpa i - 1)) Hm); try done.
    + rewrite Hby. eapply fresh_keeps; [exact Hc|done|exact Hp1|exact Hout].
    + rewrite upd_same. by rewrite blocks_cons by lia.
    + intros a' r' j Hr' Hd' Hne'. apply (Hpk2 a' r' j Hr' Hd'). intros E'. apply Hne'. rewrite E'.
      symmetry. apply blk_page; [done|lia|done].
  - change (has 0 PAL_ASSERT) with false in Hno. cbv iota in Hno. destruct Hno as (p & E & Hp & Hmem & Hpk1 & _).
    apply wp_bind. apply (wp_ok _ _ _ _ _ (on_pages_ok _ _ _ _ E)). rewrite Z.eqb_refl.
    assert (core (with_pages p s1) F oth) as Hc2 by (destruct Hc1 as [G1 G2 G3 G4 G5 G6]; by split).
    destruct (critical i s s1 (with_pages p s1) F oth live false Hun Hi Hk eq_refl) as (_ & s3 & E3 & _ & Hm3 & Hb3 & Hk3 & _); try done.
    apply (wp_ok _ _ _ _ _ E3). apply wp_ret. split; [done|]. split.
    + intros q c x _ _. rewrite Hb3. change (bytes (with_pages p s1)) with (pmem p). by rewrite Hmem.
    + left. split; [done|]. split; [|by exists F]. intros _. unfold need. destruct (sizes i Hi) as (Hs & _).
      by rewrite (proj2 (Z.leb_le size 1024)) by lia.
Qed.

(** A big block in use. *)
Lemma alive_big s F oth live a r p : core s F oth → alive s F live → arenas s !! a = None → a_desc r = None →
  core (set_arenas (<[a := r]> (arenas s)) (with_pages p s)) F oth →
  let s' := set_arenas (<[a := r]> (arenas s)) (with_pages p s) in
  live !! (a + sizeof_arena) = None ∧ alive s' F (<[a + sizeof_arena := PGSIZE * free_cnt r - sizeof_arena]> live).
Proof.
  intros Hc Hal Hnew Hd Hc' s'. assert (arenas s' !! a = Some r) as Hr by apply lookup_insert_eq.
  assert (∀ a' r', arenas s !! a' = Some r' → arenas s' !! a' = Some r' ∧ a' ≠ a) as Hold.
  { intros a' r' Hr'. split; [|congruence]. change (arenas s') with (<[a := r]> (arenas s)). rewrite lookup_insert_ne by congruence. done. }
  assert (in_use s' F (a + sizeof_arena) (PGSIZE * free_cnt r - sizeof_arena)) as Hu by (left; by exists a, r).
  assert (∀ q c, in_use s F q c → in_use s' F q c ∧ q ≠ a + sizeof_arena) as Huse.
  { intros q c Hq. assert (in_use s' F q c) as Hq'.
    - destruct Hq as [(a' & r' & Hr' & E)|(j & Hb & E)].
      + left. exists a', r'. split; [by apply Hold|done].
      + right. exists j. split; [|done]. destruct Hb as (a' & k & (r' & Hr' & Hd')%kind_arena & E').
        exists a', k. split; [|done]. unfold kind. destruct (Hold a' r' Hr') as [-> _]. cbn. by rewrite Hd'.
    - split; [done|]. intros ->. destruct (use_region s F oth Hc _ c Hq) as (a' & r' & Hr' & H1 & H2 & Hc16).
      destruct (Hold a' r' Hr') as [Hr'' Hne].
      destruct (arena_facts s' F oth Hc' a r Hr) as (_ & _ & Hn & _).
      destruct (arenas_apart s' F oth Hc' a' r' a r Hr'' Hr Hne) as [H|H]; unfold sizeof_arena, PGSIZE in *; lia. }
  split.
  - destruct (live !! (a + sizeof_arena)) as [c|] eqn:El; [|done]. apply Hal, Huse in El as [_ []]. done.
  - intros q c. rewrite lookup_insert_Some. split.
    + intros [[<- <-]|[Hne Hq]]; [done|]. by apply Huse, Hal.
    + intros [(a' & r' & Hr' & Hd' & Eq & Ec)|(j & (a' & k & (r' & Hr' & Hd')%kind_arena & E') & E)];
        (destruct (decide (a' = a)) as [->|Hna]; [assert (r' = r) as -> by congruence|
         change (arenas s') with (<[a := r]> (arenas s)) in Hr'; rewrite lookup_insert_ne in Hr' by done]).
      * by left.
      * right. assert (in_use s F q c) as Hq by (left; by exists a', r'). split; [|by apply Hal]. intros <-. by apply (Huse _ _ Hq).
      * congruence.
      * right. assert (in_use s F q c) as Hq.
        { right. exists j. split; [|done]. exists a', k. split; [|done]. unfold kind. rewrite Hr'. cbn. by rewrite Hd'. }
        split; [|by apply Hal]. intros <-. by apply (Huse _ _ Hq).
Qed.

Lemma malloc_big s F oth live size : minv s F oth live → 1024 < size <= 2 ^ 32 - 4108 →
  wp (let page_cnt := u32 (u32 (size + sizeof_arena) + PGSIZE - 1) / PGSIZE in
      let* a := on_pages (palloc_get_multiple 0 page_cnt) in
      if a =? 0 then ret 0
      else set_arena a (mk_arena ARENA_MAGIC None page_cnt);;; ret (a + sizeof_arena))
    (malloc_post s oth live size) s.
Proof.
  intros Hm Hsz. pose proof Hm as [Hc Hct Hpk Hun Hal]. change (2 ^ 32 - 4108) with 4294963188 in Hsz.
  assert (u32 (u32 (size + sizeof_arena) + PGSIZE - 1) = size + 4107) as ->.
  { rewrite (u32_small (size + sizeof_arena)) by (unfold in_u32, sizeof_arena; lia).
    rewrite u32_small by (unfold in_u32, sizeof_arena, PGSIZE; lia). unfold sizeof_arena, PGSIZE. lia. }
  set (n := (size + 4107) / PGSIZE). cbv zeta.
  assert (0 < n < 2 ^ 32 ∧ size + 12 <= PGSIZE * n) as [Hn Hcap] by (change (2 ^ 32) with 4294967296; unfold n, PGSIZE; dlia).
  destruct (palloc_get_ok 0 n (mp s) _ (co_pages _ _ _ Hc) Hn) as [(a & p & E & [Hne _ Hp1 Hout _ [Hpk1 _]])|[Hex Hno]].
  - apply wp_bind. apply (wp_ok _ _ _ _ _ (on_pages_ok _ _ _ _ E)). rewrite (proj2 (Z.eqb_neq a 0)) by done.
    set (r := mk_arena ARENA_MAGIC None n).
    destruct (core_new_arena s F oth a r p Hc Hp1 eq_refl ltac:(cbn; lia)) as [Hnew Hc1].
    destruct (alive_big s F oth live a r p Hc Hal Hnew eq_refl Hc1) as [Hl Hal1].
    set (s' := set_arenas (<[a := r]> (arenas s)) (with_pages p s)) in *.
    apply (wp_ok _ (a + sizeof_arena) s'); [done|]. split; [done|]. split.
    + change (bytes s') with (pmem p). eapply fresh_keeps; [exact Hc|done|exact Hp1|exact Hout].
    + right. destruct (live_mapped s' F oth _ _ _ Hc1 Hal1 (lookup_insert_eq _ _ _)) as [Hmp Hp0].
      split; [done|]. split; [done|]. exists F. eexists. split; [|split; [exact Hmp|]].
      * cbn. unfold sizeof_arena. lia.
      * split; [done| | |done|done]; intros a' r' j Hr' Hd'; change (arenas s') with (<[a := r]> (arenas s)) in Hr';
          (rewrite lookup_insert_ne in Hr' by (intros <-; rewrite lookup_insert_eq in Hr'; by injection Hr' as <-));
          [by apply (Hct a' r')|by apply (Hpk a' r')].
  - change (has 0 PAL_ASSERT) with false in Hno. cbv iota in Hno. destruct Hno as (p & E & Hp & Hmem & Hpk1 & _).
    apply wp_bind. apply (wp_ok _ _ _ _ _ (on_pages_ok _ _ _ _ E)). rewrite Z.eqb_refl. apply wp_ret.
    split; [done|]. split; [intros q c x _ _; change (bytes (with_pages p s)) with (pmem p); by rewrite Hmem|].
    left. split; [done|]. split; [intros _; unfold need; by rewrite (proj2 (Z.leb_gt size 1024)) by lia|].
    exists F. split; try done. destruct Hc as [G1 G2 G3 G4 G5 G6]. by split.
Qed.

Lemma malloc_spec s F oth live size : minv s F oth live → 0 <= size <= 2 ^ 32 - 4108 →
  wp (malloc D size) (malloc_post s oth live size) s.
Proof.
  intros Hm Hsz. unfold malloc. destruct (Z.eqb_spec size 0) as [->|Hne].
  { apply wp_ret. split; [done|]. split; [done|]. left. split; [done|]. split; [lia|by exists F]. }
  apply wp_bind, wp_gets. rewrite (co_cnt _ _ _ (mi_core _ _ _ _ Hm)).
  destruct (find_desc_ok s F oth size (mi_core _ _ _ _ Hm) 7 0 eq_refl) as (i & E & [[Hi Hb]|[-> Hb]]);
    [intros j Hj; lia|..].
  - apply wp_bind, (wp_ok _ _ _ _ _ E). rewrite (proj2 (Z.eqb_neq (Z.of_nat i) 7)) by lia. by eapply malloc_small.
  - apply wp_bind, (wp_ok _ _ _ _ _ E). apply (malloc_big s F oth live size Hm). lia.
Qed.

(** ** free() *)

(** The blocks of an arena, all free, leave the free list. *)
Lemma remove_blocks_ok i a r oth : (i < 7)%nat → a_desc r = Some i → ∀ n k s F,
  core s F oth → arenas s !! a = Some r → 0 <= k → k + Z.of_nat n = bpa i →
  (∀ m, k <= m < bpa i → blk i a m ∈ F i) →
  ∃ h' G, remove_blocks a n k s = Ok (tt, with_links h' s) ∧ core (with_links h' s) (upd i G F) oth ∧
    (∀ b, b ∈ G ↔ b ∈ F i ∧ ∀ m, k <= m < bpa i → b ≠ blk i a m) ∧
    (∀ a', pg_no a' ≠ pg_no a → count a' G = count a' (F i)).
Proof.
  intros Hi Hd n. induction n as [|n IH]; intros k s F Hc Hr Hk Hn Hin; cbn [remove_blocks].
  { exists (links s), (F i). assert (with_links (links s) s = s) as -> by (by destruct s). split; [done|].
    split; [apply (core_ext s F); [done|]; intros j; unfold upd; by case_decide; subst|].
    split; [|done]. intros b. split; [|by intros [? _]]. intros Hb. split; [done|]. intros m Hm. lia. }
  assert (0 <= k < bpa i) as Hk' by lia.
  rewrite (bind_ok _ _ _ _ _ (arena_to_block_ok s F oth Hc a r i k Hr Hd Hk')).
  destruct (list_elem_of_split _ _ (Hin k ltac:(lia))) as (xs & ys & HF).
  pose proof (co_lists _ _ _ Hc i Hi) as Hl. rewrite HF in Hl.
  destruct (remove_ok _ _ _ _ _ Hl) as (x & _ & _ & E & Hl' & Hf & _).
  erewrite bind_ok; [|apply on_links_ok; exact E]. rewrite <- HF in Hf.
  erewrite bind_ok; [|by apply on_links_ok].
  pose proof (drop_cell s F oth Hc i (blk i a k) xs ys _ Hi HF Hl' Hf) as Hc1.
  pose proof (free_nodup s F oth Hc i Hi) as Hnd. rewrite HF in Hnd.
  apply NoDup_app in Hnd as (Hn1 & Hn2 & Hn3). apply NoDup_cons in Hn3 as [Hn3 Hn4].
  assert (∀ b, b ∈ xs ++ ys ↔ b ∈ F i ∧ b ≠ blk i a k) as Hsub.
  { intros b. rewrite HF, !elem_of_app, elem_of_cons. split.
    - intros [Hb|Hb]; (split; [tauto|]); intros ->; [apply (Hn2 _ Hb); left|done].
    - tauto. }
  destruct (IH (k + 1) _ _ Hc1) as (h2 & G & E2 & Hc2 & HG & Hcn); [done|lia|lia| |].
  { intros m Hm. rewrite upd_same. apply Hsub. split; [apply Hin; lia|]. intros E'. apply blk_inj in E'; [lia|done]. }
  rewrite upd_same in HG, Hcn. exists h2, G. split; [exact E2|]. split; [|split].
  - apply (core_ext _ _ _ _ Hc2). intros j. unfold upd. by case_decide.
  - intros b. rewrite HG, Hsub. split.
    + intros [[Hb Hne] Hm]. split; [done|]. intros m Hm'. destruct (decide (m = k)) as [->|]; [done|apply Hm; lia].
    + intros [Hb Hm]. split; [split; [done|apply Hm; lia]|]. intros m Hm'. apply Hm. lia.
  - intros a' Ha'. rewrite Hcn by done. rewrite HF, count_middle, decide_False; [done|].
    rewrite blk_page; [done|done|done|]. by destruct (arena_facts s F oth Hc a r Hr).
Qed.

(** What is in use when a block returns to its free list. *)
Lemma alive_push s s' F oth i b live : core s F oth → alive s F live → is_block s i b → b ∉ F i →
  (∀ a, kind s' a = kind s a) → (∀ a r, a_desc r = None → arenas s' !! a = Some r ↔ arenas s !! a = Some r) →
  alive s' (upd i (b :: F i) F) (delete b live).
Proof.
  intros Hc Hal Hb Hn Hkind Hbig p c. rewrite lookup_delete_Some. unfold in_use.
  setoid_rewrite (is_block_ext s s' _ _ Hkind). split.
  - intros [Hne Hl]. apply Hal in Hl as [(a' & r' & Hr' & Hd' & E)|(j & Hbj & Hnj & Ec)].
    + left. exists a', r'. split; [by apply Hbig|done].
    + right. exists j. split; [done|]. split; [|done]. unfold upd. case_decide; [subst|done].
      intros [->|?]%elem_of_cons; done.
  - intros [(a' & r' & Hr' & Hd' & Ep & Ec)|(j & Hbj & Hnj & Ec)].
    + assert (in_use s F p c) as Hu by (left; exists a', r'; split; [by apply Hbig|done]).
      split; [|by apply Hal]. intros <-. apply Hbig in Hr'; [|done].
      by destruct (big_small s F oth Hc a' r' i b Hr' Hd' Hb).
    + assert (p ≠ b ∧ p ∉ F j) as [Hne Hnp].
      { unfold upd in Hnj. case_decide; [subst j; by rewrite not_elem_of_cons in Hnj|]. split; [|done].
        intros ->. by pose proof (block_desc s F oth Hc j i b Hbj Hb). }
      split; [done|]. apply Hal. right. by exists j.
Qed.

(** An arena all of whose blocks are free goes away. *)
Lemma alive_drop s s' F oth i a r G live : core s F oth → alive s F live → arenas s !! a = Some r → a_desc r = Some i →
  arenas s' = delete a (arenas s) → (∀ m, 0 <= m < bpa i → blk i a m ∈ F i) →
  (∀ b, b ∈ G ↔ b ∈ F i ∧ ∀ m, 0 <= m < bpa i → b ≠ blk i a m) → alive s' (upd i G F) live.
Proof.
  intros Hc Hal Hr Hd Har Hall HG p c. rewrite (Hal p c). unfold in_use. split.
  - intros [(a' & r' & Hr' & Hd' & E)|(j & (a' & k & (r' & Hr' & Hd')%kind_arena & Hk & ->) & Hn & Ec)].
    + left. exists a', r'. split; [|done]. rewrite Har, lookup_delete_ne by congruence. done.
    + right. exists j. assert (a' ≠ a) as Hne.
      { intros ->. assert (j = i) as -> by congruence. by apply Hn, Hall. }
      split; [|split; [|done]].
      * exists a', k. split; [|done]. unfold kind. rewrite Har, lookup_delete_ne, Hr' by done. cbn. by rewrite Hd'.
      * unfold upd. case_decide; [subst j|done]. rewrite HG. by intros [? _].
  - intros [(a' & r' & Hr' & Hd' & E)|(j & (a' & k & (r' & Hr' & Hd')%kind_arena & Hk & ->) & Hn & Ec)];
      rewrite Har in Hr'; apply lookup_delete_Some in Hr' as [Hne Hr'].
    + left. by exists a', r'.
    + right. exists j. assert (is_block s j (blk j a' k)) as Hb.
      { exists a', k. split; [|done]. unfold kind. rewrite Hr'. cbn. by rewrite Hd'. }
      split; [done|]. split; [|done]. unfold upd in Hn. case_decide; [subst j|done]. intros Hf. apply Hn, HG.
      split; [done|]. intros m Hm E. apply Hne. symmetry.
      destruct (arena_facts s F oth Hc a r Hr) as (Ha & _). destruct (arena_facts s F oth Hc a' r' Hr') as (Ha' & _).
      destruct (co_arena _ _ _ Hc a r Hr) as [_ Hi]. rewrite Hd in Hi.
      apply (arena_unique s F oth Hc a' r' a r (pg_no a)); [done|done|..]; unfold npages; rewrite ?Hd, ?Hd'; [|lia].
      rewrite <- (blk_page i a m), <- E, blk_page by done. lia.
Qed.

Definition free_post (s : mstate) (oth : list (Z * Z)) (live : gmap Z Z) (p : Z) (_ : unit) (s' : mstate) : Prop :=
  pk (mp s') = pk (mp s) ∧ keeps (delete p live) (bytes s) (bytes s') ∧ ∃ F', minv s' F' oth (delete p live).

Lemma free_big s F oth live a r : minv s F oth live → arenas s !! a = Some r → a_desc r = None →
  wp (modify (λ s, set_arenas (delete a (arenas s)) s);;; on_pages (palloc_free_multiple a (free_cnt r)))
     (free_post s oth live (a + sizeof_arena)) s.
Proof.
  intros [Hc Hct Hpk Hun Hal] Hr Hd. apply wp_bind, wp_modify.
  assert (pinv (mp s) ((a, free_cnt r) :: arena_pages (delete a (arenas s)) ++ oth)) as Hp.
  { replace (free_cnt r) with (npages r) by (unfold npages; by rewrite Hd).
    rewrite app_comm_cons, <- (arena_pages_delete _ _ _ Hr). apply Hc. }
  pose proof (palloc_free_ok a (free_cnt r) (mp s) _ Hp) as Hw. unfold wp in Hw.
  destruct (palloc_free_multiple a (free_cnt r) (mp s)) as [[[] p]| | | |] eqn:E; try done.
  destruct Hw as (Hp' & Hout & Hpk' & _). eapply wp_ok; [by apply on_pages_ok|].
  set (s' := with_pages p (set_arenas (delete a (arenas s)) s)).
  destruct (arena_facts s F oth Hc a r Hr) as (Ha & _ & Hn & _). unfold npages in Hn. rewrite Hd in Hn.
  assert (∀ i b, (i < 7)%nat → b ∈ F i → pg_no b ≠ pg_no a) as Hfree.
  { intros i b Hi Hb. apply (big_small s F oth Hc a r i b Hr Hd). by eapply co_free. }
  assert (core s' F oth) as Hc' by (by apply (core_del_arena s F oth a r p)).
  assert (∀ a' r', arenas s' !! a' = Some r' ↔ a ≠ a' ∧ arenas s !! a' = Some r') as Har by (intros; apply lookup_delete_Some).
  split; [done|]. split; [|exists F; split; [done| | |done|]].
  - intros q c x [Hne Hq]%lookup_delete_Some Hx. apply Hout. intros Hxa. apply Hal in Hq.
    assert (in_use s F (a + sizeof_arena) (PGSIZE * free_cnt r - sizeof_arena)) as Hu by (left; by exists a, r).
    destruct (use_region s F oth Hc q c Hq) as (a' & r' & Hr' & H1 & H2 & _).
    destruct (decide (a' = a)) as [->|Hna].
    + assert (r' = r) as -> by congruence. unfold npages in H2. rewrite Hd in H2.
      destruct (use_disjoint s F oth Hc _ _ _ _ Hq Hu (not_eq_sym Hne)); lia.
    + pose proof (arenas_apart s F oth Hc a' r' a r Hr' Hr Hna) as Hap. unfold npages in Hap at 2. rewrite Hd in Hap.
      unfold sizeof_arena in *. lia.
  - intros a' r' j [_ Hr']%Har Hd'. by apply (Hct a' r' j).
  - intros a' r' j [_ Hr']%Har Hd'. by apply (Hpk a' r' j).
  - intros q c. rewrite lookup_delete_Some. split.
    + intros [Hne Hq]. apply Hal in Hq as [(a' & r' & Hr' & Hd' & Eq & Ec)|(j & (a' & k & (r' & Hr' & Hd')%kind_arena & E') & En)].
      * left. exists a', r'. split; [|done]. apply Har. split; [congruence|done].
      * right. exists j. split; [|done]. exists a', k. split; [|done]. unfold kind.
        rewrite (proj2 (Har a' r')) by (split; [congruence|done]). cbn. by rewrite Hd'.
    + intros [(a' & r' & [Hne Hr']%Har & Hd' & Eq & Ec)|(j & (a' & k & (r' & [Hne Hr']%Har & Hd')%kind_arena & Ek) & En)].
      * split; [intros <-; unfold sizeof_arena in *; lia|]. apply Hal. left. by exists a', r'.
      * assert (is_block s j q) as Hb by (exists a', k; split; [unfold kind; rewrite Hr'; cbn; by rewrite Hd'|done]).
        split; [|apply Hal; right; by exists j]. intros <-. by destruct (big_small s F oth Hc a r j _ Hr Hd Hb).
Qed.

(** A block back on its free list, with the new count. *)
Lemma put_back s F oth i a r p : core s F oth → counted s F → (i < 7)%nat → arenas s !! a = Some r → a_desc r = Some i →
  is_block s i p → pg_no p = pg_no a → p ∉ F i →
  ∃ h1 h2 s', to_elem p s = Ok (tt, with_links h1 s) ∧
    on_links (list_push_front (free_list D i) p) (with_links h1 s) = Ok (tt, with_links h2 s) ∧
    u32 (free_cnt r + 1) = free_cnt r + 1 ∧ free_cnt r + 1 <= bpa i ∧
    s' = set_arenas (<[a := mk_arena (magic r) (a_desc r) (free_cnt r + 1)]> (arenas s)) (with_links h2 s) ∧
    core s' (upd i (p :: F i) F) oth ∧ counted s' (upd i (p :: F i) F) ∧
    (free_cnt r + 1 = bpa i → ∀ m, 0 <= m < bpa i → blk i a m ∈ p :: F i).
Proof.
  intros Hc Hct Hi Hr Hd Hb Hpg Hn. destruct (push_front_block s F oth Hc i p Hi Hb Hn) as (h1 & h2 & E1 & E2 & Hc2).
  assert (kind s a = Some (Some i)) as Hka by (unfold kind; rewrite Hr; cbn; by rewrite Hd).
  pose proof (Hct a r i Hr Hd) as Hcnt. pose proof (count_nonneg a (F i)) as Hge.
  destruct (count_full s F oth Hc a i (p :: F i) Hka) as [Hle Hfull].
  { constructor; [done|]. by apply (free_nodup s F oth Hc). }
  { intros x [->|Hx]%elem_of_cons; [done|by eapply co_free]. }
  rewrite count_cons, decide_True in Hle, Hfull by done. destruct (sizes i Hi) as (_ & Hbp & _).
  eexists h1, h2, _. split; [done|]. split; [done|]. split; [apply u32_small; unfold in_u32; lia|].
  split; [lia|]. split; [reflexivity|]. split; [by apply (core_recount (with_links h2 s) _ oth a r i)|].
  split; [|intros E; apply Hfull; lia]. intros a' r' j. cbn [arenas set_arenas with_links].
  destruct (decide (a' = a)) as [->|Hne].
  - rewrite lookup_insert_eq. intros [= <-] Hd'. cbn in Hd' |- *. assert (j = i) as -> by congruence.
    rewrite upd_same, count_cons, decide_True by done. lia.
  - rewrite lookup_insert_ne by done. intros Hr' Hd'. rewrite (Hct a' r' j Hr' Hd'). unfold upd.
    case_decide; [subst j|done]. rewrite count_cons, decide_False; [done|]. intros E. apply Hne.
    apply (arena_unique s F oth Hc a' r' a r (pg_no a)); [done|done|..]; unfold npages; rewrite ?Hd, ?Hd'; lia.
Qed.

(** The arena of the last block in use goes back to the page allocator. *)
Lemma release_arena s F oth i a r live : core s F oth → counted s F → alive s F live → (i < 7)%nat →
  arenas s !! a = Some r → a_desc r = Some i → (∀ m, 0 <= m < bpa i → blk i a m ∈ F i) →
  (∀ a' r' j, arenas s !! a' = Some r' → a_desc r' = Some j → a' ≠ a → free_cnt r' < bpa j) →
  ∃ s' F', (remove_blocks a (Z.to_nat (bpa i)) 0;;; modify (λ s, set_arenas (delete a (arenas s)) s);;;
            on_pages (palloc_free_page a)) s = Ok (tt, s') ∧
    core s' F' oth ∧ counted s' F' ∧ alive s' F' live ∧ packed s' ∧ same_env s s' ∧
    outside_same a PGSIZE (bytes s) (bytes s').
Proof.
  intros Hc Hct Hal Hi Hr Hd Hall Hpk. destruct (sizes i Hi) as (_ & Hbp & _).
  destruct (remove_blocks_ok i a r oth Hi Hd (Z.to_nat (bpa i)) 0 s F Hc Hr) as (h & G & E & Hc1 & HG & Hcn);
    [done|lia|done|]. rewrite (bind_ok _ _ _ _ _ E). set (s1 := with_links h s) in *. run.
  assert (pinv (mp s) ((a, 1) :: arena_pages (delete a (arenas s)) ++ oth)) as Hp.
  { replace 1 with (npages r) by (unfold npages; by rewrite Hd).
    rewrite app_comm_cons, <- (arena_pages_delete _ _ _ Hr). apply Hc. }
  pose proof (palloc_free_ok a 1 (mp s) _ Hp) as Hw. unfold wp in Hw.
  destruct (palloc_free_multiple a 1 (mp s)) as [[[] p]| | | |] eqn:Ef; try done. destruct Hw as (Hp' & Hout & Hpk' & _).
  destruct (arena_facts s F oth Hc a r Hr) as (Ha & _).
  assert (∀ a' r' j, arenas s !! a' = Some r' → a_desc r' = Some j → a' ≠ a → pg_no a' ≠ pg_no a) as Hpgs.
  { intros a' r' j Hr' Hd' Hne E'. apply Hne.
    apply (arena_unique s F oth Hc a' r' a r (pg_no a)); [done|done|..]; unfold npages; rewrite ?Hd, ?Hd'; lia. }
  assert (∀ a' r' , delete a (arenas s) !! a' = Some r' → a' ≠ a ∧ arenas s !! a' = Some r') as Har.
  { intros a' r' [Hne Hr']%lookup_delete_Some. done. }
  exists (set_arenas (delete a (arenas s)) (with_pages p s1)), (upd i G F).
  split; [by apply (on_pages_ok _ (set_arenas _ s1))|]. split; [|split; [|split; [|split; [|split; [done|]]]]].
  - apply (core_del_arena s1 _ oth a r p Hc1 Hr); [|done]. intros j b Hj Hb.
    assert (is_block s j b) as Hb' by (by apply (co_free _ _ _ Hc1)). intros Hpg.
    destruct (block_facts s F oth Hc j b Hb') as (a' & k & r' & Hr' & Hd' & Hk & Eb & _ & _ & _ & _ & Hpg' & _).
    destruct (decide (a' = a)) as [->|Hne]; [|by apply (Hpgs a' r' j); [..|congruence]].
    assert (j = i) as -> by congruence. rewrite upd_same in Hb. apply HG in Hb as [_ Hb]. by apply (Hb k).
  - intros a' r' j [Hne Hr']%Har Hd'. rewrite (Hct a' r' j Hr' Hd'). unfold upd. case_decide; [subst j|done].
    symmetry. apply Hcn. by apply (Hpgs a' r' i).
  - by apply (alive_drop s _ F oth i a r G live).
  - intros a' r' j [Hne Hr']%Har Hd'. by apply (Hpk a' r' j).
  - exact Hout.
Qed.

Definition free_block (i : nat) (a p : Z) : M mstate unit :=
  let* d := desc_of i in
  on_bytes (memset p 204 (block_size d));;;
  lock_acquire (desc_lock i);;;
  to_elem p;;;
  on_links (list_push_front (free_list D i) p);;;
  let* r := arena_of a in
  let cnt := u32 (free_cnt r + 1) in
  set_arena a (mk_arena (magic r) (a_desc r) cnt);;;
  (if cnt >=? blocks_per_arena d then
     assert (cnt =? blocks_per_arena d);;;
     remove_blocks a (Z.to_nat (blocks_per_arena d)) 0;;;
     modify (λ s, set_arenas (delete a (arenas s)) s);;;
     on_pages (palloc_free_page a)
   else ret tt);;;
  lock_release (desc_lock i).

(** The state in which the count is compared, and what is left of the block. *)
Lemma free_block_mid s F oth live i a k r : minv s F oth live → arenas s !! a = Some r → a_desc r = Some i →
  0 <= k < bpa i → blk i a k ∉ F i →
  let p := blk i a k in
  ∃ l m1 s1 s', descs s !! i = Some (mk_desc (bs i) (bpa i) l) ∧
    on_bytes (memset p 204 (bs i)) s = Ok (p, with_bytes m1 s) ∧
    s1 = pstore (desc_lock i) (held (me s)) (with_bytes m1 s) ∧
    lock_acquire (desc_lock i) (with_bytes m1 s) = Ok (tt, s1) ∧ outside_same p (bs i) (bytes s) m1 ∧
    (∀ B (c : arena → M mstate B), (to_elem p;;; on_links (list_push_front (free_list D i) p);;; let* r := arena_of a in c r) s1 =
       c r (mk_mstate (mp s1) (descs s1) (desc_cnt s1) (links s') (arenas s1))) ∧
    u32 (free_cnt r + 1) = free_cnt r + 1 ∧ free_cnt r + 1 <= bpa i ∧
    s' = set_arenas (<[a := mk_arena (magic r) (a_desc r) (free_cnt r + 1)]> (arenas s))
           (mk_mstate (mp s1) (descs s1) (desc_cnt s1) (links s') (arenas s1)) ∧
    core s' (upd i (p :: F i) F) oth ∧ counted s' (upd i (p :: F i) F) ∧
    (free_cnt r + 1 = bpa i → ∀ m, 0 <= m < bpa i → blk i a m ∈ p :: F i) ∧
    alive s' (upd i (p :: F i) F) (delete p live).
Proof.
  intros [Hc Hct Hpk Hun Hal] Hr Hd Hk Hn p. destruct (co_arena _ _ _ Hc a r Hr) as [_ Hi]. rewrite Hd in Hi.
  assert (is_block s i p) as Hb by (exists a, k; split; [unfold kind; rewrite Hr; cbn; by rewrite Hd|done]).
  destruct (co_descs _ _ _ Hc i Hi) as [l Hl]. destruct (sizes i Hi) as (Hs & _).
  assert (live !! p = Some (bs i)) as Hlp by (apply Hal; right; by exists i).
  destruct (live_mapped s F oth live p (bs i) Hc Hal Hlp) as [Hmp Hp0].
  set (m1 := Memory.store (bytes s) p (replicate (Z.to_nat (bs i)) (u8 204))).
  assert (memset p 204 (bs i) (bytes s) = Ok (p, m1)) as Em by (apply memset_ok; [done|lia|done]).
  assert (core (with_bytes m1 s) F oth) as Hc1 by (apply core_bytes; [done|]; intros x; apply store_mapped).
  set (s0 := with_bytes m1 s) in *. set (s1 := pstore (desc_lock i) (held (me s)) s0).
  assert (core s1 F oth) as Hc2 by (by apply lock_core).
  destruct (arena_facts s F oth Hc a r Hr) as (Ha & _).
  assert (pg_no p = pg_no a) as Hpg by (by apply blk_page).
  destruct (put_back s1 F oth i a r p Hc2 Hct Hi Hr Hd Hb Hpg Hn) as (h1 & h2 & s' & E1 & E2 & Hu & Hle & Es' & Hc' & Hct' & Hfull).
  exists l, m1, s1, s'. split; [done|]. split; [by apply on_bytes_ok|]. split; [done|].
  assert (links s' = h2) as Hlk by (by rewrite Es').
  split; [unfold s1; change (me s) with (me s0); apply lock_acquire_new; [apply _|apply (pi_kernel _ _ (co_pages _ _ _ Hc1))|by apply (Hun i Hi)]|].
  split; [intros x Hx; apply store_out; unfold zlen; rewrite length_replicate; lia|].
  split; [intros B c; rewrite (bind_ok _ _ _ _ _ E1), (bind_ok _ _ _ _ _ E2);
    rewrite (bind_ok _ _ _ _ _ (arena_of_ok (with_links h2 s1) a r Hr)); by rewrite Hlk|].
  split; [done|]. split; [done|]. split; [by rewrite Hlk|]. split; [done|]. split; [done|]. split; [done|].
  apply (alive_push s s' F oth i p live Hc Hal Hb Hn); rewrite Es'.
  - intros a'. by apply (kind_insert (with_links h2 s1) a r).
  - intros a' r' Hd'. cbn [arenas set_arenas]. change (arenas s1) with (arenas s).
    destruct (decide (a' = a)) as [->|Hne]; [|by rewrite lookup_insert_ne].
    rewrite lookup_insert_eq, Hr. split; intros [= <-]; cbn in Hd'; congruence.
Qed.

(** No byte in use lies in an arena whose blocks are all free. *)
Lemma empty_page s F oth i a r q c x : core s F oth → arenas s !! a = Some r → a_desc r = Some i →
  (∀ m, 0 <= m < bpa i → blk i a m ∈ F i) → in_use s F q c → q <= x < q + c → ¬ a <= x < a + PGSIZE.
Proof.
  intros Hc Hr Hd Hall Hq Hx Hxa.
  destruct Hq as [(a2 & r2 & Hr2 & Hd2 & Eq & Ec)|(j & Hbj & Hnj & Ec)].
  - assert (a2 ≠ a) as Hne by congruence. pose proof (arenas_apart s F oth Hc a2 r2 a r Hr2 Hr Hne) as Hap.
    unfold npages in Hap. rewrite Hd, Hd2 in Hap. unfold sizeof_arena in *. lia.
  - destruct (block_facts s F oth Hc j q Hbj) as (a2 & k2 & r2 & Hr2 & Hd2 & Hk2 & Eq & _ & _ & _ & _ & _ & H1 & H2 & _).
    destruct (decide (a2 = a)) as [->|Hne].
    + assert (j = i) as -> by congruence. apply Hnj. rewrite Eq. by apply Hall.
    + pose proof (arenas_apart s F oth Hc a2 r2 a r Hr2 Hr Hne) as Hap. unfold npages in Hap.
      rewrite Hd, Hd2 in Hap. unfold sizeof_arena in *. lia.
Qed.

Lemma free_small s F oth live i a k r : minv s F oth live → arenas s !! a = Some r → a_desc r = Some i →
  0 <= k < bpa i → blk i a k ∉ F i → wp (free_block i a (blk i a k)) (free_post s oth live (blk i a k)) s.
Proof.
  intros Hm Hr Hd Hk Hn. pose proof Hm as [Hc Hct Hpk Hun Hal].
  destruct (co_arena _ _ _ Hc a r Hr) as [_ Hi]. rewrite Hd in Hi.
  assert (is_block s i (blk i a k)) as Hb by (exists a, k; split; [unfold kind; rewrite Hr; cbn; by rewrite Hd|done]).
  assert (live !! blk i a k = Some (bs i)) as Hlp by (apply Hal; right; by exists i).
  destruct (free_block_mid s F oth live i a k r Hm Hr Hd Hk Hn)
    as (l & m1 & s1 & s' & Hl & Em & Es1 & El & Hout & Ep & Hu & Hle & Es' & Hc' & Hct' & Hfull & Hal').
  set (p := blk i a k) in *.
  unfold free_block. apply wp_bind, (wp_ok _ (mk_desc (bs i) (bpa i) l) s); [unfold desc_of; run; by rewrite Hl|].
  apply wp_bind, (wp_ok _ _ _ _ _ Em). apply wp_bind, (wp_ok _ _ _ _ _ El).
  eapply wp_eq; [apply Ep|]. rewrite Hu. cbn [blocks_per_arena].
  apply wp_bind, wp_modify.
  match goal with |- wp _ _ ?x => replace x with s' by (rewrite Es'; cbn; by rewrite Es1) end.
  assert (∀ a' r' j, arenas s' !! a' = Some r' → a_desc r' = Some j → a' ≠ a → free_cnt r' < bpa j) as Hpk'.
  { intros a' r' j Hr' Hd' Hne. rewrite Es' in Hr'. cbn [arenas set_arenas] in Hr'. rewrite lookup_insert_ne in Hr' by done.
    by apply (Hpk a' r' j). }
  assert (arenas s' !! a = Some (mk_arena (magic r) (a_desc r) (free_cnt r + 1))) as Hra
    by (rewrite Es'; apply lookup_insert_eq).
  assert (same_env s1 s') as Henv by (rewrite Es'; done).
  assert (bytes s' = m1) as Hb' by (rewrite Es'; cbn; by rewrite Es1).
  assert (∃ s2 F2, (if free_cnt r + 1 >=? bpa i then
       assert (free_cnt r + 1 =? bpa i);;; remove_blocks a (Z.to_nat (bpa i)) 0;;;
       modify (λ s, set_arenas (delete a (arenas s)) s);;; on_pages (palloc_free_page a) else ret tt) s' = Ok (tt, s2) ∧
     core s2 F2 oth ∧ counted s2 F2 ∧ alive s2 F2 (delete p live) ∧ packed s2 ∧ same_env s' s2 ∧
     keeps (delete p live) (bytes s) (bytes s2)) as (s2 & F2 & E2 & Hc2 & Hct2 & Hal2 & Hp2 & Henv2 & Hk2).
  { assert (keeps (delete p live) (bytes s) (bytes s')) as Hk1.
    { intros q c x [Hne Hq]%lookup_delete_Some Hx. rewrite Hb'. apply Hout. intros Hxp.
      destruct (use_disjoint s F oth Hc p (bs i) q c) as [H|H]; [by apply Hal|by apply Hal|done|lia|lia]. }
    rewrite Z.geb_leb. destruct (Z.leb_spec (bpa i) (free_cnt r + 1)) as [Hge|Hlt].
    - assert (free_cnt r + 1 = bpa i) as Heq by lia. rewrite bind_assert by (by apply Z.eqb_eq).
      destruct (release_arena s' _ oth i a _ _ Hc' Hct' Hal' Hi Hra Hd) as (s2 & F2 & E2 & H1 & H2 & H3 & H4 & H5 & H6);
        [rewrite upd_same; by apply Hfull|done|].
      exists s2, F2. split; [exact E2|]. repeat (split; [done|]). intros q c x Hq Hx.
      rewrite <- (Hk1 q c x Hq Hx). apply H6. apply Hal' in Hq.
      apply (empty_page s' _ oth i a _ q c x Hc' Hra Hd); [rewrite upd_same; by apply Hfull|done|done].
    - exists s', (upd i (p :: F i) F). split; [done|]. split; [done|]. split; [done|]. split; [done|].
      split; [|done]. intros a' r' j Hr' Hd'. destruct (decide (a' = a)) as [->|Hne]; [|by apply (Hpk' a' r' j)].
      rewrite Hra in Hr'. injection Hr' as <-. cbn in Hd' |- *. assert (j = i) as -> by congruence. done. }
  apply wp_bind, (wp_ok _ _ _ _ _ E2).
  destruct (critical i (with_bytes m1 s) s1 s2 F2 oth (delete p live) tt) as (_ & s3 & _ & E3 & Hm3 & Hb3 & Hk3 & _); try done.
  { apply (pi_kernel _ _ (co_pages _ _ _ Hc)). }
  { destruct Henv as (? & ? & ?), Henv2 as (? & ? & ?). split; [congruence|]. split; congruence. }
  apply (wp_ok _ _ _ _ _ E3). split; [done|]. split; [by rewrite Hb3|by exists F2].
Qed.

Lemma free_spec s F oth live p : minv s F oth live → p = 0 ∨ is_Some (live !! p) →
  wp (free D p) (free_post s oth live p) s.
Proof.
  intros Hm Hp. pose proof Hm as [Hc Hct Hpk Hun Hal]. unfold free. destruct (Z.eqb_spec p 0) as [->|Hne].
  { apply wp_ret. split; [done|]. split; [done|]. exists F. rewrite delete_id; [done|].
    destruct (live !! 0) as [c|] eqn:El; [|done]. by destruct (live_mapped s F oth live 0 c Hc Hal El). }
  destruct Hp as [->|[c Hl]]; [done|]. apply Hal in Hl as [(a & r & Hr & Hd & -> & ->)|(i & Hb & Hn & ->)].
  - apply wp_bind, (wp_ok _ _ _ _ _ (block_to_arena_big s F oth Hc a r Hr Hd)).
    apply wp_bind, (wp_ok _ _ _ _ _ (arena_of_ok s a r Hr)). rewrite Hd. by apply (free_big s F oth live a r).
  - destruct (block_facts s F oth Hc i p Hb) as (a & k & r & Hr & Hd & Hk & -> & _).
    apply wp_bind, (wp_ok _ _ _ _ _ (block_to_arena_small s F oth Hc a r i k Hr Hd Hk)).
    apply wp_bind, (wp_ok _ _ _ _ _ (arena_of_ok s a r Hr)). rewrite Hd. by apply (free_small s F oth live i a k r).
Qed.

(** ** calloc() and realloc() *)

Lemma minv_bytes s F oth live m : minv s F oth live → (∀ x, is_Some (bytes s !! x) → is_Some (m !! x)) →
  minv (with_bytes m s) F oth live.
Proof. intros [Hc Hct Hpk Hun Hal] Hm. split; [by apply core_bytes|done|done|done|done]. Qed.

Lemma live_apart s F oth live p c q c' : minv s F oth live → live !! p = Some c → live !! q = Some c' → p ≠ q →
  p + c <= q ∨ q + c' <= p.
Proof. intros [Hc _ _ _ Hal] Hp Hq. apply (use_disjoint s F oth Hc); by apply Hal. Qed.

Lemma block_size_ok s F oth live p c : minv s F oth live → live !! p = Some c → block_size_of p s = Ok (c, s).
Proof.
  intros [Hc Hct Hpk Hun Hal] Hl. unfold block_size_of.
  apply Hal in Hl as [(a & r & Hr & Hd & -> & ->)|(i & Hb & _ & ->)].
  - rewrite (bind_ok _ _ _ _ _ (block_to_arena_big s F oth Hc a r Hr Hd)), (bind_ok _ _ _ _ _ (arena_of_ok s a r Hr)), Hd.
    destruct (arena_facts s F oth Hc a r Hr) as (Ha & Hlo & Hn & Hhi & _). unfold npages in *. rewrite Hd in *.
    change (2 ^ 32) with 4294967296 in *. assert (pg_ofs (a + sizeof_arena) = sizeof_arena) as ->
      by (rewrite pg_ofs_mod; unfold sizeof_arena, PGSIZE in *; dlia).
    unfold ret. by rewrite u32_small by (unfold in_u32, sizeof_arena, PGSIZE, PHYS_BASE in *; lia).
  - destruct (block_facts s F oth Hc i p Hb) as (a & k & r & Hr & Hd & Hk & -> & Hi & _).
    rewrite (bind_ok _ _ _ _ _ (block_to_arena_small s F oth Hc a r i k Hr Hd Hk)), (bind_ok _ _ _ _ _ (arena_of_ok s a r Hr)), Hd.
    destruct (desc_of_ok s F oth Hc i Hi) as [l El]. by rewrite (bind_ok _ _ _ _ _ El).
Qed.

(** What a call that may allocate [p] with at least [size] bytes does. *)
Definition alloc_post (s : mstate) (oth : list (Z * Z)) (live : gmap Z Z) (size p : Z) (s' : mstate) : Prop :=
  pk (mp s') = pk (mp s) ∧ keeps live (bytes s) (bytes s') ∧
  ((p = 0 ∧ ∃ F', minv s' F' oth live) ∨
   (0 < p ∧ live !! p = None ∧ ∃ F' c, size <= c ∧ mapped (bytes s') p c ∧ minv s' F' oth (<[p := c]> live))).

Lemma calloc_spec s F oth live a b : minv s F oth live → in_u32 a → in_u32 b → u32 (a * b) <= 2 ^ 32 - 4108 →
  wp (calloc D a b) (λ p s',
    ((p = 0 ∧ s' = s ∧ (u32 (a * b) < a ∨ u32 (a * b) < b)) ∨ malloc_post s oth live (u32 (a * b)) p s') ∧
    (p ≠ 0 → zeroed (bytes s') p (u32 (a * b)))) s.
Proof.
  intros Hm Ha Hb Hsz. unfold calloc. set (size := u32 (a * b)) in *.
  assert (0 <= size) as Hs0 by apply u32_range.
  destruct ((size <? a) || (size <? b)) eqn:Eov.
  { apply wp_ret. split; [|done]. left. split_and!; [done..|]. apply orb_true_iff in Eov as [?%Z.ltb_lt|?%Z.ltb_lt]; auto. }
  apply wp_bind. eapply wp_mono; [by apply (malloc_spec s F oth live size Hm)|]. intros p s1 (Hk & Hkeep & Hr).
  destruct Hr as [Hr|(Hp & Hl & F' & c & Hc & Hmp & Hm')].
  - destruct (Hr) as (-> & _ & _). apply wp_bind. rewrite Z.eqb_refl. apply wp_ret, wp_ret. split; [|done].
    right. split; [done|]. split; [done|]. by left.
  - rewrite (proj2 (Z.eqb_neq p 0)) by lia. cbn [negb].
    set (m := Memory.store (bytes s1) p (replicate (Z.to_nat size) (u8 0))).
    assert (memset p 0 size (bytes s1) = Ok (p, m)) as Em
      by (apply memset_ok; [done|done|eapply mapped_sub; [exact Hmp|lia|lia]]).
    apply wp_bind. apply (wp_ok _ tt (with_bytes m s1)); [by rewrite (bind_ok _ _ _ _ _ (on_bytes_ok _ _ _ _ Em))|]. apply wp_ret.
    assert (∀ x, p <= x < p + size → m !! x = Some 0) as Hz.
    { intros x Hx. unfold m. rewrite lookup_store, decide_True by (unfold zlen; rewrite length_replicate; lia).
      apply lookup_replicate. split; [done|lia]. }
    split; [|by intros _]. right. split; [done|]. split.
    + intros q d x Hq Hx. rewrite <- (Hkeep q d x Hq Hx). change (bytes (with_bytes m s1)) with m. apply store_out.
      unfold zlen. rewrite length_replicate. assert (q ≠ p) by congruence.
      destruct (live_apart s1 F' oth _ p c q d Hm'); [apply lookup_insert_eq|by rewrite lookup_insert_ne|done|lia|lia].
    + right. split; [done|]. split; [done|]. exists F', c. split; [done|]. split; [by apply mapped_store; [|unfold zlen; rewrite length_replicate, Z2Nat.id by done; eapply mapped_sub; [exact Hmp|lia|lia]]|].
      apply minv_bytes; [done|]. intros x. apply store_mapped.
Qed.

(** Contents move with realloc(): the bytes [l] at the start of the old block
    are those of the new one. *)
Lemma realloc_spec s F oth live p c n l : minv s F oth live → live !! p = Some c → 0 < n <= 2 ^ 32 - 4108 →
  holds (bytes s) p l → zlen l = Z.min n c → Forall in_u8 l →
  wp (realloc D p n) (λ q s', pk (mp s') = pk (mp s) ∧ keeps (delete p live) (bytes s) (bytes s') ∧
    ((q = 0 ∧ exhausted false (mp s) (arena_pages (arenas s) ++ oth) (need n) ∧
      keeps live (bytes s) (bytes s') ∧ ∃ F', minv s' F' oth live) ∨
     (0 < q ∧ live !! q = None ∧ holds (bytes s') q l ∧
      ∃ F' c', n <= c' ∧ mapped (bytes s') q c' ∧ minv s' F' oth (<[q := c']> (delete p live))))) s.
Proof.
  intros Hm Hlp Hn Hh Hlen Hu8. unfold realloc. rewrite (proj2 (Z.eqb_neq n 0)) by lia.
  destruct (live_mapped s F oth live p c (mi_core _ _ _ _ Hm) (mi_alive _ _ _ _ Hm) Hlp) as [_ Hp0].
  apply wp_bind. eapply wp_mono; [apply (malloc_spec s F oth live n Hm); lia|]. intros q s1 (Hk & Hkeep & Hr).
  assert (keeps (delete p live) (bytes s) (bytes s1)) as Hkd
    by (intros q' d x [_ Hq]%lookup_delete_Some; by apply (Hkeep q' d)).
  rewrite (proj2 (Z.eqb_neq p 0)) by lia. cbn [negb andb].
  destruct Hr as [(-> & Hex & Hr)|(Hq & Hl & F1 & c' & Hc' & Hmp & Hm1)].
  { rewrite Z.eqb_refl. apply wp_bind, wp_ret, wp_ret. split; [done|]. split; [done|]. left.
    split_and!; [done|apply Hex; lia|done|done]. }
  rewrite (proj2 (Z.eqb_neq q 0)) by lia. cbn [negb]. assert (p ≠ q) as Hpq by congruence.
  assert (<[q := c']> live !! p = Some c) as Hlp1 by (by rewrite lookup_insert_ne).
  pose proof (live_apart s1 F1 oth _ p c q c' Hm1 Hlp1 (lookup_insert_eq _ _ _) Hpq) as Hap.
  apply wp_bind, wp_bind, (wp_ok _ _ _ _ _ (block_size_ok s1 F1 oth _ p c Hm1 Hlp1)).
  assert ((if n <? c then n else c) = zlen l) as -> by (rewrite Hlen; destruct (Z.ltb_spec n c); lia).
  set (m := Memory.store (bytes s1) q l).
  assert (holds (bytes s1) p l) as Hh1 by (eapply holds_ext; [|exact Hh]; intros x Hx; apply (Hkeep p c); [done|lia]).
  assert (memcpy q p (zlen l) (bytes s1) = Ok (q, m)) as Em.
  { apply bind_ret_r. rewrite memcpy_ok; [done|done|done|eapply mapped_sub; [exact Hmp|lia|lia]|lia|lia|lia]. }
  apply wp_bind, (wp_ok _ _ _ _ _ (on_bytes_ok _ _ _ _ Em)).
  assert (minv (with_bytes m s1) F1 oth (<[q := c']> live)) as Hm2 by (apply minv_bytes; [done|]; intros x; apply store_mapped).
  eapply wp_mono; [apply (free_spec _ F1 oth _ p Hm2); right; by eexists|].
  intros [] s3 (Hk3 & Hkeep3 & F3 & Hm3). rewrite delete_insert_ne in Hkeep3, Hm3 by done.
  assert (keeps (delete p live) (bytes s) (bytes s3)) as Hkeepd.
  { intros q' d x Hq' Hx. rewrite (Hkeep3 q' d x), <- (Hkd q' d x Hq' Hx); [|rewrite lookup_insert_ne; [done|]|done].
    - apply lookup_delete_Some in Hq' as [Hne Hq']. change (bytes (with_bytes m s1)) with m. apply store_out.
      assert (q' ≠ q) by congruence.
      destruct (live_apart s1 F1 oth _ q c' q' d Hm1); [apply lookup_insert_eq|by rewrite lookup_insert_ne|done|lia|lia].
    - intros <-. apply lookup_delete_Some in Hq' as [_ Hq']. congruence. }
  apply wp_ret. split; [rewrite Hk3; exact Hk|]. split; [done|]. right. split; [done|]. split; [done|].
  split.
  - eapply holds_ext; [|apply holds_store]. intros x Hx. apply (Hkeep3 q c'); [apply lookup_insert_eq|lia].
  - exists F3, c'. split; [done|]. split; [|done].
    by apply (live_mapped s3 F3 oth _ q c' (mi_core _ _ _ _ Hm3) (mi_alive _ _ _ _ Hm3) (lookup_insert_eq _ _ _)).
Qed.

(** ** malloc_init() *)

Lemma free_list_far i j : (i < 7)%nat → (j < 7)%nat → i ≠ j →
  free_list D i ≠ free_list D j ∧ free_list D i ≠ tail_of (free_list D j) ∧ tail_of (free_list D i) ≠ tail_of (free_list D j).
Proof. unfold free_list, tail_of. lia. Qed.

(** The static data: no descriptor yet, cells for the list heads. *)
Record fresh (k : nat) (s : mstate) : Prop := {
  fr_cnt : desc_cnt s = Z.of_nat k;
  fr_len : length (descs s) = 10%nat;
  fr_descs : ∀ i, (i < k)%nat → descs s !! i = Some (mk_desc (bs i) (bpa i) new_lock);
  fr_lists : ∀ i, (i < k)%nat → is_list (links s) (free_list D i) [];
  fr_null : links s !! NULL = None;
  fr_cells : ∀ i, (i < 7)%nat → is_Some (links s !! free_list D i) ∧ is_Some (links s !! tail_of (free_list D i))
}.

Lemma init_step k n s : (k < 7)%nat → fresh k s →
  ∃ s', init_loop D (S n) (bs k) s = init_loop D n (bs (S k)) s' ∧ fresh (S k) s' ∧ mp s' = mp s ∧ arenas s' = arenas s.
Proof.
  intros Hk [H1 H2 H3 H4 H5 H6]. destruct (sizes k Hk) as (Hs & _). cbn [init_loop].
  rewrite (proj2 (Z.ltb_lt (bs k) (PGSIZE / 2))) by (change (PGSIZE / 2) with 2048; lia).
  run. rewrite bind_assert by (apply Z.leb_le; unfold zlen; rewrite H2; cbn; lia).
  rewrite H1, Nat2Z.id. destruct (lookup_lt_is_Some_2 (descs s) k ltac:(lia)) as [d Hd].
  unfold desc_of. run. cbn [descs]. rewrite Hd. cbn [deref]. run.
  destruct (H6 k Hk) as [Hc1 Hc2].
  destruct (list_init_ok (links s) (free_list D k)) as (h & E & Hl & Hf); [unfold NULL, free_list; lia|done|done|done|].
  erewrite bind_ok; [|apply on_links_ok; exact E]. unfold lock_init. run.
  replace (u32 (bs k * 2)) with (bs (S k)).
  2: { unfold bs in *. rewrite Nat2Z.inj_succ, Z.pow_succ_r by lia. rewrite u32_small by (unfold in_u32; lia). lia. }
  eexists. split; [reflexivity|]. split; [|done]. cbn [set_descs with_links descs desc_lock pstore]. split.
  - cbn. lia.
  - cbn. by rewrite length_alter, length_insert.
  - intros i Hi. cbn. rewrite list_lookup_alter. destruct (decide (k = i)) as [<-|Hne].
    + rewrite list_lookup_insert_eq by lia. done.
    + rewrite list_lookup_insert_ne by done. apply H3. lia.
  - intros i Hi. cbn. destruct (decide (k = i)) as [<-|Hne]; [done|]. eapply is_list_ext; [apply H4; lia| |apply Hl].
    intros q Hq. apply (proj1 Hf). destruct (free_list_far i k) as (? & ? & ?); [lia|lia|done|].
    destruct (free_list_far k i) as (? & ? & ?); [lia|lia|done|]. unfold nodes in Hq. cbn in Hq. set_solver.
  - cbn. apply Hl.
  - intros i Hi. cbn. rewrite !(proj2 Hf). by apply H6.
Qed.

Lemma init_loop_fresh k s : (k <= 7)%nat → fresh (7 - k) s → ∀ n, (k <= n)%nat →
  ∃ s', init_loop D n (bs (7 - k)) s = Ok (tt, s') ∧ fresh 7 s' ∧ mp s' = mp s ∧ arenas s' = arenas s.
Proof.
  intros Hk. revert s. induction k as [|k IH]; intros s Hs n Hn.
  - exists s. split; [by destruct n|done].
  - destruct n as [|n]; [lia|]. destruct (init_step (7 - S k) n s ltac:(lia) Hs) as (s1 & E & Hs1 & Hm1 & Ha1).
    replace (S (7 - S k)) with (7 - k)%nat in * by lia.
    destruct (IH ltac:(lia) s1 Hs1 n ltac:(lia)) as (s2 & E2 & Hs2 & Hm2 & Ha2).
    exists s2. split; [by rewrite E|]. split; [done|]. split; congruence.
Qed.

Lemma malloc_init_ok s oth : fresh 0 s → arenas s = ∅ → pinv (mp s) oth →
  ∃ s', malloc_init D s = Ok (tt, s') ∧ minv s' (λ _, []) oth ∅.
Proof.
  intros Hs Ha Hp. destruct (init_loop_fresh 7 s ltac:(lia) Hs 32 ltac:(lia)) as (s' & E & [H1 H2 H3 H4 H5 H6] & Hm & Ha').
  exists s'. split; [exact E|]. rewrite Ha in Ha'. split.
  - split; [rewrite Ha', Hm; exact Hp|done|intros i Hi; eexists; by apply H3|done|by intros i b _ []%not_elem_of_nil|].
    intros a r. by rewrite Ha'.
  - intros a r i. by rewrite Ha'.
  - intros a r i. by rewrite Ha'.
  - intros i Hi. by rewrite H3.
  - intros p c. rewrite lookup_empty. split; [done|]. unfold in_use, is_block, kind. rewrite Ha'.
    intros [(a & r & Hr & _)|(i & (a & k & Hr & _) & _)]; by rewrite lookup_empty in Hr.
Qed.

(** ** The allocator in use *)

(** Calls in any order, and writes of clients to the blocks they were given;
    [live] are the blocks in use with the capacity block_size() gives them. *)
Inductive mstep : mstate * gmap Z Z → mstate * gmap Z Z → Prop :=
| ms_malloc size p c s s' live : 0 <= size <= 2 ^ 32 - 4108 → malloc D size s = Ok (p, s') →
    (p ≠ 0 → block_size_of p s' = Ok (c, s')) → mstep (s, live) (s', if decide (p = 0) then live else <[p := c]> live)
| ms_calloc a b p c s s' live : in_u32 a → in_u32 b → u32 (a * b) <= 2 ^ 32 - 4108 → calloc D a b s = Ok (p, s') →
    (p ≠ 0 → block_size_of p s' = Ok (c, s')) → mstep (s, live) (s', if decide (p = 0) then live else <[p := c]> live)
| ms_realloc p c n l q c' s s' live : live !! p = Some c → 0 < n <= 2 ^ 32 - 4108 →
    holds (bytes s) p l → zlen l = Z.min n c → Forall in_u8 l → realloc D p n s = Ok (q, s') →
    (q ≠ 0 → block_size_of q s' = Ok (c', s')) →
    mstep (s, live) (s', if decide (q = 0) then live else <[q := c']> (delete p live))
| ms_free p s s' live : p = 0 ∨ is_Some (live !! p) → free D p s = Ok (tt, s') → mstep (s, live) (s', delete p live)
| ms_write p c m s live : live !! p = Some c → outside_same p c (bytes s) m →
    (∀ x, is_Some (bytes s !! x) → is_Some (m !! x)) → mstep (s, live) (with_bytes m s, live).

Lemma wp_elim {A} (m : M mstate A) Q s a s' : wp m Q s → m s = Ok (a, s') → Q a s'.
Proof. unfold wp. intros H E. by rewrite E in H. Qed.

(** The capacity in the map is the one block_size() returns. *)
Lemma alloc_live s oth live size p c s' : alloc_post s oth live size p s' → (p ≠ 0 → block_size_of p s' = Ok (c, s')) →
  ∃ F', minv s' F' oth (if decide (p = 0) then live else <[p := c]> live).
Proof.
  intros (_ & _ & [[-> [F' Hm]]|(Hp & _ & F' & c' & _ & _ & Hm)]) Hb; [by exists F'|].
  rewrite decide_False by lia. exists F'. specialize (Hb ltac:(lia)).
  rewrite (block_size_ok s' F' oth _ p c' Hm (lookup_insert_eq _ _ _)) in Hb. by injection Hb as ->.
Qed.

Lemma malloc_alloc s oth live size p s' : malloc_post s oth live size p s' → alloc_post s oth live size p s'.
Proof. intros (H1 & H2 & [(E & _ & H)|H]); (split; [done|split; [done|]]); [by left|by right]. Qed.

Lemma mstep_minv oth x y : mstep x y → (∃ F, minv x.1 F oth x.2) → ∃ F, minv y.1 F oth y.2.
Proof.
  intros Hstep [F Hm]. destruct Hstep as [size p c s s' live Hsz E Hb|a b p c s s' live Ha Hb' Hsz E Hb|
    p c n l q c' s s' live Hl Hn Hh Hlen Hu8 E Hb|p s s' live Hp E|p c m s live Hl Hout Hx]; cbn [fst snd] in *.
  - apply (alloc_live s oth live size p c s'); [|done]. apply malloc_alloc.
    apply (wp_elim _ _ _ _ _ (malloc_spec s F oth live size Hm Hsz) E).
  - apply (alloc_live s oth live (u32 (a * b)) p c s'); [|done].
    destruct (wp_elim _ _ _ _ _ (calloc_spec s F oth live a b Hm Ha Hb' Hsz) E) as [[(-> & -> & _)|Hp] _];
      [|by apply malloc_alloc]. split; [done|]. split; [done|]. left. by eauto.
  - destruct (wp_elim _ _ _ _ _ (realloc_spec s F oth live p c n l Hm Hl Hn Hh Hlen Hu8) E)
      as (_ & _ & [(-> & _ & _ & F' & Hm')|(Hq & _ & _ & F' & d & _ & _ & Hm')]); [by exists F'|].
    rewrite decide_False by lia. exists F'. specialize (Hb ltac:(lia)).
    rewrite (block_size_ok s' F' oth _ q d Hm' (lookup_insert_eq _ _ _)) in Hb. by injection Hb as ->.
  - destruct (wp_elim _ _ _ _ _ (free_spec s F oth live p Hm Hp) E) as (_ & _ & HF). done.
  - exists F. by apply minv_bytes.
Qed.

(** What a request for [size] bytes gives a client whose blocks are [live]: a
    null pointer only if the page allocator has no large enough group of free
    pages, otherwise a block of at least that size that overlaps none of them;
    the bytes of [keep] do not change. *)
Definition allocated (s : mstate) (oth : list (Z * Z)) (live keep : gmap Z Z) (size p : Z) (s' : mstate) : Prop :=
  keeps keep (bytes s) (bytes s') ∧
  (p = 0 → 0 < size → exhausted false (mp s) (arena_pages (arenas s) ++ oth) (need size)) ∧
  (p ≠ 0 → ∃ c, block_size_of p s' = Ok (c, s') ∧ size <= c ∧ mapped (bytes s') p c ∧
     ∀ q d, keep !! q = Some d → p + c <= q ∨ q + d <= p) ∧
  (p ≠ 0 → live !! p = None).

Lemma new_block_ok s oth (live keep : gmap Z Z) size p c F' s' :
  keeps keep (bytes s) (bytes s') → 0 < p → live !! p = None → keep !! p = None → size <= c → mapped (bytes s') p c →
  minv s' F' oth (<[p := c]> keep) → allocated s oth live keep size p s'.
Proof.
  intros Hk Hp Hl Hkp Hc Hmp Hm'. split; [done|]. split; [lia|]. split; [|done]. intros _. exists c.
  split; [by apply (block_size_ok s' F' oth _ p c Hm' (lookup_insert_eq _ _ _))|].
  split; [done|]. split; [done|]. intros q d Hq. assert (q ≠ p) by congruence.
  apply (live_apart s' F' oth _ p c q d Hm'); [apply lookup_insert_eq|by rewrite lookup_insert_ne|done].
Qed.

Lemma malloc_post_allocated s oth live size p s' :
  malloc_post s oth live size p s' → allocated s oth live live size p s'.
Proof.
  intros (_ & Hk & [(-> & Hex & _)|(Hp0 & Hl & F' & c & Hc & Hmp & Hm')]).
  - split; [done|]. split; [by intros _|done].
  - by apply (new_block_ok s oth live live size p c F').
Qed.

Lemma calloc_allocates s F oth live a b : minv s F oth live → in_u32 a → in_u32 b → a * b <= 2 ^ 32 - 4108 →
  wp (calloc D a b) (λ p s', allocated s oth live live (a * b) p s' ∧ (p ≠ 0 → zeroed (bytes s') p (a * b))) s.
Proof.
  intros Hm Ha Hb Hsz. assert (0 <= a * b) by (unfold in_u32 in *; nia).
  assert (u32 (a * b) = a * b) as Hu by (apply u32_small; unfold in_u32; lia).
  eapply wp_mono; [apply (calloc_spec s F oth live a b Hm Ha Hb); by rewrite Hu|].
  rewrite Hu. intros p s' [[(-> & -> & Hov)|Hp] Hz]; [|split; [by apply malloc_post_allocated|done]].
  split; [|done]. split; [done|]. split; [|done]. intros _ Hpos. exfalso. unfold in_u32 in *.
  assert (a ≠ 0) by (by intros ->). assert (b ≠ 0) by (intros ->; lia). destruct Hov; nia.
Qed.

Lemma realloc_allocates s F oth live p c n l : minv s F oth live → live !! p = Some c → 0 < n <= 2 ^ 32 - 4108 →
  holds (bytes s) p l → zlen l = Z.min n c → Forall in_u8 l →
  wp (realloc D p n) (λ q s', allocated s oth live (delete p live) n q s' ∧
    if decide (q = 0) then keeps live (bytes s) (bytes s') else holds (bytes s') q l) s.
Proof.
  intros Hm Hl Hn Hh Hlen Hu8. eapply wp_mono; [by apply (realloc_spec s F oth live p c n l)|].
  intros q s' (_ & Hk & [(-> & Hex & Hk' & _)|(Hq & Hlq & Hh' & F' & c' & Hc' & Hmp & Hm')]).
  - rewrite decide_True by done. split; [|done]. split; [done|]. split; [by intros _|done].
  - rewrite decide_False by lia. split; [|done]. eapply (new_block_ok _ _ _ _ _ _ c' F'); try done.
    apply lookup_delete_None. by right.
Qed.

Lemma realloc_null s F oth live n : minv s F oth live → 0 < n <= 2 ^ 32 - 4108 →
  wp (realloc D 0 n) (allocated s oth live live n) s.
Proof.
  intros Hm Hn. unfold realloc. rewrite (proj2 (Z.eqb_neq n 0)) by lia. apply wp_bind.
  eapply wp_mono; [apply (malloc_spec s F oth live n Hm); lia|]. intros p s' Hp. apply wp_bind, wp_ret, wp_ret.
  by apply malloc_post_allocated.
Qed.

Lemma realloc_zero s F oth live p : minv s F oth live → p = 0 ∨ is_Some (live !! p) →
  wp (realloc D p 0) (λ q s', q = 0 ∧ keeps (delete p live) (bytes s) (bytes s')) s.
Proof.
  intros Hm Hp. apply wp_bind. eapply wp_mono; [by apply (free_spec s F oth live p Hm)|].
  intros _ s' (_ & ? & _). by apply wp_ret.
Qed.

(** Whatever the clients did since malloc_init(), the allocator is in order. *)
Lemma msteps_minv s0 s1 s oth live : fresh 0 s0 → arenas s0 = ∅ → pinv (mp s0) oth →
  malloc_init D s0 = Ok (tt, s1) → rtc mstep (s1, ∅) (s, live) → ∃ F, minv s F oth live.
Proof.
  intros Hf Ha Hp Hinit Hsteps.
  destruct (malloc_init_ok s0 oth Hf Ha Hp) as (s1' & E & Hm1). rewrite Hinit in E. injection E as <-.
  assert (∀ x y, rtc mstep x y → (∃ F, minv x.1 F oth x.2) → ∃ F, minv y.1 F oth y.2) as Hrtc.
  { intros x y Hxy. induction Hxy as [|x y z H _ IH]; [done|]. intros Hx. by eapply IH, mstep_minv. }
  apply (Hrtc _ _ Hsteps). by exists (λ _, []).
Qed.

End spec.

(** C6. The contract of the block allocator, for requests of at most
    2^32 - 4108 bytes (beyond that the sum of size, header and rounding wraps
    around; [malloc_huge_request] is what happens then).  After malloc_init()
    and any sequence of calls of malloc(), calloc(), realloc() and free() and
    of writes to the blocks handed out: the blocks in use are disjoint;
    malloc(), calloc() and realloc() return, with a null pointer for a
    positive size only if the page allocator has no large enough group of free
    pages, and otherwise with a new block of at least the size asked for that
    overlaps no block in use; a block from calloc() is zero; realloc() of a
    block in use gives a block that starts with the old contents, or fails and
    leaves the old block alone, and realloc() to size 0 frees; free() of a
    block in use or of a null pointer returns; and none of them changes a byte
    of another block in use. *)
Theorem malloc_contract D s0 s1 s oth live :
  0 < D → D + 480 <= PHYS_BASE + 1048576 → fresh D 0 s0 → arenas s0 = ∅ → pinv (mp s0) oth →
  malloc_init D s0 = Ok (tt, s1) → rtc (mstep D) (s1, ∅) (s, live) →
  (∀ p c q c', live !! p = Some c → live !! q = Some c' → p ≠ q → p + c <= q ∨ q + c' <= p) ∧
  (∀ size, 0 <= size <= 2 ^ 32 - 4108 → wp (malloc D size) (allocated s oth live live size) s) ∧
  (∀ a b, in_u32 a → in_u32 b → a * b <= 2 ^ 32 - 4108 →
     wp (calloc D a b) (λ p s', allocated s oth live live (a * b) p s' ∧ (p ≠ 0 → zeroed (bytes s') p (a * b))) s) ∧
  (∀ p c n l, live !! p = Some c → 0 < n <= 2 ^ 32 - 4108 → holds (bytes s) p l → zlen l = Z.min n c → Forall in_u8 l →
     wp (realloc D p n) (λ q s', allocated s oth live (delete p live) n q s' ∧
       if decide (q = 0) then keeps live (bytes s) (bytes s') else holds (bytes s') q l) s) ∧
  (∀ n, 0 < n <= 2 ^ 32 - 4108 → wp (realloc D 0 n) (allocated s oth live live n) s) ∧
  (∀ p, p = 0 ∨ is_Some (live !! p) →
     wp (realloc D p 0) (λ q s', q = 0 ∧ keeps (delete p live) (bytes s) (bytes s')) s ∧
     wp (free D p) (λ _ s', keeps (delete p live) (bytes s) (bytes s')) s).
Proof.
  intros HD HD' Hf Ha Hp Hinit Hsteps.
  destruct (msteps_minv D HD HD' s0 s1 s oth live Hf Ha Hp Hinit Hsteps) as [F Hm].
  split; [intros p c q c'; by apply (live_apart D s F oth)|]. split_and!.
  - intros size Hsz. eapply wp_mono; [by apply (malloc_spec D HD HD' s F oth live size Hm)|].
    intros p s'. by apply malloc_post_allocated.
  - intros a b. by apply (calloc_allocates D HD HD' s F oth).
  - intros p c n l. by apply (realloc_allocates D HD HD' s F oth).
  - intros n. by apply (realloc_null D HD HD' s F oth).
  - intros p Hp0. split; [by apply (realloc_zero D HD HD' s F oth)|].
    eapply wp_mono; [by apply (free_spec D HD HD' s F oth live p Hm)|]. by intros _ s' (_ & ? & _).
Qed.

(** ** Example: one kernel page *)

Definition demo_at : Z := PHYS_BASE + 200000.
Definition demo_cells : list Z := (λ i, free_list demo_at i) <$> seq 0 10.
Definition demo_links : gmap Z list_elem :=
  list_to_map ((λ q, (q, mk_elem 0 0)) <$> demo_cells ++ (tail_of <$> demo_cells)).
Definition demo_off : mstate :=
  mk_mstate demo_init (replicate 10 (mk_desc 0 0 (mk_lock None (mk_sema 0 [])))) 0 demo_links ∅.
Definition demo_on : mstate := result_of (malloc_init demo_at demo_off) demo_off.
Definition demo_used : mstate := result_of (malloc demo_at 100 demo_on) demo_on.
Definition demo_block : Z := demo_page + 12.

Lemma demo_off_fresh : fresh demo_at 0 demo_off.
Proof.
  split; [reflexivity|reflexivity|intros i Hi; lia|intros i Hi; lia|vm_compute; reflexivity|].
  intros i Hi. do 7 (destruct i as [|i]; [split; vm_compute; eexists; reflexivity|]). lia.
Qed.

Lemma demo_pages : pinv (mp demo_off) [].
Proof.
  apply (palloc_init_ok 1000 260 demo_boot demo_init demo_boots).
  refine (is_ok_eq (palloc_init 1000 260 demo_boot) demo_boot _). vm_compute. reflexivity.
Qed.

Lemma demo_malloc : malloc demo_at 100 demo_on = Ok (demo_block, demo_used).
Proof. refine (returns_eq demo_block (malloc demo_at 100 demo_on) demo_on _). vm_compute. reflexivity. Qed.

(** The sum of size and header wraps around for the largest sizes: a request
    for 2^32 - 1 bytes is given a block of 4084 bytes. *)
Theorem malloc_huge_request :
  ∃ s' s'', malloc demo_at (2 ^ 32 - 1) demo_on = Ok (demo_block, s') ∧ block_size_of demo_block s' = Ok (4084, s'').
Proof.
  set (s' := result_of (malloc demo_at (2 ^ 32 - 1) demo_on) demo_on). exists s', (result_of (block_size_of demo_block s') s'). split.
  - refine (returns_eq demo_block (malloc demo_at (2 ^ 32 - 1) demo_on) demo_on _). vm_compute. reflexivity.
  - refine (returns_eq 4084 (block_size_of demo_block s') s' _). vm_compute. reflexivity.
Qed.

Lemma malloc_contract_witness :
  wp (free demo_at demo_block) (λ _ s', keeps (delete demo_block {[demo_block := 128]}) (bytes demo_used) (bytes s')) demo_used.
Proof.
  destruct (malloc_contract demo_at demo_off demo_on demo_used [] {[demo_block := 128]}) as (_ & _ & _ & _ & _ & Hfree).
  - reflexivity.
  - vm_compute. discriminate.
  - exact demo_off_fresh.
  - reflexivity.
  - exact demo_pages.
  - refine (is_ok_eq (malloc_init demo_at demo_off) demo_off _). vm_compute. reflexivity.
  - apply rtc_once.
    assert (block_size_of demo_block demo_used = Ok (128, demo_used)) as Eb.
    { assert (∀ s : mstate, (∃ r, arenas s !! pg_round_down demo_block = Some r ∧ magic r = ARENA_MAGIC ∧
                a_desc r = Some 3%nat) → (∃ l, descs s !! 3%nat = Some (mk_desc 128 31 l)) →
                block_size_of demo_block s = Ok (128, s)) as Hrun.
      { intros s (r & Hr & Hm & Hd) [l Hl]. unfold block_size_of, block_to_arena, arena_of, desc_of. run.
        rewrite bind_assert by reflexivity. run. rewrite Hr. cbn [deref]. run. rewrite Hm, Hd, bind_assert by reflexivity. run.
        rewrite Hl. cbn [deref]. run. rewrite bind_assert by reflexivity. run. rewrite Hr. cbn [deref]. run.
        rewrite Hd. run. by rewrite Hl. }
      apply Hrun; vm_compute; eexists; [split; [reflexivity|split; reflexivity]|reflexivity]. }
    exact (ms_malloc demo_at 100 demo_block 128 demo_on demo_used ∅ ltac:(lia) demo_malloc (λ _, Eb)).
  - refine (proj2 (Hfree demo_block (or_intror _))). exists 128. apply lookup_singleton_eq.
Defined.

End MallocSpec.
