(* ===== verification/Pagedir.v ===== *)
(** * Pagedir: page directories (userprog/pagedir.c)

    The two-level page tables of the x86, as words in the memory of pages
    handed out by [Palloc].  A page directory is named by its kernel virtual
    address; [cr3] holds the physical address of the active one.  The
    processor's TLB is not modelled: reloading cr3 is the only effect
    pagedir.c has on it.

    The theorems read a page directory as a finite map from user pages to
    frames, and show that the operations look up, insert and delete in it. *)

From Stdlib Require Import ZArith Lia.
From stdpp Require Import base tactics option list numbers gmap.
From S2P Require Import Prelude Memory CString Bitmap Sched Synch Vaddr Palloc.
Import Memory CString Sched Synch Vaddr Palloc.

Module Pagedir.

Record gstate := mk_gstate {
  gp : pstate;
  cr3 : Z;
  init_page_dir : Z
}.

Definition on_p {A} (m : M pstate A) : M gstate A :=
  lift gp (λ p s, mk_gstate p (cr3 s) (init_page_dir s)) m.

(** [*p] and [*p = v] for a uint32_t pointer. *)
Definition rd32 (p : Z) : M mem Z :=
  let* b0 := rd p in
  let* b1 := rd (p + 1) in
  let* b2 := rd (p + 2) in
  let* b3 := rd (p + 3) in
  ret (le_val [b0; b1; b2; b3]).

Fixpoint wr_bytes (p : Z) (bs : list Z) : M mem unit :=
  match bs with
  | [] => ret tt
  | b :: bs => wr p b;;; wr_bytes (p + 1) bs
  end.
Definition wr32 (p v : Z) : M mem unit := wr_bytes p (le_bytes 4 v).

Definition load (p : Z) : M gstate Z := on_p (on_mem (rd32 p)).
Definition store (p v : Z) : M gstate unit := on_p (on_mem (wr32 p v)).

Section pagedir.
Variable init_ram_pages : Z.

Definition pagedir_activate (pd : Z) : M gstate unit :=
  let* s := get in
  let pd := if pd =? 0 then init_page_dir s else pd in
  let* p := vtop pd in
  modify (λ s, mk_gstate (gp s) p (init_page_dir s)).

Definition active_pd : M gstate Z := let* s := get in ptov (cr3 s).

Definition invalidate_pagedir (pd : Z) : M gstate unit :=
  let* a := active_pd in
  if a =? pd then pagedir_activate pd else ret tt.

Definition pagedir_create : M gstate Z :=
  let* pd := on_p (palloc_get_page 0) in
  let* s := get in
  (if negb (pd =? 0) then on_p (on_mem (memcpy pd (init_page_dir s) PGSIZE));;; ret tt else ret tt);;;
  ret pd.

(** [for (pte = pt; pte < pt + PGSIZE / sizeof *pte; pte++)]. *)
Fixpoint free_pages (n : nat) (pte : Z) : M gstate unit :=
  match n with
  | O => ret tt
  | S n =>
      let* w := load pte in
      (if negb (Z.land w PTE_P =? 0) then
         let* page := pte_get_page w in on_p (palloc_free_page page)
       else ret tt);;;
      free_pages n (pte + 4)
  end.

Fixpoint free_tables (n : nat) (pde : Z) : M gstate unit :=
  match n with
  | O => ret tt
  | S n =>
      let* w := load pde in
      (if negb (Z.land w PTE_P =? 0) then
         let* pt := pde_get_pt w in
         free_pages 1024 pt;;;
         on_p (palloc_free_page pt)
       else ret tt);;;
      free_tables n (pde + 4)
  end.

Definition pagedir_destroy (pd : Z) : M gstate unit :=
  if pd =? 0 then ret tt
  else
    let* s := get in
    assert (negb (pd =? init_page_dir s));;;
    free_tables (Z.to_nat (pd_no PHYS_BASE)) pd;;;
    on_p (palloc_free_page pd).

(** The address of the entry, or a null pointer. *)
Definition lookup_page (pd vaddr : Z) (create : bool) : M gstate Z :=
  assert (negb (pd =? 0));;;
  assert (negb create || is_user_vaddr vaddr);;;
  let pde := pd + 4 * pd_no vaddr in
  let* w := load pde in
  let* ok :=
    (if w =? 0 then
       if create then
         let* pt := on_p (palloc_get_page PAL_ZERO) in
         if pt =? 0 then ret false
         else let* e := pde_create pt in store pde e;;; ret true
       else ret false
     else ret true) in
  if ok : bool then
    let* w := load pde in
    let* pt := pde_get_pt w in
    ret (pt + 4 * pt_no vaddr)
  else ret 0.

Definition pagedir_set_page (pd upage kpage : Z) (writable : bool) : M gstate bool :=
  assert (pg_ofs upage =? 0);;;
  assert (pg_ofs kpage =? 0);;;
  assert (is_user_vaddr upage);;;
  let* f := vtop kpage in
  assert (Z.shiftr f PTSHIFT <? init_ram_pages);;;
  let* s := get in
  assert (negb (pd =? init_page_dir s));;;
  let* pte := lookup_page pd upage true in
  if negb (pte =? 0) then
    let* w := load pte in
    assert (Z.land w PTE_P =? 0);;;
    let* e := pte_create_user kpage writable in
    store pte e;;;
    ret true
  else ret false.

Definition pagedir_get_page (pd uaddr : Z) : M gstate Z :=
  assert (is_user_vaddr uaddr);;;
  let* pte := lookup_page pd uaddr false in
  if negb (pte =? 0) then
    let* w := load pte in
    if negb (Z.land w PTE_P =? 0) then
      let* page := pte_get_page w in ret (page + pg_ofs uaddr)
    else ret 0
  else ret 0.

Definition pagedir_clear_page (pd upage : Z) : M gstate unit :=
  assert (pg_ofs upage =? 0);;;
  assert (is_user_vaddr upage);;;
  let* pte := lookup_page pd upage false in
  if negb (pte =? 0) then
    let* w := load pte in
    if negb (Z.land w PTE_P =? 0) then
      store pte (Z.land w (u32 (Z.lnot PTE_P)));;;
      invalidate_pagedir pd
    else ret tt
  else ret tt.

(** pagedir_is_dirty() and pagedir_is_accessed(), for the bit [flag]. *)
Definition test_flag (flag pd vpage : Z) : M gstate bool :=
  let* pte := lookup_page pd vpage false in
  if negb (pte =? 0) then let* w := load pte in ret (negb (Z.land w flag =? 0))
  else ret false.

(** pagedir_set_dirty() and pagedir_set_accessed(). *)
Definition set_flag (flag pd vpage : Z) (value : bool) : M gstate unit :=
  let* pte := lookup_page pd vpage false in
  if negb (pte =? 0) then
    let* w := load pte in
    if value then store pte (Z.lor w flag)
    else store pte (Z.land w (u32 (Z.lnot flag)));;; invalidate_pagedir pd
  else ret tt.

Definition pagedir_is_dirty : Z → Z → M gstate bool := test_flag PTE_D.
Definition pagedir_set_dirty : Z → Z → bool → M gstate unit := set_flag PTE_D.
Definition pagedir_is_accessed : Z → Z → M gstate bool := test_flag PTE_A.
Definition pagedir_set_accessed : Z → Z → bool → M gstate unit := set_flag PTE_A.

End pagedir.

(** ** Words in memory *)

(** A page of 1024 words. *)
Definition words (m : gmap Z Z) (p : Z) (ws : list Z) : Prop :=
  length ws = 1024%nat ∧ Forall in_u32 ws ∧ holds m p (flat_map (le_bytes 4) ws).

Lemma length_flat (ws : list Z) : length (flat_map (le_bytes 4) ws) = (4 * length ws)%nat.
Proof. induction ws; [done|]. simpl in *. lia. Qed.

Lemma holds_word m p ws i w : words m p ws → ws !! i = Some w →
  in_u32 w ∧ holds m (p + 4 * Z.of_nat i) (le_bytes 4 w).
Proof.
  intros (_ & Hu & Hh) Hw. split; [by eapply Forall_lookup_1|].
  rewrite <- (take_drop_middle ws i w Hw) in Hh. rewrite flat_map_app in Hh. cbn [flat_map] in Hh.
  apply holds_app in Hh as [_ Hh]. apply holds_app in Hh as [Hh _].
  unfold zlen in Hh. rewrite length_flat, length_take in Hh.
  apply lookup_lt_Some in Hw. replace (4 * Z.of_nat i) with (Z.of_nat (4 * (i `min` length ws))) by lia. done.
Qed.

Lemma rd32_ok m p w : in_u32 w → holds m p (le_bytes 4 w) → rd32 p m = Ok (w, m).
Proof.
  intros Hw Hh. pose proof (le_val_u32 w Hw) as Hv. remember (le_bytes 4 w) as bs eqn:Eb.
  assert (length bs = 4%nat) as Hl by (by rewrite Eb, length_le_bytes).
  destruct bs as [|b0 [|b1 [|b2 [|b3 [|]]]]]; try done.
  apply holds_cons in Hh as [H0 Hh]. apply holds_cons in Hh as [H1 Hh].
  apply holds_cons in Hh as [H2 Hh]. apply holds_cons in Hh as [H3 _].
  rewrite <- !Z.add_assoc in *. unfold rd32.
  rewrite (rd_ok _ _ _ _ H0), (rd_ok _ _ _ _ H1), (rd_ok _ _ _ _ H2), (rd_ok _ _ _ _ H3).
  by rewrite Hv.
Qed.

Lemma wr_bytes_ok bs : ∀ m p, Forall in_u8 bs → mapped m p (zlen bs) →
  wr_bytes p bs m = Ok (tt, Memory.store m p bs).
Proof.
  induction bs as [|b bs IH]; intros m p Hu Hm; [done|]. cbn [wr_bytes Memory.store].
  apply Forall_cons in Hu as [Hb Hu]. rewrite zlen_cons in Hm. pose proof (zlen_nonneg bs).
  rewrite wr_ok by (apply Hm; lia). rewrite u8_small by done. rewrite IH; [|done|].
  - by rewrite store_insert by lia.
  - apply mapped_insert. eapply mapped_sub; [done|lia|lia].
Qed.

Lemma wr32_ok m p ws i v : words m p ws → (i < 1024)%nat → in_u32 v →
  ∃ m', wr32 (p + 4 * Z.of_nat i) v m = Ok (tt, m') ∧ words m' p (<[i := v]> ws) ∧
        outside_same p PGSIZE m m' ∧ ∀ x, is_Some (m !! x) → is_Some (m' !! x).
Proof.
  intros Hws Hi Hv. pose proof Hws as (Hl & Hu & Hh).
  assert (mapped m p PGSIZE) as Hm.
  { pose proof (holds_mapped _ _ _ Hh) as Hm. unfold zlen in Hm. rewrite length_flat, Hl in Hm. exact Hm. }
  set (q := p + 4 * Z.of_nat i). exists (Memory.store m q (le_bytes 4 v)).
  assert (mapped m q (zlen (le_bytes 4 v))) as Hmq
    by (rewrite zlen_le_bytes; eapply mapped_sub; [exact Hm|unfold q; lia|unfold q, PGSIZE; lia]).
  split; [by apply wr_bytes_ok; [apply le_bytes_u8|]|]. split; [|split].
  - split; [by rewrite length_insert|]. split; [by apply Forall_insert|].
    destruct (lookup_lt_is_Some_2 ws i ltac:(lia)) as [w Hw].
    rewrite insert_take_drop by lia. rewrite flat_map_app. cbn [flat_map].
    rewrite <- (take_drop_middle ws i w Hw) in Hh. rewrite flat_map_app in Hh. cbn [flat_map] in Hh.
    apply holds_app in Hh as [Hh1 Hh]. apply holds_app in Hh as [_ Hh2].
    assert (zlen (flat_map (le_bytes 4) (take i ws)) = 4 * Z.of_nat i) as Hz
      by (unfold zlen; rewrite length_flat, length_take; lia).
    rewrite zlen_le_bytes in Hh2. apply holds_app. rewrite Hz in *. fold q in Hh2 |- *. split.
    + apply holds_store_disjoint; [done|]. rewrite Hz. unfold q. lia.
    + apply holds_app. split; [apply holds_store|]. rewrite zlen_le_bytes.
      apply holds_store_disjoint; [done|]. rewrite zlen_le_bytes. lia.
  - intros x Hx. apply store_out. rewrite zlen_le_bytes. unfold q, PGSIZE in *. lia.
  - intros x Hx. rewrite lookup_store. case_decide; [|done].
    apply lookup_lt_is_Some. rewrite length_le_bytes, zlen_le_bytes in *. lia.
Qed.

(** ** Entries *)

Lemma aligned_land p c : p mod PGSIZE = 0 → 0 <= c < PGSIZE → Z.land p c = 0.
Proof.
  intros Hp Hc. replace c with (Z.land PGMASK c).
  - rewrite Z.land_assoc. change (Z.land p PGMASK) with (pg_ofs p). by rewrite pg_ofs_mod, Hp, Z.land_0_l.
  - change PGMASK with (Z.ones 12). rewrite Z.land_comm, Z.land_ones by lia. by apply Z.mod_small.
Qed.

Lemma aligned_lor p c : p mod PGSIZE = 0 → 0 <= c < PGSIZE → Z.lor p c = p + c.
Proof. intros Hp Hc. symmetry. by apply Z.add_nocarry_lor, aligned_land. Qed.

(** An entry made of a page address and flags. *)
Lemma entry_addr p c : in_u32 p → p mod PGSIZE = 0 → 0 <= c < PGSIZE → Z.land (p + c) PTE_ADDR = p.
Proof.
  intros Hu Hp Hc. unfold in_u32, PGSIZE in *. rewrite land_page_bits by (unfold in_u32; dlia).
  unfold PGSIZE. dlia.
Qed.

Lemma entry_flag p c f : p mod PGSIZE = 0 → 0 <= c < PGSIZE → 0 <= f < PGSIZE →
  Z.land (p + c) f = Z.land c f.
Proof.
  intros Hp Hc Hf. rewrite <- aligned_lor by done. rewrite Z.land_lor_distr_l, aligned_land by done. done.
Qed.

(** ** Page directories *)

Definition with_mem (m : gmap Z Z) (s : gstate) : gstate :=
  mk_gstate (mk_pstate (pk (gp s)) m (kernel_pool (gp s)) (user_pool (gp s))) (cr3 s) (init_page_dir s).
Definition memory (s : gstate) : gmap Z Z := pmem (gp s).

Lemma load_word_ok s p w : in_u32 w → holds (memory s) p (le_bytes 4 w) → load p s = Ok (w, s).
Proof.
  intros Hw Hh. unfold load, on_p, on_mem, lift. fold (memory s). rewrite (rd32_ok _ _ _ Hw Hh).
  by destruct s as [[] ? ?].
Qed.

Lemma store_word_ok s p v m' : wr32 p v (memory s) = Ok (tt, m') → store p v s = Ok (tt, with_mem m' s).
Proof. intros E. unfold store, on_p, on_mem, lift. fold (memory s). by rewrite E. Qed.

(** A present entry refers to physical memory the kernel can map. *)
Definition frame_ok (w : Z) : Prop := Z.land w PTE_P ≠ 0 → Z.land w PTE_ADDR + PHYS_BASE < 2 ^ 32.

(** The directory entry of the table at [pt]. *)
Definition pde_of (t : option (Z * list Z)) : Z :=
  match t with Some (pt, _) => pt - PHYS_BASE + 7 | None => 0 end.

(** [pd] is a page directory with the page tables [pts], each with its
    address and entries, by index; all of them are pages in use. *)
Record pdinv (s : gstate) (bl : list (Z * Z)) (pd : Z) (pts : gmap nat (Z * list Z)) : Prop := {
  pd_pinv : pinv (gp s) bl;
  pd_block : (pd, 1) ∈ bl;
  pd_addr : PHYS_BASE <= pd;
  pd_dir : ∃ dws, words (memory s) pd dws ∧ ∀ i, (i < 768)%nat → dws !! i = Some (pde_of (pts !! i));
  pd_tables : ∀ i pt ws, pts !! i = Some (pt, ws) →
    (i < 768)%nat ∧ (pt, 1) ∈ bl ∧ PHYS_BASE <= pt ∧ pt ≠ pd ∧ words (memory s) pt ws ∧ Forall frame_ok ws;
  pd_inj : ∀ i j pt ws ws', pts !! i = Some (pt, ws) → pts !! j = Some (pt, ws') → i = j;
  pd_cr3 : 0 <= cr3 s < PHYS_BASE
}.

(** The entry of the page of [va]: 0 when there is no table for it. *)
Definition entry (pts : gmap nat (Z * list Z)) (va : Z) : Z :=
  match pts !! Z.to_nat (pd_no va) with
  | Some (_, ws) => default 0 (ws !! Z.to_nat (pt_no va))
  | None => 0
  end.

(** The kernel address of the frame and the right to write that a present
    entry gives. *)
Definition mapping (w : Z) : option (Z * bool) :=
  if Z.land w PTE_P =? 0 then None
  else Some (Z.land w PTE_ADDR + PHYS_BASE, negb (Z.land w PTE_W =? 0)).

Lemma user_index va : 0 <= va < PHYS_BASE →
  (Z.to_nat (pd_no va) < 768)%nat ∧ (Z.to_nat (pt_no va) < 1024)%nat ∧ 0 <= pd_no va ∧ 0 <= pt_no va.
Proof. rewrite pd_no_div, pt_no_div. unfold PHYS_BASE, PGSIZE. dlia. Qed.

Lemma block_page s bl a : pinv (gp s) bl → (a, 1) ∈ bl → a mod PGSIZE = 0 ∧ 0 < a ∧ a + PGSIZE < 2 ^ 32.
Proof.
  intros Hi Hin. destruct (pi_blocks _ _ Hi a 1 Hin) as (u & _ & Ha & Hlo & Hhi).
  destruct (pi_pool _ _ Hi u) as [_ _ [Hb _] He _]. split; [done|]. unfold PGSIZE in *. lia.
Qed.

Lemma words_same m m' p q ws : words m q ws → p mod PGSIZE = 0 → q mod PGSIZE = 0 → p ≠ q →
  outside_same p PGSIZE m m' → words m' q ws.
Proof.
  intros (Hl & Hu & Hh) Hp Hq Hne Hout. split; [done|]. split; [done|].
  eapply holds_ext; [|exact Hh]. unfold zlen. rewrite length_flat, Hl. intros x Hx. apply Hout.
  unfold PGSIZE in *. dlia.
Qed.

Lemma pde_addr pt : PHYS_BASE <= pt → pt mod PGSIZE = 0 → pt < 2 ^ 32 →
  in_u32 (pt - PHYS_BASE + 7) ∧ pt - PHYS_BASE + 7 ≠ 0 ∧
  ∀ s : gstate, pde_get_pt (pt - PHYS_BASE + 7) s = Ok (pt, s).
Proof.
  intros Hlo Hal Hhi. change (2 ^ 32) with 4294967296 in Hhi.
  assert ((pt - PHYS_BASE) mod PGSIZE = 0) as Hm by (unfold PHYS_BASE, PGSIZE in *; dlia).
  assert (in_u32 (pt - PHYS_BASE)) as Hu by (unfold in_u32, PHYS_BASE in *; lia).
  split; [unfold in_u32, PHYS_BASE in *; lia|]. split; [unfold PHYS_BASE in *; lia|].
  intros s. unfold pde_get_pt.
  rewrite bind_assert by (rewrite entry_flag by (done || unfold PGSIZE, PTE_P; lia); done).
  rewrite entry_addr by (done || unfold PGSIZE; lia). unfold ptov.
  rewrite bind_assert by (apply Z.ltb_lt; unfold PHYS_BASE in *; lia). unfold ret.
  rewrite u32_small by (unfold in_u32, PHYS_BASE in *; lia). do 2 f_equal. lia.
Qed.

Section directory.
Context (s : gstate) (bl : list (Z * Z)) (pd : Z) (pts : gmap nat (Z * list Z)).
Context (Hi : pdinv s bl pd pts).

(** The directory entry for [va]. *)
Lemma load_pde va : 0 <= va < PHYS_BASE →
  load (pd + 4 * pd_no va) s = Ok (pde_of (pts !! Z.to_nat (pd_no va)), s).
Proof.
  intros Hva. destruct (user_index va Hva) as (H1 & _ & H2 & _).
  destruct (pd_dir _ _ _ _ Hi) as (dws & Hw & Hd).
  destruct (holds_word _ _ _ _ _ Hw (Hd _ H1)) as [Hu Hh]. rewrite Z2Nat.id in Hh by done. by apply load_word_ok.
Qed.

Lemma table_page i pt ws : pts !! i = Some (pt, ws) → pt mod PGSIZE = 0 ∧ PHYS_BASE <= pt ∧ pt + PGSIZE < 2 ^ 32.
Proof.
  intros Ht. destruct (pd_tables _ _ _ _ Hi i pt ws Ht) as (_ & Hb & Hlo & _).
  destruct (block_page s bl pt (pd_pinv _ _ _ _ Hi) Hb) as (H1 & _ & H3). done.
Qed.

Lemma load_pte va pt ws : 0 <= va < PHYS_BASE → pts !! Z.to_nat (pd_no va) = Some (pt, ws) →
  load (pt + 4 * pt_no va) s = Ok (entry pts va, s).
Proof.
  intros Hva Ht. destruct (user_index va Hva) as (_ & H1 & _ & H2).
  destruct (pd_tables _ _ _ _ Hi _ _ _ Ht) as (_ & _ & _ & _ & Hw & _).
  unfold entry. rewrite Ht. destruct (lookup_lt_is_Some_2 ws (Z.to_nat (pt_no va))) as [w Hl];
    [destruct Hw as [-> _]; done|]. rewrite Hl.
  destruct (holds_word _ _ _ _ _ Hw Hl) as [Hu Hh]. rewrite Z2Nat.id in Hh by done. by apply load_word_ok.
Qed.

(** The address of the entry for [va]. *)
Definition pte_addr (va : Z) : Z :=
  match pts !! Z.to_nat (pd_no va) with Some (pt, _) => pt + 4 * pt_no va | None => 0 end.

Lemma pd_nonnull : negb (pd =? 0) = true.
Proof.
  apply negb_true_iff, Z.eqb_neq. destruct (block_page s bl pd (pd_pinv _ _ _ _ Hi) (pd_block _ _ _ _ Hi)) as (_ & ? & _). lia.
Qed.

Lemma lookup_existing va create : 0 <= va < PHYS_BASE →
  create = false ∨ is_Some (pts !! Z.to_nat (pd_no va)) →
  lookup_page pd va create s = Ok (pte_addr va, s).
Proof.
  intros Hva Hc. unfold lookup_page. rewrite bind_assert by apply pd_nonnull.
  rewrite bind_assert by (unfold is_user_vaddr; rewrite (proj2 (Z.ltb_lt va PHYS_BASE)) by lia; by rewrite orb_true_r).
  rewrite (bind_ok _ _ _ _ _ (load_pde va Hva)). unfold pte_addr.
  destruct (pts !! Z.to_nat (pd_no va)) as [[pt ws]|] eqn:Ht; cbn [pde_of].
  - destruct (table_page _ _ _ Ht) as (Hal & Hlo & Hhi).
    destruct (pde_addr pt Hlo Hal) as (Hu & Hne & Hget); [unfold PGSIZE in *; lia|].
    rewrite (proj2 (Z.eqb_neq _ 0)) by done. run.
    pose proof (load_pde va Hva) as Hl. rewrite Ht in Hl. cbn [pde_of] in Hl.
    rewrite (bind_ok _ _ _ _ _ Hl), (bind_ok _ _ _ _ _ (Hget s)). done.
  - destruct Hc as [->|[? ?]]; [|done]. by run.
Qed.

Lemma pte_addr_nonnull va : 0 <= va < PHYS_BASE →
  negb (pte_addr va =? 0) = bool_decide (is_Some (pts !! Z.to_nat (pd_no va))).
Proof.
  intros Hva. unfold pte_addr. destruct (pts !! Z.to_nat (pd_no va)) as [[pt ws]|] eqn:Ht; [|done].
  destruct (table_page _ _ _ Ht) as (_ & Hlo & _). destruct (user_index va Hva) as (_ & _ & _ & H2).
  rewrite (proj2 (Z.eqb_neq _ 0)) by (unfold PHYS_BASE in *; lia). by rewrite bool_decide_true.
Qed.

(** A write to one entry of one page table. *)
Lemma set_entry va v pt ws : 0 <= va < PHYS_BASE → pts !! Z.to_nat (pd_no va) = Some (pt, ws) →
  in_u32 v → frame_ok v →
  ∃ s', store (pt + 4 * pt_no va) v s = Ok (tt, s') ∧ cr3 s' = cr3 s ∧ init_page_dir s' = init_page_dir s ∧
    pdinv s' bl pd (<[Z.to_nat (pd_no va) := (pt, <[Z.to_nat (pt_no va) := v]> ws)]> pts) ∧
    outside_same pt PGSIZE (memory s) (memory s') ∧ unmoved (gp s) (gp s').
Proof.
  intros Hva Ht Hv Hfr. destruct (user_index va Hva) as (H1 & H2 & H3 & H4). pose proof Hi as [Hp Hb Ha Hd Htab Hinj Hcr].
  destruct (Htab _ _ _ Ht) as (_ & Hbt & Hlo & Hne & Hw & Hfw).
  destruct (wr32_ok (memory s) pt ws (Z.to_nat (pt_no va)) v Hw H2 Hv) as (m' & E & Hw' & Hout & Hmap).
  rewrite Z2Nat.id in E by done. destruct (block_page s bl pt Hp Hbt) as (Hal & _).
  destruct (block_page s bl pd Hp Hb) as (Hald & _).
  exists (with_mem m' s). split; [by apply store_word_ok|]. split; [done|]. split; [done|]. split; [|split; [done|by split]].
  split; [by apply pinv_write|done|done| | | |done].
  - destruct Hd as (dws & Hdw & Hd). exists dws. split; [by apply (words_same (memory s) m' pt)|].
    intros i Hi'. rewrite Hd by done. destruct (decide (i = Z.to_nat (pd_no va))) as [->|].
    + by rewrite lookup_insert_eq, Ht.
    + by rewrite lookup_insert_ne by done.
  - intros i q us. destruct (decide (i = Z.to_nat (pd_no va))) as [->|Hni].
    + rewrite lookup_insert_eq. intros [= <- <-]. split; [done|]. split; [done|]. split; [done|]. split; [done|].
      split; [done|]. by apply Forall_insert.
    + rewrite lookup_insert_ne by done. intros Hq. destruct (Htab i q us Hq) as (G1 & G2 & G3 & G4 & G5 & G6).
      split; [done|]. split; [done|]. split; [done|]. split; [done|]. split; [|done].
      destruct (block_page s bl q Hp G2) as (Halq & _).
      apply (words_same (memory s) m' pt); [done|done|done| |done]. intros <-. apply Hni. by eapply Hinj.
  - intros i j q us us'. destruct (decide (i = Z.to_nat (pd_no va))) as [->|], (decide (j = Z.to_nat (pd_no va))) as [->|];
      rewrite ?lookup_insert_eq, ?lookup_insert_ne by done; [done| | |by apply Hinj].
    + intros [= <- <-] Hj. by eapply Hinj.
    + intros Hi' [= <- <-]. by eapply Hinj.
Qed.
End directory.

(** The entries after a write. *)
Lemma entry_insert pts va pt ws v vb : 0 <= va < PHYS_BASE → 0 <= vb < PHYS_BASE →
  pts !! Z.to_nat (pd_no va) = Some (pt, ws) → length ws = 1024%nat →
  entry (<[Z.to_nat (pd_no va) := (pt, <[Z.to_nat (pt_no va) := v]> ws)]> pts) vb =
    if decide (pg_no vb = pg_no va) then v else entry pts vb.
Proof.
  intros Hva Hvb Ht Hl. destruct (user_index va Hva) as (_ & H2 & H3 & H4).
  destruct (user_index vb Hvb) as (_ & _ & H5 & H6). unfold entry.
  assert (pg_no vb = pg_no va ↔ pd_no vb = pd_no va ∧ pt_no vb = pt_no va) as Heq.
  { rewrite !pd_no_div, !pt_no_div, !pg_no_div. unfold PGSIZE, PHYS_BASE in *. dlia. }
  destruct (decide (pd_no vb = pd_no va)) as [E|E].
  - rewrite E, lookup_insert_eq, Ht. destruct (decide (pt_no vb = pt_no va)) as [E'|E'].
    + rewrite decide_True by tauto. rewrite E', list_lookup_insert_eq by lia. done.
    + rewrite decide_False by tauto. by rewrite list_lookup_insert_ne by lia.
  - rewrite decide_False by tauto. by rewrite lookup_insert_ne by lia.
Qed.

(** ** New page tables *)

Definition with_pages (p : pstate) (s : gstate) : gstate := mk_gstate p (cr3 s) (init_page_dir s).

Lemma on_p_ok {A} (m : M pstate A) s a p : m (gp s) = Ok (a, p) → on_p m s = Ok (a, with_pages p s).
Proof. intros E. unfold on_p, lift. by rewrite E. Qed.

Lemma flat_zero n : flat_map (le_bytes 4) (replicate n 0) = replicate (4 * n) 0.
Proof.
  induction n as [|n IH]; [done|]. replace (4 * S n)%nat with (S (S (S (S (4 * n))))) by lia.
  cbn [replicate flat_map]. rewrite IH. done.
Qed.

(** The entries of an empty page table. *)
Definition zero_table : list Z := replicate 1024 0.

Lemma zeroed_words m p : zeroed m p PGSIZE → words m p zero_table.
Proof.
  intros Hz. unfold zero_table. split; [by rewrite length_replicate|]. split; [by apply Forall_replicate|].
  rewrite flat_zero. intros i b [-> Hi]%lookup_replicate. apply Hz. unfold PGSIZE. lia.
Qed.

Lemma zero_frames : Forall frame_ok zero_table.
Proof. unfold zero_table. apply Forall_replicate. by intros []. Qed.

Lemma length_zero : length zero_table = 1024%nat.
Proof. apply length_replicate. Qed.

Lemma zero_lookup i : default 0 (zero_table !! i) = 0.
Proof.
  unfold zero_table. destruct (replicate 1024 0 !! i) as [x|] eqn:E; [|done]. by apply lookup_replicate in E as [-> _].
Qed.

#[local] Opaque zero_table.

(** More pages in use, and memory changed only in pages that are not part of
    the directory. *)
Lemma pdinv_more s s' bl pd pts a : pdinv s bl pd pts → pinv (gp s') ((a, 1) :: bl) →
  outside_same a PGSIZE (memory s) (memory s') → cr3 s' = cr3 s → pdinv s' ((a, 1) :: bl) pd pts ∧
  a ≠ pd ∧ ∀ i pt ws, pts !! i = Some (pt, ws) → a ≠ pt.
Proof.
  intros [Hp Hb Ha Hd Htab Hinj Hcr] Hp' Hout Hc.
  assert (∀ q, (q, 1) ∈ bl → a ≠ q) as Hfresh
    by (intros q; by apply (block_fresh (gp s') bl)).
  destruct (block_page s' _ a Hp' ltac:(left)) as (Hal & _).
  assert (∀ q ws, (q, 1) ∈ bl → words (memory s) q ws → words (memory s') q ws) as Hsame.
  { intros q ws Hq Hw. destruct (block_page s bl q Hp Hq) as (Hal' & _).
    apply (words_same (memory s) _ a); [done|done|done|by apply Hfresh|done]. }
  split; [split; try done|].
  - by right.
  - destruct Hd as (dws & Hw & Hd). exists dws. split; [by apply Hsame|done].
  - intros i pt ws Ht. destruct (Htab i pt ws Ht) as (G1 & G2 & G3 & G4 & G5 & G6).
    split; [done|]. split; [by right|]. split; [done|]. split; [done|]. split; [by apply Hsame|done].
  - by rewrite Hc.
  - split; [by apply Hfresh|]. intros i pt ws Ht. apply Hfresh, (Htab i pt ws Ht).
Qed.

(** Installing a zeroed page table. *)
Lemma install_table s bl pd pts pt i : pdinv s bl pd pts → (i < 768)%nat → pts !! i = None →
  (pt, 1) ∈ bl → PHYS_BASE <= pt → pt ≠ pd → (∀ j q ws, pts !! j = Some (q, ws) → pt ≠ q) →
  zeroed (memory s) pt PGSIZE →
  ∃ s', store (pd + 4 * Z.of_nat i) (pt - PHYS_BASE + 7) s = Ok (tt, s') ∧ cr3 s' = cr3 s ∧
    init_page_dir s' = init_page_dir s ∧ pdinv s' bl pd (<[i := (pt, zero_table)]> pts) ∧
    outside_same pd PGSIZE (memory s) (memory s') ∧ unmoved (gp s) (gp s').
Proof.
  intros [Hp Hb Ha Hd Htab Hinj Hcr] Hi Hnone Hbt Hlo Hne Hfresh Hz.
  destruct (block_page s bl pt Hp Hbt) as (Hal & _ & Hhi). destruct (block_page s bl pd Hp Hb) as (Hald & _).
  destruct (pde_addr pt Hlo Hal) as (Hu & _ & _); [unfold PGSIZE in *; lia|]. destruct Hd as (dws & Hw & Hd).
  destruct (wr32_ok (memory s) pd dws i _ Hw ltac:(lia) Hu) as (m' & E & Hw' & Hout & Hmap).
  assert (∀ q ws, (q, 1) ∈ bl → q ≠ pd → words (memory s) q ws → words m' q ws) as Hsame.
  { intros q ws Hq Hqd Hqw. destruct (block_page s bl q Hp Hq) as (Halq & _).
    by apply (words_same (memory s) m' pd). }
  exists (with_mem m' s). split; [by apply store_word_ok|]. split; [done|]. split; [done|]. split; [|split; [done|by split]].
  split; [by apply pinv_write|done|done| | | |done].
  - exists (<[i := pt - PHYS_BASE + 7]> dws). split; [done|]. intros j Hj.
    destruct (decide (j = i)) as [->|].
    + rewrite lookup_insert_eq, list_lookup_insert_eq; [done|]. destruct Hw as [-> _]. lia.
    + rewrite lookup_insert_ne, list_lookup_insert_ne by done. by apply Hd.
  - intros j q ws. destruct (decide (j = i)) as [->|].
    + rewrite lookup_insert_eq. intros [= <- <-]. split; [done|]. split; [done|]. split; [done|]. split; [done|].
      split; [by apply Hsame, zeroed_words|apply zero_frames].
    + rewrite lookup_insert_ne by done. intros Hq. destruct (Htab j q ws Hq) as (G1 & G2 & G3 & G4 & G5 & G6).
      split; [done|]. split; [done|]. split; [done|]. split; [done|]. split; [by apply Hsame|done].
  - intros j k q ws ws'. destruct (decide (j = i)) as [->|], (decide (k = i)) as [->|];
      rewrite ?lookup_insert_eq, ?lookup_insert_ne by done; [done| | |by apply Hinj].
    + intros [= <- <-] Hk. by destruct (Hfresh _ _ _ Hk).
    + intros Hj [= <- <-]. by destruct (Hfresh _ _ _ Hj).
Qed.

Lemma pde_create_ok pt (s : gstate) : PHYS_BASE <= pt → pt mod PGSIZE = 0 →
  pde_create pt s = Ok (pt - PHYS_BASE + 7, s).
Proof.
  intros Hlo Hal. assert ((pt - PHYS_BASE) mod PGSIZE = 0) as Hm by (unfold PHYS_BASE, PGSIZE in *; dlia).
  unfold pde_create, vtop, is_kernel_vaddr. rewrite bind_assert by (by rewrite pg_ofs_mod, Hal).
  rewrite bind_assoc, bind_assert by (rewrite Z.geb_leb; by apply Z.leb_le). run. unfold ret.
  rewrite <- !Z.lor_assoc. change (Z.lor PTE_U (Z.lor PTE_P PTE_W)) with 7.
  by rewrite aligned_lor by (done || unfold PGSIZE; lia).
Qed.

Lemma pdinv_pages s p bl pd pts : pdinv s bl pd pts → pinv p bl → pmem p = memory s → pdinv (with_pages p s) bl pd pts.
Proof.
  intros [Hp Hb Ha Hd Htab Hinj Hcr] Hp' Hm.
  assert (memory (with_pages p s) = memory s) as Hme by done. by split; rewrite ?Hme.
Qed.

(** The bytes of the pages [bl] other than the directory are unchanged. *)
Definition pages_kept (bl : list (Z * Z)) (pd : Z) (m m' : gmap Z Z) : Prop :=
  ∀ b x, (b, 1) ∈ bl → b ≠ pd → b <= x < b + PGSIZE → m' !! x = m !! x.

Lemma lookup_create s bl pd pts va : pdinv s bl pd pts → 0 <= va < PHYS_BASE →
  pts !! Z.to_nat (pd_no va) = None →
  ∃ r s', lookup_page pd va true s = Ok (r, s') ∧ cr3 s' = cr3 s ∧ init_page_dir s' = init_page_dir s ∧
    pages_kept bl pd (memory s) (memory s') ∧ unmoved (gp s) (gp s') ∧
    ((r = 0 ∧ pdinv s' bl pd pts ∧ exhausted false (gp s') bl 1) ∨
     ∃ pt, r = pt + 4 * pt_no va ∧
       pdinv s' ((pt, 1) :: bl) pd (<[Z.to_nat (pd_no va) := (pt, zero_table)]> pts)).
Proof.
  intros Hi Hva Ht. destruct (user_index va Hva) as (H1 & _ & H2 & _). unfold lookup_page.
  rewrite bind_assert by (by eapply pd_nonnull).
  rewrite bind_assert by (unfold is_user_vaddr; by rewrite (proj2 (Z.ltb_lt va PHYS_BASE)) by lia).
  rewrite (bind_ok _ _ _ _ _ (load_pde _ _ _ _ Hi va Hva)), Ht. cbn [pde_of]. rewrite Z.eqb_refl.
  destruct (palloc_get_ok PAL_ZERO 1 (gp s) bl (pd_pinv _ _ _ _ Hi) ltac:(lia))
    as [(pt & p & E & [Hne (_ & Hal & Hlo & _) Hp Hout Hz Hun])|[Hex Hno]].
  - rewrite bind_assoc, (bind_ok _ _ _ _ _ (on_p_ok _ _ _ _ E)). rewrite (proj2 (Z.eqb_neq pt 0)) by done.
    set (s1 := with_pages p s). change (base (the_pool (has PAL_ZERO PAL_USER) (gp s))) with (base (kernel_pool (gp s))) in Hlo.
    assert (PHYS_BASE <= pt) as Hlo' by (pose proof (pi_kernel_base _ _ (pd_pinv _ _ _ _ Hi)); lia).
    change (PGSIZE * 1) with PGSIZE in *.
    destruct (pdinv_more s s1 bl pd pts pt Hi Hp Hout eq_refl) as (Hi1 & Hd1 & Hf1).
    rewrite bind_assoc, (bind_ok _ _ _ _ _ (pde_create_ok pt s1 Hlo' Hal)).
    destruct (install_table s1 _ pd pts pt _ Hi1 H1 Ht ltac:(left) Hlo' Hd1 Hf1) as (s2 & E2 & Hc2 & Hn2 & Hi2 & Hout2 & Hun2);
      [by apply Hz|]. rewrite Z2Nat.id in E2 by done.
    rewrite bind_assoc, (bind_ok _ _ _ _ _ E2). run.
    pose proof (load_pde _ _ _ _ Hi2 va Hva) as Hl2. rewrite lookup_insert_eq in Hl2. cbn [pde_of] in Hl2.
    rewrite (bind_ok _ _ _ _ _ Hl2).
    destruct (table_page _ _ _ _ Hi2 (Z.to_nat (pd_no va)) pt zero_table) as (_ & _ & Hhi); [by rewrite lookup_insert_eq|].
    destruct (pde_addr pt Hlo' Hal) as (_ & _ & Hget); [unfold PGSIZE in *; lia|].
    rewrite (bind_ok _ _ _ _ _ (Hget s2)). exists (pt + 4 * pt_no va), s2. split; [done|].
    split; [by rewrite Hc2|]. split; [by rewrite Hn2|]. split; [|split; [by apply (unmoved_trans _ (gp s1))|right; by exists pt]].
    intros b x Hb Hbd Hx. destruct (block_page s bl b (pd_pinv _ _ _ _ Hi) Hb) as (Hba & _).
    destruct (block_page s bl pd (pd_pinv _ _ _ _ Hi) (pd_block _ _ _ _ Hi)) as (Hpa & _).
    rewrite Hout2 by (unfold PGSIZE in *; dlia). apply Hout.
    pose proof (block_fresh _ _ pt b Hp Hb). unfold PGSIZE in *. dlia.
  - change (has PAL_ZERO PAL_ASSERT) with false in Hno. cbv iota in Hno.
    destruct Hno as (p & E & Hp & Hm & Hun).
    rewrite bind_assoc, (bind_ok _ _ _ _ _ (on_p_ok _ _ _ _ E)). rewrite Z.eqb_refl. run.
    exists 0, (with_pages p s). split; [done|]. split; [done|]. split; [done|].
    split; [intros b x _ _ _; unfold memory; cbn; by rewrite Hm|]. split; [done|]. left. split; [done|]. split; [by apply pdinv_pages|].
    by apply (exhausted_unmoved _ (gp s)).
Qed.

(** ** The operations *)

Lemma entry_frame s bl pd pts va : pdinv s bl pd pts → frame_ok (entry pts va).
Proof.
  intros Hi. unfold entry. destruct (pts !! Z.to_nat (pd_no va)) as [[pt ws]|] eqn:Ht; [|by intros []].
  destruct (pd_tables _ _ _ _ Hi _ _ _ Ht) as (_ & _ & _ & _ & _ & Hf).
  destruct (ws !! Z.to_nat (pt_no va)) as [w|] eqn:Hw; [|by intros []]. by eapply Forall_lookup_1.
Qed.

Lemma entry_range s bl pd pts va : pdinv s bl pd pts → in_u32 (entry pts va).
Proof.
  intros Hi. unfold entry. destruct (pts !! Z.to_nat (pd_no va)) as [[pt ws]|] eqn:Ht; [|done].
  destruct (pd_tables _ _ _ _ Hi _ _ _ Ht) as (_ & _ & _ & _ & (_ & Hu & _) & _).
  destruct (ws !! Z.to_nat (pt_no va)) as [w|] eqn:Hw; [|done]. by eapply Forall_lookup_1.
Qed.

Lemma get_page_ok s bl pd pts va : pdinv s bl pd pts → 0 <= va < PHYS_BASE →
  pagedir_get_page pd va s =
    Ok (match mapping (entry pts va) with Some (k, _) => k + pg_ofs va | None => 0 end, s).
Proof.
  intros Hi Hva. unfold pagedir_get_page.
  rewrite bind_assert by (unfold is_user_vaddr; apply Z.ltb_lt; lia).
  rewrite (bind_ok _ _ _ _ _ (lookup_existing _ _ _ _ Hi va false Hva (or_introl eq_refl))).
  rewrite (pte_addr_nonnull _ _ _ _ Hi va Hva). unfold pte_addr.
  destruct (pts !! Z.to_nat (pd_no va)) as [[pt ws]|] eqn:Ht.
  - rewrite bool_decide_true by done. rewrite (bind_ok _ _ _ _ _ (load_pte _ _ _ _ Hi va pt ws Hva Ht)).
    pose proof (entry_frame _ _ _ _ va Hi) as Hf. unfold frame_ok, mapping in *.
    destruct (Z.eqb_spec (Z.land (entry pts va) PTE_P) 0) as [E|E]; [done|]. cbn [negb].
    specialize (Hf E). change (2 ^ 32) with 4294967296 in Hf.
    pose proof (entry_range _ _ _ _ va Hi) as Hu.
    assert (0 <= Z.land (entry pts va) PTE_ADDR) by (apply Z.land_nonneg; left; apply Hu).
    unfold pte_get_page, ptov. rewrite bind_assoc, bind_assert by (apply Z.ltb_lt; unfold PHYS_BASE in *; lia).
    run. by rewrite u32_small by (unfold in_u32, PHYS_BASE in *; lia).
  - rewrite bool_decide_false by (by intros []). unfold mapping, entry. by rewrite Ht.
Qed.

(** The entry for a frame. *)
Definition user_pte (kpage : Z) (writable : bool) : Z := kpage - PHYS_BASE + (if writable then 7 else 5).

Lemma user_pte_ok kpage writable : PHYS_BASE <= kpage < 2 ^ 32 → kpage mod PGSIZE = 0 →
  (∀ s : gstate, pte_create_user kpage writable s = Ok (user_pte kpage writable, s)) ∧
  in_u32 (user_pte kpage writable) ∧ frame_ok (user_pte kpage writable) ∧
  mapping (user_pte kpage writable) = Some (kpage, writable).
Proof.
  intros Hk Hal. change (2 ^ 32) with 4294967296 in *.
  assert ((kpage - PHYS_BASE) mod PGSIZE = 0) as Hm by (unfold PHYS_BASE, PGSIZE in *; dlia).
  assert (in_u32 (kpage - PHYS_BASE)) as Hu by (unfold in_u32, PHYS_BASE in *; lia).
  set (c := if writable then 7 else 5). assert (0 <= c < PGSIZE) as Hc by (unfold c, PGSIZE; destruct writable; lia).
  assert (user_pte kpage writable = kpage - PHYS_BASE + c) as -> by done. split; [|split; [|split]].
  - intros s. unfold pte_create_user, pte_create_kernel, vtop, is_kernel_vaddr.
    rewrite bind_assoc, bind_assert by (by rewrite pg_ofs_mod, Hal).
    rewrite !bind_assoc, bind_assert by (rewrite Z.geb_leb; apply Z.leb_le; lia). run. unfold ret.
    rewrite <- !Z.lor_assoc. change (if writable then PTE_W else 0) with (if writable then 2 else 0).
    replace (Z.lor PTE_P (Z.lor (if writable then 2 else 0) PTE_U)) with c by (unfold c; by destruct writable).
    by rewrite aligned_lor.
  - unfold in_u32, PGSIZE, PHYS_BASE in *. dlia.
  - intros _. rewrite entry_addr by done. change (2 ^ 32) with 4294967296. lia.
  - unfold mapping. rewrite (entry_flag _ c PTE_P), (entry_flag _ c PTE_W) by (done || unfold PGSIZE, PTE_P, PTE_W; lia).
    rewrite entry_addr by done. replace (kpage - PHYS_BASE + PHYS_BASE) with kpage by lia.
    unfold c. by destruct writable.
Qed.

Lemma mapping_new_table pts va pt : pts !! Z.to_nat (pd_no va) = None →
  ∀ vb, entry (<[Z.to_nat (pd_no va) := (pt, zero_table)]> pts) vb = entry pts vb.
Proof.
  intros Ht vb. unfold entry. destruct (decide (Z.to_nat (pd_no vb) = Z.to_nat (pd_no va))) as [->|].
  - by rewrite lookup_insert_eq, Ht, zero_lookup.
  - by rewrite lookup_insert_ne by done.
Qed.

(** lookup_page() with creation: no memory, or a table for the page. *)
Lemma lookup_for_set s bl pd pts va : pdinv s bl pd pts → 0 <= va < PHYS_BASE →
  ∃ r s' bl' pts', lookup_page pd va true s = Ok (r, s') ∧ pdinv s' bl' pd pts' ∧
    (∀ vb, entry pts' vb = entry pts vb) ∧
    (r = 0 ∧ pts !! Z.to_nat (pd_no va) = None ∧ exhausted false (gp s') bl 1 ∨ ∃ pt ws, pts' !! Z.to_nat (pd_no va) = Some (pt, ws) ∧ r = pt + 4 * pt_no va ∧ r ≠ 0).
Proof.
  intros Hi Hva. destruct (pts !! Z.to_nat (pd_no va)) as [[pt ws]|] eqn:Ht.
  - exists (pte_addr pts va), s, bl, pts.
    split; [apply (lookup_existing _ _ _ _ Hi); [done|right; by rewrite Ht]|]. split; [done|]. split; [done|].
    right. exists pt, ws. split; [done|]. pose proof (pte_addr_nonnull _ _ _ _ Hi va Hva) as Hn.
    rewrite Ht, bool_decide_true in Hn by done. apply negb_true_iff, Z.eqb_neq in Hn.
    split; [|done]. unfold pte_addr. by rewrite Ht.
  - destruct (lookup_create s bl pd pts va Hi Hva Ht) as (r & s' & E & _ & _ & _ & _ & [(-> & Hi' & Hex)|(pt & -> & Hi')]).
    + exists 0, s', bl, pts. split; [done|]. split; [done|]. split; [done|]. by left.
    + eexists _, s', _, _. split; [exact E|]. split; [exact Hi'|]. split; [by apply mapping_new_table|].
      right. exists pt, zero_table. rewrite lookup_insert_eq. split; [done|]. split; [done|].
      destruct (table_page _ _ _ _ Hi' (Z.to_nat (pd_no va)) pt zero_table) as (_ & Hlo & _);
        [by rewrite lookup_insert_eq|]. destruct (user_index va Hva) as (_ & _ & _ & H4).
      unfold PHYS_BASE in *. lia.
Qed.

Lemma set_page_ok ram s bl pd pts upage kpage writable :
  pdinv s bl pd pts → 0 <= upage < PHYS_BASE → upage mod PGSIZE = 0 → PHYS_BASE <= kpage < 2 ^ 32 →
  kpage mod PGSIZE = 0 → (kpage - PHYS_BASE) / PGSIZE < ram → pd ≠ init_page_dir s →
  if mapping (entry pts upage) is None then
    ∃ r s' bl' pts', pagedir_set_page ram pd upage kpage writable s = Ok (r, s') ∧ pdinv s' bl' pd pts' ∧
      (r = false → pts !! Z.to_nat (pd_no upage) = None ∧ exhausted false (gp s') bl 1) ∧
      ∀ va, 0 <= va < PHYS_BASE → mapping (entry pts' va) =
        if r && (pg_no va =? pg_no upage) then Some (kpage, writable) else mapping (entry pts va)
  else pagedir_set_page ram pd upage kpage writable s = Panic.
Proof.
  intros Hi Hu Hua Hk Hka Hram Hpd. unfold pagedir_set_page, is_user_vaddr, vtop, is_kernel_vaddr.
  rewrite !bind_assert by (rewrite ?pg_ofs_mod, ?Hua, ?Hka; try done; apply Z.ltb_lt; lia).
  rewrite bind_assoc, bind_assert by (rewrite Z.geb_leb; apply Z.leb_le; lia). run.
  rewrite bind_assert by (apply Z.ltb_lt; change PTSHIFT with PGBITS; fold (pg_no (kpage - PHYS_BASE)); by rewrite pg_no_div).
  rewrite bind_get, bind_assert by (by rewrite (proj2 (Z.eqb_neq _ _))).
  destruct (lookup_for_set s bl pd pts upage Hi Hu) as (r & s1 & bl1 & pts1 & E & Hi1 & He & Hr).
  rewrite (bind_ok _ _ _ _ _ E). destruct Hr as [(-> & Hnone & Hex)|(pt & ws & Ht & -> & Hne)].
  - rewrite Z.eqb_refl. cbn [negb]. assert (mapping (entry pts upage) = None) as ->
      by (unfold entry; by rewrite Hnone).
    exists false, s1, bl1, pts1. split; [done|]. split; [done|]. split; [done|]. intros va _. by rewrite He.
  - rewrite (proj2 (Z.eqb_neq _ 0)) by done. cbn [negb].
    rewrite (bind_ok _ _ _ _ _ (load_pte _ _ _ _ Hi1 upage pt ws Hu Ht)). rewrite He.
    unfold mapping at 1. destruct (Z.eqb_spec (Z.land (entry pts upage) PTE_P) 0) as [_|_]; [|done].
    rewrite bind_assert by done.
    destruct (user_pte_ok kpage writable Hk Hka) as (Hc & Hpu & Hpf & Hpm). rewrite (bind_ok _ _ _ _ _ (Hc s1)).
    destruct (set_entry _ _ _ _ Hi1 upage _ pt ws Hu Ht Hpu Hpf) as (s2 & E2 & _ & _ & Hi2 & _).
    rewrite (bind_ok _ _ _ _ _ E2).
    eexists true, s2, bl1, _. split; [done|]. split; [exact Hi2|]. split; [done|]. intros va Hva.
    destruct (pd_tables _ _ _ _ Hi1 _ _ _ Ht) as (_ & _ & _ & _ & (Hl & _) & _).
    rewrite (entry_insert pts1 upage pt ws) by done. cbn [andb].
    destruct (Z.eqb_spec (pg_no va) (pg_no upage)); [by rewrite decide_True|by rewrite decide_False, He].
Qed.

Lemma activate_ok s bl pd pts : pdinv s bl pd pts →
  ∃ s', pagedir_activate pd s = Ok (tt, s') ∧ pdinv s' bl pd pts ∧ init_page_dir s' = init_page_dir s ∧ gp s' = gp s.
Proof.
  intros Hi. unfold pagedir_activate. run.
  pose proof (pd_nonnull _ _ _ _ Hi) as Hn. apply negb_true_iff in Hn. rewrite Hn.
  pose proof (pd_addr _ _ _ _ Hi) as Ha. unfold vtop, is_kernel_vaddr. run.
  rewrite bind_assert by (rewrite Z.geb_leb; by apply Z.leb_le). run.
  eexists. split; [done|]. split; [|done]. destruct (block_page s bl pd (pd_pinv _ _ _ _ Hi) (pd_block _ _ _ _ Hi)) as (_ & _ & Hhi).
  destruct Hi as [H1 H2 H3 H4 H5 H6 H7]. split; try done. change (2 ^ 32) with 4294967296 in *.
  cbn [cr3]. unfold PGSIZE, PHYS_BASE in *. lia.
Qed.

Lemma invalidate_ok s bl pd pts : pdinv s bl pd pts →
  ∃ s', invalidate_pagedir pd s = Ok (tt, s') ∧ pdinv s' bl pd pts ∧ init_page_dir s' = init_page_dir s.
Proof.
  intros Hi. pose proof (pd_cr3 _ _ _ _ Hi) as Hc. unfold invalidate_pagedir, active_pd, ptov. run.
  rewrite bind_assert by (apply Z.ltb_lt; lia). run.
  destruct (_ =? pd); [|by exists s]. destruct (activate_ok s bl pd pts Hi) as (s' & E & Hi' & Hn & _). by exists s'.
Qed.

(** Addresses of one page have one entry. *)
Lemma entry_page pts va vb : pg_no va = pg_no vb → entry pts va = entry pts vb.
Proof.
  intros E. unfold entry. rewrite !pd_no_div, !pt_no_div, !pg_no_div in *.
  replace (va / 4194304) with (vb / 4194304) by (unfold PGSIZE in *; dlia). by rewrite E.
Qed.

Lemma clear_page_ok s bl pd pts upage : pdinv s bl pd pts → 0 <= upage < PHYS_BASE → upage mod PGSIZE = 0 →
  ∃ s' pts', pagedir_clear_page pd upage s = Ok (tt, s') ∧ pdinv s' bl pd pts' ∧
    ∀ va, 0 <= va < PHYS_BASE →
      mapping (entry pts' va) = if pg_no va =? pg_no upage then None else mapping (entry pts va).
Proof.
  intros Hi Hu Hua. unfold pagedir_clear_page, is_user_vaddr.
  rewrite !bind_assert by (rewrite ?pg_ofs_mod, ?Hua; try done; apply Z.ltb_lt; lia).
  rewrite (bind_ok _ _ _ _ _ (lookup_existing _ _ _ _ Hi upage false Hu (or_introl eq_refl))).
  rewrite (pte_addr_nonnull _ _ _ _ Hi upage Hu). unfold pte_addr.
  destruct (pts !! Z.to_nat (pd_no upage)) as [[pt ws]|] eqn:Ht.
  2: { rewrite bool_decide_false by (by intros []). exists s, pts. split; [done|]. split; [done|]. intros va Hva.
       destruct (Z.eqb_spec (pg_no va) (pg_no upage)) as [E|]; [|done]. rewrite (entry_page _ _ _ E).
       unfold entry. by rewrite Ht. }
  rewrite bool_decide_true by done. rewrite (bind_ok _ _ _ _ _ (load_pte _ _ _ _ Hi upage pt ws Hu Ht)).
  destruct (Z.eqb_spec (Z.land (entry pts upage) PTE_P) 0) as [E0|E0]; cbn [negb].
  { exists s, pts. split; [done|]. split; [done|]. intros va Hva.
    destruct (Z.eqb_spec (pg_no va) (pg_no upage)) as [E|]; [|done]. rewrite (entry_page _ _ _ E).
    unfold mapping. by rewrite E0. }
  set (w := Z.land (entry pts upage) (u32 (Z.lnot PTE_P))).
  assert (Z.land w PTE_P = 0) as Hw by (unfold w; rewrite <- Z.land_assoc; apply Z.land_0_r).
  pose proof (entry_range _ _ _ _ upage Hi) as Hr.
  destruct (set_entry _ _ _ _ Hi upage w pt ws Hu Ht) as (s1 & E1 & _ & _ & Hi1 & _).
  { pose proof (land_le (entry pts upage) (u32 (Z.lnot PTE_P))). unfold in_u32 in *.
    assert (0 <= w) by (apply Z.land_nonneg; lia). unfold w in *. lia. }
  { by intros []. }
  rewrite (bind_ok _ _ _ _ _ E1). destruct (invalidate_ok _ _ _ _ Hi1) as (s2 & E2 & Hi2 & _).
  eexists s2, _. split; [exact E2|]. split; [exact Hi2|]. intros va Hva.
  destruct (pd_tables _ _ _ _ Hi _ _ _ Ht) as (_ & _ & _ & _ & (Hl & _) & _).
  rewrite (entry_insert pts upage pt ws) by done.
  destruct (Z.eqb_spec (pg_no va) (pg_no upage)); [|by rewrite decide_False].
  rewrite decide_True by done. unfold mapping. by rewrite Hw.
Qed.

(** A directory the kernel copies maps no user page. *)
Record initial_dir (s : gstate) (bl : list (Z * Z)) : Prop := {
  id_pinv : pinv (gp s) bl;
  id_block : (init_page_dir s, 1) ∈ bl;
  id_words : ∃ ws, words (memory s) (init_page_dir s) ws ∧ ∀ i, (i < 768)%nat → ws !! i = Some 0;
  id_cr3 : 0 <= cr3 s < PHYS_BASE
}.

Lemma create_ok s bl : initial_dir s bl →
  ∃ pd s', pagedir_create s = Ok (pd, s') ∧ unmoved (gp s) (gp s') ∧
    if decide (pd = 0) then pinv (gp s') bl ∧ memory s' = memory s ∧ exhausted false (gp s') bl 1
    else pdinv s' ((pd, 1) :: bl) pd ∅ ∧ pd ≠ init_page_dir s' ∧ init_page_dir s' = init_page_dir s.
Proof.
  intros [Hp Hb (ws & Hw & Hz) Hc]. unfold pagedir_create.
  destruct (palloc_get_ok 0 1 (gp s) bl Hp ltac:(lia)) as [(pd & p & E & [Hne (_ & Hal & Hlo & _) Hp1 Hout _ Hun])|[Hex Hno]].
  2: { change (has 0 PAL_ASSERT) with false in Hno. cbv iota in Hno. destruct Hno as (p & E & Hp1 & Hm & Hun).
       rewrite (bind_ok _ _ _ _ _ (on_p_ok _ _ _ _ E)). eexists 0, _. split; [done|]. split; [done|].
       rewrite decide_True by done. split; [done|]. split; [done|]. by apply (exhausted_unmoved _ (gp s)). }
  rewrite (bind_ok _ _ _ _ _ (on_p_ok _ _ _ _ E)). run. rewrite (proj2 (Z.eqb_neq pd 0)) by done. cbn [negb].
  change (base (the_pool (has 0 PAL_USER) (gp s))) with (base (kernel_pool (gp s))) in Hlo.
  pose proof (pi_kernel_base _ _ Hp) as Hkb. set (s1 := with_pages p s). set (init := init_page_dir s) in *.
  pose proof (block_fresh _ _ pd init Hp1 Hb) as Hni.
  destruct (block_page s bl init Hp Hb) as (Hali & Hi0 & _).
  change (PGSIZE * 1) with PGSIZE in Hout.
  assert (words (memory s1) init ws) as Hw1 by (by apply (words_same (memory s) _ pd)).
  pose proof Hw1 as (Hl & Hu & Hh).
  assert (zlen (flat_map (le_bytes 4) ws) = PGSIZE) as Hzl by (unfold zlen; rewrite length_flat, Hl; done).
  destruct (block_page s1 _ pd Hp1 ltac:(left)) as (_ & Hpd0 & Hpdh).
  assert (mapped (memory s1) pd PGSIZE) as Hmp.
  { destruct (pi_blocks _ _ Hp1 pd 1 ltac:(left)) as (u & _ & _ & Hlo1 & Hhi1).
    eapply mapped_sub; [apply (po_mapped _ _ (pi_pool _ _ Hp1 u))|done|]. unfold PGSIZE in *. lia. }
  assert (Forall in_u8 (flat_map (le_bytes 4) ws)) as Hu8.
  { clear. induction ws as [|w ws IH]; [constructor|]. cbn [flat_map]. apply Forall_app. split; [apply le_bytes_u8|done]. }
  set (m' := Memory.store (memory s1) pd (flat_map (le_bytes 4) ws)).
  assert (memcpy pd init PGSIZE (memory s1) = Ok (pd, m')) as Ecp.
  { apply bind_ret_r. rewrite <- Hzl. rewrite memcpy_ok; [done|done|done|by rewrite Hzl|done|done|].
    rewrite Hzl. unfold PGSIZE in *. dlia. }
  assert (on_p (on_mem (memcpy pd init PGSIZE)) s1 = Ok (pd, with_mem m' s1)) as Eon
    by (unfold on_p, on_mem, lift; fold (memory s1); by rewrite Ecp).
  change (init_page_dir s1) with init. rewrite bind_assoc, (bind_ok _ _ _ _ _ Eon). run.
  exists pd, (with_mem m' s1). split; [done|]. split; [by apply (unmoved_trans _ p)|]. rewrite decide_False by done. split; [|done].
  split; [| |lia| | |by intros i j pt ws1 ws2; rewrite lookup_empty|done].
  - apply pinv_write; [done|]. intros x Hx. unfold m'. rewrite lookup_store. case_decide; [|done].
    apply lookup_lt_is_Some. unfold zlen in *. lia.
  - left.
  - exists ws. split; [|intros i Hi; rewrite lookup_empty; by apply Hz].
    split; [done|]. split; [done|]. apply holds_store.
  - intros i pt ws'. by rewrite lookup_empty.
Qed.

(** ** Accessed and dirty bits *)

Lemma test_flag_ok flag s bl pd pts va : pdinv s bl pd pts → 0 <= va < PHYS_BASE →
  test_flag flag pd va s = Ok (negb (Z.land (entry pts va) flag =? 0), s).
Proof.
  intros Hi Hva. unfold test_flag.
  rewrite (bind_ok _ _ _ _ _ (lookup_existing _ _ _ _ Hi va false Hva (or_introl eq_refl))).
  rewrite (pte_addr_nonnull _ _ _ _ Hi va Hva). unfold pte_addr.
  destruct (pts !! Z.to_nat (pd_no va)) as [[pt ws]|] eqn:Ht.
  - rewrite bool_decide_true by done. by rewrite (bind_ok _ _ _ _ _ (load_pte _ _ _ _ Hi va pt ws Hva Ht)).
  - rewrite bool_decide_false by (by intros []). unfold entry. by rewrite Ht.
Qed.

Lemma u32_lor a b : in_u32 a → in_u32 b → in_u32 (Z.lor a b).
Proof.
  intros Ha Hb. assert (∀ z, u32 z = Z.land z (Z.ones 32)) as Hu by (intros z; by rewrite Z.land_ones).
  rewrite <- (u32_small a), <- (u32_small b), !Hu, <- Z.land_lor_distr_l, <- Hu by done. apply u32_range.
Qed.

(** The new entry differs in that bit alone. *)
Definition flagged (flag w : Z) (value : bool) : Z :=
  if value then Z.lor w flag else Z.land w (u32 (Z.lnot flag)).

Lemma flagged_land flag w value mask :
  Z.land flag mask = 0 → Z.land (u32 (Z.lnot flag)) mask = mask → Z.land (flagged flag w value) mask = Z.land w mask.
Proof.
  intros H0 H1. unfold flagged. destruct value.
  - by rewrite Z.land_lor_distr_l, H0, Z.lor_0_r.
  - by rewrite <- Z.land_assoc, H1.
Qed.

Lemma flagged_ok flag w value : flag = PTE_D ∨ flag = PTE_A → in_u32 w →
  in_u32 (flagged flag w value) ∧ (frame_ok w → frame_ok (flagged flag w value)) ∧
  mapping (flagged flag w value) = mapping w ∧ negb (Z.land (flagged flag w value) flag =? 0) = value.
Proof.
  intros Hf Hw.
  assert (∀ mask, mask = PTE_P ∨ mask = PTE_ADDR ∨ mask = PTE_W →
            Z.land (flagged flag w value) mask = Z.land w mask) as Hm.
  { intros mask Hmask. apply flagged_land; destruct Hf as [-> | ->], Hmask as [-> | [-> | ->]]; done. }
  split; [|split; [|split]].
  - unfold flagged. destruct value; [apply u32_lor; [done|by destruct Hf as [-> | ->]]|].
    pose proof (land_le w (u32 (Z.lnot flag))). assert (0 <= Z.land w (u32 (Z.lnot flag))) by (apply Z.land_nonneg; left; apply Hw).
    unfold in_u32 in *. lia.
  - unfold frame_ok. by rewrite !Hm by auto.
  - unfold mapping. by rewrite !Hm by auto.
  - unfold flagged. destruct value.
    + assert (Z.land (Z.lor w flag) flag = flag) as ->.
      { apply Z.bits_inj'. intros i _. rewrite Z.land_spec, Z.lor_spec. by destruct (Z.testbit w i), (Z.testbit flag i). }
      by destruct Hf as [-> | ->].
    + rewrite <- Z.land_assoc. destruct Hf as [-> | ->]; apply negb_false_iff, Z.eqb_eq, Z.land_0_r.
Qed.

Lemma set_flag_ok flag s bl pd pts va value : flag = PTE_D ∨ flag = PTE_A → pdinv s bl pd pts → 0 <= va < PHYS_BASE →
  ∃ s' pts', set_flag flag pd va value s = Ok (tt, s') ∧ pdinv s' bl pd pts' ∧
    ∀ vb, 0 <= vb < PHYS_BASE → entry pts' vb =
      if (pg_no vb =? pg_no va) && bool_decide (is_Some (pts !! Z.to_nat (pd_no va)))
      then flagged flag (entry pts va) value else entry pts vb.
Proof.
  intros Hf Hi Hva. unfold set_flag.
  rewrite (bind_ok _ _ _ _ _ (lookup_existing _ _ _ _ Hi va false Hva (or_introl eq_refl))).
  rewrite (pte_addr_nonnull _ _ _ _ Hi va Hva). unfold pte_addr.
  destruct (pts !! Z.to_nat (pd_no va)) as [[pt ws]|] eqn:Ht.
  2: { rewrite bool_decide_false by (by intros []). exists s, pts. split; [done|]. split; [done|]. intros vb _.
       by rewrite andb_false_r. }
  rewrite bool_decide_true by done. rewrite (bind_ok _ _ _ _ _ (load_pte _ _ _ _ Hi va pt ws Hva Ht)).
  destruct (flagged_ok flag (entry pts va) value Hf (entry_range _ _ _ _ va Hi)) as (Hu & Hfr & _).
  destruct (set_entry _ _ _ _ Hi va _ pt ws Hva Ht Hu (Hfr (entry_frame _ _ _ _ va Hi))) as (s1 & E1 & _ & _ & Hi1 & _).
  assert (∃ s2, (if value then store (pt + 4 * pt_no va) (Z.lor (entry pts va) flag)
                 else store (pt + 4 * pt_no va) (Z.land (entry pts va) (u32 (Z.lnot flag)));;; invalidate_pagedir pd) s =
                Ok (tt, s2) ∧ pdinv s2 bl pd (<[Z.to_nat (pd_no va) := (pt, <[Z.to_nat (pt_no va) := flagged flag (entry pts va) value]> ws)]> pts))
    as (s2 & E2 & Hi2).
  { destruct value; cbn [flagged] in *; [by exists s1|]. rewrite (bind_ok _ _ _ _ _ E1).
    destruct (invalidate_ok _ _ _ _ Hi1) as (s2 & E2 & Hi2 & _). by exists s2. }
  eexists s2, _. split; [exact E2|]. split; [exact Hi2|]. intros vb Hvb. rewrite andb_true_r.
  destruct (pd_tables _ _ _ _ Hi _ _ _ Ht) as (_ & _ & _ & _ & (Hl & _) & _).
  rewrite (entry_insert pts va pt ws) by done. by destruct (Z.eqb_spec (pg_no vb) (pg_no va)); case_decide.
Qed.

(** ** Destruction *)

(** The pages in use among [bl] keep their words. *)
Definition kept (bl : list (Z * Z)) (m m' : gmap Z Z) : Prop :=
  ∀ b ws, (b, 1) ∈ bl → words m b ws → words m' b ws.

(** The step of a loop of releases: the pages [gone] go, those of [bl] stay. *)
Definition releases (c : M gstate unit) (s : gstate) (bl : list (Z * Z)) : Prop :=
  ∃ s', c s = Ok (tt, s') ∧ pinv (gp s') bl ∧ kept bl (memory s) (memory s') ∧ init_page_dir s' = init_page_dir s.

Lemma releases_ret s bl : pinv (gp s) bl → releases (ret tt) s bl.
Proof. intros Hp. exists s. split; [done|]. split; [done|]. split; [by intros b ws|done]. Qed.

Lemma releases_bind c1 c2 s bl1 bl : releases c1 s bl1 → (∀ p, p ∈ bl → p ∈ bl1) →
  (∀ s', pinv (gp s') bl1 → kept bl1 (memory s) (memory s') → releases c2 s' bl) → releases (c1;;; c2) s bl.
Proof.
  intros (s1 & E1 & Hp1 & Hk1 & Hi1) Hsub H2. destruct (H2 s1 Hp1 Hk1) as (s2 & E2 & Hp2 & Hk2 & Hi2).
  exists s2. split; [by rewrite (bind_ok _ _ _ _ _ E1)|]. split; [done|]. split; [|congruence].
  intros b ws Hb Hw. apply Hk2; [done|]. apply Hk1; [by apply Hsub|done].
Qed.

Lemma releases_free a s bl : pinv (gp s) ((a, 1) :: bl) → releases (on_p (palloc_free_page a)) s bl.
Proof.
  intros Hp. pose proof (palloc_free_ok a 1 (gp s) bl Hp) as Hw. unfold wp in Hw.
  destruct (palloc_free_multiple a 1 (gp s)) as [[[] p]| | | |] eqn:E; try done. destruct Hw as (Hp' & Hout & _).
  exists (with_pages p s). split; [by apply on_p_ok|]. split; [done|]. split; [|done].
  intros b ws Hb Hw. destruct (block_page s _ a Hp ltac:(left)) as (Ha & _).
  destruct (block_page s _ b Hp ltac:(by right)) as (Hal & _).
  apply (words_same (memory s) _ a); [done|done|done|by eapply block_fresh|done].
Qed.

(** The frames of present entries, the pages of a page table and those of a
    directory, in the order they are released. *)
Definition frame_of (w : Z) : list (Z * Z) := match mapping w with Some (k, _) => [(k, 1)] | None => [] end.
Definition frames (ws : list Z) : list (Z * Z) := flat_map frame_of ws.
Definition table_pages (t : option (Z * list Z)) : list (Z * Z) :=
  match t with Some (pt, ws) => frames ws ++ [(pt, 1)] | None => [] end.
Definition tables (pts : gmap nat (Z * list Z)) : list (option (Z * list Z)) := (λ i, pts !! i) <$> seq 0 768.
Definition owned (pd : Z) (pts : gmap nat (Z * list Z)) : list (Z * Z) := flat_map table_pages (tables pts) ++ [(pd, 1)].

Lemma get_page_block w s bl : pinv (gp s) bl → in_u32 w → (Z.land w PTE_ADDR + PHYS_BASE, 1) ∈ bl →
  pte_get_page w s = Ok (Z.land w PTE_ADDR + PHYS_BASE, s).
Proof.
  intros Hp Hw Hb. destruct (block_page s bl _ Hp Hb) as (_ & _ & Hhi). change (2 ^ 32) with 4294967296 in Hhi.
  assert (0 <= Z.land w PTE_ADDR) by (apply Z.land_nonneg; left; apply Hw).
  unfold pte_get_page, ptov. rewrite bind_assert by (apply Z.ltb_lt; unfold PHYS_BASE, PGSIZE in *; lia).
  unfold ret. by rewrite u32_small by (unfold in_u32, PHYS_BASE, PGSIZE in *; lia).
Qed.

Lemma free_pages_ok pt bl : (pt, 1) ∈ bl → ∀ ws2 ws1 s,
  words (memory s) pt (ws1 ++ ws2) → pinv (gp s) (frames ws2 ++ bl) →
  releases (free_pages (length ws2) (pt + 4 * Z.of_nat (length ws1))) s bl.
Proof.
  intros Hpt ws2. induction ws2 as [|w ws2 IH]; intros ws1 s Hw Hp; [by apply releases_ret|].
  cbn [length free_pages].
  destruct (holds_word _ _ _ (length ws1) w Hw) as [Hu Hh]; [by apply list_lookup_middle|].
  assert (∀ s', pinv (gp s') (frames ws2 ++ bl) → kept (frames ws2 ++ bl) (memory s) (memory s') →
            releases (free_pages (length ws2) (pt + 4 * Z.of_nat (length ws1) + 4)) s' bl) as Hrest.
  { intros s' Hp' Hk. replace (pt + 4 * Z.of_nat (length ws1) + 4) with (pt + 4 * Z.of_nat (length (ws1 ++ [w])))
      by (rewrite length_app; cbn [length]; lia).
    apply IH; [|done]. rewrite <- app_assoc. apply Hk; [|done]. apply elem_of_app. by right. }
  assert (∀ bl1, releases (if negb (Z.land w PTE_P =? 0) then let* page := pte_get_page w in on_p (palloc_free_page page)
            else ret tt) s bl1 → bl1 = frames ws2 ++ bl →
     releases (let* w := load (pt + 4 * Z.of_nat (length ws1)) in
       (if negb (Z.land w PTE_P =? 0) then let* page := pte_get_page w in on_p (palloc_free_page page) else ret tt);;;
       free_pages (length ws2) (pt + 4 * Z.of_nat (length ws1) + 4)) s bl) as Hstep.
  { intros bl1 H1 ->. unfold releases. rewrite (bind_ok _ _ _ _ _ (load_word_ok _ _ _ Hu Hh)).
    apply (releases_bind _ _ _ (frames ws2 ++ bl)); [done| |done]. intros p Hin. apply elem_of_app. by right. }
  eapply Hstep; [|reflexivity]. change (frames (w :: ws2)) with (frame_of w ++ frames ws2) in Hp.
  rewrite <- app_assoc in Hp. unfold frame_of, mapping in Hp.
  destruct (Z.eqb_spec (Z.land w PTE_P) 0) as [E|E]; cbn [negb app] in *; [by apply releases_ret|].
  unfold releases. rewrite (bind_ok _ _ _ _ _ (get_page_block w s _ Hp Hu ltac:(left))). by apply releases_free.
Qed.

Lemma free_tables_ok pd bl dws : (pd, 1) ∈ bl → ∀ ts2 (ts1 : list (option (Z * list Z))) s,
  words (memory s) pd dws → (∀ i t, ts2 !! i = Some t → dws !! (length ts1 + i)%nat = Some (pde_of t)) →
  (∀ pt ws, Some (pt, ws) ∈ ts2 → words (memory s) pt ws ∧ PHYS_BASE <= pt) →
  pinv (gp s) (flat_map table_pages ts2 ++ bl) →
  releases (free_tables (length ts2) (pd + 4 * Z.of_nat (length ts1))) s bl.
Proof.
  intros Hpd ts2. induction ts2 as [|t ts2 IH]; intros ts1 s Hw Hd Ht Hp; [by apply releases_ret|].
  cbn [length free_tables].
  destruct (holds_word _ _ _ (length ts1) (pde_of t) Hw) as [Hu Hh];
    [rewrite <- (Nat.add_0_r (length ts1)); by apply Hd|].
  unfold releases. rewrite (bind_ok _ _ _ _ _ (load_word_ok _ _ _ Hu Hh)).
  set (bl1 := flat_map table_pages ts2 ++ bl).
  apply (releases_bind _ _ s bl1); [|intros p Hin; apply elem_of_app; by right|].
  - destruct t as [[pt ws]|]; cbn [pde_of]; [|by apply releases_ret].
    destruct (Ht pt ws ltac:(left)) as [Hws Hlo]. cbn [flat_map table_pages] in Hp. rewrite <- !app_assoc in Hp.
    fold bl1 in Hp. cbn [app] in Hp.
    destruct (block_page s _ pt Hp) as (Hal & _ & Hhi); [apply elem_of_app; right; left|].
    destruct (pde_addr pt Hlo Hal) as (_ & _ & Hget); [unfold PGSIZE in *; lia|].
    rewrite (entry_flag (pt - PHYS_BASE) 7 PTE_P) by (unfold PHYS_BASE, PGSIZE, PTE_P in *; dlia).
    change (negb (Z.land 7 PTE_P =? 0)) with true. cbv iota.
    unfold releases. rewrite (bind_ok _ _ _ _ _ (Hget s)).
    apply (releases_bind _ _ s ((pt, 1) :: bl1)); [|intros p Hin; by right|].
    + pose proof (free_pages_ok pt ((pt, 1) :: bl1) ltac:(left) ws [] s Hws Hp) as Hf.
      rewrite (proj1 Hws) in Hf. cbn [length] in Hf. by rewrite Z.add_0_r in Hf.
    + intros s' Hp' _. by apply releases_free.
  - intros s' Hp' Hk. replace (pd + 4 * Z.of_nat (length ts1) + 4) with (pd + 4 * Z.of_nat (length (ts1 ++ [t])))
      by (rewrite length_app; cbn [length]; lia).
    apply IH; [apply Hk; [apply elem_of_app; by right|done]| | |done].
    + intros i t' Hi. rewrite length_app. cbn [length]. rewrite <- (Hd (S i) t' Hi). f_equal. lia.
    + intros qt us Hin. destruct (Ht qt us ltac:(by right)) as [Hus Hq]. split; [|done]. apply Hk; [|done].
      apply elem_of_app. left. apply list_elem_of_In, in_flat_map. exists (Some (qt, us)).
      split; [by apply list_elem_of_In|]. cbn [table_pages]. apply in_or_app. right. by left.
Qed.

Lemma length_tables pts : length (tables pts) = 768%nat.
Proof. unfold tables. by rewrite length_fmap, length_seq. Qed.

Lemma tables_lookup pts i t : tables pts !! i = Some t → (i < 768)%nat ∧ t = pts !! i.
Proof.
  unfold tables. rewrite list_lookup_fmap_Some. intros (j & -> & Hj). apply lookup_seq in Hj as [-> Hj]. done.
Qed.

Lemma destroy_releases s bl pd pts : pdinv s (owned pd pts ++ bl) pd pts → pd ≠ init_page_dir s →
  releases (pagedir_destroy pd) s bl.
Proof.
  intros Hi Hne. unfold releases, pagedir_destroy.
  pose proof (pd_nonnull _ _ _ _ Hi) as Hz. apply negb_true_iff in Hz. rewrite Hz, bind_get.
  rewrite bind_assert by (by rewrite (proj2 (Z.eqb_neq _ _))).
  apply (releases_bind _ _ s ((pd, 1) :: bl)); [|intros p Hin; by right|intros s' Hp' _; by apply releases_free].
  destruct (pd_dir _ _ _ _ Hi) as (dws & Hw & Hd). pose proof (pd_pinv _ _ _ _ Hi) as Hp.
  unfold owned in Hp. rewrite <- app_assoc in Hp.
  change (Z.to_nat (pd_no PHYS_BASE)) with 768%nat. rewrite <- (length_tables pts).
  replace pd with (pd + 4 * Z.of_nat (@length (option (Z * list Z)) [])) at 1 by (cbn [length]; lia).
  apply (free_tables_ok pd _ dws ltac:(left)); [done| | |done].
  - intros i t Ht. apply tables_lookup in Ht as [Hlt ->]. by apply Hd.
  - intros pt ws Hin. apply list_elem_of_lookup_1 in Hin as [i Ht]. apply tables_lookup in Ht as [_ Ht].
    by destruct (pd_tables _ _ _ _ Hi i pt ws (eq_sym Ht)) as (_ & _ & ? & _ & ? & _).
Qed.

(** ** The theorems *)

(** C5. A page directory is a map from user pages to frames.  pagedir_create()
    gives a directory that maps nothing, or a null pointer if the kernel's pool
    has no free page; on a directory, pagedir_get_page() is lookup,
    pagedir_set_page() adds exactly one page, or fails and changes nothing,
    which happens only if there is no page table for the page yet and the
    kernel's pool has no free page, and fails its ASSERT on a page that is
    mapped already; pagedir_clear_page() removes exactly one page. *)
Theorem pagedir_refines_map ram s bl :
  (initial_dir s bl → ∃ pd s', pagedir_create s = Ok (pd, s') ∧
     (pd = 0 → exhausted false (gp s') bl 1) ∧
     (pd ≠ 0 → pdinv s' ((pd, 1) :: bl) pd ∅ ∧ ∀ va, mapping (entry ∅ va) = None)) ∧
  ∀ pd pts, pdinv s bl pd pts →
    (∀ va, 0 <= va < PHYS_BASE → pagedir_get_page pd va s =
       Ok (match mapping (entry pts va) with Some (k, _) => k + pg_ofs va | None => 0 end, s)) ∧
    (∀ upage kpage writable,
       0 <= upage < PHYS_BASE → upage mod PGSIZE = 0 → PHYS_BASE <= kpage < 2 ^ 32 → kpage mod PGSIZE = 0 →
       (kpage - PHYS_BASE) / PGSIZE < ram → pd ≠ init_page_dir s →
       if mapping (entry pts upage) is None then
         ∃ r s' bl' pts', pagedir_set_page ram pd upage kpage writable s = Ok (r, s') ∧ pdinv s' bl' pd pts' ∧
           (r = false → pts !! Z.to_nat (pd_no upage) = None ∧ exhausted false (gp s') bl 1) ∧
           ∀ va, 0 <= va < PHYS_BASE → mapping (entry pts' va) =
             if r && (pg_no va =? pg_no upage) then Some (kpage, writable) else mapping (entry pts va)
       else pagedir_set_page ram pd upage kpage writable s = Panic) ∧
    (∀ upage, 0 <= upage < PHYS_BASE → upage mod PGSIZE = 0 →
       ∃ s' pts', pagedir_clear_page pd upage s = Ok (tt, s') ∧ pdinv s' bl pd pts' ∧
         ∀ va, 0 <= va < PHYS_BASE →
           mapping (entry pts' va) = if pg_no va =? pg_no upage then None else mapping (entry pts va)).
Proof.
  split.
  - intros Hid. destruct (create_ok s bl Hid) as (pd & s' & E & _ & Hc). exists pd, s'. split; [done|]. split.
    + intros ->. rewrite decide_True in Hc by done. apply Hc.
    + intros Hne. rewrite decide_False in Hc by done. split; [apply Hc|done].
  - intros pd pts Hi. split; [|split].
    + intros va Hva. by apply (get_page_ok s bl).
    + intros upage kpage writable H1 H2 H3 H4 H5 H6. by apply (set_page_ok ram s bl).
    + intros upage H1 H2. by apply clear_page_ok.
Qed.

(** pagedir_destroy() gives back exactly the pages of the process.  On a
    directory whose page tables, mapped frames and own page are distinct pages
    in use, it returns; afterwards those pages are free, every other page in
    use still is, and its words are unchanged.  It fails its ASSERT on the
    kernel's own directory and does nothing on a null pointer. *)
Theorem pagedir_destroy_frees s bl pd pts :
  pagedir_destroy 0 s = Ok (tt, s) ∧
  (init_page_dir s ≠ 0 → pagedir_destroy (init_page_dir s) s = Panic) ∧
  (pdinv s (owned pd pts ++ bl) pd pts → pd ≠ init_page_dir s →
   ∃ s', pagedir_destroy pd s = Ok (tt, s') ∧ pinv (gp s') bl ∧ kept bl (memory s) (memory s')).
Proof.
  split; [done|]. split.
  - intros Hz. unfold pagedir_destroy. rewrite (proj2 (Z.eqb_neq _ 0)), bind_get, Z.eqb_refl by done. done.
  - intros Hi Hne. destruct (destroy_releases s bl pd pts Hi Hne) as (s' & E & Hp & Hk & _). by exists s'.
Qed.

(** Setting or clearing the dirty or accessed bit of a page changes no mapping;
    afterwards the bit reads as it was set if the page has a page table, and
    the bit of every other page is as before. *)
Theorem pagedir_flags_set flag s bl pd pts va value :
  flag = PTE_D ∨ flag = PTE_A → pdinv s bl pd pts → 0 <= va < PHYS_BASE →
  ∃ s' pts', set_flag flag pd va value s = Ok (tt, s') ∧ pdinv s' bl pd pts' ∧
    ∀ vb, 0 <= vb < PHYS_BASE →
      mapping (entry pts' vb) = mapping (entry pts vb) ∧
      test_flag flag pd vb s' =
        if (pg_no vb =? pg_no va) && bool_decide (is_Some (pts !! Z.to_nat (pd_no va)))
        then Ok (value, s') else Ok (negb (Z.land (entry pts vb) flag =? 0), s').
Proof.
  intros Hf Hi Hva. destruct (set_flag_ok flag s bl pd pts va value Hf Hi Hva) as (s' & pts' & E & Hi' & He).
  exists s', pts'. split; [done|]. split; [done|]. intros vb Hvb. rewrite (test_flag_ok _ _ _ _ _ _ Hi' Hvb).
  rewrite He by done. destruct (flagged_ok flag (entry pts va) value Hf (entry_range _ _ _ _ va Hi)) as (_ & _ & Hm & Ht).
  destruct (Z.eqb_spec (pg_no vb) (pg_no va)) as [Hp|]; cbn [andb]; [|done].
  destruct (bool_decide _); [|done]. rewrite Hm, Ht. split; [|done]. f_equal. by apply entry_page.
Qed.

(** ** Example *)

(** A machine with three free kernel pages, the first one the kernel's own
    page directory, and the directory copied from it. *)
Definition ram_pages : Z := 264.
Definition demo_dirmem : gmap Z Z := Memory.store ∅ (PHYS_BASE + 1048576) (replicate (Z.to_nat 32768) 7).
Definition demo_pool : pool := mk_pool new_lock (Bitmap.Bitmap.mk_bitmap 0 []) 0.
Definition demo_off : pstate := mk_pstate demo_lock.1 demo_dirmem demo_pool demo_pool.
Definition demo_on : pstate := result_of (palloc_init 1000 ram_pages demo_off) demo_off.
Definition demo_kdir : Z := PHYS_BASE + 1048576 + 4096.
Definition demo_one : pstate := result_of (palloc_get_page PAL_ZERO demo_on) demo_on.
Definition demo_gstate : gstate := mk_gstate demo_one (demo_kdir - PHYS_BASE) demo_kdir.

(** Two runs of one request agree: the outcome computed for a concrete state is
    the one palloc_get_ok describes. *)
Lemma zeroed_dir s bl a p : pinv s bl → palloc_get_multiple PAL_ZERO 1 s = Ok (a, p) → a ≠ 0 →
  PHYS_BASE <= a → initial_dir (mk_gstate p (a - PHYS_BASE) a) ((a, 1) :: bl).
Proof.
  intros Hp Eget Ha Hb.
  destruct (palloc_get_ok PAL_ZERO 1 s bl Hp ltac:(lia)) as [(a' & p' & E & Hg)|[_ Hno]].
  - rewrite Eget in E. injection E as <- <-. pose proof (got_inv _ _ _ _ _ _ _ Hg) as Hp1.
    destruct (block_page (mk_gstate p 0 0) _ a Hp1 ltac:(left)) as (_ & _ & Hhi).
    split; [done|left| |cbn; unfold PHYS_BASE, PGSIZE in *; lia].
    exists zero_table. split; [apply zeroed_words; by apply Hg|]. intros i Hi. cbn in Hi.
    destruct (lookup_lt_is_Some_2 zero_table i ltac:(rewrite length_zero; lia)) as [x Hx].
    pose proof (zero_lookup i) as H0. rewrite Hx in H0 |- *. cbn in H0. by rewrite H0.
  - change (has PAL_ZERO PAL_ASSERT) with false in Hno. cbv iota in Hno. destruct Hno as (p' & E & _).
    rewrite Eget in E. by injection E as ->.
Qed.

Lemma demo_on_inv : pinv demo_on [].
Proof.
  assert (boots 1000 ram_pages demo_off) as Hboot.
  { split; [split; vm_compute; reflexivity|]. split; [unfold ram_pages; lia|]. split; [lia|].
    intros x Hx. unfold demo_off, demo_dirmem. cbn [pmem]. rewrite lookup_store, decide_True.
    - apply lookup_lt_is_Some. rewrite length_replicate. unfold PGSIZE, ram_pages in *. lia.
    - unfold zlen. rewrite length_replicate. unfold PGSIZE, ram_pages in *. lia. }
  apply (palloc_init_ok _ _ _ _ Hboot).
  refine (is_ok_eq (palloc_init 1000 ram_pages demo_off) demo_off _). vm_compute. reflexivity.
Qed.

Lemma demo_initial : initial_dir demo_gstate [(demo_kdir, 1)].
Proof.
  assert (palloc_get_multiple PAL_ZERO 1 demo_on = Ok (demo_kdir, demo_one)) as Eget
    by (refine (returns_eq demo_kdir (palloc_get_multiple PAL_ZERO 1 demo_on) demo_on _); vm_compute; reflexivity).
  refine (zeroed_dir demo_on [] demo_kdir demo_one demo_on_inv Eget _ _); vm_compute; discriminate.
Qed.

Lemma ok_value {S A} (o : outcome S A) a s a' s' : o = Ok (a, s) → o = Ok (a', s') → a = a'.
Proof. intros -> [= -> _]. done. Qed.

Lemma ok_state {S A} (o : outcome S A) a s a' s' : o = Ok (a, s) → o = Ok (a', s') → s = s'.
Proof. intros -> [= _ ->]. done. Qed.

Definition demo_pd : Z := demo_kdir + 4096.

Lemma demo_created : pagedir_create demo_gstate = Ok (demo_pd, result_of (pagedir_create demo_gstate) demo_gstate).
Proof. refine (returns_eq demo_pd (pagedir_create demo_gstate) demo_gstate _). vm_compute. reflexivity. Qed.

(** The page at 4096 is mapped to the last frame. *)
Definition demo_frame : Z := PHYS_BASE + 263 * 4096.
Lemma demo_frame_range : PHYS_BASE <= demo_frame < 2 ^ 32.
Proof. unfold demo_frame, PHYS_BASE. lia. Qed.
Definition demo_dir : gstate := result_of (pagedir_create demo_gstate) demo_gstate.
Lemma demo_dir_created : pagedir_create demo_gstate = Ok (demo_pd, demo_dir).
Proof. exact demo_created. Qed.
Definition demo_mapped : gstate := result_of (pagedir_set_page ram_pages demo_pd 4096 demo_frame true demo_dir) demo_dir.
Lemma demo_set : pagedir_set_page ram_pages demo_pd 4096 demo_frame true demo_dir = Ok (true, demo_mapped).
Proof. refine (returns_eq true (pagedir_set_page ram_pages demo_pd 4096 demo_frame true demo_dir) demo_dir _). vm_compute. reflexivity. Qed.
Lemma demo_dirs_other : demo_pd ≠ init_page_dir demo_dir ∧ demo_pd ≠ init_page_dir demo_mapped.
Proof. apply (bool_decide_eq_true_1 _). vm_compute. reflexivity. Qed.

Lemma pagedir_refines_map_witness :
  ∃ s' s'' s3, pagedir_create demo_gstate = Ok (demo_pd, s') ∧
    pagedir_set_page ram_pages demo_pd 4096 demo_frame true s' = Ok (true, s'') ∧
    pagedir_get_page demo_pd 4100 s'' = Ok (demo_frame + 4, s'') ∧ pagedir_get_page demo_pd 8192 s'' = Ok (0, s'') ∧
    pagedir_set_page ram_pages demo_pd 4096 demo_frame true s'' = Panic ∧
    pagedir_clear_page demo_pd 4096 s'' = Ok (tt, s3) ∧ pagedir_get_page demo_pd 4100 s3 = Ok (0, s3).
Proof.
  assert (Hr : ∀ va, bool_decide (0 <= va < PHYS_BASE) = true → 0 <= va < PHYS_BASE) by (intros va; apply bool_decide_eq_true_1).
  destruct (proj1 (pagedir_refines_map ram_pages demo_gstate [(demo_kdir, 1)]) demo_initial) as (pd & s' & E & _ & Hpd).
  pose proof (ok_value _ _ _ _ _ E demo_dir_created) as ->. destruct Hpd as [Hi _]; [vm_compute; discriminate|].
  pose proof (ok_state _ _ _ _ _ E demo_dir_created) as ->.
  destruct (proj2 (pagedir_refines_map ram_pages demo_dir [(demo_pd, 1); (demo_kdir, 1)]) demo_pd ∅ Hi) as (_ & Hset & _).
  specialize (Hset 4096 demo_frame true (Hr 4096 eq_refl) eq_refl demo_frame_range eq_refl eq_refl (proj1 demo_dirs_other)).
  change (mapping (entry ∅ 4096)) with (@None (Z * bool)) in Hset.
  destruct Hset as (r & s'' & bl & pts & E2 & Hi2 & _ & Hm).
  pose proof (ok_value _ _ _ _ _ E2 demo_set) as ->. cbn [andb] in Hm.
  destruct (proj2 (pagedir_refines_map ram_pages s'' bl) demo_pd pts Hi2) as (Hget & Hset & Hclear).
  destruct (Hclear 4096 (Hr 4096 eq_refl) eq_refl) as (s3 & pts3 & E3 & Hi3 & Hm3).
  pose proof (proj1 (proj2 (pagedir_refines_map ram_pages s3 bl) demo_pd pts3 Hi3)) as Hget3.
  exists demo_dir, s'', s3. split; [exact E|]. split; [exact E2|].
  split; [rewrite (Hget 4100 (Hr 4100 eq_refl)), (Hm 4100 (Hr 4100 eq_refl)); reflexivity|].
  split; [rewrite (Hget 8192 (Hr 8192 eq_refl)), (Hm 8192 (Hr 8192 eq_refl)); reflexivity|].
  split; [|split; [exact E3|rewrite (Hget3 4100 (Hr 4100 eq_refl)), (Hm3 4100 (Hr 4100 eq_refl)); reflexivity]].
  assert (demo_pd ≠ init_page_dir s'') as Hne.
  { rewrite (ok_state _ _ _ _ _ E2 demo_set). apply demo_dirs_other. }
  specialize (Hset 4096 demo_frame true (Hr 4096 eq_refl) eq_refl demo_frame_range eq_refl eq_refl Hne).
  rewrite (Hm 4096 (Hr 4096 eq_refl)) in Hset. exact Hset.
Defined.

Lemma pagedir_destroy_frees_witness :
  ∃ s' s'', pagedir_create demo_gstate = Ok (demo_pd, s') ∧ pagedir_destroy demo_pd s' = Ok (tt, s'') ∧
    pinv (gp s'') [(demo_kdir, 1)].
Proof.
  destruct (create_ok demo_gstate [(demo_kdir, 1)] demo_initial) as (pd & s' & E & _ & Hc).
  pose proof (ok_value _ _ _ _ _ E demo_created) as ->.
  rewrite decide_False in Hc by (vm_compute; discriminate). destruct Hc as (Hi & Hne & _).
  assert (owned demo_pd ∅ = [(demo_pd, 1)]) as Ho by reflexivity.
  destruct (proj2 (proj2 (pagedir_destroy_frees s' [(demo_kdir, 1)] demo_pd ∅))) as (s'' & E2 & Hp & _);
    [rewrite Ho; exact Hi|exact Hne|].
  exists s', s''. split; [exact E|]. split; [exact E2|exact Hp].
Defined.

End Pagedir.
