(* ===== verification/Boot.v ===== *)
(** * Boot: the kernel's page tables (threads/init.c, paging_init)

    paging_init() builds the page directory that maps physical memory at
    [PHYS_BASE], on the pages of [Palloc] and with the entries of [Pagedir].
    The bounds of the kernel's text, which the linker sets, are parameters.

    The theorem reads the tables as the processor does: it walks them from cr3
    in memory, for every virtual address. *)

From Stdlib Require Import ZArith Lia.
From stdpp Require Import base tactics option list numbers gmap.
From S2P Require Import Prelude Memory Bitmap Sched Synch Vaddr Palloc Pagedir.
Import Memory Sched Synch Vaddr Palloc Pagedir.

Module Boot.

Section paging.
Context (init_ram_pages start end_kernel_text : Z).

Definition in_kernel_text (vaddr : Z) : bool := (start <=? vaddr) && (vaddr <? end_kernel_text).

(** [for (page = 0; page < init_ram_pages; page++)], with [n] pages to go. *)
Fixpoint page_loop (n : nat) (pd page pt : Z) : M gstate unit :=
  match n with
  | O => ret tt
  | S n =>
      let* vaddr := ptov (page * PGSIZE) in
      let pde := pd + 4 * pd_no vaddr in
      let* w := load pde in
      let* pt :=
        (if w =? 0 then
           let* pt := on_p (palloc_get_page (Z.lor PAL_ASSERT PAL_ZERO)) in
           let* e := pde_create pt in
           store pde e;;;
           ret pt
         else ret pt) in
      let* e := pte_create_kernel vaddr (negb (in_kernel_text vaddr)) in
      store (pt + 4 * pt_no vaddr) e;;;
      page_loop n pd (page + 1) pt
  end.

Definition paging_init : M gstate unit :=
  let* pd := on_p (palloc_get_page (Z.lor PAL_ASSERT PAL_ZERO)) in
  modify (λ s, mk_gstate (gp s) (cr3 s) pd);;;
  page_loop (Z.to_nat init_ram_pages) pd 0 0;;;
  let* s := get in
  let* p := vtop (init_page_dir s) in
  modify (λ s, mk_gstate (gp s) p (init_page_dir s)).

(** ** The processor's view *)

(** The frame that [va] is mapped to, with the rights to write and for user
    code. *)
Definition walk (s : gstate) (va : Z) : option (Z * bool * bool) :=
  match load (cr3 s + PHYS_BASE + 4 * pd_no va) s with
  | Ok (pde, _) =>
      if Z.land pde PTE_P =? 0 then None
      else
        match load (Z.land pde PTE_ADDR + PHYS_BASE + 4 * pt_no va) s with
        | Ok (pte, _) =>
            if Z.land pte PTE_P =? 0 then None
            else Some (Z.land pte PTE_ADDR,
                       negb (Z.land (Z.land pde pte) PTE_W =? 0), negb (Z.land (Z.land pde pte) PTE_U =? 0))
        | _ => None
        end
  | _ => None
  end.

(** ** Tables under construction *)

(** [pts] are the tables for the addresses from [PHYS_BASE] on, in order. *)
Record kdir (s : gstate) (bl : list (Z * Z)) (pd : Z) (pts : list (Z * list Z)) : Prop := {
  kd_pinv : pinv (gp s) bl;
  kd_block : (pd, 1) ∈ bl;
  kd_addr : PHYS_BASE <= pd;
  kd_dir : ∃ dws, words (memory s) pd dws ∧ ∀ i, (i < 1024)%nat →
    dws !! i = Some (if (i <? 768)%nat then 0 else pde_of (pts !! (i - 768)%nat));
  kd_tables : ∀ j pt ws, pts !! j = Some (pt, ws) →
    (pt, 1) ∈ bl ∧ PHYS_BASE <= pt ∧ pt ≠ pd ∧ words (memory s) pt ws;
  kd_inj : ∀ i j pt ws ws', pts !! i = Some (pt, ws) → pts !! j = Some (pt, ws') → i = j
}.

(** A new page leaves the tables alone. *)
Lemma kdir_more s s' bl pd pts a : kdir s bl pd pts → pinv (gp s') ((a, 1) :: bl) →
  outside_same a PGSIZE (memory s) (memory s') → kdir s' ((a, 1) :: bl) pd pts.
Proof.
  intros [Hp Hb Ha Hd Htab Hinj] Hp' Hout.
  destruct (block_page s' _ a Hp' ltac:(left)) as (Hal & _).
  assert (∀ q ws, (q, 1) ∈ bl → words (memory s) q ws → words (memory s') q ws) as Hsame.
  { intros q ws Hq Hw. destruct (block_page s bl q Hp Hq) as (Hal' & _).
    apply (words_same (memory s) _ a); [done|done|done|by apply (block_fresh (gp s') bl)|done]. }
  split; try done.
  - by right.
  - destruct Hd as (dws & Hw & Hd). exists dws. split; [by apply Hsame|done].
  - intros j pt ws Ht. destruct (Htab j pt ws Ht) as (G1 & G2 & G3 & G4).
    split; [by right|]. split; [done|]. split; [done|]. by apply Hsame.
Qed.

(** The next table is entered in the directory. *)
Lemma kdir_install s bl pd pts pt : kdir s bl pd pts → (length pts < 256)%nat →
  (pt, 1) ∈ bl → PHYS_BASE <= pt → pt ≠ pd → (∀ j q ws, pts !! j = Some (q, ws) → pt ≠ q) → zeroed (memory s) pt PGSIZE →
  ∃ s', store (pd + 4 * Z.of_nat (768 + length pts)) (pt - PHYS_BASE + 7) s = Ok (tt, s') ∧
    kdir s' bl pd (pts ++ [(pt, zero_table)]) ∧ unmoved (gp s) (gp s') ∧ init_page_dir s' = init_page_dir s.
Proof.
  intros [Hp Hb Ha Hd Htab Hinj] Hlen Hbt Hlo Hne Hfresh Hz.
  destruct (block_page s bl pt Hp Hbt) as (Hal & _ & Hhi). destruct (block_page s bl pd Hp Hb) as (Hald & _).
  destruct (pde_addr pt Hlo Hal) as (Hu & _ & _); [unfold PGSIZE in *; lia|]. destruct Hd as (dws & Hw & Hd).
  destruct (wr32_ok (memory s) pd dws (768 + length pts) _ Hw ltac:(lia) Hu) as (m' & E & Hw' & Hout & Hmap).
  assert (∀ q ws, (q, 1) ∈ bl → q ≠ pd → words (memory s) q ws → words m' q ws) as Hsame.
  { intros q ws Hq Hqd Hqw. destruct (block_page s bl q Hp Hq) as (Halq & _). by apply (words_same (memory s) m' pd). }
  exists (with_mem m' s). split; [by apply store_word_ok|]. split; [|by split].
  split; [by apply pinv_write|done|done| | |].
  - eexists. split; [done|]. intros i Hi. destruct (decide (i = 768 + length pts)%nat) as [->|Hni].
    + rewrite list_lookup_insert_eq by (destruct Hw as [-> _]; lia). f_equal.
      destruct (Nat.ltb_spec (768 + length pts) 768); [lia|].
      replace (768 + length pts - 768)%nat with (length pts) by lia. by rewrite list_lookup_middle.
    + rewrite list_lookup_insert_ne by done. rewrite Hd by done. destruct (Nat.ltb_spec i 768); [done|]. do 2 f_equal.
      destruct (decide (i - 768 < length pts)%nat); [by rewrite lookup_app_l|].
      rewrite !lookup_ge_None_2; [done|rewrite length_app; cbn [length]; lia|lia].
  - intros j q ws [Hj|[Hj1 Hj2]]%lookup_app_Some.
    + destruct (Htab j q ws Hj) as (G1 & G2 & G3 & G4). split; [done|]. split; [done|]. split; [done|]. by apply Hsame.
    + apply list_lookup_singleton_Some in Hj2 as [_ [= <- <-]]. split; [done|]. split; [done|]. split; [done|].
      by apply Hsame, zeroed_words.
  - intros i j q ws ws' [Hi|[Hi1 Hi2]]%lookup_app_Some [Hj|[Hj1 Hj2]]%lookup_app_Some.
    + by eapply Hinj.
    + apply list_lookup_singleton_Some in Hj2 as [_ [= <- <-]]. by destruct (Hfresh _ _ _ Hi).
    + apply list_lookup_singleton_Some in Hi2 as [_ [= <- <-]]. by destruct (Hfresh _ _ _ Hj).
    + apply list_lookup_singleton_Some in Hi2 as [Hi2 _]. apply list_lookup_singleton_Some in Hj2 as [Hj2 _]. lia.
Qed.

(** An entry of a table is set. *)
Lemma kdir_store s bl pd pts j pt ws e v : kdir s bl pd pts → pts !! j = Some (pt, ws) → (e < 1024)%nat → in_u32 v →
  ∃ s', store (pt + 4 * Z.of_nat e) v s = Ok (tt, s') ∧ kdir s' bl pd (<[j := (pt, <[e := v]> ws)]> pts) ∧
    unmoved (gp s) (gp s') ∧ init_page_dir s' = init_page_dir s.
Proof.
  intros [Hp Hb Ha Hd Htab Hinj] Ht He Hv. destruct (Htab _ _ _ Ht) as (Hbt & Hlo & Hne & Hw).
  destruct (wr32_ok (memory s) pt ws e v Hw He Hv) as (m' & E & Hw' & Hout & Hmap).
  destruct (block_page s bl pt Hp Hbt) as (Hal & _). destruct (block_page s bl pd Hp Hb) as (Hald & _).
  assert (j < length pts)%nat as Hj by (by eapply lookup_lt_Some).
  exists (with_mem m' s). split; [by apply store_word_ok|]. split; [|by split].
  split; [by apply pinv_write|done|done| | |].
  - destruct Hd as (dws & Hdw & Hd). exists dws. split; [by apply (words_same (memory s) m' pt)|].
    intros i Hi'. rewrite Hd by done. destruct (Nat.ltb_spec i 768); [done|]. f_equal.
    destruct (decide (i - 768 = j)%nat) as [->|]; [by rewrite list_lookup_insert_eq, Ht|by rewrite list_lookup_insert_ne].
  - intros i q us. destruct (decide (i = j)) as [->|Hni].
    + rewrite list_lookup_insert_eq by done. intros [= <- <-]. done.
    + rewrite list_lookup_insert_ne by done. intros Hq. destruct (Htab i q us Hq) as (G1 & G2 & G3 & G4).
      split; [done|]. split; [done|]. split; [done|]. destruct (block_page s bl q Hp G1) as (Halq & _).
      apply (words_same (memory s) m' pt); [done|done|done| |done]. intros <-. apply Hni. by eapply Hinj.
  - intros i k q us us'. destruct (decide (i = j)) as [->|], (decide (k = j)) as [->|];
      rewrite ?list_lookup_insert_eq, ?list_lookup_insert_ne by done; [done| | |by apply Hinj].
    + intros [= <- <-] Hk. by eapply Hinj.
    + intros Hi' [= <- <-]. by eapply Hinj.
Qed.

(** The entry of the directory for the [p]th page of memory. *)
Lemma kdir_load s bl pd pts i : kdir s bl pd pts → (i < 1024)%nat →
  load (pd + 4 * Z.of_nat i) s = Ok (if (i <? 768)%nat then 0 else pde_of (pts !! (i - 768)%nat), s).
Proof.
  intros Hk Hi. destruct (kd_dir _ _ _ _ Hk) as (dws & Hw & Hd). pose proof (Hd i Hi) as Hdi.
  destruct (holds_word _ _ _ _ _ Hw Hdi) as [Hu Hh]. by apply load_word_ok.
Qed.

Lemma kdir_load_pte s bl pd pts j pt ws e v : kdir s bl pd pts → pts !! j = Some (pt, ws) → ws !! e = Some v →
  load (pt + 4 * Z.of_nat e) s = Ok (v, s).
Proof.
  intros Hk Ht Hv. destruct (kd_tables _ _ _ _ Hk _ _ _ Ht) as (_ & _ & _ & Hw).
  destruct (holds_word _ _ _ _ _ Hw Hv) as [Hu Hh]. by apply load_word_ok.
Qed.
(** ** The loop *)

(** The entry of the [p]th page of memory. *)
Definition entry_for (p : Z) : Z := p * PGSIZE + (if in_kernel_text (PHYS_BASE + p * PGSIZE) then 1 else 3).

(** The tables of the first [k] pages. *)
Record filled (pts : list (Z * list Z)) (k : Z) : Prop := {
  fi_length : Z.of_nat (length pts) = (k + 1023) / 1024;
  fi_entry : ∀ j pt ws e, pts !! j = Some (pt, ws) → (e < 1024)%nat →
    ws !! e = Some (if 1024 * Z.of_nat j + Z.of_nat e <? k then entry_for (1024 * Z.of_nat j + Z.of_nat e) else 0)
}.

Lemma index_of k : 0 ≤ k < 262144 →
  let va := PHYS_BASE + k * PGSIZE in
  pd_no va = 768 + k / 1024 ∧ pt_no va = k mod 1024 ∧ PHYS_BASE ≤ va ∧ va + PGSIZE ≤ 2 ^ 32 ∧ va mod PGSIZE = 0.
Proof. intros Hk. cbv zeta. rewrite pd_no_div, pt_no_div. unfold PHYS_BASE, PGSIZE. dlia. Qed.

Lemma pte_create_ok k (s : gstate) : 0 ≤ k < 262144 →
  let va := PHYS_BASE + k * PGSIZE in
  pte_create_kernel va (negb (in_kernel_text va)) s = Ok (entry_for k, s) ∧ in_u32 (entry_for k).
Proof.
  intros Hk. cbv zeta. destruct (index_of k Hk) as (_ & _ & Hlo & Hhi & Hal). unfold pte_create_kernel, vtop, is_kernel_vaddr.
  rewrite bind_assert by (by rewrite pg_ofs_mod, Hal). rewrite bind_assoc, bind_assert by (rewrite Z.geb_leb; by apply Z.leb_le).
  run. unfold ret, entry_for. replace (PHYS_BASE + k * PGSIZE - PHYS_BASE) with (k * PGSIZE) by lia.
  assert ((k * PGSIZE) mod PGSIZE = 0) as Hm by (unfold PGSIZE; dlia).
  split; [|unfold in_u32, PGSIZE; destruct (in_kernel_text _); lia].
  rewrite <- Z.lor_assoc. destruct (in_kernel_text _); cbn [negb].
  - change (Z.lor PTE_P 0) with 1. by rewrite aligned_lor by (done || unfold PGSIZE; lia).
  - change (Z.lor PTE_P PTE_W) with 3. by rewrite aligned_lor by (done || unfold PGSIZE; lia).
Qed.

(** The table of the next page: the last one, or a new one. *)
Definition last_table (pts : list (Z * list Z)) : Z := from_option fst 0 (last pts).

(** One more page. *)
Lemma filled_step pts k pt ws :
  0 ≤ k → (∀ j pt ws e, pts !! j = Some (pt, ws) → (e < 1024)%nat →
    ws !! e = Some (if 1024 * Z.of_nat j + Z.of_nat e <? k then entry_for (1024 * Z.of_nat j + Z.of_nat e) else 0)) →
  Z.of_nat (length pts) = k / 1024 + 1 → pts !! Z.to_nat (k / 1024) = Some (pt, ws) →
  filled (<[Z.to_nat (k / 1024) := (pt, <[Z.to_nat (k mod 1024) := entry_for k]> ws)]> pts) (k + 1).
Proof.
  intros Hk Hf Hlen Ht. split; [rewrite length_insert; dlia|]. intros j q us e Hj He.
  pose proof (Z.mod_pos_bound k 1024 ltac:(done)). pose proof (Z.div_mod k 1024 ltac:(done)). assert (0 ≤ k / 1024) by dlia.
  destruct (decide (j = Z.to_nat (k / 1024))) as [->|Hne].
  - rewrite list_lookup_insert_eq in Hj by lia. injection Hj as <- <-.
    pose proof (Hf _ _ _ (Z.to_nat (k mod 1024)) Ht ltac:(lia)) as Hlk. apply lookup_lt_Some in Hlk.
    destruct (decide (e = Z.to_nat (k mod 1024))) as [->|Hne].
    + rewrite list_lookup_insert_eq by done. replace (1024 * Z.of_nat (Z.to_nat (k / 1024)) + Z.of_nat (Z.to_nat (k mod 1024))) with k by lia.
      by rewrite (proj2 (Z.ltb_lt _ _)) by lia.
    + rewrite list_lookup_insert_ne by done. rewrite (Hf _ _ _ e Ht He).
      destruct (Z.ltb_spec (1024 * Z.of_nat (Z.to_nat (k / 1024)) + Z.of_nat e) k),
        (Z.ltb_spec (1024 * Z.of_nat (Z.to_nat (k / 1024)) + Z.of_nat e) (k + 1)); try done; lia.
  - rewrite list_lookup_insert_ne in Hj by done. rewrite (Hf _ _ _ e Hj He).
    assert (j < length pts)%nat by (by eapply lookup_lt_Some).
    destruct (Z.ltb_spec (1024 * Z.of_nat j + Z.of_nat e) k), (Z.ltb_spec (1024 * Z.of_nat j + Z.of_nat e) (k + 1)); try done; lia.
Qed.

(** Single pages, as blocks of the page allocator. *)
Definition single (pages : list Z) : list (Z * Z) := (λ a, (a, 1)) <$> pages.

(** The pool of kernel pages of [p0] cannot give the directory and its tables
    next to the blocks [bl0]: fewer pages than these fill it. *)
Definition table_pages : Z := 1 + (init_ram_pages + 1023) / 1024.
Definition too_small (p0 : pstate) (bl0 : list (Z * Z)) : Prop :=
  ∃ pages, zlen pages < table_pages ∧ exhausted false p0 (single pages ++ bl0) 1.

Lemma pages_of_single pages : pages_of (single pages) = pg_no <$> pages.
Proof. induction pages as [|a l IH]; [done|]. cbn. by f_equal. Qed.

(** A pool with that many free pages is not too small. *)
Lemma enough_pages p0 bl0 (free : list Z) :
  NoDup (pg_no <$> free) → table_pages <= zlen free →
  Forall (λ a, in_pool false p0 a 1 ∧ pg_no a ∉ pages_of bl0) free → ¬ too_small p0 bl0.
Proof.
  intros Hnd Hlen Hfree (pages & Hp & Hex).
  assert (pg_no <$> free ⊆+ pg_no <$> pages) as Hsub.
  { apply NoDup_submseteq; [done|]. intros x (a & -> & Ha)%list_elem_of_fmap.
    rewrite Forall_forall in Hfree. destruct (Hfree a Ha) as [Hin Hno].
    destruct (Hex a Hin) as (y & Hy & Hy'). assert (y = pg_no a) as -> by lia.
    rewrite elem_of_pages in Hy'. destruct Hy' as (b & n & [Hb|Hb]%elem_of_app & Hr).
    - rewrite <- pages_of_single, elem_of_pages. by eauto.
    - destruct Hno. apply elem_of_pages. by eauto. }
  apply submseteq_length in Hsub. rewrite !length_fmap in Hsub. unfold zlen in *. lia.
Qed.

Lemma unmoved_sym p p' : unmoved p p' → unmoved p' p.
Proof. intros [H1 H2]. split; [done|]. intros u. by destruct (H2 u) as [-> ->]. Qed.

Lemma zero_entry e : (e < 1024)%nat → zero_table !! e = Some 0.
Proof. intros He. unfold zero_table. by rewrite lookup_replicate_2. Qed.

(** A zeroed page that is no part of the tables. *)
Lemma new_page s bl pd pts : kdir s bl pd pts →
  (∃ pt s', on_p (palloc_get_page (Z.lor PAL_ASSERT PAL_ZERO)) s = Ok (pt, s') ∧ kdir s' ((pt, 1) :: bl) pd pts ∧
     PHYS_BASE <= pt ∧ pt ≠ pd ∧ (∀ j q ws, pts !! j = Some (q, ws) → pt ≠ q) ∧ zeroed (memory s') pt PGSIZE ∧
     init_page_dir s' = init_page_dir s ∧ pt mod PGSIZE = 0 ∧ unmoved (gp s) (gp s')) ∨
  (on_p (palloc_get_page (Z.lor PAL_ASSERT PAL_ZERO)) s = Panic ∧ exhausted false (gp s) bl 1).
Proof.
  intros Hk. pose proof Hk as [Hp Hb _ _ Htab _]. unfold palloc_get_page.
  destruct (palloc_get_ok (Z.lor PAL_ASSERT PAL_ZERO) 1 (gp s) bl Hp ltac:(lia))
    as [(pt & p & E & [Hne (_ & Hal & Hlo & _) Hp' Hout Hz Hun])|[Hex Hno]].
  - left. exists pt, (with_pages p s). split; [by apply on_p_ok|].
    change (base (the_pool _ (gp s))) with (base (kernel_pool (gp s))) in Hlo.
    pose proof (pi_kernel_base _ _ Hp). change (PGSIZE * 1) with PGSIZE in *.
    assert (∀ q, (q, 1) ∈ bl → pt ≠ q) as Hfresh by (intros q; by apply (block_fresh p bl)).
    split; [by apply (kdir_more s)|]. split; [lia|]. split; [by apply Hfresh|].
    split; [intros j q ws Hj; apply Hfresh, (Htab _ _ _ Hj)|]. split; [by apply Hz|]. done.
  - right. split; [|done]. unfold on_p, lift. change (has (Z.lor PAL_ASSERT PAL_ZERO) PAL_ASSERT) with true in Hno.
    cbv iota in Hno. by rewrite Hno.
Qed.

Lemma last_table_lookup pts k : Z.of_nat (length pts) = k / 1024 + 1 → 0 ≤ k →
  ∃ pt ws, pts !! Z.to_nat (k / 1024) = Some (pt, ws) ∧ last_table pts = pt.
Proof.
  intros Hl Hk. assert (0 ≤ k / 1024) by dlia.
  destruct (lookup_lt_is_Some_2 pts (Z.to_nat (k / 1024))) as [[pt ws] Ht]; [lia|].
  exists pt, ws. split; [done|]. unfold last_table. rewrite last_lookup.
  replace (Nat.pred (length pts)) with (Z.to_nat (k / 1024)) by lia. by rewrite Ht.
Qed.

Lemma last_table_insert pts k pt ws ws' : Z.of_nat (length pts) = k / 1024 + 1 → 0 ≤ k →
  pts !! Z.to_nat (k / 1024) = Some (pt, ws) → last_table (<[Z.to_nat (k / 1024) := (pt, ws')]> pts) = pt.
Proof.
  intros Hl Hk Ht. assert (0 ≤ k / 1024) by dlia. unfold last_table. rewrite last_lookup, length_insert.
  replace (Nat.pred (length pts)) with (Z.to_nat (k / 1024)) by lia. by rewrite list_lookup_insert_eq by lia.
Qed.

(** What the loop leaves, from the pools [p0] with the blocks [bl0]. *)
Section loop.
Context (p0 : pstate) (bl0 : list (Z * Z)) (pd idir : Z) (Hram : init_ram_pages ≤ 262144).

Record building (s : gstate) (pts : list (Z * list Z)) : Prop := {
  bu_dir : ∃ new, kdir s (single new ++ bl0) pd pts ∧ length new = S (length pts);
  bu_pools : unmoved p0 (gp s);
  bu_init : init_page_dir s = idir
}.

Definition built (r : outcome gstate unit) : Prop :=
  match r with
  | Ok (_, s') => ∃ pts, building s' pts ∧ filled pts init_ram_pages
  | Panic => too_small p0 bl0
  | _ => False
  end.

Definition entries_below (pts : list (Z * list Z)) (k : Z) : Prop :=
  ∀ j pt ws e, pts !! j = Some (pt, ws) → (e < 1024)%nat →
    ws !! e = Some (if 1024 * Z.of_nat j + Z.of_nat e <? k then entry_for (1024 * Z.of_nat j + Z.of_nat e) else 0).

(** The entry of page [k], when its table is there. *)
Lemma page_entry_ok k s pts (next : Z → M gstate unit) : 0 ≤ k < 262144 →
  building s pts → Z.of_nat (length pts) = k / 1024 + 1 → entries_below pts k →
  (∀ s' pts', building s' pts' → filled pts' (k + 1) → built (next (last_table pts') s')) →
  built (bind (pte_create_kernel (PHYS_BASE + k * PGSIZE) (negb (in_kernel_text (PHYS_BASE + k * PGSIZE))))
    (λ e, store (last_table pts + 4 * (k mod 1024)) e;;; next (last_table pts)) s).
Proof.
  intros Hk [(new & Hkd & Hlen) Hun Hin] Hl Hf Hnext. destruct (pte_create_ok k s Hk) as [E Hu]. rewrite (bind_ok _ _ _ _ _ E).
  destruct (last_table_lookup pts k Hl ltac:(lia)) as (pt & ws & Ht & Elast). rewrite Elast.
  destruct (kdir_store s _ pd pts (Z.to_nat (k / 1024)) pt ws (Z.to_nat (k mod 1024)) (entry_for k) Hkd Ht)
    as (s2 & E2 & Hk2 & Hun2 & Hn2); [dlia|done|]. rewrite Z2Nat.id in E2 by dlia. rewrite (bind_ok _ _ _ _ _ E2).
  rewrite <- (last_table_insert pts k pt ws (<[Z.to_nat (k mod 1024) := entry_for k]> ws) Hl ltac:(lia) Ht).
  apply Hnext; [|apply filled_step; (done || lia)].
  split; [exists new; by rewrite length_insert|by apply (unmoved_trans _ (gp s))|by rewrite Hn2].
Qed.

(** The first page of a table: there is none yet. *)
Lemma page_table_ok k s pts (next : Z → M gstate unit) : 0 ≤ k < init_ram_pages →
  building s pts → Z.of_nat (length pts) = k / 1024 → k mod 1024 = 0 → entries_below pts k →
  (∀ s' pts', building s' pts' → Z.of_nat (length pts') = k / 1024 + 1 → entries_below pts' k → built (next (last_table pts') s')) →
  built (bind (bind (on_p (palloc_get_page (Z.lor PAL_ASSERT PAL_ZERO)))
    (λ pt, bind (pde_create pt) (λ e, store (pd + 4 * Z.of_nat (768 + length pts)) e;;; ret pt))) next s).
Proof.
  intros Hk [(new & Hkd & Hlen) Hun Hin] Hl Hm Hf Hnext.
  destruct (new_page _ _ _ _ Hkd) as [(pt & s1 & E & Hk1 & Hlo & Hne & Hfr & Hz & Hn1 & Hal & Hun1)|[E Hex]].
  2: { rewrite bind_assoc. unfold bind. rewrite E. exists new. split; [unfold zlen, table_pages; dlia|].
       by apply (exhausted_unmoved _ (gp s)); [apply unmoved_sym|]. }
  rewrite bind_assoc, (bind_ok _ _ _ _ _ E), bind_assoc, (bind_ok _ _ _ _ _ (pde_create_ok pt s1 Hlo Hal)).
  destruct (kdir_install s1 _ pd pts pt Hk1 ltac:(dlia) ltac:(left) Hlo Hne Hfr Hz) as (s2 & E2 & Hk2 & Hun2 & Hn2).
  rewrite bind_assoc, (bind_ok _ _ _ _ _ E2). run.
  replace pt with (last_table (pts ++ [(pt, zero_table)])) at 1 by (unfold last_table; by rewrite last_snoc).
  apply Hnext.
  - split; [|exact (unmoved_trans _ _ _ Hun (unmoved_trans _ _ _ Hun1 Hun2))|by rewrite Hn2, Hn1].
    exists (pt :: new). split; [done|]. rewrite length_app. cbn [length]. lia.
  - rewrite length_app. cbn [length]. lia.
  - intros j q ws e [Hj|[Hj1 Hj2]]%lookup_app_Some He; [by eapply Hf|].
    apply list_lookup_singleton_Some in Hj2 as [Hj2 [= <- <-]].
    rewrite (zero_entry e He). destruct (Z.ltb_spec (1024 * Z.of_nat j + Z.of_nat e) k); [|done]. dlia.
Qed.

Lemma page_loop_ok n : ∀ k s pts, 0 ≤ k → k + Z.of_nat n = init_ram_pages →
  building s pts → filled pts k → built (page_loop n pd k (last_table pts) s).
Proof.
  induction n as [|n IH]; intros k s pts Hk0 Hn Hb Hf.
  { replace k with init_ram_pages in Hf by lia. by exists pts. }
  pose proof Hb as [(new & Hkd & Hlen) _ _]. pose proof Hf as [Hl He].
  destruct (index_of k ltac:(lia)) as (Hpd & Hpt & Hlo & Hhi & _).
  cbn [page_loop]. unfold ptov. rewrite bind_assoc, bind_assert by (apply Z.ltb_lt; unfold PHYS_BASE, PGSIZE; lia). run.
  rewrite u32_small by (unfold in_u32, PHYS_BASE, PGSIZE; lia). rewrite (Z.add_comm (k * PGSIZE)). rewrite Hpd, Hpt.
  replace (768 + k / 1024) with (Z.of_nat (768 + Z.to_nat (k / 1024))) by dlia.
  rewrite (bind_ok _ _ _ _ _ (kdir_load _ _ _ _ (768 + Z.to_nat (k / 1024)) Hkd ltac:(dlia))).
  destruct (Nat.ltb_spec (768 + Z.to_nat (k / 1024)) 768); [lia|].
  replace (768 + Z.to_nat (k / 1024) - 768)%nat with (Z.to_nat (k / 1024)) by lia.
  assert (∀ s' pts', building s' pts' → filled pts' (k + 1) → built (page_loop n pd (k + 1) (last_table pts') s')) as Hnext
    by (intros; apply IH; (done || lia)).
  destruct (decide (k mod 1024 = 0)) as [Hm|Hm].
  - rewrite lookup_ge_None_2 by dlia. cbn [pde_of]. rewrite Z.eqb_refl.
    replace (Z.to_nat (k / 1024)) with (length pts) by dlia.
    apply page_table_ok with (k := k); [lia|done|dlia|done|done|].
    intros s' pts' Hb' Hl' He'. by apply page_entry_ok with (next := page_loop n pd (k + 1)); [lia|..].
  - destruct (last_table_lookup pts k ltac:(dlia) Hk0) as (pt & ws & Ht & _). rewrite Ht. cbn [pde_of].
    destruct (kd_tables _ _ _ _ Hkd _ _ _ Ht) as (Hbt & Hlot & _).
    destruct (block_page s _ pt (kd_pinv _ _ _ _ Hkd) Hbt) as (Hal & _ & Hhit).
    destruct (pde_addr pt Hlot Hal ltac:(unfold PGSIZE in *; lia)) as (_ & Hnz & _).
    rewrite (proj2 (Z.eqb_neq _ 0)) by done. run.
    apply page_entry_ok with (next := page_loop n pd (k + 1)); [lia|done|dlia|done|done].
Qed.
End loop.

(** ** The map *)

(** The directory before the first table. *)
Lemma first_page s bl : pinv (gp s) bl →
  (∃ pd s', on_p (palloc_get_page (Z.lor PAL_ASSERT PAL_ZERO)) s = Ok (pd, s') ∧
     kdir s' ((pd, 1) :: bl) pd [] ∧ unmoved (gp s) (gp s')) ∨
  (on_p (palloc_get_page (Z.lor PAL_ASSERT PAL_ZERO)) s = Panic ∧ exhausted false (gp s) bl 1).
Proof.
  intros Hp. unfold palloc_get_page.
  destruct (palloc_get_ok (Z.lor PAL_ASSERT PAL_ZERO) 1 (gp s) bl Hp ltac:(lia))
    as [(pd & p & E & [Hne (_ & Hal & Hlo & _) Hp' Hout Hz Hun])|[Hex Hno]].
  - left. exists pd, (with_pages p s). split; [by apply on_p_ok|]. split; [|done].
    change (base (the_pool _ (gp s))) with (base (kernel_pool (gp s))) in Hlo.
    pose proof (pi_kernel_base _ _ Hp). split; [done|left|lia| |by intros []|by intros []].
    exists zero_table. split; [by apply zeroed_words, Hz|]. intros i Hi. rewrite zero_entry by done.
    by destruct (i <? 768)%nat.
  - right. split; [|done]. unfold on_p, lift. change (has (Z.lor PAL_ASSERT PAL_ZERO) PAL_ASSERT) with true in Hno.
    cbv iota in Hno. by rewrite Hno.
Qed.

(** What the processor makes of [va]: the frame of the same number, from
    [PHYS_BASE] on, which user code may not touch. *)
Definition kernel_mapping (va : Z) : option (Z * bool * bool) :=
  let p := (va - PHYS_BASE) / PGSIZE in
  if (PHYS_BASE <=? va) && (p <? init_ram_pages)
  then Some (p * PGSIZE, negb (in_kernel_text (PHYS_BASE + p * PGSIZE)), false) else None.

Lemma entry_for_bits p pt : 0 ≤ p < 262144 → pt mod PGSIZE = 0 →
  let e := entry_for p in
  Z.land e PTE_P ≠ 0 ∧ Z.land e PTE_ADDR = p * PGSIZE ∧ 
  (Z.land (Z.land (pt + 7) e) PTE_W =? 0) = in_kernel_text (PHYS_BASE + p * PGSIZE) ∧
  Z.land (Z.land (pt + 7) e) PTE_U = 0.
Proof.
  intros Hp Hal. cbv zeta. unfold entry_for. assert ((p * PGSIZE) mod PGSIZE = 0) as Hm by (unfold PGSIZE; dlia).
  assert (in_u32 (p * PGSIZE)) as Hu by (unfold in_u32, PGSIZE; lia).
  rewrite <- !Z.land_assoc. set (c := if in_kernel_text _ then 1 else 3).
  assert (0 ≤ c < PGSIZE) as Hc by (unfold c, PGSIZE; destruct (in_kernel_text _); lia).
  rewrite entry_addr by done. rewrite !(entry_flag (p * PGSIZE) c) by (done || unfold PGSIZE; cbv; lia).
  assert (0 ≤ Z.land c PTE_W < PGSIZE ∧ 0 ≤ Z.land c PTE_U < PGSIZE) as [H1 H2]
    by (unfold c, PGSIZE, PTE_W, PTE_U; destruct (in_kernel_text _); split; split; done).
  rewrite !(entry_flag pt 7) by (done || unfold PGSIZE; lia).
  unfold c. by destruct (in_kernel_text _).
Qed.

Lemma walk_ok s bl pd pts va : kdir s bl pd pts → filled pts init_ram_pages → 0 ≤ init_ram_pages ≤ 262144 →
  cr3 s = pd - PHYS_BASE → 0 ≤ va < 2 ^ 32 → walk s va = kernel_mapping va.
Proof.
  intros Hk [Hl He] Hram Hc Hva. change (2 ^ 32) with 4294967296 in Hva. unfold walk, kernel_mapping. rewrite Hc.
  assert (0 ≤ pd_no va < 1024 ∧ 0 ≤ pt_no va < 1024 ∧ PHYS_BASE / PGSIZE + (va - PHYS_BASE) / PGSIZE = 1024 * pd_no va + pt_no va)
    as (Hpd & Hpt & Hno) by (rewrite pd_no_div, pt_no_div; unfold PHYS_BASE, PGSIZE; dlia).
  change (PHYS_BASE / PGSIZE) with 786432 in Hno. set (p := (va - PHYS_BASE) / PGSIZE) in *.
  assert (PHYS_BASE ≤ va ↔ 0 ≤ p) as Hbase by (unfold p, PHYS_BASE, PGSIZE; dlia).
  replace (pd - PHYS_BASE + PHYS_BASE + 4 * pd_no va) with (pd + 4 * Z.of_nat (Z.to_nat (pd_no va))) by lia.
  rewrite (kdir_load _ _ _ _ (Z.to_nat (pd_no va)) Hk) by lia.
  destruct (Nat.ltb_spec (Z.to_nat (pd_no va)) 768) as [Hlt|Hge].
  { destruct (Z.leb_spec PHYS_BASE va); [lia|done]. }
  rewrite (proj2 (Z.leb_le PHYS_BASE va)) by lia. cbn [andb]. set (j := (Z.to_nat (pd_no va) - 768)%nat) in *.
  destruct (pts !! j) as [[pt ws]|] eqn:Ht.
  2: { apply lookup_ge_None_1 in Ht. cbn [pde_of]. destruct (Z.ltb_spec p init_ram_pages); [|done]. dlia. }
  destruct (kd_tables _ _ _ _ Hk _ _ _ Ht) as (Hbt & Hlot & _).
  destruct (block_page s _ pt (kd_pinv _ _ _ _ Hk) Hbt) as (Hal & _ & Hhit). change (2 ^ 32) with 4294967296 in Hhit.
  assert ((pt - PHYS_BASE) mod PGSIZE = 0) as Hm by (unfold PHYS_BASE, PGSIZE in *; dlia).
  assert (in_u32 (pt - PHYS_BASE)) as Hu by (unfold in_u32, PHYS_BASE, PGSIZE in *; lia).
  cbn [pde_of]. rewrite (entry_flag (pt - PHYS_BASE) 7 PTE_P) by (done || unfold PGSIZE; cbv; lia). cbn [Z.eqb Z.land].
  rewrite entry_addr by (done || unfold PGSIZE; lia).
  replace (pt - PHYS_BASE + PHYS_BASE + 4 * pt_no va) with (pt + 4 * Z.of_nat (Z.to_nat (pt_no va))) by lia.
  rewrite (kdir_load_pte _ _ _ _ _ _ _ _ _ Hk Ht (He _ _ _ (Z.to_nat (pt_no va)) Ht ltac:(lia))).
  replace (1024 * Z.of_nat j + Z.of_nat (Z.to_nat (pt_no va))) with p by lia.
  destruct (Z.ltb_spec p init_ram_pages); [|done].
  destruct (entry_for_bits p (pt - PHYS_BASE) ltac:(lia) Hm) as (G1 & G2 & G3 & G4).
  rewrite (proj2 (Z.eqb_neq _ 0) G1), G2, G3, G4. done.
Qed.

(** C24. paging_init() either panics, and then fewer pages than the directory and
    its tables need fill the kernel's pool, or activates a page directory in
    which the processor, walking the tables in memory, maps exactly the
    addresses from PHYS_BASE on to the machine's frames in order: writable
    except in the pages of the kernel's text, never for user code; no address
    below PHYS_BASE is mapped, so pagedir_create() may copy the directory. *)
Theorem paging_init_maps s bl : pinv (gp s) bl → 0 ≤ init_ram_pages ≤ 262144 →
  match paging_init s with
  | Ok (_, s') => (∃ bl', initial_dir s' bl') ∧ ∀ va, 0 ≤ va < 2 ^ 32 → walk s' va = kernel_mapping va
  | Panic => too_small (gp s) bl
  | _ => False
  end.
Proof.
  intros Hp Hram. unfold paging_init.
  destruct (first_page s bl Hp) as [(pd & s1 & E & Hk1 & Hun)|[E Hex]].
  2: { unfold bind. rewrite E. exists []. split; [unfold zlen, table_pages; cbn; dlia|done]. }
  rewrite (bind_ok _ _ _ _ _ E). run. set (s2 := mk_gstate (gp s1) (cr3 s1) pd).
  assert (building (gp s) bl pd pd s2 []) as Hb.
  { split; [|done|done]. exists [pd]. split; [|done]. by destruct Hk1; split. }
  assert (filled [] 0) as Hf by (by split).
  pose proof (page_loop_ok (gp s) bl pd pd ltac:(lia) (Z.to_nat init_ram_pages) 0 s2 [] ltac:(lia) ltac:(lia) Hb Hf) as Hrun.
  change (last_table []) with 0 in Hrun.
  destruct (page_loop _ pd 0 0 s2) as [[[] s3]| | | |] eqn:E3; [|by unfold bind; rewrite E3|done..].
  rewrite (bind_ok _ _ _ _ _ E3). destruct Hrun as (pts & [(new & Hk3 & _) _ Hin] & Hf3). run. rewrite Hin.
  destruct Hk3 as [Hp3 Hb3 Ha3 Hd3 Ht3 Hj3]. destruct (block_page s3 _ pd Hp3 Hb3) as (_ & _ & Hhi).
  change (2 ^ 32) with 4294967296 in Hhi. unfold vtop, is_kernel_vaddr.
  rewrite bind_assoc, bind_assert by (rewrite Z.geb_leb; by apply Z.leb_le). run. split.
  - exists (single new ++ bl). split; cbn [gp cr3 init_page_dir]; rewrite ?Hin; [done|done| |unfold PHYS_BASE, PGSIZE in *; lia].
    destruct Hd3 as (dws & Hw & Hd). exists dws. split; [done|]. intros i Hi. rewrite Hd by lia.
    by rewrite (proj2 (Nat.ltb_lt i 768)).
  - intros va Hva. by apply (walk_ok _ (single new ++ bl) pd pts).
Qed.
End paging.

(** ** A machine with 264 pages *)

Definition demo_before : gstate := mk_gstate demo_on 0 0.
Definition demo_text : Z := PHYS_BASE + 131072.
Definition demo_end : Z := demo_text + 65536.
Definition demo_after : gstate := result_of (paging_init ram_pages demo_text demo_end demo_before) demo_before.

Lemma demo_paging : paging_init ram_pages demo_text demo_end demo_before = Ok (tt, demo_after).
Proof. refine (is_ok_eq (paging_init ram_pages demo_text demo_end demo_before) demo_before _). vm_compute. reflexivity. Qed.

Lemma paging_init_maps_witness :
  paging_init ram_pages demo_text demo_end demo_before = Ok (tt, demo_after) ∧
  walk demo_after (demo_text + 5) = Some (131072, false, false) ∧
  walk demo_after (PHYS_BASE + 8) = Some (0, true, false) ∧
  walk demo_after (PHYS_BASE + 264 * 4096) = None ∧ walk demo_after 4096 = None.
Proof.
  pose proof (paging_init_maps ram_pages demo_text demo_end demo_before [] demo_on_inv
    ltac:(unfold ram_pages; lia)) as H.
  split; [exact demo_paging|]. rewrite demo_paging in H. destruct H as [_ H].
  rewrite !H by (unfold demo_text, PHYS_BASE; lia). split; [reflexivity|]. split; [reflexivity|]. by split.
Defined.

End Boot.
