(* ===== verification/AddrSpace.v ===== *)
(** * AddrSpace: the pages a process owns (userprog/pagedir.c)

    A page directory owns its page, its page tables and the frames its entries
    refer to ([owned] of [Pagedir]: what pagedir_destroy() gives back).  This
    file follows that ownership through pagedir_set_page(): a frame that is
    mapped moves from the caller to the directory, a page table that is made
    for it comes from the kernel pool, and no byte of a frame changes.
    [user_byte] is memory as the process sees it. *)

From Stdlib Require Import ZArith Lia.
From stdpp Require Import base tactics option list numbers gmap.
From S2P Require Import Prelude Memory CString Bitmap Sched Synch Vaddr Palloc Pagedir.
Import Memory CString Sched Synch Vaddr Palloc Pagedir.

Module AddrSpace.

(** ** Groups of pages *)

Lemma pdinv_perm s bl bl' pd pts : bl ≡ₚ bl' → pdinv s bl pd pts → pdinv s bl' pd pts.
Proof.
  intros Hp [H1 H2 H3 H4 H5 H6 H7]. split; try done; [by rewrite <- Hp|by rewrite <- Hp|].
  intros i pt ws Ht. destruct (H5 i pt ws Ht) as (G1 & G2 & G3). split; [done|]. split; [by rewrite <- Hp|done].
Qed.

(** A page of the user pool that is given back leaves the kernel pool as full
    as it was. *)
Lemma exhausted_kernel p a bl : pinv p ((a, 1) :: bl) → in_pool true p a 1 → exhausted false p ((a, 1) :: bl) 1 →
  exhausted false p bl 1.
Proof.
  intros Hp Ha He b Hb. destruct (He b Hb) as (x & Hx & Hin). exists x. split; [done|].
  rewrite pages_of_cons in Hin. apply elem_of_app in Hin as [Hin%elem_of_seqZ|]; [|done]. exfalso.
  destruct Hb as (_ & Hba & Hblo & Hbhi). destruct (po_base _ _ (pi_pool _ _ Hp false)) as [_ Hk].
  apply (pools_disjoint p _ true false (pg_no b - pg_no (base (the_pool false p))) a 1 Hp); [done|done| |lia].
  rewrite !pg_no_div. unfold PGSIZE in *. dlia.
Qed.

(** ** What a directory owns *)

Definition all_frames (pts : gmap nat (Z * list Z)) : list (Z * Z) :=
  flat_map (λ t, match t with Some (_, ws) => frames ws | None => [] end) (tables pts).
Definition all_tables (pts : gmap nat (Z * list Z)) : list (Z * Z) :=
  flat_map (λ t, match t with Some (pt, _) => [(pt, 1)] | None => [] end) (tables pts).

Lemma flat_map_split {A B} (f g h : A → list B) l :
  (∀ x, h x = f x ++ g x) → flat_map h l ≡ₚ flat_map f l ++ flat_map g l.
Proof.
  intros Hh. induction l as [|x l IH]; [done|]. cbn [flat_map]. rewrite Hh, IH.
  rewrite <- !app_assoc. apply Permutation_app_head. rewrite !app_assoc. apply Permutation_app_tail, Permutation_app_comm.
Qed.

Lemma owned_split pd pts : owned pd pts ≡ₚ all_frames pts ++ all_tables pts ++ [(pd, 1)].
Proof.
  unfold owned, all_frames, all_tables. rewrite app_assoc. apply Permutation_app_tail, flat_map_split.
  by intros [[pt ws]|].
Qed.

(** Replacing one element. *)
Lemma flat_map_insert {A B} (f : A → list B) l i x y extra :
  l !! i = Some x → f y ≡ₚ extra ++ f x → flat_map f (<[i := y]> l) ≡ₚ extra ++ flat_map f l.
Proof.
  intros Hx Hf. pose proof (lookup_lt_Some _ _ _ Hx) as Hlt. rewrite insert_take_drop by done.
  rewrite <- (take_drop_middle l i x Hx) at 3. rewrite !flat_map_app. cbn [flat_map]. rewrite Hf.
  rewrite <- !app_assoc. apply Permutation_app_swap_app.
Qed.

Lemma tables_at pts i : (i < 768)%nat → tables pts !! i = Some (pts !! i).
Proof. intros Hi. unfold tables. by rewrite list_lookup_fmap, lookup_seq_lt. Qed.

Lemma tables_insert pts i t : (i < 768)%nat → tables (<[i := t]> pts) = <[i := Some t]> (tables pts).
Proof.
  intros Hi. apply list_eq. intros j. destruct (decide (j < 768)%nat) as [Hj|Hj].
  - rewrite tables_at by done. destruct (decide (j = i)) as [->|Hne].
    + rewrite lookup_insert_eq, list_lookup_insert_eq; [done|]. by rewrite length_tables.
    + by rewrite lookup_insert_ne, list_lookup_insert_ne, tables_at by done.
  - rewrite !lookup_ge_None_2; [done|rewrite length_insert, length_tables; lia|rewrite length_tables; lia].
Qed.

Lemma frames_zero : frames zero_table = [].
Proof. unfold zero_table, frames. generalize 1024%nat. intros n. by induction n. Qed.

Lemma owned_new_table pd pts i pt : (i < 768)%nat → pts !! i = None →
  owned pd (<[i := (pt, zero_table)]> pts) ≡ₚ (pt, 1) :: owned pd pts ∧
  all_frames (<[i := (pt, zero_table)]> pts) ≡ₚ all_frames pts.
Proof.
  intros Hi Hn. pose proof (tables_at pts i Hi) as Ht. rewrite Hn in Ht. unfold owned, all_frames.
  rewrite !tables_insert by done. split.
  - change ((pt, 1) :: ?l ++ ?k) with ((([(pt, 1)] ++ l) ++ k)). apply Permutation_app_tail.
    apply (flat_map_insert table_pages _ _ None); [done|]. cbn [table_pages]. by rewrite frames_zero.
  - apply (flat_map_insert _ _ _ None _ []); [done|]. cbv beta iota. by rewrite frames_zero.
Qed.

Lemma owned_new_frame pd pts i j pt ws w v k b : (i < 768)%nat → pts !! i = Some (pt, ws) → ws !! j = Some w →
  mapping w = None → mapping v = Some (k, b) →
  owned pd (<[i := (pt, <[j := v]> ws)]> pts) ≡ₚ (k, 1) :: owned pd pts.
Proof.
  intros Hi Hp Hw Hn Hv. pose proof (tables_at pts i Hi) as Ht. rewrite Hp in Ht. unfold owned.
  rewrite tables_insert by done. change ((k, 1) :: ?l ++ ?q) with ((([(k, 1)] ++ l) ++ q)). apply Permutation_app_tail.
  apply (flat_map_insert table_pages _ _ (Some (pt, ws))); [done|]. cbn [table_pages]. rewrite app_assoc.
  apply Permutation_app_tail. apply (flat_map_insert frame_of _ _ w); [done|]. unfold frame_of. by rewrite Hv, Hn.
Qed.

Lemma entry_owned pts va k w : 0 <= va < PHYS_BASE → mapping (entry pts va) = Some (k, w) → (k, 1) ∈ all_frames pts.
Proof.
  intros Hva Hm. destruct (user_index va Hva) as (H1 & _). unfold entry in Hm.
  destruct (pts !! Z.to_nat (pd_no va)) as [[pt ws]|] eqn:Ht; [|done].
  destruct (ws !! Z.to_nat (pt_no va)) as [e|] eqn:He; [|done]. cbn in Hm.
  apply list_elem_of_In, in_flat_map. exists (Some (pt, ws)). split.
  - apply list_elem_of_In, (list_elem_of_lookup_2 _ (Z.to_nat (pd_no va))). by rewrite tables_at, Ht.
  - apply in_flat_map. exists e. split; [apply list_elem_of_In; by eapply list_elem_of_lookup_2|].
    unfold frame_of. rewrite Hm. by left.
Qed.

Lemma table_owned pts i pt ws : (i < 768)%nat → pts !! i = Some (pt, ws) → (pt, 1) ∈ all_tables pts.
Proof.
  intros Hi Ht. apply list_elem_of_In, in_flat_map. exists (Some (pt, ws)). split; [|by left].
  apply list_elem_of_In, (list_elem_of_lookup_2 _ i). by rewrite tables_at, Ht.
Qed.

(** The bytes of the pages [bl]. *)
Definition bytes_kept (bl : list (Z * Z)) (m m' : gmap Z Z) : Prop :=
  ∀ b x, (b, 1) ∈ bl → b <= x < b + PGSIZE → m' !! x = m !! x.

Lemma bytes_kept_trans bl m1 m2 m3 : bytes_kept bl m1 m2 → bytes_kept bl m2 m3 → bytes_kept bl m1 m3.
Proof. intros H1 H2 b x Hb Hx. rewrite (H2 b x Hb Hx). by apply (H1 b). Qed.

Lemma bytes_kept_sub bl bl' m m' : (∀ p, p ∈ bl' → p ∈ bl) → bytes_kept bl m m' → bytes_kept bl' m m'.
Proof. intros Hs H b x Hb. apply (H b). by apply Hs. Qed.

(** A change within one page keeps the bytes of the others. *)
Lemma outside_bytes_kept s bl a m m' : pinv (gp s) ((a, 1) :: bl) → outside_same a PGSIZE m m' → bytes_kept bl m m'.
Proof.
  intros Hp Ho b x Hb Hx. destruct (block_page s _ a Hp ltac:(left)) as (Ha & _).
  destruct (block_page s _ b Hp ltac:(by right)) as (Hal & _). apply Ho.
  pose proof (blocks_apart _ [(a, 1)] bl a b Hp ltac:(left) Hb). unfold PGSIZE in *. dlia.
Qed.

(** Pages other than those of the directory. *)
Lemma others_apart s bl pd pts b : pinv (gp s) (owned pd pts ++ bl) → (b, 1) ∈ all_frames pts ++ bl →
  b ≠ pd ∧ ∀ i pt ws, (i < 768)%nat → pts !! i = Some (pt, ws) → b ≠ pt.
Proof.
  intros Hp Hb. assert (pinv (gp s) ((all_frames pts ++ bl) ++ (all_tables pts ++ [(pd, 1)]))) as Hp'.
  { rewrite owned_split in Hp. eapply pinv_proper; [|exact Hp].
    rewrite <- !app_assoc. apply Permutation_app_head. rewrite (Permutation_app_comm bl). by rewrite <- app_assoc. }
  split.
  - apply (blocks_apart _ _ _ b pd Hp' Hb). apply elem_of_app. right. left.
  - intros i pt ws Hi Ht. apply (blocks_apart _ _ _ b pt Hp' Hb). apply elem_of_app. left. by eapply table_owned.
Qed.

Lemma others_page bl pd pts b : (b, 1) ∈ all_frames pts ++ bl → (b, 1) ∈ owned pd pts ++ bl.
Proof.
  intros Hb. rewrite owned_split. apply elem_of_app in Hb as [Hb|Hb]; apply elem_of_app; [left|by right].
  apply elem_of_app. by left.
Qed.

(** ** Mapping a frame *)

(** lookup_page() with creation, and who owns the table it makes. *)
Lemma lookup_table s bl pd pts va : pdinv s (owned pd pts ++ bl) pd pts → 0 <= va < PHYS_BASE →
  ∃ r s' pts', lookup_page pd va true s = Ok (r, s') ∧ cr3 s' = cr3 s ∧ init_page_dir s' = init_page_dir s ∧
    unmoved (gp s) (gp s') ∧ bytes_kept (all_frames pts ++ bl) (memory s) (memory s') ∧
    pdinv s' (owned pd pts' ++ bl) pd pts' ∧ (∀ vb, entry pts' vb = entry pts vb) ∧
    all_frames pts' ≡ₚ all_frames pts ∧
    (r = 0 ∧ pts' = pts ∧ pts !! Z.to_nat (pd_no va) = None ∧ exhausted false (gp s') (owned pd pts ++ bl) 1 ∨
     ∃ pt ws, pts' !! Z.to_nat (pd_no va) = Some (pt, ws) ∧ r = pt + 4 * pt_no va ∧ r ≠ 0).
Proof.
  intros Hi Hva. destruct (user_index va Hva) as (H1 & _ & _ & H4).
  destruct (pts !! Z.to_nat (pd_no va)) as [[pt ws]|] eqn:Ht.
  - exists (pte_addr pts va), s, pts.
    split; [apply (lookup_existing _ _ _ _ Hi); [done|right; by rewrite Ht]|]. do 2 (split; [done|]).
    split; [by split|]. split; [by intros b x|]. do 3 (split; [done|]). right. exists pt, ws. split; [done|].
    pose proof (pte_addr_nonnull _ _ _ _ Hi va Hva) as Hn. rewrite Ht, bool_decide_true in Hn by done.
    apply negb_true_iff, Z.eqb_neq in Hn. split; [|done]. unfold pte_addr. by rewrite Ht.
  - destruct (lookup_create s _ pd pts va Hi Hva Ht) as (r & s' & E & Hc & Hn & Hk & Hu & Hr).
    assert (bytes_kept (all_frames pts ++ bl) (memory s) (memory s')) as Hk'.
    { pose proof (pd_pinv _ _ _ _ Hi) as Hp. intros b x Hb Hx.
      apply (Hk b); [by eapply others_page, Hb|by destruct (others_apart _ _ _ _ _ Hp Hb)|done]. }
    destruct Hr as [(-> & Hi' & Hex)|(pt & -> & Hi')].
    + exists 0, s', pts. do 3 (split; [done|]). split; [done|]. split; [done|]. do 3 (split; [done|]). by left.
    + destruct (owned_new_table pd pts _ pt H1 Ht) as [Ho Hf].
      eexists _, s', _. do 3 (split; [done|]). split; [done|]. split; [done|].
      split; [eapply pdinv_perm; [|exact Hi']; by rewrite Ho|]. split; [by apply mapping_new_table|].
      split; [done|]. right. exists pt, zero_table. rewrite lookup_insert_eq. do 2 (split; [done|]).
      destruct (table_page _ _ _ _ Hi' (Z.to_nat (pd_no va)) pt zero_table) as (_ & Hlo & _);
        [by rewrite lookup_insert_eq|]. unfold PHYS_BASE in *. lia.
Qed.

(** pagedir_set_page() for a page that is not mapped and a frame of the caller. *)
Lemma map_frame ram s bl pd pts upage kpage writable :
  pdinv s (owned pd pts ++ (kpage, 1) :: bl) pd pts → 0 <= upage < PHYS_BASE → upage mod PGSIZE = 0 →
  mapping (entry pts upage) = None → PHYS_BASE <= kpage → (kpage - PHYS_BASE) / PGSIZE < ram → pd ≠ init_page_dir s →
  ∃ r s' pts', pagedir_set_page ram pd upage kpage writable s = Ok (r, s') ∧ init_page_dir s' = init_page_dir s ∧
    unmoved (gp s) (gp s') ∧ bytes_kept (all_frames pts ++ (kpage, 1) :: bl) (memory s) (memory s') ∧
    if r : bool then pdinv s' (owned pd pts' ++ bl) pd pts' ∧
      ∀ va, 0 <= va < PHYS_BASE → mapping (entry pts' va) =
        if pg_no va =? pg_no upage then Some (kpage, writable) else mapping (entry pts va)
    else pts' = pts ∧ pdinv s' (owned pd pts ++ (kpage, 1) :: bl) pd pts ∧
         exhausted false (gp s') (owned pd pts ++ (kpage, 1) :: bl) 1.
Proof.
  intros Hi Hu Hua Hnone Hklo Hram Hpd. destruct (user_index upage Hu) as (G1 & G2 & _).
  destruct (block_page s _ kpage (pd_pinv _ _ _ _ Hi)) as (Hka & _ & Hkh); [apply elem_of_app; right; left|].
  assert (PHYS_BASE <= kpage < 2 ^ 32) as Hk by (unfold PGSIZE in *; lia).
  unfold pagedir_set_page, is_user_vaddr, vtop, is_kernel_vaddr.
  rewrite !bind_assert by (rewrite ?pg_ofs_mod, ?Hua, ?Hka; try done; apply Z.ltb_lt; lia).
  rewrite bind_assoc, bind_assert by (rewrite Z.geb_leb; apply Z.leb_le; lia). run.
  rewrite bind_assert by (apply Z.ltb_lt; change PTSHIFT with PGBITS; fold (pg_no (kpage - PHYS_BASE)); by rewrite pg_no_div).
  rewrite bind_get, bind_assert by (by rewrite (proj2 (Z.eqb_neq _ _))).
  destruct (lookup_table s _ pd pts upage Hi Hu) as (r & s1 & pts1 & E & _ & Hn1 & Hu1 & Hk1 & Hi1 & He & Hf1 & Hr).
  rewrite (bind_ok _ _ _ _ _ E). destruct Hr as [(-> & -> & _ & Hex)|(pt & ws & Ht & -> & Hne)].
  { rewrite Z.eqb_refl. exists false, s1, pts. split; [done|]. split; [done|]. split; [done|]. split; [done|]. by split. }
  rewrite (proj2 (Z.eqb_neq _ 0)) by done. cbn [negb].
  rewrite (bind_ok _ _ _ _ _ (load_pte _ _ _ _ Hi1 upage pt ws Hu Ht)), He.
  rewrite bind_assert by (unfold mapping in Hnone; by destruct (Z.land (entry pts upage) PTE_P =? 0)).
  destruct (user_pte_ok kpage writable Hk Hka) as (Hc & Hpu & Hpf & Hpm). rewrite (bind_ok _ _ _ _ _ (Hc s1)).
  destruct (set_entry _ _ _ _ Hi1 upage _ pt ws Hu Ht Hpu Hpf) as (s2 & E2 & _ & Hn2 & Hi2 & Hout2 & Hu2).
  rewrite (bind_ok _ _ _ _ _ E2). destruct (pd_tables _ _ _ _ Hi1 _ _ _ Ht) as (_ & Hptb & _ & _ & (Hl & _) & _).
  eexists true, s2, _. split; [done|]. split; [congruence|]. split; [by eapply unmoved_trans|]. split; [|split].
  - eapply bytes_kept_trans; [exact Hk1|]. intros b x Hb Hx. rewrite <- Hf1 in Hb.
    pose proof (pd_pinv _ _ _ _ Hi1) as Hp1. destruct (others_apart _ _ _ _ _ Hp1 Hb) as [_ Hpt].
    specialize (Hpt _ _ _ G1 Ht). destruct (block_page s1 _ b Hp1 (others_page _ _ _ _ Hb)) as (Hba & _).
    destruct (block_page s1 _ pt Hp1 Hptb) as (Hpta & _). apply Hout2. unfold PGSIZE in *. dlia.
  - destruct (lookup_lt_is_Some_2 ws (Z.to_nat (pt_no upage)) ltac:(lia)) as [w Hw].
    eapply pdinv_perm; [|exact Hi2]. rewrite (owned_new_frame pd pts1 _ _ pt ws w _ kpage writable);
      [|done|done|done| |done]; [|rewrite <- Hnone, <- He; unfold entry; by rewrite Ht, Hw].
    cbn [app]. by rewrite <- Permutation_middle.
  - intros va Hva. rewrite (entry_insert pts1 upage pt ws) by done.
    destruct (Z.eqb_spec (pg_no va) (pg_no upage)); [by rewrite decide_True|by rewrite decide_False, He].
Qed.

(** ** Frames of the caller *)

(** The directory stays one when its own pages stay in use and keep their
    words. *)
Lemma pdinv_transport s s' bl bl' pd pts : pdinv s bl pd pts → pinv (gp s') bl' → 0 <= cr3 s' < PHYS_BASE →
  (∀ b, b = pd ∨ (∃ i ws, pts !! i = Some (b, ws)) →
     (b, 1) ∈ bl' ∧ ∀ ws, words (memory s) b ws → words (memory s') b ws) →
  pdinv s' bl' pd pts.
Proof.
  intros [H1 H2 H3 H4 H5 H6 H7] Hp Hc Hk. destruct (Hk pd (or_introl eq_refl)) as [Hb Hw].
  split; try done.
  - destruct H4 as (dws & Hd & He). exists dws. split; [by apply Hw|done].
  - intros i pt ws Ht. destruct (H5 i pt ws Ht) as (G1 & G2 & G3 & G4 & G5 & G6).
    destruct (Hk pt (or_intror (ex_intro _ i (ex_intro _ ws Ht)))) as [Hb' Hw']. repeat split; try done; by apply Hw'.
Qed.

Lemma dir_pages s bl pd pts b : pdinv s bl pd pts → b = pd ∨ (∃ i ws, pts !! i = Some (b, ws)) →
  (b, 1) ∈ owned pd pts.
Proof.
  intros Hi Hb. rewrite owned_split. apply elem_of_app. right. apply elem_of_app.
  destruct Hb as [->|(i & ws & Ht)]; [right; left|left]. destruct (pd_tables _ _ _ _ Hi _ _ _ Ht) as (Hlt & _).
  by eapply table_owned.
Qed.

(** The page [a] of the caller is not one of the directory's. *)
Lemma caller_apart s bl pd pts a b : pdinv s (owned pd pts ++ (a, 1) :: bl) pd pts →
  (b, 1) ∈ owned pd pts ++ bl → a ≠ b.
Proof.
  intros Hi Hb. apply (block_fresh (gp s) (owned pd pts ++ bl)); [|done].
  eapply pinv_proper; [|apply Hi]. by rewrite <- Permutation_middle.
Qed.

Lemma caller_kept s bl pd pts a m' : pdinv s (owned pd pts ++ (a, 1) :: bl) pd pts →
  outside_same a PGSIZE (memory s) m' →
  bytes_kept (owned pd pts ++ bl) (memory s) m' ∧
  ∀ b ws, (b, 1) ∈ owned pd pts ++ bl → words (memory s) b ws → words m' b ws.
Proof.
  intros Hi Ho. pose proof (pd_pinv _ _ _ _ Hi) as Hp.
  assert (pinv (gp s) ((a, 1) :: owned pd pts ++ bl)) as Hp' by (eapply pinv_proper; [|exact Hp]; by rewrite <- Permutation_middle).
  split; [by eapply outside_bytes_kept|]. intros b ws Hb Hw.
  destruct (block_page s _ a Hp' ltac:(left)) as (Ha & _). destruct (block_page s _ b Hp' ltac:(by right)) as (Hal & _).
  apply (words_same (memory s) m' a); [done|done|done| |done]. by eapply caller_apart.
Qed.

(** Taking a page, for the process. *)
Lemma take_frame flags s bl pd pts : has flags PAL_USER = true → has flags PAL_ASSERT = false →
  pdinv s (owned pd pts ++ bl) pd pts →
  ∃ k s', on_p (palloc_get_page flags) s = Ok (k, s') ∧ init_page_dir s' = init_page_dir s ∧ unmoved (gp s) (gp s') ∧
    bytes_kept (owned pd pts ++ bl) (memory s) (memory s') ∧
    (k = 0 ∧ pdinv s' (owned pd pts ++ bl) pd pts ∧ exhausted true (gp s') (owned pd pts ++ bl) 1 ∨
     k ≠ 0 ∧ in_pool true (gp s') k 1 ∧ pdinv s' (owned pd pts ++ (k, 1) :: bl) pd pts ∧
     (has flags PAL_ZERO = true → zeroed (memory s') k PGSIZE)).
Proof.
  intros Hu Ha Hi. pose proof (pd_pinv _ _ _ _ Hi) as Hp.
  destruct (palloc_get_ok flags 1 (gp s) _ Hp ltac:(lia)) as [(k & p & E & [Hne Hin Hp' Hout Hz Hun])|[Hex Hno]].
  - change (PGSIZE * 1) with PGSIZE in *. rewrite Hu in Hin. exists k, (with_pages p s). split; [by apply on_p_ok|].
    split; [done|]. split; [done|]. split; [by apply (outside_bytes_kept (with_pages p s) _ k)|]. right.
    split; [done|]. split; [by apply (in_pool_unmoved true (gp s))|]. split; [|done].
    destruct (pdinv_more s (with_pages p s) _ pd pts k Hi Hp' Hout eq_refl) as [Hi' _].
    eapply pdinv_perm; [|exact Hi']. by rewrite <- Permutation_middle.
  - rewrite Ha in Hno. rewrite Hu in Hex. destruct Hno as (p & E & Hp' & Hm & Hun). exists 0, (with_pages p s).
    split; [by apply on_p_ok|]. split; [done|]. split; [done|].
    split; [intros b x _ _; unfold memory; cbn; by rewrite Hm|]. left. split; [done|].
    split; [by apply pdinv_pages|by apply (exhausted_unmoved _ (gp s))].
Qed.

(** Writing to a page of the caller. *)
Lemma write_frame s bl pd pts k m' : pdinv s (owned pd pts ++ (k, 1) :: bl) pd pts →
  outside_same k PGSIZE (memory s) m' → (∀ x, is_Some (memory s !! x) → is_Some (m' !! x)) →
  pdinv (with_mem m' s) (owned pd pts ++ (k, 1) :: bl) pd pts ∧ bytes_kept (owned pd pts ++ bl) (memory s) m'.
Proof.
  intros Hi Ho Hm. destruct (caller_kept _ _ _ _ _ _ Hi Ho) as [Hk Hw]. split; [|done].
  apply (pdinv_transport s _ (owned pd pts ++ (k, 1) :: bl)); [done|by apply pinv_write, Hm; apply Hi|apply Hi|].
  intros b Hb. pose proof (dir_pages _ _ _ _ _ Hi Hb) as Hd.
  split; [apply elem_of_app; by left|]. intros ws. apply Hw. apply elem_of_app. by left.
Qed.

(** Giving a page of the caller back. *)
Lemma free_frame s bl pd pts k : pdinv s (owned pd pts ++ (k, 1) :: bl) pd pts →
  ∃ s', on_p (palloc_free_page k) s = Ok (tt, s') ∧ init_page_dir s' = init_page_dir s ∧ unmoved (gp s) (gp s') ∧
    pdinv s' (owned pd pts ++ bl) pd pts ∧ bytes_kept (owned pd pts ++ bl) (memory s) (memory s').
Proof.
  intros Hi. assert (pinv (gp s) ((k, 1) :: owned pd pts ++ bl)) as Hp
    by (eapply pinv_proper; [|apply Hi]; by rewrite <- Permutation_middle).
  destruct (wp_inv _ _ _ (palloc_free_ok k 1 (gp s) _ Hp)) as ([] & p & E & Hp' & Hout & Hun).
  change (PGSIZE * 1) with PGSIZE in *. destruct (caller_kept _ _ _ _ _ _ Hi Hout) as [Hk Hw].
  exists (with_pages p s). split; [by apply on_p_ok|]. split; [done|]. split; [done|]. split; [|done].
  apply (pdinv_transport s _ (owned pd pts ++ (k, 1) :: bl)); [done|done|apply Hi|].
  intros b Hb. assert ((b, 1) ∈ owned pd pts ++ bl) as Hd by (apply elem_of_app; left; by eapply dir_pages).
  split; [done|]. intros ws. by apply Hw.
Qed.

(** ** Memory as the process sees it *)

(** The byte at [va] and the right to write it, if the page is mapped. *)
Definition user_byte (m : gmap Z Z) (pts : gmap nat (Z * list Z)) (va : Z) : option (Z * bool) :=
  match mapping (entry pts va) with
  | Some (k, w) => (λ b, (b, w)) <$> m !! (k + pg_ofs va)
  | None => None
  end.

Lemma pg_ofs_range va : 0 <= pg_ofs va < PGSIZE.
Proof. rewrite pg_ofs_mod. unfold PGSIZE. dlia. Qed.

Lemma user_byte_kept m m' pts va : 0 <= va < PHYS_BASE → bytes_kept (all_frames pts) m m' →
  user_byte m' pts va = user_byte m pts va.
Proof.
  intros Hva Hk. unfold user_byte. destruct (mapping (entry pts va)) as [[k w]|] eqn:Em; [|done].
  pose proof (pg_ofs_range va). rewrite (Hk k); [done|by eapply entry_owned|lia].
Qed.

Lemma block_mapped s bl a x : pinv (gp s) bl → (a, 1) ∈ bl → a <= x < a + PGSIZE → is_Some (memory s !! x).
Proof.
  intros Hi Hin Hx. destruct (pi_blocks _ _ Hi a 1 Hin) as (u & _ & Ha & Hlo & Hhi).
  apply (po_mapped _ _ (pi_pool _ _ Hi u)). unfold PGSIZE in *. lia.
Qed.

Lemma user_byte_None s bl pd pts va : pdinv s (owned pd pts ++ bl) pd pts → 0 <= va < PHYS_BASE →
  user_byte (memory s) pts va = None ↔ mapping (entry pts va) = None.
Proof.
  intros Hi Hva. unfold user_byte. destruct (mapping (entry pts va)) as [[k w]|] eqn:Em; [|done]. split; [|done].
  rewrite fmap_None. intros Hn. destruct (block_mapped s _ k (k + pg_ofs va) (pd_pinv _ _ _ _ Hi)) as [b Hb].
  - eapply others_page. apply elem_of_app. left. by eapply entry_owned.
  - pose proof (pg_ofs_range va). lia.
  - congruence.
Qed.

End AddrSpace.
