(* ===== verification/Block.v ===== *)
(** * Block: block devices and the buffer cache (devices/block.c)

    Every sector the file system touches goes through a cache of 64 entries
    with clock replacement.  [bstate] holds the devices, the cache and the
    locks of block.c.  A device is its medium: the driver behind
    block->ops transfers whole sectors.  The theorems show that the cache is
    invisible: [read_buffered] and [write_buffered] behave as reads and writes
    of a flat array of sectors ([view]), eviction never changes that array,
    and after [flush_buffer_cache] it is what the device holds. *)

From Stdlib Require Import ZArith Lia.
From stdpp Require Import base tactics option list numbers gmap.
From S2P Require Import Prelude Sched Synch.
Import Sched Synch.

Module Block.

(** ** Data *)

Definition BLOCK_SECTOR_SIZE : Z := 512.
Definition CACHE_SIZE : Z := 64.

Inductive block_type :=
| BLOCK_KERNEL
| BLOCK_FILESYS
| BLOCK_SCRATCH
| BLOCK_SWAP
| BLOCK_RAW
| BLOCK_FOREIGN.

#[global] Instance block_type_eq_dec : EqDecision block_type.
Proof. solve_decision. Defined.

(** [media] stands for the operations of the driver and its private data. *)
Record block := mk_block {
  bname : list Z;
  btype : block_type;
  bsize : Z;
  media : list (list Z);
  read_cnt : Z;
  write_cnt : Z
}.

Record buffer_entry := mk_entry {
  buffered_sector : Z;
  sector_block : Z;
  buffer : list Z;
  use_bit : Z;
  dirty_bit : Z;
  sector_lock : lock
}.

(** [all_blocks] lists the devices in probe order; a device is named by its
    position in it. *)
Record bstate := mk_bstate {
  bk : kernel;
  all_blocks : list block;
  block_by_role : list (option Z);
  buffer_cache : list (option buffer_entry);
  clock_hand : Z;
  buffer_cache_lock : lock;
  active_sema : semaphore;
  inactive_entry : condition;
  inactive_lock : lock;
  g_buffer_misses : Z;
  g_buffer_accesses : Z
}.

Definition set_blocks (f : list block → list block) (s : bstate) : bstate :=
  mk_bstate (bk s) (f (all_blocks s)) (block_by_role s) (buffer_cache s) (clock_hand s)
    (buffer_cache_lock s) (active_sema s) (inactive_entry s) (inactive_lock s)
    (g_buffer_misses s) (g_buffer_accesses s).
Definition set_roles (f : list (option Z) → list (option Z)) (s : bstate) : bstate :=
  mk_bstate (bk s) (all_blocks s) (f (block_by_role s)) (buffer_cache s) (clock_hand s)
    (buffer_cache_lock s) (active_sema s) (inactive_entry s) (inactive_lock s)
    (g_buffer_misses s) (g_buffer_accesses s).
Definition set_cache (f : list (option buffer_entry) → list (option buffer_entry))
    (s : bstate) : bstate :=
  mk_bstate (bk s) (all_blocks s) (block_by_role s) (f (buffer_cache s)) (clock_hand s)
    (buffer_cache_lock s) (active_sema s) (inactive_entry s) (inactive_lock s)
    (g_buffer_misses s) (g_buffer_accesses s).
Definition set_hand (h : Z) (s : bstate) : bstate :=
  mk_bstate (bk s) (all_blocks s) (block_by_role s) (buffer_cache s) h
    (buffer_cache_lock s) (active_sema s) (inactive_entry s) (inactive_lock s)
    (g_buffer_misses s) (g_buffer_accesses s).
Definition set_counts (misses accesses : Z) (s : bstate) : bstate :=
  mk_bstate (bk s) (all_blocks s) (block_by_role s) (buffer_cache s) (clock_hand s)
    (buffer_cache_lock s) (active_sema s) (inactive_entry s) (inactive_lock s)
    misses accesses.

#[global, program] Instance bstate_kernel : Kernel bstate := {|
  kget := bk;
  kset := λ k s, mk_bstate k (all_blocks s) (block_by_role s) (buffer_cache s) (clock_hand s)
    (buffer_cache_lock s) (active_sema s) (inactive_entry s) (inactive_lock s)
    (g_buffer_misses s) (g_buffer_accesses s)
|}.
Next Obligation. done. Qed.
Next Obligation. by intros []. Qed.
Next Obligation. done. Qed.

(** ** The objects block.c synchronises on *)

Definition p_cache_lock : ptr bstate lock :=
  mk_ptr (λ s, Some (buffer_cache_lock s))
    (λ l s, mk_bstate (bk s) (all_blocks s) (block_by_role s) (buffer_cache s) (clock_hand s)
       l (active_sema s) (inactive_entry s) (inactive_lock s)
       (g_buffer_misses s) (g_buffer_accesses s)).
Definition p_active : ptr bstate semaphore :=
  mk_ptr (λ s, Some (active_sema s))
    (λ sm s, mk_bstate (bk s) (all_blocks s) (block_by_role s) (buffer_cache s) (clock_hand s)
       (buffer_cache_lock s) sm (inactive_entry s) (inactive_lock s)
       (g_buffer_misses s) (g_buffer_accesses s)).
Definition p_inactive : ptr bstate condition :=
  mk_ptr (λ s, Some (inactive_entry s))
    (λ c s, mk_bstate (bk s) (all_blocks s) (block_by_role s) (buffer_cache s) (clock_hand s)
       (buffer_cache_lock s) (active_sema s) c (inactive_lock s)
       (g_buffer_misses s) (g_buffer_accesses s)).
Definition p_inactive_lock : ptr bstate lock :=
  mk_ptr (λ s, Some (inactive_lock s))
    (λ l s, mk_bstate (bk s) (all_blocks s) (block_by_role s) (buffer_cache s) (clock_hand s)
       (buffer_cache_lock s) (active_sema s) (inactive_entry s) l
       (g_buffer_misses s) (g_buffer_accesses s)).

Definition with_lock (l : lock) (e : buffer_entry) : buffer_entry :=
  mk_entry (buffered_sector e) (sector_block e) (buffer e) (use_bit e) (dirty_bit e) l.
Definition with_use (u : Z) (e : buffer_entry) : buffer_entry :=
  mk_entry (buffered_sector e) (sector_block e) (buffer e) u (dirty_bit e) (sector_lock e).
Definition with_data (d : list Z) (e : buffer_entry) : buffer_entry :=
  mk_entry (buffered_sector e) (sector_block e) d (use_bit e) 1 (sector_lock e).

(** [buffer_cache[i]], [None] when it is null. *)
Definition entry_at (i : Z) (s : bstate) : option buffer_entry :=
  if i <? 0 then None else mjoin (buffer_cache s !! Z.to_nat i).

(** [&buffer_cache[i]->sector_lock]. *)
Definition p_sector_lock (i : Z) : ptr bstate lock :=
  mk_ptr (λ s, sector_lock <$> entry_at i s)
    (λ l s, match entry_at i s with
            | Some e => set_cache <[Z.to_nat i := Some (with_lock l e)]> s
            | None => s
            end).

(** Store an entry in slot [i] of the cache. *)
Definition put_entry (i : Z) (e : option buffer_entry) : M bstate unit :=
  modify (set_cache <[Z.to_nat i := e]>).

(** ** Devices *)

Definition block_at (b : Z) : M bstate block :=
  let* s := get in
  if b <? 0 then fault else deref (all_blocks s !! Z.to_nat b).

Definition check_sector (b : Z) (sector : Z) : M bstate unit :=
  let* blk := block_at b in
  if sector >=? bsize blk then panic else ret tt.

Definition block_read (b : Z) (sector : Z) : M bstate (list Z) :=
  check_sector b sector;;;
  let* blk := block_at b in
  let* data := deref (media blk !! Z.to_nat sector) in
  modify (set_blocks <[Z.to_nat b :=
    mk_block (bname blk) (btype blk) (bsize blk) (media blk)
      (u64 (read_cnt blk + 1)) (write_cnt blk)]>);;;
  ret data.

Definition block_write (b : Z) (sector : Z) (data : list Z) : M bstate unit :=
  check_sector b sector;;;
  let* blk := block_at b in
  assert (negb (bool_decide (btype blk = BLOCK_FOREIGN)));;;
  let* _ := deref (media blk !! Z.to_nat sector) in
  modify (set_blocks <[Z.to_nat b :=
    mk_block (bname blk) (btype blk) (bsize blk) (<[Z.to_nat sector := data]> (media blk))
      (read_cnt blk) (u64 (write_cnt blk + 1))]>).

Definition block_size (b : Z) : M bstate Z :=
  let* blk := block_at b in ret (bsize blk).

Definition get_read_cnt (b : Z) : M bstate Z :=
  let* blk := block_at b in ret (s32 (read_cnt blk)).

Definition get_write_cnt (b : Z) : M bstate Z :=
  let* blk := block_at b in ret (s32 (write_cnt blk)).

Definition BLOCK_ROLE_CNT : Z := 4.

Definition block_get_role (role : Z) : M bstate (option Z) :=
  assert (role <? BLOCK_ROLE_CNT);;;
  let* s := get in
  deref (block_by_role s !! Z.to_nat role).

Definition block_set_role (role : Z) (b : Z) : M bstate unit :=
  assert (role <? BLOCK_ROLE_CNT);;;
  modify (set_roles <[Z.to_nat role := Some b]>).

Definition block_first : M bstate (option Z) :=
  let* s := get in
  ret (match all_blocks s with [] => None | _ => Some 0 end).

Definition block_next (b : Z) : M bstate (option Z) :=
  let* s := get in
  ret (if b + 1 <? zlen (all_blocks s) then Some (b + 1) else None).

Fixpoint find_name (name : list Z) (i : Z) (bs : list block) : option Z :=
  match bs with
  | [] => None
  | b :: bs => if bool_decide (bname b = name) then Some i else find_name name (i + 1) bs
  end.

Definition block_get_by_name (name : list Z) : M bstate (option Z) :=
  let* s := get in ret (find_name name 0 (all_blocks s)).

(** block_register(): the name is cut to 15 characters; [m] is the medium the
    driver's operations and private data stand for. *)
Definition block_register (name : list Z) (type : block_type) (size : Z)
    (m : list (list Z)) : M bstate Z :=
  let* ok := malloc_ok in
  if ok then
    let* s := get in
    modify (set_blocks (λ bs, bs ++ [mk_block (take 15 name) type size m 0 0]));;;
    ret (zlen (all_blocks s))
  else panic.

(** ** The cache *)

Fixpoint find_sector (sector : Z) (i : Z) (cache : list (option buffer_entry)) : option Z :=
  match cache with
  | [] => None
  | Some e :: cache =>
      if buffered_sector e =? sector then Some i else find_sector sector (i + 1) cache
  | None :: cache => find_sector sector (i + 1) cache
  end.

Definition acquire_buffer_entry_lock (sector : Z) : M bstate Z :=
  lock_acquire p_cache_lock;;;
  let* s := get in
  match find_sector sector 0 (buffer_cache s) with
  | Some i =>
      lock_acquire (p_sector_lock i);;;
      let* s := get in
      let* e := deref (entry_at i s) in
      put_entry i (Some (with_use 1 e));;;
      lock_release p_cache_lock;;;
      ret i
  | None =>
      lock_release p_cache_lock;;;
      ret (-1)
  end.

Definition check_sector_cached (sector : Z) : M bstate bool :=
  let* held := lock_held_by_current_thread p_cache_lock in
  assert held;;;
  let* s := get in
  ret (bool_decide (is_Some (find_sector sector 0 (buffer_cache s)))).

Definition check_buffer_presence (sector offset : Z) : M bstate bool :=
  let* held := lock_held_by_current_thread p_cache_lock in
  assert held;;;
  let* s := get in
  match entry_at offset s with
  | None => ret false
  | Some e =>
      if negb (buffered_sector e =? sector) then ret false
      else lock_held_by_current_thread (p_sector_lock offset)
  end.

(** The C code clears the slot before it releases the lock of the entry it
    took out; here the lock is reached through the slot, so the slot is
    cleared last. *)
Definition buffer_evict (offset : Z) : M bstate unit :=
  let* held := lock_held_by_current_thread p_cache_lock in
  assert held;;;
  let* s := get in
  match entry_at offset s with
  | None => panic
  | Some cur =>
      let* held := lock_held_by_current_thread (p_sector_lock offset) in
      assert held;;;
      (if negb (dirty_bit cur =? 0)
       then block_write (sector_block cur) (buffered_sector cur) (buffer cur)
       else ret tt);;;
      lock_release (p_sector_lock offset);;;
      put_entry offset None
  end.

Definition init_buffer_cache : M bstate unit :=
  modify (set_cache (λ _, replicate 64 None));;;
  modify (set_hand 0);;;
  lock_init p_cache_lock;;;
  sema_init p_active 64;;;
  lock_init p_inactive_lock;;;
  cond_init p_inactive.

Fixpoint flush_loop (n : nat) (i : Z) : M bstate unit :=
  match n with
  | O => ret tt
  | S n =>
      let* s := get in
      match entry_at i s with
      | Some _ => lock_acquire (p_sector_lock i);;; buffer_evict i
      | None => ret tt
      end;;;
      flush_loop n (i + 1)
  end.

Definition flush_buffer_cache : M bstate unit :=
  lock_acquire p_cache_lock;;;
  flush_loop 64 0;;;
  lock_release p_cache_lock.

(** [clock_hand = (clock_hand + 1) % 64]. *)
Definition advance_hand : M bstate unit :=
  modify (λ s, set_hand ((clock_hand s + 1) mod 64) s).

Fixpoint clock_loop (n : nat) : M bstate Z :=
  match n with
  | O => no_fuel
  | S n =>
      let* s := get in
      let hand := clock_hand s in
      match entry_at hand s with
      | None => advance_hand;;; ret hand
      | Some _ =>
          let* got := lock_try_acquire (p_sector_lock hand) in
          if got then
            let* s := get in
            let* e := deref (entry_at hand s) in
            if use_bit e =? 1 then
              put_entry hand (Some (with_use 0 e));;;
              lock_release (p_sector_lock hand);;;
              advance_hand;;;
              clock_loop n
            else
              buffer_evict hand;;;
              advance_hand;;;
              ret hand
          else advance_hand;;; clock_loop n
      end
  end.

(** Two turns of the clock: enough when a slot is empty or unlocked
    ([clock_evicts]). *)
Definition clock_algorithm_evict : M bstate Z :=
  let* held := lock_held_by_current_thread p_cache_lock in
  assert held;;;
  clock_loop 129.

Definition count_access : M bstate unit :=
  modify (λ s, set_counts (g_buffer_misses s) (s32 (g_buffer_accesses s + 1)) s).

(** The bytes the caller's buffer receives. *)
Definition bounded_read (cache_buffer : list Z) (start end_ : Z) : M bstate (list Z) :=
  count_access;;;
  deref (load_bytes cache_buffer start (end_ - start)).

(** The new contents of the cache buffer. *)
Definition bounded_write (input cache_buffer : list Z) (start end_ : Z) : M bstate (list Z) :=
  count_access;;;
  let* d := deref (load_bytes input 0 (end_ - start)) in
  deref (store_bytes cache_buffer start d).

(** The end of every access: one more inactive entry, announced to everybody
    who waits for one. *)
Definition signal_inactive : M bstate unit :=
  sema_up p_active;;;
  lock_acquire p_inactive_lock;;;
  cond_broadcast p_inactive p_inactive_lock;;;
  lock_release p_inactive_lock.

Definition wait_inactive : M bstate unit :=
  lock_acquire p_inactive_lock;;;
  cond_wait p_inactive p_inactive_lock;;;
  lock_release p_inactive_lock.

(** The wait of read_buffered() and write_buffered() for the right to use an
    entry: the entry to use and the interrupt level to restore, or [None] when
    the entry went away while the thread slept. *)
Fixpoint wait_entry (n : nat) (sector offset : Z) (old_level : bool) :
    M bstate (option (Z * bool)) :=
  let* ok := sema_try_down p_active in
  if ok then ret (Some (offset, old_level))
  else
    match n with
    | O => no_fuel
    | S n =>
        lock_release (p_sector_lock offset);;;
        let* _ := on_sched (intr_set_level old_level) in
        wait_inactive;;;
        let* offset := acquire_buffer_entry_lock sector in
        let* gone := (if offset =? -1 then ret true
                      else let* here := check_buffer_presence sector offset in
                           ret (negb here)) in
        if gone then ret None
        else
          let* old_level := on_sched intr_disable in
          wait_entry n sector offset old_level
    end.

(** The same wait in read_not_buffered() and write_not_buffered(): the
    interrupt level to restore, or [None] when another thread cached the
    sector meanwhile.  In that case the thread still holds the cache lock. *)
Fixpoint wait_slot (n : nat) (sector : Z) (old_level : bool) : M bstate (option bool) :=
  let* ok := sema_try_down p_active in
  if ok then ret (Some old_level)
  else
    match n with
    | O => no_fuel
    | S n =>
        lock_release p_cache_lock;;;
        let* _ := on_sched (intr_set_level old_level) in
        wait_inactive;;;
        lock_acquire p_cache_lock;;;
        let* cached := check_sector_cached sector in
        if cached then ret None
        else
          let* old_level := on_sched intr_disable in
          wait_slot n sector old_level
    end.

Arguments wait_entry : simpl never.
Arguments wait_slot : simpl never.

(** A fresh entry filled from the device. *)
Definition load_entry (b sector dirty : Z) : M bstate buffer_entry :=
  let* ok := malloc_ok in
  if negb ok then fault else
  let* ok := malloc_ok in
  modify (λ s, set_counts (s32 (g_buffer_misses s + 1)) (g_buffer_accesses s) s);;;
  if negb ok then fault else
  let* data := block_read b sector in
  ret (mk_entry sector b data 1 dirty new_lock).

(** Install a fresh entry in the slot the clock frees. *)
Definition free_slot : M bstate Z :=
  let* offset := clock_algorithm_evict in
  let* s := get in
  assert (bool_decide (entry_at offset s = None));;;
  ret offset.

(** [n] bounds the calls the two readers make of each other. *)
Fixpoint read_buffered (n : nat) (b sector start end_ : Z) : M bstate (list Z) :=
  match n with
  | O => no_fuel
  | S n =>
      let* offset := acquire_buffer_entry_lock sector in
      if offset =? -1 then read_not_buffered n b sector start end_
      else
        let* old_level := on_sched intr_disable in
        let* w := wait_entry wakeups sector offset old_level in
        match w with
        | None => read_not_buffered n b sector start end_
        | Some (offset, old_level) =>
            let* _ := on_sched (intr_set_level old_level) in
            let* s := get in
            let* e := deref (entry_at offset s) in
            let* data := bounded_read (buffer e) start end_ in
            lock_release (p_sector_lock offset);;;
            signal_inactive;;;
            ret data
        end
  end
with read_not_buffered (n : nat) (b sector start end_ : Z) : M bstate (list Z) :=
  match n with
  | O => no_fuel
  | S n =>
      lock_acquire p_cache_lock;;;
      let* cached := check_sector_cached sector in
      if cached then lock_release p_cache_lock;;; read_buffered n b sector start end_
      else
        let* old_level := on_sched intr_disable in
        let* w := wait_slot wakeups sector old_level in
        match w with
        | None => read_buffered n b sector start end_
        | Some old_level =>
            let* _ := on_sched (intr_set_level old_level) in
            let* cur := load_entry b sector 0 in
            let* offset := free_slot in
            let* data := bounded_read (buffer cur) start end_ in
            put_entry offset (Some cur);;;
            lock_release p_cache_lock;;;
            signal_inactive;;;
            ret data
        end
  end.

Fixpoint write_buffered (n : nat) (b sector : Z) (input : list Z) (start end_ : Z) :
    M bstate unit :=
  match n with
  | O => no_fuel
  | S n =>
      let* offset := acquire_buffer_entry_lock sector in
      if offset =? -1 then write_not_buffered n b sector input start end_
      else
        let* old_level := on_sched intr_disable in
        let* w := wait_entry wakeups sector offset old_level in
        match w with
        | None => write_not_buffered n b sector input start end_
        | Some (offset, old_level) =>
            let* _ := on_sched (intr_set_level old_level) in
            let* s := get in
            let* e := deref (entry_at offset s) in
            let* data := bounded_write input (buffer e) start end_ in
            put_entry offset (Some (with_data data e));;;
            lock_release (p_sector_lock offset);;;
            signal_inactive
        end
  end
with write_not_buffered (n : nat) (b sector : Z) (input : list Z) (start end_ : Z) :
    M bstate unit :=
  match n with
  | O => no_fuel
  | S n =>
      lock_acquire p_cache_lock;;;
      let* cached := check_sector_cached sector in
      if cached then lock_release p_cache_lock;;; write_buffered n b sector input start end_
      else
        let* old_level := on_sched intr_disable in
        let* w := wait_slot wakeups sector old_level in
        match w with
        | None => write_buffered n b sector input start end_
        | Some old_level =>
            let* _ := on_sched (intr_set_level old_level) in
            let* cur := load_entry b sector 1 in
            let* offset := free_slot in
            let* data := bounded_write input (buffer cur) start end_ in
            put_entry offset (Some (with_data data cur));;;
            lock_release p_cache_lock;;;
            signal_inactive
        end
  end.

(** ** Pointers are in order *)

Ltac good_ptr :=
  split; try done; by intros [] ? [= <-].

#[global] Instance p_cache_lock_good : GoodPtr p_cache_lock.
Proof. good_ptr. Qed.
#[global] Instance p_active_good : GoodPtr p_active.
Proof. good_ptr. Qed.
#[global] Instance p_inactive_good : GoodPtr p_inactive.
Proof. good_ptr. Qed.
#[global] Instance p_inactive_lock_good : GoodPtr p_inactive_lock.
Proof. good_ptr. Qed.

Lemma entry_at_Some i e s :
  entry_at i s = Some e ↔ 0 <= i ∧ buffer_cache s !! Z.to_nat i = Some (Some e).
Proof.
  unfold entry_at. destruct (Z.ltb_spec i 0); [split; [done|lia]|].
  destruct (buffer_cache s !! Z.to_nat i) as [[e'|]|]; simpl; naive_solver.
Qed.

Lemma entry_at_set_cache i e o s :
  entry_at i s = Some e →
  entry_at i (set_cache <[Z.to_nat i := o]> s) = o.
Proof.
  intros [Hi Hl]%entry_at_Some. unfold entry_at. simpl.
  rewrite (proj2 (Z.ltb_ge i 0)) by done.
  rewrite list_lookup_insert_eq by (by eapply lookup_lt_Some). done.
Qed.

Lemma set_cache_twice i o o' s :
  set_cache <[Z.to_nat i := o]> (set_cache <[Z.to_nat i := o']> s)
    = set_cache <[Z.to_nat i := o]> s.
Proof. unfold set_cache. simpl. by rewrite list_insert_insert_eq. Qed.

#[global] Instance p_sector_lock_good i : GoodPtr (p_sector_lock i).
Proof.
  split; simpl.
  - intros s l. destruct (entry_at i s) as [e|] eqn:E; [|by intros []]. intros _.
    by erewrite entry_at_set_cache.
  - intros s l l'. destruct (entry_at i s) as [e|] eqn:E; [|by rewrite E].
    erewrite entry_at_set_cache by done. by rewrite set_cache_twice.
  - intros s l. destruct (entry_at i s) as [e|] eqn:E; [|done]. simpl. intros [= <-].
    apply entry_at_Some in E as [_ E]. destruct e, s; unfold set_cache, with_lock; simpl in *.
    by rewrite list_insert_id.
  - intros s l. by destruct (entry_at i s).
  - done.
  - intros s l x. unfold entry_at. simpl.
    destruct (i <? 0); [done|]. by destruct (mjoin _).
Qed.

(** The side conditions of the lemmas on uncontended operations. *)
Ltac sync := first [apply _ | done].

(** ** Uncontended runs *)

(** The state between two accesses: every lock of the cache is free. *)
Definition quiet k ds rs c h m a : bstate :=
  mk_bstate k ds rs c h new_lock (mk_sema 64 []) (mk_cond []) new_lock m a.

Definition kok (k : kernel) : Prop :=
  thread_current (k_sched k) = Ok (cur (k_sched k), k_sched k) ∧
  in_external_intr (k_sched k) = false.

(** The thread running in [k]. *)
Definition kme (k : kernel) : Z := cur (k_sched k).

(** The running thread holds the cache lock. *)
Definition locked k ds rs c h sm m a : bstate :=
  mk_bstate k ds rs c h (held (kme k)) sm (mk_cond []) new_lock m a.

(** Locks of single entries. *)
Section entry_locks.
Context (s : bstate) (i : Z) (e : buffer_entry).
Context (Hk : kernel_ok s) (He : entry_at i s = Some e).

(** [s] with lock [l] in entry [i]. *)
Definition entry_locked (l : lock) : bstate :=
  set_cache <[Z.to_nat i := Some (with_lock l e)]> s.

Lemma acquire_entry_lock :
  sector_lock e = new_lock →
  lock_acquire (p_sector_lock i) s = Ok (tt, entry_locked (held (me s))).
Proof.
  intros Hl. rewrite lock_acquire_new; [|sync..|]; simpl; rewrite He; [done|].
  simpl. by rewrite Hl.
Qed.

Lemma try_entry_lock :
  sector_lock e = new_lock →
  lock_try_acquire (p_sector_lock i) s = Ok (true, entry_locked (held (me s))).
Proof.
  intros Hl. rewrite lock_try_acquire_new; [|sync..|]; simpl; rewrite He; [done|].
  simpl. by rewrite Hl.
Qed.

Lemma release_entry_lock :
  sector_lock e = held (me s) →
  lock_release (p_sector_lock i) s = Ok (tt, entry_locked new_lock).
Proof.
  intros Hl. rewrite lock_release_held; [|sync..|]; simpl; rewrite He; [done|].
  simpl. by rewrite Hl.
Qed.

Lemma holds_entry_lock :
  sector_lock e = held (me s) →
  lock_held_by_current_thread (p_sector_lock i) s = Ok (true, s).
Proof.
  intros Hl. erewrite held_by_me; [|sync|simpl; by rewrite He]. rewrite Hl. simpl.
  by rewrite bool_decide_eq_true_2.
Qed.
End entry_locks.

(** ** Searching the cache *)

Lemma find_sector_Some x c : ∀ o i,
  find_sector x o c = Some i →
  ∃ e, o <= i ∧ c !! Z.to_nat (i - o) = Some (Some e) ∧ buffered_sector e = x.
Proof.
  induction c as [|[e|] c IH]; intros o i; simpl; [done|..].
  - destruct (Z.eqb_spec (buffered_sector e) x) as [<-|].
    + intros [= <-]. exists e. replace (o - o) with 0 by lia. split_and!; [lia|done..].
    + intros (e' & ? & He & ?)%IH. exists e'. split_and!; [lia| |done].
      by replace (Z.to_nat (i - o)) with (S (Z.to_nat (i - (o + 1)))) by lia.
  - intros (e' & ? & He & ?)%IH. exists e'. split_and!; [lia| |done].
    by replace (Z.to_nat (i - o)) with (S (Z.to_nat (i - (o + 1)))) by lia.
Qed.

Lemma find_sector_None x c : ∀ o,
  find_sector x o c = None ↔ ∀ j e, c !! j = Some (Some e) → buffered_sector e ≠ x.
Proof.
  induction c as [|oe c IH]; intros o; simpl; [split; [by intros _ []|done]|].
  destruct oe as [e|].
  - destruct (Z.eqb_spec (buffered_sector e) x) as [Hx|Hx].
    + split; [done|]. intros H. by apply (H 0%nat e) in Hx.
    + rewrite IH. split; intros H.
      * intros [|j] e'; simpl; [by intros [= <-]|by apply H].
      * intros j e' Hj. by apply (H (S j)).
  - rewrite IH. split; intros H.
    + intros [|j] e'; simpl; [done|by apply H].
    + intros j e' Hj. by apply (H (S j)).
Qed.

Section runs.
Context (k : kernel) (Hk : kok k).
Implicit Types (ds : list block) (rs : list (option Z)) (c : list (option buffer_entry)).

Lemma acquire_cache_lock {B} (f : unit → M bstate B) ds rs c h sm m a :
  bind (lock_acquire p_cache_lock) f
    (mk_bstate k ds rs c h new_lock sm (mk_cond []) new_lock m a)
  = f tt (locked k ds rs c h sm m a).
Proof. by erewrite bind_ok by (apply lock_acquire_new; sync). Qed.

Lemma release_cache_lock {B} (f : unit → M bstate B) ds rs c h sm m a :
  bind (lock_release p_cache_lock) f (locked k ds rs c h sm m a)
  = f tt (mk_bstate k ds rs c h new_lock sm (mk_cond []) new_lock m a).
Proof. by erewrite bind_ok by (apply lock_release_held; sync). Qed.

Lemma holds_cache_lock {B} (f : bool → M bstate B) ds rs c h sm m a :
  bind (lock_held_by_current_thread p_cache_lock) f (locked k ds rs c h sm m a)
  = f true (locked k ds rs c h sm m a).
Proof.
  erewrite bind_ok by (apply held_by_me; sync). simpl.
  by rewrite bool_decide_eq_true_2.
Qed.

Lemma signal_inactive_ok ds rs c h m a :
  signal_inactive (mk_bstate k ds rs c h new_lock (mk_sema 63 []) (mk_cond []) new_lock m a)
  = Ok (tt, quiet k ds rs c h m a).
Proof.
  unfold signal_inactive.
  erewrite bind_ok by (apply sema_up_idle; sync). simpl.
  erewrite bind_ok by (apply lock_acquire_new; sync). simpl.
  erewrite bind_ok by (apply cond_broadcast_idle; sync).
  rewrite lock_release_held; sync.
Qed.

Lemma wait_entry_try n sector offset old s s' :
  sema_try_down p_active s = Ok (true, s') →
  wait_entry n sector offset old s = Ok (Some (offset, old), s').
Proof. intros Hs. by destruct n; unfold wait_entry, wait_slot; rewrite (bind_ok _ _ _ _ _ Hs). Qed.

Lemma wait_slot_try n sector old s s' :
  sema_try_down p_active s = Ok (true, s') →
  wait_slot n sector old s = Ok (Some old, s').
Proof. intros Hs. by destruct n; unfold wait_entry, wait_slot; rewrite (bind_ok _ _ _ _ _ Hs). Qed.

(** Entering and leaving the wait when an entry is available at once. *)
Lemma wait_entry_now {B} sector offset s v ws
    (X : M bstate B) (Y : Z → M bstate B) :
  kernel_ok s → active_sema s = mk_sema v ws → 0 < v < 4294967296 →
  bind (on_sched intr_disable) (λ old, bind (wait_entry wakeups sector offset old) (λ w,
    match w with
    | None => X
    | Some (o, l) => bind (on_sched (intr_set_level l)) (λ _, Y o)
    end)) s
  = Y offset (pstore p_active (mk_sema (v - 1) ws) s).
Proof.
  intros Hs Ha Hv. rewrite (bind_ok _ _ _ _ _ (on_sched_disable s)).
  erewrite bind_ok.
  2: { apply wait_entry_try, sema_try_down_free with (v := v) (ws := ws);
         [by apply kernel_ok_cli|apply _| |done]. simpl. by rewrite Ha. }
  cbv beta iota. by rewrite (sti_ok p_active).
Qed.

Lemma wait_slot_now {B} sector s v ws (X Y : M bstate B) :
  kernel_ok s → active_sema s = mk_sema v ws → 0 < v < 4294967296 →
  bind (on_sched intr_disable) (λ old, bind (wait_slot wakeups sector old) (λ w,
    match w with
    | None => X
    | Some l => bind (on_sched (intr_set_level l)) (λ _, Y)
    end)) s
  = Y (pstore p_active (mk_sema (v - 1) ws) s).
Proof.
  intros Hs Ha Hv. rewrite (bind_ok _ _ _ _ _ (on_sched_disable s)).
  erewrite bind_ok.
  2: { apply wait_slot_try, sema_try_down_free with (v := v) (ws := ws);
         [by apply kernel_ok_cli|apply _| |done]. simpl. by rewrite Ha. }
  cbv beta iota. by rewrite (sti_ok p_active).
Qed.

(** ** Cache hits and misses *)

Lemma acquire_hit sector ds rs c h sm m a i e :
  find_sector sector 0 c = Some i → c !! Z.to_nat i = Some (Some e) →
  sector_lock e = new_lock →
  acquire_buffer_entry_lock sector
    (mk_bstate k ds rs c h new_lock sm (mk_cond []) new_lock m a)
  = Ok (i, mk_bstate k ds rs
             (<[Z.to_nat i := Some (with_lock (held (kme k)) (with_use 1 e))]> c)
             h new_lock sm (mk_cond []) new_lock m a).
Proof.
  intros Hf Hi Hl. destruct (find_sector_Some _ _ _ _ Hf) as (_ & Hi0 & _ & _).
  unfold acquire_buffer_entry_lock. rewrite acquire_cache_lock. run. simpl. rewrite Hf.
  set (s1 := locked _ _ _ _ _ _ _ _).
  assert (entry_at i s1 = Some e) as He by (by apply entry_at_Some).
  erewrite bind_ok by (by apply (acquire_entry_lock s1 i e)). run.
  erewrite bind_deref by (unfold entry_locked; by eapply entry_at_set_cache).
  unfold put_entry. run. unfold entry_locked. rewrite set_cache_twice.
  change (set_cache ?f s1) with (locked k ds rs (f c) h sm m a). by rewrite release_cache_lock.
Qed.

Lemma acquire_miss sector ds rs c h sm m a :
  find_sector sector 0 c = None →
  acquire_buffer_entry_lock sector
    (mk_bstate k ds rs c h new_lock sm (mk_cond []) new_lock m a)
  = Ok (-1, mk_bstate k ds rs c h new_lock sm (mk_cond []) new_lock m a).
Proof.
  intros Hf. unfold acquire_buffer_entry_lock. rewrite acquire_cache_lock. run. simpl.
  rewrite Hf. by rewrite release_cache_lock.
Qed.

(** A sector that is in the cache is read without touching the device. *)
Lemma read_hit n b sector start end_ ds rs c h m a i e :
  find_sector sector 0 c = Some i → c !! Z.to_nat i = Some (Some e) →
  sector_lock e = new_lock → 0 <= start <= end_ → end_ <= zlen (buffer e) →
  read_buffered (S n) b sector start end_ (quiet k ds rs c h m a)
  = Ok (slice start (end_ - start) (buffer e),
        quiet k ds rs (<[Z.to_nat i := Some (with_use 1 e)]> c) h m (s32 (a + 1))).
Proof.
  intros Hf Hi Hl Hse Hend. destruct (find_sector_Some _ _ _ _ Hf) as (_ & Hi0 & _ & _).
  simpl. unfold quiet at 1. rewrite (bind_ok _ _ _ _ _ (acquire_hit sector ds rs c h _ m a i e Hf Hi Hl)).
  rewrite (proj2 (Z.eqb_neq i (-1))) by lia.
  erewrite wait_entry_now; [|exact Hk|done|lia]. run. simpl.
  set (e1 := with_lock _ _). set (s1 := mk_bstate _ _ _ _ _ _ _ _ _ _ _).
  assert (entry_at i s1 = Some e1) as He.
  { apply entry_at_Some. split; [lia|]. apply list_lookup_insert_eq. by eapply lookup_lt_Some. }
  erewrite bind_deref by done. unfold bounded_read, count_access. run.
  erewrite bind_deref by (apply load_bytes_ok; simpl; lia).
  erewrite bind_ok; [|apply release_entry_lock with (e := e1); [exact Hk|done|done]].
  unfold entry_locked, set_cache. simpl. rewrite list_insert_insert_eq.
  erewrite bind_ok by apply signal_inactive_ok. destruct e; simpl in *. by subst.
Qed.

Lemma write_hit n b sector input start end_ ds rs c h m a i e :
  find_sector sector 0 c = Some i → c !! Z.to_nat i = Some (Some e) →
  sector_lock e = new_lock → 0 <= start <= end_ → end_ <= zlen (buffer e) →
  end_ - start <= zlen input →
  write_buffered (S n) b sector input start end_ (quiet k ds rs c h m a)
  = Ok (tt, quiet k ds rs
        (<[Z.to_nat i := Some (with_data
             (splice start (slice 0 (end_ - start) input) (buffer e)) (with_use 1 e))]> c)
        h m (s32 (a + 1))).
Proof.
  intros Hf Hi Hl Hse Hend Hin. destruct (find_sector_Some _ _ _ _ Hf) as (_ & Hi0 & _ & _).
  simpl. unfold quiet at 1. rewrite (bind_ok _ _ _ _ _ (acquire_hit sector ds rs c h _ m a i e Hf Hi Hl)).
  rewrite (proj2 (Z.eqb_neq i (-1))) by lia.
  erewrite wait_entry_now; [|exact Hk|done|lia]. run. simpl.
  set (e1 := with_lock _ _). set (s1 := mk_bstate _ _ _ _ _ _ _ _ _ _ _).
  assert (entry_at i s1 = Some e1) as He.
  { apply entry_at_Some. split; [lia|]. apply list_lookup_insert_eq. by eapply lookup_lt_Some. }
  erewrite bind_deref by done. unfold bounded_write, count_access. run.
  erewrite bind_deref by (apply load_bytes_ok; simpl; lia).
  erewrite bind_deref by (apply store_bytes_ok; rewrite ?zlen_slice; simpl; lia).
  unfold put_entry. run. set (e2 := with_data _ _). set (s2 := set_cache _ _).
  erewrite bind_ok; [|apply release_entry_lock with (e := e2); [exact Hk| |done]].
  2: { by apply entry_at_set_cache with (e := e1). }
  unfold entry_locked, s2, set_cache. simpl. rewrite !list_insert_insert_eq.
  rewrite signal_inactive_ok. destruct e; simpl in *. by subst.
Qed.
End runs.

(** ** The flat array of sectors *)

Fixpoint lookup_sector (x : Z) (c : list (option buffer_entry)) : option buffer_entry :=
  match c with
  | [] => None
  | Some e :: c => if buffered_sector e =? x then Some e else lookup_sector x c
  | None :: c => lookup_sector x c
  end.

(** What a reader of sector [x] of [blk] must see. *)
Definition view (blk : block) (c : list (option buffer_entry)) (x : Z) : option (list Z) :=
  match lookup_sector x c with
  | Some e => Some (buffer e)
  | None => media blk !! Z.to_nat x
  end.

(** A usable device: its medium has one 512-byte block per sector. *)
Record block_ok (blk : block) : Prop := {
  bo_size : zlen (media blk) = bsize blk;
  bo_sectors : Forall (λ d, zlen d = BLOCK_SECTOR_SIZE) (media blk);
  bo_type : btype blk ≠ BLOCK_FOREIGN
}.

Record entry_ok (b : Z) (blk : block) (e : buffer_entry) : Prop := {
  eo_block : sector_block e = b;
  eo_sector : 0 <= buffered_sector e < bsize blk;
  eo_len : zlen (buffer e) = BLOCK_SECTOR_SIZE;
  eo_use : use_bit e = 0 ∨ use_bit e = 1;
  eo_clean : dirty_bit e = 0 →
    media blk !! Z.to_nat (buffered_sector e) = Some (buffer e)
}.

(** No sector is cached twice, and clean entries agree with the device. *)
Record cache_ok (b : Z) (blk : block) (c : list (option buffer_entry)) : Prop := {
  co_len : length c = 64%nat;
  co_entry : ∀ i e, c !! i = Some (Some e) → entry_ok b blk e;
  co_distinct : ∀ i j e e', c !! i = Some (Some e) → c !! j = Some (Some e') →
    buffered_sector e = buffered_sector e' → i = j
}.

Definition free_locks (c : list (option buffer_entry)) : Prop :=
  ∀ i e, c !! i = Some (Some e) → sector_lock e = new_lock.

Lemma lookup_sector_None x c :
  lookup_sector x c = None ↔ ∀ j e, c !! j = Some (Some e) → buffered_sector e ≠ x.
Proof.
  rewrite <- (find_sector_None x c 0). generalize 0.
  induction c as [|[e|] c IH]; intros o; simpl; [done| |apply IH].
  destruct (_ =? _); [done|apply IH].
Qed.

Lemma lookup_sector_Some x c e :
  lookup_sector x c = Some e → ∃ i, c !! i = Some (Some e) ∧ buffered_sector e = x.
Proof.
  induction c as [|[e'|] c IH]; simpl; [done|..].
  - destruct (Z.eqb_spec (buffered_sector e') x); [intros [= <-]; by exists 0%nat|].
    intros (i & ? & ?)%IH. by exists (S i).
  - intros (i & ? & ?)%IH. by exists (S i).
Qed.

Lemma lookup_sector_at b blk c i e :
  cache_ok b blk c → c !! i = Some (Some e) →
  lookup_sector (buffered_sector e) c = Some e.
Proof.
  intros Hc Hi. destruct (lookup_sector (buffered_sector e) c) as [e'|] eqn:E.
  - apply lookup_sector_Some in E as (j & Hj & Hx).
    assert (i = j) as <- by (by eapply (co_distinct _ _ _ Hc)). congruence.
  - exfalso. by eapply lookup_sector_None in E.
Qed.

Lemma view_at b blk c i e :
  cache_ok b blk c → c !! i = Some (Some e) →
  view blk c (buffered_sector e) = Some (buffer e).
Proof. intros Hc Hi. unfold view. by erewrite lookup_sector_at. Qed.

(** The view is fixed by what each cached entry holds and, elsewhere, by the
    medium. *)
Lemma view_uncached blk c x :
  (∀ j e, c !! j = Some (Some e) → buffered_sector e ≠ x) →
  view blk c x = media blk !! Z.to_nat x.
Proof. intros H. unfold view. by rewrite (proj2 (lookup_sector_None x c)). Qed.

Lemma cached_dec x (c : list (option buffer_entry)) :
  (∃ j e, c !! j = Some (Some e) ∧ buffered_sector e = x) ∨
  (∀ j e, c !! j = Some (Some e) → buffered_sector e ≠ x).
Proof.
  destruct (lookup_sector x c) as [e|] eqn:E.
  - left. apply lookup_sector_Some in E as (i & ? & ?). by exists i, e.
  - right. by apply lookup_sector_None.
Qed.

(** An entry for sector [buffered_sector e'] goes into slot [i], which is empty
    or holds that sector, and no other slot does. *)
Lemma put_ok b blk c i e' :
  cache_ok b blk c → (i < 64)%nat → entry_ok b blk e' →
  (∀ j e, c !! j = Some (Some e) → (i = j ↔ buffered_sector e = buffered_sector e')) →
  cache_ok b blk (<[i := Some e']> c) ∧
  ∀ x, view blk (<[i := Some e']> c) x
       = if decide (x = buffered_sector e') then Some (buffer e') else view blk c x.
Proof.
  intros Hc Hlt He' Hslot. rewrite <- (co_len _ _ _ Hc) in Hlt.
  assert (cache_ok b blk (<[i := Some e']> c)) as Hc'.
  { split.
    - rewrite length_insert. apply Hc.
    - intros j e1. rewrite list_lookup_insert_Some.
      intros [(<- & [= <-] & _)|[_ Hj]]; [done|by apply (co_entry _ _ _ Hc) in Hj].
    - intros j1 j2 e1 e2. rewrite !list_lookup_insert_Some.
      intros [(<- & [= <-] & _)|[Hn1 Hj1]] [(<- & [= <-] & _)|[Hn2 Hj2]] Heq.
      + done.
      + by apply (Hslot _ _ Hj2).
      + symmetry. by apply (Hslot _ _ Hj1).
      + by eapply (co_distinct _ _ _ Hc). }
  split; [done|]. intros x. case_decide as Hx.
  { subst x. eapply view_at; [done|]. by apply list_lookup_insert_eq. }
  destruct (cached_dec x c) as [(j & e1 & Hj & <-)|Hno].
  - rewrite (view_at b blk c j e1) by done. apply (view_at b blk _ j e1); [done|].
    rewrite list_lookup_insert_ne; [done|]. by rewrite (Hslot _ _ Hj).
  - rewrite !view_uncached; [done|done|]. intros j e1. rewrite list_lookup_insert_Some.
    intros [(<- & [= <-] & _)|[_ Hj]]; [done|]. by eapply Hno.
Qed.

(** Changing the use bit or the lock of an entry is invisible. *)
Lemma touch_ok b blk c i e e' :
  cache_ok b blk c → c !! i = Some (Some e) →
  buffered_sector e' = buffered_sector e → buffer e' = buffer e →
  entry_ok b blk e' →
  cache_ok b blk (<[i := Some e']> c) ∧
  ∀ x, view blk (<[i := Some e']> c) x = view blk c x.
Proof.
  intros Hc Hi Hs Hb He'. destruct (put_ok b blk c i e') as [Hc' Hv]; try done.
  - rewrite <- (co_len _ _ _ Hc). by eapply lookup_lt_Some.
  - intros j e1 Hj. rewrite Hs. split; [intros <-; congruence|].
    intros Heq. by eapply (co_distinct _ _ _ Hc).
  - split; [done|]. intros x. rewrite Hv. case_decide as Hx; [|done].
    rewrite Hx, Hs, Hb. symmetry. by eapply view_at.
Qed.

(** The device after eviction of [e]. *)
Definition flushed (e : buffer_entry) (blk : block) : block :=
  if dirty_bit e =? 0 then blk
  else mk_block (bname blk) (btype blk) (bsize blk)
         (<[Z.to_nat (buffered_sector e) := buffer e]> (media blk))
         (read_cnt blk) (u64 (write_cnt blk + 1)).

Lemma flushed_shape e blk :
  bsize (flushed e blk) = bsize blk ∧ btype (flushed e blk) = btype blk.
Proof. unfold flushed. by destruct (_ =? _). Qed.

Lemma flushed_ok b e blk : block_ok blk → entry_ok b blk e → block_ok (flushed e blk).
Proof.
  intros [H1 H2 H3] He. unfold flushed. destruct (_ =? _); [done|].
  split; simpl; [|by apply Forall_insert; [|apply He]|done].
  unfold zlen in *. by rewrite length_insert.
Qed.

Lemma flushed_media e blk x :
  x ≠ buffered_sector e → 0 <= x → 0 <= buffered_sector e →
  media (flushed e blk) !! Z.to_nat x = media blk !! Z.to_nat x.
Proof.
  intros. unfold flushed. destruct (_ =? _); [done|]. simpl.
  rewrite list_lookup_insert_ne by lia. done.
Qed.

Lemma flushed_self b e blk :
  block_ok blk → entry_ok b blk e →
  media (flushed e blk) !! Z.to_nat (buffered_sector e) = Some (buffer e).
Proof.
  intros Hb He. pose proof (eo_sector _ _ _ He). pose proof (bo_size _ Hb).
  unfold flushed. destruct (Z.eqb_spec (dirty_bit e) 0); [by apply He|]. simpl.
  apply list_lookup_insert_eq. unfold zlen in *. lia.
Qed.

(** Eviction is invisible too. *)
Lemma evict_ok b blk c i e :
  block_ok blk → cache_ok b blk c → c !! i = Some (Some e) →
  cache_ok b (flushed e blk) (<[i := None]> c) ∧
  ∀ x, 0 <= x → view (flushed e blk) (<[i := None]> c) x = view blk c x.
Proof.
  intros Hb Hc Hi. pose proof (co_entry _ _ _ Hc _ _ Hi) as He.
  pose proof (eo_sector _ _ _ He) as Hes.
  assert (∀ j e', <[i := None]> c !! j = Some (Some e') → i ≠ j ∧ c !! j = Some (Some e'))
    as Hlook by (intros j e'; rewrite list_lookup_insert_Some; naive_solver).
  assert (cache_ok b (flushed e blk) (<[i := None]> c)) as Hc'.
  { split.
    - rewrite length_insert. apply Hc.
    - intros j e' (Hne & Hj)%Hlook. pose proof (co_entry _ _ _ Hc _ _ Hj) as He'.
      pose proof (eo_sector _ _ _ He').
      split; try apply He'; [by rewrite (proj1 (flushed_shape e blk))|].
      intros Hd. rewrite flushed_media; [by apply He'| |lia|lia].
      intros Heq. apply Hne. by eapply (co_distinct _ _ _ Hc).
    - intros j1 j2 e1 e2 [_ H1]%Hlook [_ H2]%Hlook. by apply (co_distinct _ _ _ Hc). }
  split; [done|]. intros x Hx. destruct (cached_dec x c) as [(j & e1 & Hj & <-)|Hno].
  - rewrite (view_at b blk c j e1) by done. destruct (decide (i = j)) as [<-|Hne].
    + assert (e1 = e) as -> by congruence.
      rewrite view_uncached; [by eapply flushed_self|].
      intros j e' (Hne & Hj')%Hlook Heq. apply Hne. by eapply (co_distinct _ _ _ Hc).
    + apply (view_at b _ _ j e1); [done|]. by rewrite list_lookup_insert_ne.
  - rewrite !view_uncached; [|done|by intros j e1 [_ ?]%Hlook; eapply Hno].
    apply flushed_media; [|lia|lia]. by apply not_eq_sym, (Hno i).
Qed.

(** ** Eviction *)

Section evictions.
Context (k : kernel) (Hk : kok k) (b : Z) (Hb0 : 0 <= b).
Context (rs : list (option Z)) (sm : semaphore) (m a : Z).

Lemma block_at_ok {B} (f : block → M bstate B) s blk :
  all_blocks s !! Z.to_nat b = Some blk → bind (block_at b) f s = f blk s.
Proof.
  intros Hl. unfold block_at. run. rewrite (proj2 (Z.ltb_ge b 0)) by done.
  by erewrite bind_deref.
Qed.

Lemma check_sector_ok {B} (f : unit → M bstate B) s blk x :
  all_blocks s !! Z.to_nat b = Some blk → x < bsize blk →
  bind (check_sector b x) f s = f tt s.
Proof.
  intros Hl Hx. unfold check_sector. rewrite bind_assoc, (block_at_ok _ s blk) by done.
  rewrite Z.geb_leb, (proj2 (Z.leb_gt _ _)) by done. done.
Qed.

Lemma block_write_ok s blk e :
  all_blocks s !! Z.to_nat b = Some blk → block_ok blk → entry_ok b blk e →
  dirty_bit e ≠ 0 →
  block_write b (buffered_sector e) (buffer e) s
  = Ok (tt, set_blocks <[Z.to_nat b := flushed e blk]> s).
Proof.
  intros Hl Hb He Hd. unfold block_write.
  pose proof (eo_sector _ _ _ He) as Hs. pose proof (bo_size _ Hb) as Hz.
  rewrite (check_sector_ok _ s blk) by (done || lia). rewrite (block_at_ok _ s blk) by done.
  rewrite bind_assert by (rewrite bool_decide_eq_false_2; [done|apply Hb]).
  destruct (lookup_lt_is_Some_2 (media blk) (Z.to_nat (buffered_sector e))) as [d Hm];
    [unfold zlen in Hz; lia|].
  erewrite bind_deref by done. unfold flushed. by rewrite (proj2 (Z.eqb_neq _ _)).
Qed.

Lemma buffer_evict_ok ds c h i e blk :
  ds !! Z.to_nat b = Some blk → block_ok blk → entry_ok b blk e →
  0 <= i → c !! Z.to_nat i = Some (Some e) → sector_lock e = held (kme k) →
  buffer_evict i (locked k ds rs c h sm m a)
  = Ok (tt, locked k (<[Z.to_nat b := flushed e blk]> ds) rs (<[Z.to_nat i := None]> c) h sm m a).
Proof.
  intros Hl Hb He Hi Hc Hlk. unfold buffer_evict.
  rewrite (holds_cache_lock k Hk), bind_assert by done. run.
  set (s1 := locked k ds rs c h sm m a).
  assert (entry_at i s1 = Some e) as Hs1 by (by apply entry_at_Some). rewrite Hs1.
  erewrite bind_ok by (apply (holds_entry_lock s1 i e); [exact Hk|done|done]).
  rewrite bind_assert by done. rewrite (eo_block _ _ _ He).
  assert (∀ s2 (Hs2 : s2 = locked k (<[Z.to_nat b := flushed e blk]> ds) rs c h sm m a),
    (lock_release (p_sector_lock i);;; put_entry i None) s2
    = Ok (tt, locked k (<[Z.to_nat b := flushed e blk]> ds) rs (<[Z.to_nat i := None]> c) h sm m a))
    as Hrest.
  { intros s2 Hs2. assert (entry_at i s2 = Some e) as He2 by (subst s2; by apply entry_at_Some).
    erewrite bind_ok; [|apply (release_entry_lock s2 i e);
      [subst s2; exact Hk|exact He2|subst s2; exact Hlk]].
    unfold put_entry, entry_locked, modify. rewrite set_cache_twice. by subst s2. }
  destruct (Z.eqb_spec (dirty_bit e) 0) as [Hd|Hd]; simpl negb; cbv iota.
  - run. apply Hrest. unfold flushed. rewrite (proj2 (Z.eqb_eq _ _)) by done.
    by rewrite list_insert_id.
  - rewrite (bind_ok _ _ _ _ _ (block_write_ok s1 blk e Hl Hb He Hd)). by apply Hrest.
Qed.

(** Entries are unlocked, or locked by a thread other than the running one. *)
Definition others_locks (c : list (option buffer_entry)) : Prop :=
  ∀ i e, c !! i = Some (Some e) →
    sector_lock e = new_lock ∨
    ∃ t ws, t ≠ kme k ∧ sector_lock e = mk_lock (Some t) (mk_sema 0 ws).

(** Slot [j] can be taken: it is empty or its entry is unlocked; [turns] is how
    many entries the hand may pass before it takes one. *)
Definition can_take (c : list (option buffer_entry)) (j : Z) : Prop :=
  0 <= j < 64 ∧ ∀ e, c !! Z.to_nat j = Some (Some e) → sector_lock e = new_lock.

Definition turns (c : list (option buffer_entry)) (h j : Z) : Z :=
  (j - h) mod 64 +
  match c !! Z.to_nat j with
  | Some (Some e) => if use_bit e =? 1 then 64 else 0
  | _ => 0
  end.

(** [c'] caches no sector that [c] did not cache. *)
Definition shrinks (c c' : list (option buffer_entry)) : Prop :=
  ∀ j e, c' !! j = Some (Some e) →
    ∃ e0, c !! j = Some (Some e0) ∧ buffered_sector e0 = buffered_sector e.

(** What the clock leaves: slot [i] is empty, and the sectors are as before. *)
Definition clock_post (ds : list block) (blk : block) (c : list (option buffer_entry))
    (i : Z) (s' : bstate) : Prop :=
  ∃ blk' c' h', s' = locked k (<[Z.to_nat b := blk']> ds) rs c' h' sm m a ∧
    0 <= i < 64 ∧ 0 <= h' < 64 ∧ c' !! Z.to_nat i = Some None ∧
    block_ok blk' ∧ cache_ok b blk' c' ∧ bsize blk' = bsize blk ∧
    (free_locks c → free_locks c') ∧ shrinks c c' ∧
    ∀ x, 0 <= x → view blk' c' x = view blk c x.

Lemma advance_turns c h j :
  0 <= h < 64 → 0 <= j < 64 → j ≠ h → turns c ((h + 1) mod 64) j = turns c h j - 1.
Proof. intros. unfold turns. enough ((j - (h + 1) mod 64) mod 64 = (j - h) mod 64 - 1) by lia. dlia. Qed.

Lemma clock_post_trans ds blk c c1 i s' :
  (∀ x, 0 <= x → view blk c1 x = view blk c x) → (free_locks c → free_locks c1) →
  shrinks c c1 → clock_post ds blk c1 i s' → clock_post ds blk c i s'.
Proof.
  intros Hv Hf Hs (blk' & c' & h' & ? & ? & ? & ? & ? & ? & ? & Hf' & Hs' & Hv').
  exists blk', c', h'. split_and!; auto; try lia.
  - intros j e (e1 & He1 & <-)%Hs'. by apply Hs.
  - intros x Hx. rewrite Hv' by done. by apply Hv.
Qed.

(** The hand stands at an empty slot. *)
Lemma clock_empty ds blk c h :
  ds !! Z.to_nat b = Some blk → block_ok blk → cache_ok b blk c → 0 <= h < 64 →
  c !! Z.to_nat h = Some None →
  wp (advance_hand;;; ret h) (clock_post ds blk c) (locked k ds rs c h sm m a).
Proof.
  intros Hl Hb Hc Hh Hn. unfold advance_hand. wp_steps.
  exists blk, c, ((h + 1) mod 64). rewrite list_insert_id by done.
  split_and!; try done; try dlia. intros j e He. by eauto.
Qed.

(** The hand stands at an unlocked entry whose use bit is clear. *)
Lemma clock_evict ds blk c h e :
  ds !! Z.to_nat b = Some blk → block_ok blk → cache_ok b blk c → 0 <= h < 64 →
  c !! Z.to_nat h = Some (Some e) → sector_lock e = new_lock →
  wp (buffer_evict h;;; advance_hand;;; ret h) (clock_post ds blk c)
    (locked k ds rs (<[Z.to_nat h := Some (with_lock (held (kme k)) e)]> c) h sm m a).
Proof.
  intros Hl Hb Hc Hh Hi Hlk. pose proof (co_entry _ _ _ Hc _ _ Hi) as He.
  pose proof (lookup_lt_Some _ _ _ Hi) as Hlt. apply wp_bind.
  eapply wp_ok.
  { apply buffer_evict_ok with (e := with_lock (held (kme k)) e) (blk := blk); try done;
      [by destruct He; split|lia|by apply list_lookup_insert_eq]. }
  rewrite list_insert_insert_eq. unfold advance_hand. wp_steps.
  change (flushed (with_lock _ e) blk) with (flushed e blk).
  destruct (evict_ok b blk c (Z.to_nat h) e Hb Hc Hi) as [Hc' Hv].
  exists (flushed e blk), (<[Z.to_nat h := None]> c), ((h + 1) mod 64).
  split_and!; try done; try lia; try dlia.
  - by apply list_lookup_insert_eq.
  - by eapply flushed_ok.
  - by apply flushed_shape.
  - intros Hf j e'. rewrite list_lookup_insert_Some. intros [(? & ? & ?)|[_ Hj]]; [done|].
    by apply Hf in Hj.
  - intros j e'. rewrite list_lookup_insert_Some. intros [(? & ? & ?)|[_ Hj]]; [done|by eauto].
Qed.

(** The hand passes an unlocked entry and clears its use bit. *)
Lemma second_chance {B} (f : M bstate B) ds c h e :
  0 <= h < 64 → c !! Z.to_nat h = Some (Some e) → sector_lock e = new_lock →
  (put_entry h (Some (with_use 0 (with_lock (held (kme k)) e)));;;
   lock_release (p_sector_lock h);;; advance_hand;;; f)
    (locked k ds rs (<[Z.to_nat h := Some (with_lock (held (kme k)) e)]> c) h sm m a)
  = f (locked k ds rs (<[Z.to_nat h := Some (with_use 0 e)]> c) ((h + 1) mod 64) sm m a).
Proof.
  intros Hh Hi Hlk. pose proof (lookup_lt_Some _ _ _ Hi) as Hlt.
  unfold put_entry. run. set (e1 := with_use 0 _). set (s2 := set_cache _ _).
  erewrite bind_ok; [|apply (release_entry_lock s2 h e1); [exact Hk| |done]].
  2: { apply entry_at_Some. split; [lia|]. simpl. rewrite list_insert_insert_eq.
       by apply list_lookup_insert_eq. }
  unfold advance_hand. run. unfold entry_locked, s2, set_cache, set_hand. simpl.
  rewrite !list_insert_insert_eq. destruct e; simpl in *. by subst.
Qed.

Lemma second_chance_turns c h j e :
  0 <= h < 64 → 0 <= j < 64 → c !! Z.to_nat h = Some (Some e) → use_bit e = 1 →
  turns (<[Z.to_nat h := Some (with_use 0 e)]> c) ((h + 1) mod 64) j < turns c h j.
Proof.
  intros Hh Hj Hi Hu. destruct (decide (j = h)) as [->|Hne].
  - unfold turns. rewrite list_lookup_insert_eq by (by eapply lookup_lt_Some).
    rewrite Hi, Hu. simpl. dlia.
  - rewrite advance_turns by lia. unfold turns. rewrite list_lookup_insert_ne by lia. lia.
Qed.

Lemma use_clear_ok blk c h e :
  cache_ok b blk c → c !! h = Some (Some e) →
  cache_ok b blk (<[h := Some (with_use 0 e)]> c) ∧
  ∀ x, view blk (<[h := Some (with_use 0 e)]> c) x = view blk c x.
Proof.
  intros Hc Hi. apply touch_ok with (e := e); try done.
  destruct (co_entry _ _ _ Hc _ _ Hi). split; simpl; auto.
Qed.

Lemma clock_loop_ok ds blk j n : ∀ c h,
  ds !! Z.to_nat b = Some blk → block_ok blk → cache_ok b blk c → others_locks c →
  0 <= h < 64 → can_take c j → turns c h j < Z.of_nat n →
  wp (clock_loop n) (clock_post ds blk c) (locked k ds rs c h sm m a).
Proof.
  induction n as [|n IH]; intros c h Hl Hb Hc Ho Hh Hj Ht.
  { unfold turns in Ht. destruct (c !! Z.to_nat j) as [[e|]|]; [destruct (_ =? 1)|..]; dlia. }
  simpl. apply wp_bind, wp_get. simpl clock_hand.
  set (s1 := locked k ds rs c h sm m a).
  destruct (lookup_lt_is_Some_2 c (Z.to_nat h)) as [oe Hi]; [rewrite (co_len _ _ _ Hc); lia|].
  destruct oe as [e|].
  2: { replace (entry_at h s1) with (@None buffer_entry); [by apply clock_empty|].
       unfold entry_at. simpl. rewrite (proj2 (Z.ltb_ge h 0)) by lia. by rewrite Hi. }
  assert (entry_at h s1 = Some e) as Hs1 by (apply entry_at_Some; split; [lia|done]).
  rewrite Hs1. destruct (Ho _ _ Hi) as [Hlk|(t & ws & Hne & Hlk)].
  - apply wp_bind. eapply wp_ok; [apply (try_entry_lock s1 h e); [exact Hk|done|done]|].
    cbv iota. wp_steps. eapply wp_deref.
    { unfold entry_locked. by eapply entry_at_set_cache. }
    cbv beta. simpl use_bit. destruct (Z.eqb_spec (use_bit e) 1) as [Hu|Hu].
    + eapply wp_eq; [by apply (second_chance (clock_loop n) ds c h e)|].
      pose proof (second_chance_turns c h j e Hh (proj1 Hj) Hi Hu).
      destruct (use_clear_ok blk c (Z.to_nat h) e Hc Hi) as [Hc1 Hv1].
      apply wp_mono with (Q := clock_post ds blk (<[Z.to_nat h := Some (with_use 0 e)]> c)).
      * apply IH; try done; [|dlia|split; [apply Hj|]|lia].
        -- intros i' e'. rewrite list_lookup_insert_Some.
           intros [(_ & [= <-] & _)|[_ Hj']]; [by left|by apply Ho in Hj'].
        -- intros e'. rewrite list_lookup_insert_Some.
           intros [(_ & [= <-] & _)|[_ Hj']]; [done|by apply Hj in Hj'].
      * intros i' s'. apply clock_post_trans; [by intros; apply Hv1|..].
        -- intros Hf i1 e1. rewrite list_lookup_insert_Some.
           intros [(_ & [= <-] & _)|[_ Hj']]; [done|by apply Hf in Hj'].
        -- intros i1 e1. rewrite list_lookup_insert_Some.
           intros [(<- & [= <-] & _)|[_ Hj']]; by eauto.
    + by apply clock_evict.
  - apply wp_bind. eapply wp_ok; [apply (lock_try_acquire_held (p_sector_lock h)) with (t := t) (ws := ws);
      [exact Hk|simpl; rewrite Hs1; simpl; by rewrite Hlk|done]|].
    cbv iota. apply wp_bind, wp_modify.
    apply (IH c ((h + 1) mod 64)); try done; [dlia|].
    rewrite advance_turns; [lia|lia|apply Hj|].
    intros ->. destruct Hj as [_ Hj]. specialize (Hj e Hi). by rewrite Hlk in Hj.
Qed.

Lemma clock_algorithm_ok ds blk c h j :
  ds !! Z.to_nat b = Some blk → block_ok blk → cache_ok b blk c → others_locks c →
  0 <= h < 64 → can_take c j →
  wp clock_algorithm_evict (clock_post ds blk c) (locked k ds rs c h sm m a).
Proof.
  intros. unfold clock_algorithm_evict. eapply wp_eq.
  { rewrite (holds_cache_lock k Hk), bind_assert by done. reflexivity. }
  apply (clock_loop_ok ds blk j); try done. unfold turns.
  destruct (c !! Z.to_nat j) as [[e|]|]; [destruct (_ =? 1)|..]; dlia.
Qed.

Lemma free_slot_ok ds blk c h :
  ds !! Z.to_nat b = Some blk → block_ok blk → cache_ok b blk c → free_locks c →
  0 <= h < 64 →
  wp free_slot (clock_post ds blk c) (locked k ds rs c h sm m a).
Proof.
  intros Hl Hb Hc Hf Hh. unfold free_slot. apply wp_bind.
  eapply wp_mono.
  { apply (clock_algorithm_ok ds blk c h 0); try done.
    - intros i e Hi. left. by apply Hf in Hi.
    - split; [lia|]. intros e He. by apply Hf in He. }
  intros i s' Hpost. pose proof Hpost as (blk' & c' & h' & -> & Hi & _ & Hn & _).
  wp_steps. apply wp_assert; [|by apply wp_ret].
  apply bool_decide_eq_true_2. unfold entry_at. simpl.
  rewrite (proj2 (Z.ltb_ge i 0)) by lia. by rewrite Hn.
Qed.
End evictions.

(** ** Filling an entry from the device *)

Definition counted (blk : block) : block :=
  mk_block (bname blk) (btype blk) (bsize blk) (media blk)
    (u64 (read_cnt blk + 1)) (write_cnt blk).

Lemma counted_ok b blk c :
  block_ok blk → cache_ok b blk c → block_ok (counted blk) ∧ cache_ok b (counted blk) c.
Proof.
  intros [] Hc. split; [done|]. split; try apply Hc.
  intros i e Hi. by destruct (co_entry _ _ _ Hc _ _ Hi).
Qed.

Lemma load_entry_ok k b ds rs c h sm m a blk sector d dirty :
  k_mallocs k = [] → 0 <= b → ds !! Z.to_nat b = Some blk → block_ok blk →
  0 <= sector < bsize blk → media blk !! Z.to_nat sector = Some d →
  load_entry b sector dirty (locked k ds rs c h sm m a)
  = Ok (mk_entry sector b d 1 dirty new_lock,
        locked k (<[Z.to_nat b := counted blk]> ds) rs c h sm (s32 (m + 1)) a).
Proof.
  intros Hm Hb0 Hl Hb Hs Hd. unfold load_entry.
  assert (∀ s, k_mallocs (bk s) = [] → malloc_ok (S := bstate) s = Ok (true, s)) as Hmal.
  { intros s E. unfold malloc_ok. run. simpl. by rewrite E. }
  erewrite bind_ok by (by apply Hmal). cbv beta iota delta [negb].
  erewrite bind_ok by (by apply Hmal). run. cbv beta iota delta [negb].
  unfold block_read. rewrite bind_assoc, (check_sector_ok b Hb0 _ _ blk) by (done || lia).
  rewrite bind_assoc, (block_at_ok b Hb0 _ _ blk) by done.
  rewrite bind_assoc. erewrite bind_deref by done. by run.
Qed.

(** ** The invariant between accesses *)

Inductive cache_inv (b : Z) : bstate → Prop :=
| CacheInv k ds rs c h m a blk :
    kok k → k_mallocs k = [] → 0 <= b → ds !! Z.to_nat b = Some blk →
    block_ok blk → cache_ok b blk c → free_locks c → 0 <= h < 64 →
    cache_inv b (quiet k ds rs c h m a).

(** Sector [x] of device [b], as the file system sees it. *)
Definition disk_view (b : Z) (s : bstate) (x : Z) : option (list Z) :=
  blk ← all_blocks s !! Z.to_nat b; view blk (buffer_cache s) x.

Definition disk_size (b : Z) (s : bstate) : Z :=
  match all_blocks s !! Z.to_nat b with Some blk => bsize blk | None => 0 end.

(** What an access to device [b] leaves alone. *)
Definition frame (b : Z) (s s' : bstate) : Prop :=
  bk s' = bk s ∧ block_by_role s' = block_by_role s ∧ disk_size b s' = disk_size b s ∧
  ∀ d, d ≠ Z.to_nat b → all_blocks s' !! d = all_blocks s !! d.

Lemma view_total blk c x b :
  block_ok blk → cache_ok b blk c → 0 <= x < bsize blk →
  ∃ d, view blk c x = Some d ∧ zlen d = BLOCK_SECTOR_SIZE.
Proof.
  intros Hb Hc Hx. destruct (cached_dec x c) as [(j & e & Hj & <-)|Hno].
  - exists (buffer e). split; [by eapply view_at|by apply (co_entry _ _ _ Hc) in Hj as []].
  - rewrite view_uncached by done.
    destruct (lookup_lt_is_Some_2 (media blk) (Z.to_nat x)) as [d Hd].
    { pose proof (bo_size _ Hb). unfold zlen in *. lia. }
    exists d. split; [done|]. exact (Forall_lookup_1 _ _ _ _ (bo_sectors _ Hb) Hd).
Qed.

(** The result of one access: [after x d'] is the sector array with [d'] in
    sector [x]. *)
Definition access_post (b x : Z) (d' : list Z) (s s' : bstate) : Prop :=
  cache_inv b s' ∧ frame b s s' ∧
  ∀ y, 0 <= y → disk_view b s' y = if decide (y = x) then Some d' else disk_view b s y.

(** An access that leaves entry [e'] in slot [i]. *)
Lemma install_ok k ds ds' rs c c' h h' m m' a a' b blk blk' i e' :
  kok k → k_mallocs k = [] → 0 <= b → ds !! Z.to_nat b = Some blk →
  ds' = <[Z.to_nat b := blk']> ds → block_ok blk' → cache_ok b blk' c' →
  bsize blk' = bsize blk → free_locks c' → 0 <= h' < 64 →
  (∀ y, 0 <= y → view blk' c' y = view blk c y) →
  (i < 64)%nat → entry_ok b blk' e' → sector_lock e' = new_lock →
  (∀ j e, c' !! j = Some (Some e) → (i = j ↔ buffered_sector e = buffered_sector e')) →
  access_post b (buffered_sector e') (buffer e') (quiet k ds rs c h m a)
    (quiet k ds' rs (<[i := Some e']> c') h' m' a').
Proof.
  intros Hk Hmem Hb0 Hl -> Hb' Hc' Hsz Hf Hh Hv Hi He' Hlk Hslot.
  assert (<[Z.to_nat b := blk']> ds !! Z.to_nat b = Some blk') as Hl'
    by (apply list_lookup_insert_eq; by eapply lookup_lt_Some).
  destruct (put_ok b blk' c' i e' Hc' Hi He' Hslot) as [Hc2 Hv2]. split_and!.
  - eapply CacheInv; try done. intros j e. rewrite list_lookup_insert_Some.
    intros [(_ & [= <-] & _)|[_ Hj]]; [done|by apply Hf in Hj].
  - split_and!; try done; unfold disk_size; simpl.
    + by rewrite Hl', Hl.
    + intros d Hd. by rewrite list_lookup_insert_ne.
  - intros y Hy. unfold disk_view. simpl. rewrite Hl', Hl. simpl. rewrite Hv2.
    case_decide; [done|]. by apply Hv.
Qed.

Lemma check_cached_no k sector ds rs c h sm m a :
  kok k → find_sector sector 0 c = None →
  check_sector_cached sector (locked k ds rs c h sm m a)
  = Ok (false, locked k ds rs c h sm m a).
Proof.
  intros Hk Hf. unfold check_sector_cached.
  rewrite (holds_cache_lock k Hk), bind_assert by done. run. simpl.
  rewrite Hf. unfold ret. by rewrite bool_decide_eq_false_2 by (by intros []).
Qed.

(** A miss up to the point where the fresh entry goes into its slot. *)
Lemma miss_ok {B} (K : buffer_entry → Z → M bstate B) Q k b sector ds rs c h m a blk dirty :
  kok k → k_mallocs k = [] → 0 <= b → ds !! Z.to_nat b = Some blk → block_ok blk →
  cache_ok b blk c → free_locks c → 0 <= h < 64 → 0 <= sector < bsize blk →
  find_sector sector 0 c = None →
  (∀ d i blk' c' h', view blk c sector = Some d → 0 <= i < 64 → 0 <= h' < 64 →
     c' !! Z.to_nat i = Some None → block_ok blk' → cache_ok b blk' c' →
     bsize blk' = bsize blk → free_locks c' →
     (∀ y, 0 <= y → view blk' c' y = view blk c y) →
     (∀ j e, c' !! j = Some (Some e) → buffered_sector e ≠ sector) →
     media blk' !! Z.to_nat sector = Some d →
     wp (K (mk_entry sector b d 1 dirty new_lock) i) Q
       (locked k (<[Z.to_nat b := blk']> ds) rs c' h' (mk_sema 63 []) (s32 (m + 1)) a)) →
  wp (let* cur := load_entry b sector dirty in let* i := free_slot in K cur i) Q
    (locked k ds rs c h (mk_sema 63 []) m a).
Proof.
  intros Hk Hmem Hb0 Hl Hb Hc Hf Hh Hx Hno HK.
  pose proof (proj1 (find_sector_None _ _ _) Hno) as Hno'.
  destruct (view_total blk c sector b Hb Hc Hx) as (d & Hd & Hdl).
  pose proof Hd as Hd'. rewrite view_uncached in Hd' by done.
  apply wp_bind. eapply wp_ok; [by eapply load_entry_ok|]. cbv beta.
  destruct (counted_ok b blk c Hb Hc) as [Hb1 Hc1].
  assert (<[Z.to_nat b := counted blk]> ds !! Z.to_nat b = Some (counted blk)) as Hl1
    by (apply list_lookup_insert_eq; by eapply lookup_lt_Some).
  apply wp_bind. eapply wp_mono; [by apply free_slot_ok with (b := b) (blk := counted blk)|].
  intros i s' (blk' & c' & h' & -> & Hi & Hh' & Hn & Hb' & Hc' & Hsz & Hf' & Hsh & Hv).
  rewrite list_insert_insert_eq.
  assert (∀ j e, c' !! j = Some (Some e) → buffered_sector e ≠ sector) as Hno2.
  { intros j e (e0 & He0 & <-)%Hsh. by eapply Hno'. }
  apply HK; auto; try lia.
  rewrite <- view_uncached with (c := c') by done. by rewrite Hv by lia.
Qed.

Lemma to_miss_read n b sector start end_ k ds rs c h m a :
  kok k → find_sector sector 0 c = None →
  read_buffered (S (S n)) b sector start end_ (quiet k ds rs c h m a)
  = (let* cur := load_entry b sector 0 in
     let* offset := free_slot in
     let* data := bounded_read (buffer cur) start end_ in
     put_entry offset (Some cur);;;
     lock_release p_cache_lock;;;
     signal_inactive;;;
     ret data) (locked k ds rs c h (mk_sema 63 []) m a).
Proof.
  intros Hk Hf. simpl. unfold quiet.
  rewrite (bind_ok _ _ _ _ _ (acquire_miss k Hk sector ds rs c h _ m a Hf)). simpl.
  rewrite (acquire_cache_lock k Hk).
  rewrite (bind_ok _ _ _ _ _ (check_cached_no k sector ds rs c h _ m a Hk Hf)).
  by erewrite wait_slot_now; [|exact Hk|done|lia].
Qed.

Lemma to_miss_write n b sector input start end_ k ds rs c h m a :
  kok k → find_sector sector 0 c = None →
  write_buffered (S (S n)) b sector input start end_ (quiet k ds rs c h m a)
  = (let* cur := load_entry b sector 1 in
     let* offset := free_slot in
     let* data := bounded_write input (buffer cur) start end_ in
     put_entry offset (Some (with_data data cur));;;
     lock_release p_cache_lock;;;
     signal_inactive) (locked k ds rs c h (mk_sema 63 []) m a).
Proof.
  intros Hk Hf. simpl. unfold quiet.
  rewrite (bind_ok _ _ _ _ _ (acquire_miss k Hk sector ds rs c h _ m a Hf)). simpl.
  rewrite (acquire_cache_lock k Hk).
  rewrite (bind_ok _ _ _ _ _ (check_cached_no k sector ds rs c h _ m a Hk Hf)).
  by erewrite wait_slot_now; [|exact Hk|done|lia].
Qed.

(** The last steps of every access. *)
Lemma finish_write k ds rs c h m a i e' :
  kok k →
  (put_entry i (Some e');;; lock_release p_cache_lock;;; signal_inactive)
    (locked k ds rs c h (mk_sema 63 []) m a)
  = Ok (tt, quiet k ds rs (<[Z.to_nat i := Some e']> c) h m a).
Proof.
  intros Hk. unfold put_entry. run.
  change (set_cache _ _) with (locked k ds rs (<[Z.to_nat i := Some e']> c) h (mk_sema 63 []) m a).
  rewrite (release_cache_lock k Hk). by apply signal_inactive_ok.
Qed.

Lemma finish_read {B} k ds rs c h m a i e' (f : unit → M bstate B) :
  kok k →
  (put_entry i (Some e');;; lock_release p_cache_lock;;; let* u := signal_inactive in f u)
    (locked k ds rs c h (mk_sema 63 []) m a)
  = f tt (quiet k ds rs (<[Z.to_nat i := Some e']> c) h m a).
Proof.
  intros Hk. rewrite <- (bind_ok _ f _ _ _ (finish_write k ds rs c h m a i e' Hk)).
  rewrite bind_assoc. apply bind_ext. intros [] s. by rewrite bind_assoc.
Qed.

Lemma slot_empty (c : list (option buffer_entry)) i sector :
  c !! i = Some None → (∀ j e, c !! j = Some (Some e) → buffered_sector e ≠ sector) →
  ∀ j e, c !! j = Some (Some e) → (i = j ↔ buffered_sector e = sector).
Proof.
  intros Hi Hno j e Hj. split; [intros <-; congruence|]. intros Heq.
  by apply Hno in Hj.
Qed.

Lemma slot_found b blk c i e :
  cache_ok b blk c → c !! i = Some (Some e) →
  ∀ j e', c !! j = Some (Some e') → (i = j ↔ buffered_sector e' = buffered_sector e).
Proof.
  intros Hc Hi j e' Hj. split; [intros <-; congruence|].
  intros Heq. by eapply (co_distinct _ _ _ Hc).
Qed.

(** The entry that holds a cached sector. *)
Lemma find_hit b blk c sector i :
  cache_ok b blk c → find_sector sector 0 c = Some i →
  ∃ e, 0 <= i ∧ (Z.to_nat i < 64)%nat ∧ c !! Z.to_nat i = Some (Some e) ∧ buffered_sector e = sector ∧
       entry_ok b blk e ∧ view blk c sector = Some (buffer e).
Proof.
  intros Hc Hf. destruct (find_sector_Some _ _ _ _ Hf) as (e & Hi & He & <-).
  rewrite Z.sub_0_r in He. exists e.
  pose proof (lookup_lt_Some _ _ _ He) as Hlt. rewrite (co_len _ _ _ Hc) in Hlt.
  split_and!; try done; [by apply (co_entry _ _ _ Hc) in He|by eapply view_at].
Qed.

Lemma read_refines n b sector start end_ s d :
  cache_inv b s → 0 <= sector < disk_size b s → 0 <= start <= end_ → end_ <= 512 →
  disk_view b s sector = Some d →
  wp (read_buffered (S (S n)) b sector start end_)
    (λ data s', data = slice start (end_ - start) d ∧ access_post b sector d s s') s.
Proof.
  intros [k ds rs c h m a blk Hk Hmem Hb0 Hl Hb Hc Hf Hh] Hx Hse Hend Hd.
  unfold disk_size in Hx. simpl in Hx. rewrite Hl in Hx.
  unfold disk_view in Hd. simpl in Hd. rewrite Hl in Hd. simpl in Hd.
  destruct (find_sector sector 0 c) as [i|] eqn:Hfind.
  - destruct (find_hit b blk c sector i Hc Hfind) as (e & Hi & Hlt & Hce & <- & He & Hv).
    assert (buffer e = d) as <- by congruence.
    eapply wp_ok; [eapply read_hit; try done; [by apply Hf in Hce|]; rewrite (eo_len _ _ _ He); done|].
    split; [done|]. change (buffered_sector e) with (buffered_sector (with_use 1 e)).
    eapply (install_ok k ds ds rs c c h h m m a _ b blk blk (Z.to_nat i) (with_use 1 e));
      try done; [by rewrite list_insert_id|by destruct He; split; simpl; auto| |].
    + by apply Hf in Hce.
    + exact (slot_found b blk c _ e Hc Hce).
  - eapply wp_eq; [by apply to_miss_read|].
    eapply miss_ok; try done.
    intros d' i blk' c' h' Hd' Hi Hh' Hn Hb' Hc' Hsz Hf' Hv Hno Hm.
    assert (d' = d) as -> by congruence.
    destruct (view_total blk c sector b Hb Hc Hx) as (d' & Hd1 & Hdl).
    assert (d' = d) as -> by congruence. simpl. unfold BLOCK_SECTOR_SIZE in Hdl.
    unfold bounded_read, count_access. wp_steps. eapply wp_deref; [by apply load_bytes_ok; lia|].
    eapply wp_eq; [by apply finish_read|]. apply wp_ret. split; [done|].
    eapply (install_ok k ds _ rs c c' h h' m _ a _ b blk blk' (Z.to_nat i)
              (mk_entry sector b d 1 0 new_lock)); try done; [lia|..].
    + split; simpl; auto. by rewrite Hsz.
    + by apply slot_empty.
Qed.

Lemma write_refines n b sector input start end_ s d :
  cache_inv b s → 0 <= sector < disk_size b s → 0 <= start <= end_ → end_ <= 512 →
  end_ - start <= zlen input → disk_view b s sector = Some d →
  wp (write_buffered (S (S n)) b sector input start end_)
    (λ _, access_post b sector (splice start (slice 0 (end_ - start) input) d) s) s.
Proof.
  intros [k ds rs c h m a blk Hk Hmem Hb0 Hl Hb Hc Hf Hh] Hx Hse Hend Hin Hd.
  unfold disk_size in Hx. simpl in Hx. rewrite Hl in Hx.
  unfold disk_view in Hd. simpl in Hd. rewrite Hl in Hd. simpl in Hd.
  destruct (view_total blk c sector b Hb Hc Hx) as (d' & Hd1 & Hdl).
  assert (d' = d) as -> by congruence. unfold BLOCK_SECTOR_SIZE in Hdl.
  assert (zlen (slice 0 (end_ - start) input) = end_ - start) as Hsl
    by (apply zlen_slice; lia).
  set (d2 := splice _ _ d).
  assert (zlen d2 = BLOCK_SECTOR_SIZE) as Hd2 by (subst d2; rewrite zlen_splice; lia || done).
  destruct (find_sector sector 0 c) as [i|] eqn:Hfind.
  - destruct (find_hit b blk c sector i Hc Hfind) as (e & Hi & Hlt & Hce & <- & He & Hv).
    assert (buffer e = d) as <- by congruence.
    eapply wp_ok; [eapply write_hit; try done; [by apply Hf in Hce|lia]|].
    eapply (install_ok k ds ds rs c c h h m m a _ b blk blk (Z.to_nat i)
              (with_data d2 (with_use 1 e)));
      try done; [by rewrite list_insert_id|by destruct He; split; simpl; auto| |].
    + by apply Hf in Hce.
    + exact (slot_found b blk c _ e Hc Hce).
  - eapply wp_eq; [by apply to_miss_write|].
    eapply miss_ok; try done.
    intros d' i blk' c' h' Hd' Hi Hh' Hn Hb' Hc' Hsz Hf' Hv Hno Hm.
    assert (d' = d) as -> by congruence. simpl.
    unfold bounded_write, count_access. wp_steps.
    eapply wp_deref; [by apply load_bytes_ok; lia|].
    eapply wp_deref; [apply store_bytes_ok; lia|].
    eapply wp_ok; [by apply finish_write|].
    eapply (install_ok k ds _ rs c c' h h' m _ a _ b blk blk' (Z.to_nat i)
              (with_data d2 (mk_entry sector b d 1 1 new_lock))); try done; [lia|..].
    + split; simpl; auto; try done. by rewrite Hsz.
    + by apply slot_empty.
Qed.

(** ** Flushing *)

Lemma lock_and_evict k ds rs c h sm m a b blk i e :
  kok k → 0 <= b → ds !! Z.to_nat b = Some blk → block_ok blk → cache_ok b blk c →
  free_locks c → 0 <= i → c !! Z.to_nat i = Some (Some e) →
  (lock_acquire (p_sector_lock i);;; buffer_evict i) (locked k ds rs c h sm m a)
  = Ok (tt, locked k (<[Z.to_nat b := flushed e blk]> ds) rs (<[Z.to_nat i := None]> c) h sm m a).
Proof.
  intros Hk Hb0 Hl Hb Hc Hf Hi Hce. pose proof (co_entry _ _ _ Hc _ _ Hce) as He.
  set (s1 := locked k ds rs c h sm m a).
  assert (entry_at i s1 = Some e) as Hs1 by (by apply entry_at_Some).
  erewrite bind_ok; [|apply (acquire_entry_lock s1 i e); [exact Hk|done|by apply Hf in Hce]].
  change (entry_locked s1 i e (held (me s1))) with
    (locked k ds rs (<[Z.to_nat i := Some (with_lock (held (kme k)) e)]> c) h sm m a).
  erewrite (buffer_evict_ok k Hk b Hb0 rs sm m a ds _ h i (with_lock (held (kme k)) e) blk);
    try done; [by rewrite list_insert_insert_eq|by destruct He; split|].
  apply list_lookup_insert_eq. by eapply lookup_lt_Some.
Qed.

(** All slots below [i] are empty. *)
Definition empty_below (i : Z) (c : list (option buffer_entry)) : Prop :=
  ∀ j e, c !! j = Some (Some e) → i <= Z.of_nat j.

Lemma flush_loop_ok k rs h sm m a b n : ∀ i ds c blk,
  kok k → 0 <= b → ds !! Z.to_nat b = Some blk → block_ok blk → cache_ok b blk c →
  free_locks c → 0 <= i → i + Z.of_nat n = 64 → empty_below i c →
  wp (flush_loop n i)
    (λ _ s', ∃ blk' c', s' = locked k (<[Z.to_nat b := blk']> ds) rs c' h sm m a ∧
       block_ok blk' ∧ cache_ok b blk' c' ∧ bsize blk' = bsize blk ∧ empty_below 64 c' ∧
       ∀ x, 0 <= x → view blk' c' x = view blk c x)
    (locked k ds rs c h sm m a).
Proof.
  induction n as [|n IH]; intros i ds c blk Hk Hb0 Hl Hb Hc Hf Hi Hn He.
  { apply wp_ret. exists blk, c. rewrite list_insert_id by done. split_and!; try done.
    intros j e Hj. apply He in Hj. lia. }
  simpl. apply wp_bind, wp_get. set (s1 := locked k ds rs c h sm m a).
  destruct (entry_at i s1) as [e|] eqn:Hs1.
  - apply entry_at_Some in Hs1 as [_ Hce]. simpl in Hce.
    apply wp_bind. eapply wp_ok; [by apply (lock_and_evict k ds rs c h sm m a b blk i e)|].
    destruct (evict_ok b blk c _ e Hb Hc Hce) as [Hc' Hv].
    pose proof (co_entry _ _ _ Hc _ _ Hce) as Hee.
    eapply wp_mono.
    { apply IH with (blk := flushed e blk); try done; [..|lia|lia|].
      - apply list_lookup_insert_eq. by eapply lookup_lt_Some.
      - by eapply flushed_ok.
      - intros j e'. rewrite list_lookup_insert_Some. intros [(? & ? & ?)|[_ Hj]]; [done|].
        by apply Hf in Hj.
      - intros j e'. rewrite list_lookup_insert_Some. intros [(? & ? & ?)|[Hne Hj]]; [done|].
        apply He in Hj. lia. }
    intros [] s' (blk' & c' & -> & Hb' & Hc2 & Hsz & He' & Hv').
    exists blk', c'. rewrite list_insert_insert_eq. split_and!; try done.
    + rewrite Hsz. apply flushed_shape.
    + intros x Hx. by rewrite Hv', Hv.
  - apply wp_bind, wp_ret. apply (IH (i + 1)); try done; [lia|lia|].
    intros j e Hj. pose proof (He j e Hj). destruct (decide (i = Z.of_nat j)) as [->|]; [|lia].
    exfalso. unfold entry_at in Hs1. simpl in Hs1. rewrite Nat2Z.id, Hj in Hs1.
    by rewrite (proj2 (Z.ltb_ge _ 0)) in Hs1 by lia.
Qed.

(** What device [b] itself holds in sector [x]. *)
Definition on_disk (b : Z) (s : bstate) (x : Z) : option (list Z) :=
  blk ← all_blocks s !! Z.to_nat b; media blk !! Z.to_nat x.

Lemma flush_ok b s :
  cache_inv b s →
  wp flush_buffer_cache
    (λ _ s', cache_inv b s' ∧ frame b s s' ∧
       ∀ x, 0 <= x → disk_view b s' x = disk_view b s x ∧ on_disk b s' x = disk_view b s x) s.
Proof.
  intros [k ds rs c h m a blk Hk Hmem Hb0 Hl Hb Hc Hf Hh]. unfold flush_buffer_cache.
  eapply wp_eq; [by apply acquire_cache_lock|]. apply wp_bind.
  eapply wp_mono; [apply (flush_loop_ok k rs h _ m a b 64 0 ds c blk); try done; intros j e _; lia|].
  intros [] s' (blk' & c' & -> & Hb' & Hc' & Hsz & He & Hv).
  eapply wp_ok; [apply lock_release_held; [sync|exact Hk|done]|].
  assert (<[Z.to_nat b := blk']> ds !! Z.to_nat b = Some blk') as Hl'
    by (apply list_lookup_insert_eq; by eapply lookup_lt_Some).
  assert (∀ j e, c' !! j = Some (Some e) → False) as Hnone.
  { intros j e Hj. pose proof (He j e Hj). apply lookup_lt_Some in Hj.
    rewrite (co_len _ _ _ Hc') in Hj. lia. }
  split_and!.
  - eapply CacheInv; try done. intros j e Hj. by apply Hnone in Hj.
  - split_and!; try done; unfold disk_size; simpl; [by rewrite Hl, Hl'|].
    intros d Hd. by rewrite list_lookup_insert_ne.
  - intros x Hx. unfold disk_view, on_disk. simpl. rewrite Hl, Hl'. simpl.
    rewrite Hv by done. split; [done|]. rewrite <- (Hv x) by done.
    symmetry. apply view_uncached. intros j e Hj. by apply Hnone in Hj.
Qed.

(** ** The cache against an array of sectors *)

Inductive access :=
| Read (sector start end_ : Z)
| Write (sector : Z) (input : list Z) (start end_ : Z)
| Flush.

Definition perform (b : Z) (op : access) : M bstate (list Z) :=
  match op with
  | Read x st en => read_buffered 2 b x st en
  | Write x input st en => write_buffered 2 b x input st en;;; ret []
  | Flush => flush_buffer_cache;;; ret []
  end.

Fixpoint perform_all (b : Z) (ops : list access) : M bstate (list (list Z)) :=
  match ops with
  | [] => ret []
  | op :: ops =>
      let* r := perform b op in
      let* rs := perform_all b ops in
      ret (r :: rs)
  end.

(** The same accesses on a plain array of sectors. *)
Definition array_step (op : access) (disk : list (list Z)) : list Z * list (list Z) :=
  match op with
  | Read x st en => (slice st (en - st) (default [] (disk !! Z.to_nat x)), disk)
  | Write x input st en =>
      ([], <[Z.to_nat x := splice st (slice 0 (en - st) input)
                             (default [] (disk !! Z.to_nat x))]> disk)
  | Flush => ([], disk)
  end.

Fixpoint array_run (ops : list access) (disk : list (list Z)) :
    list (list Z) * list (list Z) :=
  match ops with
  | [] => ([], disk)
  | op :: ops =>
      let r := array_step op disk in
      let rs := array_run ops r.2 in
      (r.1 :: rs.1, rs.2)
  end.

Definition valid_access (size : Z) (op : access) : Prop :=
  match op with
  | Read x st en => 0 <= x < size ∧ 0 <= st <= en ∧ en <= 512
  | Write x input st en => 0 <= x < size ∧ 0 <= st <= en ∧ en <= 512 ∧ en - st <= zlen input
  | Flush => True
  end.

(** The state stands for the array [disk]. *)
Definition represents (b : Z) (disk : list (list Z)) (s : bstate) : Prop :=
  cache_inv b s ∧ disk_size b s = zlen disk ∧
  ∀ x, 0 <= x < zlen disk → disk_view b s x = disk !! Z.to_nat x.

Lemma access_represents b x d disk s s' :
  represents b disk s → 0 <= x < zlen disk → access_post b x d s s' →
  represents b (<[Z.to_nat x := d]> disk) s'.
Proof.
  intros (Hi & Hs & Hv) Hx (Hi' & (_ & _ & Hs' & _) & Hv').
  assert (zlen (<[Z.to_nat x := d]> disk) = zlen disk) as Hz
    by (unfold zlen; by rewrite length_insert).
  split_and!; [done|congruence|]. intros y Hy. rewrite Hz in Hy. rewrite Hv' by lia.
  case_decide as E; [subst y|].
  - symmetry. apply list_lookup_insert_eq. unfold zlen in *. lia.
  - rewrite list_lookup_insert_ne by lia. by apply Hv.
Qed.

Lemma perform_ok b op disk s :
  represents b disk s → valid_access (zlen disk) op →
  wp (perform b op)
    (λ r s', r = (array_step op disk).1 ∧ represents b (array_step op disk).2 s' ∧
             bk s' = bk s) s.
Proof.
  intros HR Hop. pose proof HR as (Hi & Hs & Hv).
  assert (∀ x, 0 <= x < zlen disk → ∃ d, disk !! Z.to_nat x = Some d) as Hd.
  { intros x Hx. apply lookup_lt_is_Some_2. unfold zlen in *. lia. }
  destruct op as [x st en|x input st en|];
    cbn [perform array_step valid_access fst snd] in *.
  - destruct Hop as (Hx & Hst & Hen). destruct (Hd x Hx) as [d Hdx].
    eapply wp_mono.
    { apply read_refines with (d := d); try done; [lia|]. by rewrite Hv. }
    intros r s' [-> Hpost]. rewrite Hdx. split_and!; [done| |apply Hpost].
    rewrite <- (list_insert_id disk _ _ Hdx). by eapply access_represents.
  - destruct Hop as (Hx & Hst & Hen & Hin). destruct (Hd x Hx) as [d Hdx].
    apply wp_bind. eapply wp_mono.
    { apply write_refines with (d := d); try done; [lia|]. by rewrite Hv. }
    intros [] s' Hpost. apply wp_ret. rewrite Hdx. split_and!; [done| |apply Hpost].
    by eapply access_represents.
  - apply wp_bind. eapply wp_mono; [by apply flush_ok|].
    intros [] s' (Hi' & Hf & Hv'). apply wp_ret. split_and!; [done| |apply Hf].
    split_and!; [done|destruct Hf as (_ & _ & -> & _); done|].
    intros x Hx. rewrite (proj1 (Hv' x ltac:(lia))). by apply Hv.
Qed.

Lemma array_step_len op disk : zlen (array_step op disk).2 = zlen disk.
Proof. destruct op; simpl; try done. unfold zlen. by rewrite length_insert. Qed.

Lemma perform_all_ok b ops : ∀ disk s,
  represents b disk s → Forall (valid_access (zlen disk)) ops →
  wp (perform_all b ops)
    (λ rs s', rs = (array_run ops disk).1 ∧ represents b (array_run ops disk).2 s' ∧
              bk s' = bk s) s.
Proof.
  induction ops as [|op ops IH]; intros disk s HR Hops; [by apply wp_ret|].
  apply wp_bind. eapply wp_mono; [apply perform_ok; [done|by apply Forall_inv in Hops]|].
  intros r s1 (-> & HR1 & Hk1). apply wp_bind. eapply wp_mono.
  { apply IH; [exact HR1|]. rewrite array_step_len. by apply Forall_inv_tail in Hops. }
  intros rs s2 (-> & HR2 & Hk2). apply wp_ret. split_and!; [done..|congruence].
Qed.

(** init_buffer_cache() on a machine with a usable device. *)
Lemma init_ok b s blk :
  kok (bk s) → k_mallocs (bk s) = [] → 0 <= b → all_blocks s !! Z.to_nat b = Some blk →
  block_ok blk →
  wp init_buffer_cache (λ _ s', represents b (media blk) s') s.
Proof.
  intros Hk Hm Hb0 Hl Hb. unfold init_buffer_cache, lock_init, sema_init, cond_init. wp_steps.
  simpl. assert (∀ j e, replicate 64 (@None buffer_entry) !! j = Some (Some e) → False) as Hno.
  { intros j e Hj. by apply lookup_replicate_1 in Hj as [? _]. }
  split_and!.
  - eapply CacheInv; try done; [|by intros j e ?%Hno].
    split; [done|by intros j e ?%Hno|by intros i j e e' ?%Hno].
  - unfold disk_size. simpl. rewrite Hl. symmetry. apply Hb.
  - intros x Hx. unfold disk_view. simpl. rewrite Hl. simpl.
    apply view_uncached. by intros j e ?%Hno.
Qed.

(** ** Checking the invariant on a concrete state *)

Definition entry_check (b : Z) (blk : block) (oe : option buffer_entry) : bool :=
  match oe with
  | None => true
  | Some e =>
      (sector_block e =? b) && (0 <=? buffered_sector e) && (buffered_sector e <? bsize blk) &&
      (zlen (buffer e) =? 512) && ((use_bit e =? 0) || (use_bit e =? 1)) &&
      (negb (dirty_bit e =? 0) ||
       bool_decide (media blk !! Z.to_nat (buffered_sector e) = Some (buffer e))) &&
      bool_decide (holder (sector_lock e) = None) && (value (sema_of (sector_lock e)) =? 1) &&
      bool_decide (waiters (sema_of (sector_lock e)) = [])
  end.

(** No sector of [c] is cached a second time further on. *)
Fixpoint distinct_check (c : list (option buffer_entry)) : bool :=
  match c with
  | [] => true
  | None :: c => distinct_check c
  | Some e :: c =>
      bool_decide (find_sector (buffered_sector e) 0 c = None) && distinct_check c
  end.

Definition block_check (blk : block) : bool :=
  (zlen (media blk) =? bsize blk) && forallb (λ d, zlen d =? 512) (media blk) &&
  bool_decide (btype blk ≠ BLOCK_FOREIGN).

Lemma distinct_check_ok c :
  distinct_check c = true →
  ∀ i j e e', c !! i = Some (Some e) → c !! j = Some (Some e') →
    buffered_sector e = buffered_sector e' → i = j.
Proof.
  induction c as [|[e0|] c IH]; simpl; [done|..].
  - intros [Hn%bool_decide_eq_true Hc]%andb_true_iff.
    rewrite (find_sector_None _ _ 0) in Hn.
    intros [|i] [|j] e e' Hi Hj Heq; simpl in *; simplify_eq; try done.
    + exfalso. by eapply Hn.
    + exfalso. by eapply Hn.
    + f_equal. by eapply (IH Hc).
  - intros Hc [|i] [|j] e e' Hi Hj Heq; simpl in *; simplify_eq. f_equal. by eapply (IH Hc).
Qed.

Lemma entry_check_ok b blk e :
  entry_check b blk (Some e) = true → entry_ok b blk e ∧ sector_lock e = new_lock.
Proof.
  unfold entry_check. rewrite !andb_true_iff, !orb_true_iff, !bool_decide_eq_true.
  intros ((((((((H1 & H2) & H3) & H4) & H5) & H6) & H7) & H8) & H9).
  apply Z.eqb_eq in H1, H4, H8. apply Z.leb_le in H2. apply Z.ltb_lt in H3. split.
  - split; try done.
    + destruct H5 as [H5|H5]; apply Z.eqb_eq in H5; auto.
    + intros Hd. destruct H6 as [H6|H6]; [|done]. by rewrite Hd in H6.
  - destruct (sector_lock e) as [? []]; simpl in *. by subst.
Qed.

Lemma block_check_ok blk : block_check blk = true → block_ok blk.
Proof.
  unfold block_check. rewrite !andb_true_iff, bool_decide_eq_true. intros [[H1 H2] H3].
  split; [by apply Z.eqb_eq| |done]. apply Forall_forall. intros d Hd.
  rewrite forallb_forall in H2. apply Z.eqb_eq, H2. by apply list_elem_of_In.
Qed.

(** The whole invariant, for states with nobody waiting. *)
Definition cache_check (b : Z) (s : bstate) : bool :=
  match all_blocks s !! Z.to_nat b with
  | None => false
  | Some blk =>
      block_check blk && (0 <=? b) && (zlen (buffer_cache s) =? 64) &&
      forallb (entry_check b blk) (buffer_cache s) && distinct_check (buffer_cache s) &&
      (0 <=? clock_hand s) && (clock_hand s <? 64)
  end.

Lemma cache_check_ok b s :
  cache_check b s = true → kok (bk s) → k_mallocs (bk s) = [] →
  buffer_cache_lock s = new_lock → active_sema s = mk_sema 64 [] →
  inactive_entry s = mk_cond [] → inactive_lock s = new_lock → cache_inv b s.
Proof.
  unfold cache_check. destruct (all_blocks s !! Z.to_nat b) as [blk|] eqn:Hb; [|done].
  rewrite !andb_true_iff. intros ((((((H1 & H2) & H3) & H4) & H5) & H6) & H7) Hk Hm E1 E2 E3 E4.
  apply Z.leb_le in H2, H6. apply Z.ltb_lt in H7. apply Z.eqb_eq in H3.
  rewrite forallb_forall in H4.
  assert (∀ i e, buffer_cache s !! i = Some (Some e) → entry_check b blk (Some e) = true) as He.
  { intros i e Hi. apply H4. apply list_elem_of_In. by eapply list_elem_of_lookup_2. }
  destruct s as [k ds rs c h bcl asm ie il m a]; simpl in *. subst.
  apply (CacheInv b k ds rs c h m a blk); try done; [by apply block_check_ok| |].
  - split; [unfold zlen in H3; lia| |by apply distinct_check_ok].
    intros i e Hi. apply He in Hi. by apply entry_check_ok.
  - intros i e Hi. apply He in Hi. by apply entry_check_ok in Hi as [_ ?].
Qed.

(** ** Properties *)

(** C1. The buffer cache refines an array of sectors.  From any state that
    stands for the array [disk], any sequence of valid reads, writes and
    flushes returns, returns the bytes the same sequence returns on the plain
    array, and leaves a state that stands for the resulting array: hits,
    misses, evictions and write-backs are invisible. *)
Theorem cache_refines_array b ops disk s :
  represents b disk s → Forall (valid_access (zlen disk)) ops →
  wp (perform_all b ops)
    (λ rs s', rs = (array_run ops disk).1 ∧ represents b (array_run ops disk).2 s') s.
Proof.
  intros HR Hops. eapply wp_mono; [by apply perform_all_ok|]. naive_solver.
Qed.

(** A machine with one device of 100 zeroed sectors and an initialised cache. *)
Definition demo_media : list (list Z) := replicate 100 (replicate 512 0).
Definition demo_dev : block := mk_block [104; 100; 97] BLOCK_FILESYS 100 demo_media 0 0.
Definition demo_machine : bstate :=
  quiet (mk_kernel booted ∅ []) [demo_dev] [] (replicate 64 None) 0 0 0.

Lemma demo_dev_ok : block_ok demo_dev.
Proof. split; [done| |done]. by apply Forall_replicate. Qed.

Lemma demo_represents : represents 0 demo_media demo_machine.
Proof.
  assert (wp init_buffer_cache (λ _ s', represents 0 (media demo_dev) s') demo_machine) as H.
  { apply init_ok; [split; vm_compute; reflexivity|done..|apply demo_dev_ok]. }
  exact H.
Qed.

(** Seventy writes fill the cache and evict, then every sector is read back. *)
Definition demo_ops : list access :=
  ((λ i : nat, Write (Z.of_nat i) [Z.of_nat i; 7] 10 12) <$> seq 0 70) ++
  ((λ i : nat, Read (Z.of_nat i) 10 11) <$> seq 0 70).

Lemma cache_refines_array_witness :
  wp (perform_all 0 demo_ops)
    (λ rs s', rs = replicate 70 [] ++ ((λ i : nat, [Z.of_nat i]) <$> seq 0 70)) demo_machine.
Proof.
  eapply wp_mono.
  { apply (cache_refines_array 0 demo_ops demo_media demo_machine demo_represents).
    change (zlen demo_media) with 100.
    unfold demo_ops. apply Forall_app. split; apply Forall_fmap, Forall_seq; intros j Hj;
      unfold compose, valid_access; [change (zlen [Z.of_nat j; 7]) with 2|]; lia. }
  intros rs s' [-> _]. vm_compute. reflexivity.
Defined.

(** C30. flush_buffer_cache() is durable: it returns, every sector of the
    device then holds what the file system last wrote to it, nothing a reader
    sees has changed, and no other device is touched. *)
Theorem flush_durable b s :
  cache_inv b s →
  wp flush_buffer_cache
    (λ _ s', cache_inv b s' ∧ frame b s s' ∧
       ∀ x, 0 <= x → disk_view b s' x = disk_view b s x ∧ on_disk b s' x = disk_view b s x) s.
Proof. apply flush_ok. Qed.

(** A write leaves its sector in the cache only. *)
Definition demo_write : list access := [Write 5 [1; 2] 10 12].
Definition demo_dirty : bstate :=
  match perform_all 0 demo_write demo_machine with Ok (_, s) => s | _ => demo_machine end.

Lemma demo_dirty_represents : represents 0 (array_run demo_write demo_media).2 demo_dirty.
Proof.
  assert (Forall (valid_access (zlen demo_media)) demo_write) as Hv.
  { constructor; [|constructor]. unfold valid_access. change (zlen demo_media) with 100. change (zlen [1; 2]) with 2. lia. }
  pose proof (perform_all_ok 0 demo_write demo_media demo_machine demo_represents Hv) as H.
  revert H. unfold wp, demo_dirty. generalize (array_run demo_write demo_media) as r.
  destruct (perform_all 0 demo_write demo_machine) as [[rs s]| | | |]; [|intros r []..]. intros r (_ & H & _). exact H.
Qed.

Lemma flush_durable_witness :
  on_disk 0 demo_dirty 5 = Some (replicate 512 0) ∧
  wp flush_buffer_cache (λ _ s', on_disk 0 s' 5 = Some (replicate 10 0 ++ [1; 2] ++ replicate 500 0)) demo_dirty.
Proof.
  split; [vm_compute; reflexivity|]. destruct demo_dirty_represents as (Hi & _ & Hd).
  eapply wp_mono; [apply (flush_durable 0 demo_dirty Hi)|].
  intros [] s' (_ & _ & Hv). rewrite (proj2 (Hv 5 ltac:(lia))), (Hd 5) by (vm_compute; split; [discriminate|reflexivity]).
  vm_compute. reflexivity.
Defined.

(** The clock finds a victim: whenever some slot is empty or its entry is
    not locked by another thread, clock_algorithm_evict() returns the index of
    a slot it has emptied after at most two turns of the hand, whatever the
    use bits and whatever other entries are locked, and no reader sees a
    different sector. *)
Theorem clock_evicts k b rs sm m a ds blk c h j :
  kok k → 0 <= b → ds !! Z.to_nat b = Some blk → block_ok blk → cache_ok b blk c →
  others_locks k c → 0 <= h < 64 → can_take c j →
  wp clock_algorithm_evict (clock_post k b rs sm m a ds blk c) (locked k ds rs c h sm m a).
Proof. intros. by apply clock_algorithm_ok with (j := j). Qed.

(** Every slot is taken; all entries but number 40 are locked by thread 9. *)
Definition demo_full : list (option buffer_entry) :=
  (λ i : nat, Some (mk_entry (Z.of_nat i) 0 (replicate 512 0) 1 0
     (if decide (i = 40%nat) then new_lock else held 9))) <$> seq 0 64.

Lemma demo_full_lookup i e :
  demo_full !! i = Some (Some e) →
  (i < 64)%nat ∧ e = mk_entry (Z.of_nat i) 0 (replicate 512 0) 1 0
                       (if decide (i = 40%nat) then new_lock else held 9).
Proof.
  unfold demo_full. rewrite list_lookup_fmap_Some. intros (j & [= ->] & Hj).
  apply lookup_seq in Hj as [-> Hlt]. done.
Qed.

Lemma clock_evicts_witness :
  wp clock_algorithm_evict
    (λ i _, 0 <= i < 64)
    (locked (mk_kernel booted ∅ []) [demo_dev] [] demo_full 3 (mk_sema 63 []) 0 0).
Proof.
  eapply wp_mono.
  { apply (clock_evicts (mk_kernel booted ∅ []) 0 [] (mk_sema 63 []) 0 0 [demo_dev] demo_dev
             demo_full 3 40); try done; [apply demo_dev_ok|..].
    - split; [reflexivity|..].
      + intros i e [Hi ->]%demo_full_lookup. split; try done.
        * cbn [buffered_sector bsize demo_dev]. lia.
        * by right.
        * intros _. cbn [buffered_sector buffer media demo_dev]. rewrite Nat2Z.id.
          unfold demo_media. apply lookup_replicate_2. lia.
      + intros i i' e e' [Hi ->]%demo_full_lookup [Hi' ->]%demo_full_lookup.
        cbn [buffered_sector]. lia.
    - intros i e [Hi ->]%demo_full_lookup. cbn [sector_lock]. case_decide; [by left|right].
      by exists 9, [].
    - split; [lia|]. intros e [Hi ->]%demo_full_lookup. done. }
  intros i s' (blk' & c' & h' & _ & Hi & _). done.
Defined.

(** The cache is searched by sector number only: once a sector of one
    device is cached, a read of the same sector number of any other device
    returns the first device's bytes. *)
Theorem read_ignores_device b b' sector start end_ n s i e :
  cache_inv b s → find_sector sector 0 (buffer_cache s) = Some i →
  entry_at i s = Some e → 0 <= start <= end_ → end_ <= 512 →
  wp (read_buffered (S n) b' sector start end_)
    (λ data _, data = slice start (end_ - start) (buffer e)) s.
Proof.
  intros [k ds rs c h m a blk Hk Hmem Hb0 Hl Hb Hc Hf Hh] Hfind [Hi0 Hi]%entry_at_Some Hse Hend.
  simpl in *. pose proof (co_entry _ _ _ Hc _ _ Hi) as He.
  eapply wp_ok; [eapply read_hit; try done; [by apply Hf in Hi|]; rewrite (eo_len _ _ _ He); done|].
  done.
Qed.

(** Sector 5 of device 0 is cached; device 1 has other bytes there. *)
Definition demo_two : bstate :=
  quiet (mk_kernel booted ∅ [])
    [demo_dev; mk_block [104; 100; 98] BLOCK_SCRATCH 100 (replicate 100 (replicate 512 255)) 0 0]
    [] (<[3%nat := Some (mk_entry 5 0 (replicate 512 0) 1 0 new_lock)]> (replicate 64 None)) 0 0 0.

Lemma read_ignores_device_witness :
  wp (read_buffered 1 1 5 0 4) (λ data _, data = [0; 0; 0; 0]) demo_two.
Proof.
  eapply wp_mono.
  { apply (read_ignores_device 0 1 5 0 4 0 demo_two 3
             (mk_entry 5 0 (replicate 512 0) 1 0 new_lock)); try done.
    eapply CacheInv with (blk := demo_dev); try done; [apply demo_dev_ok|..].
    - split; [done|..].
      + intros i e. rewrite list_lookup_insert_Some, lookup_replicate.
        intros [(<- & [= <-] & _)|[_ [? _]]]; [|done]. split; simpl; auto; done.
      + intros i j e e'. rewrite !list_lookup_insert_Some, !lookup_replicate. naive_solver.
    - intros i e. rewrite list_lookup_insert_Some, lookup_replicate.
      by intros [(<- & [= <-] & _)|[_ [? _]]]. }
  intros data s' ->. reflexivity.
Defined.

(** Threads 1, running, and 2, ready; 64 accesses are in progress, so that no
    entry is inactive.  [e] is what slot 3 holds. *)
Definition contended (e : option buffer_entry) : bstate :=
  mk_bstate (mk_kernel (k_sched (fst demo_lock)) ∅ []) [demo_dev] []
    (<[3%nat := e]> (replicate 64 None)) 0 new_lock (mk_sema 0 []) (mk_cond []) new_lock 0 0.

Definition demo_entry : buffer_entry := mk_entry 5 0 (replicate 512 0) 1 0 new_lock.

(** Thread 2 finishes its access, runs [m], and yields. *)
Definition other_thread (m : M bstate unit) : M bstate unit :=
  signal_inactive;;; m;;; on_sched thread_yield_switch.

(** A reader that has to wait, what thread 2 then does, and the reader's
    outcome. *)
Definition woken (reader : M bstate (list Z)) (m : M bstate unit) (s : bstate) :
    outcome bstate (list Z) :=
  match reader s with
  | Blocked s1 r =>
      match other_thread m s1 with
      | Ok (_, s2) => r s2
      | _ => NoFuel
      end
  | _ => NoFuel
  end.

(** A thread that waits for an inactive entry panics the kernel when it is
    woken.  In read_buffered() the sector is still cached, and
    check_buffer_presence() asserts a lock that acquire_buffer_entry_lock() has
    already released; in read_not_buffered() another thread has cached the
    sector meanwhile, and read_buffered() is called with the cache lock still
    held. *)
Theorem woken_reader_panics :
  woken (read_buffered 4 0 5 0 4) (ret tt) (contended (Some demo_entry)) = Panic ∧
  woken (read_not_buffered 4 0 5 0 4) (read_buffered 4 0 5 0 4;;; ret tt) (contended None)
    = Panic.
Proof. split; vm_compute; reflexivity. Qed.

End Block.
