(* ===== verification/FsState.v ===== *)
(** * FsState: the state of the file system

    [SectorStore] is what the file system relies on: a store of 512-byte
    sectors that reads and writes byte ranges of single sectors.  The buffer
    cache of devices/block.c is an instance ([cache_store]); the files above
    this one are written against the class.  [fstate] is the memory of
    filesys/*.c: the in-memory inodes and open files, the free map, and the
    locks and counters of these files. *)

From Stdlib Require Import ZArith Lia.
From stdpp Require Import base tactics option list numbers gmap.
From S2P Require Import Prelude Bitmap Sched Synch Block.
Import Bitmap Sched Synch Block.

Module FsState.

(** ** The sector store *)

(** [ss_view d x] is the contents of sector [x].  The laws: an access to a
    sector of the device returns, a read returns the bytes of the sector and
    changes none, a write changes the bytes it names and no other sector, and
    neither touches the rest of the kernel. *)
Class SectorStore (D : Type) `{Kernel D} := {
  ss_read : Z → Z → Z → M D (list Z);
  ss_write : Z → list Z → Z → Z → M D unit;
  ss_flush : M D unit;
  ss_sectors : M D Z;
  ss_inv : D → Prop;
  ss_view : D → Z → option (list Z);
  ss_size : D → Z;
  ss_kernel_ok : ∀ d, ss_inv d → kernel_ok d ∧ k_mallocs (kget d) = [];
  ss_total : ∀ d x, ss_inv d → 0 <= x < ss_size d →
    ∃ b, ss_view d x = Some b ∧ zlen b = BLOCK_SECTOR_SIZE;
  ss_read_ok : ∀ d x st en b, ss_inv d → 0 <= x < ss_size d → 0 <= st <= en → en <= 512 →
    ss_view d x = Some b →
    wp (ss_read x st en)
      (λ r d', r = slice st (en - st) b ∧ ss_inv d' ∧ kget d' = kget d ∧
               ss_size d' = ss_size d ∧ ∀ y, 0 <= y → ss_view d' y = ss_view d y) d;
  ss_write_ok : ∀ d x data st en b, ss_inv d → 0 <= x < ss_size d → 0 <= st <= en →
    en <= 512 → en - st <= zlen data → ss_view d x = Some b →
    wp (ss_write x data st en)
      (λ _ d', ss_inv d' ∧ kget d' = kget d ∧ ss_size d' = ss_size d ∧
         ∀ y, 0 <= y → ss_view d' y =
           if decide (y = x) then Some (splice st (slice 0 (en - st) data) b)
           else ss_view d y) d;
  ss_sectors_ok : ∀ d, ss_inv d → ss_sectors d = Ok (ss_size d, d);
  ss_inv_kernel : ∀ d k, ss_inv d → kok k → k_mallocs k = [] → ss_inv (kset k d);
  ss_view_kernel : ∀ d k x, ss_view (kset k d) x = ss_view d x;
  ss_size_kernel : ∀ d k, ss_size (kset k d) = ss_size d
}.

(** ** In-memory inodes, open files and the rest *)

Definition INODE_MAGIC : Z := 1229868868.   (* 0x494e4f44 *)
Definition FREE_MAP_SECTOR : Z := 0.
Definition ROOT_DIR_SECTOR : Z := 1.

(** struct inode; the members extending, length and the two condition
    variables are never used. *)
Record inode := mk_inode {
  i_sector : Z;
  open_cnt : Z;
  removed : bool;
  deny_write_cnt : Z;
  i_magic : Z;
  inode_lock : lock;
  inode_dir_lock : lock
}.

Record file := mk_file {
  f_inode : Z;
  pos : Z;
  deny_write : bool
}.

(** struct dir of filesys/directory.c. *)
Record dir := mk_dir {
  d_inode : Z;
  d_pos : Z
}.

(** Inodes, files and directories are named by the address malloc() gave
    them; [next_ptr] is the next one. *)
Record fstate (D : Type) := mk_fstate {
  disk : D;
  inodes : gmap Z inode;
  files : gmap Z file;
  dirs : gmap Z dir;
  next_ptr : Z;
  open_inodes : list Z;
  open_lock : lock;
  close_first : bool;
  close_ll : lock;
  free_map : bitmap;
  free_map_file : option Z;
  da_lock : lock;
  sectors : Z;
  g_inodes_created : Z;
  g_inodes_freed : Z;
  g_file_calloc : Z;
  g_file_freed : Z
}.
Arguments mk_fstate {D}.
Arguments disk {D}.
Arguments inodes {D}.
Arguments files {D}.
Arguments dirs {D}.
Arguments next_ptr {D}.
Arguments open_inodes {D}.
Arguments open_lock {D}.
Arguments close_first {D}.
Arguments close_ll {D}.
Arguments free_map {D}.
Arguments free_map_file {D}.
Arguments da_lock {D}.
Arguments sectors {D}.
Arguments g_inodes_created {D}.
Arguments g_inodes_freed {D}.
Arguments g_file_calloc {D}.
Arguments g_file_freed {D}.

Section state.
Context {D : Type}.
Implicit Type s : fstate D.

Definition set_disk (d : D) s : fstate D :=
  mk_fstate d (inodes s) (files s) (dirs s) (next_ptr s) (open_inodes s) (open_lock s)
    (close_first s) (close_ll s) (free_map s) (free_map_file s) (da_lock s) (sectors s)
    (g_inodes_created s) (g_inodes_freed s) (g_file_calloc s) (g_file_freed s).
Definition set_inodes (f : gmap Z inode → gmap Z inode) s : fstate D :=
  mk_fstate (disk s) (f (inodes s)) (files s) (dirs s) (next_ptr s) (open_inodes s)
    (open_lock s) (close_first s) (close_ll s) (free_map s) (free_map_file s) (da_lock s)
    (sectors s) (g_inodes_created s) (g_inodes_freed s) (g_file_calloc s) (g_file_freed s).
Definition set_files (f : gmap Z file → gmap Z file) s : fstate D :=
  mk_fstate (disk s) (inodes s) (f (files s)) (dirs s) (next_ptr s) (open_inodes s)
    (open_lock s) (close_first s) (close_ll s) (free_map s) (free_map_file s) (da_lock s)
    (sectors s) (g_inodes_created s) (g_inodes_freed s) (g_file_calloc s) (g_file_freed s).
Definition set_dirs (f : gmap Z dir → gmap Z dir) s : fstate D :=
  mk_fstate (disk s) (inodes s) (files s) (f (dirs s)) (next_ptr s) (open_inodes s)
    (open_lock s) (close_first s) (close_ll s) (free_map s) (free_map_file s) (da_lock s)
    (sectors s) (g_inodes_created s) (g_inodes_freed s) (g_file_calloc s) (g_file_freed s).
Definition set_next (p : Z) s : fstate D :=
  mk_fstate (disk s) (inodes s) (files s) (dirs s) p (open_inodes s) (open_lock s)
    (close_first s) (close_ll s) (free_map s) (free_map_file s) (da_lock s) (sectors s)
    (g_inodes_created s) (g_inodes_freed s) (g_file_calloc s) (g_file_freed s).
Definition set_open_inodes (f : list Z → list Z) s : fstate D :=
  mk_fstate (disk s) (inodes s) (files s) (dirs s) (next_ptr s) (f (open_inodes s))
    (open_lock s) (close_first s) (close_ll s) (free_map s) (free_map_file s) (da_lock s)
    (sectors s) (g_inodes_created s) (g_inodes_freed s) (g_file_calloc s) (g_file_freed s).
Definition set_close (b : bool) (l : lock) s : fstate D :=
  mk_fstate (disk s) (inodes s) (files s) (dirs s) (next_ptr s) (open_inodes s) (open_lock s)
    b l (free_map s) (free_map_file s) (da_lock s) (sectors s)
    (g_inodes_created s) (g_inodes_freed s) (g_file_calloc s) (g_file_freed s).
Definition set_free_map (m : bitmap) s : fstate D :=
  mk_fstate (disk s) (inodes s) (files s) (dirs s) (next_ptr s) (open_inodes s) (open_lock s)
    (close_first s) (close_ll s) m (free_map_file s) (da_lock s) (sectors s)
    (g_inodes_created s) (g_inodes_freed s) (g_file_calloc s) (g_file_freed s).
Definition set_free_map_file (f : option Z) s : fstate D :=
  mk_fstate (disk s) (inodes s) (files s) (dirs s) (next_ptr s) (open_inodes s) (open_lock s)
    (close_first s) (close_ll s) (free_map s) f (da_lock s) (sectors s)
    (g_inodes_created s) (g_inodes_freed s) (g_file_calloc s) (g_file_freed s).
Definition set_counters (sec created freed calloc ffreed : Z) s : fstate D :=
  mk_fstate (disk s) (inodes s) (files s) (dirs s) (next_ptr s) (open_inodes s) (open_lock s)
    (close_first s) (close_ll s) (free_map s) (free_map_file s) (da_lock s) sec
    created freed calloc ffreed.

#[global, program] Instance fstate_kernel `{Kernel D} : Kernel (fstate D) := {|
  kget := λ s, kget (disk s);
  kset := λ k s, set_disk (kset k (disk s)) s
|}.
Next Obligation. intros ? k s. simpl. by rewrite kget_kset. Qed.
Next Obligation. intros ? s. cbv beta. rewrite kset_kget. by destruct s. Qed.
Next Obligation. intros ? k k' s. unfold set_disk. simpl. by rewrite kset_kset. Qed.

(** Run a routine of the block layer, or of the free map's bitmap. *)
Definition on_store {A} (m : M D A) : M (fstate D) A := lift disk set_disk m.
Definition on_map {A} (m : M bitmap A) : M (fstate D) A := lift free_map set_free_map m.

(** ** Locks *)

Definition p_open_lock : ptr (fstate D) lock :=
  mk_ptr (λ s, Some (open_lock s))
    (λ l s, mk_fstate (disk s) (inodes s) (files s) (dirs s) (next_ptr s) (open_inodes s) l
       (close_first s) (close_ll s) (free_map s) (free_map_file s) (da_lock s) (sectors s)
       (g_inodes_created s) (g_inodes_freed s) (g_file_calloc s) (g_file_freed s)).
Definition p_da_lock : ptr (fstate D) lock :=
  mk_ptr (λ s, Some (da_lock s))
    (λ l s, mk_fstate (disk s) (inodes s) (files s) (dirs s) (next_ptr s) (open_inodes s)
       (open_lock s) (close_first s) (close_ll s) (free_map s) (free_map_file s) l (sectors s)
       (g_inodes_created s) (g_inodes_freed s) (g_file_calloc s) (g_file_freed s)).

Definition with_inode_lock (l : lock) (nd : inode) : inode :=
  mk_inode (i_sector nd) (open_cnt nd) (removed nd) (deny_write_cnt nd) (i_magic nd) l
    (inode_dir_lock nd).
Definition with_dir_lock (l : lock) (nd : inode) : inode :=
  mk_inode (i_sector nd) (open_cnt nd) (removed nd) (deny_write_cnt nd) (i_magic nd)
    (inode_lock nd) l.

(** [&inode->inode_lock] and [&inode->inode_dir_lock]. *)
Definition p_inode_lock (ino : Z) : ptr (fstate D) lock :=
  mk_ptr (λ s, inode_lock <$> inodes s !! ino)
    (λ l s, match inodes s !! ino with
            | Some nd => set_inodes <[ino := with_inode_lock l nd]> s
            | None => s
            end).
Definition p_dir_lock (ino : Z) : ptr (fstate D) lock :=
  mk_ptr (λ s, inode_dir_lock <$> inodes s !! ino)
    (λ l s, match inodes s !! ino with
            | Some nd => set_inodes <[ino := with_dir_lock l nd]> s
            | None => s
            end).

#[global] Instance p_open_lock_good `{Kernel D} : GoodPtr p_open_lock.
Proof. split; try done. by intros [] ? [= <-]. Qed.
#[global] Instance p_da_lock_good `{Kernel D} : GoodPtr p_da_lock.
Proof. split; try done. by intros [] ? [= <-]. Qed.

(** Pointers into the inode [ino]. *)
Lemma inode_ptr_good `{Kernel D} ino (get_l : inode → lock) (set_l : lock → inode → inode) :
  (∀ l nd, get_l (set_l l nd) = l) → (∀ l l' nd, set_l l (set_l l' nd) = set_l l nd) →
  (∀ nd, set_l (get_l nd) nd = nd) →
  GoodPtr (mk_ptr (λ s, get_l <$> inodes s !! ino)
    (λ l s, match inodes s !! ino with
            | Some nd => set_inodes <[ino := set_l l nd]> s
            | None => s
            end)).
Proof.
  intros H1 H2 H3. split; simpl.
  - intros s l. destruct (inodes s !! ino) as [nd|] eqn:E; [|by intros []]. intros _.
    simpl. rewrite lookup_insert_eq. simpl. by rewrite H1.
  - intros s l l'. destruct (inodes s !! ino) as [nd|] eqn:E; [|by rewrite E].
    simpl. rewrite lookup_insert_eq. unfold set_inodes. simpl. by rewrite insert_insert_eq, H2.
  - intros s l. destruct (inodes s !! ino) as [nd|] eqn:E; [|done]. simpl. intros [= <-].
    rewrite H3. destruct s. unfold set_inodes. simpl in *. by rewrite insert_id.
  - intros s l. by destruct (inodes s !! ino).
  - done.
  - intros s l x. by destruct (inodes s !! ino).
Qed.

#[global] Instance p_inode_lock_good `{Kernel D} ino : GoodPtr (p_inode_lock ino).
Proof. apply (inode_ptr_good ino inode_lock with_inode_lock); [done|done|by intros []]. Qed.
#[global] Instance p_dir_lock_good `{Kernel D} ino : GoodPtr (p_dir_lock ino).
Proof. apply (inode_ptr_good ino inode_dir_lock with_dir_lock); [done|done|by intros []]. Qed.

(** [*inode] and its update. *)
Definition the_inode (ino : Z) : M (fstate D) inode :=
  let* s := get in deref (inodes s !! ino).
Definition put_inode (ino : Z) (nd : inode) : M (fstate D) unit :=
  modify (set_inodes <[ino := nd]>).

(** A fresh address for an object malloc() returned. *)
Definition fresh_ptr : M (fstate D) Z :=
  let* s := get in
  modify (set_next (next_ptr s + 1));;;
  ret (next_ptr s).

End state.

(** ** The buffer cache is a sector store *)

Lemma kok_kernel_ok (d : bstate) : kok (bk d) → kernel_ok d.
Proof. done. Qed.

Lemma disk_view_total b d x :
  cache_inv b d → 0 <= x < disk_size b d →
  ∃ v, disk_view b d x = Some v ∧ zlen v = BLOCK_SECTOR_SIZE.
Proof.
  intros [k ds rs c h m a blk Hk Hmem Hb0 Hl Hb Hc Hf Hh] Hx.
  unfold disk_size, disk_view in *. simpl in *. rewrite Hl in *. simpl.
  by eapply view_total.
Qed.

#[global, program] Instance cache_store (fs_device : Z) : SectorStore bstate := {|
  ss_read := read_buffered 2 fs_device;
  ss_write := write_buffered 2 fs_device;
  ss_flush := flush_buffer_cache;
  ss_sectors := block_size fs_device;
  ss_inv := cache_inv fs_device;
  ss_view := disk_view fs_device;
  ss_size := disk_size fs_device
|}.
Next Obligation. by intros b d []. Qed.
Next Obligation. apply disk_view_total. Qed.
Next Obligation.
  intros b d x st en v Hi Hx Hst Hen Hv.
  eapply wp_mono; [by apply (read_refines 0 b x st en d v)|].
  intros r d' [-> (Hi' & (Hk & _ & Hs & _) & Hv')]. split_and!; try done.
  intros y Hy. rewrite Hv' by done. by case_decide; subst.
Qed.
Next Obligation.
  intros b d x data st en v Hi Hx Hst Hen Hl Hv.
  eapply wp_mono; [by apply (write_refines 0 b x data st en d v)|].
  by intros [] d' (Hi' & (Hk & _ & Hs & _) & Hv').
Qed.
Next Obligation.
  intros b d [k ds rs c h m a blk Hk Hmem Hb0 Hl Hb Hc Hf Hh]. unfold block_size.
  rewrite (block_at_ok b Hb0 _ _ blk) by done. unfold disk_size. simpl. by rewrite Hl.
Qed.
Next Obligation.
  intros b d k' [k ds rs c h m a blk Hk Hmem Hb0 Hl Hb Hc Hf Hh] Hk' Hm'.
  by apply (CacheInv b k' ds rs c h m a blk).
Qed.
Next Obligation. done. Qed.
Next Obligation. done. Qed.

End FsState.
