(* ===== verification/FreeMap.v ===== *)
(** * FreeMap: allocation of sectors (filesys/free-map.c)

    The free map is a bitmap with one bit per sector, kept in memory and
    written through to its file after every change.  Writing the file goes
    back through file_write_at() and inode_write_at(), which may allocate
    sectors; that call is the parameter [write_at] here, and filesys/inode.c
    closes the cycle. *)

From Stdlib Require Import ZArith Lia.
From stdpp Require Import base tactics option list numbers gmap.
From S2P Require Import Prelude Bitmap Sched Synch Block FsState.
Import Bitmap Sched Synch Block FsState.

Module FreeMap.

Section free_map_ops.
Context {D : Type} `{Kernel D} `{!SectorStore D}.

(** inode_write_at (inode, buffer, size, offset): the number of bytes
    written. *)
Variable write_at : Z → list Z → Z → Z → M (fstate D) Z.

(** bitmap_write (free_map, free_map_file): the whole bitmap at offset 0;
    a null file is dereferenced. *)
Definition free_map_write : M (fstate D) bool :=
  let* s := get in
  let* fp := deref (free_map_file s) in
  let* f := deref (files s !! fp) in
  let size := byte_cnt (bit_cnt (free_map s)) in
  let* n := write_at (f_inode f) (bits_to_bytes (bits (free_map s))) size 0 in
  ret (n =? size).

(** [sectors += cnt]. *)
Definition count_sectors (cnt : Z) : M (fstate D) unit :=
  modify (λ s, set_counters (s32 (sectors s + cnt)) (g_inodes_created s) (g_inodes_freed s)
                 (g_file_calloc s) (g_file_freed s) s).

(** The first of the allocated sectors, [None] when the code returns false. *)
Definition free_map_allocate (cnt : Z) : M (fstate D) (option Z) :=
  lock_acquire p_da_lock;;;
  count_sectors cnt;;;
  let* sector := on_map (bitmap_scan_and_flip 0 cnt false) in
  let* s := get in
  let* sector :=
    (if negb (sector =? BITMAP_ERROR) && bool_decide (is_Some (free_map_file s)) then
       let* ok := free_map_write in
       if ok then ret sector
       else on_map (bitmap_set_multiple sector cnt false);;; ret BITMAP_ERROR
     else ret sector) in
  lock_release p_da_lock;;;
  ret (if sector =? BITMAP_ERROR then None else Some sector).

Definition free_map_release (sector cnt : Z) : M (fstate D) unit :=
  let* all := on_map (bitmap_all sector cnt) in
  assert all;;;
  lock_acquire p_da_lock;;;
  on_map (bitmap_set_multiple sector cnt false);;;
  let* _ := free_map_write in
  lock_release p_da_lock.

End free_map_ops.

End FreeMap.
