(* ===== verification/Inode.v ===== *)
(** * Inode: index blocks and the contents of files (filesys/inode.c)

    An inode is a sector that holds a length, a directory flag, 12 direct
    pointers, one indirect and one doubly indirect pointer.  The operations
    follow inode.c; those that write data take [write_rec], the
    inode_write_at() the free map uses to write itself, and [inode_write_at]
    closes the cycle with one unit of fuel per nested write. *)

From Stdlib Require Import ZArith Lia.
From stdpp Require Import base tactics option list numbers gmap.
From S2P Require Import Prelude Bitmap Sched Synch Block FsState FreeMap.
Import Bitmap Sched Synch Block FsState FreeMap.

Module Inode.

Definition NUM_DIRECT_PTRS : Z := 12.
Definition Indirect_Block : Z := 128.
Definition MAX_BLOCKS : Z := NUM_DIRECT_PTRS + Indirect_Block * (1 + Indirect_Block).

Definition zero_block : list Z := replicate 512 0.

Definition bytes_to_sectors (size : Z) : Z := u32 (Z.quot (s32 (size + 511)) 512).

(** C division truncates, so that index -1 / 512 is 0. *)
Definition bytes_to_sector_index (offset : Z) : Z := u32 (Z.quot offset 512).

Section inode_ops.
Context {D : Type} `{HK : Kernel D} `{!SectorStore D}.

(** ** The on-disk inode *)

(** Four bytes of sector [sector] at [ofs], as a 32-bit word. *)
Definition get_word (sector ofs : Z) : M (fstate D) Z :=
  let* b := on_store (ss_read sector ofs (ofs + 4)) in
  ret (le_val b).

Definition set_word (sector ofs v : Z) : M (fstate D) unit :=
  on_store (ss_write sector (le_bytes 4 (u32 v)) ofs (ofs + 4)).

Definition inode_get_length (sector : Z) : M (fstate D) Z :=
  let* w := get_word sector 0 in ret (s32 w).
Definition inode_set_length (sector length : Z) : M (fstate D) unit :=
  set_word sector 0 length.
Definition inode_get_is_dir (sector : Z) : M (fstate D) Z := get_word sector 4.
Definition inode_set_is_dir (sector is_dir : Z) : M (fstate D) unit :=
  set_word sector 4 is_dir.
Definition inode_get_direct_ptr (sector i : Z) : M (fstate D) Z :=
  get_word sector (8 + 4 * i).
Definition inode_set_direct_ptr (sector i tar : Z) : M (fstate D) unit :=
  set_word sector (8 + 4 * i) tar.
Definition inode_get_single_ptr (sector : Z) : M (fstate D) Z :=
  get_word sector (8 + 4 * NUM_DIRECT_PTRS).
Definition inode_set_single_ptr (sector tar : Z) : M (fstate D) unit :=
  set_word sector (8 + 4 * NUM_DIRECT_PTRS) tar.
Definition inode_get_double_ptr (sector : Z) : M (fstate D) Z :=
  get_word sector (8 + 4 * NUM_DIRECT_PTRS + 4).
Definition inode_set_double_ptr (sector tar : Z) : M (fstate D) unit :=
  set_word sector (8 + 4 * NUM_DIRECT_PTRS + 4) tar.
Definition inode_set_magic (sector magic : Z) : M (fstate D) unit :=
  set_word sector (8 + 4 * NUM_DIRECT_PTRS + 8) magic.

Definition read_sector (sector index : Z) : M (fstate D) Z :=
  assert (negb (sector =? 0));;;
  get_word sector (index * 4).

Definition write_sector (sector index good_stuff : Z) : M (fstate D) unit :=
  assert (negb (sector =? 0));;;
  set_word sector (index * 4) good_stuff.

(** The sector that holds byte [pos], -1 past the end. *)
Definition byte_to_sector (ino pos : Z) : M (fstate D) Z :=
  let i := s32 (bytes_to_sector_index pos) in
  assert (i <? MAX_BLOCKS);;;
  let* nd := the_inode ino in
  let* len := inode_get_length (i_sector nd) in
  if pos >=? len then ret (u32 (-1))
  else
    let* len := inode_get_length (i_sector nd) in
    assert (pos <? len);;;
    let* sector :=
      (if i <? NUM_DIRECT_PTRS then inode_get_direct_ptr (i_sector nd) i
       else if i <? NUM_DIRECT_PTRS + Indirect_Block then
         let* single := inode_get_single_ptr (i_sector nd) in
         assert (negb (single =? 0));;;
         let* single := inode_get_single_ptr (i_sector nd) in
         read_sector single (i - NUM_DIRECT_PTRS)
       else
         let* double := inode_get_double_ptr (i_sector nd) in
         assert (negb (double =? 0));;;
         assert (i >=? NUM_DIRECT_PTRS + Indirect_Block);;;
         let dab := i - NUM_DIRECT_PTRS - Indirect_Block in
         let* double := inode_get_double_ptr (i_sector nd) in
         let* sec_mabel := read_sector double (dab / Indirect_Block) in
         assert (negb (sec_mabel =? 0));;;
         read_sector sec_mabel (dab mod Indirect_Block)) in
    assert (negb (sector =? 0));;;
    ret sector.

(** ** Locks, opening and reading *)

Definition ilock (ino : Z) : M (fstate D) unit :=
  let* nd := the_inode ino in
  assert (i_magic nd =? INODE_MAGIC);;;
  lock_acquire (p_inode_lock ino).

Definition irel (ino : Z) : M (fstate D) unit := lock_release (p_inode_lock ino).

Definition inode_init : M (fstate D) unit :=
  modify (set_open_inodes (λ _, []));;;
  lock_init p_open_lock.

(** The open inode of [sector], if any. *)
Fixpoint find_open (sector : Z) (l : list Z) : M (fstate D) (option Z) :=
  match l with
  | [] => ret None
  | ino :: l =>
      let* nd := the_inode ino in
      if i_sector nd =? sector then ret (Some ino) else find_open sector l
  end.

(** inode_open() with the cast of its result: a null pointer is never
    returned, since the code asserts that malloc() succeeded. *)
Definition inode_open (sector : Z) : M (fstate D) Z :=
  lock_acquire p_open_lock;;;
  let* s := get in
  let* found := find_open sector (open_inodes s) in
  match found with
  | Some ino =>
      let* nd := the_inode ino in
      put_inode ino (mk_inode (i_sector nd) (s32 (open_cnt nd + 1)) (removed nd)
        (deny_write_cnt nd) (i_magic nd) (inode_lock nd) (inode_dir_lock nd));;;
      lock_release p_open_lock;;;
      ret ino
  | None =>
      let* ok := malloc_ok in
      assert ok;;;
      let* ino := fresh_ptr in
      modify (set_open_inodes (λ l, ino :: l));;;
      lock_release p_open_lock;;;
      put_inode ino (mk_inode sector 1 false 0 INODE_MAGIC new_lock new_lock);;;
      modify (λ s, set_counters (sectors s) (s32 (g_inodes_created s + 1)) (g_inodes_freed s)
                     (g_file_calloc s) (g_file_freed s) s);;;
      ret ino
  end.

Definition inode_reopen (ino : Z) : M (fstate D) Z :=
  ilock ino;;;
  let* nd := the_inode ino in
  put_inode ino (mk_inode (i_sector nd) (s32 (open_cnt nd + 1)) (removed nd)
    (deny_write_cnt nd) (i_magic nd) (inode_lock nd) (inode_dir_lock nd));;;
  irel ino;;;
  ret ino.

Definition inode_get_inumber (ino : Z) : M (fstate D) Z :=
  ilock ino;;;
  let* nd := the_inode ino in
  irel ino;;;
  ret (i_sector nd).

Definition inode_remove (ino : Z) : M (fstate D) unit :=
  ilock ino;;;
  let* nd := the_inode ino in
  put_inode ino (mk_inode (i_sector nd) (open_cnt nd) true
    (deny_write_cnt nd) (i_magic nd) (inode_lock nd) (inode_dir_lock nd));;;
  irel ino.

Definition inode_length (ino : Z) : M (fstate D) Z :=
  let* nd := the_inode ino in inode_get_length (i_sector nd).

(** The chunk of [size] bytes at [offset] that lies in one sector. *)
Definition chunk_at (len size offset : Z) : Z :=
  let sector_ofs := Z.rem offset 512 in
  let inode_left := s32 (len - offset) in
  let sector_left := 512 - sector_ofs in
  let min_left := if inode_left <? sector_left then inode_left else sector_left in
  if size <? min_left then size else min_left.

(** The bytes read; each round reads at least one. *)
Fixpoint read_loop (n : nat) (ino size offset : Z) : M (fstate D) (list Z) :=
  if size >? 0 then
    let* sector_idx := byte_to_sector ino offset in
    let sector_ofs := Z.rem offset 512 in
    let* len := inode_length ino in
    let chunk_size := chunk_at len size offset in
    if chunk_size <=? 0 then ret []
    else
      match n with
      | O => no_fuel
      | S n =>
          let* d := on_store (ss_read sector_idx sector_ofs (sector_ofs + chunk_size)) in
          let* rest := read_loop n ino (size - chunk_size) (s32 (offset + chunk_size)) in
          ret (d ++ rest)
      end
  else ret [].

(** The bytes stored in the buffer; their number is the result. *)
Definition inode_read_at (ino size offset : Z) : M (fstate D) (list Z) :=
  ilock ino;;;
  let* d := read_loop (Z.to_nat size) ino size offset in
  irel ino;;;
  ret d.

Fixpoint write_loop (n : nat) (ino : Z) (buffer : list Z) (size offset written : Z) :
    M (fstate D) Z :=
  if size >? 0 then
    let* sector_idx := byte_to_sector ino offset in
    let sector_ofs := Z.rem offset 512 in
    let* len := inode_length ino in
    let chunk_size := chunk_at len size offset in
    if chunk_size <=? 0 then ret written
    else
      match n with
      | O => no_fuel
      | S n =>
          on_store (ss_write sector_idx (drop (Z.to_nat written) buffer)
                      sector_ofs (sector_ofs + chunk_size));;;
          write_loop n ino buffer (size - chunk_size) (s32 (offset + chunk_size))
            (written + chunk_size)
      end
  else ret written.

(** ** Growing *)

Section with_free_map.
Variable write_rec : Z → list Z → Z → Z → M (fstate D) Z.

Definition get_sector : M (fstate D) (option Z) :=
  let* o := free_map_allocate write_rec 1 in
  match o with
  | None => ret None
  | Some sector => on_store (ss_write sector zero_block 0 512);;; ret (Some sector)
  end.

(** [sectors[0], ..., sectors[i-1]] while get_sector() succeeds; true when all
    [num] did. *)
Fixpoint try_sectors (num : nat) (acc : list Z) : M (fstate D) (bool * list Z) :=
  match num with
  | O => ret (true, acc)
  | S num =>
      let* o := get_sector in
      match o with
      | None => ret (false, acc)
      | Some sector => try_sectors num (acc ++ [sector])
      end
  end.

Fixpoint release_all (l : list Z) : M (fstate D) unit :=
  match l with
  | [] => ret tt
  | sector :: l => free_map_release write_rec sector 1;;; release_all l
  end.

(** The loops that give the sectors back run for j > 0: sectors[0] stays
    allocated. *)
Definition can_allocate (num : Z) : M (fstate D) bool :=
  let* r := try_sectors (Z.to_nat num) [] in
  release_all (rev (tail r.2));;;
  ret r.1.

(** ASSERT (get_sector (&sec)). *)
Definition must_get_sector : M (fstate D) Z :=
  let* o := get_sector in
  match o with Some sector => ret sector | None => panic end.

Definition install_sector (sector i : Z) : M (fstate D) unit :=
  assert (i <? MAX_BLOCKS);;;
  let* sec := must_get_sector in
  on_store (ss_write sec zero_block 0 512);;;
  if i <? NUM_DIRECT_PTRS then inode_set_direct_ptr sector i sec
  else if i <? NUM_DIRECT_PTRS + Indirect_Block then
    let* single := inode_get_single_ptr sector in
    (if single =? 0 then
       let* new_sector := must_get_sector in inode_set_single_ptr sector new_sector
     else ret tt);;;
    let* single := inode_get_single_ptr sector in
    write_sector single (i - NUM_DIRECT_PTRS) sec
  else
    let* double := inode_get_double_ptr sector in
    (if double =? 0 then
       let* new_sector := must_get_sector in inode_set_double_ptr sector new_sector
     else ret tt);;;
    let dab := i - NUM_DIRECT_PTRS - Indirect_Block in
    assert (dab >=? 0);;;
    let* double := inode_get_double_ptr sector in
    let* ind_sec := read_sector double (dab / Indirect_Block) in
    let* ind_sec :=
      (if ind_sec =? 0 then
         let* new := must_get_sector in
         let* double := inode_get_double_ptr sector in
         write_sector double (dab / Indirect_Block) new;;;
         ret new
       else ret ind_sec) in
    write_sector ind_sec (dab mod Indirect_Block) sec.

(** install_sector() for [n] consecutive blocks from [i]. *)
Fixpoint install_sectors (n : nat) (sector i : Z) : M (fstate D) unit :=
  match n with
  | O => ret tt
  | S n => install_sector sector i;;; install_sectors n sector (i + 1)
  end.

Definition inode_extend (ino count : Z) : M (fstate D) bool :=
  let* nd := the_inode ino in
  let* len := inode_get_length (i_sector nd) in
  let from := bytes_to_sector_index (s32 (len - 1)) in
  let* len := inode_get_length (i_sector nd) in
  let from := if len =? 0 then 0 else u32 (from + 1) in
  let* ok := can_allocate count in
  if negb ok then ret false
  else install_sectors (Z.to_nat count) (i_sector nd) from;;; ret true.

Definition inode_extend_to_bytes (ino new_length : Z) : M (fstate D) bool :=
  let* nd := the_inode ino in
  let* len := inode_get_length (i_sector nd) in
  let from := bytes_to_sector_index (s32 (len - 1)) in
  let to := bytes_to_sector_index (s32 (new_length - 1)) in
  let* len := inode_get_length (i_sector nd) in
  if len =? 0 then
    let* ok := inode_extend ino (u32 (to + 1)) in
    if ok then inode_set_length (i_sector nd) new_length;;; ret true
    else ret false
  else if from >=? to then
    let* len := inode_get_length (i_sector nd) in
    (if len <? new_length then inode_set_length (i_sector nd) new_length else ret tt);;;
    ret true
  else
    let* ok := inode_extend ino (u32 (to - from)) in
    if ok then inode_set_length (i_sector nd) new_length;;; ret true
    else ret false.

(** The whole of inode_write_at(): the file grows before the write count is
    checked. *)
Definition write_body (ino : Z) (buffer : list Z) (size offset : Z) : M (fstate D) Z :=
  ilock ino;;;
  let* _ := inode_extend_to_bytes ino (s32 (offset + size)) in
  let* nd := the_inode ino in
  if negb (deny_write_cnt nd =? 0) then irel ino;;; ret 0
  else
    let* n := write_loop (Z.to_nat size) ino buffer size offset 0 in
    irel ino;;;
    ret n.

Definition inode_extend_start (sector count : Z) : M (fstate D) bool :=
  install_sectors (Z.to_nat count) sector 0;;; ret true.

Definition inode_create_wild (sector length : Z) (is_dir : bool) : M (fstate D) bool :=
  assert (length >=? 0);;;
  let count := bytes_to_sectors length in
  let* ok := can_allocate count in
  if ok then
    inode_set_length sector length;;;
    inode_set_is_dir sector (if is_dir then 1 else 0);;;
    inode_set_magic sector INODE_MAGIC;;;
    inode_extend_start sector count
  else ret false.

(** ** Closing *)

Fixpoint clear_direct (n : nat) (sector i : Z) : M (fstate D) unit :=
  match n with
  | O => ret tt
  | S n =>
      let* p := inode_get_direct_ptr sector i in
      if p =? 0 then ret tt
      else
        let* p := inode_get_direct_ptr sector i in
        free_map_release write_rec p 1;;;
        clear_direct n sector (i + 1)
  end.

(** Apply [f] to the 128 words of an index block until it answers true. *)
Fixpoint until_true (n : nat) (sector i : Z) (f : Z → M (fstate D) bool) : M (fstate D) bool :=
  match n with
  | O => ret false
  | S n =>
      let* p := read_sector sector i in
      let* stop := f p in
      if stop then ret true else until_true n sector (i + 1) f
  end.

Fixpoint clear_data (level : nat) (sector : Z) : M (fstate D) bool :=
  if sector =? 0 then ret true
  else
    match level with
    | O => panic
    | 1%nat => free_map_release write_rec sector 1;;; ret false
    | S level => until_true 128 sector 0 (clear_data level)
    end.

Definition inode_close (oino : option Z) : M (fstate D) unit :=
  let* s := get in
  (if close_first s then modify (set_close false new_lock) else ret tt);;;
  match oino with
  | None => ret tt
  | Some ino =>
      lock_acquire (p_inode_lock ino);;;
      let* nd := the_inode ino in
      let cnt := s32 (open_cnt nd - 1) in
      put_inode ino (mk_inode (i_sector nd) cnt (removed nd) (deny_write_cnt nd) (i_magic nd)
        (inode_lock nd) (inode_dir_lock nd));;;
      let* should_free :=
        (if cnt =? 0 then
           modify (set_open_inodes (filter (λ p, p ≠ ino)));;;
           (if removed nd then
              free_map_release write_rec (i_sector nd) 1;;;
              clear_direct 12 (i_sector nd) 0;;;
              let* single := inode_get_single_ptr (i_sector nd) in
              let* _ := clear_data 2 single in
              let* double := inode_get_double_ptr (i_sector nd) in
              let* _ := clear_data 3 double in
              ret tt
            else ret tt);;;
           ret true
         else ret false) in
      lock_release (p_inode_lock ino);;;
      if should_free : bool then
        let* nd := the_inode ino in
        assert (i_magic nd =? INODE_MAGIC);;;
        modify (λ s, set_counters (sectors s) (g_inodes_created s) (s32 (g_inodes_freed s + 1))
                       (g_file_calloc s) (g_file_freed s) s);;;
        modify (set_inodes (delete ino))
      else ret tt
  end.

End with_free_map.

(** The nested writes are those of the free map's own file; without growth of
    that file one level is enough. *)
Fixpoint inode_write_at (n : nat) (ino : Z) (buffer : list Z) (size offset : Z) :
    M (fstate D) Z :=
  match n with
  | O => no_fuel
  | S n => write_body (inode_write_at n) ino buffer size offset
  end.

Definition inode_create (n : nat) (sector length : Z) : M (fstate D) bool :=
  inode_create_wild (inode_write_at n) sector length false.

(** ** Denying writes, directories *)

Definition set_deny (ino cnt : Z) : M (fstate D) unit :=
  let* nd := the_inode ino in
  put_inode ino (mk_inode (i_sector nd) (open_cnt nd) (removed nd) cnt (i_magic nd)
    (inode_lock nd) (inode_dir_lock nd)).

Definition inode_deny_write (ino : Z) : M (fstate D) unit :=
  ilock ino;;;
  let* nd := the_inode ino in
  set_deny ino (s32 (deny_write_cnt nd + 1));;;
  assert (s32 (deny_write_cnt nd + 1) <=? open_cnt nd);;;
  irel ino.

Definition inode_allow_write (ino : Z) : M (fstate D) unit :=
  let* nd := the_inode ino in
  assert (deny_write_cnt nd >? 0);;;
  assert (deny_write_cnt nd <=? open_cnt nd);;;
  ilock ino;;;
  let* nd := the_inode ino in
  set_deny ino (s32 (deny_write_cnt nd - 1));;;
  irel ino.

Definition inode_is_dir (ino : Z) : M (fstate D) bool :=
  ilock ino;;;
  let* nd := the_inode ino in
  let* d := inode_get_is_dir (i_sector nd) in
  irel ino;;;
  ret (d =? 1).

Definition get_dir_lock (ino : Z) : M (fstate D) unit :=
  ilock ino;;; lock_acquire (p_dir_lock ino);;; irel ino.

Definition release_dir_lock (ino : Z) : M (fstate D) unit :=
  ilock ino;;; lock_release (p_dir_lock ino);;; irel ino.

Definition inode_set_dir (ino : Z) : M (fstate D) unit :=
  let* nd := the_inode ino in inode_set_is_dir (i_sector nd) 1.

Definition get_inode_sector (ino : Z) : M (fstate D) Z :=
  let* nd := the_inode ino in ret (i_sector nd).

Definition o_inumber (ino : Z) : M (fstate D) Z := inode_get_inumber ino.

Definition to_be_removed (ino : Z) : M (fstate D) bool :=
  ilock ino;;;
  let* nd := the_inode ino in
  irel ino;;;
  ret (removed nd).

Definition inode_is (ino : Z) : M (fstate D) bool :=
  let* nd := the_inode ino in ret (i_magic nd =? INODE_MAGIC).

Definition inode_cnt (ino : Z) : M (fstate D) Z :=
  let* nd := the_inode ino in
  assert (i_magic nd =? INODE_MAGIC);;;
  ret (open_cnt nd).

(** ** What the sectors say *)

(** The word at [ofs] of sector [x], and the data of sector [x]. *)
Definition sector_data (d : D) (x : Z) : list Z := default [] (ss_view d x).
Definition word (d : D) (x ofs : Z) : Z := le_val (slice ofs 4 (sector_data d x)).

Definition file_len (d : D) (isec : Z) : Z := s32 (word d isec 0).
Definition single_ptr (d : D) (isec : Z) : Z := word d isec 56.
Definition double_ptr (d : D) (isec : Z) : Z := word d isec 60.

(** The index block that holds the pointer to block [i >= 140]. *)
Definition index_ptr (d : D) (isec i : Z) : Z :=
  word d (double_ptr d isec) ((i - 140) / 128 * 4).

(** The sector of block [i]. *)
Definition block_ptr (d : D) (isec i : Z) : Z :=
  if i <? 12 then word d isec (8 + 4 * i)
  else if i <? 140 then word d (single_ptr d isec) ((i - 12) * 4)
  else word d (index_ptr d isec i) ((i - 140) mod 128 * 4).

Definition num_blocks (d : D) (isec : Z) : Z := (file_len d isec + 511) / 512.

(** The sectors the inode at [isec] is made of. *)
Inductive in_foot (d : D) (isec : Z) : Z → Prop :=
| foot_inode : in_foot d isec isec
| foot_block i : 0 <= i < num_blocks d isec → in_foot d isec (block_ptr d isec i)
| foot_single : 12 < num_blocks d isec → in_foot d isec (single_ptr d isec)
| foot_double : 140 < num_blocks d isec → in_foot d isec (double_ptr d isec)
| foot_index i : 140 <= i < num_blocks d isec → in_foot d isec (index_ptr d isec i).

(** A well-formed inode: its pointers lead to sectors of the device, and no
    data block is also an index block or another data block. *)
Record inode_ok (d : D) (isec : Z) : Prop := {
  io_len : 0 <= file_len d isec <= MAX_BLOCKS * 512;
  io_range : ∀ x, in_foot d isec x → 0 <= x < ss_size d;
  io_nonzero : ∀ x, in_foot d isec x → x ≠ isec → x ≠ 0;
  io_inj : ∀ i j, 0 <= i < num_blocks d isec → 0 <= j < num_blocks d isec →
    block_ptr d isec i = block_ptr d isec j → i = j;
  io_inode : ∀ i, 0 <= i < num_blocks d isec → block_ptr d isec i ≠ isec;
  io_single : ∀ i, 0 <= i < num_blocks d isec → 12 < num_blocks d isec →
    block_ptr d isec i ≠ single_ptr d isec ∧ single_ptr d isec ≠ isec;
  io_double : ∀ i j, 0 <= i < num_blocks d isec → 140 <= j < num_blocks d isec →
    block_ptr d isec i ≠ double_ptr d isec ∧ block_ptr d isec i ≠ index_ptr d isec j ∧
    double_ptr d isec ≠ isec ∧ index_ptr d isec j ≠ isec
}.

(** Byte [p] of the file, and the contents of the file. *)
Definition byte_at (d : D) (isec p : Z) : Z :=
  default 0 (sector_data d (block_ptr d isec (p / 512)) !! Z.to_nat (p mod 512)).
Definition content (d : D) (isec : Z) : list Z :=
  byte_at d isec <$> seqZ 0 (file_len d isec).

(** [s'] is [s] after some reads: nothing a reader can see has changed. *)
Definition reads (s s' : fstate D) : Prop :=
  ∃ d', s' = set_disk d' s ∧ ss_inv d' ∧ kget d' = kget (disk s) ∧
        ss_size d' = ss_size (disk s) ∧ ∀ y, 0 <= y → ss_view d' y = ss_view (disk s) y.

Lemma reads_refl s : ss_inv (disk s) → reads s s.
Proof. exists (disk s). split_and!; try done. by destruct s. Qed.

Lemma reads_trans s1 s2 s3 : reads s1 s2 → reads s2 s3 → reads s1 s3.
Proof.
  intros (d1 & -> & _ & Hk1 & Hs1 & Hv1) (d2 & -> & Hi2 & Hk2 & Hs2 & Hv2). simpl in *.
  exists d2. split_and!; try done; try congruence. intros y Hy. rewrite Hv2 by done. by apply Hv1.
Qed.

Lemma reads_inv s s' : reads s s' → ss_inv (disk s').
Proof. by intros (d' & -> & Hi & _). Qed.

Lemma reads_data s s' x : reads s s' → 0 <= x → sector_data (disk s') x = sector_data (disk s) x.
Proof. intros (d' & -> & _ & _ & _ & Hv) Hx. unfold sector_data. simpl. by rewrite Hv. Qed.

Lemma reads_word s s' x ofs : reads s s' → 0 <= x → word (disk s') x ofs = word (disk s) x ofs.
Proof. intros Hr Hx. unfold word. by rewrite (reads_data s s'). Qed.

Lemma reads_size s s' : reads s s' → ss_size (disk s') = ss_size (disk s).
Proof. by intros (d' & -> & _ & _ & Hs & _). Qed.

Lemma reads_inodes s s' : reads s s' → inodes s' = inodes s.
Proof. by intros (d' & -> & _). Qed.

Lemma sector_data_ok d x :
  ss_inv d → 0 <= x < ss_size d →
  ss_view d x = Some (sector_data d x) ∧ zlen (sector_data d x) = 512.
Proof.
  intros Hi Hx. destruct (ss_total d x Hi Hx) as (b & Hb & Hl).
  unfold sector_data. by rewrite Hb.
Qed.

(** ** Reading words *)

(** Data of sector [sector], read after other reads that started in [s0]. *)
Lemma wp_store_read s0 s sector st en :
  reads s0 s → 0 <= sector < ss_size (disk s0) → 0 <= st <= en → en <= 512 →
  wp (on_store (ss_read sector st en))
    (λ r s', r = slice st (en - st) (sector_data (disk s0) sector) ∧ reads s0 s') s.
Proof.
  intros Hr Hs Hst Hen. pose proof (reads_inv _ _ Hr) as Hi.
  rewrite <- (reads_size s0 s Hr) in Hs.
  destruct (sector_data_ok _ _ Hi Hs) as [Hv Hl].
  unfold on_store. apply wp_lift. eapply wp_mono; [by apply (ss_read_ok _ sector st en (sector_data (disk s) sector) Hi Hs)|].
  intros r d' (-> & Hi' & Hk & Hsz & Hv').
  split; [by rewrite (reads_data s0 s) by (done || lia)|].
  eapply reads_trans; [done|]. by exists d'.
Qed.

Lemma wp_get_word s0 s sector ofs :
  reads s0 s → 0 <= sector < ss_size (disk s0) → 0 <= ofs → ofs + 4 <= 512 →
  wp (get_word sector ofs) (λ w s', w = word (disk s0) sector ofs ∧ reads s0 s') s.
Proof.
  intros Hr Hs Ho Ho2. unfold get_word. apply wp_bind.
  eapply wp_mono; [apply (wp_store_read s0); [done|done|lia|lia]|].
  intros r s' [-> Hr']. apply wp_ret. split; [|done].
  unfold word. do 2 f_equal. lia.
Qed.

Lemma wp_get_length s0 s isec :
  reads s0 s → 0 <= isec < ss_size (disk s0) →
  wp (inode_get_length isec) (λ n s', n = file_len (disk s0) isec ∧ reads s0 s') s.
Proof.
  intros Hr Hs. apply wp_bind. eapply wp_mono; [by apply (wp_get_word s0)|].
  intros w s' [-> Hr']. by apply wp_ret.
Qed.

Lemma wp_the_inode (Q : inode → fstate D → Prop) s ino nd :
  inodes s !! ino = Some nd → Q nd s → wp (the_inode ino) Q s.
Proof. intros Hl HQ. apply wp_bind, wp_get. by eapply wp_deref. Qed.

(** One read step: the value in terms of the first state. *)
Ltac read_step lem :=
  apply wp_bind; eapply wp_mono; [lem|]; cbv beta; intros ? ? [-> ?].

Lemma block_index p : 0 <= p < MAX_BLOCKS * 512 → s32 (bytes_to_sector_index p) = p / 512.
Proof.
  intros Hp. unfold bytes_to_sector_index, MAX_BLOCKS, NUM_DIRECT_PTRS, Indirect_Block in *.
  rewrite Z.quot_div_nonneg by lia. unfold u32, s32. rewrite !Z.mod_small by dlia. lia.
Qed.

Lemma num_blocks_index d isec p :
  0 <= p < file_len d isec → 0 <= p / 512 < num_blocks d isec.
Proof. unfold num_blocks. dlia. Qed.

Lemma num_blocks_max d isec i :
  inode_ok d isec → 0 <= i < num_blocks d isec → i < MAX_BLOCKS.
Proof. intros [Hl _ _ _ _ _ _] Hi. unfold num_blocks in Hi. dlia. Qed.

Section byte_to_sector_spec.
Context (s : fstate D) (isec : Z).
Context (Hi : ss_inv (disk s)) (Hok : inode_ok (disk s) isec).

Lemma foot_range x : in_foot (disk s) isec x → 0 <= x < ss_size (disk s).
Proof. apply Hok. Qed.

(** The pointer to block [i], as byte_to_sector() finds it. *)
Lemma wp_find_block i s1 :
  reads s s1 → 0 <= i < num_blocks (disk s) isec →
  wp (if i <? NUM_DIRECT_PTRS then inode_get_direct_ptr isec i
      else if i <? NUM_DIRECT_PTRS + Indirect_Block then
        let* single := inode_get_single_ptr isec in
        assert (negb (single =? 0));;;
        let* single := inode_get_single_ptr isec in
        read_sector single (i - NUM_DIRECT_PTRS)
      else
        let* double := inode_get_double_ptr isec in
        assert (negb (double =? 0));;;
        assert (i >=? NUM_DIRECT_PTRS + Indirect_Block);;;
        let dab := i - NUM_DIRECT_PTRS - Indirect_Block in
        let* double := inode_get_double_ptr isec in
        let* sec_mabel := read_sector double (dab / Indirect_Block) in
        assert (negb (sec_mabel =? 0));;;
        read_sector sec_mabel (dab mod Indirect_Block))
    (λ r s', r = block_ptr (disk s) isec i ∧ reads s s') s1.
Proof.
  intros Hr Hib. pose proof (foot_range _ (foot_inode _ _)) as Hisec.
  unfold NUM_DIRECT_PTRS, Indirect_Block.
  assert (∀ x, in_foot (disk s) isec x → x ≠ isec → negb (x =? 0) = true) as Hnz.
  { intros x Hx Hne. apply negb_true_iff, Z.eqb_neq. by apply (io_nonzero _ _ Hok). }
  unfold block_ptr. destruct (Z.ltb_spec i 12) as [H1|H1].
  { apply (wp_get_word s); [done|done|lia|lia]. }
  change (12 + 128) with 140. destruct (Z.ltb_spec i 140) as [H2|H2].
  - pose proof (foot_single (disk s) isec ltac:(lia)) as Hfs.
    destruct (io_single _ _ Hok i Hib ltac:(lia)) as [_ Hne].
    read_step ltac:(by apply (wp_get_word s)). apply wp_bind, wp_assert; [by apply Hnz|].
    read_step ltac:(by apply (wp_get_word s)). unfold read_sector.
    apply wp_bind, wp_assert; [by apply Hnz|].
    apply (wp_get_word s); [done|by apply foot_range|lia|lia].
  - pose proof (foot_double (disk s) isec ltac:(lia)) as Hfd.
    pose proof (foot_index (disk s) isec i ltac:(lia)) as Hfi.
    destruct (io_double _ _ Hok i i Hib ltac:(lia)) as (_ & _ & Hne & Hne2).
    read_step ltac:(by apply (wp_get_word s)). apply wp_bind, wp_assert; [by apply Hnz|].
    apply wp_bind, wp_assert; [rewrite Z.geb_leb; apply Z.leb_le; lia|].
    read_step ltac:(by apply (wp_get_word s)). unfold read_sector at 1.
    replace (i - 12 - 128) with (i - 140) by lia.
    apply wp_bind. apply wp_bind, wp_assert; [by apply Hnz|].
    assert (i < MAX_BLOCKS) as Hmax by (by apply (num_blocks_max (disk s) isec)).
    unfold MAX_BLOCKS, NUM_DIRECT_PTRS, Indirect_Block in Hmax.
    eapply wp_mono; [apply (wp_get_word s); [done|by apply foot_range|dlia|dlia]|].
    cbv beta. intros ? ? [-> ?]. apply wp_bind, wp_assert; [by apply Hnz|].
    unfold read_sector. apply wp_bind, wp_assert; [by apply Hnz|].
    apply (wp_get_word s); [done|by apply foot_range|dlia|dlia].
Qed.

Lemma wp_byte_to_sector ino nd p s1 :
  reads s s1 → inodes s !! ino = Some nd → i_sector nd = isec →
  0 <= p < file_len (disk s) isec →
  wp (byte_to_sector ino p)
    (λ r s', r = block_ptr (disk s) isec (p / 512) ∧ reads s s') s1.
Proof.
  intros Hr Hino Hsec Hp. pose proof (io_len _ _ Hok) as Hlen.
  pose proof (num_blocks_index _ _ _ Hp) as Hib.
  pose proof (num_blocks_max _ _ _ Hok Hib) as Hmax.
  assert (∀ x, 0 <= x < num_blocks (disk s) isec →
            negb (block_ptr (disk s) isec x =? 0) = true) as Hnz.
  { intros x Hx. apply negb_true_iff, Z.eqb_neq, (io_nonzero _ _ Hok); [by constructor|].
    by apply (io_inode _ _ Hok). }
  pose proof (foot_range _ (foot_inode _ _)) as Hisec.
  unfold byte_to_sector. rewrite block_index by lia.
  apply wp_bind, wp_assert; [by apply Z.ltb_lt|].
  apply wp_bind. apply wp_the_inode with (nd := nd); [by rewrite (reads_inodes s)|].
  rewrite Hsec.
  read_step ltac:(by apply (wp_get_length s)).
  rewrite Z.geb_leb, (proj2 (Z.leb_gt _ _)) by lia.
  read_step ltac:(by apply (wp_get_length s)).
  apply wp_bind, wp_assert; [apply Z.ltb_lt; lia|].
  read_step ltac:(by apply wp_find_block).
  apply wp_bind, wp_assert; [by apply Hnz|]. by apply wp_ret.
Qed.

Lemma wp_byte_past_end ino nd p s1 :
  reads s s1 → inodes s !! ino = Some nd → i_sector nd = isec →
  file_len (disk s) isec <= p < MAX_BLOCKS * 512 →
  wp (byte_to_sector ino p) (λ r s', r = u32 (-1) ∧ reads s s') s1.
Proof.
  intros Hr Hino Hsec Hp. pose proof (io_len _ _ Hok) as Hlen.
  pose proof (foot_range _ (foot_inode _ _)) as Hisec.
  unfold byte_to_sector. rewrite block_index by lia.
  apply wp_bind, wp_assert; [apply Z.ltb_lt; unfold MAX_BLOCKS in *; dlia|].
  apply wp_bind. apply wp_the_inode with (nd := nd); [by rewrite (reads_inodes s)|].
  rewrite Hsec.
  read_step ltac:(by apply (wp_get_length s)).
  rewrite Z.geb_leb, (proj2 (Z.leb_le _ _)) by lia. by apply wp_ret.
Qed.
End byte_to_sector_spec.

(** ** Contents *)

Lemma zlen_content d isec : 0 <= file_len d isec → zlen (content d isec) = file_len d isec.
Proof. intros. unfold zlen, content. rewrite length_fmap, length_seqZ. lia. Qed.

Lemma lookup_content d isec (k : nat) :
  Z.of_nat k < file_len d isec → content d isec !! k = Some (byte_at d isec (Z.of_nat k)).
Proof.
  intros Hk. unfold content. rewrite list_lookup_fmap, lookup_seqZ_lt by done. done.
Qed.

(** A chunk inside one block. *)
Lemma chunk_content d isec p n :
  ss_inv d → inode_ok d isec → 0 <= p → 0 <= n → p mod 512 + n <= 512 →
  p + n <= file_len d isec → 0 < n →
  slice (p mod 512) n (sector_data d (block_ptr d isec (p / 512))) = slice p n (content d isec).
Proof.
  intros Hi Hok Hp Hn Hc Hlen Hpos.
  assert (0 <= p / 512 < num_blocks d isec) as Hb by (apply num_blocks_index; lia).
  destruct (sector_data_ok d (block_ptr d isec (p / 512)) Hi) as [_ Hl].
  { by apply (io_range _ _ Hok), foot_block. }
  apply list_eq. intros k. destruct (decide (k < Z.to_nat n)%nat) as [Hk|Hk].
  2: { by rewrite !lookup_slice_ge by lia. }
  rewrite !lookup_slice by (dlia || lia).
  rewrite lookup_content by lia. unfold byte_at.
  replace (Z.of_nat (Z.to_nat p + k)) with (p + Z.of_nat k) by lia.
  replace ((p + Z.of_nat k) / 512) with (p / 512) by dlia.
  replace ((p + Z.of_nat k) mod 512) with (p mod 512 + Z.of_nat k) by dlia.
  replace (Z.to_nat (p mod 512) + k)%nat with (Z.to_nat (p mod 512 + Z.of_nat k)) by dlia.
  destruct (lookup_lt_is_Some_2 (sector_data d (block_ptr d isec (p / 512)))
              (Z.to_nat (p mod 512 + Z.of_nat k))) as [b Hb'].
  { unfold zlen in Hl. dlia. }
  by rewrite Hb'.
Qed.

Lemma chunk_at_range len size offset :
  0 <= offset < len → len <= MAX_BLOCKS * 512 → 0 < size →
  let c := chunk_at len size offset in
  0 < c ∧ c <= size ∧ offset + c <= len ∧ offset mod 512 + c <= 512.
Proof.
  intros Ho Hl Hs. unfold MAX_BLOCKS, NUM_DIRECT_PTRS, Indirect_Block in Hl. unfold chunk_at.
  rewrite Z.rem_mod_nonneg by lia. rewrite s32_small by (unfold in_s32; lia).
  destruct (Z.ltb_spec (len - offset) (512 - offset mod 512));
    repeat bool_case; cbv zeta; dlia.
Qed.

Lemma chunk_at_past len size offset :
  0 <= len <= offset → offset < MAX_BLOCKS * 512 → chunk_at len size offset <= 0.
Proof.
  intros Hl Ho. unfold MAX_BLOCKS, NUM_DIRECT_PTRS, Indirect_Block in Ho. unfold chunk_at.
  rewrite Z.rem_mod_nonneg by lia. rewrite s32_small by (unfold in_s32; lia).
  destruct (Z.ltb_spec (len - offset) (512 - offset mod 512)); repeat bool_case; dlia.
Qed.

Section reading.
Context (s : fstate D) (isec ino : Z) (nd : inode).
Context (Hi : ss_inv (disk s)) (Hok : inode_ok (disk s) isec).
Context (Hino : inodes s !! ino = Some nd) (Hsec : i_sector nd = isec).
Context (Hmax : file_len (disk s) isec < MAX_BLOCKS * 512).

Lemma wp_inode_length s1 :
  reads s s1 →
  wp (inode_length ino) (λ n s', n = file_len (disk s) isec ∧ reads s s') s1.
Proof.
  intros Hr. unfold inode_length. apply wp_bind.
  apply wp_the_inode with (nd := nd); [by rewrite (reads_inodes s)|]. rewrite Hsec.
  apply wp_get_length; [done|]. apply Hok. constructor.
Qed.

Lemma wp_read_loop n : ∀ size offset s1,
  reads s s1 → 0 <= offset < MAX_BLOCKS * 512 → 0 <= size <= Z.of_nat n →
  wp (read_loop n ino size offset)
    (λ r s', r = slice offset (Z.min size (file_len (disk s) isec - offset))
                   (content (disk s) isec) ∧ reads s s') s1.
Proof.
  pose proof (io_len _ _ Hok) as Hlen.
  induction n as [|n IH]; intros size offset s1 Hr Ho Hs; simpl; rewrite Z.gtb_ltb.
  { rewrite (proj2 (Z.ltb_ge _ _)) by lia. apply wp_ret. split; [|done].
    unfold slice. by replace (Z.to_nat (Z.min _ _)) with 0%nat by lia. }
  destruct (Z.ltb_spec 0 size) as [Hpos|Hz].
  2: { apply wp_ret. split; [|done]. unfold slice.
       by replace (Z.to_nat (Z.min _ _)) with 0%nat by lia. }
  set (len := file_len (disk s) isec) in *.
  destruct (Z.le_gt_cases len offset) as [Hpast|Hin].
  { read_step ltac:(apply (wp_byte_past_end s isec Hok ino nd offset); [done..|lia]).
    read_step ltac:(by apply wp_inode_length). fold len.
    rewrite (proj2 (Z.leb_le _ _)) by (apply chunk_at_past; lia).
    apply wp_ret. split; [|done]. unfold slice.
    by replace (Z.to_nat (Z.min _ _)) with 0%nat by lia. }
  read_step ltac:(apply (wp_byte_to_sector s isec Hok ino nd offset); [done..|lia]).
  read_step ltac:(by apply wp_inode_length). fold len.
  destruct (chunk_at_range len size offset) as (Hc1 & Hc2 & Hc3 & Hc4); [lia..|].
  set (c := chunk_at len size offset) in *.
  rewrite (proj2 (Z.leb_gt c 0)) by lia. rewrite Z.rem_mod_nonneg by lia.
  assert (0 <= offset / 512 < num_blocks (disk s) isec) as Hb by (apply num_blocks_index; lia).
  read_step ltac:(apply (wp_store_read s);
    [done|by apply (io_range _ _ Hok), foot_block|dlia|lia]).
  replace (offset mod 512 + c - offset mod 512) with c by lia.
  rewrite s32_small by (unfold in_s32, MAX_BLOCKS, NUM_DIRECT_PTRS, Indirect_Block in *; lia).
  read_step ltac:(apply IH; [done|lia|lia]).
  apply wp_ret. split; [|done]. rewrite chunk_content by (done || lia).
  destruct (decide (size <= c)).
  - replace (Z.min size (len - offset)) with c by lia.
    unfold slice at 2. replace (Z.to_nat (Z.min _ _)) with 0%nat by lia. simpl.
    by rewrite app_nil_r.
  - replace (Z.min size (len - offset)) with (c + Z.min (size - c) (len - (offset + c))) by lia.
    apply slice_slice_adjacent; try lia. rewrite zlen_content by lia. fold len. lia.
Qed.
End reading.

(** ** Locking an inode *)

(** An open inode nobody has locked. *)
Record usable (s : fstate D) (ino : Z) (nd : inode) : Prop := {
  us_open : inodes s !! ino = Some nd;
  us_magic : i_magic nd = INODE_MAGIC;
  us_lock : inode_lock nd = new_lock;
  us_disk : ss_inv (disk s)
}.

Lemma fs_kernel_ok (s : fstate D) : ss_inv (disk s) → kernel_ok s.
Proof. intros Hi. exact (proj1 (ss_kernel_ok _ Hi)). Qed.

(** [s] with the lock of inode [ino] taken by the running thread. *)
Definition ilocked (s : fstate D) (ino : Z) (nd : inode) : fstate D :=
  set_inodes <[ino := with_inode_lock (held (me s)) nd]> s.

Lemma ilock_ok s ino nd : usable s ino nd → ilock ino s = Ok (tt, ilocked s ino nd).
Proof.
  intros [Hl Hm Hk Hi]. unfold ilock.
  assert (the_inode ino s = Ok (nd, s)) as Ht
    by (unfold the_inode, bind, get, deref; simpl; by rewrite Hl).
  rewrite (bind_ok _ _ _ _ _ Ht), bind_assert by (by apply Z.eqb_eq).
  rewrite lock_acquire_new; [|sync|by apply fs_kernel_ok|]; simpl; rewrite Hl; [done|].
  simpl. by rewrite Hk.
Qed.

Lemma irel_ok s ino nd :
  ss_inv (disk s) → inodes s !! ino = Some nd → inode_lock nd = held (me s) →
  irel ino s = Ok (tt, set_inodes <[ino := with_inode_lock new_lock nd]> s).
Proof.
  intros Hi Hl Hk. unfold irel.
  rewrite lock_release_held; [|sync|by apply fs_kernel_ok|]; simpl; rewrite Hl; [done|].
  simpl. by rewrite Hk.
Qed.

(** Releasing undoes the locking. *)
Lemma irel_locked s ino nd d' :
  usable s ino nd → ss_inv d' → kget d' = kget (disk s) →
  irel ino (set_disk d' (ilocked s ino nd)) = Ok (tt, set_disk d' s).
Proof.
  intros [Hl Hm Hk Hi] Hi' Hkg.
  rewrite (irel_ok _ _ (with_inode_lock (held (me s)) nd)).
  - unfold set_inodes, set_disk, ilocked. simpl. rewrite insert_insert_eq.
    rewrite insert_id; [done|]. rewrite Hl. destruct nd; simpl in *. by subst.
  - done.
  - simpl. by rewrite lookup_insert_eq.
  - unfold me, ksched. simpl. by rewrite Hkg.
Qed.

Lemma wp_read_at s ino nd size offset :
  usable s ino nd → inode_ok (disk s) (i_sector nd) →
  file_len (disk s) (i_sector nd) < MAX_BLOCKS * 512 →
  0 <= offset < MAX_BLOCKS * 512 → 0 <= size →
  wp (inode_read_at ino size offset)
    (λ r s', r = slice offset (Z.min size (file_len (disk s) (i_sector nd) - offset))
                   (content (disk s) (i_sector nd)) ∧ reads s s') s.
Proof.
  intros Hu Hok Hmax Ho Hs. pose proof (us_disk _ _ _ Hu) as Hi. unfold inode_read_at.
  apply wp_bind. eapply wp_ok; [by apply ilock_ok|].
  apply wp_bind. eapply wp_mono.
  { apply (wp_read_loop (ilocked s ino nd) (i_sector nd) ino (with_inode_lock (held (me s)) nd));
      [done|done|simpl; by rewrite lookup_insert_eq|done|done|by apply reads_refl|done|lia]. }
  intros r s' [-> (d' & -> & Hi' & Hk' & Hsz & Hv)]. apply wp_bind.
  eapply wp_ok; [by apply irel_locked|]. apply wp_ret. split; [done|]. by exists d'.
Qed.

(** ** Writing inside a file *)

(** Only data blocks of the inode at [isec] change from [d] to [d']. *)
Definition data_only (d d' : D) (isec : Z) : Prop :=
  ∀ x, 0 <= x → (∀ i, 0 <= i < num_blocks d isec → x ≠ block_ptr d isec i) →
    ss_view d' x = ss_view d x.

(** The inode's own sector and its index blocks do not change. *)
Definition meta_same (d d' : D) (isec : Z) : Prop :=
  ∀ x, in_foot d isec x → (∀ i, 0 <= i < num_blocks d isec → x ≠ block_ptr d isec i) →
    ss_view d' x = ss_view d x.

Lemma data_only_meta d d' isec :
  inode_ok d isec → data_only d d' isec → meta_same d d' isec.
Proof. intros Hok Hd x Hx. apply Hd. by apply (io_range _ _ Hok) in Hx as [? _]. Qed.

Section frame.
Context (d d' : D) (isec : Z).
Context (Hok : inode_ok d isec) (Hd : meta_same d d' isec) (Hsz : ss_size d' = ss_size d).

Lemma frame_word x ofs :
  in_foot d isec x → (∀ i, 0 <= i < num_blocks d isec → block_ptr d isec i ≠ x) →
  word d' x ofs = word d x ofs.
Proof.
  intros Hx Hne. unfold word, sector_data. rewrite Hd; [done|done|].
  intros i Hib ->. by apply (Hne i).
Qed.

Lemma foot_pos x : in_foot d isec x → 0 <= x.
Proof. intros Hx%(io_range _ _ Hok). lia. Qed.

Lemma frame_isec ofs : word d' isec ofs = word d isec ofs.
Proof.
  apply frame_word; [constructor|]. intros i Hib. by apply (io_inode _ _ Hok).
Qed.

Lemma frame_len : file_len d' isec = file_len d isec.
Proof. unfold file_len. by rewrite frame_isec. Qed.

Lemma frame_blocks : num_blocks d' isec = num_blocks d isec.
Proof. unfold num_blocks. by rewrite frame_len. Qed.

Lemma frame_index i : 140 <= i < num_blocks d isec → index_ptr d' isec i = index_ptr d isec i.
Proof.
  intros Hib. unfold index_ptr, double_ptr. rewrite frame_isec. fold (double_ptr d isec).
  apply frame_word; [apply foot_double; lia|].
  intros j Hj. by destruct (io_double _ _ Hok j i Hj Hib).
Qed.

Lemma frame_block i : 0 <= i < num_blocks d isec → block_ptr d' isec i = block_ptr d isec i.
Proof.
  intros Hib. unfold block_ptr. destruct (Z.ltb_spec i 12); [apply frame_isec|].
  destruct (Z.ltb_spec i 140).
  - unfold single_ptr. rewrite frame_isec. fold (single_ptr d isec).
    apply frame_word; [apply foot_single; lia|].
    intros j Hj. by destruct (io_single _ _ Hok j Hj ltac:(lia)).
  - rewrite frame_index by lia. apply frame_word; [by apply foot_index; lia|].
    intros j Hj. by destruct (io_double _ _ Hok j i Hj ltac:(lia)) as (_ & ? & _).
Qed.

Lemma frame_foot x : in_foot d' isec x ↔ in_foot d isec x.
Proof.
  pose proof frame_blocks as Hn.
  assert (single_ptr d' isec = single_ptr d isec) as Hs by (unfold single_ptr; apply frame_isec).
  assert (double_ptr d' isec = double_ptr d isec) as Hdb by (unfold double_ptr; apply frame_isec).
  split; intros [|i Hib|Hib|Hib|i Hib]; rewrite ?Hn in *.
  - constructor.
  - rewrite frame_block by done. by constructor.
  - rewrite Hs. by constructor.
  - rewrite Hdb. by constructor.
  - rewrite frame_index by done. by constructor.
  - constructor.
  - rewrite <- frame_block by done. constructor. by rewrite Hn.
  - rewrite <- Hs. constructor. by rewrite Hn.
  - rewrite <- Hdb. constructor. by rewrite Hn.
  - rewrite <- frame_index by done. constructor. by rewrite Hn.
Qed.

Lemma frame_ok : inode_ok d' isec.
Proof.
  pose proof frame_blocks as Hn.
  split; rewrite ?frame_len, ?Hn, ?Hsz.
  - apply Hok.
  - intros x Hx%frame_foot. by apply Hok.
  - intros x Hx%frame_foot. by apply Hok.
  - intros i j Hib Hj. rewrite !frame_block by done. by apply Hok.
  - intros i Hib. rewrite frame_block by done. by apply Hok.
  - intros i Hib Hs. rewrite frame_block by done. unfold single_ptr. rewrite frame_isec.
    by apply (io_single _ _ Hok).
  - intros i j Hib Hj. rewrite frame_block, frame_index by done. unfold double_ptr.
    rewrite frame_isec. by apply (io_double _ _ Hok).
Qed.
End frame.

Lemma content_ext d d' isec :
  file_len d' isec = file_len d isec →
  (∀ p, 0 <= p < file_len d isec → byte_at d' isec p = byte_at d isec p) →
  content d' isec = content d isec.
Proof.
  intros Hl Hb. unfold content. rewrite Hl. apply list_fmap_ext.
  intros k p [Hk ?]%lookup_seqZ. apply Hb. lia.
Qed.

(** An inode none of whose sectors change keeps its contents. *)
Lemma foot_same d d' isec :
  inode_ok d isec → (∀ y, in_foot d isec y → ss_view d' y = ss_view d y) →
  meta_same d d' isec ∧ content d' isec = content d isec.
Proof.
  intros Hok Hv. assert (meta_same d d' isec) as Hd by (intros x Hx _; by apply Hv).
  split; [done|]. apply content_ext; [by apply frame_len|]. intros p Hp.
  pose proof (num_blocks_index _ _ _ Hp) as Hb.
  unfold byte_at. rewrite (frame_block d) by done. unfold sector_data.
  rewrite Hv; [done|]. by apply foot_block.
Qed.

Lemma same_view_content d d' isec :
  inode_ok d isec → (∀ y, 0 <= y → ss_view d' y = ss_view d y) →
  data_only d d' isec ∧ content d' isec = content d isec.
Proof.
  intros Hok Hv. split; [intros x Hx _; by apply Hv|].
  apply foot_same; [done|]. intros y Hy. apply Hv. by apply (foot_pos d isec Hok).
Qed.

Lemma data_only_trans d d1 d2 isec :
  inode_ok d isec → data_only d d1 isec → data_only d1 d2 isec → data_only d d2 isec.
Proof.
  intros Hok H1 H2 x Hx Hne. pose proof (data_only_meta _ _ _ Hok H1).
  rewrite H2, H1; [done..|]. intros i. rewrite (frame_blocks d) by done. intros Hi. rewrite (frame_block d) by done. by apply Hne.
Qed.

(** One chunk written into one block. *)
Lemma write_chunk d d' isec p data :
  ss_inv d → inode_ok d isec → 0 <= p → 0 < zlen data → p mod 512 + zlen data <= 512 →
  p + zlen data <= file_len d isec →
  (∀ y, 0 <= y → ss_view d' y =
     if decide (y = block_ptr d isec (p / 512))
     then Some (splice (p mod 512) data (sector_data d (block_ptr d isec (p / 512))))
     else ss_view d y) →
  data_only d d' isec ∧ content d' isec = splice p data (content d isec).
Proof.
  intros Hi Hok Hp Hn Hc Hlen Hv.
  assert (0 <= p / 512 < num_blocks d isec) as Hb by (apply num_blocks_index; lia).
  assert (data_only d d' isec) as Hd.
  { intros x Hx Hne. rewrite Hv by done. rewrite decide_False; [done|]. by apply Hne. }
  split; [done|]. apply data_only_meta in Hd; [|done].
  destruct (sector_data_ok d (block_ptr d isec (p / 512)) Hi) as [_ Hl].
  { by apply (io_range _ _ Hok), foot_block. }
  apply list_eq. intros k. rewrite lookup_splice by (try rewrite zlen_content; lia).
  assert (file_len d' isec = file_len d isec) as Hfl by (by apply frame_len).
  destruct (decide (Z.of_nat k < file_len d isec)) as [Hk|Hk].
  2: { rewrite !lookup_ge_None_2;
         [by case_decide; [unfold zlen in *; lia|]|..];
       pose proof (zlen_content d isec ltac:(lia)); pose proof (zlen_content d' isec ltac:(lia));
       unfold zlen in *; lia. }
  rewrite !lookup_content by lia.
  pose proof (num_blocks_index d isec (Z.of_nat k) ltac:(lia)) as Hkb.
  unfold byte_at. rewrite (frame_block d) by done. unfold sector_data at 1.
  rewrite Hv by (by apply (foot_pos d isec Hok), foot_block).
  destruct (decide (block_ptr d isec (Z.of_nat k / 512) = block_ptr d isec (p / 512))) as [E|E].
  - apply (io_inj _ _ Hok) in E; [|done..]. simpl.
    rewrite lookup_splice by (dlia || lia). unfold zlen in *.
    destruct (decide (Z.to_nat p <= k < Z.to_nat p + length data)%nat) as [Hin|Hout].
    + rewrite decide_True by dlia.
      replace (Z.to_nat (Z.of_nat k mod 512) - Z.to_nat (p mod 512))%nat
        with (k - Z.to_nat p)%nat by dlia.
      destruct (lookup_lt_is_Some_2 data (k - Z.to_nat p)%nat) as [v Hv']; [lia|].
      by rewrite Hv'.
    + rewrite decide_False by dlia. rewrite E. done.
  - rewrite decide_False; [done|]. intros Hin. apply E. f_equal. unfold zlen in *. dlia.
Qed.

(** [s'] is [s] after writes to data blocks of [isec] that left contents [c]. *)
Definition rewrites (s s' : fstate D) (isec : Z) (c : list Z) : Prop :=
  ∃ d', s' = set_disk d' s ∧ ss_inv d' ∧ kget d' = kget (disk s) ∧
        ss_size d' = ss_size (disk s) ∧ data_only (disk s) d' isec ∧ content d' isec = c.

Lemma reads_rewrites s s' isec :
  inode_ok (disk s) isec → reads s s' → rewrites s s' isec (content (disk s) isec).
Proof.
  intros Hok (d' & -> & Hi & Hk & Hsz & Hv). exists d'. split_and!; try done;
    by apply same_view_content.
Qed.

Lemma rewrites_trans s s1 s2 isec c1 c2 :
  inode_ok (disk s) isec → rewrites s s1 isec c1 → rewrites s1 s2 isec c2 →
  rewrites s s2 isec c2.
Proof.
  intros Hok (d1 & -> & Hi1 & Hk1 & Hs1 & Hd1 & _) (d2 & -> & Hi2 & Hk2 & Hs2 & Hd2 & Hc2).
  simpl in *. exists d2. split_and!; try done; try congruence. by eapply data_only_trans.
Qed.

Lemma wp_store_write s x data st en :
  ss_inv (disk s) → 0 <= x < ss_size (disk s) → 0 <= st <= en → en <= 512 →
  en - st <= zlen data →
  wp (on_store (ss_write x data st en))
    (λ _ s', ∃ d', s' = set_disk d' s ∧ ss_inv d' ∧ kget d' = kget (disk s) ∧
       ss_size d' = ss_size (disk s) ∧
       ∀ y, 0 <= y → ss_view d' y =
         if decide (y = x) then Some (splice st (slice 0 (en - st) data) (sector_data (disk s) x))
         else ss_view (disk s) y) s.
Proof.
  intros Hi Hx Hst Hen Hl. unfold on_store. apply wp_lift.
  destruct (sector_data_ok _ _ Hi Hx) as [Hv _].
  eapply wp_mono; [by apply (ss_write_ok _ x data st en (sector_data (disk s) x))|].
  intros [] d' (Hi' & Hk' & Hsz & Hv'). by exists d'.
Qed.

Lemma slice_drop (l : list Z) w c :
  0 <= w → slice 0 c (drop (Z.to_nat w) l) = slice w c l.
Proof. intros. unfold slice. by rewrite drop_0. Qed.

Lemma rewrites_ok s s' isec c :
  inode_ok (disk s) isec → rewrites s s' isec c →
  inode_ok (disk s') isec ∧ ss_inv (disk s') ∧ file_len (disk s') isec = file_len (disk s) isec ∧
  inodes s' = inodes s ∧ content (disk s') isec = c.
Proof.
  intros Hok (d' & -> & Hi & Hk & Hsz & Hd%(data_only_meta _ _ _ Hok) & Hc). simpl.
  split_and!; try done; [by apply (frame_ok (disk s))|by apply frame_len].
Qed.

(** Writing [size] bytes that lie inside the file. *)
Lemma wp_write_loop ino nd isec buffer n : ∀ s size offset written,
  inodes s !! ino = Some nd → i_sector nd = isec → ss_inv (disk s) →
  inode_ok (disk s) isec → 0 <= offset → 0 <= size <= Z.of_nat n →
  offset + size <= file_len (disk s) isec → 0 <= written → written + size <= zlen buffer →
  wp (write_loop n ino buffer size offset written)
    (λ r s', r = written + size ∧
       rewrites s s' isec (splice offset (slice written size buffer) (content (disk s) isec))) s.
Proof.
  assert (∀ s offset written, ss_inv (disk s) → inode_ok (disk s) isec →
    rewrites s s isec (splice offset (slice written 0 buffer) (content (disk s) isec))) as Hstop.
  { intros s offset written Hi Hok. replace (slice written 0 buffer) with (@nil Z) by done.
    rewrite splice_nil. apply reads_rewrites; [done|by apply reads_refl]. }
  induction n as [|n IH]; intros s size offset written Hino Hsec Hi Hok Ho Hs Hlen Hw Hbuf;
    simpl; rewrite Z.gtb_ltb.
  { rewrite (proj2 (Z.ltb_ge _ _)) by lia. apply wp_ret.
    replace size with 0 by lia. split; [lia|by apply Hstop]. }
  destruct (Z.ltb_spec 0 size) as [Hpos|Hz].
  2: { apply wp_ret. replace size with 0 by lia. split; [lia|by apply Hstop]. }
  pose proof (io_len _ _ Hok) as Hfl.
  read_step ltac:(apply (wp_byte_to_sector s isec Hok ino nd offset);
                  [by apply reads_refl|done|done|lia]).
  read_step ltac:(by apply (wp_inode_length s isec ino nd)).
  set (len := file_len (disk s) isec) in *.
  destruct (chunk_at_range len size offset) as (Hc1 & Hc2 & Hc3 & Hc4); [lia..|].
  set (c := chunk_at len size offset) in *.
  rewrite (proj2 (Z.leb_gt c 0)) by lia. rewrite Z.rem_mod_nonneg by lia.
  match goal with H : reads s ?s2 |- _ => rename s2 into s1; rename H into Hr1 end.
  assert (0 <= offset / 512 < num_blocks (disk s) isec) as Hb by (apply num_blocks_index; lia).
  assert (zlen (slice written c buffer) = c) as Hcl by (apply zlen_slice; lia).
  apply wp_bind. eapply wp_mono.
  { apply wp_store_write; [by eapply reads_inv| |dlia|lia|].
    - rewrite (reads_size s s1) by done. by apply (io_range _ _ Hok), foot_block.
    - unfold zlen. rewrite length_drop. unfold zlen in Hbuf. lia. }
  intros [] s2 (d2 & -> & Hi2 & Hk2 & Hsz2 & Hv2).
  replace (offset mod 512 + c - offset mod 512) with c in Hv2 by lia.
  rewrite slice_drop in Hv2 by lia.
  assert (rewrites s (set_disk d2 s1) isec (splice offset (slice written c buffer)
            (content (disk s) isec))) as Hrw.
  { destruct Hr1 as (d1 & -> & Hi1 & Hk1 & Hsz1 & Hv1). simpl in *. exists d2.
    destruct (write_chunk (disk s) d2 isec offset (slice written c buffer)) as [Hd2 Hc2'];
      try done; try lia; [|split_and!; done || congruence].
    intros y Hy. rewrite Hv2 by done. unfold sector_data. case_decide.
    - rewrite Hv1; [done|]. by apply (foot_pos _ _ Hok), foot_block.
    - by apply Hv1. }
  destruct (rewrites_ok _ _ _ _ Hok Hrw) as (Hok2 & _ & Hl2 & Hin2 & Hct2).
  rewrite s32_small by (unfold in_s32, MAX_BLOCKS, NUM_DIRECT_PTRS, Indirect_Block in *; lia).
  eapply wp_mono.
  { apply IH; [by rewrite Hin2|done|done|done|lia|lia|simpl in *; lia|lia|lia]. }
  intros r s3 [-> Hrw3]. split; [lia|]. rewrite Hct2 in Hrw3.
  replace (offset + c) with (offset + zlen (slice written c buffer)) in Hrw3 by lia.
  rewrite splice_splice_adjacent, slice_slice_adjacent in Hrw3
    by (rewrite ?Hcl, ?zlen_slice, ?zlen_content; lia).
  replace (c + (size - c)) with size in Hrw3 by lia. by eapply rewrites_trans.
Qed.

Lemma sector_index p : 0 <= p < MAX_BLOCKS * 512 → bytes_to_sector_index p = p / 512.
Proof.
  intros Hp. unfold bytes_to_sector_index, MAX_BLOCKS, NUM_DIRECT_PTRS, Indirect_Block in *.
  rewrite Z.quot_div_nonneg by lia. apply u32_small. unfold in_u32. dlia.
Qed.

(** No growth is needed for a write inside the file. *)
Lemma wp_extend_inside write_rec s ino nd isec new_length :
  inodes s !! ino = Some nd → i_sector nd = isec → ss_inv (disk s) → inode_ok (disk s) isec →
  0 < file_len (disk s) isec → 0 <= new_length <= file_len (disk s) isec →
  wp (inode_extend_to_bytes write_rec ino new_length) (λ r s', r = true ∧ reads s s') s.
Proof.
  intros Hino Hsec Hi Hok Hpos Hnew. pose proof (io_len _ _ Hok) as Hlen.
  assert (0 <= isec < ss_size (disk s)) as Hr by (apply Hok; constructor).
  unfold inode_extend_to_bytes. apply wp_bind. eapply wp_the_inode; [done|]. rewrite Hsec.
  read_step ltac:(apply (wp_get_length s); [by apply reads_refl|done]).
  read_step ltac:(by apply (wp_get_length s)).
  set (len := file_len (disk s) isec) in *.
  rewrite (proj2 (Z.eqb_neq len 0)) by lia.
  assert (bytes_to_sector_index (s32 (len - 1)) = (len - 1) / 512) as ->.
  { rewrite s32_small by (unfold in_s32, MAX_BLOCKS, NUM_DIRECT_PTRS, Indirect_Block in *; lia).
    apply sector_index. lia. }
  assert (bytes_to_sector_index (s32 (new_length - 1)) <= (len - 1) / 512) as Hto.
  { rewrite s32_small by (unfold in_s32, MAX_BLOCKS, NUM_DIRECT_PTRS, Indirect_Block in *; lia).
    destruct (decide (new_length = 0)) as [->|];
      [replace (bytes_to_sector_index (0 - 1)) with 0 by reflexivity; dlia|].
    rewrite sector_index by lia. dlia. }
  rewrite Z.geb_leb, (proj2 (Z.leb_le _ _)) by done.
  read_step ltac:(by apply (wp_get_length s)). fold len.
  rewrite (proj2 (Z.ltb_ge _ _)) by lia. apply wp_bind, wp_ret. by apply wp_ret.
Qed.

Lemma wp_write_inside s n ino nd buffer size offset :
  usable s ino nd → inode_ok (disk s) (i_sector nd) → deny_write_cnt nd = 0 →
  0 < file_len (disk s) (i_sector nd) → 0 <= offset → 0 <= size <= zlen buffer →
  offset + size <= file_len (disk s) (i_sector nd) →
  wp (inode_write_at (S n) ino buffer size offset)
    (λ r s', r = size ∧
       rewrites s s' (i_sector nd)
         (splice offset (slice 0 size buffer) (content (disk s) (i_sector nd)))) s.
Proof.
  intros Hu Hok Hdeny Hpos Ho Hs Hlen. pose proof (us_disk _ _ _ Hu) as Hi.
  pose proof (io_len _ _ Hok) as Hfl. cbn [inode_write_at]. unfold write_body.
  set (nd' := with_inode_lock (held (me s)) nd). set (s1 := ilocked s ino nd).
  assert (inodes s1 !! ino = Some nd') as Hs1 by (simpl; by rewrite lookup_insert_eq).
  apply wp_bind. eapply wp_ok; [by apply ilock_ok|]. fold s1.
  rewrite s32_small by (unfold in_s32, MAX_BLOCKS, NUM_DIRECT_PTRS, Indirect_Block in *; lia).
  apply wp_bind. eapply wp_mono.
  { apply (wp_extend_inside _ s1 ino nd' (i_sector nd)); try done. simpl. lia. }
  intros ? s2 [-> Hr]. pose proof Hr as (d2 & E2 & Hi2 & Hk2 & Hsz2 & Hv2). subst s2.
  apply wp_bind. apply wp_the_inode with (nd := nd'); [done|].
  change (deny_write_cnt nd') with (deny_write_cnt nd). rewrite Hdeny. cbn [Z.eqb negb].
  destruct (same_view_content (disk s) d2 (i_sector nd) Hok Hv2) as [Hd2 Hc2].
  pose proof (data_only_meta _ _ _ Hok Hd2) as Hm2.
  assert (inode_ok d2 (i_sector nd)) as Hok2 by (by apply (frame_ok (disk s))).
  assert (file_len d2 (i_sector nd) = file_len (disk s) (i_sector nd)) as Hl2
    by (by apply frame_len).
  apply wp_bind. eapply wp_mono.
  { apply (wp_write_loop ino nd' (i_sector nd) buffer (Z.to_nat size) (set_disk d2 s1) size offset 0);
      [done|done|done|done|lia|lia|cbn [disk set_disk]; lia|lia|lia]. }
  intros r s3 [-> (d3 & -> & Hi3 & Hk3 & Hsz3 & Hd3 & Hc3)].
  cbn [disk set_disk] in Hk3, Hsz3, Hd3, Hc3.
  assert (kget d3 = kget (disk s)) as Hk by (by rewrite Hk3).
  apply wp_bind. eapply wp_ok; [by apply (irel_locked s ino nd d3)|].
  apply wp_ret. split; [lia|]. exists d3. rewrite Hc3, Hc2.
  split_and!; [done|done|done|by rewrite Hsz3| |done].
  exact (data_only_trans _ _ _ _ Hok Hd2 Hd3).
Qed.

(** ** Small files *)

Lemma one_block_ok d isec x :
  0 < file_len d isec <= 512 → block_ptr d isec 0 = x → 0 <= isec < ss_size d →
  0 < x < ss_size d → x ≠ isec →
  inode_ok d isec ∧ ∀ y, in_foot d isec y → y = isec ∨ y = x.
Proof.
  intros Hl Hb Hi Hx Hne.
  assert (num_blocks d isec = 1) as Hn by (unfold num_blocks; dlia).
  assert (∀ i, 0 <= i < num_blocks d isec → block_ptr d isec i = x) as Hbi.
  { intros i Hib. by replace i with 0 by lia. }
  assert (∀ y, in_foot d isec y → y = isec ∨ y = x) as Hf.
  { intros y [|i Hib| | |]; [by left|right; by apply Hbi|lia..]. }
  split; [|done]. split.
  - unfold MAX_BLOCKS, NUM_DIRECT_PTRS, Indirect_Block. lia.
  - intros y [->| ->]%Hf; lia.
  - intros y [->| ->]%Hf; [done|lia].
  - intros. lia.
  - intros i Hib. by rewrite Hbi.
  - intros. lia.
  - intros. lia.
Qed.

(** ** Other files *)

(** Writes to data blocks of [isec] do not reach a file whose sectors are
    disjoint from them. *)
Lemma rewrites_other s s' isec isec' c :
  rewrites s s' isec c → inode_ok (disk s) isec' →
  (∀ x i, in_foot (disk s) isec' x → 0 <= i < num_blocks (disk s) isec →
     x ≠ block_ptr (disk s) isec i) →
  inode_ok (disk s') isec' ∧ content (disk s') isec' = content (disk s) isec'.
Proof.
  intros (d' & -> & _ & _ & Hsz & Hd & _) Hok Hdis. simpl.
  destruct (foot_same (disk s) d' isec' Hok) as [Hm Hc].
  { intros y Hy. apply Hd; [by apply (foot_pos _ _ Hok)|]. intros i Hib. by apply Hdis. }
  split; [|done]. by apply (frame_ok (disk s)).
Qed.

(** ** Writes that are denied *)

Lemma slice_word_set ofs v (b : list Z) :
  0 <= ofs → ofs + 4 <= zlen b → in_u32 v →
  le_val (slice ofs 4 (splice ofs (slice 0 4 (le_bytes 4 v)) b)) = v.
Proof.
  intros Ho Hl Hv.
  assert (slice 0 4 (le_bytes 4 v) = le_bytes 4 v) as ->.
  { pose proof (slice_all (le_bytes 4 v)) as H1. by rewrite zlen_le_bytes in H1. }
  pose proof (slice_splice_same ofs (le_bytes 4 v) b) as H2.
  rewrite zlen_le_bytes in H2. change (Z.of_nat 4) with 4 in H2.
  rewrite H2 by lia. by apply le_val_u32.
Qed.

(** Storing a word in sector [x]. *)
Lemma wp_set_word s x ofs v :
  ss_inv (disk s) → 0 <= x < ss_size (disk s) → 0 <= ofs → ofs + 4 <= 512 → in_u32 (u32 v) →
  wp (set_word x ofs v)
    (λ _ s', ∃ d', s' = set_disk d' s ∧ ss_inv d' ∧ kget d' = kget (disk s) ∧
       ss_size d' = ss_size (disk s) ∧ word d' x ofs = u32 v ∧
       (∀ o, 0 <= o → o + 4 <= ofs ∨ ofs + 4 <= o → word d' x o = word (disk s) x o) ∧
       ∀ y, 0 <= y → y ≠ x → ss_view d' y = ss_view (disk s) y) s.
Proof.
  intros Hi Hx Ho Hle Hv. unfold set_word.
  destruct (sector_data_ok _ _ Hi Hx) as [_ Hl].
  eapply wp_mono; [apply wp_store_write; [done|done|lia|lia|rewrite zlen_le_bytes; lia]|].
  intros [] s' (d' & -> & Hi' & Hk & Hsz & Hv'). exists d'.
  replace (ofs + 4 - ofs) with 4 in Hv' by lia.
  assert (zlen (slice 0 4 (le_bytes 4 (u32 v))) = 4) as Hz
    by (rewrite zlen_slice; rewrite ?zlen_le_bytes; lia).
  split_and!; try done.
  - unfold word, sector_data at 1. rewrite Hv', decide_True by (done || lia). simpl.
    apply slice_word_set; [lia|lia|done].
  - intros o Ho' Hdis. unfold word, sector_data at 1. rewrite Hv', decide_True by (done || lia).
    cbn [from_option]. f_equal. unfold id. apply slice_splice_disjoint; lia.
  - intros y Hy Hne. rewrite Hv' by done. by rewrite decide_False.
Qed.

Lemma wp_set_length s isec len :
  ss_inv (disk s) → 0 <= isec < ss_size (disk s) → 0 <= len < 2147483648 →
  wp (inode_set_length isec len)
    (λ _ s', ∃ d', s' = set_disk d' s ∧ ss_inv d' ∧ kget d' = kget (disk s) ∧
       ss_size d' = ss_size (disk s) ∧ file_len d' isec = len ∧
       (∀ o, 4 <= o → word d' isec o = word (disk s) isec o) ∧
       ∀ y, 0 <= y → y ≠ isec → ss_view d' y = ss_view (disk s) y) s.
Proof.
  intros Hi Hs Hl. unfold inode_set_length.
  eapply wp_mono; [apply wp_set_word; [done|done|lia|lia|apply u32_range]|].
  intros [] s' (d' & -> & Hi' & Hk & Hsz & Hw & Hwo & Hv). exists d'. split_and!; try done.
  - unfold file_len. rewrite Hw, u32_small, s32_small; unfold in_u32, in_s32; lia.
  - intros o Ho. apply Hwo; lia.
Qed.

(** A write to an inode whose writes are denied, past the end of the file but
    inside its last sector. *)
Lemma wp_write_denied s n ino nd buffer size offset :
  usable s ino nd → inode_ok (disk s) (i_sector nd) → deny_write_cnt nd ≠ 0 →
  0 < file_len (disk s) (i_sector nd) < offset + size → 0 <= offset → 0 <= size →
  (offset + size - 1) / 512 = (file_len (disk s) (i_sector nd) - 1) / 512 →
  wp (inode_write_at (S n) ino buffer size offset)
    (λ r s', r = 0 ∧ file_len (disk s') (i_sector nd) = offset + size) s.
Proof.
  intros Hu Hok Hdeny Hlen Ho Hs Hblk. pose proof (us_disk _ _ _ Hu) as Hi.
  pose proof (io_len _ _ Hok) as Hfl.
  assert (0 <= i_sector nd < ss_size (disk s)) as Hr by (apply Hok; constructor).
  unfold MAX_BLOCKS, NUM_DIRECT_PTRS, Indirect_Block in Hfl.
  set (len := file_len (disk s) (i_sector nd)) in *. set (new := offset + size) in *.
  assert (new <= 8460288) as Hnew by dlia.
  assert (∀ x, 0 < x <= 8460288 → bytes_to_sector_index (s32 (x - 1)) = (x - 1) / 512) as Hidx.
  { intros x Hx. rewrite s32_small by (unfold in_s32; lia). apply sector_index.
    unfold MAX_BLOCKS, NUM_DIRECT_PTRS, Indirect_Block. lia. }
  cbn [inode_write_at]. unfold write_body.
  set (nd' := with_inode_lock (held (me s)) nd). set (s1 := ilocked s ino nd).
  assert (inodes s1 !! ino = Some nd') as Hs1 by (simpl; by rewrite lookup_insert_eq).
  apply wp_bind. eapply wp_ok; [by apply ilock_ok|]. fold s1 new.
  rewrite s32_small by (unfold in_s32; lia).
  apply wp_bind. unfold inode_extend_to_bytes. apply wp_bind.
  eapply wp_the_inode; [done|]. change (i_sector nd') with (i_sector nd).
  read_step ltac:(apply (wp_get_length s1); [by apply reads_refl|done]).
  read_step ltac:(by apply (wp_get_length s1)).
  change (file_len (disk s1) (i_sector nd)) with len.
  rewrite (proj2 (Z.eqb_neq len 0)) by lia.
  rewrite !Hidx, Z.geb_leb, (proj2 (Z.leb_le _ _)) by lia.
  read_step ltac:(by apply (wp_get_length s1)).
  change (file_len (disk s1) (i_sector nd)) with len.
  rewrite (proj2 (Z.ltb_lt len new)) by lia.
  match goal with H : reads s1 ?s2 |- wp _ _ ?s2 => destruct H as (d2 & -> & Hi2 & Hk2 & Hsz2 & Hv2) end.
  apply wp_bind. eapply wp_mono.
  { apply wp_set_length; [done|cbn [disk set_disk]; rewrite Hsz2; exact Hr|lia]. }
  intros [] s3 (d3 & -> & Hi3 & Hk3 & Hsz3 & Hl3 & _). apply wp_ret.
  apply wp_bind. eapply wp_the_inode; [done|].
  change (deny_write_cnt nd') with (deny_write_cnt nd).
  rewrite (proj2 (Z.eqb_neq _ _)) by done. cbn [negb].
  apply wp_bind. eapply wp_ok; [apply (irel_locked s ino nd d3); [done|done|by rewrite Hk3]|].
  apply wp_ret. split; [done|]. exact Hl3.
Qed.

(** Creating an empty inode writes its length, its flag and its magic number
    and nothing else. *)
Lemma wp_create_empty n s sector :
  ss_inv (disk s) → 0 <= sector < ss_size (disk s) →
  wp (inode_create n sector 0)
    (λ r s', r = true ∧ file_len (disk s') sector = 0 ∧ free_map s' = free_map s ∧
       ∀ i, 0 <= i < 14 → word (disk s') sector (8 + 4 * i) = word (disk s) sector (8 + 4 * i)) s.
Proof.
  intros Hi Hs. unfold inode_create, inode_create_wild. apply wp_bind, wp_assert; [done|].
  change (bytes_to_sectors 0) with 0. unfold can_allocate.
  apply wp_bind, wp_bind, wp_ret, wp_bind, wp_ret, wp_ret. cbn [fst].
  apply wp_bind. eapply wp_mono; [apply wp_set_length; [done|done|lia]|].
  intros [] s1 (d1 & -> & Hi1 & Hk1 & Hsz1 & Hl1 & Hw1 & _).
  apply wp_bind. eapply wp_mono.
  { apply (wp_set_word _ sector 4 0); [done|cbn [disk set_disk]; lia|lia|lia|apply u32_range]. }
  intros [] s2 (d2 & -> & Hi2 & Hk2 & Hsz2 & _ & Hw2 & _). cbn [disk set_disk] in *.
  apply wp_bind. eapply wp_mono.
  { apply (wp_set_word _ sector (8 + 4 * NUM_DIRECT_PTRS + 8) INODE_MAGIC);
      [done|cbn [disk set_disk]; lia|done|done|apply u32_range]. }
  intros [] s3 (d3 & -> & Hi3 & Hk3 & Hsz3 & _ & Hw3 & _). cbn [disk set_disk] in *.
  unfold inode_extend_start. apply wp_bind, wp_ret, wp_ret. cbn [disk set_disk free_map].
  unfold NUM_DIRECT_PTRS in Hw3. split_and!; try done.
  - unfold file_len in *. rewrite Hw3, Hw2 by lia. done.
  - intros i Hib. rewrite Hw3, Hw2, Hw1 by lia. done.
Qed.

(** ** Opening and closing *)

(** The table of open inodes: its entries are allocated, no sector is open
    twice, and addresses not handed out yet are unused. *)
Record open_table (s : fstate D) : Prop := {
  ot_nodup : NoDup (open_inodes s);
  ot_alloc : ∀ p, p ∈ open_inodes s → ∃ nd, inodes s !! p = Some nd ∧
    i_magic nd = INODE_MAGIC ∧ inode_lock nd = new_lock ∧ 1 <= open_cnt nd < 2147483647;
  ot_unique : ∀ p q nd nd', p ∈ open_inodes s → q ∈ open_inodes s →
    inodes s !! p = Some nd → inodes s !! q = Some nd' → i_sector nd = i_sector nd' → p = q;
  ot_fresh : ∀ p, next_ptr s <= p → inodes s !! p = None ∧ p ∉ open_inodes s;
  ot_lock : open_lock s = new_lock;
  ot_disk : ss_inv (disk s)
}.

Lemma wp_find_open (s : fstate D) sector l :
  (∀ p, p ∈ l → is_Some (inodes s !! p)) →
  wp (find_open sector l)
    (λ o s', s' = s ∧
       match o with
       | Some p => p ∈ l ∧ ∃ nd, inodes s !! p = Some nd ∧ i_sector nd = sector
       | None => ∀ p nd, p ∈ l → inodes s !! p = Some nd → i_sector nd ≠ sector
       end) s.
Proof.
  induction l as [|p l IH]; intros Hl; cbn [find_open].
  { apply wp_ret. split; [done|]. intros p nd Hp. by apply elem_of_nil in Hp. }
  destruct (Hl p) as [nd Hnd]; [left|]. apply wp_bind. eapply wp_the_inode; [done|].
  destruct (Z.eqb_spec (i_sector nd) sector) as [E|E].
  { apply wp_ret. split; [done|]. split; [left|]. by exists nd. }
  eapply wp_mono; [apply IH; intros q Hq; apply Hl; by right|].
  intros o s' [-> Ho]. split; [done|]. destruct o as [q|].
  - destruct Ho as [? ?]. split; [by right|done].
  - intros q nd' [->|Hq]%elem_of_cons Hnd'; [congruence|by eapply Ho].
Qed.

(** An inode with one opener more. *)
Definition opened (nd : inode) : inode :=
  mk_inode (i_sector nd) (open_cnt nd + 1) (removed nd) (deny_write_cnt nd) (i_magic nd)
    (inode_lock nd) (inode_dir_lock nd).

Lemma open_lock_acquire s :
  ss_inv (disk s) → open_lock s = new_lock →
  lock_acquire p_open_lock s = Ok (tt, pstore p_open_lock (held (me s)) s).
Proof.
  intros Hi Hl. apply lock_acquire_new; [sync|by apply fs_kernel_ok|simpl; by rewrite Hl].
Qed.

Lemma open_lock_release s :
  ss_inv (disk s) → open_lock s = held (me s) →
  lock_release p_open_lock s = Ok (tt, pstore p_open_lock new_lock s).
Proof.
  intros Hi Hl. apply lock_release_held; [sync|by apply fs_kernel_ok|simpl; by rewrite Hl].
Qed.

Definition fresh_inode (sector : Z) : inode :=
  mk_inode sector 1 false 0 INODE_MAGIC new_lock new_lock.

(** inode_open() finds the inode of an open sector, or adds one. *)
Lemma wp_inode_open s sector :
  open_table s →
  wp (inode_open sector)
    (λ ino s', disk s' = disk s ∧ open_lock s' = new_lock ∧ dirs s' = dirs s ∧
       ((ino ∈ open_inodes s ∧ open_inodes s' = open_inodes s ∧ next_ptr s' = next_ptr s ∧
         ∃ nd, inodes s !! ino = Some nd ∧ i_sector nd = sector ∧
               inodes s' = <[ino := opened nd]> (inodes s)) ∨
        (ino = next_ptr s ∧ open_inodes s' = ino :: open_inodes s ∧
         next_ptr s' = next_ptr s + 1 ∧
         (∀ p nd, p ∈ open_inodes s → inodes s !! p = Some nd → i_sector nd ≠ sector) ∧
         inodes s' = <[ino := fresh_inode sector]> (inodes s)))) s.
Proof.
  intros [Hnd Hal Huq Hfr Hlk Hi]. unfold inode_open. apply wp_bind.
  eapply wp_ok; [by apply open_lock_acquire|]. set (s1 := pstore _ _ _).
  apply wp_bind, wp_get. apply wp_bind. eapply wp_mono.
  { apply (wp_find_open s1). intros p Hp. destruct (Hal p Hp) as (nd & ? & _). by exists nd. }
  intros o s' [-> Ho]. destruct o as [ino|].
  - destruct Ho as (Hin & nd & Hl & Hs). destruct (Hal ino Hin) as (nd' & Hl' & _ & _ & Hc).
    assert (nd' = nd) as -> by (simpl in *; congruence).
    apply wp_bind. eapply wp_the_inode; [done|]. apply wp_bind, wp_modify.
    apply wp_bind. eapply wp_ok; [by apply open_lock_release|]. apply wp_ret.
    rewrite s32_small by (unfold in_s32; lia).
    split_and!; [done|done|done|]. left. split_and!; try done. exists nd. split_and!; done.
  - apply wp_bind. eapply wp_ok.
    { unfold malloc_ok. rewrite bind_gets. cbn [kget]. 
      change (kget (Kernel:=fstate_kernel) s1) with (kget (disk s)).
      rewrite (proj2 (ss_kernel_ok _ Hi)). reflexivity. }
    apply wp_bind, wp_assert; [done|]. apply wp_bind. unfold fresh_ptr. wp_steps.
    eapply wp_ok; [by apply open_lock_release|]. cbv beta. unfold put_inode. wp_steps.
    split_and!; [done|done|done|]. right. split_and!; try done.
Qed.

(** An inode with one opener less. *)
Definition closed (nd : inode) : inode :=
  mk_inode (i_sector nd) (open_cnt nd - 1) (removed nd) (deny_write_cnt nd) (i_magic nd)
    (inode_lock nd) (inode_dir_lock nd).

(** Closing an inode that is not to be deleted. *)
Lemma wp_inode_close write_rec s ino nd :
  usable s ino nd → removed nd = false → 1 <= open_cnt nd < 2147483648 →
  wp (inode_close write_rec (Some ino))
    (λ _ s', disk s' = disk s ∧ open_lock s' = open_lock s ∧ dirs s' = dirs s ∧
       if decide (open_cnt nd = 1)
       then inodes s' = delete ino (inodes s) ∧
            open_inodes s' = filter (λ p, p ≠ ino) (open_inodes s)
       else inodes s' = <[ino := closed nd]> (inodes s) ∧
            open_inodes s' = open_inodes s) s.
Proof.
  intros [Hl Hm Hk Hi] Hrm Hc. unfold inode_close. apply wp_bind, wp_get.
  apply wp_bind. eapply wp_mono with (Q := λ _ s', ∃ b l, s' = set_close b l s).
  { destruct (close_first s) eqn:E; [apply wp_modify; by eauto|apply wp_ret].
    exists (close_first s), (close_ll s). by destruct s. }
  intros [] s0 (b & l & ->). set (s0 := set_close b l s).
  apply wp_bind. eapply wp_ok.
  { apply lock_acquire_new; [sync|by apply fs_kernel_ok|]. simpl. rewrite Hl. simpl. by rewrite Hk. }
  simpl pstore. rewrite Hl. set (nd1 := with_inode_lock (held (me s0)) nd).
  apply wp_bind. eapply wp_the_inode; [simpl; by rewrite lookup_insert_eq|].
  rewrite s32_small by (unfold in_s32; simpl; lia). change (open_cnt nd1) with (open_cnt nd).
  change (removed nd1) with (removed nd). rewrite Hrm.
  unfold put_inode. apply wp_bind, wp_modify. set (nd2 := mk_inode _ _ _ _ _ _ _).
  set (s2 := set_inodes _ _).
  assert (inodes s2 !! ino = Some nd2) as H2 by (simpl; by rewrite lookup_insert_eq).
  assert (∀ s3, disk s3 = disk s → inodes s3 = inodes s2 →
    lock_release (p_inode_lock ino) s3
      = Ok (tt, set_inodes <[ino := with_inode_lock new_lock nd2]> s3)) as Hrel.
  { intros s3 Hd3 Hi3.
    rewrite lock_release_held; [|sync|apply fs_kernel_ok; by rewrite Hd3|]; simpl;
      rewrite Hi3, H2; [done|]. simpl. unfold me, ksched. simpl. by rewrite Hd3. }
  destruct (Z.eqb_spec (open_cnt nd - 1) 0) as [E|E].
  - apply wp_bind, wp_bind, wp_modify. apply wp_bind, wp_ret, wp_ret.
    apply wp_bind. eapply wp_ok; [by apply Hrel|]. cbv beta iota.
    apply wp_bind. eapply wp_the_inode; [simpl; by rewrite lookup_insert_eq|].
    apply wp_bind, wp_assert; [by apply Z.eqb_eq|]. wp_steps.
    rewrite decide_True by lia. split_and!; try done. simpl.
    by rewrite !insert_insert_eq, delete_insert_eq.
  - apply wp_bind, wp_ret. apply wp_bind. eapply wp_ok; [by apply Hrel|]. cbv beta iota.
    apply wp_ret. rewrite decide_False by lia. split_and!; try done. simpl.
    rewrite !insert_insert_eq. unfold closed, with_inode_lock, nd2. simpl. by rewrite Hk, Hrm.
Qed.

Lemma filter_keep_all (P : Z → Prop) `{∀ x, Decision (P x)} (l : list Z) :
  (∀ x, x ∈ l → P x) → filter P l = l.
Proof.
  induction l as [|x l IH]; intros Hl; [done|]. rewrite filter_cons_True by (apply Hl; left).
  f_equal. apply IH. intros y Hy. apply Hl. by right.
Qed.

(** Opening a sector and closing the inode again leaves the tables as they
    were. *)
Lemma wp_open_close write_rec s sector :
  open_table s → (∀ p nd, inodes s !! p = Some nd → removed nd = false) →
  wp (let* ino := inode_open sector in inode_close write_rec (Some ino))
    (λ _ s', inodes s' = inodes s ∧ open_inodes s' = open_inodes s ∧ disk s' = disk s ∧
             open_lock s' = open_lock s) s.
Proof.
  intros Ht Hrm. pose proof Ht as [Hnd Hal Huq Hfr Hlk Hi].
  apply wp_bind. eapply wp_mono; [by apply wp_inode_open|].
  intros ino s1 (Hd1 & Hl1 & _ & Hcase).
  destruct Hcase as [(Hin & Ho & Hn & nd & Hnl & Hs & Hin1)|(-> & Ho & Hn & Hno & Hin1)].
  - destruct (Hal ino Hin) as (nd' & Hl' & Hm & Hk & Hc).
    assert (nd' = nd) as -> by congruence.
    eapply wp_mono.
    { apply (wp_inode_close _ s1 ino (opened nd)); [|simpl; by eapply Hrm|simpl; lia].
      split; [by rewrite Hin1, lookup_insert_eq|done|done|by rewrite Hd1]. }
    intros [] s2 (Hd2 & Hl2 & _ & Hpost). rewrite decide_False in Hpost by (simpl; lia).
    destruct Hpost as [Hi2 Ho2]. rewrite Hi2, Hin1, Ho2, Ho, Hd2, Hd1, Hl2, Hl1, Hlk.
    split_and!; try done. rewrite insert_insert_eq. apply insert_id. rewrite Hnl.
    destruct nd; unfold closed, opened; simpl. do 2 f_equal. lia.
  - destruct (Hfr (next_ptr s) ltac:(lia)) as [Hnone Hnin].
    eapply wp_mono.
    { apply (wp_inode_close _ s1 (next_ptr s) (fresh_inode sector)); [|done|simpl; lia].
      split; [by rewrite Hin1, lookup_insert_eq|done|done|by rewrite Hd1]. }
    intros [] s2 (Hd2 & Hl2 & _ & Hpost). rewrite decide_True in Hpost by done.
    destruct Hpost as [Hi2 Ho2]. rewrite Hi2, Hin1, Ho2, Ho, Hd2, Hd1, Hl2, Hl1, Hlk.
    split_and!; try done.
    + by rewrite delete_insert_id.
    + rewrite filter_cons_False by naive_solver. apply filter_keep_all.
      intros p Hp ->. done.
Qed.
End inode_ops.

#[global] Opaque word file_len content block_ptr num_blocks byte_at.
#[global] Opaque MAX_BLOCKS bytes_to_sector_index bytes_to_sectors.

End Inode.
