(* ===== verification/FsAlloc.v ===== *)
(** * FsAlloc: allocation of sectors, end to end

    The free map is written through to its own file by the inode layer it
    serves.  The lemmas here show that, when the free map's file needs no
    growth, allocation picks the first free group and the bitmap on disk
    equals the bitmap in memory after every operation; [File] states the
    theorems, and what can_allocate() leaves behind. *)

From Stdlib Require Import ZArith Lia.
From stdpp Require Import base tactics option list numbers gmap.
From S2P Require Import Prelude Bitmap Sched Synch Block FsState FreeMap Inode.
Import Bitmap Sched Synch Block FsState FreeMap Inode.

Module FsAlloc.

Section alloc.
Context {D : Type} `{HK : Kernel D} `{!SectorStore D}.

(** The free map and its open file [fp], which has exactly the size of the
    bitmap. *)
Record map_file (s : fstate D) (fp : Z) (f : file) (nd : inode) : Prop := {
  mf_fp : free_map_file s = Some fp;
  mf_file : files s !! fp = Some f;
  mf_inode : usable s (f_inode f) nd;
  mf_deny : deny_write_cnt nd = 0;
  mf_ok : inode_ok (disk s) (i_sector nd);
  mf_len : file_len (disk s) (i_sector nd) = byte_cnt (bit_cnt (free_map s));
  mf_wf : wf (free_map s);
  mf_pos : 0 < bit_cnt (free_map s)
}.

(** The bitmap on disk is the bitmap in memory. *)
Definition persisted (s : fstate D) (nd : inode) : Prop :=
  content (disk s) (i_sector nd) = bits_to_bytes (bits (free_map s)).

Lemma byte_cnt_pos n : 0 < n → 0 < byte_cnt n.
Proof. unfold byte_cnt, elem_cnt, div_round_up, ELEM_BITS. intros. dlia. Qed.

Lemma zlen_image b : wf b → zlen (bits_to_bytes (bits b)) = byte_cnt (bit_cnt b).
Proof.
  intros (_ & Hl & _). unfold zlen, byte_cnt in *. rewrite length_bits_to_bytes. lia.
Qed.

Lemma splice_all {A} (data l : list A) :
  zlen data = zlen l → splice 0 (slice 0 (zlen data) data) l = data.
Proof.
  intros Hl. rewrite slice_all. unfold splice. simpl.
  unfold zlen in Hl. rewrite drop_ge by lia. by rewrite app_nil_r.
Qed.

Lemma wp_free_map_write n s fp f nd :
  map_file s fp f nd →
  wp (free_map_write (inode_write_at (S n)))
    (λ r s', r = true ∧ rewrites s s' (i_sector nd) (bits_to_bytes (bits (free_map s)))) s.
Proof.
  intros [Hfp Hf Hu Hd Hok Hlen Hwf Hpos]. unfold free_map_write.
  apply wp_bind, wp_get. apply wp_bind. eapply wp_deref; [done|].
  apply wp_bind. eapply wp_deref; [done|].
  pose proof (zlen_image _ Hwf) as Hz. pose proof (byte_cnt_pos _ Hpos).
  apply wp_bind. eapply wp_mono.
  { apply wp_write_inside with (nd := nd); [done|done|done|lia|lia|lia|lia]. }
  intros r s' [-> Hrw]. apply wp_ret. split; [apply Z.eqb_refl|].
  rewrite <- Hz, splice_all in Hrw; [done|]. rewrite zlen_content; lia.
Qed.

(** Writing the free map keeps its file in order. *)
Lemma map_file_rewrites s s' fp f nd c :
  map_file s fp f nd → rewrites s s' (i_sector nd) c → map_file s' fp f nd.
Proof.
  intros [Hfp Hf Hu Hd Hok Hlen Hwf Hpos] Hrw.
  destruct (rewrites_ok _ _ _ _ Hok Hrw) as (Hok' & Hi' & Hl' & Hin' & _).
  destruct Hrw as (d' & -> & Hi & Hk & Hsz & Hdo & Hc). simpl in *.
  destruct Hu. split; [done|done|split; done|done|done| |done|done]. simpl. by rewrite Hl'.
Qed.

(** The rest of the file system after an operation on the free map. *)
Definition map_frame (s s' : fstate D) (nd : inode) : Prop :=
  data_only (disk s) (disk s') (i_sector nd) ∧ ss_size (disk s') = ss_size (disk s) ∧
  ss_inv (disk s') ∧ kget (disk s') = kget (disk s) ∧
  inodes s' = inodes s ∧ files s' = files s ∧ dirs s' = dirs s ∧
  open_inodes s' = open_inodes s ∧ open_lock s' = open_lock s.

(** What the free map promises between operations. *)
Definition map_inv (s : fstate D) (fp : Z) (f : file) (nd : inode) : Prop :=
  map_file s fp f nd ∧ persisted s nd ∧ da_lock s = new_lock.

(** The state while the running thread works on the free map. *)
Definition da_locked (s : fstate D) : fstate D := pstore p_da_lock (held (me s)) s.

(** [s] with bitmap [b], counters [c], and disk [d'], the free map's lock free
    again. *)
Definition map_result (s s' : fstate D) (b : bitmap) : Prop :=
  ∃ d' sec, s' = mk_fstate d' (inodes s) (files s) (dirs s) (next_ptr s) (open_inodes s)
    (open_lock s) (close_first s) (close_ll s) b (free_map_file s) new_lock sec
    (g_inodes_created s) (g_inodes_freed s) (g_file_calloc s) (g_file_freed s) ∧
    ss_inv d' ∧ kget d' = kget (disk s) ∧ ss_size d' = ss_size (disk s).

(** Changing the bitmap to [b] and writing it out, with the lock held. *)
Lemma wp_change_map {B} n s fp f nd b (K : bool → M (fstate D) B) Q sec :
  map_inv s fp f nd → wf b → bit_cnt b = bit_cnt (free_map s) →
  (∀ s', map_result s s' b → map_inv s' fp f nd → map_frame s s' nd →
     wp (K true) Q (pstore p_da_lock (held (me s)) s')) →
  wp (let* ok := free_map_write (inode_write_at (S n)) in K ok) Q
    (set_counters sec (g_inodes_created s) (g_inodes_freed s) (g_file_calloc s) (g_file_freed s)
       (set_free_map b (da_locked s))).
Proof.
  intros (Hmf & Hper & Hlk) Hwf Hcnt HKont. set (s1 := set_counters _ _ _ _ _ _).
  assert (map_file s1 fp f nd) as Hmf1.
  { destruct Hmf as [Hfp Hf Hu Hd Hok Hlen _ Hpos].
    split; simpl; [done|done| |done|done|by rewrite Hcnt|done|by rewrite Hcnt].
    destruct Hu. split; done. }
  apply wp_bind. eapply wp_mono; [by apply (wp_free_map_write n s1 fp f nd)|].
  intros r s2 [-> Hrw].
  pose proof (map_file_rewrites _ _ _ _ _ _ Hmf1 Hrw) as Hmf2.
  destruct Hrw as (d' & -> & Hi & Hk & Hsz & Hdo & Hc). simpl in *.
  specialize (HKont (pstore p_da_lock new_lock (set_disk d' s1))).
  apply HKont; unfold map_inv.
  - exists d', sec. done.
  - split; [|split; [exact Hc|done]]. destruct Hmf2 as [Hfp Hf Hu Hd Hok Hlen Hw Hp].
    split; try assumption. destruct Hu. split; assumption.
  - split_and!; done.
Qed.

Lemma da_acquire s :
  ss_inv (disk s) → da_lock s = new_lock → lock_acquire p_da_lock s = Ok (tt, da_locked s).
Proof.
  intros Hi Hl. apply lock_acquire_new; [sync|by apply fs_kernel_ok|simpl; by rewrite Hl].
Qed.

Lemma da_release s :
  ss_inv (disk s) → da_lock s = held (me s) →
  lock_release p_da_lock s = Ok (tt, pstore p_da_lock new_lock s).
Proof.
  intros Hi Hl. apply lock_release_held; [sync|by apply fs_kernel_ok|simpl; by rewrite Hl].
Qed.

(** The lock is taken and released in states with the same running thread. *)
Lemma da_release_result s s' b :
  map_result s s' b →
  lock_release p_da_lock (pstore p_da_lock (held (me s)) s') = Ok (tt, s').
Proof.
  intros (d' & sec & -> & Hi & Hk & _). rewrite da_release; [done|done|].
  simpl. unfold me, ksched. simpl. by rewrite Hk.
Qed.

Lemma on_map_ok {A} (m : M bitmap A) (s : fstate D) r b :
  m (free_map s) = Ok (r, b) → on_map m s = Ok (r, set_free_map b s).
Proof. intros Hm. unfold on_map, lift. by rewrite Hm. Qed.

Lemma wf_abs_len b : wf b → zlen (bm_abs b) = bit_cnt b.
Proof. intros [? _]. unfold zlen. rewrite length_bm_abs. lia. Qed.

(** What free_map_allocate() did to the bits. *)
Definition allocated (cnt : Z) (s s' : fstate D) (o : option Z) : Prop :=
  match o with
  | None =>
      bm_abs (free_map s') = bm_abs (free_map s) ∧
      ∀ j, 0 <= j → j + cnt <= bit_cnt (free_map s) →
        ¬ all_bits (bm_abs (free_map s)) (Z.to_nat j) (Z.to_nat cnt) false
  | Some x =>
      first_group (bm_abs (free_map s)) 0 cnt false x ∧ x ≠ BITMAP_ERROR ∧
      bm_abs (free_map s') = splice x (replicate (Z.to_nat cnt) true) (bm_abs (free_map s))
  end.

Lemma wp_allocate n s fp f nd cnt :
  map_inv s fp f nd → 0 <= cnt →
  wp (free_map_allocate (inode_write_at (S n)) cnt)
    (λ o s', map_inv s' fp f nd ∧ map_frame s s' nd ∧ allocated cnt s s' o) s.
Proof.
  intros Hinv Hcnt. pose proof Hinv as (Hmf & Hper & Hlk).
  pose proof (us_disk _ _ _ (mf_inode _ _ _ _ Hmf)) as Hi.
  pose proof (mf_wf _ _ _ _ Hmf) as Hwf. pose proof (mf_pos _ _ _ _ Hmf) as Hpos.
  unfold free_map_allocate. apply wp_bind. eapply wp_ok; [by apply da_acquire|].
  unfold count_sectors. apply wp_bind, wp_modify. set (s1 := set_counters _ _ _ _ _ _).
  destruct (bitmap_scan_first (free_map s) 0 cnt false) as (r & Hscan & Hfirst); [done|lia|lia|].
  destruct (decide (r = BITMAP_ERROR)) as [->|Hne].
  - apply wp_bind. eapply wp_ok.
    { apply on_map_ok with (b := free_map s). simpl. unfold bitmap_scan_and_flip.
      by rewrite (bind_ok _ _ _ _ _ Hscan). }
    apply wp_bind, wp_get. cbn [negb]. rewrite Z.eqb_refl. cbn [negb andb].
    apply wp_bind, wp_ret. apply wp_bind. eapply wp_ok.
    { apply da_release; done. }
    apply wp_ret. rewrite Z.eqb_refl.
    destruct Hfirst as [[_ Hno]|(? & Hle & _)].
    2: { exfalso. rewrite wf_abs_len in Hle by done. destruct Hwf as [? _].
         unfold BITMAP_ERROR in Hle. lia. }
    rewrite wf_abs_len in Hno by done.
    destruct Hmf as [Hfp Hf Hu Hd Hok Hlen _ _]. destruct Hu as [Hu1 Hu2 Hu3 Hu4].
    split; [|split; [split_and!; done|split; [done|exact Hno]]].
    split; [split; try done; split; done|split; [exact Hper|done]].
  - destruct Hfirst as [[? _]|Hfirst]; [done|]. pose proof Hfirst as (Hr0 & Hrle & Hall & Hmin).
    rewrite wf_abs_len in Hrle by done.
    destruct (bitmap_set_multiple_spec (free_map s) r cnt true) as (b' & Hset & Hwf' & Hc' & Ha);
      [done|lia|lia|lia|].
    apply wp_bind. eapply wp_ok.
    { apply on_map_ok with (b := b'). simpl. unfold bitmap_scan_and_flip.
      rewrite (bind_ok _ _ _ _ _ Hscan), (proj2 (Z.eqb_neq _ _)) by done.
      by rewrite (bind_ok _ _ _ _ _ Hset). }
    apply wp_bind, wp_get. rewrite (proj2 (Z.eqb_neq r BITMAP_ERROR)) by done.
    rewrite bool_decide_eq_true_2 by (simpl; rewrite (mf_fp _ _ _ _ Hmf); by eauto).
    cbn [negb andb]. apply wp_bind.
    eapply (wp_change_map n s fp f nd b'); [done|done|done|].
    intros s' Hres Hinv' Hfr. apply wp_ret. apply wp_bind.
    eapply wp_ok; [by eapply da_release_result|]. apply wp_ret.
    rewrite (proj2 (Z.eqb_neq r BITMAP_ERROR)) by done.
    split; [done|]. split; [done|]. split; [by right|]. split; [done|].
    destruct Hres as (d' & sec & -> & _). exact Ha.
Qed.

Lemma wp_release n s fp f nd x cnt :
  map_inv s fp f nd → 0 <= x → 0 <= cnt → x + cnt <= bit_cnt (free_map s) →
  all_bits (bm_abs (free_map s)) (Z.to_nat x) (Z.to_nat cnt) true →
  wp (free_map_release (inode_write_at (S n)) x cnt)
    (λ _ s', map_inv s' fp f nd ∧ map_frame s s' nd ∧
       bm_abs (free_map s') = splice x (replicate (Z.to_nat cnt) false) (bm_abs (free_map s))) s.
Proof.
  intros Hinv Hx Hcnt Hle Hall. pose proof Hinv as (Hmf & Hper & Hlk).
  pose proof (us_disk _ _ _ (mf_inode _ _ _ _ Hmf)) as Hi.
  pose proof (mf_wf _ _ _ _ Hmf) as Hwf. unfold free_map_release.
  destruct (bitmap_all_spec (free_map s) x cnt) as (r & Hr & Hiff); [done|done|done|done|].
  apply wp_bind. eapply wp_ok; [by apply on_map_ok|].
  apply wp_bind, wp_assert; [by apply Hiff|].
  replace (set_free_map (free_map s) s) with s by (by destruct s).
  apply wp_bind. eapply wp_ok; [by apply da_acquire|].
  destruct (bitmap_set_multiple_spec (free_map s) x cnt false) as (b' & Hset & Hwf' & Hc' & Ha);
    [done|lia|lia|lia|].
  apply wp_bind. eapply wp_ok; [by apply on_map_ok|].
  eapply (wp_change_map n s fp f nd b' _ _ (sectors s)); [done|done|done|].
  intros s' Hres Hinv' Hfr. eapply wp_ok; [by eapply da_release_result|].
  split; [done|]. split; [done|]. destruct Hres as (d' & sec & -> & _). exact Ha.
Qed.

(** ** can_allocate() *)

(** The number of free sectors. *)
Definition count_free (bs : list bool) : nat := length (filter (λ v, v = false) bs).

Lemma count_free_insert bs i :
  bs !! i = Some false → count_free bs = S (count_free (<[i := true]> bs)).
Proof.
  unfold count_free. revert i. induction bs as [|v bs IH]; intros [|i]; simpl; try done.
  - intros [= ->]. rewrite filter_cons_True, filter_cons_False by done. done.
  - intros Hi. rewrite !filter_cons. case_decide; simpl; [f_equal|]; by apply IH.
Qed.

Lemma count_free_some bs : (0 < count_free bs)%nat → ∃ i, bs !! i = Some false.
Proof.
  unfold count_free. induction bs as [|v bs IH]; simpl; [lia|].
  rewrite filter_cons. case_decide as Hv; [by exists 0%nat; rewrite Hv|].
  intros [i Hi]%IH. by exists (S i).
Qed.

(** One bit. *)
Lemma all_bits_one bs i v : all_bits bs i 1 v ↔ bs !! i = Some v.
Proof.
  split.
  - intros H. specialize (H 0%nat ltac:(lia)). by rewrite Nat.add_0_r in H.
  - intros H k Hk. replace (i + k)%nat with i by lia. done.
Qed.

Lemma splice_one {A} x (v : A) l :
  0 <= x < zlen l → splice x [v] l = <[Z.to_nat x := v]> l.
Proof.
  intros Hx. apply list_eq. intros i. rewrite lookup_splice by (unfold zlen in *; simpl; lia).
  unfold zlen in *. simpl. case_decide as Hi.
  - replace (i - Z.to_nat x)%nat with 0%nat by lia. replace i with (Z.to_nat x) by lia.
    by rewrite list_lookup_insert_eq by lia.
  - by rewrite list_lookup_insert_ne by lia.
Qed.

(** The free map covers the device, and its own file is marked used. *)
Record alloc_inv (s : fstate D) (fp : Z) (f : file) (nd : inode) : Prop := {
  ai_map : map_inv s fp f nd;
  ai_size : bit_cnt (free_map s) = ss_size (disk s);
  ai_foot : ∀ y, in_foot (disk s) (i_sector nd) y →
    bm_abs (free_map s) !! Z.to_nat y = Some true
}.

Definition bits_of (s : fstate D) : list bool := bm_abs (free_map s).

Lemma alloc_inv_len s fp f nd : alloc_inv s fp f nd → zlen (bits_of s) = ss_size (disk s).
Proof.
  intros [(Hmf & _) Hs _]. unfold bits_of. rewrite wf_abs_len by apply Hmf. done.
Qed.

(** An operation on the bits that keeps the free map's own sectors. *)
Lemma alloc_inv_frame s s' fp f nd :
  alloc_inv s fp f nd → map_inv s' fp f nd → map_frame s s' nd →
  bit_cnt (free_map s') = bit_cnt (free_map s) →
  (∀ y, in_foot (disk s) (i_sector nd) y → bits_of s' !! Z.to_nat y = Some true) →
  alloc_inv s' fp f nd.
Proof.
  intros [(Hmf & _ & _) Hs Hf] Hm' (Hd & Hsz & _) Hc Hb. split; [done|congruence|].
  intros y Hy. apply Hb. apply (frame_foot (disk s) (disk s')) in Hy; [done|apply Hmf|].
  apply data_only_meta; [apply Hmf|done].
Qed.

(** Writing a sector outside the free map's file. *)
Lemma map_inv_write s fp f nd x d' :
  alloc_inv s fp f nd → 0 <= x → bits_of s !! Z.to_nat x = Some false ∨
    ¬ in_foot (disk s) (i_sector nd) x →
  ss_inv d' → kget d' = kget (disk s) → ss_size d' = ss_size (disk s) →
  (∀ y, 0 <= y → y ≠ x → ss_view d' y = ss_view (disk s) y) →
  alloc_inv (set_disk d' s) fp f nd ∧
  ∀ y, in_foot d' (i_sector nd) y ↔ in_foot (disk s) (i_sector nd) y.
Proof.
  intros Hinv Hx Hout Hi Hk Hsz Hv. pose proof Hinv as [(Hmf & Hper & Hlk) Hs Hf].
  pose proof (mf_ok _ _ _ _ Hmf) as Hok.
  assert (¬ in_foot (disk s) (i_sector nd) x) as Hnf.
  { destruct Hout as [Hfree|]; [|done]. intros Hy. apply Hf in Hy. unfold bits_of in Hfree.
    congruence. }
  assert (∀ y, in_foot (disk s) (i_sector nd) y → ss_view d' y = ss_view (disk s) y) as Hsame.
  { intros y Hy. apply Hv; [by apply (io_range _ _ Hok) in Hy as [? _]|]. intros ->. done. }
  destruct (foot_same (disk s) d' (i_sector nd) Hok Hsame) as (Hd & Hct).
  destruct Hmf as [Hfp Hff Hu Hd0 _ Hlen Hwf Hpos].
  split; [|intros y; by apply (frame_foot (disk s) d')].
  split; [|simpl; congruence|].
  - split; [|split; [|done]].
    + split; [done|done| |done|by apply (frame_ok (disk s))| |done|done].
      * destruct Hu. by split.
      * cbn [disk set_disk free_map]. by rewrite (frame_len (disk s)).
    + unfold persisted. cbn [disk set_disk free_map]. by rewrite Hct.
  - intros y Hy. apply Hf. by apply (frame_foot (disk s) d') in Hy.
Qed.

(** The free map's own sectors. *)
Definition own (s : fstate D) (nd : inode) : Z → Prop := in_foot (disk s) (i_sector nd).

Definition same_own (s s' : fstate D) (nd : inode) : Prop := ∀ y, own s' nd y ↔ own s nd y.

Lemma frame_own s s' fp f nd :
  alloc_inv s fp f nd → map_frame s s' nd → same_own s s' nd.
Proof.
  intros [(Hmf & _) _ _] (Hd & _) y. pose proof (mf_ok _ _ _ _ Hmf).
  apply (frame_foot (disk s) (disk s')); [done|]. by apply data_only_meta.
Qed.

Lemma map_inv_cnt s fp f nd : map_inv s fp f nd → zlen (bits_of s) = bit_cnt (free_map s).
Proof. intros (Hmf & _). apply wf_abs_len, Hmf. Qed.

Lemma wp_get_sector n s fp f nd :
  alloc_inv s fp f nd → (0 < count_free (bits_of s))%nat →
  wp (get_sector (inode_write_at (S n)))
    (λ o s', ∃ x, o = Some x ∧ alloc_inv s' fp f nd ∧ same_own s s' nd ∧
       0 <= x < zlen (bits_of s) ∧ bits_of s !! Z.to_nat x = Some false ∧
       (∀ j, 0 <= j < x → bits_of s !! Z.to_nat j ≠ Some false) ∧
       bits_of s' = <[Z.to_nat x := true]> (bits_of s)) s.
Proof.
  intros Hinv Hfree. pose proof Hinv as [Hm Hsz Hf]. pose proof (map_inv_cnt _ _ _ _ Hm) as Hzl.
  unfold get_sector. apply wp_bind. eapply wp_mono; [by apply (wp_allocate n s fp f nd 1)|].
  intros o s1 (Hm1 & Hfr & Hal). pose proof (map_inv_cnt _ _ _ _ Hm1) as Hzl1.
  destruct o as [x|].
  2: { exfalso. destruct Hal as [_ Hno]. apply count_free_some in Hfree as [i Hi].
       pose proof (lookup_lt_Some _ _ _ Hi) as Hlt. apply (Hno (Z.of_nat i)); [lia| |].
       - unfold zlen in Hzl. lia.
       - rewrite Nat2Z.id. by apply all_bits_one. }
  destruct Hal as ([[? _]|(Hx0 & Hx1 & Hall & Hmin)] & Hne & Ha); [done|].
  change (Z.to_nat 1) with 1%nat in *. apply all_bits_one in Hall. fold (bits_of s) in *.
  simpl replicate in Ha. rewrite splice_one in Ha by lia. fold (bits_of s1) in Ha.
  assert (bit_cnt (free_map s1) = bit_cnt (free_map s)) as Hcnt.
  { rewrite <- Hzl, <- Hzl1, Ha. unfold zlen. by rewrite length_insert. }
  assert (alloc_inv s1 fp f nd) as Hinv1.
  { eapply alloc_inv_frame; [done..|]. intros y Hy. apply Hf in Hy. rewrite Ha.
    destruct (decide (Z.to_nat x = Z.to_nat y)) as [E|];
      [rewrite <- E in *; unfold bits_of in *; congruence|].
    by rewrite list_lookup_insert_ne. }
  pose proof (frame_own _ _ _ _ _ Hinv Hfr) as Hown1.
  assert (¬ own s1 nd x) as Hnx.
  { intros Hy. apply Hown1 in Hy. apply Hf in Hy. unfold bits_of in *. congruence. }
  destruct Hfr as (_ & Hsz1 & Hi1 & _).
  apply wp_bind. eapply wp_mono.
  { apply (wp_store_write s1 x zero_block 0 512); [done| |lia|lia|done].
    rewrite Hsz1, <- Hsz, <- Hzl. lia. }
  intros [] s2 (d2 & -> & Hi2 & Hk2 & Hsz2 & Hv2). apply wp_ret. exists x.
  destruct (map_inv_write s1 fp f nd x d2) as [Hinv2 Hown2]; try done; [by right|..].
  { intros y Hy Hyx. rewrite Hv2 by done. by rewrite decide_False. }
  split_and!; try done; try lia.
  - intros y. by rewrite (Hown2 y), (Hown1 y).
  - intros j Hj Hjf. apply (Hmin j); [lia|]. by apply all_bits_one.
Qed.

Lemma wp_release_one n s fp f nd x :
  alloc_inv s fp f nd → 0 <= x < zlen (bits_of s) → bits_of s !! Z.to_nat x = Some true →
  ¬ own s nd x →
  wp (free_map_release (inode_write_at (S n)) x 1)
    (λ _ s', alloc_inv s' fp f nd ∧ same_own s s' nd ∧
             bits_of s' = <[Z.to_nat x := false]> (bits_of s)) s.
Proof.
  intros Hinv Hx Hb Hn. pose proof Hinv as [Hm Hsz Hf]. pose proof (map_inv_cnt _ _ _ _ Hm) as Hzl.
  eapply wp_mono.
  { apply (wp_release n s fp f nd x 1); [done|lia|lia|lia|by apply all_bits_one]. }
  intros [] s' (Hm' & Hfr & Ha). change (Z.to_nat 1) with 1%nat in Ha. fold (bits_of s) in Ha.
  pose proof (map_inv_cnt _ _ _ _ Hm') as Hzl'. fold (bits_of s') in Ha.
  simpl replicate in Ha. rewrite splice_one in Ha by lia.
  split_and!; [|by eapply frame_own|done].
  eapply alloc_inv_frame; [done..| |].
  - rewrite <- Hzl, <- Hzl', Ha. unfold zlen. by rewrite length_insert.
  - intros y Hy. pose proof (Hf y Hy) as Hy'. rewrite Ha.
    destruct (decide (Z.to_nat x = Z.to_nat y)) as [E|]; [|by rewrite list_lookup_insert_ne].
    exfalso. apply Hn. destruct Hm as (Hmf & _). pose proof (mf_ok _ _ _ _ Hmf) as Hok.
    pose proof (io_range _ _ Hok y Hy). by replace x with y by lia.
Qed.

(** [bs] with the bits of [l] set to [v]. *)
Definition mark (v : bool) (l : list Z) (bs : list bool) : list bool :=
  foldr (λ x bs, <[Z.to_nat x := v]> bs) bs l.

Lemma length_mark v l bs : length (mark v l bs) = length bs.
Proof. induction l as [|x l IH]; simpl; [done|]. by rewrite length_insert. Qed.

Lemma lookup_mark v l bs (i : nat) :
  (i < length bs)%nat → Forall (λ x, 0 <= x) l →
  mark v l bs !! i = if decide (Z.of_nat i ∈ l) then Some v else bs !! i.
Proof.
  intros Hi Hl. induction Hl as [|x l Hx Hl IH]; cbn [mark foldr].
  { rewrite decide_False; [done|]. apply not_elem_of_nil. }
  destruct (decide (Z.to_nat x = i)) as [<-|Hne].
  - fold (mark v l bs).
    rewrite list_lookup_insert_eq by (by rewrite length_mark).
    rewrite decide_True; [done|]. rewrite Z2Nat.id by done. left.
  - fold (mark v l bs). rewrite list_lookup_insert_ne, IH by done.
    destruct (decide (Z.of_nat i ∈ l)); [rewrite decide_True; [done|by right]|].
    rewrite decide_False; [done|]. intros [E|]%elem_of_cons; [lia|done].
Qed.

Lemma mark_insert v l x bs :
  mark v l (<[Z.to_nat x := v]> bs) = <[Z.to_nat x := v]> (mark v l bs).
Proof.
  induction l as [|y l IH]; simpl; [done|]. rewrite IH.
  destruct (decide (Z.to_nat x = Z.to_nat y)) as [->|]; [done|].
  by apply list_insert_insert_ne.
Qed.

Lemma elem_of_rev (x : Z) l : x ∈ rev l ↔ x ∈ l.
Proof. rewrite !list_elem_of_In. symmetry. apply in_rev. Qed.

Lemma NoDup_rev_list (l : list Z) : NoDup l → NoDup (rev l).
Proof. rewrite !NoDup_ListNoDup. apply List.NoDup_rev. Qed.

(** Releasing all but the first of the sectors that were taken. *)
Lemma unmark_tail x l bs :
  x ∉ l → Forall (λ y, 0 <= y) (x :: l) →
  (∀ y, y ∈ x :: l → 0 <= y < zlen bs ∧ bs !! Z.to_nat y = Some false) →
  mark false (rev l) (mark true (x :: l) bs) = <[Z.to_nat x := true]> bs.
Proof.
  intros Hx Hpos Hall. apply list_eq. intros i.
  destruct (decide (i < length bs)%nat) as [Hi|Hi].
  2: { rewrite !lookup_ge_None_2; [done|..]; rewrite ?length_insert, ?length_mark; lia. }
  assert (Forall (λ y, 0 <= y) (rev l)) as Hpos2.
  { apply Forall_rev. by apply Forall_inv_tail in Hpos. }
  rewrite lookup_mark by (by rewrite ?length_mark). rewrite lookup_mark by done.
  pose proof (Forall_inv Hpos) as Hx0. simpl in Hx0.
  destruct (decide (Z.of_nat i ∈ rev l)) as [Hin|Hout].
  - rewrite elem_of_rev in Hin. rewrite list_lookup_insert_ne.
    + assert (Z.of_nat i ∈ x :: l) as Hin' by (by apply list_elem_of_further).
      destruct (Hall _ Hin') as [_ Hb]. by rewrite Nat2Z.id in Hb.
    + intros E. apply Hx. by replace x with (Z.of_nat i) by lia.
  - rewrite elem_of_rev in Hout. destruct (decide (Z.to_nat x = i)) as [<-|Hne].
    + rewrite list_lookup_insert_eq by done. rewrite decide_True; [done|].
      rewrite Z2Nat.id by done. left.
    + rewrite list_lookup_insert_ne by done. rewrite decide_False; [done|].
      intros [E|]%elem_of_cons; [lia|done].
Qed.

Lemma wp_try_sectors n fp f nd num : ∀ s acc,
  alloc_inv s fp f nd → (num <= count_free (bits_of s))%nat →
  wp (try_sectors (inode_write_at (S n)) num acc)
    (λ r s', ∃ l, r = (true, acc ++ l) ∧ length l = num ∧ alloc_inv s' fp f nd ∧
       same_own s s' nd ∧ NoDup l ∧
       Forall (λ x, 0 <= x < zlen (bits_of s) ∧ bits_of s !! Z.to_nat x = Some false) l ∧
       (∀ x, head l = Some x → ∀ j, 0 <= j < x → bits_of s !! Z.to_nat j ≠ Some false) ∧
       bits_of s' = mark true l (bits_of s)) s.
Proof.
  induction num as [|num IH]; intros s acc Hinv Hfree; simpl.
  { apply wp_ret. exists []. rewrite app_nil_r. split_and!; try done. by constructor. }
  apply wp_bind. eapply wp_mono; [by apply (wp_get_sector n s fp f nd); [|lia]|].
  intros o s1 (x & -> & Hinv1 & Hown1 & Hx & Hxf & Hmin & Hb1).
  eapply wp_mono.
  { apply IH; [done|]. rewrite Hb1. apply count_free_insert in Hxf. lia. }
  intros r s2 (l & -> & Hlen & Hinv2 & Hown2 & Hnd & Hall & _ & Hb2).
  rewrite Hb1 in Hb2. rewrite Hb1 in Hall.
  exists (x :: l). rewrite <- app_assoc. simpl. rewrite Hlen.
  assert (∀ y, y ∈ l → y ≠ x ∧ 0 <= y < zlen (bits_of s) ∧
            bits_of s !! Z.to_nat y = Some false) as Hl.
  { intros y Hy. rewrite Forall_forall in Hall. destruct (Hall y Hy) as [Hy1 Hy2].
    unfold zlen in *. rewrite length_insert in Hy1.
    destruct (decide (Z.to_nat x = Z.to_nat y)) as [E|E].
    - rewrite <- E, list_lookup_insert_eq in Hy2 by lia. done.
    - rewrite list_lookup_insert_ne in Hy2 by done. split_and!; try lia; done. }
  split_and!; try done.
  - intros y. by rewrite (Hown2 y), (Hown1 y).
  - constructor; [|done]. intros Hy. by apply Hl in Hy as [? _].
  - constructor; [done|]. apply Forall_forall. intros y Hy. by apply Hl in Hy as (_ & ? & ?).
  - by intros y [= ->].
  - rewrite Hb2. apply mark_insert.
Qed.

Lemma wp_release_all n fp f nd l : ∀ s,
  alloc_inv s fp f nd → NoDup l →
  Forall (λ x, 0 <= x < zlen (bits_of s) ∧ bits_of s !! Z.to_nat x = Some true ∧ ¬ own s nd x) l →
  wp (release_all (inode_write_at (S n)) l)
    (λ _ s', alloc_inv s' fp f nd ∧ bits_of s' = mark false l (bits_of s)) s.
Proof.
  induction l as [|x l IH]; intros s Hinv Hnd Hall; simpl; [by apply wp_ret|].
  apply NoDup_cons in Hnd as [Hx Hnd]. rewrite Forall_cons in Hall.
  destruct Hall as [(Hx1 & Hx2 & Hx3) Hall].
  apply wp_bind. eapply wp_mono; [by apply wp_release_one|].
  intros [] s1 (Hinv1 & Hown1 & Hb1). eapply wp_mono.
  { apply IH; [done|done|]. rewrite Forall_forall in Hall |- *. intros y Hy.
    destruct (Hall y Hy) as (Hy1 & Hy2 & Hy3). rewrite Hb1. unfold zlen in *.
    rewrite length_insert. split; [done|]. split; [|by rewrite (Hown1 y)].
    rewrite list_lookup_insert_ne; [done|]. intros E. apply Hx. by replace x with y by lia. }
  intros [] s2 (Hinv2 & Hb2). split; [done|]. rewrite Hb2, Hb1. apply mark_insert.
Qed.

Lemma wp_can_allocate n s fp f nd num :
  alloc_inv s fp f nd → 1 <= num <= Z.of_nat (count_free (bits_of s)) →
  wp (can_allocate (inode_write_at (S n)) num)
    (λ r s', r = true ∧ alloc_inv s' fp f nd ∧ ∃ x,
       0 <= x ∧ bits_of s !! Z.to_nat x = Some false ∧
       (∀ j, 0 <= j < x → bits_of s !! Z.to_nat j ≠ Some false) ∧
       bits_of s' = <[Z.to_nat x := true]> (bits_of s)) s.
Proof.
  intros Hinv Hnum. pose proof Hinv as [_ _ Hf]. unfold can_allocate. apply wp_bind.
  eapply wp_mono; [apply (wp_try_sectors n fp f nd (Z.to_nat num) s []); [done|lia]|].
  intros r s1 (l & -> & Hlen & Hinv1 & Hown1 & Hnd & Hall & Hmin & Hb1). simpl.
  destruct l as [|x l]; [simpl in Hlen; lia|]. simpl.
  pose proof Hnd as [Hxl Hndl]%NoDup_cons. rewrite Forall_forall in Hall.
  assert (Forall (λ y, 0 <= y) (x :: l)) as Hpos.
  { apply Forall_forall. intros y Hy. apply Hall in Hy. lia. }
  assert (∀ y, y ∈ x :: l → (Z.to_nat y < length (bits_of s))%nat) as Hlt.
  { intros y Hy. apply Hall in Hy. unfold zlen in Hy. lia. }
  apply wp_bind. eapply wp_mono.
  { apply (wp_release_all n fp f nd (rev l)); [done|by apply NoDup_rev_list|].
    apply Forall_forall. intros y Hy. rewrite elem_of_rev in Hy.
    assert (y ∈ x :: l) as Hy' by (by right). destruct (Hall y Hy') as [Hy1 Hy2].
    rewrite Hb1. split; [unfold zlen in *; by rewrite length_mark|]. split.
    - rewrite lookup_mark by auto. rewrite Z2Nat.id by lia. by rewrite decide_True.
    - rewrite (Hown1 y). intros Ho. apply Hf in Ho. unfold bits_of in Hy2. congruence. }
  intros [] s2 (Hinv2 & Hb2). apply wp_ret. split; [done|]. split; [done|]. exists x.
  destruct (Hall x ltac:(left)) as [Hx1 Hx2]. split; [lia|]. split; [done|].
  split; [by apply Hmin|]. rewrite Hb2, Hb1. by apply unmark_tail.
Qed.
End alloc.
End FsAlloc.
