(* ===== verification/File.v ===== *)
(** * File: open files, and the free map's file (filesys/file.c, free-map.c)

    A struct file is an open inode with a position.  The second part of the
    file models the operations of free-map.c that create, open and close the
    free map's own file, and builds a small formatted file system that the
    witnesses of the theorems on sectors and files use. *)

From Stdlib Require Import ZArith Lia.
From stdpp Require Import base tactics option list numbers gmap.
From S2P Require Import Prelude Bitmap Sched Synch Block FsState FreeMap Inode FsAlloc.
Import Bitmap Sched Synch Block FsState FreeMap Inode FsAlloc.

Module File.

Section file_ops.
Context {D : Type} `{HK : Kernel D} `{!SectorStore D}.

(** [n] bounds the nested writes of the free map's file. *)
Context (n : nat).

Definition the_file (fp : Z) : M (fstate D) file :=
  let* s := get in deref (files s !! fp).

(** calloc() is asserted to succeed. *)
Definition file_open (oino : option Z) : M (fstate D) (option Z) :=
  match oino with
  | None => inode_close (inode_write_at n) None;;; ret None
  | Some ino =>
      let* ok := malloc_ok in
      assert ok;;;
      let* fp := fresh_ptr in
      modify (λ s, set_counters (sectors s) (g_inodes_created s) (g_inodes_freed s)
                     (s32 (g_file_calloc s + 1)) (g_file_freed s) s);;;
      modify (set_files <[fp := mk_file ino 0 false]>);;;
      ret (Some fp)
  end.

Definition file_reopen (fp : Z) : M (fstate D) (option Z) :=
  let* f := the_file fp in
  let* ino := inode_reopen (f_inode f) in
  file_open (Some ino).

Definition set_file (fp : Z) (f : file) : M (fstate D) unit :=
  modify (set_files <[fp := f]>).

Definition file_deny_write (fp : Z) : M (fstate D) unit :=
  let* f := the_file fp in
  if deny_write f then ret tt
  else
    set_file fp (mk_file (f_inode f) (pos f) true);;;
    inode_deny_write (f_inode f).

Definition file_allow_write (fp : Z) : M (fstate D) unit :=
  let* f := the_file fp in
  if deny_write f then
    set_file fp (mk_file (f_inode f) (pos f) false);;;
    inode_allow_write (f_inode f)
  else ret tt.

Definition file_close (ofp : option Z) : M (fstate D) unit :=
  match ofp with
  | None => ret tt
  | Some fp =>
      file_allow_write fp;;;
      let* f := the_file fp in
      inode_close (inode_write_at n) (Some (f_inode f));;;
      modify (set_files (delete fp));;;
      modify (λ s, set_counters (sectors s) (g_inodes_created s) (g_inodes_freed s)
                     (g_file_calloc s) (s32 (g_file_freed s + 1)) s)
  end.

Definition file_get_inode (fp : Z) : M (fstate D) Z :=
  let* f := the_file fp in ret (f_inode f).

(** The bytes read; their number is the result. *)
Definition file_read (fp size : Z) : M (fstate D) (list Z) :=
  let* f := the_file fp in
  let* d := inode_read_at (f_inode f) size (pos f) in
  let* f := the_file fp in
  set_file fp (mk_file (f_inode f) (s32 (pos f + zlen d)) (deny_write f));;;
  ret d.

Definition file_read_at (fp size ofs : Z) : M (fstate D) (list Z) :=
  let* f := the_file fp in inode_read_at (f_inode f) size ofs.

Definition file_write (fp : Z) (buffer : list Z) (size : Z) : M (fstate D) Z :=
  let* f := the_file fp in
  let* w := inode_write_at n (f_inode f) buffer size (pos f) in
  let* f := the_file fp in
  set_file fp (mk_file (f_inode f) (s32 (pos f + w)) (deny_write f));;;
  ret w.

Definition file_write_at (fp : Z) (buffer : list Z) (size ofs : Z) : M (fstate D) Z :=
  let* f := the_file fp in inode_write_at n (f_inode f) buffer size ofs.

Definition file_length (fp : Z) : M (fstate D) Z :=
  let* f := the_file fp in inode_length (f_inode f).

Definition file_seek (fp new_pos : Z) : M (fstate D) unit :=
  assert (new_pos >=? 0);;;
  let* f := the_file fp in
  set_file fp (mk_file (f_inode f) new_pos (deny_write f)).

Definition file_tell (fp : Z) : M (fstate D) Z :=
  let* f := the_file fp in ret (pos f).

(** ** The free map's file *)

(** bitmap_create() calls malloc() for the bitmap and for its words; [garbage]
    is what the words held before. *)
Definition free_map_init (garbage : list Z) : M (fstate D) unit :=
  let* size := on_store ss_sectors in
  let* ok := malloc_ok in
  assert ok;;;
  let* ok := malloc_ok in
  assert (ok || (size =? 0));;;
  match bitmap_create size garbage with
  | Ok (_, b) => modify (set_free_map b)
  | _ => panic
  end;;;
  on_map (bitmap_mark FREE_MAP_SECTOR);;;
  on_map (bitmap_mark ROOT_DIR_SECTOR);;;
  lock_init p_da_lock.

(** bitmap_read (free_map, free_map_file): a short read leaves the rest of
    the words as they were. *)
Definition free_map_read (fp : Z) : M (fstate D) bool :=
  let* s := get in
  let b := free_map s in
  if bit_cnt b >? 0 then
    let size := byte_cnt (bit_cnt b) in
    let* d := file_read_at fp size 0 in
    on_map (bitmap_load (d ++ drop (length d) (bits_to_bytes (bits b))));;;
    ret (zlen d =? size)
  else ret true.

Definition free_map_open : M (fstate D) unit :=
  let* ino := inode_open FREE_MAP_SECTOR in
  let* ofp := file_open (Some ino) in
  modify (set_free_map_file ofp);;;
  match ofp with
  | None => panic
  | Some fp => let* ok := free_map_read fp in if ok then ret tt else panic
  end.

Definition free_map_close : M (fstate D) unit :=
  let* s := get in file_close (free_map_file s).

Definition free_map_create : M (fstate D) unit :=
  let* s := get in
  let* ok := inode_create n FREE_MAP_SECTOR (bitmap_file_size (free_map s)) in
  if negb ok then panic
  else
    let* ino := inode_open FREE_MAP_SECTOR in
    let* ofp := file_open (Some ino) in
    modify (set_free_map_file ofp);;;
    match ofp with
    | None => panic
    | Some fp =>
        let* ok := free_map_write (inode_write_at n) in
        if ok then ret tt else panic
    end.

End file_ops.

(** ** A formatted file system *)

#[local] Instance demo_store : SectorStore bstate := cache_store 0.

Definition blank_fs : fstate bstate :=
  mk_fstate demo_machine ∅ ∅ ∅ 100 [] new_lock true new_lock (mk_bitmap 0 []) None new_lock
    0 0 0 0 0.

(** Format a device of 100 sectors, create a file of 100 bytes in the next free
    sector and open it. *)
Definition demo_setup : M (fstate bstate) Z :=
  inode_init;;;
  free_map_init (replicate 4 0);;;
  free_map_create 3;;;
  let* o := free_map_allocate (inode_write_at 3) 1 in
  match o with
  | None => panic
  | Some sector => let* _ := inode_create 3 sector 100 in inode_open sector
  end.

Definition demo_fs : fstate bstate :=
  match demo_setup blank_fs with Ok (_, s) => s | _ => blank_fs end.

(** The free map's inode, its file, and the inode of the demo file. *)
Definition map_inode : inode := fresh_inode FREE_MAP_SECTOR.
Definition map_fp : file := mk_file 100 0 false.
Definition demo_inode : inode := fresh_inode 4.

Lemma demo_disk : ss_inv (disk demo_fs).
Proof.
  apply cache_check_ok; [vm_compute; reflexivity|split; vm_compute; reflexivity
    |vm_compute; reflexivity..].
Qed.

Lemma demo_usable : usable demo_fs 102 demo_inode.
Proof. split; [vm_compute; reflexivity|done|done|apply demo_disk]. Qed.

Lemma map_usable : usable demo_fs 100 map_inode.
Proof. split; [vm_compute; reflexivity|done|done|apply demo_disk]. Qed.

Lemma demo_inode_ok :
  inode_ok (disk demo_fs) 4 ∧ ∀ y, in_foot (disk demo_fs) 4 y → y = 4 ∨ y = 6.
Proof.
  apply one_block_ok; [|vm_compute; reflexivity|..]; try lia.
  - replace (file_len (disk demo_fs) 4) with 100 by (vm_compute; reflexivity). lia.
  - split; [lia|vm_compute; reflexivity].
  - split; [lia|vm_compute; reflexivity].
Qed.

Lemma map_inode_ok :
  inode_ok (disk demo_fs) 0 ∧ ∀ y, in_foot (disk demo_fs) 0 y → y = 0 ∨ y = 3.
Proof.
  apply one_block_ok; [|vm_compute; reflexivity|..]; try lia.
  - replace (file_len (disk demo_fs) 0) with 16 by (vm_compute; reflexivity). lia.
  - split; [lia|vm_compute; reflexivity].
  - split; [lia|vm_compute; reflexivity].
Qed.

Lemma demo_map_inv : map_inv demo_fs 101 map_fp map_inode.
Proof.
  split; [|split; [vm_compute; reflexivity|vm_compute; reflexivity]].
  split; [vm_compute; reflexivity|vm_compute; reflexivity|apply map_usable|done
         |apply map_inode_ok|vm_compute; reflexivity| |].
  - split; [|split]; [|vm_compute; reflexivity|].
    + replace (bit_cnt (free_map demo_fs)) with 100 by (vm_compute; reflexivity). lia.
    + replace (bits (free_map demo_fs)) with [127; 0; 0; 0] by (vm_compute; reflexivity).
      repeat constructor; unfold in_u32; lia.
  - replace (bit_cnt (free_map demo_fs)) with 100 by (vm_compute; reflexivity). lia.
Qed.

Lemma demo_alloc_inv : alloc_inv demo_fs 101 map_fp map_inode.
Proof.
  split; [apply demo_map_inv|vm_compute; reflexivity|].
  intros y [->| ->]%map_inode_ok; vm_compute; reflexivity.
Qed.

(** ** Properties *)

Section properties.
Context {D : Type} `{HK : Kernel D} `{!SectorStore D}.

(** C9. inode_read_at() returns exactly the bytes of the file: for an open,
    well-formed inode it returns the bytes from [offset] on, [size] of them or
    as many as the file has, through direct, indirect and doubly indirect
    blocks, and changes nothing a reader can see. *)
Theorem inode_read_at_content (s : fstate D) ino nd size offset :
  usable s ino nd → inode_ok (disk s) (i_sector nd) →
  file_len (disk s) (i_sector nd) < MAX_BLOCKS * 512 →
  0 <= offset < MAX_BLOCKS * 512 → 0 <= size →
  wp (inode_read_at ino size offset)
    (λ r s', r = slice offset (Z.min size (file_len (disk s) (i_sector nd) - offset))
                   (content (disk s) (i_sector nd)) ∧ reads s s') s.
Proof. apply wp_read_at. Qed.

(** C10. inode_write_at() inside a file: it writes all [size] bytes, the
    contents of the file are the old contents with the bytes at [offset]
    replaced, the length is unchanged, and every well-formed file whose
    sectors are disjoint from the data blocks of this one keeps its
    contents. *)
Theorem inode_write_at_inside (s : fstate D) n ino nd buffer size offset :
  usable s ino nd → inode_ok (disk s) (i_sector nd) → deny_write_cnt nd = 0 →
  0 < file_len (disk s) (i_sector nd) → 0 <= offset → 0 <= size <= zlen buffer →
  offset + size <= file_len (disk s) (i_sector nd) →
  wp (inode_write_at (S n) ino buffer size offset)
    (λ r s', r = size ∧ inode_ok (disk s') (i_sector nd) ∧
       file_len (disk s') (i_sector nd) = file_len (disk s) (i_sector nd) ∧
       content (disk s') (i_sector nd) =
         splice offset (slice 0 size buffer) (content (disk s) (i_sector nd)) ∧
       ∀ isec', inode_ok (disk s) isec' →
         (∀ x i, in_foot (disk s) isec' x → 0 <= i < num_blocks (disk s) (i_sector nd) →
            x ≠ block_ptr (disk s) (i_sector nd) i) →
         inode_ok (disk s') isec' ∧ content (disk s') isec' = content (disk s) isec') s.
Proof.
  intros Hu Hok Hd Hl Ho Hs Hle.
  eapply wp_mono; [apply (wp_write_inside s n ino nd); assumption|].
  intros r s' [-> Hrw]. destruct (rewrites_ok _ _ _ _ Hok Hrw) as (Hok' & _ & Hl' & _ & Hc).
  split; [reflexivity|]. split; [exact Hok'|]. split; [exact Hl'|]. split; [exact Hc|].
  intros isec' Hok2 Hdis. eapply rewrites_other; eassumption.
Qed.

(** What is written is what is read: a write inside a file followed by a
    read of the same range returns the bytes written. *)
Theorem write_then_read (s : fstate D) n ino nd buffer size offset :
  usable s ino nd → inode_ok (disk s) (i_sector nd) → deny_write_cnt nd = 0 →
  0 < file_len (disk s) (i_sector nd) < MAX_BLOCKS * 512 → 0 <= offset →
  0 <= size <= zlen buffer → offset + size <= file_len (disk s) (i_sector nd) →
  wp (let* w := inode_write_at (S n) ino buffer size offset in
      let* r := inode_read_at ino w offset in ret r)
    (λ r _, r = slice 0 size buffer) s.
Proof.
  intros Hu Hok Hd Hl Ho Hs Hle.
  apply wp_bind. eapply wp_mono; [apply (wp_write_inside s n ino nd); assumption || lia|].
  intros w s1 [-> Hrw]. destruct (rewrites_ok _ _ _ _ Hok Hrw) as (Hok' & Hi' & Hl' & Hin' & Hc).
  apply wp_bind. eapply wp_mono.
  { apply (wp_read_at s1 ino nd); [|done|lia|lia|lia].
    destruct Hu. split; [by rewrite Hin'|done|done|done]. }
  intros r s2 [-> _]. apply wp_ret. rewrite Hl', Hc.
  replace (Z.min size _) with size by lia.
  assert (zlen (slice 0 size buffer) = size) as Hz by (apply zlen_slice; lia).
  rewrite <- Hz at 1. apply slice_splice_same; [lia|].
  rewrite Hz, zlen_content by lia. lia.
Qed.

(** free_map_allocate() returns the first group of free sectors and marks
    it used, or fails exactly when there is none; afterwards the bitmap on
    disk equals the bitmap in memory and only data blocks of the free map's
    file have changed. *)
Theorem free_map_allocate_persists n (s : fstate D) fp f nd cnt :
  map_inv s fp f nd → 0 <= cnt →
  wp (free_map_allocate (inode_write_at (S n)) cnt)
    (λ o s', map_inv s' fp f nd ∧ map_frame s s' nd ∧ allocated cnt s s' o) s.
Proof. apply wp_allocate. Qed.

(** free_map_release() makes exactly the given sectors free, on disk as in
    memory. *)
Theorem free_map_release_persists n (s : fstate D) fp f nd x cnt :
  map_inv s fp f nd → 0 <= x → 0 <= cnt → x + cnt <= bit_cnt (free_map s) →
  all_bits (bm_abs (free_map s)) (Z.to_nat x) (Z.to_nat cnt) true →
  wp (free_map_release (inode_write_at (S n)) x cnt)
    (λ _ s', map_inv s' fp f nd ∧ map_frame s s' nd ∧
       bm_abs (free_map s') = splice x (replicate (Z.to_nat cnt) false) (bm_abs (free_map s))) s.
Proof. apply wp_release. Qed.

(** can_allocate() leaks: asked whether [num] sectors are available, it
    answers true and leaves the first free sector of the device marked used,
    although it is meant to give every sector back. *)
Theorem can_allocate_leaks n (s : fstate D) fp f nd num :
  alloc_inv s fp f nd → 1 <= num <= Z.of_nat (count_free (bits_of s)) →
  wp (can_allocate (inode_write_at (S n)) num)
    (λ r s', r = true ∧ alloc_inv s' fp f nd ∧ ∃ x,
       0 <= x ∧ bits_of s !! Z.to_nat x = Some false ∧
       (∀ j, 0 <= j < x → bits_of s !! Z.to_nat j ≠ Some false) ∧
       bits_of s' = <[Z.to_nat x := true]> (bits_of s)) s.
Proof. apply wp_can_allocate. Qed.

(** A denied write changes the file: when writes to the inode are denied,
    inode_write_at() returns 0 but has already extended the length of the
    file to the end of the refused write. *)
Theorem denied_write_grows (s : fstate D) n ino nd buffer size offset :
  usable s ino nd → inode_ok (disk s) (i_sector nd) → deny_write_cnt nd ≠ 0 →
  0 < file_len (disk s) (i_sector nd) < offset + size → 0 <= offset → 0 <= size →
  (offset + size - 1) / 512 = (file_len (disk s) (i_sector nd) - 1) / 512 →
  wp (inode_write_at (S n) ino buffer size offset)
    (λ r s', r = 0 ∧ file_len (disk s') (i_sector nd) = offset + size) s.
Proof. apply wp_write_denied. Qed.

(** inode_create() keeps stale pointers: the 12 direct pointers and the
    two indirect ones of a new, empty inode are whatever the sector held
    before. *)
Theorem create_keeps_pointers n (s : fstate D) sector :
  ss_inv (disk s) → 0 <= sector < ss_size (disk s) →
  wp (inode_create n sector 0)
    (λ r s', r = true ∧ file_len (disk s') sector = 0 ∧ free_map s' = free_map s ∧
       ∀ i, 0 <= i < 14 → word (disk s') sector (8 + 4 * i) = word (disk s) sector (8 + 4 * i)) s.
Proof. apply wp_create_empty. Qed.

(** Openers are counted: opening a sector, whether its inode is already
    open or not, and closing the inode again leaves the table of open inodes,
    the inodes and the disk as they were. *)
Theorem open_close_balanced write_rec (s : fstate D) sector :
  open_table s → (∀ p nd, inodes s !! p = Some nd → removed nd = false) →
  wp (let* ino := inode_open sector in inode_close write_rec (Some ino))
    (λ _ s', inodes s' = inodes s ∧ open_inodes s' = open_inodes s ∧ disk s' = disk s ∧
             open_lock s' = open_lock s) s.
Proof. apply wp_open_close. Qed.
End properties.

Lemma demo_len : file_len (disk demo_fs) (i_sector demo_inode) = 100.
Proof. vm_compute. reflexivity. Qed.

Lemma max_bytes : MAX_BLOCKS * 512 = 8460288.
Proof. reflexivity. Qed.

Lemma inode_read_at_content_witness :
  wp (inode_read_at 102 4 98) (λ r _, r = [0; 0]) demo_fs.
Proof.
  eapply wp_mono.
  { apply (inode_read_at_content demo_fs 102 demo_inode 4 98 demo_usable (proj1 demo_inode_ok));
      rewrite ?demo_len, ?max_bytes; lia. }
  intros r s' [-> _]. vm_compute. reflexivity.
Defined.

Lemma inode_write_at_inside_witness :
  wp (inode_write_at 1 102 [7; 8; 9] 3 10)
    (λ r s', r = 3 ∧ content (disk s') 0 = content (disk demo_fs) 0) demo_fs.
Proof.
  eapply wp_mono.
  { apply (inode_write_at_inside demo_fs 0 102 demo_inode [7; 8; 9] 3 10 demo_usable
             (proj1 demo_inode_ok)); rewrite ?demo_len; try lia; [done|].
    change (zlen [7; 8; 9]) with 3. lia. }
  intros r s' (-> & _ & _ & _ & Hother). split; [done|].
  apply Hother; [apply map_inode_ok|].
  intros x i [->| ->]%map_inode_ok Hi.
  - replace (num_blocks (disk demo_fs) (i_sector demo_inode)) with 1 in Hi
      by (vm_compute; reflexivity).
    replace i with 0 by lia. vm_compute. discriminate.
  - replace (num_blocks (disk demo_fs) (i_sector demo_inode)) with 1 in Hi
      by (vm_compute; reflexivity).
    replace i with 0 by lia. vm_compute. discriminate.
Defined.

Lemma write_then_read_witness :
  wp (let* w := inode_write_at 1 102 [7; 8; 9] 3 10 in
      let* r := inode_read_at 102 w 10 in ret r) (λ r _, r = [7; 8; 9]) demo_fs.
Proof.
  apply (write_then_read demo_fs 0 102 demo_inode [7; 8; 9] 3 10 demo_usable
           (proj1 demo_inode_ok)); rewrite ?demo_len, ?max_bytes; try lia; [done|].
  change (zlen [7; 8; 9]) with 3. lia.
Defined.

Lemma free_map_allocate_persists_witness :
  wp (free_map_allocate (inode_write_at 1) 2) (λ o _, o ≠ None) demo_fs.
Proof.
  eapply wp_mono.
  { apply (free_map_allocate_persists 0 demo_fs 101 map_fp map_inode 2 demo_map_inv). lia. }
  intros o s' (_ & _ & Hal) ->. destruct Hal as [_ Hno].
  apply (Hno 10); [lia|vm_compute; discriminate|].
  intros k Hk. destruct k as [|[|k]]; [vm_compute; reflexivity..|]. simpl in Hk. lia.
Defined.

Lemma free_map_release_persists_witness :
  wp (free_map_release (inode_write_at 1) 2 1)
    (λ _ s', bits_of s' !! 2%nat = Some false) demo_fs.
Proof.
  eapply wp_mono.
  { apply (free_map_release_persists 0 demo_fs 101 map_fp map_inode 2 1 demo_map_inv);
      [lia|lia|vm_compute; discriminate|].
    intros k Hk. destruct k as [|k]; [vm_compute; reflexivity|]. simpl in Hk. lia. }
  intros [] s' (_ & _ & Hb). unfold bits_of. rewrite Hb. vm_compute. reflexivity.
Defined.

Lemma can_allocate_leaks_witness :
  wp (can_allocate (inode_write_at 1) 3)
    (λ r s', r = true ∧ count_free (bits_of demo_fs) = S (count_free (bits_of s'))) demo_fs.
Proof.
  eapply wp_mono.
  { apply (can_allocate_leaks 0 demo_fs 101 map_fp map_inode 3 demo_alloc_inv).
    split; [lia|vm_compute; discriminate]. }
  intros r s' (-> & _ & x & Hx & Hf & _ & Hb). split; [done|]. rewrite Hb.
  by apply count_free_insert.
Defined.

Lemma disk_set_inodes {D} f (s : fstate D) : disk (set_inodes f s) = disk s.
Proof. reflexivity. Qed.
Lemma inodes_set_inodes {D} f (s : fstate D) : inodes (set_inodes f s) = f (inodes s).
Proof. reflexivity. Qed.

(** The demo file system with writes to the demo file denied. *)
Definition denied_inode : inode := mk_inode 4 1 false 1 INODE_MAGIC new_lock new_lock.
Definition denied_fs : fstate bstate := set_inodes <[102 := denied_inode]> demo_fs.

Lemma disk_denied : disk denied_fs = disk demo_fs.
Proof. exact (disk_set_inodes _ demo_fs). Qed.

Lemma denied_usable : usable denied_fs 102 denied_inode.
Proof.
  split; [|reflexivity|reflexivity|].
  { unfold denied_fs. rewrite inodes_set_inodes. apply lookup_insert_eq. }
  rewrite disk_denied. exact demo_disk.
Qed.

Lemma denied_write_grows_witness :
  wp (inode_write_at 1 102 [1; 2; 3] 3 100)
    (λ r s', r = 0 ∧ file_len (disk s') 4 = 103) denied_fs.
Proof.
  apply (denied_write_grows denied_fs 0 102 denied_inode [1; 2; 3] 3 100).
  - exact denied_usable.
  - rewrite disk_denied. exact (proj1 demo_inode_ok).
  - discriminate.
  - rewrite disk_denied. change (i_sector denied_inode) with (i_sector demo_inode).
    rewrite demo_len. lia.
  - lia.
  - lia.
  - rewrite disk_denied. change (i_sector denied_inode) with (i_sector demo_inode).
    rewrite demo_len. reflexivity.
Defined.

Lemma create_keeps_pointers_witness :
  wp (inode_create 1 4 0) (λ r s', word (disk s') 4 8 = 6) demo_fs.
Proof.
  eapply wp_mono.
  { apply (create_keeps_pointers 1 demo_fs 4 demo_disk). split; [lia|vm_compute; reflexivity]. }
  intros r s' (_ & _ & _ & Hw). change 8 with (8 + 4 * 0). rewrite (Hw 0 ltac:(lia)).
  vm_compute. reflexivity.
Defined.

Lemma open_close_balanced_witness :
  wp (let* ino := inode_open 4 in inode_close (inode_write_at 1) (Some ino))
    (λ _ s', inodes s' = inodes demo_fs) demo_fs.
Proof.
  assert (open_inodes demo_fs = [102; 100]) as Eo by (vm_compute; reflexivity).
  assert (inodes demo_fs = {[102 := demo_inode; 100 := map_inode]}) as Ei
    by (vm_compute; reflexivity).
  eapply wp_mono.
  { apply (open_close_balanced (inode_write_at 1) demo_fs 4).
    - split; rewrite ?Eo, ?Ei.
      + apply NoDup_ListNoDup. repeat constructor; simpl; lia.
      + intros p [->|[->|[]%elem_of_nil]%elem_of_cons]%elem_of_cons.
        * exists demo_inode. split_and!; done || (simpl; lia).
        * exists map_inode. split_and!; done || (simpl; lia).
      + intros p q nd nd' [->|[->|[]%elem_of_nil]%elem_of_cons]%elem_of_cons
          [->|[->|[]%elem_of_nil]%elem_of_cons]%elem_of_cons; by intros [= <-] [= <-].
      + intros p Hp. replace (next_ptr demo_fs) with 103 in Hp by (vm_compute; reflexivity).
        split; [|rewrite !elem_of_cons, elem_of_nil; lia].
        rewrite lookup_insert_ne, lookup_singleton_ne by lia. reflexivity.
      + vm_compute; reflexivity.
      + apply demo_disk.
    - intros p nd. rewrite Ei, lookup_insert_Some, lookup_singleton_Some.
      by intros [[_ <-]|[_ [_ <-]]]. }
  by intros [] s' (-> & _).
Defined.

End File.
