(* ===== verification/Directory.v ===== *)
(** * Directory: directories and paths (filesys/directory.c)

    A directory is a file of 20-byte entries: the sector of an inode, a name
    of at most 14 characters with its terminator, and a flag.  Names and paths
    are lists of non-zero bytes.  [n] is the fuel of inode_write_at(), [k] that
    of the loops over the entries of a directory: one unit per entry read,
    and one more.  [junk] is what a [struct dir_entry] on the stack holds
    before it is first read. *)

From Stdlib Require Import ZArith Lia.
From stdpp Require Import base tactics option list numbers gmap.
From S2P Require Import Prelude Bitmap Sched Synch Block FsState FreeMap Inode FsAlloc File.
Import Bitmap Sched Synch Block FsState FreeMap Inode FsAlloc File.

Module Directory.

Definition NAME_MAX : Z := 14.
Definition PATH_MAX : Z := 256.

Record dir_entry := mk_entry {
  e_inode_sector : Z;
  e_name : list Z;
  e_in_use : Z
}.

(** The 20 bytes of an entry. *)
Definition sizeof_entry : Z := 20.
Definition entry_bytes (e : dir_entry) : list Z :=
  le_bytes 4 (u32 (e_inode_sector e)) ++ e_name e ++ [e_in_use e].
Definition bytes_entry (b : list Z) : dir_entry :=
  mk_entry (le_val (slice 0 4 b)) (slice 4 15 b) (nth 19 b 0).

(** The string in a buffer, and the buffer after strlcpy() of [s] into all of
    it. *)
Fixpoint cstr (l : list Z) : list Z :=
  match l with
  | [] => []
  | b :: l => if b =? 0 then [] else b :: cstr l
  end.
Definition strlcpy_buf (buf s : list Z) : list Z :=
  splice 0 (take (length buf - 1) s ++ [0]) buf.

(** [e.in_use && !strcmp (name, e.name)]. *)
Definition entry_named (name : list Z) (e : dir_entry) : bool :=
  negb (e_in_use e =? 0) && bool_decide (name = cstr (e_name e)).

(** "." and "..". *)
Definition dot : list Z := [46].
Definition dotdot : list Z := [46; 46].

(** ** Paths *)

Definition slash : Z := 47.

Fixpoint skip_slashes (src : list Z) : list Z :=
  match src with
  | c :: src' => if c =? slash then skip_slashes src' else src
  | [] => []
  end.

(** The second loop of get_next_part(): the characters copied, the rest of the
    path, and whether the part fitted into [room] characters. *)
Fixpoint copy_part (room : nat) (src : list Z) : list Z * list Z * bool :=
  match src with
  | [] => ([], [], true)
  | c :: src' =>
      if c =? slash then ([], src, true)
      else match room with
           | O => ([], src, false)
           | S room => let '(d, rest, ok) := copy_part room src' in (c :: d, rest, ok)
           end
  end.

(** The status, the buffer [part] and the path left in [*srcp]. *)
Definition get_next_part (part srcp : list Z) : Z * list Z * list Z :=
  match skip_slashes srcp with
  | [] => (0, part, srcp)
  | src =>
      let '(d, rest, ok) := copy_part (Z.to_nat NAME_MAX) src in
      if ok then (1, splice 0 (d ++ [0]) part, rest) else (-1, splice 0 d part, srcp)
  end.

Fixpoint last_part_loop (fuel : nat) (part srcp : list Z) : option (bool * list Z) :=
  match fuel with
  | O => None
  | S fuel =>
      let '(status, part, srcp) := get_next_part part srcp in
      if status =? -1 then Some (false, part)
      else if status =? 0 then Some (true, part)
      else last_part_loop fuel part srcp
  end.

(** Whether every part fitted, and the buffer. *)
Definition get_last_part (part path : list Z) : bool * list Z :=
  default (false, part) (last_part_loop (S (length path)) part path).

Definition is_relative (path : list Z) : bool :=
  match path with c :: _ => negb (c =? slash) | [] => true end.

(** The path cut by get_subdir_from_path(): without trailing slashes and
    without the last part. *)
Fixpoint strip_name (r : list Z) : list Z :=
  match r with
  | c :: r' => if c =? slash then r else strip_name r'
  | [] => []
  end.
Definition parent_path (path : list Z) : list Z :=
  rev (strip_name (skip_slashes (rev path))).

Section dir_ops.
Context {D : Type} `{HK : Kernel D} `{!SectorStore D}.
Context (n k : nat) (junk : dir_entry).

(** ** Opening and closing *)

Definition the_dir (dp : Z) : M (fstate D) dir :=
  let* s := get in deref (dirs s !! dp).

Definition dir_create (sector entry_cnt : Z) : M (fstate D) bool :=
  inode_create_wild (inode_write_at n) sector (s32 (entry_cnt * sizeof_entry)) true.

Definition dir_open (oino : option Z) : M (fstate D) Z :=
  match oino with
  | None => panic
  | Some ino =>
      let* ok := malloc_ok in
      assert ok;;;
      let* dp := fresh_ptr in
      modify (set_dirs <[dp := mk_dir ino 0]>);;;
      ret dp
  end.

Definition dir_open_root : M (fstate D) Z :=
  let* ino := inode_open ROOT_DIR_SECTOR in dir_open (Some ino).

Definition dir_get_inode (odp : option Z) : M (fstate D) Z :=
  match odp with
  | None => panic
  | Some dp => let* d := the_dir dp in ret (d_inode d)
  end.

Definition dir_reopen (odp : option Z) : M (fstate D) (option Z) :=
  match odp with
  | None => panic
  | Some dp =>
      let* d := the_dir dp in
      let* live := inode_is (d_inode d) in
      if negb live then ret None
      else
        let* ino := inode_reopen (d_inode d) in
        let* dp := dir_open (Some ino) in
        ret (Some dp)
  end.

Definition dir_close (odp : option Z) : M (fstate D) unit :=
  match odp with
  | None => ret tt
  | Some dp =>
      let* d := the_dir dp in
      let* live := inode_is (d_inode d) in
      (if live then inode_close (inode_write_at n) (Some (d_inode d)) else ret tt);;;
      modify (set_dirs (delete dp))
  end.

(** ** Entries *)

(** [inode_read_at (inode, &e, sizeof e, ofs) == sizeof e], and [e] after
    it. *)
Definition read_entry (ino ofs : Z) (e : dir_entry) : M (fstate D) (bool * dir_entry) :=
  let* b := inode_read_at ino sizeof_entry ofs in
  ret (zlen b =? sizeof_entry, bytes_entry (b ++ drop (length b) (entry_bytes e))).

Fixpoint lookup_loop (k : nat) (ino : Z) (name : list Z) (ofs : Z) (e : dir_entry) :
    M (fstate D) (option (dir_entry * Z)) :=
  match k with
  | O => no_fuel
  | S k =>
      let* r := read_entry ino ofs e in
      if r.1 : bool then
        if entry_named name r.2 then ret (Some (r.2, ofs))
        else lookup_loop k ino name (ofs + sizeof_entry) r.2
      else ret None
  end.

(** The entry and its offset. *)
Definition lookup_unsynched (dp : Z) (name : list Z) :
    M (fstate D) (option (dir_entry * Z)) :=
  let* d := the_dir dp in
  lookup_loop k (d_inode d) name 0 junk.

Definition lookup (dp : Z) (name : list Z) : M (fstate D) (option (dir_entry * Z)) :=
  let* ino := dir_get_inode (Some dp) in
  get_dir_lock ino;;;
  let* r := lookup_unsynched dp name in
  let* ino := dir_get_inode (Some dp) in
  release_dir_lock ino;;;
  ret r.

Definition dir_lookup_unsynched (dp : Z) (name : list Z) : M (fstate D) (option Z) :=
  let* r := lookup_unsynched dp name in
  match r with
  | Some (e, _) =>
      let* ino := inode_open (e_inode_sector e) in
      let* live := inode_is ino in
      assert live;;;
      ret (Some ino)
  | None => assert (negb (bool_decide (name = dotdot)));;; ret None
  end.

Definition dir_lookup (dp : Z) (name : list Z) : M (fstate D) (option Z) :=
  let* ino := dir_get_inode (Some dp) in
  get_dir_lock ino;;;
  let* r := dir_lookup_unsynched dp name in
  let* ino := dir_get_inode (Some dp) in
  release_dir_lock ino;;;
  ret r.

(** The offset of the first free slot, or of the end, and [e]. *)
Fixpoint free_slot_loop (k : nat) (ino ofs : Z) (e : dir_entry) : M (fstate D) (dir_entry * Z) :=
  match k with
  | O => no_fuel
  | S k =>
      let* r := read_entry ino ofs e in
      if r.1 : bool then
        if e_in_use r.2 =? 0 then ret (r.2, ofs)
        else free_slot_loop k ino (ofs + sizeof_entry) r.2
      else ret (r.2, ofs)
  end.

Definition dir_add_unsynched (dp : Z) (name : list Z) (inode_sector : Z) : M (fstate D) bool :=
  if (match name with [] => true | _ => false end) || (zlen name >? NAME_MAX) then ret false
  else
    let* found := lookup_unsynched dp name in
    match found with
    | Some _ => ret false
    | None =>
        let* d := the_dir dp in
        let* r := free_slot_loop k (d_inode d) 0 junk in
        let e := mk_entry inode_sector (strlcpy_buf (e_name r.1) name) 1 in
        let* w := inode_write_at n (d_inode d) (entry_bytes e) sizeof_entry r.2 in
        ret (w =? sizeof_entry)
    end.

Definition dir_add (dp : Z) (name : list Z) (inode_sector : Z) : M (fstate D) bool :=
  let* ino := dir_get_inode (Some dp) in
  get_dir_lock ino;;;
  let* r := dir_add_unsynched dp name inode_sector in
  let* ino := dir_get_inode (Some dp) in
  release_dir_lock ino;;;
  ret r.

Definition dir_remove (dp : Z) (name : list Z) : M (fstate D) bool :=
  let* ino := dir_get_inode (Some dp) in
  get_dir_lock ino;;;
  let* found := lookup_unsynched dp name in
  let* ino := dir_get_inode (Some dp) in
  release_dir_lock ino;;;
  match found with
  | None => ret false
  | Some (e, ofs) =>
      let* inode := inode_open (e_inode_sector e) in
      let e := mk_entry (e_inode_sector e) (e_name e) 0 in
      let* d := the_dir dp in
      let* w := inode_write_at n (d_inode d) (entry_bytes e) sizeof_entry ofs in
      if negb (w =? sizeof_entry) then panic
      else
        inode_remove inode;;;
        inode_close (inode_write_at n) (Some inode);;;
        ret true
  end.

(** The next entry in use that [wanted] accepts: its name, copied with
    strlcpy() into a buffer of 15 bytes.  [dir->pos] moves past every entry
    read. *)
Fixpoint readdir_loop (k : nat) (wanted : list Z → bool) (dp : Z) (name : list Z) (e : dir_entry) :
    M (fstate D) (option (list Z)) :=
  match k with
  | O => no_fuel
  | S k =>
      let* d := the_dir dp in
      let* r := read_entry (d_inode d) (d_pos d) e in
      if r.1 : bool then
        modify (set_dirs <[dp := mk_dir (d_inode d) (s32 (d_pos d + sizeof_entry))]>);;;
        if negb (e_in_use r.2 =? 0) && wanted (cstr (e_name r.2))
        then ret (Some (strlcpy_buf name (cstr (e_name r.2))))
        else readdir_loop k wanted dp name r.2
      else ret None
  end.

Definition dir_readdir (dp : Z) (name : list Z) : M (fstate D) (option (list Z)) :=
  let* ino := dir_get_inode (Some dp) in
  get_dir_lock ino;;;
  let* r := readdir_loop k (λ _, true) dp name junk in
  let* ino := dir_get_inode (Some dp) in
  release_dir_lock ino;;;
  ret r.

Definition is_special (name : list Z) : bool :=
  bool_decide (name = dot) || bool_decide (name = dotdot).

(** The early return keeps the directory's lock. *)
Definition dir_readdir_2 (dp : Z) (name : list Z) : M (fstate D) (option (list Z)) :=
  let* ino := dir_get_inode (Some dp) in
  get_dir_lock ino;;;
  let* d := the_dir dp in
  let* live := inode_is (d_inode d) in
  if negb live then ret None
  else
    let* r := readdir_loop k (λ nm, negb (is_special nm)) dp name junk in
    let* ino := dir_get_inode (Some dp) in
    release_dir_lock ino;;;
    ret r.

Fixpoint is_empty_loop (k : nat) (ino ofs : Z) (e : dir_entry) : M (fstate D) bool :=
  match k with
  | O => no_fuel
  | S k =>
      let* r := read_entry ino ofs e in
      if r.1 : bool then
        if negb (e_in_use r.2 =? 0) && negb (is_special (cstr (e_name r.2))) then ret false
        else is_empty_loop k ino (ofs + sizeof_entry) r.2
      else ret true
  end.

Definition is_empty (dp : Z) : M (fstate D) bool :=
  let* ino := dir_get_inode (Some dp) in
  get_dir_lock ino;;;
  let* d := the_dir dp in
  let* r := is_empty_loop k (d_inode d) 0 junk in
  let* ino := dir_get_inode (Some dp) in
  release_dir_lock ino;;;
  ret r.

(** ** Path resolution *)

(** The string in a buffer of characters; a missing terminator is read past
    the end. *)
Definition buf_string (buf : list Z) : M (fstate D) (list Z) :=
  if bool_decide (0 ∈ buf) then ret (cstr buf) else fault.

(** One round per part of the path: [cur_dir] is open and its directory lock
    held. *)
Fixpoint path_loop (fuel : nat) (path saved_path part : list Z) (cur_dir : Z) :
    M (fstate D) (option Z) :=
  match fuel with
  | O => no_fuel
  | S fuel =>
      let '(status, part, saved_path) := get_next_part part saved_path in
      if status =? -1 then
        let* ino := dir_get_inode (Some cur_dir) in
        release_dir_lock ino;;;
        dir_close (Some cur_dir);;;
        assert (negb (bool_decide (path = dotdot)));;;
        ret None
      else if status =? 0 then
        let* ino := dir_get_inode (Some cur_dir) in
        let* gone := to_be_removed ino in
        if gone : bool then
          let* ino := dir_get_inode (Some cur_dir) in
          release_dir_lock ino;;;
          dir_close (Some cur_dir);;;
          ret None
        else
          let* ino := dir_get_inode (Some cur_dir) in
          let* again := inode_reopen ino in
          let* ino := dir_get_inode (Some cur_dir) in
          release_dir_lock ino;;;
          dir_close (Some cur_dir);;;
          ret (Some again)
      else
        let* name := buf_string part in
        let* next := dir_lookup_unsynched cur_dir name in
        let* go :=
          (match next with
           | None => ret false
           | Some _ =>
               let* ino := dir_get_inode (Some cur_dir) in
               let* gone := to_be_removed ino in
               ret (negb gone)
           end) in
        let* ino := dir_get_inode (Some cur_dir) in
        release_dir_lock ino;;;
        dir_close (Some cur_dir);;;
        if go : bool then
          let* cur_dir := dir_open next in
          let* ino := dir_get_inode (Some cur_dir) in
          get_dir_lock ino;;;
          path_loop fuel path saved_path part cur_dir
        else ret None
  end.

(** [cwd] is the current directory of the running thread, [part] the buffer
    on the stack. *)
Definition get_inode_from_path (cwd : option Z) (part path : list Z) : M (fstate D) (option Z) :=
  match path with
  | [] =>
      let* cwd_i := dir_get_inode cwd in
      let* live := inode_is cwd_i in
      if negb live then ret None
      else
        let* live := inode_is cwd_i in
        assert live;;;
        let* gone := to_be_removed cwd_i in
        if gone : bool then ret None
        else let* _ := inode_reopen cwd_i in ret (Some cwd_i)
  | _ =>
      if bool_decide (path = [slash]) then
        let* dp := dir_open_root in
        let* ino := dir_get_inode (Some dp) in
        ret (Some ino)
      else
        let* cur_dir :=
          (if is_relative path then dir_reopen cwd
           else let* dp := dir_open_root in ret (Some dp)) in
        match cur_dir with
        | None => ret None
        | Some cur_dir =>
            let* ino := dir_get_inode (Some cur_dir) in
            get_dir_lock ino;;;
            path_loop (S (length path)) path path part cur_dir
        end
  end.

Definition get_dir_from_path (cwd : option Z) (part path : list Z) : M (fstate D) (option Z) :=
  let* inn := get_inode_from_path cwd part path in
  match inn with
  | None => ret None
  | Some ino =>
      let* isdir := inode_is_dir ino in
      assert isdir;;;
      let* live := inode_is ino in
      assert live;;;
      let* dp := dir_open (Some ino) in
      ret (Some dp)
  end.

(** The path is copied to a buffer of 257 bytes without a check. *)
Definition get_subdir_from_path (cwd : option Z) (part path : list Z) : M (fstate D) (option Z) :=
  if zlen path >? PATH_MAX + 1 then fault
  else get_dir_from_path cwd part (parent_path path).

(** [new_name] is the buffer on the stack before get_last_part(), whose
    result is not looked at. *)
Definition subdir_create (name : list Z) (parent : option Z) (new_name : list Z) :
    M (fstate D) bool :=
  let new_name := (get_last_part new_name name).2 in
  let* pino := dir_get_inode parent in
  get_dir_lock pino;;;
  let* dp := deref parent in
  let* o := free_map_allocate (inode_write_at n) 1 in
  let inode_sector := default 0 o in
  let* success :=
    (match o with
     | None => ret false
     | Some sector =>
         let* ok := dir_create sector 2 in
         if ok then let* nm := buf_string new_name in dir_add_unsynched dp nm sector
         else ret false
     end) in
  if negb success then
    (if negb (inode_sector =? 0)
     then free_map_release (inode_write_at n) inode_sector 1 else ret tt);;;
    let* pino := dir_get_inode parent in
    release_dir_lock pino;;;
    ret false
  else
    let* nm := buf_string new_name in
    let* new := dir_lookup_unsynched dp nm in
    let* success :=
      (match new with
       | None => ret false
       | Some new =>
           inode_set_dir new;;;
           let* pino := dir_get_inode parent in
           let* parent_sector := get_inode_sector pino in
           let* new_sector := get_inode_sector new in
           let* i1 := inode_open new_sector in
           let* dot_entry := dir_open (Some i1) in
           let* i2 := inode_open parent_sector in
           let* dotdot_entry := dir_open (Some i2) in
           let* _ := dir_add_unsynched dot_entry dot new_sector in
           let* _ := dir_add_unsynched dot_entry dotdot parent_sector in
           dir_close (Some dot_entry);;;
           dir_close (Some dotdot_entry);;;
           inode_close (inode_write_at n) (Some new);;;
           ret true
       end) in
    let* pino := dir_get_inode parent in
    release_dir_lock pino;;;
    dir_close parent;;;
    ret success.

End dir_ops.

End Directory.
