(* ===== verification/DirSpec.v ===== *)
(** * DirSpec: directories as finite maps

    The contents of a directory are read as a list of entries, and the list
    as a map from names to sectors ([dir_find]).  The operations of
    filesys/directory.c are shown to be lookup, insertion and deletion of
    that map, and the parts of a path to be its non-empty components. *)

From Stdlib Require Import ZArith Lia.
From stdpp Require Import base tactics option list numbers gmap.
From S2P Require Import Prelude Bitmap Sched Synch Block FsState FreeMap Inode FsAlloc File.
From S2P Require Import CString Directory.
Import Bitmap Sched Synch Block FsState FreeMap Inode FsAlloc File Directory.

Module DirSpec.

(** The components of a path: its maximal runs without a slash. *)
Definition components (path : list Z) : list (list Z) := CString.words [slash] path.

(** ** Entries *)

Lemma sizeof_20 : sizeof_entry = 20.
Proof. reflexivity. Qed.

(** The first entry with a name, and its offset. *)
Fixpoint find_entry (name : list Z) (es : list dir_entry) (ofs : Z) : option (dir_entry * Z) :=
  match es with
  | [] => None
  | e :: es =>
      if entry_named name e then Some (e, ofs) else find_entry name es (ofs + sizeof_entry)
  end.

(** The sector a name is bound to. *)
Fixpoint dir_find (es : list dir_entry) (name : list Z) : option Z :=
  match es with
  | [] => None
  | e :: es => if entry_named name e then Some (e_inode_sector e) else dir_find es name
  end.

(** The first entry that is not in use. *)
Fixpoint first_free (es : list dir_entry) : option nat :=
  match es with
  | [] => None
  | e :: es => if e_in_use e =? 0 then Some O else S <$> first_free es
  end.

(** No name is in use twice. *)
Definition unique_names (es : list dir_entry) : Prop :=
  ∀ i j ei ej, es !! i = Some ei → es !! j = Some ej → e_in_use ei ≠ 0 → e_in_use ej ≠ 0 →
    cstr (e_name ei) = cstr (e_name ej) → i = j.

Section entries.
Context {D : Type} `{HK : Kernel D} `{!SectorStore D}.

Definition entry_at (c : list Z) (i : Z) : dir_entry := bytes_entry (slice (20 * i) 20 c).
Definition entries_of (c : list Z) : list dir_entry :=
  entry_at c <$> seqZ 0 (zlen c / 20).

(** The entries of the directory whose inode is at [isec]. *)
Definition entries (d : D) (isec : Z) : list dir_entry := entries_of (content d isec).

End entries.

Lemma length_entries c : length (entries_of c) = Z.to_nat (zlen c / 20).
Proof. unfold entries_of. by rewrite length_fmap, length_seqZ. Qed.

Lemma lookup_entries c i : 0 <= i → 20 * i + 20 <= zlen c →
  entries_of c !! Z.to_nat i = Some (entry_at c i).
Proof.
  intros Hi Hc. unfold entries_of. rewrite list_lookup_fmap.
  rewrite lookup_seqZ_lt by dlia. simpl. do 2 f_equal. lia.
Qed.

Lemma drop_entries c i : 0 <= i → 20 * i + 20 <= zlen c →
  drop (Z.to_nat i) (entries_of c) = entry_at c i :: drop (Z.to_nat (i + 1)) (entries_of c).
Proof.
  intros Hi Hc. replace (Z.to_nat (i + 1)) with (S (Z.to_nat i)) by lia.
  apply drop_S. by apply lookup_entries.
Qed.

Lemma drop_entries_end c i : zlen c < 20 * i + 20 → drop (Z.to_nat i) (entries_of c) = [].
Proof.
  intros Hc. pose proof (zlen_nonneg c). apply drop_ge. rewrite length_entries. dlia.
Qed.

(** What the bytes of an entry say. *)
Lemma bytes_entry_bytes e : length (e_name e) = 15%nat →
  bytes_entry (entry_bytes e) = mk_entry (u32 (e_inode_sector e)) (e_name e) (e_in_use e).
Proof.
  intros Hl. unfold bytes_entry, entry_bytes. f_equal.
  - unfold slice. rewrite drop_0. rewrite take_app_length' by (by rewrite length_le_bytes).
    apply le_val_u32. apply u32_range.
  - unfold slice. rewrite drop_app_length' by (by rewrite length_le_bytes).
    by rewrite take_app_length' by (rewrite Hl; done).
  - rewrite app_assoc, app_nth2; rewrite length_app, length_le_bytes, Hl; [|lia].
    replace (19 - (4 + 15))%nat with O by lia. done.
Qed.

Lemma slice_app_l {A} o m (b t : list A) : 0 <= o → 0 <= m → o + m <= zlen b →
  slice o m (b ++ t) = slice o m b.
Proof.
  intros Ho Hm Hl. unfold slice, zlen in *. rewrite drop_app_le by lia. apply take_app_le.
  rewrite length_drop. lia.
Qed.

Lemma bytes_entry_app b t : zlen b = 20 → bytes_entry (b ++ t) = bytes_entry b.
Proof.
  intros Hb. unfold bytes_entry. rewrite !slice_app_l by lia. f_equal.
  apply app_nth1. unfold zlen in Hb. lia.
Qed.

Lemma length_entry_bytes e : length (e_name e) = 15%nat → zlen (entry_bytes e) = 20.
Proof.
  intros Hl. unfold entry_bytes, zlen. rewrite !length_app, length_le_bytes, Hl. done.
Qed.

(** The entry that is read back. *)
Definition stored (e : dir_entry) : dir_entry :=
  mk_entry (u32 (e_inode_sector e)) (e_name e) (e_in_use e).

Lemma stored_id e : in_u32 (e_inode_sector e) → stored e = e.
Proof. intros Hu. unfold stored. rewrite u32_small by done. by destruct e. Qed.

(** Overwriting entry [i]. *)
Lemma entries_splice c i e : 0 <= i → 20 * i + 20 <= zlen c → length (e_name e) = 15%nat →
  entries_of (splice (20 * i) (entry_bytes e) c) = <[Z.to_nat i := stored e]> (entries_of c).
Proof.
  intros Hi Hc Hl. pose proof (length_entry_bytes e Hl) as Hb.
  assert (zlen (splice (20 * i) (entry_bytes e) c) = zlen c) as Hz
    by (apply zlen_splice; lia).
  apply list_eq. intros j.
  destruct (decide (j < Z.to_nat (zlen c / 20))%nat) as [Hj|Hj].
  - rewrite <- (Nat2Z.id j). rewrite lookup_entries by (rewrite ?Hz; dlia).
    destruct (decide (Z.of_nat j = i)) as [<-|Hne].
    + rewrite list_lookup_insert_eq by (rewrite length_entries; lia). f_equal.
      pose proof (slice_splice_same (20 * Z.of_nat j) (entry_bytes e) c) as E. rewrite Hb in E.
      unfold entry_at. rewrite E by lia. by rewrite bytes_entry_bytes by done.
    + rewrite list_lookup_insert_ne by lia. rewrite lookup_entries by dlia. f_equal.
      unfold entry_at. f_equal. apply slice_splice_disjoint; lia.
  - rewrite !lookup_ge_None_2; [done|rewrite length_insert, length_entries; lia
      |rewrite length_entries, Hz; lia].
Qed.

Lemma name_at c i : 0 <= i → 20 * i + 20 <= zlen c → length (e_name (entry_at c i)) = 15%nat.
Proof.
  intros Hi Hc. unfold entry_at, bytes_entry. cbn [e_name].
  enough (zlen (slice 4 15 (slice (20 * i) 20 c)) = 15) by (unfold zlen in *; lia).
  apply zlen_slice; [lia|lia|]. rewrite zlen_slice; lia.
Qed.

Lemma entries_lookup_inv c (i : nat) e : entries_of c !! i = Some e →
  20 * Z.of_nat i + 20 <= zlen c ∧ e = entry_at c (Z.of_nat i).
Proof.
  intros Hi. pose proof (lookup_lt_Some _ _ _ Hi) as Hl. rewrite length_entries in Hl.
  assert (20 * Z.of_nat i + 20 <= zlen c) as Hc by dlia. split; [done|].
  pose proof (lookup_entries c (Z.of_nat i) ltac:(lia) Hc) as E. rewrite Nat2Z.id in E.
  congruence.
Qed.

(** ** The map of a list of entries *)

Lemma find_entry_dir_find name es ofs :
  e_inode_sector ∘ fst <$> find_entry name es ofs = dir_find es name.
Proof.
  revert ofs. induction es as [|e es IH]; intros ofs; [done|]. cbn [find_entry dir_find].
  destruct (entry_named name e); [done|]. apply IH.
Qed.

Lemma find_entry_Some name es ofs e o : find_entry name es ofs = Some (e, o) →
  ∃ i : nat, es !! i = Some e ∧ o = ofs + 20 * Z.of_nat i ∧ entry_named name e = true.
Proof.
  revert ofs. induction es as [|e' es IH]; intros ofs; [done|]. cbn [find_entry].
  destruct (entry_named name e') eqn:E.
  - intros [= <- <-]. exists O. split_and!; [done|lia|done].
  - intros (i & Hi & -> & He)%IH. exists (S i). rewrite sizeof_20. split_and!; [done|lia|done].
Qed.

Lemma entry_named_true name e :
  entry_named name e = true ↔ e_in_use e ≠ 0 ∧ name = cstr (e_name e).
Proof.
  unfold entry_named. rewrite andb_true_iff, negb_true_iff, Z.eqb_neq, bool_decide_eq_true. done.
Qed.

Lemma entry_named_free name e : e_in_use e = 0 → entry_named name e = false.
Proof. unfold entry_named. by intros ->. Qed.

Lemma entry_named_other name name' e :
  entry_named name e = true → name ≠ name' → entry_named name' e = false.
Proof.
  intros [_ ->]%entry_named_true Hne. apply not_true_is_false.
  by intros [_ ->]%entry_named_true.
Qed.

(** A new name in a free slot. *)
Lemma dir_find_insert es i e0 e name nm :
  es !! i = Some e0 → e_in_use e0 = 0 → entry_named name e = true → dir_find es name = None →
  dir_find (<[i := e]> es) nm =
    if decide (nm = name) then Some (e_inode_sector e) else dir_find es nm.
Proof.
  revert i. induction es as [|e' es IH]; intros [|i] Hi H0 He Hn; [done..| |];
    cbn [dir_find] in Hn.
  - injection Hi as ->. cbn [insert list_insert dir_find].
    rewrite (entry_named_free nm e0) by done. case_decide as E.
    + subst. by rewrite He.
    + by rewrite (entry_named_other _ _ _ He) by done.
  - destruct (entry_named name e') eqn:E'; [done|]. cbn [insert list_insert dir_find].
    rewrite IH by done. case_decide; [subst; by rewrite E'|done].
Qed.

Lemma dir_find_None es name : dir_find es name = None →
  ∀ i e, es !! i = Some e → entry_named name e = false.
Proof.
  induction es as [|e es IH]; intros Hn; [done|]. cbn [dir_find] in Hn.
  destruct (entry_named name e) eqn:E; [done|]. intros [|i] e' Hi; [naive_solver|eauto].
Qed.

Lemma dir_find_None_2 es name :
  (∀ i e, es !! i = Some e → entry_named name e = false) → dir_find es name = None.
Proof.
  induction es as [|e es IH]; intros Hn; [done|]. cbn [dir_find].
  rewrite (Hn O e) by done. apply IH. intros i. apply (Hn (S i)).
Qed.

(** The entry with a name, erased. *)
Lemma dir_find_delete es i e e' name nm :
  unique_names es → es !! i = Some e → entry_named name e = true → e_in_use e' = 0 →
  dir_find (<[i := e']> es) nm = if decide (nm = name) then None else dir_find es nm.
Proof.
  intros Hu Hi He He'. case_decide as Hnm.
  - subst nm. apply dir_find_None_2. intros j ej Hj.
    destruct (decide (j = i)) as [->|Hne].
    + rewrite list_lookup_insert_eq in Hj by (by eapply lookup_lt_Some).
      injection Hj as <-. by apply entry_named_free.
    + rewrite list_lookup_insert_ne in Hj by done. apply not_true_is_false.
      intros [H1 H2]%entry_named_true. apply entry_named_true in He as [H3 H4].
      apply Hne. eapply Hu; eauto. congruence.
  - clear Hu. revert i Hi. induction es as [|x es IH]; intros [|i] Hi; [done..| |].
    + injection Hi as ->. cbn [insert list_insert dir_find].
      by rewrite (entry_named_free nm e'), (entry_named_other _ _ _ He) by done.
    + cbn [insert list_insert dir_find]. by rewrite IH.
Qed.

Lemma unique_insert es i e0 e name :
  unique_names es → es !! i = Some e0 → entry_named name e = true → dir_find es name = None →
  unique_names (<[i := e]> es).
Proof.
  intros Hu Hi [He1 He2]%entry_named_true Hn a b ea eb Ha Hb Hua Hub Hab.
  apply list_lookup_insert_Some in Ha as [(-> & <- & _)|[Ha' Ha]];
    apply list_lookup_insert_Some in Hb as [(-> & <- & _)|[Hb' Hb]]; try done.
  - assert (entry_named name eb = true) as E by (apply entry_named_true; split; congruence).
    by rewrite (dir_find_None _ _ Hn _ _ Hb) in E.
  - assert (entry_named name ea = true) as E by (apply entry_named_true; split; congruence).
    by rewrite (dir_find_None _ _ Hn _ _ Ha) in E.
  - by eapply Hu.
Qed.

Lemma unique_erase es i e : unique_names es → e_in_use e = 0 → unique_names (<[i := e]> es).
Proof.
  intros Hu He a b ea eb Ha Hb Hua Hub Hab.
  apply list_lookup_insert_Some in Ha as [(-> & <- & _)|[Ha' Ha]]; [done|].
  apply list_lookup_insert_Some in Hb as [(-> & <- & _)|[Hb' Hb]]; [done|]. by eapply Hu.
Qed.

Lemma first_free_Some es i : first_free es = Some i →
  ∃ e, es !! i = Some e ∧ e_in_use e = 0.
Proof.
  revert i. induction es as [|e es IH]; intros i; [done|]. cbn [first_free].
  destruct (Z.eqb_spec (e_in_use e) 0); [intros [= <-]; by exists e|].
  destruct (first_free es) as [j|]; [|done]. intros [= <-]. by apply IH.
Qed.

(** ** Names *)

Lemma cstr_buf name (t : list Z) : Forall (λ b, b ≠ 0) name → cstr (name ++ 0 :: t) = name.
Proof.
  induction 1 as [|b name Hb _ IH]; [done|]. cbn [app cstr].
  rewrite (proj2 (Z.eqb_neq b 0)) by done. by rewrite IH.
Qed.

(** strlcpy() of a name that fits. *)
Lemma cstr_strlcpy buf name : Forall (λ b, b ≠ 0) name → (length name < length buf)%nat →
  cstr (strlcpy_buf buf name) = name ∧ length (strlcpy_buf buf name) = length buf.
Proof.
  intros Hz Hl. unfold strlcpy_buf, splice. rewrite (take_ge name) by lia. change (Z.to_nat 0) with O.
  rewrite take_0. cbn [app]. split.
  - rewrite <- app_assoc. by apply cstr_buf.
  - rewrite length_app, length_drop, length_app. cbn [length]. lia.
Qed.

(** ** Reading the entries *)

Section ops.
Context {D : Type} `{HK : Kernel D} `{!SectorStore D}.
Context (n k : nat) (junk : dir_entry).

Lemma reads_ok (s s' : fstate D) isec :
  inode_ok (disk s) isec → reads s s' →
  inode_ok (disk s') isec ∧ content (disk s') isec = content (disk s) isec ∧
  file_len (disk s') isec = file_len (disk s) isec.
Proof.
  intros Hok Hr. pose proof (reads_rewrites _ _ _ Hok Hr) as Hw.
  destruct (rewrites_ok _ _ _ _ Hok Hw) as (H1 & _ & H2 & _ & H3).
  split; [exact H1|]. split; [exact H3|exact H2].
Qed.

Lemma reads_usable (s s' : fstate D) ino nd : usable s ino nd → reads s s' → usable s' ino nd.
Proof.
  intros [H1 H2 H3 H4] Hr. split; [rewrite (reads_inodes _ _ Hr); exact H1|exact H2|exact H3
    |exact (reads_inv _ _ Hr)].
Qed.

Lemma reads_dirs (s s' : fstate D) : reads s s' → dirs s' = dirs s.
Proof. by intros (d' & -> & _). Qed.

(** A directory that can be read: open, well formed and below the largest
    size. *)
Record dir_ok (s : fstate D) (ino : Z) (nd : inode) : Prop := {
  do_usable : usable s ino nd;
  do_inode : inode_ok (disk s) (i_sector nd);
  do_max : file_len (disk s) (i_sector nd) < MAX_BLOCKS * 512;
  do_fuel : file_len (disk s) (i_sector nd) / 20 < Z.of_nat k
}.

Lemma reads_dir_ok s s' ino nd : dir_ok s ino nd → reads s s' → dir_ok s' ino nd.
Proof.
  intros [H1 H2 H3 H4] Hr. destruct (reads_ok _ _ _ H2 Hr) as (Hok & _ & Hl).
  split; [exact (reads_usable _ _ _ _ H1 Hr)|exact Hok|rewrite Hl; exact H3|rewrite Hl; exact H4].
Qed.

Lemma content_len s ino nd : dir_ok s ino nd →
  zlen (content (disk s) (i_sector nd)) = file_len (disk s) (i_sector nd).
Proof. intros Hd. apply zlen_content. apply (io_len _ _ (do_inode _ _ _ Hd)). Qed.

Lemma wp_read_entry s ino nd i e :
  dir_ok s ino nd → 0 <= i → 20 * i <= file_len (disk s) (i_sector nd) →
  wp (read_entry ino (20 * i) e)
    (λ r s', reads s s' ∧
       if decide (20 * i + 20 <= file_len (disk s) (i_sector nd))
       then r = (true, entry_at (content (disk s) (i_sector nd)) i) else r.1 = false) s.
Proof.
  intros Hd Hi Hl. pose proof (content_len _ _ _ Hd) as Hc. pose proof Hd as [Hu Hok Hmax _].
  unfold read_entry. rewrite sizeof_20. apply wp_bind. eapply wp_mono.
  { apply (wp_read_at s ino nd); [exact Hu|exact Hok|exact Hmax|lia|lia]. }
  intros r s' [-> Hr]. apply wp_ret. split; [exact Hr|].
  set (c := content _ _) in *. set (len := file_len _ _) in *. case_decide as E.
  - replace (Z.min 20 (len - 20 * i)) with 20 by lia.
    assert (zlen (slice (20 * i) 20 c) = 20) as Hz by (apply zlen_slice; lia).
    rewrite Hz. f_equal. unfold entry_at. apply bytes_entry_app. exact Hz.
  - replace (Z.min 20 (len - 20 * i)) with (len - 20 * i) by lia. cbn [fst].
    rewrite zlen_slice by lia. apply Z.eqb_neq. lia.
Qed.
(** The search of a name from entry [i] on. *)
Lemma wp_lookup_loop s ino nd name kk : ∀ i e s1,
  dir_ok s ino nd → reads s s1 → 0 <= i → 20 * i <= file_len (disk s) (i_sector nd) →
  file_len (disk s) (i_sector nd) / 20 - i < Z.of_nat kk →
  wp (lookup_loop kk ino name (20 * i) e)
    (λ r s', reads s s' ∧
       r = find_entry name (drop (Z.to_nat i) (entries (disk s) (i_sector nd))) (20 * i)) s1.
Proof.
  induction kk as [|kk IH]; intros i e s1 Hd Hr Hi Hl Hk; [dlia|].
  destruct (reads_ok _ _ _ (do_inode _ _ _ Hd) Hr) as (_ & Hc1 & Hl1).
  pose proof (content_len _ _ _ Hd) as Hc. cbn [lookup_loop]. apply wp_bind. eapply wp_mono.
  { apply (wp_read_entry s1 ino nd i e (reads_dir_ok _ _ _ _ Hd Hr) Hi). lia. }
  intros r s2 [Hr2 Hcase]. pose proof (reads_trans _ _ _ Hr Hr2) as Hr'.
  rewrite Hl1, Hc1 in Hcase. unfold entries. case_decide as E.
  - subst r. cbn [fst snd]. rewrite drop_entries by lia. cbn [find_entry].
    destruct (entry_named name _); [apply wp_ret; by split|].
    replace (20 * i + sizeof_entry) with (20 * (i + 1)) by (rewrite sizeof_20; lia).
    apply IH; [exact Hd|exact Hr'|lia|lia|lia].
  - rewrite Hcase, drop_entries_end by lia. apply wp_ret. by split.
Qed.

Lemma wp_the_dir (s : fstate D) dp d (Q : dir → fstate D → Prop) :
  dirs s !! dp = Some d → Q d s → wp (the_dir dp) Q s.
Proof. intros Hd HQ. unfold the_dir. wp_steps. by eapply wp_deref. Qed.

Lemma wp_lookup_unsynched s dp d nd name :
  dirs s !! dp = Some d → dir_ok s (d_inode d) nd →
  wp (lookup_unsynched k junk dp name)
    (λ r s', reads s s' ∧ r = find_entry name (entries (disk s) (i_sector nd)) 0) s.
Proof.
  intros Hdp Hd. unfold lookup_unsynched. apply wp_bind. eapply wp_the_dir; [exact Hdp|].
  pose proof (do_inode _ _ _ Hd) as Hok. pose proof (io_len _ _ Hok).
  apply (wp_lookup_loop s (d_inode d) nd name k 0 junk s);
    [exact Hd|apply reads_refl; apply (us_disk _ _ _ (do_usable _ _ _ Hd))|lia|lia|].
  pose proof (do_fuel _ _ _ Hd). lia.
Qed.

(** The offset of the first free slot. *)
Lemma wp_free_slot s ino nd kk : ∀ i e s1 j,
  dir_ok s ino nd → reads s s1 → 0 <= i → 20 * i <= file_len (disk s) (i_sector nd) →
  file_len (disk s) (i_sector nd) / 20 - i < Z.of_nat kk →
  first_free (drop (Z.to_nat i) (entries (disk s) (i_sector nd))) = Some j →
  wp (free_slot_loop kk ino (20 * i) e)
    (λ r s', reads s s' ∧ r.2 = 20 * (i + Z.of_nat j) ∧ length (e_name r.1) = 15%nat ∧
             20 * (i + Z.of_nat j) + 20 <= file_len (disk s) (i_sector nd)) s1.
Proof.
  induction kk as [|kk IH]; intros i e s1 j Hd Hr Hi Hl Hk Hj; [dlia|].
  destruct (reads_ok _ _ _ (do_inode _ _ _ Hd) Hr) as (_ & Hc1 & Hl1).
  pose proof (content_len _ _ _ Hd) as Hc. cbn [free_slot_loop]. apply wp_bind. eapply wp_mono.
  { apply (wp_read_entry s1 ino nd i e (reads_dir_ok _ _ _ _ Hd Hr) Hi). lia. }
  intros r s2 [Hr2 Hcase]. pose proof (reads_trans _ _ _ Hr Hr2) as Hr'.
  rewrite Hl1, Hc1 in Hcase. unfold entries in Hj. case_decide as E.
  - subst r. cbn [fst snd]. rewrite drop_entries in Hj by lia. cbn [first_free] in Hj.
    destruct (e_in_use _ =? 0).
    + injection Hj as <-. apply wp_ret. cbn [fst snd].
      split; [exact Hr'|]. split; [lia|]. split; [apply name_at; lia|lia].
    + destruct (first_free (drop (Z.to_nat (i + 1)) _)) as [j'|] eqn:Ej; [|discriminate Hj].
      injection Hj as <-. replace (20 * i + sizeof_entry) with (20 * (i + 1)) by (rewrite sizeof_20; lia).
      eapply wp_mono; [apply (IH (i + 1) _ s2 j'); [exact Hd|exact Hr'|lia|lia|lia|exact Ej]|].
      intros r s' (Hr3 & -> & Hn & Hle). split; [exact Hr3|]. split; [lia|].
      split; [exact Hn|lia].
  - rewrite drop_entries_end in Hj by lia. discriminate Hj.
Qed.

(** ** The directory lock *)

Definition dlocked (s : fstate D) (ino : Z) (nd : inode) : fstate D :=
  set_inodes <[ino := with_dir_lock (held (me s)) nd]> s.

Lemma get_dir_lock_ok s ino nd : usable s ino nd → inode_dir_lock nd = new_lock →
  get_dir_lock ino s = Ok (tt, dlocked s ino nd).
Proof.
  intros Hu Hdl. pose proof (us_disk _ _ _ Hu) as Hi. unfold get_dir_lock.
  rewrite (bind_ok _ _ _ _ _ (ilock_ok _ _ _ Hu)). set (s1 := ilocked s ino nd).
  assert (inodes s1 !! ino = Some (with_inode_lock (held (me s)) nd)) as Hs1
    by (simpl; by rewrite lookup_insert_eq).
  erewrite bind_ok; [|apply lock_acquire_new; [sync|by apply fs_kernel_ok|]; simpl].
  2: { rewrite lookup_insert_eq. simpl. by rewrite Hdl. }
  simpl pstore. rewrite lookup_insert_eq.
  rewrite (irel_ok _ _ (with_dir_lock (held (me s)) (with_inode_lock (held (me s)) nd)));
    [|exact Hi|simpl; by rewrite lookup_insert_eq|done].
  unfold dlocked, s1, ilocked, set_inodes. cbn [disk inodes]. do 2 f_equal.
  rewrite !insert_insert_eq. do 2 f_equal. destruct Hu as [_ _ Hk _].
  destruct nd. simpl in *. by subst.
Qed.

Lemma release_dir_lock_ok s ino nd : usable s ino nd → inode_dir_lock nd = held (me s) →
  release_dir_lock ino s = Ok (tt, set_inodes <[ino := with_dir_lock new_lock nd]> s).
Proof.
  intros Hu Hdl. pose proof (us_disk _ _ _ Hu) as Hi. unfold release_dir_lock.
  rewrite (bind_ok _ _ _ _ _ (ilock_ok _ _ _ Hu)). set (s1 := ilocked s ino nd).
  erewrite bind_ok; [|apply lock_release_held; [sync|by apply fs_kernel_ok|]; simpl].
  2: { rewrite lookup_insert_eq. simpl. by rewrite Hdl. }
  simpl pstore. rewrite lookup_insert_eq.
  rewrite (irel_ok _ _ (with_dir_lock new_lock (with_inode_lock (held (me s)) nd)));
    [|exact Hi|simpl; by rewrite lookup_insert_eq|done].
  unfold s1, ilocked, set_inodes. cbn [disk inodes]. do 2 f_equal.
  rewrite !insert_insert_eq. do 2 f_equal. destruct Hu as [_ _ Hk _].
  destruct nd. simpl in *. by subst.
Qed.

Lemma dlocked_ok s ino nd : dir_ok s ino nd → dir_ok (dlocked s ino nd) ino
  (with_dir_lock (held (me s)) nd).
Proof.
  intros [[H1 H2 H3 H4] H5 H6 H7]. split; [|exact H5|exact H6|exact H7].
  split; [unfold dlocked; simpl; apply lookup_insert_eq|exact H2|exact H3|exact H4].
Qed.

Lemma wp_dir_get_inode (s : fstate D) dp d (Q : Z → fstate D → Prop) :
  dirs s !! dp = Some d → Q (d_inode d) s → wp (dir_get_inode (Some dp)) Q s.
Proof. intros Hd HQ. apply wp_bind. eapply wp_the_dir; [exact Hd|]. by apply wp_ret. Qed.

(** A body that only changes the disk, between taking and releasing the
    lock. *)
Lemma wp_dir_locked {A B} s dp d nd (body : M (fstate D) A) (K : A → M (fstate D) B) Q :
  dirs s !! dp = Some d → usable s (d_inode d) nd → inode_dir_lock nd = new_lock →
  wp body (λ r s', ∃ d', s' = set_disk d' (dlocked s (d_inode d) nd) ∧ ss_inv d' ∧
              kget d' = kget (disk s) ∧ wp (K r) Q (set_disk d' s)) (dlocked s (d_inode d) nd) →
  wp (let* ino := dir_get_inode (Some dp) in
      get_dir_lock ino;;;
      let* r := body in
      let* ino := dir_get_inode (Some dp) in
      release_dir_lock ino;;;
      K r) Q s.
Proof.
  intros Hdp Hu Hdl Hb. apply wp_bind. eapply wp_dir_get_inode; [exact Hdp|].
  apply wp_bind. eapply wp_ok; [by apply get_dir_lock_ok|].
  apply wp_bind. eapply wp_mono; [exact Hb|].
  intros r s' (d' & -> & Hi & Hk & HK'). apply wp_bind. eapply wp_dir_get_inode; [exact Hdp|].
  apply wp_bind. eapply wp_ok.
  { apply (release_dir_lock_ok _ _ (with_dir_lock (held (me s)) nd)).
    - destruct Hu. split; [simpl; apply lookup_insert_eq|done|done|exact Hi].
    - simpl. unfold me, ksched. simpl. by rewrite Hk. }
  eapply wp_eq; [|exact HK']. f_equal.
  unfold dlocked, set_disk, set_inodes. simpl. f_equal. rewrite insert_insert_eq.
  rewrite insert_id; [done|]. rewrite (us_open _ _ _ Hu). f_equal.
  destruct nd. simpl in *. by subst.
Qed.

(** ** Adding a name *)

Definition valid_name (name : list Z) : Prop :=
  (1 <= length name <= 14)%nat ∧ Forall (λ b, b ≠ 0) name.

Lemma wp_dir_add_unsynched s dp d nd name sec j :
  dirs s !! dp = Some d → dir_ok s (d_inode d) nd → deny_write_cnt nd = 0 →
  valid_name name → in_u32 sec →
  dir_find (entries (disk s) (i_sector nd)) name = None →
  first_free (entries (disk s) (i_sector nd)) = Some j →
  wp (dir_add_unsynched (S n) k junk dp name sec)
    (λ r s', r = true ∧ ∃ e, entry_named name e = true ∧ e_inode_sector e = sec ∧
       ∃ c, rewrites s s' (i_sector nd) c ∧
            entries_of c = <[j := e]> (entries (disk s) (i_sector nd))) s.
Proof.
  intros Hdp Hd Hdeny [Hlen Hz] Hsec Hnone Hfree. unfold dir_add_unsynched.
  pose proof (do_inode _ _ _ Hd) as Hok. pose proof (io_len _ _ Hok) as Hfl.
  pose proof (do_fuel _ _ _ Hd) as Hfuel. pose proof (content_len _ _ _ Hd) as Hc.
  assert (((match name with [] => true | _ => false end) || (zlen name >? NAME_MAX)) = false) as ->.
  { unfold zlen, NAME_MAX. rewrite Z.gtb_ltb, (proj2 (Z.ltb_ge _ _)) by lia.
    destruct name; [simpl in Hlen; lia|done]. }
  apply wp_bind. eapply wp_mono; [apply (wp_lookup_unsynched s dp d nd name Hdp Hd)|].
  intros r1 s1 [Hr1 E1]. rewrite <- (find_entry_dir_find _ _ 0), <- E1 in Hnone.
  destruct r1; [discriminate Hnone|]. apply wp_bind.
  eapply wp_the_dir; [rewrite (reads_dirs _ _ Hr1); exact Hdp|]. apply wp_bind. eapply wp_mono.
  { apply (wp_free_slot s (d_inode d) nd k 0 junk s1 j Hd Hr1); [lia|lia|lia|exact Hfree]. }
  intros [e0 ofs] s2 (Hr2 & Ho & Hn15 & Hle). cbn [fst snd] in Ho, Hn15 |- *. rewrite Ho.
  destruct (cstr_strlcpy (e_name e0) name Hz ltac:(rewrite Hn15; lia)) as [Hcs Hbl].
  rewrite Hn15 in Hbl. set (e := mk_entry sec _ 1). set (i := 0 + Z.of_nat j) in *.
  assert (zlen (entry_bytes e) = 20) as Hbz by (by apply length_entry_bytes).
  destruct (reads_ok _ _ _ Hok Hr2) as (Hok2 & Hc2 & Hl2).
  pose proof (reads_usable _ _ _ _ (do_usable _ _ _ Hd) Hr2) as Hu2.
  apply wp_bind. eapply wp_mono.
  { apply (wp_write_inside s2 n (d_inode d) nd (entry_bytes e) sizeof_entry (20 * i));
      [exact Hu2|exact Hok2|exact Hdeny|lia|lia|rewrite sizeof_20; lia|rewrite sizeof_20; lia]. }
  intros w s3 [-> Hrw]. apply wp_ret. split; [done|]. exists e. split.
  { apply entry_named_true. split; [done|]. by symmetry. }
  split; [done|]. eexists. split.
  { eapply rewrites_trans; [exact Hok|apply reads_rewrites; [exact Hok|exact Hr2]|exact Hrw]. }
  rewrite Hc2, sizeof_20.
  replace (slice 0 20 (entry_bytes e)) with (entry_bytes e)
    by (symmetry; rewrite <- Hbz; apply slice_all).
  rewrite entries_splice; [|lia|lia|exact Hbl]. rewrite stored_id by exact Hsec.
  unfold entries. do 2 f_equal. lia.
Qed.

(** What a rewriting of the directory of [s] under its lock is for [s]. *)
Lemma dlocked_rewrites s ino nd s' c :
  rewrites (dlocked s ino nd) s' (i_sector nd) c →
  ∃ d', s' = set_disk d' (dlocked s ino nd) ∧ ss_inv d' ∧ kget d' = kget (disk s) ∧
        rewrites s (set_disk d' s) (i_sector nd) c.
Proof.
  intros (d' & -> & Hi & Hk & Hs & Hd & Hc). exists d'. split; [reflexivity|].
  split; [exact Hi|]. split; [exact Hk|]. exists d'. split; [reflexivity|].
  split; [exact Hi|]. split; [exact Hk|]. split; [exact Hs|]. split; [exact Hd|exact Hc].
Qed.

Lemma wp_dir_add s dp d nd name sec j :
  dirs s !! dp = Some d → dir_ok s (d_inode d) nd → inode_dir_lock nd = new_lock →
  deny_write_cnt nd = 0 → valid_name name → in_u32 sec →
  dir_find (entries (disk s) (i_sector nd)) name = None →
  first_free (entries (disk s) (i_sector nd)) = Some j →
  wp (dir_add (S n) k junk dp name sec)
    (λ r s', r = true ∧ ∃ e, entry_named name e = true ∧ e_inode_sector e = sec ∧
       ∃ c, rewrites s s' (i_sector nd) c ∧
            entries_of c = <[j := e]> (entries (disk s) (i_sector nd))) s.
Proof.
  intros Hdp Hd Hdl Hdeny Hv Hsec Hnone Hfree.
  unfold dir_add. apply (wp_dir_locked s dp d nd); [exact Hdp|apply Hd|exact Hdl|].
  eapply wp_mono.
  { apply (wp_dir_add_unsynched (dlocked s (d_inode d) nd) dp d
             (with_dir_lock (held (me s)) nd) name sec j); [exact Hdp|apply dlocked_ok; exact Hd
      |exact Hdeny|exact Hv|exact Hsec|exact Hnone|exact Hfree]. }
  intros r s' (-> & e & He & Hes & c & Hrw & Hc).
  destruct (dlocked_rewrites _ _ _ _ _ Hrw) as (d' & -> & Hi & Hk & Hrw').
  exists d'. split; [reflexivity|]. split; [exact Hi|]. split; [exact Hk|]. apply wp_ret.
  split; [reflexivity|]. exists e. split; [exact He|]. split; [exact Hes|]. by exists c.
Qed.

(** An empty, too long or taken name: nothing happens. *)
Lemma wp_dir_add_refused s dp d nd name sec :
  dirs s !! dp = Some d → dir_ok s (d_inode d) nd → inode_dir_lock nd = new_lock →
  name = [] ∨ (14 < length name)%nat ∨ dir_find (entries (disk s) (i_sector nd)) name ≠ None →
  wp (dir_add n k junk dp name sec) (λ r s', r = false ∧ reads s s') s.
Proof.
  intros Hdp Hd Hdl Hx. unfold dir_add.
  apply (wp_dir_locked s dp d nd); [exact Hdp|apply Hd|exact Hdl|].
  set (s1 := dlocked s (d_inode d) nd).
  assert (∀ s', reads s1 s' → ∃ d', s' = set_disk d' s1 ∧ ss_inv d' ∧ kget d' = kget (disk s) ∧
    wp (ret false) (λ r s', r = false ∧ reads s s') (set_disk d' s)) as Hpost.
  { intros s' (d' & -> & Hi & Hk & Hsz & Hv). exists d'. split_and!; [done|done|done|].
    apply wp_ret. split; [done|]. exists d'. by split_and!. }
  unfold dir_add_unsynched. destruct (_ || _) eqn:Hname.
  { apply wp_ret. apply Hpost. apply reads_refl. apply (us_disk _ _ _ (do_usable _ _ _ Hd)). }
  apply wp_bind. eapply wp_mono.
  { apply (wp_lookup_unsynched s1 dp d (with_dir_lock (held (me s)) nd) name);
      [exact Hdp|apply dlocked_ok; exact Hd]. }
  intros r s2 [Hr E]. assert (is_Some r) as [y ->].
  { rewrite E. change (disk s1) with (disk s). simpl i_sector.
    apply orb_false_iff in Hname as [Hn1 Hn2]. rewrite Z.gtb_ltb, Z.ltb_ge in Hn2. unfold zlen, NAME_MAX in Hn2.
    destruct Hx as [->|[Hx|Hx]]; [discriminate Hn1|lia|]. rewrite <- (find_entry_dir_find _ _ 0) in Hx.
    destruct (find_entry name (entries (disk s) (i_sector nd)) 0); [by eexists|by destruct Hx]. }
  apply wp_ret. by apply Hpost.
Qed.

(** ** Looking a name up *)

Lemma reads_open_table s s' : open_table s → reads s s' → open_table s'.
Proof.
  intros [H1 H2 H3 H4 H5 H6] (d' & -> & Hi & _). split; [exact H1|exact H2|exact H3|exact H4
    |exact H5|exact Hi].
Qed.

(** Locking a directory keeps the table of open inodes. *)
Lemma dlocked_open_table s ino nd :
  open_table s → inodes s !! ino = Some nd → open_table (dlocked s ino nd).
Proof.
  intros [H1 H2 H3 H4 H5 H6] Hino.
  assert (∀ p x, inodes (dlocked s ino nd) !! p = Some x →
    ∃ y, inodes s !! p = Some y ∧ i_sector y = i_sector x) as Hback.
  { intros p x. unfold dlocked. simpl. destruct (decide (p = ino)) as [->|Hne].
    - rewrite lookup_insert_eq. intros [= <-]. by exists nd.
    - rewrite lookup_insert_ne by done. intros Hx. by exists x. }
  split; [exact H1| | | |exact H5|exact H6].
  - intros p Hp. destruct (H2 p Hp) as (x & Hx & Hm & Hl & Hc1 & Hc2). unfold dlocked. simpl.
    destruct (decide (p = ino)) as [->|Hne].
    + rewrite lookup_insert_eq. assert (x = nd) as -> by congruence. eexists. by split_and!.
    + rewrite lookup_insert_ne by done. exists x. by split_and!.
  - intros p q x y Hp Hq (x' & Hx' & Ex)%Hback (y' & Hy' & Ey)%Hback Exy.
    apply (H3 p q x' y' Hp Hq Hx' Hy'). congruence.
  - intros p Hp. destruct (H4 p Hp) as [Hn Hni]. split; [|exact Hni]. unfold dlocked. simpl.
    rewrite lookup_insert_ne; [exact Hn|]. intros ->. congruence.
Qed.

(** The inode of a name is opened: it is one of the open ones or a new one. *)
Definition opens (s s' : fstate D) (ino sec : Z) : Prop :=
  (∃ nd, ino ∈ open_inodes s ∧ inodes s !! ino = Some nd ∧ i_sector nd = sec ∧
         inodes s' !! ino = Some (opened nd)) ∨
  ((ino ∉ open_inodes s) ∧ inodes s' !! ino = Some (fresh_inode sec)).

Lemma wp_dir_lookup_unsynched s dp d nd name :
  open_table s → dirs s !! dp = Some d → dir_ok s (d_inode d) nd →
  name ≠ dotdot ∨ dir_find (entries (disk s) (i_sector nd)) name ≠ None →
  wp (dir_lookup_unsynched k junk dp name)
    (λ r s', ∃ s1, reads s s1 ∧ disk s' = disk s1 ∧
       match dir_find (entries (disk s) (i_sector nd)) name with
       | None => r = None ∧ s' = s1
       | Some sec => ∃ ino, r = Some ino ∧ opens s s' ino sec
       end) s.
Proof.
  intros Ht Hdp Hd Hname. unfold dir_lookup_unsynched. apply wp_bind. eapply wp_mono.
  { apply (wp_lookup_unsynched s dp d nd name Hdp Hd). }
  intros r s1 [Hr ->]. rewrite <- (find_entry_dir_find _ _ 0) in Hname |- *.
  destruct (find_entry _ _ _) as [[e ofs]|]; cbn [fmap option_fmap option_map] in Hname |- *.
  - pose proof (reads_open_table _ _ Ht Hr) as Ht1. apply wp_bind.
    eapply wp_mono; [apply (wp_inode_open s1 (e_inode_sector e) Ht1)|].
    intros ino s2 (Hd2 & _ & _ & Hcase).
    assert (opens s s2 ino (e_inode_sector e)) as Hop.
    { destruct Hr as (d1 & -> & _). simpl in *.
      destruct Hcase as [(Hin & _ & _ & x & Hx & Hs & Hi2)|(-> & _ & _ & _ & Hi2)].
      - left. exists x. split_and!; try done. by rewrite Hi2, lookup_insert_eq.
      - right. split; [|by rewrite Hi2, lookup_insert_eq].
        apply (ot_fresh _ Ht). lia. }
    assert (∃ x, inodes s2 !! ino = Some x ∧ i_magic x = INODE_MAGIC) as (x & Hx & Hm).
    { destruct Hop as [(y & Hin & Hy & _ & Hy2)|[_ Hy2]]; eexists; (split; [exact Hy2|]); [|done].
      destruct (ot_alloc _ Ht ino Hin) as (z & Hz & Hzm & _). simpl. congruence. }
    apply wp_bind. unfold inode_is. apply wp_bind. eapply wp_the_inode; [exact Hx|]. apply wp_ret.
    rewrite Hm. apply wp_bind, wp_assert; [done|]. apply wp_ret. exists s1.
    split; [exact Hr|]. split; [exact Hd2|]. by exists ino.
  - destruct Hname as [Hname|[]]; [|done].
    apply wp_bind, wp_assert; [by rewrite bool_decide_eq_false_2|]. apply wp_ret. exists s1.
    split; [exact Hr|]. by split.
Qed.

(** The directory has no entry ".." and somebody looks for it. *)
Lemma dir_lookup_dotdot s dp d nd :
  dirs s !! dp = Some d → dir_ok s (d_inode d) nd →
  dir_find (entries (disk s) (i_sector nd)) dotdot = None →
  dir_lookup_unsynched k junk dp dotdot s = Panic.
Proof.
  intros Hdp Hd Hf. pose proof (wp_lookup_unsynched s dp d nd dotdot Hdp Hd) as Hw.
  unfold dir_lookup_unsynched. unfold wp in Hw.
  destruct (lookup_unsynched k junk dp dotdot s) as [[r s1]| | | |] eqn:E; try done.
  rewrite (bind_ok _ _ _ _ _ E). destruct Hw as [_ Hw]. rewrite <- (find_entry_dir_find _ _ 0), <- Hw in Hf.
  destruct r; [discriminate Hf|]. by rewrite bool_decide_eq_true_2.
Qed.

(** ** Removing a name whose file is open *)

Definition marked (nd : inode) : inode :=
  mk_inode (i_sector nd) (open_cnt nd) true (deny_write_cnt nd) (i_magic nd) (inode_lock nd)
    (inode_dir_lock nd).

Lemma inode_remove_ok s ino nd : usable s ino nd →
  inode_remove ino s = Ok (tt, set_inodes <[ino := marked nd]> s).
Proof.
  intros Hu. pose proof (us_disk _ _ _ Hu) as Hi. unfold inode_remove.
  rewrite (bind_ok _ _ _ _ _ (ilock_ok _ _ _ Hu)).
  erewrite bind_ok by (unfold the_inode, bind, get, deref; simpl; by rewrite lookup_insert_eq).
  unfold put_inode. rewrite bind_modify.
  rewrite (irel_ok _ _ (with_inode_lock (held (me s)) (marked nd)));
    [|exact Hi|simpl; by rewrite lookup_insert_eq|done].
  unfold ilocked, set_inodes. cbn [disk inodes]. do 2 f_equal. rewrite !insert_insert_eq.
  do 2 f_equal. destruct Hu as [_ _ Hk _]. destruct nd. simpl in *. by subst.
Qed.

(** Closing an inode that somebody else has open. *)
Lemma wp_close_shared write_rec s ino nd :
  usable s ino nd → 2 <= open_cnt nd < 2147483648 →
  wp (inode_close write_rec (Some ino))
    (λ _ s', disk s' = disk s ∧ open_inodes s' = open_inodes s ∧ dirs s' = dirs s ∧
             inodes s' = <[ino := closed nd]> (inodes s)) s.
Proof.
  intros [Hl Hm Hk Hi] Hc. unfold inode_close. apply wp_bind, wp_get.
  apply wp_bind. eapply wp_mono with (Q := λ _ s', ∃ b l, s' = set_close b l s).
  { destruct (close_first s) eqn:E; [apply wp_modify; by eauto|apply wp_ret].
    exists (close_first s), (close_ll s). by destruct s. }
  intros [] s0 (b & l & ->). set (s0 := set_close b l s). apply wp_bind. eapply wp_ok.
  { apply lock_acquire_new; [sync|by apply fs_kernel_ok|]. simpl. rewrite Hl. simpl. by rewrite Hk. }
  simpl pstore. rewrite Hl. apply wp_bind.
  eapply wp_the_inode; [simpl; by rewrite lookup_insert_eq|].
  rewrite s32_small by (unfold in_s32; simpl; lia). unfold put_inode. apply wp_bind, wp_modify.
  cbn [open_cnt with_inode_lock]. rewrite (proj2 (Z.eqb_neq _ _)) by lia.
  apply wp_bind, wp_ret. apply wp_bind. eapply wp_ok.
  { apply lock_release_held; [sync|by apply fs_kernel_ok|]. simpl. by rewrite lookup_insert_eq. }
  apply wp_ret. simpl. rewrite !lookup_insert_eq. simpl. split_and!; try done.
  rewrite !insert_insert_eq. unfold closed, with_inode_lock. simpl. by rewrite Hk.
Qed.

Definition erased (e : dir_entry) : dir_entry :=
  mk_entry (e_inode_sector e) (e_name e) 0.

Lemma wp_erase_entry s2 ino nd (i : nat) e :
  usable s2 ino nd → inode_ok (disk s2) (i_sector nd) → deny_write_cnt nd = 0 →
  entries (disk s2) (i_sector nd) !! i = Some e →
  wp (inode_write_at (S n) ino (entry_bytes (erased e)) sizeof_entry (20 * Z.of_nat i))
    (λ w s', w = sizeof_entry ∧ ∃ c, rewrites s2 s' (i_sector nd) c ∧
       entries_of c = <[i := stored (erased e)]> (entries (disk s2) (i_sector nd))) s2.
Proof.
  intros Hu Hok Hdeny Hi. destruct (entries_lookup_inv _ _ _ Hi) as [Hle ->].
  pose proof (io_len _ _ Hok) as Hfl. pose proof (zlen_content (disk s2) (i_sector nd)) as Hc.
  set (c := content (disk s2) (i_sector nd)) in *. set (e := entry_at c _).
  assert (length (e_name (erased e)) = 15%nat) as Hn15 by (apply name_at; lia).
  pose proof (length_entry_bytes _ Hn15) as Hbz. eapply wp_mono.
  { apply (wp_write_inside s2 n ino nd); [exact Hu|exact Hok|exact Hdeny|lia|lia
      |rewrite sizeof_20; lia|rewrite sizeof_20; lia]. }
  intros w s' [-> Hrw]. split; [reflexivity|]. eexists. split; [exact Hrw|]. rewrite sizeof_20.
  replace (slice 0 20 (entry_bytes (erased e))) with (entry_bytes (erased e))
    by (symmetry; rewrite <- Hbz; apply slice_all).
  fold c. rewrite entries_splice; [|lia|exact Hle|exact Hn15]. by rewrite Nat2Z.id.
Qed.

Lemma wp_dir_remove_unbound s dp d nd name :
  dirs s !! dp = Some d → dir_ok s (d_inode d) nd → inode_dir_lock nd = new_lock →
  dir_find (entries (disk s) (i_sector nd)) name = None →
  wp (dir_remove n k junk dp name) (λ r s', r = false ∧ reads s s') s.
Proof.
  intros Hdp Hd Hdl Hf. unfold dir_remove. apply (wp_dir_locked s dp d nd); [exact Hdp|apply Hd|exact Hdl|].
  eapply wp_mono.
  { apply (wp_lookup_unsynched (dlocked s (d_inode d) nd) dp d (with_dir_lock (held (me s)) nd));
      [exact Hdp|apply dlocked_ok; exact Hd]. }
  intros r s' [(d1 & -> & Hi1 & Hk1 & Hs1 & Hv1) Er]. exists d1. split; [reflexivity|].
  split; [exact Hi1|]. split; [exact Hk1|].
  change (disk (dlocked s (d_inode d) nd)) with (disk s) in Er.
  change (i_sector (with_dir_lock (held (me s)) nd)) with (i_sector nd) in Er.
  rewrite <- (find_entry_dir_find _ _ 0), <- Er in Hf. destruct r; [discriminate Hf|].
  apply wp_ret. split; [done|]. by exists d1.
Qed.

Lemma wp_dir_remove_open s dp d nd name e ofs ino nf :
  open_table s → dirs s !! dp = Some d → dir_ok s (d_inode d) nd →
  inode_dir_lock nd = new_lock → deny_write_cnt nd = 0 →
  find_entry name (entries (disk s) (i_sector nd)) 0 = Some (e, ofs) →
  ino ∈ open_inodes s → inodes s !! ino = Some nf → i_sector nf = e_inode_sector e →
  ino ≠ d_inode d →
  wp (dir_remove (S n) k junk dp name)
    (λ r s', r = true ∧ inodes s' = <[ino := marked nf]> (inodes s) ∧
       open_inodes s' = open_inodes s ∧
       ∃ i c, entries (disk s) (i_sector nd) !! i = Some e ∧
         rewrites s (set_disk (disk s') s) (i_sector nd) c ∧
         entries_of c = <[i := stored (erased e)]> (entries (disk s) (i_sector nd))) s.
Proof.
  intros Ht Hdp Hd Hdl Hdeny Hfind Hin Hnf Hsec Hne.
  unfold dir_remove. apply (wp_dir_locked s dp d nd); [exact Hdp|apply Hd|exact Hdl|].
  eapply wp_mono.
  { apply (wp_lookup_unsynched (dlocked s (d_inode d) nd) dp d (with_dir_lock (held (me s)) nd));
      [exact Hdp|apply dlocked_ok; exact Hd]. }
  intros r s' [(d1 & -> & Hi1 & Hk1 & Hs1 & Hv1) Er]. exists d1. split; [reflexivity|].
  split; [exact Hi1|]. split; [exact Hk1|]. set (s1 := set_disk d1 s).
  assert (reads s s1) as Hr1 by (exists d1; split; [reflexivity|]; split; [exact Hi1|];
    split; [exact Hk1|]; split; [exact Hs1|exact Hv1]).
  change (disk (dlocked s (d_inode d) nd)) with (disk s) in Er.
  change (i_sector (with_dir_lock (held (me s)) nd)) with (i_sector nd) in Er.
  rewrite Hfind in Er. rewrite Er. apply wp_bind.
  eapply wp_mono; [apply (wp_inode_open s1 _ (reads_open_table _ _ Ht Hr1))|].
  intros ino' s2 (Hd2 & _ & Hdirs2 & Hcase).
  destruct Hcase as [(Hin' & Ho2 & _ & x & Hx & Hxs & Hi2)|(_ & _ & _ & Hno & _)].
  2: { destruct (Hno ino nf Hin Hnf Hsec). }
  assert (ino' = ino) as -> by (apply (ot_unique _ Ht ino' ino x nf Hin' Hin Hx Hnf); congruence).
  assert (x = nf) as -> by (simpl in Hx; congruence).
  apply wp_bind. eapply wp_the_dir; [rewrite Hdirs2; exact Hdp|].
  destruct (find_entry_Some _ _ _ _ _ Hfind) as (i & Hi & -> & _).
  destruct (reads_ok _ _ _ (do_inode _ _ _ Hd) Hr1) as (Hok1 & Hc1 & _).
  assert (usable s2 (d_inode d) nd) as Hu2.
  { destruct (do_usable _ _ _ Hd) as [H1 H2 H3 _]. split; [|exact H2|exact H3|by rewrite Hd2].
    rewrite Hi2, lookup_insert_ne by done. exact H1. }
  assert (entries (disk s2) (i_sector nd) = entries (disk s) (i_sector nd)) as He2
    by (rewrite Hd2; unfold entries; by rewrite Hc1).
  apply wp_bind. eapply wp_mono.
  { apply (wp_erase_entry s2 (d_inode d) nd i e Hu2); [by rewrite Hd2|exact Hdeny|].
    rewrite He2. exact Hi. }
  intros w s3 (-> & c & (d3 & -> & Hi3 & Hk3 & Hs3 & Hdo3 & Hc3) & Hc).
  rewrite Hd2 in *. cbn [negb Z.eqb]. rewrite Z.eqb_refl. cbn [negb].
  destruct (ot_alloc _ Ht ino Hin) as (y & Hy & Hym & Hyl & Hyc1 & Hyc2).
  assert (y = nf) as -> by congruence.
  assert (usable (set_disk d3 s2) ino (opened nf)) as Hu3.
  { split; [simpl; by rewrite Hi2, lookup_insert_eq|exact Hym|exact Hyl|exact Hi3]. }
  apply wp_bind. eapply wp_ok; [apply inode_remove_ok; exact Hu3|].
  apply wp_bind. eapply wp_mono.
  { apply (wp_close_shared _ _ ino (marked (opened nf))); [|simpl; lia].
    split; [simpl; by rewrite lookup_insert_eq|exact Hym|exact Hyl|exact Hi3]. }
  intros [] s4 (Hd4 & Ho4 & _ & Hi4). apply wp_ret. split; [reflexivity|].
  split.
  { rewrite Hi4. simpl. rewrite Hi2, !insert_insert_eq. do 2 f_equal.
    unfold closed, marked, opened. simpl. f_equal. lia. }
  split; [rewrite Ho4; exact Ho2|]. exists i, c. split; [exact Hi|]. split.
  - rewrite Hd4. eapply (rewrites_trans s s1); [apply Hd|apply reads_rewrites; [apply Hd|exact Hr1]|].
    exists d3. split; [reflexivity|]. split; [exact Hi3|]. split; [exact Hk3|].
    split; [exact Hs3|]. split; [exact Hdo3|exact Hc3].
  - rewrite Hc. by rewrite He2.
Qed.

End ops.

(** ** Paths *)

Lemma in_slash c : c ∈ [slash] ↔ c = slash.
Proof. apply list_elem_of_singleton. Qed.

Lemma skip_slashes_split path : ∃ pre, path = pre ++ skip_slashes path ∧
  Forall (λ c, c ∈ [slash]) pre ∧ (skip_slashes path = [] ∨
    ∃ c t, skip_slashes path = c :: t ∧ c ≠ slash).
Proof.
  induction path as [|c path (pre & E & Hp & Hs)]; [exists []; split_and!; [done|done|by left]|].
  cbn [skip_slashes]. destruct (Z.eqb_spec c slash) as [->|Hc].
  - exists (slash :: pre). split_and!; [simpl; by f_equal| |done].
    constructor; [by apply in_slash|done].
  - exists []. split_and!; [done|done|]. right. by exists c, path.
Qed.

(** The second loop copies a component of at most [room] characters. *)
Lemma copy_part_word room w rest : Forall (λ c, c ≠ slash) w →
  CString.after_word [slash] rest → (length w <= room)%nat →
  copy_part room (w ++ rest) = (w, rest, true).
Proof.
  intros Hw Hr. revert room. induction Hw as [|c w Hc Hw IH]; intros room Hl; cbn [app].
  - destruct rest as [|d rest]; [by destruct room|]. simpl in Hr. apply in_slash in Hr as ->.
    by destruct room.
  - simpl in Hl. destruct room as [|room]; [lia|]. cbn [copy_part].
    rewrite (proj2 (Z.eqb_neq c slash)) by done. by rewrite IH by lia.
Qed.

Lemma copy_part_long room w rest : Forall (λ c, c ≠ slash) w → (room < length w)%nat →
  ∃ d r, copy_part room (w ++ rest) = (d, r, false).
Proof.
  intros Hw. revert room. induction Hw as [|c w Hc Hw IH]; intros room Hl; simpl in Hl; [lia|].
  destruct room as [|room]; cbn [app copy_part]; rewrite (proj2 (Z.eqb_neq c slash)) by done;
    [by eexists _, _|]. destruct (IH room ltac:(lia)) as (d & r & ->). by eexists _, _.
Qed.

(** What one call of get_next_part() does, by the first component. *)
Lemma next_part_cases part path :
  (components path = [] ∧ get_next_part part path = (0, part, path)) ∨
  ∃ w rest, components path = w :: components rest ∧ (length rest < length path)%nat ∧
    w ≠ [] ∧ (∀ P : Z → Prop, Forall P path → Forall P w ∧ Forall P rest) ∧
    if decide (length w <= 14)%nat
    then get_next_part part path = (1, splice 0 (w ++ [0]) part, rest)
    else (get_next_part part path).1.1 = -1.
Proof.
  destruct (skip_slashes_split path) as (pre & E & Hpre & Hs). unfold get_next_part.
  assert (components path = components (skip_slashes path)) as Hc
    by (rewrite E at 1; by apply CString.words_skip).
  destruct Hs as [Hs|(c & t & Hs & Hcs)].
  { left. rewrite Hc, Hs. done. }
  right. destruct (CString.split_word [slash] (c :: t))
    as [Hall|(pre' & c' & w & rest & E' & Hp' & Hc' & Hw & Hr)].
  { apply Forall_cons in Hall as [Hall%in_slash _]. done. }
  destruct pre' as [|x pre'].
  2: { apply Forall_cons in Hp' as [Hx%in_slash _]. simpl in E'. congruence. }
  cbn [app] in E'. injection E' as -> ->. exists (c' :: w), rest.
  assert (Forall (λ c, c ≠ slash) (c' :: w)) as Hw'.
  { constructor; [done|]. eapply Forall_impl; [exact Hw|]. intros x Hx ->. apply Hx, in_slash. done. }
  split_and!.
  - rewrite Hc, Hs. by apply CString.words_word.
  - rewrite E, Hs, !length_app. simpl. rewrite length_app. lia.
  - done.
  - intros P HP. rewrite E, Hs in HP. apply Forall_app in HP as [_ HP].
    apply (Forall_app P (c' :: w) rest) in HP. done.
  - rewrite Hs. change (c' :: w ++ rest) with ((c' :: w) ++ rest). case_decide as Hl.
    + by rewrite copy_part_word by (done || (change (Z.to_nat NAME_MAX) with 14%nat; lia)).
    + destruct (copy_part_long (Z.to_nat NAME_MAX) (c' :: w) rest) as (d & r & ->);
        [done|change (Z.to_nat NAME_MAX) with 14%nat; lia|done].
Qed.

Lemma splice_name (w part : list Z) : Forall (λ b, b ≠ 0) w → (length w < length part)%nat →
  cstr (splice 0 (w ++ [0]) part) = w ∧ length (splice 0 (w ++ [0]) part) = length part.
Proof.
  intros Hz Hl. pose proof (cstr_strlcpy part w Hz Hl) as Hs. unfold strlcpy_buf in Hs.
  by rewrite take_ge in Hs by lia.
Qed.

Lemma last_part_loop_ok fuel : ∀ part path,
  length part = 15%nat → Forall (λ b, b ≠ 0) path → (length path < fuel)%nat →
  ∃ ok buf, last_part_loop fuel part path = Some (ok, buf) ∧
    (ok = true ↔ Forall (λ w, (length w <= 14)%nat) (components path)) ∧
    (ok = true → length buf = 15%nat ∧
       match last (components path) with None => buf = part | Some w => cstr buf = w end).
Proof.
  induction fuel as [|fuel IH]; intros part path Hp Hz Hf; [lia|]. cbn [last_part_loop].
  destruct (next_part_cases part path)
    as [[Hc ->]|(w & rest & Hc & Hlen & Hne & Hsub & Hcase)]; rewrite Hc.
  { exists true, part. split_and!; [done| |done]. split; [constructor|done]. }
  destruct (Hsub _ Hz) as [Hzw Hzr]. case_decide as Hl.
  - rewrite Hcase. destruct (splice_name w part Hzw ltac:(lia)) as [Hcs Hbl].
    destruct (IH (splice 0 (w ++ [0]) part) rest) as (ok & buf & E & Hok & Hlast);
      [congruence|done|lia|]. exists ok, buf. split; [exact E|]. split.
    + rewrite Hok, Forall_cons. tauto.
    + intros Ht. destruct (Hlast Ht) as [Hb Hm]. split; [done|].
      destruct (components rest) as [|w' ws] eqn:Er; [simpl in Hm; simpl; by rewrite Hm|].
      rewrite last_cons_cons. destruct (last (w' :: ws)) eqn:El; [exact Hm|].
      by apply last_None in El.
  - destruct (get_next_part part path) as [[st pt] sp]. simpl in Hcase. subst st.
    exists false, pt. split_and!; [done| |done]. split; [done|].
    intros [? _]%Forall_cons. lia.
Qed.

(** *** The directory of a path *)

Lemma words_app_sep (C a : list Z) d b : d ∈ C →
  CString.words C (a ++ d :: b) = CString.words C a ++ CString.words C b.
Proof.
  intros Hd. induction a as [|c a IH].
  { cbn [app CString.words]. by rewrite bool_decide_eq_true_2. }
  cbn [app]. destruct a as [|c' a].
  - cbn [app] in *. cbn [CString.words]. destruct (bool_decide (c ∈ C)); [exact IH|].
    rewrite bool_decide_eq_true_2 by done. done.
  - cbn [app] in *.
    change (CString.words C (c :: c' :: a ++ d :: b)) with
      (if bool_decide (c ∈ C) then CString.words C (c' :: a ++ d :: b)
       else if bool_decide (c' ∈ C) then [c] :: CString.words C (c' :: a ++ d :: b)
       else match CString.words C (c' :: a ++ d :: b) with
            | w :: ws => (c :: w) :: ws | [] => [[c]] end).
    change (CString.words C (c :: c' :: a)) with
      (if bool_decide (c ∈ C) then CString.words C (c' :: a)
       else if bool_decide (c' ∈ C) then [c] :: CString.words C (c' :: a)
       else match CString.words C (c' :: a) with
            | w :: ws => (c :: w) :: ws | [] => [[c]] end).
    rewrite IH. destruct (bool_decide (c ∈ C)); [done|]. destruct (bool_decide (c' ∈ C)) eqn:E; [done|].
    destruct (CString.words C (c' :: a)) as [|w ws] eqn:Ew; [|done].
    apply bool_decide_eq_false in E.
    destruct (CString.split_word C (c' :: a)) as [Hall|(pre & x & w & rest & Ex & Hp & Hx & Hw & Hr)].
    + by apply Forall_cons in Hall as [? _].
    + rewrite Ex, CString.words_skip in Ew by done. cbn [app] in Ew.
      by rewrite CString.words_word in Ew.
Qed.

Lemma strip_name_split r : ∃ nm, r = nm ++ strip_name r ∧ Forall (λ c, c ∉ [slash]) nm ∧
  (strip_name r = [] ∨ ∃ t, strip_name r = slash :: t).
Proof.
  induction r as [|c r (nm & E & Hn & Hs)]; [exists []; split_and!; [done|done|by left]|].
  cbn [strip_name]. destruct (Z.eqb_spec c slash) as [->|Hc].
  - exists []. split_and!; [done|done|]. right. by exists r.
  - exists (c :: nm). split_and!; [simpl; by f_equal| |done].
    constructor; [|done]. by rewrite in_slash.
Qed.

Lemma components_slashes l : Forall (λ c, c ∈ [slash]) l → components l = [].
Proof.
  intros Hl. unfold components. rewrite <- (app_nil_r l). by rewrite CString.words_skip.
Qed.

(** A name and the slashes after it. *)
Lemma components_name nm l : Forall (λ c, c ∉ [slash]) nm → nm ≠ [] →
  Forall (λ c, c ∈ [slash]) l → components (nm ++ l) = [nm].
Proof.
  intros Hn Hne Hl. destruct nm as [|c nm]; [done|]. apply Forall_cons in Hn as [Hc Hn].
  cbn [app]. unfold components. rewrite CString.words_word by
    (done || (destruct l; [done|]; by apply Forall_cons in Hl as [? _])).
  f_equal. by apply components_slashes.
Qed.

Lemma parent_components path : components path ≠ [] →
  ∃ w, components path = components (parent_path path) ++ [w].
Proof.
  intros Hne. unfold parent_path.
  destruct (skip_slashes_split (rev path)) as (pre & E & Hpre & Hs).
  destruct (strip_name_split (skip_slashes (rev path))) as (nm & E2 & Hnm & Hs2).
  assert (path = rev (strip_name (skip_slashes (rev path))) ++ rev nm ++ rev pre) as Ep.
  { assert (rev path = pre ++ nm ++ strip_name (skip_slashes (rev path))) as Er
      by (rewrite <- E2; exact E).
    set (x := strip_name _) in *. clearbody x. apply (f_equal (@rev Z)) in Er.
    by rewrite rev_involutive, !rev_app_distr, <- app_assoc in Er. }
  assert (nm ≠ []) as Hnn.
  { intros ->. simpl in E2. destruct Hs as [Hs|(c & t & Hs & Hc)].
    - apply Hne. apply components_slashes. rewrite Hs, app_nil_r in E.
      rewrite <- (rev_involutive path), E. by apply Forall_rev.
    - destruct Hs2 as [Hs2|(t' & Hs2)]; rewrite Hs2 in E2; congruence. }
  assert (rev nm ≠ []) as Hrn by (intros Hr%(f_equal (@rev Z)); rewrite rev_involutive in Hr; done).
  exists (rev nm). rewrite Ep at 1. apply Forall_rev in Hpre, Hnm.
  destruct Hs2 as [->|(t & ->)]; [cbn [rev app]; by apply components_name|].
  cbn [rev]. rewrite <- app_assoc. cbn [app]. unfold components.
  rewrite words_app_sep by (by apply in_slash).
  rewrite (words_app_sep _ (rev t) slash []) by (by apply in_slash).
  cbn [CString.words]. rewrite app_nil_r. f_equal. by apply components_name.
Qed.

(** ** Properties *)

Section properties.
Context {D : Type} `{HK : Kernel D} `{!SectorStore D}.

(** C11. dir_add() is insertion into the map of the directory.  A name that
    is empty, longer than NAME_MAX or in use is refused and nothing changes.
    A new valid name in a directory that has a free slot is entered in the
    first one: afterwards it is bound to the given sector and every other name
    to what it was, no name is in use twice, and no byte of a file outside the
    directory's own blocks changes.  A directory without a free slot grows;
    that case is outside this theorem. *)
Theorem dir_add_inserts n k junk (s : fstate D) dp d nd name sec :
  dirs s !! dp = Some d → dir_ok k s (d_inode d) nd → inode_dir_lock nd = new_lock →
  let es := entries (disk s) (i_sector nd) in
  (name = [] ∨ (14 < length name)%nat ∨ dir_find es name ≠ None →
     wp (dir_add (S n) k junk dp name sec) (λ r s', r = false ∧ reads s s') s) ∧
  (∀ j, deny_write_cnt nd = 0 → valid_name name → in_u32 sec → unique_names es →
     dir_find es name = None → first_free es = Some j →
     wp (dir_add (S n) k junk dp name sec)
       (λ r s', let es' := entries (disk s') (i_sector nd) in
          r = true ∧ unique_names es' ∧
          (∀ nm, dir_find es' nm = if decide (nm = name) then Some sec else dir_find es nm) ∧
          s' = set_disk (disk s') s ∧
          ∀ isec', inode_ok (disk s) isec' →
            (∀ x i, in_foot (disk s) isec' x → 0 <= i < num_blocks (disk s) (i_sector nd) →
               x ≠ block_ptr (disk s) (i_sector nd) i) →
            content (disk s') isec' = content (disk s) isec') s).
Proof.
  intros Hdp Hd Hdl. cbv zeta. split; [by apply (wp_dir_add_refused (S n) k junk s dp d nd)|].
  intros j Hdeny Hv Hsec Hu Hf Hfree. eapply wp_mono.
  { apply (wp_dir_add n k junk s dp d nd name sec j Hdp Hd Hdl Hdeny Hv Hsec Hf Hfree). }
  intros r s' (-> & e & He & Hes & c & Hrw & Hc).
  destruct (rewrites_ok _ _ _ _ (do_inode _ _ _ _ Hd) Hrw) as (_ & _ & _ & _ & Hcc).
  destruct (first_free_Some _ _ Hfree) as (e0 & He0 & Hz0).
  unfold entries at 1 2. rewrite Hcc, Hc. split; [reflexivity|].
  split; [eapply unique_insert; eassumption|]. split.
  { intros nm. by rewrite (dir_find_insert _ j e0 e name nm), Hes. }
  split; [by destruct Hrw as (d' & -> & _)|]. intros isec' Hok' Hdis.
  apply (rewrites_other _ _ _ _ _ Hrw Hok' Hdis).
Qed.

(** C12. dir_remove() is deletion from the map.  A name that is not bound is
    refused and nothing changes.  For a name bound to a file that is open (as
    it is for a plain file when filesys_remove() calls) the name is afterwards
    no longer bound, every other name is bound to what it was, and the file
    lives on: its inode stays open with its openers, marked as removed, and no
    byte of a file outside the directory's own blocks changes.  A file nobody
    has open is also given back to the free map; that case is outside this
    theorem. *)
Theorem dir_remove_deletes n k junk (s : fstate D) dp d nd name :
  open_table s → dirs s !! dp = Some d → dir_ok k s (d_inode d) nd → inode_dir_lock nd = new_lock →
  let es := entries (disk s) (i_sector nd) in
  (dir_find es name = None → wp (dir_remove (S n) k junk dp name) (λ r s', r = false ∧ reads s s') s) ∧
  (∀ sec ino nf, deny_write_cnt nd = 0 → unique_names es → dir_find es name = Some sec →
     ino ∈ open_inodes s → inodes s !! ino = Some nf → i_sector nf = sec → ino ≠ d_inode d →
     wp (dir_remove (S n) k junk dp name)
       (λ r s', let es' := entries (disk s') (i_sector nd) in
          r = true ∧ unique_names es' ∧
          (∀ nm, dir_find es' nm = if decide (nm = name) then None else dir_find es nm) ∧
          inodes s' = <[ino := marked nf]> (inodes s) ∧ open_inodes s' = open_inodes s ∧
          ∀ isec', inode_ok (disk s) isec' →
            (∀ x i, in_foot (disk s) isec' x → 0 <= i < num_blocks (disk s) (i_sector nd) →
               x ≠ block_ptr (disk s) (i_sector nd) i) →
            content (disk s') isec' = content (disk s) isec') s).
Proof.
  intros Ht Hdp Hd Hdl. cbv zeta. split; [by apply (wp_dir_remove_unbound (S n) k junk s dp d nd)|].
  intros sec ino nf Hdeny Hu Hf Hin Hnf Hsec Hne.
  destruct (find_entry name (entries (disk s) (i_sector nd)) 0) as [[e ofs]|] eqn:Ef.
  2: { rewrite <- (find_entry_dir_find _ _ 0), Ef in Hf. discriminate Hf. }
  assert (i_sector nf = e_inode_sector e) as Hs.
  { rewrite <- (find_entry_dir_find _ _ 0), Ef in Hf. simpl in Hf. congruence. }
  destruct (find_entry_Some _ _ _ _ _ Ef) as (_ & _ & _ & Hen).
  eapply wp_mono.
  { apply (wp_dir_remove_open n k junk s dp d nd name e ofs ino nf); assumption. }
  intros r s' (-> & Hin' & Ho & i & c & Hi & Hrw & Hc). cbv zeta.
  pose proof (rewrites_ok _ _ _ _ (do_inode _ _ _ _ Hd) Hrw) as (_ & _ & _ & _ & Hcc).
  cbn [disk set_disk] in Hcc. unfold entries at 1 2. rewrite Hcc, Hc.
  split; [reflexivity|]. split; [by apply unique_erase|]. split.
  { intros nm. by apply (dir_find_delete _ i e). }
  split; [exact Hin'|]. split; [exact Ho|]. intros isec' Hok' Hdis.
  apply (rewrites_other _ _ _ _ _ Hrw Hok' Hdis).
Qed.

(** C13. A search is a lookup in the map: it fails exactly for names that are
    not bound, and otherwise opens the inode at the sector the name is bound
    to, the one already open if there is one; the disk is as before.  The
    exception is "..": where it is not bound, as in the root directory, an
    ASSERT stops the kernel. *)
Theorem dir_lookup_finds k junk (s : fstate D) dp d nd name :
  open_table s → dirs s !! dp = Some d → dir_ok k s (d_inode d) nd →
  let es := entries (disk s) (i_sector nd) in
  if decide (name = dotdot ∧ dir_find es name = None) then dir_lookup_unsynched k junk dp name s = Panic
  else
    wp (dir_lookup_unsynched k junk dp name)
      (λ r s', content (disk s') (i_sector nd) = content (disk s) (i_sector nd) ∧
         match dir_find es name with
         | None => r = None ∧ reads s s'
         | Some sec => ∃ ino, r = Some ino ∧ opens s s' ino sec
         end) s.
Proof.
  intros Ht Hdp Hd. cbv zeta. case_decide as Hcase.
  { destruct Hcase as [-> Hf]. by eapply dir_lookup_dotdot. }
  eapply wp_mono; [apply (wp_dir_lookup_unsynched k junk s dp d nd name Ht Hdp Hd)|].
  { destruct (decide (name = dotdot)); naive_solver. }
  intros r s' (s1 & Hr & Hds & Hres).
  destruct (reads_ok _ _ _ (do_inode _ _ _ _ Hd) Hr) as (_ & Hc & _).
  rewrite Hds. split; [exact Hc|].
  destruct (dir_find (entries (disk s) (i_sector nd)) name); [exact Hres|].
  destruct Hres as [-> ->]. split; [reflexivity|exact Hr].
Qed.
End properties.

(** The path of a new file is split correctly: get_last_part() succeeds
    exactly when every component fits into a name, and then its buffer holds
    the last component, and the path get_subdir_from_path() resolves consists
    of all the others. *)
Theorem path_split part path :
  length part = 15%nat → Forall (λ b, b ≠ 0) path → components path ≠ [] →
  let r := get_last_part part path in
  (r.1 = true ↔ Forall (λ w, (length w <= 14)%nat) (components path)) ∧
  (r.1 = true → components path = components (parent_path path) ++ [cstr r.2]).
Proof.
  intros Hp Hz Hne. cbv zeta. unfold get_last_part.
  destruct (last_part_loop_ok (S (length path)) part path Hp Hz ltac:(lia))
    as (ok & buf & -> & Hok & Hl).
  cbn [from_option fst snd]. unfold id. cbn [fst snd]. split; [exact Hok|]. intros Ht. destruct (Hl Ht) as [_ Hlast].
  destruct (parent_components path Hne) as [w Hw]. rewrite Hw in Hlast |- *.
  rewrite last_snoc in Hlast. by rewrite Hlast.
Qed.

(** ** A directory with one file *)

Fixpoint unique_check (es : list dir_entry) : bool :=
  match es with
  | [] => true
  | e :: es =>
      forallb (λ e', (e_in_use e =? 0) || (e_in_use e' =? 0) ||
                     negb (bool_decide (cstr (e_name e) = cstr (e_name e')))) es &&
      unique_check es
  end.

Lemma unique_check_head e es i x :
  forallb (λ e', (e_in_use e =? 0) || (e_in_use e' =? 0) ||
                 negb (bool_decide (cstr (e_name e) = cstr (e_name e')))) es = true →
  es !! i = Some x → e_in_use e ≠ 0 → e_in_use x ≠ 0 → cstr (e_name e) ≠ cstr (e_name x).
Proof.
  intros Hf Hx He Hxu E. rewrite forallb_forall in Hf.
  apply list_elem_of_lookup_2, list_elem_of_In, Hf in Hx.
  rewrite !orb_true_iff, negb_true_iff, !Z.eqb_eq, bool_decide_eq_false in Hx. tauto.
Qed.

Lemma unique_check_ok es : unique_check es = true → unique_names es.
Proof.
  induction es as [|e es IH]; [by intros _ i j ei ej|]. cbn [unique_check].
  intros [Hh Ht]%andb_true_iff. intros [|i] [|j] ei ej Hi Hj Hui Huj E; simpl in Hi, Hj.
  - done.
  - injection Hi as <-. by destruct (unique_check_head _ _ _ _ Hh Hj Hui Huj).
  - injection Hj as <-. by destruct (unique_check_head _ _ _ _ Hh Hi Huj Hui).
  - f_equal. by eapply (IH Ht).
Qed.

#[local] Instance demo_store : SectorStore bstate := cache_store 0.

Definition demo_junk : dir_entry := mk_entry 0 (replicate 15 0) 0.

(** Format a device, create the file "a" in the root directory and open
    both. *)
Definition demo_dir_setup : M (fstate bstate) (Z * Z) :=
  inode_init;;;
  free_map_init (replicate 4 0);;;
  free_map_create 3;;;
  let* _ := dir_create 3 ROOT_DIR_SECTOR 16 in
  let* dp := dir_open_root in
  let* o := free_map_allocate (inode_write_at 3) 1 in
  match o with
  | None => panic
  | Some sector =>
      let* _ := inode_create 3 sector 0 in
      let* _ := dir_add 3 20 demo_junk dp [97] sector in
      let* ino := inode_open sector in
      ret (dp, ino)
  end.

Definition demo_root : fstate bstate :=
  match demo_dir_setup blank_fs with Ok (_, s) => s | _ => blank_fs end.

Definition root_inode : inode := fresh_inode ROOT_DIR_SECTOR.
Definition file_a : inode := fresh_inode 6.
Definition root_dp : dir := mk_dir 102 0.

Lemma root_disk : ss_inv (disk demo_root).
Proof.
  apply cache_check_ok; [vm_compute; reflexivity|split; vm_compute; reflexivity
    |vm_compute; reflexivity..].
Qed.

Lemma root_len : file_len (disk demo_root) (i_sector root_inode) = 320.
Proof. vm_compute. reflexivity. Qed.

Lemma root_dirs : dirs demo_root !! 103 = Some root_dp.
Proof. vm_compute. reflexivity. Qed.

Lemma root_dir_ok : dir_ok 20 demo_root (d_inode root_dp) root_inode.
Proof.
  split.
  - split; [vm_compute; reflexivity|reflexivity|reflexivity|exact root_disk].
  - apply (one_block_ok _ _ 5); [|vm_compute; reflexivity|..].
    + change ROOT_DIR_SECTOR with (i_sector root_inode). rewrite root_len. lia.
    + split; [discriminate|vm_compute; reflexivity].
    + split; [reflexivity|vm_compute; reflexivity].
    + discriminate.
  - rewrite root_len, max_bytes. reflexivity.
  - rewrite root_len. reflexivity.
Qed.

Lemma root_unique : unique_names (entries (disk demo_root) (i_sector root_inode)).
Proof. apply unique_check_ok. vm_compute. reflexivity. Qed.

Lemma root_free : first_free (entries (disk demo_root) (i_sector root_inode)) = Some 1%nat.
Proof. vm_compute. reflexivity. Qed.

Lemma root_inodes : inodes demo_root =
  {[102 := root_inode; 104 := file_a; 100 := fresh_inode FREE_MAP_SECTOR]}.
Proof. vm_compute. reflexivity. Qed.

Lemma root_open : open_inodes demo_root = [104; 102; 100].
Proof. vm_compute. reflexivity. Qed.

Lemma root_table : open_table demo_root.
Proof.
  split; rewrite ?root_open, ?root_inodes.
  - apply NoDup_ListNoDup. repeat constructor; simpl; lia.
  - intros p Hp. rewrite !elem_of_cons, elem_of_nil in Hp.
    destruct Hp as [->|[->|[->|[]]]]; eexists; (split; [reflexivity|]);
      (split; [reflexivity|]); (split; [reflexivity|]); simpl; lia.
  - intros p q nd nd' Hp Hq. rewrite !elem_of_cons, elem_of_nil in Hp, Hq.
    destruct Hp as [->|[->|[->|[]]]], Hq as [->|[->|[->|[]]]];
      intros [= <-] [= <-] E; (reflexivity || discriminate E).
  - intros p Hp. replace (next_ptr demo_root) with 105 in Hp by (vm_compute; reflexivity).
    split; [|rewrite !elem_of_cons, elem_of_nil; lia].
    rewrite !lookup_insert_ne by lia. rewrite lookup_singleton_ne by lia. reflexivity.
  - vm_compute. reflexivity.
  - exact root_disk.
Qed.

Lemma dir_add_inserts_witness :
  wp (dir_add 1 20 demo_junk 103 [98] 7)
    (λ r s', r = true ∧ dir_find (entries (disk s') 1) [98] = Some 7 ∧
             dir_find (entries (disk s') 1) [97] = Some 6) demo_root ∧
  wp (dir_add 1 20 demo_junk 103 [97] 7) (λ r s', r = false ∧ reads demo_root s') demo_root.
Proof.
  split.
  - eapply wp_mono.
    { apply (proj2 (dir_add_inserts 0 20 demo_junk demo_root 103 root_dp root_inode [98] 7
               root_dirs root_dir_ok eq_refl) 1%nat); [reflexivity| | |exact root_unique|vm_compute; reflexivity|exact root_free].
      - split; [simpl; lia|repeat constructor; lia].
      - split; [discriminate|reflexivity]. }
    intros r s' (-> & _ & Hf & _). split; [reflexivity|].
    change 1 with (i_sector root_inode). rewrite (Hf [98]), (Hf [97]).
    split; vm_compute; reflexivity.
  - refine (proj1 (dir_add_inserts 0 20 demo_junk demo_root 103 root_dp root_inode [97] 7
             root_dirs root_dir_ok eq_refl) _). right; right. vm_compute. discriminate.
Defined.

Lemma dir_remove_deletes_witness :
  wp (dir_remove 1 20 demo_junk 103 [97])
    (λ r s', r = true ∧ dir_find (entries (disk s') 1) [97] = None ∧
             inodes s' !! 104 = Some (marked file_a)) demo_root ∧
  wp (dir_remove 1 20 demo_junk 103 [98]) (λ r s', r = false ∧ reads demo_root s') demo_root.
Proof.
  split.
  - eapply wp_mono.
    { apply (proj2 (dir_remove_deletes 0 20 demo_junk demo_root 103 root_dp root_inode [97]
               root_table root_dirs root_dir_ok eq_refl) 6 104 file_a); [reflexivity|exact root_unique
        |vm_compute; reflexivity| | |reflexivity|discriminate].
      - rewrite root_open. left.
      - rewrite root_inodes. reflexivity. }
    intros r s' (-> & _ & Hf & Hi & _). split; [reflexivity|].
    change 1 with (i_sector root_inode). rewrite Hf, Hi. split; [vm_compute; reflexivity|].
    apply lookup_insert_eq.
  - refine (proj1 (dir_remove_deletes 0 20 demo_junk demo_root 103 root_dp root_inode [98]
             root_table root_dirs root_dir_ok eq_refl) _). vm_compute. reflexivity.
Defined.

Lemma dir_lookup_finds_witness :
  wp (dir_lookup_unsynched 20 demo_junk 103 [97])
    (λ r s', ∃ ino, r = Some ino ∧ opens demo_root s' ino 6) demo_root ∧
  dir_lookup_unsynched 20 demo_junk 103 dotdot demo_root = Panic.
Proof.
  pose proof (λ nm, dir_lookup_finds 20 demo_junk demo_root 103 root_dp root_inode nm
             root_table root_dirs root_dir_ok) as Hl. cbv zeta in Hl. split.
  - specialize (Hl [97]). rewrite decide_False in Hl by (intros [H _]; discriminate H).
    eapply wp_mono; [exact Hl|]. intros r s' [_ Hcase].
    replace (dir_find (entries (disk demo_root) (i_sector root_inode)) [97]) with (Some 6)
      in Hcase by (vm_compute; reflexivity). exact Hcase.
  - specialize (Hl dotdot). rewrite decide_True in Hl; [exact Hl|]. split; [reflexivity|vm_compute; reflexivity].
Defined.

(** "/a//bc/". *)
Lemma path_split_witness :
  let r := get_last_part (replicate 15 0) [47; 97; 47; 47; 98; 99; 47] in
  r.1 = true ∧ cstr r.2 = [98; 99] ∧
  components [47; 97; 47; 47; 98; 99; 47] =
    components (parent_path [47; 97; 47; 47; 98; 99; 47]) ++ [cstr r.2].
Proof.
  cbv zeta. split; [vm_compute; reflexivity|]. split; [vm_compute; reflexivity|].
  apply (path_split (replicate 15 0) [47; 97; 47; 47; 98; 99; 47]);
    [reflexivity|repeat constructor; discriminate|vm_compute; discriminate
    |vm_compute; reflexivity].
Defined.

End DirSpec.
