(* ===== verification/Filesys.v ===== *)
(** * Filesys: the file system's interface (filesys/filesys.c)

    Formatting, and creation, opening and removal of files by path, over the
    directories of [Directory]. *)

From Stdlib Require Import ZArith Lia.
From stdpp Require Import base tactics option list numbers gmap.
From S2P Require Import Prelude Bitmap Sched Synch Block FsState FreeMap Inode FsAlloc File.
From S2P Require Import Directory DirSpec.
Import Bitmap Sched Synch Block FsState FreeMap Inode FsAlloc File Directory DirSpec.

Module Filesys.

(** struct fd: exactly one of the two is not null. *)
Record fd := mk_fd {
  fd_file : option Z;
  fd_dir : option Z
}.

Section filesys_ops.
Context {D : Type} `{HK : Kernel D} `{!SectorStore D}.
Context (n k : nat) (junk : dir_entry) (part : list Z).

Definition do_format : M (fstate D) unit :=
  free_map_create n;;;
  let* ok := dir_create n ROOT_DIR_SECTOR 16 in
  if negb ok then panic else free_map_close n.

Definition filesys_done : M (fstate D) unit :=
  on_store ss_flush;;;
  free_map_close n.

(** Allocate a sector, create an inode there and enter it in [dir]. *)
Definition create_in (dir : Z) (name : list Z) (initial_size : Z) : M (fstate D) (bool * Z) :=
  let* o := free_map_allocate (inode_write_at n) 1 in
  match o with
  | None => ret (false, 0)
  | Some inode_sector =>
      let* ok := inode_create n inode_sector initial_size in
      if ok then
        let* ok := dir_add n k junk dir name inode_sector in
        ret (ok, inode_sector)
      else ret (false, inode_sector)
  end.

Definition filesys_create (name : list Z) (initial_size : Z) : M (fstate D) bool :=
  let* dir := dir_open_root in
  let* r := create_in dir name initial_size in
  (if negb r.1 && negb (r.2 =? 0)
   then free_map_release (inode_write_at n) r.2 1 else ret tt);;;
  dir_close n (Some dir);;;
  ret r.1.

Definition filesys_open (name : list Z) : M (fstate D) (option Z) :=
  let* dir := dir_open_root in
  let* inode := dir_lookup k junk dir name in
  dir_close n (Some dir);;;
  file_open n inode.

(** [cwd] is the current directory of the running thread. *)
Definition filesys_remove (cwd : option Z) (name : list Z) : M (fstate D) bool :=
  let* oino := get_inode_from_path n k junk cwd part name in
  match oino with
  | None => ret false
  | Some inode =>
      let* osub := get_subdir_from_path n k junk cwd part name in
      let lp := get_last_part part name in
      if negb lp.1 then ret false
      else
        match osub with
        | None => ret false
        | Some subdir =>
            let* isdir := inode_is_dir inode in
            if isdir : bool then
              let* dirr := dir_open (Some inode) in
              let* emp := is_empty k junk dirr in
              dir_close n (Some dirr);;;
              if emp : bool then
                let* nm := buf_string lp.2 in
                let* success := dir_remove n k junk subdir nm in
                dir_close n (Some subdir);;;
                ret success
              else dir_close n (Some subdir);;; ret false
            else
              inode_remove inode;;;
              let* nm := buf_string lp.2 in
              let* success := dir_remove n k junk subdir nm in
              dir_close n (Some subdir);;;
              ret success
        end
  end.

Definition filesys_create_2 (cwd : option Z) (name : list Z) (initial_size : Z) :
    M (fstate D) bool :=
  let* osub := get_subdir_from_path n k junk cwd part name in
  match osub with
  | None => ret false
  | Some subdir =>
      let lp := get_last_part part name in
      if negb lp.1 then ret false
      else
        let* o := free_map_allocate (inode_write_at n) 1 in
        let* r :=
          (match o with
           | None => ret (false, 0)
           | Some inode_sector =>
               let* ok := inode_create n inode_sector initial_size in
               if ok then
                 let* nm := buf_string lp.2 in
                 let* ok := dir_add n k junk subdir nm inode_sector in
                 ret (ok, inode_sector)
               else ret (false, inode_sector)
           end) in
        if negb r.1 && negb (r.2 =? 0) then
          free_map_release (inode_write_at n) r.2 1;;;
          ret false
        else
          dir_close n (Some subdir);;;
          ret r.1
  end.

Definition filesys_open_2 (cwd : option Z) (name : list Z) : M (fstate D) (option fd) :=
  let* oino := get_inode_from_path n k junk cwd part name in
  match oino with
  | None => ret None
  | Some inode =>
      let* ok := malloc_ok in
      assert ok;;;
      let* isdir := inode_is_dir inode in
      if isdir : bool then
        let* d := dir_open (Some inode) in
        ret (Some (mk_fd None (Some d)))
      else
        let* f := file_open n (Some inode) in
        ret (Some (mk_fd f None))
  end.

End filesys_ops.

(** The number of the role BLOCK_FILESYS. *)
Definition ROLE_FILESYS : Z := 1.

(** filesys_init() looks the device up by its role; the buffer cache on that
    device is the store of everything after it.  [garbage] is what malloc()
    left in the words of the free map. *)
Definition filesys_init (n : nat) (garbage : list Z) (format : bool) : M (fstate bstate) Z :=
  let* odev := on_store (block_get_role ROLE_FILESYS) in
  match odev with
  | None => panic
  | Some fs_device =>
      let SS := cache_store fs_device in
      inode_init;;;
      free_map_init (SectorStore0 := SS) garbage;;;
      on_store init_buffer_cache;;;
      (if format then do_format (SectorStore0 := SS) n else ret tt);;;
      free_map_open (SectorStore0 := SS) n;;;
      ret fs_device
  end.

(** ** A session *)

#[local] Instance demo_store : SectorStore bstate := cache_store 0.

Definition stack_part : list Z := replicate 15 0.

(** Format, create the file "a" of 100 bytes, open the root directory as the
    current one, and remove "a", which nobody has opened. *)
Definition create_and_remove : M (fstate bstate) (bool * bool) :=
  inode_init;;;
  free_map_init (replicate 4 0);;;
  do_format 3;;;
  free_map_open 3;;;
  let* cwd := dir_open_root in
  let* created := filesys_create_2 3 20 DirSpec.demo_junk stack_part (Some cwd) [97] 100 in
  let* removed := filesys_remove 3 20 DirSpec.demo_junk stack_part (Some cwd) [97] in
  ret (created, removed).

(** filesys_remove() of a file that nobody has open succeeds, but leaves the
    inode it opened itself open for ever: the inode at sector 6 stays in the
    table with one opener, and its sectors 6, 7 and 8 stay allocated. *)
Theorem remove_leaks_opener :
  wp create_and_remove
    (λ r s', r = (true, true) ∧
       (∃ ino nd, inodes s' !! ino = Some nd ∧ i_sector nd = 6 ∧ open_cnt nd = 1 ∧
                  removed nd = true) ∧
       ∀ x, x ∈ [6; 7; 8] → bm_abs (free_map s') !! Z.to_nat x = Some true) blank_fs.
Proof.
  assert (match create_and_remove blank_fs with
          | Ok (r, s') => r = (true, true) ∧ inodes s' !! 108 = Some (marked (fresh_inode 6)) ∧
              take 9 (bm_abs (free_map s')) = replicate 9 true
          | _ => False end) as H by (vm_compute; auto).
  unfold wp. destruct (create_and_remove blank_fs) as [[r s']| | | |]; try destruct H.
  destruct H0 as [Hi Hb]. split; [assumption|]. split.
  { exists 108, (marked (fresh_inode 6)). auto. }
  intros x Hx. rewrite <- (lookup_take_lt _ 9).
  - rewrite Hb. rewrite !elem_of_cons, elem_of_nil in Hx. destruct Hx as [->|[->|[->|[]]]]; reflexivity.
  - rewrite !elem_of_cons, elem_of_nil in Hx. lia.
Qed.

End Filesys.
