(* ===== verification/Load.v ===== *)
(** * Load: loading executables (userprog/process.c)

    load() reads the headers of an ELF file, maps its segments page by page
    into a new page directory, and adds a page for the stack.  [lstate] is what
    the loader works on: the page allocator and page tables of [Pagedir], the
    file system, and the members [pagedir] and [current_process] of the running
    thread.  The file system is used through the class [FileSystem]: the calls
    of filesys.c and file.c, and what reading an open file means.  Messages to
    the console are left out. *)

From Stdlib Require Import ZArith Lia.
From stdpp Require Import base tactics option list numbers gmap.
From S2P Require Import Prelude Memory CString Bitmap Sched Synch Vaddr Palloc Pagedir.
Import Memory CString Sched Synch Vaddr Palloc Pagedir.

Module Load.

(** ** The file system, as the loader sees it *)

(** [fs_file f fp c p]: the open file [fp] has the bytes [c] and is at
    position [p]. *)
Class FileSystem (F : Type) := {
  fs_open : list Z → M F (option Z);
  fs_read : Z → Z → M F (list Z);
  fs_length : Z → M F Z;
  fs_seek : Z → Z → M F unit;
  fs_deny_write : Z → M F unit;
  fs_file : F → Z → list Z → Z → Prop;
  fs_read_ok : ∀ f fp c p n, fs_file f fp c p → 0 <= p <= zlen c → 0 <= n →
    wp (fs_read fp n) (λ d f', d = slice p (Z.min n (zlen c - p)) c ∧ fs_file f' fp c (p + zlen d)) f;
  fs_length_ok : ∀ f fp c p, fs_file f fp c p → wp (fs_length fp) (λ n f', n = zlen c ∧ fs_file f' fp c p) f;
  fs_seek_ok : ∀ f fp c p q, fs_file f fp c p → 0 <= q → wp (fs_seek fp q) (λ _ f', fs_file f' fp c q) f;
  fs_deny_ok : ∀ f fp c p, fs_file f fp c p → wp (fs_deny_write fp) (λ _ f', fs_file f' fp c p) f;
  fs_size : ∀ f fp c p, fs_file f fp c p → zlen c < 2 ^ 31
}.

(** ** ELF headers *)

Record Elf32_Ehdr := mk_ehdr {
  e_ident : list Z;
  e_type : Z;
  e_machine : Z;
  e_version : Z;
  e_entry : Z;
  e_phoff : Z;
  e_shoff : Z;
  e_flags : Z;
  e_ehsize : Z;
  e_phentsize : Z;
  e_phnum : Z;
  e_shentsize : Z;
  e_shnum : Z;
  e_shstrndx : Z
}.

Record Elf32_Phdr := mk_phdr {
  p_type : Z;
  p_offset : Z;
  p_vaddr : Z;
  p_paddr : Z;
  p_filesz : Z;
  p_memsz : Z;
  p_flags : Z;
  p_align : Z
}.

Definition sizeof_ehdr : Z := 52.
Definition sizeof_phdr : Z := 32.

(** The structures laid over the bytes read. *)
Definition field (d : list Z) (ofs n : Z) : Z := le_val (slice ofs n d).
Definition ehdr_of (d : list Z) : Elf32_Ehdr :=
  mk_ehdr (slice 0 16 d) (field d 16 2) (field d 18 2) (field d 20 4) (field d 24 4) (field d 28 4) (field d 32 4)
    (field d 36 4) (field d 40 2) (field d 42 2) (field d 44 2) (field d 46 2) (field d 48 2) (field d 50 2).
Definition phdr_of (d : list Z) : Elf32_Phdr :=
  mk_phdr (field d 0 4) (field d 4 4) (field d 8 4) (field d 12 4) (field d 16 4) (field d 20 4) (field d 24 4) (field d 28 4).

(** The string "\177ELF\1\1\1". *)
Definition elf_magic : list Z := [127; 69; 76; 70; 1; 1; 1].

Definition PT_NULL : Z := 0.
Definition PT_LOAD : Z := 1.
Definition PT_DYNAMIC : Z := 2.
Definition PT_INTERP : Z := 3.
Definition PT_NOTE : Z := 4.
Definition PT_SHLIB : Z := 5.
Definition PT_PHDR : Z := 6.
Definition PT_STACK : Z := 1685382481.   (* 0x6474e551 *)
Definition PF_W : Z := 2.

(** ROUND_UP of lib/round.h, on uint32_t. *)
Definition round_up32 (x step : Z) : Z := u32 (u32 (x + step - 1) / step * step).

(** ** State *)

Record lstate (F : Type) := mk_lstate {
  lg : gstate;
  lf : F;
  l_pagedir : Z;
  l_process : option Z
}.
Arguments mk_lstate {F}.
Arguments lg {F}.
Arguments lf {F}.
Arguments l_pagedir {F}.
Arguments l_process {F}.

Section load.
Context {F : Type} `{!FileSystem F}.

(** The number of page frames of the machine. *)
Variable init_ram_pages : Z.

Definition on_g {A} (m : M gstate A) : M (lstate F) A :=
  lift lg (λ g s, mk_lstate g (lf s) (l_pagedir s) (l_process s)) m.
Definition on_f {A} (m : M F A) : M (lstate F) A :=
  lift lf (λ f s, mk_lstate (lg s) f (l_pagedir s) (l_process s)) m.

(** file_read() into a buffer in kernel memory. *)
Definition read_into (fp p n : Z) : M (lstate F) Z :=
  let* d := on_f (fs_read fp n) in
  on_g (on_p (on_mem (wr_bytes p d)));;;
  ret (zlen d).

Definition install_page (upage kpage : Z) (writable : bool) : M (lstate F) bool :=
  let* s := get in
  let* k := on_g (pagedir_get_page (l_pagedir s) upage) in
  if k =? 0 then on_g (pagedir_set_page init_ram_pages (l_pagedir s) upage kpage writable)
  else ret false.

(** The esp of the new process, if there is memory for its stack. *)
Definition setup_stack : M (lstate F) (option Z) :=
  let* kpage := on_g (on_p (palloc_get_page (Z.lor PAL_USER PAL_ZERO))) in
  if negb (kpage =? 0) then
    let* success := install_page (PHYS_BASE - PGSIZE) kpage true in
    if success : bool then ret (Some PHYS_BASE)
    else on_g (on_p (palloc_free_page kpage));;; ret None
  else ret None.

Definition validate_segment (phdr : Elf32_Phdr) (fp : Z) : M (lstate F) bool :=
  if negb (Z.land (p_offset phdr) PGMASK =? Z.land (p_vaddr phdr) PGMASK) then ret false
  else
    let* len := on_f (fs_length fp) in
    if p_offset phdr >? u32 len then ret false
    else if p_memsz phdr <? p_filesz phdr then ret false
    else if p_memsz phdr =? 0 then ret false
    else if negb (is_user_vaddr (p_vaddr phdr)) then ret false
    else if negb (is_user_vaddr (u32 (p_vaddr phdr + p_memsz phdr))) then ret false
    else if u32 (p_vaddr phdr + p_memsz phdr) <? p_vaddr phdr then ret false
    else if p_vaddr phdr <? PGSIZE then ret false
    else ret true.

(** [while (read_bytes > 0 || zero_bytes > 0)], with one unit of fuel per page. *)
Fixpoint segment_loop (n : nat) (fp upage read_bytes zero_bytes : Z) (writable : bool) : M (lstate F) bool :=
  if (read_bytes >? 0) || (zero_bytes >? 0) then
    match n with
    | O => no_fuel
    | S n =>
        let page_read_bytes := if read_bytes <? PGSIZE then read_bytes else PGSIZE in
        let page_zero_bytes := PGSIZE - page_read_bytes in
        let* kpage := on_g (on_p (palloc_get_page PAL_USER)) in
        if kpage =? 0 then ret false
        else
          let* got := read_into fp kpage page_read_bytes in
          if negb (got =? page_read_bytes) then on_g (on_p (palloc_free_page kpage));;; ret false
          else
            on_g (on_p (on_mem (memset (kpage + page_read_bytes) 0 page_zero_bytes)));;;
            let* ok := install_page upage kpage writable in
            if negb ok then on_g (on_p (palloc_free_page kpage));;; ret false
            else
              segment_loop n fp (u32 (upage + PGSIZE)) (read_bytes - page_read_bytes)
                (u32 (zero_bytes - page_zero_bytes)) writable
    end
  else ret true.

Definition load_segment (fp ofs upage read_bytes zero_bytes : Z) (writable : bool) : M (lstate F) bool :=
  assert (u32 (read_bytes + zero_bytes) mod PGSIZE =? 0);;;
  assert (pg_ofs upage =? 0);;;
  assert (Z.rem ofs PGSIZE =? 0);;;
  on_f (fs_seek fp ofs);;;
  segment_loop (Z.to_nat ((read_bytes + zero_bytes) / PGSIZE)) fp upage read_bytes zero_bytes writable.

(** One program header of type PT_LOAD. *)
Definition load_phdr (fp : Z) (phdr : Elf32_Phdr) : M (lstate F) bool :=
  let* valid := validate_segment phdr fp in
  if valid : bool then
    let writable := negb (Z.land (p_flags phdr) PF_W =? 0) in
    let file_page := Z.land (p_offset phdr) (u32 (Z.lnot PGMASK)) in
    let mem_page := Z.land (p_vaddr phdr) (u32 (Z.lnot PGMASK)) in
    let page_offset := Z.land (p_vaddr phdr) PGMASK in
    let read_bytes := if p_filesz phdr >? 0 then u32 (page_offset + p_filesz phdr) else 0 in
    let zero_bytes :=
      if p_filesz phdr >? 0 then u32 (round_up32 (u32 (page_offset + p_memsz phdr)) PGSIZE - read_bytes)
      else round_up32 (u32 (page_offset + p_memsz phdr)) PGSIZE in
    load_segment fp (s32 file_page) mem_page read_bytes zero_bytes writable
  else ret false.

(** [for (i = 0; i < ehdr.e_phnum; i++)], with [n] headers left. *)
Fixpoint load_phdrs (n : nat) (fp file_ofs : Z) : M (lstate F) bool :=
  match n with
  | O => ret true
  | S n =>
      let* bad := (if file_ofs <? 0 then ret true
                   else let* len := on_f (fs_length fp) in ret (file_ofs >? len)) in
      if bad : bool then ret false
      else
        on_f (fs_seek fp file_ofs);;;
        let* d := on_f (fs_read fp sizeof_phdr) in
        if negb (zlen d =? sizeof_phdr) then ret false
        else
          let phdr := phdr_of d in
          let* ok :=
            (if (p_type phdr =? PT_DYNAMIC) || (p_type phdr =? PT_INTERP) || (p_type phdr =? PT_SHLIB) then ret false
             else if p_type phdr =? PT_LOAD then load_phdr fp phdr
             else ret true) in
          if ok : bool then load_phdrs n fp (s32 (file_ofs + sizeof_phdr)) else ret false
  end.

(** process_activate(), for the thread that runs; the task state segment is not
    modelled. *)
Definition process_activate : M (lstate F) unit :=
  let* s := get in on_g (pagedir_activate (l_pagedir s)).

Definition good_ehdr (d : list Z) : bool :=
  let ehdr := ehdr_of d in
  (zlen d =? sizeof_ehdr) && bool_decide (take 7 (e_ident ehdr) = elf_magic) && (e_type ehdr =? 2)
  && (e_machine ehdr =? 3) && (e_version ehdr =? 1) && (e_phentsize ehdr =? sizeof_phdr)
  && negb (e_phnum ehdr >? 1024).

(** The entry point and the initial stack pointer. *)
Definition load (file_name : list Z) : M (lstate F) (option (Z * Z)) :=
  let* pd := on_g pagedir_create in
  modify (λ s, mk_lstate (lg s) (lf s) pd (l_process s));;;
  if pd =? 0 then ret None
  else
    process_activate;;;
    let* ofp := on_f (fs_open file_name) in
    modify (λ s, mk_lstate (lg s) (lf s) (l_pagedir s) ofp);;;
    match ofp with
    | None => ret None
    | Some fp =>
        let* d := on_f (fs_read fp sizeof_ehdr) in
        if negb (good_ehdr d) then ret None
        else
          on_f (fs_deny_write fp);;;
          let ehdr := ehdr_of d in
          let* ok := load_phdrs (Z.to_nat (e_phnum ehdr)) fp (s32 (e_phoff ehdr)) in
          if negb ok then ret None
          else
            let* oesp := setup_stack in
            match oesp with
            | None => ret None
            | Some esp => ret (Some (e_entry ehdr, esp))
            end
    end.

(** process_exit(), the part that gives the page directory back. *)
Definition process_exit_pagedir : M (lstate F) unit :=
  let* s := get in
  let pd := l_pagedir s in
  if negb (pd =? 0) then
    modify (λ s, mk_lstate (lg s) (lf s) 0 (l_process s));;;
    on_g (pagedir_activate 0);;;
    on_g (pagedir_destroy pd)
  else ret tt.

End load.

End Load.
