(* ===== verification/LoadSpec.v ===== *)
(** * LoadSpec: what a loaded executable looks like

    The image of an executable is defined from the bytes of the file alone:
    its program headers, the pages of each loadable segment and the byte at
    each of their addresses.  load() maps exactly that image and a zeroed page
    for the stack, refuses files that have none, and gives up for want of
    memory only; in every case the page directory owns every page the loader
    took. *)

From Stdlib Require Import ZArith Lia.
From stdpp Require Import base tactics option list numbers gmap.
From S2P Require Import Prelude Memory CString Bitmap Sched Synch Vaddr Palloc Pagedir AddrSpace Load.
Import Memory CString Bitmap.Bitmap Sched Synch Vaddr Palloc Pagedir AddrSpace Load.

Module LoadSpec.

(** ** Executables *)

(** The byte of the file [c] at [i]. *)
Definition byte_at (c : list Z) (i : Z) : Z := default 0 (c !! Z.to_nat i).

(** The pages of a segment: where they start, how long they are together, how
    many bytes come from the file and from where. *)
Definition seg_start (ph : Elf32_Phdr) : Z := p_vaddr ph / PGSIZE * PGSIZE.
Definition seg_len (ph : Elf32_Phdr) : Z := round_up (p_vaddr ph mod PGSIZE + p_memsz ph) PGSIZE.
Definition seg_read (ph : Elf32_Phdr) : Z := if 0 <? p_filesz ph then p_vaddr ph mod PGSIZE + p_filesz ph else 0.
Definition seg_file (ph : Elf32_Phdr) : Z := p_offset ph / PGSIZE * PGSIZE.
Definition seg_writable (ph : Elf32_Phdr) : bool := Z.testbit (p_flags ph) 1.
Definition seg_pages (ph : Elf32_Phdr) : list Z := seqZ (p_vaddr ph / PGSIZE) (seg_len ph / PGSIZE).

(** A segment that can be loaded from a file with the bytes [c]. *)
Record segment_valid (c : list Z) (ph : Elf32_Phdr) : Prop := {
  sv_align : p_offset ph mod PGSIZE = p_vaddr ph mod PGSIZE;
  sv_file : p_offset ph + p_filesz ph <= zlen c;
  sv_size : p_filesz ph <= p_memsz ph;
  sv_nonempty : 0 < p_memsz ph;
  sv_first : PGSIZE <= p_vaddr ph;
  sv_last : p_vaddr ph + p_memsz ph < PHYS_BASE
}.

(** [len] bytes at [upage]: [R] of them from the file at [p], then zeros. *)
Definition segment_byte (c : list Z) (upage p R : Z) (w : bool) (va : Z) : Z * bool :=
  (if va - upage <? R then byte_at c (p + (va - upage)) else 0, w).

Definition loads (phs : list Elf32_Phdr) : list Elf32_Phdr := filter (λ ph, p_type ph = PT_LOAD) phs.

(** The byte at [va] and the right to write it, after the segments [phs]. *)
Fixpoint image (c : list Z) (phs : list Elf32_Phdr) (va : Z) : option (Z * bool) :=
  match phs with
  | [] => None
  | ph :: phs =>
      if decide (pg_no va ∈ seg_pages ph)
      then Some (segment_byte c (seg_start ph) (seg_file ph) (seg_read ph) (seg_writable ph) va)
      else image c phs va
  end.

(** The [n] program headers at [ofs]. *)
Fixpoint headers (c : list Z) (n : nat) (ofs : Z) : option (list Elf32_Phdr) :=
  match n with
  | O => Some []
  | S n =>
      if decide (0 <= ofs ∧ ofs + sizeof_phdr <= zlen c)
      then cons (phdr_of (slice ofs sizeof_phdr c)) <$> headers c n (ofs + sizeof_phdr)
      else None
  end.

(** The headers of an executable. *)
Definition executable (c : list Z) : option (Elf32_Ehdr * list Elf32_Phdr) :=
  let d := take (Z.to_nat sizeof_ehdr) c in
  if good_ehdr d
  then pair (ehdr_of d) <$> headers c (Z.to_nat (e_phnum (ehdr_of d))) (s32 (e_phoff (ehdr_of d)))
  else None.

Definition unsupported (ph : Elf32_Phdr) : Prop :=
  p_type ph = PT_DYNAMIC ∨ p_type ph = PT_INTERP ∨ p_type ph = PT_SHLIB.

(** The segments can be loaded together. *)
Record fits (c : list Z) (phs : list Elf32_Phdr) : Prop := {
  fit_types : ∀ ph, ph ∈ phs → ¬ unsupported ph;
  fit_valid : ∀ ph, ph ∈ loads phs → segment_valid c ph;
  fit_apart : NoDup (flat_map seg_pages (loads phs))
}.

Definition stack_page : Z := PHYS_BASE - PGSIZE.

(** ... and leave the page of the stack alone. *)
Definition loadable (c : list Z) (phs : list Elf32_Phdr) : Prop :=
  fits c phs ∧ pg_no stack_page ∉ flat_map seg_pages (loads phs).

(** *** Facts about images *)

Lemma image_app c l1 l2 va :
  image c (l1 ++ l2) va = match image c l1 va with Some x => Some x | None => image c l2 va end.
Proof. induction l1 as [|ph l1 IH]; [done|]. cbn [app image]. by case_decide. Qed.

Lemma image_None c phs va : image c phs va = None ↔ pg_no va ∉ flat_map seg_pages phs.
Proof.
  induction phs as [|ph phs IH]; cbn [image flat_map]; [split; [|done]; intros _ H; inversion H|].
  rewrite not_elem_of_app. case_decide; [split; [done|]; by intros [? _]|]. rewrite IH. tauto.
Qed.

Lemma fits_prefix c l1 l2 : fits c (l1 ++ l2) → fits c l1.
Proof.
  intros [H1 H2 H3]. unfold loads in *. rewrite filter_app in *. rewrite flat_map_app in H3. split.
  - intros ph Hp. apply H1. apply elem_of_app. by left.
  - intros ph Hp. apply H2. apply elem_of_app. by left.
  - by apply NoDup_app in H3 as [? _].
Qed.

Lemma page_range upage n va : 0 <= upage → upage mod PGSIZE = 0 →
  pg_no va ∈ seqZ (upage / PGSIZE) n ↔ upage <= va < upage + PGSIZE * n.
Proof. intros H0 Ha. rewrite elem_of_seqZ, pg_no_div. unfold PGSIZE in *. dlia. Qed.

(** The pages of a segment in user memory. *)
Lemma seg_geometry c ph : 0 <= p_offset ph → 0 <= p_filesz ph → segment_valid c ph →
  PGSIZE <= seg_start ph ∧ seg_start ph mod PGSIZE = 0 ∧ seg_len ph = PGSIZE * (seg_len ph / PGSIZE) ∧
  seg_start ph <= p_vaddr ph ∧ p_vaddr ph + p_memsz ph <= seg_start ph + seg_len ph ∧
  seg_start ph + seg_len ph <= PHYS_BASE ∧ 0 < seg_len ph ∧ 0 <= seg_file ph <= zlen c ∧ 0 <= seg_read ph <= seg_len ph ∧
  seg_file ph + (p_vaddr ph - seg_start ph) = p_offset ph.
Proof.
  intros H0 H1 [Ha Hf Hs Hn Hlo Hhi]. unfold seg_start, seg_len, seg_file, seg_read, round_up, PGSIZE, PHYS_BASE in *.
  destruct (Z.ltb_spec 0 (p_filesz ph)); repeat split; dlia.
Qed.

Lemma seg_range c ph va : 0 <= p_offset ph → 0 <= p_filesz ph → segment_valid c ph →
  pg_no va ∈ seg_pages ph ↔ seg_start ph <= va < seg_start ph + seg_len ph.
Proof.
  intros H0 H1 Hv. destruct (seg_geometry c ph H0 H1 Hv) as (G1 & G2 & G3 & _).
  unfold seg_pages. replace (p_vaddr ph / PGSIZE) with (seg_start ph / PGSIZE)
    by (unfold seg_start, PGSIZE; dlia).
  rewrite (page_range (seg_start ph)) by (unfold PGSIZE in *; lia). by rewrite <- G3.
Qed.

Section spec.
Context {F : Type} `{!FileSystem F}.
Variable ram : Z.

(** The kernel's own page directory. *)
Variable kdir : Z.

(** The loader works for a process with the directory [pd]; [bl] are the other
    pages in use. *)
Record loading (s : lstate F) (bl : list (Z * Z)) (pd : Z) (pts : gmap nat (Z * list Z)) : Prop := {
  lo_dir : pdinv (lg s) (owned pd pts ++ bl) pd pts;
  lo_pagedir : l_pagedir s = pd;
  lo_kernel : init_page_dir (lg s) = kdir;
  lo_own : pd ≠ kdir;
  lo_ram : base (user_pool (gp (lg s))) + PGSIZE * bit_cnt (used_map (user_pool (gp (lg s)))) <= PHYS_BASE + PGSIZE * ram
}.

Definition lmem (s : lstate F) : gmap Z Z := memory (lg s).

(** No page of one of the pools is left. *)
Definition out_of_memory (s : lstate F) : Prop :=
  ∃ u bl, pinv (gp (lg s)) bl ∧ exhausted u (gp (lg s)) bl 1.

(** Nothing but the kernel memory changes. *)
Definition aside (s s' : lstate F) : Prop := lf s' = lf s ∧ l_process s' = l_process s.

Lemma on_g_ok {A} (m : M gstate A) (s : lstate F) a g :
  m (lg s) = Ok (a, g) → on_g m s = Ok (a, mk_lstate g (lf s) (l_pagedir s) (l_process s)).
Proof. intros E. unfold on_g, lift. by rewrite E. Qed.

Lemma loading_step s bl bl' pd pts pts' g :
  loading s bl pd pts → pdinv g (owned pd pts' ++ bl') pd pts' → init_page_dir g = init_page_dir (lg s) →
  unmoved (gp (lg s)) (gp g) → loading (mk_lstate g (lf s) (l_pagedir s) (l_process s)) bl' pd pts'.
Proof.
  intros [_ H2 H3 H4 H5] Hi Hn Hu. split; [done|done|cbn [lg]; by rewrite Hn|done|]. cbn [lg]. destruct (proj2 Hu true) as [Hb Hc].
  cbn [the_pool] in Hb, Hc. by rewrite Hb, Hc.
Qed.

(** ** Pages *)

Lemma frame_bounds s bl pd pts k : loading s bl pd pts → in_pool true (gp (lg s)) k 1 →
  PHYS_BASE <= k ∧ (k - PHYS_BASE) / PGSIZE < ram.
Proof.
  intros [Hi _ _ _ Hr] (_ & Ha & Hlo & Hhi). cbn [the_pool] in Hlo, Hhi. pose proof (pd_pinv _ _ _ _ Hi) as Hp.
  pose proof (pi_kernel_base _ _ Hp). pose proof (pi_disjoint _ _ Hp).
  destruct (po_wf _ _ (pi_pool _ _ Hp false)) as [[Hc _] _]. cbn [the_pool] in Hc. unfold PGSIZE, PHYS_BASE in *.
  split; [lia|]. dlia.
Qed.

(** install_page() maps a frame of the caller, or leaves it to the caller. *)
Lemma install_page_ok s bl pd pts upage k w :
  loading s ((k, 1) :: bl) pd pts → in_pool true (gp (lg s)) k 1 → 0 <= upage < PHYS_BASE → upage mod PGSIZE = 0 →
  ∃ ok s' pts', install_page ram upage k w s = Ok (ok, s') ∧ aside s s' ∧ in_pool true (gp (lg s')) k 1 ∧
    if ok : bool then
      loading s' bl pd pts' ∧ mapping (entry pts upage) = None ∧
      ∀ va, 0 <= va < PHYS_BASE → user_byte (lmem s') pts' va =
        if pg_no va =? pg_no upage then (λ b, (b, w)) <$> lmem s !! (k + pg_ofs va) else user_byte (lmem s) pts va
    else loading s' ((k, 1) :: bl) pd pts ∧
      (user_byte (lmem s) pts upage ≠ None ∨ exhausted false (gp (lg s')) (owned pd pts ++ (k, 1) :: bl) 1).
Proof.
  intros Hl Hin Hu Hua. destruct (frame_bounds _ _ _ _ _ Hl Hin) as [Hk Hr]. pose proof Hl as [Hi Hpd Hkd Hne _].
  unfold install_page. rewrite bind_get, Hpd.
  pose proof (get_page_ok _ _ _ _ upage Hi Hu) as Eg. rewrite pg_ofs_mod, Hua in Eg.
  rewrite (bind_ok _ _ _ _ _ (on_g_ok _ s _ _ Eg)). replace (mk_lstate (lg s) (lf s) (l_pagedir s) (l_process s)) with s by (by destruct s).
  destruct (mapping (entry pts upage)) as [[k' w']|] eqn:Em.
  - pose proof (entry_owned pts upage k' w' Hu Em) as Hf.
    destruct (block_page (lg s) _ k' (pd_pinv _ _ _ _ Hi)) as (_ & Hk' & _);
      [eapply others_page; apply elem_of_app; by left|].
    rewrite (proj2 (Z.eqb_neq _ 0)) by lia. exists false, s, pts. split; [done|]. split; [done|]. split; [done|].
    split; [done|]. left. rewrite (user_byte_None _ _ _ _ _ Hi Hu). by rewrite Em.
  - rewrite Z.eqb_refl.
    destruct (map_frame ram (lg s) bl pd pts upage k w Hi Hu Hua Em Hk Hr ltac:(by rewrite Hkd))
      as (r & g & pts' & E & Hn & Hun & Hkept & Hcase).
    exists r, (mk_lstate g (lf s) (l_pagedir s) (l_process s)), pts'. split; [by apply on_g_ok|]. split; [done|].
    split; [by apply (in_pool_unmoved true (gp (lg s)))|]. destruct r.
    + destruct Hcase as [Hi' Hm]. split; [by eapply loading_step|]. split; [done|].
      intros va Hva. unfold user_byte at 1. rewrite Hm by done. pose proof (pg_ofs_range va).
      destruct (Z.eqb_spec (pg_no va) (pg_no upage)) as [Hp|Hp].
      * change (lmem (mk_lstate g _ _ _)) with (memory g). rewrite (Hkept k); [done| |lia].
        apply elem_of_app. right. left.
      * fold (user_byte (memory g) pts va). apply user_byte_kept; [done|].
        eapply bytes_kept_sub; [|exact Hkept]. intros p Hp'. apply elem_of_app. by left.
    + destruct Hcase as (-> & Hi' & Hex). split; [by eapply loading_step|by right].
Qed.

(** Giving the frame back. *)
Lemma give_back s bl pd pts k : loading s ((k, 1) :: bl) pd pts →
  ∃ s', on_g (on_p (palloc_free_page k)) s = Ok (tt, s') ∧ aside s s' ∧ loading s' bl pd pts ∧
    (in_pool true (gp (lg s)) k 1 → exhausted false (gp (lg s)) (owned pd pts ++ (k, 1) :: bl) 1 → out_of_memory s').
Proof.
  intros Hl. pose proof Hl as [Hi _ _ _ _]. destruct (free_frame _ _ _ _ _ Hi) as (g & E & Hn & Hun & Hi' & Hkept).
  eexists. split; [by apply on_g_ok|]. split; [done|]. split; [by eapply loading_step|].
  intros Hin Hex. exists false, (owned pd pts ++ bl). split; [apply Hi'|].
  apply (exhausted_unmoved _ (gp (lg s))); [done|].
  assert (∀ x, x ∈ pages_of (owned pd pts ++ (k, 1) :: bl) ↔ x ∈ pages_of ((k, 1) :: owned pd pts ++ bl)) as Hpg.
  { intros x. by rewrite (pages_of_perm _ ((k, 1) :: owned pd pts ++ bl)) by (by rewrite <- Permutation_middle). }
  apply (exhausted_kernel _ k); [|done|].
  - eapply pinv_proper; [|apply Hi]. by rewrite <- Permutation_middle.
  - intros a Ha. destruct (Hex a Ha) as (x & Hx & Hxin). exists x. by rewrite <- Hpg.
Qed.

(** ** Filling a page *)

(** [s] with other memory. *)
Definition with_lmem (m : gmap Z Z) (s : lstate F) : lstate F :=
  mk_lstate (with_mem m (lg s)) (lf s) (l_pagedir s) (l_process s).

(** A write of [d] at offset [o] of a frame of the caller. *)
Lemma write_page {A} (c : M mem A) s bl pd pts k o d a :
  loading s ((k, 1) :: bl) pd pts → 0 <= o → o + zlen d <= PGSIZE →
  (0 < k → mapped (lmem s) (k + o) (zlen d) → c (lmem s) = Ok (a, Memory.store (lmem s) (k + o) d)) →
  on_g (on_p (on_mem c)) s = Ok (a, with_lmem (Memory.store (lmem s) (k + o) d) s) ∧
  loading (with_lmem (Memory.store (lmem s) (k + o) d) s) ((k, 1) :: bl) pd pts ∧
  bytes_kept (owned pd pts ++ bl) (lmem s) (Memory.store (lmem s) (k + o) d).
Proof.
  intros Hl Ho Hd Hc. pose proof Hl as [Hi _ _ _ _]. pose proof (pd_pinv _ _ _ _ Hi) as Hp.
  assert ((k, 1) ∈ owned pd pts ++ (k, 1) :: bl) as Hin by (apply elem_of_app; right; left).
  destruct (block_page _ _ _ Hp Hin) as (_ & Hk & _).
  assert (mapped (lmem s) (k + o) (zlen d)) as Hm by (intros x Hx; apply (block_mapped _ _ k _ Hp Hin); lia).
  destruct (write_frame (lg s) bl pd pts k (Memory.store (lmem s) (k + o) d)) as [Hi' Hkept]; [done| | |].
  - intros x Hx. apply store_out. lia.
  - intros x Hx. rewrite lookup_store. case_decide; [|done]. apply lookup_lt_is_Some. unfold zlen in *. lia.
  - split; [|split; [by eapply loading_step|done]]. unfold on_g, on_p, on_mem, lift. fold (memory (lg s)) (lmem s).
    by rewrite (Hc Hk Hm).
Qed.

Lemma Forall_slice {A} (P : A → Prop) o n (l : list A) : Forall P l → Forall P (slice o n l).
Proof. intros Hl. unfold slice. by apply Forall_take, Forall_drop. Qed.

Section file.
Context (fp : Z) (c : list Z).
Context (Hc : Forall in_u8 c).

Lemma read_into_ok s bl pd pts k n p :
  loading s ((k, 1) :: bl) pd pts → fs_file (lf s) fp c p → 0 <= p <= zlen c → 0 <= n <= PGSIZE →
  wp (read_into fp k n) (λ got s', got = Z.min n (zlen c - p) ∧ loading s' ((k, 1) :: bl) pd pts ∧
    fs_file (lf s') fp c (p + got) ∧ l_process s' = l_process s ∧ unmoved (gp (lg s)) (gp (lg s')) ∧
    bytes_kept (owned pd pts ++ bl) (lmem s) (lmem s') ∧
    ∀ i, 0 <= i < got → lmem s' !! (k + i) = c !! Z.to_nat (p + i)) s.
Proof.
  intros Hl Hf Hp Hn. unfold read_into. apply wp_bind. unfold on_f. apply wp_lift.
  destruct (wp_inv _ _ _ (fs_read_ok (lf s) fp c p n Hf Hp ltac:(lia))) as (d & f' & E & Hd & Hf').
  apply (wp_ok _ _ _ _ _ E). set (s1 := mk_lstate (lg s) f' (l_pagedir s) (l_process s)).
  assert (zlen d = Z.min n (zlen c - p)) as Hz by (rewrite Hd, zlen_slice by lia; lia).
  assert (loading s1 ((k, 1) :: bl) pd pts) as Hl1 by (destruct Hl; by split).
  destruct (write_page (wr_bytes k d) s1 bl pd pts k 0 d tt Hl1) as (E1 & Hl2 & Hkept); [lia|lia| |].
  { intros _ Hm. rewrite Z.add_0_r in *. apply wr_bytes_ok; [rewrite Hd; by apply Forall_slice|done]. }
  apply wp_bind, (wp_ok _ _ _ _ _ E1), wp_ret. rewrite Z.add_0_r in *.
  split; [done|]. split; [done|]. split; [done|]. split; [done|]. split; [by split|]. split; [done|].
  intros i Hi. change (lmem (with_lmem _ _)) with (Memory.store (lmem s) k d).
  rewrite lookup_store, decide_True by lia. replace (k + i - k) with i by lia.
  rewrite Hd, lookup_slice by lia. f_equal. lia.
Qed.

Lemma zero_rest s bl pd pts k n : loading s ((k, 1) :: bl) pd pts → 0 <= n <= PGSIZE →
  ∃ s' a, on_g (on_p (on_mem (memset (k + n) 0 (PGSIZE - n)))) s = Ok (a, s') ∧ loading s' ((k, 1) :: bl) pd pts ∧
    aside s s' ∧ unmoved (gp (lg s)) (gp (lg s')) ∧ bytes_kept (owned pd pts ++ bl) (lmem s) (lmem s') ∧
    (∀ i, 0 <= i < n → lmem s' !! (k + i) = lmem s !! (k + i)) ∧
    ∀ i, n <= i < PGSIZE → lmem s' !! (k + i) = Some 0.
Proof.
  intros Hl Hn. set (d := replicate (Z.to_nat (PGSIZE - n)) 0).
  assert (zlen d = PGSIZE - n) as Hz by (unfold d, zlen; rewrite length_replicate; lia).
  destruct (write_page (memset (k + n) 0 (PGSIZE - n)) s bl pd pts k n d (k + n) Hl) as (E & Hl' & Hkept); [lia|lia| |].
  { intros Hk Hm. rewrite Hz in Hm. by rewrite memset_ok by (done || lia). }
  eexists _, _. split; [exact E|]. split; [done|]. split; [done|]. split; [by split|]. split; [done|].
  change (lmem (with_lmem ?m _)) with m. split; intros i Hi.
  - apply store_out. lia.
  - rewrite lookup_store, decide_True by lia. unfold d. apply lookup_replicate_2. lia.
Qed.

(** ** Segments *)

(** What an attempt to add the segment has done. *)
Definition segment_outcome (bl : list (Z * Z)) (pd upage len p R : Z) (w : bool)
    (s : lstate F) (pts : gmap nat (Z * list Z)) (ok : bool) (s' : lstate F) : Prop :=
  ∃ pts' p', loading s' bl pd pts' ∧ fs_file (lf s') fp c p' ∧ l_process s' = l_process s ∧
    if ok then
      (0 < R → p + R <= zlen c) ∧ (∀ va, upage <= va < upage + len → user_byte (lmem s) pts va = None) ∧
      ∀ va, 0 <= va < PHYS_BASE → user_byte (lmem s') pts' va =
        if decide (upage <= va < upage + len) then Some (segment_byte c upage p R w va) else user_byte (lmem s) pts va
    else (0 < R ∧ zlen c < p + R) ∨ (∃ va, upage <= va < upage + len ∧ user_byte (lmem s) pts va ≠ None) ∨ out_of_memory s'.

(** One page of a segment, in the frame [k]. *)
Definition page_filled (s : lstate F) (k p n : Z) : Prop :=
  ∀ i, 0 <= i < PGSIZE → lmem s !! (k + i) = Some (if i <? n then byte_at c (p + i) else 0).

Lemma same_page upage va : 0 <= upage → upage mod PGSIZE = 0 →
  (pg_no va =? pg_no upage) = bool_decide (upage <= va < upage + PGSIZE) ∧
  (upage <= va < upage + PGSIZE → pg_ofs va = va - upage).
Proof.
  intros H0 Ha. rewrite !pg_no_div, pg_ofs_mod. split.
  - apply eq_bool_prop_intro. rewrite Is_true_true, Z.eqb_eq, bool_decide_spec. unfold PGSIZE in *. dlia.
  - unfold PGSIZE in *. dlia.
Qed.

(** The page is added, then the rest of the segment. *)
Lemma segment_cons bl pd upage len p R w s pts s1 pts1 ok s' :
  let n := Z.min R PGSIZE in
  0 <= upage → upage mod PGSIZE = 0 → 0 <= R → PGSIZE <= len → p + n <= zlen c →
  mapping (entry pts upage) = None →
  (∀ va, 0 <= va < PHYS_BASE → user_byte (lmem s1) pts1 va =
     if pg_no va =? pg_no upage then Some (if pg_ofs va <? n then byte_at c (p + pg_ofs va) else 0, w)
     else user_byte (lmem s) pts va) →
  l_process s1 = l_process s → upage + len <= PHYS_BASE →
  segment_outcome bl pd (upage + PGSIZE) (len - PGSIZE) (p + n) (R - n) w s1 pts1 ok s' →
  segment_outcome bl pd upage len p R w s pts ok s'.
Proof.
  intros n H0 Ha HR Hlen Hpn Hfree Hub Hpr Hend (pts' & p' & Hl & Hf & Hpr' & Hok).
  exists pts', p'. split; [done|]. split; [done|]. split; [congruence|].
  assert (∀ va, 0 <= va < PHYS_BASE → ¬ upage <= va < upage + PGSIZE → user_byte (lmem s1) pts1 va = user_byte (lmem s) pts va)
    as Hother.
  { intros va Hva Hn. rewrite Hub by done. destruct (same_page upage va H0 Ha) as [-> _].
    by rewrite bool_decide_false. }
  assert (∀ va, upage <= va < upage + PGSIZE → user_byte (lmem s) pts va = None ∧
    user_byte (lmem s1) pts1 va = Some (segment_byte c upage p R w va)) as Hfirst.
  { intros va Hva. destruct (same_page upage va H0 Ha) as [Hs Ho]. rewrite Hub by lia. rewrite Hs, bool_decide_true by done.
    rewrite bool_decide_true in Hs by done. apply Z.eqb_eq in Hs. split; [|rewrite Ho by done].
    - unfold user_byte. by rewrite (entry_page pts va upage Hs), Hfree.
    - unfold segment_byte. do 2 f_equal. destruct (Z.ltb_spec (va - upage) n), (Z.ltb_spec (va - upage) R); (done || lia). }
  assert (0 < PGSIZE) by done. destruct ok.
  - destruct Hok as (Hb & Hnone & Hall). split; [lia|]. split.
    + intros va Hva. destruct (decide (va < upage + PGSIZE)); [apply Hfirst; lia|].
      rewrite <- Hother by lia. apply Hnone. lia.
    + intros va Hva. rewrite Hall by done. case_decide as Hd.
      * rewrite decide_True by lia. f_equal. unfold segment_byte. f_equal.
        destruct (Z.ltb_spec (va - (upage + PGSIZE)) (R - n)), (Z.ltb_spec (va - upage) R); try (done || lia).
        f_equal. lia.
      * case_decide; [by apply Hfirst; lia|]. apply Hother; [done|lia].
  - destruct Hok as [[HR' Hshort]|[(va & Hva & Hne)|Hoom]].
    + left. lia.
    + right. left. exists va. split; [lia|]. by rewrite <- Hother by lia.
    + by right; right.
Qed.

Lemma segment_failed bl pd upage len p R w s pts s' pts' p' :
  loading s' bl pd pts' → fs_file (lf s') fp c p' → l_process s' = l_process s →
  (0 < R ∧ zlen c < p + R) ∨ (∃ va, upage <= va < upage + len ∧ user_byte (lmem s) pts va ≠ None) ∨ out_of_memory s' →
  segment_outcome bl pd upage len p R w s pts false s'.
Proof. intros Hl Hf Hp Hw. by exists pts', p'. Qed.

Lemma take_page flags s bl pd pts : has flags PAL_USER = true → has flags PAL_ASSERT = false →
  loading s bl pd pts →
  ∃ k s', on_g (on_p (palloc_get_page flags)) s = Ok (k, s') ∧ aside s s' ∧
    bytes_kept (owned pd pts ++ bl) (lmem s) (lmem s') ∧
    (k = 0 ∧ loading s' bl pd pts ∧ out_of_memory s' ∨
     k ≠ 0 ∧ in_pool true (gp (lg s')) k 1 ∧ loading s' ((k, 1) :: bl) pd pts ∧
     (has flags PAL_ZERO = true → zeroed (lmem s') k PGSIZE)).
Proof.
  intros Hu Ha Hl. pose proof Hl as [Hi _ _ _ _].
  destruct (take_frame flags (lg s) bl pd pts Hu Ha Hi) as (k & g & E & Hn & Hun & Hk & Hcase).
  eexists k, _. split; [by apply on_g_ok|]. split; [done|]. split; [done|].
  destruct Hcase as [(-> & Hi' & Hex)|(Hne & Hin & Hi' & Hz)]; [left|right].
  - split; [done|]. split; [by eapply loading_step|]. exists true, (owned pd pts ++ bl). split; [apply Hi'|done].
  - split; [done|]. split; [done|]. split; [by eapply loading_step|done].
Qed.

Lemma frames_owned pd pts bl p : p ∈ all_frames pts → p ∈ owned pd pts ++ bl.
Proof. intros Hp. rewrite owned_split, <- app_assoc. apply elem_of_app. by left. Qed.

(** The last steps for one page: the filled frame [k] is installed, and the
    rest of the segment follows. *)
Lemma segment_install bl pd upage len p R w s pts s3 k (K : M (lstate F) bool) :
  let n := Z.min R PGSIZE in
  loading s3 ((k, 1) :: bl) pd pts → in_pool true (gp (lg s3)) k 1 → fs_file (lf s3) fp c (p + n) →
  l_process s3 = l_process s → page_filled s3 k p n →
  (∀ va, 0 <= va < PHYS_BASE → user_byte (lmem s3) pts va = user_byte (lmem s) pts va) →
  0 <= upage → upage mod PGSIZE = 0 → 0 <= R → PGSIZE <= len → p + n <= zlen c → upage + len <= PHYS_BASE →
  (∀ s4 pts4, loading s4 bl pd pts4 → fs_file (lf s4) fp c (p + n) →
     wp K (segment_outcome bl pd (upage + PGSIZE) (len - PGSIZE) (p + n) (R - n) w s4 pts4) s4) →
  wp (let* ok := install_page ram upage k w in
      if negb ok then on_g (on_p (palloc_free_page k));;; ret false else K)
     (segment_outcome bl pd upage len p R w s pts) s3.
Proof.
  intros n Hl3 Hin3 Hf3 Hp3 Hfill Hsame H0 Ha HR Hlen Hpn Hend HK. assert (0 < PGSIZE) by done.
  destruct (install_page_ok s3 bl pd pts upage k w Hl3 Hin3) as (ok & s4 & pts4 & E4 & [Hf4 Hp4] & Hin4 & Hcase);
    [lia|done|].
  apply wp_bind, (wp_ok _ _ _ _ _ E4). destruct ok; cbn [negb].
  - destruct Hcase as (Hl4 & Hnone & Hub). eapply wp_mono; [apply (HK s4 pts4); [done|by rewrite Hf4]|].
    intros ok s' Ho. eapply (segment_cons bl pd upage len p R w s pts s4 pts4); try done; [|congruence].
    intros va Hva. rewrite Hub by done. pose proof (pg_ofs_range va).
    destruct (_ =? _); [by rewrite Hfill by lia|by apply Hsame].
  - destruct Hcase as [Hl4 Hwhy].
    destruct (give_back s4 bl pd pts k Hl4) as (s5 & E5 & [Hf5 Hp5] & Hl5 & Hoom).
    apply wp_bind, (wp_ok _ _ _ _ _ E5), wp_ret.
    eapply segment_failed; [done|by rewrite Hf5, Hf4|congruence|right].
    destruct Hwhy as [Hmapped|Hex]; [left; exists upage|right; by apply Hoom].
    split; [lia|]. rewrite <- Hsame; [done|lia].
Qed.

Lemma segment_loop_ok bl pd w : ∀ n upage R Zb p s pts,
  loading s bl pd pts → fs_file (lf s) fp c p → 0 <= p <= zlen c → 0 <= R → 0 <= Zb → R + Zb = PGSIZE * Z.of_nat n →
  0 <= upage → upage mod PGSIZE = 0 → upage + PGSIZE * Z.of_nat n <= PHYS_BASE →
  wp (segment_loop ram n fp upage R Zb w) (segment_outcome bl pd upage (PGSIZE * Z.of_nat n) p R w s pts) s.
Proof.
  induction n as [|n IH]; intros upage R Zb p s pts Hl Hf Hp HR HZ Hsum H0 Ha Hend; cbn [segment_loop].
  { rewrite !Z.gtb_ltb, (proj2 (Z.ltb_ge 0 R)), (proj2 (Z.ltb_ge 0 Zb)) by (unfold PGSIZE in *; lia). apply wp_ret.
    exists pts, p. split; [done|]. split; [done|]. split; [done|]. split; [unfold PGSIZE in *; lia|].
    split; [intros va Hva; unfold PGSIZE in *; lia|]. intros va Hva. by rewrite decide_False by (unfold PGSIZE in *; lia). }
  assert ((R >? 0) || (Zb >? 0) = true) as ->.
  { apply orb_true_iff. rewrite !Z.gtb_lt. unfold PGSIZE in *. lia. }
  set (m := if R <? PGSIZE then R else PGSIZE).
  assert (m = Z.min R PGSIZE) as Hm by (unfold m; destruct (Z.ltb_spec R PGSIZE); lia). clearbody m. subst m.
  set (m := Z.min R PGSIZE). assert (0 < PGSIZE) by done. set (len := PGSIZE * Z.of_nat (S n)) in *.
  destruct (take_page PAL_USER s bl pd pts eq_refl eq_refl Hl) as (k & s1 & E1 & [Hf1 Hp1] & Hk1 & Hcase).
  apply wp_bind, (wp_ok _ _ _ _ _ E1).
  destruct Hcase as [(-> & Hl1 & Hoom)|(Hk0 & Hin1 & Hl1 & _)].
  { rewrite Z.eqb_refl. apply wp_ret. eapply segment_failed; [done|by rewrite Hf1|done|by right; right]. }
  rewrite (proj2 (Z.eqb_neq k 0)) by done. apply wp_bind.
  eapply wp_mono; [apply (read_into_ok s1 bl pd pts k m p); [done|by rewrite Hf1|done|lia]|].
  intros got s2 (Egot & Hl2 & Hf2 & Hp2 & Hun2 & Hk2 & Hd2). cbv beta.
  assert (in_pool true (gp (lg s2)) k 1) as Hin2 by (by apply (in_pool_unmoved true (gp (lg s1)))).
  destruct (Z.eqb_spec got m) as [Egm|Hshort]; cbn [negb].
  2: { destruct (give_back s2 bl pd pts k Hl2) as (s3 & E3 & [Hf3 Hp3] & Hl3 & _).
       apply wp_bind, (wp_ok _ _ _ _ _ E3), wp_ret.
       eapply segment_failed; [done|by rewrite Hf3|congruence|left; lia]. }
  destruct (zero_rest s2 bl pd pts k m Hl2 ltac:(lia)) as (s3 & a3 & E3 & Hl3 & [Hf3 Hp3] & Hun3 & Hk3 & Hd3 & Hz3).
  apply wp_bind, (wp_ok _ _ _ _ _ E3). cbv beta.
  assert (page_filled s3 k p m) as Hfill.
  { intros i Hi. destruct (Z.ltb_spec i m); [|apply Hz3; lia]. rewrite Hd3, Hd2 by lia. unfold byte_at.
    destruct (lookup_lt_is_Some_2 c (Z.to_nat (p + i))) as [b Hb]; [unfold zlen in *; lia|]. by rewrite Hb. }
  assert (∀ va, 0 <= va < PHYS_BASE → user_byte (lmem s3) pts va = user_byte (lmem s) pts va) as Hsame.
  { intros va Hva. apply user_byte_kept; [done|]. eapply bytes_kept_sub; [intros q; apply (frames_owned pd)|].
    eapply bytes_kept_trans; [exact Hk1|]. eapply bytes_kept_trans; [exact Hk2|exact Hk3]. }
  apply segment_install; try done; try (unfold len in *; lia).
  - by apply (in_pool_unmoved true (gp (lg s2))).
  - rewrite Hf3. by rewrite Egm in Hf2.
  - congruence.
  - intros s4 pts4 Hl4 Hf4. rewrite !u32_small by (unfold in_u32, len, PGSIZE, PHYS_BASE in *; lia).
    replace (len - PGSIZE) with (PGSIZE * Z.of_nat n) by (unfold len, PGSIZE; lia).
    apply IH; try done; unfold len, PGSIZE in *; lia || dlia.
Qed.

(** A call of the file system. *)
Lemma wp_on_f {A} (m : M F A) Q s bl pd pts : loading s bl pd pts →
  wp m (λ a f', ∀ s1, loading s1 bl pd pts → lmem s1 = lmem s → l_process s1 = l_process s → f' = lf s1 → Q a s1) (lf s) →
  wp (on_f m) Q s.
Proof.
  intros Hl Hw. unfold on_f. apply wp_lift. eapply wp_mono; [exact Hw|]. intros a f' HQ.
  apply HQ; try done. destruct Hl; by split.
Qed.

(** ** Program headers *)

(** The members of a header read from a file. *)
Record phdr_ok (ph : Elf32_Phdr) : Prop := {
  ok_offset : in_u32 (p_offset ph);
  ok_vaddr : in_u32 (p_vaddr ph);
  ok_filesz : in_u32 (p_filesz ph);
  ok_memsz : in_u32 (p_memsz ph);
  ok_flags : 0 <= p_flags ph
}.

(** The checks of validate_segment(), without wrap-around. *)
Definition checks (ph : Elf32_Phdr) : Prop :=
  p_offset ph mod PGSIZE = p_vaddr ph mod PGSIZE ∧ p_offset ph <= zlen c ∧ p_filesz ph <= p_memsz ph ∧
  0 < p_memsz ph ∧ PGSIZE <= p_vaddr ph ∧ p_vaddr ph + p_memsz ph < PHYS_BASE.

Lemma validate_segment_ok s ph p : phdr_ok ph → fs_file (lf s) fp c p →
  wp (validate_segment ph fp) (λ ok s', (ok = true ↔ checks ph) ∧ fs_file (lf s') fp c p ∧ lg s' = lg s ∧
    l_pagedir s' = l_pagedir s ∧ l_process s' = l_process s) s.
Proof.
  intros [Ho Hv Hfz Hm _] Hf. unfold validate_segment, checks. pose proof (fs_size _ _ _ _ Hf) as Hsz.
  change (2 ^ 31) with 2147483648 in Hsz. pose proof (zlen_nonneg c).
  fold (pg_ofs (p_offset ph)) (pg_ofs (p_vaddr ph)). rewrite !pg_ofs_mod. unfold in_u32 in *.
  destruct (Z.eqb_spec (p_offset ph mod PGSIZE) (p_vaddr ph mod PGSIZE)) as [Ea|Ea]; cbn [negb].
  2: { apply wp_ret. split; [split; [done|by intros [? _]]|done]. }
  apply wp_bind. unfold on_f. apply wp_lift. eapply wp_mono; [by apply (fs_length_ok (lf s) fp c p)|].
  intros len f' [-> Hf']. cbv beta. rewrite u32_small by (unfold in_u32; lia). unfold is_user_vaddr.
  assert (∀ (b : bool) (s' : lstate F), (b = true ↔ checks ph) → s' = mk_lstate (lg s) f' (l_pagedir s) (l_process s) →
    wp (ret b) (λ ok s', (ok = true ↔ checks ph) ∧ fs_file (lf s') fp c p ∧ lg s' = lg s ∧
      l_pagedir s' = l_pagedir s ∧ l_process s' = l_process s) s') as Hret by (intros b s' Hb ->; by apply wp_ret).
  unfold checks in Hret. set (e := u32 (p_vaddr ph + p_memsz ph)).
  assert ((p_vaddr ph + p_memsz ph < 4294967296 ∧ e = p_vaddr ph + p_memsz ph) ∨
          (4294967296 <= p_vaddr ph + p_memsz ph ∧ e = p_vaddr ph + p_memsz ph - 4294967296)) as He
    by (unfold e, u32; destruct (Z.ltb_spec (p_vaddr ph + p_memsz ph) 4294967296); dlia).
  rewrite Z.gtb_ltb. unfold PHYS_BASE, PGSIZE in *.
  clearbody e.
  repeat match goal with
  | |- context [if ?x <? ?y then ret _ else _] => destruct (Z.ltb_spec x y)
  | |- context [if negb (?x <? ?y) then ret _ else _] => destruct (Z.ltb_spec x y); cbn [negb]
  | |- context [if ?x =? ?y then ret _ else _] => destruct (Z.eqb_spec x y)
  | |- wp (ret _) _ _ => apply Hret; [split; [intros [=]|intros (_ & ? & ? & ? & ? & ?)]; try lia|done]
  end.
Qed.

Lemma writable_bit f : negb (Z.land f PF_W =? 0) = Z.testbit f 1.
Proof.
  assert (Z.land f PF_W = if Z.testbit f 1 then 2 else 0) as ->; [|by destruct (Z.testbit f 1)].
  apply Z.bits_inj'. intros i Hi. rewrite Z.land_spec. destruct (decide (i = 1)) as [->|Hne].
  - change (Z.testbit PF_W 1) with true. rewrite andb_true_r. by destruct (Z.testbit f 1).
  - assert (Z.testbit PF_W i = false) as ->; [|rewrite andb_false_r; destruct (Z.testbit f 1)].
    all: change PF_W with (2 ^ 1); change 2 with (2 ^ 1); rewrite ?Z.pow2_bits_false by done; try done.
    by rewrite Z.bits_0.
Qed.

(** The arithmetic of the caller of load_segment(). *)
Lemma load_phdr_eq ph s : phdr_ok ph → checks ph →
  (let writable := negb (Z.land (p_flags ph) PF_W =? 0) in
   let file_page := Z.land (p_offset ph) (u32 (Z.lnot PGMASK)) in
   let mem_page := Z.land (p_vaddr ph) (u32 (Z.lnot PGMASK)) in
   let page_offset := Z.land (p_vaddr ph) PGMASK in
   let read_bytes := if p_filesz ph >? 0 then u32 (page_offset + p_filesz ph) else 0 in
   let zero_bytes :=
     if p_filesz ph >? 0 then u32 (round_up32 (u32 (page_offset + p_memsz ph)) PGSIZE - read_bytes)
     else round_up32 (u32 (page_offset + p_memsz ph)) PGSIZE in
   load_segment ram fp (s32 file_page) mem_page read_bytes zero_bytes writable) s =
  load_segment ram fp (s32 (seg_file ph)) (seg_start ph) (seg_read ph) (seg_len ph - seg_read ph) (seg_writable ph) s.
Proof.
  intros [Ho Hv Hfz Hm _] (Ha & _ & Hsz & Hn & Hlo & Hhi). rewrite writable_bit.
  change (u32 (Z.lnot PGMASK)) with PTE_ADDR. rewrite !land_page_bits by done.
  fold (pg_ofs (p_vaddr ph)). rewrite pg_ofs_mod. unfold seg_writable, seg_read, seg_start, seg_file, seg_len, round_up32.
  unfold in_u32, PGSIZE, PHYS_BASE in *. cbv zeta. rewrite Z.gtb_ltb.
  assert (round_up (p_vaddr ph mod 4096 + p_memsz ph) 4096 =
    u32 (u32 (u32 (p_vaddr ph mod 4096 + p_memsz ph) + 4096 - 1) / 4096 * 4096)) as Hr.
  { set (e := p_vaddr ph mod 4096 + p_memsz ph). assert (0 <= e < 3221225472) by (unfold e; dlia).
    rewrite (u32_small e) by (unfold in_u32; lia). rewrite (u32_small (e + 4096 - 1)) by (unfold in_u32; lia).
    unfold round_up. rewrite u32_small; [done|]. unfold in_u32. dlia. }
  rewrite <- Hr. replace (p_offset ph - p_offset ph mod 4096) with (p_offset ph / 4096 * 4096) by dlia.
  replace (p_vaddr ph - p_vaddr ph mod 4096) with (p_vaddr ph / 4096 * 4096) by dlia.
  destruct (Z.ltb_spec 0 (p_filesz ph)); [|by rewrite Z.sub_0_r].
  assert (in_u32 (p_vaddr ph mod 4096 + p_filesz ph)) as Hur by (unfold in_u32; dlia).
  rewrite (u32_small (p_vaddr ph mod 4096 + p_filesz ph)) by done.
  rewrite (u32_small (round_up _ _ - _)); [done|]. unfold in_u32, round_up. dlia.
Qed.

(** Memory looks like [im]. *)
Definition shows (s : lstate F) (pts : gmap nat (Z * list Z)) (im : Z → option (Z * bool)) : Prop :=
  ∀ va, 0 <= va < PHYS_BASE → user_byte (lmem s) pts va = im va.

Lemma checks_valid ph : checks ph → (0 < seg_read ph → seg_file ph + seg_read ph <= zlen c) →
  0 <= p_filesz ph → segment_valid c ph.
Proof.
  intros (Ha & Ho & Hs & Hn & Hlo & Hhi) Hr H0. split; try done. unfold seg_read, seg_file in Hr.
  destruct (Z.ltb_spec 0 (p_filesz ph)); [|lia]. unfold PGSIZE in *. dlia.
Qed.

Lemma load_segment_ok ph bl pd s pts p : phdr_ok ph → checks ph → loading s bl pd pts → fs_file (lf s) fp c p →
  wp (load_segment ram fp (s32 (seg_file ph)) (seg_start ph) (seg_read ph) (seg_len ph - seg_read ph) (seg_writable ph))
     (segment_outcome bl pd (seg_start ph) (seg_len ph) (seg_file ph) (seg_read ph) (seg_writable ph) s pts) s.
Proof.
  intros Hok (Ha & Ho & Hs & Hn & Hlo & Hhi) Hl Hf. pose proof (fs_size _ _ _ _ Hf) as Hsz. change (2 ^ 31) with 2147483648 in Hsz.
  assert (0 <= seg_file ph <= p_offset ph ∧ seg_file ph mod PGSIZE = 0 ∧ PGSIZE <= seg_start ph ∧ seg_start ph mod PGSIZE = 0 ∧
    seg_len ph = PGSIZE * (seg_len ph / PGSIZE) ∧ 0 <= seg_read ph <= seg_len ph ∧ seg_start ph + seg_len ph <= PHYS_BASE)
    as (G1 & G2 & G3 & G4 & G5 & G6 & G7).
  { destruct Hok as [K1 K2 K3 K4 _]. unfold seg_start, seg_len, seg_file, seg_read, round_up, in_u32, PGSIZE, PHYS_BASE in *.
    destruct (Z.ltb_spec 0 (p_filesz ph)); repeat split; dlia. }
  unfold load_segment. rewrite (s32_small (seg_file ph)) by (unfold in_s32; lia).
  replace (seg_read ph + (seg_len ph - seg_read ph)) with (seg_len ph) by lia.
  assert (in_u32 (seg_len ph)) as Hu by (unfold in_u32, PHYS_BASE, PGSIZE in *; lia). rewrite (u32_small (seg_len ph)) by done.
  apply wp_bind, wp_assert; [apply Z.eqb_eq; rewrite G5; unfold PGSIZE in *; dlia|].
  apply wp_bind, wp_assert; [by rewrite pg_ofs_mod, G4|].
  apply wp_bind, wp_assert; [apply Z.eqb_eq; rewrite Z.rem_mod_nonneg by (unfold PGSIZE; lia); done|].
  apply wp_bind. unfold on_f. apply wp_lift. eapply wp_mono; [by apply (fs_seek_ok (lf s) fp c p (seg_file ph)); [|lia]|].
  intros [] f' Hf'. cbv beta. set (s1 := mk_lstate _ _ _ _).
  assert (loading s1 bl pd pts) as Hl1 by (destruct Hl; by split).
  assert (seg_len ph = PGSIZE * Z.of_nat (Z.to_nat (seg_len ph / PGSIZE))) as Hlen
    by (rewrite Z2Nat.id by (unfold PGSIZE in *; dlia); done).
  eapply wp_mono; [apply (segment_loop_ok bl pd (seg_writable ph) _ _ _ _ (seg_file ph) s1 pts)|]; try done; try lia.
  { unfold PGSIZE in *; lia. }
  intros ok s' Ho'. rewrite <- Hlen in Ho'. exact Ho'.
Qed.

(** The headers [phs0] are loaded; [ok] says whether [phs] were added. *)
Definition headers_outcome (bl : list (Z * Z)) (pd : Z) (phs0 : list Elf32_Phdr) (phs : option (list Elf32_Phdr))
    (s : lstate F) (ok : bool) (s' : lstate F) : Prop :=
  ∃ pts' p', loading s' bl pd pts' ∧ fs_file (lf s') fp c p' ∧ l_process s' = l_process s ∧
    if ok then ∃ l, phs = Some l ∧ fits c (phs0 ++ l) ∧ shows s' pts' (image c (loads (phs0 ++ l)))
    else (∀ l, phs = Some l → ¬ fits c (phs0 ++ l)) ∨ out_of_memory s'.

Lemma loads_one phs0 ph : p_type ph = PT_LOAD → loads (phs0 ++ [ph]) = loads phs0 ++ [ph].
Proof. intros Ht. unfold loads. by rewrite filter_app, filter_cons_True. Qed.

(** A loadable segment more. *)
Lemma fits_snoc phs0 ph : fits c phs0 → p_type ph = PT_LOAD → segment_valid c ph →
  (∀ x, x ∈ seg_pages ph → x ∉ flat_map seg_pages (loads phs0)) → fits c (phs0 ++ [ph]).
Proof.
  intros [H1 H2 H3] Ht Hv Hd. split.
  - intros q [Hq| ->%list_elem_of_singleton]%elem_of_app; [by apply H1|].
    unfold unsupported. rewrite Ht. intros [?|[?|?]]; done.
  - rewrite loads_one by done. intros q [Hq| ->%list_elem_of_singleton]%elem_of_app; [by apply H2|done].
  - rewrite loads_one, flat_map_app by done. cbn [flat_map]. rewrite app_nil_r. apply NoDup_app.
    split; [done|]. split; [|apply NoDup_seqZ]. intros x Hx Hx'. by apply (Hd x).
Qed.

Lemma load_phdr_ok bl pd s pts phs0 ph p : loading s bl pd pts → fs_file (lf s) fp c p → phdr_ok ph →
  p_type ph = PT_LOAD → fits c phs0 → shows s pts (image c (loads phs0)) →
  wp (load_phdr ram fp ph) (headers_outcome bl pd phs0 (Some [ph]) s) s.
Proof.
  intros Hl Hf Hok Ht Hfits Hsh. unfold load_phdr. apply wp_bind.
  eapply wp_mono; [by apply (validate_segment_ok s ph p)|].
  intros valid s1 (Hval & Hf1 & Hg1 & Hd1 & Hp1). cbv beta.
  assert (loading s1 bl pd pts) as Hl1 by (destruct Hl; split; rewrite ?Hg1; try done; congruence).
  assert (lmem s1 = lmem s) as Hm1 by (unfold lmem; by rewrite Hg1).
  assert (in_u32 (p_offset ph) ∧ in_u32 (p_filesz ph)) as [[Ho0 _] [Hz0 _]] by (destruct Hok; done).
  destruct valid.
  2: { apply wp_ret. exists pts, p. split; [done|]. split; [done|]. split; [done|]. left. intros l [= <-] Hfit.
       destruct Hval as [_ Hval]. discriminate Hval. destruct (fit_valid _ _ Hfit ph) as [? ? ? ? ? ?]; [|unfold checks; repeat split; lia].
       rewrite loads_one by done. apply elem_of_app. right. left. }
  destruct Hval as [Hchk _]. specialize (Hchk eq_refl).
  eapply wp_eq; [by apply load_phdr_eq|]. eapply wp_mono; [by eapply load_segment_ok|].
  intros ok s2 (pts' & p' & Hl2 & Hf2 & Hp2 & Hc2). exists pts', p'. split; [done|]. split; [done|]. split; [congruence|].
  rewrite Hm1 in Hc2. destruct ok.
  - destruct Hc2 as (Hread & Hnone & Hall). exists [ph]. split; [done|].
    pose proof (checks_valid ph Hchk Hread Hz0) as Hv. destruct (seg_geometry c ph Ho0 Hz0 Hv) as (G1 & G2 & G3 & _ & _ & G6 & _).
    assert (∀ x, x ∈ seg_pages ph → x ∉ flat_map seg_pages (loads phs0)) as Hdisj.
    { intros x Hx. replace x with (pg_no (x * PGSIZE)) in Hx |- * by (rewrite pg_no_div; unfold PGSIZE; dlia).
      apply (seg_range c ph _ Ho0 Hz0 Hv) in Hx. apply (image_None c). rewrite <- Hsh by (unfold PGSIZE in *; lia). by apply Hnone. }
    split; [by apply fits_snoc|]. intros va Hva. rewrite Hall, loads_one, image_app by done. cbn [image].
    rewrite <- Hsh by done. case_decide as Hin.
    + rewrite Hnone by done. by rewrite decide_True by (by apply (seg_range c ph _ Ho0 Hz0 Hv)).
    + rewrite decide_False by (by rewrite (seg_range c ph _ Ho0 Hz0 Hv)). by destruct (user_byte _ _ _).
  - destruct Hc2 as [[Hr Hshort]|[(va & Hva & Hne)|Hoom]]; [left|left|by right]; intros l [= <-] Hfit.
    all: pose proof (fit_valid _ _ Hfit ph ltac:(rewrite loads_one by done; apply elem_of_app; right; left)) as Hv.
    + destruct (seg_geometry c ph Ho0 Hz0 Hv) as (_ & _ & _ & _ & _ & _ & _ & _ & _ & G). pose proof (sv_file _ _ Hv).
      pose proof (sv_align _ _ Hv). unfold seg_read, seg_start, seg_file, PGSIZE in *. destruct (0 <? p_filesz ph); dlia.
    + destruct (seg_geometry c ph Ho0 Hz0 Hv) as (G1 & _ & _ & _ & _ & G6 & _).
      pose proof (fit_apart _ _ Hfit) as Hnd. rewrite loads_one, flat_map_app, NoDup_app in Hnd by done.
      destruct Hnd as (_ & Hnd & _). apply Hne. rewrite Hsh by (unfold PGSIZE in *; lia). apply image_None. intros Hin.
      apply (Hnd _ Hin). cbn [flat_map]. rewrite app_nil_r. by apply (seg_range c ph _ Ho0 Hz0 Hv).
Qed.

Lemma field_range d ofs : Forall in_u8 d → in_u32 (field d ofs 4).
Proof.
  intros Hd. unfold field. assert (Forall in_u8 (slice ofs 4 d)) as Hs by (by apply Forall_slice).
  assert (length (slice ofs 4 d) <= 4)%nat as Hl by (unfold slice; rewrite length_take; lia).
  remember (slice ofs 4 d) as l eqn:El. clear El Hd.
  destruct l as [|b0 [|b1 [|b2 [|b3 [|]]]]]; cbn [length] in Hl; try lia; rewrite ?Forall_cons in Hs;
    unfold in_u32, in_u8 in *; cbn [le_val]; lia.
Qed.

Lemma phdr_of_ok d : Forall in_u8 d → phdr_ok (phdr_of d).
Proof. intros Hd. split; by apply field_range. Qed.

(** Headers that are skipped. *)
Lemma fits_skip phs0 ph : p_type ph ≠ PT_LOAD → ¬ unsupported ph → fits c phs0 → fits c (phs0 ++ [ph]) ∧ loads (phs0 ++ [ph]) = loads phs0.
Proof.
  intros Ht Hu [H1 H2 H3]. assert (loads (phs0 ++ [ph]) = loads phs0) as El
    by (unfold loads; rewrite filter_app, filter_cons_False by done; apply app_nil_r).
  split; [|done]. split; rewrite ?El; try done.
  intros q [Hq| ->%list_elem_of_singleton]%elem_of_app; [by apply H1|done].
Qed.

Lemma headers_None bl pd phs0 s s' pts p : loading s' bl pd pts → fs_file (lf s') fp c p → l_process s' = l_process s →
  headers_outcome bl pd phs0 None s false s'.
Proof. intros Hl Hf Hp. exists pts, p. split; [done|]. split; [done|]. split; [done|]. by left. Qed.

(** One header, then the others. *)
Lemma headers_step bl pd phs0 ph rest s s1 s2 ok :
  l_process s1 = l_process s →
  headers_outcome bl pd (phs0 ++ [ph]) rest s1 ok s2 → headers_outcome bl pd phs0 (cons ph <$> rest) s ok s2.
Proof.
  intros Hp (pts' & p' & Hl & Hf & Hp' & Hc'). exists pts', p'. split; [done|]. split; [done|]. split; [congruence|].
  destruct ok.
  - destruct Hc' as (l & -> & Hfit & Hsh). rewrite <- app_assoc in Hfit, Hsh. by exists (ph :: l).
  - destruct Hc' as [Hno|Hoom]; [left|by right]. intros l El. destruct rest as [r|]; [|done]. injection El as <-.
    specialize (Hno r eq_refl). by rewrite <- app_assoc in Hno.
Qed.

Lemma headers_failed bl pd phs0 ph rest s s2 :
  headers_outcome bl pd phs0 (Some [ph]) s false s2 → headers_outcome bl pd phs0 (cons ph <$> rest) s false s2.
Proof.
  intros (pts' & p' & Hl & Hf & Hp' & Hc'). exists pts', p'. split; [done|]. split; [done|]. split; [done|].
  destruct Hc' as [Hno|Hoom]; [left|by right]. intros l El Hfit. destruct rest as [r|]; [|done]. injection El as <-.
  apply (Hno [ph] eq_refl). apply (fits_prefix c _ r). by rewrite <- app_assoc.
Qed.

(** The switch on the type of a header. *)
Lemma load_type_ok bl pd s pts phs0 ph p : loading s bl pd pts → fs_file (lf s) fp c p → phdr_ok ph →
  fits c phs0 → shows s pts (image c (loads phs0)) →
  wp (if (p_type ph =? PT_DYNAMIC) || (p_type ph =? PT_INTERP) || (p_type ph =? PT_SHLIB) then ret false
      else if p_type ph =? PT_LOAD then load_phdr ram fp ph else ret true)
     (headers_outcome bl pd phs0 (Some [ph]) s) s.
Proof.
  intros Hl Hf Hok Hfits Hsh. destruct (_ || _ || _) eqn:Eu.
  - apply wp_ret. exists pts, p. split; [done|]. split; [done|]. split; [done|]. left. intros l [= <-] Hfit.
    apply (fit_types _ _ Hfit ph); [apply elem_of_app; right; left|]. unfold unsupported.
    apply orb_true_iff in Eu as [[Eu|Eu]%orb_true_iff|Eu]; apply Z.eqb_eq in Eu; auto.
  - destruct (Z.eqb_spec (p_type ph) PT_LOAD) as [Et|Et]; [by apply (load_phdr_ok bl pd s pts phs0 ph p)|].
    apply wp_ret. destruct (fits_skip phs0 ph Et) as [Hfit El]; [|done|].
    + apply orb_false_iff in Eu as [[E1 E2]%orb_false_iff E3]. apply Z.eqb_neq in E1, E2, E3. by intros [?|[?|?]].
    + exists pts, p. split; [done|]. split; [done|]. split; [done|]. exists [ph]. by rewrite El.
Qed.

Lemma load_phdrs_ok bl pd : ∀ n ofs s pts phs0 p, loading s bl pd pts → fs_file (lf s) fp c p → in_s32 ofs →
  fits c phs0 → shows s pts (image c (loads phs0)) →
  wp (load_phdrs ram n fp ofs) (headers_outcome bl pd phs0 (headers c n ofs) s) s.
Proof.
  induction n as [|n IH]; intros ofs s pts phs0 p Hl Hf Ho Hfits Hsh; cbn [load_phdrs headers].
  { apply wp_ret. exists pts, p. split; [done|]. split; [done|]. split; [done|]. exists []. by rewrite app_nil_r. }
  pose proof (fs_size _ _ _ _ Hf) as Hsz. change (2 ^ 31) with 2147483648 in Hsz. apply wp_bind.
  destruct (Z.ltb_spec ofs 0).
  { apply wp_ret, wp_ret. rewrite decide_False by lia. by eapply headers_None. }
  apply wp_bind. apply (wp_on_f _ _ _ _ _ _ Hl). eapply wp_mono; [by apply (fs_length_ok (lf s) fp c p)|].
  intros len f1 [-> Hf1] s1 Hl1 Hm1 Hp1 ->. apply wp_ret.
  rewrite Z.gtb_ltb. destruct (Z.ltb_spec (zlen c) ofs).
  { apply wp_ret. rewrite decide_False by (unfold sizeof_phdr; lia). by eapply headers_None. }
  apply wp_bind, (wp_on_f _ _ _ _ _ _ Hl1). eapply wp_mono; [apply (fs_seek_ok (lf s1) fp c p ofs); [done|lia]|].
  intros [] f2 Hf2 s2 Hl2 Hm2 Hp2 ->.
  apply wp_bind, (wp_on_f _ _ _ _ _ _ Hl2).
  eapply wp_mono; [apply (fs_read_ok (lf s2) fp c ofs sizeof_phdr); [done|lia|done]|].
  intros d f3 [Hd Hf3] s3 Hl3 Hm3 Hp3 ->.
  assert (zlen d = Z.min sizeof_phdr (zlen c - ofs)) as Hz by (rewrite Hd, zlen_slice by (unfold sizeof_phdr; lia); lia).
  destruct (Z.eqb_spec (zlen d) sizeof_phdr) as [Ez|Ez]; cbn [negb].
  2: { apply wp_ret. rewrite decide_False by lia. eapply headers_None; [done|done|congruence]. }
  rewrite decide_True by lia. replace (Z.min sizeof_phdr (zlen c - ofs)) with sizeof_phdr in Hd by lia. rewrite <- Hd.
  assert (shows s3 pts (image c (loads phs0))) as Hsh3 by (intros va Hva; rewrite Hm3, Hm2, Hm1; by apply Hsh).
  assert (phdr_ok (phdr_of d)) as Hok by (apply phdr_of_ok; rewrite Hd; by apply Forall_slice).
  apply wp_bind. eapply wp_mono; [by apply (load_type_ok bl pd s3 pts phs0 (phdr_of d) (ofs + zlen d))|].
  intros ok s4 Hout. cbv beta. destruct ok.
  - destruct Hout as (pts4 & p4 & Hl4 & Hf4 & Hp4 & l & [= <-] & Hfit4 & Hsh4).
    rewrite s32_small by (unfold in_s32, sizeof_phdr in *; lia).
    eapply wp_mono; [apply (IH (ofs + sizeof_phdr) s4 pts4 (phs0 ++ [phdr_of d]) p4); try done|].
    { unfold in_s32, sizeof_phdr in *. lia. }
    intros ok s5 Hout. eapply headers_step; [|exact Hout]. congruence.
  - apply wp_ret. apply headers_failed. destruct Hout as (pts4 & p4 & Hl4 & Hf4 & Hp4 & Hc4).
    exists pts4, p4. split; [done|]. split; [done|]. split; [congruence|done].
Qed.

(** ** The stack and the whole *)

Lemma setup_stack_ok bl pd s pts p im : loading s bl pd pts → fs_file (lf s) fp c p → shows s pts im →
  wp (setup_stack ram) (λ r s', ∃ pts', loading s' bl pd pts' ∧ fs_file (lf s') fp c p ∧ l_process s' = l_process s ∧
    match r with
    | Some esp => esp = PHYS_BASE ∧ im stack_page = None ∧
        shows s' pts' (λ va, if pg_no va =? pg_no stack_page then Some (0, true) else im va)
    | None => im stack_page ≠ None ∨ out_of_memory s'
    end) s.
Proof.
  intros Hl Hf Hsh. unfold setup_stack. assert (0 <= stack_page < PHYS_BASE) as Hst by (vm_compute; split; [discriminate|reflexivity]).
  destruct (take_page (Z.lor PAL_USER PAL_ZERO) s bl pd pts eq_refl eq_refl Hl) as (k & s1 & E1 & [Hf1 Hp1] & Hk1 & Hcase).
  apply wp_bind, (wp_ok _ _ _ _ _ E1).
  assert (∀ va, 0 <= va < PHYS_BASE → user_byte (lmem s1) pts va = im va) as Hsame.
  { intros va Hva. rewrite <- Hsh by done. apply user_byte_kept; [done|].
    eapply bytes_kept_sub; [intros q; apply (frames_owned pd)|exact Hk1]. }
  destruct Hcase as [(-> & Hl1 & Hoom)|(Hk0 & Hin1 & Hl1 & Hz)].
  { rewrite Z.eqb_refl. apply wp_ret. exists pts. rewrite Hf1. split; [done|]. split; [done|]. split; [done|by right]. }
  rewrite (proj2 (Z.eqb_neq k 0)) by done. cbn [negb].
  destruct (install_page_ok s1 bl pd pts stack_page k true Hl1 Hin1 Hst eq_refl)
    as (ok & s2 & pts2 & E2 & [Hf2 Hp2] & Hin2 & Hcase2).
  apply wp_bind, (wp_ok _ _ _ _ _ E2). destruct ok.
  - destruct Hcase2 as (Hl2 & Hnone & Hub). apply wp_ret. exists pts2. rewrite Hf2, Hf1.
    split; [done|]. split; [done|]. split; [congruence|]. split; [done|].
    split; [rewrite <- Hsame by done; apply (user_byte_None (lg s1) ((k, 1) :: bl) pd); [apply Hl1|done|done]|].
    intros va Hva. rewrite Hub by done. destruct (_ =? _); [|by apply Hsame].
    pose proof (pg_ofs_range va). rewrite (Hz eq_refl) by lia. done.
  - destruct Hcase2 as [Hl2 Hwhy].
    destruct (give_back s2 bl pd pts k Hl2) as (s3 & E3 & [Hf3 Hp3] & Hl3 & Hoom).
    apply wp_bind, (wp_ok _ _ _ _ _ E3), wp_ret. exists pts. rewrite Hf3, Hf2, Hf1.
    split; [done|]. split; [done|]. split; [congruence|]. rewrite Hsame in Hwhy by done.
    destruct Hwhy as [?|Hex]; [by left|right; by apply Hoom].
Qed.

End file.

(** The state the loader starts from. *)
Record ready (s : lstate F) (bl : list (Z * Z)) : Prop := {
  rd_dir : initial_dir (lg s) bl;
  rd_kernel : init_page_dir (lg s) = kdir;
  rd_ram : base (user_pool (gp (lg s))) + PGSIZE * bit_cnt (used_map (user_pool (gp (lg s)))) <= PHYS_BASE + PGSIZE * ram
}.

(** What the process finds in memory. *)
Definition process_image (c : list Z) (phs : list Elf32_Phdr) (va : Z) : option (Z * bool) :=
  if pg_no va =? pg_no stack_page then Some (0, true) else image c (loads phs) va.

(** The file has no image. *)
Definition not_loadable (c : list Z) : Prop :=
  match executable c with Some (_, phs) => ¬ loadable c phs | None => True end.

(** Whatever happens, the process owns what was taken. *)
Definition settled (bl : list (Z * Z)) (s : lstate F) : Prop :=
  if decide (l_pagedir s = 0) then pinv (gp (lg s)) bl else ∃ pts, loading s bl (l_pagedir s) pts.

Definition load_outcome (c : list Z) (bl : list (Z * Z)) (r : option (Z * Z)) (s : lstate F) : Prop :=
  match r with
  | Some (eip, esp) => ∃ ehdr phs pts, executable c = Some (ehdr, phs) ∧ loadable c phs ∧
      eip = e_entry ehdr ∧ esp = PHYS_BASE ∧ l_pagedir s ≠ 0 ∧ loading s bl (l_pagedir s) pts ∧
      shows s pts (process_image c phs)
  | None => (not_loadable c ∨ out_of_memory s) ∧ settled bl s
  end.

Lemma loading_settled s bl pd pts : loading s bl pd pts → settled bl s.
Proof.
  intros Hl. unfold settled. rewrite (lo_pagedir _ _ _ _ Hl). case_decide as Hz; [|by exists pts].
  pose proof (pd_nonnull _ _ _ _ (lo_dir _ _ _ _ Hl)) as Hn. apply negb_true_iff, Z.eqb_neq in Hn. done.
Qed.

Lemma loading_new (g : gstate) (s : lstate F) bl pd :
  ready s bl → unmoved (gp (lg s)) (gp g) → pdinv g ((pd, 1) :: bl) pd ∅ → init_page_dir g = kdir → pd ≠ kdir →
  loading (mk_lstate g (lf s) pd (l_process s)) bl pd ∅.
Proof.
  intros [_ _ Hr] [_ Hu] Hi Hk Hn. split; [done|done|done|done|]. cbn [lg]. destruct (Hu true) as [Hb Hc'].
  cbn [the_pool] in Hb, Hc'. by rewrite Hb, Hc'.
Qed.

Lemma empty_fits c : fits c [].
Proof. split; [intros ph Hp; inversion Hp|intros ph Hp; inversion Hp|constructor]. Qed.

(** load() up to the open file: the page directory and its activation. *)
Lemma load_start s bl name : ready s bl →
  (∃ s', load ram name s = Ok (None, s') ∧ settled bl s' ∧ out_of_memory s' ∧ l_pagedir s' = 0) ∨
  ∃ s1 pd, loading s1 bl pd ∅ ∧ aside s s1 ∧
    load ram name s =
      (let* ofp := on_f (fs_open name) in
       modify (λ s, mk_lstate (lg s) (lf s) (l_pagedir s) ofp);;;
       match ofp with
       | None => ret None
       | Some fp =>
           let* d := on_f (fs_read fp sizeof_ehdr) in
           if negb (good_ehdr d) then ret None
           else
             on_f (fs_deny_write fp);;;
             let ehdr := ehdr_of d in
             let* ok := load_phdrs ram (Z.to_nat (e_phnum ehdr)) fp (s32 (e_phoff ehdr)) in
             if negb ok then ret None
             else
               let* oesp := setup_stack ram in
               match oesp with None => ret None | Some esp => ret (Some (e_entry ehdr, esp)) end
       end) s1.
Proof.
  intros Hr. destruct (create_ok (lg s) bl (rd_dir _ _ Hr)) as (pd & g & E & Hun & Hc). unfold load.
  rewrite (bind_ok _ _ _ _ _ (on_g_ok _ s _ _ E)), bind_modify. cbn [lg lf l_process]. case_decide as Hz.
  - rewrite Hz, Z.eqb_refl. left. eexists. split; [done|]. unfold settled. cbn [l_pagedir lg].
    rewrite decide_True by done. destruct Hc as (Hp & _ & Hex). split; [done|]. split; [|done]. by exists false, bl.
  - destruct Hc as (Hi & Hn & Hk). rewrite (proj2 (Z.eqb_neq pd 0)) by done. right. rewrite Hk, (rd_kernel _ _ Hr) in Hn.
    rewrite (rd_kernel _ _ Hr) in Hk.
    destruct (activate_ok _ _ _ _ Hi) as (g1 & Ea & Hi1 & Hn1 & Hg1).
    exists (mk_lstate g1 (lf s) pd (l_process s)), pd. split; [|split; [done|]].
    + apply loading_new; [done|by rewrite Hg1|done|congruence|done].
    + assert (process_activate (mk_lstate g (lf s) pd (l_process s)) = Ok (tt, mk_lstate g1 (lf s) pd (l_process s))) as Ep
        by (exact (on_g_ok _ (mk_lstate g (lf s) pd (l_process s)) _ _ Ea)).
      by rewrite (bind_ok _ _ _ _ _ Ep).
Qed.

(** From the open file on. *)
Lemma load_file_ok c fp bl pd s pts : Forall in_u8 c → loading s bl pd pts → fs_file (lf s) fp c 0 →
  (∀ va, user_byte (lmem s) pts va = None) →
  wp (let* d := on_f (fs_read fp sizeof_ehdr) in
      if negb (good_ehdr d) then ret None
      else
        on_f (fs_deny_write fp);;;
        let ehdr := ehdr_of d in
        let* ok := load_phdrs ram (Z.to_nat (e_phnum ehdr)) fp (s32 (e_phoff ehdr)) in
        if negb ok then ret None
        else
          let* oesp := setup_stack ram in
          match oesp with None => ret None | Some esp => ret (Some (e_entry ehdr, esp)) end)
     (λ r s', load_outcome c bl r s' ∧ l_process s' = l_process s) s.
Proof.
  intros Hc Hl Hf Hnone. pose proof (zlen_nonneg c).
  assert (∀ s' pts', loading s' bl pd pts' → not_loadable c ∨ out_of_memory s' → load_outcome c bl None s') as Hfail
    by (intros s' pts' Hl' Hw; split; [done|by eapply loading_settled]).
  apply wp_bind, (wp_on_f _ _ _ _ _ _ Hl). eapply wp_mono; [apply (fs_read_ok (lf s) fp c 0 sizeof_ehdr); [done|lia|done]|].
  intros d f1 [Hd Hf1] s1 Hl1 Hm1 Hp1 ->.
  assert (d = take (Z.to_nat sizeof_ehdr) c) as ->.
  { rewrite Hd. unfold slice. rewrite drop_0. unfold zlen in *. destruct (decide (sizeof_ehdr <= zlen c)) as [?|?]; unfold zlen in *.
    - f_equal. lia.
    - rewrite !take_ge by (unfold sizeof_ehdr in *; lia). done. }
  unfold not_loadable, executable in *. set (d := take (Z.to_nat sizeof_ehdr) c) in *.
  destruct (good_ehdr d) eqn:Eg; cbn [negb].
  2: { apply wp_ret. split; [|done]. eapply Hfail; [exact Hl1|by left]. }
  apply wp_bind, (wp_on_f _ _ _ _ _ _ Hl1). eapply wp_mono; [by apply (fs_deny_ok (lf s1) fp c (0 + zlen d))|].
  intros [] f2 Hf2 s2 Hl2 Hm2 Hp2 ->. cbv zeta. apply wp_bind.
  eapply wp_mono; [apply (load_phdrs_ok fp c Hc bl pd _ _ s2 pts [] (0 + zlen d)); [done|done|apply s32_range|apply empty_fits|]|].
  { intros va _. rewrite Hm2, Hm1. by apply Hnone. }
  intros ok s3 (pts3 & p3 & Hl3 & Hf3 & Hp3 & Hc3). cbv beta. destruct ok; cbn [negb].
  2: { apply wp_ret. split; [|congruence]. eapply Hfail; [exact Hl3|]. destruct Hc3 as [Hno|Hoom]; [left|by right].
       destruct (headers _ _ _) as [phs|]; [|done]. cbn [fmap option_fmap option_map]. intros [Hfit _]. by apply (Hno phs). }
  destruct Hc3 as (phs & Eh & Hfit & Hsh3). cbn [app] in *. rewrite Eh in Hfail. cbn [fmap option_fmap option_map] in Hfail.
  apply wp_bind. eapply wp_mono; [by apply (setup_stack_ok fp c bl pd s3 pts3 p3 (image c (loads phs)))|].
  intros r s4 (pts4 & Hl4 & Hf4 & Hp4 & Hc4). destruct r as [esp|]; apply wp_ret; (split; [|congruence]).
  - destruct Hc4 as (-> & Hst & Hsh4). exists (ehdr_of d), phs, pts4. unfold executable. fold d. rewrite Eg, Eh.
    split; [done|]. split; [split; [done|by apply (image_None c)]|]. split; [done|]. split; [done|].
    rewrite (lo_pagedir _ _ _ _ Hl4). split; [|done].
    pose proof (pd_nonnull _ _ _ _ (lo_dir _ _ _ _ Hl4)) as Hn. by apply negb_true_iff, Z.eqb_neq in Hn.
  - eapply Hfail; [exact Hl4|]. destruct Hc4 as [Hst|Hoom]; [left|by right]. intros [_ Hno]. by apply Hst, image_None.
Qed.

(** The byte of a segment, by its own addresses. *)
Lemma image_segment c phs ph va : fits c phs → ph ∈ loads phs → 0 <= p_offset ph → 0 <= p_filesz ph →
  p_vaddr ph <= va < p_vaddr ph + p_memsz ph →
  image c (loads phs) va =
    Some (if va - p_vaddr ph <? p_filesz ph then byte_at c (p_offset ph + (va - p_vaddr ph)) else 0, seg_writable ph).
Proof.
  intros Hfit Hin Ho Hz Hva. pose proof (fit_valid _ _ Hfit ph Hin) as Hv. pose proof (fit_apart _ _ Hfit) as Hnd.
  destruct (seg_geometry c ph Ho Hz Hv) as (G1 & _ & _ & G4 & G5 & _ & _ & _ & _ & G10).
  assert (pg_no va ∈ seg_pages ph) as Hpg by (apply (seg_range c ph va Ho Hz Hv); lia).
  transitivity (Some (segment_byte c (seg_start ph) (seg_file ph) (seg_read ph) (seg_writable ph) va)).
  - induction (loads phs) as [|q l IH]; [inversion Hin|]. cbn [image flat_map] in *. apply NoDup_app in Hnd as (_ & Hd & Hnd).
    apply elem_of_cons in Hin as [->|Hin]; [by rewrite decide_True|]. rewrite decide_False; [by apply IH|].
    intros Hq. apply (Hd _ Hq). apply list_elem_of_In, in_flat_map. exists ph. by rewrite <- !list_elem_of_In.
  - unfold segment_byte, seg_read. do 2 f_equal. assert (p_vaddr ph - seg_start ph = p_vaddr ph mod PGSIZE) as Hm
      by (unfold seg_start, PGSIZE; dlia).
    destruct (Z.ltb_spec 0 (p_filesz ph)), (Z.ltb_spec (va - p_vaddr ph) (p_filesz ph)); try lia.
    + rewrite (proj2 (Z.ltb_lt _ _)) by lia. f_equal. lia.
    + by rewrite (proj2 (Z.ltb_ge _ _)) by lia.
    + by rewrite (proj2 (Z.ltb_ge _ _)) by lia.
Qed.

Lemma headers_ok c : Forall in_u8 c → ∀ n ofs phs, headers c n ofs = Some phs → ∀ ph, ph ∈ phs → phdr_ok ph.
Proof.
  intros Hc n. induction n as [|n IH]; intros ofs phs E ph Hin; cbn [headers] in E.
  - injection E as <-. inversion Hin.
  - case_decide; [|done]. apply fmap_Some in E as (l & El & ->). apply elem_of_cons in Hin as [->|Hin].
    + by apply phdr_of_ok, Forall_slice.
    + by eapply IH.
Qed.

(** C7. load() maps the image of the executable.  On an open file with the
    bytes [c] it returns; if it succeeds, the headers of the file are good, its
    loadable segments are valid and no two of them, nor the stack, share a
    page; the entry point is that of the header, the stack pointer is
    PHYS_BASE, and user memory is exactly the pages of those segments and a
    zeroed page below PHYS_BASE: at each address of a segment it holds the byte
    of the file at the same distance from p_offset, or zero after p_filesz
    bytes, and can be written if the segment has PF_W.  If it fails, the file
    has no such image or no page of memory is left. *)
Theorem load_maps_image s bl name fp f c :
  ready s bl → fs_open name (lf s) = Ok (Some fp, f) → fs_file f fp c 0 → Forall in_u8 c →
  (∃ r s', load ram name s = Ok (r, s') ∧ load_outcome c bl r s') ∧
  ∀ ehdr phs ph va, executable c = Some (ehdr, phs) → loadable c phs → ph ∈ loads phs →
    p_vaddr ph <= va < p_vaddr ph + p_memsz ph →
    process_image c phs va =
      Some (if va - p_vaddr ph <? p_filesz ph then byte_at c (p_offset ph + (va - p_vaddr ph)) else 0, seg_writable ph).
Proof.
  intros Hr Eo Hf Hc. split.
  - destruct (load_start s bl name Hr) as [(s' & E & Hs & Hoom & _)|(s1 & pd & Hl1 & [Hf1 _] & E)].
    + exists None, s'. split; [done|]. split; [by right|done].
    + rewrite <- Hf1 in Eo. assert (on_f (fs_open name) s1 = Ok (Some fp, mk_lstate (lg s1) f (l_pagedir s1) (l_process s1)))
        as Eo1 by (unfold on_f, lift; by rewrite Eo).
      rewrite (bind_ok _ _ _ _ _ Eo1), bind_modify in E. cbn [lg lf l_pagedir] in E.
      destruct (wp_inv _ _ _ (load_file_ok c fp bl pd (mk_lstate (lg s1) f (l_pagedir s1) (Some fp)) ∅ Hc
        ltac:(destruct Hl1; by split) Hf ltac:(done))) as (r & s' & E' & Hout & _).
      exists r, s'. split; [by rewrite E|done].
  - intros ehdr phs ph va Ex [Hfit Hst] Hin Hva. unfold process_image.
    assert (phdr_ok ph) as [[Ho _] _ [Hz _] _ _].
    { unfold executable in Ex. destruct (good_ehdr _); [|done]. apply fmap_Some in Ex as (l & El & [= _ ->]).
      eapply headers_ok; [done|exact El|]. by apply list_elem_of_filter in Hin as [_ ?]. }
    rewrite (proj2 (Z.eqb_neq _ _)); [by apply image_segment|]. intros Hpg. apply Hst. rewrite <- Hpg.
    apply list_elem_of_In, in_flat_map. exists ph. split; [by apply list_elem_of_In|]. apply list_elem_of_In.
    pose proof (fit_valid _ _ Hfit ph Hin) as Hv. apply (seg_range c ph va Ho Hz Hv).
    destruct (seg_geometry c ph Ho Hz Hv) as (_ & _ & _ & ? & ? & _). lia.
Qed.

(** The pages are in the pools, above PHYS_BASE. *)
Lemma page_above p bl a : pinv p bl → (a, 1) ∈ bl → PHYS_BASE <= a < 2 ^ 32.
Proof.
  intros Hp Hin. destruct (pi_blocks _ _ Hp a 1 Hin) as (u & _ & _ & Hlo & Hhi).
  pose proof (pi_kernel_base _ _ Hp). pose proof (pi_disjoint _ _ Hp). pose proof (po_end _ _ (pi_pool _ _ Hp u)).
  destruct (po_wf _ _ (pi_pool _ _ Hp false)) as [[Hc' _] _]. cbn [the_pool] in *.
  unfold PGSIZE, PHYS_BASE in *. destruct u; cbn [the_pool] in *; lia.
Qed.

(** Leaving the directory for the kernel's, and giving it back. *)
Lemma exit_pagedir_ok s bl : settled bl s → (kdir, 1) ∈ bl →
  wp process_exit_pagedir (λ _ s', pinv (gp (lg s')) bl ∧ l_pagedir s' = 0 ∧ aside s s') s.
Proof.
  intros Hs Hk. unfold process_exit_pagedir. wp_steps. unfold settled in Hs. case_decide as Hz.
  { rewrite Hz, Z.eqb_refl. by apply wp_ret. }
  rewrite (proj2 (Z.eqb_neq _ 0)) by done. cbn [negb]. wp_steps. destruct Hs as [pts [Hi _ Hkd Hn _]].
  set (pd := l_pagedir s) in *. pose proof (pd_pinv _ _ _ _ Hi) as Hp.
  assert (PHYS_BASE <= kdir < 2 ^ 32) as Hb by (eapply page_above; [exact Hp|]; apply elem_of_app; by right).
  set (g1 := mk_gstate (gp (lg s)) (kdir - PHYS_BASE) kdir).
  assert (pagedir_activate 0 (lg s) = Ok (tt, g1)) as Ea.
  { unfold pagedir_activate. run. rewrite Z.eqb_refl, Hkd. unfold vtop, is_kernel_vaddr. run.
    rewrite bind_assert by (rewrite Z.geb_leb; apply Z.leb_le; lia). run. unfold modify, ret. unfold g1. by rewrite Hkd. }
  assert (pdinv g1 (owned pd pts ++ bl) pd pts) as Hi1.
  { apply (pdinv_transport (lg s) _ (owned pd pts ++ bl)); [done|done|change (2 ^ 32) with 4294967296 in Hb; cbn; unfold PHYS_BASE in *; lia|].
    intros b Hb'. split; [apply elem_of_app; left; by eapply dir_pages|done]. }
  destruct (destroy_releases g1 bl pd pts Hi1 Hn) as (g2 & Ed & Hp2 & _).
  set (s1 := mk_lstate (lg s) (lf s) 0 (l_process s)).
  apply (wp_ok _ _ _ _ _ (on_g_ok _ s1 _ _ Ea)). apply (wp_ok _ _ _ _ _ (on_g_ok _ (mk_lstate g1 (lf s) 0 (l_process s)) _ _ Ed)).
  done.
Qed.

(** C23. Loading leaks no page.  Whether load() succeeds, finds no file, refuses
    it or runs out of memory, the steps of process_exit() that follow give back
    every page it took, and no other. *)
Theorem load_leaks_nothing s bl name f ofp :
  ready s bl → fs_open name (lf s) = Ok (ofp, f) →
  match ofp with Some fp => ∃ c, fs_file f fp c 0 ∧ Forall in_u8 c | None => True end →
  ∃ r s' s'', load ram name s = Ok (r, s') ∧ process_exit_pagedir s' = Ok (tt, s'') ∧
    pinv (gp (lg s'')) bl ∧ l_pagedir s'' = 0.
Proof.
  intros Hr Eo Hf.
  assert (∃ r s', load ram name s = Ok (r, s') ∧ settled bl s') as (r & s' & E & Hs).
  { destruct (load_start s bl name Hr) as [(s' & E & Hs & _)|(s1 & pd & Hl1 & [Hf1 _] & E)]; [by exists None, s'|].
    rewrite <- Hf1 in Eo. assert (on_f (fs_open name) s1 = Ok (ofp, mk_lstate (lg s1) f (l_pagedir s1) (l_process s1)))
      as Eo1 by (unfold on_f, lift; by rewrite Eo).
    rewrite (bind_ok _ _ _ _ _ Eo1), bind_modify in E. cbn [lg lf l_pagedir] in E.
    set (s2 := mk_lstate (lg s1) f (l_pagedir s1) ofp) in *. assert (loading s2 bl pd ∅) as Hl2 by (destruct Hl1; by split).
    destruct ofp as [fp|]; [|exists None, s2; split; [done|by eapply loading_settled]].
    destruct Hf as (c & Hf & Hc).
    destruct (wp_inv _ _ _ (load_file_ok c fp bl pd s2 ∅ Hc Hl2 Hf ltac:(done))) as (r & s' & E' & Hout & _).
    exists r, s'. split; [by rewrite E|]. destruct r as [[eip esp]|]; [|apply Hout].
    destruct Hout as (ehdr & phs & pts & _ & _ & _ & _ & _ & Hl & _). by eapply loading_settled. }
  pose proof (id_block _ _ (rd_dir _ _ Hr)) as Hk. rewrite (rd_kernel _ _ Hr) in Hk.
  destruct (wp_inv _ _ _ (exit_pagedir_ok s' bl Hs Hk)) as ([] & s'' & Ex & Hp & Hz & _).
  by exists r, s', s''.
Qed.

End spec.
End LoadSpec.
