(* ===== verification/LoadFs.v ===== *)
(** * LoadFs: the loader on the file system

    The file system of [Filesys] and [File] is one the loader can use: the
    instance of [FileSystem] whose open files are those of file.c.  The last
    part loads a small executable from a file system with a single file. *)

From Stdlib Require Import ZArith Lia.
From stdpp Require Import base tactics option list numbers gmap.
From S2P Require Import Prelude Memory Bitmap Sched Synch Block FsState FreeMap Inode FsAlloc File Directory Filesys.
From S2P Require Import Vaddr Palloc Pagedir AddrSpace Load LoadSpec.
Import Sched Synch Block FsState FreeMap Inode FsAlloc File Directory Filesys Load.

Module LoadFs.

Section instance.
Context {D : Type} `{HK : Kernel D} `{!SectorStore D}.
Context (n k : nat) (junk : dir_entry).

(** The open file [fp] has the bytes [c], is at [p] and, if it has not done so
    already, may deny writes to its inode. *)
Definition open_file (s : fstate D) (fp : Z) (c : list Z) (p : Z) : Prop :=
  ∃ f nd, files s !! fp = Some f ∧ usable s (f_inode f) nd ∧ inode_ok (disk s) (i_sector nd) ∧
    0 <= file_len (disk s) (i_sector nd) < MAX_BLOCKS * 512 ∧ content (disk s) (i_sector nd) = c ∧ pos f = p ∧
    (deny_write f = true ∨ 0 <= deny_write_cnt nd < open_cnt nd ∧ in_s32 (open_cnt nd)).

Lemma wp_the_file s fp f (Q : file → fstate D → Prop) : files s !! fp = Some f → Q f s → wp (the_file fp) Q s.
Proof. intros Hf HQ. unfold the_file. apply wp_bind, wp_get. by apply (wp_deref _ f). Qed.

(** What reading leaves of an open file. *)
Lemma open_file_reads s s' fp c p : open_file s fp c p → reads s s' → open_file s' fp c p.
Proof.
  intros (f & nd & Hf & [H1 H2 H3 H4] & Hok & Hlen & Hc & Hp & Hd) Hr.
  pose proof (reads_inodes _ _ Hr) as Hi. pose proof (reads_inv _ _ Hr) as Hinv.
  destruct Hr as (d' & -> & _ & _ & Hsz & Hv). cbn [disk set_disk] in *.
  destruct (same_view_content (disk s) d' (i_sector nd) Hok Hv) as [Hd2 Hc2].
  pose proof (data_only_meta _ _ _ Hok Hd2) as Hm2.
  exists f, nd. split; [done|]. split; [split; [by rewrite Hi|done|done|done]|].
  split; [by apply (frame_ok (disk s))|]. cbn [disk set_disk].
  split; [by rewrite (frame_len (disk s))|]. by rewrite Hc2.
Qed.

Lemma open_file_pos s fp c p q : open_file s fp c p → ∃ f, files s !! fp = Some f ∧ pos f = p ∧
  open_file (set_files <[fp := mk_file (f_inode f) q (deny_write f)]> s) fp c q.
Proof.
  intros (f & nd & Hf & [H1 H2 H3 H4] & Hok & Hlen & Hc & Hp & Hd). exists f. split; [done|]. split; [done|].
  exists (mk_file (f_inode f) q (deny_write f)), nd. cbn [files set_files]. rewrite lookup_insert_eq.
  split; [done|]. split; [by split|]. do 3 (split; [done|]). done.
Qed.

Lemma max_file : MAX_BLOCKS * 512 < 2 ^ 31.
Proof. done. Qed.

Lemma file_read_law f fp c p m : open_file f fp c p → 0 <= p <= zlen c → 0 <= m →
  wp (file_read fp m) (λ d f', d = slice p (Z.min m (zlen c - p)) c ∧ open_file f' fp c (p + zlen d)) f.
Proof.
  intros Ho Hp Hm. pose proof Ho as (fl & nd & Hf & Hu & Hok & Hlen & Hc & Hpos & _). pose proof max_file.
  change (2 ^ 31) with 2147483648 in *. pose proof (zlen_content (disk f) (i_sector nd) (proj1 Hlen)) as Hz. rewrite Hc in Hz.
  unfold file_read. apply wp_bind, (wp_the_file _ _ _ _ Hf), wp_bind.
  eapply wp_mono; [apply (wp_read_at f (f_inode fl) nd m (pos fl) Hu Hok); lia|]. rewrite Hc, Hpos, <- Hz.
  intros d s' [Hd Hr]. pose proof (open_file_reads _ _ _ _ _ Ho Hr) as Ho'.
  destruct (open_file_pos _ _ _ _ (p + zlen d) Ho') as (f' & Hf' & Hpos' & Hnew).
  apply wp_bind, (wp_the_file _ _ _ _ Hf'). unfold set_file. wp_steps. split; [done|].
  rewrite s32_small; [by rewrite Hpos'|]. rewrite Hd, zlen_slice by lia. unfold in_s32. lia.
Qed.

Lemma file_length_law f fp c p : open_file f fp c p →
  wp (file_length fp) (λ m f', m = zlen c ∧ open_file f' fp c p) f.
Proof.
  intros Ho. pose proof Ho as (fl & nd & Hf & Hu & Hok & Hlen & Hc & Hpos & _).
  unfold file_length. apply wp_bind, (wp_the_file _ _ _ _ Hf).
  pose proof (us_disk _ _ _ Hu) as Hi.
  eapply wp_mono; [apply (wp_inode_length f (i_sector nd) (f_inode fl) nd Hok (us_open _ _ _ Hu) eq_refl); by apply reads_refl|].
  intros m s' [-> Hr]. rewrite <- Hc, zlen_content by lia. split; [done|]. rewrite Hc. by eapply open_file_reads.
Qed.

Lemma file_seek_law f fp c p q : open_file f fp c p → 0 <= q → wp (file_seek fp q) (λ _ f', open_file f' fp c q) f.
Proof.
  intros Ho Hq. unfold file_seek. apply wp_bind, wp_assert; [rewrite Z.geb_leb; by apply Z.leb_le|].
  destruct (open_file_pos _ _ _ _ q Ho) as (fl & Hf & _ & Hnew).
  apply wp_bind, (wp_the_file _ _ _ _ Hf). unfold set_file. by wp_steps.
Qed.

(** The same files, with one inode changed in its count of denials. *)
Lemma inode_deny_ok s ino nd : usable s ino nd → 0 <= deny_write_cnt nd < open_cnt nd → in_s32 (open_cnt nd) →
  inode_deny_write ino s = Ok (tt, set_inodes <[ino := mk_inode (i_sector nd) (open_cnt nd) (removed nd)
    (deny_write_cnt nd + 1) (i_magic nd) new_lock (inode_dir_lock nd)]> s).
Proof.
  intros Hu Hd Hs. pose proof Hu as [Hl Hm Hk Hi]. unfold inode_deny_write. rewrite (bind_ok _ _ _ _ _ (ilock_ok _ _ _ Hu)).
  assert (∀ (s1 : fstate D) x, inodes s1 !! ino = Some x → the_inode ino s1 = Ok (x, s1)) as Hthe
    by (intros s1 x Hx; unfold the_inode, bind, get, deref; simpl; by rewrite Hx).
  assert (inodes (ilocked s ino nd) !! ino = Some (with_inode_lock (held (me s)) nd)) as Hl1
    by (unfold ilocked; cbn [inodes set_inodes]; by rewrite lookup_insert_eq).
  rewrite (bind_ok _ _ _ _ _ (Hthe _ _ Hl1)). unfold set_deny. cbn [deny_write_cnt open_cnt with_inode_lock].
  rewrite bind_assoc, (bind_ok _ _ _ _ _ (Hthe _ _ Hl1)). unfold put_inode. rewrite bind_modify.
  rewrite s32_small by (unfold in_s32 in *; lia). rewrite bind_assert by (apply Z.leb_le; lia).
  erewrite irel_ok; [|exact Hi|cbn [inodes set_inodes]; by rewrite lookup_insert_eq|done].
  unfold ilocked, set_inodes. cbn. by rewrite !insert_insert_eq.
Qed.

Lemma file_deny_law f fp c p : open_file f fp c p → wp (file_deny_write fp) (λ _ f', open_file f' fp c p) f.
Proof.
  intros Ho. pose proof Ho as (fl & nd & Hf & Hu & Hok & Hlen & Hc & Hpos & Hdeny).
  unfold file_deny_write. apply wp_bind, (wp_the_file _ _ _ _ Hf). destruct (deny_write fl) eqn:Ed; [by apply wp_ret|].
  destruct Hdeny as [?|[Hcnt Hopen]]; [done|]. unfold set_file. wp_steps.
  set (s1 := set_files _ f). assert (usable s1 (f_inode fl) nd) as Hu1 by (destruct Hu; by split).
  apply (wp_ok _ _ _ _ _ (inode_deny_ok s1 (f_inode fl) nd Hu1 Hcnt Hopen)).
  exists (mk_file (f_inode fl) (pos fl) true), (mk_inode (i_sector nd) (open_cnt nd) (removed nd)
    (deny_write_cnt nd + 1) (i_magic nd) new_lock (inode_dir_lock nd)). split; [exact (lookup_insert_eq (files f) fp _)|]. cbn [f_inode].
  split; [|split; [exact Hok|]].
  - split; [exact (lookup_insert_eq (inodes f) _ _)|apply Hu|done|apply Hu].
  - split; [exact Hlen|]. split; [exact Hc|]. split; [exact Hpos|by left].
Qed.

#[export] Program Instance fs_system : FileSystem (fstate D) := {
  fs_open := filesys_open n k junk;
  fs_read := file_read;
  fs_length := file_length;
  fs_seek := file_seek;
  fs_deny_write := file_deny_write;
  fs_file := open_file;
  fs_read_ok := file_read_law;
  fs_length_ok := file_length_law;
  fs_seek_ok := file_seek_law;
  fs_deny_ok := file_deny_law
}.
Next Obligation.
  intros f fp c p (fl & nd & _ & _ & _ & Hlen & <- & _). rewrite zlen_content by lia. pose proof max_file. lia.
Qed.

End instance.
(** ** A small executable *)

Import Memory Bitmap.Bitmap Vaddr Palloc Pagedir AddrSpace LoadSpec.

(** A file system with one file: its bytes and its position. *)
Definition one_file : Type := list Z * Z.

#[local] Program Instance one_system : FileSystem one_file := {
  fs_open _ := ret (Some 1);
  fs_read _ n := λ f, let d := slice f.2 (Z.min n (zlen f.1 - f.2)) f.1 in Ok (d, (f.1, f.2 + zlen d));
  fs_length _ := gets (λ f, zlen f.1);
  fs_seek _ q := modify (λ f, (f.1, q));
  fs_deny_write _ := ret tt;
  fs_file f _ c p := f = (c, p) ∧ zlen c < 2 ^ 31
}.
Solve All Obligations with (cbn; intros; repeat match goal with H : _ ∧ _ |- _ => destruct H end; subst;
  first [assumption | repeat split; assumption || reflexivity]).

(** A header, one program header and three bytes of program: a writable
    segment of 100 bytes, 87 of them from the file, just below the page table's
    worth of memory that holds the stack. *)
Definition demo_vaddr : Z := 3217031168.
Definition demo_elf : list Z :=
  (elf_magic ++ replicate 9 0) ++ le_bytes 2 2 ++ le_bytes 2 3 ++ le_bytes 4 1 ++ le_bytes 4 (demo_vaddr + 84) ++
  le_bytes 4 52 ++ le_bytes 4 0 ++ le_bytes 4 0 ++ le_bytes 2 52 ++ le_bytes 2 32 ++ le_bytes 2 1 ++
  le_bytes 2 0 ++ le_bytes 2 0 ++ le_bytes 2 0 ++
  le_bytes 4 PT_LOAD ++ le_bytes 4 0 ++ le_bytes 4 demo_vaddr ++ le_bytes 4 demo_vaddr ++ le_bytes 4 87 ++
  le_bytes 4 100 ++ le_bytes 4 6 ++ le_bytes 4 4096 ++ [11; 22; 33].

Definition demo_phdr : Elf32_Phdr := phdr_of (slice 52 32 demo_elf).
Definition demo_lstate : lstate one_file := mk_lstate demo_gstate (demo_elf, 0) 0 None.

Lemma demo_bytes : Forall in_u8 demo_elf.
Proof.
  apply Forall_forall. intros b Hb. assert (forallb (λ x, (0 <=? x) && (x <? 256)) demo_elf = true) as H by (vm_compute; reflexivity).
  rewrite forallb_forall in H. apply list_elem_of_In in Hb. apply H, andb_true_iff in Hb as [H0 H1].
  apply Z.leb_le in H0. apply Z.ltb_lt in H1. unfold in_u8. lia.
Qed.

Lemma demo_ready : ready ram_pages demo_kdir demo_lstate [(demo_kdir, 1)].
Proof. split; [apply demo_initial|reflexivity|]. vm_compute. discriminate. Qed.

Lemma demo_executable : executable demo_elf = Some (ehdr_of (take 52 demo_elf), [demo_phdr]).
Proof. vm_compute. reflexivity. Qed.

Lemma demo_loadable : loadable demo_elf [demo_phdr].
Proof.
  assert (loads [demo_phdr] = [demo_phdr]) as El by (vm_compute; reflexivity). split; [split|]; rewrite ?El.
  - intros ph ->%list_elem_of_singleton. unfold unsupported. vm_compute. by intros [?|[?|?]].
  - intros ph ->%list_elem_of_singleton. split; vm_compute; done.
  - apply NoDup_singleton.
  - intros Hin. assert (flat_map seg_pages [demo_phdr] = [785408]) as E by (vm_compute; reflexivity).
    rewrite E in Hin. apply list_elem_of_singleton in Hin. vm_compute in Hin. discriminate.
Qed.

Lemma demo_open : fs_open [] (lf demo_lstate) = Ok (Some 1, (demo_elf, 0)).
Proof. reflexivity. Qed.

Lemma load_maps_image_witness :
  (∃ s', Load.load ram_pages [] demo_lstate = Ok (Some (demo_vaddr + 84, PHYS_BASE), s') ∧
         load_outcome ram_pages demo_kdir demo_elf [(demo_kdir, 1)] (Some (demo_vaddr + 84, PHYS_BASE)) s') ∧
  process_image demo_elf [demo_phdr] (demo_vaddr + 85) = Some (22, true).
Proof.
  destruct (load_maps_image ram_pages demo_kdir demo_lstate [(demo_kdir, 1)] [] 1 (demo_elf, 0) demo_elf demo_ready demo_open) as [H1 H2];
    [split; [reflexivity|vm_compute; reflexivity]|apply demo_bytes|]. split.
  - destruct H1 as (r & s' & E & Hout).
    assert (Load.load ram_pages [] demo_lstate =
      Ok (Some (demo_vaddr + 84, PHYS_BASE), result_of (Load.load ram_pages [] demo_lstate) demo_lstate)) as Er
      by (refine (returns_eq (Some (demo_vaddr + 84, PHYS_BASE)) (Load.load ram_pages [] demo_lstate) demo_lstate _); vm_compute; reflexivity).
    pose proof (ok_value _ _ _ _ _ E Er) as ->. exists s'. split; [exact E|exact Hout].
  - rewrite (H2 _ _ demo_phdr (demo_vaddr + 85) demo_executable demo_loadable).
    + vm_compute. reflexivity.
    + left.
    + vm_compute. split; [discriminate|reflexivity].
Defined.

Lemma load_leaks_nothing_witness :
  ∃ r s' s'', Load.load ram_pages [] demo_lstate = Ok (r, s') ∧ process_exit_pagedir s' = Ok (tt, s'') ∧
    pinv (gp (lg s'')) [(demo_kdir, 1)] ∧ l_pagedir s'' = 0.
Proof.
  apply (load_leaks_nothing ram_pages demo_kdir demo_lstate [(demo_kdir, 1)] [] (demo_elf, 0) (Some 1) demo_ready demo_open).
  exists demo_elf. split; [split; [reflexivity|vm_compute; reflexivity]|apply demo_bytes].
Defined.

End LoadFs.
