(* ===== verification/ArgStack.v ===== *)
(** * ArgStack: the initial user stack (userprog/process.c, load_stack())

    start_process() copies the words of the command line to the top of the
    user stack, pads, and pushes the argument vector, its address and the
    argument count.  The code runs on the byte memory of [Memory]: the command
    line is a string in a kernel page, the stack the page below the initial
    stack pointer, and a push below the mapped page is a [Fault]. *)

From Stdlib Require Import ZArith Lia.
From stdpp Require Import base tactics option list numbers gmap.
From S2P Require Import Prelude Memory CString.
Import Memory CString.

Module ArgStack.

(** Both push functions give the new stack pointer. *)
Definition push_char (stackPtr c : Z) : M mem Z :=
  wr (stackPtr - 1) c;;;
  ret (stackPtr - 1).

(** A 32-bit store below the stack pointer, little-endian. *)
Definition push_int (stackPtr i : Z) : M mem Z :=
  let p := stackPtr - 4 in
  wr (p + 3) (Z.shiftr (u32 i) 24);;;
  wr (p + 2) (Z.shiftr (u32 i) 16);;;
  wr (p + 1) (Z.shiftr (u32 i) 8);;;
  wr p (u32 i);;;
  ret p.

(** The characters of the command line from the last to the first; [i] is one
    more than the index of the source.  Gives the stack pointer and the
    number of words. *)
Fixpoint copy_args (i : nat) (argPtr stackPtr : Z) (wasSpace : bool) (numTokens : Z) : M mem (Z * Z) :=
  match i with
  | O => ret (stackPtr, numTokens)
  | S i =>
      let* c := rd (argPtr + Z.of_nat i) in
      let* (stackPtr, numTokens) :=
        if negb (c =? 32) then
          let* (stackPtr, numTokens) :=
            if wasSpace then
              let* sp := push_char stackPtr 0 in ret (sp, numTokens + 1)
            else ret (stackPtr, numTokens) in
          let* sp := push_char stackPtr c in
          ret (sp, numTokens)
        else ret (stackPtr, numTokens) in
      copy_args i argPtr stackPtr (c =? 32) numTokens
  end.

Definition padding (argvLen numTokens : Z) : Z :=
  (16 - (argvLen + (numTokens + 3) * 4) mod 16) mod 16.

Fixpoint pad_loop (n : nat) (stackPtr : Z) : M mem Z :=
  match n with
  | O => ret stackPtr
  | S n => let* sp := push_char stackPtr 0 in pad_loop n sp
  end.

(** The scan for the first characters of the words, downwards. *)
Fixpoint argv_loop (fuel : nat) (stackFrame argvLen numTokens i offset stackPtr : Z) : M mem Z :=
  if i <? numTokens then
    match fuel with
    | O => no_fuel
    | S fuel =>
        if offset <? - argvLen then ret stackPtr
        else
          let* c := rd (stackFrame + offset) in
          let isChar := negb (c =? 0) in
          let* first :=
            if offset =? - argvLen then ret true
            else let* b := rd (stackFrame + offset - 1) in ret ((b =? 0) && isChar) in
          if first : bool then
            let* sp := push_int stackPtr (stackFrame + offset) in
            argv_loop fuel stackFrame argvLen numTokens (i + 1) (offset - 1) sp
          else argv_loop fuel stackFrame argvLen numTokens i (offset - 1) stackPtr
    end
  else ret stackPtr.

(** Gives the stack pointer with which the process starts. *)
Definition load_stack (file_name esp : Z) : M mem Z :=
  let* len := strlen file_name in
  let* (sp, numTokens) := copy_args (Z.to_nat len) file_name esp true 0 in
  let argvLen := esp - sp in
  let* sp := pad_loop (Z.to_nat (padding argvLen numTokens)) sp in
  let* sp := push_int sp 0 in
  let* sp := argv_loop (S (Z.to_nat argvLen)) esp argvLen numTokens 0 (-1) sp in
  let* sp := push_int sp sp in
  let* sp := push_int sp numTokens in
  ret (sp - 4).

(** ** What is on the stack *)

(** The words, each with its null byte, and where each begins. *)
Definition joined (ws : list (list Z)) : list Z := concat (map (λ w, w ++ [0]) ws).
Fixpoint ptrs (base : Z) (ws : list (list Z)) : list Z :=
  match ws with [] => [] | w :: ws => base :: ptrs (base + zlen w + 1) ws end.
Definition int_bytes (zs : list Z) : list Z := concat (map (le_bytes 4) zs).

(** [L] has been pushed since the stack pointer was [esp] and the memory
    [m0]; the pages reach down to [low]. *)
Record pushed (m0 : mem) (low esp : Z) (m : mem) (sp : Z) (L : list Z) : Prop := {
  pu_sp : sp = esp - zlen L;
  pu_holds : holds m sp L;
  pu_frame : ∀ x, x < sp ∨ esp <= x → m !! x = m0 !! x;
  pu_room : mapped m0 low (esp - low)
}.

Section push.
Context (m0 : mem) (low esp : Z).

Lemma pushed_store m sp L d : pushed m0 low esp m sp L →
  pushed m0 low esp (store m (sp - zlen d) d) (sp - zlen d) (d ++ L).
Proof.
  intros [Hsp Hh Hf Hr]. pose proof (zlen_nonneg d). pose proof (zlen_nonneg L). split; [rewrite zlen_app; lia| | |done].
  - apply holds_app. split; [apply holds_store|]. rewrite Z.sub_add.
    apply holds_store_disjoint; [done|lia].
  - intros x Hx. rewrite store_out by lia. apply Hf. lia.
Qed.

Lemma pushed_room m sp L x : pushed m0 low esp m sp L → low <= x < sp → is_Some (m !! x).
Proof.
  intros [Hsp Hh Hf Hr] Hx. pose proof (zlen_nonneg L). rewrite Hf by lia. apply Hr. lia.
Qed.

Lemma push_char_ok m sp L c :
  pushed m0 low esp m sp L → low < sp → in_u8 c →
  ∃ m', push_char sp c m = Ok (sp - 1, m') ∧ pushed m0 low esp m' (sp - 1) (c :: L).
Proof.
  intros Hp Hl Hc. unfold push_char. run.
  rewrite wr_ok by (apply (pushed_room _ _ _ _ Hp); lia). run. rewrite u8_small by done.
  eexists. split; [done|]. exact (pushed_store _ _ _ [c] Hp).
Qed.

Lemma u8_shift v k : 0 <= k → u8 (Z.shiftr (u32 v) k) = (u32 v / 2 ^ k) mod 256.
Proof. intros. unfold u8. by rewrite Z.shiftr_div_pow2. Qed.

Lemma push_int_ok m sp L v :
  pushed m0 low esp m sp L → low + 4 <= sp →
  ∃ m', push_int sp v m = Ok (sp - 4, m') ∧
    pushed m0 low esp m' (sp - 4) (le_bytes 4 (u32 v) ++ L).
Proof.
  intros Hp Hl. unfold push_int. run.
  assert (∀ x, sp - 4 <= x < sp → is_Some (m !! x)) as Hr.
  { intros x Hx. apply (pushed_room _ _ _ _ Hp). lia. }
  do 4 (rewrite wr_ok by (rewrite ?lookup_insert_ne by lia; apply Hr; lia); run1 || cbv beta).
  run. eexists. split; [done|].
  assert (zlen (le_bytes 4 (u32 v)) = 4) as El by (by rewrite zlen_le_bytes).
  pose proof (pushed_store _ _ _ (le_bytes 4 (u32 v)) Hp) as Hs. rewrite El in Hs.
  rewrite !u8_shift by lia. cbn [le_bytes store] in Hs |- *.
  rewrite <- !Z.add_assoc in Hs. change (1 + 1) with 2 in Hs. change (1 + 2) with 3 in Hs.
  rewrite !Z.div_div in Hs |- * by lia. exact Hs.
Qed.

(** ** The copy of the words *)

Lemma joined_cons w ws : joined (w :: ws) = w ++ 0 :: joined ws.
Proof. unfold joined. cbn [map concat]. by rewrite <- app_assoc. Qed.

(** One more character in front of the text. *)
Lemma words_step c s : words [32] (c :: s) =
  if c =? 32 then words [32] s
  else if match s with [] => true | d :: _ => d =? 32 end then [c] :: words [32] s
  else match words [32] s with w :: ws => (c :: w) :: ws | [] => [[c]] end.
Proof.
  assert (∀ d : Z, bool_decide (d ∈ [32]) = (d =? 32)) as E.
  { intros d. destruct (Z.eqb_spec d 32) as [->|Hd]; [by apply bool_decide_eq_true_2; left|].
    apply bool_decide_eq_false_2. by intros ?%list_elem_of_singleton. }
  cbn [words]. rewrite E. destruct (c =? 32); [done|]. destruct s as [|d s]; [done|]. by rewrite E.
Qed.

Lemma words_nonempty c s : c ≠ 32 → words [32] (c :: s) ≠ [].
Proof.
  intros Hc. rewrite words_step, (proj2 (Z.eqb_neq c 32)) by done.
  destruct (match s with [] => true | d :: _ => d =? 32 end); [done|]. by destruct (words [32] s).
Qed.

(** Whether a word would end in front of [s]. *)
Definition starts_space (s : list Z) : bool := match s with [] => true | d :: _ => d =? 32 end.

Lemma joined_step c s : c ≠ 32 →
  joined (words [32] (c :: s)) = c :: (if starts_space s then [0] else []) ++ joined (words [32] s) ∧
  zlen (words [32] (c :: s)) = zlen (words [32] s) + (if starts_space s then 1 else 0).
Proof.
  intros Hc. rewrite words_step, (proj2 (Z.eqb_neq c 32)) by done. fold (starts_space s).
  destruct (starts_space s) eqn:E.
  - rewrite joined_cons. unfold zlen. cbn [length]. split; [done|lia].
  - destruct s as [|d s]; [done|]. simpl in E. apply Z.eqb_neq in E.
    pose proof (words_nonempty d s E) as Hne. destruct (words [32] (d :: s)) as [|w ws]; [done|].
    rewrite !joined_cons. unfold zlen. cbn [length]. split; [done|lia].
Qed.

Lemma joined_grows s1 s2 :
  zlen (joined (words [32] s2)) <= zlen (joined (words [32] (s1 ++ s2))).
Proof.
  induction s1 as [|c s1 IH]; [done|]. cbn [app].
  destruct (decide (c = 32)) as [->|Hc].
  - by rewrite words_step.
  - destruct (joined_step c (s1 ++ s2) Hc) as [-> _]. change (c :: ?l) with ([c] ++ l).
    rewrite !zlen_app. change (zlen [c]) with 1. pose proof (zlen_nonneg (if starts_space (s1 ++ s2) then [0] else [])). lia.
Qed.

(** The words of a suffix [s2] are on the stack; the characters of [s1] are
    still to come. *)
Lemma copy_args_ok s1 s2 m sp argPtr :
  pushed m0 low esp m sp (joined (words [32] s2)) →
  holds m0 argPtr s1 → Forall in_u8 s1 → (argPtr + zlen s1 <= low ∨ esp <= argPtr) →
  low + zlen (joined (words [32] (s1 ++ s2))) <= esp →
  ∃ m' sp', copy_args (length s1) argPtr sp (starts_space s2) (zlen (words [32] s2)) m =
      Ok (sp', zlen (words [32] (s1 ++ s2)), m') ∧
    pushed m0 low esp m' sp' (joined (words [32] (s1 ++ s2))).
Proof.
  revert s2 m sp. induction s1 as [|c s1 IH] using rev_ind; intros s2 m sp Hp Hh Hu Hd Hroom.
  { by exists m, sp. }
  rewrite length_app, Nat.add_comm. cbn [length Nat.add copy_args]. run.
  apply holds_app in Hh as [Hh Hc]. apply Forall_app in Hu as [Hu Hcu].
  rewrite Forall_singleton in Hcu. rewrite <- app_assoc in Hroom |- *. cbn [app] in *.
  pose proof (pu_sp _ _ _ _ _ _ Hp) as Hsp. rewrite zlen_app in Hd. change (zlen [c]) with 1 in Hd.
  pose proof (zlen_nonneg s1). pose proof (joined_grows s1 (c :: s2)) as Hg.
  pose proof (zlen_nonneg (joined (words [32] s2))).
  specialize (IH (c :: s2)). cbn [starts_space] in IH.
  apply holds_cons in Hc as [Hc _].
  assert (low <= sp) as Hlow.
  { pose proof (joined_grows (s1 ++ [c]) s2) as Hg'. rewrite <- app_assoc in Hg'. cbn [app] in Hg'. lia. }
  rewrite (rd_ok _ _ c) by (rewrite (pu_frame _ _ _ _ _ _ Hp); [exact Hc|unfold zlen in *; lia]).
  destruct (Z.eqb_spec c 32) as [->|Hne]; cbn [negb].
  - run. rewrite (words_step 32) in IH. cbn in IH. apply IH; [done..|lia|done].
  - destruct (joined_step c s2 Hne) as [Ej El]. rewrite Ej in Hg. rewrite Ej, El in IH.
    destruct (starts_space s2); cbn [app] in *; rewrite !zlen_cons in Hg.
    + destruct (push_char_ok m sp _ 0 Hp) as (m1 & E1 & Hp1); [lia|by unfold in_u8|].
      destruct (push_char_ok m1 _ _ c Hp1) as (m2 & E2 & Hp2); [lia|done|].
      run. rewrite (bind_ok _ _ _ _ _ E1). run. rewrite (bind_ok _ _ _ _ _ E2). run.
      apply IH; [done..|lia|done].
    + destruct (push_char_ok m sp _ c Hp) as (m1 & E1 & Hp1); [lia|done|].
      run. rewrite (bind_ok _ _ _ _ _ E1). run. rewrite Z.add_0_r in IH.
      apply IH; [done..|lia|done].
Qed.

Lemma pad_loop_ok n m sp L : pushed m0 low esp m sp L → low + Z.of_nat n <= sp →
  ∃ m', pad_loop n sp m = Ok (sp - Z.of_nat n, m') ∧
    pushed m0 low esp m' (sp - Z.of_nat n) (repeat 0 n ++ L).
Proof.
  revert m sp L. induction n as [|n IH]; intros m sp L Hp Hl; cbn [pad_loop].
  { exists m. by rewrite Z.sub_0_r. }
  destruct (push_char_ok m sp L 0 Hp) as (m1 & E1 & Hp1); [lia|by unfold in_u8|].
  rewrite (bind_ok _ _ _ _ _ E1).
  destruct (IH m1 (sp - 1) (0 :: L) Hp1) as (m2 & E2 & Hp2); [lia|].
  exists m2. replace (sp - Z.of_nat (S n)) with (sp - 1 - Z.of_nat n) by lia. split; [done|].
  cbn [repeat app]. replace (0 :: repeat 0 n ++ L) with (repeat 0 n ++ 0 :: L); [done|].
  change (0 :: L) with ([0] ++ L). rewrite app_assoc. change (0 :: repeat 0 n ++ L) with ((0 :: repeat 0 n) ++ L).
  f_equal. clear. induction n as [|n IH]; [done|]. simpl. by rewrite IH.
Qed.

(** ** The argument vector *)

Section argv.
Context (ws : list (list Z)).
Hypothesis Hws : Forall (λ w, w ≠ [] ∧ Forall (λ b, b ≠ 0) w) ws.
Let argvLen := zlen (joined ws).
Let base := esp - argvLen.

Lemma joined_app ws1 ws2 : joined (ws1 ++ ws2) = joined ws1 ++ joined ws2.
Proof. unfold joined. by rewrite map_app, concat_app. Qed.

Lemma ptrs_snoc b ws1 w : ptrs b (ws1 ++ [w]) = ptrs b ws1 ++ [b + zlen (joined ws1)].
Proof.
  revert b. induction ws1 as [|v ws1 IH]; intros b; cbn [app ptrs].
  - change (zlen (joined [])) with 0. by rewrite Z.add_0_r.
  - rewrite IH, joined_cons, zlen_app, zlen_cons. do 3 f_equal. lia.
Qed.

(** The bytes of one word, and the null byte in front of it. *)
Lemma word_bytes m sp X front w back :
  pushed m0 low esp m sp (X ++ joined ws) → ws = front ++ w :: back →
  let t := base + zlen (joined front) in
  holds m t (w ++ [0]) ∧ base <= t ∧ (front ≠ [] → m !! (t - 1) = Some 0 ∧ base < t).
Proof.
  intros Hp E t. pose proof (pu_sp _ _ _ _ _ _ Hp) as Hsp. pose proof (pu_holds _ _ _ _ _ _ Hp) as Hh.
  apply holds_app in Hh as [_ Hh]. rewrite zlen_app in Hsp.
  replace (sp + zlen X) with base in Hh by (subst base argvLen; lia). pose proof (zlen_nonneg (joined front)).
  rewrite E, joined_app, joined_cons in Hh. apply holds_app in Hh as [Hf Hw].
  change (0 :: joined back) with ([0] ++ joined back) in Hw. rewrite app_assoc in Hw.
  apply holds_app in Hw as [Hw _]. split; [done|]. split; [lia|]. intros Hne.
  destruct (exists_last Hne) as (f & v & ->). rewrite joined_app in Hf. apply holds_app in Hf as [_ Hv].
  subst t. rewrite joined_app, joined_cons, zlen_app in *. cbn [joined map concat] in *.
  apply holds_app in Hv as [_ Hz]. apply holds_cons in Hz as [Hz _].
  rewrite zlen_app, zlen_cons in *. change (zlen []) with 0 in *. pose proof (zlen_nonneg v).
  pose proof (zlen_nonneg (joined f)). split; [|lia]. rewrite <- Hz. f_equal. lia.
Qed.

(** The scan over one word: its address is pushed when its first character
    is reached. *)
Lemma argv_token j f N i m sp X front w back :
  pushed m0 low esp m sp (X ++ joined ws) → ws = front ++ w :: back → low + 4 <= sp →
  (j <= length w)%nat → i < N →
  let t := base + zlen (joined front) in
  ∃ m', argv_loop (S (j + f)) esp argvLen N i (t + Z.of_nat j - esp) sp m =
      argv_loop f esp argvLen N (i + 1) (t - 1 - esp) (sp - 4) m' ∧
    pushed m0 low esp m' (sp - 4) (le_bytes 4 (u32 t) ++ X ++ joined ws).
Proof.
  intros Hp E Hl Hj Hi t. destruct (word_bytes _ _ _ _ _ _ Hp E) as (Hw & Ht & Hf). fold t in Hw, Ht, Hf.
  assert (w ≠ [] ∧ Forall (λ b, b ≠ 0) w) as [Hne Hnz].
  { rewrite Forall_forall in Hws. apply Hws. rewrite E. apply elem_of_app. right. left. }
  induction j as [|j IH]; cbn [argv_loop]; rewrite (proj2 (Z.ltb_lt i N)) by done;
    rewrite (proj2 (Z.ltb_ge _ (- argvLen))) by (subst base; lia).
  - destruct w as [|c w]; [done|]. apply holds_cons in Hw as [Hc _].
    rewrite (rd_ok _ _ c) by (rewrite <- Hc; f_equal; lia).
    apply Forall_cons in Hnz as [Hc0 _]. rewrite (proj2 (Z.eqb_neq c 0)) by done. cbn [negb].
    destruct (push_int_ok m sp _ t Hp Hl) as (m' & E' & Hp'). exists m'. split; [|done].
    replace (t + Z.of_nat 0 - esp) with (t - esp) by lia. replace (esp + (t - esp)) with t by lia.
    replace (t - esp - 1) with (t - 1 - esp) by lia.
    destruct (Z.eqb_spec (t - esp) (- argvLen)) as [|Hb]; run.
    + by rewrite (bind_ok _ _ _ _ _ E').
    + destruct front as [|v front]; [subst t base; change (zlen (joined [])) with 0 in Hb; lia|].
      destruct (Hf ltac:(done)) as [Hz _]. rewrite (rd_ok _ _ 0) by done. run. cbn [Z.eqb andb].
      by rewrite (bind_ok _ _ _ _ _ E').
  - rewrite (proj2 (Z.eqb_neq _ (- argvLen))) by (subst base; lia).
    destruct (lookup_lt_is_Some_2 w j ltac:(lia)) as [b Hb].
    destruct (lookup_lt_is_Some_2 (w ++ [0]) (S j)) as [c Hc]; [rewrite length_app; simpl; lia|].
    rewrite (rd_ok _ _ c) by (rewrite <- (Hw _ _ Hc); f_equal; lia). run.
    rewrite (rd_ok _ _ b) by (rewrite <- (Hw j b ltac:(by apply lookup_app_l_Some)); f_equal; lia). run.
    rewrite (proj2 (Z.eqb_neq b 0)) by (rewrite Forall_forall in Hnz; apply Hnz; by eapply list_elem_of_lookup_2).
    cbn [andb]. replace (t + Z.of_nat (S j) - esp - 1) with (t + Z.of_nat j - esp) by lia.
    apply IH. lia.
Qed.

(** All the words, the last one first. *)
Lemma argv_all front back f m sp X :
  pushed m0 low esp m sp (X ++ joined ws) → ws = front ++ back →
  low + 4 * zlen front <= sp → 0 <= base → esp <= 4294967296 →
  ∃ m', argv_loop (length (joined front) + f) esp argvLen (zlen ws) (zlen back)
      (base + zlen (joined front) - 1 - esp) sp m = Ok (sp - 4 * zlen front, m') ∧
    pushed m0 low esp m' (sp - 4 * zlen front) (int_bytes (ptrs base front) ++ X ++ joined ws).
Proof.
  intros Hp E Hl Hb0 He. revert back f m sp X Hp E Hl. induction front as [|w front IH] using rev_ind; intros back f m sp X Hp E Hl.
  - exists m. change (zlen []) with 0. rewrite Z.mul_0_r, Z.sub_0_r. split; [|done].
    subst ws. cbn [joined map concat length Nat.add app].
    destruct f; cbn [argv_loop]; by rewrite Z.ltb_irrefl.
  - rewrite <- app_assoc in E. cbn [app] in E. rewrite zlen_app in Hl. change (zlen [w]) with 1 in Hl.
    pose proof (zlen_nonneg front). pose proof (zlen_nonneg (joined front)). pose proof (zlen_nonneg w).
    assert (zlen ws = zlen front + 1 + zlen back) as El by (rewrite E, zlen_app, zlen_cons; lia).
    pose proof (zlen_nonneg back).
    destruct (argv_token (length w) (length (joined front) + f) (zlen ws) (zlen back) m sp X front w back Hp E)
      as (m1 & E1 & Hp1); [lia|lia|lia|].
    assert (joined (front ++ [w]) = joined front ++ w ++ [0]) as Ej by (by rewrite joined_app, joined_cons).
    assert (base + zlen (joined front) < 4294967296).
    { assert (zlen (joined ws) = zlen (joined front) + zlen w + 1 + zlen (joined back)) as Ew
        by (rewrite E, joined_app, joined_cons, zlen_app, zlen_app, zlen_cons; lia).
      pose proof (zlen_nonneg (joined back)). subst base argvLen. lia. }
    rewrite u32_small in Hp1 by (unfold in_u32; lia).
    assert (ws = front ++ [w] ++ back) as E' by done.
    destruct (IH (w :: back) f m1 (sp - 4) (le_bytes 4 (base + zlen (joined front)) ++ X)) as (m2 & E2 & Hp2).
    { by rewrite <- app_assoc. } { done. } { lia. }
    exists m2. rewrite zlen_app. change (zlen [w]) with 1.
    replace (sp - 4 * (zlen front + 1)) with (sp - 4 - 4 * zlen front) by lia. split.
    + rewrite <- E2, zlen_cons, Z.add_comm with (n := 1). rewrite <- E1. rewrite Ej, zlen_app, zlen_app, !length_app.
      change (zlen [0]) with 1. cbn [length].
      replace (length (joined front) + (length w + 1) + f)%nat with (S (length w + (length (joined front) + f))) by lia.
      f_equal. unfold zlen. lia.
    + rewrite ptrs_snoc. unfold int_bytes in *. rewrite map_app, concat_app. cbn [map concat].
      rewrite app_nil_r, <- !app_assoc in *. exact Hp2.
Qed.

End argv.
End push.

(** ** The whole routine *)

Lemma words_forall (P : Z → Prop) s :
  Forall P s → Forall (λ w, w ≠ [] ∧ Forall P w) (words [32] s).
Proof.
  induction 1 as [|c s Hc Hs IH]; [constructor|]. rewrite words_step. destruct (c =? 32); [done|].
  destruct (match s with [] => true | d :: _ => d =? 32 end).
  - constructor; [|done]. split; [done|by constructor].
  - destruct (words [32] s) as [|w ws]; [constructor; [|done]; split; [done|by constructor]|].
    apply Forall_cons in IH as [[_ Hw] Hws]. constructor; [|done]. split; [done|by constructor].
Qed.

(** The bytes the arguments of a command line take on the stack. *)
Definition stack_bytes (cmd : list Z) : Z :=
  let ws := words [32] cmd in
  zlen (joined ws) + padding (zlen (joined ws)) (zlen ws) + 4 * (zlen ws + 3).

Definition word_at (m : mem) (p v : Z) : Prop := holds m p (le_bytes 4 v).

Lemma padding_range a n : 0 <= padding a n < 16.
Proof. unfold padding. dlia. Qed.

Lemma padding_aligned a n : (a + padding a n + 4 * (n + 3)) mod 16 = 0.
Proof. unfold padding. dlia. Qed.

(** The image of the stack from the argument count on. *)
Lemma load_stack_image m file low esp cmd :
  cstring m file cmd → mapped m low (esp - low) → (file + zlen cmd < low ∨ esp <= file) →
  0 < low → esp <= 4294967296 → stack_bytes cmd <= esp - low →
  let ws := words [32] cmd in
  let base := esp - zlen (joined ws) in
  ∃ m' sp, load_stack file esp m = Ok (sp, m') ∧ sp + 4 = esp - stack_bytes cmd ∧
    pushed m low esp m' (sp + 4)
      (le_bytes 4 (zlen ws) ++ le_bytes 4 (sp + 12) ++ int_bytes (ptrs base ws) ++
       le_bytes 4 0 ++ repeat 0 (Z.to_nat (padding (zlen (joined ws)) (zlen ws))) ++ joined ws).
Proof.
  intros Hc Hm Hd Hl He Hn. cbv zeta. unfold stack_bytes in *. set (ws := words [32] cmd) in *.
  pose proof (padding_range (zlen (joined ws)) (zlen ws)) as Hpr. pose proof (zlen_nonneg ws).
  pose proof (zlen_nonneg (joined ws)). set (pd := padding (zlen (joined ws)) (zlen ws)) in *.
  pose proof Hc as (_ & Hh & Hz & Hu). apply holds_app in Hh as [Hh _].
  assert (pushed m low esp m esp (joined (words [32] []))) as Hp0.
  { split; [change (zlen (joined (words [32] []))) with 0; lia|by intros []|done|done]. }
  unfold load_stack. rewrite (strlen_ok _ _ _ _ Hc). unfold zlen at 1. rewrite Nat2Z.id.
  destruct (copy_args_ok m low esp cmd [] m esp file Hp0 Hh Hu) as (m1 & sp1 & E1 & Hp1);
    rewrite ?app_nil_r in *; [lia|fold ws; lia|].
  rewrite (bind_ok _ _ _ _ _ E1). fold ws in Hp1 |- *.
  pose proof (pu_sp _ _ _ _ _ _ Hp1) as ->. replace (esp - (esp - zlen (joined ws))) with (zlen (joined ws)) by lia.
  fold pd. destruct (pad_loop_ok m low esp (Z.to_nat pd) m1 _ _ Hp1) as (m2 & E2 & Hp2); [lia|].
  rewrite (bind_ok _ _ _ _ _ E2).
  destruct (push_int_ok m low esp m2 _ _ 0 Hp2) as (m3 & E3 & Hp3); [lia|].
  rewrite (bind_ok _ _ _ _ _ E3). change (u32 0) with 0 in Hp3. rewrite app_assoc in Hp3.
  destruct (argv_all m low esp ws (words_forall _ _ Hz) ws [] 1 m3 _ _ Hp3) as (m4 & E4 & Hp4);
    [by rewrite app_nil_r|lia..|].
  replace (esp - zlen (joined ws) + zlen (joined ws) - 1 - esp) with (-1) in E4 by lia.
  rewrite Nat.add_comm in E4. rewrite length_zlen. rewrite (bind_ok _ _ _ _ _ E4).
  set (V := esp - zlen (joined ws) - Z.of_nat (Z.to_nat pd) - 4 - 4 * zlen ws) in *.
  assert (V = esp - zlen (joined ws) - pd - 4 - 4 * zlen ws) as EV by (subst V; lia). clearbody V.
  destruct (push_int_ok m low esp m4 _ _ V Hp4) as (m5 & E5 & Hp5); [lia|].
  rewrite (bind_ok _ _ _ _ _ E5).
  destruct (push_int_ok m low esp m5 _ _ (zlen ws) Hp5) as (m6 & E6 & Hp6); [lia|].
  rewrite (bind_ok _ _ _ _ _ E6). eexists m6, _. split; [done|]. split; [lia|].
  rewrite !u32_small in Hp6 by (unfold in_u32; lia).
  replace (V - 4 - 4 - 4 + 4) with (V - 4 - 4) by lia. replace (V - 4 - 4 - 4 + 12) with V by lia.
  rewrite <- !app_assoc in Hp6. exact Hp6.
Qed.

Lemma argv_entry m p b ws (i : nat) w :
  holds m p (int_bytes (ptrs b ws)) → holds m b (joined ws) → ws !! i = Some w →
  ∃ q, word_at m (p + 4 * Z.of_nat i) q ∧ holds m q (w ++ [0]) ∧ b <= q.
Proof.
  revert p b i. induction ws as [|v ws IH]; intros p b i Hp Hb Hi; [done|].
  unfold int_bytes in Hp. cbn [ptrs map concat] in Hp. apply holds_app in Hp as [Hv Hp].
  rewrite joined_cons in Hb. change (0 :: joined ws) with ([0] ++ joined ws) in Hb.
  rewrite app_assoc in Hb. apply holds_app in Hb as [Hb1 Hb2]. rewrite zlen_app in Hb2.
  change (zlen [0]) with 1 in Hb2. rewrite zlen_le_bytes in Hp. destruct i as [|i]; simpl in Hi.
  - injection Hi as ->. exists b. rewrite Z.mul_0_r, Z.add_0_r. done.
  - rewrite Z.add_assoc in Hb2.
    destruct (IH _ _ i Hp Hb2 Hi) as (q & Hq & Hw & Hbq).
    exists q. pose proof (zlen_nonneg v). split_and!; [|done|lia].
    by replace (p + 4 * Z.of_nat (S i)) with (p + Z.of_nat 4 + 4 * Z.of_nat i) by lia.
Qed.

Lemma length_ptrs b ws : length (ptrs b ws) = length ws.
Proof. revert b. induction ws as [|w ws IH]; intros b; [done|]. cbn [ptrs length]. by rewrite IH. Qed.

Lemma zlen_int_bytes zs : zlen (int_bytes zs) = 4 * zlen zs.
Proof.
  induction zs as [|z zs IH]; [done|]. unfold int_bytes in *. cbn [map concat].
  rewrite zlen_app, zlen_le_bytes, IH, zlen_cons. lia.
Qed.

(** C17. load_stack() builds the argument vector of C's calling convention:
    above a free return-address slot stand the number of words of the command
    line and the address of a vector with one pointer per word and a null
    pointer behind the last; pointer [i] points to word [i] as a
    null-terminated string.  The argument count is as 16-byte aligned as the
    initial stack pointer, and nothing outside the bytes pushed changes.
    Words are the maximal runs of characters other than the space, and the
    arguments must fit the stack page. *)
Theorem load_stack_layout m file low esp cmd :
  cstring m file cmd → mapped m low (esp - low) → (file + zlen cmd < low ∨ esp <= file) →
  0 < low → esp <= 4294967296 → stack_bytes cmd <= esp - low →
  ∃ m' sp, load_stack file esp m = Ok (sp, m') ∧ (sp + 4) mod 16 = esp mod 16 ∧
    word_at m' (sp + 4) (zlen (words [32] cmd)) ∧ word_at m' (sp + 8) (sp + 12) ∧
    (∀ (i : nat) w, words [32] cmd !! i = Some w →
       ∃ p, word_at m' (sp + 12 + 4 * Z.of_nat i) p ∧ cstring m' p w) ∧
    word_at m' (sp + 12 + 4 * zlen (words [32] cmd)) 0 ∧
    (∀ x, x < sp + 4 ∨ esp <= x → m' !! x = m !! x).
Proof.
  intros Hc Hm Hd Hl He Hn. destruct (load_stack_image m file low esp cmd) as (m' & sp & E & Es & Hp); try done.
  cbv zeta in Hp. set (ws := words [32] cmd) in *. exists m', sp. split; [done|].
  destruct Hp as [_ Hh Hf _]. apply holds_app in Hh as [H1 Hh]. apply holds_app in Hh as [H2 Hh].
  apply holds_app in Hh as [H3 Hh]. apply holds_app in Hh as [H4 Hh]. apply holds_app in Hh as [_ H5].
  rewrite !zlen_le_bytes in *. rewrite zlen_int_bytes in *. unfold zlen at 1 in H4. unfold zlen at 1 in H5.
  rewrite length_ptrs in H4, H5. fold (zlen ws) in H4, H5.
  replace (sp + 4 + Z.of_nat 4) with (sp + 8) in * by lia. replace (sp + 8 + Z.of_nat 4) with (sp + 12) in * by lia.
  split; [|split_and!; [done|done| |done|done]].
  - rewrite Es. unfold stack_bytes. fold ws. pose proof (padding_aligned (zlen (joined ws)) (zlen ws)). dlia.
  - intros i w Hi. pose proof (padding_range (zlen (joined ws)) (zlen ws)).
    assert (zlen (repeat 0 (Z.to_nat (padding (zlen (joined ws)) (zlen ws)))) = padding (zlen (joined ws)) (zlen ws)) as Er.
    { unfold zlen at 1. rewrite repeat_length. lia. }
    rewrite Er in H5. unfold stack_bytes in Es, Hn. fold ws in Es, Hn. pose proof (zlen_nonneg ws).
    assert (holds m' (esp - zlen (joined ws)) (joined ws)) as Hj.
    { match type of H5 with holds _ ?q _ => replace q with (esp - zlen (joined ws)) in H5 by lia end. exact H5. }
    destruct (argv_entry _ _ _ _ _ _ H3 Hj Hi) as (q & Hq & Hw & Hbq). exists q. split; [done|].
    destruct Hc as (_ & _ & Hz & Hu). apply words_forall in Hz, Hu. fold ws in Hz, Hu.
    rewrite Forall_forall in Hz, Hu. apply list_elem_of_lookup_2 in Hi.
    split; [lia|]. split_and!; [done|by apply Hz|by apply Hu].
Qed.

(** "a bc" in a kernel page, the stack below 4096. *)
Definition demo_mem : mem :=
  store (list_to_map ((λ x, (x, 0)) <$> seqZ 4000 96)) 8192 [97; 32; 98; 99; 0].

Lemma load_stack_layout_witness :
  ∃ m' sp, load_stack 8192 4096 demo_mem = Ok (sp, m') ∧ word_at m' (sp + 4) 2 ∧
    ∃ p, word_at m' (sp + 16) p ∧ cstring m' p [98; 99].
Proof.
  destruct (load_stack_layout demo_mem 8192 4000 4096 [97; 32; 98; 99]) as (m' & sp & E & _ & Hc & _ & Ha & _).
  - split_and!; [lia| |repeat (constructor; [discriminate|]); constructor
      |repeat (constructor; [split; lia|]); constructor].
    apply holds_store.
  - intros x Hx. unfold demo_mem. rewrite store_out by (left; lia).
    exists 0. apply elem_of_list_to_map; [rewrite <- list_fmap_compose; apply NoDup_fmap; [by intros ???|apply NoDup_seqZ]|].
    apply list_elem_of_fmap. exists x. split; [done|]. apply elem_of_seqZ. lia.
  - right. lia.
  - lia.
  - lia.
  - vm_compute. discriminate.
  - exists m', sp. split; [exact E|]. split; [exact Hc|].
    destruct (Ha 1%nat [98; 99] eq_refl) as (p & Hp & Hs). exists p.
    replace (sp + 12 + 4 * Z.of_nat 1) with (sp + 16) in Hp by lia. split; [exact Hp|exact Hs].
Defined.

(** A page of stack is not enough for every command line a page can hold: 700
    one-letter words take 1400 bytes of text and 2800 of pointers, and the
    push below the page faults in the kernel. *)
Definition long_line : list Z := concat (repeat [97; 32] 700).
Definition page_mem : mem :=
  store (list_to_map ((λ x, (x, 0)) <$> seqZ 4096 4096)) 16384 (long_line ++ [0]).

Example load_stack_overflow : load_stack 16384 8192 page_mem = Fault.
Proof. vm_compute. reflexivity. Qed.

End ArgStack.
