(* ===== verification/Wait.v ===== *)
(** * Wait: parents, children and exit codes (threads/thread.c, userprog/process.c)

    Every thread but the initial one has a wait status, a heap record shared
    with its parent: the child stores its exit code there and raises a
    semaphore, the parent waits for it, and the record is freed when both have
    dropped their reference.  The records are a finite map from addresses; a
    freed record is not in the map, so that using it is a [Fault].

    The operations below are the parts of thread_create(), process_wait(),
    process_exit(), kill() and thread_exit() that touch the records.  Each runs
    without interference: the reference count is changed under its lock, the
    rest is the record's or the thread's own.  process_wait() reads only the
    caller's own list before it blocks, so that a blocked call is the call
    made later.  [step] interleaves the operations of all threads. *)

From Stdlib Require Import ZArith Lia.
From stdpp Require Import base tactics option list numbers gmap.
From S2P Require Import Prelude.

Module Wait.

Definition NULL : Z := 0.
Definition TID_ERROR : Z := -1.
Definition INT_MAX : Z := 2147483647.

(** [o_sem_exited] is the value of the semaphore. *)
Record wait_status := mk_ws {
  o_tid : Z;
  o_sem_exited : Z;
  o_exit_code : Z;
  o_reference_count : Z;
  o_kernel_killed : Z
}.

(** The members of struct thread involved: the thread's own record and the
    list of its children's. *)
Record proc := mk_proc {
  o_wait_status : Z;
  o_children : list Z
}.

Record pstate := mk_ps {
  statuses : gmap Z wait_status;
  procs : gmap Z proc;
  next_tid : Z
}.

Definition set_statuses (f : gmap Z wait_status → gmap Z wait_status) (s : pstate) : pstate :=
  mk_ps (f (statuses s)) (procs s) (next_tid s).
Definition set_procs (f : gmap Z proc → gmap Z proc) (s : pstate) : pstate :=
  mk_ps (statuses s) (f (procs s)) (next_tid s).

Definition ws_at (p : Z) : M pstate wait_status := let* s := get in deref (statuses s !! p).
Definition put_ws (p : Z) (w : wait_status) : M pstate unit := modify (set_statuses <[p := w]>).
Definition proc_at (t : Z) : M pstate proc := let* s := get in deref (procs s !! t).
Definition put_children (t : Z) (l : list Z) : M pstate unit :=
  let* q := proc_at t in modify (set_procs <[t := mk_proc (o_wait_status q) l]>).

Definition with_sem (v : Z) (w : wait_status) : wait_status :=
  mk_ws (o_tid w) v (o_exit_code w) (o_reference_count w) (o_kernel_killed w).
Definition with_code (v : Z) (w : wait_status) : wait_status :=
  mk_ws (o_tid w) (o_sem_exited w) v (o_reference_count w) (o_kernel_killed w).
Definition with_ref (v : Z) (w : wait_status) : wait_status :=
  mk_ws (o_tid w) (o_sem_exited w) (o_exit_code w) v (o_kernel_killed w).
Definition with_killed (v : Z) (w : wait_status) : wait_status :=
  mk_ws (o_tid w) (o_sem_exited w) (o_exit_code w) (o_reference_count w) v.

Definition wait_status_mod_ref (p delta : Z) : M pstate unit :=
  let* w := ws_at p in
  let c := u32 (o_reference_count w + delta) in
  put_ws p (with_ref c w);;;
  if c =? 0 then modify (set_statuses (delete p)) else ret tt.

(** [next_tid++] on an int: the compiler's wrap-around. *)
Definition allocate_tid : M pstate Z :=
  let* s := get in
  modify (λ s, mk_ps (statuses s) (procs s) (s32 (next_tid s + 1)));;;
  ret (next_tid s).

(** thread_create() called by thread [t]; [p] is what malloc() returned.  The
    thread structure comes from palloc_get_page(), which is [ok] or not. *)
Definition thread_create (t p : Z) (ok : bool) : M pstate Z :=
  if negb ok then ret TID_ERROR
  else
    let* tid := allocate_tid in
    if p =? NULL then fault
    else
      put_ws p (mk_ws tid 0 0 0 0);;;
      modify (set_procs <[tid := mk_proc p []]>);;;
      wait_status_mod_ref p 1;;;
      let* q := proc_at t in
      put_children t (p :: o_children q);;;
      wait_status_mod_ref p 1;;;
      ret tid.

Fixpoint find_status (l : list Z) (tid : Z) : M pstate Z :=
  match l with
  | [] => ret NULL
  | p :: l =>
      let* w := ws_at p in
      if o_tid w =? tid then ret p else find_status l tid
  end.

Definition thread_get_wait_status (t tid : Z) : M pstate Z :=
  let* q := proc_at t in find_status (o_children q) tid.

(** sema_down() on the record's semaphore, of which only the value matters
    here: [Synch.sema_counts] shows of the operations of threads/synch.c that a
    sema_down() returns exactly when it has taken a positive value down by one
    and otherwise blocks with the value at 0, and that sema_up() takes it up by
    one.  The queue of waiters and the thread it makes ready belong to the
    scheduler; here a blocked call is tried again in a later state. *)
Definition sema_down (p : Z) : M pstate unit :=
  let* w := ws_at p in
  if o_sem_exited w >? 0 then put_ws p (with_sem (o_sem_exited w - 1) w)
  else
    suspend;;;
    let* w := ws_at p in
    if o_sem_exited w >? 0 then put_ws p (with_sem (o_sem_exited w - 1) w) else no_fuel.

Definition process_wait (t child_tid : Z) : M pstate Z :=
  let* p := thread_get_wait_status t child_tid in
  if p =? NULL then ret (-1)
  else
    sema_down p;;;
    let* w := ws_at p in
    let exit_code := if negb (o_kernel_killed w =? 0) then -1 else s32 (o_exit_code w) in
    let* q := proc_at t in
    put_children t (filter (λ c, c ≠ p) (o_children q));;;
    wait_status_mod_ref p (-1);;;
    ret exit_code.

(** The system call exit(): [cur->o_wait_status->o_exit_code = exit_code]. *)
Definition set_exit_code (t exit_code : Z) : M pstate unit :=
  let* q := proc_at t in
  let* w := ws_at (o_wait_status q) in
  put_ws (o_wait_status q) (with_code (u32 exit_code) w).

(** kill(): the process dies of an exception. *)
Definition kill_status (t : Z) : M pstate unit :=
  let* q := proc_at t in
  let* w := ws_at (o_wait_status q) in
  put_ws (o_wait_status q) (with_killed 1 w).

(** process_exit(): the child has finished. *)
Definition process_exit_status (t : Z) : M pstate unit :=
  let* q := proc_at t in
  let* w := ws_at (o_wait_status q) in
  put_ws (o_wait_status q) (with_sem (o_sem_exited w + 1) w).

Fixpoint drop_children (l : list Z) : M pstate unit :=
  match l with
  | [] => ret tt
  | p :: l => wait_status_mod_ref p (-1);;; drop_children l
  end.

(** The end of thread_exit(), with interrupts off. *)
Definition thread_exit_status (t : Z) : M pstate unit :=
  let* q := proc_at t in
  drop_children (o_children q);;;
  wait_status_mod_ref (o_wait_status q) (-1);;;
  modify (set_procs (delete t)).

(** ** Interleavings *)

Inductive event :=
| Created (t c : Z)
| Exiting (t code : Z)       (* exit (code) *)
| Killed (t : Z)
| Finished (t : Z)
| Gone (t : Z)
| Waited (t c code : Z).     (* process_wait (c) found the child *)

(** A thread that has finished only runs to its end. *)
Record config := mk_config {
  ps : pstate;
  finished : gset Z;
  trace : list event
}.

(** The state after thread_init(): the initial thread, tid 1, has no record. *)
Definition initial : config := mk_config (mk_ps ∅ {[1 := mk_proc NULL []]} 2) ∅ [].

Definition active (c : config) (t : Z) : Prop := is_Some (procs (ps c) !! t) ∧ t ∉ finished c.

(** One operation of one thread.  Threads are created only while the tid
    counter has not reached the largest int. *)
Inductive step : config → config → Prop :=
| step_create c t p tid s' :
    active c t → p ≠ NULL → statuses (ps c) !! p = None → next_tid (ps c) < INT_MAX →
    thread_create t p true (ps c) = Ok (tid, s') →
    step c (mk_config s' (finished c) (Created t tid :: trace c))
| step_code c t code s' :
    active c t → set_exit_code t code (ps c) = Ok (tt, s') →
    step c (mk_config s' (finished c) (Exiting t code :: trace c))
| step_kill c t s' :
    active c t → kill_status t (ps c) = Ok (tt, s') →
    step c (mk_config s' (finished c) (Killed t :: trace c))
| step_wait c t child code s' :
    active c t → (∃ p s1, p ≠ NULL ∧ thread_get_wait_status t child (ps c) = Ok (p, s1)) →
    process_wait t child (ps c) = Ok (code, s') →
    step c (mk_config s' (finished c) (Waited t child code :: trace c))
| step_finish c t s' :
    active c t → process_exit_status t (ps c) = Ok (tt, s') →
    step c (mk_config s' ({[t]} ∪ finished c) (Finished t :: trace c))
| step_gone c t s' :
    t ∈ finished c → is_Some (procs (ps c) !! t) → thread_exit_status t (ps c) = Ok (tt, s') →
    step c (mk_config s' (finished c) (Gone t :: trace c)).

Inductive reachable : config → Prop :=
| reach_initial : reachable initial
| reach_step c c' : reachable c → step c c' → reachable c'.

(** ** The structure of the records *)

Definition held (pr : gmap Z proc) (p : Z) : Prop := ∃ t q, pr !! t = Some q ∧ p ∈ o_children q.

(** [n] is 1 or 0 as [P] holds or not. *)
Definition counts (P : Prop) (n : Z) : Prop := (P ∧ n = 1) ∨ (¬ P ∧ n = 0).

Definition core (w : wait_status) : Z * Z := (o_tid w, o_reference_count w).

(** Who has which record, and the reference counts: one for the thread while
    it lives, one for the parent's list. *)
Record shape (cm : gmap Z (Z * Z)) (pr : gmap Z proc) (n : Z) : Prop := {
  s_null : cm !! NULL = None;
  s_own : ∀ t q, pr !! t = Some q →
    (t = 1 ∧ o_wait_status q = NULL) ∨ ∃ r, cm !! o_wait_status q = Some (t, r);
  s_child : ∀ t q p, pr !! t = Some q → p ∈ o_children q → is_Some (cm !! p);
  s_nodup : ∀ t q, pr !! t = Some q → NoDup (o_children q);
  s_holder : ∀ t1 t2 q1 q2 p, pr !! t1 = Some q1 → pr !! t2 = Some q2 →
    p ∈ o_children q1 → p ∈ o_children q2 → t1 = t2;
  s_tid : ∀ p1 p2 c r1 r2, cm !! p1 = Some (c, r1) → cm !! p2 = Some (c, r2) → p1 = p2;
  s_live : ∀ t q, pr !! t = Some q → 1 <= t < n;
  s_range : ∀ p c r, cm !! p = Some (c, r) → 2 <= c < n;
  s_ref : ∀ p c r, cm !! p = Some (c, r) →
    ∃ a b, counts (is_Some (pr !! c)) a ∧ counts (held pr p) b ∧ r = a + b ∧ 0 < r
}.

Abbreviation cores s := (core <$> statuses s) (only parsing).

Lemma counts_range P n : counts P n → 0 <= n <= 1.
Proof. intros [[_ ->]|[_ ->]]; lia. Qed.

Lemma counts_iff P Q n : (P ↔ Q) → counts P n → counts Q n.
Proof. unfold counts. tauto. Qed.

Lemma ref_range cm pr n p c r : shape cm pr n → cm !! p = Some (c, r) → 1 <= r <= 2.
Proof.
  intros Hs Hp. destruct (s_ref _ _ _ Hs _ _ _ Hp) as (a & b & Ha%counts_range & Hb%counts_range & -> & ?). lia.
Qed.

(** ** What the operations do *)

Lemma core_lookup s p w : statuses s !! p = Some w → cores s !! p = Some (core w).
Proof. intros H. by rewrite lookup_fmap, H. Qed.

Lemma core_inv s p c r : cores s !! p = Some (c, r) →
  ∃ w, statuses s !! p = Some w ∧ o_tid w = c ∧ o_reference_count w = r.
Proof.
  rewrite lookup_fmap. destruct (statuses s !! p) as [w|]; [|done]. intros [= <- <-]. by exists w.
Qed.

(** One reference less. *)
Definition dec_ref (o : option wait_status) : option wait_status :=
  w ← o; if o_reference_count w =? 1 then None else Some (with_ref (o_reference_count w - 1) w).

Lemma mod_ref_dec s p w : statuses s !! p = Some w → 1 <= o_reference_count w <= 2 →
  wait_status_mod_ref p (-1) s =
    Ok (tt, set_statuses (λ m, partial_alter dec_ref p m) s).
Proof.
  intros Hp Hr. unfold wait_status_mod_ref, ws_at, put_ws. run. rewrite Hp. unfold deref. run.
  rewrite u32_small by (unfold in_u32; lia).
  destruct (Z.eqb_spec (o_reference_count w) 1) as [E|E].
  - rewrite (proj2 (Z.eqb_eq _ 0)) by lia. unfold modify. do 2 f_equal. unfold set_statuses. simpl. f_equal.
    apply map_eq. intros q. destruct (decide (q = p)) as [->|Hq].
    + by rewrite lookup_delete_eq, lookup_partial_alter_eq, Hp; unfold dec_ref; simpl; rewrite E.
    + by rewrite lookup_delete_ne, lookup_insert_ne, lookup_partial_alter_ne.
  - rewrite (proj2 (Z.eqb_neq _ 0)) by lia. unfold ret. do 2 f_equal. unfold set_statuses. simpl. f_equal.
    apply map_eq. intros q. destruct (decide (q = p)) as [->|Hq].
    + rewrite lookup_insert_eq, lookup_partial_alter_eq, Hp. unfold dec_ref. simpl.
      by rewrite (proj2 (Z.eqb_neq _ 1)).
    + by rewrite lookup_insert_ne, lookup_partial_alter_ne.
Qed.

Lemma drop_children_ok l s : NoDup l →
  (∀ p, p ∈ l → ∃ w, statuses s !! p = Some w ∧ 1 <= o_reference_count w <= 2) →
  ∃ s', drop_children l s = Ok (tt, s') ∧ procs s' = procs s ∧ next_tid s' = next_tid s ∧
    ∀ p, statuses s' !! p = if decide (p ∈ l) then dec_ref (statuses s !! p) else statuses s !! p.
Proof.
  intros Hnd. revert s. induction Hnd as [|p l Hp Hnd IH]; intros s Hl.
  { exists s. split; [done|]. split; [done|]. split; [done|]. intros p.
    rewrite decide_False; [done|]. apply not_elem_of_nil. }
  destruct (Hl p ltac:(left)) as (w & Hw & Hr). cbn [drop_children].
  rewrite (bind_ok _ _ _ _ _ (mod_ref_dec _ _ _ Hw Hr)).
  destruct (IH (set_statuses (λ m, partial_alter dec_ref p m) s)) as (s' & E & Hpr & Hn & Hs').
  { intros q Hq. simpl. rewrite lookup_partial_alter_ne by congruence. apply Hl. by right. }
  exists s'. split; [done|]. split; [by rewrite Hpr|]. split; [by rewrite Hn|].
  intros q. rewrite Hs'. simpl. destruct (decide (q = p)) as [->|Hq].
  - rewrite decide_False by done. rewrite decide_True by left. by rewrite lookup_partial_alter_eq.
  - rewrite lookup_partial_alter_ne by done. destruct (decide (q ∈ l)).
    + rewrite decide_True by (by right). done.
    + rewrite decide_False; [done|]. by rewrite elem_of_cons; intros [].
Qed.

Lemma find_status_ok l tid s :
  (∀ p, p ∈ l → is_Some (statuses s !! p)) → (∀ p, p ∈ l → p ≠ NULL) →
  ∃ p, find_status l tid s = Ok (p, s) ∧
    ((p = NULL ∧ ∀ q w, q ∈ l → statuses s !! q = Some w → o_tid w ≠ tid) ∨
     (p ∈ l ∧ ∃ w, statuses s !! p = Some w ∧ o_tid w = tid)).
Proof.
  intros Hl Hn. induction l as [|p l IH]; cbn [find_status].
  { exists NULL. split; [done|]. left. split; [done|]. by intros q w ?%elem_of_nil. }
  destruct (Hl p ltac:(left)) as [w Hw]. unfold ws_at. run. rewrite Hw. unfold deref. run.
  destruct (Z.eqb_spec (o_tid w) tid) as [E|E].
  - exists p. split; [done|]. right. split; [left|]. by exists w.
  - destruct IH as (p' & E' & Hp'); [intros; apply Hl; by right|intros; apply Hn; by right|].
    exists p'. split; [done|]. destruct Hp' as [[-> H]|[Hin H]].
    + left. split; [done|]. intros q v [->|Hq]%elem_of_cons Hv; [congruence|by eapply H].
    + right. split; [by right|done].
Qed.

(** ** The structure is preserved *)

Lemma held_mono pr pr' p :
  (∀ t q', pr' !! t = Some q' → ∃ q, pr !! t = Some q ∧ ∀ x, x ∈ o_children q' → x ∈ o_children q) →
  held pr' p → held pr p.
Proof. intros H (t & q' & Ht & Hp). destruct (H _ _ Ht) as (q & Hq & Hsub). exists t, q. auto. Qed.

(** References go: threads end, lists get shorter, and each count follows. *)
Lemma shape_shrink cm pr cm' pr' n : shape cm pr n →
  (∀ t q', pr' !! t = Some q' → ∃ q, pr !! t = Some q ∧ o_wait_status q' = o_wait_status q ∧
     (∀ x, x ∈ o_children q' → x ∈ o_children q) ∧ NoDup (o_children q')) →
  (∀ p e, cm' !! p = Some e → is_Some (cm !! p)) →
  (∀ p c r, cm !! p = Some (c, r) →
     ∃ a b, counts (is_Some (pr' !! c)) a ∧ counts (held pr' p) b ∧
       ((a + b = 0 ∧ cm' !! p = None) ∨ (0 < a + b ∧ cm' !! p = Some (c, a + b)))) →
  shape cm' pr' n.
Proof.
  intros Hs H1 H2 H3.
  assert (∀ p c r', cm' !! p = Some (c, r') → ∃ r, cm !! p = Some (c, r)) as H2'.
  { intros p c r' Hp. destruct (H2 _ _ Hp) as [[c0 r0] H0].
    destruct (H3 _ _ _ H0) as (a & b & _ & _ & [[_ E]|[_ E]]); [congruence|].
    rewrite Hp in E. injection E as -> ->. by exists r0. }
  split.
  - destruct (cm' !! NULL) as [[c r]|] eqn:E; [|done].
    destruct (H2' _ _ _ E) as [r0 H0]. by rewrite (s_null _ _ _ Hs) in H0.
  - intros t q' Ht. destruct (H1 _ _ Ht) as (q & Hq & Eo & _). rewrite Eo.
    destruct (s_own _ _ _ Hs _ _ Hq) as [?|[r Hr]]; [by left|right].
    destruct (H3 _ _ _ Hr) as (a & b & [[_ ->]|[Hn _]] & Hb%counts_range & Hc); [|by rewrite Ht in Hn; destruct Hn].
    destruct Hc as [[? _]|[_ E]]; [lia|]. by eexists.
  - intros t q' p Ht Hp. destruct (H1 _ _ Ht) as (q & Hq & _ & Hsub & _).
    destruct (s_child _ _ _ Hs _ _ _ Hq (Hsub _ Hp)) as [[c r] Hcr].
    destruct (H3 _ _ _ Hcr) as (a & b & Ha%counts_range & [[_ ->]|[Hn _]] & Hc); [|destruct Hn; by exists t, q'].
    destruct Hc as [[? _]|[_ E]]; [lia|]. by eexists.
  - intros t q' Ht. by destruct (H1 _ _ Ht) as (q & _ & _ & _ & ?).
  - intros t1 t2 q1 q2 p E1 E2 Hp1 Hp2. destruct (H1 _ _ E1) as (? & ? & _ & S1 & _).
    destruct (H1 _ _ E2) as (? & ? & _ & S2 & _). eapply (s_holder _ _ _ Hs); eauto.
  - intros p1 p2 c r1 r2 E1 E2. destruct (H2' _ _ _ E1), (H2' _ _ _ E2). by eapply (s_tid _ _ _ Hs).
  - intros t q' Ht. destruct (H1 _ _ Ht) as (q & Hq & _). by eapply (s_live _ _ _ Hs).
  - intros p c r' Hp. destruct (H2' _ _ _ Hp). by eapply (s_range _ _ _ Hs).
  - intros p c r' Hp. destruct (H2' _ _ _ Hp) as [r Hr].
    destruct (H3 _ _ _ Hr) as (a & b & Ha & Hb & Hc). exists a, b.
    destruct Hc as [[_ E]|[Hab E]]; [congruence|]. rewrite Hp in E. by injection E as ->.
Qed.

(** A new thread. *)
Lemma shape_create cm pr n t q p : shape cm pr n → cm !! p = None → p ≠ NULL → pr !! t = Some q →
  shape (<[p := (n, 2)]> cm)
    (<[t := mk_proc (o_wait_status q) (p :: o_children q)]> (<[n := mk_proc p []]> pr)) (n + 1).
Proof.
  intros Hs Hp Hp0 Ht. pose proof (s_live _ _ _ Hs _ _ Ht) as Htn.
  assert (pr !! n = None) as Hn.
  { destruct (pr !! n) eqn:E; [|done]. apply (s_live _ _ _ Hs) in E. lia. }
  set (pr' := <[t := _]> _).
  assert (∀ t' q', pr' !! t' = Some q' →
    (t' = t ∧ q' = mk_proc (o_wait_status q) (p :: o_children q)) ∨
    (t' ≠ t ∧ t' = n ∧ q' = mk_proc p []) ∨ (t' ≠ t ∧ t' ≠ n ∧ pr !! t' = Some q')) as Hpr'.
  { intros t' q'. subst pr'. destruct (decide (t' = t)) as [->|]; [rewrite lookup_insert_eq; naive_solver|].
    rewrite lookup_insert_ne by done. destruct (decide (t' = n)) as [->|]; [rewrite lookup_insert_eq; naive_solver|].
    rewrite lookup_insert_ne by done. naive_solver. }
  assert (∀ t', is_Some (pr' !! t') ↔ is_Some (pr !! t') ∨ t' = n) as Hdom.
  { intros t'. subst pr'. rewrite !lookup_insert_is_Some'. naive_solver. }
  assert (∀ x, held pr' x ↔ held pr x ∨ x = p) as Hheld.
  { intros x. split.
    - intros (t' & q' & E & Hx). destruct (Hpr' _ _ E) as [(-> & ->)|[(_ & -> & ->)|(_ & _ & E')]].
      + apply elem_of_cons in Hx as [->|Hx]; [by right|]. left. by exists t, q.
      + by apply elem_of_nil in Hx.
      + left. by exists t', q'.
    - intros [(t' & q' & E & Hx)| ->].
      + destruct (decide (t' = t)) as [->|].
        * exists t, (mk_proc (o_wait_status q) (p :: o_children q)). split; [apply lookup_insert_eq|]. right. congruence.
        * exists t', q'. split; [|done]. subst pr'. rewrite !lookup_insert_ne; [done|congruence|congruence].
      + exists t, (mk_proc (o_wait_status q) (p :: o_children q)). split; [apply lookup_insert_eq|left]. }
  assert (∀ x, held pr x → x ≠ p) as Hnew.
  { intros x (t' & q' & E & Hx) ->. destruct (s_child _ _ _ Hs _ _ _ E Hx) as [? Hx']. congruence. }
  assert (∀ x e, cm !! x = Some e → (<[p := (n, 2)]> cm) !! x = Some e) as Hold.
  { intros x e Hx. rewrite lookup_insert_ne by congruence. done. }
  split.
  - rewrite lookup_insert_ne by done. apply Hs.
  - intros t' q' E. destruct (Hpr' _ _ E) as [(-> & ->)|[(_ & -> & ->)|(_ & _ & E')]].
    + destruct (s_own _ _ _ Hs _ _ Ht) as [?|[r Hr]]; [by left|right]. exists r. by apply Hold.
    + right. exists 2. apply lookup_insert_eq.
    + destruct (s_own _ _ _ Hs _ _ E') as [?|[r Hr]]; [by left|right]. exists r. by apply Hold.
  - intros t' q' x E Hx. assert (held pr' x) as [(t0 & q0 & E0 & Hx0)| ->]%Hheld by (by exists t', q').
    + destruct (s_child _ _ _ Hs _ _ _ E0 Hx0) as [e He]. exists e. by apply Hold.
    + rewrite lookup_insert_eq. by eexists.
  - intros t' q' E. destruct (Hpr' _ _ E) as [(-> & ->)|[(_ & -> & ->)|(_ & _ & E')]].
    + constructor; [|by eapply (s_nodup _ _ _ Hs)]. intros Hx. by apply (Hnew p); [exists t, q|].
    + constructor.
    + by eapply (s_nodup _ _ _ Hs).
  - intros t1 t2 q1 q2 x E1 E2 X1 X2.
    assert (∀ t' q', pr' !! t' = Some q' → x ∈ o_children q' →
      (x = p ∧ t' = t) ∨ (x ≠ p ∧ ∃ q0, pr !! t' = Some q0 ∧ x ∈ o_children q0)) as Hc.
    { intros t' q' E X. destruct (Hpr' _ _ E) as [(-> & ->)|[(_ & -> & ->)|(_ & _ & E')]].
      - apply elem_of_cons in X as [->|X]; [by left|right]. split; [apply Hnew; by exists t, q|by exists q].
      - by apply elem_of_nil in X.
      - right. split; [apply Hnew; by exists t', q'|by exists q']. }
    destruct (Hc _ _ E1 X1) as [[-> ->]|(? & ? & ? & ?)], (Hc _ _ E2 X2) as [[? ?]|(? & ? & ? & ?)]; try congruence.
    by eapply (s_holder _ _ _ Hs).
  - assert (∀ x c r, (<[p := (n, 2)]> cm) !! x = Some (c, r) → (x = p ∧ c = n) ∨ (c < n ∧ cm !! x = Some (c, r))) as Hx.
    { intros x c r. destruct (decide (x = p)) as [->|]; [rewrite lookup_insert_eq; naive_solver|].
      rewrite lookup_insert_ne by done. intros E. right. split; [|done]. by apply (s_range _ _ _ Hs) in E as [_ ?]. }
    intros p1 p2 c r1 r2 [[-> E1]|[E1 H1]]%Hx [[-> E2]|[E2 H2]]%Hx; [done|lia|lia|]. by eapply (s_tid _ _ _ Hs).
  - intros t' q' E. assert (is_Some (pr' !! t')) as [[q0 H0]| ->]%Hdom by (by eexists); [|lia].
    apply (s_live _ _ _ Hs) in H0. lia.
  - intros x c r. destruct (decide (x = p)) as [->|]; [rewrite lookup_insert_eq; intros [= <- <-]; lia|].
    rewrite lookup_insert_ne by done. intros E%(s_range _ _ _ Hs). lia.
  - intros x c r. destruct (decide (x = p)) as [->|Hx].
    + rewrite lookup_insert_eq. intros [= <- <-]. exists 1, 1. split; [left; split; [apply Hdom; by right|done]|].
      split; [left; split; [apply Hheld; by right|done]|lia].
    + rewrite lookup_insert_ne by done. intros E. pose proof (s_range _ _ _ Hs _ _ _ E) as Hc.
      destruct (s_ref _ _ _ Hs _ _ _ E) as (a & b & Ha & Hb & Hr). exists a, b. split; [|split; [|done]].
      * eapply counts_iff; [|exact Ha]. rewrite Hdom. split; [by left|intros [?| ->]; [done|lia]].
      * eapply counts_iff; [|exact Hb]. rewrite Hheld. split; [by left|by intros [?| ->]].
Qed.

(** The record [p] off the list of [t], which is the only one it is on. *)
Lemma held_collect cm pr n t q p x : shape cm pr n → pr !! t = Some q → p ∈ o_children q →
  held (<[t := mk_proc (o_wait_status q) (filter (λ c, c ≠ p) (o_children q))]> pr) x ↔ held pr x ∧ x ≠ p.
Proof.
  intros Hs Ht Hp. split.
  - intros (t' & q' & E & Hx). destruct (decide (t' = t)) as [->|].
    + rewrite lookup_insert_eq in E. injection E as <-. apply list_elem_of_filter in Hx as [Hx ?].
      split; [by exists t, q|done].
    + rewrite lookup_insert_ne in E by done. split; [by exists t', q'|]. intros ->.
      by rewrite (s_holder _ _ _ Hs _ _ _ _ _ E Ht Hx Hp) in *.
  - intros [(t' & q' & E & Hx) Hne]. destruct (decide (t' = t)) as [->|].
    + eexists t, _. split; [apply lookup_insert_eq|]. apply list_elem_of_filter. split; [done|congruence].
    + exists t', q'. split; [|done]. by rewrite lookup_insert_ne.
Qed.

(** process_wait() takes the record [p] off the list of [t]. *)
Lemma shape_collect s t q p w : shape (cores s) (procs s) (next_tid s) → procs s !! t = Some q →
  p ∈ o_children q → statuses s !! p = Some w →
  shape (core <$> partial_alter dec_ref p (statuses s))
    (<[t := mk_proc (o_wait_status q) (filter (λ c, c ≠ p) (o_children q))]> (procs s)) (next_tid s).
Proof.
  intros Hs Ht Hp Hw. set (pr' := <[t := _]> (procs s)).
  assert (∀ t', is_Some (pr' !! t') ↔ is_Some (procs s !! t')) as Hdom.
  { intros t'. subst pr'. rewrite lookup_insert_is_Some'. split; [intros [<-|?]; [by eexists|done]|by right]. }
  assert (∀ x, held pr' x ↔ held (procs s) x ∧ x ≠ p) as Hheld by (intros x; by eapply held_collect).
  apply (shape_shrink _ _ _ _ _ Hs).
  - intros t' q' E. subst pr'. destruct (decide (t' = t)) as [->|].
    + rewrite lookup_insert_eq in E. injection E as <-. exists q. split; [done|]. split; [done|].
      split; [by intros x [_ ?]%list_elem_of_filter|]. apply NoDup_filter. by eapply (s_nodup _ _ _ Hs).
    + rewrite lookup_insert_ne in E by done. exists q'. split; [done|]. split; [done|]. split; [done|].
      by eapply (s_nodup _ _ _ Hs).
  - intros x e. rewrite !lookup_fmap. destruct (decide (x = p)) as [->|].
    + rewrite Hw. by eexists.
    + rewrite lookup_partial_alter_ne by done. by destruct (statuses s !! x).
  - intros x c r E. destruct (s_ref _ _ _ Hs _ _ _ E) as (a & b & Ha & Hb & -> & Hpos).
    destruct (core_inv _ _ _ _ E) as (v & Hv & Ec & Er).
    destruct (decide (x = p)) as [->|Hx].
    + exists a, 0. split; [by eapply counts_iff; [symmetry; apply Hdom|]|].
      split; [right; split; [|done]; by intros [_ ?]%Hheld|].
      destruct Hb as [[_ ->]|[Hn _]]; [|destruct Hn; by exists t, q].
      rewrite Z.add_0_r. rewrite lookup_fmap, lookup_partial_alter_eq, Hv. unfold dec_ref. simpl. rewrite Er.
      apply counts_range in Ha. destruct (Z.eqb_spec (a + 1) 1).
      * left. split; [lia|done].
      * right. split; [lia|]. simpl. unfold core. simpl. rewrite Ec, ?Er. do 2 f_equal. lia.
    + exists a, b. split; [by eapply counts_iff; [symmetry; apply Hdom|]|].
      split; [eapply counts_iff; [|exact Hb]; rewrite Hheld; naive_solver|]. right. split; [done|].
      rewrite lookup_fmap, lookup_partial_alter_ne by done. by rewrite <- lookup_fmap.
Qed.

(** A thread ends: it drops its children's records and its own. *)
Lemma shape_gone s s1 t q : shape (cores s) (procs s) (next_tid s) → procs s !! t = Some q → t ≠ 1 →
  (∀ p, statuses s1 !! p = if decide (p ∈ o_children q) then dec_ref (statuses s !! p) else statuses s !! p) →
  shape (core <$> partial_alter dec_ref (o_wait_status q) (statuses s1)) (delete t (procs s)) (next_tid s).
Proof.
  intros Hs Ht Ht1 H1. destruct (s_own _ _ _ Hs _ _ Ht) as [[? _]|[ro Hro]]; [done|].
  assert (∀ x c r, cores s !! x = Some (c, r) → x = o_wait_status q ↔ c = t) as Hown.
  { intros x c r Hx. split; [intros ->; rewrite Hro in Hx; by injection Hx|intros ->; by eapply (s_tid _ _ _ Hs)]. }
  apply (shape_shrink _ _ _ _ _ Hs).
  - intros t' q' [? E]%lookup_delete_Some. exists q'. split; [done|]. split; [done|]. split; [done|].
    by eapply (s_nodup _ _ _ Hs).
  - intros x e. rewrite !lookup_fmap.
    destruct (decide (x = o_wait_status q)) as [->|].
    + rewrite lookup_partial_alter_eq, H1. rewrite lookup_fmap in Hro. by destruct (statuses s !! o_wait_status q).
    + rewrite lookup_partial_alter_ne by done. rewrite H1. case_decide; destruct (statuses s !! x); by eauto.
  - intros x c r E. destruct (s_ref _ _ _ Hs _ _ _ E) as (a & b & Ha & Hb & -> & Hpos).
    destruct (core_inv _ _ _ _ E) as (v & Hv & Ec & Er).
    assert (∃ a', counts (is_Some (delete t (procs s) !! c)) a' ∧ a' = a - (if decide (c = t) then 1 else 0)) as (a' & Ha' & Ea).
    { destruct (decide (c = t)) as [->|Hc].
      - exists 0. split; [right; split; [rewrite lookup_delete_eq; by intros [? ?]|done]|].
        destruct Ha as [[_ ->]|[Hn _]]; [done|]. destruct Hn. by eexists.
      - exists a. rewrite lookup_delete_ne by done. split; [done|lia]. }
    assert (∃ b', counts (held (delete t (procs s)) x) b' ∧ b' = b - (if decide (x ∈ o_children q) then 1 else 0)) as (b' & Hb' & Eb).
    { destruct (decide (x ∈ o_children q)) as [Hx|Hx].
      - exists 0. split; [right; split; [|done]|].
        + intros (t' & q' & [Hne E']%lookup_delete_Some & Hx'). apply Hne. by eapply (s_holder _ _ _ Hs).
        + destruct Hb as [[_ ->]|[Hn _]]; [done|]. destruct Hn. by exists t, q.
      - exists b. split; [|lia]. eapply counts_iff; [|exact Hb]. split.
        + intros (t' & q' & E' & Hx'). exists t', q'. split; [|done]. rewrite lookup_delete_ne; [done|congruence].
        + intros (t' & q' & [_ E']%lookup_delete_Some & Hx'). by exists t', q'. }
    exists a', b'. split; [done|]. split; [done|].
    apply counts_range in Ha, Hb, Ha', Hb'. rewrite lookup_fmap.
    assert (x = o_wait_status q ↔ c = t) as Hxc by (by eapply Hown).
    assert ((x ∈ o_children q → b' = b - 1) ∧ (x ∉ o_children q → b' = b)) as [Hb1 Hb0]
      by (rewrite Eb; split; intros; case_decide; (done || lia)).
    destruct (decide (c = t)) as [Hct|Hct].
    + rewrite (proj2 Hxc Hct) in *. rewrite lookup_partial_alter_eq, H1, Hv.
      assert (a = 1) as -> by lia. unfold dec_ref. case_decide; simpl.
      * assert (b = 1) as -> by (specialize (Hb1 ltac:(done)); lia). specialize (Hb1 ltac:(done)). rewrite Er. simpl. left. split; [lia|done].
      * specialize (Hb0 ltac:(done)). rewrite Er. destruct (Z.eqb_spec (1 + b) 1); simpl; [left; split; [lia|done]|].
        right. split; [lia|]. unfold core. simpl. rewrite Ec, ?Er. do 2 f_equal. lia.
    + rewrite lookup_partial_alter_ne by (intros Heq; apply Hct, Hxc; done). rewrite H1, Hv. unfold dec_ref. case_decide; simpl; rewrite ?Er.
      * specialize (Hb1 ltac:(done)). destruct (Z.eqb_spec (a + b) 1); simpl; [left; split; [lia|done]|].
        right. split; [lia|]. unfold core. simpl. rewrite Ec, ?Er. do 2 f_equal. lia.
      * specialize (Hb0 ltac:(done)). right. split; [lia|]. unfold core. rewrite Ec, ?Er. do 2 f_equal. lia.
Qed.

(** ** The protocol *)

Fixpoint code_of (tr : list event) (c : Z) : Z :=
  match tr with
  | [] => 0
  | Exiting t code :: tr => if t =? c then code else code_of tr c
  | _ :: tr => code_of tr c
  end.

Fixpoint killed_of (tr : list event) (c : Z) : bool :=
  match tr with
  | [] => false
  | Killed t :: tr => (t =? c) || killed_of tr c
  | _ :: tr => killed_of tr c
  end.

(** What a parent should learn about [c]. *)
Definition verdict (tr : list event) (c : Z) : Z :=
  if killed_of tr c then -1 else s32 (u32 (code_of tr c)).

Fixpoint waits (tr : list event) : list Z :=
  match tr with
  | [] => []
  | Waited _ c _ :: tr => c :: waits tr
  | _ :: tr => waits tr
  end.

Record inv (c : config) : Prop := {
  v_shape : shape (cores (ps c)) (procs (ps c)) (next_tid (ps c));
  v_sem : ∀ p w, statuses (ps c) !! p = Some w → held (procs (ps c)) p →
    (active c (o_tid w) ∧ o_sem_exited w = 0) ∨ (¬ active c (o_tid w) ∧ o_sem_exited w = 1);
  v_code : ∀ p w, statuses (ps c) !! p = Some w →
    o_exit_code w = u32 (code_of (trace c) (o_tid w)) ∧
    o_kernel_killed w = if killed_of (trace c) (o_tid w) then 1 else 0;
  v_fin : ∀ t, t ∈ finished c → Finished t ∈ trace c ∧ t < next_tid (ps c);
  v_gone : ∀ t, 1 <= t < next_tid (ps c) → procs (ps c) !! t = None → t ∈ finished c;
  v_parent : ∀ t q p w, procs (ps c) !! t = Some q → p ∈ o_children q →
    statuses (ps c) !! p = Some w → Created t (o_tid w) ∈ trace c;
  v_new : ∀ t, next_tid (ps c) <= t → code_of (trace c) t = 0 ∧ killed_of (trace c) t = false;
  v_waited : ∀ t ch code, Waited t ch code ∈ trace c →
    code = verdict (trace c) ch ∧ ch ∈ finished c ∧ Created t ch ∈ trace c;
  v_unheld : ∀ ch p w, ch ∈ waits (trace c) → statuses (ps c) !! p = Some w → o_tid w = ch →
    ¬ held (procs (ps c)) p;
  v_once : NoDup (waits (trace c))
}.

Lemma inv_initial : inv initial.
Proof.
  assert (∀ t q, procs (ps initial) !! t = Some q → t = 1 ∧ q = mk_proc NULL []) as Hp.
  { intros t q. cbn [ps initial procs]. intros [<- <-]%lookup_singleton_Some. done. }
  split; [split|..]; simpl.
  - done.
  - intros t q [-> ->]%Hp. by left.
  - intros t q p [-> ->]%Hp H. by apply elem_of_nil in H.
  - intros t q [-> ->]%Hp. constructor.
  - intros t1 t2 q1 q2 p [-> _]%Hp [-> _]%Hp. done.
  - done.
  - intros t q [-> ->]%Hp. lia.
  - done.
  - done.
  - done.
  - done.
  - intros t H. by apply not_elem_of_empty in H.
  - intros t Ht. assert (t = 1) as -> by lia. by rewrite lookup_singleton_eq.
  - intros t q p w [-> ->]%Hp H. by apply elem_of_nil in H.
  - done.
  - intros t ch code H. by apply elem_of_nil in H.
  - intros ch p w H. by apply elem_of_nil in H.
  - constructor.
Qed.

(** The thread's own record. *)
Lemma own_status c t q w : inv c → procs (ps c) !! t = Some q →
  statuses (ps c) !! o_wait_status q = Some w → o_tid w = t.
Proof.
  intros Hi Ht Hw. destruct (s_own _ _ _ (v_shape _ Hi) _ _ Ht) as [[_ E]|[r E]].
  - pose proof (s_null _ _ _ (v_shape _ Hi)) as Hn. rewrite lookup_fmap, <- E, Hw in Hn. done.
  - rewrite lookup_fmap, Hw in E. by injection E.
Qed.

(** Changes of a thread's own record that keep its owner and its references. *)
Definition update (f : wait_status → wait_status) (t : Z) : M pstate unit :=
  let* q := proc_at t in
  let* w := ws_at (o_wait_status q) in
  put_ws (o_wait_status q) (f w).

Lemma update_ok f t s q w : procs s !! t = Some q → statuses s !! o_wait_status q = Some w →
  update f t s = Ok (tt, set_statuses <[o_wait_status q := f w]> s).
Proof. intros Ht Hw. unfold update, proc_at, ws_at, put_ws. run. rewrite Ht. run. unfold deref. run. rewrite Hw. by run. Qed.

Lemma update_inv f t s s' : update f t s = Ok (tt, s') →
  ∃ q w, procs s !! t = Some q ∧ statuses s !! o_wait_status q = Some w ∧
    s' = set_statuses <[o_wait_status q := f w]> s.
Proof.
  unfold update, proc_at, ws_at, put_ws. run. destruct (procs s !! t) as [q|]; [|done]. unfold deref at 1. run.
  destruct (statuses s !! o_wait_status q) as [w|] eqn:Ew; [|done]. unfold deref. run. intros [= <-]. by exists q, w.
Qed.

Lemma update_cores f s p w : statuses s !! p = Some w → core (f w) = core w →
  cores (set_statuses <[p := f w]> s) = cores s.
Proof.
  intros Hw Hc. simpl. rewrite fmap_insert, Hc. apply insert_id. by rewrite lookup_fmap, Hw.
Qed.

(** What is common to exit(), kill() and process_exit(). *)
Section update_step.
Context (c : config) (f : wait_status → wait_status) (t : Z) (q : proc) (w : wait_status).
Hypothesis Hi : inv c.
Hypothesis Ht : procs (ps c) !! t = Some q.
Hypothesis Hw : statuses (ps c) !! o_wait_status q = Some w.
Hypothesis Hcore : ∀ v, core (f v) = core v.
Let s' := set_statuses <[o_wait_status q := f w]> (ps c).

Lemma update_shape : shape (cores s') (procs s') (next_tid s').
Proof. subst s'. rewrite update_cores by done. apply Hi. Qed.

(** A record is the thread's own, changed, or another thread's, unchanged. *)
Lemma update_lookup p v : statuses s' !! p = Some v →
  (o_tid v = t ∧ v = f w ∧ p = o_wait_status q) ∨ (o_tid v ≠ t ∧ statuses (ps c) !! p = Some v).
Proof.
  subst s'. simpl. destruct (decide (p = o_wait_status q)) as [->|Hp].
  - rewrite lookup_insert_eq. intros [= <-]. left. split_and!; [|done|done].
    pose proof (Hcore w) as Hc. injection Hc as -> _. by eapply own_status.
  - rewrite lookup_insert_ne by done. intros Hv. right. split; [|done]. intros E. apply Hp.
    eapply (s_tid _ _ _ (v_shape _ Hi) _ _ t); rewrite lookup_fmap, ?Hv, ?Hw; simpl; unfold core;
      [by rewrite E|by rewrite (own_status _ _ _ _ Hi Ht Hw)].
Qed.

Lemma update_tid p v : statuses s' !! p = Some v → ∃ v0, statuses (ps c) !! p = Some v0 ∧ o_tid v0 = o_tid v.
Proof.
  intros Hv. destruct (update_lookup _ _ Hv) as [(E & -> & ->)|[_ H]]; [|by exists v].
  exists w. split; [done|]. rewrite E. by eapply own_status.
Qed.

(** The step with its event; what it must establish of the record itself. *)
Lemma inv_update ev fin' :
  t ∉ finished c →
  (∀ ch, ch ≠ t → code_of (ev :: trace c) ch = code_of (trace c) ch ∧
     killed_of (ev :: trace c) ch = killed_of (trace c) ch) →
  (∀ x y z, ev ≠ Waited x y z) →
  (∀ x, x ∈ fin' ↔ x ∈ finished c ∨ (x = t ∧ ev = Finished t)) →
  let c' := mk_config s' fin' (ev :: trace c) in
  (held (procs (ps c)) (o_wait_status q) → o_sem_exited w = 0 →
     (active c' t ∧ o_sem_exited (f w) = 0) ∨ (¬ active c' t ∧ o_sem_exited (f w) = 1)) →
  (o_exit_code w = u32 (code_of (trace c) t) → o_exit_code (f w) = u32 (code_of (ev :: trace c) t)) →
  (o_kernel_killed w = (if killed_of (trace c) t then 1 else 0) →
     o_kernel_killed (f w) = if killed_of (ev :: trace c) t then 1 else 0) →
  inv c'.
Proof.
  intros Hf Hev Hnw Hfin c' Hsem Hcd Hkl. pose proof (own_status _ _ _ _ Hi Ht Hw) as Ew.
  assert (waits (ev :: trace c) = waits (trace c)) as Ewt.
  { destruct ev; try done. by destruct (Hnw t0 c0 code). }
  split; subst c'; cbn [ps finished trace].
  - apply update_shape.
  - intros p v Hv Hh. destruct (update_lookup _ _ Hv) as [(Ev & -> & ->)|[Hne H]].
    + rewrite Ev. apply Hsem; [done|]. destruct (v_sem _ Hi _ _ Hw Hh) as [[_ ?]|[Hn _]]; [done|].
      rewrite Ew in Hn. destruct Hn. split; [by eexists|done].
    + unfold active. cbn [ps finished]. rewrite Hfin.
      destruct (v_sem _ Hi p v H Hh) as [[[Ha Hb] Hs]|[Hn Hs]]; [left|right]; (split; [|done]).
      * split; [done|]. intros [?|[? _]]; congruence.
      * intros [Ha Hb]. apply Hn. split; [done|]. intros ?. apply Hb. by left.
  - intros p v Hv. destruct (update_lookup _ _ Hv) as [(Ev & -> & ->)|[Hne H]].
    + rewrite Ev. destruct (v_code _ Hi _ _ Hw) as [H1 H2]. rewrite Ew in H1, H2. auto.
    + destruct (Hev _ Hne) as [-> ->]. by apply (v_code _ Hi p).
  - intros x [H|[-> ->]]%Hfin; [destruct (v_fin _ Hi _ H); split; [by right|done]|].
    split; [left|by eapply (s_live _ _ _ (v_shape _ Hi))].
  - intros x Hr Hn. apply Hfin. left. by apply (v_gone _ Hi).
  - intros t' q' p v Ht' Hp Hv. destruct (update_tid _ _ Hv) as (v0 & Hv0 & <-). right. by eapply (v_parent _ Hi).
  - intros x Hn. pose proof (s_live _ _ _ (v_shape _ Hi) _ _ Ht). destruct (Hev x) as [-> ->];
      [simpl in Hn; lia|]. by apply (v_new _ Hi).
  - intros t' ch cd [H|H]%elem_of_cons; [by destruct (Hnw _ _ _ (eq_sym H))|].
    destruct (v_waited _ Hi _ _ _ H) as (-> & Hch & Hcr).
    split_and!; [|apply Hfin; by left|by right]. unfold verdict. by destruct (Hev ch ltac:(congruence)) as [-> ->].
  - rewrite Ewt. intros ch p v Hch Hv. destruct (update_tid _ _ Hv) as (v0 & Hv0 & <-).
    by apply (v_unheld _ Hi ch p v0).
  - rewrite Ewt. apply (v_once _ Hi).
Qed.
End update_step.

Lemma inv_code c t code s' : inv c → active c t → set_exit_code t code (ps c) = Ok (tt, s') →
  inv (mk_config s' (finished c) (Exiting t code :: trace c)).
Proof.
  intros Hi Hact E. destruct (update_inv (with_code (u32 code)) t _ _ E) as (q & w & Ht & Hw & ->).
  pose proof Hact as [Ha Hf].
  apply (inv_update c (with_code (u32 code)) t q w); simpl; try done.
  - intros ch Hne. by rewrite (proj2 (Z.eqb_neq t ch)).
  - naive_solver.
  - by left.
  - by rewrite Z.eqb_refl.
Qed.

Lemma inv_kill c t s' : inv c → active c t → kill_status t (ps c) = Ok (tt, s') →
  inv (mk_config s' (finished c) (Killed t :: trace c)).
Proof.
  intros Hi Hact E. destruct (update_inv (with_killed 1) t _ _ E) as (q & w & Ht & Hw & ->).
  pose proof Hact as [Ha Hf].
  apply (inv_update c (with_killed 1) t q w); simpl; try done.
  - intros ch Hne. by rewrite (proj2 (Z.eqb_neq t ch)).
  - naive_solver.
  - by left.
  - by rewrite Z.eqb_refl.
Qed.

Lemma inv_finish c t s' : inv c → active c t → process_exit_status t (ps c) = Ok (tt, s') →
  inv (mk_config s' ({[t]} ∪ finished c) (Finished t :: trace c)).
Proof.
  intros Hi Hact E. set (f := λ w, with_sem (o_sem_exited w + 1) w).
  destruct (update_inv f t _ _ E) as (q & w & Ht & Hw & ->). pose proof Hact as [Ha Hf].
  apply (inv_update c f t q w); try done.
  - set_solver.
  - intros Hh E0. right. split; [intros [_ H]; set_solver|]. simpl. by rewrite E0.
Qed.

Lemma waits_in tr ch : ch ∈ waits tr → ∃ t code, Waited t ch code ∈ tr.
Proof.
  induction tr as [|e tr IH]; [by intros ?%elem_of_nil|]. intros H.
  assert (ch ∈ waits tr ∨ ∃ t code, e = Waited t ch code) as [[t [code Hin]]%IH|(t & code & ->)].
  { destruct e; simpl in H; try (by left). apply elem_of_cons in H as [->|H]; [by right; eauto|by left]. }
  - exists t, code. by right.
  - exists t, code. left.
Qed.

(** *** Creation *)

Lemma thread_create_ok t p s q : procs s !! t = Some q → t ≠ next_tid s → p ≠ NULL →
  0 <= next_tid s < INT_MAX →
  thread_create t p true s = Ok (next_tid s,
    mk_ps (<[p := mk_ws (next_tid s) 0 0 2 0]> (statuses s))
      (<[t := mk_proc (o_wait_status q) (p :: o_children q)]> (<[next_tid s := mk_proc p []]> (procs s)))
      (next_tid s + 1)).
Proof.
  intros Ht Hn Hp Hmax. unfold thread_create, allocate_tid. cbn [negb]. run.
  rewrite s32_small by (unfold in_s32, INT_MAX in *; lia).
  rewrite (proj2 (Z.eqb_neq p NULL)) by done. unfold put_ws. run.
  unfold wait_status_mod_ref, ws_at, put_ws. run. cbn [statuses set_statuses set_procs]. rewrite lookup_insert_eq.
  unfold deref at 1. run. cbn [o_reference_count]. change (u32 (0 + 1)) with 1. cbn [Z.eqb]. run.
  unfold put_children, proc_at. run. cbn [procs set_statuses set_procs].
  rewrite lookup_insert_ne by done. rewrite Ht. unfold deref at 1. run. cbn [procs set_statuses set_procs].
  rewrite lookup_insert_ne by done. rewrite Ht. unfold deref at 1. run.
  cbn [statuses procs set_statuses set_procs]. rewrite lookup_insert_eq.
  unfold deref at 1. run. cbn [o_reference_count with_ref o_tid o_sem_exited o_exit_code o_kernel_killed].
  change (u32 (1 + 1)) with 2. cbn [Z.eqb]. unfold ret. do 2 f_equal. unfold set_statuses, set_procs.
  cbn [statuses procs next_tid]. by rewrite !insert_insert_eq.
Qed.

Lemma inv_create c t p tid s' : inv c → active c t → p ≠ NULL → statuses (ps c) !! p = None →
  next_tid (ps c) < INT_MAX →
  thread_create t p true (ps c) = Ok (tid, s') →
  inv (mk_config s' (finished c) (Created t tid :: trace c)).
Proof.
  intros Hi [[q Ht] Hf] Hp0 Hp Hmax E. set (n := next_tid (ps c)) in *.
  pose proof (s_live _ _ _ (v_shape _ Hi) _ _ Ht) as Htn. fold n in Htn.
  rewrite (thread_create_ok _ _ _ _ Ht ltac:(lia) Hp0 ltac:(lia)) in E. injection E as <- <-. fold n.
  set (pr' := <[t := _]> _). set (w0 := mk_ws n 0 0 2 0).
  assert (shape (core <$> <[p := w0]> (statuses (ps c))) pr' (n + 1)) as Hs.
  { rewrite fmap_insert. apply shape_create; [apply Hi|by rewrite lookup_fmap, Hp|done|done]. }
  assert (∀ x v, (<[p := w0]> (statuses (ps c))) !! x = Some v →
    (x = p ∧ v = w0) ∨ (x ≠ p ∧ o_tid v < n ∧ statuses (ps c) !! x = Some v)) as Hl.
  { intros x v. destruct (decide (x = p)) as [->|]; [rewrite lookup_insert_eq; naive_solver|].
    rewrite lookup_insert_ne by done. intros Hv. right. split_and!; [done| |done].
    by apply (s_range _ _ _ (v_shape _ Hi) x _ (o_reference_count v)); rewrite lookup_fmap, Hv. }
  assert (∀ x, is_Some (pr' !! x) ↔ is_Some (procs (ps c) !! x) ∨ x = n) as Hdom.
  { intros x. subst pr'. rewrite !lookup_insert_is_Some'. naive_solver. }
  assert (n ∉ finished c) as Hnf by (intros [_ Hlt]%(v_fin _ Hi); subst n; lia).
  assert (∀ x, x ≠ p → held pr' x → held (procs (ps c)) x) as Hheld.
  { intros x Hx (t' & q' & E & Hin). subst pr'. destruct (decide (t' = t)) as [->|].
    - rewrite lookup_insert_eq in E. injection E as <-. apply elem_of_cons in Hin as [?|?]; [done|]. by exists t, q.
    - rewrite lookup_insert_ne in E by done. destruct (decide (t' = n)) as [->|].
      + rewrite lookup_insert_eq in E. injection E as <-. by apply elem_of_nil in Hin.
      + rewrite lookup_insert_ne in E by done. by exists t', q'. }
  split; cbn [ps finished trace statuses procs next_tid].
  - exact Hs.
  - intros x v Hv Hh. unfold active. cbn [ps finished procs]. destruct (Hl _ _ Hv) as [[-> ->]|(Hx & Hn & H)].
    + left. split; [|done]. split; [apply Hdom; by right|done].
    + destruct (v_sem _ Hi x v H (Hheld _ Hx Hh)) as [[[Ha Hb] Hz]|[Hna Hz]]; [left|right]; (split; [|done]).
      * split; [apply Hdom; by left|done].
      * intros [[Ha|Heq]%Hdom Hb]; [by apply Hna|lia].
  - intros x v Hv. simpl. destruct (Hl _ _ Hv) as [[-> ->]|(Hx & Hn & H)]; [|by apply (v_code _ Hi x)].
    simpl. destruct (v_new _ Hi n) as [-> ->]; [lia|]. done.
  - intros x H. destruct (v_fin _ Hi _ H) as [H1 H2]. split; [by right|]. subst n. lia.
  - intros x Hr Hx. apply (v_gone _ Hi); [|apply eq_None_not_Some; intros Hsx].
    + assert (x ≠ n); [|subst n; lia]. intros ->. assert (is_Some (pr' !! n)) as [? Hn'] by (apply Hdom; by right). congruence.
    + assert (is_Some (pr' !! x)) as [? Hx'] by (apply Hdom; by left). congruence.
  - intros t' q' x v E Hin Hv. destruct (Hl _ _ Hv) as [[-> ->]|(Hx & _ & H)].
    + assert (t' = t) as ->; [|left]. eapply (s_holder _ _ _ Hs); [exact E|apply lookup_insert_eq|exact Hin|left].
    + right. subst pr'. destruct (decide (t' = t)) as [->|].
      * rewrite lookup_insert_eq in E. injection E as <-. apply elem_of_cons in Hin as [?|?]; [done|]. by eapply (v_parent _ Hi).
      * rewrite lookup_insert_ne in E by done. destruct (decide (t' = n)) as [->|].
        -- rewrite lookup_insert_eq in E. injection E as <-. by apply elem_of_nil in Hin.
        -- rewrite lookup_insert_ne in E by done. by eapply (v_parent _ Hi).
  - intros x Hx. apply (v_new _ Hi). subst n. lia.
  - intros t' ch cd [H|H]%elem_of_cons; [done|]. destruct (v_waited _ Hi _ _ _ H) as (-> & Hch & Hcr).
    split_and!; [done|done|by right].
  - intros ch x v Hch Hv Ev Hh. destruct (Hl _ _ Hv) as [[-> ->]|(Hx & _ & H)].
    + apply (waits_in (trace c)) in Hch as (t' & cd & Hch). apply (v_waited _ Hi) in Hch as (_ & Hch & _). simpl in Ev. congruence.
    + by apply (v_unheld _ Hi ch x v Hch H Ev), Hheld.
  - apply (v_once _ Hi).
Qed.

(** *** Waiting *)

Definition collect_state (t p : Z) (q : proc) (w : wait_status) (s : pstate) : pstate :=
  mk_ps (partial_alter dec_ref p (<[p := with_sem (o_sem_exited w - 1) w]> (statuses s)))
    (<[t := mk_proc (o_wait_status q) (filter (λ c, c ≠ p) (o_children q))]> (procs s)) (next_tid s).

(** process_wait() on a child of the thread: it blocks until the child has
    raised the semaphore, and then collects the record. *)
Lemma process_wait_child c t q child p w : inv c → procs (ps c) !! t = Some q →
  p ∈ o_children q → statuses (ps c) !! p = Some w → o_tid w = child →
  (active c child ∧ ∃ r, process_wait t child (ps c) = Blocked (ps c) r) ∨
  (¬ active c child ∧ process_wait t child (ps c) =
     Ok (verdict (trace c) child, collect_state t p q w (ps c))).
Proof.
  intros Hi Ht Hp Hw Ec. pose proof (v_shape _ Hi) as Hs.
  assert (∀ x, x ∈ o_children q → is_Some (statuses (ps c) !! x)) as Hch.
  { intros x Hx. destruct (s_child _ _ _ Hs _ _ _ Ht Hx) as [[a b] E].
    by destruct (core_inv _ _ _ _ E) as (v & Hv & _); eexists. }
  assert (∀ x, x ∈ o_children q → x ≠ NULL) as Hnn.
  { intros x [v Hv]%Hch ->. pose proof (s_null _ _ _ Hs) as Hn. by rewrite lookup_fmap, Hv in Hn. }
  destruct (find_status_ok (o_children q) child (ps c) Hch Hnn) as (p' & E & Hp').
  assert (p' = p) as ->.
  { destruct Hp' as [[_ Hno]|(Hin & v & Hv & Ev)]; [by destruct (Hno p w Hp Hw)|].
    eapply (s_tid _ _ _ Hs); rewrite lookup_fmap, ?Hv, ?Hw; unfold core; simpl; [by rewrite Ev|by rewrite Ec]. }
  assert (held (procs (ps c)) p) as Hh by (by exists t, q).
  assert (1 <= o_reference_count w <= 2) as Href.
  { eapply (ref_range _ _ _ p (o_tid w)); [exact Hs|]. by rewrite lookup_fmap, Hw. }
  assert (thread_get_wait_status t child (ps c) = Ok (p, ps c)) as Eg.
  { unfold thread_get_wait_status, proc_at. run. rewrite Ht. unfold deref. by run. }
  destruct (v_sem _ Hi p w Hw Hh) as [[Ha Esem]|[Hna Esem]]; [left|right]; rewrite <- Ec; (split; [done|]);
    rewrite Ec; unfold process_wait; rewrite (bind_ok _ _ _ _ _ Eg);
    rewrite (proj2 (Z.eqb_neq p NULL)) by auto; unfold sema_down; run.
  - unfold ws_at at 1. run. rewrite Hw. unfold deref at 1. run. rewrite Esem. eexists. reflexivity.
  - unfold ws_at at 1. run. rewrite Hw. unfold deref at 1. run. rewrite Esem. cbn [Z.gtb Z.compare].
    unfold put_ws. run. unfold ws_at. run. cbn [statuses set_statuses]. rewrite lookup_insert_eq. unfold deref at 1. run.
    unfold put_children, proc_at. run. cbn [procs set_statuses]. rewrite Ht. unfold deref at 1. run.
    cbn [procs set_statuses]. rewrite Ht. unfold deref at 1. run.
    erewrite bind_ok; [|apply (mod_ref_dec _ p (with_sem (1 - 1) w)); [simpl; apply lookup_insert_eq|exact Href]].
    unfold ret. unfold collect_state. rewrite Esem. do 3 f_equal. cbn [o_kernel_killed o_exit_code with_sem].
    destruct (v_code _ Hi p w Hw) as [-> ->]. unfold verdict. rewrite Ec.
    by destruct (killed_of (trace c) child).
Qed.

Lemma inv_wait c t child code s' : inv c → active c t →
  (∃ p s1, p ≠ NULL ∧ thread_get_wait_status t child (ps c) = Ok (p, s1)) →
  process_wait t child (ps c) = Ok (code, s') →
  inv (mk_config s' (finished c) (Waited t child code :: trace c)).
Proof.
  intros Hi [[q Ht] Hf] (p & s1 & Hp0 & Eg) E. pose proof (v_shape _ Hi) as Hs.
  assert (p ∈ o_children q ∧ ∃ w, statuses (ps c) !! p = Some w ∧ o_tid w = child) as (Hp & w & Hw & Ec).
  { unfold thread_get_wait_status, proc_at in Eg. revert Eg. run. rewrite Ht. unfold deref. run. intros Eg.
    destruct (find_status_ok (o_children q) child (ps c)) as (p' & E' & Hp').
    - intros x Hx. destruct (s_child _ _ _ Hs _ _ _ Ht Hx) as [[a b] Ex].
      by destruct (core_inv _ _ _ _ Ex) as (v & Hv & _); eexists.
    - intros x Hx ->. destruct (s_child _ _ _ Hs _ _ _ Ht Hx) as [e Ex]. by rewrite (s_null _ _ _ Hs) in Ex.
    - rewrite E' in Eg. injection Eg as -> _. by destruct Hp' as [[? _]|?]. }
  destruct (process_wait_child c t q child p w Hi Ht Hp Hw Ec) as [(_ & r & E')|(Hna & E')]; rewrite E' in E; [done|].
  injection E as <- <-. clear E'. set (w1 := with_sem (o_sem_exited w - 1) w).
  assert (cores (set_statuses <[p := w1]> (ps c)) = cores (ps c)) as Ecore
    by (apply (update_cores (λ w, with_sem (o_sem_exited w - 1) w)); done).
  assert (∀ x, held (procs (collect_state t p q w (ps c))) x → held (procs (ps c)) x ∧ x ≠ p) as Hheld.
  { intros x. by eapply held_collect. }
  assert (∀ x v, statuses (collect_state t p q w (ps c)) !! x = Some v →
    ∃ v0, statuses (ps c) !! x = Some v0 ∧ o_tid v = o_tid v0 ∧ o_exit_code v = o_exit_code v0 ∧
      o_kernel_killed v = o_kernel_killed v0 ∧ (x ≠ p → v = v0)) as Hl.
  { intros x v. cbn [collect_state statuses]. destruct (decide (x = p)) as [->|Hx].
    - rewrite lookup_partial_alter_eq, lookup_insert_eq. unfold dec_ref. simpl. case_match; [done|].
      intros [= <-]. by exists w.
    - rewrite lookup_partial_alter_ne, lookup_insert_ne by done. intros Hv. by exists v. }
  assert (child ∈ finished c) as Hcf.
  { assert (2 <= child < next_tid (ps c)) as Hr.
    { rewrite <- Ec. apply (s_range _ _ _ Hs p _ (o_reference_count w)). by rewrite lookup_fmap, Hw. }
    destruct (decide (child ∈ finished c)) as [|Hn]; [done|]. apply (v_gone _ Hi); [lia|].
    apply eq_None_not_Some. intros ?. by apply Hna. }
  split; cbn [ps finished trace].
  - unfold collect_state. fold w1. cbn [statuses procs next_tid].
    refine (shape_collect (set_statuses <[p := w1]> (ps c)) t q p w1 _ Ht Hp _); [rewrite Ecore; exact Hs|].
    simpl. apply lookup_insert_eq.
  - intros x v Hv [Hh Hx]%Hheld. destruct (Hl _ _ Hv) as (v0 & Hv0 & _ & _ & _ & Ev). rewrite Ev by done.
    destruct (v_sem _ Hi x v0 Hv0 Hh) as [[[Ha Hb] Hz]|[Hna' Hz]]; [left|right]; (split; [|done]).
    + split; [|done]. simpl. rewrite lookup_insert_is_Some'. by right.
    + intros [Ha Hb]. apply Hna'. split; [|done]. simpl in Ha. rewrite lookup_insert_is_Some' in Ha.
      destruct Ha as [<-|?]; [by eexists|done].
  - intros x v Hv. destruct (Hl _ _ Hv) as (v0 & Hv0 & -> & -> & -> & _). by apply (v_code _ Hi x).
  - intros x H. destruct (v_fin _ Hi _ H). split; [by right|done].
  - intros x Hr Hx. apply (v_gone _ Hi); [done|]. simpl in Hx. by apply lookup_insert_None in Hx as [? _].
  - intros t' q' x v Et Hin Hv. destruct (Hl _ _ Hv) as (v0 & Hv0 & -> & _). right. simpl in Et.
    destruct (decide (t' = t)) as [->|].
    + rewrite lookup_insert_eq in Et. injection Et as <-. apply list_elem_of_filter in Hin as [_ Hin]. by eapply (v_parent _ Hi).
    + rewrite lookup_insert_ne in Et by done. by eapply (v_parent _ Hi).
  - apply (v_new _ Hi).
  - intros t' ch cd [H|H]%elem_of_cons.
    + injection H as -> -> ->. split_and!; [done|done|]. right. rewrite <- Ec. by eapply (v_parent _ Hi).
    + destruct (v_waited _ Hi _ _ _ H) as (-> & Hch & Hcr). split_and!; [done|done|by right].
  - intros ch x v Hch Hv Ev [Hh Hx]%Hheld. destruct (Hl _ _ Hv) as (v0 & Hv0 & E0 & _ & _ & _).
    simpl in Hch. apply elem_of_cons in Hch as [->|Hch]; [|by apply (v_unheld _ Hi ch x v0 Hch Hv0); [congruence|]].
    apply Hx. apply (s_tid _ _ _ Hs x p child (o_reference_count v0) (o_reference_count w));
      rewrite lookup_fmap, ?Hv0, ?Hw; unfold core; simpl; [by rewrite <- E0, Ev|by rewrite Ec].
  - simpl. constructor; [|apply (v_once _ Hi)]. intros Hch.
    apply (v_unheld _ Hi child p w Hch Hw Ec). by exists t, q.
Qed.

Lemma process_wait_none t child s q : procs s !! t = Some q →
  (∀ x, x ∈ o_children q → ∃ w, statuses s !! x = Some w ∧ o_tid w ≠ child) → (NULL ∉ o_children q) →
  process_wait t child s = Ok (-1, s).
Proof.
  intros Ht Hno Hn. unfold process_wait, thread_get_wait_status, proc_at at 1. run. rewrite Ht. unfold deref at 1. run.
  destruct (find_status_ok (o_children q) child s) as (p & E & [[-> _]|(Hin & w & Hw & Ew)]).
  - intros x (w & Hw & _)%Hno. by eexists.
  - congruence.
  - by rewrite (bind_ok _ _ _ _ _ E).
  - destruct (Hno _ Hin) as (w' & Hw' & ?). congruence.
Qed.

(** *** The end of a thread *)

Lemma children_refs c t q : inv c → procs (ps c) !! t = Some q →
  ∀ p, p ∈ o_children q → ∃ w, statuses (ps c) !! p = Some w ∧ 1 <= o_reference_count w <= 2.
Proof.
  intros Hi Ht p Hp. destruct (s_child _ _ _ (v_shape _ Hi) _ _ _ Ht Hp) as [[a b] E].
  destruct (core_inv _ _ _ _ E) as (w & Hw & Ea & Eb). exists w. split; [done|]. rewrite Eb.
  eapply ref_range; [apply Hi|exact E].
Qed.

Lemma thread_exit_ok c t q : inv c → procs (ps c) !! t = Some q → t ≠ 1 →
  ∃ s1, (∀ p, statuses s1 !! p =
      if decide (p ∈ o_children q) then dec_ref (statuses (ps c) !! p) else statuses (ps c) !! p) ∧
    thread_exit_status t (ps c) =
      Ok (tt, mk_ps (partial_alter dec_ref (o_wait_status q) (statuses s1)) (delete t (procs (ps c))) (next_tid (ps c))).
Proof.
  intros Hi Ht Ht1. pose proof (v_shape _ Hi) as Hs.
  destruct (drop_children_ok (o_children q) (ps c)) as (s1 & E & Hpr & Hn & H1);
    [by eapply (s_nodup _ _ _ Hs)|by eapply children_refs|].
  exists s1. split; [done|]. unfold thread_exit_status, proc_at. run. rewrite Ht. unfold deref. run.
  rewrite (bind_ok _ _ _ _ _ E).
  destruct (s_own _ _ _ Hs _ _ Ht) as [[? _]|[r Hr]]; [done|].
  destruct (core_inv _ _ _ _ Hr) as (w & Hw & Ec & Er).
  destruct (s_ref _ _ _ Hs _ _ _ Hr) as (a & b & [[_ ->]|[Hna _]] & Hb & Eab & _); [|destruct Hna; by eexists].
  assert (∃ w1, statuses s1 !! o_wait_status q = Some w1 ∧ 1 <= o_reference_count w1 <= 2) as (w1 & Hw1 & Hr1).
  { rewrite H1, Hw. case_decide as Hin.
    - destruct Hb as [[_ ->]|[Hnb _]]; [|destruct Hnb; by exists t, q].
      unfold dec_ref. simpl. rewrite (proj2 (Z.eqb_neq _ 1)) by lia. eexists. split; [done|]. simpl. lia.
    - apply counts_range in Hb. exists w. split; [done|lia]. }
  rewrite (bind_ok _ _ _ _ _ (mod_ref_dec _ _ _ Hw1 Hr1)). unfold modify, set_procs, set_statuses. simpl.
  by rewrite Hpr, Hn.
Qed.

(** The initial thread has no record: its exit dereferences a null
    pointer. *)
Lemma initial_exit_faults c : inv c → is_Some (procs (ps c) !! 1) → process_exit_status 1 (ps c) = Fault.
Proof.
  intros Hi [q Ht]. unfold process_exit_status, proc_at, ws_at. run. rewrite Ht. unfold deref at 1. run.
  destruct (s_own _ _ _ (v_shape _ Hi) _ _ Ht) as [[_ ->]|[r Hr]].
  - destruct (statuses (ps c) !! NULL) eqn:E; [|done].
    pose proof (s_null _ _ _ (v_shape _ Hi)) as Hn. by rewrite lookup_fmap, E in Hn.
  - apply (s_range _ _ _ (v_shape _ Hi)) in Hr. lia.
Qed.

Lemma dec_ref_info o v : dec_ref o = Some v → ∃ w, o = Some w ∧ o_tid v = o_tid w ∧
  o_sem_exited v = o_sem_exited w ∧ o_exit_code v = o_exit_code w ∧ o_kernel_killed v = o_kernel_killed w.
Proof. destruct o as [w|]; [|done]. unfold dec_ref. simpl. case_match; [done|]. intros [= <-]. by exists w. Qed.

Lemma inv_gone c t s' : inv c → t ∈ finished c → is_Some (procs (ps c) !! t) →
  thread_exit_status t (ps c) = Ok (tt, s') → t ≠ 1 →
  inv (mk_config s' (finished c) (Gone t :: trace c)).
Proof.
  intros Hi Hf [q Ht] E Ht1. destruct (thread_exit_ok c t q Hi Ht Ht1) as (s1 & H1 & E').
  rewrite E' in E. injection E as <-.
  set (st' := partial_alter dec_ref (o_wait_status q) (statuses s1)).
  assert (∀ p v, st' !! p = Some v → ∃ w, statuses (ps c) !! p = Some w ∧ o_tid v = o_tid w ∧
    o_sem_exited v = o_sem_exited w ∧ o_exit_code v = o_exit_code w ∧ o_kernel_killed v = o_kernel_killed w) as Hl.
  { assert (∀ p v, statuses s1 !! p = Some v → ∃ w, statuses (ps c) !! p = Some w ∧ o_tid v = o_tid w ∧
      o_sem_exited v = o_sem_exited w ∧ o_exit_code v = o_exit_code w ∧ o_kernel_killed v = o_kernel_killed w) as Hl1.
    { intros p v. rewrite H1. case_decide; [apply dec_ref_info|]. intros Hv. by exists v. }
    intros p v. subst st'. destruct (decide (p = o_wait_status q)) as [->|Hp].
    - rewrite lookup_partial_alter_eq. intros (w1 & Hw1 & -> & -> & -> & ->)%dec_ref_info. by apply Hl1.
    - rewrite lookup_partial_alter_ne by done. apply Hl1. }
  assert (∀ p, held (delete t (procs (ps c))) p → held (procs (ps c)) p) as Hheld.
  { intros p (t' & q' & [_ Et]%lookup_delete_Some & Hin). by exists t', q'. }
  split; cbn [ps finished trace statuses procs next_tid].
  - refine (shape_gone (ps c) s1 t q (v_shape _ Hi) Ht Ht1 H1).
  - intros p v Hv Hh%Hheld. destruct (Hl _ _ Hv) as (w & Hw & -> & -> & _). unfold active. cbn [ps finished procs].
    destruct (v_sem _ Hi p w Hw Hh) as [[[Ha Hb] Hz]|[Hna Hz]]; [left|right]; (split; [|done]).
    + split; [|done]. rewrite lookup_delete_ne by congruence. done.
    + intros [[? [_ Ha]%lookup_delete_Some] Hb]. apply Hna. split; [by eexists|done].
  - intros p v Hv. destruct (Hl _ _ Hv) as (w & Hw & -> & _ & -> & ->). by apply (v_code _ Hi p).
  - intros x H. destruct (v_fin _ Hi _ H). split; [by right|done].
  - intros x Hr [->|Hx]%lookup_delete_None; [done|]. by apply (v_gone _ Hi).
  - intros t' q' p v [_ Et]%lookup_delete_Some Hin Hv. destruct (Hl _ _ Hv) as (w & Hw & -> & _).
    right. by eapply (v_parent _ Hi).
  - apply (v_new _ Hi).
  - intros t' ch cd [H|H]%elem_of_cons; [done|]. destruct (v_waited _ Hi _ _ _ H) as (-> & Hch & Hcr).
    split_and!; [done|done|by right].
  - intros ch p v Hch Hv Ev Hh%Hheld. destruct (Hl _ _ Hv) as (w & Hw & Ew & _).
    apply (v_unheld _ Hi ch p w Hch Hw); [congruence|done].
  - apply (v_once _ Hi).
Qed.

Lemma reachable_inv c : reachable c → inv c ∧ 1 ∉ finished c.
Proof.
  induction 1 as [|c c' _ [IH H1] Hst]; [split; [apply inv_initial|apply not_elem_of_empty]|].
  destruct Hst as [c t p tid s' Ha Hp0 Hp E|c t code s' Ha E|c t s' Ha E|c t child code s' Ha Hg E|c t s' Ha E|c t s' Hf Ht E];
    cbn [finished].
  - split; [by eapply inv_create|done].
  - split; [by eapply inv_code|done].
  - split; [by eapply inv_kill|done].
  - split; [by eapply inv_wait|done].
  - split; [by eapply inv_finish|]. assert (t ≠ 1); [|set_solver]. intros ->.
    rewrite (initial_exit_faults _ IH (proj1 Ha)) in E. done.
  - split; [|done]. eapply inv_gone; [done..|]. congruence.
Qed.

Lemma own_exists c t q : inv c → procs (ps c) !! t = Some q → t ≠ 1 →
  ∃ w, statuses (ps c) !! o_wait_status q = Some w.
Proof.
  intros Hi Ht Ht1. destruct (s_own _ _ _ (v_shape _ Hi) _ _ Ht) as [[? _]|[r Hr]]; [done|].
  destruct (core_inv _ _ _ _ Hr) as (w & Hw & _). by exists w.
Qed.

(** process_wait() never fails: it returns, or the child is still running. *)
Lemma process_wait_total c t child : inv c → is_Some (procs (ps c) !! t) →
  (∃ r s', process_wait t child (ps c) = Ok (r, s')) ∨
  (active c child ∧ ∃ r, process_wait t child (ps c) = Blocked (ps c) r).
Proof.
  intros Hi [q Ht]. pose proof (v_shape _ Hi) as Hs.
  assert (∀ x, x ∈ o_children q → x ≠ NULL) as Hnn.
  { intros x Hx ->. destruct (s_child _ _ _ Hs _ _ _ Ht Hx) as [e Ex]. by rewrite (s_null _ _ _ Hs) in Ex. }
  destruct (find_status_ok (o_children q) child (ps c)) as (p & _ & [[_ Hno]|(Hin & w & Hw & Ew)]).
  - intros x Hx. destruct (children_refs c t q Hi Ht x Hx) as (w & Hw & _). by eexists.
  - done.
  - left. exists (-1), (ps c). apply (process_wait_none _ _ _ q); [done| |].
    + intros x Hx. destruct (children_refs c t q Hi Ht x Hx) as (w & Hw & _). exists w. split; [done|]. by eapply Hno.
    + intros Hx. by apply Hnn in Hx.
  - destruct (process_wait_child c t q child p w Hi Ht Hin Hw Ew) as [?|[_ ?]]; [by right|left; eauto].
Qed.

(** ** Properties *)

(** C14. In every interleaving of creations, exits, kills and waits, as long as
    the int from which tids are taken does not overflow (2^31 - 2 threads), a
    process_wait() that finds the child returns only after the child has
    finished, and returns the child's verdict: -1 if the kernel killed it and
    otherwise the value of its last exit(), whatever the order in which parent
    and child ran.  Only the thread that created the child can collect it,
    and a child is collected at most once. *)
Theorem wait_exit_codes c : reachable c →
  (∀ t ch code, Waited t ch code ∈ trace c →
     Created t ch ∈ trace c ∧ Finished ch ∈ trace c ∧ code = verdict (trace c) ch) ∧
  NoDup (waits (trace c)).
Proof.
  intros [Hi _]%reachable_inv. split; [|apply Hi]. intros t ch code H.
  destruct (v_waited _ Hi _ _ _ H) as (-> & Hf & Hc). by destruct (v_fin _ Hi _ Hf).
Qed.

(** C15. No wait status is used after it has been freed and none is leaked: in
    every reachable state a thread other than the initial one can store its
    exit code, finish and end, and a wait returns at once or blocks on a child
    that still runs; a record exists exactly as long as its thread lives or a
    parent has it on its list.  The initial thread has no record, so that its
    exit dereferences a null pointer. *)
Theorem wait_records_safe c t child : reachable c → is_Some (procs (ps c) !! t) →
  ((∃ r s', process_wait t child (ps c) = Ok (r, s')) ∨
   (active c child ∧ ∃ r, process_wait t child (ps c) = Blocked (ps c) r)) ∧
  (if decide (t = 1) then process_exit_status t (ps c) = Fault
   else (∀ code, ∃ s', set_exit_code t code (ps c) = Ok (tt, s')) ∧
        (∃ s', process_exit_status t (ps c) = Ok (tt, s')) ∧
        (∃ s', thread_exit_status t (ps c) = Ok (tt, s'))) ∧
  (∀ p w, statuses (ps c) !! p = Some w → is_Some (procs (ps c) !! o_tid w) ∨ held (procs (ps c)) p).
Proof.
  intros [Hi _]%reachable_inv Ht. split; [by apply process_wait_total|]. destruct Ht as [q Ht]. split.
  - case_decide as Ht1; [subst; apply initial_exit_faults; by eauto|].
    destruct (own_exists c t q Hi Ht Ht1) as [w Hw]. split_and!.
    + intros code. eexists. by apply (update_ok (with_code (u32 code)) t (ps c) q w).
    + eexists. by apply (update_ok (λ w, with_sem (o_sem_exited w + 1) w) t (ps c) q w).
    + destruct (thread_exit_ok c t q Hi Ht Ht1) as (s1 & _ & E). by eexists.
  - intros p w Hw. destruct (s_ref _ _ _ (v_shape _ Hi) p (o_tid w) (o_reference_count w)) as (a & b & Ha & Hb & Er & Hpos);
      [by rewrite lookup_fmap, Hw|].
    destruct Ha as [[? _]|[_ ->]]; [by left|]. destruct Hb as [[? _]|[_ ->]]; [by right|lia].
Qed.

(** The initial thread creates a child, which exits with 7 and finishes. *)
Definition demo_config : config :=
  mk_config (mk_ps {[16 := mk_ws 2 1 7 2 0]} (<[1 := mk_proc NULL [16]]> (<[2 := mk_proc 16 []]> {[1 := mk_proc NULL []]})) 3)
    ({[2]} ∪ ∅) [Finished 2; Exiting 2 7; Created 1 2].

Lemma demo_reachable : reachable demo_config.
Proof.
  eapply (reach_step (mk_config _ ∅ [Exiting 2 7; Created 1 2])); [eapply (reach_step (mk_config _ ∅ [Created 1 2]));
    [eapply (reach_step initial); [apply reach_initial|]|]|].
  - apply (step_create initial 1 16 2); [split; [by eexists|apply not_elem_of_empty]|done|done|done|reflexivity].
  - apply (step_code (mk_config _ ∅ [Created 1 2]) 2 7); [split; [by eexists|apply not_elem_of_empty]|reflexivity].
  - apply (step_finish (mk_config _ ∅ [Exiting 2 7; Created 1 2]) 2); [split; [by eexists|apply not_elem_of_empty]|reflexivity].
Qed.

Lemma demo_waited : reachable (mk_config
  (mk_ps {[16 := mk_ws 2 0 7 1 0]} (<[1 := mk_proc NULL []]> (<[2 := mk_proc 16 []]> {[1 := mk_proc NULL []]})) 3)
  ({[2]} ∪ ∅) [Waited 1 2 7; Finished 2; Exiting 2 7; Created 1 2]).
Proof.
  eapply reach_step; [apply demo_reachable|]. apply (step_wait demo_config 1 2 7).
  - split; [by eexists|]. apply (bool_decide_unpack _). vm_compute. exact I.
  - eexists 16, _. split; [done|reflexivity].
  - reflexivity.
Qed.

Lemma wait_exit_codes_witness : 7 = verdict [Waited 1 2 7; Finished 2; Exiting 2 7; Created 1 2] 2.
Proof. apply (proj1 (wait_exit_codes _ demo_waited) 1 2 7). left. Defined.

Lemma wait_records_safe_witness :
  (∃ r s', process_wait 1 2 (ps demo_config) = Ok (r, s')) ∨
  (active demo_config 2 ∧ ∃ r, process_wait 1 2 (ps demo_config) = Blocked (ps demo_config) r).
Proof. apply (wait_records_safe demo_config 1 2 demo_reachable). by eexists. Defined.

End Wait.
