(* ===== verification/Syscall.v ===== *)
(** * Syscall: the system call handler (userprog/syscall.c)

    What a user program can do to the kernel.  [ustate] is the kernel as one
    process sees it: the file system, the wait statuses, the process's memory,
    descriptors and current directory, and the console.  [umem] holds the user
    bytes that are mapped; kernel memory, above PHYS_BASE, is always mapped
    and [kbyte] is what it holds.  Touching an unmapped address in the kernel
    is a [Fault], which stops the machine (exception.c panics on a page fault
    in kernel code).

    [syscall_handler] is the chain of tests of the C function: every test
    reads the call number again, so that a call that changes its own first
    argument goes on as another one.  [process_execute] and [process_exit] are
    those of process.c. *)

From Stdlib Require Import ZArith Lia.
From stdpp Require Import base tactics option list numbers gmap.
From S2P Require Import Prelude Bitmap Sched Synch Block FsState FreeMap Inode FsAlloc File.
From S2P Require Import Directory DirSpec Filesys Wait.
Import Bitmap Sched Synch Block FsState FreeMap Inode FsAlloc File Directory DirSpec Filesys.

Module Syscall.

Definition PHYS_BASE : Z := 3221225472.   (* 0xc0000000 *)

Definition SYS_HALT : Z := 0.
Definition SYS_EXIT : Z := 1.
Definition SYS_EXEC : Z := 2.
Definition SYS_WAIT : Z := 3.
Definition SYS_CREATE : Z := 4.
Definition SYS_REMOVE : Z := 5.
Definition SYS_OPEN : Z := 6.
Definition SYS_FILESIZE : Z := 7.
Definition SYS_READ : Z := 8.
Definition SYS_WRITE : Z := 9.
Definition SYS_SEEK : Z := 10.
Definition SYS_TELL : Z := 11.
Definition SYS_CLOSE : Z := 12.
Definition SYS_PRACTICE : Z := 13.
Definition SYS_CHDIR : Z := 16.
Definition SYS_MKDIR : Z := 17.
Definition SYS_READDIR : Z := 18.
Definition SYS_ISDIR : Z := 19.
Definition SYS_INUMBER : Z := 20.
Definition SYS_BUFACCESSES : Z := 21.
Definition SYS_BUFMISSES : Z := 22.
Definition SYS_BUFSTATSRESET : Z := 23.
Definition SYS_BUFRESET : Z := 24.
Definition SYS_DEVICE_WRITES : Z := 25.
Definition SYS_DEVICE_READS : Z := 26.

(** What the process shows on the console. *)
Inductive output :=
| Putbuf (bytes : list Z)
| ExitMessage (code : Z).

(** [upalloc] and [umalloc] are the addresses palloc_get_page() and the
    malloc() of thread_create() give next, 0 for none; [uload] is the flag
    with which start_process() reports that the program was loaded; [ukeys]
    the keys typed. *)
Record ustate := mk_u {
  ufs : fstate bstate;
  uproc : Wait.pstate;
  utid : Z;
  umem : gmap Z Z;
  ufds : gmap Z fd;
  ucwd : option Z;
  uexe : option Z;
  upalloc : list Z;
  umalloc : list Z;
  uload : bool;
  ukeys : list Z;
  uout : list output;
  ueax : Z
}.

Definition set_ufs (v : fstate bstate) (s : ustate) : ustate :=
  mk_u v (uproc s) (utid s) (umem s) (ufds s) (ucwd s) (uexe s) (upalloc s) (umalloc s) (uload s) (ukeys s) (uout s) (ueax s).
Definition set_uproc (v : Wait.pstate) (s : ustate) : ustate :=
  mk_u (ufs s) v (utid s) (umem s) (ufds s) (ucwd s) (uexe s) (upalloc s) (umalloc s) (uload s) (ukeys s) (uout s) (ueax s).
Definition set_umem (f : gmap Z Z → gmap Z Z) (s : ustate) : ustate :=
  mk_u (ufs s) (uproc s) (utid s) (f (umem s)) (ufds s) (ucwd s) (uexe s) (upalloc s) (umalloc s) (uload s) (ukeys s) (uout s) (ueax s).
Definition set_ufds (f : gmap Z fd → gmap Z fd) (s : ustate) : ustate :=
  mk_u (ufs s) (uproc s) (utid s) (umem s) (f (ufds s)) (ucwd s) (uexe s) (upalloc s) (umalloc s) (uload s) (ukeys s) (uout s) (ueax s).
Definition set_ucwd (v : option Z) (s : ustate) : ustate :=
  mk_u (ufs s) (uproc s) (utid s) (umem s) (ufds s) v (uexe s) (upalloc s) (umalloc s) (uload s) (ukeys s) (uout s) (ueax s).
Definition set_uallocs (p m : list Z) (s : ustate) : ustate :=
  mk_u (ufs s) (uproc s) (utid s) (umem s) (ufds s) (ucwd s) (uexe s) p m (uload s) (ukeys s) (uout s) (ueax s).
Definition set_ukeys (v : list Z) (s : ustate) : ustate :=
  mk_u (ufs s) (uproc s) (utid s) (umem s) (ufds s) (ucwd s) (uexe s) (upalloc s) (umalloc s) (uload s) v (uout s) (ueax s).
Definition add_uout (o : output) (s : ustate) : ustate :=
  mk_u (ufs s) (uproc s) (utid s) (umem s) (ufds s) (ucwd s) (uexe s) (upalloc s) (umalloc s) (uload s) (ukeys s) (uout s ++ [o]) (ueax s).
Definition set_eax (v : Z) (s : ustate) : ustate :=
  mk_u (ufs s) (uproc s) (utid s) (umem s) (ufds s) (ucwd s) (uexe s) (upalloc s) (umalloc s) (uload s) (ukeys s) (uout s) (u32 v).

Definition on_fs {A} (m : M (fstate bstate) A) : M ustate A := lift ufs set_ufs m.
Definition on_proc {A} (m : M Wait.pstate A) : M ustate A := lift uproc set_uproc m.
Definition b2z (b : bool) : Z := if b then 1 else 0.

(** How a part of the handler ends: the next test follows, the handler
    returns, the thread is gone, or the machine is off. *)
Inductive flow := Next | Return | Gone | Off.

Section handler.
Context (dev : Z) (n k : nat) (junk : dir_entry) (part : list Z) (kbyte : Z → Z).

#[local] Instance the_store : SectorStore bstate := cache_store dev.

(** ** User memory *)

Definition rd_user (p : Z) : M ustate Z :=
  if p <? PHYS_BASE then let* s := get in deref (umem s !! p) else ret (kbyte p).
Definition wr_user (p v : Z) : M ustate unit :=
  let* s := get in
  let* _ := deref (umem s !! p) in
  modify (set_umem <[p := u8 v]>).

Definition rd_word (p : Z) : M ustate Z :=
  let* a := rd_user p in
  let* b := rd_user (p + 1) in
  let* c := rd_user (p + 2) in
  let* d := rd_user (p + 3) in
  ret (le_val [a; b; c; d]).

Fixpoint rd_bytes (cnt : nat) (p : Z) : M ustate (list Z) :=
  match cnt with
  | O => ret []
  | S cnt => let* b := rd_user p in let* l := rd_bytes cnt (p + 1) in ret (b :: l)
  end.
Fixpoint rd_string (fuel : nat) (p : Z) : M ustate (list Z) :=
  let* b := rd_user p in
  if b =? 0 then ret []
  else
    match fuel with
    | O => no_fuel
    | S fuel => let* l := rd_string fuel (p + 1) in ret (b :: l)
    end.
Fixpoint wr_bytes (p : Z) (l : list Z) : M ustate unit :=
  match l with
  | [] => ret tt
  | b :: l => wr_user p b;;; wr_bytes (p + 1) l
  end.

Definition is_user_vaddr (p : Z) : bool := p <? PHYS_BASE.

(** [pagedir_get_page (t->pagedir, vaddr) != NULL]. *)
Definition mapped_page (p : Z) : M ustate bool :=
  gets (λ s, bool_decide (is_Some (umem s !! p))).

Definition is_valid (vaddr : Z) : M ustate bool :=
  if vaddr =? 0 then ret false
  else if negb (is_user_vaddr vaddr) then ret false
  else mapped_page vaddr.

(** The loops over user memory stop at the first byte that is not mapped. *)
Definition user_bounded {A} (f : nat → M ustate A) : M ustate A :=
  let* s := get in f (S (size (umem s))).

(** The byte is read before its address is checked. *)
Fixpoint valid_string_loop (fuel : nat) (string i : Z) : M ustate Z :=
  let* c := rd_user (string + i) in
  if c =? 0 then ret i
  else
    match fuel with
    | O => no_fuel
    | S fuel =>
        let* ok := is_valid (string + i) in
        if negb ok then ret (-1) else valid_string_loop fuel string (i + 1)
    end.
Definition is_valid_string (string : Z) : M ustate Z :=
  user_bounded (λ fuel, valid_string_loop fuel string 0).

Fixpoint valid_buffer_loop (fuel : nat) (buffer size i : Z) : M ustate bool :=
  if i <? size then
    match fuel with
    | O => no_fuel
    | S fuel =>
        let* ok := is_valid (buffer + i) in
        if negb ok then ret false else valid_buffer_loop fuel buffer size (i + 1)
    end
  else ret true.
Definition is_valid_buffer (buffer size : Z) : M ustate bool :=
  user_bounded (λ fuel, valid_buffer_loop fuel buffer size 0).

Definition is_valid_fd (fdn : Z) : M ustate bool :=
  gets (λ s, negb ((fdn <? 2) || (fdn >? 127) || negb (bool_decide (is_Some (ufds s !! fdn))))).

Fixpoint bad_str_loop (fuel : nat) (user_p : Z) : M ustate bool :=
  let* ok := is_valid user_p in
  if negb ok then ret true
  else
    let* c := rd_user user_p in
    if c =? 0 then ret false
    else match fuel with O => no_fuel | S fuel => bad_str_loop fuel (user_p + 1) end.
Definition is_bad_str (user_p : Z) : M ustate bool := user_bounded (λ fuel, bad_str_loop fuel user_p).

(** The four bytes of an argument. *)
Definition is_bad_fp (user_p : Z) : M ustate bool :=
  let* a := is_valid user_p in
  if negb a then ret true
  else
    let* b := is_valid (user_p + 1) in
    if negb b then ret true
    else
      let* c := is_valid (user_p + 2) in
      if negb c then ret true
      else let* d := is_valid (user_p + 3) in ret (negb d).

(** ** Processes (process.c) *)

Definition palloc_get_page : M ustate Z :=
  let* s := get in
  modify (λ s, set_uallocs (tail (upalloc s)) (umalloc s) s);;;
  ret (default 0 (head (upalloc s))).
Definition malloc_status : M ustate Z :=
  let* s := get in
  modify (λ s, set_uallocs (upalloc s) (tail (umalloc s)) s);;;
  ret (default 0 (head (umalloc s))).

(** The parent sleeps on the semaphore of [arg_set] until start_process()
    of the child raises it; then [uload] is what the child stored.  The copy
    of the name, cut to a page, is the child's. *)
Definition process_execute (file_name : list Z) : M ustate Z :=
  let* fn_copy := palloc_get_page in
  if fn_copy =? 0 then ret Wait.TID_ERROR
  else
    let* page := palloc_get_page in
    let* p := (if page =? 0 then ret 0 else malloc_status) in
    let* s := get in
    let* tid := on_proc (Wait.thread_create (utid s) p (negb (page =? 0))) in
    suspend;;;
    let* s := get in
    ret (if uload s then tid else -1).

Definition close_fd (f : fd) : M ustate unit :=
  (match fd_file f with Some fp => on_fs (file_close n (Some fp)) | None => ret tt end);;;
  (match fd_dir f with Some dp => on_fs (dir_close n (Some dp)) | None => ret tt end).

Fixpoint close_fds (cnt : nat) (i : Z) : M ustate unit :=
  match cnt with
  | O => ret tt
  | S cnt =>
      let* s := get in
      (match ufds s !! i with
       | None => ret tt
       | Some f => close_fd f;;; modify (set_ufds (delete i))
       end);;;
      close_fds cnt (i + 1)
  end.

Definition process_exit : M ustate unit :=
  let* s := get in
  on_fs (file_close n (uexe s));;;
  close_fds 128 0;;;
  modify (set_umem (λ _, ∅));;;
  let* s := get in
  on_proc (Wait.process_exit_status (utid s));;;
  on_fs (dir_close n (ucwd s)).

Definition thread_exit : M ustate unit :=
  process_exit;;;
  let* s := get in
  on_proc (Wait.thread_exit_status (utid s)).

Definition exit_with_code (exit_code : Z) : M ustate flow :=
  let* s := get in
  on_proc (Wait.set_exit_code (utid s) exit_code);;;
  modify (add_uout (ExitMessage (s32 exit_code)));;;
  thread_exit;;;
  ret Gone.

Definition result (v : Z) : M ustate flow := modify (set_eax v);;; ret Return.
Definition go_on (v : Z) : M ustate flow := modify (set_eax v);;; ret Next.

(** ** The calls *)

Section call.
Context (esp : Z).

Definition arg (i : Z) : M ustate Z := rd_word (esp + 4 * i).

(** The tests of the single bytes at offsets from [args], up to the first that
    fails. *)
Fixpoint all_valid (offs : list Z) : M ustate bool :=
  match offs with
  | [] => ret true
  | o :: offs => let* ok := is_valid (esp + o) in if negb ok then ret false else all_valid offs
  end.

Definition exit_if_bad_arg (i : Z) (k : M ustate flow) : M ustate flow :=
  let* bad := is_bad_fp (esp + 4 * i) in
  if bad : bool then exit_with_code (-1) else k.

(** A pointer argument that is not null and points to a mapped byte. *)
Definition exit_if_bad_ptr (i : Z) (k : M ustate flow) : M ustate flow :=
  let* p := arg i in
  let* ok := is_valid p in
  if negb ok || (p =? 0) then exit_with_code (-1) else k.

Definition exit_if_bad_bytes (offs : list Z) (k : M ustate flow) : M ustate flow :=
  let* ok := all_valid offs in
  if negb ok then exit_with_code (-1) else k.

(** The checks of the calls that take a file name as their first argument,
    and the copy of the name. *)
Definition with_name (offs : list Z) (body : list Z → M ustate flow) : M ustate flow :=
  exit_if_bad_bytes offs
    (exit_if_bad_ptr 1
      (let* p := arg 1 in
       let* len := is_valid_string p in
       if len <? 0 then result 0
       else
         let* p := arg 1 in
         let* file_name := rd_bytes (Z.to_nat (len + 1)) p in
         body (take (Z.to_nat len) file_name))).

Definition sys_practice : M ustate flow :=
  exit_if_bad_arg 1 (let* a := arg 1 in result (a + 1)).

Definition sys_exec : M ustate flow :=
  exit_if_bad_arg 1
    (let* p := arg 1 in
     let* bad := is_bad_str p in
     if bad : bool then exit_with_code (-1)
     else
       let* p := arg 1 in
       let* name := user_bounded (λ fuel, rd_string fuel p) in
       let* tid := process_execute name in
       go_on tid).

Definition sys_halt : M ustate flow := ret Off.

Definition sys_exit : M ustate flow :=
  exit_if_bad_arg 1
    (let* code := arg 1 in
     modify (set_eax code);;;
     exit_with_code (s32 code)).

Definition sys_wait : M ustate flow :=
  exit_if_bad_arg 1
    (let* child := arg 1 in
     let* s := get in
     let* code := on_proc (Wait.process_wait (utid s) (s32 child)) in
     go_on code).

Definition sys_create : M ustate flow :=
  with_name [1; 2] (λ name,
    if zlen name >? PATH_MAX then result 0
    else
      let* initial_size := arg 2 in
      let* s := get in
      let* ok := on_fs (filesys_create_2 n k junk part (ucwd s) name (s32 initial_size)) in
      go_on (b2z ok)).

Fixpoint free_fd (cnt : nat) (i : Z) (fds : gmap Z fd) : Z :=
  match cnt with
  | O => i
  | S cnt => if bool_decide (is_Some (fds !! i)) then free_fd cnt (i + 1) fds else i
  end.

Definition sys_open : M ustate flow :=
  with_name [1] (λ name,
    if zlen name =? 0 then result (-1)
    else
      let* s := get in
      let* ofp := on_fs (filesys_open_2 n k junk part (ucwd s) name) in
      match ofp with
      | None => result (-1)
      | Some fp =>
          let* s := get in
          let fdn := free_fd 126 2 (ufds s) in
          if fdn =? 128 then result (-1)
          else modify (set_ufds <[fdn := fp]>);;; go_on fdn
      end).

Definition sys_remove : M ustate flow :=
  with_name [1] (λ name,
    let* s := get in
    let* ok := on_fs (filesys_remove n k junk part (ucwd s) name) in
    go_on (b2z ok)).

(** The descriptor in argument 1, when it is valid. *)
Definition with_fd (invalid : M ustate flow) (body : Z → fd → M ustate flow) : M ustate flow :=
  let* fdn := arg 1 in
  let fdn := s32 fdn in
  let* ok := is_valid_fd fdn in
  if negb ok then invalid
  else
    let* s := get in
    let* f := deref (ufds s !! fdn) in
    body fdn f.

(** [ASSERT (file != NULL)] of file.c. *)
Definition file_of (f : fd) : M ustate Z :=
  match fd_file f with None => panic | Some fp => ret fp end.

Definition sys_filesize : M ustate flow :=
  exit_if_bad_bytes [1]
    (with_fd (result 0) (λ _ f,
      let* fp := file_of f in
      let* len := on_fs (file_length fp) in
      go_on len)).

Definition input_getc : M ustate Z :=
  let* s := get in
  match ukeys s with
  | c :: keys => modify (set_ukeys keys);;; ret c
  | [] =>
      suspend;;;
      let* s := get in
      match ukeys s with
      | c :: keys => modify (set_ukeys keys);;; ret c
      | [] => no_fuel
      end
  end.

Fixpoint read_keys (cnt : nat) (buffer : Z) : M ustate unit :=
  match cnt with
  | O => ret tt
  | S cnt =>
      let* c := input_getc in
      wr_user buffer c;;;
      read_keys cnt (buffer + 1)
  end.

(** The checks of read() and write(). *)
Definition with_buffer (body : Z → Z → Z → M ustate flow) : M ustate flow :=
  exit_if_bad_bytes [1; 2; 3]
    (exit_if_bad_ptr 2
      (let* buffer := arg 2 in
       let* size := arg 3 in
       let* ok := is_valid_buffer buffer (s32 size) in
       if negb ok then result (-1)
       else
         let* fdn := arg 1 in
         let* buffer := arg 2 in
         let* size := arg 3 in
         body (s32 fdn) buffer (s32 size))).

Definition sys_read : M ustate flow :=
  with_buffer (λ fdn buffer size,
    if fdn =? 0 then
      read_keys (Z.to_nat size) buffer;;;
      result size
    else
      with_fd (result (-1)) (λ _ f,
        match fd_file f with
        | None => fault
        | Some fp =>
            let* d := on_fs (file_read fp size) in
            wr_bytes buffer d;;;
            go_on (zlen d)
        end)).

(** Writing to the console, 100 bytes at a time through a buffer of 100. *)
Fixpoint write_console (cnt : nat) (i num_buf buffer size : Z) : M ustate unit :=
  match cnt with
  | O => ret tt
  | S cnt =>
      let len := if i =? num_buf - 1 then size - i * 100 else 100 in
      (if (len <? 0) || (len >? 100) then fault
       else
         let* d := rd_bytes (Z.to_nat len) (buffer + i * 100) in
         modify (add_uout (Putbuf d)));;;
      write_console cnt (i + 1) num_buf buffer size
  end.

Definition sys_write : M ustate flow :=
  with_buffer (λ fdn buffer size,
    if fdn =? 1 then
      let num_buf := if Z.rem size 100 =? 0 then Z.quot size 100 else Z.quot size 100 + 1 in
      write_console (Z.to_nat num_buf) 0 num_buf buffer size;;;
      ret Return
    else
      with_fd (result (-1)) (λ _ f,
        match fd_file f with
        | None => result (-1)
        | Some fp =>
            let* d := rd_bytes (Z.to_nat size) buffer in
            let* w := on_fs (file_write n fp d size) in
            go_on w
        end)).

Definition sys_seek : M ustate flow :=
  exit_if_bad_bytes [1; 2]
    (with_fd (ret Return) (λ _ f,
      let* fp := file_of f in
      let* pos := arg 2 in
      on_fs (file_seek fp (s32 pos));;;
      ret Next)).

Definition sys_tell : M ustate flow :=
  exit_if_bad_bytes [1]
    (with_fd (result 0) (λ _ f,
      let* fp := file_of f in
      let* pos := on_fs (file_tell fp) in
      go_on pos)).

Definition sys_close : M ustate flow :=
  exit_if_bad_bytes [1]
    (with_fd (ret Return) (λ fdn f,
      close_fd f;;;
      modify (set_ufds (delete fdn));;;
      ret Next)).

Definition sys_chdir : M ustate flow :=
  with_name [1] (λ name,
    if zlen name =? 0 then result 0
    else
      let* s := get in
      let* od := on_fs (get_dir_from_path n k junk (ucwd s) part name) in
      match od with
      | None => result 0
      | Some d =>
          on_fs (dir_close n (ucwd s));;;
          modify (set_ucwd (Some d));;;
          result 1
      end).

Definition sys_mkdir : M ustate flow :=
  with_name [1] (λ name,
    if zlen name =? 0 then result 0
    else if bool_decide (name = [slash]) then result 0
    else
      let* s := get in
      let* oino := on_fs (get_inode_from_path n k junk (ucwd s) part name) in
      match oino with
      | Some ino => on_fs (inode_close (inode_write_at n) (Some ino));;; result 0
      | None =>
          let* osub := on_fs (get_subdir_from_path n k junk (ucwd s) part name) in
          match osub with
          | None => result 0
          | Some subdir =>
              let* ok := on_fs (subdir_create n k junk name (Some subdir) part) in
              go_on (b2z ok)
          end
      end).

(** The check reads what the buffer held before as a string. *)
Definition sys_readdir : M ustate flow :=
  exit_if_bad_bytes [1]
    (with_fd (result 0) (λ _ f,
      exit_if_bad_bytes [1]
        (exit_if_bad_ptr 2
          (let* p := arg 2 in
           let* len := is_valid_string p in
           if len <? 0 then result 0
           else
             assert (xorb (bool_decide (fd_file f = None)) (bool_decide (fd_dir f = None)));;;
             match fd_file f, fd_dir f with
             | None, Some dp =>
                 let* p := arg 2 in
                 let* o := on_fs (dir_readdir_2 k junk dp (replicate 15 0)) in
                 match o with
                 | None => result 0
                 | Some name => wr_bytes p (cstr name ++ [0]);;; result 1
                 end
             | _, _ => result 0
             end)))).

Definition sys_isdir : M ustate flow :=
  exit_if_bad_bytes [1]
    (with_fd (ret Return) (λ _ f, go_on (b2z (negb (bool_decide (fd_dir f = None)))))).

Definition sys_inumber : M ustate flow :=
  exit_if_bad_arg 1
    (exit_if_bad_bytes [1]
      (with_fd (result (-1)) (λ _ f,
        let* ino :=
          match fd_dir f with
          | None => let* fp := deref (fd_file f) in on_fs (file_get_inode fp)
          | Some dp => on_fs (dir_get_inode (Some dp))
          end in
        let* num := on_fs (o_inumber ino) in
        result num))).

Definition on_cache {A} (m : M bstate A) : M ustate A := on_fs (on_store m).

Definition sys_bufaccesses : M ustate flow :=
  let* v := on_cache (gets g_buffer_accesses) in result v.
Definition sys_bufmisses : M ustate flow :=
  let* v := on_cache (gets g_buffer_misses) in result v.
Definition sys_bufstatsreset : M ustate flow := on_cache (modify (set_counts 0 0));;; ret Return.
Definition sys_bufreset : M ustate flow := on_cache flush_buffer_cache;;; ret Return.
Definition sys_device_writes : M ustate flow :=
  let* b := on_cache (block_get_role ROLE_FILESYS) in
  let* b := deref b in
  let* v := on_cache (get_write_cnt b) in
  result v.
Definition sys_device_reads : M ustate flow :=
  let* b := on_cache (block_get_role ROLE_FILESYS) in
  let* b := deref b in
  let* v := on_cache (get_read_cnt b) in
  result v.

(** ** The handler *)

Definition calls : list (Z * M ustate flow) :=
  [(SYS_PRACTICE, sys_practice); (SYS_EXEC, sys_exec); (SYS_HALT, sys_halt); (SYS_EXIT, sys_exit);
   (SYS_WAIT, sys_wait); (SYS_CREATE, sys_create); (SYS_OPEN, sys_open); (SYS_REMOVE, sys_remove);
   (SYS_FILESIZE, sys_filesize); (SYS_READ, sys_read); (SYS_WRITE, sys_write); (SYS_SEEK, sys_seek);
   (SYS_TELL, sys_tell); (SYS_CLOSE, sys_close); (SYS_CHDIR, sys_chdir); (SYS_MKDIR, sys_mkdir);
   (SYS_READDIR, sys_readdir); (SYS_ISDIR, sys_isdir); (SYS_INUMBER, sys_inumber);
   (SYS_BUFACCESSES, sys_bufaccesses); (SYS_BUFMISSES, sys_bufmisses);
   (SYS_BUFSTATSRESET, sys_bufstatsreset); (SYS_BUFRESET, sys_bufreset);
   (SYS_DEVICE_WRITES, sys_device_writes); (SYS_DEVICE_READS, sys_device_reads)].

Fixpoint dispatch (l : list (Z * M ustate flow)) : M ustate flow :=
  match l with
  | [] => ret Return
  | (nr, call) :: l =>
      let* a := arg 0 in
      let* r := if a =? nr then call else ret Next in
      match r with Next => dispatch l | _ => ret r end
  end.

Definition syscall_handler : M ustate flow := exit_if_bad_arg 0 (dispatch calls).

End call.
End handler.

End Syscall.
