(* ===== verification/SyscallSpec.v ===== *)
(** * SyscallSpec: user pointers, file names and descriptors

    Which user pointers the handler's checks admit, what a file name that is
    not terminated does to the kernel, and how open() assigns descriptors. *)

From Stdlib Require Import ZArith Lia.
From stdpp Require Import base tactics option list numbers gmap fin_sets.
From S2P Require Import Prelude Bitmap Sched Synch Block FsState FreeMap Inode FsAlloc File.
From S2P Require Import Directory DirSpec Filesys Wait Syscall.
Import Block FsState Inode File Directory DirSpec Filesys Syscall.

Module SyscallSpec.

(** A byte the process may touch. *)
Definition uvalid (s : ustate) (p : Z) : Prop := p ≠ 0 ∧ p < PHYS_BASE ∧ is_Some (umem s !! p).

#[global] Instance uvalid_dec s p : Decision (uvalid s p).
Proof. unfold uvalid. apply _. Defined.

(** The bytes [l] at [p], all of them the process's. *)
Definition ubytes (s : ustate) (p : Z) (l : list Z) : Prop :=
  ∀ (i : nat) b, l !! i = Some b → uvalid s (p + Z.of_nat i) ∧ umem s !! (p + Z.of_nat i) = Some b.

(** A string of the process's. *)
Definition ustring (s : ustate) (p : Z) (l : list Z) : Prop :=
  ubytes s p (l ++ [0]) ∧ Forall (λ b, b ≠ 0) l.

Definition uword (s : ustate) (p v : Z) : Prop :=
  ∃ a b c d, ubytes s p [a; b; c; d] ∧ v = le_val [a; b; c; d].

Section facts.
Context (s : ustate).

Lemma is_valid_ok p : is_valid p s = Ok (bool_decide (uvalid s p), s).
Proof.
  unfold is_valid, is_user_vaddr, mapped_page, uvalid.
  destruct (Z.eqb_spec p 0) as [->|H0]; [by rewrite bool_decide_eq_false_2 by tauto|].
  destruct (Z.ltb_spec p PHYS_BASE); cbn [negb]; [|by rewrite bool_decide_eq_false_2 by lia].
  unfold gets. do 2 f_equal. apply bool_decide_ext. tauto.
Qed.

Lemma ubytes_cons p b l : ubytes s p (b :: l) ↔ uvalid s p ∧ umem s !! p = Some b ∧ ubytes s (p + 1) l.
Proof.
  split.
  - intros H. destruct (H 0%nat b eq_refl) as [Hv Hb]. rewrite Z.add_0_r in *. split_and!; [done|done|].
    intros i x Hx. replace (p + 1 + Z.of_nat i) with (p + Z.of_nat (S i)) by lia. by apply H.
  - intros (Hv & Hb & Hl) [|i] x Hx; simpl in Hx.
    + injection Hx as <-. by rewrite Z.add_0_r.
    + replace (p + Z.of_nat (S i)) with (p + 1 + Z.of_nat i) by lia. by apply Hl.
Qed.

Lemma ubytes_app p l1 l2 : ubytes s p (l1 ++ l2) ↔ ubytes s p l1 ∧ ubytes s (p + zlen l1) l2.
Proof.
  revert p. induction l1 as [|b l1 IH]; intros p; cbn [app].
  - change (zlen []) with 0. rewrite Z.add_0_r. split; [intros H; split; [by intros []|done]|by intros [_ ?]].
  - rewrite !ubytes_cons, IH. unfold zlen. cbn [length].
    replace (p + 1 + Z.of_nat (length l1)) with (p + Z.of_nat (S (length l1))) by lia. tauto.
Qed.

(** No more of them than mapped bytes. *)
Lemma ubytes_size p l : ubytes s p l → (length l <= size (umem s))%nat.
Proof.
  intros H. rewrite <- size_dom.
  assert (length l = length (seqZ p (zlen l))) as -> by (rewrite length_seqZ; unfold zlen; lia).
  rewrite <- (size_list_to_set (C := gset Z) (seqZ p (zlen l))) by apply NoDup_seqZ.
  apply subseteq_size. intros x Hx%elem_of_list_to_set%elem_of_seqZ. apply elem_of_dom.
  destruct (lookup_lt_is_Some_2 l (Z.to_nat (x - p))) as [b Hb]; [unfold zlen in Hx; lia|].
  destruct (H _ _ Hb) as [_ E]. replace (p + Z.of_nat (Z.to_nat (x - p))) with x in E by lia. by eexists.
Qed.

Lemma uword_valid p v : uword s p v → uvalid s p ∧ uvalid s (p + 1) ∧ uvalid s (p + 2) ∧ uvalid s (p + 3).
Proof.
  intros (a & b & c & d & H & _). rewrite !ubytes_cons in H. rewrite <- !Z.add_assoc in H.
  cbn [Z.add Pos.add Pos.succ] in H. tauto.
Qed.

Lemma is_bad_fp_ok p :
  is_bad_fp p s = Ok (bool_decide (¬ (uvalid s p ∧ uvalid s (p + 1) ∧ uvalid s (p + 2) ∧ uvalid s (p + 3))), s).
Proof.
  unfold is_bad_fp.
  rewrite (bind_ok _ _ _ _ _ (is_valid_ok p)). case_bool_decide; cbn [negb]; [|rewrite bool_decide_eq_true_2 by tauto; done].
  rewrite (bind_ok _ _ _ _ _ (is_valid_ok (p + 1))). case_bool_decide; cbn [negb]; [|rewrite bool_decide_eq_true_2 by tauto; done].
  rewrite (bind_ok _ _ _ _ _ (is_valid_ok (p + 2))). case_bool_decide; cbn [negb]; [|rewrite bool_decide_eq_true_2 by tauto; done].
  rewrite (bind_ok _ _ _ _ _ (is_valid_ok (p + 3))). unfold ret. do 2 f_equal.
  case_bool_decide; cbn [negb]; symmetry; [apply bool_decide_eq_false_2|apply bool_decide_eq_true_2]; tauto.
Qed.

Lemma word_valid p : uvalid s p → uvalid s (p + 1) → uvalid s (p + 2) → uvalid s (p + 3) → ∃ v, uword s p v.
Proof.
  intros V0 V1 V2 V3. pose proof V0 as (_ & _ & a & Ha). pose proof V1 as (_ & _ & b & Hb).
  pose proof V2 as (_ & _ & c & Hc). pose proof V3 as (_ & _ & d & Hd).
  exists (le_val [a; b; c; d]), a, b, c, d. split; [|done]. rewrite !ubytes_cons.
  rewrite <- !Z.add_assoc. cbn [Z.add Pos.add Pos.succ]. split_and!; done.
Qed.

Context (kbyte : Z → Z).

Lemma rd_user_ok p b : uvalid s p → umem s !! p = Some b → rd_user kbyte p s = Ok (b, s).
Proof.
  intros (_ & Hp & _) Hb. unfold rd_user. rewrite (proj2 (Z.ltb_lt p _)) by done. run. by rewrite Hb.
Qed.

Lemma rd_word_ok p v : uword s p v → rd_word kbyte p s = Ok (v, s).
Proof.
  intros (a & b & c & d & H & ->). unfold rd_word.
  rewrite !ubytes_cons in H. destruct H as (V0 & E0 & V1 & E1 & V2 & E2 & V3 & E3 & _).
  rewrite <- !Z.add_assoc in *. cbn [Z.add Pos.add Pos.succ] in *.
  rewrite (bind_ok _ _ _ _ _ (rd_user_ok _ _ V0 E0)), (bind_ok _ _ _ _ _ (rd_user_ok _ _ V1 E1)).
  rewrite (bind_ok _ _ _ _ _ (rd_user_ok _ _ V2 E2)), (bind_ok _ _ _ _ _ (rd_user_ok _ _ V3 E3)). done.
Qed.

(** The check of exec()'s string is exact. *)
Lemma bad_str_loop_ok fuel p l : ubytes s p l → Forall (λ b, b ≠ 0) l →
  (length l + fuel = S (size (umem s)))%nat →
  ∃ b, bad_str_loop kbyte fuel (p + zlen l) s = Ok (b, s) ∧ (b = false ↔ ∃ t, ustring s p t).
Proof.
  revert l. induction fuel as [|fuel IH]; intros l Hl Hz Hf.
  { exfalso. apply ubytes_size in Hl. lia. }
  cbn [bad_str_loop]. set (q := p + zlen l). rewrite (bind_ok _ _ _ _ _ (is_valid_ok q)).
  case_bool_decide as Hq; cbn [negb].
  - pose proof Hq as (_ & _ & b & Hb). rewrite (bind_ok _ _ _ _ _ (rd_user_ok _ _ Hq Hb)).
    assert (ubytes s p (l ++ [b])) as Hl'.
    { apply ubytes_app. split; [done|]. apply ubytes_cons. split_and!; [done|done|by intros []]. }
    destruct (Z.eqb_spec b 0) as [->|Hb0].
    + exists false. split; [done|]. split; [intros _; by exists l|done].
    + destruct (IH (l ++ [b])) as (r & E & Hr); [done|apply Forall_app; by repeat constructor|rewrite length_app; simpl; lia|].
      exists r. split; [|done]. rewrite <- E. f_equal. rewrite zlen_app. change (zlen [b]) with 1. lia.
  - exists true. split; [done|]. split; [done|]. intros (t & Ht & Htz). exfalso. apply Hq.
    assert (length l <= length t)%nat as Hlen.
    { destruct (decide (length l <= length t)%nat); [done|]. exfalso.
      destruct (lookup_lt_is_Some_2 l (length t)) as [b Hb]; [lia|].
      assert ((t ++ [0]) !! length t = Some 0) as H0 by (rewrite lookup_app_r by lia; by rewrite Nat.sub_diag).
      destruct (Ht _ _ H0) as [_ E0]. destruct (Hl _ _ Hb) as [_ Eb]. rewrite E0 in Eb. injection Eb as <-.
      rewrite Forall_forall in Hz. eapply Hz; [by eapply list_elem_of_lookup_2|done]. }
    destruct (lookup_lt_is_Some_2 (t ++ [0]) (length l)) as [b Hb]; [rewrite length_app; simpl; lia|].
    by destruct (Ht _ _ Hb).
Qed.

Lemma is_bad_str_ok p : ∃ b, is_bad_str kbyte p s = Ok (b, s) ∧ (b = false ↔ ∃ t, ustring s p t).
Proof.
  destruct (bad_str_loop_ok (S (size (umem s))) p []) as (b & E & Hb); [by intros []|done|done|].
  exists b. split; [|done]. unfold is_bad_str, user_bounded. run.
  rewrite <- E. f_equal. change (zlen []) with 0. lia.
Qed.

(** The scan of the other calls: a string, or a run of characters up to a
    byte that is not mapped. *)
Lemma valid_string_run fuel p l i : ubytes s (p + i) l → Forall (λ b, b ≠ 0) l →
  valid_string_loop kbyte (length l + fuel) p i s = valid_string_loop kbyte fuel p (i + zlen l) s.
Proof.
  revert i. induction l as [|b l IH]; intros i Hl Hz; [by rewrite Z.add_0_r|].
  apply ubytes_cons in Hl as (Hv & Hb & Hl). apply Forall_cons in Hz as [Hb0 Hz].
  cbn [length Nat.add valid_string_loop]. rewrite (bind_ok _ _ _ _ _ (rd_user_ok _ _ Hv Hb)).
  rewrite (proj2 (Z.eqb_neq b 0)) by done. rewrite (bind_ok _ _ _ _ _ (is_valid_ok _)).
  rewrite bool_decide_eq_true_2 by done. cbn [negb].
  rewrite IH; [|by rewrite <- Z.add_assoc in Hl|done]. f_equal. unfold zlen. cbn [length]. lia.
Qed.

Lemma is_valid_string_ok p l : ustring s p l → is_valid_string kbyte p s = Ok (zlen l, s).
Proof.
  intros [Hl Hz]. pose proof (ubytes_size _ _ Hl) as Hsz. rewrite length_app in Hsz. simpl in Hsz.
  apply ubytes_app in Hl as [Hl H0]. apply ubytes_cons in H0 as (Hv & H0 & _).
  unfold is_valid_string, user_bounded. run.
  replace (S (size (umem s))) with (length l + (S (size (umem s)) - length l))%nat by lia.
  rewrite valid_string_run; [|by rewrite Z.add_0_r|done].
  destruct (S (size (umem s)) - length l)%nat; cbn [valid_string_loop];
    rewrite (bind_ok _ _ _ _ _ (rd_user_ok _ _ Hv H0)); done.
Qed.

Lemma is_valid_string_fault p l : ubytes s p l → Forall (λ b, b ≠ 0) l →
  p + zlen l < PHYS_BASE → umem s !! (p + zlen l) = None → is_valid_string kbyte p s = Fault.
Proof.
  intros Hl Hz Hp Hn. pose proof (ubytes_size _ _ Hl) as Hsz. unfold is_valid_string, user_bounded. run.
  replace (S (size (umem s))) with (length l + (S (size (umem s)) - length l))%nat by lia.
  rewrite valid_string_run; [|by rewrite Z.add_0_r|done].
  assert (rd_user kbyte (p + (0 + zlen l)) s = Fault) as E.
  { unfold rd_user. rewrite Z.add_0_l. rewrite (proj2 (Z.ltb_lt _ _)) by done. run. by rewrite Hn. }
  destruct (S (size (umem s)) - length l)%nat; cbn [valid_string_loop]; unfold bind; by rewrite E.
Qed.

(** A run of characters up to the kernel's memory, which can be read. *)
Lemma is_valid_string_kernel p l : ubytes s p l → Forall (λ b, b ≠ 0) l → PHYS_BASE <= p + zlen l →
  is_valid_string kbyte p s = Ok (if kbyte (p + zlen l) =? 0 then zlen l else -1, s).
Proof.
  intros Hl Hz Hp. pose proof (ubytes_size _ _ Hl) as Hsz. unfold is_valid_string, user_bounded. run.
  replace (S (size (umem s))) with (length l + S (size (umem s) - length l))%nat by lia.
  rewrite valid_string_run; [|by rewrite Z.add_0_r|done]. cbn [valid_string_loop]. rewrite Z.add_0_l.
  unfold rd_user. rewrite (proj2 (Z.ltb_ge _ _)) by done. rewrite bind_ret.
  destruct (kbyte (p + zlen l) =? 0); [done|]. rewrite (bind_ok _ _ _ _ _ (is_valid_ok _)).
  rewrite bool_decide_eq_false_2; [done|]. unfold uvalid. lia.
Qed.

Lemma rd_bytes_ok p l : ubytes s p l → rd_bytes kbyte (length l) p s = Ok (l, s).
Proof.
  revert p. induction l as [|b l IH]; intros p Hl; [done|]. apply ubytes_cons in Hl as (Hv & Hb & Hl).
  cbn [length rd_bytes]. rewrite (bind_ok _ _ _ _ _ (rd_user_ok _ _ Hv Hb)).
  by rewrite (bind_ok _ _ _ _ _ (IH _ Hl)).
Qed.

End facts.

(** ** Through the handler *)

Section handler.
Context (dev : Z) (n k : nat) (junk : dir_entry) (part : list Z) (kbyte : Z → Z) (esp : Z).

Abbreviation disp := (dispatch kbyte esp) (only parsing).
Abbreviation handler := (syscall_handler dev n k junk part kbyte esp) (only parsing).

Lemma dispatch_skip s a nr call l : uword s esp a → a ≠ nr → disp ((nr, call) :: l) s = disp l s.
Proof.
  intros Ha Hne. cbn [dispatch]. unfold arg. rewrite Z.mul_0_r, Z.add_0_r.
  rewrite (bind_ok _ _ _ _ _ (rd_word_ok s kbyte _ _ Ha)). by rewrite (proj2 (Z.eqb_neq a nr)) by done.
Qed.

Lemma dispatch_hit s nr call l : uword s esp nr →
  disp ((nr, call) :: l) s = bind call (λ r, match r with Next => disp l | _ => ret r end) s.
Proof.
  intros Ha. cbn [dispatch]. unfold arg. rewrite Z.mul_0_r, Z.add_0_r.
  rewrite (bind_ok _ _ _ _ _ (rd_word_ok s kbyte _ _ Ha)). by rewrite Z.eqb_refl.
Qed.

Lemma handler_dispatch s a : uword s esp a → handler s = disp (calls dev n k junk part kbyte esp) s.
Proof.
  intros Ha%uword_valid. unfold syscall_handler, exit_if_bad_arg.
  rewrite Z.mul_0_r, Z.add_0_r. rewrite (bind_ok _ _ _ _ _ (is_bad_fp_ok s esp)).
  by rewrite bool_decide_eq_false_2 by tauto.
Qed.

Lemma all_valid_ok s offs : (∀ o, o ∈ offs → uvalid s (esp + o)) → all_valid esp offs s = Ok (true, s).
Proof.
  induction offs as [|o offs IH]; intros H; [done|]. cbn [all_valid].
  rewrite (bind_ok _ _ _ _ _ (is_valid_ok s _)). rewrite bool_decide_eq_true_2 by (apply H; left).
  cbn [negb]. apply IH. intros x Hx. apply H. by right.
Qed.

(** Up to the scan of the name. *)
Lemma with_name_start s offs p body : (∀ o, o ∈ offs → uvalid s (esp + o)) → uword s (esp + 4) p → uvalid s p →
  with_name dev n kbyte esp offs body s =
    (let* len := is_valid_string kbyte p in
     if len <? 0 then result 0
     else
       let* p := arg kbyte esp 1 in
       let* file_name := rd_bytes kbyte (Z.to_nat (len + 1)) p in
       body (take (Z.to_nat len) file_name)) s.
Proof.
  intros Ho Hw Hp. unfold with_name, exit_if_bad_bytes.
  rewrite (bind_ok _ _ _ _ _ (all_valid_ok s offs Ho)). cbn [negb]. unfold exit_if_bad_ptr.
  assert (arg kbyte esp 1 s = Ok (p, s)) as Ea by (by apply rd_word_ok).
  rewrite (bind_ok _ _ _ _ _ Ea), (bind_ok _ _ _ _ _ (is_valid_ok s p)).
  rewrite bool_decide_eq_true_2 by done. cbn [negb orb].
  destruct Hp as (Hp0 & _). rewrite (proj2 (Z.eqb_neq p 0)) by done. by rewrite (bind_ok _ _ _ _ _ Ea).
Qed.

Lemma with_name_fault s offs p l body :
  (∀ o, o ∈ offs → uvalid s (esp + o)) → uword s (esp + 4) p → l ≠ [] → ubytes s p l →
  Forall (λ b, b ≠ 0) l → p + zlen l < PHYS_BASE → umem s !! (p + zlen l) = None →
  with_name dev n kbyte esp offs body s = Fault.
Proof.
  intros Ho Hw Hne Hl Hz Hp Hn.
  assert (uvalid s p) as Hv by (destruct l; [done|]; by apply ubytes_cons in Hl as [? _]).
  rewrite (with_name_start s offs p body Ho Hw Hv). unfold bind.
  by rewrite (is_valid_string_fault s kbyte p l Hl Hz Hp Hn).
Qed.

Lemma with_name_ok s offs p l body :
  (∀ o, o ∈ offs → uvalid s (esp + o)) → uword s (esp + 4) p → ustring s p l →
  with_name dev n kbyte esp offs body s = body l s.
Proof.
  intros Ho Hw Hl. pose proof Hl as [Hb Hz].
  assert (uvalid s p) as Hv by (destruct l; by apply ubytes_cons in Hb as [? _]).
  rewrite (with_name_start s offs p body Ho Hw Hv).
  rewrite (bind_ok _ _ _ _ _ (is_valid_string_ok s kbyte p l Hl)).
  rewrite (proj2 (Z.ltb_ge _ 0)) by apply zlen_nonneg.
  assert (arg kbyte esp 1 s = Ok (p, s)) as Ea by (by apply rd_word_ok).
  rewrite (bind_ok _ _ _ _ _ Ea).
  replace (Z.to_nat (zlen l + 1)) with (length (l ++ [0])) by (rewrite length_app; unfold zlen; simpl; lia).
  rewrite (bind_ok _ _ _ _ _ (rd_bytes_ok s kbyte _ _ Hb)).
  replace (Z.to_nat (zlen l)) with (length l) by (unfold zlen; lia). by rewrite take_app_length.
Qed.

(** The calls in the order of the handler. *)
Lemma dispatch_none s a l : uword s esp a → (∀ nr call, (nr, call) ∈ l → a ≠ nr) →
  disp l s = Ok (Return, s).
Proof.
  intros Ha. induction l as [|[nr call] l IH]; intros H; [done|].
  rewrite (dispatch_skip _ a) by (done || (eapply H; left)). apply IH. intros nr' call' Hin. eapply H. right. exact Hin.
Qed.

End handler.

(** The calls whose first argument is a file name checked by
    is_valid_string(). *)
Definition name_calls : list Z := [SYS_CREATE; SYS_OPEN; SYS_REMOVE; SYS_CHDIR; SYS_MKDIR].

(** C16. What the three checks of user pointers do.  The argument words and the
    string of exec() are checked exactly and without a fault: the four-byte
    check fails just when one of the bytes is null, in kernel space or
    unmapped, and reading a word that passed cannot fault; the string check
    accepts a pointer just when a null-terminated string of user bytes starts
    there, whatever the memory holds.  The third check, is_valid_string() of
    the file system calls, gives the length of a user string, but reads each
    byte before it checks the address: characters that run up to an unmapped
    byte are a page fault in the kernel, and where they run up to the kernel's
    memory the kernel's byte decides, a null one ends the string and any other
    makes the check fail. *)
Theorem user_pointers_checked kbyte s p :
  (∃ bad, is_bad_fp p s = Ok (bad, s) ∧ (bad = false ↔ ∃ v, uword s p v) ∧
     (bad = false → ∃ v, rd_word kbyte p s = Ok (v, s))) ∧
  (∃ bad, is_bad_str kbyte p s = Ok (bad, s) ∧ (bad = false ↔ ∃ l, ustring s p l)) ∧
  (∀ l, ustring s p l → is_valid_string kbyte p s = Ok (zlen l, s)) ∧
  (∀ l, ubytes s p l → Forall (λ b, b ≠ 0) l →
     (p + zlen l < PHYS_BASE → umem s !! (p + zlen l) = None → is_valid_string kbyte p s = Fault) ∧
     (PHYS_BASE <= p + zlen l →
        is_valid_string kbyte p s = Ok (if kbyte (p + zlen l) =? 0 then zlen l else -1, s))).
Proof.
  split; [|split; [apply is_bad_str_ok|split; [apply is_valid_string_ok|]]].
  2: { intros l Hl Hz. split; [by apply is_valid_string_fault|by apply is_valid_string_kernel]. }
  eexists. split; [apply is_bad_fp_ok|].
  rewrite bool_decide_eq_false.
  assert (¬ ¬ (uvalid s p ∧ uvalid s (p + 1) ∧ uvalid s (p + 2) ∧ uvalid s (p + 3)) ↔ ∃ v, uword s p v) as E.
  { split.
    - intros H%dec_stable. destruct H as (? & ? & ? & ?). by apply word_valid.
    - intros [v Hv%uword_valid] H. by apply H. }
  split; [exact E|]. intros [v Hv]%E. exists v. by apply rd_word_ok.
Qed.

(** A file name that runs up to the end of the mapped memory stops the
    kernel: create(), open(), remove(), chdir() and mkdir() read each byte of
    the name before they check its address, so that a name whose last mapped
    byte is not null makes the handler touch the unmapped byte after it,
    instead of failing the call. *)
Theorem unterminated_name_faults dev n k junk part kbyte esp s nr p l :
  nr ∈ name_calls → uword s esp nr → uword s (esp + 4) p → l ≠ [] → ubytes s p l →
  Forall (λ b, b ≠ 0) l → p + zlen l < PHYS_BASE → umem s !! (p + zlen l) = None →
  syscall_handler dev n k junk part kbyte esp s = Fault.
Proof.
  intros Hnr Ha Hp Hne Hl Hz Hb Hn. rewrite (handler_dispatch dev n k junk part kbyte esp s nr Ha).
  pose proof (uword_valid _ _ _ Ha) as (_ & V1 & V2 & _).
  assert (∀ o, o ∈ [1; 2] → uvalid s (esp + o)) as Ho.
  { intros o. rewrite !elem_of_cons, elem_of_nil. intros [->|[->|[]]]; done. }
  assert (∀ o, o ∈ [1] → uvalid s (esp + o)) as Ho1.
  { intros o ->%list_elem_of_singleton. done. }
  assert (∀ offs body, offs ∈ [[1; 2]; [1]] → with_name dev n kbyte esp offs body s = Fault) as Hf.
  { intros offs body Hoffs. apply (with_name_fault dev n kbyte esp s offs p l); try done.
    rewrite !elem_of_cons, elem_of_nil in Hoffs. destruct Hoffs as [->|[->|[]]]; done. }
  unfold calls. unfold name_calls in Hnr. rewrite !elem_of_cons, elem_of_nil in Hnr.
  destruct Hnr as [->|[->|[->|[->|[->|[]]]]]]; repeat (rewrite (dispatch_skip kbyte esp s _ _ _ _ Ha) by done);
    rewrite (dispatch_hit kbyte esp s _ _ _ Ha); unfold bind;
    [unfold sys_create|unfold sys_open|unfold sys_remove|unfold sys_chdir|unfold sys_mkdir];
    (rewrite Hf; [done|rewrite !elem_of_cons; tauto]).
Qed.

(** *** Descriptors *)

Lemma free_fd_spec cnt i fds :
  i <= free_fd cnt i fds <= i + Z.of_nat cnt ∧
  (∀ j, i <= j < free_fd cnt i fds → is_Some (fds !! j)) ∧
  (free_fd cnt i fds < i + Z.of_nat cnt → fds !! free_fd cnt i fds = None).
Proof.
  revert i. induction cnt as [|cnt IH]; intros i; cbn [free_fd]; [split_and!; lia|].
  case_bool_decide as Hi.
  - destruct (IH (i + 1)) as (H1 & H2 & H3). split_and!; [lia|lia| |intros H; apply H3; lia].
    intros j Hj. destruct (decide (j = i)) as [->|]; [done|]. apply H2. lia.
  - split_and!; [lia|lia|lia|]. intros _. by apply eq_None_not_Some.
Qed.

Lemma on_fs_ok {A} (m : M (fstate bstate) A) s a fs' :
  m (ufs s) = Ok (a, fs') → on_fs m s = Ok (a, set_ufs fs' s).
Proof. unfold on_fs, lift. by intros ->. Qed.

(** open() of a file or directory that exists gives the lowest free
    descriptor from 2 on, and changes no other; when all 126 are taken it
    returns -1 and leaves the table as it was, but the file it has opened
    stays open without a descriptor. *)
Theorem open_assigns_lowest_fd dev n k junk part kbyte esp s p name f fs' :
  uword s esp SYS_OPEN → uword s (esp + 4) p → ustring s p name → name ≠ [] →
  filesys_open_2 (SectorStore0 := cache_store dev) n k junk part (ucwd s) name (ufs s) = Ok (Some f, fs') →
  ∃ s', syscall_handler dev n k junk part kbyte esp s = Ok (Return, s') ∧ ufs s' = fs' ∧
    ((∃ d, 2 <= d < 128 ∧ ufds s !! d = None ∧ (∀ j, 2 <= j < d → is_Some (ufds s !! j)) ∧
        ueax s' = d ∧ ufds s' = <[d := f]> (ufds s)) ∨
     ((∀ j, 2 <= j < 128 → is_Some (ufds s !! j)) ∧ ueax s' = 4294967295 ∧ ufds s' = ufds s)).
Proof.
  intros Ha Hp Hs Hne Ho. rewrite (handler_dispatch dev n k junk part kbyte esp s _ Ha).
  unfold calls. do 6 (rewrite (dispatch_skip kbyte esp s _ _ _ _ Ha) by done).
  rewrite (dispatch_hit kbyte esp s _ _ _ Ha). unfold sys_open.
  pose proof (uword_valid _ _ _ Ha) as (_ & V1 & _).
  match goal with |- context [with_name dev n kbyte esp [1] ?b] => set (body := b) end.
  assert (with_name dev n kbyte esp [1] body s = body name s) as Ew.
  { apply (with_name_ok dev n kbyte esp s [1] p name body); [by intros o ->%list_elem_of_singleton|done|done]. }
  destruct (free_fd_spec 126 2 (ufds s)) as (F1 & F2 & F3). set (d := free_fd 126 2 (ufds s)) in *.
  assert ((zlen name =? 0) = false) as Hz.
  { apply Z.eqb_neq. destruct name; [done|]. unfold zlen. simpl. lia. }
  assert (body name s = if d =? 128 then result (-1) (set_ufs fs' s)
    else (modify (set_ufds <[d := f]>);;; go_on d) (set_ufs fs' s)) as Eb.
  { unfold body. cbv beta. rewrite Hz. run. rewrite (bind_ok _ _ _ _ _ (on_fs_ok _ _ _ _ Ho)). run.
    change (free_fd 126 2 (ufds (set_ufs fs' s))) with d. by destruct (d =? 128). }
  destruct (Z.eqb_spec d 128) as [E|E].
  - exists (set_eax (-1) (set_ufs fs' s)). split; [|split; [done|right; split_and!; [|done|done]]].
    + assert (with_name dev n kbyte esp [1] body s = Ok (Return, set_eax (-1) (set_ufs fs' s))) as Er
        by (by rewrite Ew, Eb). by rewrite (bind_ok _ _ _ _ _ Er).
    + intros j Hj. apply F2. lia.
  - set (s1 := set_eax d (set_ufds <[d := f]> (set_ufs fs' s))). exists s1.
    split; [|split; [done|left; exists d; split_and!; [lia|lia|apply F3; lia|done| |done]]].
    + assert (with_name dev n kbyte esp [1] body s = Ok (Next, s1)) as Er by (by rewrite Ew, Eb).
      rewrite (bind_ok _ _ _ _ _ Er). apply (dispatch_none kbyte esp s1 SYS_OPEN); [exact Ha|].
      intros nr call Hin. repeat (apply elem_of_cons in Hin as [[= -> ->]|Hin]; [done|]). by apply elem_of_nil in Hin.
    + subst s1. cbn [ueax set_eax]. apply u32_small. unfold in_u32. lia.
Qed.

(** ** Witnesses *)

(** A disk with the file "a", and a process with its arguments at 1000. *)
Definition session : M (fstate bstate) unit :=
  let SS := cache_store 0 in
  inode_init;;;
  free_map_init (SectorStore0 := SS) (replicate 4 0);;;
  do_format (SectorStore0 := SS) 3;;;
  free_map_open (SectorStore0 := SS) 3;;;
  let* ok := filesys_create (SectorStore0 := SS) 3 20 demo_junk [97] 0 in
  assert ok.

Definition session_fs : fstate bstate :=
  match session blank_fs with Ok (_, s) => s | _ => blank_fs end.

Definition demo_user (nr : Z) (name : list Z) : ustate :=
  mk_u session_fs (Wait.ps Wait.initial) 1
    (list_to_map (zip (seqZ 1000 8) (le_bytes 4 nr ++ le_bytes 4 2000)) ∪ list_to_map (zip (seqZ 2000 (zlen name)) name))
    ∅ None None [] [] false [] [] 0.

Lemma demo_word nr name p v :
  (bool_decide (p ≠ 0) && bool_decide (p + 3 < PHYS_BASE) && bool_decide (0 <= p))%bool = true →
  (∃ a b c d, umem (demo_user nr name) !! p = Some a ∧ umem (demo_user nr name) !! (p + 1) = Some b ∧
     umem (demo_user nr name) !! (p + 2) = Some c ∧ umem (demo_user nr name) !! (p + 3) = Some d ∧
     v = le_val [a; b; c; d]) →
  uword (demo_user nr name) p v.
Proof.
  intros H (a & b & c & d & Ha & Hb & Hc & Hd & Hv). apply andb_prop in H as [[H1 H2]%andb_prop H3].
  apply bool_decide_eq_true in H1, H2, H3. exists a, b, c, d. split; [|done].
  rewrite !ubytes_cons, <- !Z.add_assoc. cbn [Z.add Pos.add Pos.succ]. unfold uvalid.
  split_and!; try (done || lia); by eexists.
Qed.

Ltac demo_arg := apply demo_word; [reflexivity|eexists _, _, _, _; split_and!; reflexivity].

Lemma unterminated_name_faults_witness :
  syscall_handler 0 3 20 demo_junk stack_part (λ _, 0) 1000 (demo_user SYS_MKDIR [98; 99]) = Fault.
Proof.
  apply (unterminated_name_faults 0 3 20 demo_junk stack_part (λ _, 0) 1000 _ SYS_MKDIR 2000 [98; 99]).
  - unfold name_calls. rewrite !elem_of_cons. tauto.
  - demo_arg.
  - demo_arg.
  - discriminate.
  - rewrite !ubytes_cons. split_and!; [split_and!; [lia|reflexivity|by eexists]|reflexivity
      |split_and!; [lia|reflexivity|by eexists]|reflexivity|by intros []].
  - repeat constructor; discriminate.
  - reflexivity.
  - reflexivity.
Defined.

Lemma session_opens : ∃ f fs',
  filesys_open_2 (SectorStore0 := cache_store 0) 3 20 demo_junk stack_part None [47; 97] session_fs = Ok (Some f, fs').
Proof.
  assert (match filesys_open_2 (SectorStore0 := cache_store 0) 3 20 demo_junk stack_part None [47; 97] session_fs with
          | Ok (Some _, _) => true | _ => false end = true) as H by (vm_compute; reflexivity).
  destruct (filesys_open_2 _ _ _ _ _ _ session_fs) as [[[f|] fs']| | | |]; try discriminate. by exists f, fs'.
Qed.

Lemma open_assigns_lowest_fd_witness : ∃ s' f,
  syscall_handler 0 3 20 demo_junk stack_part (λ _, 0) 1000 (demo_user SYS_OPEN [47; 97; 0]) = Ok (Return, s') ∧
  ueax s' = 2 ∧ ufds s' = <[2 := f]> ∅.
Proof.
  destruct session_opens as (f & fs' & E).
  destruct (open_assigns_lowest_fd 0 3 20 demo_junk stack_part (λ _, 0) 1000 (demo_user SYS_OPEN [47; 97; 0]) 2000 [47; 97] f fs')
    as (s' & Hh & _ & [(d & Hd & _ & Hj & He & Hf)|[Hno _]]).
  - demo_arg.
  - demo_arg.
  - split; [|repeat constructor; discriminate]. cbn [app]. rewrite !ubytes_cons.
    split_and!; [split_and!; [lia|reflexivity|by eexists]|reflexivity
      |split_and!; [lia|reflexivity|by eexists]|reflexivity
      |split_and!; [lia|reflexivity|by eexists]|reflexivity|by intros []].
  - discriminate.
  - exact E.
  - exists s', f. split; [exact Hh|]. assert (d = 2) as ->.
    { destruct (decide (d = 2)); [done|]. destruct (Hj 2) as [? H]; [lia|discriminate]. }
    split; [exact He|exact Hf].
  - destruct (Hno 2) as [? H]; [lia|discriminate].
Defined.

End SyscallSpec.
