(* ===== verification/Stdio.v ===== *)
(** * Stdio: formatted output (lib/stdio.c)

    printf() and its relatives emit characters through a function pointer that
    has no influence on the formatting, so __vprintf() denotes the sequence of
    its calls of [output]: it runs on the list of characters emitted so far.
    vsnprintf() makes those calls on a buffer in memory.

    A format or a string argument is the list of the bytes from the pointer to
    the end of its object, the terminating null included; a read past that end
    is a [Fault].  A va_list is the list of the 32-bit words on the stack, some
    of which are pointers to strings; 64-bit arguments take two words. *)

From Stdlib Require Import ZArith Lia Ascii.
From stdpp Require Import base tactics option list numbers gmap strings.
From S2P Require Import Prelude Memory CString CStdlib.
Import Memory CString CStdlib.

Module Stdio.

(** Characters and string literals, with their null. *)
Definition chr (a : ascii) : Z := Z.of_N (N_of_ascii a).
Definition chars (s : string) : list Z := chr <$> String.list_ascii_of_string s.
Definition lit (s : string) : list Z := chars s ++ [0].

Definition s8 (z : Z) : Z := (z + 128) mod 256 - 128.
Definition s16 (z : Z) : Z := (z + 32768) mod 65536 - 32768.

(** ** Output *)

Abbreviation out := (list Z) (only parsing).

Definition output (ch : Z) : M out unit := modify (λ l, l ++ [ch]).

Fixpoint output_dup (ch : Z) (cnt : nat) : M out unit :=
  match cnt with
  | O => ret tt
  | S cnt => output ch;;; output_dup ch cnt
  end.

(** ** Conversions *)

Definition MINUS : Z := 1.
Definition PLUS : Z := 2.
Definition SPACE : Z := 4.
Definition POUND : Z := 8.
Definition ZERO : Z := 16.
Definition GROUP : Z := 32.

(** [c->flags & f]. *)
Definition has (flags f : Z) : bool := negb (Z.land flags f =? 0).

Inductive arg_type := CHAR | SHORT | INT | INTMAX | LONG | LONGLONG | PTRDIFFT | SIZET.

Record printf_conversion := mk_conv {
  flags : Z;
  width : Z;
  precision : Z;
  ctype : arg_type
}.

Record integer_base := mk_base { base : Z; digits : list Z; bx : Z; group : Z }.

Definition base_d := mk_base 10 (chars "0123456789") 0 3.
Definition base_o := mk_base 8 (chars "01234567") 0 3.
Definition base_x := mk_base 16 (chars "0123456789abcdef") (chr "x") 4.
Definition base_X := mk_base 16 (chars "0123456789ABCDEF") (chr "X") 4.

(** A word on the stack, or a pointer to a string. *)
Inductive arg := Word (w : Z) | Str (s : list Z).

Definition va_word (args : list arg) : M out (Z * list arg) :=
  match args with Word w :: args => ret (w, args) | _ => fault end.
Definition va_dword (args : list arg) : M out (Z * list arg) :=
  let* (lo, args) := va_word args in
  let* (hi, args) := va_word args in
  ret (u32 lo + 4294967296 * u32 hi, args).
Definition va_int (args : list arg) : M out (Z * list arg) :=
  let* (w, args) := va_word args in ret (s32 w, args).
Definition va_unsigned (args : list arg) : M out (Z * list arg) :=
  let* (w, args) := va_word args in ret (u32 w, args).

(** The null pointer is printed as a string of its own. *)
Definition va_string (args : list arg) : M out (list Z * list arg) :=
  match args with
  | Str s :: args => ret (s, args)
  | Word 0 :: args => ret (lit "(null)", args)
  | _ => fault
  end.

(** ** format_integer *)

(** [*cp++ = ch]: the buffer is the list of its characters, the latest first. *)
Definition BUF : Z := 64.
Definition put (ch : Z) (buf : list Z) : M out (list Z) :=
  if zlen buf <? BUF then ret (ch :: buf) else fault.

(** A 64-bit value has at most 64 digits. *)
Fixpoint digit_loop (n : nat) (b : integer_base) (flags value digit_cnt : Z) (buf : list Z) : M out (list Z) :=
  if value >? 0 then
    match n with
    | O => no_fuel
    | S n =>
        let* buf := (if has flags GROUP && (digit_cnt >? 0) && (Z.rem digit_cnt (group b) =? 0)
                     then put (chr ",") buf else ret buf) in
        let* d := deref (digits b !! Z.to_nat (value mod base b)) in
        let* buf := put d buf in
        digit_loop n b flags (value / base b) (digit_cnt + 1) buf
    end
  else ret buf.

(** [while (cp - buf < precision && cp < buf + sizeof buf - 1)]. *)
Fixpoint zero_loop (n : nat) (precision : Z) (buf : list Z) : M out (list Z) :=
  if (zlen buf <? precision) && (zlen buf <? BUF - 1) then
    match n with
    | O => no_fuel
    | S n => let* buf := put (chr "0") buf in zero_loop n precision buf
    end
  else ret buf.

Fixpoint output_buf (buf : list Z) : M out unit :=
  match buf with [] => ret tt | ch :: buf => output ch;;; output_buf buf end.

(** The sign character, or 0. *)
Definition sign_char (is_signed negative : bool) (flags : Z) : Z :=
  if is_signed then
    if has flags PLUS then if negative then chr "-" else chr "+"
    else if has flags SPACE then if negative then chr "-" else chr " "
    else if negative then chr "-" else 0
  else 0.

Definition format_integer (value : Z) (is_signed negative : bool) (b : integer_base) (c : printf_conversion) : M out unit :=
  let sign := sign_char is_signed negative (flags c) in
  let x := if has (flags c) POUND && negb (value =? 0) then bx b else 0 in
  let* buf := digit_loop 64 b (flags c) value 0 [] in
  let precision := if precision c <? 0 then 1 else precision c in
  let* buf := zero_loop 64 precision buf in
  let* buf := (if has (flags c) POUND && (base b =? 8) &&
                  match buf with [] => true | ch :: _ => negb (ch =? chr "0") end
               then put (chr "0") buf else ret buf) in
  let pad_cnt := s32 (width c - zlen buf - (if negb (x =? 0) then 2 else 0) - (if negb (sign =? 0) then 1 else 0)) in
  let pad_cnt := if pad_cnt <? 0 then 0 else pad_cnt in
  (if Z.land (flags c) (Z.lor MINUS ZERO) =? 0 then output_dup (chr " ") (Z.to_nat pad_cnt) else ret tt);;;
  (if negb (sign =? 0) then output sign else ret tt);;;
  (if negb (x =? 0) then output (chr "0");;; output x else ret tt);;;
  (if has (flags c) ZERO then output_dup (chr "0") (Z.to_nat pad_cnt) else ret tt);;;
  output_buf buf;;;
  (if has (flags c) MINUS then output_dup (chr " ") (Z.to_nat pad_cnt) else ret tt).

(** ** format_string *)

(** strnlen() of lib/string.c. *)
Fixpoint strnlen_from (string : list Z) (length maxlen : Z) : M out Z :=
  match string with
  | [] => fault
  | ch :: string =>
      if negb (ch =? 0) && (length <? maxlen) then strnlen_from string (length + 1) maxlen else ret length
  end.

Fixpoint output_chars (n : nat) (string : list Z) : M out unit :=
  match n with
  | O => ret tt
  | S n =>
      match string with
      | [] => fault
      | ch :: string => output ch;;; output_chars n string
      end
  end.

Definition format_string (string : list Z) (length : Z) (c : printf_conversion) : M out unit :=
  (if (width c >? length) && negb (has (flags c) MINUS) then output_dup (chr " ") (Z.to_nat (width c - length)) else ret tt);;;
  output_chars (Z.to_nat length) string;;;
  (if (width c >? length) && has (flags c) MINUS then output_dup (chr " ") (Z.to_nat (width c - length)) else ret tt).

(** ** parse_conversion *)

(** [*format]. *)
Definition peek (format : list Z) : M out Z := match format with [] => fault | ch :: _ => ret ch end.

Definition flag_of (ch : Z) : option Z :=
  if ch =? chr "-" then Some MINUS
  else if ch =? chr "+" then Some PLUS
  else if ch =? chr " " then Some SPACE
  else if ch =? chr "#" then Some POUND
  else if ch =? chr "0" then Some ZERO
  else if ch =? chr "'" then Some GROUP
  else None.

Fixpoint parse_flags (format : list Z) (flags : Z) : M out (Z * list Z) :=
  match format with
  | [] => fault
  | ch :: rest => match flag_of ch with Some f => parse_flags rest (Z.lor flags f) | None => ret (flags, format) end
  end.

(** [for (; isdigit ( *format); format++)]. *)
Fixpoint parse_number (format : list Z) (n : Z) : M out (Z * list Z) :=
  match format with
  | [] => fault
  | ch :: rest => if isdigit ch then parse_number rest (s32 (n * 10 + ch - 48)) else ret (n, format)
  end.

Definition parse_type (format : list Z) : M out (arg_type * list Z) :=
  let* ch := peek format in
  let rest := tail format in
  if ch =? chr "h" then
    let* ch := peek rest in
    if ch =? chr "h" then ret (CHAR, tail rest) else ret (SHORT, rest)
  else if ch =? chr "j" then ret (INTMAX, rest)
  else if ch =? chr "l" then
    let* ch := peek rest in
    if ch =? chr "l" then ret (LONGLONG, tail rest) else ret (LONG, rest)
  else if ch =? chr "t" then ret (PTRDIFFT, rest)
  else if ch =? chr "z" then ret (SIZET, rest)
  else ret (INT, format).

Definition clear (flags f : Z) : Z := Z.land flags (Z.lnot f).

Definition parse_conversion (format : list Z) (args : list arg) : M out (list Z * printf_conversion * list arg) :=
  let* (flags, format) := parse_flags format 0 in
  let flags := if has flags MINUS then clear flags ZERO else flags in
  let flags := if has flags PLUS then clear flags SPACE else flags in
  let* ch := peek format in
  let* (width, format, args) :=
    (if ch =? chr "*" then let* (w, args) := va_int args in ret (w, tail format, args)
     else let* (w, format) := parse_number format 0 in ret (w, format, args)) in
  let '(width, flags) := if width <? 0 then (s32 (- width), Z.lor flags MINUS) else (width, flags) in
  let* ch := peek format in
  let* (precision, format, args) :=
    (if ch =? chr "." then
       let format := tail format in
       let* ch := peek format in
       let* (p, format, args) :=
         (if ch =? chr "*" then let* (p, args) := va_int args in ret (p, tail format, args)
          else let* (p, format) := parse_number format 0 in ret (p, format, args)) in
       ret (if p <? 0 then -1 else p, format, args)
     else ret (-1, format, args)) in
  let flags := if precision >=? 0 then clear flags ZERO else flags in
  let* (type, format) := parse_type format in
  ret (format, mk_conv flags width precision type, args).

(** ** __vprintf *)

Definition signed_arg (t : arg_type) (args : list arg) : M out (Z * list arg) :=
  match t with
  | CHAR => let* (v, args) := va_int args in ret (s8 v, args)
  | SHORT => let* (v, args) := va_int args in ret (s16 v, args)
  | INT | LONG | PTRDIFFT => va_int args
  | INTMAX | LONGLONG => let* (v, args) := va_dword args in ret (s64 v, args)
  | SIZET =>
      let* (v, args) := va_unsigned args in
      ret (if v >? 4294967295 / 2 then v - 4294967295 - 1 else v, args)
  end.

Definition unsigned_arg (t : arg_type) (args : list arg) : M out (Z * list arg) :=
  match t with
  | CHAR => let* (v, args) := va_unsigned args in ret (u8 v, args)
  | SHORT => let* (v, args) := va_unsigned args in ret (u16 v, args)
  | INT | LONG | SIZET => va_unsigned args
  | INTMAX | LONGLONG => va_dword args
  | PTRDIFFT => let* (v, args) := va_int args in ret (Z.land (u64 v) (Z.lor (Z.shiftl 2147483647 1) 1), args)
  end.

Definition unsigned_base (ch : Z) : integer_base :=
  if ch =? chr "o" then base_o else if ch =? chr "u" then base_d else if ch =? chr "x" then base_x else base_X.

Section vprintf.
(** __printf() of one of the two messages, on the character it is given. *)
Context (bad : list Z → Z → M out unit).

(** One conversion, at the character that names it. *)
Definition do_conversion (ch : Z) (c : printf_conversion) (args : list arg) : M out (list arg) :=
  if (ch =? chr "d") || (ch =? chr "i") then
    let* (value, args) := signed_arg (ctype c) args in
    format_integer (u64 (if value <? 0 then - value else value)) true (value <? 0) base_d c;;;
    ret args
  else if (ch =? chr "o") || (ch =? chr "u") || (ch =? chr "x") || (ch =? chr "X") then
    let* (value, args) := unsigned_arg (ctype c) args in
    format_integer value false false (unsigned_base ch) c;;;
    ret args
  else if ch =? chr "c" then
    let* (v, args) := va_int args in
    format_string [u8 v] 1 c;;;
    ret args
  else if ch =? chr "s" then
    let* (s, args) := va_string args in
    let* len := strnlen_from s 0 (u32 (precision c)) in
    format_string s len c;;;
    ret args
  else if ch =? chr "p" then
    let* (p, args) := va_unsigned args in
    format_integer p false false base_x (mk_conv POUND (width c) (precision c) (ctype c));;;
    ret args
  else if (ch =? chr "f") || (ch =? chr "e") || (ch =? chr "E") || (ch =? chr "g") || (ch =? chr "G") || (ch =? chr "n") then
    bad (lit "<<no %%%c in kernel>>") ch;;;
    ret args
  else
    bad (lit "<<no %%%c conversion>>") ch;;;
    ret args.

(** Each round reads at least one byte of the format. *)
Fixpoint vprintf_loop (n : nat) (format : list Z) (args : list arg) : M out unit :=
  let* ch := peek format in
  if ch =? 0 then ret tt
  else
    match n with
    | O => no_fuel
    | S n =>
        if negb (ch =? chr "%") then output ch;;; vprintf_loop n (tail format) args
        else
          let format := tail format in
          let* ch := peek format in
          if ch =? chr "%" then output (chr "%");;; vprintf_loop n (tail format) args
          else
            let* (format, c, args) := parse_conversion format args in
            let* ch := peek format in
            let* args := do_conversion ch c args in
            vprintf_loop n (tail format) args
    end.
End vprintf.

(** The two messages have no conversion but %% and %c, so that the inner call
    does not recur. *)
Definition __vprintf (format : list Z) (args : list arg) : M out unit :=
  vprintf_loop (λ message ch, vprintf_loop (λ _ _, no_fuel) (length message) message [Word ch]) (length format) format args.

(** The function with a variable number of arguments: the same list. *)
Definition __printf (format : list Z) (args : list arg) : M out unit := __vprintf format args.

(** ** vsnprintf *)

Record vsnprintf_aux := mk_aux { p : Z; len : Z; max_length : Z }.
Abbreviation snstate := (mem * vsnprintf_aux)%type.

Definition vsnprintf_helper (ch : Z) : M snstate unit :=
  let* (_, aux) := get in
  modify (λ s, (fst s, mk_aux (p aux) (s32 (len aux + 1)) (max_length aux)));;;
  if len aux <? max_length aux then
    modify (λ s, (fst s, mk_aux (p aux + 1) (len (snd s)) (max_length aux)));;;
    lift fst (λ m s, (m, snd s)) (wr (p aux) ch)
  else ret tt.

(** The calls of [output] that [m] makes, made to [helper]. *)
Fixpoint each {S} (helper : Z → M S unit) (l : list Z) : M S unit :=
  match l with [] => ret tt | ch :: l => helper ch;;; each helper l end.
Definition calls {S} (helper : Z → M S unit) (m : M out unit) : M S unit := λ s,
  match m [] with
  | Ok (_, l) => each helper l s
  | Panic => Panic
  | Fault => Fault
  | Blocked _ _ | NoFuel => NoFuel
  end.

Definition vsnprintf (buffer buf_size : Z) (format : list Z) (args : list arg) : M mem Z :=
  let* m := get in
  match calls vsnprintf_helper (__vprintf format args) (m, mk_aux buffer 0 (if buf_size >? 0 then s32 (buf_size - 1) else 0)) with
  | Ok (_, (m, aux)) =>
      modify (λ _, m);;;
      (if buf_size >? 0 then wr (p aux) 0 else ret tt);;;
      ret (len aux)
  | Panic => panic
  | Fault => fault
  | Blocked _ _ | NoFuel => no_fuel
  end.

Definition snprintf (buffer buf_size : Z) (format : list Z) (args : list arg) : M mem Z :=
  vsnprintf buffer buf_size format args.

(** ** Dumps: characters to the console *)

Definition printf (format : string) (args : list arg) : M out unit := __printf (lit format) args.

Fixpoint for_range (n : nat) (i : Z) (f : Z → M out unit) : M out unit :=
  match n with O => ret tt | S n => f i;;; for_range n (i + 1) f end.
(** [for (i = from; i < to; i++)]. *)
Definition for_to (from to : Z) (f : Z → M out unit) : M out unit := for_range (Z.to_nat (to - from)) from f.

Definition isprint (c : Z) : bool := (32 <=? c) && (c <? 127).
Definition dword (z : Z) : list arg := [Word (u32 z); Word (u32 (z / 4294967296))].

Fixpoint hex_dump_loop (fuel : nat) (ofs : Z) (buf : list Z) (size : Z) (ascii : bool) : M out unit :=
  if size >? 0 then
    match fuel with
    | O => no_fuel
    | S fuel =>
        let per_line := 16 in
        let start := ofs mod per_line in
        let end_ := if u32 (per_line - start) >? size then u32 (start + size) else per_line in
        let n := u32 (end_ - start) in
        printf "%08jx  " (dword (ofs / per_line * per_line));;;
        for_to 0 start (λ _, printf "   " []);;;
        for_to start end_ (λ i,
          let* b := deref (buf !! Z.to_nat (i - start)) in
          printf "%02hhx%c" [Word b; Word (if i =? per_line / 2 - 1 then chr "-" else chr " ")]);;;
        (if ascii then
           for_to end_ per_line (λ _, printf "   " []);;;
           printf "|" [];;;
           for_to 0 start (λ _, printf " " []);;;
           for_to start end_ (λ i,
             let* b := deref (buf !! Z.to_nat (i - start)) in
             printf "%c" [Word (if isprint b then b else chr ".")]);;;
           for_to end_ per_line (λ _, printf " " []);;;
           printf "|" []
         else ret tt);;;
        __printf [10; 0] [];;;
        hex_dump_loop fuel (u32 (ofs + n)) (drop (Z.to_nat n) buf) (u32 (size - n)) ascii
    end
  else ret tt.

(** Every line takes a byte at least. *)
Definition hex_dump (ofs : Z) (buf : list Z) (size : Z) (ascii : bool) : M out unit :=
  hex_dump_loop (Z.to_nat size) ofs buf size ascii.

Definition factors : list string := ["bytes"; "kB"; "MB"; "GB"; "TB"].

(** [for (fp = factors; size >= 1024 && fp[1] != NULL; fp++)]. *)
Fixpoint scale (size : Z) (f : string) (fp : list string) : Z * string :=
  match fp with
  | g :: fp => if size >=? 1024 then scale (size / 1024) g fp else (size, f)
  | [] => (size, f)
  end.

Definition print_human_readable_size (size : Z) : M out unit :=
  if size =? 1 then printf "1 byte" []
  else
    let '(size, f) := scale size "bytes" (tail factors) in
    printf "%llu %s" (dword size ++ [Str (lit f)]).

(** ** What the loops emit *)

Lemma bind_output {B} ch (k : unit → M out B) l : bind (output ch) k l = k tt (l ++ [ch]).
Proof. done. Qed.

Lemma output_dup_ok ch n l : output_dup ch n l = Ok (tt, l ++ replicate n ch).
Proof.
  revert l. induction n as [|n IH]; intros l; cbn [output_dup replicate]; [by rewrite app_nil_r|].
  by rewrite bind_output, IH, <- app_assoc.
Qed.

Lemma output_buf_ok buf l : output_buf buf l = Ok (tt, l ++ buf).
Proof.
  revert l. induction buf as [|ch buf IH]; intros l; cbn [output_buf]; [by rewrite app_nil_r|].
  by rewrite bind_output, IH, <- app_assoc.
Qed.

Lemma output_chars_ok s r l : output_chars (length s) (s ++ r) l = Ok (tt, l ++ s).
Proof.
  revert l. induction s as [|ch s IH]; intros l; cbn [output_chars length app]; [by rewrite app_nil_r|].
  by rewrite bind_output, IH, <- app_assoc.
Qed.

Lemma zero_loop_ok n prec buf l : zlen buf <= 63 → 63 - zlen buf <= Z.of_nat n →
  zero_loop n prec buf l = Ok (replicate (Z.to_nat (Z.min prec 63 - zlen buf)) (chr "0") ++ buf, l).
Proof.
  revert buf. induction n as [|n IH]; intros buf Hb Hn; cbn [zero_loop]; unfold BUF;
    destruct (Z.ltb_spec (zlen buf) prec), (Z.ltb_spec (zlen buf) (64 - 1)); cbn [andb]; try lia;
    try (replace (Z.to_nat (Z.min prec 63 - zlen buf)) with O by lia; done).
  unfold put, BUF. rewrite (proj2 (Z.ltb_lt _ _)), bind_ret, IH by (unfold zlen in *; cbn [length]; lia).
  do 2 f_equal. replace (Z.to_nat (Z.min prec 63 - zlen buf)) with (S (Z.to_nat (Z.min prec 63 - zlen (chr "0" :: buf))))
    by (unfold zlen in *; cbn [length]; lia).
  rewrite replicate_S_end, <- app_assoc. done.
Qed.

(** *** Digits *)

(** The digits of [v], the least significant first. *)
Fixpoint low_digits (n : nat) (b v : Z) : list Z :=
  match n with
  | O => []
  | S n => if v >? 0 then v mod b :: low_digits n b (v / b) else []
  end.

Fixpoint radix_val (b : Z) (l : list Z) : Z :=
  match l with [] => 0 | d :: l => d + b * radix_val b l end.

Lemma low_digits_val n b v : 1 < b → 0 <= v < b ^ Z.of_nat n → radix_val b (low_digits n b v) = v.
Proof.
  intros Hb. revert v. induction n as [|n IH]; intros v Hv; cbn [low_digits].
  { change (b ^ Z.of_nat 0) with 1 in Hv. cbn. lia. }
  destruct (v >? 0) eqn:E; [|cbn; lia]. cbn [radix_val]. rewrite IH.
  - pose proof (Z.div_mod v b ltac:(lia)). lia.
  - rewrite Nat2Z.inj_succ, Z.pow_succ_r in Hv by lia. split; [apply Z.div_pos; lia|apply Z.div_lt_upper_bound; lia].
Qed.

Lemma low_digits_range n b v : 1 < b → Forall (λ d, 0 <= d < b) (low_digits n b v).
Proof.
  intros Hb. revert v. induction n as [|n IH]; intros v; cbn [low_digits]; [done|]. case_match; [|done].
  constructor; [apply Z.mod_pos_bound; lia|apply IH].
Qed.

Lemma low_digits_last n b v : 1 < b → 0 <= v < b ^ Z.of_nat n → last (low_digits n b v) ≠ Some 0.
Proof.
  intros Hb. revert v. induction n as [|n IH]; intros v Hv; cbn [low_digits]; [done|].
  destruct (v >? 0) eqn:E; [|done]. rewrite Nat2Z.inj_succ, Z.pow_succ_r in Hv by lia.
  assert (0 <= v / b < b ^ Z.of_nat n) as Hq by (split; [apply Z.div_pos; lia|apply Z.div_lt_upper_bound; lia]).
  specialize (IH _ Hq). destruct (low_digits n b (v / b)) as [|d l] eqn:El.
  - cbn. intros [= Hm]. pose proof (low_digits_val n b (v / b) Hb Hq) as Hz. rewrite El in Hz. cbn in Hz.
    pose proof (Z.div_mod v b ltac:(lia)). lia.
  - done.
Qed.

Lemma low_digits_length n b v : (length (low_digits n b v) <= n)%nat.
Proof. revert v. induction n as [|n IH]; intros v; cbn [low_digits]; [done|]. case_match; cbn; [specialize (IH (v / b)); lia|lia]. Qed.

(** The characters of the digits, with commas, in the order they are found. *)
Fixpoint marks (b : integer_base) (flags k : Z) (ds : list Z) : list Z :=
  match ds with
  | [] => []
  | d :: ds =>
      (if has flags GROUP && (k >? 0) && (Z.rem k (group b) =? 0) then [chr ","] else []) ++
      default 0 (digits b !! Z.to_nat d) :: marks b flags (k + 1) ds
  end.

Definition good_base (b : integer_base) : Prop := 8 <= base b ∧ zlen (digits b) = base b.
Lemma good_bases : good_base base_d ∧ good_base base_o ∧ good_base base_x ∧ good_base base_X.
Proof. unfold good_base. cbn [base base_d base_o base_x base_X]. repeat split; lia || (vm_compute; reflexivity). Qed.

Lemma digit_loop_ok fuel n b fl v k buf l : good_base b → 0 <= v < base b ^ Z.of_nat n → (n <= fuel)%nat →
  zlen buf + 2 * Z.of_nat n <= 64 →
  digit_loop fuel b fl v k buf l = Ok (rev (marks b fl k (low_digits n (base b) v)) ++ buf, l).
Proof.
  intros [Hb Hd]. revert fuel v k buf. induction n as [|n IH]; intros fuel v k buf Hv Hf Hl; cbn [low_digits].
  { change (base b ^ Z.of_nat 0) with 1 in Hv. assert (v = 0) as -> by lia. by destruct fuel. }
  destruct fuel as [|fuel]; [lia|]. cbn [digit_loop]. destruct (v >? 0) eqn:E; [|done].
  cbn [marks]. set (cm := if _ : bool then [chr ","] else []).
  rewrite Nat2Z.inj_succ, Z.pow_succ_r in Hv by lia.
  assert (∀ {B} (kk : list Z → M out B), bind (if has fl GROUP && (k >? 0) && (Z.rem k (group b) =? 0)
    then put (chr ",") buf else ret buf) kk l = kk (cm ++ buf) l ∧ zlen (cm ++ buf) <= zlen buf + 1) as Hcm.
  { intros B kk. unfold cm. case_match; [unfold put, BUF; rewrite (proj2 (Z.ltb_lt _ _)) by lia|]; (split; [done|]); unfold zlen; cbn; lia. }
  rewrite (proj1 (Hcm _ _)). pose proof (Z.mod_pos_bound v (base b) ltac:(lia)) as Hm.
  destruct (lookup_lt_is_Some_2 (digits b) (Z.to_nat (v mod base b))) as [d Ed]; [unfold zlen in Hd; lia|].
  rewrite (bind_deref _ d) by done. rewrite Ed. cbn [default].
  pose proof (proj2 (Hcm _ (λ _ : list Z, ret tt))) as Hz.
  unfold put at 1, BUF. rewrite (proj2 (Z.ltb_lt (zlen (cm ++ buf)) 64)), bind_ret by lia.
  rewrite IH; [|split; [apply Z.div_pos; lia|apply Z.div_lt_upper_bound; lia]|lia|unfold zlen in *; cbn [length]; lia].
  do 2 f_equal. rewrite rev_app_distr. cbn [rev]. rewrite <- !app_assoc. cbn [app]. do 2 f_equal. unfold cm. by case_match.
Qed.

(** *** What format_integer() leaves *)

(** [ds] are the digits of [v] in base [b], the most significant first, and the
    first is not 0. *)
Definition positional (b v : Z) (ds : list Z) : Prop :=
  radix_val b (rev ds) = v ∧ Forall (λ d, 0 <= d < b) ds ∧ head ds ≠ Some 0.

(** The buffer: the digits' characters with their commas; zeros up to the
    precision, counting the commas, while there is room for 63 characters; and
    a zero in front of an octal number.  (Where this is what the C standard
    asks for is in [StdioSpec].) *)
Definition grouped (b : integer_base) (flags : Z) (ds : list Z) : list Z := rev (marks b flags 0 (rev ds)).
Definition with_zeros (precision : Z) (t : list Z) : list Z :=
  replicate (Z.to_nat (Z.min precision 63 - zlen t)) (chr "0") ++ t.
Definition alternative (b : integer_base) (flags : Z) (t : list Z) : list Z :=
  if has flags POUND && (base b =? 8) && negb (bool_decide (head t = Some (chr "0"))) then chr "0" :: t else t.
Definition int_body (b : integer_base) (c : printf_conversion) (ds : list Z) : list Z :=
  alternative b (flags c) (with_zeros (if precision c <? 0 then 1 else precision c) (grouped b (flags c) ds)).

(** The sign and 0x. *)
Definition int_lead (value : Z) (is_signed negative : bool) (b : integer_base) (c : printf_conversion) : list Z :=
  let sign := sign_char is_signed negative (flags c) in
  (if negb (sign =? 0) then [sign] else []) ++
  (if has (flags c) POUND && negb (value =? 0) && negb (bx b =? 0) then [chr "0"; bx b] else []).

(** A field of the width at least: blanks on the left, zeros after the sign, or
    blanks on the right. *)
Definition field (c : printf_conversion) (lead body : list Z) : list Z :=
  let pad := Z.to_nat (width c - zlen lead - zlen body) in
  if has (flags c) MINUS then lead ++ body ++ replicate pad (chr " ")
  else if has (flags c) ZERO then lead ++ replicate pad (chr "0") ++ body
  else replicate pad (chr " ") ++ lead ++ body.

Lemma marks_length b fl k ds : (length (marks b fl k ds) <= 2 * length ds)%nat.
Proof.
  revert k. induction ds as [|d ds IH]; intros k; cbn [marks]; [done|]. rewrite length_app. specialize (IH (k + 1)).
  case_match; cbn [length]; lia.
Qed.

Lemma u64_digits b v : good_base b → in_u64 v → 0 <= v < base b ^ Z.of_nat 22.
Proof.
  intros [Hb _] Hv. unfold in_u64 in Hv. split; [lia|].
  pose proof (Z.pow_le_mono_l 8 (base b) (Z.of_nat 22) ltac:(lia)) as Hp. change (8 ^ Z.of_nat 22) with 73786976294838206464 in Hp. lia.
Qed.

Lemma emit_if {B} (t : bool) (m : M out unit) e l (k : unit → M out B) : (t = true → m l = Ok (tt, l ++ e)) →
  bind (if t then m else ret tt) k l = k tt (l ++ if t then e else []).
Proof. destruct t; intros Hm; [by rewrite (bind_ok _ _ _ _ _ (Hm eq_refl))|by rewrite bind_ret, app_nil_r]. Qed.

(** The buffer once the digits, the zeros and the octal zero are in. *)
Lemma int_body_ok {B} b c value l (k : list Z → M out B) : good_base b → in_u64 value →
  let body := int_body b c (rev (low_digits 22 (base b) value)) in
  bind (digit_loop 64 b (flags c) value 0 []) (λ buf,
    bind (zero_loop 64 (if precision c <? 0 then 1 else precision c) buf) (λ buf,
      bind (if has (flags c) POUND && (base b =? 8) && match buf with [] => true | ch :: _ => negb (ch =? chr "0") end
            then put (chr "0") buf else ret buf) k)) l = k body l ∧ zlen body <= 64.
Proof.
  intros Hb Hv body. pose proof (u64_digits b value Hb Hv) as Hv'.
  rewrite (bind_ok _ _ _ _ _ (digit_loop_ok 64 22 b (flags c) value 0 [] l Hb Hv' ltac:(lia) ltac:(unfold zlen; cbn; lia))).
  subst body. unfold int_body, grouped. rewrite app_nil_r, rev_involutive. set (t := rev (marks _ _ _ _)).
  pose proof (marks_length b (flags c) 0 (low_digits 22 (base b) value)) as Hl. pose proof (low_digits_length 22 (base b) value) as Hl'.
  assert (zlen t <= 44) as Ht by (unfold t, zlen; rewrite length_rev; lia). pose proof (zlen_nonneg t) as Ht0.
  generalize (if precision c <? 0 then 1 else precision c). intros pr.
  rewrite (bind_ok _ _ _ _ _ (zero_loop_ok 64 pr t l ltac:(lia) ltac:(lia))). fold (with_zeros pr t). set (t1 := with_zeros pr t).
  assert (zlen t1 <= 63) as Ht1 by (unfold t1, with_zeros; rewrite zlen_app; unfold zlen in *; rewrite length_replicate; lia).
  unfold alternative, put, BUF. rewrite (proj2 (Z.ltb_lt (zlen t1) 64)) by lia.
  replace (negb (bool_decide (head t1 = Some (chr "0")))) with (match t1 with [] => true | ch :: _ => negb (ch =? chr "0") end).
  - split; [by case_match|]. case_match; unfold zlen in *; cbn [length]; lia.
  - destruct t1 as [|ch t2]; [done|]. cbn [head]. case_bool_decide as Hd; [injection Hd as ->; by rewrite Z.eqb_refl|].
    rewrite (proj2 (Z.eqb_neq ch _)); [done|]. by intros ->.
Qed.

Lemma no_padding_flags fl : (Z.land fl (Z.lor MINUS ZERO) =? 0) = negb (has fl MINUS) && negb (has fl ZERO).
Proof.
  unfold has. rewrite !negb_involutive, Z.land_lor_distr_r. apply eq_true_iff_eq.
  rewrite andb_true_iff, !Z.eqb_eq, Z.lor_eq_0_iff. done.
Qed.

Lemma format_integer_ok value sg neg b c l : good_base b → in_u64 value → 0 <= width c < 2147483648 →
  has (flags c) MINUS && has (flags c) ZERO = false →
  format_integer value sg neg b c l = Ok (tt, l ++ field c (int_lead value sg neg b c) (int_body b c (rev (low_digits 22 (base b) value)))).
Proof.
  intros Hb Hv Hw Hf. unfold format_integer. cbv zeta.
  match goal with |- bind _ (λ _, bind _ (λ _, bind _ ?k)) _ = _ => destruct (int_body_ok b c value l k Hb Hv) as [-> Ht] end.
  set (t := int_body _ _ _) in *. pose proof (zlen_nonneg t) as Ht0. rewrite no_padding_flags.
  unfold field, int_lead. set (sign := sign_char sg neg (flags c)). set (x := if has (flags c) POUND && negb (value =? 0) then bx b else 0).
  replace (if has (flags c) POUND && negb (value =? 0) && negb (bx b =? 0) then [chr "0"; bx b] else [])
    with (if negb (x =? 0) then [chr "0"; x] else []) by (unfold x; by destruct (has (flags c) POUND && negb (value =? 0))).
  set (lead := (if negb (sign =? 0) then [sign] else []) ++ _).
  assert (width c - zlen t - (if negb (x =? 0) then 2 else 0) - (if negb (sign =? 0) then 1 else 0) = width c - zlen lead - zlen t) as ->
    by (unfold lead; rewrite zlen_app; unfold zlen; destruct (negb (sign =? 0)), (negb (x =? 0)); cbn [length]; lia).
  assert (zlen lead <= 3) as Hl3 by (unfold lead; rewrite zlen_app; unfold zlen; destruct (negb (sign =? 0)), (negb (x =? 0)); cbn [length]; lia).
  pose proof (zlen_nonneg lead) as Hl0. rewrite s32_small by (unfold in_s32; lia).
  set (pad := Z.to_nat (if _ <? 0 then 0 else _)).
  replace (Z.to_nat (width c - zlen lead - zlen t)) with pad by (unfold pad; bool_case; lia).
  rewrite (emit_if _ _ (replicate pad (chr " "))) by (intros _; apply output_dup_ok).
  rewrite (emit_if _ _ [sign]) by done.
  rewrite (emit_if _ _ [chr "0"; x]) by (intros _; rewrite bind_output; unfold output, modify; by rewrite <- app_assoc).
  rewrite (emit_if _ _ (replicate pad (chr "0"))) by (intros _; apply output_dup_ok).
  rewrite (bind_ok _ _ _ _ _ (output_buf_ok t _)). unfold lead.
  destruct (has (flags c) MINUS), (has (flags c) ZERO); try done; cbn [negb andb]; rewrite ?output_dup_ok; unfold ret;
    by rewrite ?app_nil_r, <- ?app_assoc.
Qed.

End Stdio.
