(* ===== verification/StdioSpec.v ===== *)
(** * StdioSpec: what printf() prints

    A format is a sequence of items: characters, %%, and conversions with their
    flags, width, precision and length modifier, written in the format or given
    by [ * ] arguments.  The theorem on printf() says that the call emits the text
    of each item in turn; the text of an integer conversion is the one of the C
    standard ([std_flags], [std_body], and [field], [int_lead] in [Stdio]).  On it rest the
    theorem on snprintf() and the round trip through atoi(). *)

From Stdlib Require Import ZArith Lia Ascii.
From stdpp Require Import base tactics option list numbers gmap strings.
From S2P Require Import Prelude Memory CString CStdlib Stdio.
Import Memory CString CStdlib Stdio.

Module StdioSpec.

(** ** Items of a format *)

(** A width or a precision: none, digits, or [ * ] and its argument. *)
Inductive number := Absent | Digits (n : Z) | Star (n : Z).
#[global] Instance number_eq_dec : EqDecision number.
Proof. solve_decision. Defined.

Record spec := mk_spec {
  sp_flags : list Z;
  sp_width : number;
  sp_precision : number;
  sp_type : arg_type
}.

Definition to_digits (b v : Z) : list Z := rev (low_digits 22 b v).
Definition decimal (n : Z) : list Z := Z.add 48 <$> to_digits 10 n.

Definition number_text (n : number) : list Z :=
  match n with Absent => [] | Digits n => decimal n | Star _ => [chr "*"] end.
Definition precision_text (n : number) : list Z :=
  match n with Absent => [] | _ => chr "." :: number_text n end.
Definition type_text (t : arg_type) : list Z :=
  match t with
  | CHAR => chars "hh" | SHORT => chars "h" | INT => [] | INTMAX => chars "j"
  | LONG => chars "l" | LONGLONG => chars "ll" | PTRDIFFT => chars "t" | SIZET => chars "z"
  end.
Definition spec_text (s : spec) : list Z :=
  sp_flags s ++ number_text (sp_width s) ++ precision_text (sp_precision s) ++ type_text (sp_type s).

Definition number_args (n : number) : list arg := match n with Star n => [Word n] | _ => [] end.
Definition spec_args (s : spec) : list arg := number_args (sp_width s) ++ number_args (sp_precision s).

(** The conversion it denotes. *)
Definition width_value (n : number) : Z := match n with Absent => 0 | Digits n => n | Star n => Z.abs n end.
Definition precision_value (n : number) : Z :=
  match n with Absent => -1 | Digits n => n | Star n => if n <? 0 then -1 else n end.
Definition flag_bits (cs : list Z) (fl : Z) : Z := fold_left (λ fl ch, Z.lor fl (default 0 (flag_of ch))) cs fl.
(** A negative width given by an argument is the flag - and its absolute value;
    the flag 0 is ignored next to - or a precision, a blank next to +. *)
Definition negative_width (n : number) : bool := match n with Star n => n <? 0 | _ => false end.
Definition std_flags (fl : Z) (left precise : bool) : Z :=
  let fl := if left then Z.lor fl MINUS else fl in
  let fl := if has fl MINUS || precise then clear fl ZERO else fl in
  if has fl PLUS then clear fl SPACE else fl.
Definition flags_value (s : spec) : Z :=
  std_flags (flag_bits (sp_flags s) 0) (negative_width (sp_width s)) (precision_value (sp_precision s) >=? 0).
Definition conversion (s : spec) : printf_conversion :=
  mk_conv (flags_value s) (width_value (sp_width s)) (precision_value (sp_precision s)) (sp_type s).

Definition number_ok (n : number) : Prop :=
  match n with Absent => True | Digits n => 0 <= n < 2147483648 | Star n => -2147483648 < n < 2147483648 end.

(** A negative width given by an argument does not go with the flag 0, unless
    there is a flag - or a precision (see [printf_zero_left_star]). *)
Definition spec_ok (s : spec) : Prop :=
  Forall (λ ch, is_Some (flag_of ch)) (sp_flags s) ∧ number_ok (sp_width s) ∧ number_ok (sp_precision s) ∧
  (negative_width (sp_width s) = true → has (flag_bits (sp_flags s) 0) ZERO = true →
     has (flag_bits (sp_flags s) 0) MINUS = true ∨ 0 <= precision_value (sp_precision s)).

(** The precision of an integer is at most 63 and does not go with the flag
    for grouping (see [printf_long_precision] and [printf_grouped_precision]). *)
Definition int_spec_ok (s : spec) : Prop :=
  spec_ok s ∧ precision_value (sp_precision s) <= 63 ∧
  (has (flag_bits (sp_flags s) 0) GROUP = true → precision_value (sp_precision s) < 0).

Inductive item :=
| Plain (ch : Z)
| Percent
| Signed (s : spec) (ch : Z) (v : Z)
| Unsigned (s : spec) (ch : Z) (v : Z)
| Letter (s : spec) (v : Z)
| Text (s : spec) (t : option (list Z))
| Pointer (s : spec) (v : Z).

Definition item_text (i : item) : list Z :=
  match i with
  | Plain ch => [ch]
  | Percent => chars "%%"
  | Signed s ch _ | Unsigned s ch _ => chr "%" :: spec_text s ++ [ch]
  | Letter s _ => chr "%" :: spec_text s ++ [chr "c"]
  | Text s _ => chr "%" :: spec_text s ++ [chr "s"]
  | Pointer s _ => chr "%" :: spec_text s ++ [chr "p"]
  end.

(** The words that pass an integer of type [t]. *)
Definition words_of (t : arg_type) (v : Z) : list arg :=
  match t with INTMAX | LONGLONG => dword (u64 v) | _ => [Word (u32 v)] end.

Definition item_args (i : item) : list arg :=
  match i with
  | Plain _ | Percent => []
  | Signed s _ v | Unsigned s _ v => spec_args s ++ words_of (sp_type s) v
  | Letter s v | Pointer s v => spec_args s ++ [Word v]
  | Text s (Some t) => spec_args s ++ [Str (t ++ [0])]
  | Text s None => spec_args s ++ [Word 0]
  end.

Definition in_signed (t : arg_type) (v : Z) : Prop :=
  match t with
  | CHAR => -128 <= v < 128
  | SHORT => -32768 <= v < 32768
  | INTMAX | LONGLONG => in_s64 v
  | _ => in_s32 v
  end.
Definition in_unsigned (t : arg_type) (v : Z) : Prop :=
  match t with
  | CHAR => in_u8 v
  | SHORT => 0 <= v < 65536
  | INTMAX | LONGLONG => in_u64 v
  | _ => in_u32 v
  end.

(** A pointer has no flag - (see [printf_left_pointer]).  A string has less than
    2^31 characters, and no null among them. *)
Definition is_text (t : list Z) : Prop := (0 ∉ t) ∧ zlen t < 2147483648.

Definition item_ok (i : item) : Prop :=
  match i with
  | Plain ch => ch ≠ 0 ∧ ch ≠ chr "%"
  | Percent => True
  | Signed s ch v => int_spec_ok s ∧ (ch = chr "d" ∨ ch = chr "i") ∧ in_signed (sp_type s) v
  | Unsigned s ch v => int_spec_ok s ∧ ch ∈ chars "ouxX" ∧ in_unsigned (sp_type s) v
  | Letter s _ => spec_ok s
  | Text s t => spec_ok s ∧ is_text (default [] t)
  | Pointer s v => int_spec_ok s ∧ has (flags_value s) MINUS = false ∧ in_u32 v
  end.

(** A string, cut to the precision, in a field. *)
Definition text_field (c : printf_conversion) (t : list Z) : list Z :=
  let t := if precision c <? 0 then t else take (Z.to_nat (precision c)) t in
  let pad := replicate (Z.to_nat (width c - zlen t)) (chr " ") in
  if has (flags c) MINUS then t ++ pad else pad ++ t.

(** An integer with the digits [ds]: zeros in front until there are as many
    digits as the precision asks for, 1 without a precision, and the commas; a
    zero in front of an octal number with the flag #. *)
Definition std_body (b : integer_base) (c : printf_conversion) (ds : list Z) : list Z :=
  let precision := if precision c <? 0 then 1 else precision c in
  alternative b (flags c) (replicate (Z.to_nat (precision - zlen ds)) (chr "0") ++ grouped b (flags c) ds).

Definition int_field (c : printf_conversion) (b : integer_base) (signed : bool) (v : Z) : list Z :=
  field c (int_lead (Z.abs v) signed (v <? 0) b c) (std_body b c (to_digits (base b) (Z.abs v))).

Definition item_out (i : item) : list Z :=
  match i with
  | Plain ch => [ch]
  | Percent => chars "%"
  | Signed s _ v => int_field (conversion s) base_d true v
  | Unsigned s ch v => int_field (conversion s) (unsigned_base ch) false v
  | Letter s v => text_field (mk_conv (flags_value s) (width_value (sp_width s)) (-1) INT) [u8 v]
  | Text s t => text_field (conversion s) (default (chars "(null)") t)
  | Pointer s v => int_field (mk_conv (Z.lor POUND (Z.land (flags_value s) MINUS)) (width_value (sp_width s)) (precision_value (sp_precision s)) (sp_type s)) base_x false v
  end.

(** ** Where the code follows the standard *)

Lemma marks_ungrouped b fl k ds : has fl GROUP = false → length (marks b fl k ds) = length ds.
Proof. intros Hg. revert k. induction ds as [|d ds IH]; intros k; cbn [marks]; [done|]. rewrite Hg. cbn [andb app length]. by rewrite IH. Qed.

Lemma marks_longer b fl k ds : (length ds <= length (marks b fl k ds))%nat.
Proof.
  revert k. induction ds as [|d ds IH]; intros k; cbn [marks]; [done|]. rewrite length_app. specialize (IH (k + 1)). cbn [length]. lia.
Qed.

(** The buffer holds what the standard asks for, for a precision of at most 63
    and none with grouping. *)
Lemma std_body_ok b c ds : precision c <= 63 → (has (flags c) GROUP = true → precision c < 0) →
  int_body b c ds = std_body b c ds.
Proof.
  intros Hp Hg. unfold int_body, std_body, with_zeros. cbv zeta. do 3 f_equal.
  assert (zlen (grouped b (flags c) ds) = Z.of_nat (length (marks b (flags c) 0 (rev ds)))) as El
    by (unfold zlen, grouped; by rewrite length_rev).
  rewrite El. unfold zlen. destruct (has (flags c) GROUP) eqn:G.
  - specialize (Hg eq_refl). rewrite (proj2 (Z.ltb_lt _ _) Hg).
    pose proof (marks_longer b (flags c) 0 (rev ds)) as H1. pose proof (marks_length b (flags c) 0 (rev ds)) as H2.
    rewrite length_rev in *. lia.
  - rewrite marks_ungrouped, length_rev by done. destruct (Z.ltb_spec (precision c) 0); lia.
Qed.

(** The flags as parse_conversion() computes them. *)
Definition code_flags (fl : Z) (left precise : bool) : Z :=
  let fl := if has fl MINUS then clear fl ZERO else fl in
  let fl := if has fl PLUS then clear fl SPACE else fl in
  let fl := if left then Z.lor fl MINUS else fl in
  if precise then clear fl ZERO else fl.

Definition flags_check (fl : Z) (left precise : bool) : bool :=
  let r := std_flags fl left precise in
  (negb (implb (left && has fl ZERO) (has fl MINUS || precise)) || (code_flags fl left precise =? r)) &&
  negb (has r MINUS && has r ZERO) && eqb (has r GROUP) (has fl GROUP).

Lemma flags_table fl left precise : 0 <= fl < 64 → flags_check fl left precise = true.
Proof.
  intros Hfl. assert (fl ∈ seqZ 0 64) as Hin by (apply elem_of_seqZ; lia). clear Hfl. revert fl Hin.
  apply (Forall_forall (λ fl, flags_check fl left precise = true)).
  destruct left, precise; apply (bool_decide_eq_true_1 _); vm_compute; reflexivity.
Qed.

Lemma flag_bits_range cs fl : 0 <= fl < 64 → Forall (λ ch, is_Some (flag_of ch)) cs → 0 <= flag_bits cs fl < 64.
Proof.
  unfold flag_bits. intros Hfl Hcs. revert fl Hfl. induction Hcs as [|ch cs [f Hf] _ IH]; intros fl Hfl; cbn [fold_left]; [done|].
  apply IH. rewrite Hf. cbn [default]. assert (0 <= f < 64) as Hr.
  { unfold flag_of, MINUS, PLUS, SPACE, POUND, ZERO, GROUP in Hf. repeat case_match; simplify_eq; lia. }
  assert (Forall (λ a, Forall (λ b, 0 <= Z.lor a b < 64) (seqZ 0 64)) (seqZ 0 64)) as H64
    by (apply (bool_decide_eq_true_1 _); vm_compute; reflexivity).
  assert (fl ∈ seqZ 0 64 ∧ f ∈ seqZ 0 64) as [H1 H2] by (rewrite !elem_of_seqZ; lia).
  rewrite Forall_forall in H64. specialize (H64 fl H1). cbv beta in H64. rewrite Forall_forall in H64. by apply (H64 f H2).
Qed.

Lemma flags_agree s : spec_ok s →
  code_flags (flag_bits (sp_flags s) 0) (negative_width (sp_width s)) (precision_value (sp_precision s) >=? 0) = flags_value s ∧
  has (flags_value s) MINUS && has (flags_value s) ZERO = false ∧
  has (flags_value s) GROUP = has (flag_bits (sp_flags s) 0) GROUP.
Proof.
  intros (Hf & _ & _ & Hz). unfold flags_value. set (fl := flag_bits _ 0) in *.
  pose proof (flags_table fl (negative_width (sp_width s)) (precision_value (sp_precision s) >=? 0)
    (flag_bits_range _ 0 ltac:(lia) Hf)) as Ht. unfold flags_check in Ht.
  rewrite !andb_true_iff, orb_true_iff, !negb_true_iff, eqb_true_iff, Z.eqb_eq in Ht. destruct Ht as [[[Hi|Hi] Hm] Hg]; [|done].
  exfalso. destruct (negative_width (sp_width s)), (has fl ZERO); try discriminate Hi.
  destruct (Hz eq_refl eq_refl) as [E|E]; [rewrite E in Hi; discriminate Hi|].
  rewrite Z.geb_leb, (proj2 (Z.leb_le _ _) E), orb_true_r in Hi. discriminate Hi.
Qed.

(** ** Parsing a conversion *)

Lemma to_digits_positional b v : 8 <= b → in_u64 v → positional b v (to_digits b v).
Proof.
  intros Hb Hv. assert (0 <= v < b ^ Z.of_nat 22) as Hv'.
  { unfold in_u64 in Hv. split; [lia|]. pose proof (Z.pow_le_mono_l 8 b (Z.of_nat 22) ltac:(lia)) as Hp.
    change (8 ^ Z.of_nat 22) with 73786976294838206464 in Hp. lia. }
  unfold positional, to_digits. rewrite rev_involutive. split; [by apply low_digits_val; [lia|]|]. split.
  - apply Forall_rev, low_digits_range. lia.
  - rewrite rev_alt. fold (reverse (low_digits 22 b v)). rewrite head_reverse. apply low_digits_last; [lia|done].
Qed.

Lemma horner b l : fold_left (λ a d, a * b + d) (rev l) 0 = radix_val b l.
Proof.
  induction l as [|d l IH]; [done|]. cbn [rev radix_val]. rewrite fold_left_app, IH. cbn. lia.
Qed.

Lemma horner_ge ds a : Forall (λ d, 0 <= d < 10) ds → 0 <= a → a <= fold_left (λ a d, a * 10 + d) ds a.
Proof.
  revert a. induction ds as [|d ds IH]; intros a Hd Ha; cbn [fold_left]; [lia|]. apply Forall_cons in Hd as [Hd Hds].
  etransitivity; [|apply IH; [done|lia]]. lia.
Qed.

Lemma parse_digits_run ds a ch r l : Forall (λ d, 0 <= d < 10) ds → isdigit ch = false → 0 <= a →
  fold_left (λ a d, a * 10 + d) ds a < 2147483648 →
  parse_number ((Z.add 48 <$> ds) ++ ch :: r) a l = Ok ((fold_left (λ a d, a * 10 + d) ds a, ch :: r), l).
Proof.
  revert a. induction ds as [|d ds IH]; intros a Hd Hch Ha Hb; cbn [fmap list_fmap app parse_number fold_left].
  { by rewrite Hch. }
  apply Forall_cons in Hd as [Hd Hds]. pose proof (horner_ge ds (a * 10 + d) Hds ltac:(lia)) as Hg. cbn [fold_left] in Hb.
  assert (isdigit (48 + d) = true) as -> by (unfold isdigit; apply andb_true_iff; lia).
  rewrite s32_small by (unfold in_s32; lia). replace (a * 10 + (48 + d) - 48) with (a * 10 + d) by lia. by apply IH; [done|done|lia|].
Qed.

Lemma parse_decimal n ch r l : 0 <= n < 2147483648 → isdigit ch = false →
  parse_number (decimal n ++ ch :: r) 0 l = Ok ((n, ch :: r), l).
Proof.
  intros Hn Hch. destruct (to_digits_positional 10 n ltac:(lia) ltac:(unfold in_u64; lia)) as (Hv & Hd & _).
  assert (fold_left (λ a d, a * 10 + d) (to_digits 10 n) 0 = n) as E by (rewrite <- Hv at 2; by rewrite <- horner, rev_involutive).
  unfold decimal. rewrite parse_digits_run; [by rewrite E|done|done|lia|lia].
Qed.

Lemma parse_flags_ok cs fl ch r l : Forall (λ ch, is_Some (flag_of ch)) cs → flag_of ch = None →
  parse_flags (cs ++ ch :: r) fl l = Ok ((flag_bits cs fl, ch :: r), l).
Proof.
  intros Hcs Hch. revert fl. induction cs as [|c cs IH]; intros fl; cbn [app parse_flags]; [by rewrite Hch|].
  apply Forall_cons in Hcs as [[f Hf] Hcs]. rewrite Hf, (IH Hcs). unfold flag_bits. cbn [fold_left]. by rewrite Hf.
Qed.

(** A character that ends flags and numbers. *)
Definition stops (ch : Z) : Prop := flag_of ch = None ∧ isdigit ch = false ∧ ch ≠ chr "*" ∧ ch ≠ chr "%".

Definition conv_chars : list Z := chars "diouxXcsp".

Lemma rest_stops n t ch r : ch ∈ conv_chars → ∃ h r', precision_text n ++ type_text t ++ ch :: r = h :: r' ∧ stops h.
Proof.
  intros Hch. assert (stops ch) as Hs by (revert ch Hch; apply Forall_forall; by repeat constructor).
  destruct n; [|by do 2 eexists..]. destruct t; by do 2 eexists.
Qed.

Lemma type_stops t ch r : ch ∈ conv_chars → ∃ h r', type_text t ++ ch :: r = h :: r' ∧ stops h ∧ h ≠ chr ".".
Proof.
  intros Hch. assert (stops ch ∧ ch ≠ chr ".") as Hs by (revert ch Hch; apply Forall_forall; by repeat constructor).
  destruct t; by do 2 eexists.
Qed.

Lemma parse_type_ok t ch r l : ch ∈ conv_chars → parse_type (type_text t ++ ch :: r) l = Ok ((t, ch :: r), l).
Proof.
  intros Hch. revert ch Hch. apply (Forall_forall (λ ch, parse_type (type_text t ++ ch :: r) l = Ok ((t, ch :: r), l))).
  destruct t; by repeat constructor.
Qed.

(** The first character of a number. *)
Lemma decimal_head n h r : 0 <= n < 2147483648 → stops h → ∃ h' r', decimal n ++ h :: r = h' :: r' ∧ flag_of h' = None ∧ h' ≠ chr "*" ∧ h' ≠ chr "%".
Proof.
  intros Hn (H1 & H2 & H3 & H4). destruct (to_digits_positional 10 n ltac:(lia) ltac:(unfold in_u64; lia)) as (_ & Hd & Hh).
  unfold decimal. destruct (to_digits 10 n) as [|d ds]; [by exists h, r|]. cbn [fmap list_fmap app]. do 2 eexists. split; [done|].
  apply Forall_cons in Hd as [Hd _]. assert (d ≠ 0) as Hd0 by (intros ->; by apply Hh).
  assert (d ∈ seqZ 1 9) as Hin by (apply elem_of_seqZ; lia).
  clear Hd Hh Hd0. revert d Hin. apply (Forall_forall (λ d, flag_of (48 + d) = None ∧ 48 + d ≠ chr "*" ∧ 48 + d ≠ chr "%")). by repeat constructor.
Qed.

(** [let* ch := peek format in k ch]. *)
Lemma bind_peek {B} h r (k : Z → M out B) l : bind (peek (h :: r)) k l = k h l.
Proof. done. Qed.

(** A width or precision, up to a character that stops it. *)
Definition parse_num (format : list Z) (args : list arg) : M out (Z * list Z * list arg) :=
  let* ch := peek format in
  if ch =? chr "*" then let* (w, args) := va_int args in ret (w, tail format, args)
  else let* (w, format) := parse_number format 0 in ret (w, format, args).
Definition number_value (n : number) : Z := match n with Absent => 0 | Digits n | Star n => n end.

Lemma parse_num_ok n h r args l : number_ok n → stops h →
  parse_num (number_text n ++ h :: r) (number_args n ++ args) l = Ok ((number_value n, h :: r, args), l).
Proof.
  intros Hn Hs. assert (∀ n, 0 <= n < 2147483648 → parse_num (decimal n ++ h :: r) args l = Ok ((n, h :: r, args), l)) as Hdec.
  { clear n Hn. intros n Hn. destruct (decimal_head n h r Hn Hs) as (h' & r' & E & Hf & Hst & _). unfold parse_num. rewrite E, bind_peek.
    rewrite (proj2 (Z.eqb_neq _ _) Hst), <- E. by rewrite (bind_ok _ _ _ _ _ (parse_decimal n h r l Hn ltac:(apply Hs))). }
  destruct n as [|n|n]; [by apply (Hdec 0)|by apply Hdec|]. cbn [number_ok] in Hn.
  cbn [number_text number_args number_value app]. unfold parse_num, va_int, va_word. rewrite bind_peek, Z.eqb_refl, bind_assoc, !bind_ret.
  by rewrite s32_small by (unfold in_s32; lia).
Qed.

Lemma number_flag n h r : number_ok n → stops h → ∃ h' r', number_text n ++ h :: r = h' :: r' ∧ flag_of h' = None ∧ h' ≠ chr "%".
Proof.
  intros Hn Hs. destruct n as [|n|n]; [by exists h, r; destruct Hs as (? & _ & _ & ?)| |by do 2 eexists].
  destruct (decimal_head n h r Hn Hs) as (h' & r' & E & Hf & _ & Hpc). by exists h', r'.
Qed.

(** The precision, from its point on. *)
Lemma parse_precision_ok {B} n h r args l (k : Z * list Z * list arg → M out B) : number_ok n → stops h → h ≠ chr "." →
  bind (peek (precision_text n ++ h :: r)) (λ ch, bind (if ch =? chr "." then
       let format := tail (precision_text n ++ h :: r) in
       let* ch := peek format in
       let* (p, format, args) :=
         (if ch =? chr "*" then let* (p, args) := va_int (number_args n ++ args) in ret (p, tail format, args)
          else let* (p, format) := parse_number format 0 in ret (p, format, number_args n ++ args)) in
       ret (if p <? 0 then -1 else p, format, args)
     else ret (-1, precision_text n ++ h :: r, number_args n ++ args)) k) l = k (precision_value n, h :: r, args) l.
Proof.
  intros Hn Hs Hdot. destruct (decide (n = Absent)) as [->|Hne].
  { cbn [precision_text app]. rewrite bind_peek, (proj2 (Z.eqb_neq _ _) Hdot). done. }
  assert (precision_text n = chr "." :: number_text n) as -> by (by destruct n).
  cbn [app tail]. rewrite bind_peek, Z.eqb_refl. cbv zeta. pose proof (parse_num_ok n h r args l Hn Hs) as Hp.
  unfold parse_num in Hp. rewrite bind_assoc.
  match type of Hp with bind ?a ?f l = _ =>
    transitivity (bind (bind a f) (λ x : Z * list Z * list arg, bind (let '(p, fm, ar) := x in ret (if p <? 0 then -1 else p, fm, ar)) k) l) end.
  { rewrite (bind_assoc (peek _)). apply bind_ext. intros ch s'. rewrite bind_assoc. apply bind_ext. by intros [[? ?] ?]. }
  rewrite (bind_ok _ _ _ _ _ Hp). rewrite bind_ret. destruct n as [|n|n]; [done| |done]. cbn in Hn |- *.
  by rewrite (proj2 (Z.ltb_ge n 0)) by lia.
Qed.

Lemma parse_conversion_ok s ch r args l : spec_ok s → ch ∈ conv_chars →
  parse_conversion (spec_text s ++ ch :: r) (spec_args s ++ args) l = Ok ((ch :: r, conversion s, args), l).
Proof.
  intros Hok Hch. pose proof Hok as (Hf & Hw & Hp & _). unfold spec_text, spec_args, parse_conversion. rewrite <- !app_assoc.
  destruct (rest_stops (sp_precision s) (sp_type s) ch r Hch) as (h & r1 & E & Hs). rewrite E.
  destruct (number_flag (sp_width s) h r1 Hw Hs) as (h2 & r2 & E2 & Hf2 & _). rewrite E2.
  rewrite (bind_ok _ _ _ _ _ (parse_flags_ok _ 0 h2 r2 l Hf Hf2)). rewrite <- E2.
  pose proof (parse_num_ok (sp_width s) h r1 (number_args (sp_precision s) ++ args) l Hw Hs) as Hn. unfold parse_num in Hn.
  match type of Hn with bind ?a ?f l = _ => 
    match goal with |- bind _ (λ ch, bind _ ?k) _ = _ => transitivity (bind (bind a f) k l); [by rewrite (bind_assoc a)|] end end.
  rewrite (bind_ok _ _ _ _ _ Hn). clear Hn E2 Hf2.
  set (fl1 := if has (flag_bits _ _) MINUS then _ else _). set (fl2 := if has fl1 PLUS then _ else fl1).
  assert ((if number_value (sp_width s) <? 0 then (s32 (- number_value (sp_width s)), Z.lor fl2 MINUS) else (number_value (sp_width s), fl2)) =
    (width_value (sp_width s), if negative_width (sp_width s) then Z.lor fl2 MINUS else fl2)) as ->.
  { destruct (sp_width s) as [|n|n]; cbn [number_value width_value negative_width number_ok] in *; [done| |].
    - by rewrite (proj2 (Z.ltb_ge n 0)) by lia.
    - destruct (Z.ltb_spec n 0); [|by rewrite Z.abs_eq by lia]. rewrite s32_small by (unfold in_s32; lia). by rewrite Z.abs_neq by lia. }
  destruct (type_stops (sp_type s) ch r Hch) as (h3 & r3 & E3 & Hs3 & Hdot). rewrite <- E, E3.
  rewrite (parse_precision_ok (sp_precision s) h3 r3 args l) by done. rewrite <- E3.
  rewrite (bind_ok _ _ _ _ _ (parse_type_ok (sp_type s) ch r l Hch)).
  unfold conversion. by rewrite <- (proj1 (flags_agree s Hok)).
Qed.

(** ** Doing a conversion *)

Lemma dword_value v : u32 (u32 v) + 4294967296 * u32 (u32 (v / 4294967296)) = u64 v.
Proof. unfold u32, u64. dlia. Qed.

Lemma va_dword_ok v args l : va_dword (dword v ++ args) l = Ok ((u64 v, args), l).
Proof. unfold va_dword, dword, va_word. cbn [app]. rewrite !bind_ret. by rewrite dword_value. Qed.

Lemma signed_arg_ok t v args l : in_signed t v → signed_arg t (words_of t v ++ args) l = Ok ((v, args), l).
Proof.
  intros Hv. destruct t; cbn [signed_arg words_of in_signed] in *;
    try (rewrite (bind_ok _ _ _ _ _ (va_dword_ok _ _ _)); unfold ret, s64, u64, in_s64 in *; repeat f_equal; dlia);
    cbn [app]; unfold va_int, va_unsigned, va_word; rewrite ?bind_assoc, !bind_ret; unfold ret, in_s32, s8, s16, s32, u32 in *;
    try (repeat f_equal; dlia).
  do 3 f_equal. rewrite Z.gtb_ltb. change (4294967295 / 2) with 2147483647. bool_case; dlia.
Qed.

Lemma unsigned_arg_ok t v args l : in_unsigned t v → unsigned_arg t (words_of t v ++ args) l = Ok ((v, args), l).
Proof.
  intros Hv. destruct t; cbn [unsigned_arg words_of in_unsigned] in *;
    try (rewrite va_dword_ok; unfold u64, in_u64 in *; repeat f_equal; dlia);
    cbn [app]; unfold va_int, va_unsigned, va_word; rewrite ?bind_assoc, !bind_ret; unfold ret, in_u32, in_u8 in *;
    try (unfold u8, u16, u32; repeat f_equal; dlia).
  do 3 f_equal. change (Z.lor (Z.shiftl 2147483647 1) 1) with (Z.ones 32). rewrite Z.land_ones by lia. unfold u64, s32, u32.
  change (2 ^ 32) with 4294967296. dlia.
Qed.

Lemma strnlen_from_ok t r k maxlen l : 0 ∉ t → k <= maxlen →
  strnlen_from (t ++ 0 :: r) k maxlen l = Ok (Z.min (k + zlen t) maxlen, l).
Proof.
  revert k. induction t as [|ch t IH]; intros k H0 Hk; cbn [app strnlen_from].
  { cbn [negb andb Z.eqb]. unfold ret, zlen. cbn [length]. do 2 f_equal. lia. }
  apply not_elem_of_cons in H0 as [Hc H0]. rewrite (proj2 (Z.eqb_neq ch 0)) by done. cbn [negb andb].
  assert (zlen (ch :: t) = zlen t + 1) as -> by (unfold zlen; cbn [length]; lia).
  pose proof (zlen_nonneg t). destruct (Z.ltb_spec k maxlen); [rewrite IH by (done || lia)|unfold ret]; do 2 f_equal; lia.
Qed.

Lemma format_string_ok t r c l :
  format_string (t ++ r) (zlen t) c l = Ok (tt, l ++
    let pad := replicate (Z.to_nat (width c - zlen t)) (chr " ") in if has (flags c) MINUS then t ++ pad else pad ++ t).
Proof.
  unfold format_string. rewrite (emit_if _ _ (replicate (Z.to_nat (width c - zlen t)) (chr " "))) by (intros _; apply output_dup_ok).
  rewrite length_zlen, (bind_ok _ _ _ _ _ (output_chars_ok t r _)). cbv zeta. rewrite Z.gtb_ltb.
  destruct (Z.ltb_spec (zlen t) (width c)) as [Hw|Hw]; cbn [andb].
  - destruct (has (flags c) MINUS); cbn [negb]; rewrite ?output_dup_ok; unfold ret; by rewrite ?app_nil_r, <- !app_assoc.
  - replace (Z.to_nat (width c - zlen t)) with O by lia. unfold ret. cbn [replicate app]. rewrite !app_nil_r. by destruct (has _ MINUS).
Qed.

Lemma abs_u64 t v : in_signed t v → u64 (if v <? 0 then - v else v) = Z.abs v ∧ in_u64 (Z.abs v).
Proof. intros Hv. unfold u64, in_u64. destruct t; unfold in_signed, in_s64, in_s32 in Hv; bool_case; dlia. Qed.

Lemma spec_width s : spec_ok s → 0 <= width_value (sp_width s) < 2147483648.
Proof. intros (_ & Hw & _). destruct (sp_width s); cbn in *; lia. Qed.

Section convert.
Context (bad : list Z → Z → M out unit).
#[local] Abbreviation convert := (do_conversion bad).

Lemma int_spec_body s b ds : int_spec_ok s → int_body b (conversion s) ds = std_body b (conversion s) ds.
Proof.
  intros (Hs & Hp & Hg). apply std_body_ok; [done|]. cbn [flags conversion precision].
  by rewrite (proj2 (proj2 (flags_agree s Hs))).
Qed.

Lemma convert_signed s ch v args l : int_spec_ok s → ch = chr "d" ∨ ch = chr "i" → in_signed (sp_type s) v →
  convert ch (conversion s) (words_of (sp_type s) v ++ args) l = Ok (args, l ++ int_field (conversion s) base_d true v).
Proof.
  intros Hi Hch Hv. pose proof (proj1 Hi) as Hs. unfold do_conversion. assert ((ch =? chr "d") || (ch =? chr "i") = true) as -> by (by destruct Hch as [-> | ->]).
  cbn [ctype conversion]. rewrite (bind_ok _ _ _ _ _ (signed_arg_ok _ _ _ _ Hv)). destruct (abs_u64 _ _ Hv) as [-> Hu].
  rewrite (bind_ok _ _ _ _ _ (format_integer_ok _ true (v <? 0) base_d (conversion s) l ltac:(apply good_bases) Hu (spec_width s Hs) (proj1 (proj2 (flags_agree s Hs))))).
  by rewrite int_spec_body.
Qed.

Lemma convert_unsigned s ch v args l : int_spec_ok s → ch ∈ chars "ouxX" → in_unsigned (sp_type s) v →
  convert ch (conversion s) (words_of (sp_type s) v ++ args) l = Ok (args, l ++ int_field (conversion s) (unsigned_base ch) false v).
Proof.
  intros Hi Hch Hv. pose proof (proj1 Hi) as Hs. unfold do_conversion.
  assert ((ch =? chr "d") || (ch =? chr "i") = false ∧ (ch =? chr "o") || (ch =? chr "u") || (ch =? chr "x") || (ch =? chr "X") = true ∧
    good_base (unsigned_base ch)) as (-> & -> & Hb).
  { revert ch Hch. apply Forall_forall. destruct good_bases as (? & ? & ? & ?). by repeat constructor. }
  assert (in_u64 v) as Hu by (destruct (sp_type s); unfold in_unsigned, in_u8, in_u32, in_u64 in *; lia).
  cbn [ctype conversion]. rewrite (bind_ok _ _ _ _ _ (unsigned_arg_ok _ _ _ _ Hv)).
  rewrite (bind_ok _ _ _ _ _ (format_integer_ok v false false _ (conversion s) l Hb Hu (spec_width s Hs) (proj1 (proj2 (flags_agree s Hs))))).
  unfold int_field. rewrite int_spec_body, Z.abs_eq by (done || apply Hu). by rewrite (proj2 (Z.ltb_ge v 0)) by apply Hu.
Qed.

Lemma convert_pointer s v args l : int_spec_ok s → in_u32 v →
  convert (chr "p") (conversion s) (Word v :: args) l =
  Ok (args, l ++ int_field (mk_conv POUND (width_value (sp_width s)) (precision_value (sp_precision s)) (sp_type s)) base_x false v).
Proof.
  intros Hi Hv. pose proof (proj1 Hi) as Hs. assert (in_u64 v) as Hu by (unfold in_u32, in_u64 in *; lia).
  change (convert (chr "p") (conversion s) (Word v :: args)) with (let* (p, args) := va_unsigned (Word v :: args) in
    format_integer p false false base_x (mk_conv POUND (width_value (sp_width s)) (precision_value (sp_precision s)) (sp_type s));;; ret args).
  unfold va_unsigned, va_word. rewrite bind_assoc, !bind_ret, u32_small by done.
  rewrite (bind_ok _ _ _ _ _ (format_integer_ok v false false base_x (mk_conv POUND _ _ _) l ltac:(apply good_bases) Hu (spec_width s Hs) eq_refl)).
  unfold int_field. rewrite std_body_ok by (done || apply Hi). rewrite Z.abs_eq by apply Hu. by rewrite (proj2 (Z.ltb_ge v 0)) by apply Hu.
Qed.

Lemma convert_letter s v args l : convert (chr "c") (conversion s) (Word v :: args) l =
  Ok (args, l ++ text_field (mk_conv (flags_value s) (width_value (sp_width s)) (-1) INT) [u8 v]).
Proof.
  change (convert (chr "c") (conversion s) (Word v :: args)) with
    (let* (v, args) := va_int (Word v :: args) in format_string ([u8 v] ++ []) (zlen [u8 v]) (conversion s);;; ret args).
  unfold va_int, va_word. rewrite bind_assoc, !bind_ret.
  replace (u8 (s32 v)) with (u8 v) by (unfold u8, s32; dlia).
  by rewrite (bind_ok _ _ _ _ _ (format_string_ok [u8 v] [] (conversion s) l)).
Qed.

Lemma convert_text s t (args : list arg) l : spec_ok s → is_text t →
  (let* len := strnlen_from (t ++ [0]) 0 (u32 (precision (conversion s))) in format_string (t ++ [0]) len (conversion s);;; ret args) l =
  Ok (args, l ++ text_field (conversion s) t).
Proof.
  intros (_ & _ & Hp & _) [H0 Hl]. cbn [precision conversion]. pose proof (zlen_nonneg t) as Hz. unfold text_field.
  set (c := conversion s). change (precision c) with (precision_value (sp_precision s)). set (pr := precision_value (sp_precision s)).
  assert (-1 <= pr < 2147483648) as Hpr by (unfold pr; destruct (sp_precision s); cbn [precision_value number_ok] in *; [lia|lia|bool_case; lia]).
  set (t' := if pr <? 0 then t else take (Z.to_nat pr) t).
  assert (∃ r, t ++ [0] = t' ++ r) as [r Er].
  { unfold t'. case_match; [by eexists|]. exists (drop (Z.to_nat pr) t ++ [0]). by rewrite app_assoc, take_drop. }
  assert (Z.min (0 + zlen t) (u32 pr) = zlen t') as El.
  { unfold t'. destruct (Z.ltb_spec pr 0); [assert (pr = -1) as -> by lia; change (u32 (-1)) with 4294967295; lia|].
    rewrite u32_small by (unfold in_u32; lia). unfold zlen in *. rewrite length_take. lia. }
  rewrite (bind_ok _ _ _ _ _ (strnlen_from_ok t [] 0 (u32 pr) l H0 ltac:(apply u32_range))), El, Er.
  by rewrite (bind_ok _ _ _ _ _ (format_string_ok t' r c l)).
Qed.

Lemma spec_head s ch r : spec_ok s → ch ∈ conv_chars → ∃ h r', spec_text s ++ ch :: r = h :: r' ∧ h ≠ chr "%".
Proof.
  intros (Hf & Hw & _) Hch. unfold spec_text. rewrite <- !app_assoc.
  destruct (rest_stops (sp_precision s) (sp_type s) ch r Hch) as (h & r1 & -> & Hst).
  destruct (sp_flags s) as [|f fl].
  - destruct (number_flag (sp_width s) h r1 Hw Hst) as (h' & r' & -> & _ & Hpc). by exists h', r'.
  - apply Forall_cons in Hf as [[b Hb] _]. do 2 eexists. split; [done|]. by intros ->.
Qed.

(** A conversion, with the arguments it takes. *)
Lemma convert_step n s ch a o r args l : spec_ok s → ch ∈ conv_chars →
  convert ch (conversion s) (a ++ args) l = Ok (args, l ++ o) →
  vprintf_loop bad (S n) ((chr "%" :: spec_text s ++ [ch]) ++ r) ((spec_args s ++ a) ++ args) l = vprintf_loop bad n r args (l ++ o).
Proof.
  intros Hs Hch Hc. cbn [vprintf_loop app]. rewrite bind_peek. cbn [tail].
  replace (chr "%" =? 0) with false by done. rewrite Z.eqb_refl. cbn [negb]. rewrite <- !app_assoc. cbn [app].
  destruct (spec_head s ch r Hs Hch) as (h & r' & E & Hh). rewrite E, bind_peek, (proj2 (Z.eqb_neq _ _) Hh), <- E.
  rewrite (bind_ok _ _ _ _ _ (parse_conversion_ok s ch r (a ++ args) l Hs Hch)), bind_peek. by rewrite (bind_ok _ _ _ _ _ Hc).
Qed.

(** One item. *)
Lemma item_step n i r args l : item_ok i →
  vprintf_loop bad (S n) (item_text i ++ r) (item_args i ++ args) l = vprintf_loop bad n r args (l ++ item_out i).
Proof.
  destruct i as [ch| |s ch v|s ch v|s v|s t|s v]; cbn [item_text item_args item_out item_ok].
  - intros [H0 Hp]. cbn [vprintf_loop app]. rewrite bind_peek, (proj2 (Z.eqb_neq _ _) H0), (proj2 (Z.eqb_neq _ _) Hp). done.
  - done.
  - intros (Hs & Hch & Hv). apply convert_step; [apply Hs| |by apply convert_signed].
    destruct Hch as [-> | ->]; apply list_elem_of_In; cbn; tauto.
  - intros (Hs & Hch & Hv). apply convert_step; [apply Hs| |by apply convert_unsigned].
    revert ch Hch. apply Forall_forall. repeat constructor; apply list_elem_of_In; cbn; tauto.
  - intros Hs. apply convert_step; [done| |apply convert_letter]. apply list_elem_of_In; cbn; tauto.
  - intros [Hs Ht]. destruct t as [t|]; (apply convert_step; [done|apply list_elem_of_In; cbn; tauto|]).
    + exact (convert_text s t args l Hs Ht).
    + apply (convert_text s (chars "(null)") args l Hs). split; [|done]. by apply (bool_decide_eq_true_1 _).
  - intros (Hs & Hm & Hv). apply negb_false_iff, Z.eqb_eq in Hm. rewrite Hm. apply convert_step; [apply Hs| |by apply convert_pointer].
    apply list_elem_of_In; cbn; tauto.
Qed.

Lemma items_run its n l : Forall item_ok its → (length its <= n)%nat →
  vprintf_loop bad n (concat (item_text <$> its) ++ [0]) (concat (item_args <$> its)) l = Ok (tt, l ++ concat (item_out <$> its)).
Proof.
  intros Hok. revert n l. induction its as [|i its IH]; intros n l Hn; cbn [fmap list_fmap concat].
  - rewrite app_nil_r. by destruct n.
  - apply Forall_cons in Hok as [Hi Hits]. destruct n as [|n]; [cbn in Hn; lia|]. rewrite <- app_assoc, item_step by done.
    rewrite (IH Hits) by (cbn in Hn; lia). by rewrite <- app_assoc.
Qed.
End convert.

Lemma items_length its : (length its <= length (concat (item_text <$> its)))%nat.
Proof.
  induction its as [|i its IH]; [done|]. cbn [fmap list_fmap concat length]. rewrite length_app.
  assert (0 < length (item_text i))%nat by (destruct i; cbn; lia). lia.
Qed.

Lemma printf_ok its l : Forall item_ok its →
  __vprintf (concat (item_text <$> its) ++ [0]) (concat (item_args <$> its)) l = Ok (tt, l ++ concat (item_out <$> its)).
Proof.
  intros Hok. apply items_run; [done|]. rewrite length_app. pose proof (items_length its). lia.
Qed.

(** ** snprintf *)

Lemma helper_step ch m q n mx : 0 <= n < 2147483647 → (n < mx → is_Some (m !! q)) →
  vsnprintf_helper ch (m, mk_aux q n mx) =
  Ok (tt, if n <? mx then (<[q := u8 ch]> m, mk_aux (q + 1) (n + 1) mx) else (m, mk_aux q (n + 1) mx)).
Proof.
  intros Hn Hq. unfold vsnprintf_helper. rewrite bind_get, bind_modify. cbn [fst snd p len max_length].
  rewrite s32_small by (unfold in_s32; lia). destruct (Z.ltb_spec n mx); [|done].
  rewrite bind_modify. unfold lift. cbn [fst snd len]. by rewrite wr_ok' by auto.
Qed.

Lemma take_snoc {A} n (l : list A) x : (length l < n)%nat → take n (l ++ [x]) = take n l ++ [x].
Proof. intros Hl. rewrite !take_ge; [done|lia|rewrite length_app; cbn; lia]. Qed.

(** Each call of the helper counts; the first [mx] are stored. *)
Lemma helper_run buf mx o done_ m : 0 <= mx → zlen done_ + zlen o < 2147483648 →
  mapped m buf (Z.min mx (zlen done_ + zlen o)) →
  each vsnprintf_helper o (store m buf (u8 <$> take (Z.to_nat mx) done_), mk_aux (buf + Z.min mx (zlen done_)) (zlen done_) mx) =
  Ok (tt, (store m buf (u8 <$> take (Z.to_nat mx) (done_ ++ o)), mk_aux (buf + Z.min mx (zlen (done_ ++ o))) (zlen (done_ ++ o)) mx)).
Proof.
  intros Hmx. revert done_. induction o as [|ch o IH]; intros done_ Hlen Hm; cbn [each]; [by rewrite app_nil_r|].
  assert (zlen (ch :: o) = zlen o + 1) as Ez by (unfold zlen; cbn [length]; lia).
  pose proof (zlen_nonneg o). pose proof (zlen_nonneg done_) as H0. rewrite Ez in *.
  assert (zlen (done_ ++ [ch]) = zlen done_ + 1) as Ez' by (by rewrite zlen_app).
  replace (done_ ++ ch :: o) with ((done_ ++ [ch]) ++ o) by (by rewrite <- app_assoc).
  rewrite <- (IH (done_ ++ [ch])); [|lia|rewrite Ez'; by replace (zlen done_ + 1 + zlen o) with (zlen done_ + (zlen o + 1)) by lia].
  assert (zlen (u8 <$> take (Z.to_nat mx) done_) = Z.min mx (zlen done_)) as Es
    by (unfold zlen; rewrite length_fmap, length_take; lia).
  assert (zlen done_ < mx → is_Some (store m buf (u8 <$> take (Z.to_nat mx) done_) !! (buf + Z.min mx (zlen done_)))) as Hq
    by (intros Hlt; apply (mapped_store m buf _ _ _ Hm); [rewrite Es; eapply mapped_sub; [exact Hm|lia|lia]|lia]).
  rewrite (bind_ok _ _ _ _ _ (helper_step ch _ _ (zlen done_) mx ltac:(lia) Hq)).
  rewrite Ez'. f_equal. destruct (Z.ltb_spec (zlen done_) mx) as [Hlt|Hge].
  - rewrite take_snoc by (unfold zlen in *; lia). rewrite fmap_app. cbn [fmap list_fmap].
    rewrite store_snoc, Es, store_insert by (rewrite Es; lia). f_equal. f_equal; lia.
  - rewrite take_app_le by (unfold zlen in *; lia). f_equal. f_equal; lia.
Qed.

(** What vsnprintf() leaves in the buffer. *)
Definition truncated (size : Z) (o : list Z) : list Z := (u8 <$> take (Z.to_nat (size - 1)) o) ++ [0].

Lemma vsnprintf_ok m buffer size format args o :
  __vprintf format args [] = Ok (tt, o) → zlen o < 2147483648 → 0 < size < 2147483648 → mapped m buffer (Z.min size (zlen o + 1)) →
  vsnprintf buffer size format args m = Ok (zlen o, store m buffer (truncated size o)).
Proof.
  intros Hf Hl Hs Hm. pose proof (zlen_nonneg o) as H0. unfold vsnprintf. rewrite bind_get. unfold calls. rewrite Hf.
  rewrite Z.gtb_ltb, (proj2 (Z.ltb_lt 0 size)), s32_small by (unfold in_s32; lia).
  pose proof (helper_run buffer (size - 1) o [] m ltac:(lia) ltac:(unfold zlen in *; cbn; lia)) as Hr.
  rewrite take_nil in Hr. cbn [fmap list_fmap store app] in Hr. change (zlen (@nil Z)) with 0 in Hr.
  replace (buffer + Z.min (size - 1) 0) with buffer in Hr by lia. rewrite Hr by (eapply mapped_sub; [exact Hm|lia|lia]).
  rewrite bind_modify. cbn [p len].
  assert (zlen (u8 <$> take (Z.to_nat (size - 1)) o) = Z.min (size - 1) (zlen o)) as Es
    by (unfold zlen; rewrite length_fmap, length_take; lia).
  rewrite wr_ok; [|apply (mapped_store m buffer _ _ _ Hm); [rewrite Es; eapply mapped_sub; [exact Hm|lia|lia]|lia]].
  unfold truncated. change (u8 0) with 0. rewrite store_snoc, Es, store_insert by (rewrite Es; lia). done.
Qed.

(** ** Numbers in decimal *)

Definition plain_d (v : Z) : item := Signed (mk_spec [] Absent Absent INT) (chr "d") v.

Lemma plain_d_ok v : in_s32 v → item_ok (plain_d v).
Proof. intros Hv. split; [|split; [by left|done]]. split; [by split_and!|done]. Qed.

Lemma marks_plain b fl ds k : has fl GROUP = false → Forall (λ d, 0 <= d < base b) ds → (∀ d, 0 <= d < base b → digits b !! Z.to_nat d = Some (48 + d)) →
  marks b fl k ds = Z.add 48 <$> ds.
Proof.
  intros Hg Hd Hch. revert k. induction Hd as [|d ds Hd _ IH]; intros k; cbn [marks]; [done|].
  rewrite Hg. cbn [andb app fmap list_fmap]. by rewrite (Hch d Hd), IH.
Qed.

Lemma digit_chars d : 0 <= d < 10 → digits base_d !! Z.to_nat d = Some (48 + d).
Proof.
  intros Hd. assert (d ∈ seqZ 0 10) as Hin by (apply elem_of_seqZ; lia). clear Hd. revert d Hin.
  apply (Forall_forall (λ d, digits base_d !! Z.to_nat d = Some (48 + d))). by repeat constructor.
Qed.

Lemma digits_val_chars ds : digits_val (Z.add 48 <$> ds) = fold_left (λ a d, a * 10 + d) ds 0.
Proof.
  unfold digits_val. generalize 0. induction ds as [|d ds IH]; intros a; cbn [fmap list_fmap fold_left]; [done|].
  rewrite IH. f_equal. lia.
Qed.

Lemma fmap_rev {A B} (f : A → B) l : f <$> rev l = rev (f <$> l).
Proof. induction l as [|x l IH]; [done|]. cbn [rev fmap list_fmap]. by rewrite fmap_app, IH. Qed.

(** No more digits than the value needs. *)
Lemma low_digits_fit n k b v : 1 < b → 0 <= v < b ^ Z.of_nat k → (length (low_digits n b v) <= k)%nat.
Proof.
  intros Hb. revert k v. induction n as [|n IH]; intros k v Hv; cbn [low_digits]; [cbn; lia|].
  destruct (v >? 0) eqn:E; [|cbn; lia]. destruct k as [|k]; [change (b ^ Z.of_nat 0) with 1 in Hv; lia|].
  rewrite Nat2Z.inj_succ, Z.pow_succ_r in Hv by lia. cbn [length].
  specialize (IH k (v / b) ltac:(split; [apply Z.div_pos; lia|apply Z.div_lt_upper_bound; lia])). lia.
Qed.

Lemma field_plain c lead body : flags c = 0 → width c = 0 → field c lead body = lead ++ body.
Proof.
  intros Hf Hw. unfold field. rewrite Hf, Hw. change (has 0 MINUS) with false. change (has 0 ZERO) with false. cbv iota.
  pose proof (zlen_nonneg lead). pose proof (zlen_nonneg body). by replace (Z.to_nat (0 - zlen lead - zlen body)) with O by lia.
Qed.

(** %d prints an optional minus sign and the digits. *)
Lemma plain_d_out v : in_s32 v → ∃ d ds, item_out (plain_d v) = (if v <? 0 then [45] else []) ++ d :: ds ∧
  Forall (λ c, isdigit c = true) (d :: ds) ∧ digits_val (d :: ds) = Z.abs v ∧ (length (d :: ds) <= 10)%nat.
Proof.
  intros Hv. assert (in_u64 (Z.abs v)) as Hu by (unfold in_s32, in_u64 in *; lia).
  destruct (to_digits_positional 10 (Z.abs v) ltac:(lia) Hu) as (Hval & Hd & Hh).
  assert (grouped base_d 0 (to_digits 10 (Z.abs v)) = Z.add 48 <$> to_digits 10 (Z.abs v)) as Eg.
  { unfold grouped. rewrite marks_plain; [|done|by apply Forall_rev|by apply digit_chars]. by rewrite fmap_rev, rev_involutive. }
  assert (item_out (plain_d v) = (if v <? 0 then [45] else []) ++ with_zeros 1 (Z.add 48 <$> to_digits 10 (Z.abs v))) as ->.
  { rewrite <- Eg. change (item_out (plain_d v)) with (int_field (mk_conv 0 0 (-1) INT) base_d true v). unfold int_field.
    rewrite <- std_body_ok, field_plain by done. f_equal. unfold int_lead. cbn [flags bx base_d]. change (has 0 POUND) with false. cbn [andb].
    rewrite app_nil_r. by destruct (v <? 0). }
  pose proof (low_digits_fit 22 10 10 (Z.abs v) ltac:(lia) ltac:(unfold in_s32 in Hv; cbn; lia)) as Hfit.
  rewrite <- length_rev in Hfit. fold (to_digits 10 (Z.abs v)) in Hfit.
  destruct (to_digits 10 (Z.abs v)) as [|d ds] eqn:E.
  - exists 48, []. split; [done|]. split; [by repeat constructor|]. rewrite <- Hval. split; [done|]. cbn. lia.
  - exists (48 + d), (Z.add 48 <$> ds). split; [|split; [|split; [|by cbn [length] in *; rewrite length_fmap]]].
    + unfold with_zeros. replace (Z.to_nat _) with O; [done|]. unfold zlen. cbn [fmap list_fmap length]. lia.
    + change (48 + d :: (Z.add 48 <$> ds)) with (Z.add 48 <$> d :: ds). apply Forall_fmap. eapply Forall_impl; [exact Hd|]. intros x Hx. cbv beta in Hx. unfold compose, isdigit. apply andb_true_iff. lia.
    + change (48 + d :: (Z.add 48 <$> ds)) with (Z.add 48 <$> d :: ds). rewrite digits_val_chars, <- Hval, <- horner. by rewrite rev_involutive.
Qed.

(** ** Properties *)

(** C32. printf() prints what the C standard says: for every format made of
    characters, %%, and the conversions d, i, o, u, x, X, c, s and p with any
    flags, width, precision and length modifier, and for arguments of the types
    the format announces, __vprintf() returns after it has emitted the text of
    each item in order.  The text of an integer has its sign, its prefix, the
    digits of its value in its base without a superfluous zero, grouped if
    asked, zeros up to the number of digits of the precision, and the padding
    of the width; a pointer is printed as by %#x.  Four combinations are
    excluded, in which the code prints something else: an integer with a
    precision above 63, an integer with both a precision and the flag for
    grouping, the flag 0 (without - and precision) with a negative width given
    by an argument, and %p with the flag - or a negative width. *)
Theorem printf_prints its l :
  Forall item_ok its →
  __vprintf (concat (item_text <$> its) ++ [0]) (concat (item_args <$> its)) l = Ok (tt, l ++ concat (item_out <$> its)) ∧
  ∀ b v, 8 <= b → in_u64 v → positional b v (to_digits b v).
Proof. intros Hok. split; [by apply printf_ok|]. intros b v. apply to_digits_positional. Qed.

(** snprintf() does not overrun its buffer: whatever the format and its
    arguments, if formatting emits the characters [o], vsnprintf() stores the
    first [size - 1] of them and a null byte, writes no other byte, and returns
    the length of the whole text. *)
Theorem vsnprintf_truncates m buffer size format args o :
  __vprintf format args [] = Ok (tt, o) → zlen o < 2147483648 → 0 < size < 2147483648 → mapped m buffer (Z.min size (zlen o + 1)) →
  wp (vsnprintf buffer size format args)
    (λ r m', r = zlen o ∧ m' = store m buffer (truncated size o) ∧ zlen (truncated size o) = Z.min size (zlen o + 1)) m.
Proof.
  intros Hf Hl Hs Hm. eapply wp_ok; [by apply vsnprintf_ok|]. split; [done|]. split; [done|].
  unfold truncated, zlen in *. rewrite length_app, length_fmap, length_take. cbn [length]. lia.
Qed.

(** snprintf() and atoi() are inverse: for every int [v], snprintf() of %d
    into a buffer of 12 bytes or more leaves a string from which atoi() reads
    [v] back. *)
Theorem snprintf_atoi m buffer size v :
  in_s32 v → 0 < buffer → 12 <= size < 2147483648 → mapped m buffer size →
  wp (let* _ := snprintf buffer size (lit "%d") [Word (u32 v)] in atoi buffer)
    (λ r m', r = v ∧ ∀ x, x < buffer ∨ buffer + 12 <= x → m' !! x = m !! x) m.
Proof.
  intros Hv Hb Hs Hm. destruct (plain_d_out v Hv) as (d & ds & E & Hds & Hval & Hlen).
  pose proof (printf_ok [plain_d v] [] (proj2 (Forall_singleton _ _) (plain_d_ok v Hv))) as Hf.
  cbn [fmap list_fmap concat] in Hf. rewrite !app_nil_r in Hf. change (item_text (plain_d v) ++ [0]) with (lit "%d") in Hf.
  change (item_args (plain_d v)) with [Word (u32 v)] in Hf. cbn [app] in Hf. set (o := item_out (plain_d v)) in *.
  assert (zlen o <= 11) as Hlo by (rewrite E; unfold zlen; rewrite length_app; destruct (v <? 0); cbn [length] in *; lia).
  assert (Forall (λ c, 0 < c < 128) o) as Ho.
  { rewrite E. apply Forall_app. split; [destruct (v <? 0); by repeat constructor|]. eapply Forall_impl; [exact Hds|].
    intros c Hc. cbn in Hc. unfold isdigit in Hc. bool_hyps. lia. }
  assert (truncated size o = o ++ [0]) as Et.
  { unfold truncated. rewrite take_ge by (unfold zlen in *; lia). f_equal. rewrite <- (list_fmap_id o) at 2. apply list_fmap_ext.
    intros i c Hc. rewrite Forall_lookup in Ho. apply Ho in Hc. cbv beta in Hc. apply u8_small. unfold id, in_u8. lia. }
  pose proof (zlen_nonneg o) as Hlo0.
  apply wp_bind. unfold snprintf.
  eapply wp_ok; [apply (vsnprintf_ok m buffer size _ _ o Hf); [lia|lia|eapply mapped_sub; [exact Hm|lia|lia]]|]. rewrite Et.
  assert (cstring (store m buffer (o ++ [0])) buffer o) as Hc.
  { split; [done|]. split; [apply holds_store|]. split; (eapply Forall_impl; [exact Ho|]); intros c Hc; cbn in Hc; [lia|unfold in_u8; lia]. }
  rewrite E in Hc at 2. rewrite <- (app_nil_r (d :: ds)) in Hc.
  eapply wp_ok; [apply (atoi_ok _ buffer [] (if v <? 0 then [45] else []) d ds [] Hc); [done| |done|done]; destruct (v <? 0); unfold sign_chars; auto|].
  split.
  - rewrite Hval. destruct (Z.ltb_spec v 0); [rewrite decide_True by done|rewrite decide_False by done]; rewrite s32_small;
      unfold in_s32 in *; lia.
  - intros x Hx. apply store_out. rewrite zlen_app. change (zlen [0]) with 1. lia.
Qed.

(** A format that ends in a single % is read past its end: __vprintf()
    takes the null byte for a conversion it does not know, and goes on with the
    byte after it. *)
Theorem printf_trailing_percent t args l :
  Forall item_ok (Plain <$> t) → __vprintf (t ++ lit "%") args l = Fault.
Proof.
  unfold __vprintf. set (bad := λ message ch : _, _). intros Ht.
  assert (∀ n, (length t < n)%nat → vprintf_loop bad n (t ++ lit "%") args l = Fault) as H; [|apply H; rewrite length_app; cbn; lia].
  intros n. revert n l. induction t as [|ch t IH]; intros n l Hn; (destruct n as [|n]; [cbn in Hn; lia|]); [by destruct n|].
  cbn [fmap list_fmap] in Ht. apply Forall_cons in Ht as [Hch Ht].
  pose proof (item_step bad n (Plain ch) (t ++ lit "%") args l Hch) as Hs. cbn [item_text item_args item_out app] in *. rewrite Hs.
  apply IH; [done|cbn [length] in Hn; lia].
Qed.

(** The combinations [item_ok] excludes.  A precision of 100 gives 63 digits;
    the commas count as digits; a pointer is padded on the left; and the flag 0
    with a negative width given by an argument gives both paddings. *)
Lemma printf_long_precision : __vprintf (lit "%.100d") [Word 7] [] = Ok (tt, replicate 62 (chr "0") ++ chars "7").
Proof. vm_compute. reflexivity. Qed.

Lemma printf_grouped_precision : __vprintf (lit "%'.7d") [Word 12345] [] = Ok (tt, chars "012,345").
Proof. vm_compute. reflexivity. Qed.

Lemma printf_left_pointer : __vprintf (lit "%-12p|") [Word 3221225472] [] = Ok (tt, chars "  0xc0000000|").
Proof. vm_compute. reflexivity. Qed.

Lemma printf_zero_left_star : __vprintf (lit "%0*d") [Word (u32 (-5)); Word 42] [] = Ok (tt, chars "00042   ").
Proof. reflexivity. Qed.

(** ** Examples *)

(** "%+05d|%-*s|%#llx|%'u|%.3hhi%%%c%p" *)
Definition demo_items : list item :=
  [Signed (mk_spec (chars "+0") (Digits 5) Absent INT) (chr "d") 42; Plain 124;
   Text (mk_spec (chars "-") (Star 6) Absent INT) (Some (chars "abc")); Plain 124;
   Unsigned (mk_spec (chars "#") Absent Absent LONGLONG) (chr "x") 1311768467463790320; Plain 124;
   Unsigned (mk_spec (chars "'") Absent Absent INT) (chr "u") 4294967295; Plain 124;
   Signed (mk_spec [] Absent (Digits 3) CHAR) (chr "i") (-7); Percent; Letter (mk_spec [] Absent Absent INT) 33;
   Pointer (mk_spec [] (Digits 12) Absent INT) 3221225472].

Lemma demo_items_text : concat (item_text <$> demo_items) ++ [0] = lit "%+05d|%-*s|%#llx|%'u|%.3hhi%%%c%12p".
Proof. reflexivity. Qed.

Lemma demo_items_ok : Forall item_ok demo_items.
Proof.
  assert (∀ cs, forallb (λ ch, bool_decide (is_Some (flag_of ch))) cs = true → Forall (λ ch, is_Some (flag_of ch)) cs) as Hf.
  { intros cs H. apply Forall_forall. intros ch Hin. rewrite forallb_forall in H. apply list_elem_of_In, H in Hin.
    exact (bool_decide_eq_true_1 _ Hin). }
  unfold demo_items. repeat (apply Forall_cons_2); [..|apply Forall_nil_2]; cbn [item_ok]; unfold int_spec_ok, spec_ok;
    repeat match goal with |- _ ∧ _ => split end;
    cbn [sp_flags sp_width sp_precision sp_type number_ok precision_value negative_width in_signed in_unsigned default];
    try (by apply Hf); try done; unfold in_s32, in_u32, in_u64; try lia; try (by left); try (by right);
    try (apply list_elem_of_In; cbn; tauto). by apply (bool_decide_eq_true_1 _).
Qed.

Lemma printf_prints_witness :
  __vprintf (lit "%+05d|%-*s|%#llx|%'u|%.3hhi%%%c%12p") (concat (item_args <$> demo_items)) [] =
  Ok (tt, chars "+0042|abc   |0x123456789abcdef0|4,294,967,295|-007%!  0xc0000000") ∧
  positional 16 3221225472 [12; 0; 0; 0; 0; 0; 0; 0].
Proof.
  destruct (printf_prints demo_items [] demo_items_ok) as [H1 H2]. split.
  - rewrite demo_items_text in H1. exact H1.
  - exact (H2 16 3221225472 ltac:(lia) ltac:(unfold in_u64; lia)).
Defined.

Definition demo_buf : mem := Memory.store ∅ 100 (replicate 12 255).
Lemma demo_buf_mapped n : n <= 12 → mapped demo_buf 100 n.
Proof.
  intros Hn. eapply mapped_sub; [apply (holds_mapped _ 100 (replicate 12 255)), holds_store|lia|]. change (zlen (replicate 12 255)) with 12. lia.
Qed.

Lemma vsnprintf_truncates_witness :
  wp (vsnprintf 100 4 (lit "%d.") [Word 2024]) (λ r m', r = 5 ∧ m' = Memory.store demo_buf 100 (chars "202" ++ [0])) demo_buf.
Proof.
  assert (Hf : __vprintf (lit "%d.") [Word 2024] [] = Ok (tt, chars "2024.")) by reflexivity.
  eapply wp_mono; [apply (vsnprintf_truncates demo_buf 100 4 _ _ _ Hf); [vm_compute; reflexivity|lia|by apply demo_buf_mapped]|].
  intros r m' (H1 & H2 & _). exact (conj H1 H2).
Defined.

Lemma snprintf_atoi_witness :
  wp (let* _ := snprintf 100 12 (lit "%d") [Word (u32 (-2147483648))] in atoi 100) (λ r _, r = -2147483648) demo_buf.
Proof.
  eapply wp_mono; [apply (snprintf_atoi demo_buf 100 12 (-2147483648)); [unfold in_s32; lia|lia|lia|by apply demo_buf_mapped]|].
  intros r m' [H _]. exact H.
Defined.

Lemma printf_trailing_percent_witness : __vprintf (lit "100%") [] [] = Fault.
Proof.
  apply (printf_trailing_percent (chars "100") [] []). repeat constructor; done.
Defined.

End StdioSpec.
