(* ===== verification/Random.v ===== *)
(** * Random: pseudo-random numbers (lib/random.c)

    RC4 on its 256-byte state.  random_bytes() fills a buffer: the model returns
    the bytes it writes there.  The theorem says that the state stays a
    permutation of the bytes under every sequence of calls, that the generator
    never leaves its array, and that the bytes are those of one stream, however
    they are drawn. *)

From Stdlib Require Import ZArith Lia.
From stdpp Require Import base tactics option list numbers.
From S2P Require Import Prelude.

Module Random.

Record prng := mk_prng {
  s : list Z;
  s_i : Z;
  s_j : Z;
  inited : bool
}.

Definition set_s (l : list Z) : M prng unit := modify (λ g, mk_prng l (s_i g) (s_j g) (inited g)).

(** [s[i]]. *)
Definition at_s (i : Z) : M prng Z := let* g := get in deref (s g !! Z.to_nat i).

(** [s[i] = v]. *)
Definition set_at (i v : Z) : M prng unit :=
  let* _ := at_s i in
  let* g := get in
  set_s (<[Z.to_nat i := v]> (s g)).

(** swap_byte (s + a, s + b). *)
Definition swap_byte (a b : Z) : M prng unit :=
  let* t := at_s a in
  let* v := at_s b in
  set_at a v;;;
  set_at b t.

(** [for (i = 0; i < 256; i++) s[i] = i]. *)
Fixpoint fill_loop (n : nat) (i : Z) : M prng unit :=
  match n with
  | O => ret tt
  | S n => set_at i (u8 i);;; fill_loop n (i + 1)
  end.

Fixpoint mix_loop (n : nat) (seedp : list Z) (i j : Z) : M prng unit :=
  match n with
  | O => ret tt
  | S n =>
      let* a := at_s i in
      let* b := deref (seedp !! Z.to_nat (Z.rem i 4)) in
      let j := u8 (j + (a + b)) in
      swap_byte i j;;;
      mix_loop n seedp (i + 1) j
  end.

Definition random_init (seed : Z) : M prng unit :=
  let seedp := le_bytes 4 seed in
  fill_loop 256 0;;;
  mix_loop 256 seedp 0 0;;;
  modify (λ g, mk_prng (s g) 0 0 true).

(** One round of the loop: the byte stored in the buffer. *)
Definition next_byte : M prng Z :=
  modify (λ g, mk_prng (s g) (u8 (s_i g + 1)) (s_j g) (inited g));;;
  let* g := get in
  let* a := at_s (s_i g) in
  modify (λ g, mk_prng (s g) (s_i g) (u8 (s_j g + a)) (inited g));;;
  let* g := get in
  swap_byte (s_i g) (s_j g);;;
  let* a := at_s (s_i g) in
  let* b := at_s (s_j g) in
  let s_k := u8 (a + b) in
  at_s s_k.

Fixpoint bytes_loop (size : nat) : M prng (list Z) :=
  match size with
  | O => ret []
  | S size => let* c := next_byte in let* l := bytes_loop size in ret (c :: l)
  end.

Definition random_bytes (size : Z) : M prng (list Z) :=
  let* g := get in
  (if negb (inited g) then random_init 0 else ret tt);;;
  bytes_loop (Z.to_nat size).

Definition random_ulong : M prng Z :=
  let* ul := random_bytes 4 in
  ret (le_val ul).

(** ** The state *)

Definition is_permutation (l : list Z) : Prop := l ≡ₚ seqZ 0 256.

Record prng_ok (g : prng) : Prop := {
  ok_s : is_permutation (s g);
  ok_i : in_u8 (s_i g);
  ok_j : in_u8 (s_j g)
}.

Lemma perm_length l : is_permutation l → length l = 256%nat.
Proof. unfold is_permutation. intros H. by rewrite (Permutation_length H). Qed.

Lemma perm_bytes l i x : is_permutation l → l !! i = Some x → in_u8 x.
Proof. unfold is_permutation. intros H Hx. apply list_elem_of_lookup_2 in Hx. rewrite H in Hx. apply elem_of_seqZ in Hx. unfold in_u8. lia. Qed.

Lemma at_s_ok {B} i g (k : Z → M prng B) : length (s g) = 256%nat → in_u8 i →
  ∃ x, s g !! Z.to_nat i = Some x ∧ bind (at_s i) k g = k x g.
Proof.
  intros Hl Hi. destruct (lookup_lt_is_Some_2 (s g) (Z.to_nat i)) as [x Hx]; [unfold in_u8 in Hi; lia|].
  exists x. split; [done|]. unfold at_s. rewrite bind_assoc, bind_get, (bind_deref _ x) by done. done.
Qed.

Lemma set_at_ok {B} i v g (k : unit → M prng B) : length (s g) = 256%nat → in_u8 i →
  bind (set_at i v) k g = k tt (mk_prng (<[Z.to_nat i := v]> (s g)) (s_i g) (s_j g) (inited g)).
Proof. intros Hl Hi. unfold set_at. rewrite bind_assoc. by destruct (at_s_ok i g (λ _, bind (let* g0 := get in set_s (<[Z.to_nat i := v]> (s g0))) k) Hl Hi) as (x & _ & ->). Qed.

(** [l] with two elements exchanged. *)
Definition exchange (i j : nat) (l : list Z) : list Z :=
  match l !! i, l !! j with Some x, Some y => <[j := x]> (<[i := y]> l) | _, _ => l end.

Lemma exchange_perm i j l : exchange i j l ≡ₚ l.
Proof.
  unfold exchange. destruct (l !! i) as [x|] eqn:Hi; [|done]. destruct (l !! j) as [y|] eqn:Hj; [|done].
  by apply Permutation_insert_swap.
Qed.

Lemma swap_byte_ok {B} a b g (k : unit → M prng B) : length (s g) = 256%nat → in_u8 a → in_u8 b →
  bind (swap_byte a b) k g = k tt (mk_prng (exchange (Z.to_nat a) (Z.to_nat b) (s g)) (s_i g) (s_j g) (inited g)).
Proof.
  intros Hl Ha Hb. unfold swap_byte, exchange. rewrite bind_assoc.
  match goal with |- bind (at_s a) ?f _ = _ => destruct (at_s_ok a g f Hl Ha) as (x & Hx & ->) end. rewrite bind_assoc.
  match goal with |- bind (at_s b) ?f _ = _ => destruct (at_s_ok b g f Hl Hb) as (y & Hy & ->) end. rewrite Hx, Hy, bind_assoc.
  rewrite set_at_ok, set_at_ok by (cbn [s]; rewrite ?length_insert; done). done.
Qed.

Lemma fill_loop_ok n i g : length (s g) = 256%nat → 0 <= i → i + Z.of_nat n = 256 →
  fill_loop n i g = Ok (tt, mk_prng (take (Z.to_nat i) (s g) ++ seqZ i (Z.of_nat n)) (s_i g) (s_j g) (inited g)).
Proof.
  revert i g. induction n as [|n IH]; intros i g Hl Hi Hn; cbn [fill_loop].
  { rewrite take_ge by lia. cbn. rewrite app_nil_r. by destruct g. }
  rewrite set_at_ok by (done || unfold in_u8; lia). rewrite IH; cbn [s s_i s_j inited]; [|by rewrite length_insert|lia|lia].
  unfold ret. rewrite (seqZ_cons i) by lia. replace (Z.to_nat (i + 1)) with (S (Z.to_nat i)) by lia.
  rewrite u8_small by (unfold in_u8; lia).
  rewrite (take_S_r _ _ i) by (apply list_lookup_insert_eq; lia). rewrite take_insert_ge by lia.
  rewrite <- app_assoc. cbn [app]. replace (Z.pred (Z.of_nat (S n))) with (Z.of_nat n) by lia. by rewrite Z.add_1_r.
Qed.

Lemma mix_loop_ok n seedp i j g : is_permutation (s g) → length seedp = 4%nat → 0 <= i → i + Z.of_nat n <= 256 → in_u8 j →
  ∃ l, mix_loop n seedp i j g = Ok (tt, mk_prng l (s_i g) (s_j g) (inited g)) ∧ is_permutation l.
Proof.
  intros Hp Hs. revert i j g Hp. induction n as [|n IH]; intros i j g Hp Hi Hn Hj; cbn [mix_loop].
  { exists (s g). by destruct g. }
  match goal with |- ∃ _, bind (at_s i) ?f _ = _ ∧ _ => destruct (at_s_ok i g f (perm_length _ Hp) ltac:(unfold in_u8; lia)) as (x & Hx & ->) end.
  destruct (lookup_lt_is_Some_2 seedp (Z.to_nat (Z.rem i 4))) as [b Hb].
  { rewrite Hs. pose proof (Z.rem_bound_pos i 4). lia. }
  rewrite (bind_deref _ b) by done. cbv zeta.
  rewrite swap_byte_ok by (apply u8_range || (by apply perm_length) || (unfold in_u8; lia)).
  match goal with |- ∃ _, mix_loop _ _ _ _ ?g' = _ ∧ _ => apply (IH (i + 1) _ g') end; cbn [s]; [|lia|lia|apply u8_range].
  unfold is_permutation. by rewrite exchange_perm.
Qed.

Lemma random_init_ok seed g : length (s g) = 256%nat →
  ∃ g', random_init seed g = Ok (tt, g') ∧ prng_ok g' ∧ inited g' = true.
Proof.
  intros Hl. unfold random_init. cbv zeta. rewrite (bind_ok _ _ _ _ _ (fill_loop_ok 256 0 g Hl ltac:(lia) ltac:(lia))).
  cbn [Z.to_nat take app]. change (Z.of_nat 256) with 256.
  destruct (mix_loop_ok 256 (le_bytes 4 seed) 0 0 (mk_prng (seqZ 0 256) (s_i g) (s_j g) (inited g))) as (l & E & Hp);
    [by unfold is_permutation|done|lia|lia|unfold in_u8; lia|].
  rewrite (bind_ok _ _ _ _ _ E). eexists. split; [done|]. split; [|done]. by split.
Qed.

Lemma next_byte_ok g : prng_ok g → ∃ c g', next_byte g = Ok (c, g') ∧ prng_ok g' ∧ inited g' = inited g ∧ in_u8 c.
Proof.
  intros [Hp Hi Hj]. unfold next_byte.
  rewrite bind_modify, bind_get. cbn [s_i]. pose proof (u8_range (s_i g + 1)) as Hi'. set (i := u8 (s_i g + 1)) in *.
  match goal with |- ∃ _ _, bind (at_s i) ?f ?g1 = _ ∧ _ => destruct (at_s_ok i g1 f (perm_length _ Hp) Hi') as (x & Hx & ->) end.
  rewrite bind_modify, bind_get. cbn [s_i s_j s inited]. pose proof (u8_range (s_j g + x)) as Hj'. set (j := u8 (s_j g + x)) in *.
  rewrite swap_byte_ok by (done || by apply perm_length). cbn [s_i s_j s inited].
  assert (is_permutation (exchange (Z.to_nat i) (Z.to_nat j) (s g))) as Hp' by (unfold is_permutation; by rewrite exchange_perm).
  set (l' := exchange _ _ _) in *.
  match goal with |- ∃ _ _, bind (at_s i) ?f ?g1 = _ ∧ _ => destruct (at_s_ok i g1 f (perm_length _ Hp') Hi') as (a & Ha & ->) end.
  match goal with |- ∃ _ _, bind (at_s j) ?f ?g1 = _ ∧ _ => destruct (at_s_ok j g1 f (perm_length _ Hp') Hj') as (b & Hb & ->) end.
  destruct (at_s_ok (u8 (a + b)) (mk_prng l' i j (inited g)) ret (perm_length _ Hp') (u8_range _)) as (c & Hc & E).
  exists c, (mk_prng l' i j (inited g)). split; [by apply bind_ret_r in E|]. split; [by split|]. split; [done|]. by eapply perm_bytes.
Qed.

Lemma bytes_loop_ok n g : prng_ok g →
  ∃ l g', bytes_loop n g = Ok (l, g') ∧ prng_ok g' ∧ inited g' = inited g ∧ length l = n ∧ Forall in_u8 l.
Proof.
  revert g. induction n as [|n IH]; intros g Hg; cbn [bytes_loop]; [by exists [], g|].
  destruct (next_byte_ok g Hg) as (c & g1 & E1 & Hg1 & Hi1 & Hc). destruct (IH g1 Hg1) as (l & g' & E & Hg' & Hi & Hl & Hb).
  exists (c :: l), g'. rewrite (bind_ok _ _ _ _ _ E1), (bind_ok _ _ _ _ _ E).
  split; [done|]. split; [done|]. split; [congruence|]. split; [cbn; lia|by constructor].
Qed.

(** The stream may be cut anywhere. *)
Lemma bytes_loop_app n k g a g1 r : bytes_loop n g = Ok (a, g1) → bytes_loop k g1 = Ok r →
  bytes_loop (n + k) g = Ok (a ++ r.1, r.2).
Proof.
  revert g a. induction n as [|n IH]; intros g a; cbn [bytes_loop Nat.add].
  { intros [= <- <-] ->. by destruct r. }
  intros E Ek. apply bind_inv in E as (c & g2 & E1 & E). apply bind_inv in E as (l & g3 & E2 & [= <- ->]).
  rewrite (bind_ok _ _ _ _ _ E1). by rewrite (bind_ok _ _ _ _ _ (IH _ _ E2 Ek)).
Qed.

(** ** Sequences of calls *)

Inductive call := Init (seed : Z) | Bytes (size : Z) | Ulong.

(** The calls, with the bytes each one returns. *)
Definition do_call (c : call) : M prng (list Z) :=
  match c with
  | Init seed => random_init seed;;; ret []
  | Bytes size => random_bytes size
  | Ulong => let* ul := random_ulong in ret (le_bytes 4 ul)
  end.
Fixpoint do_calls (l : list call) : M prng (list (list Z)) :=
  match l with
  | [] => ret []
  | c :: l => let* r := do_call c in let* rs := do_calls l in ret (r :: rs)
  end.
Definition call_size (c : call) : Z := match c with Init _ => 0 | Bytes size => Z.max 0 size | Ulong => 4 end.

(** An array of 256 bytes, and the other variables once initialised. *)
Definition prng_typed (g : prng) : Prop := length (s g) = 256%nat ∧ (inited g = true → prng_ok g).

Lemma random_bytes_ok n g : prng_typed g →
  ∃ l g', random_bytes n g = Ok (l, g') ∧ prng_ok g' ∧ inited g' = true ∧ zlen l = Z.max 0 n ∧ Forall in_u8 l.
Proof.
  intros [Hl Hi]. unfold random_bytes. rewrite bind_get.
  assert (∃ g1, (if negb (inited g) then random_init 0 else ret tt) g = Ok (tt, g1) ∧ prng_ok g1 ∧ inited g1 = true) as (g1 & E1 & Hg1 & Hi1).
  { destruct (inited g) eqn:E; cbn [negb]; [exists g; by auto|by apply random_init_ok]. }
  rewrite (bind_ok _ _ _ _ _ E1). destruct (bytes_loop_ok (Z.to_nat n) g1 Hg1) as (l & g' & E & Hg' & Hi' & Hl' & Hb).
  exists l, g'. split; [done|]. split; [done|]. split; [congruence|]. split; [unfold zlen; lia|done].
Qed.

Lemma do_call_ok c g : prng_typed g →
  ∃ r g', do_call c g = Ok (r, g') ∧ prng_typed g' ∧ inited g' = true ∧ zlen r = call_size c ∧ Forall in_u8 r.
Proof.
  intros Hg. assert (∀ g', prng_ok g' → prng_typed g') as Hty by (intros g' Hg'; split; [by apply perm_length, Hg'|done]).
  destruct c as [seed|n|]; cbn [do_call call_size].
  - destruct (random_init_ok seed g (proj1 Hg)) as (g' & E & Hg' & Hi). rewrite (bind_ok _ _ _ _ _ E). exists [], g'. auto.
  - destruct (random_bytes_ok n g Hg) as (l & g' & E & Hg' & Hi & Hl & Hb). exists l, g'. auto 6.
  - unfold random_ulong. destruct (random_bytes_ok 4 g Hg) as (l & g' & E & Hg' & Hi & Hl & Hb).
    rewrite bind_assoc, (bind_ok _ _ _ _ _ E). exists l, g'. unfold zlen in Hl.
    replace 4%nat with (length l) by lia. rewrite bind_ret, le_bytes_val by done. split; [done|]. split; [auto|]. split; [done|].
    split; [unfold zlen; lia|done].
Qed.

(** C40. The generator's state is well formed under every sequence of calls:
    from the zeroed static variables, random_init(), random_bytes() and
    random_ulong() always return, never index outside the array, keep it a
    permutation of the 256 byte values once it is initialised, and return the
    bytes asked for; and random_bytes() draws from one stream: two calls return
    what one call for both sizes does. *)
Theorem random_typed l g :
  prng_typed g →
  (∃ rs g', do_calls l g = Ok (rs, g') ∧ prng_typed g' ∧
     Forall2 (λ c r, zlen r = call_size c ∧ Forall in_u8 r) l rs) ∧
  (∀ n k a g1 b g2, 0 <= n → 0 <= k → random_bytes n g = Ok (a, g1) → random_bytes k g1 = Ok (b, g2) →
     random_bytes (n + k) g = Ok (a ++ b, g2)).
Proof.
  intros Hg. split.
  - revert g Hg. induction l as [|c l IH]; intros g Hg; [by exists [], g|]. cbn [do_calls].
    destruct (do_call_ok c g Hg) as (r & g1 & E1 & Hg1 & _ & Hr). destruct (IH g1 Hg1) as (rs & g' & E & Hg' & Hrs).
    exists (r :: rs), g'. rewrite (bind_ok _ _ _ _ _ E1), (bind_ok _ _ _ _ _ E). split; [done|]. split; [done|by constructor].
  - intros n k a g1 b g2 Hn Hk E1 E2. destruct (random_bytes_ok n g Hg) as (a' & g1' & E1' & _ & Hi1 & _).
    rewrite E1 in E1'. injection E1' as <- <-.
    unfold random_bytes in E1 at 1. unfold random_bytes in E2 at 1. unfold random_bytes. rewrite bind_get in *.
    rewrite Hi1 in E2. cbn [negb] in E2. rewrite bind_ret in E2. apply bind_inv in E1 as ([] & g0 & E0 & E1). rewrite (bind_ok _ _ _ _ _ E0), Z2Nat.inj_add by done.
    by rewrite (bytes_loop_app _ _ _ _ _ _ E1 E2).
Qed.

Definition static_prng : prng := mk_prng (replicate 256 0) 0 0 false.

(** The key stream of RC4 with the key of the four characters Wiki. *)
Lemma random_typed_witness :
  (∃ rs g', do_calls [Bytes 3; Init 1768646999; Ulong; Bytes 2] static_prng = Ok (rs, g') ∧ prng_typed g') ∧
  (∃ g', (random_init 1768646999;;; random_bytes 6) static_prng = Ok ([96; 68; 219; 109; 65; 183], g')).
Proof.
  split.
  - destruct (random_typed [Bytes 3; Init 1768646999; Ulong; Bytes 2] static_prng ltac:(by split)) as [(rs & g' & E & Hg & _) _].
    exists rs, g'. exact (conj E Hg).
  - eexists. vm_compute. reflexivity.
Defined.

End Random.
