(* ===== verification/Ustar.v ===== *)
(** * Ustar: headers of tar archives (lib/ustar.c)

    A header is an array of 512 bytes; a member of struct ustar_header is its
    offset and size.  A file name is the list of its characters without the
    null.  Writing a member with strlcpy() or snprintf() stores what
    [CString.strlcpy_ok] and [StdioSpec.vsnprintf_ok] say these store. *)

From Stdlib Require Import ZArith Lia Ascii.
From stdpp Require Import base tactics option list numbers strings.
From S2P Require Import Prelude CString Stdio StdioSpec.
Import CString Stdio StdioSpec.

Module Ustar.

Definition USTAR_HEADER_SIZE : Z := 512.

Definition USTAR_REGULAR : Z := 48.
Definition USTAR_DIRECTORY : Z := 53.
Definition USTAR_EOF : Z := -1.

(** struct ustar_header. *)
Record member := mk_member { offset : Z; msize : Z }.
Definition h_name := mk_member 0 100.
Definition h_mode := mk_member 100 8.
Definition h_uid := mk_member 108 8.
Definition h_gid := mk_member 116 8.
Definition h_size := mk_member 124 12.
Definition h_mtime := mk_member 136 12.
Definition h_chksum := mk_member 148 8.
Definition h_typeflag := mk_member 156 1.
Definition h_linkname := mk_member 157 100.
Definition h_magic := mk_member 257 6.
Definition h_version := mk_member 263 2.
Definition h_uname := mk_member 265 32.
Definition h_gname := mk_member 297 32.
Definition h_devmajor := mk_member 329 8.
Definition h_devminor := mk_member 337 8.
Definition h_prefix := mk_member 345 155.
Definition h_padding := mk_member 500 12.

Abbreviation header := (list Z) (only parsing).

(** The bytes of a member. *)
Definition bytes_of (f : member) (h : header) : list Z := slice (offset f) (msize f) h.

(** ** Checksum and file names *)

Fixpoint chksum_loop (l : list Z) (i chksum : Z) : Z :=
  match l with
  | [] => chksum
  | b :: l =>
      let in_chksum_field := (i >=? offset h_chksum) && (i <? offset h_chksum + msize h_chksum) in
      chksum_loop l (i + 1) (u32 (chksum + (if in_chksum_field then 32 else b)))
  end.
Definition calculate_chksum (h : header) : Z := chksum_loop h 0 0.

(** [!memcmp (file_name, p, strlen (p))]: [p] has no null byte. *)
Definition begins (file_name : list Z) (p : list Z) : bool := bool_decide (take (length p) file_name = p).

(** [strchr (file_name, '/') + 1]. *)
Fixpoint after_slash (file_name : list Z) : list Z :=
  match file_name with
  | [] => []
  | c :: l => if c =? chr "/" then l else after_slash l
  end.

Definition antisocial (file_name : list Z) : bool :=
  begins file_name (chars "/") || begins file_name (chars "./") || begins file_name (chars "../").

(** Each round drops a character at least. *)
Fixpoint strip_loop (n : nat) (file_name : list Z) : list Z :=
  match n with
  | O => file_name
  | S n => if antisocial file_name then strip_loop n (after_slash file_name) else file_name
  end.

Definition strip_antisocial_prefixes (file_name : list Z) : list Z :=
  let file_name := strip_loop (length file_name) file_name in
  if bool_decide (file_name = []) || bool_decide (file_name = chars "..") then chars "." else file_name.

(** ** ustar_make_header *)

Definition write (f : member) (d : list Z) : M header unit :=
  let* h := get in
  let* h := deref (store_bytes h (offset f) d) in
  modify (λ _, h).

Definition set_strlcpy (f : member) (s : list Z) : M header unit :=
  write f (take (Z.to_nat (msize f - 1)) s ++ [0]).
Definition set_snprintf (f : member) (format : string) (args : list arg) : M header unit :=
  match __printf (lit format) args [] with
  | Ok (_, o) => write f (truncated (msize f) o)
  | Panic => panic
  | Fault => fault
  | Blocked _ _ | NoFuel => no_fuel
  end.

(** The message on the console for a name that is too long is left out: the
    result tells the caller. *)
Definition ustar_make_header (file_name : list Z) (type size : Z) : M header bool :=
  assert ((type =? USTAR_REGULAR) || (type =? USTAR_DIRECTORY));;;
  let file_name := strip_antisocial_prefixes file_name in
  if zlen file_name >? 99 then ret false
  else
    modify (λ h, replicate (length h) 0);;;
    set_strlcpy h_name file_name;;;
    set_snprintf h_mode "%07o" [Word (if type =? USTAR_REGULAR then 420 else 493)];;;
    set_strlcpy h_uid (chars "0000000");;;
    set_strlcpy h_gid (chars "0000000");;;
    set_snprintf h_size "%011o" [Word (u32 size)];;;
    set_snprintf h_mtime "%011o" [Word 1136102400];;;
    write h_typeflag [u8 type];;;
    set_strlcpy h_magic (chars "ustar");;;
    write h_version (chars "00");;;
    set_strlcpy h_gname (chars "root");;;
    set_strlcpy h_uname (chars "root");;;
    let* h := get in
    set_snprintf h_chksum "%07o" [Word (calculate_chksum h)];;;
    ret true.

(** ** ustar_parse_header *)

(** [None] where parse_octal_field() returns false. *)
Fixpoint parse_octal_loop (s : list Z) (ofs value : Z) : option Z :=
  match s with
  | [] => None
  | c :: s =>
      if (c >=? 48) && (c <=? 55) then
        if value >? 4294967295 / 8 then None else parse_octal_loop s (ofs + 1) (u32 (c - 48 + value * 8))
      else if (c =? 32) || (c =? 0) then if ofs >? 0 then Some value else None
      else None
  end.
Definition parse_octal_field (s : list Z) : option Z := parse_octal_loop s 0 0.

Fixpoint is_all_zeros (block : list Z) : bool :=
  match block with
  | [] => true
  | b :: block => if negb (b =? 0) then false else is_all_zeros block
  end.

(** The null-terminated string at the start of [l]. *)
Fixpoint string_at (l : list Z) : list Z :=
  match l with
  | [] => []
  | c :: l => if c =? 0 then [] else c :: string_at l
  end.

(** An error message, or the name (null at the end of the archive), the type
    and the size. *)
Inductive parsed := Error (message : string) | Header (file_name : option (list Z)) (type size : Z).

Definition ustar_parse_header (h : header) : parsed :=
  if is_all_zeros h then Header None USTAR_EOF 0
  else if negb (bool_decide (bytes_of h_magic h = lit "ustar")) then Error "not a ustar archive"
  else if negb (bool_decide (bytes_of h_version h = chars "00")) then Error "invalid ustar version"
  else
    match parse_octal_field (bytes_of h_chksum h) with
    | None => Error "corrupt chksum field"
    | Some chksum =>
        if negb (chksum =? calculate_chksum h) then Error "checksum mismatch"
        else if negb (bool_decide (last (bytes_of h_name h) = Some 0)) || negb (bool_decide (head (bytes_of h_prefix h) = Some 0))
        then Error "file name too long"
        else
          let typeflag := default 0 (head (bytes_of h_typeflag h)) in
          if negb (typeflag =? USTAR_REGULAR) && negb (typeflag =? USTAR_DIRECTORY) then Error "unimplemented file type"
          else
            let done size := Header (Some (strip_antisocial_prefixes (string_at (bytes_of h_name h)))) typeflag size in
            if typeflag =? USTAR_REGULAR then
              match parse_octal_field (bytes_of h_size h) with
              | None => Error "corrupt file size field"
              | Some size => if size >? 2147483647 then Error "file too large" else done size
              end
            else done 0
    end.

(** ** File names *)

Lemma begins_slash c l : begins (c :: l) (chars "/") = (c =? 47).
Proof. unfold begins. cbn. case_bool_decide as H; [injection H as ->; done|]. symmetry. apply Z.eqb_neq. by intros ->. Qed.

Lemma after_slash_length l : (length (after_slash l) <= pred (length l))%nat.
Proof. induction l as [|c l IH]; [done|]. cbn [after_slash]. case_match; cbn [length]; lia. Qed.

Lemma antisocial_cons l : antisocial l = true → l ≠ [].
Proof. by intros H ->. Qed.

Lemma strip_loop_social n l : (length l <= n)%nat → antisocial (strip_loop n l) = false.
Proof.
  revert l. induction n as [|n IH]; intros l Hl; cbn [strip_loop].
  { by destruct l; [|cbn in Hl; lia]. }
  destruct (antisocial l) eqn:E; [|done]. apply IH. pose proof (after_slash_length l). lia.
Qed.

Lemma strip_loop_id n l : antisocial l = false → strip_loop n l = l.
Proof. intros H. destruct n; cbn [strip_loop]; by rewrite ?H. Qed.

(** What stripping guarantees. *)
Definition social (l : list Z) : Prop := antisocial l = false ∧ l ≠ [] ∧ l ≠ chars "..".

Lemma strip_social l : social (strip_antisocial_prefixes l).
Proof.
  unfold strip_antisocial_prefixes. pose proof (strip_loop_social (length l) l ltac:(done)) as H.
  set (t := strip_loop (length l) l) in *. case_bool_decide as H1; [by split|]. case_bool_decide as H2; by split.
Qed.

Lemma strip_id l : social l → strip_antisocial_prefixes l = l.
Proof.
  intros (H1 & H2 & H3). unfold strip_antisocial_prefixes. rewrite strip_loop_id by done.
  by rewrite !bool_decide_eq_false_2.
Qed.

(** ** Octal numbers *)

(** %0[w]o *)
Definition octal_item (w v : Z) : item := Unsigned (mk_spec (chars "0") (Digits w) Absent INT) (chr "o") v.
Definition octal_val (t : list Z) (a : Z) : Z := fold_left (λ a c, a * 8 + (c - 48)) t a.

Lemma octal_digit d : 0 <= d < 8 → digits base_o !! Z.to_nat d = Some (48 + d).
Proof.
  intros Hd. assert (d ∈ seqZ 0 8) as Hin by (apply elem_of_seqZ; lia). clear Hd. revert d Hin.
  apply (Forall_forall (λ d, digits base_o !! Z.to_nat d = Some (48 + d))). by repeat constructor.
Qed.

Lemma octal_val_chars ds a : octal_val (Z.add 48 <$> ds) a = fold_left (λ a d, a * 8 + d) ds a.
Proof.
  unfold octal_val. revert a. induction ds as [|d ds IH]; intros a; cbn [fmap list_fmap fold_left]; [done|].
  rewrite IH. f_equal. lia.
Qed.

Lemma octal_val_zeros n t : octal_val (replicate n 48 ++ t) 0 = octal_val t 0.
Proof. induction n as [|n IH]; [done|]. by cbn. Qed.

(** The text is as wide as asked for, and its value is the number. *)
Lemma octal_text w v : 0 < w < 22 → in_u32 v → v < 8 ^ w →
  let t := item_out (octal_item w v) in zlen t = w ∧ Forall (λ c, 48 <= c <= 55) t ∧ octal_val t 0 = v.
Proof.
  intros Hw Hv Hlt. assert (in_u64 v) as Hu by (unfold in_u32, in_u64 in *; lia).
  destruct (to_digits_positional 8 v ltac:(lia) Hu) as (Hval & Hd & _).
  pose proof (low_digits_fit 22 (Z.to_nat w) 8 v ltac:(lia) ltac:(rewrite Z2Nat.id by lia; unfold in_u32 in Hv; lia)) as Hfit.
  rewrite <- length_rev in Hfit. fold (to_digits 8 v) in Hfit. set (ds := to_digits 8 v) in *.
  assert (∃ n, item_out (octal_item w v) = replicate n 48 ++ (Z.add 48 <$> ds) ∧ Z.of_nat n + zlen ds = w) as (n & -> & Hn).
  { assert (item_out (octal_item w v) = replicate (Z.to_nat (w - zlen (with_zeros 1 (Z.add 48 <$> ds)))) 48 ++ with_zeros 1 (Z.add 48 <$> ds)) as ->.
    { change (item_out (octal_item w v)) with (int_field (mk_conv 16 w (-1) INT) base_o false v). unfold int_field.
      rewrite <- std_body_ok by done. unfold field, int_body, int_lead.
      rewrite Z.abs_eq by apply Hu. cbn [flags width precision base base_o]. fold ds.
      assert (grouped base_o 16 ds = Z.add 48 <$> ds) as ->
        by (unfold grouped; rewrite marks_plain; [by rewrite fmap_rev, rev_involutive|done|by apply Forall_rev|apply octal_digit]).
      change (has 16 MINUS) with false. change (has 16 ZERO) with true. change (has 16 POUND) with false.
      unfold alternative. change (has 16 POUND) with false. cbn [andb sign_char app]. change (zlen (@nil Z)) with 0. rewrite Z.sub_0_r. done. }
    unfold with_zeros. set (k := Z.to_nat (Z.min 1 63 - _)). rewrite app_assoc, <- replicate_add. eexists. split; [done|].
    rewrite zlen_app. unfold zlen in *. rewrite !length_replicate, !length_fmap. subst k. unfold zlen. rewrite length_fmap. lia. }
  split; [rewrite zlen_app; unfold zlen in *; rewrite length_replicate, length_fmap; lia|]. split.
  - apply Forall_app. split; [apply Forall_replicate; lia|]. apply Forall_fmap. eapply Forall_impl; [exact Hd|]. intros d Hd'. cbv beta in Hd'. unfold compose. lia.
  - rewrite octal_val_zeros, octal_val_chars, <- Hval, <- horner. by rewrite rev_involutive.
Qed.

Lemma octal_val_ge t a : Forall (λ c, 48 <= c <= 55) t → 0 <= a → a <= octal_val t a.
Proof.
  unfold octal_val. intros Ht. revert a. induction Ht as [|c t Hc _ IH]; intros a Ha; cbn [fold_left]; [lia|].
  etransitivity; [|apply IH; lia]. lia.
Qed.

Lemma parse_octal_run t r ofs a : Forall (λ c, 48 <= c <= 55) t → 0 <= a → octal_val t a < 4294967296 → 0 <= ofs → 0 < ofs + zlen t →
  parse_octal_loop (t ++ 0 :: r) ofs a = Some (octal_val t a).
Proof.
  intros Ht. revert ofs a. induction Ht as [|c t Hc Ht IH]; intros ofs a Ha Hb Hofs Hlen; cbn [app parse_octal_loop].
  { unfold zlen in Hlen. cbn in Hlen |- *. rewrite Z.gtb_ltb, (proj2 (Z.ltb_lt 0 ofs)) by lia. done. }
  assert ((c >=? 48) && (c <=? 55) = true) as -> by (apply andb_true_iff; lia).
  unfold octal_val in Hb. cbn [fold_left] in Hb. fold (octal_val t (a * 8 + (c - 48))) in Hb.
  pose proof (octal_val_ge t (a * 8 + (c - 48)) Ht ltac:(lia)) as Hge. change (4294967295 / 8) with 536870911.
  rewrite Z.gtb_ltb, (proj2 (Z.ltb_ge 536870911 a)) by lia. rewrite u32_small by (unfold in_u32; lia).
  replace (c - 48 + a * 8) with (a * 8 + (c - 48)) by lia. rewrite IH; [done|lia|done|lia|]. pose proof (zlen_nonneg t). lia.
Qed.

(** ** The checksum is a sum *)

Definition in_chksum (i : Z) : bool := (i >=? offset h_chksum) && (i <? offset h_chksum + msize h_chksum).
Fixpoint chk_sum (l : list Z) (i : Z) : Z :=
  match l with [] => 0 | b :: l => (if in_chksum i then 32 else b) + chk_sum l (i + 1) end.

Lemma chk_sum_bounds l i : Forall in_u8 l → 0 <= chk_sum l i <= 255 * zlen l.
Proof.
  intros Hl. revert i. induction Hl as [|b l Hb _ IH]; intros i; cbn [chk_sum]; [unfold zlen; cbn; lia|].
  specialize (IH (i + 1)). unfold in_u8 in Hb. assert (zlen (b :: l) = zlen l + 1) as -> by (unfold zlen; cbn [length]; lia).
  case_match; lia.
Qed.

Lemma chksum_loop_sum l i c : Forall in_u8 l → 0 <= c → c + 255 * zlen l < 4294967296 → chksum_loop l i c = c + chk_sum l i.
Proof.
  intros Hl. revert i c. induction Hl as [|b l Hb Hl IH]; intros i c Hc Hs; cbn [chksum_loop chk_sum]; [lia|].
  assert (zlen (b :: l) = zlen l + 1) as Ez by (unfold zlen; cbn [length]; lia). rewrite Ez in Hs. pose proof (zlen_nonneg l).
  fold (in_chksum i). unfold in_u8 in Hb. rewrite u32_small by (unfold in_u32; case_match; lia).
  rewrite IH by (case_match; lia). lia.
Qed.

Lemma calculate_sum h : Forall in_u8 h → zlen h = 512 → calculate_chksum h = chk_sum h 0.
Proof. intros Hb Hz. unfold calculate_chksum. rewrite chksum_loop_sum by (done || lia). done. Qed.

(** Only the bytes outside the checksum's own member count. *)
Lemma chk_sum_ext l l' i : length l = length l' → (∀ k, in_chksum (i + Z.of_nat k) = false → l !! k = l' !! k) → chk_sum l i = chk_sum l' i.
Proof.
  revert l' i. induction l as [|b l IH]; intros [|b' l'] i Hl Hk; [done|done|done|]. cbn [chk_sum]. f_equal.
  - destruct (in_chksum i) eqn:E; [done|]. specialize (Hk 0%nat). rewrite Z.add_0_r in Hk. specialize (Hk E). by injection Hk.
  - apply IH; [by injection Hl|]. intros k Hin. apply (Hk (S k)). by replace (i + Z.of_nat (S k)) with (i + 1 + Z.of_nat k) by lia.
Qed.

Lemma chk_sum_insert l i k b b' : l !! k = Some b → in_chksum (i + Z.of_nat k) = false →
  chk_sum (<[k := b']> l) i = chk_sum l i + b' - b.
Proof.
  revert i k. induction l as [|c l IH]; intros i [|k] Hb Hin; try done.
  - injection Hb as ->. change (<[0%nat := b']> (b :: l)) with (b' :: l). cbn [chk_sum]. rewrite Z.add_0_r in Hin. rewrite Hin. lia.
  - change (<[S k := b']> (c :: l)) with (c :: <[k := b']> l). cbn [chk_sum]. rewrite (IH (i + 1) k) by (done || by replace (i + 1 + Z.of_nat k) with (i + Z.of_nat (S k)) by lia).
    lia.
Qed.

(** ** Writing members *)

Definition W (f : member) (d : list Z) (h : header) : header := splice (offset f) d h.
Definition fits (f : member) (d : list Z) : Prop := zlen d <= msize f ∧ 0 <= offset f ∧ offset f + msize f <= 512.
Definition apart (f g : member) : Prop := 0 <= offset g ∧ (offset f + msize f <= offset g ∨ offset g + msize g <= offset f).

Lemma zlen_W f d h : zlen h = 512 → fits f d → zlen (W f d h) = 512.
Proof. intros Hh (H1 & H2 & H3). unfold W. rewrite zlen_splice by lia. done. Qed.

Lemma write_ok {B} f d h (k : unit → M header B) : zlen h = 512 → fits f d → bind (write f d) k h = k tt (W f d h).
Proof.
  intros Hh (H1 & H2 & H3). unfold write. rewrite bind_assoc, bind_get, bind_assoc. unfold store_bytes.
  rewrite (proj2 (Z.leb_le 0 (offset f))), (proj2 (Z.leb_le (offset f + zlen d) (zlen h))) by lia. done.
Qed.

Lemma bytes_same f d h : zlen h = 512 → fits f d → zlen d = msize f → bytes_of f (W f d h) = d.
Proof. intros Hh (H1 & H2 & H3) Hd. unfold bytes_of, W. rewrite <- Hd. apply slice_splice_same; lia. Qed.

Lemma bytes_apart f g d h : zlen h = 512 → fits f d → apart f g → bytes_of g (W f d h) = bytes_of g h.
Proof. intros Hh (H1 & H2 & H3) [H4 H5]. unfold bytes_of, W. apply slice_splice_disjoint; lia. Qed.

Lemma bytes_u8 f d h : Forall in_u8 d → Forall in_u8 h → Forall in_u8 (W f d h).
Proof. intros Hd Hh. unfold W, splice. repeat apply Forall_app_2; [by apply Forall_take|done|by apply Forall_drop]. Qed.

Lemma octal_printed w v f format : 0 < w < 22 → in_u32 v → v < 8 ^ w → msize f = w + 1 →
  lit format = item_text (octal_item w v) ++ [0] →
  ∃ t, set_snprintf f format [Word v] = write f (t ++ [0]) ∧ zlen t = w ∧ Forall (λ c, 48 <= c <= 55) t ∧ octal_val t 0 = v.
Proof.
  intros Hw Hv Hlt Hf Hfmt. destruct (octal_text w v Hw Hv Hlt) as (H1 & H2 & H3). set (t := item_out (octal_item w v)) in *.
  exists t. split; [|done]. unfold set_snprintf, __printf. rewrite Hfmt.
  pose proof (printf_ok [octal_item w v] []) as Hp. cbn [fmap list_fmap concat app] in Hp. rewrite !app_nil_r in Hp.
  change (item_args (octal_item w v)) with [Word (u32 v)] in Hp. rewrite u32_small in Hp by done. rewrite Hp.
  - fold t. f_equal. unfold truncated. rewrite Hf, take_ge by (unfold zlen in H1; lia). f_equal.
    rewrite <- (list_fmap_id t) at 2. apply list_fmap_ext. intros i c Hc. rewrite Forall_lookup in H2. apply H2 in Hc. cbv beta in Hc.
    apply u8_small. unfold id, in_u8. lia.
  - apply Forall_singleton. split; [|split; [apply list_elem_of_In; cbn; tauto|done]].
    split; [|by split]. split; [by apply Forall_singleton|]. cbn [sp_width sp_precision number_ok]. split; [lia|]. by split.
Qed.

(** A name that fits, with its null and the zeros after it. *)
Lemma name_bytes name : zlen name <= 99 →
  bytes_of h_name (W h_name (name ++ [0]) (replicate 512 0)) = name ++ 0 :: replicate (99 - length name) 0.
Proof.
  intros Hn. unfold bytes_of, W, h_name, slice, splice, zlen in *. cbn [offset msize]. change (Z.to_nat 0) with O.
  rewrite drop_0, take_0, drop_replicate, length_app. cbn [app length Nat.add]. rewrite <- app_assoc. cbn [app].
  rewrite take_app_ge by (cbn; lia). f_equal. replace (Z.to_nat 100 - length name)%nat with (S (99 - length name)) by lia.
  cbn [take]. f_equal. rewrite take_replicate. f_equal. lia.
Qed.

(** What ustar_parse_header() looks at. *)
Record members (h : header) (name : list Z) (type size : Z) : Prop := {
  mb_len : zlen h = 512;
  mb_u8 : Forall in_u8 h;
  mb_name : bytes_of h_name h = name ++ 0 :: replicate (99 - length name) 0;
  mb_size : ∃ t, bytes_of h_size h = t ++ [0] ∧ zlen t = 11 ∧ Forall (λ c, 48 <= c <= 55) t ∧ octal_val t 0 = size;
  mb_type : bytes_of h_typeflag h = [type];
  mb_magic : bytes_of h_magic h = lit "ustar";
  mb_version : bytes_of h_version h = chars "00";
  mb_prefix : bytes_of h_prefix h = replicate 155 0
}.

Lemma fits_vm f d : (zlen d <=? msize f) && (0 <=? offset f) && (offset f + msize f <=? 512) = true → fits f d.
Proof. intros H. bool_hyps. done. Qed.

(** The writes of each member. *)
Ltac solve_fits := first
  [ assumption
  | by apply fits_vm
  | match goal with |- fits ?f (?t ++ [0]) => unfold fits; rewrite zlen_app; change (zlen [0]) with 1; cbn [offset msize f]; lia end ].
Ltac solve_len := repeat (apply zlen_W; [|solve_fits]); done.
Ltac skip_writes := repeat (rewrite bytes_apart; [|solve_len|solve_fits|split; cbn; lia]).

Lemma u8_octal t : Forall (λ c, 48 <= c <= 55) t → Forall in_u8 (t ++ [0]).
Proof.
  intros Ht. apply Forall_app. split; [|by apply Forall_singleton]. eapply Forall_impl; [exact Ht|]. intros c Hc. cbv beta in Hc. unfold in_u8. lia.
Qed.

Lemma make_members name type size h : zlen h = 512 → Forall in_u8 name → zlen name <= 99 → social name →
  type = USTAR_REGULAR ∨ type = USTAR_DIRECTORY → 0 <= size < 2147483648 →
  ∃ h0, members h0 name type size ∧
    ustar_make_header name type size h = (set_snprintf h_chksum "%07o" [Word (calculate_chksum h0)];;; ret true) h0.
Proof.
  intros Hh Hn Hlen Hso Hty Hsz. unfold ustar_make_header.
  rewrite bind_assert by (destruct Hty as [-> | ->]; done). rewrite strip_id by done. cbv zeta.
  rewrite Z.gtb_ltb, (proj2 (Z.ltb_ge 99 (zlen name))) by lia. rewrite bind_modify.
  assert (length h = 512%nat) as -> by (unfold zlen in Hh; lia).
  set (mode := if type =? USTAR_REGULAR then 420 else 493).
  destruct (octal_printed 7 mode h_mode "%07o") as (tm & -> & Hm1 & Hm2 & _); [lia|unfold mode, in_u32; case_match; lia|unfold mode; case_match; lia|done|done|].
  destruct (octal_printed 11 (u32 size) h_size "%011o") as (ts & -> & Hs1 & Hs2 & Hs3);
    [lia|apply u32_range|pose proof (u32_range size); unfold in_u32 in *; lia|done|done|]. rewrite u32_small in Hs3 by (unfold in_u32; lia).
  destruct (octal_printed 11 1136102400 h_mtime "%011o") as (tt' & -> & Ht1 & Ht2 & _); [lia|unfold in_u32; lia|lia|done|done|].
  unfold set_strlcpy. cbn [msize h_name h_uid h_gid h_magic h_gname h_uname].
  replace (take (Z.to_nat (100 - 1)) name) with name by (symmetry; apply take_ge; unfold zlen in *; lia).
  assert (fits h_name (name ++ [0])) as Hf by solve_fits.
  assert (u8 type = type) as -> by (destruct Hty as [-> | ->]; done).
  repeat (rewrite write_ok; [|solve_len|solve_fits]). rewrite bind_get.
  match goal with |- ∃ h0, _ ∧ _ ?h1 = _ => exists h1 end. split; [|done].
  split.
  - solve_len.
  - repeat apply bytes_u8; try (apply Forall_replicate; unfold in_u8; lia); try (by apply u8_octal).
    all: try (by apply Forall_app; split; [|by apply Forall_singleton]).
    all: try (by destruct Hty as [-> | ->]; apply Forall_singleton).
    all: by repeat constructor.
  - skip_writes. by apply name_bytes.
  - exists ts. split; [|done]. skip_writes. apply bytes_same; [solve_len|solve_fits|]. rewrite zlen_app, Hs1. done.
  - skip_writes. apply bytes_same; [solve_len|solve_fits|done].
  - skip_writes. apply bytes_same; [solve_len|solve_fits|done].
  - skip_writes. apply bytes_same; [solve_len|solve_fits|done].
  - skip_writes. done.
Qed.

Lemma members_chksum h name type size d : members h name type size → zlen d = 8 → Forall in_u8 d →
  members (W h_chksum d h) name type size ∧ bytes_of h_chksum (W h_chksum d h) = d ∧ calculate_chksum (W h_chksum d h) = calculate_chksum h.
Proof.
  intros [Hl Hu Hn Hs Ht Hm Hv Hp] Hd Hdu. assert (fits h_chksum d) as Hf by (unfold fits; cbn; lia).
  assert (∀ g, apart h_chksum g → bytes_of g (W h_chksum d h) = bytes_of g h) as Hap by (intros g; by apply bytes_apart).
  split; [|split].
  - split; [by apply zlen_W|by apply bytes_u8|..]; by rewrite Hap by (split; cbn; lia).
  - by apply bytes_same.
  - rewrite !calculate_sum by (done || by apply zlen_W || by apply bytes_u8).
    assert (zlen (W h_chksum d h) = 512) as Hl' by (by apply zlen_W). unfold zlen in *.
    apply chk_sum_ext; [lia|]. intros k Hk. unfold W. rewrite lookup_splice by (unfold zlen; cbn; lia).
    rewrite decide_False; [done|]. unfold in_chksum in Hk. cbn [offset msize h_chksum] in *.
    intros Hr. apply andb_false_iff in Hk. lia.
Qed.

Lemma all_zeros_elem h b : is_all_zeros h = true → b ∈ h → b = 0.
Proof.
  induction h as [|c h IH]; intros Hz Hb; [by apply not_elem_of_nil in Hb|]. cbn [is_all_zeros] in Hz.
  destruct (Z.eqb_spec c 0); cbn [negb] in Hz; [|done]. apply elem_of_cons in Hb as [->|Hb]; [done|by apply IH].
Qed.

Lemma all_zeros_slice h f b : is_all_zeros h = true → b ∈ bytes_of f h → b = 0.
Proof.
  intros Hz Hb. apply (all_zeros_elem h); [done|]. unfold bytes_of, slice in Hb. apply list_elem_of_lookup_1 in Hb as [i Hi].
  apply lookup_take_Some in Hi as [Hi _]. rewrite lookup_drop in Hi. by apply list_elem_of_lookup_2 in Hi.
Qed.

Lemma string_at_name name r : Forall (λ c, c ≠ 0) name → string_at (name ++ 0 :: r) = name.
Proof.
  induction 1 as [|c name Hc _ IH]; [done|]. cbn [app string_at]. rewrite (proj2 (Z.eqb_neq c 0) Hc). by rewrite IH.
Qed.

Lemma parse_members h name type size t r : members h name type size → social name → Forall (λ c, c ≠ 0) name →
  type = USTAR_REGULAR ∨ type = USTAR_DIRECTORY → 0 <= size < 2147483648 →
  bytes_of h_chksum h = t ++ 0 :: r → Forall (λ c, 48 <= c <= 55) t → 0 < zlen t → octal_val t 0 = calculate_chksum h →
  ustar_parse_header h = Header (Some name) type (if type =? USTAR_REGULAR then size else 0).
Proof.
  intros [Hl Hu Hn (ts & Hs & Hs1 & Hs2 & Hs3) Ht Hm Hv Hp] Hso Hnz Hty Hsz Hc Hc1 Hc2 Hc3. unfold ustar_parse_header.
  assert (is_all_zeros h = false) as ->.
  { apply not_true_is_false. intros Hz. assert (117 = 0); [|lia]. apply (all_zeros_slice h h_magic); [done|]. rewrite Hm. by left. }
  rewrite Hm, Hv, Hc, Ht, Hn, Hp, Hs. rewrite !bool_decide_eq_true_2 by done. cbn [negb].
  assert (in_u32 (calculate_chksum h)) as Hcs.
  { rewrite calculate_sum by done. pose proof (chk_sum_bounds h 0 Hu). unfold in_u32. lia. }
  unfold parse_octal_field. rewrite parse_octal_run by (done || lia || (rewrite Hc3; apply Hcs)). rewrite Hc3, Z.eqb_refl. cbn [negb].
  rewrite bool_decide_eq_true_2 by (by rewrite (replicate_S_end _ _ : 0 :: replicate _ 0 = _), app_assoc, last_snoc).
  rewrite (bool_decide_eq_true_2 (head (replicate 155 0) = Some 0)) by done. cbn [negb orb].
  assert (type = USTAR_REGULAR ∧ (type =? USTAR_REGULAR) = true ∨ (type =? USTAR_DIRECTORY) = true ∧ (type =? USTAR_REGULAR) = false) as Hcase
    by (destruct Hty as [-> | ->]; auto).
  change (default 0 (head [type])) with type. rewrite string_at_name, strip_id by done. destruct Hcase as [[_ E]|[E1 E2]].
  - rewrite E. cbn [negb andb]. rewrite (parse_octal_run ts []) by (done || lia). rewrite Hs3, Z.gtb_ltb, (proj2 (Z.ltb_ge 2147483647 size)) by lia. done.
  - by rewrite E1, E2.
Qed.

Lemma after_slash_forall (P : Z → Prop) l : Forall P l → Forall P (after_slash l).
Proof. induction 1 as [|c l Hc Hl IH]; cbn [after_slash]; [done|]. by case_match. Qed.

Lemma strip_forall (P : Z → Prop) name : P 46 → Forall P name → Forall P (strip_antisocial_prefixes name).
Proof.
  intros Hd Hn. unfold strip_antisocial_prefixes. case_match; [by repeat constructor|].
  generalize (length name). intros n. clear -Hn. revert name Hn. induction n as [|n IH]; intros name Hn; cbn [strip_loop]; [done|].
  case_match; [|done]. by apply IH, after_slash_forall.
Qed.

Lemma make_strip name type size h : ustar_make_header (strip_antisocial_prefixes name) type size h = ustar_make_header name type size h.
Proof. unfold ustar_make_header. by rewrite (strip_id _ (strip_social name)). Qed.

(** What an accepted header has. *)
Lemma parse_accepts h name type size : ustar_parse_header h = Header (Some name) type size →
  bytes_of h_magic h = lit "ustar" ∧ parse_octal_field (bytes_of h_chksum h) = Some (calculate_chksum h) ∧
  name = strip_antisocial_prefixes (string_at (bytes_of h_name h)) ∧
  (type = USTAR_REGULAR ∨ type = USTAR_DIRECTORY) ∧ size <= 2147483647.
Proof.
  unfold ustar_parse_header. destruct (is_all_zeros h); [done|]. case_bool_decide as Hm; [|done]. case_bool_decide; [|done]. cbn [negb].
  destruct (parse_octal_field (bytes_of h_chksum h)) as [c|]; [|done]. destruct (Z.eqb_spec c (calculate_chksum h)) as [->|]; [|done]. cbn [negb].
  case_match; [done|]. destruct (Z.eqb_spec (default 0 (head (bytes_of h_typeflag h))) USTAR_REGULAR) as [Er|Er]; cbn [negb andb].
  - destruct (parse_octal_field (bytes_of h_size h)) as [z|]; [|done]. destruct (z >? 2147483647) eqn:Ez; [done|].
    intros [= <- <- <-]. do 3 (split; [done|]). split; [by left|lia].
  - destruct (Z.eqb_spec (default 0 (head (bytes_of h_typeflag h))) USTAR_DIRECTORY) as [Ed|Ed]; [|done]. cbn [negb].
    intros [= <- <- <-]. do 3 (split; [done|]). split; [by right|lia].
Qed.

Lemma parse_end h type size : ustar_parse_header h = Header None type size → is_all_zeros h = true.
Proof. unfold ustar_parse_header. destruct (is_all_zeros h); [done|]. repeat case_match; done. Qed.

(** A header for a name that fits. *)
Lemma make_header_ok name type size h :
  zlen h = USTAR_HEADER_SIZE → Forall (λ c, 0 < c < 256) name →
  type = USTAR_REGULAR ∨ type = USTAR_DIRECTORY → 0 <= size < 2147483648 →
  zlen (strip_antisocial_prefixes name) <= 99 →
  ∃ h', ustar_make_header name type size h = Ok (true, h') ∧ zlen h' = USTAR_HEADER_SIZE ∧ Forall in_u8 h' ∧
    ustar_parse_header h' = Header (Some (strip_antisocial_prefixes name)) type (if type =? USTAR_REGULAR then size else 0).
Proof.
  intros Hh Hn Hty Hsz Elen. pose proof (strip_social name) as Hso. rewrite <- make_strip. set (name' := strip_antisocial_prefixes name) in *.
  assert (Forall (λ c, 0 < c < 256) name') as Hn' by (by apply strip_forall; [lia|]).
  assert (Forall in_u8 name') as Hu by (eapply Forall_impl; [exact Hn'|]; intros c Hc; cbv beta in Hc; unfold in_u8; lia).
  destruct (make_members name' type size h Hh Hu ltac:(lia) Hso Hty Hsz) as (h0 & Hm & ->).
  pose proof (chk_sum_bounds h0 0 (mb_u8 _ _ _ _ Hm)) as Hb. rewrite (mb_len _ _ _ _ Hm) in Hb.
  rewrite <- calculate_sum in Hb by apply Hm. set (c := calculate_chksum h0) in *.
  destruct (octal_printed 7 c h_chksum "%07o") as (t & -> & Ht1 & Ht2 & Ht3); [lia|unfold in_u32; lia|lia|done|done|].
  assert (zlen (t ++ [0]) = 8) as Hd by (by rewrite zlen_app, Ht1).
  rewrite write_ok by (apply Hm || (unfold fits; rewrite Hd; cbn; lia)). eexists. split; [done|].
  destruct (members_chksum h0 name' type size (t ++ [0]) Hm Hd (u8_octal t Ht2)) as (Hm' & Hc & Hcs).
  split; [apply Hm'|]. split; [apply Hm'|]. apply (parse_members _ name' type size t []); try done; [|lia|by rewrite Hcs].
  eapply Forall_impl; [exact Hn'|]. intros x Hx. cbv beta in Hx. lia.
Qed.

(** ** Properties *)

(** C34. Archive headers round-trip: for every file name, for either type and
    every size, ustar_make_header() fails exactly when the name stripped of
    dangerous prefixes has more than 99 characters, and otherwise fills the 512
    bytes with a header from which ustar_parse_header() reads back the stripped
    name, the type, and the size of a regular file. *)
Theorem ustar_roundtrip name type size h :
  zlen h = USTAR_HEADER_SIZE → Forall (λ c, 0 < c < 256) name →
  type = USTAR_REGULAR ∨ type = USTAR_DIRECTORY → 0 <= size < 2147483648 →
  let name' := strip_antisocial_prefixes name in
  if zlen name' >? 99 then ustar_make_header name type size h = Ok (false, h)
  else ∃ h', ustar_make_header name type size h = Ok (true, h') ∧ zlen h' = USTAR_HEADER_SIZE ∧ Forall in_u8 h' ∧
         ustar_parse_header h' = Header (Some name') type (if type =? USTAR_REGULAR then size else 0).
Proof.
  intros Hh Hn Hty Hsz name'. destruct (zlen name' >? 99) eqn:Elen.
  { rewrite <- make_strip. unfold ustar_make_header. rewrite bind_assert by (destruct Hty as [-> | ->]; done).
    rewrite strip_id by apply strip_social. by fold name'; rewrite Elen. }
  apply make_header_ok; (done || fold name'; lia).
Qed.

(** The extractor accepts no dangerous name and no damaged header: the name
    ustar_parse_header() returns is not empty, is not ".." and starts with none
    of "/", "./" and "../"; the type and the size are in range; and when any one
    byte outside the checksum of an accepted header is changed, the header is
    rejected with an error message. *)
Theorem ustar_rejects h name type size :
  zlen h = USTAR_HEADER_SIZE → Forall in_u8 h → ustar_parse_header h = Header (Some name) type size →
  social name ∧ (type = USTAR_REGULAR ∨ type = USTAR_DIRECTORY) ∧ size <= 2147483647 ∧
  ∀ k b b', h !! k = Some b → in_u8 b' → b' ≠ b → in_chksum (Z.of_nat k) = false →
    ∃ message, ustar_parse_header (<[k := b']> h) = Error message.
Proof.
  intros Hl Hu Hp. destruct (parse_accepts _ _ _ _ Hp) as (Hm & Hc & -> & Hty & Hsz).
  split; [apply strip_social|]. split; [done|]. split; [done|]. intros k b b' Hk Hb' Hne Hout.
  assert (calculate_chksum (<[k := b']> h) ≠ calculate_chksum h) as Hcs.
  { rewrite !calculate_sum by (done || (unfold zlen; by rewrite length_insert) || by apply Forall_insert).
    rewrite (chk_sum_insert h 0 k b b') by done. lia. }
  assert (bytes_of h_chksum (<[k := b']> h) = bytes_of h_chksum h) as Ec.
  { unfold bytes_of, slice. unfold in_chksum in Hout. cbn [offset msize h_chksum] in *. apply andb_false_iff in Hout.
    destruct (decide (k < 148)%nat); [by rewrite drop_insert_lt by lia|]. rewrite drop_insert_ge by lia. rewrite take_insert_ge by lia. done. }
  destruct (ustar_parse_header (<[k := b']> h)) as [message|n' t' s'] eqn:E; [by eexists|].
  destruct n' as [n'|].
  - destruct (parse_accepts _ _ _ _ E) as (_ & Hc' & _). rewrite Ec, Hc in Hc'. by injection Hc' as Heq.
  - assert (is_all_zeros (<[k := b']> h) = true) as Hz by (by apply parse_end in E).
    assert (∀ i : nat, (i < 2)%nat → i ≠ (k - 257)%nat ∨ (k < 257)%nat → <[k := b']> h !! (257 + i)%nat = lit "ustar" !! i) as Hmg.
    { intros i Hi Hik. rewrite list_lookup_insert_ne by lia. rewrite <- Hm. unfold bytes_of. symmetry. apply lookup_slice; cbn; lia. }
    destruct (decide (k = 257)%nat) as [->|Hk']; [pose proof (Hmg 1%nat ltac:(lia) ltac:(lia)) as H1|pose proof (Hmg 0%nat ltac:(lia) ltac:(lia)) as H1];
      apply list_elem_of_lookup_2 in H1; by apply (all_zeros_elem _ _ Hz) in H1.
Qed.

Definition demo_archive_name : list Z := chars "../../etc/./passwd".

Lemma ustar_roundtrip_witness :
  ∃ h', ustar_make_header demo_archive_name USTAR_REGULAR 123456 (replicate 512 85) = Ok (true, h') ∧
    ustar_parse_header h' = Header (Some (chars "etc/./passwd")) USTAR_REGULAR 123456.
Proof.
  destruct (ustar_roundtrip demo_archive_name USTAR_REGULAR 123456 (replicate 512 85)) as (h' & H1 & _ & _ & H2);
    [reflexivity|by repeat constructor|by left|lia|]. exists h'. exact (conj H1 H2).
Defined.

(** The header of an empty directory, and the same with a bit of its name
    flipped. *)
Definition demo_header : header :=
  match ustar_make_header (chars "/home") USTAR_DIRECTORY 0 (replicate 512 0) with Ok (_, h) => h | _ => [] end.
Lemma demo_header_bytes : Forall in_u8 demo_header.
Proof.
  apply Forall_forall. intros b Hb. assert (forallb (λ b, (0 <=? b) && (b <? 256)) demo_header = true) as H by (vm_compute; reflexivity).
  rewrite forallb_forall in H. apply list_elem_of_In, H in Hb. unfold in_u8. lia.
Qed.

Lemma ustar_rejects_witness :
  social (chars "home") ∧ ∃ message, ustar_parse_header (<[0%nat := 105]> demo_header) = Error message.
Proof.
  assert (Hp : ustar_parse_header demo_header = Header (Some (chars "home")) USTAR_DIRECTORY 0) by (vm_compute; reflexivity).
  destruct (ustar_rejects demo_header (chars "home") USTAR_DIRECTORY 0 ltac:(vm_compute; reflexivity) demo_header_bytes Hp) as (H1 & _ & _ & H2).
  split; [exact H1|]. apply (H2 0%nat 104 105); [vm_compute; reflexivity|unfold in_u8; lia|lia|reflexivity].
Defined.

End Ustar.
