(* ===== verification/Partition.v ===== *)
(** * Partition: partition tables (devices/partition.c)

    The state is the list of registered block devices and the console.  A device
    is reached through its driver's operations: those of a disk, whose sectors
    are in the state, or those of partition.c, which read and write another
    device at an offset.  A device is named by its position in the list, as in
    [Block].

    The theorems: scanning a disk without an extended partition registers
    exactly the partitions of its table that lie inside it, under their numbers;
    a partition is a window on the disk, for reads and writes; and scanning a
    disk with an extended partition does not end, because the table is always
    read from sector 0. *)

From Stdlib Require Import ZArith Lia Ascii.
From stdpp Require Import base tactics option list numbers strings.
From S2P Require Import Prelude Sched Synch Block Stdio StdioSpec.
Import Sched Synch Block Stdio StdioSpec.

Module Partition.

(** ** Devices behind operations *)

(** The operations of a driver with its private data: a disk, or struct
    partition. *)
Inductive operations := Disk (sectors : list (list Z)) | Part (blk start : Z).

Record dev := mk_dev {
  d_name : list Z;
  d_type : block_type;
  d_size : Z;
  d_ops : operations;
  d_reads : Z;
  d_writes : Z
}.

Record pstate := mk_pstate { pk : kernel; devs : list dev; con : list Z }.

#[global, program] Instance pstate_kernel : Kernel pstate := {|
  kget := pk;
  kset := λ k s, mk_pstate k (devs s) (con s)
|}.
Next Obligation. done. Qed.
Next Obligation. by intros []. Qed.
Next Obligation. done. Qed.

Definition set_devs (f : list dev → list dev) (s : pstate) : pstate := mk_pstate (pk s) (f (devs s)) (con s).

(** printf() to the console; formats that end in a newline. *)
Definition pr (format : list Z) (args : list arg) : M pstate unit :=
  lift con (λ c s, mk_pstate (pk s) (devs s) c) (__printf format args).
Definition line (s : string) : list Z := chars s ++ [10; 0].

Definition dev_at (b : Z) : M pstate dev :=
  let* s := get in if b <? 0 then fault else deref (devs s !! Z.to_nat b).

(** [block->read_cnt++] and [block->write_cnt++]. *)
Definition count_read (b : Z) : M pstate unit :=
  let* d := dev_at b in
  modify (set_devs <[Z.to_nat b := mk_dev (d_name d) (d_type d) (d_size d) (d_ops d) (u64 (d_reads d + 1)) (d_writes d)]>).
Definition count_write (b : Z) : M pstate unit :=
  let* d := dev_at b in
  modify (set_devs <[Z.to_nat b := mk_dev (d_name d) (d_type d) (d_size d) (d_ops d) (d_reads d) (u64 (d_writes d + 1))]>).

(** block_read() and block_write(), with partition_read() and partition_write()
    where the operations are those of a partition.  [n] bounds the chain of
    partitions of partitions. *)
Fixpoint read_through (n : nat) (b sector : Z) : M pstate (list Z) :=
  let* d := dev_at b in
  if sector >=? d_size d then panic
  else
    let* data :=
      match d_ops d with
      | Disk sectors => deref (sectors !! Z.to_nat sector)
      | Part blk start => match n with O => no_fuel | S n => read_through n blk (u32 (start + sector)) end
      end in
    count_read b;;;
    ret data.

Fixpoint write_through (n : nat) (b sector : Z) (data : list Z) : M pstate unit :=
  let* d := dev_at b in
  if sector >=? d_size d then panic
  else
    assert (negb (bool_decide (d_type d = BLOCK_FOREIGN)));;;
    match d_ops d with
    | Disk sectors =>
        let* _ := deref (sectors !! Z.to_nat sector) in
        modify (set_devs <[Z.to_nat b := mk_dev (d_name d) (d_type d) (d_size d)
          (Disk (<[Z.to_nat sector := data]> sectors)) (d_reads d) (d_writes d)]>)
    | Part blk start => match n with O => no_fuel | S n => write_through n blk (u32 (start + sector)) data end
    end;;;
    count_write b.

(** A partition's device is registered before the partition. *)
Definition dev_read (b sector : Z) : M pstate (list Z) :=
  let* s := get in read_through (length (devs s)) b sector.
Definition dev_write (b sector : Z) (data : list Z) : M pstate unit :=
  let* s := get in write_through (length (devs s)) b sector data.
Definition dev_size (b : Z) : M pstate Z := let* d := dev_at b in ret (d_size d).
Definition dev_name (b : Z) : M pstate (list Z) := let* d := dev_at b in ret (d_name d).

(** What printf() and the size routine print of a string argument. *)
Definition str (t : list Z) : arg := Str (t ++ [0]).

Definition register (name : list Z) (type : block_type) (extra_info : option (list Z)) (size : Z) (ops : operations) : M pstate Z :=
  let* ok := malloc_ok in
  if negb ok then panic
  else
    let* s := get in
    let name := take 15 name in
    modify (set_devs (λ l, l ++ [mk_dev name type size ops 0 0]));;;
    pr (lit "%s: %'u sectors (") [str name; Word size];;;
    lift con (λ c s, mk_pstate (pk s) (devs s) c) (print_human_readable_size (size * BLOCK_SECTOR_SIZE));;;
    pr (lit ")") [];;;
    match extra_info with Some e => pr (lit ", %s") [str e] | None => ret tt end;;;
    pr [10; 0] [];;;
    ret (zlen (devs s)).

(** ** Partition tables *)

Record partition_table_entry := mk_entry {
  bootable : Z;
  start_chs : list Z;
  etype : Z;
  end_chs : list Z;
  eoffset : Z;
  esize : Z
}.

(** struct partition_table in a sector. *)
Definition table_entry (pt : list Z) (i : Z) : partition_table_entry :=
  let e := slice (446 + 16 * i) 16 pt in
  mk_entry (le_val (slice 0 1 e)) (slice 1 3 e) (le_val (slice 4 1 e)) (slice 5 3 e) (le_val (slice 8 4 e)) (le_val (slice 12 4 e)).
Definition partitions (pt : list Z) : list partition_table_entry := table_entry pt <$> [0; 1; 2; 3].
Definition signature (pt : list Z) : Z := le_val (slice 510 2 pt).

Definition type_names : list (Z * string) := [
    (0, "Empty"); (1, "FAT12"); (2, "XENIX root"); (3, "XENIX usr"); (4, "FAT16 <32M"); (5, "Extended"); (6, "FAT16");
    (7, "HPFS/NTFS"); (8, "AIX"); (9, "AIX bootable"); (10, "OS/2 Boot Manager"); (11, "W95 FAT32");
    (12, "W95 FAT32 (LBA)"); (14, "W95 FAT16 (LBA)"); (15, "W95 Ext'd (LBA)"); (16, "OPUS"); (17, "Hidden FAT12");
    (18, "Compaq diagnostics"); (20, "Hidden FAT16 <32M"); (22, "Hidden FAT16"); (23, "Hidden HPFS/NTFS");
    (24, "AST SmartSleep"); (27, "Hidden W95 FAT32"); (28, "Hidden W95 FAT32 (LBA)"); (30, "Hidden W95 FAT16 (LBA)");
    (32, "Pintos OS kernel"); (33, "Pintos file system"); (34, "Pintos scratch"); (35, "Pintos swap"); (36, "NEC DOS");
    (57, "Plan 9"); (60, "PartitionMagic recovery"); (64, "Venix 80286"); (65, "PPC PReP Boot"); (66, "SFS");
    (77, "QNX4.x"); (78, "QNX4.x 2nd part"); (79, "QNX4.x 3rd part"); (80, "OnTrack DM"); (81, "OnTrack DM6 Aux1");
    (82, "CP/M"); (83, "OnTrack DM6 Aux3"); (84, "OnTrackDM6"); (85, "EZ-Drive"); (86, "Golden Bow");
    (92, "Priam Edisk"); (97, "SpeedStor"); (99, "GNU HURD or SysV"); (100, "Novell Netware 286");
    (101, "Novell Netware 386"); (112, "DiskSecure Multi-Boot"); (117, "PC/IX"); (128, "Old Minix");
    (129, "Minix / old Linux"); (130, "Linux swap / Solaris"); (131, "Linux"); (132, "OS/2 hidden C: drive");
    (133, "Linux extended"); (134, "NTFS volume set"); (135, "NTFS volume set"); (136, "Linux plaintext");
    (142, "Linux LVM"); (147, "Amoeba"); (148, "Amoeba BBT"); (159, "BSD/OS"); (160, "IBM Thinkpad hibernation");
    (165, "FreeBSD"); (166, "OpenBSD"); (167, "NeXTSTEP"); (168, "Darwin UFS"); (169, "NetBSD"); (171, "Darwin boot");
    (183, "BSDI fs"); (184, "BSDI swap"); (187, "Boot Wizard hidden"); (190, "Solaris boot"); (191, "Solaris");
    (193, "DRDOS/sec (FAT-12)"); (196, "DRDOS/sec (FAT-16 < 32M)"); (198, "DRDOS/sec (FAT-16)"); (199, "Syrinx");
    (218, "Non-FS data"); (219, "CP/M / CTOS / ..."); (222, "Dell Utility"); (223, "BootIt"); (225, "DOS access");
    (227, "DOS R/O"); (228, "SpeedStor"); (235, "BeOS fs"); (238, "EFI GPT"); (239, "EFI (FAT-12/16/32)");
    (240, "Linux/PA-RISC boot"); (241, "SpeedStor"); (244, "SpeedStor"); (242, "DOS secondary");
    (253, "Linux raid autodetect"); (254, "LANstep"); (255, "BBT")
].

Definition partition_type_name (type : Z) : string :=
  default "Unknown" (list_find (λ p, p.1 = type) type_names ≫= λ x, Some (x.2.2)).

Definition part_block_type (part_type : Z) : block_type :=
  if part_type =? 32 then BLOCK_KERNEL
  else if part_type =? 33 then BLOCK_FILESYS
  else if part_type =? 34 then BLOCK_SCRATCH
  else if part_type =? 35 then BLOCK_SWAP
  else BLOCK_FOREIGN.

(** snprintf() into a local array of [size] bytes: the string it then holds. *)
Definition sprint (size : Z) (format : string) (args : list arg) : M pstate (list Z) :=
  match __printf (lit format) args [] with
  | Ok (_, o) => ret (take (Z.to_nat (size - 1)) o)
  | Panic => panic
  | Fault => fault
  | Blocked _ _ | NoFuel => no_fuel
  end.

Definition found_partition (b part_type start size part_nr : Z) : M pstate unit :=
  let* bsz := dev_size b in
  let* bname := dev_name b in
  if start >=? bsz then
    pr (line "%s%d: Partition starts past end of device (sector %u)") [str bname; Word (u32 part_nr); Word start]
  else if (u32 (start + size) <? start) || (u32 (start + size) >? bsz) then
    pr (line "%s%d: Partition end (%u) past end of device (%u)")
      [str bname; Word (u32 part_nr); Word (u32 (start + size)); Word bsz]
  else
    let type := part_block_type part_type in
    let* ok := malloc_ok in
    if negb ok then panic
    else
      let* name := sprint 16 "%s%d" [str bname; Word (u32 part_nr)] in
      let* extra_info := sprint 128 "%s (%02x)" [str (chars (partition_type_name part_type)); Word part_type] in
      let* _ := register name type (Some extra_info) size (Part b start) in
      ret tt.

Definition extended (e : partition_table_entry) : bool :=
  (etype e =? 5) || (etype e =? 15) || (etype e =? 133) || (etype e =? 197).
Definition empty (e : partition_table_entry) : bool := (esize e =? 0) || (etype e =? 0).

Section table.
(** read_partition_table(), for the tables of extended partitions. *)
Context (read_table : Z → Z → Z → M pstate Z).
Context (b sector primary_extended_sector : Z).

(** The loop over the entries; the result is [*part_nr]. *)
Fixpoint entries_loop (l : list partition_table_entry) (part_nr : Z) : M pstate Z :=
  match l with
  | [] => ret part_nr
  | e :: l =>
      if empty e then entries_loop l part_nr
      else if extended e then
        let* bname := dev_name b in
        pr (line "%s: Extended partition in sector %u") [str bname; Word sector];;;
        let* part_nr :=
          (if sector =? 0 then read_table (eoffset e) (eoffset e) part_nr
           else read_table (u32 (eoffset e + primary_extended_sector)) primary_extended_sector part_nr) in
        entries_loop l part_nr
      else
        let part_nr := s32 (part_nr + 1) in
        found_partition b (etype e) (u32 (eoffset e + sector)) (esize e) part_nr;;;
        entries_loop l part_nr
  end.

(** One call of read_partition_table(). *)
Definition read_one_table (part_nr : Z) : M pstate Z :=
  let* bsz := dev_size b in
  let* bname := dev_name b in
  if sector >=? bsz then
    pr (line "%s: Partition table at sector %u past end of device.") [str bname; Word sector];;;
    ret part_nr
  else
    let* ok := malloc_ok in
    if negb ok then panic
    else
      let* pt := dev_read b 0 in
      if negb (signature pt =? 43605) then
        (if primary_extended_sector =? 0 then pr (line "%s: Invalid partition table signature") [str bname]
         else pr (line "%s: Invalid extended partition table in sector %u") [str bname; Word sector]);;;
        ret part_nr
      else entries_loop (partitions pt) part_nr.
End table.

(** [fuel] is the depth of the recursion. *)
Fixpoint read_partition_table (fuel : nat) (b sector primary_extended_sector part_nr : Z) : M pstate Z :=
  read_one_table
    (λ sector primary part_nr,
       match fuel with O => no_fuel | S fuel => read_partition_table fuel b sector primary part_nr end)
    b sector primary_extended_sector part_nr.

Definition partition_scan (fuel : nat) (b : Z) : M pstate unit :=
  let* part_nr := read_partition_table fuel b 0 0 0 in
  if part_nr =? 0 then
    let* bname := dev_name b in
    pr (line "%s: Device contains no partitions") [str bname]
  else ret tt.

(** ** Printing *)

Definition none : spec := mk_spec [] Absent Absent INT.
Definition i_s (t : list Z) : item := Text none (Some t).
Definition i_u (v : Z) : item := Unsigned none (chr "u") v.
Definition i_d (v : Z) : item := Signed none (chr "d") v.
Definition text (s : string) : list item := Plain <$> chars s.

Lemma none_ok : spec_ok none.
Proof. by split. Qed.
Lemma none_int_ok : int_spec_ok none.
Proof. split; [apply none_ok|by split]. Qed.

Definition plain (t : list Z) : bool := forallb (λ c, negb (c =? 0) && negb (c =? chr "%")) t.
Lemma plain_ok t : plain t = true → Forall item_ok (Plain <$> t).
Proof.
  intros Ht. apply Forall_fmap, Forall_forall. intros c Hc. unfold plain in Ht. rewrite forallb_forall in Ht.
  apply list_elem_of_In, Ht in Hc. unfold compose. cbn [item_ok]. bool_hyps. done.
Qed.

(** A list of items that prints. *)
Inductive printable : list item → Prop :=
| p_nil : printable []
| p_plain t l : plain t = true → printable l → printable ((Plain <$> t) ++ l)
| p_text t l : is_text t → printable l → printable (i_s t :: l)
| p_unsigned v l : in_u32 v → printable l → printable (i_u v :: l)
| p_signed v l : in_s32 v → printable l → printable (i_d v :: l)
| p_other i l : item_ok i → printable l → printable (i :: l).

Lemma printable_ok l : printable l → Forall item_ok l.
Proof.
  induction 1 as [|t l Ht _ IH|t l Ht _ IH|v l Hv _ IH|v l Hv _ IH|i l Hi _ IH]; [done| |..].
  - apply Forall_app. split; [by apply plain_ok|done].
  - constructor; [|done]. split; [apply none_ok|done].
  - constructor; [|done]. split; [apply none_int_ok|]. split; [apply list_elem_of_In; cbn; tauto|done].
  - constructor; [|done]. split; [apply none_int_ok|]. split; [by left|done].
  - by constructor.
Qed.

Definition with_con (c : list Z) (s : pstate) : pstate := mk_pstate (pk s) (devs s) c.

Lemma pr_ok its format args s : printable its → format = concat (item_text <$> its) ++ [0] → args = concat (item_args <$> its) →
  ∃ c, pr format args s = Ok (tt, with_con c s).
Proof.
  intros Hp -> ->. unfold pr, lift, __printf. rewrite printf_ok by (by apply printable_ok). by eexists.
Qed.

Lemma sprint_ok its size format args s : printable its → lit format = concat (item_text <$> its) ++ [0] → args = concat (item_args <$> its) →
  sprint size format args s = Ok (take (Z.to_nat (size - 1)) (concat (item_out <$> its)), s).
Proof. intros Hp Hf ->. unfold sprint, __printf. rewrite Hf, printf_ok by (by apply printable_ok). done. Qed.

Ltac printable := repeat first
  [ apply p_nil | apply p_text; [done|] | apply p_unsigned; [done|] | apply p_signed; [done|]
  | apply p_plain; [reflexivity|] ].

Lemma u32_id v : in_u32 v → u32 v = v.
Proof. apply u32_small. Qed.

(** The size of a device in words. *)
Lemma human_size size s : in_u64 size →
  ∃ c, lift con (λ c s, mk_pstate (pk s) (devs s) c) (print_human_readable_size size) s = Ok (tt, with_con c s).
Proof.
  intros Hs. unfold print_human_readable_size. destruct (size =? 1).
  { apply (pr_ok (text "1 byte" ++ [])); [printable|reflexivity|reflexivity]. }
  assert (∀ f fp, in_u64 (scale size f fp).1 ∧ ((scale size f fp).2 = f ∨ (scale size f fp).2 ∈ fp)) as Hsc.
  { intros f fp. revert size f Hs. induction fp as [|g fp IH]; intros size f Hs; cbn [scale]; [by auto|].
    destruct (size >=? 1024); [|by auto]. destruct (IH (size / 1024) g) as [H1 H2]; [unfold in_u64 in *; dlia|].
    split; [done|]. right. apply elem_of_cons. destruct H2; auto. }
  specialize (Hsc "bytes"%string (tail factors)). destruct (scale size "bytes" (tail factors)) as [z f]. cbn [fst snd] in Hsc. destruct Hsc as [Hz Hf].
  apply (pr_ok [Unsigned (mk_spec [] Absent Absent LONGLONG) (chr "u") z; Plain 32; i_s (chars f)]).
  - apply p_other; [split; [by split|]; split; [apply list_elem_of_In; cbn; tauto|done]|]. apply (p_plain [32]); [done|]. apply p_text; [|apply p_nil].
    assert (Forall (λ f, is_text (chars f)) ("bytes"%string :: tail factors)) as Hall
      by (repeat constructor; try done; by apply (bool_decide_eq_true_1 _)).
    rewrite Forall_forall in Hall. apply Hall, elem_of_cons. done.
  - reflexivity.
  - cbn [fmap list_fmap concat app item_args spec_args none i_s sp_width sp_precision sp_type number_args words_of]. unfold dword.
    rewrite (u64_small z) by done. done.
Qed.

(** ** Registering *)

Lemma malloc_true {B} s (k : bool → M pstate B) : k_mallocs (pk s) = [] → bind malloc_ok k s = k true s.
Proof. intros H. unfold malloc_ok. rewrite bind_assoc, bind_gets. cbn [kget pstate_kernel]. by rewrite H. Qed.

Lemma is_text_take n t : is_text t → is_text (take n t).
Proof.
  intros [H0 Hl]. split; [|unfold zlen in *; rewrite length_take; lia]. intros Hin. apply H0.
  apply list_elem_of_lookup_1 in Hin as [i Hi]. apply lookup_take_Some in Hi as [Hi _]. by apply list_elem_of_lookup_2 in Hi.
Qed.

Definition add_dev (d : dev) (c : list Z) (s : pstate) : pstate := mk_pstate (pk s) (devs s ++ [d]) c.

Lemma register_ok name type e size ops s : k_mallocs (pk s) = [] → is_text name → is_text e → in_u32 size →
  ∃ c, register name type (Some e) size ops s = Ok (zlen (devs s), add_dev (mk_dev (take 15 name) type size ops 0 0) c s).
Proof.
  intros Hm Hn He Hs. unfold register. rewrite malloc_true by done. cbn [negb]. rewrite bind_get, bind_modify. cbv zeta.
  set (d := mk_dev _ _ _ _ _ _). set (s1 := set_devs _ s). pose proof (is_text_take 15 name Hn) as Hn'.
  destruct (pr_ok (i_s (take 15 name) :: text ": " ++ Unsigned (mk_spec (chars "'") Absent Absent INT) (chr "u") size :: text " sectors (" ++ [])
    (lit "%s: %'u sectors (") [str (take 15 name); Word size] s1) as [c1 E1].
  { printable. apply p_other; [|printable]. split; [split; [split; [by apply Forall_singleton|by split]|by split]|]. split; [apply list_elem_of_In; cbn; tauto|done]. }
  { reflexivity. } { cbn [fmap list_fmap concat]. cbn. by rewrite u32_id. }
  rewrite (bind_ok _ _ _ _ _ E1).
  destruct (human_size (size * BLOCK_SECTOR_SIZE) (with_con c1 s1)) as [c2 E2]; [unfold in_u32, in_u64, BLOCK_SECTOR_SIZE in *; lia|].
  rewrite (bind_ok _ _ _ _ _ E2).
  destruct (pr_ok (text ")" ++ []) (lit ")") [] (with_con c2 (with_con c1 s1))) as [c3 E3]; [printable|reflexivity|reflexivity|].
  rewrite (bind_ok _ _ _ _ _ E3).
  destruct (pr_ok (text ", " ++ [i_s e]) (lit ", %s") [str e] (with_con c3 (with_con c2 (with_con c1 s1)))) as [c4 E4]; [printable|reflexivity|reflexivity|].
  rewrite (bind_ok _ _ _ _ _ E4).
  destruct (pr_ok [Plain 10] [10; 0] [] (with_con c4 (with_con c3 (with_con c2 (with_con c1 s1))))) as [c5 E5];
    [by apply (p_plain [10] []); [|apply p_nil]|reflexivity|reflexivity|].
  rewrite (bind_ok _ _ _ _ _ E5). exists c5. done.
Qed.

(** *** A partition found *)

Definition hex2 (v : Z) : item := Unsigned (mk_spec (chars "0") (Digits 2) Absent INT) (chr "x") v.

Lemma type_text_ok v : in_u8 v → is_text (chars (partition_type_name v)) ∧ is_text (take 127 (concat (item_out <$>
    (i_s (chars (partition_type_name v)) :: text " (" ++ hex2 v :: text ")" ++ [])))).
Proof.
  intros Hv. assert (v ∈ seqZ 0 256) as Hin by (apply elem_of_seqZ; unfold in_u8 in Hv; lia).
  assert (∀ t, forallb (λ c, negb (c =? 0)) t && (zlen t <? 200) = true → is_text t) as Hok.
  { intros t Ht. apply andb_true_iff in Ht as [Ht Hz]. split; [|lia]. rewrite forallb_forall in Ht. intros H0%list_elem_of_In%Ht. done. }
  assert (forallb (λ v, let t := chars (partition_type_name v) in
     let u := take 127 (concat (item_out <$> (i_s t :: text " (" ++ hex2 v :: text ")" ++ []))) in
     (forallb (λ c, negb (c =? 0)) t && (zlen t <? 200)) && (forallb (λ c, negb (c =? 0)) u && (zlen u <? 200))) (seqZ 0 256) = true) as Hall
    by (vm_compute; reflexivity).
  rewrite forallb_forall in Hall. apply list_elem_of_In, Hall in Hin. cbv zeta in Hin. apply andb_true_iff in Hin as [H1 H2]. split; by apply Hok.
Qed.

Lemma i_s_out t : item_out (i_s t) = t.
Proof.
  change (item_out (i_s t)) with (text_field (mk_conv 0 0 (-1) INT) t). unfold text_field. cbn [precision width flags].
  change (-1 <? 0) with true. change (has 0 MINUS) with false. cbv iota zeta. pose proof (zlen_nonneg t).
  by replace (Z.to_nat (0 - zlen t)) with O by lia.
Qed.

(** The number of a partition, as it is printed. *)
Lemma number_out nr : 1 <= nr <= 4 → item_out (i_d nr) = decimal nr ∧ is_text (decimal nr) ∧ zlen (decimal nr) = 1.
Proof.
  intros Hn. assert (nr ∈ seqZ 1 4) as Hin by (apply elem_of_seqZ; lia). clear Hn. revert nr Hin.
  apply (Forall_forall (λ nr, item_out (i_d nr) = decimal nr ∧ is_text (decimal nr) ∧ zlen (decimal nr) = 1)).
  repeat constructor; try reflexivity; try done; by apply (bool_decide_eq_true_1 _).
Qed.

Definition inside (d : dev) (start size : Z) : bool := (start <? d_size d) && (start + size <=? d_size d).
Definition part_dev (b : Z) (d : dev) (type start size nr : Z) : dev :=
  mk_dev (take 15 (d_name d ++ decimal nr)) (part_block_type type) size (Part b start) 0 0.

Lemma dev_at_ok {B} b d s (k : dev → M pstate B) : 0 <= b → devs s !! Z.to_nat b = Some d → bind (dev_at b) k s = k d s.
Proof.
  intros Hb Hd. unfold dev_at. rewrite bind_assoc, bind_get, (proj2 (Z.ltb_ge b 0)) by lia. by rewrite (bind_deref _ d).
Qed.

Lemma is_text_app t u : is_text t → is_text u → zlen t + zlen u < 2147483648 → is_text (t ++ u).
Proof. intros [H1 _] [H2 _] Hl. split; [by rewrite elem_of_app; intros [?|?]|by rewrite zlen_app]. Qed.

Lemma found_ok b d type start size nr s : 0 <= b → devs s !! Z.to_nat b = Some d → k_mallocs (pk s) = [] →
  is_text (d_name d) → zlen (d_name d) < 1000 → in_u32 (d_size d) → in_u8 type → in_u32 start → in_u32 size → 1 <= nr <= 4 →
  ∃ c, found_partition b type start size nr s =
    Ok (tt, mk_pstate (pk s) (devs s ++ if inside d start size then [part_dev b d type start size nr] else []) c).
Proof.
  intros Hb Hd Hm Hn Hn' Hsz Hty Hst Hsi Hnr. unfold found_partition, dev_size, dev_name.
  assert (in_s32 nr ∧ u32 nr = nr) as [Hnr1 Hnr2] by (split; [unfold in_s32; lia|apply u32_small; unfold in_u32; lia]).
  rewrite bind_assoc, (dev_at_ok b d), bind_ret, bind_assoc, (dev_at_ok b d), bind_ret by done.
  unfold inside. rewrite Z.geb_leb. destruct (Z.leb_spec (d_size d) start) as [Hge|Hlt].
  { rewrite (proj2 (Z.ltb_ge start (d_size d))) by lia. cbn [andb]. rewrite app_nil_r.
    apply (pr_ok (i_s (d_name d) :: i_d nr :: text ": Partition starts past end of device (sector " ++ i_u start :: text ")" ++ (Plain <$> [10]) ++ []));
      [printable|reflexivity|]. cbn [fmap list_fmap concat]. cbn. by rewrite (u32_id start). }
  rewrite (proj2 (Z.ltb_lt start (d_size d))) by lia. cbn [andb].
  assert ((u32 (start + size) <? start) || (u32 (start + size) >? d_size d) = negb (start + size <=? d_size d)) as ->.
  { unfold in_u32, u32 in *. apply eq_true_iff_eq. rewrite orb_true_iff, negb_true_iff. rewrite Z.gtb_ltb, Z.leb_gt, !Z.ltb_lt. dlia. }
  destruct (start + size <=? d_size d) eqn:Ein; cbn [negb].
  2:{ rewrite app_nil_r. pose proof (u32_range (start + size)) as Hr.
      apply (pr_ok (i_s (d_name d) :: i_d nr :: text ": Partition end (" ++ i_u (u32 (start + size)) :: text ") past end of device (" ++ i_u (d_size d) :: text ")" ++ (Plain <$> [10]) ++ []));
      [printable|reflexivity|]. cbn [fmap list_fmap concat]. cbn. by rewrite (u32_id (u32 (start + size))), (u32_id (d_size d)). }
  cbv zeta. rewrite malloc_true by done. cbn [negb]. destruct (number_out nr Hnr) as (En & Htn & Hzn). destruct (type_text_ok type Hty) as [Ht1 Ht2].
  rewrite (bind_ok _ _ _ _ _ (sprint_ok [i_s (d_name d); i_d nr] 16 "%s%d" [str (d_name d); Word (u32 nr)] s ltac:(printable) eq_refl eq_refl)).
  cbn [fmap list_fmap concat]. rewrite i_s_out, En, app_nil_r. change (Z.to_nat (16 - 1)) with 15%nat.
  assert (lit "%s (%02x)" = concat (item_text <$> (i_s (chars (partition_type_name type)) :: text " (" ++ hex2 type :: text ")" ++ [])) ++ [0]) as Ef by reflexivity.
  assert ([str (chars (partition_type_name type)); Word type] = concat (item_args <$> (i_s (chars (partition_type_name type)) :: text " (" ++ hex2 type :: text ")" ++ []))) as Ea
    by (cbn [fmap list_fmap concat]; cbn; by rewrite u32_id by (unfold in_u8, in_u32 in *; lia)).
  erewrite bind_ok; [|apply (sprint_ok _ 128 _ _ s) with (2 := Ef) (3 := Ea)].
  2:{ printable. apply p_other; [|printable]. split; [split; [split; [by apply Forall_singleton|by split]|by split]|].
      split; [apply list_elem_of_In; cbn; tauto|]. cbn. unfold in_u8, in_u32 in *. lia. }
  assert (is_text (take 15 (d_name d ++ decimal nr))) as Hname by (apply is_text_take, is_text_app; [done|done|lia]).
  destruct (register_ok (take 15 (d_name d ++ decimal nr)) (part_block_type type) _ size (Part b start) s Hm Hname Ht2 Hsi) as [c E].
  rewrite (bind_ok _ _ _ _ _ E). exists c. unfold add_dev, part_dev. rewrite take_take. done.
Qed.

(** ** Scanning *)

Definition word_ok (e : partition_table_entry) : Prop := in_u8 (etype e) ∧ in_u32 (eoffset e) ∧ in_u32 (esize e).

Lemma slice_val o n (l : list Z) : 0 <= o → 0 <= n → o + n <= zlen l → Forall in_u8 l → 0 <= le_val (slice o n l) < 256 ^ n.
Proof.
  intros Ho Hn Hl Hu. pose proof (le_val_u8 (slice o n l)) as H. pose proof (zlen_slice o n l Ho Hn Hl) as Hz. unfold zlen in Hz.
  rewrite Hz in H. apply H. unfold slice. by apply Forall_take, Forall_drop.
Qed.

Lemma partitions_ok pt : zlen pt = 512 → Forall in_u8 pt → Forall word_ok (partitions pt).
Proof.
  intros Hz Hu. unfold partitions. apply Forall_fmap, Forall_forall. intros i Hi.
  assert (0 <= i < 4) as Hi' by (rewrite !elem_of_cons in Hi; destruct Hi as [-> |[-> |[-> |[-> |Hi]]]]; try lia; by apply not_elem_of_nil in Hi).
  assert (zlen (slice (446 + 16 * i) 16 pt) = 16) as He by (apply zlen_slice; lia).
  assert (Forall in_u8 (slice (446 + 16 * i) 16 pt)) as Hue by (unfold slice; by apply Forall_take, Forall_drop).
  unfold compose, word_ok, table_entry, in_u8, in_u32. cbn [etype eoffset esize].
  split; [|split]; apply slice_val; (lia || done).
Qed.

(** What the table's entries register. *)
Fixpoint registered (b : Z) (d : dev) (l : list partition_table_entry) (nr : Z) : list dev :=
  match l with
  | [] => []
  | e :: l =>
      if empty e then registered b d l nr
      else (if inside d (eoffset e) (esize e) then [part_dev b d (etype e) (eoffset e) (esize e) (nr + 1)] else []) ++ registered b d l (nr + 1)
  end.

Lemma entries_ok rt b d pe l nr s : 0 <= b → devs s !! Z.to_nat b = Some d → k_mallocs (pk s) = [] →
  is_text (d_name d) → zlen (d_name d) < 1000 → in_u32 (d_size d) → Forall word_ok l → Forall (λ e, empty e || negb (extended e) = true) l →
  0 <= nr → nr + zlen l <= 4 →
  ∃ nr' c, entries_loop rt b 0 pe l nr s = Ok (nr', mk_pstate (pk s) (devs s ++ registered b d l nr) c).
Proof.
  intros Hb. revert nr s. induction l as [|e l IH]; intros nr s Hd Hm Hn Hn' Hsz Hw Hx Hnr Hlen; cbn [entries_loop registered].
  { exists nr, (con s). rewrite app_nil_r. by destruct s. }
  apply Forall_cons in Hw as [(Hty & Hof & Hsi) Hw]. apply Forall_cons in Hx as [Hex Hx].
  assert (zlen (e :: l) = zlen l + 1) as Ez by (unfold zlen; cbn [length]; lia). rewrite Ez in Hlen. pose proof (zlen_nonneg l).
  destruct (empty e) eqn:Ee; [apply IH; (done || lia)|]. cbn [orb] in Hex. apply negb_true_iff in Hex. rewrite Hex. cbv zeta.
  rewrite Z.add_0_r, u32_id, s32_small by (done || unfold in_s32; lia).
  destruct (found_ok b d (etype e) (eoffset e) (esize e) (nr + 1) s) as [c E]; [done..|lia|].
  rewrite (bind_ok _ _ _ _ _ E). destruct (IH (nr + 1) (mk_pstate (pk s) (devs s ++ if inside d (eoffset e) (esize e) then [part_dev b d (etype e) (eoffset e) (esize e) (nr + 1)] else []) c))
    as (nr' & c' & E'); [by apply lookup_app_l_Some|done..|lia|lia|].
  rewrite E'. exists nr', c'. cbn [pk devs]. by rewrite <- app_assoc.
Qed.

(** A read of a disk. *)
Definition counted (d : dev) : dev := mk_dev (d_name d) (d_type d) (d_size d) (d_ops d) (u64 (d_reads d + 1)) (d_writes d).

Lemma count_read_ok b d s : 0 <= b → devs s !! Z.to_nat b = Some d → count_read b s = Ok (tt, set_devs <[Z.to_nat b := counted d]> s).
Proof. intros Hb Hd. unfold count_read. by rewrite (dev_at_ok b d). Qed.

Lemma read_disk n b d sectors x data s : 0 <= b → devs s !! Z.to_nat b = Some d → d_ops d = Disk sectors → x < d_size d →
  sectors !! Z.to_nat x = Some data → read_through n b x s = Ok (data, set_devs <[Z.to_nat b := counted d]> s).
Proof.
  intros Hb Hd Ho Hx Hdata. destruct n; cbn [read_through]; rewrite (dev_at_ok b d), Z.geb_leb, (proj2 (Z.leb_gt (d_size d) x)), Ho by done;
    by rewrite (bind_deref _ data), (bind_ok _ _ _ _ _ (count_read_ok b d s Hb Hd)).
Qed.

Lemma registered_counted b d l nr : registered b (counted d) l nr = registered b d l nr.
Proof. revert nr. induction l as [|e l IH]; intros nr; cbn [registered]; [done|]. by rewrite !IH. Qed.

(** A disk with a partition table that has no extended partition. *)
Record plain_disk (s : pstate) (b : Z) (d : dev) (sectors : list (list Z)) (pt : list Z) : Prop := {
  pd_b : 0 <= b;
  pd_dev : devs s !! Z.to_nat b = Some d;
  pd_ops : d_ops d = Disk sectors;
  pd_size : d_size d = zlen sectors ∧ in_u32 (d_size d);
  pd_name : is_text (d_name d) ∧ zlen (d_name d) < 1000;
  pd_table : sectors !! 0%nat = Some pt;
  pd_bytes : zlen pt = 512 ∧ Forall in_u8 pt;
  pd_signature : signature pt = 43605;
  pd_memory : k_mallocs (pk s) = []
}.

Lemma scan_ok fuel s b d sectors pt : plain_disk s b d sectors pt →
  Forall (λ e, empty e || negb (extended e) = true) (partitions pt) →
  ∃ c, partition_scan fuel b s = Ok (tt, mk_pstate (pk s) (<[Z.to_nat b := counted d]> (devs s) ++ registered b d (partitions pt) 0) c).
Proof.
  intros [Hb Hd Ho [Hsz Hsz'] [Hn Hn'] Ht [Hz Hu] Hsig Hm] Hx. unfold partition_scan.
  assert (0 < d_size d) as Hpos by (apply lookup_lt_Some in Ht; unfold zlen in Hsz; lia).
  assert (∃ nr c, read_partition_table fuel b 0 0 0 s =
    Ok (nr, mk_pstate (pk s) (<[Z.to_nat b := counted d]> (devs s) ++ registered b d (partitions pt) 0) c)) as (nr & c & E).
  { assert (read_partition_table fuel b 0 0 0 s = read_one_table (λ sector primary part_nr,
       match fuel with O => no_fuel | S fuel => read_partition_table fuel b sector primary part_nr end) b 0 0 0 s) as -> by (by destruct fuel).
    unfold read_one_table, dev_size, dev_name. rewrite bind_assoc, (dev_at_ok b d), bind_ret, bind_assoc, (dev_at_ok b d), bind_ret by done.
    rewrite Z.geb_leb, (proj2 (Z.leb_gt (d_size d) 0)), malloc_true by done. cbn [negb]. unfold dev_read. rewrite bind_assoc, bind_get.
    rewrite (bind_ok _ _ _ _ _ (read_disk _ b d sectors 0 pt s Hb Hd Ho Hpos Ht)), Hsig. cbn [negb Z.eqb Pos.eqb].
    destruct (entries_ok (λ sector primary part_nr, match fuel with O => no_fuel | S fuel => read_partition_table fuel b sector primary part_nr end)
      b (counted d) 0 (partitions pt) 0 (set_devs <[Z.to_nat b := counted d]> s)) as (nr & c & E); [done| |done..|by apply partitions_ok|done|lia|unfold zlen; cbn; lia|].
    - cbn [set_devs devs]. apply list_lookup_insert_eq. by eapply lookup_lt_Some.
    - exists nr, c. rewrite E, registered_counted. done. }
  rewrite (bind_ok _ _ _ _ _ E). destruct (nr =? 0); [|by eexists]. unfold dev_name.
  rewrite bind_assoc, (dev_at_ok b (counted d)), bind_ret; [|done|].
  - destruct (pr_ok (i_s (d_name d) :: text ": Device contains no partitions" ++ (Plain <$> [10]) ++ []) (line "%s: Device contains no partitions") [str (d_name d)]
      (mk_pstate (pk s) (<[Z.to_nat b := counted d]> (devs s) ++ registered b d (partitions pt) 0) c)) as [c' E']; [printable|reflexivity|reflexivity|].
    exists c'. exact E'.
  - cbn [devs]. apply lookup_app_l_Some, list_lookup_insert_eq. by eapply lookup_lt_Some.
Qed.

(** ** A partition is a window on its disk *)

Lemma write_disk n b d sectors x data s : 0 <= b → devs s !! Z.to_nat b = Some d → d_ops d = Disk sectors → x < d_size d →
  d_type d ≠ BLOCK_FOREIGN → is_Some (sectors !! Z.to_nat x) →
  write_through n b x data s = Ok (tt, set_devs <[Z.to_nat b :=
    mk_dev (d_name d) (d_type d) (d_size d) (Disk (<[Z.to_nat x := data]> sectors)) (d_reads d) (u64 (d_writes d + 1))]> s).
Proof.
  intros Hb Hd Ho Hx Hty [old Hold].
  destruct n; cbn [write_through]; rewrite (dev_at_ok b d), Z.geb_leb, (proj2 (Z.leb_gt (d_size d) x)), bind_assert, Ho
    by (done || by rewrite bool_decide_eq_false_2);
    rewrite bind_assoc, (bind_deref _ old), bind_modify by done; unfold count_write;
    (erewrite (dev_at_ok b); [|done|cbn [set_devs devs]; apply list_lookup_insert_eq; by eapply lookup_lt_Some]);
    cbn [d_name d_type d_size d_ops d_reads d_writes]; unfold modify, set_devs; cbn [devs pk con]; by rewrite list_insert_insert_eq.
Qed.

(** Sector [x] of the partition is sector [start + x] of the disk: a read gives
    it and changes no sector, a write changes it and no other, unless the
    partition is not one of the system's own, which is read only; both panic
    past the size of the partition. *)
Definition window (s : pstate) (p : Z) (part : dev) (b : Z) (sectors : list (list Z)) (start : Z) : Prop :=
  (∀ x data, d_size part <= x → dev_read p x s = Panic ∧ dev_write p x data s = Panic) ∧
  (∀ x, 0 <= x < d_size part → ∃ data s', sectors !! Z.to_nat (start + x) = Some data ∧ dev_read p x s = Ok (data, s') ∧
     d_ops <$> devs s' = d_ops <$> devs s) ∧
  (∀ x data, 0 <= x < d_size part →
     if decide (d_type part = BLOCK_FOREIGN) then dev_write p x data s = Panic
     else ∃ s', dev_write p x data s = Ok (tt, s') ∧
       d_ops <$> devs s' = <[Z.to_nat b := Disk (<[Z.to_nat (start + x) := data]> sectors)]> (d_ops <$> devs s)).

(** Counting an access changes no operations. *)
Lemma same_ops (l : list dev) i d d' : l !! i = Some d → d_ops d' = d_ops d → d_ops <$> <[i := d']> l = d_ops <$> l.
Proof. intros Hl Ho. rewrite list_fmap_insert, Ho. apply list_insert_id. by rewrite list_lookup_fmap, Hl. Qed.

Lemma part_window s p part b d sectors start : 0 <= b → 0 <= p → p ≠ b → devs s !! Z.to_nat b = Some d → d_ops d = Disk sectors →
  d_size d = zlen sectors → in_u32 (d_size d) → d_type d ≠ BLOCK_FOREIGN →
  devs s !! Z.to_nat p = Some part → d_ops part = Part b start → 0 <= start → start + d_size part <= d_size d →
  window s p part b sectors start.
Proof.
  intros Hb Hp Hne Hd Ho Hsz Hsz' Hty Hpart Hpo Hst Hend.
  assert (∃ n, length (devs s) = S n) as [n Hn] by (apply lookup_lt_Some in Hd; destruct (length (devs s)) as [|n]; [lia|by exists n]).
  assert (∀ x, 0 <= x < d_size part → u32 (start + x) = start + x) as Hu by (intros x Hx; apply u32_small; unfold in_u32 in *; lia).
  assert (∀ x, 0 <= x < d_size part → is_Some (sectors !! Z.to_nat (start + x))) as Hin
    by (intros x Hx; apply lookup_lt_is_Some_2; unfold zlen in Hsz; lia).
  assert (Z.to_nat b ≠ Z.to_nat p) as Hnb by lia.
  split; [|split].
  - intros x data Hx. unfold dev_read, dev_write. rewrite !bind_get, Hn. cbn [read_through write_through].
    by rewrite !(dev_at_ok p part), !Z.geb_leb, !(proj2 (Z.leb_le _ _) Hx).
  - intros x Hx. destruct (Hin x Hx) as [data Hdata]. unfold dev_read. rewrite bind_get, Hn. cbn [read_through].
    rewrite (dev_at_ok p part), Z.geb_leb, (proj2 (Z.leb_gt (d_size part) x)), Hpo, Hu by (done || lia).
    rewrite (bind_ok _ _ _ _ _ (read_disk n b d sectors (start + x) data s Hb Hd Ho ltac:(lia) Hdata)).
    erewrite bind_ok; [|apply (count_read_ok p part); [done|cbn [set_devs devs]; by rewrite list_lookup_insert_ne]].
    eexists data, _. split; [done|]. split; [done|]. cbn [set_devs devs].
    rewrite (same_ops _ _ part), (same_ops _ _ d); [done|done|done|by rewrite list_lookup_insert_ne|done].
  - intros x data Hx. case_decide as Hpt; unfold dev_write; rewrite bind_get, Hn; cbn [write_through];
      rewrite (dev_at_ok p part), Z.geb_leb, (proj2 (Z.leb_gt (d_size part) x)) by (done || lia);
      [by rewrite bool_decide_eq_true_2|].
    rewrite bind_assert, Hpo, Hu by (done || by rewrite bool_decide_eq_false_2).
    rewrite (bind_ok _ _ _ _ _ (write_disk n b d sectors (start + x) data s Hb Hd Ho ltac:(lia) Hty (Hin x Hx))). unfold count_write.
    rewrite (dev_at_ok p part) by (done || (cbn [set_devs devs]; by rewrite list_lookup_insert_ne)).
    eexists _. split; [done|]. cbn [set_devs devs].
    rewrite (same_ops _ _ part); [by rewrite list_fmap_insert|by rewrite list_lookup_insert_ne|done].
Qed.

Lemma registered_inside b d l nr part : Forall word_ok l → part ∈ registered b d l nr →
  ∃ start, d_ops part = Part b start ∧ 0 <= start ∧ start + d_size part <= d_size d.
Proof.
  intros Hw. revert nr. induction Hw as [|e l (_ & Hof & _) _ IH]; intros nr; cbn [registered]; [by intros ?%not_elem_of_nil|].
  destruct (empty e); [apply IH|]. rewrite elem_of_app. intros [Hin|Hin]; [|by eapply IH].
  destruct (inside d (eoffset e) (esize e)) eqn:Ei; [|by apply not_elem_of_nil in Hin]. apply list_elem_of_singleton in Hin as ->.
  exists (eoffset e). split; [done|]. unfold in_u32 in Hof. unfold inside in Ei. apply andb_true_iff in Ei as [_ Ei%Z.leb_le]. cbn. lia.
Qed.

(** ** Properties *)

(** C33. Scanning a disk finds its partitions.  For every disk, registered as
    one the kernel may write (ide.c gives it the type BLOCK_RAW), whose first
    sector is a partition table without an extended partition, partition_scan()
    returns and registers, in order and numbered from 1, exactly the non-empty
    entries that lie inside the disk, with the name, type and size of each; and
    each of them is a window on the disk: sector [x] reads sector [start + x]
    of the disk, a write to it changes that sector and nothing else, except
    that a write to a partition of type BLOCK_FOREIGN panics, and reads and
    writes past the size of the partition panic. *)
Theorem partition_scan_finds fuel s b d sectors pt :
  plain_disk s b d sectors pt → d_type d ≠ BLOCK_FOREIGN →
  Forall (λ e, empty e || negb (extended e) = true) (partitions pt) →
  ∃ s', partition_scan fuel b s = Ok (tt, s') ∧
    devs s' = <[Z.to_nat b := counted d]> (devs s) ++ registered b d (partitions pt) 0 ∧
    ∀ p part, zlen (devs s) <= p → devs s' !! Z.to_nat p = Some part →
      ∃ start, d_ops part = Part b start ∧ 0 <= start ∧ start + d_size part <= d_size d ∧ window s' p part b sectors start.
Proof.
  intros Hpd Hty Hx. destruct (scan_ok fuel s b d sectors pt Hpd Hx) as [c E]. eexists. split; [exact E|]. split; [done|].
  destruct Hpd as [Hb Hd Ho [Hsz Hsz'] [Hn Hn'] Ht [Hz Hu] Hsig Hm]. cbn [devs]. intros p part Hp Hpart.
  pose proof (lookup_lt_Some _ _ _ Hd) as Hlt. pose proof (zlen_nonneg (devs s)).
  assert (part ∈ registered b d (partitions pt) 0) as Hin.
  { rewrite lookup_app_r in Hpart by (rewrite length_insert; unfold zlen in Hp; lia). by apply list_elem_of_lookup_2 in Hpart. }
  destruct (registered_inside b d (partitions pt) 0 part (partitions_ok pt Hz Hu) Hin) as (start & Hpo & Hst & Hend).
  exists start. do 3 (split; [done|]).
  apply (part_window _ p part b (counted d)); try done; [lia|unfold zlen in Hp; lia|]. cbn [devs].
  by apply lookup_app_l_Some, list_lookup_insert_eq.
Qed.

(** A table whose first entry in use is an extended partition. *)
Lemma extended_spins e pre post b pt n : partitions pt = pre ++ e :: post → Forall (λ e, empty e = true) pre → empty e = false → extended e = true →
  ∀ s d sectors sector primary nr, plain_disk s b d sectors pt → in_u32 (eoffset e) → eoffset e < d_size d → u32 (eoffset e + eoffset e) < d_size d →
  (sector = 0 ∨ (primary = eoffset e ∧ (sector = eoffset e ∨ sector = u32 (eoffset e + eoffset e)))) →
  read_partition_table n b sector primary nr s = NoFuel.
Proof.
  intros Hpt Hpre Hne Hex. induction n as [|n IH]; intros s d sectors sector primary nr Hpd He H1 H2 Hsec;
    cbn [read_partition_table]; unfold read_one_table, dev_size, dev_name; pose proof Hpd as [Hb Hd Ho [Hsz Hsz'] [Hn Hn'] Ht [Hz Hu] Hsig Hm].
  all: rewrite bind_assoc, (dev_at_ok b d), bind_ret, bind_assoc, (dev_at_ok b d), bind_ret by done.
  all: assert (0 <= sector < d_size d) as Hs by (pose proof (u32_range (eoffset e + eoffset e)); unfold in_u32 in *;
         destruct Hsec as [-> |[_ [-> | ->]]]; [apply lookup_lt_Some in Ht; unfold zlen in Hsz; lia|lia|lia]).
  all: rewrite Z.geb_leb, (proj2 (Z.leb_gt (d_size d) sector)), malloc_true by (done || lia); cbn [negb]; unfold dev_read; rewrite bind_assoc, bind_get.
  all: rewrite (bind_ok _ _ _ _ _ (read_disk _ b d sectors 0 pt s Hb Hd Ho ltac:(lia) Ht)), Hsig; cbn [negb Z.eqb Pos.eqb].
  all: set (s1 := set_devs <[Z.to_nat b := counted d]> s); rewrite Hpt.
  all: assert (∀ rt l nr, entries_loop rt b sector primary (pre ++ l) nr s1 = entries_loop rt b sector primary l nr s1) as ->
         by (intros rt l nr'; clear -Hpre; induction Hpre as [|e' pre He' _ IHp]; [done|]; cbn [app entries_loop]; by rewrite He').
  all: cbn [entries_loop]; rewrite Hne, Hex; unfold dev_name.
  all: assert (devs s1 !! Z.to_nat b = Some (counted d)) as Hd1 by (apply list_lookup_insert_eq; by eapply lookup_lt_Some).
  all: rewrite bind_assoc, (dev_at_ok b (counted d)), bind_ret by done.
  all: destruct (pr_ok (i_s (d_name d) :: text ": Extended partition in sector " ++ i_u sector :: (Plain <$> [10]) ++ [])
         (line "%s: Extended partition in sector %u") [str (d_name d); Word sector] s1) as [c E];
         [printable; apply p_unsigned; [unfold in_u32 in *; lia|printable]|reflexivity|cbn [fmap list_fmap concat]; cbn; by rewrite u32_id by (unfold in_u32 in *; lia)|].
  all: cbn [counted d_name]; rewrite (bind_ok _ _ _ _ _ E).
  - by destruct (sector =? 0).
  - assert (plain_disk (with_con c s1) b (counted d) sectors pt) as Hpd' by (by split).
    destruct (Z.eqb_spec sector 0) as [->|Hs0].
    + unfold bind. by rewrite (IH _ _ _ _ _ _ Hpd' He H1 H2) by auto.
    + destruct Hsec as [->|[-> _]]; [done|]. unfold bind. by rewrite (IH _ _ _ _ _ _ Hpd' He H1 H2) by auto.
Qed.

(** Scanning a disk with an extended partition does not end.
    read_partition_table() reads sector 0 again instead of the sector of the
    extended table, finds the same entry and calls itself: when the first entry
    in use is extended, and its sector and the one at twice that offset lie on
    the disk, partition_scan() does not return at any depth of recursion. *)
Theorem extended_never_returns fuel s b d sectors pt pre e post :
  plain_disk s b d sectors pt → partitions pt = pre ++ e :: post → Forall (λ e, empty e = true) pre →
  empty e = false → extended e = true → in_u32 (eoffset e) → eoffset e < d_size d → u32 (eoffset e + eoffset e) < d_size d →
  partition_scan fuel b s = NoFuel.
Proof.
  intros Hpd Hpt Hpre Hne Hex He H1 H2. unfold partition_scan, bind.
  rewrite (extended_spins e pre post b pt fuel Hpt Hpre Hne Hex s d sectors 0 0 0 Hpd He H1 H2 (or_introl eq_refl)). done.
Qed.

(** ** Examples *)

Definition entry_bytes (type start size : Z) : list Z := [0; 0; 0; 0; type; 0; 0; 0] ++ le_bytes 4 start ++ le_bytes 4 size.
Definition table_bytes (l : list (Z * Z * Z)) : list Z :=
  replicate 446 0 ++ concat ((λ e, let '(t, o, n) := e in entry_bytes t o n) <$> l) ++ [85; 170].

(** A disk of eight sectors: a file system, a hole, a Linux partition and a
    partition that is too long; and one with an extended partition. *)
Definition demo_table : list Z := table_bytes [(33, 1, 3); (0, 0, 0); (131, 4, 2); (34, 6, 9)].
Definition demo_extended : list Z := table_bytes [(0, 0, 0); (5, 2, 4); (33, 1, 1); (0, 0, 0)].
Definition demo_disk (pt : list Z) : list (list Z) := pt :: ((λ i, replicate 512 i) <$> seqZ 1 7).
Definition demo_dev (pt : list Z) : dev := mk_dev (chars "hda") BLOCK_RAW 8 (Disk (demo_disk pt)) 0 0.
Definition demo_pstate (pt : list Z) : pstate := mk_pstate (mk_kernel power_on ∅ []) [demo_dev pt] [].

Lemma demo_plain pt : zlen pt = 512 → Forall in_u8 pt → signature pt = 43605 →
  plain_disk (demo_pstate pt) 0 (demo_dev pt) (demo_disk pt) pt.
Proof.
  intros Hz Hu Hs. split; try done. split; [|done]. split; [|done]. by apply (bool_decide_eq_true_1 _).
Qed.

Lemma table_u8 l : forallb (λ b, (0 <=? b) && (b <? 256)) l = true → Forall in_u8 l.
Proof. intros H. apply Forall_forall. intros b Hb. rewrite forallb_forall in H. apply list_elem_of_In, H in Hb. unfold in_u8. lia. Qed.

Lemma demo_table_plain : plain_disk (demo_pstate demo_table) 0 (demo_dev demo_table) (demo_disk demo_table) demo_table.
Proof. apply demo_plain; [reflexivity|by apply table_u8|reflexivity]. Qed.
Lemma demo_extended_plain : plain_disk (demo_pstate demo_extended) 0 (demo_dev demo_extended) (demo_disk demo_extended) demo_extended.
Proof. apply demo_plain; [reflexivity|by apply table_u8|reflexivity]. Qed.

Lemma demo_no_extended : Forall (λ e, empty e || negb (extended e) = true) (partitions demo_table).
Proof. by repeat constructor. Qed.

Lemma demo_registered : registered 0 (demo_dev demo_table) (partitions demo_table) 0 =
  [mk_dev (chars "hda1") BLOCK_FILESYS 3 (Part 0 1) 0 0; mk_dev (chars "hda2") BLOCK_FOREIGN 2 (Part 0 4) 0 0].
Proof. vm_compute. reflexivity. Qed.

Lemma partition_scan_finds_witness : ∃ s', partition_scan 0 0 (demo_pstate demo_table) = Ok (tt, s') ∧
  zlen (devs s') = 3 ∧ (∃ s'', dev_read 1 2 s' = Ok (replicate 512 3, s'')) ∧ dev_read 1 3 s' = Panic ∧
  (∃ s'', dev_write 1 2 (replicate 512 9) s' = Ok (tt, s'')) ∧ dev_write 1 3 (replicate 512 9) s' = Panic ∧
  dev_write 2 0 (replicate 512 9) s' = Panic.
Proof.
  destruct (partition_scan_finds 0 (demo_pstate demo_table) 0 (demo_dev demo_table) (demo_disk demo_table) demo_table
    demo_table_plain ltac:(discriminate) demo_no_extended) as (s' & E & Hd & Hw).
  rewrite demo_registered in Hd. exists s'. split; [exact E|]. split; [rewrite Hd; reflexivity|].
  destruct (Hw 1 (mk_dev (chars "hda1") BLOCK_FILESYS 3 (Part 0 1) 0 0) ltac:(vm_compute; discriminate) ltac:(rewrite Hd; reflexivity))
    as (start & [= <-] & _ & _ & Hpanic & Hread & Hwrite).
  destruct (Hpanic 3 (replicate 512 9) ltac:(cbn; lia)) as [P1 P2].
  destruct (Hw 2 (mk_dev (chars "hda2") BLOCK_FOREIGN 2 (Part 0 4) 0 0) ltac:(vm_compute; discriminate) ltac:(rewrite Hd; reflexivity)) as (start & _ & _ & _ & _ & _ & Hforeign).
  split_and!; [|exact P1| |exact P2|exact (Hforeign 0 (replicate 512 9) ltac:(cbn; lia))].
  - destruct (Hread 2 ltac:(cbn; lia)) as (data & s'' & Hdata & Er & _).
    vm_compute in Hdata. injection Hdata as <-. exists s''. exact Er.
  - destruct (Hwrite 2 (replicate 512 9) ltac:(cbn; lia)) as (s'' & Ew & _). exists s''. exact Ew.
Defined.

Lemma extended_never_returns_witness : partition_scan 1000 0 (demo_pstate demo_extended) = NoFuel.
Proof.
  apply (extended_never_returns 1000 (demo_pstate demo_extended) 0 (demo_dev demo_extended) (demo_disk demo_extended) demo_extended
    [table_entry demo_extended 0] (table_entry demo_extended 1) [table_entry demo_extended 2; table_entry demo_extended 3] demo_extended_plain);
    [reflexivity|by repeat constructor|reflexivity|reflexivity|vm_compute; split; [discriminate|reflexivity]|vm_compute; reflexivity|vm_compute; reflexivity].
Defined.

End Partition.
