(* ===== verification/Timer.v ===== *)
(** * Timer: the timer (devices/timer.c, devices/pit.c)

    The tick count is part of the scheduler's state, as is the handler of the
    timer interrupt (Sched).  Here are the routines threads call: sleeping, on
    top of thread_yield(), and the calibration of busy waiting, which depends on
    the speed of the processor, a parameter.  pit.c writes the divisor of the
    timer chip to its ports.

    The theorems: timer_sleep() lasts as long as it is asked to and returns at
    the first chance afterwards, and timer_calibrate() finds the number of loops
    in a tick up to one part in 512. *)

From Stdlib Require Import ZArith Lia.
From stdpp Require Import base tactics option list numbers gmap.
From S2P Require Import Prelude Sched Synch Intq Serial.
Import Sched Synch Serial.

Module Timer.

Definition TIMER_FREQ : Z := 100.

(** ** Ticks *)

(** thread_yield() of threads/thread.c, with the switch to other threads. *)
Definition thread_yield : M sched unit :=
  let* old_level := intr_get_level in
  thread_yield_switch;;;
  suspend;;;
  let* _ := intr_set_level old_level in
  ret tt.

Definition get_ticks : M sched Z :=
  let* old_level := intr_disable in
  let* t := gets timer_ticks in
  let* _ := intr_set_level old_level in
  ret t.

Definition timer_elapsed (then_ : Z) : M sched Z :=
  let* t := get_ticks in ret (s64 (t - then_)).

(** [while (timer_elapsed (start) < ticks) thread_yield ()], with at most [fuel]
    yields. *)
Fixpoint sleep_loop (fuel : nat) (start n : Z) : M sched unit :=
  let* e := timer_elapsed start in
  if e <? n then
    match fuel with O => no_fuel | S fuel => thread_yield;;; sleep_loop fuel start n end
  else ret tt.

Definition timer_sleep (fuel : nat) (n : Z) : M sched unit :=
  let* start := get_ticks in
  let* level := intr_get_level in
  assert level;;;
  sleep_loop fuel start n.

(** ** Busy waiting *)

Record tstate := mk_tstate { t_sched : sched; loops_per_tick : Z }.
Definition on_s {A} (m : M sched A) : M tstate A := lift t_sched (λ x s, mk_tstate x (loops_per_tick s)) m.
Definition set_loops (l : Z) : M tstate unit := modify (λ s, mk_tstate (t_sched s) l).

Section speed.
(** How many ticks pass while busy_wait() runs that many loops from a tick on:
    the speed of the processor. *)
Context (ticks_during : Z → Z).

(** [ticks] is advanced by the timer interrupt. *)
Definition pass (n : Z) : M tstate unit :=
  on_s (modify (λ s, set_ticks (thread_ticks s) (s64 (timer_ticks s + n)) s)).

Definition busy_wait (loops : Z) : M tstate unit := pass (ticks_during (Z.max 0 loops)).

Definition too_many_loops (loops : Z) : M tstate bool :=
  pass 1;;;
  let* start := on_s (gets timer_ticks) in
  busy_wait loops;;;
  let* t := on_s (gets timer_ticks) in
  ret (negb (start =? t)).

(** [while (!too_many_loops (loops_per_tick << 1))]: after 32 doublings the
    count has overflowed. *)
Fixpoint double_loop (n : nat) : M tstate unit :=
  let* s := get in
  let* many := too_many_loops (u32 (Z.shiftl (loops_per_tick s) 1)) in
  if negb many then
    match n with
    | O => no_fuel
    | S n =>
        set_loops (u32 (Z.shiftl (loops_per_tick s) 1));;;
        let* s := get in
        assert (negb (loops_per_tick s =? 0));;;
        double_loop n
    end
  else ret tt.

(** [for (...; test_bit != high_bit >> 10; test_bit >>= 1)]. *)
Fixpoint refine_loop (n : nat) (high_bit test_bit : Z) : M tstate unit :=
  if negb (test_bit =? Z.shiftr high_bit 10) then
    match n with
    | O => no_fuel
    | S n =>
        let* s := get in
        let* many := too_many_loops (Z.lor (loops_per_tick s) test_bit) in
        (if negb many then set_loops (Z.lor (loops_per_tick s) test_bit) else ret tt);;;
        refine_loop n high_bit (Z.shiftr test_bit 1)
    end
  else ret tt.

Definition timer_calibrate : M tstate unit :=
  let* level := on_s intr_get_level in
  assert level;;;
  set_loops (Z.shiftl 1 10);;;
  double_loop 32;;;
  let* s := get in
  let high_bit := loops_per_tick s in
  refine_loop 32 high_bit (Z.shiftr high_bit 1).

Definition real_time_delay (num denom : Z) : M tstate unit :=
  assert (Z.rem denom 1000 =? 0);;;
  let* s := get in
  busy_wait (Z.quot (s64 (Z.quot (s64 (loops_per_tick s * num)) 1000 * TIMER_FREQ)) (Z.quot denom 1000)).

(** The other components sleep with the fuel of [Synch]. *)
Definition real_time_sleep (num denom : Z) : M tstate unit :=
  let ticks := Z.quot (s64 (num * TIMER_FREQ)) denom in
  let* level := on_s intr_get_level in
  assert level;;;
  if ticks >? 0 then on_s (timer_sleep wakeups ticks) else real_time_delay num denom.

Definition timer_msleep (ms : Z) : M tstate unit := real_time_sleep ms 1000.
Definition timer_usleep (us : Z) : M tstate unit := real_time_sleep us 1000000.
Definition timer_nsleep (ns : Z) : M tstate unit := real_time_sleep ns 1000000000.
Definition timer_mdelay (ms : Z) : M tstate unit := real_time_delay ms 1000.
Definition timer_udelay (us : Z) : M tstate unit := real_time_delay us 1000000.
Definition timer_ndelay (ns : Z) : M tstate unit := real_time_delay ns 1000000000.
End speed.

(** ** The timer chip *)

Definition PIT_PORT_CONTROL : Z := 67.          (* 0x43 *)
Definition PIT_PORT_COUNTER (channel : Z) : Z := 64 + channel.
Definition PIT_HZ : Z := 1193180.

Definition pit_count (frequency : Z) : Z :=
  if frequency <? 19 then 0
  else if frequency >? PIT_HZ then 2
  else u16 (Z.quot (PIT_HZ + Z.quot frequency 2) frequency).

Definition pit_configure_channel (channel mode frequency : Z) : M uart unit :=
  assert ((channel =? 0) || (channel =? 2));;;
  assert ((mode =? 2) || (mode =? 3));;;
  let count := pit_count frequency in
  let* old_level := on_sched intr_disable in
  outb PIT_PORT_CONTROL (Z.lor (Z.lor (Z.shiftl channel 6) 48) (Z.shiftl mode 1));;;
  outb (PIT_PORT_COUNTER channel) count;;;
  outb (PIT_PORT_COUNTER channel) (Z.shiftr count 8);;;
  let* _ := on_sched (intr_set_level old_level) in
  ret tt.

(** timer_init(); the registration of the handler is left out. *)
Definition timer_init : M uart unit := pit_configure_channel 0 2 TIMER_FREQ.

(** ** The speaker (devices/speaker.c) *)

Definition SPEAKER_PORT_GATE : Z := 97.         (* 0x61 *)
Definition SPEAKER_GATE_ENABLE : Z := 3.

Definition speaker_off : M uart unit :=
  let* old_level := on_sched intr_disable in
  let* g := inb SPEAKER_PORT_GATE in
  outb SPEAKER_PORT_GATE (Z.land g (Z.lnot SPEAKER_GATE_ENABLE));;;
  let* _ := on_sched (intr_set_level old_level) in
  ret tt.

Definition speaker_on (frequency : Z) : M uart unit :=
  if (frequency >=? 20) && (frequency <=? 20000) then
    let* old_level := on_sched intr_disable in
    pit_configure_channel 2 3 frequency;;;
    let* g := inb SPEAKER_PORT_GATE in
    outb SPEAKER_PORT_GATE (Z.lor g SPEAKER_GATE_ENABLE);;;
    let* _ := on_sched (intr_set_level old_level) in
    ret tt
  else speaker_off.

(** ** Sleeping *)

Definition elapsed (start : Z) (s : sched) : Z := s64 (timer_ticks s - start).

(** A call that blocks, resumed in one state after the other. *)
Fixpoint resumed (o : outcome sched unit) (l : list sched) : outcome sched unit :=
  match l, o with
  | s :: l, Blocked _ resume => resumed (resume s) l
  | _, _ => o
  end.

(** A state in which the sleeper may run. *)
Definition runnable (s : sched) : Prop := sched_inv s ∧ in_external_intr s = false.

Lemma set_intr_same s : set_intr (intr_on s) s = s.
Proof. by destruct s. Qed.

Lemma get_ticks_ok s :
  in_external_intr s = false → get_ticks s = Ok (timer_ticks s, s).
Proof.
  intros He. unfold get_ticks. erewrite bind_ok by done. run.
  erewrite bind_ok by (by apply intr_set_level_ok). unfold ret. simpl. by destruct s.
Qed.

Lemma timer_elapsed_ok start s :
  in_external_intr s = false → timer_elapsed start s = Ok (elapsed start s, s).
Proof. intros He. unfold timer_elapsed. by rewrite (bind_ok _ _ _ _ _ (get_ticks_ok s He)). Qed.

(** Switching threads does not touch the clock. *)
Definition clock_kept {A} (m : M sched A) : Prop :=
  ∀ s a s', m s = Ok (a, s') → timer_ticks s' = timer_ticks s.

Lemma clock_bind {A B} (m : M sched A) (k : A → M sched B) :
  clock_kept m → (∀ a, clock_kept (k a)) → clock_kept (bind m k).
Proof.
  intros Hm Hk s b s'. unfold bind.
  destruct (m s) as [[a s1]| | | |] eqn:E; simpl; try done.
  intros Hb. by rewrite (Hk _ _ _ _ Hb), (Hm _ _ _ E).
Qed.
Lemma clock_modify f : (∀ s, timer_ticks (f s) = timer_ticks s) → clock_kept (modify f).
Proof. intros Hf s a s' [= <- <-]. apply Hf. Qed.
Lemma clock_read {A} (f : sched → A) : clock_kept (gets f).
Proof. by intros s a s' [= <- <-]. Qed.
Lemma clock_assert b : clock_kept (assert b).
Proof. destruct b; [by intros s a s' [= <- <-]|done]. Qed.
Lemma clock_deref {A} (o : option A) : clock_kept (deref o).
Proof. destruct o; [by intros ? ? ? [= <- <-]|done]. Qed.
#[local] Create HintDb clock.
#[local] Hint Resolve clock_modify clock_read clock_assert clock_deref : clock.

Ltac keep_clock :=
  repeat first
    [ done
    | apply clock_bind; [|intros ?]
    | solve [eauto with clock]
    | match goal with
      | |- clock_kept ?m => match m with context [if ?b then _ else _] => destruct b end
      | |- clock_kept ?m => match m with context [match ?o with _ => _ end] => destruct o end
      end
    | by intros ? ? ? [= <- <-] ].

Lemma yield_clock : clock_kept thread_yield_switch.
Proof.
  unfold thread_yield_switch, thread_current, schedule, thread_schedule_tail,
    next_thread_to_run, set_status, intr_disable, intr_context, intr_get_level, running_thread.
  keep_clock.
Qed.

Lemma sleep_loop_over start n fuel s :
  in_external_intr s = false → n ≤ elapsed start s → sleep_loop fuel start n s = Ok (tt, s).
Proof.
  intros He Hn. destruct fuel; cbn [sleep_loop]; rewrite (bind_ok _ _ _ _ _ (timer_elapsed_ok start s He));
    by rewrite (proj2 (Z.ltb_ge _ _) Hn).
Qed.

(** One round of the loop. *)
Lemma sleep_loop_round start n fuel s :
  runnable s → intr_on s = true → elapsed start s < n →
  ∃ s1 r, sleep_loop (S fuel) start n s = Blocked s1 r ∧ sched_inv s1 ∧ elapsed start s1 < n ∧
    ∀ s', runnable s' → r s' = sleep_loop fuel start n (set_intr true s').
Proof.
  intros [Hi He] Hon Hlt. cbn [sleep_loop].
  rewrite (bind_ok _ _ _ _ _ (timer_elapsed_ok start s He)), (proj2 (Z.ltb_lt _ _) Hlt).
  unfold thread_yield, intr_get_level. rewrite bind_assoc. run.
  destruct (thread_yield_spec s Hi He) as (s1 & Hy & Hi1 & _).
  rewrite (bind_ok _ _ _ _ _ Hy). unfold elapsed in *. rewrite <- (yield_clock _ _ _ Hy) in Hlt.
  unfold suspend, bind at 1 2. cbn [obind]. eexists s1, _. split_and!; [reflexivity|done..|].
  intros s' [Hi' He']. cbn [obind]. by erewrite bind_ok by (rewrite Hon; by apply intr_set_level_ok).
Qed.

Lemma set_intr_runnable b s : runnable s → runnable (set_intr b s).
Proof. intros [Hi He]. split; [|done]. by eapply same_threads_inv; [|exact Hi]. Qed.

Lemma sleep_loop_lasts start n early : ∀ fuel s,
  runnable s → intr_on s = true → elapsed start s < n →
  Forall (λ s', runnable s' ∧ elapsed start s' < n) early → (length early < fuel)%nat →
  ∃ s1 r, resumed (sleep_loop fuel start n s) early = Blocked s1 r ∧ sched_inv s1 ∧
    ∀ s', runnable s' → n ≤ elapsed start s' → r s' = Ok (tt, set_intr true s').
Proof.
  induction early as [|s' early IH]; intros fuel s Hs Hon Hlt Hearly Hf;
    (destruct fuel as [|fuel]; [simpl in Hf; lia|]);
    destruct (sleep_loop_round start n fuel s Hs Hon Hlt) as (s1 & r & E & Hi1 & _ & Hr); rewrite E.
  - exists s1, r. split_and!; [done..|]. intros s' Hs' Hn. rewrite Hr by done.
    by apply sleep_loop_over; [apply Hs'|].
  - apply Forall_cons in Hearly as [[Hs' Hlt'] Hearly]. cbn [resumed]. rewrite Hr by done.
    apply IH; [by apply set_intr_runnable|done|done|done|simpl in Hf; lia].
Qed.

(** C36. timer_sleep() called with interrupts on by a thread of a well-formed
    scheduler sleeps for the ticks it is asked for.  However often it is
    resumed while fewer than [n] ticks have passed since the call (the states
    [early], any number of them, with fuel for as many yields), it gives up
    the processor again and has not returned; and the first time it is resumed
    with [n] ticks passed it returns, with interrupts on.  A sleep of zero or
    fewer ticks returns at once. *)
Theorem timer_sleep_lasts (s : sched) (n : Z) (early : list sched) (fuel : nat) :
  runnable s → intr_on s = true →
  Forall (λ s', runnable s' ∧ elapsed (timer_ticks s) s' < n) early → (length early < fuel)%nat →
  if decide (n ≤ 0) then timer_sleep fuel n s = Ok (tt, s)
  else ∃ s1 r, resumed (timer_sleep fuel n s) early = Blocked s1 r ∧ sched_inv s1 ∧
    ∀ s', runnable s' → n ≤ elapsed (timer_ticks s) s' → r s' = Ok (tt, set_intr true s').
Proof.
  intros Hs Hon Hearly Hf.
  assert (timer_sleep fuel n s = sleep_loop fuel (timer_ticks s) n s) as ->.
  { unfold timer_sleep. rewrite (bind_ok _ _ _ _ _ (get_ticks_ok s (proj2 Hs))). unfold intr_get_level. run.
    by rewrite bind_assert by done. }
  assert (elapsed (timer_ticks s) s = 0) as E by (unfold elapsed; by rewrite Z.sub_diag).
  case_decide as Hn; [apply sleep_loop_over; [apply Hs|lia]|]. apply sleep_loop_lasts; try done. lia.
Qed.

Definition awake : sched := set_intr true booted.

Lemma awake_runnable : runnable awake.
Proof. split; [|done]. apply (same_threads_inv booted); [done|]. apply boot_inv. exact thread_init_booted. Qed.

(** The sleeper is alone and is resumed 2000 times within the tick it went to
    sleep in, then after three ticks. *)
Definition later : sched := set_ticks (thread_ticks awake) 3 awake.

Lemma later_runnable : runnable later.
Proof. destruct awake_runnable as [Hi He]. split; [|done]. by eapply same_threads_inv; [|exact Hi]. Qed.

Lemma timer_sleep_lasts_witness :
  elapsed (timer_ticks awake) later = 3 ∧
  ∃ s1 r, resumed (timer_sleep 2001 3 awake) (replicate 2000 awake) = Blocked s1 r ∧
    r later = Ok (tt, set_intr true later).
Proof.
  split; [vm_compute; reflexivity|].
  destruct (timer_sleep_lasts awake 3 (replicate 2000 awake) 2001 awake_runnable eq_refl) as (s1 & r & E & _ & Hr).
  - apply Forall_replicate. split; [exact awake_runnable|vm_compute; reflexivity].
  - rewrite length_replicate. lia.
  - exists s1, r. split; [exact E|]. apply Hr; [exact later_runnable|vm_compute; discriminate].
Defined.

(** ** Calibration *)

Section calibration.
Context (ticks_during : Z → Z).
(** The clock never runs backwards, and more loops take no less time. *)
Context (Hmono : ∀ a b, 0 ≤ a ≤ b → ticks_during a ≤ ticks_during b).
Context (Hrange : ∀ a, 0 ≤ ticks_during a < 2 ^ 63).

(** [loops] loops end within the tick they start in. *)
Abbreviation fits loops := (ticks_during loops = 0).

Lemma s64_moves t d : 0 ≤ d < 2 ^ 63 → (s64 t =? s64 (s64 t + d)) = (d =? 0).
Proof.
  intros Hd. unfold s64. destruct (Z.eqb_spec d 0) as [->|Hne].
  - apply Z.eqb_eq. rewrite Z.add_0_r.
    replace ((t + 9223372036854775808) mod 18446744073709551616 - 9223372036854775808 + 9223372036854775808)
      with ((t + 9223372036854775808) mod 18446744073709551616) by lia.
    by rewrite Z.mod_mod by done.
  - apply Z.eqb_neq. pose proof (Z.mod_pos_bound (t + 9223372036854775808) 18446744073709551616 ltac:(done)).
    set (m := (t + _) mod _) in *.
    assert ((m - 9223372036854775808 + d + 9223372036854775808) mod 18446744073709551616 =
            if m + d <? 18446744073709551616 then m + d else m + d - 18446744073709551616) as ->.
    { destruct (Z.ltb_spec (m + d) 18446744073709551616).
      - rewrite Z.mod_small; lia.
      - symmetry. apply Z.mod_unique_pos with 1; lia. }
    destruct (Z.ltb_spec (m + d) 18446744073709551616); lia.
Qed.

Lemma too_many_loops_ok loops s :
  0 ≤ loops →
  ∃ x, too_many_loops ticks_during loops s =
    Ok (negb (ticks_during loops =? 0), mk_tstate x (loops_per_tick s)).
Proof.
  intros Hl. unfold too_many_loops, busy_wait, pass, on_s, lift, bind, gets, modify. simpl.
  rewrite Z.max_r by done. rewrite s64_moves by apply Hrange. by eexists.
Qed.

Lemma double_loop_spec n k s :
  10 ≤ k ≤ 31 → 32 ≤ k + Z.of_nat n → loops_per_tick s = 2 ^ k → fits 1024 → fits (2 ^ k) →
  match double_loop ticks_during n s with
  | Ok (_, s') => ∃ k', 10 ≤ k' < 31 ∧ loops_per_tick s' = 2 ^ k' ∧
      fits (2 ^ k') ∧ ¬ fits (2 ^ (k' + 1))
  | Panic => fits (2 ^ 31)
  | _ => False
  end.
Proof.
  revert k s. induction n as [|n IH]; intros k s Hk Hn Hs H0 Hfit; [lia|].
  cbn [double_loop]. run. rewrite Hs, Z.shiftl_mul_pow2 by lia.
  rewrite <- Z.pow_add_r by lia. destruct (decide (k = 31)) as [->|Hne].
  - change (u32 (2 ^ (31 + 1))) with 0.
    destruct (too_many_loops_ok 0 s) as [x Hx]; [done|].
    rewrite (bind_ok _ _ _ _ _ Hx).
    assert (ticks_during 0 = 0) as -> by (specialize (Hmono 0 1024); specialize (Hrange 0); lia).
    by cbn.
  - assert (2 ^ (k + 1) ≤ 2 ^ 31) by (apply Z.pow_le_mono_r; lia).
    rewrite u32_small by (unfold in_u32; lia).
    destruct (too_many_loops_ok (2 ^ (k + 1)) s) as [x Hx]; [lia|].
    rewrite (bind_ok _ _ _ _ _ Hx). destruct (Z.eqb_spec (ticks_during (2 ^ (k + 1))) 0) as [Hf|Hf]; cbn [negb].
    + unfold set_loops. run. rewrite bind_assert by (simpl; apply negb_true_iff, Z.eqb_neq; lia).
      by apply (IH (k + 1)); [lia..|done|done|done].
    + exists k. split_and!; try done; lia.
Qed.

Lemma lor_low_bit L j : 0 ≤ j → L mod 2 ^ (j + 1) = 0 → Z.lor L (2 ^ j) = L + 2 ^ j.
Proof.
  intros Hj HL. apply Z.div_exact in HL; [|apply Z.pow_nonzero; lia].
  assert (Z.land L (2 ^ j) = 0) as Hand.
  { apply Z.bits_inj'. intros i Hi. rewrite Z.land_spec, Z.bits_0, Z.pow2_bits_eqb by done.
    destruct (Z.eqb_spec j i) as [<-|]; [|by rewrite andb_false_r].
    rewrite HL, Z.mul_comm, Z.mul_pow2_bits_low by lia. done. }
  by rewrite Z.add_nocarry_lxor, Z.lxor_lor by done.
Qed.

Lemma refine_loop_spec k j n s :
  10 ≤ k < 31 → k - 10 ≤ j < k → j - (k - 10) ≤ Z.of_nat n →
  2 ^ k ≤ loops_per_tick s → loops_per_tick s + 2 ^ (j + 1) ≤ 2 ^ (k + 1) →
  loops_per_tick s mod 2 ^ (j + 1) = 0 →
  fits (loops_per_tick s) → ¬ fits (loops_per_tick s + 2 ^ (j + 1)) →
  ∃ s', refine_loop ticks_during n (2 ^ k) (2 ^ j) s = Ok (tt, s') ∧
    2 ^ k ≤ loops_per_tick s' < 2 ^ (k + 1) ∧
    fits (loops_per_tick s') ∧ ¬ fits (loops_per_tick s' + 2 ^ (k - 9)).
Proof.
  revert j s. induction n as [|n IH]; intros j s Hk Hj Hn Hlo Hhi Hmod Hf Hnf;
    cbn [refine_loop]; rewrite Z.shiftr_div_pow2, <- Z.pow_sub_r by lia.
  all: assert (0 < 2 ^ (j + 1)) by lia.
  all: destruct (decide (j = k - 10)) as [->|Hne];
    [rewrite Z.eqb_refl; replace (k - 10 + 1) with (k - 9) in * by lia; exists s;
     split_and!; [done|lia|lia|done|done]|].
  { lia. }
  rewrite (proj2 (Z.eqb_neq _ _)) by (intros E; apply Z.pow_inj_r in E; lia). cbn [negb]. run.
  rewrite lor_low_bit by (done || lia). set (L := loops_per_tick s) in *.
  assert (2 ^ (j + 1) = 2 * 2 ^ j) as E1 by (rewrite Z.pow_add_r; lia).
  destruct (too_many_loops_ok (L + 2 ^ j) s) as [x Hx]; [lia|].
  rewrite (bind_ok _ _ _ _ _ Hx), Z.shiftr_div_pow2, <- Z.pow_sub_r by lia.
  assert ((L mod 2 ^ j = 0)) as Hmj.
  { rewrite E1, Z.mul_comm in Hmod. rewrite Z.rem_mul_r in Hmod by lia.
    pose proof (Z.mod_pos_bound L (2 ^ j)). pose proof (Z.mod_pos_bound (L / 2 ^ j) 2). nia. }
  destruct (Z.eqb_spec (ticks_during (L + 2 ^ j)) 0) as [Hf'|Hf']; cbn [negb];
    unfold set_loops; run; apply IH; replace (j - 1 + 1) with j by lia; cbn [loops_per_tick]; try lia; try done.
  - rewrite <- Z.add_mod_idemp_r, Z.mod_same, Z.add_0_r by lia. done.
  - by replace (L + 2 ^ j + 2 ^ j) with (L + 2 ^ (j + 1)) by lia.
Qed.
End calibration.

(** C37. Calibration on a processor whose clock ticks at most once in 1024 loops:
    timer_calibrate() leaves in loops_per_tick a number of loops that fits in a
    tick, although one more 512th of its highest power of two does not; it
    fails its assertion, instead of overflowing, exactly on a processor that
    runs 2^31 loops in a tick. *)
Theorem timer_calibrate_precise (ticks_during : Z → Z) (s : tstate) :
  (∀ a b, 0 ≤ a ≤ b → ticks_during a ≤ ticks_during b) →
  (∀ a, 0 ≤ ticks_during a < 2 ^ 63) →
  ticks_during 1024 = 0 → intr_on (t_sched s) = true →
  match timer_calibrate ticks_during s with
  | Ok (_, s') =>
      let L := loops_per_tick s' in
      1024 ≤ L < 2 ^ 31 ∧ ticks_during (2 ^ 31) ≠ 0 ∧
      ticks_during L = 0 ∧ ticks_during (L + 2 ^ Z.log2 L / 512) ≠ 0
  | Panic => ticks_during (2 ^ 31) = 0
  | _ => False
  end.
Proof.
  intros Hmono Hrange H0 Hon. unfold timer_calibrate, intr_get_level.
  erewrite bind_ok by done. run. rewrite bind_assert by (by simpl). unfold set_loops at 1. run.
  set (s1 := mk_tstate _ _).
  pose proof (double_loop_spec ticks_during Hmono Hrange 32 10 s1 ltac:(done) ltac:(done) eq_refl H0 H0) as Hd.
  unfold bind at 1.
  destruct (double_loop ticks_during 32 s1) as [[[] s2]| | | |]; cbn [obind]; try done.
  destruct Hd as (k & Hk & Hs2 & Hf & Hnf). run. rewrite Hs2, Z.shiftr_div_pow2, <- Z.pow_sub_r by lia.
  destruct (refine_loop_spec ticks_during Hrange k (k - 1) 32 s2)
    as (s' & -> & HL & HLf & HLn); rewrite ?Hs2; replace (k - 1 + 1) with k by lia; try lia; try done.
  { rewrite Z.pow_add_r by lia. lia. }
  { by rewrite Z.mod_same by lia. }
  { by replace (2 ^ k + 2 ^ k) with (2 ^ (k + 1)) by (rewrite Z.pow_add_r; lia). }
  assert (Z.log2 (loops_per_tick s') = k) as Hlog by (apply Z.log2_unique; lia).
  assert (2 ^ (k + 1) ≤ 2 ^ 31) by (apply Z.pow_le_mono_r; lia).
  assert (2 ^ 10 ≤ 2 ^ k) by (apply Z.pow_le_mono_r; lia).
  cbv zeta. rewrite Hlog. change 512 with (2 ^ 9). rewrite <- Z.pow_sub_r by lia.
  split_and!; try done; try lia. specialize (Hmono (2 ^ (k + 1)) (2 ^ 31)).
  specialize (Hrange (2 ^ (k + 1))). lia.
Qed.

(** A processor that runs 123456 loops in a tick. *)
Definition speed (loops : Z) : Z := Z.max 0 (Z.min (loops / 123456) 100).

Lemma timer_calibrate_precise_witness :
  match timer_calibrate speed (mk_tstate awake 0) with
  | Ok (_, s') => loops_per_tick s' = 123392
  | _ => False
  end ∧
  match timer_calibrate speed (mk_tstate awake 0) with
  | Ok (_, s') =>
      let L := loops_per_tick s' in
      1024 ≤ L < 2 ^ 31 ∧ speed (2 ^ 31) ≠ 0 ∧
      speed L = 0 ∧ speed (L + 2 ^ Z.log2 L / 512) ≠ 0
  | Panic => speed (2 ^ 31) = 0
  | _ => False
  end.
Proof.
  split; [vm_compute; reflexivity|].
  apply (timer_calibrate_precise speed (mk_tstate awake 0)); [..|reflexivity|reflexivity].
  - intros a b Hab. unfold speed. pose proof (Z.div_le_mono a b 123456). lia.
  - intros a. unfold speed. lia.
Defined.

(** ** The divisor *)

(** The divisor fits the 16-bit counter and gives the rate nearest to the one
    asked for. *)
Lemma pit_count_nearest f :
  19 ≤ f ≤ PIT_HZ →
  1 ≤ pit_count f < 65536 ∧ Z.abs (2 * (PIT_HZ - pit_count f * f)) ≤ f.
Proof.
  unfold pit_count, PIT_HZ. intros Hf.
  rewrite (proj2 (Z.ltb_ge _ _)), Z.gtb_ltb, (proj2 (Z.ltb_ge 1193180 f)) by lia.
  rewrite (Z.quot_div_nonneg f 2) by lia. rewrite Z.quot_div_nonneg by (pose proof (Z.div_pos f 2); lia).
  pose proof (Z.div_mod f 2 ltac:(done)). pose proof (Z.mod_pos_bound f 2 ltac:(done)).
  pose proof (Z.div_mod (1193180 + f / 2) f ltac:(lia)).
  pose proof (Z.mod_pos_bound (1193180 + f / 2) f ltac:(lia)).
  set (q := (1193180 + f / 2) / f) in *.
  assert (1 ≤ q < 65536) by nia.
  unfold u16. rewrite Z.mod_small by lia. split; [lia|]. nia.
Qed.

(** A rate near that of the chip's clock gives the divisor 1, which mode 2 does
    not have. *)
Lemma pit_count_illegal : pit_count 1000000 = 1.
Proof. reflexivity. Qed.

(** The port writes of pit_configure_channel(), with nothing else changed. *)
Lemma pit_configure_channel_ports channel m f s :
  channel = 0 ∨ channel = 2 → m = 2 ∨ m = 3 → in_external_intr (ksched s) = false →
  pit_configure_channel channel m f s =
    Ok (tt, mk_uart (u_kernel s) (mode s) (txq s) (buffer s)
              (ports s ++ [(67, u8 (Z.lor (Z.lor (Z.shiftl channel 6) 48) (Z.shiftl m 1)));
                           (64 + channel, u8 (pit_count f));
                           (64 + channel, u8 (Z.shiftr (pit_count f) 8))]) (answers s)).
Proof.
  intros Hc Hm He. unfold pit_configure_channel.
  rewrite bind_assert by (destruct Hc as [-> | ->]; done).
  rewrite bind_assert by (destruct Hm as [-> | ->]; done).
  rewrite (bind_ok _ _ _ _ _ (on_sched_disable s)). unfold outb. run.
  erewrite bind_ok by (apply on_sched_ok, intr_set_level_ok; exact He).
  unfold ret. destruct s as [[[] ? ?] ? ? ? ? ?]. cbn. rewrite <- !app_assoc. done.
Qed.

(** timer_init() programs channel 0 with the divisor 11932 = 0x2e9c, so that the
    timer ticks 100 times a second. *)
Lemma timer_init_ports s :
  in_external_intr (ksched s) = false →
  ∃ s', timer_init s = Ok (tt, s') ∧ ports s' = ports s ++ [(67, 52); (64, 156); (64, 46)].
Proof.
  intros He. unfold timer_init. rewrite pit_configure_channel_ports by auto. by eexists.
Qed.

End Timer.
