(* ===== verification/Rtc.v ===== *)
(** * Rtc: the real-time clock (devices/rtc.c)

    rtc_get_time() reads the clock's registers through two ports and turns the
    date into seconds.  The registers are what the port reads return ([Serial]).

    The theorem compares the result with the calendar, given as the number of
    days before each month of each year. *)

From Stdlib Require Import ZArith Lia.
From stdpp Require Import base tactics option list numbers gmap.
From S2P Require Import Prelude Sched Synch Intq Serial.
Import Sched Synch Intq Serial.

Module Rtc.

Definition CMOS_REG_SET : Z := 112.             (* 0x70 *)
Definition CMOS_REG_IO : Z := 113.              (* 0x71 *)
Definition RTC_REG_SEC : Z := 0.
Definition RTC_REG_MIN : Z := 2.
Definition RTC_REG_HOUR : Z := 4.
Definition RTC_REG_MDAY : Z := 7.
Definition RTC_REG_MON : Z := 8.
Definition RTC_REG_YEAR : Z := 9.

Definition bcd_to_bin (x : Z) : Z := Z.land x 15 + Z.shiftr x 4 * 10.

Definition cmos_read (index : Z) : M uart Z :=
  outb CMOS_REG_SET index;;;
  inb CMOS_REG_IO.

Definition days_per_month : list Z := [31; 28; 31; 30; 31; 30; 31; 31; 30; 31; 30; 31].

Record components := mk_components { sec : Z; min : Z; hour : Z; mday : Z; mon : Z; year : Z }.

(** The do-while loop; a clock whose seconds change in [fuel] successive rounds
    is beyond the model. *)
Fixpoint read_loop (fuel : nat) : M uart components :=
  match fuel with
  | O => no_fuel
  | S fuel =>
      let* b := cmos_read RTC_REG_SEC in let sec := bcd_to_bin b in
      let* b := cmos_read RTC_REG_MIN in let min := bcd_to_bin b in
      let* b := cmos_read RTC_REG_HOUR in let hour := bcd_to_bin b in
      let* b := cmos_read RTC_REG_MDAY in let mday := bcd_to_bin b in
      let* b := cmos_read RTC_REG_MON in let mon := bcd_to_bin b in
      let* b := cmos_read RTC_REG_YEAR in let year := bcd_to_bin b in
      let* b := cmos_read RTC_REG_SEC in
      if negb (sec =? bcd_to_bin b) then read_loop fuel
      else ret (mk_components sec min hour mday mon year)
  end.

(** [for (i = 1; i <= mon; i++) time += days_per_month[i - 1] * 24 * 60 * 60],
    with [n] months to go. *)
Fixpoint month_loop (n : nat) (i time : Z) : M uart Z :=
  match n with
  | O => ret time
  | S n =>
      let* d := deref (days_per_month !! Z.to_nat (i - 1)) in
      month_loop n (i + 1) (u32 (time + d * 24 * 60 * 60))
  end.

(** [time_t] is [unsigned long]. *)
Definition to_time (c : components) : M uart Z :=
  let year := if year c <? 70 then year c + 100 else year c in
  let year := year - 70 in
  let time := u32 (s32 ((year * 365 + Z.quot (year - 1) 4) * 24 * 60 * 60)) in
  let* time := month_loop (Z.to_nat (mon c)) 1 time in
  let time := if (mon c >? 2) && (Z.rem year 4 =? 0) then u32 (time + 24 * 60 * 60) else time in
  let time := u32 (time + (mday c - 1) * 24 * 60 * 60) in
  let time := u32 (time + hour c * 60 * 60) in
  let time := u32 (time + min c * 60) in
  ret (u32 (time + sec c)).

Definition rtc_get_time (fuel : nat) : M uart Z :=
  let* c := read_loop fuel in to_time c.

(** ** The calendar *)

Definition leap (y : Z) : bool := (y mod 4 =? 0) && (negb (y mod 100 =? 0) || (y mod 400 =? 0)).

Definition year_days (y : Z) : Z := if leap y then 366 else 365.
Definition month_days (y m : Z) : Z :=
  if (m =? 2) && leap y then 29 else default 0 (days_per_month !! Z.to_nat (m - 1)).

Definition sumZ (l : list Z) : Z := foldr Z.add 0 l.

(** The days from the first of January 1970 to the first of month [m] of [y]. *)
Definition days_before (y m : Z) : Z :=
  sumZ (map year_days (seqZ 1970 (y - 1970))) + sumZ (map (month_days y) (seqZ 1 (m - 1))).

(** A date of the years 1970 to 2069, and its Unix time. *)
Record date := mk_date { d_year : Z; d_mon : Z; d_mday : Z; d_hour : Z; d_min : Z; d_sec : Z }.

Definition valid (d : date) : Prop :=
  1970 ≤ d_year d < 2070 ∧ 1 ≤ d_mon d ≤ 12 ∧ 1 ≤ d_mday d ≤ month_days (d_year d) (d_mon d) ∧
  0 ≤ d_hour d < 24 ∧ 0 ≤ d_min d < 60 ∧ 0 ≤ d_sec d < 60.

Definition unix_time (d : date) : Z :=
  (days_before (d_year d) (d_mon d) + (d_mday d - 1)) * 86400 + d_hour d * 3600 + d_min d * 60 + d_sec d.

(** ** The registers *)

Definition bcd (n : Z) : Z := 16 * (n / 10) + n mod 10.

(** What a round of reads returns when the clock shows [d] and the second has
    gone on to [sec'] at its end. *)
Definition registers (d : date) (sec' : Z) : list Z :=
  map bcd [d_sec d; d_min d; d_hour d; d_mday d; d_mon d; d_year d mod 100; sec'].

Lemma bcd_to_bin_bcd n : 0 ≤ n < 100 → bcd_to_bin (u8 (bcd n)) = n.
Proof.
  intros Hn.
  assert (forallb (λ n, bcd_to_bin (u8 (bcd n)) =? n) (seqZ 0 100) = true) as H by (vm_compute; reflexivity).
  rewrite forallb_forall in H. apply Z.eqb_eq, H, list_elem_of_In, elem_of_seqZ. lia.
Qed.

Lemma cmos_read_ok s i a l :
  answers s = a :: l → ∃ s', cmos_read i s = Ok (u8 a, s') ∧ answers s' = l.
Proof.
  intros Ha. unfold cmos_read, outb. run. unfold inb. run. simpl. rewrite Ha. by eexists.
Qed.

(** One round of the loop. *)
Lemma read_round fuel s d x l :
  valid d → 0 ≤ x < 60 → answers s = registers d x ++ l →
  ∃ s', answers s' = l ∧
    read_loop (S fuel) s =
      if d_sec d =? x
      then Ok (mk_components (d_sec d) (d_min d) (d_hour d) (d_mday d) (d_mon d) (d_year d mod 100), s')
      else read_loop fuel s'.
Proof.
  intros Hv Hx Ha. cbn [read_loop].
  assert (1 ≤ d_mday d ≤ 31) as Hday.
  { destruct Hv as (_ & Hm & Hd & _). unfold month_days in Hd.
    assert (forallb (λ m, default 0 (days_per_month !! Z.to_nat (m - 1)) <=? 31) (seqZ 1 12) = true) as H
      by reflexivity.
    rewrite forallb_forall in H. specialize (H (d_mon d)). rewrite <- list_elem_of_In, elem_of_seqZ in H.
    specialize (H ltac:(lia)). apply Z.leb_le in H. destruct (_ && _); lia. }
  destruct Hv as (Hy & Hm & _ & Hh & Hmin & Hs). pose proof (Z.mod_pos_bound (d_year d) 100).
  unfold registers in Ha. cbn [map app] in Ha.
  repeat match goal with
  | Ha : answers ?s = _ :: _ |- context [cmos_read ?i] =>
      let s1 := fresh "s" in let E := fresh in let Ha1 := fresh "Ha" in
      destruct (cmos_read_ok s i _ _ Ha) as (s1 & E & Ha1);
      rewrite (bind_ok _ _ _ _ _ E); clear E Ha; rename Ha1 into Ha
  end.
  rewrite !bcd_to_bin_bcd by lia. eexists. split; [exact Ha|]. by destruct (d_sec d =? x).
Qed.

(** Rounds in which the second changes are repeated. *)
Lemma read_loop_ok rounds fuel s d l :
  valid d → Forall (λ r : date * Z, valid r.1 ∧ 0 ≤ r.2 < 60 ∧ r.2 ≠ d_sec r.1) rounds →
  (length rounds < fuel)%nat →
  answers s = concat (map (λ r, registers r.1 r.2) rounds) ++ registers d (d_sec d) ++ l →
  ∃ s', answers s' = l ∧
    read_loop fuel s =
      Ok (mk_components (d_sec d) (d_min d) (d_hour d) (d_mday d) (d_mon d) (d_year d mod 100), s').
Proof.
  intros Hv Hr. revert fuel s. induction Hr as [|[d1 x] rounds (Hd1 & Hx & Hne) _ IH]; intros [|fuel] s Hf Ha; try (simpl in Hf; lia).
  - destruct (read_round fuel s d (d_sec d) l Hv) as (s' & ? & E); [apply Hv|done|].
    rewrite Z.eqb_refl in E. eauto.
  - cbn [map concat fst snd] in *. rewrite <- app_assoc in Ha.
    destruct (read_round fuel s d1 x _ Hd1 Hx Ha) as (s' & Ha' & ->).
    rewrite (proj2 (Z.eqb_neq _ _)) by congruence. apply IH; [simpl in Hf; lia|done].
Qed.

(** The days rtc_get_time() counts before the [m]th month, and its error. *)
Definition counted (y m : Z) : Z :=
  (y - 1970) * 365 + Z.quot (y - 1971) 4 + sumZ (take (Z.to_nat m) days_per_month) +
  (if (m >? 2) && (Z.rem (y - 1970) 4 =? 0) then 1 else 0).
Definition error (y m : Z) : Z := counted y m - days_before y m.

Lemma error_bounds y m : 1970 ≤ y < 2070 → 1 ≤ m ≤ 12 → 27 ≤ error y m ≤ 32.
Proof.
  intros Hy Hm.
  assert (forallb (λ y, forallb (λ m, (27 <=? error y m) && (error y m <=? 32)) (seqZ 1 12)) (seqZ 1970 100) = true) as H
    by (vm_compute; reflexivity).
  rewrite forallb_forall in H. specialize (H y). rewrite <- list_elem_of_In, elem_of_seqZ in H.
  specialize (H ltac:(lia)). cbv beta in H. rewrite forallb_forall in H.
  specialize (H m). rewrite <- list_elem_of_In, elem_of_seqZ in H. specialize (H ltac:(lia)). cbv beta in H. lia.
Qed.

Lemma u32_add a b : u32 (u32 a + b) = u32 (a + b).
Proof. unfold u32. by rewrite Z.add_mod_idemp_l. Qed.

Lemma month_loop_ok n i time s :
  1 ≤ i → (Z.to_nat (i - 1) + n ≤ 12)%nat →
  month_loop n i (u32 time) s =
    Ok (u32 (time + 86400 * sumZ (take n (drop (Z.to_nat (i - 1)) days_per_month))), s).
Proof.
  revert i time. induction n as [|n IH]; intros i time Hi Hn; cbn [month_loop].
  { rewrite take_0. cbn [sumZ foldr]. by rewrite Z.mul_0_r, Z.add_0_r. }
  destruct (lookup_lt_is_Some_2 days_per_month (Z.to_nat (i - 1))) as [d Hd]; [simpl; lia|].
  rewrite (drop_S _ _ _ Hd). cbn [take sumZ foldr].
  erewrite bind_deref by exact Hd.
  rewrite u32_add, IH by lia. replace (Z.to_nat (i + 1 - 1)) with (S (Z.to_nat (i - 1))) by lia.
  unfold sumZ. do 3 f_equal. lia.
Qed.

Lemma u32_s32 a : u32 (s32 a) = u32 a.
Proof.
  unfold u32, s32. rewrite Zminus_mod_idemp_l. f_equal. lia.
Qed.
(** [year] as to_time() has it. *)
Lemma short_year y :
  1970 ≤ y < 2070 →
  (if y mod 100 <? 70 then y mod 100 + 100 else y mod 100) - 70 = y - 1970.
Proof.
  intros Hy. pose proof (Z.div_mod y 100 ltac:(done)). pose proof (Z.mod_pos_bound y 100 ltac:(done)).
  assert (y / 100 = 19 ∨ y / 100 = 20) by lia. destruct (Z.ltb_spec (y mod 100) 70); lia.
Qed.

Lemma to_time_ok d s :
  valid d →
  to_time (mk_components (d_sec d) (d_min d) (d_hour d) (d_mday d) (d_mon d) (d_year d mod 100)) s =
    Ok (u32 (unix_time d + 86400 * error (d_year d) (d_mon d)), s).
Proof.
  intros (Hy & Hm & _). unfold to_time. cbn [sec min hour mday mon year].
  rewrite short_year by done. rewrite u32_s32. cbv zeta.
  rewrite (bind_ok _ _ _ _ _ (month_loop_ok (Z.to_nat (d_mon d)) 1 _ s ltac:(done) ltac:(lia))).
  change (drop (Z.to_nat (1 - 1)) days_per_month) with days_per_month.
  unfold ret. do 2 f_equal. unfold error, counted, unix_time.
  replace (d_year d - 1970 - 1) with (d_year d - 1971) by lia.
  destruct (_ && _); rewrite <- ?Z.add_assoc; repeat (rewrite u32_add, <- ?Z.add_assoc); f_equal; lia.
Qed.

(** C38. rtc_get_time() repeats its reads until two reads of the seconds agree,
    and turns what it read into a time that is late or early by the same number
    of days for a whole month: for every date from 1970 to 2069 the result is
    the Unix time of the date plus 27 to 32 days, because the loop over the
    months counts the current month and the leap years are misplaced. *)
Theorem rtc_time_ahead (rounds : list (date * Z)) (fuel : nat) (s : uart) (d : date) (l : list Z) :
  valid d → Forall (λ r : date * Z, valid r.1 ∧ 0 ≤ r.2 < 60 ∧ r.2 ≠ d_sec r.1) rounds →
  (length rounds < fuel)%nat →
  answers s = concat (map (λ r, registers r.1 r.2) rounds) ++ registers d (d_sec d) ++ l →
  ∃ s', rtc_get_time fuel s = Ok (u32 (unix_time d + 86400 * error (d_year d) (d_mon d)), s') ∧
    answers s' = l ∧ 27 ≤ error (d_year d) (d_mon d) ≤ 32.
Proof.
  intros Hv Hr Hf Ha. destruct (read_loop_ok rounds fuel s d l Hv Hr Hf Ha) as (s' & Hl & E).
  exists s'. unfold rtc_get_time. rewrite (bind_ok _ _ _ _ _ E). split; [by apply to_time_ok|].
  split; [done|]. apply error_bounds; apply Hv.
Qed.

(** 2020-04-24 12:30:05, read just as the second changes. *)
Definition demo_date : date := mk_date 2020 4 24 12 30 5.
Definition demo_rounds : list (date * Z) := [(mk_date 2020 4 24 12 30 4, 5)].
Definition demo_clock : uart :=
  mk_uart (fst demo_machine) UNINIT (txq demo_uart) (buffer demo_uart) []
    (concat (map (λ r, registers r.1 r.2) demo_rounds) ++ registers demo_date 5).

(** The clock is 29 days ahead in April 2020. *)
Lemma rtc_time_ahead_witness :
  unix_time demo_date = 1587731405 ∧ error 2020 4 = 29 ∧
  ∃ s', rtc_get_time 3 demo_clock = Ok (u32 (unix_time demo_date + 86400 * error 2020 4), s') ∧
    answers s' = [] ∧ 27 ≤ error 2020 4 ≤ 32.
Proof.
  split; [vm_compute; reflexivity|]. split; [vm_compute; reflexivity|].
  apply (rtc_time_ahead demo_rounds 3 demo_clock demo_date []).
  - unfold valid. split_and!; vm_compute; congruence.
  - constructor; [|constructor]. unfold valid. split_and!; vm_compute; congruence.
  - cbn. lia.
  - vm_compute. reflexivity.
Defined.

End Rtc.
