(* ===== verification/Ide.v ===== *)
(** * Ide: ATA disks (devices/ide.c)

    The state adds to that of [Partition] (the scheduler, the registered block
    devices, the console) the channels of ide.c, the calibration of [Timer] and
    the machine's ports: [log] is the sequence of port accesses of the driver,
    in order, and [answers] what its port reads will return.  A driver that
    reads more often than there are answers is beyond the model.  A drive behind
    a registered block device is known to [Partition] by its sectors, a
    parameter.

    The theorem reads the port accesses of a transfer as an ATA-3 drive does:
    whatever other threads and interrupt handlers do while the transfer waits,
    the drive is given exactly one command, for the sector asked for, and the
    words that then pass are those of the sector, each while the drive asks for
    data. *)

From Stdlib Require Import ZArith Lia Ascii.
From stdpp Require Import base tactics option list numbers strings gmap.
From S2P Require Import Prelude Sched Synch Intq Block Stdio StdioSpec Partition Timer.
Import Sched Synch Block Stdio StdioSpec Partition.

Module Ide.

Record ata_disk := mk_ata_disk { a_name : list Z; dev_no : Z; is_ata : bool }.

Record channel := mk_channel {
  c_name : list Z;
  reg_base : Z;
  irq : Z;
  c_lock : lock;
  expecting_interrupt : bool;
  completion_wait : semaphore;
  devices : list ata_disk
}.

(** A port access, with the value written or read. *)
Inductive event := Out8 (port v : Z) | In8 (port v : Z) | Out16 (port v : Z) | In16 (port v : Z).

Record ide := mk_ide {
  ps : pstate;
  loops : Z;
  channels : list channel;
  log : list event;
  answers : list Z
}.

#[global, program] Instance ide_kernel : Kernel ide := {|
  kget := λ s, pk (ps s);
  kset := λ k s, mk_ide (mk_pstate k (devs (ps s)) (con (ps s))) (loops s) (channels s) (log s) (answers s)
|}.
Next Obligation. done. Qed.
Next Obligation. by intros [[] ? ? ? ?]. Qed.
Next Obligation. done. Qed.

Definition on_ps {A} (m : M pstate A) : M ide A :=
  lift ps (λ p s, mk_ide p (loops s) (channels s) (log s) (answers s)) m.
(** printf() *)
Definition say (format : list Z) (args : list arg) : M ide unit := on_ps (pr format args).

(** ** Ports (threads/io.h) *)

Definition record_event (e : event) : M ide unit :=
  modify (λ s, mk_ide (ps s) (loops s) (channels s) (log s ++ [e]) (answers s)).
Definition next_answer : M ide Z :=
  let* s := get in
  match answers s with
  | [] => no_fuel
  | a :: l => modify (λ s, mk_ide (ps s) (loops s) (channels s) (log s) l);;; ret a
  end.

Definition outb (port data : Z) : M ide unit := record_event (Out8 port (u8 data)).
Definition inb (port : Z) : M ide Z :=
  let* a := next_answer in
  record_event (In8 port (u8 a));;;
  ret (u8 a).

Fixpoint insw (port : Z) (cnt : nat) : M ide (list Z) :=
  match cnt with
  | O => ret []
  | S cnt =>
      let* a := next_answer in
      record_event (In16 port (u16 a));;;
      let* l := insw port cnt in
      ret (u16 a mod 256 :: u16 a / 256 :: l)
  end.

Fixpoint outsw (port : Z) (addr : list Z) (cnt : nat) {struct cnt} : M ide unit :=
  match cnt with
  | O => ret tt
  | S cnt =>
      match addr with
      | a :: b :: l => record_event (Out16 port (a + 256 * b));;; outsw port l cnt
      | _ => fault
      end
  end.

(** ** Channels and disks *)

Definition chan (c : nat) : M ide channel := let* s := get in deref (channels s !! c).
Definition set_chan (c : nat) (x : channel) (s : ide) : ide :=
  mk_ide (ps s) (loops s) (<[c := x]> (channels s)) (log s) (answers s).
Definition disk (c d : nat) : M ide ata_disk := let* x := chan c in deref (devices x !! d).

Definition p_lock (c : nat) : ptr ide lock :=
  mk_ptr (λ s, c_lock <$> channels s !! c)
    (λ l s, match channels s !! c with
            | Some x => set_chan c (mk_channel (c_name x) (reg_base x) (irq x) l (expecting_interrupt x) (completion_wait x) (devices x)) s
            | None => s
            end).
Definition p_completion (c : nat) : ptr ide semaphore :=
  mk_ptr (λ s, completion_wait <$> channels s !! c)
    (λ m s, match channels s !! c with
            | Some x => set_chan c (mk_channel (c_name x) (reg_base x) (irq x) (c_lock x) (expecting_interrupt x) m (devices x)) s
            | None => s
            end).

Definition set_expecting (c : nat) (b : bool) : M ide unit :=
  let* x := chan c in
  modify (set_chan c (mk_channel (c_name x) (reg_base x) (irq x) (c_lock x) b (completion_wait x) (devices x))).
Definition set_is_ata (c d : nat) (b : bool) : M ide unit :=
  let* x := chan c in
  let* y := disk c d in
  modify (set_chan c (mk_channel (c_name x) (reg_base x) (irq x) (c_lock x) (expecting_interrupt x) (completion_wait x)
    (<[d := mk_ata_disk (a_name y) (dev_no y) b]> (devices x)))).

Definition reg_data (x : channel) : Z := reg_base x + 0.
Definition reg_error (x : channel) : Z := reg_base x + 1.
Definition reg_nsect (x : channel) : Z := reg_base x + 2.
Definition reg_lbal (x : channel) : Z := reg_base x + 3.
Definition reg_lbam (x : channel) : Z := reg_base x + 4.
Definition reg_lbah (x : channel) : Z := reg_base x + 5.
Definition reg_device (x : channel) : Z := reg_base x + 6.
Definition reg_status (x : channel) : Z := reg_base x + 7.
Definition reg_command (x : channel) : Z := reg_status x.
Definition reg_ctl (x : channel) : Z := reg_base x + 518.       (* 0x206 *)
Definition reg_alt_status (x : channel) : Z := reg_ctl x.

Definition STA_BSY : Z := 128.
Definition STA_DRDY : Z := 64.
Definition STA_DRQ : Z := 8.
Definition CTL_SRST : Z := 4.
Definition DEV_MBS : Z := 160.
Definition DEV_LBA : Z := 64.
Definition DEV_DEV : Z := 16.
Definition CMD_IDENTIFY_DEVICE : Z := 236.
Definition CMD_READ_SECTOR_RETRY : Z := 32.
Definition CMD_WRITE_SECTOR_RETRY : Z := 48.

(** The format of the description of a disk, in which names are quoted. *)
Definition quote : string := String (ascii_of_nat 34) EmptyString.
Definition info_format : string :=
  String.concat quote ["model "; "%s"; ", serial "; "%s"; EmptyString].

Section driver.
(** The speed of the processor, as in [Timer], and the sectors of each drive. *)
Context (ticks_during : Z → Z) (media : nat → nat → list (list Z)).
(** How deep the tables of extended partitions are followed. *)
Context (tables : nat).

(** Sleeping. *)
Definition on_timer {A} (m : M Timer.tstate A) : M ide A :=
  lift (λ s, Timer.mk_tstate (ksched s) (loops s))
    (λ t s, let s := set_ksched (Timer.t_sched t) s in
            mk_ide (ps s) (Timer.loops_per_tick t) (channels s) (log s) (answers s)) m.
Definition timer_msleep (n : Z) : M ide unit := on_timer (Timer.timer_msleep ticks_during n).
Definition timer_usleep (n : Z) : M ide unit := on_timer (Timer.timer_usleep ticks_during n).
Definition timer_nsleep (n : Z) : M ide unit := on_timer (Timer.timer_nsleep ticks_during n).

(** ** Low-level primitives *)

(** [for (i = 0; i < 1000; i++)], with [n] rounds to go. *)
Fixpoint idle_loop (n : nat) (c d : nat) : M ide unit :=
  match n with
  | O =>
      let* y := disk c d in
      say (line "%s: idle timeout") [str (a_name y)]
  | S n =>
      let* x := chan c in
      let* st := inb (reg_status x) in
      if Z.land st (Z.lor STA_BSY STA_DRQ) =? 0 then ret tt
      else timer_usleep 10;;; idle_loop n c d
  end.
Definition wait_until_idle (c d : nat) : M ide unit := idle_loop 1000 c d.

(** [for (i = 0; i < 3000; i++)], with [n] rounds to go. *)
Fixpoint busy_loop (n : nat) (i : Z) (c d : nat) : M ide bool :=
  match n with
  | O => say (line "failed") [];;; ret false
  | S n =>
      let* x := chan c in
      let* y := disk c d in
      (if i =? 700 then say (lit "%s: busy, waiting...") [str (a_name y)] else ret tt);;;
      let* st := inb (reg_alt_status x) in
      if Z.land st STA_BSY =? 0 then
        (if i >=? 700 then say (line "ok") [] else ret tt);;;
        let* st := inb (reg_alt_status x) in
        ret (negb (Z.land st STA_DRQ =? 0))
      else timer_msleep 10;;; busy_loop n (i + 1) c d
  end.
Definition wait_while_busy (c d : nat) : M ide bool := busy_loop 3000 0 c d.

Definition select_device (c d : nat) : M ide unit :=
  let* x := chan c in
  let* y := disk c d in
  let dev := if dev_no y =? 1 then Z.lor DEV_MBS DEV_DEV else DEV_MBS in
  outb (reg_device x) dev;;;
  let* _ := inb (reg_alt_status x) in
  timer_nsleep 400.

Definition select_device_wait (c d : nat) : M ide unit :=
  wait_until_idle c d;;;
  select_device c d;;;
  wait_until_idle c d.

Definition select_sector (c d : nat) (sec_no : Z) : M ide unit :=
  assert (sec_no <? Z.shiftl 1 28);;;
  select_device_wait c d;;;
  let* x := chan c in
  let* y := disk c d in
  outb (reg_nsect x) 1;;;
  outb (reg_lbal x) sec_no;;;
  outb (reg_lbam x) (Z.shiftr sec_no 8);;;
  outb (reg_lbah x) (Z.shiftr sec_no 16);;;
  outb (reg_device x)
    (Z.lor (Z.lor (Z.lor DEV_MBS DEV_LBA) (if dev_no y =? 1 then DEV_DEV else 0)) (Z.shiftr sec_no 24)).

Definition issue_pio_command (c : nat) (command : Z) : M ide unit :=
  let* level := on_sched intr_get_level in
  assert level;;;
  set_expecting c true;;;
  let* x := chan c in
  outb (reg_command x) command.

Definition input_sector (c : nat) : M ide (list Z) :=
  let* x := chan c in insw (reg_data x) 256.
Definition output_sector (c : nat) (sector : list Z) : M ide unit :=
  let* x := chan c in outsw (reg_data x) sector 256.

(** ** Transfers *)

Definition ide_read (c d : nat) (sec_no : Z) : M ide (list Z) :=
  lock_acquire (p_lock c);;;
  select_sector c d sec_no;;;
  issue_pio_command c CMD_READ_SECTOR_RETRY;;;
  sema_down (p_completion c);;;
  let* drq := wait_while_busy c d in
  if negb drq then panic
  else
    let* buffer := input_sector c in
    lock_release (p_lock c);;;
    ret buffer.

Definition ide_write (c d : nat) (sec_no : Z) (buffer : list Z) : M ide unit :=
  lock_acquire (p_lock c);;;
  select_sector c d sec_no;;;
  issue_pio_command c CMD_WRITE_SECTOR_RETRY;;;
  let* drq := wait_while_busy c d in
  if negb drq then panic
  else
    output_sector c buffer;;;
    sema_down (p_completion c);;;
    lock_release (p_lock c).

(** The loop over the channels, from the [c]th on. *)
Fixpoint handler_loop (n c : nat) (vec_no : Z) : M ide unit :=
  match n with
  | O => panic
  | S n =>
      let* x := chan c in
      if vec_no =? irq x then
        if expecting_interrupt x then
          let* _ := inb (reg_status x) in
          sema_up (p_completion c)
        else say (line "%s: unexpected interrupt") [str (c_name x)]
      else handler_loop n (S c) vec_no
  end.
Definition interrupt_handler (vec_no : Z) : M ide unit := handler_loop 2 0 vec_no.
(** ** Detection *)

Definition isspace (c : Z) : bool :=
  (c =? 32) || (c =? 12) || (c =? 10) || (c =? 13) || (c =? 9) || (c =? 11).

(** [for (i = 0; i + 1 < size; i += 2)]: the bytes with every pair swapped. *)
Fixpoint swap_pairs (l : list Z) : list Z :=
  match l with a :: b :: l => b :: a :: swap_pairs l | _ => l end.

(** [for (size--; size > 0; size--)]: the index at which the null goes. *)
Fixpoint last_char (string : list Z) (size : nat) : nat :=
  match size with
  | O => O
  | S n =>
      let c := default 0 (string !! n) in
      if negb (c =? 0) && negb (isspace c) then size else last_char string n
  end.

Definition descramble_ata_string (string : list Z) : list Z :=
  let string := swap_pairs string in
  <[last_char string (Nat.pred (length string)) := 0]> string.

Definition present_probe (c d : nat) : M ide bool :=
  let* x := chan c in
  select_device c d;;;
  outb (reg_nsect x) 85;;;
  outb (reg_lbal x) 170;;;
  outb (reg_nsect x) 170;;;
  outb (reg_lbal x) 85;;;
  outb (reg_nsect x) 85;;;
  outb (reg_lbal x) 170;;;
  let* n := inb (reg_nsect x) in
  if n =? 85 then let* l := inb (reg_lbal x) in ret (l =? 170) else ret false.

(** [for (i = 0; i < 3000; i++)] of reset_channel(). *)
Fixpoint slave_loop (n : nat) (c : nat) : M ide unit :=
  match n with
  | O => ret tt
  | S n =>
      let* x := chan c in
      let* a := inb (reg_nsect x) in
      let* b := if a =? 1 then inb (reg_lbal x) else ret 0 in
      if (a =? 1) && (b =? 1) then ret tt
      else timer_msleep 10;;; slave_loop n c
  end.

Definition reset_channel (c : nat) : M ide unit :=
  let* x := chan c in
  let* present0 := present_probe c 0 in
  let* present1 := present_probe c 1 in
  outb (reg_ctl x) 0;;;
  timer_usleep 10;;;
  outb (reg_ctl x) CTL_SRST;;;
  timer_usleep 10;;;
  outb (reg_ctl x) 0;;;
  timer_msleep 150;;;
  (if present0 : bool then select_device c 0;;; wait_while_busy c 0;;; ret tt else ret tt);;;
  (if present1 : bool then select_device c 1;;; slave_loop 3000 c;;; wait_while_busy c 1;;; ret tt else ret tt).

Definition check_device_type (c d : nat) : M ide bool :=
  let* x := chan c in
  let* y := disk c d in
  select_device c d;;;
  let* error := inb (reg_error x) in
  let* lbam := inb (reg_lbam x) in
  let* lbah := inb (reg_lbah x) in
  let* status := inb (reg_status x) in
  if (negb (error =? 1) && (negb (error =? 129) || (dev_no y =? 1)))
     || (Z.land status STA_DRDY =? 0) || negb (Z.land status STA_BSY =? 0)
  then set_is_ata c d false;;; ret (negb (error =? 129))
  else
    set_is_ata c d ((lbam =? 0) && (lbah =? 0) || (lbam =? 60) && (lbah =? 195));;;
    ret true.

Definition identify_ata_device (c d : nat) : M ide unit :=
  let* y := disk c d in
  assert (is_ata y);;;
  select_device_wait c d;;;
  issue_pio_command c CMD_IDENTIFY_DEVICE;;;
  sema_down (p_completion c);;;
  let* drq := wait_while_busy c d in
  if negb drq then set_is_ata c d false
  else
    let* id := input_sector c in
    let capacity := le_val (slice 120 4 id) in
    let model := descramble_ata_string (slice 20 20 id) in
    let serial := descramble_ata_string (slice 54 40 id) in
    let* extra_info := on_ps (sprint 128 info_format [Str model; Str serial]) in
    if capacity >=? Z.quot (1024 * 1024 * 1024) BLOCK_SECTOR_SIZE then
      say (lit "%s: ignoring ") [str (a_name y)];;;
      on_ps (lift con (λ c s, mk_pstate (pk s) (devs s) c) (print_human_readable_size (u32 (capacity * 512))));;;
      say (line "disk for safety") [];;;
      set_is_ata c d false
    else
      let* block := on_ps (register (a_name y) BLOCK_RAW (Some extra_info) capacity (Disk (media c d))) in
      on_ps (partition_scan tables block).
(** The two devices of a new channel. *)
Definition new_disk (chan_no d : Z) : M ide ata_disk :=
  let* name := on_ps (sprint 8 "hd%c" [Word (97 + chan_no * 2 + d)]) in
  ret (mk_ata_disk name d false).

Definition init_channel (chan_no : nat) : M ide unit :=
  let* name := on_ps (sprint 8 "ide%zu" [Word (Z.of_nat chan_no)]) in
  let* regs :=
    match chan_no with
    | 0%nat => ret (496, 14 + 32)
    | 1%nat => ret (368, 15 + 32)
    | _ => panic
    end in
  let* d0 := new_disk (Z.of_nat chan_no) 0 in
  let* d1 := new_disk (Z.of_nat chan_no) 1 in
  let* _ := chan chan_no in
  modify (set_chan chan_no (mk_channel name regs.1 regs.2 new_lock false (mk_sema 0 []) [d0; d1]));;;
  reset_channel chan_no;;;
  let* slave := check_device_type chan_no 0 in
  (if slave : bool then check_device_type chan_no 1;;; ret tt else ret tt);;;
  let* d0 := disk chan_no 0 in
  (if is_ata d0 then identify_ata_device chan_no 0 else ret tt);;;
  let* d1 := disk chan_no 1 in
  (if is_ata d1 then identify_ata_device chan_no 1 else ret tt).

(** ide_init(); the registration of the interrupt handler is left out. *)
Definition ide_init : M ide unit := init_channel 0;;; init_channel 1.
End driver.

(** The null of a name always goes inside its field, and never after its last
    character: a name that fills the field loses its last character. *)
Lemma descramble_terminates string :
  string ≠ [] → ∃ n, (n < length string)%nat ∧ descramble_ata_string string !! n = Some 0 ∧
    take n (descramble_ata_string string) = take n (swap_pairs string).
Proof.
  intros Hs. unfold descramble_ata_string.
  assert (∀ n (l : list Z), (length l ≤ n)%nat → length (swap_pairs l) = length l) as Hlen.
  { intros n. induction n as [|n IH]; intros [|a [|b l]] Hl; try done; cbn in *; try lia. rewrite IH; lia. }
  specialize (Hlen _ string (le_n _)).
  assert (∀ l n, (last_char l n ≤ n)%nat) as Hle.
  { intros l n. induction n as [|n IH]; cbn [last_char]; [done|]. destruct (_ && _); lia. }
  specialize (Hle (swap_pairs string) (Nat.pred (length (swap_pairs string)))).
  assert (length string ≠ 0)%nat by (by destruct string). eexists. split; [|split].
  2: apply list_lookup_insert_eq. 3: apply take_insert_ge. all: lia.
Qed.

(** ** What a drive sees *)

(** The registers of a channel, with the status last read. *)
Record taskfile := mk_taskfile { t_nsect : Z; t_lbal : Z; t_lbam : Z; t_lbah : Z; t_device : Z; t_status : Z }.

(** A command, with the sector it addresses in LBA mode, and the words that pass,
    with the data-request bit the driver last saw. *)
Inductive action :=
| Command (command : Z) (lba_mode : bool) (dev lba nsect : Z)
| DataIn (drq : bool) (w : Z)
| DataOut (drq : bool) (w : Z).

Definition selected (t : taskfile) : Z := if Z.testbit (t_device t) 4 then 1 else 0.
Definition address (t : taskfile) : Z :=
  t_lbal t + 2 ^ 8 * t_lbam t + 2 ^ 16 * t_lbah t + 2 ^ 24 * (t_device t mod 16).

(** One port access, on the channel with registers at [base]. *)
Definition ata_step (base : Z) (t : taskfile) (e : event) : taskfile * list action :=
  let '(mk_taskfile n l m h d st) := t in
  match e with
  | Out8 p v =>
      match p - base with
      | 2 => (mk_taskfile v l m h d st, [])
      | 3 => (mk_taskfile n v m h d st, [])
      | 4 => (mk_taskfile n l v h d st, [])
      | 5 => (mk_taskfile n l m v d st, [])
      | 6 => (mk_taskfile n l m h v st, [])
      | 7 => (t, [Command v (Z.testbit d 6) (selected t) (address t) n])
      | _ => (t, [])
      end
  | In8 p v => if (p - base =? 7) || (p - base =? 518) then (mk_taskfile n l m h d v, []) else (t, [])
  | In16 p v => if p - base =? 0 then (t, [DataIn (Z.testbit st 3) v]) else (t, [])
  | Out16 p v => if p - base =? 0 then (t, [DataOut (Z.testbit st 3) v]) else (t, [])
  end.

Fixpoint ata_run (base : Z) (t : taskfile) (l : list event) : taskfile * list action :=
  match l with
  | [] => (t, [])
  | e :: l =>
      let r := ata_step base t e in
      let r' := ata_run base r.1 l in
      (r'.1, r.2 ++ r'.2)
  end.

Definition actions (base : Z) (t : taskfile) (l : list event) : list action := (ata_run base t l).2.

(** Words and the bytes of a sector. *)
Definition word_bytes (ws : list Z) : list Z := concat ((λ w, [w mod 256; w / 256]) <$> ws).
Fixpoint byte_words (l : list Z) : list Z :=
  match l with a :: b :: l => a + 256 * b :: byte_words l | _ => [] end.

(** ** Calls and their own port accesses *)

(** What does not change once the channels are set up. *)
Definition fixed (x : channel) : list Z * Z * Z * list (list Z * Z) :=
  (c_name x, reg_base x, irq x, (λ y, (a_name y, dev_no y)) <$> devices x).
Definition static (s : ide) := fixed <$> channels s.

Definition same (s s' : ide) : Prop := static s' = static s ∧ log s' = log s.

#[export] Instance same_preorder : PreOrder same.
Proof. split; [done|]. intros s1 s2 s3 [H1 H2] [H3 H4]. split; congruence. Qed.

Section calls.
Context (st : list (list Z * Z * Z * list (list Z * Z))).

(** The port accesses of a call are those of its segments, whatever happens
    while it waits; [Q] relates them to its result. *)
Fixpoint traced {A} (Q : list event → A → Prop) (w : list event) (s0 : ide) (o : outcome ide A) : Prop :=
  match o with
  | Ok (a, s) => static s = st ∧ ∃ e, log s = log s0 ++ e ∧ Q (w ++ e) a
  | Blocked s r => static s = st ∧ ∃ e, log s = log s0 ++ e ∧ ∀ s1, static s1 = st → traced Q (w ++ e) s1 (r s1)
  | _ => True
  end.
Definition does {A} (Q : list event → A → Prop) (m : M ide A) : Prop :=
  ∀ s, static s = st → traced Q [] s (m s).

Lemma traced_shift {A} (Q Q' : list event → A → Prop) w w0 s s0 e o :
  log s = log s0 ++ e → (∀ x a, Q (w ++ x) a → Q' (w0 ++ e ++ x) a) →
  traced Q w s o → traced Q' w0 s0 o.
Proof.
  revert w w0 s s0 e. induction o as [[a s']| | |s' r IH|]; intros w w0 s s0 e He HQ; cbn [traced]; try done.
  - intros (Hs & e' & He' & Ha). split; [done|]. exists (e ++ e'). rewrite He', He, app_assoc. split; [done|]. by apply HQ.
  - intros (Hs & e' & He' & Ha). split; [done|]. exists (e ++ e'). rewrite He', He, app_assoc. split; [done|].
    intros s1 Hs1. eapply (IH s1 (w ++ e') _ s1 s1 []); [by rewrite app_nil_r| |by apply Ha].
    intros x a Hx. rewrite <- !app_assoc in *. by apply HQ.
Qed.

Lemma traced_bind {A B} (Q : list event → A → Prop) (R : list event → B → Prop) (k : A → M ide B) w s0 o :
  traced Q w s0 o → (∀ w a, Q w a → does (λ w' b, R (w ++ w') b) (k a)) → traced R w s0 (obind o k).
Proof.
  intros Ho Hk. revert w s0 Ho. induction o as [[a s]| | |s r IH|]; intros w s0; cbn [traced obind]; try done.
  - intros (Hs & e & He & HQ). eapply traced_shift; [exact He| |apply (Hk _ _ HQ s Hs)].
    intros x b Hx. cbn in Hx. by rewrite <- app_assoc in Hx.
  - intros (Hs & e & He & HQ). split; [done|]. exists e. split; [done|]. intros s1 Hs1. apply IH. by apply HQ.
Qed.

Lemma does_bind {A B} (Q : list event → A → Prop) (R : list event → B → Prop) (m : M ide A) (k : A → M ide B) :
  does Q m → (∀ w a, Q w a → does (λ w' b, R (w ++ w') b) (k a)) → does R (bind m k).
Proof. intros Hm Hk s Hs. by eapply traced_bind; [apply Hm|]. Qed.

Lemma does_weaken {A} (Q Q' : list event → A → Prop) (m : M ide A) :
  (∀ w a, Q w a → Q' w a) → does Q m → does Q' m.
Proof.
  intros HQ Hm s Hs. eapply (traced_shift Q Q' [] [] s s []); [by rewrite app_nil_r| |by apply Hm].
  intros x a. apply HQ.
Qed.

Lemma does_ret {A} (Q : list event → A → Prop) a : Q [] a → does Q (ret a).
Proof. intros Ha s Hs. split; [done|]. exists []. by rewrite app_nil_r. Qed.

Lemma does_assert (Q : list event → unit → Prop) b : (b = true → Q [] tt) → does Q (assert b).
Proof. intros Hb. destruct b; [by apply does_ret, Hb|done]. Qed.

(** Code that neither accesses a port nor changes the set-up. *)
Abbreviation silent := (Intq.quiet same).

Lemma silent_does {A} (Q : list event → A → Prop) (m : M ide A) : (∀ a, Q [] a) → silent m → does Q m.
Proof.
  intros HQ Hm s Hs. specialize (Hm s). unfold Intq.runs in Hm.
  assert (∀ o s0, static s0 = st → Intq.segments same (λ s _ s', same s s') s0 o → traced Q [] s0 o) as H; [|by apply H].
  clear s Hs Hm m. intros o. induction o as [[a s']| | |s' r IH|]; intros s0 Hs0; cbn [traced Intq.segments]; try done.
  - intros [H1 H2]. split; [congruence|]. exists []. by rewrite app_nil_r.
  - intros [[H1 H2] H3]. split; [congruence|]. exists []. rewrite app_nil_r. split; [done|]. cbn. auto.
Qed.

(** ** Port accesses *)

Lemma does_skip {A B} (R : list event → B → Prop) (m : M ide A) (k : A → M ide B) :
  silent m → (∀ a, does R (k a)) → does R (bind m k).
Proof.
  intros Hm Hk. eapply does_bind; [exact (silent_does (λ w _, w = []) m (λ _, eq_refl) Hm)|].
  intros w a ->. apply Hk.
Qed.

Lemma does_event_then {B} (R : list event → B → Prop) e (k : M ide B) :
  does (λ w' b, R (e :: w') b) k → does R (record_event e;;; k).
Proof.
  intros Hk. apply (does_bind (λ w _, w = [e])); [|intros w ? ->; apply Hk].
  intros s Hs. split; [done|]. by exists [e].
Qed.

Lemma silent_answer : silent next_answer.
Proof. intros s. unfold next_answer. run. destruct (answers s); by cbn. Qed.

Lemma does_outb {B} (R : list event → B → Prop) p v (k : M ide B) :
  does (λ w' b, R (Out8 p (u8 v) :: w') b) k → does R (outb p v;;; k).
Proof. apply does_event_then. Qed.

Lemma does_out p v : does (λ w _, w = [Out8 p (u8 v)]) (outb p v).
Proof. intros s Hs. split; [done|]. by eexists. Qed.

Lemma does_inb {B} (R : list event → B → Prop) p (k : Z → M ide B) :
  (∀ v, does (λ w' b, R (In8 p v :: w') b) (k v)) → does R (bind (inb p) k).
Proof.
  intros Hk. apply (does_bind (λ w v, w = [In8 p v])); [|intros w v ->; apply Hk].
  unfold inb. apply does_skip; [apply silent_answer|]. intros a. apply does_event_then. by apply does_ret.
Qed.

(** Words in and out. *)
Lemma does_insw p n :
  does (λ w l, ∃ ws, w = In16 p <$> ws ∧ length ws = n ∧ l = word_bytes ws) (insw p n).
Proof.
  induction n as [|n IH]; cbn [insw]; [apply does_ret; by exists []|].
  apply does_skip; [apply silent_answer|]. intros a. apply does_event_then.
  eapply does_bind; [exact IH|]. intros w l (ws & -> & <- & ->). apply does_ret.
  exists (u16 a :: ws). by rewrite app_nil_r.
Qed.

Lemma does_outsw p l n :
  does (λ w _, w = Out16 p <$> byte_words (take (2 * n) l) ∧ (2 * n ≤ length l)%nat) (outsw p l n).
Proof.
  revert l. induction n as [|n IH]; intros l; cbn [outsw]; [apply does_ret; simpl; split; [done|lia]|].
  destruct l as [|a [|b l]]; [done..|]. apply does_event_then. eapply does_weaken; [|apply IH].
  intros w ? [-> Hl]. replace (2 * S n)%nat with (S (S (2 * n))) by lia. cbn [take byte_words fmap list_fmap length].
  split; [done|lia].
Qed.

(** ** Silent routines *)

Lemma silent_sched {A} (m : M sched A) : silent (on_sched m).
Proof. unfold on_sched. by apply Intq.quiet_lift. Qed.
Lemma silent_ps {A} (m : M pstate A) : silent (on_ps m).
Proof. unfold on_ps. by apply Intq.quiet_lift. Qed.
Lemma silent_timer {A} (m : M Timer.tstate A) : silent (on_timer m).
Proof. unfold on_timer. by apply Intq.quiet_lift. Qed.
Lemma silent_load {A} (p : ptr ide A) : silent (load p).
Proof. unfold load. apply Intq.quiet_bind; [apply _|apply Intq.quiet_get, _|]. intros s. apply Intq.quiet_deref, _. Qed.

Lemma same_chan c x y s : channels s !! c = Some x → fixed y = fixed x → same s (set_chan c y s).
Proof.
  intros Hx Hf. split; [|done]. unfold static. cbn. rewrite list_fmap_insert, Hf.
  apply list_insert_id. by rewrite list_lookup_fmap, Hx.
Qed.
Lemma same_lock c l s : same s (pstore (p_lock c) l s).
Proof. cbn. destruct (channels s !! c) as [x|] eqn:E; [|done]. by apply (same_chan c x). Qed.
Lemma same_lock_sema c m s : same s (pstore (lock_sema (p_lock c)) m s).
Proof. cbn. destruct (channels s !! c) as [x|] eqn:E; [|done]. by apply (same_chan c x). Qed.
Lemma same_completion c m s : same s (pstore (p_completion c) m s).
Proof. cbn. destruct (channels s !! c) as [x|] eqn:E; [|done]. by apply (same_chan c x). Qed.

Lemma silent_store {A} (p : ptr ide A) a : (∀ s, same s (pstore p a s)) → silent (store p a).
Proof. intros Hp. unfold store. apply Intq.quiet_bind; [apply _|apply silent_load|]. intros _. by apply Intq.quiet_modify. Qed.
Ltac silent_step :=
  match goal with
  | |- ∀ _, _ => intro
  | |- Intq.quiet _ (bind _ _) => apply Intq.quiet_bind; [apply _| |]
  | |- Intq.quiet _ (store _ _) =>
      apply silent_store; intro; first [apply same_lock_sema | apply same_lock | apply same_completion]
  | |- Intq.quiet _ (match ?x with _ => _ end) => destruct x
  | |- Intq.quiet _ (on_sched _) => apply silent_sched
  | |- Intq.quiet _ (on_ps _) => apply silent_ps
  | |- Intq.quiet _ (on_timer _) => apply silent_timer
  | |- Intq.quiet _ (load _) => apply silent_load
  | |- Intq.quiet _ no_fuel => apply Intq.quiet_no_fuel
  | |- Intq.quiet _ (ret _) => apply Intq.quiet_ret, _
  | |- Intq.quiet _ get => apply Intq.quiet_get, _
  | |- Intq.quiet _ (gets _) => apply Intq.quiet_gets, _
  | |- Intq.quiet _ suspend => apply Intq.quiet_suspend, _
  | |- Intq.quiet _ (assert _) => apply Intq.quiet_assert, _
  | |- Intq.quiet _ (deref _) => apply Intq.quiet_deref, _
  | |- _ => assumption
  end.
Ltac silent := repeat silent_step.

Lemma silent_wait n p : (∀ m s, same s (pstore p m s)) → silent (sema_wait n p).
Proof.
  intros Hp. induction n as [|n IH]; cbn [sema_wait]; silent. apply silent_store. apply Hp.
Qed.
Lemma silent_acquire c : silent (lock_acquire (p_lock c)).
Proof.
  unfold lock_acquire, lock_acquire_at, lock_held_by_current_thread, sema_down, sema_down_for, set_holder. silent.
  apply silent_wait. intros m s. apply same_lock_sema.
Qed.
Lemma silent_release c : silent (lock_release (p_lock c)).
Proof. unfold lock_release, lock_release_at, lock_held_by_current_thread, sema_up, set_holder. silent. Qed.
Lemma silent_down c : silent (sema_down (p_completion c)).
Proof.
  unfold sema_down, sema_down_for. silent. apply silent_wait. intros m s. apply same_completion.
Qed.
Lemma silent_chan c : silent (chan c).
Proof. unfold chan. silent. Qed.
Lemma silent_expecting c b : silent (set_expecting c b).
Proof.
  intros s. unfold set_expecting, chan. run. destruct (channels s !! c) as [x|] eqn:E; [|done].
  by apply (same_chan c x).
Qed.

(** ** The routines of the driver *)

Context (c d : nat) (name dname : list Z) (base vec dno : Z) (ds : list (list Z * Z)).
Context (ticks_during : Z → Z).
Context (Hc : st !! c = Some (name, base, vec, ds)) (Hd : ds !! d = Some (dname, dno)).

Lemma does_chan {B} (R : list event → B → Prop) (k : channel → M ide B) :
  (∀ x, reg_base x = base → does R (k x)) → does R (bind (chan c) k).
Proof.
  intros Hk. apply (does_bind (λ w x, w = [] ∧ reg_base x = base)); [|intros w x [-> Hx]; by apply Hk].
  intros s Hs. unfold chan. run. pose proof Hc as Hx. rewrite <- Hs in Hx. unfold static in Hx.
  rewrite list_lookup_fmap in Hx. destruct (channels s !! c) as [x|] eqn:E; [|done].
  injection Hx as _ Hb _ _. cbn. split; [done|]. exists []. by rewrite app_nil_r.
Qed.

Lemma does_disk {B} (R : list event → B → Prop) (k : ata_disk → M ide B) :
  (∀ y, dev_no y = dno → does R (k y)) → does R (bind (disk c d) k).
Proof.
  intros Hk. apply (does_bind (λ w y, w = [] ∧ dev_no y = dno)); [|intros w y [-> Hy]; by apply Hk].
  intros s Hs. unfold disk, chan. run. pose proof Hc as Hx. rewrite <- Hs in Hx. unfold static in Hx.
  rewrite list_lookup_fmap in Hx. destruct (channels s !! c) as [x|] eqn:E; [|done]. injection Hx as _ _ _ Hds.
  pose proof Hd as Hy. rewrite <- Hds, list_lookup_fmap in Hy. cbn.
  destruct (devices x !! d) as [y|]; [|done]. injection Hy as _ Hno.
  cbn. split; [done|]. exists []. by rewrite app_nil_r.
Qed.
(** Reads of the status register, and selections of a drive. *)
Definition poll (e : event) : Prop := ∃ v, e = In8 (base + 7) v ∨ e = In8 (base + 518) v.
Definition harmless (e : event) : Prop := poll e ∨ ∃ v, e = Out8 (base + 6) v.

Lemma poll_status x v : reg_base x = base → poll (In8 (reg_status x) v).
Proof. intros Hx. exists v. left. unfold reg_status. by rewrite Hx. Qed.
Lemma poll_alt x v : reg_base x = base → poll (In8 (reg_alt_status x) v).
Proof. intros Hx. exists v. right. unfold reg_alt_status, reg_ctl. by rewrite Hx. Qed.

Lemma drq_bit v : negb (Z.land v STA_DRQ =? 0) = Z.testbit v 3.
Proof.
  unfold STA_DRQ. replace (Z.land v 8) with (if Z.testbit v 3 then 8 else 0); [by destruct (Z.testbit v 3)|].
  change 8 with (2 ^ 3). apply Z.bits_inj'. intros i Hi. rewrite Z.land_spec, Z.pow2_bits_eqb by done.
  destruct (Z.eqb_spec 3 i) as [<-|Hne]; destruct (Z.testbit v 3) eqn:E; rewrite ?E, ?andb_false_r, ?Z.bits_0; try done.
  change 8 with (2 ^ 3). rewrite Z.pow2_bits_eqb by done. by apply Z.eqb_neq.
Qed.

Lemma does_idle n : does (λ w _, Forall poll w) (idle_loop ticks_during n c d).
Proof.
  induction n as [|n IH]; cbn [idle_loop].
  { apply does_disk. intros y _. apply silent_does; [by constructor|]. apply silent_ps. }
  apply does_chan. intros x Hx. apply does_inb. intros v. destruct (_ =? 0).
  - apply does_ret. constructor; [by apply poll_status|done].
  - apply does_skip; [apply silent_timer|]. intros _. eapply does_weaken; [|exact IH].
    intros w a Hw. constructor; [by apply poll_status|done].
Qed.

Definition ready (w : list event) : Prop := ∃ l v, w = l ++ [In8 (base + 518) v] ∧ Z.testbit v 3 = true.

Lemma does_busy n i : does (λ w b, Forall poll w ∧ (b = true → ready w)) (busy_loop ticks_during n i c d).
Proof.
  revert i. induction n as [|n IH]; intros i; cbn [busy_loop].
  { apply does_skip; [apply silent_ps|]. intros _. by apply does_ret. }
  apply does_chan. intros x Hx. apply does_disk. intros y _.
  apply does_skip; [case_match; [apply silent_ps|apply Intq.quiet_ret, _]|]. intros _.
  apply does_inb. intros v. destruct (_ =? 0).
  - apply does_skip; [case_match; [apply silent_ps|apply Intq.quiet_ret, _]|]. intros _.
    apply does_inb. intros v'. apply does_ret. split; [repeat constructor; by apply poll_alt|].
    rewrite drq_bit. intros Hv. exists [In8 (base + 518) v], v'. unfold reg_alt_status, reg_ctl. by rewrite Hx.
  - apply does_skip; [apply silent_timer|]. intros _. eapply does_weaken; [|apply IH].
    intros w b [Hw Hb]. split; [constructor; [by apply poll_alt|done]|].
    intros E. destruct (Hb E) as (l & v' & -> & Hv). by exists (In8 (reg_alt_status x) v :: l), v'.
Qed.

Lemma does_select : does (λ w _, Forall harmless w) (select_device ticks_during c d).
Proof.
  unfold select_device. apply does_chan. intros x Hx. apply does_disk. intros y _. cbv zeta.
  apply does_outb, does_inb. intros v. apply silent_does; [|apply silent_timer]. intros _.
  constructor; [right; unfold reg_device; rewrite Hx; by eexists|]. repeat constructor. by apply poll_alt.
Qed.

Lemma poll_harmless w : Forall poll w → Forall harmless w.
Proof. intros Hw. eapply Forall_impl; [exact Hw|]. by left. Qed.

Lemma does_select_wait : does (λ w _, Forall harmless w) (select_device_wait ticks_during c d).
Proof.
  unfold select_device_wait. eapply does_bind; [apply does_idle|]. intros w1 ? H1%poll_harmless.
  eapply does_bind; [apply does_select|]. intros w2 ? H2. eapply does_weaken; [|apply does_idle].
  intros w3 ? H3%poll_harmless. by rewrite !Forall_app.
Qed.

Definition sector_writes (sec : Z) : list event :=
  [Out8 (base + 2) 1; Out8 (base + 3) (u8 sec); Out8 (base + 4) (u8 (Z.shiftr sec 8));
   Out8 (base + 5) (u8 (Z.shiftr sec 16));
   Out8 (base + 6) (u8 (Z.lor (Z.lor (Z.lor DEV_MBS DEV_LBA) (if dno =? 1 then DEV_DEV else 0)) (Z.shiftr sec 24)))].

Lemma does_sector sec :
  does (λ w _, ∃ l, w = l ++ sector_writes sec ∧ Forall harmless l ∧ sec < 2 ^ 28) (select_sector ticks_during c d sec).
Proof.
  unfold select_sector. eapply does_bind.
  { apply (does_assert (λ w _, w = [] ∧ sec < 2 ^ 28)). intros Hs%Z.ltb_lt. done. }
  intros w [] [-> Hs]. eapply does_bind; [apply does_select_wait|]. intros w ? Hw. cbn [app].
  apply does_chan. intros x Hx. apply does_disk. intros y Hy. do 4 apply does_outb.
  eapply does_weaken; [|apply does_out]. intros w' _ ->. exists w. unfold sector_writes.
  unfold reg_nsect, reg_lbal, reg_lbam, reg_lbah, reg_device. by rewrite Hx, Hy.
Qed.
Lemma does_command cmd : does (λ w _, w = [Out8 (base + 7) (u8 cmd)]) (issue_pio_command c cmd).
Proof.
  unfold issue_pio_command. apply does_skip; [apply silent_sched|]. intros b.
  apply does_skip; [apply Intq.quiet_assert, _|]. intros _. apply does_skip; [apply silent_expecting|]. intros _.
  apply does_chan. intros x Hx. eapply does_weaken; [|apply does_out].
  intros w _ ->. unfold reg_command, reg_status. by rewrite Hx.
Qed.

(** The port accesses of a transfer up to the data. *)
Definition prologue (cmd sec : Z) (w : list event) : Prop :=
  ∃ l p, w = l ++ sector_writes sec ++ Out8 (base + 7) (u8 cmd) :: p ∧
    Forall harmless l ∧ Forall poll p ∧ ready p ∧ sec < 2 ^ 28.

Lemma does_input :
  does (λ w buf, ∃ ws, w = In16 (base + 0) <$> ws ∧ length ws = 256%nat ∧ buf = word_bytes ws) (input_sector c).
Proof.
  unfold input_sector. apply does_chan. intros x Hx. eapply does_weaken; [|apply does_insw].
  intros w buf. unfold reg_data. by rewrite Hx.
Qed.

Lemma does_output buf :
  does (λ w _, w = Out16 (base + 0) <$> byte_words (take 512 buf) ∧ (512 ≤ length buf)%nat) (output_sector c buf).
Proof.
  unfold output_sector. apply does_chan. intros x Hx. eapply does_weaken; [|apply does_outsw].
  intros w ?. unfold reg_data. by rewrite Hx.
Qed.

Lemma does_read sec :
  does (λ w buf, ∃ w1 ws, w = w1 ++ (In16 (base + 0) <$> ws) ∧ prologue 32 sec w1 ∧ length ws = 256%nat ∧ buf = word_bytes ws)
    (ide_read ticks_during c d sec).
Proof.
  unfold ide_read. apply does_skip; [apply silent_acquire|]. intros _.
  eapply does_bind; [apply does_sector|]. intros w ? (l & -> & Hl & Hs).
  eapply does_bind; [apply does_command|]. intros w ? ->.
  apply does_skip; [apply silent_down|]. intros _.
  eapply does_bind; [apply does_busy|]. intros p [] [Hp Hr]; cbn [negb]; [|done].
  eapply does_bind; [apply does_input|]. intros w buf (ws & -> & Hlen & ->).
  apply does_skip; [apply silent_release|]. intros _. apply does_ret.
  eexists _, ws. split; [by rewrite app_nil_r, !app_assoc|]. split; [|done].
  exists l, p. rewrite <- !app_assoc. split_and!; auto.
Qed.

Lemma does_write sec buf :
  does (λ w _, ∃ w1, w = w1 ++ (Out16 (base + 0) <$> byte_words (take 512 buf)) ∧ prologue 48 sec w1 ∧ (512 ≤ length buf)%nat)
    (ide_write ticks_during c d sec buf).
Proof.
  unfold ide_write. apply does_skip; [apply silent_acquire|]. intros _.
  eapply does_bind; [apply does_sector|]. intros w ? (l & -> & Hl & Hs).
  eapply does_bind; [apply does_command|]. intros w ? ->.
  eapply does_bind; [apply does_busy|]. intros p [] [Hp Hr]; cbn [negb]; [|done].
  eapply does_bind; [apply does_output|]. intros w ? [-> Hlen].
  apply does_skip; [apply silent_down|]. intros _. apply silent_does; [|apply silent_release]. intros _.
  eexists. split; [by rewrite app_nil_r, !app_assoc|]. split; [|done].
  exists l, p. rewrite <- !app_assoc. split_and!; auto.
Qed.

(** ** Reading the accesses *)

Lemma ata_run_app t l1 l2 :
  ata_run base t (l1 ++ l2) =
    ((ata_run base (ata_run base t l1).1 l2).1, (ata_run base t l1).2 ++ (ata_run base (ata_run base t l1).1 l2).2).
Proof.
  revert t. induction l1 as [|e l1 IH]; intros t; cbn [app ata_run fst snd]; [by destruct (ata_run base t l2)|].
  rewrite IH. cbn [fst snd]. by rewrite app_assoc.
Qed.

Lemma run_harmless t l : Forall harmless l → (ata_run base t l).2 = [].
Proof.
  intros Hl. revert t. induction Hl as [|e l He _ IH]; intros t; [done|]. cbn [ata_run snd]. rewrite IH, app_nil_r.
  destruct t. destruct He as [(v & [-> | ->])|(v & ->)]; cbn [ata_step]; rewrite Z.add_simpl_l; done.
Qed.

Definition with_status (t : taskfile) (v : Z) : taskfile :=
  mk_taskfile (t_nsect t) (t_lbal t) (t_lbam t) (t_lbah t) (t_device t) v.

Lemma run_poll t l : Forall poll l → ∃ v, ata_run base t l = (with_status t v, []).
Proof.
  intros Hl. revert t. induction Hl as [|e l (v & He) _ IH]; intros t; [exists (t_status t); by destruct t|].
  cbn [ata_run]. assert (ata_step base t e = (with_status t v, [])) as ->.
  { destruct t. destruct He as [-> | ->]; cbn [ata_step]; rewrite Z.add_simpl_l; done. }
  cbn [fst snd app]. destruct (IH (with_status t v)) as [v' ->]. by exists v'.
Qed.

Lemma run_ready t l : Forall poll l → ready l → ∃ v, ata_run base t l = (with_status t v, []) ∧ Z.testbit v 3 = true.
Proof.
  intros Hl (l' & v & -> & Hv). apply Forall_app in Hl as [Hl _]. exists v. split; [|done].
  rewrite ata_run_app. destruct (run_poll t l' Hl) as [v' ->]. cbn [fst snd ata_run ata_step with_status app].
  by rewrite Z.add_simpl_l.
Qed.

Lemma run_in t ws : ata_run base t (In16 (base + 0) <$> ws) = (t, DataIn (Z.testbit (t_status t) 3) <$> ws).
Proof.
  induction ws as [|w ws IH]; [done|]. cbn [fmap list_fmap ata_run].
  assert (ata_step base t (In16 (base + 0) w) = (t, [DataIn (Z.testbit (t_status t) 3) w])) as ->
    by (destruct t; cbn [ata_step]; by rewrite Z.add_simpl_l).
  cbn [fst]. by rewrite IH.
Qed.

Lemma run_out t ws : ata_run base t (Out16 (base + 0) <$> ws) = (t, DataOut (Z.testbit (t_status t) 3) <$> ws).
Proof.
  induction ws as [|w ws IH]; [done|]. cbn [fmap list_fmap ata_run].
  assert (ata_step base t (Out16 (base + 0) w) = (t, [DataOut (Z.testbit (t_status t) 3) w])) as ->
    by (destruct t; cbn [ata_step]; by rewrite Z.add_simpl_l).
  cbn [fst]. by rewrite IH.
Qed.

(** The last register written: the drive and the top of the sector number. *)
Lemma device_byte h :
  dno = 0 ∨ dno = 1 → 0 ≤ h < 16 →
  let v := u8 (Z.lor (Z.lor (Z.lor DEV_MBS DEV_LBA) (if dno =? 1 then DEV_DEV else 0)) h) in
  Z.testbit v 6 = true ∧ Z.testbit v 4 = (dno =? 1) ∧ v mod 16 = h.
Proof using base dno. clear ticks_during Hc Hd.
  intros Hn Hh.
  assert (forallb (λ n, forallb (λ h,
    let v := u8 (Z.lor (Z.lor (Z.lor DEV_MBS DEV_LBA) (if n =? 1 then DEV_DEV else 0)) h) in
    Z.testbit v 6 && Bool.eqb (Z.testbit v 4) (n =? 1) && (v mod 16 =? h)) (seqZ 0 16)) [0; 1] = true) as H by reflexivity.
  rewrite forallb_forall in H. specialize (H dno ltac:(destruct Hn as [-> | ->]; cbn; auto)). cbv beta in H.
  rewrite forallb_forall in H. specialize (H h). rewrite <- list_elem_of_In, elem_of_seqZ in H.
  specialize (H ltac:(lia)). cbv zeta in H |- *. apply andb_true_iff in H as [[H1 H2%eqb_prop]%andb_true_iff H3%Z.eqb_eq].
  done.
Qed.

Lemma run_sector t sec :
  dno = 0 ∨ dno = 1 → 0 ≤ sec < 2 ^ 28 →
  ∃ t', ata_run base t (sector_writes sec) = (t', []) ∧
    t_nsect t' = 1 ∧ Z.testbit (t_device t') 6 = true ∧ selected t' = dno ∧ address t' = sec.
Proof using base dno. clear ticks_during Hc Hd.
  intros Hn Hs.
  destruct (device_byte (sec / 2 ^ 24) Hn ltac:(dlia)) as (H6 & H4 & Hm).
  destruct t as [n l m h dv sta]. eexists. split.
  - unfold sector_writes. do 6 (cbn [ata_run ata_step fst snd app]; rewrite ?Z.add_simpl_l). reflexivity.
  - rewrite !Z.shiftr_div_pow2 by done. unfold selected, address. cbn [t_nsect t_device t_lbal t_lbam t_lbah].
    rewrite H4, Hm. split_and!; [done|done|destruct Hn as [-> | ->]; done|]. unfold u8. dlia.
Qed.

Lemma run_prologue cmd sec w t :
  dno = 0 ∨ dno = 1 → 0 ≤ sec → in_u8 cmd → prologue cmd sec w →
  ∃ t', ata_run base t w = (t', [Command cmd true dno sec 1]) ∧ Z.testbit (t_status t') 3 = true.
Proof using base dno. clear ticks_during Hc Hd.
  intros Hn Hs Hcmd (l & p & -> & Hl & Hp & Hr & Hs').
  rewrite ata_run_app, (run_harmless t l Hl), ata_run_app.
  destruct (run_sector (ata_run base t l).1 sec Hn ltac:(lia)) as (t1 & -> & E1 & E2 & E3 & E4). cbn [fst snd app].
  cbn [ata_run]. assert (ata_step base t1 (Out8 (base + 7) (u8 cmd)) = (t1, [Command cmd true dno sec 1])) as ->.
  { rewrite u8_small by done. rewrite <- E1, <- E2, <- E3, <- E4. destruct t1. cbn [ata_step]. by rewrite Z.add_simpl_l. }
  cbn [fst snd]. destruct (run_ready t1 p Hp Hr) as (v & -> & Hv). by eexists.
Qed.
End calls.

(** C26. The driver programs the drive for the sector asked for.  Take a call of
    ide_read() or ide_write() on a drive of a channel that has been set up, and
    only the port accesses of that call, whatever other threads and interrupt
    handlers do to the rest of the state while it waits.  If the call returns,
    a drive that sees these accesses receives exactly one command, a read or a
    write of one sector in LBA mode with the number of the sector and of the
    drive; then exactly 256 words pass, in the right direction, after the driver
    has seen the drive's request for data; and they are the bytes of the buffer.
    A sector number of 2^28 or more is never put on the registers. *)
Theorem ide_transfers (ticks_during : Z → Z) (c d : nat) (sec : Z) (buf : list Z)
    (st : list (list Z * Z * Z * list (list Z * Z))) (name dname : list Z) (base vec dno : Z) (ds : list (list Z * Z)) (t : taskfile) :
  st !! c = Some (name, base, vec, ds) → ds !! d = Some (dname, dno) → dno = 0 ∨ dno = 1 → 0 ≤ sec →
  does st (λ w buf, ∃ ws, actions base t w = Command 32 true dno sec 1 :: (DataIn true <$> ws) ∧
      length ws = 256%nat ∧ buf = word_bytes ws ∧ sec < 2 ^ 28) (ide_read ticks_during c d sec) ∧
  does st (λ w _, actions base t w = Command 48 true dno sec 1 :: (DataOut true <$> byte_words (take 512 buf)) ∧
      (512 ≤ length buf)%nat ∧ sec < 2 ^ 28) (ide_write ticks_during c d sec buf).
Proof.
  intros Hc Hd Hn Hs. unfold actions. split.
  - eapply does_weaken; [|by eapply does_read]. intros w b (w1 & ws & -> & Hp & Hlen & ->). exists ws.
    pose proof Hp as (_ & _ & _ & _ & _ & _ & Hlt). rewrite ata_run_app.
    destruct (run_prologue base dno 32 sec w1 t Hn Hs ltac:(done) Hp) as (t' & -> & Hst). cbn [fst snd]. by rewrite run_in, Hst.
  - eapply does_weaken; [|by eapply does_write]. intros w b (w1 & -> & Hp & Hlen).
    pose proof Hp as (_ & _ & _ & _ & _ & _ & Hlt). rewrite ata_run_app.
    destruct (run_prologue base dno 48 sec w1 t Hn Hs ltac:(done) Hp) as (t' & -> & Hst). cbn [fst snd]. by rewrite run_out, Hst.
Qed.

(** A slave drive on the first channel, whose completion interrupt comes at once;
    the words of the sector are 7. *)
Definition demo_disks : list ata_disk := [mk_ata_disk (chars "hda") 0 true; mk_ata_disk (chars "hdb") 1 true].
Definition demo_channels : list channel :=
  [mk_channel (chars "ide0") 496 46 new_lock false (mk_sema 1 []) demo_disks].
Definition demo_ide : ide :=
  let k := fst Intq.demo_machine in
  mk_ide (mk_pstate (mk_kernel (set_intr true (k_sched k)) (k_waiter k) (k_mallocs k)) [] []) 1024 demo_channels []
    ([64; 64; 64; 64; 72] ++ replicate 256 7).

Definition demo_speed (n : Z) : Z := 0.

Lemma ide_transfers_witness :
  match ide_read demo_speed 0 1 300000 demo_ide with
  | Ok (buf, s) => (length (log s), take 4 buf)
  | _ => (0%nat, [])
  end = (268%nat, [7; 0; 7; 0]) ∧
  ∀ buf t,
  does (static demo_ide) (λ w buf, ∃ ws, actions 496 t w = Command 32 true 1 300000 1 :: (DataIn true <$> ws) ∧
      length ws = 256%nat ∧ buf = word_bytes ws ∧ 300000 < 2 ^ 28) (ide_read demo_speed 0 1 300000) ∧
  does (static demo_ide) (λ w _, actions 496 t w = Command 48 true 1 300000 1 :: (DataOut true <$> byte_words (take 512 buf)) ∧
      (512 ≤ length buf)%nat ∧ 300000 < 2 ^ 28) (ide_write demo_speed 0 1 300000 buf).
Proof.
  split; [vm_compute; reflexivity|]. intros buf t.
  eapply (ide_transfers demo_speed 0 1 300000 buf (static demo_ide) _ _ 496 _ 1 _ t);
    [reflexivity|reflexivity|by right|lia].
Defined.

End Ide.
