(* ===== verification/Interrupt.v ===== *)
(** * Interrupt: descriptor tables and dispatch (threads/interrupt.c,
      userprog/gdt.c, userprog/exception.c)

    [Sched] has the interrupt flag and the protocol of external interrupts.
    Here is the rest of interrupt.c: the interrupt descriptor table, the
    registration of handlers, the interrupt controllers and intr_handler() for
    every vector; the segment descriptors of gdt.c; and the exceptions of
    exception.c, with process_exit() and thread_exit(), which end a process that
    faulted.  The addresses of the assembly stubs and the code of the
    handlers are parameters.

    The theorems read the tables as the processor does.  A segment descriptor
    has the fields it was made from.  After the registrations of a kernel, each
    vector enters its own stub, with the privilege level, the kind of gate and
    the handler of its registration, so user code can invoke exactly the vectors
    registered with level 3.  intr_handler() runs the handler and acknowledges
    an external interrupt on the controllers it came through. *)

From Stdlib Require Import ZArith Lia Ascii.
From stdpp Require Import base tactics option list numbers strings gmap.
From S2P Require Import Prelude Sched Synch Block FsState File Directory DirSpec Wait Syscall Stdio StdioSpec Timer.
Import Sched Synch Stdio StdioSpec.

Module Interrupt.

Definition PIC0_CTRL : Z := 32.
Definition PIC0_DATA : Z := 33.
Definition PIC1_CTRL : Z := 160.
Definition PIC1_DATA : Z := 161.
Definition INTR_CNT : Z := 256.
Definition SEL_NULL : Z := 0.
Definition SEL_KCSEG : Z := 8.
Definition SEL_KDSEG : Z := 16.
Definition SEL_UCSEG : Z := 27.
Definition SEL_UDSEG : Z := 35.
Definition SEL_TSS : Z := 40.
Definition SEL_CNT : Z := 6.

(** The registers of the interrupted task, with the fields of the source. *)
Record intr_frame := mk_frame {
  edi : Z; esi : Z; ebp : Z; ebx : Z; edx : Z; ecx : Z; eax : Z;
  gs : Z; fs : Z; es : Z; ds : Z;
  vec_no : Z; error_code : Z; eip : Z; cs : Z; eflags : Z; esp : Z; ss : Z
}.

(** A handler is known by its address. *)
Record istate := mk_istate {
  i_kernel : kernel;
  i_con : list Z;
  idt : list Z;
  intr_handlers : list (option Z);
  intr_names : list (list Z);
  unexpected_cnt : list Z;
  pic : list (Z * Z)
}.

#[global, program] Instance istate_kernel : Kernel istate := {|
  kget := i_kernel;
  kset := λ k s, mk_istate k (i_con s) (idt s) (intr_handlers s) (intr_names s) (unexpected_cnt s) (pic s)
|}.
Next Obligation. done. Qed.
Next Obligation. by intros []. Qed.
Next Obligation. done. Qed.

Definition set_idt (f : list Z → list Z) (s : istate) : istate :=
  mk_istate (i_kernel s) (i_con s) (f (idt s)) (intr_handlers s) (intr_names s) (unexpected_cnt s) (pic s).
Definition set_handlers (f : list (option Z) → list (option Z)) (s : istate) : istate :=
  mk_istate (i_kernel s) (i_con s) (idt s) (f (intr_handlers s)) (intr_names s) (unexpected_cnt s) (pic s).
Definition set_names (f : list (list Z) → list (list Z)) (s : istate) : istate :=
  mk_istate (i_kernel s) (i_con s) (idt s) (intr_handlers s) (f (intr_names s)) (unexpected_cnt s) (pic s).
Definition set_unexpected (f : list Z → list Z) (s : istate) : istate :=
  mk_istate (i_kernel s) (i_con s) (idt s) (intr_handlers s) (intr_names s) (f (unexpected_cnt s)) (pic s).
Definition set_pic (p : list (Z * Z)) (s : istate) : istate :=
  mk_istate (i_kernel s) (i_con s) (idt s) (intr_handlers s) (intr_names s) (unexpected_cnt s) p.

Definition say (format : string) (args : list arg) : M istate unit :=
  lift i_con (λ c s, mk_istate (i_kernel s) c (idt s) (intr_handlers s) (intr_names s) (unexpected_cnt s) (pic s))
    (__printf (chars format ++ [10; 0]) args).
Definition outb (port data : Z) : M istate unit :=
  modify (λ s, set_pic (pic s ++ [(port, u8 data)]) s).

(** ** Segment descriptors (userprog/gdt.c) *)

Definition make_seg_desc {S} (base limit class type dpl granularity : Z) : M S Z :=
  assert (limit <=? 1048575);;;
  assert ((class =? 0) || (class =? 1));;;
  assert ((type >=? 0) && (type <=? 15));;;
  assert ((dpl >=? 0) && (dpl <=? 3));;;
  assert ((granularity =? 0) || (granularity =? 1));;;
  let e0 := Z.lor (Z.land limit 65535) (u32 (Z.shiftl base 16)) in
  let e1 := Z.lor (Z.lor (Z.lor (Z.lor (Z.lor (Z.lor (Z.lor (Z.lor
              (Z.land (Z.shiftr base 16) 255)
              (Z.shiftl type 8))
              (Z.shiftl class 12))
              (Z.shiftl dpl 13))
              (Z.shiftl 1 15))
              (Z.land limit 983040))
              (Z.shiftl 1 22))
              (Z.shiftl granularity 23))
              (Z.land base 4278190080) in
  ret (Z.lor e0 (Z.shiftl e1 32)).

Definition make_code_desc {S} (dpl : Z) : M S Z := make_seg_desc 0 1048575 1 10 dpl 1.
Definition make_data_desc {S} (dpl : Z) : M S Z := make_seg_desc 0 1048575 1 2 dpl 1.
Definition make_tss_desc {S} (laddr : Z) : M S Z := make_seg_desc laddr 103 0 9 0 0.
Definition make_gdtr_operand (limit base : Z) : Z := Z.lor limit (Z.shiftl base 16).

(** The table gdt_init() fills in, for a TSS at address [tss]. *)
Definition gdt_init {S} (tss : Z) : M S (list Z) :=
  let gdt := replicate (Z.to_nat SEL_CNT) 0 in
  let gdt := <[Z.to_nat (SEL_NULL / 8) := 0]> gdt in
  let* d := make_code_desc 0 in
  let gdt := <[Z.to_nat (SEL_KCSEG / 8) := d]> gdt in
  let* d := make_data_desc 0 in
  let gdt := <[Z.to_nat (SEL_KDSEG / 8) := d]> gdt in
  let* d := make_code_desc 3 in
  let gdt := <[Z.to_nat (SEL_UCSEG / 8) := d]> gdt in
  let* d := make_data_desc 3 in
  let gdt := <[Z.to_nat (SEL_UDSEG / 8) := d]> gdt in
  let* d := make_tss_desc tss in
  ret (<[Z.to_nat (SEL_TSS / 8) := d]> gdt).

(** ** Gates *)

Definition make_gate (function dpl type : Z) : M istate Z :=
  assert (negb (function =? 0));;;
  assert ((dpl >=? 0) && (dpl <=? 3));;;
  assert ((type >=? 0) && (type <=? 15));;;
  let e0 := Z.lor (Z.land function 65535) (Z.shiftl SEL_KCSEG 16) in
  let e1 := Z.lor (Z.lor (Z.lor (Z.lor
              (Z.land function 4294901760)
              (Z.shiftl 1 15))
              (Z.shiftl dpl 13))
              (Z.shiftl 0 12))
              (Z.shiftl type 8) in
  ret (Z.lor e0 (Z.shiftl e1 32)).
Definition make_intr_gate (function dpl : Z) : M istate Z := make_gate function dpl 14.
Definition make_trap_gate (function dpl : Z) : M istate Z := make_gate function dpl 15.
Definition make_idtr_operand (limit base : Z) : Z := Z.lor limit (Z.shiftl base 16).

(** ** The interrupt controllers *)

Definition pic_init : M istate unit :=
  outb PIC0_DATA 255;;;
  outb PIC1_DATA 255;;;
  outb PIC0_CTRL 17;;;
  outb PIC0_DATA 32;;;
  outb PIC0_DATA 4;;;
  outb PIC0_DATA 1;;;
  outb PIC1_CTRL 17;;;
  outb PIC1_DATA 40;;;
  outb PIC1_DATA 2;;;
  outb PIC1_DATA 1;;;
  outb PIC0_DATA 0;;;
  outb PIC1_DATA 0.

Definition pic_end_of_interrupt (irq : Z) : M istate unit :=
  assert ((irq >=? 32) && (irq <? 48));;;
  outb 32 32;;;
  if irq >=? 40 then outb 160 32 else ret tt.

Section cpu.
(** The addresses of the stubs in intr-stubs.S. *)
Context (intr_stubs : Z → Z).

(** [for (i = 0; i < INTR_CNT; i++) idt[i] = make_intr_gate (intr_stubs[i], 0)]. *)
Fixpoint idt_loop (n : nat) (i : Z) : M istate unit :=
  match n with
  | O => ret tt
  | S n =>
      let* g := make_intr_gate (intr_stubs i) 0 in
      modify (set_idt <[Z.to_nat i := g]>);;;
      idt_loop n (i + 1)
  end.

(** The names of the exceptions. *)
Definition exception_names : list (Z * string) := [
  (0, "#DE Divide Error"); (1, "#DB Debug Exception"); (2, "NMI Interrupt"); (3, "#BP Breakpoint Exception");
  (4, "#OF Overflow Exception"); (5, "#BR BOUND Range Exceeded Exception"); (6, "#UD Invalid Opcode Exception");
  (7, "#NM Device Not Available Exception"); (8, "#DF Double Fault Exception"); (9, "Coprocessor Segment Overrun");
  (10, "#TS Invalid TSS Exception"); (11, "#NP Segment Not Present"); (12, "#SS Stack Fault Exception");
  (13, "#GP General Protection Exception"); (14, "#PF Page-Fault Exception"); (16, "#MF x87 FPU Floating-Point Error");
  (17, "#AC Alignment Check Exception"); (18, "#MC Machine-Check Exception"); (19, "#XF SIMD Floating-Point Exception")
].

Definition intr_init : M istate unit :=
  pic_init;;;
  idt_loop 256 0;;;
  modify (set_names (λ _, foldr (λ p l, <[Z.to_nat p.1 := chars p.2]> l) (replicate 256 (chars "unknown")) exception_names)).

Definition register_handler (vec_no dpl : Z) (level : bool) (handler : Z) (name : string) : M istate unit :=
  let* s := get in
  let* h := deref (intr_handlers s !! Z.to_nat vec_no) in
  assert (bool_decide (h = None));;;
  let* g := (if level then make_trap_gate (intr_stubs vec_no) dpl else make_intr_gate (intr_stubs vec_no) dpl) in
  modify (set_idt <[Z.to_nat vec_no := g]>);;;
  modify (set_handlers <[Z.to_nat vec_no := Some handler]>);;;
  modify (set_names <[Z.to_nat vec_no := chars name]>).

Definition intr_register_ext (vec_no handler : Z) (name : string) : M istate unit :=
  assert ((vec_no >=? 32) && (vec_no <=? 47));;;
  register_handler vec_no 0 false handler name.

Definition intr_register_int (vec_no dpl : Z) (level : bool) (handler : Z) (name : string) : M istate unit :=
  assert ((vec_no <? 32) || (vec_no >? 47));;;
  register_handler vec_no dpl level handler name.
End cpu.

(** ** Dispatch *)

Definition name_of (vec : Z) : M istate (list Z) := let* s := get in deref (intr_names s !! Z.to_nat vec).

(** What printf() prints of a string argument. *)
Definition str (t : list Z) : arg := Str (t ++ [0]).

Definition unexpected_interrupt (f : intr_frame) : M istate unit :=
  let* s := get in
  let* c := deref (unexpected_cnt s !! Z.to_nat (vec_no f)) in
  let n := u32 (c + 1) in
  modify (set_unexpected <[Z.to_nat (vec_no f) := n]>);;;
  if Z.land n (u32 (n - 1)) =? 0 then
    let* name := name_of (vec_no f) in
    say "Unexpected interrupt %#04x (%s)" [Word (vec_no f); str name]
  else ret tt.

(** [cr2] is the contents of the processor's register. *)
Definition intr_dump_frame (cr2 : Z) (f : intr_frame) : M istate unit :=
  let* name := name_of (vec_no f) in
  say "Interrupt %#04x (%s) at eip=%p" [Word (vec_no f); str name; Word (eip f)];;;
  say " cr2=%08x error=%08x" [Word cr2; Word (error_code f)];;;
  say " eax=%08x ebx=%08x ecx=%08x edx=%08x" [Word (eax f); Word (ebx f); Word (ecx f); Word (edx f)];;;
  say " esi=%08x edi=%08x esp=%08x ebp=%08x" [Word (esi f); Word (edi f); Word (esp f); Word (ebp f)];;;
  say " cs=%04hx ds=%04hx es=%04hx ss=%04hx" [Word (cs f); Word (ds f); Word (es f); Word (ss f)].

Section dispatch.
(** The code of the handlers. *)
Context (call : Z → intr_frame → M istate unit).

Definition external (vec : Z) : bool := (vec >=? 32) && (vec <? 48).

Definition set_context (b : bool) : M istate unit :=
  on_sched (modify (λ s, set_external b (if b then false else yield_on_return s) s)).

Definition intr_handler (frame : intr_frame) : M istate unit :=
  let ext := external (vec_no frame) in
  (if ext then
     let* lvl := on_sched intr_get_level in
     assert (negb lvl);;;
     let* ctx := on_sched intr_context in
     assert (negb ctx);;;
     set_context true
   else ret tt);;;
  let* s := get in
  let* handler := deref (intr_handlers s !! Z.to_nat (vec_no frame)) in
  match handler with
  | Some h => call h frame
  | None =>
      if (vec_no frame =? 39) || (vec_no frame =? 47) then ret tt else unexpected_interrupt frame
  end;;;
  (if ext then
     let* lvl := on_sched intr_get_level in
     assert (negb lvl);;;
     let* ctx := on_sched intr_context in
     assert ctx;;;
     set_context false;;;
     pic_end_of_interrupt (vec_no frame);;;
     let* s := get in
     if yield_on_return (ksched s) then on_sched Timer.thread_yield else ret tt
   else ret tt).
End dispatch.

(** ** Exceptions (userprog/exception.c) *)

Definition PF_P : Z := 1.
Definition PF_W : Z := 2.
Definition PF_U : Z := 4.

(** The state adds the process as [Syscall] has it (its files, address space
    and wait-status records), the threads that wait on the semaphore of each
    record, and the count of page faults.  The scheduler is the one of the
    interrupt state: the file system runs on it. *)
Record xstate := mk_xstate {
  x_i : istate;
  x_u : Syscall.ustate;
  x_waiters : gmap Z (list Z);
  page_fault_cnt : Z
}.
Definition with_i (i : istate) (s : xstate) : xstate := mk_xstate i (x_u s) (x_waiters s) (page_fault_cnt s).
Definition with_u (u : Syscall.ustate) (s : xstate) : xstate := mk_xstate (x_i s) u (x_waiters s) (page_fault_cnt s).
Definition x_wait (s : xstate) : Wait.pstate := Syscall.uproc (x_u s).
Definition with_wait (w : Wait.pstate) (s : xstate) : xstate := with_u (Syscall.set_uproc w (x_u s)) s.

#[global, program] Instance xstate_kernel : Kernel xstate := {|
  kget := λ s, kget (x_i s);
  kset := λ k s, with_i (kset k (x_i s)) s
|}.
Next Obligation. done. Qed.
Next Obligation. by intros [[] ? ? ?]. Qed.
Next Obligation. done. Qed.

Definition on_i {A} (m : M istate A) : M xstate A := lift x_i with_i m.
Definition on_wait {A} (m : M Wait.pstate A) : M xstate A := lift x_wait with_wait m.

(** Routines of the file system run with the scheduler of the machine. *)
Definition on_u {A} (m : M Syscall.ustate A) : M xstate A :=
  lift (λ s, Syscall.set_ufs (kset (kget s) (Syscall.ufs (x_u s))) (x_u s))
       (λ u s, kset (kget (Syscall.ufs u)) (with_u u s)) m.

(** [&ws->o_sem_exited] of the record at [p]. *)
Definition exit_sema (p : Z) : ptr xstate semaphore :=
  mk_ptr
    (λ s, w ← Wait.statuses (x_wait s) !! p;
          Some (mk_sema (Wait.o_sem_exited w) (default [] (x_waiters s !! p))))
    (λ sm s, match Wait.statuses (x_wait s) !! p with
             | None => s
             | Some w =>
                 let s := with_wait (Wait.set_statuses <[p := Wait.with_sem (value sm) w]> (x_wait s)) s in
                 mk_xstate (x_i s) (x_u s) (<[p := waiters sm]> (x_waiters s)) (page_fault_cnt s)
             end).

Section exit.
Context (dev : Z) (n : nat).

(** process_exit() of thread [t]: its files and descriptors are closed, its
    address space goes, the parent is told and the current directory closed. *)
Definition process_exit (t : Z) : M xstate unit :=
  let* s := get in
  on_u (Syscall.on_fs (File.file_close (SectorStore0 := FsState.cache_store dev) n (Syscall.uexe (x_u s))));;;
  on_u (Syscall.close_fds dev n 128 0);;;
  on_u (modify (Syscall.set_umem (λ _, ∅)));;;
  let* q := on_wait (Wait.proc_at t) in
  sema_up (exit_sema (Wait.o_wait_status q));;;
  let* s := get in
  on_u (Syscall.on_fs (Directory.dir_close (SectorStore0 := FsState.cache_store dev) n (Syscall.ucwd (x_u s)))).

(** thread_exit(): the process's part, the references to the records and the
    switch to the next thread.  It does not return to its caller. *)
Definition thread_exit (t : Z) : M xstate unit :=
  let* ctx := on_sched intr_context in
  assert (negb ctx);;;
  process_exit t;;;
  on_wait (Wait.thread_exit_status t);;;
  on_sched thread_exit_switch.

Definition kill (cr2 : Z) (f : intr_frame) : M xstate unit :=
  let* t := on_sched thread_current in
  let* s := get in
  let* th := deref (threads (ksched s) !! t) in
  if cs f =? SEL_UCSEG then
    on_wait (Wait.kill_status t);;;
    let* nm := on_i (name_of (vec_no f)) in
    on_i (say "%s: dying due to interrupt %#04x (%s)." [str (name th); Word (vec_no f); str nm]);;;
    on_i (intr_dump_frame cr2 f);;;
    on_i (say "%s: exit(%d)" [str (name th); Word (u32 (-1))]);;;
    thread_exit t
  else if cs f =? SEL_KCSEG then
    on_i (intr_dump_frame cr2 f);;;
    panic
  else
    let* nm := on_i (name_of (vec_no f)) in
    on_i (say "Interrupt %#04x (%s) in unknown segment %04x" [Word (vec_no f); str nm; Word (cs f)]);;;
    thread_exit t.

Definition page_fault (cr2 : Z) (f : intr_frame) : M xstate unit :=
  on_sched intr_enable;;;
  modify (λ s, mk_xstate (x_i s) (x_u s) (x_waiters s) (s64 (page_fault_cnt s + 1)));;;
  let not_present := Z.land (error_code f) PF_P =? 0 in
  let write := negb (Z.land (error_code f) PF_W =? 0) in
  let user := negb (Z.land (error_code f) PF_U =? 0) in
  on_i (say "Page fault at %p: %s error %s page in %s context."
    [Word cr2; str (chars (if not_present then "not present" else "rights violation"));
     str (chars (if write then "writing" else "reading")); str (chars (if user then "user" else "kernel"))]);;;
  kill cr2 f.
End exit.

Section exceptions.
Context (intr_stubs : Z → Z) (kill_addr page_fault_addr : Z).

Definition exception_init : M istate unit :=
  let reg := intr_register_int intr_stubs in
  reg 3 3 true kill_addr "#BP Breakpoint Exception";;;
  reg 4 3 true kill_addr "#OF Overflow Exception";;;
  reg 5 3 true kill_addr "#BR BOUND Range Exceeded Exception";;;
  reg 0 0 true kill_addr "#DE Divide Error";;;
  reg 1 0 true kill_addr "#DB Debug Exception";;;
  reg 6 0 true kill_addr "#UD Invalid Opcode Exception";;;
  reg 7 0 true kill_addr "#NM Device Not Available Exception";;;
  reg 11 0 true kill_addr "#NP Segment Not Present";;;
  reg 12 0 true kill_addr "#SS Stack Fault Exception";;;
  reg 13 0 true kill_addr "#GP General Protection Exception";;;
  reg 16 0 true kill_addr "#MF x87 FPU Floating-Point Error";;;
  reg 19 0 true kill_addr "#XF SIMD Floating-Point Exception";;;
  reg 14 0 false page_fault_addr "#PF Page-Fault Exception".
End exceptions.

(** ** Fields *)

Lemma lor_add k a b : 0 ≤ k → 0 ≤ a < 2 ^ k → b mod 2 ^ k = 0 → Z.lor a b = a + b.
Proof.
  intros Hk Ha Hb. apply Z.div_exact in Hb; [|apply Z.pow_nonzero; lia]. rewrite Hb.
  assert (Z.land a (2 ^ k * (b / 2 ^ k)) = 0) as Hand.
  { apply Z.bits_inj'. intros i Hi. rewrite Z.land_spec, Z.bits_0, Z.mul_comm.
    destruct (decide (i < k)); [rewrite Z.mul_pow2_bits_low by lia; apply andb_false_r|].
    rewrite <- (Z.mod_small a (2 ^ k)) by lia. by rewrite Z.mod_pow2_bits_high by lia. }
  by rewrite Z.add_nocarry_lxor, Z.lxor_lor by done.
Qed.

Lemma lor_add' k a b : 0 ≤ k → a mod 2 ^ k = 0 → 0 ≤ b < 2 ^ k → Z.lor a b = a + b.
Proof. intros Hk Ha Hb. rewrite Z.lor_comm, (lor_add k) by done. lia. Qed.

Lemma land_between f k n : 0 ≤ f < 2 ^ n → 0 ≤ k ≤ n → Z.land f (2 ^ n - 2 ^ k) = 2 ^ k * (f / 2 ^ k).
Proof.
  intros Hf Hk. replace (2 ^ n - 2 ^ k) with (2 ^ k * Z.ones (n - k)).
  2: { rewrite Z.ones_equiv. replace (2 ^ n) with (2 ^ k * 2 ^ (n - k)) by (rewrite <- Z.pow_add_r by lia; f_equal; lia). lia. }
  apply Z.bits_inj'. intros i Hi. rewrite Z.land_spec, !(Z.mul_comm (2 ^ k)).
  destruct (decide (i < k)); [rewrite !Z.mul_pow2_bits_low by lia; apply andb_false_r|].
  rewrite !Z.mul_pow2_bits by lia. rewrite Z.div_pow2_bits by lia. replace (i - k + k) with i by lia.
  destruct (decide (i < n)); [rewrite Z.ones_spec_low by lia; apply andb_true_r|].
  rewrite <- (Z.mod_small f (2 ^ n)) by lia. by rewrite Z.mod_pow2_bits_high by lia.
Qed.

Lemma land_low f n : 0 ≤ n → Z.land f (2 ^ n - 1) = f mod 2 ^ n.
Proof. intros Hn. rewrite <- Z.land_ones by done. f_equal. rewrite Z.ones_equiv. lia. Qed.

(** The [n] bits of [v] from bit [lo] on. *)
Definition bits (lo n v : Z) : Z := (v / 2 ^ lo) mod 2 ^ n.

(** A segment descriptor as the processor reads it. *)
Definition seg_base (v : Z) : Z := bits 16 24 v + 2 ^ 24 * bits 56 8 v.
Definition seg_limit (v : Z) : Z := bits 0 16 v + 2 ^ 16 * bits 48 4 v.
Definition seg_type (v : Z) : Z := bits 40 4 v.
Definition seg_class (v : Z) : Z := bits 44 1 v.
Definition seg_dpl (v : Z) : Z := bits 45 2 v.
Definition seg_present (v : Z) : Z := bits 47 1 v.
Definition seg_granularity (v : Z) : Z := bits 55 1 v.

(** A gate as the processor reads it. *)
Definition gate_offset (v : Z) : Z := bits 0 16 v + 2 ^ 16 * bits 48 16 v.
Definition gate_selector (v : Z) : Z := bits 16 16 v.
Definition gate_type (v : Z) : Z := bits 40 4 v.
Definition gate_system (v : Z) : Z := bits 44 1 v.
Definition gate_dpl (v : Z) : Z := bits 45 2 v.
Definition gate_present (v : Z) : Z := bits 47 1 v.

Definition desc_value (base limit class type dpl granularity : Z) : Z :=
  limit mod 2 ^ 16 + 2 ^ 16 * (base mod 2 ^ 16) +
  2 ^ 32 * (base / 2 ^ 16 mod 2 ^ 8 + 2 ^ 8 * type + 2 ^ 12 * class + 2 ^ 13 * dpl + 2 ^ 15 +
            2 ^ 16 * (limit / 2 ^ 16) + 2 ^ 22 + 2 ^ 23 * granularity + 2 ^ 24 * (base / 2 ^ 24)).

Lemma make_seg_desc_ok {S} base limit class type dpl granularity (s : S) :
  in_u32 base → 0 ≤ limit < 2 ^ 20 → 0 ≤ class ≤ 1 → 0 ≤ type ≤ 15 → 0 ≤ dpl ≤ 3 → 0 ≤ granularity ≤ 1 →
  make_seg_desc base limit class type dpl granularity s = Ok (desc_value base limit class type dpl granularity, s).
Proof.
  intros Hb Hl Hc Ht Hd Hg. unfold make_seg_desc, in_u32 in *.
  do 5 (rewrite bind_assert by lia). unfold ret. do 2 f_equal.
  change 65535 with (2 ^ 16 - 1). change 255 with (2 ^ 8 - 1). change 983040 with (2 ^ 20 - 2 ^ 16).
  change 4278190080 with (2 ^ 32 - 2 ^ 24).
  rewrite !land_low, !land_between, !Z.shiftl_mul_pow2, Z.shiftr_div_pow2 by lia.
  replace (u32 (base * 2 ^ 16)) with (2 ^ 16 * (base mod 2 ^ 16)) by (unfold u32; dlia).
  rewrite (lor_add 16 (limit mod 2 ^ 16)) by dlia.
  pose proof (Z.mod_pos_bound limit (2 ^ 16) ltac:(done)). pose proof (Z.mod_pos_bound base (2 ^ 16) ltac:(done)).
  pose proof (Z.mod_pos_bound (base / 2 ^ 16) (2 ^ 8) ltac:(done)).
  assert (0 ≤ limit / 2 ^ 16 < 16) by dlia. assert (0 ≤ base / 2 ^ 24 < 256) by dlia.
  rewrite (lor_add 8 _ (type * 2 ^ 8)) by dlia. rewrite (lor_add 12 _ (class * 2 ^ 12)) by dlia.
  rewrite (lor_add 13 _ (dpl * 2 ^ 13)) by dlia. rewrite (lor_add 15 _ (1 * 2 ^ 15)) by dlia.
  rewrite (lor_add 16 _ (2 ^ 16 * (limit / 2 ^ 16))) by dlia. rewrite (lor_add 22 _ (1 * 2 ^ 22)) by dlia.
  rewrite (lor_add 23 _ (granularity * 2 ^ 23)) by dlia. rewrite (lor_add 24 _ (2 ^ 24 * (base / 2 ^ 24))) by dlia.
  rewrite (lor_add 32) by dlia.
  unfold desc_value. lia.
Qed.

Lemma desc_fields base limit class type dpl granularity :
  in_u32 base → 0 ≤ limit < 2 ^ 20 → 0 ≤ class ≤ 1 → 0 ≤ type ≤ 15 → 0 ≤ dpl ≤ 3 → 0 ≤ granularity ≤ 1 →
  let v := desc_value base limit class type dpl granularity in
  seg_base v = base ∧ seg_limit v = limit ∧ seg_class v = class ∧ seg_type v = type ∧ seg_dpl v = dpl ∧
  seg_granularity v = granularity ∧ seg_present v = 1 ∧ 0 ≤ v < 2 ^ 64.
Proof.
  intros Hb Hl Hc Ht Hd Hg. cbv zeta. unfold in_u32 in *.
  assert (base mod 2 ^ 16 + 2 ^ 16 * (base / 2 ^ 16 mod 2 ^ 8) + 2 ^ 24 * (base / 2 ^ 24) = base) as Eb by dlia.
  assert (limit mod 2 ^ 16 + 2 ^ 16 * (limit / 2 ^ 16) = limit) as El by dlia.
  pose proof (Z.mod_pos_bound limit (2 ^ 16) ltac:(done)). pose proof (Z.mod_pos_bound base (2 ^ 16) ltac:(done)).
  pose proof (Z.mod_pos_bound (base / 2 ^ 16) (2 ^ 8) ltac:(done)).
  assert (0 ≤ limit / 2 ^ 16 < 16) by dlia. assert (0 ≤ base / 2 ^ 24 < 256) by dlia.
  unfold seg_base, seg_limit, seg_class, seg_type, seg_dpl, seg_granularity, seg_present, desc_value.
  revert Eb El. generalize dependent (limit mod 2 ^ 16). generalize dependent (limit / 2 ^ 16).
  generalize dependent (base mod 2 ^ 16). generalize dependent (base / 2 ^ 16 mod 2 ^ 8). generalize dependent (base / 2 ^ 24).
  intros b2 H2 b1 H1 b0 H0 l1 Hl1 l0 Hl0 <- <-. unfold bits.
  split_and!; dlia.
Qed.

Definition gate_value (f dpl type : Z) : Z :=
  f mod 2 ^ 16 + 2 ^ 16 * SEL_KCSEG + 2 ^ 32 * (2 ^ 8 * type + 2 ^ 13 * dpl + 2 ^ 15 + 2 ^ 16 * (f / 2 ^ 16)).

Lemma make_gate_ok f dpl type s :
  0 < f < 2 ^ 32 → 0 ≤ dpl ≤ 3 → 0 ≤ type ≤ 15 → make_gate f dpl type s = Ok (gate_value f dpl type, s).
Proof.
  intros Hf Hd Ht. unfold make_gate. do 3 (rewrite bind_assert by lia). unfold ret. do 2 f_equal.
  change 65535 with (2 ^ 16 - 1). change 4294901760 with (2 ^ 32 - 2 ^ 16).
  rewrite !land_low, !land_between, !Z.shiftl_mul_pow2 by lia. change (0 * 2 ^ 12) with 0. rewrite Z.lor_0_r.
  unfold SEL_KCSEG. pose proof (Z.mod_pos_bound f (2 ^ 16) ltac:(done)). assert (0 ≤ f / 2 ^ 16 < 2 ^ 16) by dlia.
  rewrite (lor_add 16 (f mod 2 ^ 16)) by dlia. rewrite (lor_add' 16 _ (1 * 2 ^ 15)) by dlia.
  rewrite (lor_add' 15 _ (dpl * 2 ^ 13)) by dlia. rewrite (lor_add' 13 _ (type * 2 ^ 8)) by dlia.
  rewrite (lor_add 32) by dlia. unfold gate_value, SEL_KCSEG. lia.
Qed.

Lemma gate_fields f dpl type :
  0 < f < 2 ^ 32 → 0 ≤ dpl ≤ 3 → 0 ≤ type ≤ 15 →
  let v := gate_value f dpl type in
  gate_offset v = f ∧ gate_selector v = SEL_KCSEG ∧ gate_type v = type ∧ gate_dpl v = dpl ∧
  gate_system v = 0 ∧ gate_present v = 1.
Proof.
  intros Hf Hd Ht. cbv zeta. assert (f mod 2 ^ 16 + 2 ^ 16 * (f / 2 ^ 16) = f) as Ef by dlia.
  pose proof (Z.mod_pos_bound f (2 ^ 16) ltac:(done)). assert (0 ≤ f / 2 ^ 16 < 2 ^ 16) by dlia.
  unfold gate_offset, gate_selector, gate_type, gate_dpl, gate_system, gate_present, gate_value, SEL_KCSEG.
  revert Ef. generalize dependent (f mod 2 ^ 16). generalize dependent (f / 2 ^ 16).
  intros f1 H1 f0 H0 <-. unfold bits. split_and!; dlia.
Qed.

(** ** The global descriptor table *)

(** A flat 4 GB code or data segment. *)
Definition flat (type dpl : Z) (v : Z) : Prop :=
  seg_base v = 0 ∧ seg_limit v = 1048575 ∧ seg_granularity v = 1 ∧ seg_class v = 1 ∧
  seg_type v = type ∧ seg_dpl v = dpl ∧ seg_present v = 1.

Lemma flat_desc type dpl : 0 ≤ type ≤ 15 → 0 ≤ dpl ≤ 3 → flat type dpl (desc_value 0 1048575 1 type dpl 1).
Proof.
  intros Ht Hd. destruct (desc_fields 0 1048575 1 type dpl 1) as (H1 & H2 & H3 & H4 & H5 & H6 & H7 & _);
    [unfold in_u32; lia..|]. unfold flat. auto 10.
Qed.

(** gdt_init() builds the table its selectors promise, as the processor reads
    it: kernel and user code and data segments that cover the whole address
    space, the user ones with privilege level 3, which is also the requested
    level of their selectors, and a task-state segment of 104 bytes at the
    address of the TSS, whatever that is. *)
Theorem gdt_segments {S} (tss : Z) (s : S) :
  in_u32 tss →
  ∃ gdt, gdt_init tss s = Ok (gdt, s) ∧ zlen gdt = SEL_CNT ∧ gdt !! 0%nat = Some 0 ∧
    Forall (λ r : Z * Z * Z, let '(sel, type, dpl) := r in
        ∃ v, gdt !! Z.to_nat (sel / 8) = Some v ∧ flat type dpl v ∧ sel mod 4 = dpl)
      [(SEL_KCSEG, 10, 0); (SEL_KDSEG, 2, 0); (SEL_UCSEG, 10, 3); (SEL_UDSEG, 2, 3)] ∧
    ∃ v, gdt !! Z.to_nat (SEL_TSS / 8) = Some v ∧ seg_base v = tss ∧ seg_limit v = 103 ∧
      seg_granularity v = 0 ∧ seg_class v = 0 ∧ seg_type v = 9 ∧ seg_dpl v = 0 ∧ seg_present v = 1.
Proof.
  intros Ht. unfold gdt_init, make_code_desc, make_data_desc, make_tss_desc.
  do 5 (erewrite bind_ok by (apply make_seg_desc_ok; unfold in_u32 in *; lia)).
  eexists. split; [reflexivity|]. split; [reflexivity|]. split; [reflexivity|]. split.
  - repeat apply Forall_cons_2; [..|apply Forall_nil_2]; eexists;
      (split; [reflexivity|]; split; [apply flat_desc; lia|reflexivity]).
  - eexists. split; [reflexivity|].
    destruct (desc_fields tss 103 0 9 0 0) as (? & ? & ? & ? & ? & ? & ? & _); [unfold in_u32 in *; lia..|]. done.
Qed.

Lemma gdt_segments_witness :
  ∃ gdt, gdt_init (S := unit) 3222290432 tt = Ok (gdt, tt) ∧ zlen gdt = SEL_CNT ∧ gdt !! 0%nat = Some 0 ∧
    Forall (λ r : Z * Z * Z, let '(sel, type, dpl) := r in
        ∃ v, gdt !! Z.to_nat (sel / 8) = Some v ∧ flat type dpl v ∧ sel mod 4 = dpl)
      [(SEL_KCSEG, 10, 0); (SEL_KDSEG, 2, 0); (SEL_UCSEG, 10, 3); (SEL_UDSEG, 2, 3)] ∧
    ∃ v, gdt !! Z.to_nat (SEL_TSS / 8) = Some v ∧ seg_base v = 3222290432 ∧ seg_limit v = 103 ∧
      seg_granularity v = 0 ∧ seg_class v = 0 ∧ seg_type v = 9 ∧ seg_dpl v = 0 ∧ seg_present v = 1.
Proof. apply (gdt_segments 3222290432 tt). unfold in_u32. lia. Defined.

(** ** Registrations *)

Inductive registration :=
| Ext (vec handler : Z) (name : string)
| Int (vec dpl : Z) (level : bool) (handler : Z) (name : string).

Definition r_vec (r : registration) : Z := match r with Ext v _ _ | Int v _ _ _ _ => v end.
Definition r_dpl (r : registration) : Z := match r with Ext _ _ _ => 0 | Int _ d _ _ _ => d end.
Definition r_level (r : registration) : bool := match r with Ext _ _ _ => false | Int _ _ l _ _ => l end.
Definition r_handler (r : registration) : Z := match r with Ext _ h _ | Int _ _ _ h _ => h end.

(** What the two registration functions check. *)
Definition reg_ok (r : registration) : Prop :=
  match r with
  | Ext v _ _ => 32 ≤ v ≤ 47
  | Int v d _ _ _ => (0 ≤ v < 32 ∨ 47 < v < 256) ∧ 0 ≤ d ≤ 3
  end.

Definition registered (v : Z) (l : list registration) : option registration :=
  List.find (λ r, r_vec r =? v) l.

Section registrations.
Context (stubs : Z → Z) (Hstubs : ∀ v, 0 ≤ v < 256 → 0 < stubs v < 2 ^ 32).

Definition reg_run (r : registration) : M istate unit :=
  match r with
  | Ext v h n => intr_register_ext stubs v h n
  | Int v d l h n => intr_register_int stubs v d l h n
  end.
Fixpoint regs_run (l : list registration) : M istate unit :=
  match l with [] => ret tt | r :: l => reg_run r;;; regs_run l end.

(** The tables after the registrations [l]. *)
Record table (s : istate) (l : list registration) : Prop := {
  tb_len : length (idt s) = 256%nat ∧ length (intr_handlers s) = 256%nat ∧ length (intr_names s) = 256%nat;
  tb_idt : ∀ v, 0 ≤ v < 256 → idt s !! Z.to_nat v = Some
    (gate_value (stubs v) (from_option r_dpl 0 (registered v l)) (if from_option r_level false (registered v l) then 15 else 14));
  tb_handler : ∀ v, 0 ≤ v < 256 → intr_handlers s !! Z.to_nat v = Some (r_handler <$> registered v l)
}.

Lemma registered_snoc v l r :
  registered v (l ++ [r]) = match registered v l with Some x => Some x | None => if r_vec r =? v then Some r else None end.
Proof.
  unfold registered. induction l as [|x l IH]; cbn [app List.find]; [done|]. by destruct (r_vec x =? v).
Qed.

Lemma registered_None v l : v ∉ (r_vec <$> l) → registered v l = None.
Proof.
  unfold registered. induction l as [|x l IH]; cbn [List.find fmap list_fmap]; [done|].
  intros [H1 H2]%not_elem_of_cons. rewrite (proj2 (Z.eqb_neq _ _)) by congruence. auto.
Qed.

Lemma reg_vec r : reg_ok r → 0 ≤ r_vec r < 256 ∧ 0 ≤ r_dpl r ≤ 3.
Proof. destruct r; cbn; lia. Qed.

(** Both functions check the vector and register it. *)
Lemma reg_run_ok r s : reg_ok r →
  reg_run r s = register_handler stubs (r_vec r) (r_dpl r) (r_level r) (r_handler r)
    (match r with Ext _ _ n | Int _ _ _ _ n => n end) s.
Proof.
  destruct r; cbn [reg_ok reg_run r_vec r_dpl r_level r_handler]; intros Hr;
    unfold intr_register_ext, intr_register_int; by rewrite bind_assert by lia.
Qed.

Lemma register_step s l r :
  table s l → reg_ok r → registered (r_vec r) l = None →
  ∃ s', reg_run r s = Ok (tt, s') ∧ table s' (l ++ [r]).
Proof.
  intros [(L1 & L2 & L3) Hi Hh] Hr Hn. pose proof (reg_vec r Hr) as [Hv Hd].
  rewrite reg_run_ok by done. unfold register_handler. run.
  erewrite bind_deref by (by rewrite Hh, Hn). rewrite bind_assert by done.
  assert (∀ k : Z → M istate unit,
    bind (if r_level r then make_trap_gate (stubs (r_vec r)) (r_dpl r) else make_intr_gate (stubs (r_vec r)) (r_dpl r)) k s =
    k (gate_value (stubs (r_vec r)) (r_dpl r) (if r_level r then 15 else 14)) s) as Hg.
  { intros k. destruct (r_level r); unfold make_trap_gate, make_intr_gate;
      by erewrite bind_ok by (apply make_gate_ok; [by apply Hstubs|done|lia]). }
  rewrite Hg. run. eexists. split; [reflexivity|]. cbn.
  split; cbn.
  - by rewrite !length_insert.
  - intros v Hv'. rewrite registered_snoc. destruct (Z.eqb_spec (r_vec r) v) as [<-|Hne].
    + rewrite list_lookup_insert_eq, Hn by lia. done.
    + rewrite list_lookup_insert_ne by lia. rewrite Hi by done. by destruct (registered v l).
  - intros v Hv'. rewrite registered_snoc. destruct (Z.eqb_spec (r_vec r) v) as [<-|Hne].
    + rewrite list_lookup_insert_eq, Hn by lia. done.
    + rewrite list_lookup_insert_ne by lia. rewrite Hh by done. by destruct (registered v l).
Qed.

Lemma regs_run_table s l0 l :
  table s l0 → Forall reg_ok l → NoDup (r_vec <$> (l0 ++ l)) →
  ∃ s', regs_run l s = Ok (tt, s') ∧ table s' (l0 ++ l).
Proof.
  intros Ht Hl. revert s l0 Ht. induction Hl as [|r l Hr _ IH]; intros s l0 Ht Hnd.
  { rewrite app_nil_r. by exists s. }
  cbn [regs_run]. destruct (register_step s l0 r Ht Hr) as (s1 & E1 & Ht1).
  { apply registered_None. rewrite fmap_app, fmap_cons in Hnd. apply NoDup_app in Hnd as (_ & Hnd & _).
    intros Hin. apply (Hnd _ Hin). by left. }
  rewrite (bind_ok _ _ _ _ _ E1). rewrite cons_middle, app_assoc in Hnd |- *. by apply IH.
Qed.

Lemma idt_loop_table n i s :
  0 ≤ i → (Z.to_nat i + n = 256)%nat → length (idt s) = 256%nat →
  ∃ l, idt_loop stubs n i s = Ok (tt, set_idt (λ _, l) s) ∧ length l = 256%nat ∧
    (∀ v, 0 ≤ v < i → l !! Z.to_nat v = idt s !! Z.to_nat v) ∧
    ∀ v, i ≤ v < 256 → l !! Z.to_nat v = Some (gate_value (stubs v) 0 14).
Proof.
  revert i s. induction n as [|n IH]; intros i s Hi Hn Hlen; cbn [idt_loop].
  { exists (idt s). split; [by destruct s|]. split; [done|]. split; [done|]. lia. }
  unfold make_intr_gate. erewrite bind_ok by (apply make_gate_ok; [apply Hstubs; lia|lia..]). run.
  destruct (IH (i + 1) (set_idt <[Z.to_nat i := gate_value (stubs i) 0 14]> s)) as (l & -> & Hl & Hlo & Hhi);
    [lia|lia|cbn; by rewrite length_insert|].
  exists l. split; [done|]. split; [done|]. split.
  - intros v Hv. rewrite Hlo by lia. cbn. by rewrite list_lookup_insert_ne by lia.
  - intros v Hv. destruct (decide (v = i)) as [->|]; [|apply Hhi; lia].
    rewrite Hlo by lia. cbn. by rewrite list_lookup_insert_eq by lia.
Qed.

Lemma foldr_insert_length (l : list (Z * string)) :
  length (foldr (λ p l, <[Z.to_nat p.1 := chars p.2]> l) (replicate 256 (chars "unknown")) l) = 256%nat.
Proof. induction l as [|p l IH]; cbn [foldr]; [apply length_replicate|]. by rewrite length_insert. Qed.

Lemma outb_ok p v q s : outb p v (set_pic q s) = Ok (tt, set_pic (q ++ [(p, u8 v)]) s).
Proof. done. Qed.

Lemma pic_init_ok s : ∃ p, pic_init s = Ok (tt, set_pic p s).
Proof.
  assert (∃ p, pic_init (set_pic (pic s) s) = Ok (tt, set_pic p s)) as H; [|by destruct s].
  unfold pic_init. do 11 (rewrite (bind_ok _ _ _ _ _ (outb_ok _ _ _ _)); cbv beta). rewrite outb_ok. by eexists.
Qed.

Lemma intr_init_table s :
  length (idt s) = 256%nat → intr_handlers s = replicate 256 None →
  ∃ s', intr_init stubs s = Ok (tt, s') ∧ table s' [].
Proof.
  intros Hi Hh. unfold intr_init. destruct (pic_init_ok s) as [p E]. rewrite (bind_ok _ _ _ _ _ E). clear E.
  set (s1 := set_pic p s).
  destruct (idt_loop_table 256 0 s1) as (l & E & Hl & _ & Hv); [lia|done|done|].
  rewrite (bind_ok _ _ _ _ _ E). eexists. split; [reflexivity|]. split; cbn [idt intr_handlers intr_names set_idt set_names].
  - split; [done|]. split; [subst s1; cbn [intr_handlers set_pic]; by rewrite Hh|].
    apply foldr_insert_length.
  - intros v Hv'. by apply Hv.
  - intros v Hv'. subst s1. cbn [intr_handlers set_pic]. rewrite Hh. apply lookup_replicate_2. lia.
Qed.
Lemma register_twice s l r :
  table s l → reg_ok r → registered (r_vec r) l ≠ None → reg_run r s = Panic.
Proof.
  intros [_ _ Hh] Hr Hn. pose proof (reg_vec r Hr) as [Hv _]. rewrite reg_run_ok by done. unfold register_handler. run.
  erewrite bind_deref by (by apply Hh). by destruct (registered (r_vec r) l).
Qed.

(** exception_init() succeeds as long as no vector below 32 has been registered,
    with these registrations. *)
Definition exception_registrations (k pf : Z) : list registration :=
  [Int 3 3 true k "#BP Breakpoint Exception"; Int 4 3 true k "#OF Overflow Exception";
   Int 5 3 true k "#BR BOUND Range Exceeded Exception"; Int 0 0 true k "#DE Divide Error";
   Int 1 0 true k "#DB Debug Exception"; Int 6 0 true k "#UD Invalid Opcode Exception";
   Int 7 0 true k "#NM Device Not Available Exception"; Int 11 0 true k "#NP Segment Not Present";
   Int 12 0 true k "#SS Stack Fault Exception"; Int 13 0 true k "#GP General Protection Exception";
   Int 16 0 true k "#MF x87 FPU Floating-Point Error"; Int 19 0 true k "#XF SIMD Floating-Point Exception";
   Int 14 0 false pf "#PF Page-Fault Exception"].

Lemma exception_init_table k pf s l :
  table s l → (∀ v, 0 ≤ v < 32 → registered v l = None) →
  ∃ s', exception_init stubs k pf s = Ok (tt, s') ∧ table s' (l ++ exception_registrations k pf).
Proof.
  intros Ht Hfree. unfold exception_init. cbv zeta.
  do 12 (match goal with |- context [bind (intr_register_int _ ?v ?d ?lv ?h ?n) _ ?s0] =>
    let s1 := fresh "s" in let E := fresh in let Ht1 := fresh "Ht" in
    destruct (register_step s0 _ (Int v d lv h n) Ht) as (s1 & E & Ht1);
      [cbn; lia|rewrite ?registered_snoc, Hfree by (cbn; lia); reflexivity|];
    cbn [reg_run] in E; rewrite (bind_ok _ _ _ _ _ E); clear E Ht; rename Ht1 into Ht end).
  match goal with |- context [intr_register_int _ ?v ?d ?lv ?h ?n ?s0] =>
    destruct (register_step s0 _ (Int v d lv h n) Ht) as (s' & E & Ht1) end;
    [cbn; lia|rewrite ?registered_snoc, Hfree by (cbn; lia); reflexivity|].
  exists s'. split; [exact E|]. by rewrite <- !app_assoc in Ht1.
Qed.
End registrations.

(** C25. The interrupt table after intr_init() and any sequence of registrations
    that name each vector at most once, external ones in 0x20 to 0x2f and
    internal ones elsewhere: all succeed, and for every vector the processor
    reads from the table a present gate into the kernel's code segment at the
    stub of that vector.  A registered vector has the privilege level of its
    registration, a trap gate if it was registered with interrupts on and an
    interrupt gate otherwise, and the handler of its registration; any other
    vector has level 0, an interrupt gate and no handler.  So user code can
    invoke exactly the vectors registered with level 3.  A second registration
    of a vector fails. *)
Theorem handlers_installed (stubs : Z → Z) (l : list registration) (s : istate) :
  (∀ v, 0 ≤ v < 256 → 0 < stubs v < 2 ^ 32) → Forall reg_ok l → NoDup (r_vec <$> l) →
  length (idt s) = 256%nat → intr_handlers s = replicate 256 None →
  ∃ s', bind (intr_init stubs) (λ _, regs_run stubs l) s = Ok (tt, s') ∧
    (∀ v, 0 ≤ v < 256 → ∃ g, idt s' !! Z.to_nat v = Some g ∧
       gate_offset g = stubs v ∧ gate_selector g = SEL_KCSEG ∧ gate_present g = 1 ∧ gate_system g = 0 ∧
       match registered v l with
       | Some r => gate_dpl g = r_dpl r ∧ gate_type g = (if r_level r then 15 else 14) ∧
                   intr_handlers s' !! Z.to_nat v = Some (Some (r_handler r))
       | None => gate_dpl g = 0 ∧ gate_type g = 14 ∧ intr_handlers s' !! Z.to_nat v = Some None
       end) ∧
    ∀ r, reg_ok r → registered (r_vec r) l ≠ None → reg_run stubs r s' = Panic.
Proof.
  intros Hst Hl Hnd Hi Hh. destruct (intr_init_table stubs Hst s Hi Hh) as (s1 & E1 & H1).
  destruct (regs_run_table stubs Hst s1 [] l H1 Hl Hnd) as (s' & E & [Hlen Hidt Hhan]). cbn [app] in Hidt, Hhan. exists s'.
  rewrite (bind_ok _ _ _ _ _ E1). split; [done|]. split.
  2: { intros r Hr Hn. by eapply register_twice; [split|..]. }
  intros v Hv. rewrite Hhan, Hidt by done. eexists. split; [reflexivity|].
  assert (∀ r, registered v l = Some r → 0 ≤ r_dpl r ≤ 3) as Hd.
  { intros r Hr. unfold registered in Hr. apply List.find_some in Hr as [Hin _].
    rewrite Forall_forall in Hl. apply reg_vec, Hl. by apply list_elem_of_In. }
  destruct (registered v l) as [r|]; cbn [from_option].
  - destruct (gate_fields (stubs v) (r_dpl r) (if r_level r then 15 else 14)) as (? & ? & ? & ? & ? & ?); [by apply Hst|by apply Hd|by destruct (r_level r)|].
    auto 10.
  - destruct (gate_fields (stubs v) 0 14) as (? & ? & ? & ? & ? & ?); [by apply Hst|done|done|]. auto 10.
Qed.

(** The registrations of a kernel with user programs: the exceptions, the system
    call, the timer, the keyboard, the serial port and the disks. *)
Definition boot_registrations : list registration :=
  exception_registrations 1 2 ++
  [Int 48 3 true 3 "syscall"; Ext 32 4 "8254 Timer"; Ext 33 5 "8042 Keyboard"; Ext 36 6 "serial"; Ext 46 7 "ide0"; Ext 47 7 "ide1"].
Definition demo_stubs (v : Z) : Z := 3222274048 + 16 * v.
Definition demo_istate : istate :=
  mk_istate (mk_kernel booted ∅ []) [] (replicate 256 0) (replicate 256 None) (replicate 256 []) (replicate 256 0) [].

(** User code can invoke the vectors 3, 4, 5 and 0x30. *)
Lemma handlers_installed_witness :
  filter (λ v, from_option r_dpl 0 (registered v boot_registrations) = 3) (seqZ 0 256) = [3; 4; 5; 48] ∧
  ∃ s', bind (intr_init demo_stubs) (λ _, regs_run demo_stubs boot_registrations) demo_istate = Ok (tt, s') ∧
    (∀ v, 0 ≤ v < 256 → ∃ g, idt s' !! Z.to_nat v = Some g ∧
       gate_offset g = demo_stubs v ∧ gate_selector g = SEL_KCSEG ∧ gate_present g = 1 ∧ gate_system g = 0 ∧
       match registered v boot_registrations with
       | Some r => gate_dpl g = r_dpl r ∧ gate_type g = (if r_level r then 15 else 14) ∧
                   intr_handlers s' !! Z.to_nat v = Some (Some (r_handler r))
       | None => gate_dpl g = 0 ∧ gate_type g = 14 ∧ intr_handlers s' !! Z.to_nat v = Some None
       end) ∧
    ∀ r, reg_ok r → registered (r_vec r) boot_registrations ≠ None → reg_run demo_stubs r s' = Panic.
Proof.
  split; [vm_compute; reflexivity|].
  apply (handlers_installed demo_stubs boot_registrations demo_istate).
  - intros v Hv. unfold demo_stubs. lia.
  - unfold boot_registrations, exception_registrations. cbn [app]. repeat (apply Forall_cons_2; [cbn; lia|]). apply Forall_nil_2.
  - apply (bool_decide_eq_true_1 _). vm_compute. reflexivity.
  - reflexivity.
  - reflexivity.
Defined.

(** ** Messages *)

Definition with_con (c : list Z) (s : istate) : istate :=
  mk_istate (i_kernel s) c (idt s) (intr_handlers s) (intr_names s) (unexpected_cnt s) (pic s).

Definition plain (t : string) : list item := Plain <$> chars t.
Definition none : spec := mk_spec [] Absent Absent INT.
Definition hex (flags : string) (width : Z) (type : arg_type) (v : Z) : item :=
  Unsigned (mk_spec (chars flags) (Digits width) Absent type) (chr "x") v.

Lemma plain_items_ok t : forallb (λ c, negb (c =? 0) && negb (c =? chr "%")) (chars t) = true → Forall item_ok (plain t).
Proof.
  intros Ht. apply Forall_fmap, Forall_forall. intros c Hc. rewrite forallb_forall in Ht.
  apply list_elem_of_In, Ht in Hc. unfold compose. cbn [item_ok]. bool_hyps. done.
Qed.

Lemma hex_ok flags width type v :
  forallb (λ c, bool_decide (is_Some (flag_of c))) (chars flags) = true → 0 ≤ width < 2147483648 →
  in_unsigned type v → item_ok (hex flags width type v).
Proof.
  intros Hf Hw Hv. split; [|split; [apply list_elem_of_In; cbn; tauto|done]]. split; [|by split]. split_and!; try done.
  cbn. apply Forall_forall. intros c Hc. rewrite forallb_forall in Hf.
  apply (bool_decide_eq_true_1 _), Hf. by apply list_elem_of_In.
Qed.

Lemma none_integer_ok : int_spec_ok none.
Proof. split; [by split|by split]. Qed.

Lemma text_ok t : is_text t → item_ok (Text none (Some t)).
Proof. intros Ht. by split. Qed.

Lemma say_ok its format args s :
  Forall item_ok its → chars format ++ [10; 0] = concat (item_text <$> its) ++ [0] → args = concat (item_args <$> its) →
  ∃ c, say format args s = Ok (tt, with_con c s).
Proof.
  intros Hi Hf ->. unfold say, lift, __printf. rewrite Hf, printf_ok by done. by eexists.
Qed.

Ltac items := repeat first
  [ apply Forall_nil_2 | apply Forall_app_2; [apply plain_items_ok; reflexivity|]
  | apply Forall_cons_2; [first [apply text_ok; assumption | apply hex_ok; [reflexivity|lia|assumption] | done]|] ].

(** Frames and tables as the processor and intr_init() leave them. *)
Record frame_ok (cr2 : Z) (f : intr_frame) : Prop := {
  fo_words : in_u32 cr2 ∧ in_u32 (error_code f) ∧ in_u32 (eip f) ∧ in_u32 (eax f) ∧ in_u32 (ebx f) ∧ in_u32 (ecx f) ∧
    in_u32 (edx f) ∧ in_u32 (esi f) ∧ in_u32 (edi f) ∧ in_u32 (esp f) ∧ in_u32 (ebp f) ∧ in_u32 (vec_no f);
  fo_segments : 0 ≤ cs f < 65536 ∧ 0 ≤ ds f < 65536 ∧ 0 ≤ es f < 65536 ∧ 0 ≤ ss f < 65536
}.

Lemma u32_word v : in_u32 v → u32 v = v.
Proof. apply u32_small. Qed.

Ltac print its :=
  match goal with |- context [say ?f ?a ?s] =>
    let c := fresh "c" in let E := fresh in
    destruct (say_ok its f a s) as [c E];
      [items|reflexivity|cbn; rewrite ?u32_word by assumption; reflexivity|];
    first [rewrite (bind_ok _ _ _ _ _ E) | rewrite E]; clear E
  | |- context [bind (say ?f ?a) ?k ?s] =>
    let c := fresh "c" in let E := fresh in
    destruct (say_ok its f a s) as [c E];
      [items|reflexivity|cbn; rewrite ?u32_word by assumption; reflexivity|];
    rewrite (bind_ok _ _ _ _ _ E); clear E
  end.

Lemma dump_ok cr2 f nm s :
  frame_ok cr2 f → intr_names s !! Z.to_nat (vec_no f) = Some nm → is_text nm →
  ∃ c, intr_dump_frame cr2 f s = Ok (tt, with_con c s).
Proof.
  intros [(H1 & H2 & H3 & H4 & H5 & H6 & H7 & H8 & H9 & H10 & H11 & H12) (S1 & S2 & S3 & S4)] Hn Ht.
  assert (in_u32 (cs f) ∧ in_u32 (ds f) ∧ in_u32 (es f) ∧ in_u32 (ss f)) as (U1 & U2 & U3 & U4) by (unfold in_u32; lia).
  unfold intr_dump_frame, name_of. rewrite bind_assoc, bind_get, (bind_deref _ _ _ _ Hn).
  print (plain "Interrupt " ++ hex "#0" 4 INT (vec_no f) :: plain " (" ++ Text none (Some nm) :: plain ") at eip=" ++
    [Pointer none (eip f); Plain 10]).
  print (plain " cr2=" ++ hex "0" 8 INT cr2 :: plain " error=" ++ hex "0" 8 INT (error_code f) :: [Plain 10]).
  print (plain " eax=" ++ hex "0" 8 INT (eax f) :: plain " ebx=" ++ hex "0" 8 INT (ebx f) :: plain " ecx=" ++
    hex "0" 8 INT (ecx f) :: plain " edx=" ++ hex "0" 8 INT (edx f) :: [Plain 10]).
  print (plain " esi=" ++ hex "0" 8 INT (esi f) :: plain " edi=" ++ hex "0" 8 INT (edi f) :: plain " esp=" ++
    hex "0" 8 INT (esp f) :: plain " ebp=" ++ hex "0" 8 INT (ebp f) :: [Plain 10]).
  print (plain " cs=" ++ hex "0" 4 SHORT (cs f) :: plain " ds=" ++ hex "0" 4 SHORT (ds f) :: plain " es=" ++
    hex "0" 4 SHORT (es f) :: plain " ss=" ++ hex "0" 4 SHORT (ss f) :: [Plain 10]).
  by eexists.
Qed.

(** ** A fault in user code *)

Lemma on_i_ok {A} (m : M istate A) s a i : m (x_i s) = Ok (a, i) → on_i m s = Ok (a, with_i i s).
Proof. intros E. unfold on_i, lift. by rewrite E. Qed.

(** kill() marks the record of the thread. *)
Definition killed (t : Z) (s : xstate) : xstate :=
  match Wait.procs (x_wait s) !! t with
  | None => s
  | Some q =>
      let p := Wait.o_wait_status q in
      with_wait (Wait.set_statuses (alter (Wait.with_killed 1) p) (x_wait s)) s
  end.

Lemma killed_with_i i t s : with_i i (killed t s) = killed t (with_i i s).
Proof. unfold killed. change (x_wait (with_i i s)) with (x_wait s). by destruct (Wait.procs (x_wait s) !! t). Qed.

Lemma kill_status_ok s t q w :
  Wait.procs (x_wait s) !! t = Some q → Wait.statuses (x_wait s) !! Wait.o_wait_status q = Some w →
  on_wait (Wait.kill_status t) s = Ok (tt, killed t s).
Proof.
  intros Hq Hw.
  assert (alter (Wait.with_killed 1) (Wait.o_wait_status q) (Wait.statuses (x_wait s)) =
          <[Wait.o_wait_status q := Wait.with_killed 1 w]> (Wait.statuses (x_wait s))) as E.
  { apply map_eq. intros x. destruct (decide (x = Wait.o_wait_status q)) as [->|Hne];
      [by rewrite lookup_insert_eq, lookup_alter_eq, Hw|by rewrite lookup_insert_ne, lookup_alter_ne]. }
  unfold killed. rewrite Hq. unfold Wait.set_statuses. cbv zeta. rewrite E.
  unfold on_wait, lift, Wait.kill_status, Wait.proc_at, Wait.ws_at, Wait.put_ws. run.
  rewrite Hq. cbn [deref]. run. by rewrite (bind_deref _ _ _ _ Hw).
Qed.

(** The messages change the console only. *)
Lemma con_sched c s : ksched (with_con c s) = ksched s.
Proof. done. Qed.
Lemma con_con c c' s : with_con c (with_con c' s) = with_con c s.
Proof. done. Qed.
Lemma con_names c s : intr_names (with_con c s) = intr_names s.
Proof. done. Qed.

(** A running thread with a name that can be printed, outside interrupt
    handlers. *)
Record faulting (s : istate) (th : thread) : Prop := {
  fa_inv : sched_inv (ksched s);
  fa_context : in_external_intr (ksched s) = false;
  fa_thread : threads (ksched s) !! cur (ksched s) = Some th;
  fa_name : is_text (name th)
}.

Lemma name_of_ok f nm s : intr_names s !! Z.to_nat (vec_no f) = Some nm → name_of (vec_no f) s = Ok (nm, s).
Proof. intros Hn. unfold name_of. rewrite bind_get, Hn. done. Qed.

Section faults.
Context (dev : Z) (n : nat) (cr2 : Z) (f : intr_frame) (nm : list Z) (Hf : frame_ok cr2 f) (Hnm : is_text nm).

Lemma kill_starts s th : faulting (x_i s) th →
  kill dev n cr2 f s =
    (if cs f =? SEL_UCSEG then
       on_wait (Wait.kill_status (cur (ksched s)));;;
       let* nm := on_i (name_of (vec_no f)) in
       on_i (say "%s: dying due to interrupt %#04x (%s)." [str (name th); Word (vec_no f); str nm]);;;
       on_i (intr_dump_frame cr2 f);;;
       on_i (say "%s: exit(%d)" [str (name th); Word (u32 (-1))]);;;
       thread_exit dev n (cur (ksched s))
     else if cs f =? SEL_KCSEG then
       on_i (intr_dump_frame cr2 f);;;
       panic
     else
       let* nm := on_i (name_of (vec_no f)) in
       on_i (say "Interrupt %#04x (%s) in unknown segment %04x" [Word (vec_no f); str nm; Word (cs f)]);;;
       thread_exit dev n (cur (ksched s))) s.
Proof.
  intros [Hi He Hth Hname]. unfold kill. erewrite bind_ok by (apply on_sched_ok, thread_current_ok, Hi).
  rewrite set_ksched_same. run. by rewrite (bind_deref _ _ _ _ Hth).
Qed.

Lemma kill_user s th q w :
  faulting (x_i s) th → intr_names (x_i s) !! Z.to_nat (vec_no f) = Some nm → cs f = SEL_UCSEG →
  Wait.procs (x_wait s) !! cur (ksched s) = Some q → Wait.statuses (x_wait s) !! Wait.o_wait_status q = Some w →
  ∃ c, kill dev n cr2 f s =
    thread_exit dev n (cur (ksched s)) (with_i (with_con c (x_i s)) (killed (cur (ksched s)) s)).
Proof.
  intros Hd Hn Hcs Hq Hw. rewrite (kill_starts s th Hd), Hcs. destruct Hd as [Hi He Hth Hname].
  change (SEL_UCSEG =? SEL_UCSEG) with true. cbv iota.
  rewrite (bind_ok _ _ _ _ _ (kill_status_ok s _ _ _ Hq Hw)). set (s1 := killed _ s).
  assert (x_i s1 = x_i s) as E0 by (unfold s1, killed; by rewrite Hq).
  erewrite bind_ok by (apply on_i_ok, name_of_ok; by rewrite E0). rewrite E0.
  assert (in_u32 (vec_no f)) as Hv by apply Hf.
  destruct (say_ok (Text none (Some (name th)) :: plain ": dying due to interrupt " ++ hex "#0" 4 INT (vec_no f) :: plain " (" ++
    Text none (Some nm) :: plain ")." ++ [Plain 10]) "%s: dying due to interrupt %#04x (%s)."
    [str (name th); Word (vec_no f); str nm] (x_i s)) as [c1 E1]; [items|reflexivity|cbn; by rewrite u32_word|].
  erewrite bind_ok by (apply on_i_ok; exact E1).
  destruct (dump_ok cr2 f nm (with_con c1 (x_i s)) Hf Hn Hnm) as [c2 E2].
  erewrite bind_ok by (apply on_i_ok; exact E2).
  destruct (say_ok (Text none (Some (name th)) :: plain ": exit(" ++ Signed none (chr "d") (-1) :: plain ")" ++ [Plain 10])
    "%s: exit(%d)" [str (name th); Word (u32 (-1))] (with_con c2 (with_con c1 (x_i s)))) as [c3 E3].
  { constructor; [by apply text_ok|]. apply Forall_app_2; [apply plain_items_ok; reflexivity|].
    constructor; [|items]. split; [apply none_integer_ok|]. split; [by left|]. cbn. unfold in_s32. lia. }
  { reflexivity. } { reflexivity. }
  erewrite bind_ok by (apply on_i_ok; exact E3). by exists c3.
Qed.

Lemma kill_kernel s th :
  faulting (x_i s) th → intr_names (x_i s) !! Z.to_nat (vec_no f) = Some nm →
  cs f = SEL_KCSEG → kill dev n cr2 f s = Panic.
Proof.
  intros Hd Hn Hcs. rewrite (kill_starts s th Hd), Hcs.
  destruct (dump_ok cr2 f nm (x_i s) Hf Hn Hnm) as [c2 E2]. cbn [Z.eqb SEL_KCSEG SEL_UCSEG Pos.eqb].
  by erewrite bind_ok by (apply on_i_ok; exact E2).
Qed.

Lemma kill_other s th :
  faulting (x_i s) th → intr_names (x_i s) !! Z.to_nat (vec_no f) = Some nm →
  cs f ≠ SEL_UCSEG → cs f ≠ SEL_KCSEG →
  ∃ c, kill dev n cr2 f s = thread_exit dev n (cur (ksched s)) (with_i (with_con c (x_i s)) s).
Proof.
  intros Hd Hn Hu Hk. rewrite (kill_starts s th Hd), (proj2 (Z.eqb_neq _ _) Hu), (proj2 (Z.eqb_neq _ _) Hk).
  erewrite bind_ok by (apply on_i_ok, name_of_ok, Hn).
  assert (in_u32 (vec_no f) ∧ in_u32 (cs f)) as [Hv Hc] by (split; [apply Hf|unfold in_u32; destruct Hf; lia]).
  destruct (say_ok (plain "Interrupt " ++ hex "#0" 4 INT (vec_no f) :: plain " (" ++ Text none (Some nm) ::
    plain ") in unknown segment " ++ hex "0" 4 INT (cs f) :: [Plain 10]) "Interrupt %#04x (%s) in unknown segment %04x"
    [Word (vec_no f); str nm; Word (cs f)] (x_i s)) as [c E]; [items|reflexivity|cbn; by rewrite !u32_word|].
  erewrite bind_ok by (apply on_i_ok; exact E). by exists c.
Qed.
End faults.

(** A page fault ends the thread or the machine.  The handler turns interrupts
    on, counts the fault and prints what happened; then, for a fault in user
    code, it marks the process's record as killed by the kernel, which is what
    makes the parent's wait return -1, and exits the thread; a fault in kernel
    code stops the machine; and one in any other segment exits the thread with
    its record as it is.  Nothing else changes before the exit. *)
Theorem page_fault_kills dev n (cr2 : Z) (f : intr_frame) (nm : list Z) (th : thread) (s : xstate) q w :
  let t := cur (ksched s) in
  faulting (x_i s) th → frame_ok cr2 f → intr_names (x_i s) !! Z.to_nat (vec_no f) = Some nm → is_text nm →
  Wait.procs (x_wait s) !! t = Some q → Wait.statuses (x_wait s) !! Wait.o_wait_status q = Some w →
  let counted c := mk_xstate (with_con c (set_ksched (set_intr true (ksched s)) (x_i s))) (x_u s) (x_waiters s)
                     (s64 (page_fault_cnt s + 1)) in
  (cs f = SEL_UCSEG → ∃ c, page_fault dev n cr2 f s = thread_exit dev n t (killed t (counted c))) ∧
  (cs f = SEL_KCSEG → page_fault dev n cr2 f s = Panic) ∧
  (cs f ≠ SEL_UCSEG → cs f ≠ SEL_KCSEG → ∃ c, page_fault dev n cr2 f s = thread_exit dev n t (counted c)).
Proof.
  intros t [Hi He Hth Hname] Hf Hn Hnm Hq Hw counted. unfold page_fault.
  assert (intr_enable (ksched s) = Ok (intr_on (ksched s), set_intr true (ksched s))) as Een
    by (apply (intr_set_level_ok true _ He)).
  erewrite bind_ok by (apply on_sched_ok, Een). run.
  set (i1 := set_ksched (set_intr true (ksched s)) (x_i s)).
  assert (ksched i1 = set_intr true (ksched (x_i s))) as Hk by apply ksched_set.
  assert (∀ (b : bool) u v, is_text (chars u) → is_text (chars v) → is_text (chars (if b then u else v))) as Hif by (by intros []).
  destruct (say_ok (plain "Page fault at " ++ Pointer none cr2 :: plain ": " ++
    Text none (Some (chars (if Z.land (error_code f) PF_P =? 0 then "not present" else "rights violation"))) :: plain " error " ++
    Text none (Some (chars (if negb (Z.land (error_code f) PF_W =? 0) then "writing" else "reading"))) :: plain " page in " ++
    Text none (Some (chars (if negb (Z.land (error_code f) PF_U =? 0) then "user" else "kernel"))) :: plain " context." ++ [Plain 10])
    "Page fault at %p: %s error %s page in %s context."
    [Word cr2; str (chars (if Z.land (error_code f) PF_P =? 0 then "not present" else "rights violation"));
     str (chars (if negb (Z.land (error_code f) PF_W =? 0) then "writing" else "reading"));
     str (chars (if negb (Z.land (error_code f) PF_U =? 0) then "user" else "kernel"))] i1) as [c E]; [|reflexivity|reflexivity|].
  { apply Forall_app_2; [apply plain_items_ok; reflexivity|]. constructor; [split; [apply none_integer_ok|split; [done|apply Hf]]|].
    repeat first [apply Forall_app_2; [apply plain_items_ok; reflexivity|] | constructor; [apply text_ok, Hif; apply (bool_decide_eq_true_1 _); reflexivity|]].
    items. }
  erewrite bind_ok by (apply on_i_ok; exact E).
  change (with_i _ _) with (counted c).
  assert (faulting (x_i (counted c)) th) as Hd.
  { split; [|done|done|done]. change (sched_inv (ksched i1)). rewrite Hk. eapply same_threads_inv; [|exact Hi]; done. }
  split_and!.
  - intros Hcs. destruct (kill_user dev n cr2 f nm Hf Hnm (counted c) th q w Hd Hn Hcs Hq Hw) as [c' ->].
    exists c'. by rewrite killed_with_i.
  - intros Hcs. by apply (kill_kernel dev n cr2 f nm Hf Hnm (counted c) th).
  - intros Hu Hks. destruct (kill_other dev n cr2 f nm Hf Hnm (counted c) th Hd Hn Hu Hks) as [c' ->]. by exists c'.
Qed.

(** Thread 2 reads address 16 from user code while its parent, thread 1, waits
    for it: the exit wakes the parent. *)
Definition demo_frame (c : Z) : intr_frame := mk_frame 0 0 0 0 0 0 0 35 35 35 35 14 4 134512640 c 514 3221225460 35.

(** Thread 1 blocks, thread 2 runs with interrupts on. *)
Definition demo_waiting : sched :=
  let s := match (thread_yield_switch;;; thread_block) demo_state with Ok (_, s) => s | _ => power_on end in
  set_intr true s.

Definition demo_fault : xstate :=
  mk_xstate (mk_istate (mk_kernel demo_waiting ∅ []) [] [] [] (replicate 256 (chars "#PF Page-Fault Exception")) [] [])
    (Syscall.mk_u DirSpec.demo_root
       (Wait.mk_ps {[ 64 := Wait.mk_ws 2 0 0 2 0 ]} {[ 1 := Wait.mk_proc 0 [64]; 2 := Wait.mk_proc 64 [] ]} 3)
       2 {[ 4096 := 0 ]} ∅ (Some 103) None [] [] false [] [] 0) {[ 64 := [1] ]} 0.

Example page_fault_wakes_parent :
  match page_fault 0 3 16 (demo_frame SEL_UCSEG) demo_fault with
  | Ok (_, s) => Some (cur (ksched s), Wait.statuses (x_wait s) !! 64, Wait.procs (x_wait s) !! 2,
                       x_waiters s !! 64, page_fault_cnt s, FsState.dirs (Syscall.ufs (x_u s)) !! 103)
  | _ => None
  end = Some (1, Some (Wait.mk_ws 2 1 0 1 1), None, Some [], 1, None).
Proof. vm_compute. reflexivity. Qed.

(** ** External interrupts *)

(** The acknowledgement of the controllers a vector comes through. *)
Definition acknowledgement (vec : Z) : list (Z * Z) := (32, 32) :: (if vec >=? 40 then [(160, 32)] else []).
Definition entered (s : istate) : istate := set_ksched (set_external true false (ksched s)) s.
Definition completed (vec : Z) (s : istate) : istate :=
  set_pic (pic s ++ acknowledgement vec) (set_ksched (set_external false (yield_on_return (ksched s)) (ksched s)) s).

(** intr_handler() runs the handler of an external interrupt in interrupt
    context, leaves the context, acknowledges the interrupt and yields if the
    handler has asked for it. *)
Lemma intr_handler_external_ok call f h s s2 :
  external (vec_no f) = true → intr_on (ksched s) = false → in_external_intr (ksched s) = false →
  intr_handlers s !! Z.to_nat (vec_no f) = Some (Some h) → call h f (entered s) = Ok (tt, s2) →
  intr_on (ksched s2) = false → in_external_intr (ksched s2) = true →
  intr_handler call f s =
    if yield_on_return (ksched s2) then on_sched Timer.thread_yield (completed (vec_no f) s2)
    else Ok (tt, completed (vec_no f) s2).
Proof.
  intros Hv Hon Hext Hh Hcall Hon2 Hext2. unfold intr_handler. rewrite Hv. unfold on_sched at 1 2.
  assert (∀ (k : unit → M istate unit) s', intr_on (ksched s') = false → in_external_intr (ksched s') = false →
    bind (let* lvl := on_sched intr_get_level in assert (negb lvl);;; let* ctx := on_sched intr_context in
          assert (negb ctx);;; set_context true) k s' = k tt (entered s')) as Henter.
  { intros k s' H1 H2. rewrite bind_assoc. erewrite bind_ok by (by apply on_sched_ok). rewrite set_ksched_same.
    rewrite bind_assoc, bind_assert by (by rewrite H1). rewrite bind_assoc.
    erewrite bind_ok by (by apply on_sched_ok). rewrite set_ksched_same. rewrite bind_assoc, bind_assert by (by rewrite H2).
    unfold set_context. by erewrite bind_ok by (by apply on_sched_ok). }
  rewrite Henter by done. run. rewrite (bind_deref _ _ _ _ Hh), (bind_ok _ _ _ _ _ Hcall).
  erewrite bind_ok by (by apply on_sched_ok). rewrite set_ksched_same, bind_assert by (by rewrite Hon2).
  erewrite bind_ok by (by apply on_sched_ok). rewrite set_ksched_same, bind_assert by (by rewrite Hext2).
  unfold set_context. erewrite bind_ok by (by apply on_sched_ok). unfold pic_end_of_interrupt, external in *.
  rewrite bind_assoc, bind_assert by lia. unfold completed, acknowledgement, outb. run.
  destruct (vec_no f >=? 40); run; cbn; rewrite ?app_nil_r, <- ?app_assoc; by destruct (yield_on_return (ksched s2)).
Qed.

End Interrupt.
