(* ===== verification/Vga.v ===== *)
(** * Vga: the text screen (devices/vga.c)

    The state adds to that of [Serial] the cursor, the framebuffer as rows of
    cells (a character and an attribute), and the calibration of [Timer] for the
    bell.  A write outside the framebuffer is a [Fault].

    The theorem compares the screen with a reference definition that knows
    nothing of cursors and scrolling: the text is broken into lines of at most
    80 characters, and the screen shows the last 25 of them. *)

From Stdlib Require Import ZArith Lia.
From stdpp Require Import base tactics option list numbers gmap.
From S2P Require Import Prelude Sched Synch Intq Serial Timer.
Import Sched Synch Serial.

Module Vga.

Definition COL_CNT : Z := 80.
Definition ROW_CNT : Z := 25.
Definition GRAY_ON_BLACK : Z := 7.

Abbreviation cell := (Z * Z)%type (only parsing).

Record vga := mk_vga {
  v_uart : uart;
  v_loops : Z;
  inited : bool;
  cx : Z;
  cy : Z;
  fb : list (list cell)
}.

#[global, program] Instance vga_kernel : Kernel vga := {|
  kget := λ s, u_kernel (v_uart s);
  kset := λ k s, mk_vga (kset k (v_uart s)) (v_loops s) (inited s) (cx s) (cy s) (fb s)
|}.
Next Obligation. done. Qed.
Next Obligation. by intros [[] ? ? ? ? ?]. Qed.
Next Obligation. done. Qed.

Definition on_uart {A} (m : M uart A) : M vga A :=
  lift v_uart (λ u s, mk_vga u (v_loops s) (inited s) (cx s) (cy s) (fb s)) m.

Definition set_cursor (x y : Z) (s : vga) : vga := mk_vga (v_uart s) (v_loops s) (inited s) x y (fb s).
Definition set_fb (f : list (list cell)) (s : vga) : vga := mk_vga (v_uart s) (v_loops s) (inited s) (cx s) (cy s) f.

(** A 16-bit port write, of threads/io.h. *)
Definition outw (port data : Z) : M uart unit :=
  modify (λ s, mk_uart (u_kernel s) (mode s) (txq s) (buffer s) (ports s ++ [(port, u16 data)]) (answers s)).

(** [fb[y][x][0] = c; fb[y][x][1] = attribute]. *)
Definition put_cell (y x c attribute : Z) : M vga unit :=
  let* s := get in
  if (y <? 0) || (x <? 0) then fault
  else
    let* row := deref (fb s !! Z.to_nat y) in
    let* _ := deref (row !! Z.to_nat x) in
    modify (set_fb (<[Z.to_nat y := <[Z.to_nat x := (u8 c, attribute)]> row]> (fb s))).

(** [for (x = 0; x < COL_CNT; x++)], with [n] columns to go. *)
Fixpoint clear_cells (n : nat) (y x : Z) : M vga unit :=
  match n with
  | O => ret tt
  | S n => put_cell y x 32 GRAY_ON_BLACK;;; clear_cells n y (x + 1)
  end.
Definition clear_row (y : Z) : M vga unit := clear_cells 80 y 0.

Definition move_cursor : M vga unit :=
  let* s := get in
  let cp := u16 (cx s + COL_CNT * cy s) in
  on_uart (outw 980 (Z.lor 14 (Z.land cp 65280)));;;
  on_uart (outw 980 (Z.lor 15 (Z.shiftl cp 8))).

Definition find_cursor : M vga (Z * Z) :=
  on_uart (outb 980 14);;;
  let* h := on_uart (inb 981) in
  on_uart (outb 980 15);;;
  let* l := on_uart (inb 981) in
  let cp := Z.lor (u16 (Z.shiftl h 8)) l in
  ret (cp mod COL_CNT, cp / COL_CNT).

Definition init : M vga unit :=
  let* s := get in
  if negb (inited s) then
    let* p := find_cursor in
    modify (λ s, mk_vga (v_uart s) (v_loops s) true p.1 p.2 (fb s))
  else ret tt.

(** [for (y = 0; y < ROW_CNT; y++)] of cls(). *)
Fixpoint clear_rows (n : nat) (y : Z) : M vga unit :=
  match n with
  | O => ret tt
  | S n => clear_row y;;; clear_rows n (y + 1)
  end.
Definition cls : M vga unit :=
  clear_rows 25 0;;;
  modify (set_cursor 0 0);;;
  move_cursor.

(** memmove() moves the rows 1 to 24 up. *)
Definition newline : M vga unit :=
  modify (λ s, set_cursor 0 (cy s + 1) s);;;
  let* s := get in
  if cy s >=? ROW_CNT then
    modify (λ s, set_cursor (cx s) (ROW_CNT - 1) s);;;
    modify (λ s, set_fb (drop 1 (fb s) ++ drop 24 (fb s)) s);;;
    clear_row (ROW_CNT - 1)
  else ret tt.

Section bell.
Context (ticks_during : Z → Z).

Definition timer_msleep (n : Z) : M vga unit :=
  lift (λ s, Timer.mk_tstate (ksched s) (v_loops s))
    (λ t s, let s := set_ksched (Timer.t_sched t) s in
            mk_vga (v_uart s) (Timer.loops_per_tick t) (inited s) (cx s) (cy s) (fb s))
    (Timer.timer_msleep ticks_during n).

(** devices/speaker.c *)
Definition speaker_beep : M vga unit :=
  let* level := on_sched intr_get_level in
  if level : bool then
    on_uart (Timer.speaker_on 440);;;
    timer_msleep 250;;;
    on_uart Timer.speaker_off
  else ret tt.

Definition vga_putc (c : Z) : M vga unit :=
  let* old_level := on_sched intr_disable in
  init;;;
  let* s := get in
  (if c =? 10 then newline
   else if c =? 12 then cls
   else if c =? 8 then (if cx s >? 0 then modify (set_cursor (cx s - 1) (cy s)) else ret tt)
   else if c =? 13 then modify (set_cursor 0 (cy s))
   else if c =? 9 then
     let x := (cx s + 1 + 7) / 8 * 8 in
     modify (set_cursor x (cy s));;;
     if x >=? COL_CNT then newline else ret tt
   else if c =? 7 then
     let* _ := on_sched (intr_set_level old_level) in
     speaker_beep;;;
     let* _ := on_sched intr_disable in
     ret tt
   else
     put_cell (cy s) (cx s) c GRAY_ON_BLACK;;;
     modify (set_cursor (cx s + 1) (cy s));;;
     if cx s + 1 >=? COL_CNT then newline else ret tt);;;
  move_cursor;;;
  let* _ := on_sched (intr_set_level old_level) in
  ret tt.

Fixpoint puts (l : list Z) : M vga unit :=
  match l with [] => ret tt | c :: l => vga_putc c;;; puts l end.
End bell.

(** ** The text and what is seen of it *)

(** The lines of a text: those that are complete, and the current one. *)
Definition wrap_char (t : list (list Z) * list Z) (c : Z) : list (list Z) * list Z :=
  if c =? 10 then (t.1 ++ [t.2], [])
  else if zlen t.2 + 1 =? COL_CNT then (t.1 ++ [t.2 ++ [c]], [])
  else (t.1, t.2 ++ [c]).
Definition wrap (text : list Z) : list (list Z) * list Z := fold_left wrap_char text ([], []).
Definition lines (t : list (list Z) * list Z) : list (list Z) := t.1 ++ [t.2].

Definition blank : list cell := replicate 80 (32, GRAY_ON_BLACK).
Definition show_line (l : list Z) : list cell :=
  ((λ c, (c, GRAY_ON_BLACK)) <$> l) ++ replicate (80 - length l) (32, GRAY_ON_BLACK).

(** The last 25 of the lines, from the top of the screen. *)
Definition tail25 {A} (l : list A) : list A := drop (length l - 25) l.
Definition screen (ls : list (list Z)) : list (list cell) :=
  (show_line <$> tail25 ls) ++ replicate (25 - length (tail25 ls)) blank.

(** ** Cells and rows *)

Definition shaped (s : vga) : Prop := length (fb s) = 25%nat ∧ Forall (λ r : list cell, length r = 80%nat) (fb s).

Lemma put_cell_ok s y x c a row :
  0 ≤ y → 0 ≤ x → fb s !! Z.to_nat y = Some row → (Z.to_nat x < length row)%nat →
  put_cell y x c a s = Ok (tt, set_fb (<[Z.to_nat y := <[Z.to_nat x := (u8 c, a)]> row]> (fb s)) s).
Proof.
  intros Hy Hx Hr Hc. unfold put_cell. run.
  rewrite (proj2 (Z.ltb_ge y 0)), (proj2 (Z.ltb_ge x 0)) by lia. cbn [orb].
  rewrite (bind_deref _ _ _ _ Hr). destruct (lookup_lt_is_Some_2 _ _ Hc) as [v Hv].
  by rewrite (bind_deref _ _ _ _ Hv).
Qed.

Lemma set_fb_fb f g s : set_fb f (set_fb g s) = set_fb f s.
Proof. done. Qed.

Lemma clear_cells_ok n x y s row :
  0 ≤ y → 0 ≤ x → fb s !! Z.to_nat y = Some row → length row = 80%nat → (Z.to_nat x + n = 80)%nat →
  clear_cells n y x s =
    Ok (tt, set_fb (<[Z.to_nat y := take (Z.to_nat x) row ++ replicate n (32, GRAY_ON_BLACK)]> (fb s)) s).
Proof.
  revert x s row. induction n as [|n IH]; intros x s row Hy Hx Hr Hl Hn; cbn [clear_cells].
  { rewrite app_nil_r, take_ge by lia. rewrite list_insert_id by done. by destruct s. }
  rewrite (bind_ok _ _ _ _ _ (put_cell_ok s y x 32 GRAY_ON_BLACK row Hy Hx Hr ltac:(lia))).
  assert (Z.to_nat y < length (fb s))%nat by (by eapply lookup_lt_Some).
  rewrite (IH (x + 1) _ (<[Z.to_nat x := (u8 32, GRAY_ON_BLACK)]> row)); [|lia..| |by rewrite length_insert|lia].
  2: { cbn. by rewrite list_lookup_insert_eq. }
  rewrite set_fb_fb. cbn [fb set_fb]. rewrite list_insert_insert_eq. do 4 f_equal.
  replace (Z.to_nat (x + 1)) with (S (Z.to_nat x)) by lia.
  erewrite take_S_r by (apply list_lookup_insert_eq; lia). rewrite take_insert_ge by lia. by rewrite <- app_assoc.
Qed.

Lemma clear_row_ok y s row :
  0 ≤ y → fb s !! Z.to_nat y = Some row → length row = 80%nat →
  clear_row y s = Ok (tt, set_fb (<[Z.to_nat y := blank]> (fb s)) s).
Proof. intros Hy Hr Hl. unfold clear_row. rewrite (clear_cells_ok 80 0 y s row); [done|lia|lia|done|done|lia]. Qed.

Lemma newline_ok s :
  shaped s → 0 ≤ cy s < 25 →
  newline s = Ok (tt, if cy s + 1 >=? 25 then set_fb (drop 1 (fb s) ++ [blank]) (set_cursor 0 24 s)
                      else set_cursor 0 (cy s + 1) s).
Proof.
  intros [Hl Hr] Hy. unfold newline. run. cbn [cy set_cursor]. change ROW_CNT with 25.
  destruct (Z.geb_spec (cy s + 1) 25); [|done]. run. cbn [fb set_cursor cx].
  assert (∃ row, fb s !! 24%nat = Some row) as [row Hrow] by (apply lookup_lt_is_Some_2; lia).
  assert (drop 24 (fb s) = [row]) as Hd.
  { rewrite (drop_S _ _ _ Hrow), drop_ge by lia. done. }
  rewrite Hd. erewrite clear_row_ok; [|lia| |].
  - rewrite set_fb_fb. cbn [fb set_fb set_cursor]. do 3 f_equal.
    change (Z.to_nat (25 - 1)) with 24%nat. rewrite insert_app_r_alt by (rewrite length_drop; lia).
    rewrite length_drop, Hl. done.
  - cbn [fb set_fb]. change (Z.to_nat (25 - 1)) with 24%nat.
    rewrite lookup_app_r by (rewrite length_drop; lia). rewrite length_drop, Hl. reflexivity.
  - rewrite Forall_forall in Hr. apply Hr. by eapply list_elem_of_lookup_2.
Qed.

(** ** The screen as lines *)

Definition tail24 {A} (l : list A) : list A := drop (length l - 24) l.

Lemma length_tail24 {A} (l : list A) : length (tail24 l) = Nat.min (length l) 24.
Proof. unfold tail24. rewrite length_drop. lia. Qed.

Lemma screen_snoc a x :
  screen (a ++ [x]) = (show_line <$> tail24 a) ++ show_line x :: replicate (24 - length (tail24 a)) blank.
Proof.
  unfold screen. assert (tail25 (a ++ [x]) = tail24 a ++ [x]) as ->.
  { unfold tail25, tail24. rewrite length_app. cbn [length]. rewrite drop_app_le by lia. do 2 f_equal. lia. }
  rewrite fmap_app, length_app. cbn [length fmap list_fmap]. rewrite <- app_assoc. do 3 f_equal. lia.
Qed.

Lemma length_show l : (length l ≤ 80)%nat → length (show_line l) = 80%nat.
Proof. intros Hl. unfold show_line. rewrite length_app, length_fmap, length_replicate. lia. Qed.

Lemma show_snoc l c : (length l < 80)%nat → show_line (l ++ [c]) = <[length l := (c, GRAY_ON_BLACK)]> (show_line l).
Proof.
  intros Hl. unfold show_line. rewrite insert_app_r_alt by (by rewrite length_fmap).
  rewrite length_fmap, Nat.sub_diag, fmap_app, length_app, <- app_assoc. f_equal.
  replace (80 - length l)%nat with (S (80 - (length l + 1))) by lia. done.
Qed.

Lemma screen_shaped a x :
  Forall (λ l : list Z, (length l ≤ 80)%nat) (a ++ [x]) →
  length (screen (a ++ [x])) = 25%nat ∧ Forall (λ r : list cell, length r = 80%nat) (screen (a ++ [x])).
Proof.
  intros Ha. rewrite screen_snoc. split.
  - rewrite length_app, length_fmap. cbn [length]. rewrite length_replicate, length_tail24. lia.
  - apply Forall_app in Ha as [Ha Hx]. apply Forall_app. split.
    + apply Forall_fmap. unfold tail24. apply Forall_drop. eapply Forall_impl; [exact Ha|]. intros l Hl. by apply length_show.
    + constructor; [apply length_show; by inv Hx|]. apply Forall_replicate. apply length_replicate.
Qed.

(** A new line at the end of the text. *)
Lemma screen_newline a x :
  screen ((a ++ [x]) ++ [[]]) =
    if Z.of_nat (length a) + 1 >=? 25 then drop 1 (screen (a ++ [x])) ++ [blank] else screen (a ++ [x]).
Proof.
  rewrite (screen_snoc (a ++ [x])), (screen_snoc a x). change (show_line []) with blank. rewrite !length_tail24, length_app.
  cbn [length]. destruct (Z.geb_spec (Z.of_nat (length a) + 1) 25) as [H|H].
  - assert (tail24 (a ++ [x]) = drop 1 (tail24 a) ++ [x]) as ->.
    { unfold tail24. rewrite length_app, drop_drop. cbn [length]. rewrite drop_app_le by lia. do 2 f_equal. lia. }
    replace (24 - Nat.min (length a + 1) 24)%nat with 0%nat by lia. replace (24 - Nat.min (length a) 24)%nat with 0%nat by lia.
    rewrite fmap_app, fmap_drop, drop_app_le by (rewrite length_fmap, length_tail24; lia). by rewrite <- !app_assoc.
  - assert (tail24 (a ++ [x]) = tail24 a ++ [x]) as ->.
    { unfold tail24. rewrite length_app. cbn [length]. replace (length a + 1 - 24)%nat with 0%nat by lia.
      by replace (length a - 24)%nat with 0%nat by lia. }
    rewrite fmap_app, <- app_assoc. cbn [fmap list_fmap app]. do 2 f_equal.
    replace (24 - Nat.min (length a) 24)%nat with (S (24 - Nat.min (length a + 1) 24)) by lia. done.
Qed.

(** A character at the end of the last line. *)
Lemma screen_char a x c :
  (length x < 80)%nat →
  screen (a ++ [x ++ [c]]) = <[length (tail24 a) := <[length x := (c, GRAY_ON_BLACK)]> (show_line x)]> (screen (a ++ [x])).
Proof.
  intros Hx. rewrite !screen_snoc, show_snoc by done.
  rewrite insert_app_r_alt by (by rewrite length_fmap). by rewrite length_fmap, Nat.sub_diag.
Qed.

Lemma screen_row a x : screen (a ++ [x]) !! length (tail24 a) = Some (show_line x).
Proof. rewrite screen_snoc. apply list_lookup_middle. by rewrite length_fmap. Qed.

(** ** Typing *)

(** The screen shows the text whose lines are [t]. *)
Record shows (s : vga) (t : list (list Z) * list Z) : Prop := {
  sh_inited : inited s = true;
  sh_context : in_external_intr (ksched s) = false;
  sh_fb : fb s = screen (lines t);
  sh_cx : cx s = zlen t.2;
  sh_cy : cy s = Z.of_nat (length (tail24 t.1));
  sh_room : zlen t.2 ≤ 80;
  sh_lines : Forall (λ l : list Z, (length l ≤ 80)%nat) t.1
}.

(** Characters that are shown, and the end of a line. *)
Definition shown (c : Z) : Prop := in_u8 c ∧ c ∉ [7; 8; 9; 12; 13].

Lemma lines_fit s t : shows s t → Forall (λ l : list Z, (length l ≤ 80)%nat) (t.1 ++ [t.2]).
Proof.
  intros Hs. apply Forall_app. split; [apply (sh_lines _ _ Hs)|]. constructor; [|done].
  pose proof (sh_room _ _ Hs). unfold zlen in *. lia.
Qed.

Lemma shows_shaped s t : shows s t → shaped s.
Proof. intros Hs. unfold shaped. rewrite (sh_fb _ _ Hs). apply screen_shaped. by eapply lines_fit. Qed.

(** The state of the screen without the machine's. *)
Definition view (s : vga) := (inited s, cx s, cy s, fb s).

Lemma shows_view s s' t : view s' = view s → in_external_intr (ksched s') = false → shows s t → shows s' t.
Proof. intros [= H1 H2 H3 H4] He [? ? ? ? ? ? ?]. split; congruence. Qed.

Lemma move_cursor_ok s : ∃ s', move_cursor s = Ok (tt, s') ∧ view s' = view s ∧ ksched s' = ksched s.
Proof. unfold move_cursor. run. by eexists. Qed.

Lemma shows_newline s t :
  shows s t → ∃ s', newline s = Ok (tt, s') ∧ shows s' (t.1 ++ [t.2], []).
Proof.
  intros Hs. pose proof (shows_shaped _ _ Hs) as Hsh. pose proof (lines_fit _ _ Hs) as Hfit.
  destruct Hs as [Hi He Hf Hx Hy Hr Hl]. rewrite length_tail24 in Hy.
  rewrite newline_ok by (done || lia). eexists. split; [reflexivity|].
  assert ((cy s + 1 >=? 25) = (Z.of_nat (length t.1) + 1 >=? 25)) as E
    by (destruct (Z.geb_spec (cy s + 1) 25), (Z.geb_spec (Z.of_nat (length t.1) + 1) 25); lia).
  pose proof (screen_newline t.1 t.2) as Hn. rewrite E. unfold lines in Hf.
  destruct (Z.geb_spec (Z.of_nat (length t.1) + 1) 25); split; cbn [inited fb cx cy set_fb set_cursor fst snd]; try done;
    try (unfold lines; cbn [fst snd]; rewrite Hn, Hf; done); rewrite length_tail24, length_app; cbn [length]; lia.
Qed.

Lemma shows_char s t c :
  shows s t → zlen t.2 < 80 → in_u8 c →
  ∃ s', put_cell (cy s) (cx s) c GRAY_ON_BLACK s = Ok (tt, s') ∧
    view s' = (true, cx s, cy s, screen (t.1 ++ [t.2 ++ [c]])) ∧ ksched s' = ksched s.
Proof.
  intros Hs Hroom Hc. pose proof Hs as [Hi He Hf Hx Hy Hr Hl]. unfold zlen in *.
  rewrite (put_cell_ok s (cy s) (cx s) c GRAY_ON_BLACK (show_line t.2)); [|lia|lia| |].
  - eexists. split; [reflexivity|]. unfold view. cbn. rewrite Hi, Hf, u8_small by done. split; [|done].
    rewrite screen_char by lia. do 3 f_equal; [by rewrite Hy, Nat2Z.id|]. f_equal. by rewrite Hx, Nat2Z.id.
  - rewrite Hf, Hy, Nat2Z.id. apply screen_row.
  - rewrite length_show by lia. lia.
Qed.

Section typing.
Context (ticks_during : Z → Z).

Lemma shows_putc s t c :
  shows s t → zlen t.2 < 80 → shown c →
  ∃ s', vga_putc ticks_during c s = Ok (tt, s') ∧ shows s' (wrap_char t c) ∧ zlen (wrap_char t c).2 < 80.
Proof.
  intros Hs Hroom [Hc Hn]. unfold vga_putc. rewrite (bind_ok _ _ _ _ _ (on_sched_disable s)).
  assert (shows (cli s) t) as Hs1.
  { eapply shows_view; [| |exact Hs]; [done|]. unfold cli. rewrite ksched_set. apply Hs. }
  set (s1 := cli s) in *. clearbody s1. unfold init. run. rewrite (sh_inited _ _ Hs1). cbn [negb]. run.
  assert (∀ (m : M vga unit) s2, m s1 = Ok (tt, s2) → shows s2 (wrap_char t c) → zlen (wrap_char t c).2 < 80 →
    ∃ s', (m;;; move_cursor;;; let* _ := on_sched (intr_set_level (intr_on (ksched s))) in ret tt) s1 = Ok (tt, s') ∧
      shows s' (wrap_char t c) ∧ zlen (wrap_char t c).2 < 80) as Hend.
  { intros m s2 E Hs2 Hroom2. rewrite (bind_ok _ _ _ _ _ E). destruct (move_cursor_ok s2) as (s3 & E3 & V3 & K3).
    rewrite (bind_ok _ _ _ _ _ E3). pose proof (sh_context _ _ Hs2) as Hx2.
    erewrite bind_ok by (apply on_sched_ok, intr_set_level_ok; by rewrite K3).
    eexists. split; [reflexivity|]. split; [|done]. eapply shows_view; [| |exact Hs2]; [done|]. rewrite ksched_set. cbn. by rewrite K3. }
  unfold wrap_char in *. destruct (Z.eqb_spec c 10) as [->|H10].
  { destruct (shows_newline s1 t Hs1) as (s2 & E & Hs2). by eapply Hend. }
  rewrite !not_elem_of_cons in Hn. destruct Hn as (H7 & H8 & H9 & H12 & H13 & _).
  rewrite (proj2 (Z.eqb_neq c 12)), (proj2 (Z.eqb_neq c 8)), (proj2 (Z.eqb_neq c 13)), (proj2 (Z.eqb_neq c 9)),
    (proj2 (Z.eqb_neq c 7)) by done.
  destruct (shows_char s1 t c Hs1 Hroom Hc) as (s2 & E & V & K). pose proof Hs1 as [Hi He Hf Hx Hy Hr Hl].
  pose proof (f_equal (λ v, v.1.1.1) V) as V1. pose proof (f_equal (λ v, v.1.1.2) V) as V2.
  pose proof (f_equal (λ v, v.1.2) V) as V3. pose proof (f_equal snd V) as V4. cbn in V1, V2, V3, V4.
  assert (shows (set_cursor (cx s1 + 1) (cy s1) s2) (t.1, t.2 ++ [c])) as Hs3.
  { split; cbn [inited fb cx cy set_cursor fst snd]; try done.
    - change (in_external_intr (ksched s2) = false). by rewrite K.
    - rewrite Hx. unfold zlen. rewrite length_app. cbn [length]. lia.
    - unfold zlen in *. rewrite length_app. cbn [length]. lia. }
  rewrite Hx. rewrite Hx in Hs3. revert Hend. change COL_CNT with 80.
  destruct (Z.eqb_spec (zlen t.2 + 1) 80) as [Hfull|Hfull]; intros Hend.
  - destruct (shows_newline _ _ Hs3) as (s4 & E4 & Hs4). eapply Hend; [|exact Hs4|done].
    rewrite Hx in E. rewrite (bind_ok _ _ _ _ _ E). run. by rewrite Hfull.
  - eapply Hend; [|exact Hs3|unfold zlen in *; cbn [snd]; rewrite length_app; cbn [length]; lia].
    rewrite Hx in E. rewrite (bind_ok _ _ _ _ _ E). run.
    destruct (Z.geb_spec (zlen t.2 + 1) 80); [lia|done].
Qed.

Lemma shows_puts text s t :
  shows s t → zlen t.2 < 80 → Forall shown text →
  ∃ s', puts ticks_during text s = Ok (tt, s') ∧ shows s' (fold_left wrap_char text t) ∧ zlen (fold_left wrap_char text t).2 < 80.
Proof.
  intros Hs Hr Ht. revert s t Hs Hr. induction Ht as [|c text Hc _ IH]; intros s t Hs Hr; [by exists s|].
  cbn [puts fold_left]. destruct (shows_putc s t c Hs Hr Hc) as (s1 & E & Hs1 & Hr1).
  rewrite (bind_ok _ _ _ _ _ E). by apply IH.
Qed.
End typing.

(** C27. From a blank screen on, vga_putc() shows the end of the text: whatever
    characters and ends of line are written, every write falls inside the
    framebuffer, and the screen holds the last 25 of the lines that the text has
    when it is broken at every newline and after 80 characters, with the cursor
    after the last character of the last line. *)
Theorem vga_shows_tail (ticks_during : Z → Z) (text : list Z) (s : vga) :
  inited s = true → in_external_intr (ksched s) = false → cx s = 0 → cy s = 0 → fb s = replicate 25 blank →
  Forall shown text →
  ∃ s', puts ticks_during text s = Ok (tt, s') ∧ fb s' = screen (lines (wrap text)) ∧
    cx s' = zlen (wrap text).2 ∧ cy s' = Z.min (zlen (wrap text).1) 24 ∧ 0 ≤ cx s' < 80 ∧ 0 ≤ cy s' < 25.
Proof.
  intros Hi He Hx Hy Hf Ht.
  destruct (shows_puts ticks_during text s ([], [])) as (s' & E & [H1 H2 H3 H4 H5 H6 H7] & Hr); [|done|done|].
  { split; try done. }
  exists s'. fold (wrap text) in *. rewrite length_tail24 in H5. unfold zlen in *. split_and!; try done; lia.
Qed.

(** 27 lines, the last of which wraps: the first three are gone. *)
Definition demo_text : list Z :=
  concat ((λ i : nat, [65 + Z.of_nat i; 10]) <$> seq 0 26) ++ replicate 81 97.
Definition demo_vga : vga := mk_vga demo_uart 1024 true 0 0 (replicate 25 blank).

Lemma vga_shows_tail_witness :
  head (screen (lines (wrap demo_text))) = Some (show_line [68]) ∧
  ∃ s', puts (λ _, 0) demo_text demo_vga = Ok (tt, s') ∧ fb s' = screen (lines (wrap demo_text)) ∧
    cx s' = zlen (wrap demo_text).2 ∧ cy s' = Z.min (zlen (wrap demo_text).1) 24 ∧ 0 ≤ cx s' < 80 ∧ 0 ≤ cy s' < 25.
Proof.
  split; [vm_compute; reflexivity|].
  apply (vga_shows_tail (λ _, 0) demo_text demo_vga); try reflexivity.
  apply (bool_decide_eq_true_1 _). vm_compute. reflexivity.
Defined.

End Vga.
