(* ===== verification/Fsutil.v ===== *)
(** * Fsutil: the kernel's file utilities (filesys/fsutil.c)

    The actions ls, cat, rm, extract and append of the kernel's command line, on
    the file system of [Filesys] and the archive headers of [Ustar].  The
    archive is on the device with the role BLOCK_SCRATCH; it is read and written
    through [Block]'s block_read() and block_write(), beside the buffer cache.
    Progress messages are left out; what ls and cat print is in [console].

    The theorem on append follows the file system on one device and the archive
    on another through the same state: [with_scratch] is the buffer cache as a
    sector store that says what the other device holds. *)

From Stdlib Require Import ZArith Lia.
From stdpp Require Import base tactics option list numbers gmap strings.
From S2P Require Import Prelude Memory Bitmap Sched Synch Block FsState FreeMap Inode FsAlloc File Directory DirSpec Filesys.
From S2P Require Import Palloc Load LoadFs Stdio Ustar.
Import Sched Synch Block FsState FreeMap Inode FsAlloc File Directory Filesys.

Module Fsutil.

(** The number of the role BLOCK_SCRATCH. *)
Definition ROLE_SCRATCH : Z := 2.

(** The file system, the console, and the two static variables [sector]. *)
Record ustate := mk_ustate {
  ufs : fstate bstate;
  console : list Z;
  extract_sector : Z;
  append_sector : Z
}.

Definition on_fs {A} (m : M (fstate bstate) A) : M ustate A :=
  lift ufs (λ f s, mk_ustate f (console s) (extract_sector s) (append_sector s)) m.
Definition on_console {A} (m : M (list Z) A) : M ustate A :=
  lift console (λ c s, mk_ustate (ufs s) c (extract_sector s) (append_sector s)) m.
Definition on_dev {A} (m : M bstate A) : M ustate A := on_fs (on_store m).

(** [sector++]. *)
Definition next_extract : M ustate Z :=
  let* s := get in
  modify (λ s, mk_ustate (ufs s) (console s) (u32 (extract_sector s + 1)) (append_sector s));;;
  ret (extract_sector s).
Definition next_append : M ustate Z :=
  let* s := get in
  modify (λ s, mk_ustate (ufs s) (console s) (extract_sector s) (u32 (append_sector s + 1)));;;
  ret (append_sector s).

(** malloc() or palloc_get_page (PAL_ASSERT), with a panic when there is no
    memory. *)
Definition buffer_or_panic : M ustate unit := let* ok := on_fs malloc_ok in assert ok.

(** Run a routine on a buffer of the caller. *)
Definition on_local {T A} (t : T) (m : M T A) : M ustate (A * T) := λ s,
  match m t with
  | Ok r => Ok (r, s)
  | Panic => Panic
  | Fault => Fault
  | Blocked _ _ | NoFuel => NoFuel
  end.

Section fsutil.
Context `{!SectorStore bstate}.

(** [n] and [k] bound the nested writes of the free map and the entries of a
    directory; [junk] and [part] are what is on the stack. *)
Context (n k : nat) (junk : dir_entry) (part : list Z).

Fixpoint ls_loop (fuel : nat) (dp : Z) (name : list Z) : M ustate unit :=
  match fuel with
  | O => no_fuel
  | S fuel =>
      let* r := on_fs (dir_readdir k junk dp name) in
      match r with
      | Some name =>
          on_console (Stdio.printf "%s"%string [Stdio.Str name];;; Stdio.__printf [10; 0] []);;;
          ls_loop fuel dp name
      | None => ret tt
      end
  end.

Definition fsutil_ls (fuel : nat) (name : list Z) : M ustate unit :=
  let* dp := on_fs dir_open_root in
  ls_loop fuel dp name;;;
  on_fs (dir_close n (Some dp)).

Fixpoint cat_loop (fuel : nat) (fp : Z) : M ustate unit :=
  match fuel with
  | O => no_fuel
  | S fuel =>
      let* pos := on_fs (file_tell fp) in
      let* d := on_fs (file_read fp 4096) in
      if zlen d =? 0 then ret tt
      else
        on_console (Stdio.hex_dump (u32 pos) d (zlen d) true);;;
        cat_loop fuel fp
  end.

Definition fsutil_cat (fuel : nat) (file_name : list Z) : M ustate unit :=
  let* file := on_fs (filesys_open n k junk file_name) in
  match file with
  | None => panic
  | Some fp =>
      buffer_or_panic;;;
      cat_loop fuel fp;;;
      on_fs (file_close n (Some fp))
  end.

Definition fsutil_rm (cwd : option Z) (file_name : list Z) : M ustate unit :=
  let* ok := on_fs (filesys_remove n k junk part cwd file_name) in
  if negb ok then panic else ret tt.

(** [while (size > 0)] of fsutil_extract(). *)
Fixpoint put_loop (fuel : nat) (src dst size : Z) : M ustate unit :=
  if size >? 0 then
    match fuel with
    | O => no_fuel
    | S fuel =>
        let chunk_size := if size >? BLOCK_SECTOR_SIZE then BLOCK_SECTOR_SIZE else size in
        let* x := next_extract in
        let* data := on_dev (block_read src x) in
        let* w := on_fs (file_write n dst data chunk_size) in
        if negb (w =? chunk_size) then panic
        else put_loop fuel src dst (size - chunk_size)
    end
  else ret tt.

Fixpoint extract_loop (fuel : nat) (src : Z) : M ustate unit :=
  match fuel with
  | O => no_fuel
  | S fuel =>
      let* x := next_extract in
      let* header := on_dev (block_read src x) in
      match Ustar.ustar_parse_header header with
      | Ustar.Error _ => panic
      | Ustar.Header file_name type size =>
          if type =? Ustar.USTAR_EOF then ret tt
          else if type =? Ustar.USTAR_DIRECTORY then extract_loop fuel src
          else if type =? Ustar.USTAR_REGULAR then
            let* file_name := deref file_name in
            let* ok := on_fs (filesys_create n k junk file_name size) in
            if negb ok then panic
            else
              let* dst := on_fs (filesys_open n k junk file_name) in
              match dst with
              | None => panic
              | Some dst =>
                  put_loop (Z.to_nat size) src dst size;;;
                  on_fs (file_close n (Some dst));;;
                  extract_loop fuel src
              end
          else extract_loop fuel src
      end
  end.

Definition fsutil_extract (fuel : nat) : M ustate unit :=
  let* header := on_fs malloc_ok in
  let* data := on_fs malloc_ok in
  assert (header && data);;;
  let* src := on_dev (block_get_role ROLE_SCRATCH) in
  match src with
  | None => panic
  | Some src =>
      extract_loop fuel src;;;
      let zeros := replicate (Z.to_nat BLOCK_SECTOR_SIZE) 0 in
      on_dev (block_write src 0 zeros);;;
      on_dev (block_write src 1 zeros)
  end.

(** [while (size > 0)] of fsutil_append(), with the contents of [buffer]. *)
Fixpoint take_loop (fuel : nat) (src dst size : Z) (buffer : list Z) : M ustate (list Z) :=
  if size >? 0 then
    match fuel with
    | O => no_fuel
    | S fuel =>
        let chunk_size := if size >? BLOCK_SECTOR_SIZE then BLOCK_SECTOR_SIZE else size in
        let* s := get in
        let* sectors := on_dev (block_size dst) in
        if append_sector s >=? sectors then panic
        else
          let* d := on_fs (file_read src chunk_size) in
          let buffer := splice 0 d buffer in
          if negb (zlen d =? chunk_size) then panic
          else
            let buffer := splice chunk_size (replicate (Z.to_nat (BLOCK_SECTOR_SIZE - chunk_size)) 0) buffer in
            let* x := next_append in
            on_dev (block_write dst x buffer);;;
            take_loop fuel src dst (size - chunk_size) buffer
    end
  else ret buffer.

(** [garbage] is what the buffer holds at first and [past] the byte in memory
    after its end, which the last block_write() copies. *)
Definition append_copy (file_name garbage : list Z) (past src : Z) : M ustate unit :=
  let* size := on_fs (file_length src) in
  let* dst := on_dev (block_get_role ROLE_SCRATCH) in
  match dst with
  | None => panic
  | Some dst =>
      let* (ok, buffer) := on_local garbage (Ustar.ustar_make_header file_name Ustar.USTAR_REGULAR size) in
      if negb ok then panic
      else
        let* x := next_append in
        on_dev (block_write dst x buffer);;;
        let* buffer := take_loop (Z.to_nat size) src dst size buffer in
        let buffer := splice 0 (replicate (Z.to_nat BLOCK_SECTOR_SIZE) 0) buffer in
        let* s := get in
        on_dev (block_write dst (append_sector s) buffer);;;
        on_dev (block_write dst (append_sector s) (drop 1 buffer ++ [past]))
  end.

Definition fsutil_append (file_name garbage : list Z) (past : Z) : M ustate unit :=
  buffer_or_panic;;;
  let* src := on_fs (filesys_open n k junk file_name) in
  match src with
  | None => panic
  | Some src =>
      append_copy file_name garbage past src;;;
      on_fs (file_close n (Some src))
  end.

End fsutil.

(** ** Two devices *)

Section scratch.
Context (dev b : Z) (Hne : Z.to_nat b ≠ Z.to_nat dev).

(** The file system's device through the buffer cache, while device [b] is
    [blk]. *)
#[program] Definition with_scratch (blk : block) (roles : list (option Z)) : SectorStore bstate := {|
  ss_read := read_buffered 2 dev;
  ss_write := write_buffered 2 dev;
  ss_flush := flush_buffer_cache;
  ss_sectors := block_size dev;
  ss_inv d := cache_inv dev d ∧ all_blocks d !! Z.to_nat b = Some blk ∧ block_by_role d = roles;
  ss_view := disk_view dev;
  ss_size := disk_size dev
|}.
Next Obligation. intros blk roles d [[] _]. done. Qed.
Next Obligation. intros blk roles d x [Hi _] Hx. by apply disk_view_total. Qed.
Next Obligation.
  intros blk roles d x st en v (Hi & Hb & Hr) Hx Hst Hen Hv.
  eapply wp_mono; [by apply (read_refines 0 dev x st en d v)|].
  intros r d' [-> (Hi' & (Hk & Hro & Hs & Hot) & Hv')]. split_and!; try done; [by rewrite Hot|by rewrite Hro|].
  intros y Hy. rewrite Hv' by done. by case_decide; subst.
Qed.
Next Obligation.
  intros blk roles d x data st en v (Hi & Hb & Hr) Hx Hst Hen Hl Hv.
  eapply wp_mono; [by apply (write_refines 0 dev x data st en d v)|].
  intros [] d' (Hi' & (Hk & Hro & Hs & Hot) & Hv'). split_and!; try done; [by rewrite Hot|by rewrite Hro].
Qed.
Next Obligation. intros blk roles d [Hi _]. exact (@ss_sectors_ok _ _ (cache_store dev) d Hi). Qed.
Next Obligation. intros blk roles d k [Hi Ho] Hk Hm. split; [exact (@ss_inv_kernel _ _ (cache_store dev) d k Hi Hk Hm)|by destruct d]. Qed.
Next Obligation. done. Qed.
Next Obligation. done. Qed.

#[local] Instance fs_store : SectorStore bstate := cache_store dev.

(** The file [fp], and what is on device [b] beside it. *)
Definition opened (s : fstate bstate) (fp : Z) (c : list Z) (p : Z) (blk : block) (roles : list (option Z)) : Prop :=
  LoadFs.open_file s fp c p ∧ all_blocks (disk s) !! Z.to_nat b = Some blk ∧ block_by_role (disk s) = roles.

(** Stores that show the same sectors show the same inodes. *)
Lemma foot_store (S1 S2 : SectorStore bstate) d isec x :
  @ss_view _ _ S1 = @ss_view _ _ S2 → @in_foot _ _ S1 d isec x → @in_foot _ _ S2 d isec x.
Proof.
  intros Hv. pose proof (@foot_inode _ _ S2 d isec) as F1. pose proof (@foot_block _ _ S2 d isec) as F2.
  pose proof (@foot_single _ _ S2 d isec) as F3. pose proof (@foot_double _ _ S2 d isec) as F4.
  pose proof (@foot_index _ _ S2 d isec) as F5. destruct S1, S2. cbn in Hv. subst.
  intros [|i Hi|Hi|Hi|i Hi]; [exact F1|exact (F2 i Hi)|exact (F3 Hi)|exact (F4 Hi)|exact (F5 i Hi)].
Qed.

Lemma inode_ok_store (S1 S2 : SectorStore bstate) d isec : @ss_view _ _ S1 = @ss_view _ _ S2 →
  @ss_size _ _ S1 = @ss_size _ _ S2 → @inode_ok _ _ S1 d isec → @inode_ok _ _ S2 d isec.
Proof.
  intros Hv Hs [G1 G2 G3 G4 G5 G6 G7]. pose proof (λ x, foot_store S2 S1 d isec x (eq_sym Hv)) as H2.
  destruct S1, S2. cbn in Hv, Hs. subst. split; try assumption; intros x Hx; [by apply G2, H2|by apply G3, H2].
Qed.

Lemma opened_with s fp c p blk roles :
  opened s fp c p blk roles ↔ @LoadFs.open_file _ _ (with_scratch blk roles) s fp c p.
Proof.
  split.
  - intros [(f & nd & Hf & [H1 H2 H3 H4] & Hok & Hrest) Ho]. exists f, nd. split; [done|]. split; [by split|].
    split; [exact (inode_ok_store (cache_store dev) (with_scratch blk roles) _ _ eq_refl eq_refl Hok)|exact Hrest].
  - intros (f & nd & Hf & [H1 H2 H3 (H4 & Ho)] & Hok & Hrest). split; [|done]. exists f, nd. split; [done|]. split; [by split|].
    split; [exact (inode_ok_store (with_scratch blk roles) (cache_store dev) _ _ eq_refl eq_refl Hok)|exact Hrest].
Qed.

Lemma opened_read s fp c p blk roles m : opened s fp c p blk roles → 0 <= p <= zlen c → 0 <= m →
  wp (file_read fp m) (λ d s', d = slice p (Z.min m (zlen c - p)) c ∧ opened s' fp c (p + zlen d) blk roles) s.
Proof.
  intros Ho Hp Hm. apply opened_with in Ho.
  pose proof (@LoadFs.file_read_law _ _ (with_scratch blk roles) s fp c p m Ho Hp Hm) as H.
  eapply wp_mono; [exact H|]. intros d s' [-> Ho']. split; [done|]. by apply opened_with.
Qed.

Lemma opened_length s fp c p blk roles : opened s fp c p blk roles →
  wp (file_length fp) (λ m s', m = zlen c ∧ opened s' fp c p blk roles) s.
Proof.
  intros Ho. apply opened_with in Ho.
  pose proof (@LoadFs.file_length_law _ _ (with_scratch blk roles) s fp c p Ho) as H.
  eapply wp_mono; [exact H|]. intros d s' [-> Ho']. split; [done|]. by apply opened_with.
Qed.

(** ** Writes to the other device *)

Lemma insert_splice {A} (l : list A) x d : 0 <= x < zlen l → <[Z.to_nat x := d]> l = splice x [d] l.
Proof.
  intros Hx. unfold splice, zlen in *. rewrite insert_take_drop by lia. cbn [length]. by rewrite Nat.add_1_r.
Qed.

Definition scratch_ok (blk : block) (med : list (list Z)) : Prop :=
  media blk = med ∧ bsize blk = zlen med ∧ btype blk ≠ BLOCK_FOREIGN.

Lemma opened_write s fp c p blk roles med x d : 0 <= b → opened s fp c p blk roles → scratch_ok blk med → 0 <= x < zlen med →
  wp (on_store (block_write b x d)) (λ _ s', ∃ blk', opened s' fp c p blk' roles ∧ scratch_ok blk' (splice x [d] med)) s.
Proof.
  intros Hb0 (Ho & Hb & Hr) (Hm & Hsz & Hty) Hx. unfold on_store. apply wp_lift. unfold wp, block_write.
  rewrite (check_sector_ok b Hb0 _ _ blk) by (done || lia). rewrite (block_at_ok b Hb0 _ _ blk) by done.
  rewrite bind_assert by (by rewrite bool_decide_eq_false_2).
  destruct (lookup_lt_is_Some_2 (media blk) (Z.to_nat x)) as [old Hold]; [rewrite Hm; unfold zlen in *; lia|].
  erewrite bind_deref by done. cbn [modify]. rewrite Hm, insert_splice by done. set (blk' := mk_block _ _ _ _ _ _).
  exists blk'. split; [split; [|split]|].
  - eapply LoadFs.open_file_reads; [exact Ho|]. eexists. split; [reflexivity|].
    destruct Ho as (f & nd & _ & [_ _ _ Hinv] & _). change (cache_inv dev (disk s)) in Hinv.
    destruct Hinv as [k ds rs cc h m a blk0 Hk Hmem Hd0 Hl Hbo Hc Hf Hh].
    assert (<[Z.to_nat b := blk']> ds !! Z.to_nat dev = Some blk0) as Hl' by (by rewrite list_lookup_insert_ne).
    split; [by apply (CacheInv dev k (<[Z.to_nat b := blk']> ds) rs cc h m a blk0)|]. split; [done|].
    cbn. unfold disk_size, disk_view. cbn. rewrite Hl', Hl. done.
  - cbn. apply list_lookup_insert_eq. by eapply lookup_lt_Some.
  - by destruct s as [[]].
  - split; [done|]. split; [|done]. cbn [bsize blk']. rewrite zlen_splice; [done|lia|cbn; unfold zlen in *; cbn; lia].
Qed.

(** ** The archive *)

(** The sectors of a member: its bytes, with zeros to the end of the last
    sector. *)
Definition padded (d : list Z) : list Z := d ++ replicate (512 - length d) 0.
Definition data_sectors (c : list Z) : list (list Z) :=
  (λ i, padded (slice (512 * i) 512 c)) <$> seqZ 0 ((zlen c + 511) / 512).

Lemma slice_clip {A} o m (l : list A) : 0 <= o <= zlen l → 0 <= m → slice o (Z.min m (zlen l - o)) l = slice o m l.
Proof.
  intros Ho Hm. unfold slice, zlen in *. destruct (decide (m <= Z.of_nat (length l) - o)); [by rewrite Z.min_l by lia|].
  rewrite Z.min_r by lia. rewrite !firstn_all2 by (rewrite length_drop; lia). done.
Qed.

Lemma zlen_slice_le {A} o m (l : list A) : 0 <= m → zlen (slice o m l) <= m.
Proof. intros Hm. unfold slice, zlen. rewrite length_take. lia. Qed.

Lemma zlen_padded d : zlen d <= 512 → zlen (padded d) = 512.
Proof. unfold padded, zlen. rewrite length_app, length_replicate. lia. Qed.

(** file_read() into the buffer and memset() of the rest of it. *)
Lemma pad_buffer d buffer : zlen buffer = 512 → zlen d <= 512 →
  splice (zlen d) (replicate (Z.to_nat (BLOCK_SECTOR_SIZE - zlen d)) 0) (splice 0 d buffer) = padded d.
Proof.
  intros Hb Hd. unfold BLOCK_SECTOR_SIZE. replace (zlen d) with (0 + zlen d) at 1 by lia.
  assert (zlen (replicate (Z.to_nat (512 - zlen d)) 0) = 512 - zlen d) as Hr by (unfold zlen in *; rewrite length_replicate; lia).
  rewrite splice_splice_adjacent by (rewrite ?Hr; lia). unfold padded, splice, zlen in *. cbn [Z.to_nat take].
  rewrite length_app, length_replicate. rewrite drop_ge by lia. rewrite app_nil_r. apply (f_equal (λ k, d ++ replicate k 0)). lia.
Qed.

Section append.
Context (fp : Z) (c : list Z) (roles : list (option Z)) (Hb0 : 0 <= b).

(** The file is at [p], the archive ends at sector [x] of the device, which
    holds [med]. *)
Definition at_sector (s : ustate) (p x : Z) (med : list (list Z)) : Prop :=
  (∃ blk, opened (ufs s) fp c p blk roles ∧ scratch_ok blk med) ∧ append_sector s = x.

Lemma wp_put s p x med y d : at_sector s p x med → 0 <= y < zlen med →
  wp (on_dev (block_write b y d)) (λ _ s', at_sector s' p x (splice y [d] med)) s.
Proof.
  intros [(blk & Ho & Hs) Hx] Hy. unfold on_dev, on_fs. apply wp_lift.
  eapply wp_mono; [by apply (opened_write _ _ _ _ _ _ _ y d Hb0 Ho Hs)|]. cbv beta. intros _ f Hf. by split.
Qed.

Lemma wp_next s p x med : at_sector s p x med → 0 <= x < 4294967295 →
  wp next_append (λ r s', r = x ∧ at_sector s' p (x + 1) med) s.
Proof.
  intros [Ho Hx] Hr. unfold next_append. wp_steps. split; [done|]. split; [done|]. cbn. rewrite Hx. rewrite u32_small; [done|].
  unfold in_u32. lia.
Qed.

Lemma wp_take s p x med m : at_sector s p x med → 0 <= p <= zlen c → 0 <= m <= zlen c - p →
  wp (on_fs (file_read fp m)) (λ d s', d = slice p m c ∧ zlen d = m ∧ at_sector s' (p + m) x med) s.
Proof.
  intros [(blk & Ho & Hs) Hx] Hp Hm. unfold on_fs. apply wp_lift.
  eapply wp_mono; [apply (opened_read _ _ _ _ _ _ m Ho); lia|]. cbv beta. intros d f [-> Ho'].
  rewrite Z.min_l in * by lia. rewrite zlen_slice in Ho' |- * by lia. split; [done|]. split; [done|]. split; [by exists blk|done].
Qed.

Lemma wp_size s p x med : at_sector s p x med → wp (on_dev (block_size b)) (λ r s', r = zlen med ∧ at_sector s' p x med) s.
Proof.
  intros [(blk & Ho & Hs) Hx]. unfold on_dev, on_fs. apply wp_lift. unfold on_store. apply wp_lift. unfold wp, block_size.
  destruct Ho as (Ho & Hl & Hr). rewrite (block_at_ok b Hb0 _ _ blk) by done. cbn. split; [apply Hs|].
  split; [|done]. exists blk. split; [|done]. by destruct s as [[]].
Qed.

Lemma wp_len s p x med : at_sector s p x med →
  wp (on_fs (file_length fp)) (λ r s', r = zlen c ∧ zlen c < 2147483648 ∧ at_sector s' p x med) s.
Proof.
  intros [(blk & Ho & Hs) Hx]. unfold on_fs. apply wp_lift. pose proof (proj1 Ho) as (f & nd & _ & _ & _ & Hlen & Hc & _).
  eapply wp_mono; [by apply (opened_length _ _ _ _ _ _ Ho)|]. cbv beta. intros r f' [-> Ho']. split; [done|].
  split; [|split; [by exists blk|done]]. rewrite <- Hc, zlen_content by lia. pose proof LoadFs.max_file. lia.
Qed.

Lemma wp_role s p x med o : roles !! Z.to_nat ROLE_SCRATCH = Some o → at_sector s p x med →
  wp (on_dev (block_get_role ROLE_SCRATCH)) (λ r s', r = o ∧ at_sector s' p x med) s.
Proof.
  intros Hrole [(blk & Ho & Hs) Hx]. unfold on_dev, on_fs. apply wp_lift. unfold on_store. apply wp_lift.
  unfold block_get_role. apply wp_bind, wp_assert; [done|]. apply wp_bind, wp_get.
  apply (wp_deref _ o); [by rewrite (proj2 (proj2 Ho))|]. split; [done|]. split; [|done]. exists blk. split; [|done]. by destruct s as [[]].
Qed.

(** The loop copies the sectors from the [i]th on. *)
Lemma take_loop_ok fuel : ∀ i s x med buffer, at_sector s (Z.min (512 * i) (zlen c)) x med → 0 <= i → zlen buffer = 512 →
  let m := (zlen c + 511) / 512 - i in
  0 <= m <= Z.of_nat fuel → 0 <= x → x + m <= zlen med → zlen med < 4294967296 →
  wp (take_loop fuel fp b (zlen c - Z.min (512 * i) (zlen c)) buffer)
    (λ buffer' s', zlen buffer' = 512 ∧
       at_sector s' (zlen c) (x + m) (splice x ((λ i, padded (slice (512 * i) 512 c)) <$> seqZ i m) med)) s.
Proof.
  pose proof (zlen_nonneg c) as Hc0.
  induction fuel as [|fuel IH]; intros i s x med buffer Hs Hi Hbuf m Hm Hx Hroom Hmed.
  { assert (m = 0) as E by lia. rewrite E. assert (Z.min (512 * i) (zlen c) = zlen c) as Ep by (unfold m in E; dlia).
    rewrite Ep in *. cbn [take_loop]. rewrite Z.sub_diag. apply wp_ret.
    change (seqZ i 0) with (@nil Z). rewrite fmap_nil, splice_nil, Z.add_0_r. done. }
  cbn [take_loop]. rewrite Z.gtb_ltb. destruct (Z.ltb_spec 0 (zlen c - Z.min (512 * i) (zlen c))) as [Hpos|Hend].
  2: { assert (m = 0) as E by (unfold m in *; dlia). rewrite E. assert (Z.min (512 * i) (zlen c) = zlen c) as Ep by lia.
       rewrite Ep in *. apply wp_ret. change (seqZ i 0) with (@nil Z). rewrite fmap_nil, splice_nil, Z.add_0_r. done. }
  assert (512 * i < zlen c) as Hlt by lia. rewrite (Z.min_l (512 * i)) in * by lia.
  set (chunk := if zlen c - 512 * i >? BLOCK_SECTOR_SIZE then BLOCK_SECTOR_SIZE else zlen c - 512 * i).
  assert (chunk = Z.min 512 (zlen c - 512 * i)) as Hchunk
    by (unfold chunk, BLOCK_SECTOR_SIZE; rewrite Z.gtb_ltb; destruct (Z.ltb_spec 512 (zlen c - 512 * i)); lia).
  clearbody chunk. assert (1 <= m) as Hm1 by (unfold m; dlia).
  apply wp_bind, wp_get, wp_bind. eapply wp_mono; [by eapply wp_size|]. cbv beta. intros r s1 [-> Hs1].
  rewrite (proj2 Hs). rewrite Z.geb_leb, (proj2 (Z.leb_gt _ _)) by lia.
  apply wp_bind. eapply wp_mono; [by apply (wp_take s1 _ _ _ chunk Hs1); lia|]. cbv beta. intros d s2 (-> & Hd & Hs2).
  rewrite Hd, Z.eqb_refl. cbn [negb].
  apply wp_bind. eapply wp_mono; [apply (wp_next _ _ _ _ Hs2); lia|]. cbv beta. intros r s3 [-> Hs3].
  set (buf := splice chunk _ _).
  assert (buf = padded (slice (512 * i) 512 c)) as Hpad.
  { pose proof (pad_buffer (slice (512 * i) chunk c) buffer Hbuf ltac:(lia)) as P. rewrite Hd in P. unfold buf. rewrite P.
    f_equal. by rewrite Hchunk, slice_clip by lia. }
  assert (zlen buf = 512) as Hbl by (rewrite Hpad; apply zlen_padded, zlen_slice_le; lia).
  apply wp_bind. eapply wp_mono; [apply (wp_put _ _ _ _ x buf Hs3); lia|]. cbv beta. intros _ s4 Hs4.
  assert (512 * i + chunk = Z.min (512 * (i + 1)) (zlen c)) as Enext by lia. rewrite Enext in Hs4.
  replace (zlen c - 512 * i - chunk) with (zlen c - Z.min (512 * (i + 1)) (zlen c)) by lia.
  assert (zlen (splice x [buf] med) = zlen med) as Hz by (apply zlen_splice; unfold zlen in *; cbn; lia).
  eapply wp_mono; [apply (IH (i + 1) s4 (x + 1) _ buf Hs4); rewrite ?Hz; unfold m in *; lia|]. cbv beta.
  intros buffer' s' [Hb' Hs']. split; [done|].
  replace (x + 1 + ((zlen c + 511) / 512 - (i + 1))) with (x + m) in Hs' by (unfold m; lia).
  rewrite (seqZ_cons i m) by lia. rewrite fmap_cons, <- Hpad.
  replace (Z.pred m) with ((zlen c + 511) / 512 - (i + 1)) by (unfold m; lia). rewrite <- (Z.add_1_r i).
  match goal with |- context [buf :: ?l] => change (buf :: l) with ([buf] ++ l) end.
  rewrite <- (splice_splice_adjacent x [buf]); [exact Hs'|lia|].
  change (zlen [buf]) with 1. unfold zlen at 1. rewrite length_fmap, length_seqZ. unfold m in *. lia.
Qed.
(** Where the end-of-archive marker should be. *)
Definition end_mark (past : Z) : list Z := replicate 511 0 ++ [past].

Lemma end_zeros buffer : zlen buffer = 512 →
  splice 0 (replicate (Z.to_nat BLOCK_SECTOR_SIZE) 0) buffer = replicate 512 0.
Proof.
  intros Hb. change (Z.to_nat BLOCK_SECTOR_SIZE) with 512%nat. unfold splice, zlen in *. rewrite length_replicate.
  change (Z.to_nat 0) with 0%nat. rewrite take_0, drop_ge by lia. apply app_nil_r.
Qed.

Lemma splice_twice {A} x (d d' : A) l : 0 <= x < zlen l → splice x [d'] (splice x [d] l) = splice x [d'] l.
Proof.
  intros Hx. assert (zlen (splice x [d] l) = zlen l) as Hz by (apply zlen_splice; [lia|]; change (zlen [d]) with 1; lia).
  rewrite <- !insert_splice by lia. apply list_insert_insert_eq.
Qed.

Lemma append_copy_ok s x med name garbage past : at_sector s 0 x med → roles !! Z.to_nat ROLE_SCRATCH = Some (Some b) →
  Forall (λ c, 0 < c < 256) name → zlen (Ustar.strip_antisocial_prefixes name) <= 99 → zlen garbage = 512 →
  let m := (zlen c + 511) / 512 in
  0 <= x → x + m + 2 <= zlen med → zlen med < 4294967296 →
  wp (append_copy name garbage past fp)
    (λ _ s', ∃ h, Ustar.ustar_parse_header h = Ustar.Header (Some (Ustar.strip_antisocial_prefixes name)) Ustar.USTAR_REGULAR (zlen c) ∧
       at_sector s' (zlen c) (x + 1 + m) (splice x (h :: data_sectors c ++ [end_mark past]) med)) s.
Proof.
  intros Hs Hrole Hn Hname Hg m Hx Hroom Hmed. pose proof (zlen_nonneg c) as Hc0. assert (0 <= m) as Hm by (unfold m; dlia).
  unfold append_copy. apply wp_bind. eapply wp_mono; [by apply wp_len|]. cbv beta. intros r s1 (-> & Hsize & Hs1).
  apply wp_bind. eapply wp_mono; [by apply (wp_role s1 0 x med)|]. cbv beta. intros r s2 [-> Hs2].
  destruct (Ustar.make_header_ok name Ustar.USTAR_REGULAR (zlen c) garbage Hg Hn ltac:(by left) ltac:(lia) Hname) as (h & Eh & Hh & _ & Hp).
  apply wp_bind. unfold on_local, wp at 1. rewrite Eh. cbv iota beta. cbn [negb].
  apply wp_bind. eapply wp_mono; [apply (wp_next _ _ _ _ Hs2); lia|]. cbv beta. intros r s3 [-> Hs3].
  apply wp_bind. eapply wp_mono; [apply (wp_put _ _ _ _ x h Hs3); lia|]. cbv beta. intros _ s4 Hs4.
  assert (zlen (splice x [h] med) = zlen med) as Hz by (apply zlen_splice; [lia|]; change (zlen [h]) with 1; lia).
  replace 0 with (Z.min (512 * 0) (zlen c)) in Hs4 at 1 by lia.
  apply wp_bind. replace (zlen c) with (zlen c - Z.min (512 * 0) (zlen c)) at 2 by lia.
  eapply wp_mono; [apply (take_loop_ok _ 0 s4 (x + 1) _ h Hs4); rewrite ?Hz; fold m; (done || unfold m in *; dlia)|].
  cbv beta. intros buffer s5 [Hbuf Hs5]. rewrite Z.sub_0_r in Hs5. fold (data_sectors c) in Hs5. fold m in Hs5.
  assert (zlen (data_sectors c) = m) as Hds by (unfold data_sectors; fold m; unfold zlen; rewrite length_fmap, length_seqZ; lia).
  change (x + 1) with (x + zlen [h]) in Hs5 at 2. rewrite splice_splice_adjacent in Hs5 by (rewrite ?Hds; change (zlen [h]) with 1; lia).
  set (med5 := splice x ([h] ++ data_sectors c) med) in *.
  assert (zlen med5 = zlen med) as Hz5 by (apply zlen_splice; [lia|]; rewrite zlen_app, Hds; change (zlen [h]) with 1; lia).
  apply wp_bind, wp_get. rewrite (proj2 Hs5), end_zeros by done.
  apply wp_bind. eapply wp_mono; [apply (wp_put _ _ _ _ (x + 1 + m) (replicate 512 0) Hs5); lia|]. cbv beta. intros _ s6 Hs6.
  change (drop 1 (replicate 512 0) ++ [past]) with (end_mark past).
  eapply wp_mono; [apply (wp_put _ _ _ _ (x + 1 + m) (end_mark past) Hs6); rewrite zlen_splice; [lia|lia|change (zlen [replicate 512 0]) with 1; lia]|].
  cbv beta. intros _ s7 Hs7. exists h. split; [exact Hp|]. rewrite splice_twice in Hs7 by lia. unfold med5 in Hs7.
  replace (x + 1 + m) with (x + zlen ([h] ++ data_sectors c)) in Hs7 at 2 by (rewrite zlen_app, Hds; change (zlen [h]) with 1; lia).
  rewrite splice_splice_adjacent in Hs7 by (rewrite ?zlen_app, ?Hds; change (zlen [h]) with 1; change (zlen [end_mark past]) with 1; lia).
  exact Hs7.
Qed.
End append.

Lemma end_mark_zeros m past : Ustar.is_all_zeros (replicate m 0 ++ [past]) = (past =? 0).
Proof. induction m as [|m IH]; [|exact IH]. cbn. by destruct (past =? 0). Qed.

Lemma end_mark_parse past : Ustar.ustar_parse_header (end_mark past) =
  if past =? 0 then Ustar.Header None Ustar.USTAR_EOF 0 else Ustar.Error "not a ustar archive".
Proof.
  unfold Ustar.ustar_parse_header, end_mark. rewrite end_mark_zeros. destruct (past =? 0); [done|].
  rewrite bool_decide_eq_false_2; [done|]. by vm_compute.
Qed.

(** C35. fsutil_append() adds a member to the archive on the scratch device: from
    sector [x] on there are a header, from which the extractor reads the name
    and size of the file, the bytes of the file, padded with zeros to whole
    sectors, and one sector more; the next member goes in its place; and no
    other sector changes.  The sector at the end is not the pair of zero sectors
    that ends an archive: it is written twice, the second time from one byte
    past the start of the buffer, so its last byte is the byte that follows the
    buffer in memory; unless that is a zero, the extractor finds no end of the
    archive there but a bad header. *)
Theorem fsutil_append_archives n k junk s fs1 fp c blk roles name garbage past :
  0 <= b → k_mallocs (kget (ufs s)) = [] → filesys_open n k junk name (ufs s) = Ok (Some fp, fs1) →
  opened fs1 fp c 0 blk roles → scratch_ok blk (media blk) → roles !! Z.to_nat ROLE_SCRATCH = Some (Some b) →
  Forall (λ c, 0 < c < 256) name → zlen (Ustar.strip_antisocial_prefixes name) <= 99 → zlen garbage = 512 →
  let x := append_sector s in
  let m := (zlen c + 511) / 512 in
  0 <= x → x + m + 2 <= zlen (media blk) → zlen (media blk) < 2 ^ 32 →
  (∃ s2 blk2 h, fsutil_append n k junk name garbage past s = on_fs (file_close n (Some fp)) s2 ∧
    all_blocks (disk (ufs s2)) !! Z.to_nat b = Some blk2 ∧ append_sector s2 = x + 1 + m ∧
    media blk2 = splice x (h :: data_sectors c ++ [end_mark past]) (media blk) ∧
    Ustar.ustar_parse_header h = Ustar.Header (Some (Ustar.strip_antisocial_prefixes name)) Ustar.USTAR_REGULAR (zlen c)) ∧
  Ustar.ustar_parse_header (end_mark past) =
    if past =? 0 then Ustar.Header None Ustar.USTAR_EOF 0 else Ustar.Error "not a ustar archive".
Proof.
  intros Hb0 Hmal Hopen Ho Hs Hrole Hn Hname Hg x m Hx Hroom Hmed. split; [|apply end_mark_parse].
  change (2 ^ 32) with 4294967296 in Hmed.
  set (s1 := mk_ustate fs1 (console s) (extract_sector s) (append_sector s)).
  assert (at_sector fp c roles s1 0 x (media blk)) as Hat by (split; [by exists blk|done]).
  pose proof (append_copy_ok fp c roles Hb0 s1 x (media blk) name garbage past Hat Hrole Hn Hname Hg Hx Hroom Hmed) as Hcopy.
  apply wp_inv in Hcopy as ([] & s2 & E & h & Hp & (blk2 & Ho2 & Hs2) & Hx2).
  exists s2, blk2, h. split; [|split; [apply Ho2|split; [done|split; [apply Hs2|done]]]].
  unfold fsutil_append, buffer_or_panic. rewrite bind_assoc.
  assert (on_fs malloc_ok s = Ok (true, s)) as Em.
  { assert (malloc_ok (ufs s) = Ok (true, ufs s)) as Em by (unfold malloc_ok; rewrite bind_gets; by rewrite Hmal). unfold on_fs, lift. rewrite Em. by destruct s. }
  rewrite (bind_ok _ _ _ _ _ Em). rewrite bind_assert by done.
  assert (on_fs (filesys_open n k junk name) s = Ok (Some fp, s1)) as Eo by (unfold on_fs, lift; by rewrite Hopen).
  rewrite (bind_ok _ _ _ _ _ Eo), (bind_ok _ _ _ _ _ E). done.
Qed.

End scratch.

(** ** Two disks *)

#[local] Instance demo_store : SectorStore bstate := cache_store 0.

Definition demo_tape : block := mk_block [104; 100; 98] BLOCK_SCRATCH 8 (replicate 8 (replicate 512 9)) 0 0.
Definition two_disks : bstate :=
  quiet (mk_kernel booted ∅ []) [demo_dev; demo_tape] [None; Some 0; Some 1; None] (replicate 64 None) 0 0 0.
Definition demo_blank : fstate bstate :=
  mk_fstate two_disks ∅ ∅ ∅ 100 [] new_lock true new_lock (Bitmap.Bitmap.mk_bitmap 0 []) None new_lock 0 0 0 0 0.

(** A file system with the file "a" of three bytes. *)
Definition demo_write_a : M (fstate bstate) unit :=
  inode_init;;;
  free_map_init (replicate 4 0);;;
  do_format 3;;;
  free_map_open 3;;;
  let* _ := filesys_create 3 20 DirSpec.demo_junk [97] 3 in
  let* o := filesys_open 3 20 DirSpec.demo_junk [97] in
  match o with
  | None => panic
  | Some fp => let* _ := file_write 3 fp [11; 22; 33] 3 in file_close 3 (Some fp)
  end.
Definition demo_with_a : fstate bstate := result_of (demo_write_a demo_blank) demo_blank.
Definition demo_opened : fstate bstate := result_of (filesys_open 3 20 DirSpec.demo_junk [97] demo_with_a) demo_with_a.
Definition demo_console : ustate := mk_ustate demo_with_a [] 0 0.

Lemma demo_open_a : filesys_open 3 20 DirSpec.demo_junk [97] demo_with_a = Ok (Some 113, demo_opened).
Proof.
  refine (Palloc.returns_eq (Some 113) (filesys_open 3 20 DirSpec.demo_junk [97] demo_with_a) demo_with_a _). vm_compute. reflexivity.
Qed.

Lemma demo_file_a : opened 0 1 demo_opened 113 [11; 22; 33] 0 demo_tape [None; Some 0; Some 1; None].
Proof.
  split; [|split; vm_compute; reflexivity]. change (fs_store 0) with demo_store. exists (mk_file 112 0 false), (fresh_inode 6).
  assert (file_len (disk demo_opened) 6 = 3) as Hl by (vm_compute; reflexivity).
  split; [vm_compute; reflexivity|]. split.
  { split; [vm_compute; reflexivity|reflexivity|reflexivity|].
    apply cache_check_ok; [vm_compute; reflexivity|split; vm_compute; reflexivity|vm_compute; reflexivity..]. }
  cbn [i_sector fresh_inode]. split.
  { apply (one_block_ok _ _ 8); [rewrite Hl; lia|vm_compute; reflexivity| | |lia]; (split; [lia|vm_compute; reflexivity]). }
  rewrite Hl. split; [split; [lia|reflexivity]|]. split; [vm_compute; reflexivity|]. split; [reflexivity|]. right.
  split; [split; [discriminate|reflexivity]|unfold in_s32; cbn; lia].
Qed.

Lemma fsutil_append_archives_witness :
  (∃ s2 blk2 h, fsutil_append 3 20 DirSpec.demo_junk [97] (replicate 512 7) 5 demo_console = on_fs (file_close 3 (Some 113)) s2 ∧
     all_blocks (disk (ufs s2)) !! 1%nat = Some blk2 ∧
     media blk2 = [h; padded [11; 22; 33]; end_mark 5] ++ replicate 5 (replicate 512 9) ∧
     Ustar.ustar_parse_header h = Ustar.Header (Some [97]) Ustar.USTAR_REGULAR 3) ∧
  Ustar.ustar_parse_header (end_mark 5) = Ustar.Error "not a ustar archive".
Proof.
  destruct (fsutil_append_archives 0 1 ltac:(discriminate) 3 20 DirSpec.demo_junk demo_console demo_opened 113 [11; 22; 33] demo_tape
    [None; Some 0; Some 1; None] [97] (replicate 512 7) 5) as [(s2 & blk2 & h & E & Hl & _ & Hm & Hp) Hbad];
    [lia|vm_compute; reflexivity|exact demo_open_a|exact demo_file_a|split; [reflexivity|split; [reflexivity|discriminate]]|reflexivity
    |repeat constructor; lia|vm_compute; discriminate|reflexivity|cbn; lia|vm_compute; discriminate|vm_compute; reflexivity|].
  split; [|exact Hbad]. exists s2, blk2, h. split; [exact E|]. split; [exact Hl|]. split; [|exact Hp].
  rewrite Hm. reflexivity.
Defined.

End Fsutil.
